(* ===== verification/_CoqProject ===== *)
-Q . S2P
Prelude.v
SubByte.v
DataTypes.v
Floats.v
QuantParams.v
Perm.v
Transpose.v
Layout.v
Partition.v
QnnTensor.v
Placement.v
Quantize.v
OpParams.v
Einsum.v
ModelWrapper.v
Memory.v
NodeGroups.v
Fusions.v
QdqSelector.v
QdqUnits.v
NodeUnitDefs.v
TensorInfo.v
ModelOps.v
OpBuilder.v
Builders.v
Convert.v
Bias.v
MoveBuilders.v
Folding.v
SimpleBuilders.v
IndexBuilders.v
MatMulBuilders.v
Decompositions.v
ConvBuilders.v
Lowering.v
MatMulLowering.v
ConvLowering.v
Compose.v
GraphIO.v
ThreadPool.v
Power.v
Timer.v
EpOptions.v
Compat.v
ContextModel.v
Execution.v
SystemDlc.v
Session.v
