(* ===== verification/Prelude.v ===== *)
(** * Verification of the QNN execution provider plugin

    The plugin (sources under [src/onnxruntime/core/providers/qnn], written [qnn/] below) lets
    ONNX Runtime run parts of a model on Qualcomm hardware.  A session goes through these
    parts:

    - options of the session and of a run are parsed by the provider
      ([qnn_execution_provider.cc], [soc_utility/]);
    - quantize and dequantize nodes around an op are grouped with it into node units
      ([builder/qdq_node_group_selector.cc], [ort_api.cc]);
    - the provider collects the units that QNN supports into partitions
      ([qnn_ep_partition_utils.cc]);
    - within a partition, node units are grouped into [IQnnNodeGroup] objects, some of which
      are fusions of several units ([builder/qnn_node_group]);
    - each group becomes tensors, parameters and nodes of a [QnnModelWrapper]
      ([builder/qnn_model_wrapper.cc]) through its fusion or the op builder of its op
      ([builder/opbuilder]); these use tensor descriptions ([builder/qnn_def.cc]), quantization
      parameters ([builder/qnn_quant_params_wrapper.cc], [builder/qnn_bq_utils.cc]) and the type,
      shape and data helpers of [builder/qnn_utils.cc] and [common/int4.h], [common/int2.h];
    - [ComposeQnnGraph] turns the wrapper's tables into calls of the QNN library;
    - a run binds the values of ONNX Runtime to the tensors of the graph and executes it
      ([builder/qnn_model.cc], [builder/qnn_graph_emitter.cc]), with votes for the performance of
      the device around it ([builder/qnn_htp_power_config_manager.cc], [builder/timer.cc]) and a
      recovery when the accelerator has crashed ([builder/qnn_backend_manager.cc]);
    - shared memory and its QNN memory handles are managed by [qnn_allocator.cc]
      and [builder/qnn_context_mem_handle_manager.cc]; on Windows the graphs of a session are
      finalized by jobs on the pool of [builder/qnn_thread_pool.cc].

    ** Files

    Shared: [Prelude] (this file), results, a state monad, and the loop, array, string and
      machine-integer lemmas that all files use.
    Data.  [SubByte]: [common/int4.h], [common/int2.h] and the functions of [builder/qnn_utils]
      on packed data.  [DataTypes]: element types, byte sizes, the ONNX-to-QNN type tables,
      fixed-point ranges, backend kinds.  [Floats]: IEEE binary32, binary64 and binary16 as
      computed by [spec_float].  [QuantParams]: [QnnQuantParamsWrapper].  [Perm]: permutation,
      layout and broadcasting helpers.  [Transpose]: transposes of weight data.  [Quantize]:
      quantization of data and the conversion to low power block quantization.
    Grouping.  [QdqSelector]: the selectors of QDQ node groups, activation folding and
      [GetAllOrtNodeUnits].  [QdqUnits]: the theorems about them.  [NodeUnitDefs]: inputs,
      outputs and attributes of node units.  [Partition]: [CreateSupportedPartitionNodeGroups].
      [NodeGroups]: [GetQnnNodeGroups] and, in its module [Affinity], [OpAffinityMap].
      [Fusions]: three fusions with the helpers of [builder/qnn_node_group/utils.cc].
      [Layout]: the computations of five fusions of Reshape and Transpose chains.
    Building.  [QnnTensor]: the accessors of [Qnn_Tensor_t], the tensor, parameter and op
      wrappers, creation of tensors and ops.  [ModelWrapper]: the tables of [QnnModelWrapper],
      unique names, BF16 conversion, [ComposeQnnGraph].  [TensorInfo]: descriptions of ONNX
      tensors, initializers and their quantization parameters.  [ModelOps]: the methods that
      add a tensor and a node, and the monad of the op builders.  [OpBuilder]: the base op
      builder with its virtual methods as a record.  [Builders], [MoveBuilders],
      [SimpleBuilders], [IndexBuilders], [MatMulBuilders], [ConvBuilders]: the builders of
      operators.
      [Convert]: the Convert nodes between fixed-point types.  [Bias]: the bias of quantized
      operators.  [Folding]: the folding of constant Transposes.
      [OpParams], [Einsum]: the computations of the builders of Slice, Pad, the pools, Split,
      Gather, Scatter and Einsum.  [Decompositions], [Lowering], [MatMulLowering],
      [ConvLowering]: what the nodes of a builder compute.
      [Compose]: the registry of builders and the loop that adds the groups.
    Running.  [EpOptions]: options and the table of SoCs.  [Compat]: the text that tells whether
      a cached context fits the machine.  [ContextModel]: EPContext nodes, written and read, and
      the contexts that sessions share ([builder/onnx_ctx_model_helper.cc],
      [shared_context.h]).  [SystemDlc]: the QNN system library and DLC containers.
      [Session]: loading, reloading and releasing the contexts of a session.  [GraphIO]: the
      inputs and outputs of a graph.  [Execution]: graph emitter, contexts, binding, execution,
      recovery.  [Memory]:
      [HtpSharedMemoryAllocator] with its tracker and the memory handles of a context.
      [Power], [Timer]: performance votes and the timer that releases them.  [ThreadPool]:
      [QnnJobThreadPool].

    ** How the code is modelled

    Functions keep their C++ names.  A status is the sum type [result]: [EpFail] for a status
    that the [RETURN_IF] macros make, [Throw] for an exception, [Trap] for an access that C++
    leaves undefined; numbers that the code prints into messages are left out of them.  An
    [assert] is treated as absent.  Members of a class are the fields of a record, a method
    that changes the object returns the new record.  Machine integers are [Z] with the
    wrap-around written out ([u32], [i64], ...); positions in containers are [nat].  Bytes are
    integers below 256.  Maps whose order does not matter are [gmap], [std::map] is a sorted
    list.  Op builders are programs of a state and error monad over the model wrapper
    ([ModelOps.M]), execution is one over the model and the backend ([Execution.X]).  Shared
    memory, timer and thread pool are step relations over all interleavings of their critical
    sections.

    Code that is not part of the repository is a parameter: the classes [DataTypes.SafeInt]
    (checked arithmetic), [QnnTensor.QnnInterface] (QNN graph functions), [Memory.RpcMem] and
    [Memory.QnnMem] (shared memory and memory handles), [Execution]'s context and graph
    functions, the records [Partition.GraphApi], [NodeGroups.OrtNode] and [TensorInfo.OrtGraph]
    (the ORT graph), and the strings of QNN's headers ([OpBuilder]).  Each has an instance that
    the witnesses use.  The interface between grouping and fusions is the class
    [NodeGroups.Fusion]; that between composition and op builders is [OpBuilder.builder_laws],
    which every builder is proved to keep and from which [Compose] is proved.

    ** What the theorems show

    - [Partition]: the partitions cover the supported nodes exactly once, and each is convex
      and topologically ordered, so that it can run as one graph.
    - [QdqUnits], [NodeUnitDefs]: every node is in exactly one unit, tensors inside a unit are
      not visible outside, and a unit has the inputs and outputs of its nodes.
    - [NodeGroups], [Fusions], [Layout]: every unit is in exactly one group, the groups are in
      topological order, no op runs on a backend that the user excluded, three fusions keep the
      contract that these facts rest on, and layout fusions move every element to where the
      replaced chain moves it.
    - [ModelWrapper], [QnnTensor], [Compose]: building a model keeps it closed and only adds to
      it; composition refines an abstract graph builder that declares inputs and outputs first,
      creates every tensor once and before its use, and adds exactly the listed nodes in order;
      names stay unique; the C struct of a wrapper describes what the wrapper owns.
    - [Decompositions], [Lowering], [MatMulLowering], [ConvLowering], [Convert], [Bias],
      [Einsum], [OpParams], [Folding]: the nodes, parameters or folded constants of a builder compute what the ONNX operator denotes, for
      any meaning of the QNN ops; a narrowing Convert keeps the levels of the output.
    - [TensorInfo], [Quantize], [SubByte], [DataTypes], [QuantParams], [Perm], [Transpose]:
      parameters come from the right channel, quantization is in range and read back exactly,
      packing round trips, sizes are exact without overflow, and permutations, transposes and
      reshapes agree with their element-wise meaning.
    - [GraphIO], [Execution], [EpOptions]: every value is bound to the tensor of its name at the
      position the kernel context has it, runs are counted in pairs, recovery leaves one tracked
      context and fresh tables, options are read exactly.
    - [ContextModel], [Session], [SystemDlc], [Compat]: a context model that was written is
      found and read back, each of its nodes gets a model of the context it names, the handles
      of the system library are freed or owned, and the compatibility text round trips.
    - [Memory], [Power], [Timer], [ThreadPool]: no memory handle outlives its allocation, a
      running graph is never relaxed, aborting the timer ends, jobs run once and in order and a
      running pool never gets stuck.

    Some lemmas state behaviour that a reader would not expect: the modules named [Findings]
    and those with a comment that says so.

    ** Bounds and fuel

    The partitioning loop runs with fuel [3 * N + 1] for [N] nodes, and it is proved that it
    ends with an empty work list within that; packing loops have one unit of fuel per
    element; the search for a free node name tries as many suffixes as there are names, like the
    code, and is proved to find one.  The thread pool has at most 255 workers because their number
    is a [uint8_t].  Everything else is structural recursion or a bounded loop over a list.

    ** What is not modelled

    Op builders outside the files above, and of Einsum and Pad the emission of tensors and
    nodes; the graph matching and node emission of the layout fusions and the fusions that are
    not named above: they are further clients of the base builder, of the monad [ModelOps.M] and
    of the contract [NodeGroups.Fusion], and their operators and fusions have no builder in
    [Compose].  The provider's capability query and
    compilation from ONNX, which need the whole ORT graph API; loading of the backend libraries,
    devices and loggers, which are calls of the platform.  Profiling, telemetry and tracing,
    which only log; Genie, custom ops, and the Windows-only allocators and importers. *)


From stdpp Require Export base list numbers option strings sets gmap.

(** ** Results

    [Ort::Status] and the exceptions of the C++ code.  [EpFail] is a status
    made by [MAKE_EP_FAIL] and the [RETURN_IF] macros, [Throw] an exception
    ([ORT_CXX_API_THROW], [SafeInt] overflow, [gsl::narrow]), [Trap] an access
    that the C++ code leaves undefined or that a [gsl::span] contract aborts. *)

Inductive err : Type :=
| EpFail (msg : string)
| Throw (msg : string)
| Trap.

Inductive result (A : Type) : Type :=
| Ok (a : A)
| Err (e : err).
Arguments Ok {A} a.
Arguments Err {A} e.

Global Instance err_eq_dec : EqDecision err.
Proof. solve_decision. Defined.
Global Instance result_eq_dec {A} `{EqDecision A} : EqDecision (result A).
Proof. solve_decision. Defined.

Definition rbind {A B} (r : result A) (f : A → result B) : result B :=
  match r with Ok a => f a | Err e => Err e end.
Definition rmap {A B} (f : A → B) (r : result A) : result B :=
  match r with Ok a => Ok (f a) | Err e => Err e end.

Declare Scope res_scope.
Delimit Scope res_scope with res.
Notation "'let*' x ':=' c 'in' k" := (rbind c (fun x => k))
  (at level 10, x pattern, c at level 200, k at level 200,
   format "'[v' 'let*'  x  ':='  c  'in' '/' k ']'") : res_scope.
Open Scope res_scope.

(** [RETURN_IF_NOT(cond, msg)] and [RETURN_IF(cond, msg)]. *)
Definition return_if_not (cond : bool) (msg : string) : result unit :=
  if cond then Ok tt else Err (EpFail msg).
Definition return_if (cond : bool) (msg : string) : result unit :=
  return_if_not (negb cond) msg.

Definition is_ok {A} (r : result A) : bool :=
  match r with Ok _ => true | Err _ => false end.

Lemma bind_Ok {A B} (f : A → result B) (r : result A) (b : B) :
  rbind r f = Ok b ↔ ∃ a, r = Ok a ∧ f a = Ok b.
Proof.
  destruct r as [a|e]; cbn; split.
  - eauto.
  - intros (a' & [= <-] & H); done.
  - done.
  - intros (a' & ? & _); done.
Qed.

Lemma return_if_not_Ok b msg u : return_if_not b msg = Ok u ↔ b = true.
Proof. destruct u, b; done. Qed.

Lemma return_if_Ok b msg u : return_if b msg = Ok u ↔ b = false.
Proof. destruct u, b; done. Qed.

(** Turns a hypothesis [(let* x := c in k) = Ok b] into the run of [c] and of [k]. *)
Ltac inv_bind H :=
  let a := fresh "a" in
  let H1 := fresh H in
  apply bind_Ok in H as (a & H1 & H).

Ltac simplify_res :=
  repeat match goal with
  | H : return_if_not _ _ = Ok _ |- _ => apply return_if_not_Ok in H
  | H : return_if _ _ = Ok _ |- _ => apply return_if_Ok in H
  | H : Ok _ = Ok _ |- _ => injection H as H
  | H : Ok _ = Err _ |- _ => discriminate H
  | H : Err _ = Ok _ |- _ => discriminate H
  | H : rbind _ _ = Ok _ |- _ => inv_bind H
  | u : unit |- _ => destruct u
  end; subst.

(** Follows every branch of a run that is known to succeed. *)
Ltac run_cases := repeat (progress simplify_res || case_match).

(** ** State and errors

    Steps over a state [S] that end with a value or an error and leave the state they reached. *)
Definition St (S A : Type) : Type := S → S * result A.
Definition sret {S A} (a : A) : St S A := fun s => (s, Ok a).
Definition sbind {S A B} (c : St S A) (k : A → St S B) : St S B := fun s =>
  match c s with (s', Ok a) => k a s' | (s', Err e) => (s', Err e) end.
Definition slift {S A} (r : result A) : St S A := fun s => (s, r).
Definition sget {S A} (f : S → A) : St S A := fun s => (s, Ok (f s)).
Definition sset {S} (f : S → S) : St S unit := fun s => (f s, Ok tt).
Notation "'let$' x ':=' c 'in' k" := (sbind c (fun x => k))
  (at level 200, x pattern, c at level 100, k at level 200, right associativity).

Fixpoint smap {S A B} (f : A → St S B) (l : list A) : St S (list B) :=
  match l with [] => sret [] | a :: l => let$ b := f a in let$ r := smap f l in sret (b :: r) end.

Lemma sbind_Ok {S A B} (c : St S A) (k : A → St S B) s s' b :
  sbind c k s = (s', Ok b) ↔ ∃ s1 a, c s = (s1, Ok a) ∧ k a s1 = (s', Ok b).
Proof.
  unfold sbind. destruct (c s) as [s1 [a|e]]; split; [eauto|by intros (? & ? & [= <- <-] & ?)|done|by intros (? & ? & ? & ?)].
Qed.

Lemma slift_Ok {S A} (r : result A) (s s' : S) a : slift r s = (s', Ok a) ↔ s' = s ∧ r = Ok a.
Proof. unfold slift. split; [by intros [= <- ->]|by intros [-> ->]]. Qed.

(** A property of states that a step keeps whatever it ends with. *)
Definition skeeps {S A} (P : S → Prop) (c : St S A) : Prop := ∀ s, P s → P (c s).1.

Lemma skeeps_bind {S A B} (P : S → Prop) (c : St S A) (k : A → St S B) :
  skeeps P c → (∀ a, skeeps P (k a)) → skeeps P (sbind c k).
Proof. intros Hc Hk s Hs. unfold sbind. specialize (Hc s Hs). destruct (c s) as [s1 [a|e]]; [by apply Hk|done]. Qed.

Lemma skeeps_lift {S A} (P : S → Prop) (r : result A) : skeeps P (slift r).
Proof. by intros s. Qed.
Lemma skeeps_ret {S A} (P : S → Prop) (a : A) : skeeps P (sret a).
Proof. by intros s. Qed.
Lemma skeeps_get {S A} (P : S → Prop) (f : S → A) : skeeps P (sget f).
Proof. by intros s. Qed.

Lemma skeeps_map {S A B} (P : S → Prop) (f : A → St S B) l : (∀ a, skeeps P (f a)) → skeeps P (smap f l).
Proof. intros Hf. induction l as [|a l IH]; [by intros s|]. apply skeeps_bind; [done|]. intros b. apply skeeps_bind; [done|]. by intros r s. Qed.

(** A C++ [for] loop over the listed values, with early return on error. *)
Fixpoint foldM {S A : Type} (body : S → A → result S) (xs : list A) (s : S) : result S :=
  match xs with
  | [] => Ok s
  | x :: xs => let* s' := body s x in foldM body xs s'
  end.

Lemma foldM_app {S A} (body : S → A → result S) xs ys s :
  foldM body (xs ++ ys) s = (let* s' := foldM body xs s in foldM body ys s').
Proof.
  revert s; induction xs as [|x xs IH]; intros s; [done|].
  cbn. destruct (body s x) as [s'|e]; cbn; [apply IH|done].
Qed.

Lemma foldM_concat_map {S A B} (body : S → B → result S) (g : A → list B) xs s :
  foldM (fun s x => foldM body (g x) s) xs s = foldM body (mjoin (g <$> xs)) s.
Proof.
  revert s; induction xs as [|x xs IH]; intros s; [done|].
  cbn. rewrite foldM_app. destruct (foldM body (g x) s); cbn; [apply IH|done].
Qed.

Lemma foldM_ext {S A} (f g : S → A → result S) xs s :
  (∀ s x, x ∈ xs → f s x = g s x) → foldM f xs s = foldM g xs s.
Proof.
  revert s; induction xs as [|x xs IH]; intros s H; [done|].
  cbn. rewrite H by set_solver. destruct (g s x); cbn; [|done].
  apply IH. set_solver.
Qed.

Lemma foldM_fmap {S A B} (body : S → B → result S) (g : A → B) xs s :
  foldM (fun s x => body s (g x)) xs s = foldM body (g <$> xs) s.
Proof.
  revert s; induction xs as [|x xs IH]; intros s; [done|].
  cbn. destruct (body s (g x)); cbn; [apply IH|done].
Qed.

(** Loop rule: an invariant indexed by the values already visited. *)
Lemma foldM_inv {S A} (body : S → A → result S) (I : list A → S → Prop) xs s s' :
  I [] s →
  (∀ done x s1 s2, I done s1 → body s1 x = Ok s2 → I (done ++ [x]) s2) →
  foldM body xs s = Ok s' → I xs s'.
Proof.
  intros Hinit Hstep.
  enough (∀ pre s, I pre s → foldM body xs s = Ok s' → I (pre ++ xs) s') as H
    by (intros ?; by apply (H [] s)).
  induction xs as [|x xs IH]; intros pre s0 Hpre Hrun; cbn in Hrun.
  - injection Hrun as <-. by rewrite app_nil_r.
  - inv_bind Hrun. rewrite cons_middle, app_assoc. eapply IH; eauto.
Qed.

(** The same, with the element known to be one of the list. *)
Lemma foldM_inv_in {S A} (body : S → A → result S) (I : list A → S → Prop) xs s s' :
  I [] s →
  (∀ done x s1 s2, x ∈ xs → I done s1 → body s1 x = Ok s2 → I (done ++ [x]) s2) →
  foldM body xs s = Ok s' → I xs s'.
Proof.
  intros Hinit Hstep.
  enough (∀ ys pre s, (∀ y, y ∈ ys → y ∈ xs) → I pre s → foldM body ys s = Ok s' → I (pre ++ ys) s') as H
    by (intros ?; by apply (H xs [] s)).
  induction ys as [|y ys IH]; intros pre s0 Hys Hpre Hrun; cbn in Hrun.
  - injection Hrun as <-. by rewrite app_nil_r.
  - inv_bind Hrun. rewrite cons_middle, app_assoc. eapply IH; [|eapply Hstep|done]; eauto.
    + intros z Hz. apply Hys. by right.
    + apply Hys. by left.
Qed.

(** Loop rule for total correctness. *)
Lemma foldM_total {S A} (body : S → A → result S) (I : list A → S → Prop) xs s :
  I [] s →
  (∀ done x rest s1, xs = done ++ x :: rest → I done s1 → ∃ s2, body s1 x = Ok s2 ∧ I (done ++ [x]) s2) →
  ∃ s', foldM body xs s = Ok s' ∧ I xs s'.
Proof.
  intros Hinit Hstep.
  enough (∀ post pre s, xs = pre ++ post → I pre s → ∃ s', foldM body post s = Ok s' ∧ I xs s') as H
    by (by apply (H xs [] s)).
  induction post as [|x post IH]; intros pre s0 E Hpre; cbn.
  - rewrite app_nil_r in E. subst pre. by exists s0.
  - destruct (Hstep pre x post s0 E Hpre) as (s2 & -> & H2). cbn. apply (IH (pre ++ [x])); [|done].
    by rewrite <- app_assoc.
Qed.

(** ** Arrays

    Indexed access to a [gsl::span] or a [std::vector]. *)
Definition aget {A} (l : list A) (i : nat) : result A :=
  match l !! i with Some x => Ok x | None => Err Trap end.

Definition aset {A} (l : list A) (i : nat) (x : A) : result (list A) :=
  if decide (i < length l) then Ok (<[i := x]> l) else Err Trap.

Lemma aget_Ok {A} (l : list A) i x : aget l i = Ok x ↔ l !! i = Some x.
Proof. unfold aget. destruct (l !! i); split; congruence. Qed.

Lemma aset_Ok {A} (l : list A) i x l' :
  aset l i x = Ok l' ↔ i < length l ∧ l' = <[i := x]> l.
Proof. unfold aset. case_decide; split; intros; destruct_and?; simplify_eq; auto; lia. Qed.

Lemma aget_lt {A} (l : list A) i : i < length l → ∃ x, aget l i = Ok x ∧ l !! i = Some x.
Proof.
  intros H. destruct (lookup_lt_is_Some_2 l i H) as [x Hx].
  exists x. split; [by apply aget_Ok|done].
Qed.

Lemma aset_lt {A} (l : list A) i x : i < length l → aset l i x = Ok (<[i := x]> l).
Proof. intros. unfold aset. by rewrite decide_True. Qed.

(** ** Machine integers *)

Definition wrapu (w z : Z) : Z := (z mod 2 ^ w)%Z.
Definition wraps (w z : Z) : Z := ((z + 2 ^ (w - 1)) mod 2 ^ w - 2 ^ (w - 1))%Z.

Abbreviation u8 := (wrapu 8).
Abbreviation u32 := (wrapu 32).
Abbreviation u64 := (wrapu 64).
Abbreviation i8 := (wraps 8).
Abbreviation i32 := (wraps 32).
Abbreviation i64 := (wraps 64).

Definition in_u (w z : Z) : Prop := (0 ≤ z < 2 ^ w)%Z.
Definition in_s (w z : Z) : Prop := (- 2 ^ (w - 1) ≤ z < 2 ^ (w - 1))%Z.

Section MachineIntegers.
Local Open Scope Z_scope.
Variable w : Z.
Hypothesis Hw : 0 < w.

Local Lemma pow_half : 2 ^ w = 2 * 2 ^ (w - 1).
Proof. rewrite <- Z.pow_succ_r by lia. f_equal; lia. Qed.

Lemma wrapu_range z : in_u w (wrapu w z).
Proof. apply Z.mod_pos_bound, Z.pow_pos_nonneg; lia. Qed.

Lemma wrapu_id z : in_u w z → wrapu w z = z.
Proof. apply Z.mod_small. Qed.

Lemma wraps_range z : in_s w (wraps w z).
Proof.
  unfold in_s, wraps. pose proof pow_half.
  pose proof (Z.mod_pos_bound (z + 2 ^ (w - 1)) (2 ^ w)). lia.
Qed.

Lemma wraps_id z : in_s w z → wraps w z = z.
Proof.
  unfold in_s, wraps. intros. pose proof pow_half.
  rewrite Z.mod_small; lia.
Qed.

Lemma wrapu_wraps z : wrapu w (wraps w z) = wrapu w z.
Proof.
  unfold wrapu, wraps. rewrite Zminus_mod_idemp_l. f_equal. lia.
Qed.

Lemma wraps_wrapu z : wraps w (wrapu w z) = wraps w z.
Proof. unfold wrapu, wraps. by rewrite Zplus_mod_idemp_l. Qed.
End MachineIntegers.

(** Linear arithmetic with division and modulo by constants. *)
Ltac zdiv := Z.to_euclidean_division_equations; lia.

Create HintDb qnn.
Create Rewrite HintDb qnn.
#[export] Hint Resolve wrapu_range wraps_range : qnn.
#[export] Hint Rewrite @length_insert @length_app @length_seq @length_fmap
  @length_replicate : qnn.

(** Bounded quantification over small integer ranges, decided by computation. *)
Definition forall_below (n : nat) (P : Z → bool) : bool :=
  forallb (fun i => P (Z.of_nat i)) (seq 0 n).

Lemma forall_below_spec n P :
  forall_below n P = true → ∀ z, (0 ≤ z < Z.of_nat n)%Z → P z = true.
Proof.
  unfold forall_below. rewrite forallb_forall. intros H z Hz.
  specialize (H (Z.to_nat z)). rewrite Z2Nat.id in H by lia.
  apply H, in_seq. lia.
Qed.

Lemma foldM_seq_S {S} (body : S → nat → result S) n s :
  foldM body (seq 0 (Datatypes.S n)) s = (let* s' := foldM body (seq 0 n) s in body s' n).
Proof.
  rewrite seq_S, foldM_app. destruct (foldM body (seq 0 n) s); cbn; [|done].
  by destruct (body a n).
Qed.

(** A loop [for i < n: d[i] = f(i)] over a buffer of [n] elements computes the
    list of the [f i]. *)
Section FillLoop.
Context {A : Type} (f : nat → result A).

Definition fill (d : list A) (i : nat) : result (list A) :=
  let* x := f i in aset d i x.

Lemma fill_prefix (l d : list A) k :
  length l = length d → k ≤ length l →
  (∀ i x, i < k → l !! i = Some x → f i = Ok x) →
  foldM fill (seq 0 k) d = Ok (take k l ++ drop k d).
Proof.
  intros Hlen Hk Hf. induction k as [|k IH].
  - cbn. by rewrite drop_0.
  - rewrite foldM_seq_S, IH by auto with lia. cbn. unfold fill.
    destruct (lookup_lt_is_Some_2 l k) as [x Hx]; [lia|].
    rewrite (Hf k x) by (lia || done). cbn.
    rewrite aset_lt by (rewrite length_app, length_take, length_drop; lia).
    f_equal. rewrite (take_S_r _ _ _ Hx), <- app_assoc.
    rewrite insert_app_r_alt by (rewrite length_take; lia).
    f_equal. rewrite length_take, Nat.min_l, Nat.sub_diag by lia.
    destruct (lookup_lt_is_Some_2 d k) as [y Hy]; [lia|].
    by rewrite (drop_S _ _ _ Hy).
Qed.

Lemma fill_all (l d : list A) :
  length l = length d →
  (∀ i x, l !! i = Some x → f i = Ok x) →
  foldM fill (seq 0 (length l)) d = Ok l.
Proof.
  intros Hlen Hf. rewrite (fill_prefix l d) by eauto.
  rewrite take_ge, drop_ge, app_nil_r by lia. done.
Qed.
End FillLoop.

(** A loop [for i < n: d[i] = g(d[i])] maps [g] over the buffer. *)
Section ModifyLoop.
Context {A : Type} (g : A → A).

Definition modify (d : list A) (i : nat) : result (list A) :=
  let* v := aget d i in aset d i (g v).

Lemma modify_prefix (d : list A) k :
  k ≤ length d →
  foldM modify (seq 0 k) d = Ok ((g <$> take k d) ++ drop k d).
Proof.
  induction k as [|k IH]; intros Hk.
  - cbn. by rewrite drop_0.
  - rewrite foldM_seq_S, IH by lia. cbn.
    destruct (lookup_lt_is_Some_2 d k) as [y Hy]; [lia|].
    assert (length (g <$> take k d) = k) as Hl
      by (rewrite length_fmap, length_take; lia).
    unfold modify, aget. rewrite lookup_app_r, Hl, Nat.sub_diag by lia.
    rewrite (drop_S _ _ _ Hy). cbn.
    rewrite aset_lt by (rewrite length_app, Hl; cbn; lia).
    f_equal. rewrite insert_app_r_alt, Hl, Nat.sub_diag by lia.
    rewrite (take_S_r _ _ _ Hy), fmap_app, <- app_assoc. done.
Qed.

Lemma modify_all (d : list A) : foldM modify (seq 0 (length d)) d = Ok (g <$> d).
Proof.
  rewrite modify_prefix by done. by rewrite take_ge, drop_ge, app_nil_r.
Qed.
End ModifyLoop.

(** A loop that builds a vector from the elements of another. *)
Fixpoint mapM_res {A B} (f : A → result B) (l : list A) : result (list B) :=
  match l with
  | [] => Ok []
  | x :: l => let* y := f x in let* ys := mapM_res f l in Ok (y :: ys)
  end.

(** The values [f 0 .. f (n-1)], stopping at the first error. *)
Fixpoint collect_from {A} (f : nat → result A) (i n : nat) : result (list A) :=
  match n with
  | O => Ok []
  | S n => let* x := f i in let* xs := collect_from f (S i) n in Ok (x :: xs)
  end.
Definition collect {A} (n : nat) (f : nat → result A) : result (list A) := collect_from f 0 n.

Lemma collect_from_Ok {A} (f : nat → result A) i n l :
  length l = n → (∀ k x, l !! k = Some x → f (i + k) = Ok x) → collect_from f i n = Ok l.
Proof.
  intros <-. revert i. induction l as [|x l IH]; intros i Hf; [done|]. cbn.
  rewrite <- (Nat.add_0_r i) at 1. rewrite (Hf 0 x) by done. cbn.
  rewrite IH; [done|]. intros k y Hk. rewrite Nat.add_succ_comm. by apply Hf.
Qed.

Lemma collect_Ok {A} (f : nat → result A) n l :
  length l = n → (∀ k x, l !! k = Some x → f k = Ok x) → collect n f = Ok l.
Proof. intros. by apply collect_from_Ok. Qed.

Lemma collect_from_inv {A} (f : nat → result A) i n l :
  collect_from f i n = Ok l →
  length l = n ∧ ∀ k, k < n → ∃ x, l !! k = Some x ∧ f (i + k) = Ok x.
Proof.
  revert i l. induction n as [|n IH]; intros i l Hc; cbn in Hc.
  - injection Hc as <-. split; [done|]. lia.
  - inv_bind Hc. inv_bind Hc. injection Hc as <-. apply IH in Hc1 as [Hl Hk].
    split; [cbn; lia|]. intros [|k] Hk'.
    + exists a. by rewrite Nat.add_0_r.
    + destruct (Hk k) as (x & ? & ?); [lia|]. exists x. by rewrite <- Nat.add_succ_comm.
Qed.

(** [memcpy] of the first [n] elements of an array given by a pointer. *)
Definition copy_n {A} (n : nat) (src : option (list A)) : result (list A) :=
  match n, src with
  | O, _ => Ok []
  | _, Some l => if n <=? length l then Ok (take n l) else Err Trap
  | _, None => Err Trap
  end.

Lemma copy_n_all {A} (l : list A) : copy_n (length l) (Some l) = Ok l.
Proof. destruct l as [|x l]; [done|]. cbn. by rewrite Nat.leb_refl, firstn_all. Qed.

(** ** Scattered writes

    A sequence of stores [d[i] = x]; stores to the same index agree. *)
Section Scatter.
Context {A : Type}.

Definition store (d : list A) (w : nat * A) : result (list A) := aset d w.1 w.2.

Lemma scatter_spec (ws : list (nat * A)) (d : list A) :
  (∀ i x, (i, x) ∈ ws → i < length d) →
  (∀ i x y, (i, x) ∈ ws → (i, y) ∈ ws → x = y) →
  ∃ d', foldM store ws d = Ok d' ∧ length d' = length d ∧
    (∀ i x, (i, x) ∈ ws → d' !! i = Some x) ∧
    (∀ i, (∀ x, (i, x) ∉ ws) → d' !! i = d !! i).
Proof.
  revert d. induction ws as [|[i0 x0] ws IH]; intros d Hlt Hcons.
  - exists d. split_and!; [done..|set_solver|done].
  - assert (i0 < length d) as Hi0 by (apply (Hlt i0 x0); left).
    destruct (IH (<[i0 := x0]> d)) as (d' & Hrun & Hlen & Hin & Hout).
    + intros i x Hix. rewrite length_insert. apply (Hlt i x). by right.
    + intros i x y Hx Hy. apply (Hcons i); by right.
    + exists d'. rewrite length_insert in Hlen. split_and!; [|done|..].
      * cbn. unfold store at 1. cbn. by rewrite aset_lt.
      * intros i x Hix. destruct (decide (i = i0)) as [->|Hne]; [|apply Hin; set_solver].
        rewrite (Hcons i0 x x0) by set_solver.
        destruct (decide (Exists (fun w => w.1 = i0) ws)) as [He|He].
        -- apply Exists_exists in He as ([j y] & Hj & Hy). cbn in Hy. subst j.
           rewrite (Hin i0 y) by done. f_equal. apply (Hcons i0); [by right|left].
        -- rewrite Hout; [by apply list_lookup_insert_eq|].
           intros y Hy. apply He, Exists_exists. by exists (i0, y).
      * intros i Hni. rewrite Hout by (intros x Hx; apply (Hni x); set_solver).
        apply list_lookup_insert_ne. intros ->. apply (Hni x0). set_solver.
Qed.

(** Stores of the form [d[i] = src[j]] for the listed pairs [(i, j)]. *)
Definition copy1 (src : list A) (d : list A) (p : nat * nat) : result (list A) :=
  let* x := aget src p.2 in aset d p.1 x.

Lemma gather_spec (src : list A) (ps : list (nat * nat)) (d : list A) :
  (∀ i j, (i, j) ∈ ps → i < length d ∧ j < length src) →
  (∀ i j k, (i, j) ∈ ps → (i, k) ∈ ps → j = k) →
  ∃ d', foldM (copy1 src) ps d = Ok d' ∧ length d' = length d ∧
    (∀ i j, (i, j) ∈ ps → d' !! i = src !! j) ∧
    (∀ i, (∀ j, (i, j) ∉ ps) → d' !! i = d !! i).
Proof.
  intros Hlt Hcons.
  destruct src as [|x0 src'] eqn:E.
  { exists d. destruct ps as [|[i j] ps]; [split_and!; [done..|set_solver|done]|].
    destruct (Hlt i j) as [_ H]; [set_solver|]. cbn in H. lia. }
  rewrite <- E in *. clear E src'.
  set (g := fun p : nat * nat => (p.1, default x0 (src !! p.2))).
  assert (∀ i j, (i, j) ∈ ps → src !! j = Some (default x0 (src !! j))) as Hsrc.
  { intros i j Hij. destruct (Hlt _ _ Hij) as [_ Hj].
    destruct (lookup_lt_is_Some_2 src j Hj) as [x ->]. done. }
  rewrite (foldM_ext _ (fun d p => store d (g p))).
  2:{ intros s [i j] Hij. unfold copy1, store, aget. cbn. by rewrite (Hsrc i j Hij). }
  rewrite foldM_fmap. destruct (scatter_spec (g <$> ps) d) as (d' & Hrun & Hlen & Hin & Hout).
  - intros i x Hix. apply list_elem_of_fmap in Hix as ([i' j] & [= -> ->] & Hij).
    by apply (Hlt i' j).
  - intros i x y Hx Hy. apply list_elem_of_fmap in Hx as ([i1 j1] & [= -> ->] & H1).
    apply list_elem_of_fmap in Hy as ([i2 j2] & [= <- ->] & H2). by rewrite (Hcons i1 j1 j2).
  - exists d'. split_and!; [done|done|..].
    + intros i j Hij. rewrite (Hsrc i j Hij). apply Hin.
      apply list_elem_of_fmap. by exists (i, j).
    + intros i Hni. apply Hout. intros x Hx.
      apply list_elem_of_fmap in Hx as ([i' j] & [= -> ->] & Hij). by apply (Hni j).
Qed.
End Scatter.

(** ** Nested loops *)

(** The pairs visited by a loop over [xs] whose body loops over [g x]. *)
Definition nest {A B} (xs : list A) (g : A → list B) : list (A * B) :=
  mjoin ((fun x => pair x <$> g x) <$> xs).

Lemma foldM_nest {S A B} (body : S → A → B → result S) (g : A → list B) xs s :
  foldM (fun s x => foldM (fun s y => body s x y) (g x) s) xs s =
  foldM (fun s p => body s p.1 p.2) (nest xs g) s.
Proof.
  unfold nest. rewrite <- foldM_concat_map. apply foldM_ext. intros t x _.
  by rewrite <- foldM_fmap.
Qed.

Lemma elem_of_nest {A B} (xs : list A) (g : A → list B) x y :
  (x, y) ∈ nest xs g ↔ x ∈ xs ∧ y ∈ g x.
Proof.
  unfold nest. rewrite list_elem_of_join. split.
  - intros (l & Hxy & Hl). apply list_elem_of_fmap in Hl as (x' & -> & Hx).
    apply list_elem_of_fmap in Hxy as (y' & [= -> ->] & Hy). done.
  - intros [Hx Hy]. exists (pair x <$> g x).
    split; apply list_elem_of_fmap; eauto.
Qed.

(** A position in mixed radix determines its digits. *)
Lemma mixed_radix n a b a' b' :
  b < n → b' < n → a * n + b = a' * n + b' → a = a' ∧ b = b'.
Proof.
  intros Hb Hb' E.
  assert (a = a') as ->; [|lia].
  apply (f_equal (fun x => x / n)) in E. rewrite !Nat.div_add_l, !Nat.div_small in E by lia. lia.
Qed.

Lemma filter_none {A} (P : A → Prop) `{∀ x, Decision (P x)} (l : list A) :
  (∀ x, x ∈ l → ¬ P x) → filter P l = [].
Proof.
  induction l as [|x l IH]; intros Hn; [done|].
  rewrite filter_cons, decide_False by (apply Hn; left). apply IH. intros y Hy. apply Hn. by right.
Qed.

(** ** Strings *)

Lemma string_app_inj (b x y : string) : b +:+ x = b +:+ y → x = y.
Proof. induction b as [|c b IH]; [done|]. intros [= E]. by apply IH. Qed.

Lemma string_app_length (a b : string) : String.length (a +:+ b) = (String.length a + String.length b)%nat.
Proof. induction a as [|c a IH]; [done|]. exact (f_equal S IH). Qed.

Lemma string_app_assoc (a b c : string) : (a +:+ b) +:+ c = a +:+ b +:+ c.
Proof. induction a as [|x a IH]; [done|]. exact (f_equal (String x) IH). Qed.

Lemma string_app_ne (a b : string) : b ≠ "" → a +:+ b ≠ "".
Proof. by destruct a. Qed.

Lemma string_app_nil (a : string) : a +:+ "" = a.
Proof. induction a as [|c a IH]; [done|]. exact (f_equal (String c) IH). Qed.
