(* ===== verification/SubByte.v ===== *)
(** * Packed sub-byte integers

    [common/int4.h] and [common/int2.h] ([Int4x2Base], [Int2x4Base]) and the
    conversions of [builder/qnn_utils] that expand packed data to one byte per
    element.  A [std::byte] and a [uint8_t] are integers in [[0, 256)], an
    [int8_t] an integer in [[-128, 128)]; a span is a list. *)

From S2P Require Import Prelude.
Local Open Scope Z_scope.

(** ** Int4x2Base: two 4-bit elements per byte *)
Module Int4x2.

Definition min_val (Signed : bool) : Z := if Signed then -8 else 0.
Definition max_val (Signed : bool) : Z := if Signed then 7 else 15.

Definition make (val0 val1 : Z) : Z :=
  u8 (Z.lor (Z.shiftl (Z.land val1 15) 4) (Z.land val0 15)).

Definition SignExtendLower4Bits (bits : Z) : Z :=
  let shift := 4 * 8 - 4 in
  i8 (Z.shiftr (i32 (Z.shiftl bits shift)) shift).

Definition GetElem (Signed : bool) (bits : Z) (index : nat) : Z :=
  let shift := u8 (4 * u8 (Z.of_nat index)) in
  let val := Z.land (Z.shiftr bits shift) 15 in
  if Signed then SignExtendLower4Bits val else val.

Definition SetElem (bits : Z) (index : nat) (val : Z) : Z :=
  let shift := u8 (4 * u8 (Z.of_nat index)) in
  let mask := u8 (Z.shiftr 240 shift) in
  Z.lor (Z.land bits mask) (u8 (Z.shiftl (Z.land val 15) shift)).

Definition CalcNumInt4Pairs (num_int4_elems : Z) : Z := u64 (num_int4_elems + 1) / 2.

Definition GetTensorElemIndices (index : nat) : nat * nat :=
  (Nat.shiftr index 1, Nat.land index 1).

(** Returns the boolean result and the destination buffer. *)
Definition Unpack (Signed : bool) (dst src : list Z) : result (bool * list Z) :=
  if negb (CalcNumInt4Pairs (Z.of_nat (length dst)) =? Z.of_nat (length src)) then Ok (false, dst)
  else match src with
  | [] => Ok (true, dst)
  | _ =>
    let* dst' := foldM (fill (fun i =>
      let r := Nat.shiftr i 1 in
      let c := Nat.land i 1 in
      let* b := aget src r in
      Ok (GetElem Signed b c))) (seq 0 (length dst)) dst in
    Ok (true, dst')
  end.

(** The pairing loop of [Pack]: [src_i], [dst_i] and the destination. *)
Fixpoint Pack_loop (fuel : nat) (src : list Z) (src_i dst_i : nat) (dst : list Z)
  : result (nat * nat * list Z) :=
  match fuel with
  | O => Err Trap
  | S fuel =>
    if (src_i <? length src - 1)%nat then
      let* a := aget src src_i in
      let* b := aget src (src_i + 1) in
      let* dst' := aset dst dst_i (make a b) in
      Pack_loop fuel src (src_i + 2) (dst_i + 1) dst'
    else Ok (src_i, dst_i, dst)
  end.

Definition Pack (dst src : list Z) : result (bool * list Z) :=
  if negb (CalcNumInt4Pairs (Z.of_nat (length src)) =? Z.of_nat (length dst)) then Ok (false, dst)
  else match src with
  | [] => Ok (true, dst)
  | _ =>
    let* (src_i, dst_i, dst') := Pack_loop (S (length src)) src 0 0 dst in
    if (src_i <? length src)%nat then
      let* a := aget src src_i in
      let* dst'' := aset dst' dst_i (make a 0) in
      Ok (true, dst'')
    else Ok (true, dst')
  end.

End Int4x2.

(** ** Int2x4Base: four 2-bit elements per byte *)
Module Int2x4.

Definition min_val (Signed : bool) : Z := if Signed then -2 else 0.
Definition max_val (Signed : bool) : Z := if Signed then 1 else 3.

Definition make (val0 val1 val2 val3 : Z) : Z :=
  u8 (Z.lor (Z.lor (Z.lor (Z.land val0 3)
                          (Z.shiftl (Z.land val1 3) 2))
                   (Z.shiftl (Z.land val2 3) 4))
            (Z.shiftl (Z.land val3 3) 6)).

Definition SignExtendLower2Bits (bits : Z) : Z :=
  let shift := 4 * 8 - 2 in
  i8 (Z.shiftr (i32 (Z.shiftl bits shift)) shift).

Definition GetElem (Signed : bool) (bits : Z) (index : nat) : Z :=
  let shift := u8 (2 * u8 (Z.of_nat index)) in
  let val := Z.land (Z.shiftr bits shift) 3 in
  if Signed then SignExtendLower2Bits val else val.

Definition SetElem (bits : Z) (index : nat) (val : Z) : Z :=
  let shift := u8 (2 * u8 (Z.of_nat index)) in
  let clear_mask := u8 (Z.lnot (u8 (Z.shiftl 3 shift))) in
  Z.lor (Z.land bits clear_mask) (u8 (Z.shiftl (Z.land val 3) shift)).

Definition CalcNumInt2Quads (num_int2_elems : Z) : Z := u64 (num_int2_elems + 3) / 4.

Definition GetTensorElemIndices (index : nat) : nat * nat :=
  (Nat.shiftr index 2, Nat.land index 3).

Definition Unpack (Signed : bool) (dst src : list Z) : result (bool * list Z) :=
  if negb (CalcNumInt2Quads (Z.of_nat (length dst)) =? Z.of_nat (length src)) then Ok (false, dst)
  else match src with
  | [] => Ok (true, dst)
  | _ =>
    let* dst' := foldM (fill (fun i =>
      let byte_idx := Nat.shiftr i 2 in
      let elem_idx := Nat.land i 3 in
      let* b := aget src byte_idx in
      Ok (GetElem Signed b elem_idx))) (seq 0 (length dst)) dst in
    Ok (true, dst')
  end.

Definition Pack (dst src : list Z) : result (bool * list Z) :=
  if negb (CalcNumInt2Quads (Z.of_nat (length src)) =? Z.of_nat (length dst)) then Ok (false, dst)
  else match src with
  | [] => Ok (true, dst)
  | _ =>
    let full_quads := (length src / 4)%nat in
    let* dst' := foldM (fill (fun dst_i =>
      let src_i := (4 * dst_i)%nat in
      let* v0 := aget src src_i in
      let* v1 := aget src (src_i + 1) in
      let* v2 := aget src (src_i + 2) in
      let* v3 := aget src (src_i + 3) in
      Ok (make v0 v1 v2 v3))) (seq 0 full_quads) dst in
    let src_i := (4 * full_quads)%nat in
    if (src_i <? length src)%nat then
      let remaining := (length src - src_i)%nat in
      let* vals := foldM (fill (fun j => aget src (src_i + j)))
                        (seq 0 remaining) [0; 0; 0; 0] in
      let* v0 := aget vals 0 in
      let* v1 := aget vals 1 in
      let* v2 := aget vals 2 in
      let* v3 := aget vals 3 in
      let* dst'' := aset dst' full_quads (make v0 v1 v2 v3) in
      Ok (true, dst'')
    else Ok (true, dst')
  end.

End Int2x4.

(** ** Expansion of packed data to bytes ([builder/qnn_utils]) *)

(** [UnpackInt4ToInt8<Signed>]: the packed bytes are replaced by one byte per
    element; signed elements keep only their low four bits. *)
Definition UnpackInt4ToInt8 (Signed : bool) (num_int4_elems : nat) (data_bytes : list Z)
  : result (list Z) :=
  let* (ok, dst) := Int4x2.Unpack Signed (replicate num_int4_elems 0) data_bytes in
  let* _ := return_if_not ok "Failed to unpack Tensor<Int4x2> for QNN" in
  if Signed then
    let* dst' := foldM (modify (fun v => i8 (Z.land v 15))) (seq 0 (length dst)) dst in
    Ok (u8 <$> dst')
  else Ok dst.

Definition UnpackInt2ToInt8 (Signed : bool) (num_int2_elems : nat) (data_bytes : list Z)
  : result (list Z) :=
  let* (ok, dst) := Int2x4.Unpack Signed (replicate num_int2_elems 0) data_bytes in
  let* _ := return_if_not ok "Failed to unpack Tensor<Int2x4> for QNN" in
  if Signed then
    let* dst' := foldM (modify (fun v => i8 (Z.land v 3))) (seq 0 (length dst)) dst in
    Ok (u8 <$> dst')
  else Ok dst.

(** The element types that [SignExtendUnpackedSubByteData] distinguishes. *)
Inductive sub_byte_type := SB_INT4 | SB_INT2 | SB_OTHER.

Definition SignExtendUnpackedSubByteData (onnx_data_type : sub_byte_type) (bytes : list Z) : list Z :=
  match onnx_data_type with
  | SB_INT4 => (fun byte => u8 (Int4x2.SignExtendLower4Bits (Z.land byte 15))) <$> bytes
  | SB_INT2 => (fun byte => u8 (Int2x4.SignExtendLower2Bits (Z.land byte 3))) <$> bytes
  | SB_OTHER => bytes
  end.

Definition TransformUnsignedToSignedFixedPoint (quant_data : list Z) (bits : Z) : result (list Z) :=
  let* mask :=
    (if bits =? 2 then Ok 170
     else if bits =? 4 then Ok 136
     else if bits =? 8 then Ok 128
     else Err (EpFail "Unsupported bits to transform data from unsigned to signed.")) in
  Ok ((fun b => Z.lxor b mask) <$> quant_data).

(** ** Specifications

    [getd l i] reads a list with default 0; [unpacked] and [packed4], [packed2]
    state element by element what the loops compute. *)
Definition getd (l : list Z) (i : nat) : Z := default 0 (l !! i).

Definition unpacked (get : Z → nat → Z) (per n : nat) (src : list Z) : list Z :=
  (fun i => get (getd src (i / per)) (i mod per)%nat) <$> seq 0 n.

Definition packed4 (src : list Z) : list Z :=
  (fun k => Int4x2.make (getd src (2 * k)) (getd src (2 * k + 1)))
    <$> seq 0 ((length src + 1) / 2).

Definition packed2 (src : list Z) : list Z :=
  (fun k => Int2x4.make (getd src (4 * k)) (getd src (4 * k + 1))
                        (getd src (4 * k + 2)) (getd src (4 * k + 3)))
    <$> seq 0 ((length src + 3) / 4).

Lemma getd_lookup l i x : l !! i = Some x → getd l i = x.
Proof. unfold getd. by intros ->. Qed.

Lemma aget_getd l i : (i < length l)%nat → aget l i = Ok (getd l i).
Proof. intros H. destruct (aget_lt l i H) as (x & -> & Hx). by rewrite (getd_lookup _ _ _ Hx). Qed.

Lemma lookup_fmap_seq {A} (f : nat → A) n i x :
  (f <$> seq 0 n) !! i = Some x → (i < n)%nat ∧ x = f i.
Proof.
  rewrite list_lookup_fmap, fmap_Some. intros (j & Hj & ->).
  apply lookup_seq in Hj as [-> ?]. split; [lia|done].
Qed.

Lemma lookup_fmap_seq_lt {A} (f : nat → A) n i :
  (i < n)%nat → (f <$> seq 0 n) !! i = Some (f i).
Proof. intros H. rewrite list_lookup_fmap, lookup_seq_lt by done. done. Qed.

Lemma length_unpacked get per n src : length (unpacked get per n src) = n.
Proof. unfold unpacked. by rewrite length_fmap, length_seq. Qed.

Lemma unpack_loop_spec (get : Z → nat → Z) per (f : nat → result Z) src d :
  (0 < per)%nat → (length d ≤ per * length src)%nat →
  (∀ i, f i = let* b := aget src (i / per) in Ok (get b (i mod per)%nat)) →
  foldM (fill f) (seq 0 (length d)) d = Ok (unpacked get per (length d) src).
Proof.
  intros Hper Hlen Hf. set (l := unpacked _ _ _ _).
  assert (length l = length d) as Hl by apply length_unpacked.
  rewrite <- Hl at 1. apply fill_all; [done|]. intros i x Hx.
  apply lookup_fmap_seq in Hx as [Hi ->].
  rewrite Hf, aget_getd; [done|]. apply Nat.Div0.div_lt_upper_bound; lia.
Qed.

(** *** Byte-level facts, checked over every byte and every element value *)

Definition in_elem4 (Signed : bool) (v : Z) : Prop :=
  Int4x2.min_val Signed ≤ v ≤ Int4x2.max_val Signed.
Definition in_elem2 (Signed : bool) (v : Z) : Prop :=
  Int2x4.min_val Signed ≤ v ≤ Int2x4.max_val Signed.

(** A property of two values in [[-8, 16)], decided by enumeration. *)
Lemma check_pairs (P : Z → Z → bool) :
  forall_below 24 (fun a => forall_below 24 (fun b => P (a - 8) (b - 8))) = true →
  ∀ a b, -8 ≤ a < 16 → -8 ≤ b < 16 → P a b = true.
Proof.
  intros H a b Ha Hb.
  pose proof (forall_below_spec _ _ H (a + 8) ltac:(lia)) as H1.
  pose proof (forall_below_spec _ _ H1 (b + 8) ltac:(lia)) as H2.
  cbn in H2. by rewrite !Z.add_simpl_r in H2.
Qed.

Definition make4_ok (Signed : bool) (a b : Z) : bool :=
  implb ((Int4x2.min_val Signed <=? a) && (a <=? Int4x2.max_val Signed) &&
         (Int4x2.min_val Signed <=? b) && (b <=? Int4x2.max_val Signed))
        ((Int4x2.GetElem Signed (Int4x2.make a b) 0 =? a) &&
         (Int4x2.GetElem Signed (Int4x2.make a b) 1 =? b)).

Lemma get_make4 Signed a b :
  in_elem4 Signed a → in_elem4 Signed b →
  Int4x2.GetElem Signed (Int4x2.make a b) 0 = a ∧
  Int4x2.GetElem Signed (Int4x2.make a b) 1 = b.
Proof.
  intros Ha Hb.
  assert (make4_ok Signed a b = true) as H.
  { apply (check_pairs (make4_ok Signed)); [by destruct Signed; vm_compute| |];
      unfold in_elem4 in *; destruct Signed; cbn in *; lia. }
  unfold make4_ok, in_elem4 in *. rewrite implb_true_iff in H.
  repeat rewrite andb_true_iff in H. rewrite !Z.leb_le, !Z.eqb_eq in H. lia.
Qed.

Definition byte4_ok (Signed : bool) (b : Z) : bool :=
  let lo := Int4x2.GetElem Signed b 0 in
  let hi := Int4x2.GetElem Signed b 1 in
  (Int4x2.make lo hi =? b) &&
  (Int4x2.min_val Signed <=? lo) && (lo <=? Int4x2.max_val Signed) &&
  (Int4x2.min_val Signed <=? hi) && (hi <=? Int4x2.max_val Signed).

Lemma make_get4 Signed b :
  in_u 8 b →
  Int4x2.make (Int4x2.GetElem Signed b 0) (Int4x2.GetElem Signed b 1) = b ∧
  in_elem4 Signed (Int4x2.GetElem Signed b 0) ∧ in_elem4 Signed (Int4x2.GetElem Signed b 1).
Proof.
  intros Hb. unfold in_u in Hb.
  assert (byte4_ok Signed b = true) as H.
  { apply (forall_below_spec 256 (byte4_ok Signed)); [by destruct Signed; vm_compute|lia]. }
  unfold byte4_ok, in_elem4 in *.
  repeat rewrite andb_true_iff in H. rewrite !Z.leb_le, !Z.eqb_eq in H. lia.
Qed.

(** *** Int4x2: the loops *)

Lemma CalcNumInt4Pairs_nat n :
  Z.of_nat n < 2 ^ 64 - 1 → Int4x2.CalcNumInt4Pairs (Z.of_nat n) = Z.of_nat ((n + 1) / 2).
Proof.
  intros H. unfold Int4x2.CalcNumInt4Pairs. rewrite wrapu_id by (unfold in_u; lia).
  rewrite Nat2Z.inj_div. f_equal. lia.
Qed.

Lemma half_cover n m : ((n + 1) / 2)%nat = m → (n ≤ 2 * m)%nat.
Proof. intros <-. pose proof (Nat.div_mod_eq (n + 1) 2). pose proof (Nat.mod_upper_bound (n + 1) 2). lia. Qed.

Lemma Unpack4_spec Signed dst src :
  Z.of_nat (length dst) < 2 ^ 64 - 1 →
  ((length dst + 1) / 2)%nat = length src →
  Int4x2.Unpack Signed dst src = Ok (true, unpacked (Int4x2.GetElem Signed) 2 (length dst) src).
Proof.
  intros Hb Hlen. unfold Int4x2.Unpack.
  rewrite CalcNumInt4Pairs_nat, Hlen, Z.eqb_refl by done. cbn [negb].
  destruct src as [|b0 src'] eqn:Hsrc.
  - cbn in Hlen. apply half_cover in Hlen. by destruct dst; cbn in *; [|lia].
  - rewrite <- Hsrc in *.
    rewrite (unpack_loop_spec (Int4x2.GetElem Signed) 2 _ src).
    + done.
    + lia.
    + apply half_cover in Hlen. lia.
    + intros i. cbn zeta. rewrite Nat.shiftr_div_pow2.
      by rewrite (Nat.land_ones i 1 : Nat.land i 1 = (i mod 2)%nat).
Qed.

Lemma Pack4_loop_spec src dst fuel k :
  (2 * k ≤ length src)%nat → length dst = ((length src + 1) / 2)%nat →
  (length src - 2 * k < fuel)%nat →
  ∃ dst', Int4x2.Pack_loop fuel src (2 * k) k dst = Ok (2 * (length src / 2), length src / 2, dst')%nat ∧
    length dst' = length dst ∧
    ∀ j, dst' !! j = if decide (k ≤ j < length src / 2)%nat
                     then Some (Int4x2.make (getd src (2 * j)) (getd src (2 * j + 1)))
                     else dst !! j.
Proof.
  set (n := length src). revert k dst.
  pose proof (Nat.div_mod_eq n 2) as Hdm. pose proof (Nat.mod_upper_bound n 2).
  pose proof (Nat.div_mod_eq (n + 1) 2) as Hdm'. pose proof (Nat.mod_upper_bound (n + 1) 2).
  induction fuel as [|fuel IH]; intros k dst Hk Hlen Hfuel; [lia|].
  cbn [Int4x2.Pack_loop]. fold n. destruct (Nat.ltb_spec (2 * k) (n - 1)).
  - rewrite (aget_getd src (2 * k)) by lia. cbn [rbind].
    rewrite (aget_getd src (2 * k + 1)) by lia. cbn [rbind].
    rewrite aset_lt by lia. cbn [rbind].
    replace (2 * k + 2)%nat with (2 * (k + 1))%nat by lia.
    destruct (IH (k + 1)%nat (<[k:=Int4x2.make (getd src (2 * k)) (getd src (2 * k + 1))]> dst))
      as (dst' & -> & Hl & Hj); [lia|by rewrite length_insert|lia|].
    exists dst'. split; [done|]. rewrite length_insert in Hl. split; [done|].
    intros j. rewrite Hj. destruct (decide (j = k)) as [->|Hne].
    + rewrite decide_False, decide_True, list_lookup_insert_eq by lia. done.
    + rewrite list_lookup_insert_ne by done.
      do 2 case_decide; (done || lia).
  - exists dst. split; [do 3 f_equal; lia|]. split; [done|].
    intros j. by rewrite decide_False by lia.
Qed.

Lemma length_packed4 src : length (packed4 src) = ((length src + 1) / 2)%nat.
Proof. unfold packed4. by rewrite length_fmap, length_seq. Qed.

Lemma Pack4_spec dst src :
  Z.of_nat (length src) < 2 ^ 64 - 1 →
  ((length src + 1) / 2)%nat = length dst →
  Int4x2.Pack dst src = Ok (true, packed4 src).
Proof.
  intros Hb Hlen. unfold Int4x2.Pack.
  rewrite CalcNumInt4Pairs_nat, Hlen, Z.eqb_refl by done. cbn [negb].
  destruct src as [|x src'] eqn:Hsrc.
  - cbn in Hlen. by destruct dst.
  - rewrite <- Hsrc in *. clear x src' Hsrc.
    destruct (Pack4_loop_spec src dst (S (length src)) 0) as (d & Hrun & Hl & Hj); [lia|done|lia|].
    change (2 * 0)%nat with 0%nat in Hrun. rewrite Hrun. cbn [rbind]. clear Hrun.
    pose proof (Nat.div_mod_eq (length src) 2). pose proof (Nat.mod_upper_bound (length src) 2).
    pose proof (Nat.div_mod_eq (length src + 1) 2). pose proof (Nat.mod_upper_bound (length src + 1) 2).
    destruct (Nat.ltb_spec (2 * (length src / 2)) (length src)).
    + rewrite aget_getd by lia. cbn [rbind]. rewrite aset_lt by lia. cbn [rbind].
      do 2 f_equal. apply list_eq_same_length with (length dst);
        [by rewrite length_packed4|by rewrite length_insert|].
      intros i a b Hi Ha Hpk. apply lookup_fmap_seq in Hpk as [_ ->].
      destruct (decide (i = length src / 2)%nat) as [->|Hne].
      * rewrite list_lookup_insert_eq in Ha by lia. injection Ha as <-. f_equal.
        unfold getd. rewrite lookup_ge_None_2; [done|lia].
      * rewrite list_lookup_insert_ne, Hj, decide_True in Ha by lia. by injection Ha.
    + do 2 f_equal. apply list_eq_same_length with (length dst);
        [by rewrite length_packed4|done|].
      intros i a b Hi Ha Hpk. apply lookup_fmap_seq in Hpk as [_ ->].
      rewrite Hj, decide_True in Ha by lia. by injection Ha.
Qed.

Lemma unpacked_packed4 Signed src :
  Forall (in_elem4 Signed) src →
  unpacked (Int4x2.GetElem Signed) 2 (length src) (packed4 src) = src.
Proof.
  intros Hall. apply list_eq_same_length with (length src); [done|apply length_unpacked|].
  intros i a b Hi Ha Hb. apply lookup_fmap_seq in Ha as [_ ->].
  assert (∀ j, in_elem4 Signed (getd src j)) as Hin.
  { intros j. unfold getd. destruct (src !! j) eqn:E; cbn.
    - by eapply Forall_lookup_1.
    - unfold in_elem4. destruct Signed; cbn; lia. }
  pose proof (Nat.div_mod_eq i 2). pose proof (Nat.mod_upper_bound i 2).
  assert (i / 2 < (length src + 1) / 2)%nat as Hi2.
  { pose proof (Nat.div_mod_eq (length src + 1) 2).
    pose proof (Nat.mod_upper_bound (length src + 1) 2). lia. }
  rewrite (getd_lookup (packed4 src) (i / 2) _ (lookup_fmap_seq_lt _ _ _ Hi2)).
  destruct (get_make4 Signed (getd src (2 * (i / 2))) (getd src (2 * (i / 2) + 1))) as [Hlo Hhi];
    [apply Hin..|].
  rewrite <- (getd_lookup _ _ _ Hb).
  destruct (i mod 2)%nat as [|[|]] eqn:E;
    [rewrite Hlo|rewrite Hhi|]; [f_equal; lia..|lia].
Qed.

(** *** Int2x4 *)

Definition make2_ok (Signed : bool) (a b c d : Z) : bool :=
  let m := Int2x4.make a b c d in
  let ok v := (Int2x4.min_val Signed <=? v) && (v <=? Int2x4.max_val Signed) in
  implb (ok a && ok b && ok c && ok d)
        ((Int2x4.GetElem Signed m 0 =? a) && (Int2x4.GetElem Signed m 1 =? b) &&
         (Int2x4.GetElem Signed m 2 =? c) && (Int2x4.GetElem Signed m 3 =? d)).

Lemma get_make2 Signed (v : nat → Z) j :
  (∀ i, in_elem2 Signed (v i)) → (j < 4)%nat →
  Int2x4.GetElem Signed (Int2x4.make (v 0%nat) (v 1%nat) (v 2%nat) (v 3%nat)) j = v j.
Proof.
  intros Hv Hj.
  assert (∀ a b c d, -2 ≤ a < 4 → -2 ≤ b < 4 → -2 ≤ c < 4 → -2 ≤ d < 4 →
    make2_ok Signed a b c d = true) as Hall.
  { assert (forall_below 6 (fun a => forall_below 6 (fun b => forall_below 6 (fun c =>
      forall_below 6 (fun d => make2_ok Signed (a - 2) (b - 2) (c - 2) (d - 2))))) = true) as H
      by (destruct Signed; vm_compute; done).
    intros a b c d Ha Hb Hc Hd.
    pose proof (forall_below_spec _ _ H (a + 2) ltac:(lia)) as H1; cbn beta in H1.
    pose proof (forall_below_spec _ _ H1 (b + 2) ltac:(lia)) as H2; cbn beta in H2.
    pose proof (forall_below_spec _ _ H2 (c + 2) ltac:(lia)) as H3; cbn beta in H3.
    pose proof (forall_below_spec _ _ H3 (d + 2) ltac:(lia)) as H4; cbn beta in H4.
    by rewrite !Z.add_simpl_r in H4. }
  assert (∀ i, -2 ≤ v i < 4) as Hr
    by (intros i; specialize (Hv i); unfold in_elem2 in Hv; destruct Signed; cbn in Hv; lia).
  specialize (Hall (v 0%nat) (v 1%nat) (v 2%nat) (v 3%nat) ltac:(auto) ltac:(auto) ltac:(auto) ltac:(auto)).
  pose proof (Hv 0%nat). pose proof (Hv 1%nat). pose proof (Hv 2%nat). pose proof (Hv 3%nat).
  unfold make2_ok, in_elem2 in *. rewrite implb_true_iff in Hall.
  repeat rewrite andb_true_iff in Hall. rewrite !Z.leb_le, !Z.eqb_eq in Hall.
  destruct j as [|[|[|[|]]]]; lia.
Qed.

Lemma CalcNumInt2Quads_nat n :
  Z.of_nat n < 2 ^ 64 - 3 → Int2x4.CalcNumInt2Quads (Z.of_nat n) = Z.of_nat ((n + 3) / 4).
Proof.
  intros H. unfold Int2x4.CalcNumInt2Quads. rewrite wrapu_id by (unfold in_u; lia).
  rewrite Nat2Z.inj_div. f_equal. lia.
Qed.

Lemma quarter_cover n m : ((n + 3) / 4)%nat = m → (n ≤ 4 * m)%nat.
Proof. intros <-. pose proof (Nat.div_mod_eq (n + 3) 4). pose proof (Nat.mod_upper_bound (n + 3) 4). lia. Qed.

Lemma Unpack2_spec Signed dst src :
  Z.of_nat (length dst) < 2 ^ 64 - 3 →
  ((length dst + 3) / 4)%nat = length src →
  Int2x4.Unpack Signed dst src = Ok (true, unpacked (Int2x4.GetElem Signed) 4 (length dst) src).
Proof.
  intros Hb Hlen. unfold Int2x4.Unpack.
  rewrite CalcNumInt2Quads_nat, Hlen, Z.eqb_refl by done. cbn [negb].
  destruct src as [|b0 src'] eqn:Hsrc.
  - cbn in Hlen. apply quarter_cover in Hlen. by destruct dst; cbn in *; [|lia].
  - rewrite <- Hsrc in *.
    rewrite (unpack_loop_spec (Int2x4.GetElem Signed) 4 _ src).
    + done.
    + lia.
    + apply quarter_cover in Hlen. lia.
    + intros i. cbn zeta. rewrite Nat.shiftr_div_pow2.
      by rewrite (Nat.land_ones i 2 : Nat.land i 3 = (i mod 4)%nat).
Qed.

Lemma length_packed2 src : length (packed2 src) = ((length src + 3) / 4)%nat.
Proof. unfold packed2. by rewrite length_fmap, length_seq. Qed.

(** The remaining one to three elements, padded with zeros. *)
Lemma Pack2_tail src i rem :
  (rem < 4)%nat → (i + rem = length src)%nat →
  foldM (fill (fun j => aget src (i + j))) (seq 0 rem) [0; 0; 0; 0] =
    Ok ((fun j => getd src (i + j)) <$> seq 0 4).
Proof.
  intros Hrem Hlen.
  rewrite (fill_prefix _ ((fun j => getd src (i + j)) <$> seq 0 4)).
  - f_equal. assert (∀ j, (rem ≤ j)%nat → getd src (i + j) = 0) as Hz
      by (intros j Hj; unfold getd; by rewrite lookup_ge_None_2 by lia).
    cbn [seq fmap list_fmap].
    destruct rem as [|[|[|[|]]]]; cbn [take drop app]; repeat f_equal; symmetry; (apply Hz; lia) || lia.
  - done.
  - rewrite length_fmap, length_seq. lia.
  - intros j x Hj Hx. apply lookup_fmap_seq in Hx as [_ ->]. apply aget_getd. lia.
Qed.

Lemma Pack2_spec dst src :
  Z.of_nat (length src) < 2 ^ 64 - 3 →
  ((length src + 3) / 4)%nat = length dst →
  Int2x4.Pack dst src = Ok (true, packed2 src).
Proof.
  intros Hb Hlen. unfold Int2x4.Pack.
  rewrite CalcNumInt2Quads_nat, Hlen, Z.eqb_refl by done. cbn [negb].
  destruct src as [|x src'] eqn:Hsrc; [cbn in Hlen; by destruct dst|].
  rewrite <- Hsrc in *. clear x src' Hsrc. cbn zeta. set (q := (length src / 4)%nat).
  pose proof (Nat.div_mod_eq (length src) 4) as Hdm. pose proof (Nat.mod_upper_bound (length src) 4).
  pose proof (Nat.div_mod_eq (length src + 3) 4). pose proof (Nat.mod_upper_bound (length src + 3) 4).
  fold q in Hdm.
  rewrite (fill_prefix _ (packed2 src) dst q); rewrite ?length_packed2; [|lia|lia|].
  2:{ intros i y Hi Hy. apply lookup_fmap_seq in Hy as [_ ->].
      rewrite !aget_getd by lia. done. }
  cbn [rbind]. destruct (Nat.ltb_spec (4 * q) (length src)).
  - rewrite Pack2_tail by lia. cbn [rbind].
    cbn [seq fmap list_fmap aget lookup list_lookup rbind]. rewrite Nat.add_0_r.
    rewrite aset_lt by (rewrite length_app, length_take, length_packed2, length_drop; lia).
    cbn [rbind]. do 2 f_equal.
    assert (length dst = S q) as Hd by lia.
    rewrite insert_app_r_alt by (rewrite length_take; lia).
    rewrite length_take, length_packed2, Nat.min_l, Nat.sub_diag by lia.
    destruct (lookup_lt_is_Some_2 dst q) as [y Hy]; [lia|].
    rewrite (drop_S _ _ _ Hy), drop_ge by lia. cbn [insert list_insert].
    rewrite <- (take_drop q (packed2 src)) at 2. f_equal.
    assert (q < (length src + 3) / 4)%nat as Hq by lia.
    unfold packed2 at 1.
    rewrite (drop_S _ _ _ (lookup_fmap_seq_lt _ _ q Hq)).
    rewrite drop_ge; [done|]. rewrite length_fmap, length_seq. lia.
  - do 2 f_equal. rewrite take_ge, drop_ge, app_nil_r; [done|lia|].
    rewrite length_packed2. lia.
Qed.

Lemma unpacked_packed2 Signed src :
  Forall (in_elem2 Signed) src →
  unpacked (Int2x4.GetElem Signed) 4 (length src) (packed2 src) = src.
Proof.
  intros Hall. apply list_eq_same_length with (length src); [done|apply length_unpacked|].
  intros i a b Hi Ha Hb. apply lookup_fmap_seq in Ha as [_ ->].
  assert (∀ j, in_elem2 Signed (getd src j)) as Hin.
  { intros j. unfold getd. destruct (src !! j) eqn:E; cbn.
    - by eapply Forall_lookup_1.
    - unfold in_elem2. destruct Signed; cbn; lia. }
  pose proof (Nat.div_mod_eq i 4). pose proof (Nat.mod_upper_bound i 4).
  assert (i / 4 < (length src + 3) / 4)%nat as Hi4.
  { pose proof (Nat.div_mod_eq (length src + 3) 4).
    pose proof (Nat.mod_upper_bound (length src + 3) 4). lia. }
  rewrite (getd_lookup (packed2 src) (i / 4) _ (lookup_fmap_seq_lt _ _ _ Hi4)).
  rewrite <- (getd_lookup _ _ _ Hb).
  pose proof (get_make2 Signed (fun j => getd src (4 * (i / 4) + j)) (i mod 4)) as Hg.
  cbn beta in Hg. rewrite Nat.add_0_r in Hg. rewrite Hg by (auto || lia). f_equal. lia.
Qed.

(** *** Expansion, sign extension and the unsigned-to-signed transform *)

Definition expand4 (v : Z) : Z := u8 (i8 (Z.land v 15)).
Definition expand2 (v : Z) : Z := u8 (i8 (Z.land v 3)).
Definition extend4 (e : Z) : Z := u8 (Int4x2.SignExtendLower4Bits (Z.land e 15)).
Definition extend2 (e : Z) : Z := u8 (Int2x4.SignExtendLower2Bits (Z.land e 3)).

Lemma expand4_ok b c :
  in_u 8 b → (c < 2)%nat →
  expand4 (Int4x2.GetElem true b c) < 16 ∧
  i8 (extend4 (expand4 (Int4x2.GetElem true b c))) = Int4x2.GetElem true b c.
Proof.
  intros Hb Hc. unfold in_u in Hb.
  assert (forall_below 256 (fun b => forallb (fun c =>
    (expand4 (Int4x2.GetElem true b c) <? 16) &&
    (i8 (extend4 (expand4 (Int4x2.GetElem true b c))) =? Int4x2.GetElem true b c)) (seq 0 2)) = true)
    as Hall by (by vm_compute).
  pose proof (forall_below_spec _ _ Hall b ltac:(lia)) as H. cbn beta in H.
  rewrite forallb_forall in H. specialize (H c). rewrite in_seq, andb_true_iff in H.
  destruct H as [H1 H2]; [lia|]. split; [by apply Z.ltb_lt|by apply Z.eqb_eq].
Qed.

Lemma expand2_ok b c :
  in_u 8 b → (c < 4)%nat →
  expand2 (Int2x4.GetElem true b c) < 4 ∧
  i8 (extend2 (expand2 (Int2x4.GetElem true b c))) = Int2x4.GetElem true b c.
Proof.
  intros Hb Hc. unfold in_u in Hb.
  assert (forall_below 256 (fun b => forallb (fun c =>
    (expand2 (Int2x4.GetElem true b c) <? 4) &&
    (i8 (extend2 (expand2 (Int2x4.GetElem true b c))) =? Int2x4.GetElem true b c)) (seq 0 4)) = true)
    as Hall by (by vm_compute).
  pose proof (forall_below_spec _ _ Hall b ltac:(lia)) as H. cbn beta in H.
  rewrite forallb_forall in H. specialize (H c). rewrite in_seq, andb_true_iff in H.
  destruct H as [H1 H2]; [lia|]. split; [by apply Z.ltb_lt|by apply Z.eqb_eq].
Qed.

Lemma UnpackInt4ToInt8_spec n bytes :
  Z.of_nat n < 2 ^ 64 - 1 → ((n + 1) / 2)%nat = length bytes →
  UnpackInt4ToInt8 true n bytes =
    Ok (expand4 <$> unpacked (Int4x2.GetElem true) 2 n bytes).
Proof.
  intros Hn Hlen. unfold UnpackInt4ToInt8.
  rewrite Unpack4_spec; rewrite length_replicate; [|done..].
  cbn [rbind return_if_not]. rewrite modify_all. cbn [rbind].
  by rewrite <- list_fmap_compose.
Qed.

Lemma UnpackInt2ToInt8_spec n bytes :
  Z.of_nat n < 2 ^ 64 - 3 → ((n + 3) / 4)%nat = length bytes →
  UnpackInt2ToInt8 true n bytes =
    Ok (expand2 <$> unpacked (Int2x4.GetElem true) 4 n bytes).
Proof.
  intros Hn Hlen. unfold UnpackInt2ToInt8.
  rewrite Unpack2_spec; rewrite length_replicate; [|done..].
  cbn [rbind return_if_not]. rewrite modify_all. cbn [rbind].
  by rewrite <- list_fmap_compose.
Qed.

(** Lifts a fact about every field of every byte to the expanded buffer. *)
Lemma expand_elements (get : Z → nat → Z) per (ex se : Z → Z) (P : Z → Prop) n bytes :
  (0 < per)%nat → (n ≤ per * length bytes)%nat →
  (∀ b c, b ∈ bytes → (c < per)%nat → P (ex (get b c)) ∧ i8 (se (ex (get b c))) = get b c) →
  Forall P (ex <$> unpacked get per n bytes) ∧
  i8 <$> (se <$> (ex <$> unpacked get per n bytes)) = unpacked get per n bytes.
Proof.
  intros Hper Hn H.
  assert (∀ i, (i < n)%nat → getd bytes (i / per) ∈ bytes) as Hin.
  { intros i Hi. destruct (lookup_lt_is_Some_2 bytes (i / per)) as [b Hb].
    - apply Nat.Div0.div_lt_upper_bound. lia.
    - rewrite (getd_lookup _ _ _ Hb). by eapply list_elem_of_lookup_2. }
  split.
  - rewrite Forall_fmap. apply Forall_lookup_2. intros i x Hx.
    apply lookup_fmap_seq in Hx as [Hi ->].
    apply H; [auto|apply Nat.mod_upper_bound; lia].
  - rewrite <- !list_fmap_compose. trans (id <$> unpacked get per n bytes); [|apply list_fmap_id].
    apply list_fmap_ext. intros i x Hx. apply lookup_fmap_seq in Hx as [Hi ->].
    apply H; [auto|apply Nat.mod_upper_bound; lia].
Qed.

(** The signed value of a packed field is its unsigned value minus half the range. *)
Definition transform_ok (b : Z) : bool :=
  forallb (fun c => Int2x4.GetElem true (Z.lxor b 170) c =? Int2x4.GetElem false b c - 2)
    [0%nat; 1%nat; 2%nat; 3%nat] &&
  forallb (fun c => Int4x2.GetElem true (Z.lxor b 136) c =? Int4x2.GetElem false b c - 8)
    [0%nat; 1%nat] &&
  (i8 (Z.lxor b 128) =? b - 128).

Lemma transform_ok_all b :
  in_u 8 b →
  (∀ c, (c < 4)%nat → Int2x4.GetElem true (Z.lxor b 170) c = Int2x4.GetElem false b c - 2) ∧
  (∀ c, (c < 2)%nat → Int4x2.GetElem true (Z.lxor b 136) c = Int4x2.GetElem false b c - 8) ∧
  i8 (Z.lxor b 128) = b - 128.
Proof.
  intros Hb. unfold in_u in Hb.
  assert (transform_ok b = true) as H
    by (apply (forall_below_spec 256 transform_ok); [by vm_compute|lia]).
  unfold transform_ok in H. rewrite !andb_true_iff, !forallb_forall, Z.eqb_eq in H.
  destruct H as [[H2 H4] H8]. split_and!; [..|done]; intros c Hc.
  - apply Z.eqb_eq, H2. destruct c as [|[|[|[|]]]]; cbn; auto; lia.
  - apply Z.eqb_eq, H4. destruct c as [|[|]]; cbn; auto; lia.
Qed.

(** Reading a field after writing one, bit by bit: the written field holds the low
    bits of the stored element, the others are untouched. *)
Lemma wrapu_land w z : 0 ≤ w → wrapu w z = Z.land z (Z.ones w).
Proof. intros. unfold wrapu. by rewrite Z.land_ones. Qed.

(** Case analysis on the bit position, then the bit of each operand; the shift
    amounts and masks are closed terms. *)
Ltac bitwise_field Hc :=
  repeat match goal with
  | |- context [wrapu 8 (?c * wrapu 8 (Z.of_nat ?i))] =>
      let t := eval vm_compute in (wrapu 8 (c * wrapu 8 (Z.of_nat i))) in
      change (wrapu 8 (c * wrapu 8 (Z.of_nat i))) with t
  | |- context [wrapu 8 (Z.shiftr ?a ?n)] =>
      let t := eval vm_compute in (wrapu 8 (Z.shiftr a n)) in change (wrapu 8 (Z.shiftr a n)) with t
  | |- context [wrapu 8 (Z.lnot ?a)] =>
      let t := eval vm_compute in (wrapu 8 (Z.lnot a)) in change (wrapu 8 (Z.lnot a)) with t
  | |- context [?c * Z.of_nat ?j] =>
      let t := eval vm_compute in (c * Z.of_nat j) in change (c * Z.of_nat j) with t
  end;
  rewrite !wrapu_land by lia;
  repeat destruct Hc as [Hc|Hc]; subst;
  cbn [Nat.eqb]; rewrite ?Z.land_spec, ?Z.shiftr_spec, ?Z.lor_spec, ?Z.land_spec, ?Z.shiftl_spec,
    ?Z.land_spec by lia;
  cbn -[Z.testbit]; cbn [Z.testbit Z.odd Z.of_nat Pos.testbit Pos.of_succ_nat Pos.pred_N Pos.pred_double];
  rewrite ?andb_true_r, ?andb_false_r, ?orb_false_r; try done.

Lemma field4_set b v i j :
  (i < 2)%nat → (j < 2)%nat →
  Z.land (Z.shiftr (Int4x2.SetElem b i v) (4 * Z.of_nat j)) 15 =
    if (i =? j)%nat then Z.land v 15 else Z.land (Z.shiftr b (4 * Z.of_nat j)) 15.
Proof.
  intros Hi Hj. apply Z.bits_inj'. intros m Hm.
  destruct (decide (m < 4)) as [Hm4|Hm4].
  - assert (m = 0 ∨ m = 1 ∨ m = 2 ∨ m = 3) as Hc by lia.
    destruct i as [|[|]], j as [|[|]]; try lia;
      unfold Int4x2.SetElem; bitwise_field Hc.
  - change 15 with (Z.ones 4). destruct (i =? j)%nat;
      rewrite !Z.land_spec, Z.ones_spec_high, !andb_false_r by lia; done.
Qed.

Lemma field2_set b v i j :
  (i < 4)%nat → (j < 4)%nat →
  Z.land (Z.shiftr (Int2x4.SetElem b i v) (2 * Z.of_nat j)) 3 =
    if (i =? j)%nat then Z.land v 3 else Z.land (Z.shiftr b (2 * Z.of_nat j)) 3.
Proof.
  intros Hi Hj. apply Z.bits_inj'. intros m Hm.
  destruct (decide (m < 2)) as [Hm4|Hm4].
  - assert (m = 0 ∨ m = 1) as Hc by lia.
    destruct i as [|[|[|[|]]]], j as [|[|[|[|]]]]; try lia;
      unfold Int2x4.SetElem; bitwise_field Hc.
  - change 3 with (Z.ones 2). destruct (i =? j)%nat;
      rewrite !Z.land_spec, Z.ones_spec_high, !andb_false_r by lia; done.
Qed.

Definition ext4 (Signed : bool) (f : Z) : Z :=
  if Signed then Int4x2.SignExtendLower4Bits f else f.

Lemma GetElem4_field Signed b j :
  (j < 2)%nat →
  Int4x2.GetElem Signed b j = ext4 Signed (Z.land (Z.shiftr b (4 * Z.of_nat j)) 15).
Proof. intros Hj. destruct j as [|[|]]; [done..|lia]. Qed.

Lemma ext4_low Signed v : in_elem4 Signed v → ext4 Signed (Z.land v 15) = v.
Proof.
  intros Hv.
  assert (forall_below 24 (fun z => implb
    ((Int4x2.min_val Signed <=? z + -8) && (z + -8 <=? Int4x2.max_val Signed))
    (ext4 Signed (Z.land (z + -8) 15) =? z + -8)) = true) as H
    by (destruct Signed; by vm_compute).
  unfold in_elem4 in Hv.
  assert (-8 ≤ v < 16) as Hr by (destruct Signed; cbn in Hv; lia).
  pose proof (forall_below_spec _ _ H (v - -8) ltac:(lia)) as H1. cbn beta in H1.
  replace (v - -8 + -8) with v in H1 by lia. rewrite implb_true_iff in H1.
  apply Z.eqb_eq, H1. rewrite andb_true_iff, !Z.leb_le. lia.
Qed.

Lemma GetElem_SetElem4 Signed b v i j :
  in_elem4 Signed v → (i < 2)%nat → (j < 2)%nat →
  Int4x2.GetElem Signed (Int4x2.SetElem b i v) j =
    if (i =? j)%nat then v else Int4x2.GetElem Signed b j.
Proof.
  intros Hv Hi Hj. rewrite !GetElem4_field, field4_set by done.
  destruct (i =? j)%nat; [by apply ext4_low|done].
Qed.

Definition ext2 (Signed : bool) (f : Z) : Z :=
  if Signed then Int2x4.SignExtendLower2Bits f else f.

Lemma GetElem2_field Signed b j :
  (j < 4)%nat →
  Int2x4.GetElem Signed b j = ext2 Signed (Z.land (Z.shiftr b (2 * Z.of_nat j)) 3).
Proof. intros Hj. destruct j as [|[|[|[|]]]]; [done..|lia]. Qed.

Lemma ext2_low Signed v : in_elem2 Signed v → ext2 Signed (Z.land v 3) = v.
Proof.
  intros Hv.
  assert (forall_below 6 (fun z => implb
    ((Int2x4.min_val Signed <=? z + -2) && (z + -2 <=? Int2x4.max_val Signed))
    (ext2 Signed (Z.land (z + -2) 3) =? z + -2)) = true) as H
    by (destruct Signed; by vm_compute).
  unfold in_elem2 in Hv.
  assert (-2 ≤ v < 4) as Hr by (destruct Signed; cbn in Hv; lia).
  pose proof (forall_below_spec _ _ H (v - -2) ltac:(lia)) as H1. cbn beta in H1.
  replace (v - -2 + -2) with v in H1 by lia. rewrite implb_true_iff in H1.
  apply Z.eqb_eq, H1. rewrite andb_true_iff, !Z.leb_le. lia.
Qed.

Lemma GetElem_SetElem2 Signed b v i j :
  in_elem2 Signed v → (i < 4)%nat → (j < 4)%nat →
  Int2x4.GetElem Signed (Int2x4.SetElem b i v) j =
    if (i =? j)%nat then v else Int2x4.GetElem Signed b j.
Proof.
  intros Hv Hi Hj. rewrite !GetElem2_field, field2_set by done.
  destruct (i =? j)%nat; [by apply ext2_low|done].
Qed.

(** ** Properties *)

(** Packing 4-bit elements and unpacking the bytes gives the elements back, for
    signed and unsigned elements, odd and even counts, whatever the buffers held. *)
Lemma int4_pack_unpack (Signed : bool) (src packed_buf unpacked_buf : list Z) :
  Z.of_nat (length src) < 2 ^ 64 - 1 →
  Forall (in_elem4 Signed) src →
  length packed_buf = ((length src + 1) / 2)%nat →
  length unpacked_buf = length src →
  ∃ bytes, Int4x2.Pack packed_buf src = Ok (true, bytes) ∧
           length bytes = length packed_buf ∧
           Int4x2.Unpack Signed unpacked_buf bytes = Ok (true, src).
Proof.
  intros Hb Hin Hp Hu. exists (packed4 src).
  rewrite Pack4_spec, length_packed4 by done. split_and!; [done..|].
  rewrite Unpack4_spec; rewrite ?length_packed4, Hu; [|done..].
  by rewrite unpacked_packed4.
Qed.

(** Packing 2-bit elements and unpacking the bytes gives the elements back,
    also when the last byte is only partly used. *)
Lemma int2_pack_unpack (Signed : bool) (src packed_buf unpacked_buf : list Z) :
  Z.of_nat (length src) < 2 ^ 64 - 3 →
  Forall (in_elem2 Signed) src →
  length packed_buf = ((length src + 3) / 4)%nat →
  length unpacked_buf = length src →
  ∃ bytes, Int2x4.Pack packed_buf src = Ok (true, bytes) ∧
           length bytes = length packed_buf ∧
           Int2x4.Unpack Signed unpacked_buf bytes = Ok (true, src).
Proof.
  intros Hb Hin Hp Hu. exists (packed2 src).
  rewrite Pack2_spec, length_packed2 by done. split_and!; [done..|].
  rewrite Unpack2_spec; rewrite ?length_packed2, Hu; [|done..].
  by rewrite unpacked_packed2.
Qed.

(** Expanding a packed signed tensor gives one byte per element whose unused high
    bits are zero, and the later sign extension recovers, as [int8_t], exactly the
    elements of the packed tensor; both for 4-bit and for 2-bit data. *)
Lemma expand_then_sign_extend (n : nat) (bytes : list Z) :
  Z.of_nat n < 2 ^ 64 - 3 → Forall (in_u 8) bytes →
  (((n + 1) / 2)%nat = length bytes →
     ∃ out, UnpackInt4ToInt8 true n bytes = Ok out ∧ Forall (fun e => e < 16) out ∧
       i8 <$> SignExtendUnpackedSubByteData SB_INT4 out =
         unpacked (Int4x2.GetElem true) 2 n bytes) ∧
  (((n + 3) / 4)%nat = length bytes →
     ∃ out, UnpackInt2ToInt8 true n bytes = Ok out ∧ Forall (fun e => e < 4) out ∧
       i8 <$> SignExtendUnpackedSubByteData SB_INT2 out =
         unpacked (Int2x4.GetElem true) 4 n bytes).
Proof.
  intros Hn Hb. split; intros Hlen; eexists.
  - split; [apply UnpackInt4ToInt8_spec; [lia|done]|].
    apply half_cover in Hlen.
    apply (expand_elements _ 2 expand4 extend4 (fun e => e < 16)); [lia|lia|].
    intros b c Hc Hbc. apply expand4_ok; [by eapply Forall_forall|done].
  - split; [apply UnpackInt2ToInt8_spec; [lia|done]|].
    apply quarter_cover in Hlen.
    apply (expand_elements _ 4 expand2 extend2 (fun e => e < 4)); [lia|lia|].
    intros b c Hc Hbc. apply expand2_ok; [by eapply Forall_forall|done].
Qed.

(** [TransformUnsignedToSignedFixedPoint] subtracts half the range from every packed
    field: at 2, 4 and 8 bits the signed reading of the result is the unsigned reading
    of the input minus [2^(bits-1)]; any other width is an error. *)
Lemma transform_unsigned_to_signed (data : list Z) :
  Forall (in_u 8) data →
  (∃ out, TransformUnsignedToSignedFixedPoint data 2 = Ok out ∧
     Forall2 (fun b b' => ∀ c, (c < 4)%nat →
       Int2x4.GetElem true b' c = Int2x4.GetElem false b c - 2) data out) ∧
  (∃ out, TransformUnsignedToSignedFixedPoint data 4 = Ok out ∧
     Forall2 (fun b b' => ∀ c, (c < 2)%nat →
       Int4x2.GetElem true b' c = Int4x2.GetElem false b c - 8) data out) ∧
  (∃ out, TransformUnsignedToSignedFixedPoint data 8 = Ok out ∧
     Forall2 (fun b b' => i8 b' = b - 128) data out) ∧
  (∀ bits, bits ∉ [2; 4; 8] → ∃ msg,
     TransformUnsignedToSignedFixedPoint data bits = Err (EpFail msg)).
Proof.
  intros Hd. unfold TransformUnsignedToSignedFixedPoint.
  split_and!; [eexists; split; [reflexivity|]..|].
  1-3: apply Forall2_fmap_r, Forall_Forall2_diag;
       eapply Forall_impl; [exact Hd|]; intros b Hb; cbn beta; apply transform_ok_all in Hb; tauto.
  intros bits Hbits.
  destruct (Z.eqb_spec bits 2), (Z.eqb_spec bits 4), (Z.eqb_spec bits 8); subst;
    [set_solver..|]. by eexists.
Qed.

(** [SetElem] stores an element in its own bit field only: reading field [j] after
    writing field [i] gives the written element when [i = j] and the old one
    otherwise, for 4-bit and 2-bit, signed and unsigned elements. *)
Lemma set_get_elem (Signed : bool) (b v : Z) :
  (in_elem4 Signed v → ∀ i j, (i < 2)%nat → (j < 2)%nat →
     Int4x2.GetElem Signed (Int4x2.SetElem b i v) j =
       if (i =? j)%nat then v else Int4x2.GetElem Signed b j) ∧
  (in_elem2 Signed v → ∀ i j, (i < 4)%nat → (j < 4)%nat →
     Int2x4.GetElem Signed (Int2x4.SetElem b i v) j =
       if (i =? j)%nat then v else Int2x4.GetElem Signed b j).
Proof. split; intros; [by apply GetElem_SetElem4|by apply GetElem_SetElem2]. Qed.

(** C39: packing 4-bit or 2-bit elements and unpacking the bytes gives the elements back, signed and
    unsigned, also when the last byte is only partly used; and a field that is written is read
    back, the other fields keep their elements. *)
Theorem sub_byte_roundtrip (Signed : bool) (src packed_buf unpacked_buf : list Z) :
  Z.of_nat (length src) < 2 ^ 64 - 3 → length unpacked_buf = length src →
  (Forall (in_elem4 Signed) src → length packed_buf = ((length src + 1) / 2)%nat →
   ∃ bytes, Int4x2.Pack packed_buf src = Ok (true, bytes) ∧ length bytes = length packed_buf ∧
            Int4x2.Unpack Signed unpacked_buf bytes = Ok (true, src)) ∧
  (Forall (in_elem2 Signed) src → length packed_buf = ((length src + 3) / 4)%nat →
   ∃ bytes, Int2x4.Pack packed_buf src = Ok (true, bytes) ∧ length bytes = length packed_buf ∧
            Int2x4.Unpack Signed unpacked_buf bytes = Ok (true, src)) ∧
  (∀ b v, in_elem4 Signed v → ∀ i j, (i < 2)%nat → (j < 2)%nat →
     Int4x2.GetElem Signed (Int4x2.SetElem b i v) j = if (i =? j)%nat then v else Int4x2.GetElem Signed b j) ∧
  (∀ b v, in_elem2 Signed v → ∀ i j, (i < 4)%nat → (j < 4)%nat →
     Int2x4.GetElem Signed (Int2x4.SetElem b i v) j = if (i =? j)%nat then v else Int2x4.GetElem Signed b j).
Proof.
  intros Hn Hu. split_and!.
  - intros. apply int4_pack_unpack; [lia|done..].
  - intros. apply int2_pack_unpack; [lia|done..].
  - intros b v. exact (proj1 (set_get_elem Signed b v)).
  - intros b v. exact (proj2 (set_get_elem Signed b v)).
Qed.

Lemma sub_byte_roundtrip_witness :
  ∃ bytes, Int4x2.Pack [0; 0] [-8; 7; -1] = Ok (true, bytes) ∧ length bytes = 2%nat ∧
           Int4x2.Unpack true [0; 0; 0] bytes = Ok (true, [-8; 7; -1]).
Proof.
  apply (sub_byte_roundtrip true [-8; 7; -1] [0; 0] [0; 0; 0]);
    [cbn; lia|done|repeat constructor; vm_compute; discriminate|done].
Defined.

(** The two ways packed weights are converted.  Expanding a packed signed tensor gives one byte
    per element whose unused high bits are zero, and the later sign extension recovers exactly
    the elements, at 4 and at 2 bits; [TransformUnsignedToSignedFixedPoint] subtracts half the
    range from every packed field at 2, 4 and 8 bits, and any other width is an error. *)
Theorem sub_byte_conversions (n : nat) (bytes : list Z) :
  Z.of_nat n < 2 ^ 64 - 3 → Forall (in_u 8) bytes →
  (((n + 1) / 2)%nat = length bytes →
     ∃ out, UnpackInt4ToInt8 true n bytes = Ok out ∧ Forall (fun e => e < 16) out ∧
       i8 <$> SignExtendUnpackedSubByteData SB_INT4 out = unpacked (Int4x2.GetElem true) 2 n bytes) ∧
  (((n + 3) / 4)%nat = length bytes →
     ∃ out, UnpackInt2ToInt8 true n bytes = Ok out ∧ Forall (fun e => e < 4) out ∧
       i8 <$> SignExtendUnpackedSubByteData SB_INT2 out = unpacked (Int2x4.GetElem true) 4 n bytes) ∧
  (∃ out, TransformUnsignedToSignedFixedPoint bytes 2 = Ok out ∧
     Forall2 (fun b b' => ∀ c, (c < 4)%nat → Int2x4.GetElem true b' c = Int2x4.GetElem false b c - 2) bytes out) ∧
  (∃ out, TransformUnsignedToSignedFixedPoint bytes 4 = Ok out ∧
     Forall2 (fun b b' => ∀ c, (c < 2)%nat → Int4x2.GetElem true b' c = Int4x2.GetElem false b c - 8) bytes out) ∧
  (∃ out, TransformUnsignedToSignedFixedPoint bytes 8 = Ok out ∧ Forall2 (fun b b' => i8 b' = b - 128) bytes out) ∧
  (∀ bits, bits ∉ [2; 4; 8] → ∃ msg, TransformUnsignedToSignedFixedPoint bytes bits = Err (EpFail msg)).
Proof.
  intros Hn Hb. destruct (expand_then_sign_extend n bytes Hn Hb) as [H4 H2].
  destruct (transform_unsigned_to_signed bytes Hb) as (T2 & T4 & T8 & Te). done.
Qed.

Lemma sub_byte_conversions_witness :
  ∃ out, UnpackInt4ToInt8 true 3 [0x7F; 0x08] = Ok out ∧ Forall (fun e => e < 16) out ∧
    i8 <$> SignExtendUnpackedSubByteData SB_INT4 out = [-1; 7; -8].
Proof.
  change [-1; 7; -8] with (unpacked (Int4x2.GetElem true) 2 3 [0x7F; 0x08]).
  apply (sub_byte_conversions 3 [0x7F; 0x08]);
    [cbn; lia|repeat constructor; cbn; discriminate|done].
Defined.
