(* ===== verification/DataTypes.v ===== *)
(** * Element types, sizes and fixed-point ranges

    The tables and size computations of [builder/qnn_utils.cc] and the
    fixed-point predicates of [builder/qnn_utils.h], with the backend kinds of
    [builder/qnn_def.h].  [SafeInt] is a library of its own: what the code relies
    on is the class [SafeInt] below. *)

From S2P Require Import Prelude.
Local Open Scope Z_scope.

(** ** Enumerations

    The constants the sources name.  [ONNX_OTHER] and [QNN_OTHER] are the
    enumerators no table of the sources mentions. *)
Inductive ONNXTensorElementDataType : Set :=
| ONNX_UNDEFINED | ONNX_INT2 | ONNX_UINT2 | ONNX_INT4 | ONNX_UINT4
| ONNX_INT8 | ONNX_INT16 | ONNX_INT32 | ONNX_INT64
| ONNX_UINT8 | ONNX_UINT16 | ONNX_UINT32 | ONNX_UINT64
| ONNX_FLOAT8E4M3FN | ONNX_FLOAT8E4M3FNUZ | ONNX_FLOAT8E5M2 | ONNX_FLOAT8E5M2FNUZ
| ONNX_FLOAT16 | ONNX_BFLOAT16 | ONNX_FLOAT | ONNX_DOUBLE
| ONNX_BOOL | ONNX_STRING | ONNX_OTHER.

Inductive Qnn_DataType_t : Set :=
| QNN_INT_8 | QNN_INT_16 | QNN_INT_32 | QNN_INT_64
| QNN_UINT_8 | QNN_UINT_16 | QNN_UINT_32 | QNN_UINT_64
| QNN_FLOAT_16 | QNN_FLOAT_32 | QNN_FLOAT_64 | QNN_BFLOAT_16 | QNN_BOOL_8
| QNN_SFIXED_POINT_4 | QNN_SFIXED_POINT_8 | QNN_SFIXED_POINT_16 | QNN_SFIXED_POINT_32
| QNN_UFIXED_POINT_4 | QNN_UFIXED_POINT_8 | QNN_UFIXED_POINT_16 | QNN_UFIXED_POINT_32
| QNN_STRING | QNN_UNDEFINED | QNN_OTHER.

Inductive QnnBackendType : Set := CPU | GPU | DSP | HTP | HTP_FP16 | SERIALIZER.

Inductive QnnAllocatorType : Set := ALLOC_NONE | HTP_SHARED | DX12_SHARED.

Global Instance onnx_type_eq_dec : EqDecision ONNXTensorElementDataType.
Proof. solve_decision. Defined.
Global Instance qnn_type_eq_dec : EqDecision Qnn_DataType_t.
Proof. solve_decision. Defined.
Global Instance backend_type_eq_dec : EqDecision QnnBackendType.
Proof. solve_decision. Defined.
Global Instance allocator_type_eq_dec : EqDecision QnnAllocatorType.
Proof. solve_decision. Defined.

(** ** Backend predicates *)

Definition IsIrBackend (b : QnnBackendType) : bool := bool_decide (b = SERIALIZER).
Definition IsNpuBackend (b : QnnBackendType) : bool :=
  bool_decide (b = HTP) || bool_decide (b = DSP).
Definition IsGpuBackend (b : QnnBackendType) : bool := bool_decide (b = GPU).
Definition IsCpuBackend (b : QnnBackendType) : bool := bool_decide (b = CPU).
Definition IsQpuBackend (b : QnnBackendType) : bool := IsNpuBackend b || IsGpuBackend b.

Definition IsHtpSharedMemoryAllocator (a : QnnAllocatorType) : bool := bool_decide (a = HTP_SHARED).
Definition IsDx12SharedMemoryAllocator (a : QnnAllocatorType) : bool := bool_decide (a = DX12_SHARED).

Definition QnnAllocatorTypeToString (a : QnnAllocatorType) : string :=
  match a with ALLOC_NONE => "None" | HTP_SHARED => "HtpShared" | DX12_SHARED => "Dx12Shared" end.

Definition QnnBackendTypeToString (b : QnnBackendType) : string :=
  match b with
  | CPU => "cpu" | GPU => "gpu" | DSP => "dsp" | HTP => "htp"
  | HTP_FP16 => "htp_fp16" | SERIALIZER => "ir"
  end.

(** ** Element sizes

    An [std::unordered_map] with constant contents is an association list; the
    keys of each table are distinct.  The numeric enumerator that the source
    appends to the exception text is left out. *)
Fixpoint find_assoc {K V} `{EqDecision K} (k : K) (m : list (K * V)) : option V :=
  match m with
  | [] => None
  | (k', v) :: m => if decide (k = k') then Some v else find_assoc k m
  end.

Definition qnn_data_type_to_size : list (Qnn_DataType_t * Z) :=
  [ (QNN_INT_8, 1); (QNN_INT_16, 2); (QNN_INT_32, 4); (QNN_INT_64, 8);
    (QNN_UINT_8, 1); (QNN_UINT_16, 2); (QNN_UINT_32, 4); (QNN_UINT_64, 8);
    (QNN_FLOAT_16, 2); (QNN_FLOAT_32, 4); (QNN_FLOAT_64, 8); (QNN_BFLOAT_16, 2); (QNN_BOOL_8, 1);
    (QNN_SFIXED_POINT_4, 1); (QNN_SFIXED_POINT_8, 1); (QNN_SFIXED_POINT_16, 2); (QNN_SFIXED_POINT_32, 4);
    (QNN_UFIXED_POINT_4, 1); (QNN_UFIXED_POINT_8, 1); (QNN_UFIXED_POINT_16, 2); (QNN_UFIXED_POINT_32, 4);
    (QNN_UNDEFINED, 1) ].

Definition GetElementSizeByType_qnn (data_type : Qnn_DataType_t) : result Z :=
  match find_assoc data_type qnn_data_type_to_size with
  | Some n => Ok n
  | None => Err (Throw "Unknown QNN data type ")
  end.

Definition elem_type_to_size : list (ONNXTensorElementDataType * Z) :=
  [ (ONNX_INT2, 1); (ONNX_UINT2, 1); (ONNX_INT4, 1); (ONNX_UINT4, 1);
    (ONNX_INT8, 1); (ONNX_INT16, 2); (ONNX_INT32, 4); (ONNX_INT64, 8);
    (ONNX_UINT8, 1); (ONNX_UINT16, 2); (ONNX_UINT32, 4); (ONNX_UINT64, 8);
    (ONNX_FLOAT8E4M3FN, 1); (ONNX_FLOAT8E4M3FNUZ, 1); (ONNX_FLOAT8E5M2, 1); (ONNX_FLOAT8E5M2FNUZ, 1);
    (ONNX_FLOAT16, 2); (ONNX_BFLOAT16, 2); (ONNX_FLOAT, 4); (ONNX_DOUBLE, 8); (ONNX_BOOL, 1) ].

Definition GetElementSizeByType_onnx (elem_type : ONNXTensorElementDataType) : result Z :=
  match find_assoc elem_type elem_type_to_size with
  | Some n => Ok n
  | None => Err (Throw "Unknown element type ")
  end.

Definition elem_type_to_name : list (ONNXTensorElementDataType * string) :=
  [ (ONNX_INT2, "int2_t"); (ONNX_UINT2, "uint2_t"); (ONNX_INT4, "int4_t"); (ONNX_UINT4, "uint4_t");
    (ONNX_INT8, "int8_t"); (ONNX_INT16, "int16_t"); (ONNX_INT32, "int32_t"); (ONNX_INT64, "int64_t");
    (ONNX_UINT8, "uint8_t"); (ONNX_UINT16, "uint16_t"); (ONNX_UINT32, "uint32_t"); (ONNX_UINT64, "uint64_t");
    (ONNX_FLOAT16, "float16"); (ONNX_FLOAT, "float32"); (ONNX_DOUBLE, "double"); (ONNX_BOOL, "bool") ].

Definition GetElementNameByType (elem_type : ONNXTensorElementDataType) : result string :=
  match find_assoc elem_type elem_type_to_name with
  | Some n => Ok n
  | None => Err (Throw "Unknown element type ")
  end.

(** ** Data sizes

    [SafeInt<size_t>]: the exact result, or the exception that
    [common/qnn_safeint.h] raises on overflow. *)
Definition size_max : Z := 2 ^ 64.
Definition overflow : err := Throw "Integer overflow".

Class SafeInt := {
  safe_mul : Z → Z → result Z;
  safe_add : Z → Z → result Z;
  safe_mul_exact a b : in_u 64 a →
    safe_mul a b = if (0 <=? a * b) && (a * b <? size_max) then Ok (a * b) else Err overflow;
  safe_add_exact a b : in_u 64 a → in_u 64 b →
    safe_add a b = if a + b <? size_max then Ok (a + b) else Err overflow;
}.

Section DataSize.
Context `{SafeInt}.

Definition GetOnnxTensorDataSizeInBytes_count (num_elements : Z) (element_type : ONNXTensorElementDataType)
  : result Z :=
  match element_type with
  | ONNX_UINT2 | ONNX_INT2 => let* n := safe_add num_elements 3 in Ok (n / 4)
  | ONNX_UINT4 | ONNX_INT4 => let* n := safe_add num_elements 1 in Ok (n / 2)
  | _ => let* size := GetElementSizeByType_onnx element_type in safe_mul num_elements size
  end.

Definition GetOnnxTensorDataSizeInBytes (shape : list Z) (element_type : ONNXTensorElementDataType)
  : result Z :=
  match shape with
  | [] => GetOnnxTensorDataSizeInBytes_count 1 element_type
  | _ => let* num_elements := foldM safe_mul shape 1 in
         GetOnnxTensorDataSizeInBytes_count num_elements element_type
  end.

Definition GetQnnTensorDataSizeInBytes_count (num_elements : Z) (element_type : Qnn_DataType_t)
  : result Z :=
  match element_type with
  | QNN_SFIXED_POINT_4 | QNN_UFIXED_POINT_4 => let* n := safe_add num_elements 1 in Ok (n / 2)
  | _ => let* size := GetElementSizeByType_qnn element_type in safe_mul num_elements size
  end.

Definition GetQnnTensorDataSizeInBytes (shape : list Z) (element_type : Qnn_DataType_t) : result Z :=
  match shape with
  | [] => GetQnnTensorDataSizeInBytes_count 1 element_type
  | _ => let* num_elements := foldM safe_mul shape 1 in
         GetQnnTensorDataSizeInBytes_count num_elements element_type
  end.

End DataSize.

(** ** ONNX to QNN element types *)

Definition CreateMap_base : list (ONNXTensorElementDataType * Qnn_DataType_t) :=
  [ (ONNX_INT8, QNN_INT_8); (ONNX_INT16, QNN_INT_16); (ONNX_INT32, QNN_INT_32); (ONNX_INT64, QNN_INT_64);
    (ONNX_UINT8, QNN_UINT_8); (ONNX_UINT16, QNN_UINT_16); (ONNX_UINT32, QNN_UINT_32); (ONNX_UINT64, QNN_UINT_64);
    (ONNX_FLOAT16, QNN_FLOAT_16); (ONNX_FLOAT, QNN_FLOAT_32); (ONNX_DOUBLE, QNN_FLOAT_64); (ONNX_BOOL, QNN_BOOL_8) ].

(** [m[k] = v] on a copy of the table: the new entry shadows the old one. *)
Definition with_gpu_int4 (m : list (ONNXTensorElementDataType * Qnn_DataType_t)) :=
  (ONNX_UINT4, QNN_UFIXED_POINT_4) :: (ONNX_INT4, QNN_SFIXED_POINT_4) :: m.

Definition CreateMap (backend_type : QnnBackendType) :=
  if IsGpuBackend backend_type then with_gpu_int4 CreateMap_base else CreateMap_base.

Definition CreateMapQuantize_base : list (ONNXTensorElementDataType * Qnn_DataType_t) :=
  [ (ONNX_INT2, QNN_SFIXED_POINT_8); (ONNX_INT4, QNN_SFIXED_POINT_8); (ONNX_INT8, QNN_SFIXED_POINT_8);
    (ONNX_INT16, QNN_SFIXED_POINT_16); (ONNX_INT32, QNN_SFIXED_POINT_32); (ONNX_INT64, QNN_INT_64);
    (ONNX_UINT4, QNN_UFIXED_POINT_8); (ONNX_UINT2, QNN_UFIXED_POINT_8); (ONNX_UINT8, QNN_UFIXED_POINT_8);
    (ONNX_UINT16, QNN_UFIXED_POINT_16); (ONNX_UINT32, QNN_UFIXED_POINT_32); (ONNX_UINT64, QNN_UINT_64);
    (ONNX_FLOAT16, QNN_FLOAT_16); (ONNX_FLOAT, QNN_FLOAT_32); (ONNX_DOUBLE, QNN_FLOAT_64); (ONNX_BOOL, QNN_BOOL_8) ].

Definition CreateMapQuantize (backend_type : QnnBackendType) :=
  if IsGpuBackend backend_type then with_gpu_int4 CreateMapQuantize_base else CreateMapQuantize_base.

(** [None] is the boolean result [false]; the output argument is then untouched. *)
Definition OnnxDataTypeToQnnDataType (onnx_data_type : ONNXTensorElementDataType)
  (is_quantized : bool) (backend_type : QnnBackendType) : option Qnn_DataType_t :=
  if is_quantized then find_assoc onnx_data_type (CreateMapQuantize backend_type)
  else find_assoc onnx_data_type (CreateMap backend_type).

Definition GetQnnDataType (is_quantized_tensor : bool) (onnx_data_type : ONNXTensorElementDataType)
  (backend_type : QnnBackendType) : result Qnn_DataType_t :=
  match OnnxDataTypeToQnnDataType onnx_data_type is_quantized_tensor backend_type with
  | Some t => Ok t
  | None => Err (EpFail "Failed to map Onnx data type to Qnn data type!")
  end.

(** ** Fixed-point types *)

Definition IsQuant16bit (t : Qnn_DataType_t) : bool :=
  bool_decide (t = QNN_UFIXED_POINT_16) || bool_decide (t = QNN_SFIXED_POINT_16).
Definition IsQuant8bit (t : Qnn_DataType_t) : bool :=
  bool_decide (t = QNN_UFIXED_POINT_8) || bool_decide (t = QNN_SFIXED_POINT_8).
Definition IsQuant4bit (t : Qnn_DataType_t) : bool :=
  bool_decide (t = QNN_UFIXED_POINT_4) || bool_decide (t = QNN_SFIXED_POINT_4).

Definition FixedPointBitWidth (t : Qnn_DataType_t) : Z :=
  if IsQuant4bit t then 4 else if IsQuant8bit t then 8 else if IsQuant16bit t then 16 else 0.

Definition NeedsPrecisionConvert (a b : Qnn_DataType_t) : bool :=
  bool_decide (a ≠ b) && negb (FixedPointBitWidth a =? 0) && negb (FixedPointBitWidth b =? 0).

Definition IsNarrowingQuantOutput (activation_qnn_data_type output_qnn_data_type : Qnn_DataType_t) : bool :=
  let act_bitwidth := FixedPointBitWidth activation_qnn_data_type in
  let output_bitwidth := FixedPointBitWidth output_qnn_data_type in
  negb (act_bitwidth =? 0) && negb (output_bitwidth =? 0) && (act_bitwidth >? output_bitwidth).

(** [GetQminQmax]: the bounds as exact integers, before the cast to the type [T]
    of the caller ([float] or [int]). *)
Definition GetQminQmax (t : Qnn_DataType_t) (symmetric : bool) : result (Z * Z) :=
  let s := if symmetric then 1 else 0 in
  match t with
  | QNN_SFIXED_POINT_8 => Ok (-128 + s, 127)
  | QNN_UFIXED_POINT_8 => Ok (0, 255)
  | QNN_SFIXED_POINT_16 => Ok (-32768 + s, 32767)
  | QNN_UFIXED_POINT_16 => Ok (0, 65535)
  | QNN_SFIXED_POINT_4 => Ok (-8 + s, 7)
  | QNN_UFIXED_POINT_4 => Ok (0, 15)
  | QNN_SFIXED_POINT_32 => Ok (-2147483648 + s, 2147483647)
  | _ => Err (EpFail "Qnn Data Type: not supported yet.")
  end.

Definition Saturate (qmax qmin quant_value : Z) : Z :=
  if quant_value >? qmax then qmax else if quant_value <? qmin then qmin else quant_value.

(** ** Specifications *)

(** Bits of an element in the packed representation, from the formats that the types stand for and
    not from the tables above: an integer of [w] bits, an IEEE 754 binary16, binary32 or binary64
    number, a bfloat16, an 8-bit float, a boolean in a byte.  Strings have no fixed size.  A QNN tensor
    of undefined type is one of bytes. *)
Definition onnx_bits (t : ONNXTensorElementDataType) : option Z :=
  match t with
  | ONNX_INT2 | ONNX_UINT2 => Some 2
  | ONNX_INT4 | ONNX_UINT4 => Some 4
  | ONNX_INT8 | ONNX_UINT8 => Some 8
  | ONNX_INT16 | ONNX_UINT16 => Some 16
  | ONNX_INT32 | ONNX_UINT32 => Some 32
  | ONNX_INT64 | ONNX_UINT64 => Some 64
  | ONNX_FLOAT8E4M3FN | ONNX_FLOAT8E4M3FNUZ | ONNX_FLOAT8E5M2 | ONNX_FLOAT8E5M2FNUZ => Some 8
  | ONNX_FLOAT16 | ONNX_BFLOAT16 => Some 16
  | ONNX_FLOAT => Some 32
  | ONNX_DOUBLE => Some 64
  | ONNX_BOOL => Some 8
  | ONNX_UNDEFINED | ONNX_STRING | ONNX_OTHER => None
  end.

Definition qnn_bits (t : Qnn_DataType_t) : option Z :=
  match t with
  | QNN_SFIXED_POINT_4 | QNN_UFIXED_POINT_4 => Some 4
  | QNN_INT_8 | QNN_UINT_8 | QNN_SFIXED_POINT_8 | QNN_UFIXED_POINT_8 => Some 8
  | QNN_INT_16 | QNN_UINT_16 | QNN_SFIXED_POINT_16 | QNN_UFIXED_POINT_16 => Some 16
  | QNN_INT_32 | QNN_UINT_32 | QNN_SFIXED_POINT_32 | QNN_UFIXED_POINT_32 => Some 32
  | QNN_INT_64 | QNN_UINT_64 => Some 64
  | QNN_FLOAT_16 | QNN_BFLOAT_16 => Some 16
  | QNN_FLOAT_32 => Some 32
  | QNN_FLOAT_64 => Some 64
  | QNN_BOOL_8 => Some 8
  | QNN_UNDEFINED => Some 8
  | QNN_STRING | QNN_OTHER => None
  end.

Definition prodZ (l : list Z) : Z := foldr Z.mul 1 l.

(** A reference implementation of the interface, used by the witnesses. *)
Definition safe_exact (z : Z) : result Z :=
  if (0 <=? z) && (z <? size_max) then Ok z else Err overflow.

Definition exact_safe_int : SafeInt.
Proof.
  refine {| safe_mul a b := safe_exact (a * b); safe_add a b := safe_exact (a + b) |}.
  - done.
  - intros a b Ha Hb. unfold safe_exact, in_u in *.
    by rewrite (proj2 (Z.leb_le 0 (a + b))) by lia.
Defined.

(** Evaluates the closed table lookups of the goal. *)
Ltac eval_size :=
  try match goal with
  | |- context [GetElementSizeByType_onnx ?t] =>
      let v := eval vm_compute in (GetElementSizeByType_onnx t) in
      change (GetElementSizeByType_onnx t) with v
  | |- context [GetElementSizeByType_qnn ?t] =>
      let v := eval vm_compute in (GetElementSizeByType_qnn t) in
      change (GetElementSizeByType_qnn t) with v
  end; cbn [rbind].

Section DataSizeFacts.
Context `{SafeInt}.

Lemma safe_mul_Ok a b r : in_u 64 a → safe_mul a b = Ok r → r = a * b ∧ in_u 64 r.
Proof.
  intros Ha. rewrite safe_mul_exact by done. unfold size_max, in_u.
  destruct (Z.leb_spec 0 (a * b)), (Z.ltb_spec (a * b) (2 ^ 64)); cbn; intros [= <-]; lia.
Qed.

Lemma safe_mul_fits a b : in_u 64 a → in_u 64 (a * b) → safe_mul a b = Ok (a * b).
Proof.
  unfold in_u. intros Ha Hab. rewrite safe_mul_exact by done. unfold size_max.
  by rewrite (proj2 (Z.leb_le _ _)), (proj2 (Z.ltb_lt _ _)) by lia.
Qed.

Lemma safe_add_Ok a b r : in_u 64 a → in_u 64 b → safe_add a b = Ok r → r = a + b ∧ in_u 64 r.
Proof.
  intros Ha Hb. rewrite safe_add_exact by done. unfold size_max, in_u in *.
  destruct (Z.ltb_spec (a + b) (2 ^ 64)); intros [= <-]; lia.
Qed.

Lemma safe_add_fits a b : in_u 64 a → in_u 64 b → a + b < 2 ^ 64 → safe_add a b = Ok (a + b).
Proof.
  intros Ha Hb Hab. rewrite safe_add_exact by done. unfold size_max.
  by rewrite (proj2 (Z.ltb_lt _ _)).
Qed.

Lemma prodZ_cons d shape : prodZ (d :: shape) = d * prodZ shape.
Proof. done. Qed.

Lemma num_elements_Ok shape a r :
  in_u 64 a → foldM safe_mul shape a = Ok r → r = a * prodZ shape ∧ in_u 64 r.
Proof.
  revert a. induction shape as [|d shape IH]; intros a Ha Hr; rewrite ?prodZ_cons; cbn in Hr.
  - injection Hr as <-. split; [cbn; lia|done].
  - inv_bind Hr. apply safe_mul_Ok in Hr0 as [-> Hin]; [|done].
    apply IH in Hr as [-> ?]; [|done]. split; [lia|done].
Qed.

Lemma prodZ_app l m : prodZ (l ++ m) = prodZ l * prodZ m.
Proof. induction l as [|x l IH]; [cbn [app]; change (prodZ []) with 1; lia|]. cbn [app]. rewrite !prodZ_cons, IH. lia. Qed.

Lemma prodZ_pos shape : Forall (Z.lt 0) shape → 0 < prodZ shape.
Proof. induction 1; rewrite ?prodZ_cons; [done|lia]. Qed.

Lemma num_elements_fits shape a :
  Forall (Z.lt 0) shape → 0 ≤ a → a * prodZ shape < 2 ^ 64 →
  foldM safe_mul shape a = Ok (a * prodZ shape).
Proof.
  intros Hpos. revert a. induction Hpos as [|d shape Hd Hpos IH]; intros a Ha Hlt; rewrite ?prodZ_cons in *; cbn [foldM].
  - f_equal. cbn. lia.
  - pose proof (prodZ_pos _ Hpos).
    rewrite safe_mul_fits; [cbn|unfold in_u; nia..].
    rewrite IH; [f_equal; lia|nia|nia].
Qed.

Lemma onnx_count_Ok n t r :
  in_u 64 n → GetOnnxTensorDataSizeInBytes_count n t = Ok r →
  ∃ bits, onnx_bits t = Some bits ∧ r = (n * bits + 7) / 8 ∧ in_u 64 r.
Proof.
  intros Hn Hr. assert (in_u 64 3 ∧ in_u 64 1) as [H3 H1] by (unfold in_u; lia).
  destruct t; cbn in Hr; try discriminate; inv_bind Hr || idtac;
    (apply safe_add_Ok in Hr0 as [-> Hin]; [|done..]; injection Hr as <-;
         eexists; split; [done|]; unfold in_u in *; zdiv) ||
    (injection Hr0 as <-; apply safe_mul_Ok in Hr as [-> Hin]; [|done]; eexists; split; [done|];
      split; [zdiv|done]).
Qed.

Lemma onnx_count_fits n t bits :
  in_u 64 n → onnx_bits t = Some bits → n + 3 < 2 ^ 64 → (n * bits + 7) / 8 < 2 ^ 64 →
  GetOnnxTensorDataSizeInBytes_count n t = Ok ((n * bits + 7) / 8).
Proof.
  intros Hn Hb H3 Hfit. unfold in_u in Hn.
  destruct t; cbn in Hb; try discriminate; injection Hb as <-;
    cbn [GetOnnxTensorDataSizeInBytes_count GetQnnTensorDataSizeInBytes_count];
    eval_size;
    (rewrite safe_add_fits by (unfold in_u; lia); cbn [rbind]; f_equal; zdiv) ||
    (rewrite safe_mul_fits by (unfold in_u; zdiv); f_equal; zdiv).
Qed.

Lemma qnn_count_Ok n t r :
  in_u 64 n → GetQnnTensorDataSizeInBytes_count n t = Ok r →
  ∃ bits, qnn_bits t = Some bits ∧ r = (n * bits + 7) / 8 ∧ in_u 64 r.
Proof.
  intros Hn Hr. assert (in_u 64 1) as H1 by (unfold in_u; lia).
  destruct t; cbn in Hr; try discriminate; inv_bind Hr || idtac;
    (apply safe_add_Ok in Hr0 as [-> Hin]; [|done..]; injection Hr as <-;
         eexists; split; [done|]; unfold in_u in *; zdiv) ||
    (injection Hr0 as <-; apply safe_mul_Ok in Hr as [-> Hin]; [|done]; eexists; split; [done|];
      split; [zdiv|done]).
Qed.

Lemma qnn_count_fits n t bits :
  in_u 64 n → qnn_bits t = Some bits → n + 1 < 2 ^ 64 → (n * bits + 7) / 8 < 2 ^ 64 →
  GetQnnTensorDataSizeInBytes_count n t = Ok ((n * bits + 7) / 8).
Proof.
  intros Hn Hb H3 Hfit. unfold in_u in Hn.
  destruct t; cbn in Hb; try discriminate; injection Hb as <-;
    cbn [GetOnnxTensorDataSizeInBytes_count GetQnnTensorDataSizeInBytes_count];
    eval_size;
    (rewrite safe_add_fits by (unfold in_u; lia); cbn [rbind]; f_equal; zdiv) ||
    (rewrite safe_mul_fits by (unfold in_u; zdiv); f_equal; zdiv).
Qed.

(** The scalar case agrees with the product of an empty shape. *)
Lemma onnx_size_eq shape t :
  GetOnnxTensorDataSizeInBytes shape t =
    (let* n := foldM safe_mul shape 1 in GetOnnxTensorDataSizeInBytes_count n t).
Proof. by destruct shape. Qed.

Lemma qnn_size_eq shape t :
  GetQnnTensorDataSizeInBytes shape t =
    (let* n := foldM safe_mul shape 1 in GetQnnTensorDataSizeInBytes_count n t).
Proof. by destruct shape. Qed.

End DataSizeFacts.

(** The type an ONNX element becomes when the sub-byte data is expanded to bytes. *)
Definition expanded (t : ONNXTensorElementDataType) (q : Qnn_DataType_t) : bool :=
  match t with
  | ONNX_INT2 | ONNX_UINT2 | ONNX_INT4 | ONNX_UINT4 => negb (IsQuant4bit q)
  | _ => false
  end.

(** Signedness of the integer types, for the fixed-point mapping. *)
Definition onnx_signed (t : ONNXTensorElementDataType) : bool :=
  match t with
  | ONNX_INT2 | ONNX_INT4 | ONNX_INT8 | ONNX_INT16 | ONNX_INT32 | ONNX_INT64 => true
  | _ => false
  end.

Definition qnn_signed (t : Qnn_DataType_t) : bool :=
  match t with
  | QNN_SFIXED_POINT_4 | QNN_SFIXED_POINT_8 | QNN_SFIXED_POINT_16 | QNN_SFIXED_POINT_32
  | QNN_INT_8 | QNN_INT_16 | QNN_INT_32 | QNN_INT_64 => true
  | _ => false
  end.

Section DataSizeProperties.
Context `{SafeInt}.

(** A computed tensor size is never a wrapped one: whenever the ONNX or the QNN size
    computation succeeds, the result is the number of elements times the bits of an
    element, rounded up to bytes, and fits [size_t]; in every other case the code
    throws. *)
Lemma tensor_size_exact (shape : list Z) :
  (∀ t r, GetOnnxTensorDataSizeInBytes shape t = Ok r →
     ∃ bits, onnx_bits t = Some bits ∧ r = (prodZ shape * bits + 7) / 8 ∧ in_u 64 r) ∧
  (∀ t r, GetQnnTensorDataSizeInBytes shape t = Ok r →
     ∃ bits, qnn_bits t = Some bits ∧ r = (prodZ shape * bits + 7) / 8 ∧ in_u 64 r).
Proof.
  assert (in_u 64 1) as H1 by (unfold in_u; lia).
  split; intros t r Hr; rewrite ?onnx_size_eq, ?qnn_size_eq in Hr; inv_bind Hr;
    apply (num_elements_Ok _ _ _ H1) in Hr0 as [-> Hin]; rewrite ?Z.mul_1_l in *;
    (by apply onnx_count_Ok) || (by apply qnn_count_Ok).
Qed.

(** For positive dimensions and a known element type the size computation succeeds
    whenever the element count (plus the rounding of sub-byte types) and the byte
    size fit [size_t]; the empty shape is a scalar of one element. *)
Lemma tensor_size_total (shape : list Z) :
  Forall (Z.lt 0) shape → prodZ shape + 3 < 2 ^ 64 →
  (∀ t bits, onnx_bits t = Some bits → (prodZ shape * bits + 7) / 8 < 2 ^ 64 →
     GetOnnxTensorDataSizeInBytes shape t = Ok ((prodZ shape * bits + 7) / 8)) ∧
  (∀ t bits, qnn_bits t = Some bits → (prodZ shape * bits + 7) / 8 < 2 ^ 64 →
     GetQnnTensorDataSizeInBytes shape t = Ok ((prodZ shape * bits + 7) / 8)).
Proof.
  intros Hpos Hfit. pose proof (prodZ_pos _ Hpos).
  assert (foldM safe_mul shape 1 = Ok (prodZ shape)) as Hn
    by (rewrite num_elements_fits by (done || lia); f_equal; lia).
  split; intros t bits Hb Hs; rewrite ?onnx_size_eq, ?qnn_size_eq, Hn; cbn [rbind];
    (apply onnx_count_fits || apply qnn_count_fits); unfold in_u; done || lia.
Qed.

(** C40: the size of a tensor is the exact byte count or an error: a computed ONNX or QNN size is the
    number of elements times the bits of an element, rounded up to bytes, and fits [size_t]; and for
    positive dimensions and a known type it is computed whenever the count (plus the rounding of
    sub-byte types) and the byte size fit. *)
Theorem tensor_size_exact_or_error (shape : list Z) :
  (∀ t r, GetOnnxTensorDataSizeInBytes shape t = Ok r →
     ∃ bits, onnx_bits t = Some bits ∧ r = (prodZ shape * bits + 7) / 8 ∧ in_u 64 r) ∧
  (∀ t r, GetQnnTensorDataSizeInBytes shape t = Ok r →
     ∃ bits, qnn_bits t = Some bits ∧ r = (prodZ shape * bits + 7) / 8 ∧ in_u 64 r) ∧
  (Forall (Z.lt 0) shape → prodZ shape + 3 < 2 ^ 64 →
   (∀ t bits, onnx_bits t = Some bits → (prodZ shape * bits + 7) / 8 < 2 ^ 64 →
      GetOnnxTensorDataSizeInBytes shape t = Ok ((prodZ shape * bits + 7) / 8)) ∧
   (∀ t bits, qnn_bits t = Some bits → (prodZ shape * bits + 7) / 8 < 2 ^ 64 →
      GetQnnTensorDataSizeInBytes shape t = Ok ((prodZ shape * bits + 7) / 8))).
Proof. destruct (tensor_size_exact shape). auto using tensor_size_total. Qed.

(** The ONNX-to-QNN type table keeps sizes and signedness: a mapped tensor occupies
    as many bytes under its QNN type as under its ONNX type, except that 2-bit and
    4-bit data expanded to an 8-bit fixed-point type occupies one byte per element. *)
Theorem type_map_keeps_size (t : ONNXTensorElementDataType) (is_quantized : bool)
  (backend_type : QnnBackendType) (q : Qnn_DataType_t) (n : Z) :
  OnnxDataTypeToQnnDataType t is_quantized backend_type = Some q → in_u 64 n →
  GetQnnTensorDataSizeInBytes_count n q =
    (if expanded t q then Ok n else GetOnnxTensorDataSizeInBytes_count n t) ∧
  qnn_signed q = onnx_signed t.
Proof.
  intros Hq Hn. unfold OnnxDataTypeToQnnDataType, CreateMap, CreateMapQuantize in Hq.
  destruct is_quantized, backend_type, t; cbn in Hq; try discriminate; injection Hq as <-;
    (split; [|done]); try done;
    change (safe_mul n 1 = Ok n); rewrite safe_mul_fits by (rewrite ?Z.mul_1_r; done);
    by rewrite Z.mul_1_r.
Qed.

End DataSizeProperties.

Lemma tensor_size_exact_or_error_witness :
  @GetQnnTensorDataSizeInBytes exact_safe_int [2; 3; 5] QNN_FLOAT_32 = Ok 120.
Proof.
  apply (proj2 (proj2 (proj2 (@tensor_size_exact_or_error exact_safe_int [2; 3; 5])) ltac:(repeat constructor; lia)
    ltac:(vm_compute; done)) QNN_FLOAT_32 32); vm_compute; reflexivity.
Defined.

Lemma type_map_keeps_size_witness :
  @GetQnnTensorDataSizeInBytes_count exact_safe_int 7 QNN_SFIXED_POINT_8 = Ok 7 ∧
  qnn_signed QNN_SFIXED_POINT_8 = onnx_signed ONNX_INT4.
Proof.
  apply (@type_map_keeps_size exact_safe_int ONNX_INT4 true HTP QNN_SFIXED_POINT_8 7);
    [reflexivity|split; vm_compute; congruence].
Defined.

(** [GetQminQmax] gives the full range of the fixed-point type: it contains zero, has
    [2^bits] levels (one less for a symmetric signed type), and [Saturate] maps every
    value to the closest value of the range. *)
Lemma qmin_qmax_saturate (t : Qnn_DataType_t) (symmetric : bool) (qmin qmax v : Z) :
  GetQminQmax t symmetric = Ok (qmin, qmax) →
  qmin ≤ 0 < qmax ∧
  (∃ bits, qnn_bits t = Some bits ∧
     qmax - qmin + 1 = 2 ^ bits - (if symmetric && qnn_signed t then 1 else 0)) ∧
  qmin ≤ Saturate qmax qmin v ≤ qmax ∧
  (∀ u, qmin ≤ u ≤ qmax → Z.abs (v - Saturate qmax qmin v) ≤ Z.abs (v - u)).
Proof.
  intros Hq.
  assert (qmin ≤ 0 < qmax ∧ ∃ bits, qnn_bits t = Some bits ∧
    qmax - qmin + 1 = 2 ^ bits - (if symmetric && qnn_signed t then 1 else 0)) as [Hr Hb].
  { destruct t; cbn in Hq; try discriminate; injection Hq as <- <-;
      (split; [destruct symmetric; lia|]); eexists; (split; [reflexivity|]);
      destruct symmetric; reflexivity. }
  split; [done|]. split; [done|]. unfold Saturate.
  split; [|intros u Hu]; rewrite Z.gtb_ltb;
    destruct (Z.ltb_spec qmax v), (Z.ltb_spec v qmin); lia.
Qed.

