(* ===== verification/Floats.v ===== *)
(** * IEEE binary floating point

    [float] and [double] as the Standard Library's [spec_float] at binary32 and
    binary64, with the C++ library functions the provider calls.  Every operation
    computes; nothing here is axiomatic. *)

From Stdlib Require Import SpecFloat.
From S2P Require Import Prelude.
Local Open Scope Z_scope.

Abbreviation float := spec_float.
Abbreviation double := spec_float.

Global Instance spec_float_eq_dec : EqDecision spec_float.
Proof. solve_decision. Defined.

(** ** binary32 *)
Definition f32_of_Z (z : Z) : float := binary_normalize 24 128 z 0 false.
Definition f32_add : float → float → float := SFadd 24 128.
Definition f32_sub : float → float → float := SFsub 24 128.
Definition f32_mul : float → float → float := SFmul 24 128.
Definition f32_div : float → float → float := SFdiv 24 128.

(** ** binary64 *)
Definition f64_of_Z (z : Z) : double := binary_normalize 53 1024 z 0 false.
Definition f64_add : double → double → double := SFadd 53 1024.
Definition f64_sub : double → double → double := SFsub 53 1024.
Definition f64_mul : double → double → double := SFmul 53 1024.
Definition f64_div : double → double → double := SFdiv 53 1024.

(** Conversion to a format: the value rounded to nearest, ties to even. *)
Definition convert (prec emax : Z) (x : spec_float) : spec_float :=
  match x with
  | S754_finite s m e => binary_normalize prec emax (cond_Zopp s (Zpos m)) e s
  | _ => x
  end.
Definition f64_of_f32 : float → double := convert 53 1024.
Definition f32_of_f64 : double → float := convert 24 128.

(** ** Comparisons and selections; [std::min] and [std::max] keep the first argument
    on ties and unordered operands *)
Definition f_lt : float → float → bool := SFltb.
Definition f_le : float → float → bool := SFleb.
Definition f_eq : float → float → bool := SFeqb.
Definition f_abs : float → float := SFabs.
Definition f_min (a b : float) : float := if f_lt b a then b else a.
Definition f_max (a b : float) : float := if f_lt a b then b else a.

Definition isfinite (x : float) : bool :=
  match x with S754_zero _ | S754_finite _ _ _ => true | _ => false end.

Definition f_zero : float := S754_zero false.

(** ** Rounding to integers *)

(** Integer part of [m * 2^e], toward zero. *)
Definition pos_trunc (m : positive) (e : Z) : Z :=
  if 0 <=? e then Zpos m * 2 ^ e else Zpos m / 2 ^ (- e).

(** [static_cast] to an integer type: undefined ([Trap]) when the truncated value is
    not representable. *)
Definition to_int (lo hi : Z) (x : float) : result Z :=
  match x with
  | S754_zero _ => Ok 0
  | S754_finite s m e =>
      let v := cond_Zopp s (pos_trunc m e) in
      if (lo <=? v) && (v <=? hi) then Ok v else Err Trap
  | _ => Err Trap
  end.

Definition to_i32 : float → result Z := to_int (- 2 ^ 31) (2 ^ 31 - 1).
Definition to_u32 : float → result Z := to_int 0 (2 ^ 32 - 1).

(** [std::round]: to the nearest integer, ties away from zero. *)
Definition round_away (prec emax : Z) (x : float) : float :=
  match x with
  | S754_finite s m e =>
      if 0 <=? e then x
      else binary_normalize prec emax (cond_Zopp s ((Zpos m + 2 ^ (- e - 1)) / 2 ^ (- e))) 0 s
  | _ => x
  end.
Definition f32_round : float → float := round_away 24 128.
Definition f64_round : double → double := round_away 53 1024.

(** The integer nearest to [m * 2^e] for negative [e], ties to even. *)
Definition pos_round_even (m : positive) (e : Z) : Z :=
  let d := 2 ^ (- e) in
  let q := Zpos m / d in
  let r := Zpos m mod d in
  if 2 * r <? d then q
  else if d <? 2 * r then q + 1
  else if Z.even q then q else q + 1.

(** [std::remainderf(x, 1)]: [x - n] for the nearest integer [n], which is exact. *)
Definition remainder1 (x : float) : float :=
  match x with
  | S754_zero _ => x
  | S754_finite s m e =>
      if 0 <=? e then S754_zero s
      else binary_normalize 24 128 (cond_Zopp s (Zpos m - pos_round_even m e * 2 ^ (- e))) e s
  | _ => S754_nan
  end.

Definition RoundHalfToEven (input : float) : float :=
  if negb (isfinite input) then input else f32_sub input (remainder1 input).

(** ** Integers of binary64

    An integer below [2^53] in magnitude is represented exactly, and in one way except for the sign
    of zero; sums, differences and comparisons of such numbers are those of the integers. *)

Lemma digits_log2 p : Zpos (digits2_pos p) = Z.log2 (Zpos p) + 1.
Proof.
  assert (∀ p, digits2_pos p = Pos.size p) as E by (clear; intros p; induction p; cbn; by f_equal).
  rewrite E. destruct p; cbn; lia.
Qed.

(** The representation of a nonzero integer: 53 bits of mantissa. *)
Definition canon (v : Z) : double :=
  S754_finite (v <? 0) (Z.to_pos (Z.abs v * 2 ^ (52 - Z.log2 (Z.abs v)))) (Z.log2 (Z.abs v) - 52).

Definition rep (x : double) (v : Z) : Prop := if v =? 0 then ∃ s, x = S754_zero s else x = canon v.

Lemma log2_range v : 0 < v < 2 ^ 53 → 0 ≤ Z.log2 v ≤ 52.
Proof. intros Hv. pose proof (Z.log2_nonneg v). pose proof (proj1 (Z.log2_lt_pow2 v 53 ltac:(lia)) ltac:(lia)). lia. Qed.

Lemma mantissa_log2 v : 0 < v < 2 ^ 53 → Z.log2 (v * 2 ^ (52 - Z.log2 v)) = 52.
Proof. intros Hv. pose proof (log2_range v Hv). rewrite Z.log2_mul_pow2 by lia. lia. Qed.

(** A mantissa of 53 bits is not shifted. *)
Lemma shr_fexp_exact q e : Z.log2 (Zpos q) = 52 → -1074 ≤ e →
  shr_fexp 53 1024 (Zpos q) e loc_Exact = ({| shr_m := Zpos q; shr_r := false; shr_s := false |}, e).
Proof.
  intros Hq He. unfold shr_fexp, fexp, emin, Zdigits2. rewrite digits_log2, Hq.
  replace (Z.max (52 + 1 + e - 53) (3 - 1024 - 53) - e) with 0 by lia. done.
Qed.

Lemma round_aux_exact s q e : Z.log2 (Zpos q) = 52 → -1074 ≤ e ≤ 971 →
  binary_round_aux 53 1024 s (Zpos q) e loc_Exact = S754_finite s q e.
Proof.
  intros Hq He. unfold binary_round_aux. rewrite shr_fexp_exact by (done || lia).
  cbn [shr_m loc_of_shr_record round_nearest_even]. rewrite shr_fexp_exact by (done || lia). cbn [shr_m].
  by rewrite (proj2 (Z.leb_le e (1024 - 53))) by lia.
Qed.

Lemma iter_pos_S {A} (f : A → A) n x : SpecFloat.iter_pos f (Pos.succ n) x = f (SpecFloat.iter_pos f n x).
Proof.
  assert (∀ n x, SpecFloat.iter_pos f n (f x) = f (SpecFloat.iter_pos f n x)) as Hc.
  { clear. induction n as [n IH|n IH|]; intros x; cbn; [by rewrite !IH|by rewrite !IH|done]. }
  revert x. induction n as [n IH|n IH|]; intros x; [|change (Pos.succ n~0) with (n~1)%positive; cbn; by rewrite !Hc|done].
  change (Pos.succ n~1) with (Pos.succ n)~0%positive. cbn. by rewrite !IH, !Hc.
Qed.

(** Shifting out zeros. *)
Lemma shr_zeros n : ∀ q, SpecFloat.iter_pos shr_1 n {| shr_m := Zpos (Pos.iter xO q n); shr_r := false; shr_s := false |} =
  {| shr_m := Zpos q; shr_r := false; shr_s := false |}.
Proof.
  assert (∀ n q, Pos.iter xO (xO q) n = xO (Pos.iter xO q n)) as Hi.
  { clear. intros n q. apply Pos.iter_swap. }
  induction n as [|n IH] using Pos.peano_ind; intros q; [done|].
  rewrite Pos.iter_succ, iter_pos_S, <- Hi, IH. done.
Qed.

Lemma iter_xO q n : Zpos (Pos.iter xO q n) = Zpos q * 2 ^ Zpos n.
Proof.
  induction n as [|n IH] using Pos.peano_ind; [cbn; lia|].
  rewrite Pos.iter_succ, Pos2Z.inj_succ, Z.pow_succ_r by lia. rewrite Pos2Z.inj_xO, IH. lia.
Qed.

Lemma round_int s p e v : e ≤ 0 → 0 < v < 2 ^ 53 → Zpos p = v * 2 ^ (- e) →
  binary_round 53 1024 s p e = S754_finite s (Z.to_pos (v * 2 ^ (52 - Z.log2 v))) (Z.log2 v - 52).
Proof.
  intros He Hv Hp. pose proof (log2_range v Hv) as Hl. pose proof (mantissa_log2 v Hv) as Hm. set (l := Z.log2 v) in *.
  assert (Z.log2 (Zpos p) = l - e) as Hlp by (rewrite Hp, Z.log2_mul_pow2 by lia; fold l; lia).
  assert (0 < v * 2 ^ (52 - l)) as Hq0 by (pose proof (Z.pow_pos_nonneg 2 (52 - l)); nia).
  remember (Z.to_pos (v * 2 ^ (52 - l))) as q eqn:Eq.
  assert (Zpos q = v * 2 ^ (52 - l)) as Hq by (subst q; by rewrite Z2Pos.id). rewrite <- Hq in Hm.
  unfold binary_round. rewrite digits_log2, Hlp.
  assert (fexp 53 1024 (l - e + 1 + e) = l - 52) as -> by (unfold fexp, emin; lia).
  unfold shl_align. destruct (l - 52 - e) as [|k|k] eqn:Ek.
  - replace p with q; [replace e with (l - 52) by lia; by apply round_aux_exact; [|lia]|].
    apply (inj Zpos). rewrite Hq, Hp. f_equal. f_equal. lia.
  - assert (p = Pos.iter xO q k) as ->.
    { apply (inj Zpos). rewrite iter_xO, Hq, Hp, <- Z.mul_assoc, <- Z.pow_add_r by lia. f_equal. f_equal. lia. }
    unfold binary_round_aux, shr_fexp at 1. unfold Zdigits2. rewrite digits_log2, Hlp.
    assert (fexp 53 1024 (l - e + 1 + e) - e = Zpos k) as -> by (unfold fexp, emin; lia).
    cbn [shr_record_of_loc shr]. rewrite shr_zeros. cbn [shr_m loc_of_shr_record round_nearest_even].
    replace (e + Zpos k) with (l - 52) by lia. rewrite shr_fexp_exact by (done || lia). cbn [shr_m].
    by rewrite (proj2 (Z.leb_le (l - 52) (1024 - 53))) by lia.
  - assert (Pos.iter xO p k = q) as ->.
    { apply (inj Zpos). rewrite iter_xO, Hq, Hp, <- Z.mul_assoc, <- Z.pow_add_r by lia. f_equal. f_equal. lia. }
    by apply round_aux_exact; [|lia].
Qed.

(** A multiple [v * 2^(-e)] of [2^e]. *)
Lemma normalize_int v e s : e ≤ 0 → Z.abs v < 2 ^ 53 → rep (binary_normalize 53 1024 (v * 2 ^ (- e)) e s) v.
Proof.
  intros He Hv. unfold rep. destruct (Z.eqb_spec v 0) as [->|Hn]; [by exists s|].
  pose proof (Z.pow_pos_nonneg 2 (- e)) as H2. unfold canon.
  destruct (Z.ltb_spec v 0) as [Hneg|Hpos].
  - destruct (v * 2 ^ (- e)) as [|p|p] eqn:E; [nia|nia|]. cbn [binary_normalize].
    rewrite (round_int true p e (Z.abs v)); [done|done|lia|]. rewrite Z.abs_neq by lia. lia.
  - destruct (v * 2 ^ (- e)) as [|p|p] eqn:E; [nia| |nia]. cbn [binary_normalize].
    rewrite (round_int false p e (Z.abs v)); [done|done|lia|]. rewrite Z.abs_eq by lia. lia.
Qed.

Lemma f64_of_Z_rep v : Z.abs v < 2 ^ 53 → rep (f64_of_Z v) v.
Proof. intros Hv. pose proof (normalize_int v 0 false ltac:(lia) Hv) as H. by rewrite Z.mul_1_r in H. Qed.

Lemma canon_value v e : v ≠ 0 → Z.abs v < 2 ^ 53 → e ≤ Z.log2 (Z.abs v) - 52 →
  cond_Zopp (v <? 0) (Zpos (fst (shl_align (Z.to_pos (Z.abs v * 2 ^ (52 - Z.log2 (Z.abs v)))) (Z.log2 (Z.abs v) - 52) e))) =
  v * 2 ^ (- e).
Proof.
  intros Hn Hv He. pose proof (log2_range (Z.abs v) ltac:(lia)) as Hl. set (l := Z.log2 (Z.abs v)) in *.
  assert (0 < Z.abs v * 2 ^ (52 - l)) as H0 by (pose proof (Z.pow_pos_nonneg 2 (52 - l)); nia).
  assert (Zpos (fst (shl_align (Z.to_pos (Z.abs v * 2 ^ (52 - l))) (l - 52) e)) = Z.abs v * 2 ^ (- e)) as ->.
  { unfold shl_align. destruct (e - (l - 52)) as [|k|k] eqn:Ek; [|lia|]; cbn [fst].
    - rewrite Z2Pos.id by done. f_equal. f_equal. lia.
    - rewrite iter_xO, Z2Pos.id, <- Z.mul_assoc, <- Z.pow_add_r by lia. f_equal. f_equal. lia. }
  unfold cond_Zopp. destruct (Z.ltb_spec v 0); [rewrite Z.abs_neq by lia|rewrite Z.abs_eq by lia]; lia.
Qed.

Lemma canon_opp v : v ≠ 0 → SFopp (canon v) = canon (- v).
Proof. intros Hn. unfold canon. cbn. rewrite Z.abs_opp. f_equal. destruct (Z.ltb_spec v 0), (Z.ltb_spec (- v) 0); lia || done. Qed.

Lemma rep_opp x v : rep x v → rep (SFopp x) (- v).
Proof.
  unfold rep. destruct (Z.eqb_spec v 0) as [->|Hn]; [intros [s ->]; by eexists|]. intros ->.
  rewrite (proj2 (Z.eqb_neq (- v) 0)) by lia. by apply canon_opp.
Qed.

Lemma sub_as_add x y : SFsub 53 1024 x y = SFadd 53 1024 x (SFopp y).
Proof.
  destruct x as [sx|sx| |sx mx ex], y as [sy|sy| |sy my ey]; cbn; try (by destruct sx, sy); try done.
Qed.

Lemma add_rep x y a b : rep x a → rep y b → Z.abs a < 2 ^ 53 → Z.abs b < 2 ^ 53 → Z.abs (a + b) < 2 ^ 53 →
  rep (f64_add x y) (a + b).
Proof.
  intros Hx Hy Ha Hb Hab. unfold f64_add. unfold rep in Hx, Hy.
  destruct (Z.eqb_spec a 0) as [->|Hna]; [destruct Hx as [sx ->]|rewrite Hx];
    (destruct (Z.eqb_spec b 0) as [->|Hnb]; [destruct Hy as [sy ->]|rewrite Hy]).
  - destruct sx, sy; by eexists.
  - rewrite Z.add_0_l. unfold rep. by rewrite (proj2 (Z.eqb_neq b 0)).
  - rewrite Z.add_0_r. unfold rep. by rewrite (proj2 (Z.eqb_neq a 0)).
  - pose proof (log2_range (Z.abs a) ltac:(lia)). pose proof (log2_range (Z.abs b) ltac:(lia)).
    unfold canon. cbn [SFadd]. rewrite !canon_value by lia. rewrite <- Z.mul_add_distr_r.
    apply normalize_int; lia.
Qed.

Lemma sub_rep x y a b : rep x a → rep y b → Z.abs a < 2 ^ 53 → Z.abs b < 2 ^ 53 → Z.abs (a - b) < 2 ^ 53 →
  rep (f64_sub x y) (a - b).
Proof.
  intros Hx Hy Ha Hb Hab. unfold f64_sub. rewrite sub_as_add. apply add_rep; [done|by apply rep_opp|lia..].
Qed.

Lemma rep_unique x y v : rep x v → rep y v → v ≠ 0 → x = y.
Proof. unfold rep. intros Hx Hy Hn. rewrite (proj2 (Z.eqb_neq v 0)) in Hx, Hy by done. congruence. Qed.

(** The sum of two integers, with the sign of zero that the rounding mode gives. *)
Lemma add_of_Z a b : Z.abs a < 2 ^ 53 → Z.abs b < 2 ^ 53 → Z.abs (a + b) < 2 ^ 53 →
  f64_add (f64_of_Z a) (f64_of_Z b) = f64_of_Z (a + b).
Proof.
  intros Ha Hb Hab. pose proof (f64_of_Z_rep a Ha) as Ra. pose proof (f64_of_Z_rep b Hb) as Rb.
  destruct (decide (a + b = 0)) as [E|Hn].
  - rewrite E. destruct (decide (a = 0)) as [->|Hna]; [replace b with 0 by lia; done|].
    unfold rep in Ra, Rb. rewrite (proj2 (Z.eqb_neq a 0)) in Ra by done. rewrite (proj2 (Z.eqb_neq b 0)) in Rb by lia.
    rewrite Ra, Rb. pose proof (log2_range (Z.abs a) ltac:(lia)). pose proof (log2_range (Z.abs b) ltac:(lia)).
    unfold f64_add, canon. cbn [SFadd]. rewrite !canon_value by lia. rewrite <- Z.mul_add_distr_r, E. done.
  - eapply rep_unique; [by apply add_rep|by apply f64_of_Z_rep|done].
Qed.

Lemma canon_lt a b : 0 < a < 2 ^ 53 → 0 < b < 2 ^ 53 →
  (match Z.compare (Z.log2 a - 52) (Z.log2 b - 52) with
   | Lt => Lt | Gt => Gt
   | Eq => Pos.compare_cont Eq (Z.to_pos (a * 2 ^ (52 - Z.log2 a))) (Z.to_pos (b * 2 ^ (52 - Z.log2 b)))
   end) = Z.compare a b.
Proof.
  intros Ha Hb. pose proof (log2_range a Ha). pose proof (log2_range b Hb).
  destruct (Z.compare_spec (Z.log2 a - 52) (Z.log2 b - 52)) as [E|Hlt|Hgt].
  - replace (Z.log2 b) with (Z.log2 a) by lia. pose proof (Z.pow_pos_nonneg 2 (52 - Z.log2 a)) as Hp.
    change (Pos.compare_cont Eq ?x ?y) with (Pos.compare x y). rewrite <- Z2Pos.inj_compare by nia.
    rewrite Z.mul_comm, (Z.mul_comm b). symmetry. apply Zmult_compare_compat_l. lia.
  - symmetry. apply Z.compare_lt_iff. apply Z.log2_lt_cancel. lia.
  - symmetry. apply Z.compare_gt_iff. apply Z.log2_lt_cancel. lia.
Qed.

Lemma compare_rep x y a b : rep x a → rep y b → Z.abs a < 2 ^ 53 → Z.abs b < 2 ^ 53 → SFcompare x y = Some (Z.compare a b).
Proof.
  intros Hx Hy Ha Hb. unfold rep in Hx, Hy.
  destruct (Z.eqb_spec a 0) as [->|Hna]; [destruct Hx as [sx ->]|rewrite Hx];
    (destruct (Z.eqb_spec b 0) as [->|Hnb]; [destruct Hy as [sy ->]|rewrite Hy]); [done|..].
  - unfold canon. cbn [SFcompare]. f_equal. destruct (Z.ltb_spec b 0); symmetry; [apply Z.compare_gt_iff|apply Z.compare_lt_iff]; lia.
  - unfold canon. cbn [SFcompare]. f_equal. destruct (Z.ltb_spec a 0); symmetry; [apply Z.compare_lt_iff|apply Z.compare_gt_iff]; lia.
  - unfold canon. cbn [SFcompare]. f_equal.
    pose proof (canon_lt (Z.abs a) (Z.abs b) ltac:(lia) ltac:(lia)) as Hc.
    destruct (Z.ltb_spec a 0), (Z.ltb_spec b 0).
    + transitivity (CompOpp (Z.compare (Z.abs a) (Z.abs b))).
      * rewrite <- Hc. by destruct (_ ?= _).
      * rewrite <- Z.compare_antisym. rewrite !Z.abs_neq by lia. by rewrite Z.compare_opp.
    + symmetry. apply Z.compare_lt_iff. lia.
    + symmetry. apply Z.compare_gt_iff. lia.
    + rewrite Hc. by rewrite !Z.abs_eq by lia.
Qed.

Lemma lt_rep x y a b : rep x a → rep y b → Z.abs a < 2 ^ 53 → Z.abs b < 2 ^ 53 → f_lt x y = (a <? b).
Proof. intros. unfold f_lt, SFltb. rewrite (compare_rep x y a b) by done. unfold Z.ltb. by destruct (a ?= b). Qed.

Lemma max_rep x y a b : rep x a → rep y b → Z.abs a < 2 ^ 53 → Z.abs b < 2 ^ 53 → rep (f_max x y) (Z.max a b).
Proof.
  intros Hx Hy Ha Hb. unfold f_max. rewrite (lt_rep x y a b) by done.
  destruct (Z.ltb_spec a b); [rewrite Z.max_r by lia|rewrite Z.max_l by lia]; done.
Qed.

Lemma min_rep x y a b : rep x a → rep y b → Z.abs a < 2 ^ 53 → Z.abs b < 2 ^ 53 → rep (f_min x y) (Z.min a b).
Proof.
  intros Hx Hy Ha Hb. unfold f_min. rewrite (lt_rep y x b a) by done.
  destruct (Z.ltb_spec b a); [rewrite Z.min_r by lia|rewrite Z.min_l by lia]; done.
Qed.

Lemma to_int_rep x v lo hi : rep x v → Z.abs v < 2 ^ 53 → lo ≤ 0 ≤ hi →
  to_int lo hi x = if (lo <=? v) && (v <=? hi) then Ok v else Err Trap.
Proof.
  intros Hx Hv Hr. unfold rep in Hx. destruct (Z.eqb_spec v 0) as [->|Hn].
  - destruct Hx as [s ->]. cbn. by rewrite (proj2 (Z.leb_le lo 0)), (proj2 (Z.leb_le 0 hi)) by lia.
  - rewrite Hx. unfold canon, to_int. pose proof (log2_range (Z.abs v) ltac:(lia)) as Hl. set (l := Z.log2 (Z.abs v)) in *.
    assert (0 < Z.abs v * 2 ^ (52 - l)) as H0 by (pose proof (Z.pow_pos_nonneg 2 (52 - l)); nia).
    assert (cond_Zopp (v <? 0) (pos_trunc (Z.to_pos (Z.abs v * 2 ^ (52 - l))) (l - 52)) = v) as ->; [|done].
    assert (pos_trunc (Z.to_pos (Z.abs v * 2 ^ (52 - l))) (l - 52) = Z.abs v) as ->.
    { unfold pos_trunc. rewrite Z2Pos.id by done. destruct (Z.leb_spec 0 (l - 52)).
      - replace l with 52 by lia. cbn. lia.
      - replace (- (l - 52)) with (52 - l) by lia. apply Z.div_mul. pose proof (Z.pow_pos_nonneg 2 (52 - l)). lia. }
    unfold cond_Zopp. destruct (Z.ltb_spec v 0); lia.
Qed.
