(* ===== verification/QuantParams.v ===== *)
(** * Quantization parameters

    [builder/qnn_quant_params_wrapper.{h,cc}]: the QNN quantization encodings and
    the class [QnnQuantParamsWrapper] that owns their arrays.

    [Qnn_QuantizeParams_t] is a C struct with a tag and a union; the code always
    writes the tag together with the member it selects, so tag and member are one
    constructor here.  A pointer to an array is an option of the array's contents.
    The wrapper's own buffers ([per_channel_data_] and the like) are the arrays the
    parameters point to, so only whether [per_channel_data_] is set is kept. *)

From S2P Require Import Prelude DataTypes Floats.
Local Open Scope Z_scope.

Record Qnn_ScaleOffset_t := ScaleOffset { so_scale : float; so_offset : Z }.
Record Qnn_FloatScaleOffset_t := FloatScaleOffset { fso_scale : float; fso_offset : float }.

(** The storage type of the block scales is always the 8-bit one, so the field
    [blockScaleStorageType] is left out. *)
Record Qnn_BlockwiseExpansion_t := BlockwiseExpansion {
  bwe_axis : Z;
  bwe_scaleOffsets : option (list Qnn_ScaleOffset_t);
  bwe_numBlocksPerAxis : Z;
  bwe_blockScaleBitwidth : Z;
  bwe_blocksScale8 : option (list Z)
}.

Inductive Qnn_Encoding : Type :=
| ENC_UNDEFINED
| SCALE_OFFSET (scale : float) (offset : Z)
| BW_SCALE_OFFSET (bitwidth : Z) (scale : float) (offset : Z)
| AXIS_SCALE_OFFSET (axis numScaleOffsets : Z) (scaleOffset : option (list Qnn_ScaleOffset_t))
| BW_AXIS_SCALE_OFFSET (bitwidth axis numElements : Z) (scales : option (list float))
    (offsets : option (list Z))
| BLOCKWISE_EXPANSION (e : option Qnn_BlockwiseExpansion_t)
| BLOCK (blockSize : option (list Z)) (scaleOffset : option (list Qnn_ScaleOffset_t))
| BW_FLOAT_BLOCK (bitwidth : Z) (blockSize : option (list Z))
    (floatScaleOffset : option (list Qnn_FloatScaleOffset_t))
| ENC_OTHER (code : Z).

Inductive Qnn_Definition_t : Set := DEFINITION_UNDEFINED | DEFINITION_DEFINED | IMPL_GENERATED.

Global Instance definition_eq_dec : EqDecision Qnn_Definition_t.
Proof. solve_decision. Defined.
Global Instance scale_offset_eq_dec : EqDecision Qnn_ScaleOffset_t.
Proof. solve_decision. Defined.
Global Instance float_scale_offset_eq_dec : EqDecision Qnn_FloatScaleOffset_t.
Proof. solve_decision. Defined.
Global Instance blockwise_eq_dec : EqDecision Qnn_BlockwiseExpansion_t.
Proof. solve_decision. Defined.
Global Instance encoding_eq_dec : EqDecision Qnn_Encoding.
Proof. solve_decision. Defined.

Record Qnn_QuantizeParams_t := QuantizeParams {
  encodingDefinition : Qnn_Definition_t;
  quantizationEncoding : Qnn_Encoding
}.

Definition QNN_QUANTIZE_PARAMS_INIT : Qnn_QuantizeParams_t :=
  QuantizeParams DEFINITION_UNDEFINED ENC_UNDEFINED.

(** The members of the class. *)
Record QnnQuantParamsWrapper := Wrapper {
  params_ : Qnn_QuantizeParams_t;
  per_channel_data_ : bool;
  per_channel_scales_size_ : Z;
  block_encoding_tensor_rank_ : Z;
  num_blocks_ : Z
}.

Definition default_wrapper : QnnQuantParamsWrapper :=
  Wrapper QNN_QUANTIZE_PARAMS_INIT false 0 0 0.

(** ** Queries *)

Definition defined (w : QnnQuantParamsWrapper) : bool :=
  bool_decide (encodingDefinition (params_ w) = DEFINITION_DEFINED).

Definition IsQuantized (w : QnnQuantParamsWrapper) : bool := defined w.

Definition IsPerTensor (w : QnnQuantParamsWrapper) (include_bw : bool) : bool :=
  defined w &&
  match quantizationEncoding (params_ w) with
  | SCALE_OFFSET _ _ => true
  | BW_SCALE_OFFSET _ _ _ => include_bw
  | _ => false
  end.

Definition GetPerTensorScaleOffset (w : QnnQuantParamsWrapper) : result (float * Z) :=
  match quantizationEncoding (params_ w) with
  | SCALE_OFFSET s o => Ok (s, o)
  | BW_SCALE_OFFSET _ s o => Ok (s, o)
  | _ => Err (EpFail "GetPerTensorScaleOffset: encoding is not per-tensor.")
  end.

Definition IsPerChannel (w : QnnQuantParamsWrapper) : bool :=
  defined w &&
  match quantizationEncoding (params_ w) with
  | AXIS_SCALE_OFFSET _ _ _ | BW_AXIS_SCALE_OFFSET _ _ _ _ _ => true
  | _ => false
  end.

Definition IsLPBQ (w : QnnQuantParamsWrapper) : bool :=
  defined w &&
  match quantizationEncoding (params_ w) with BLOCKWISE_EXPANSION _ => true | _ => false end.

Definition IsBlockQuantized (w : QnnQuantParamsWrapper) : bool :=
  defined w &&
  match quantizationEncoding (params_ w) with
  | BLOCK _ _ | BW_FLOAT_BLOCK _ _ _ => true
  | _ => false
  end.

Definition GetPerChannelScalesSize (w : QnnQuantParamsWrapper) : Z := per_channel_scales_size_ w.

(** ** Factories *)

Definition PerTensor (scale : float) (offset : Z) : QnnQuantParamsWrapper :=
  Wrapper (QuantizeParams DEFINITION_DEFINED (SCALE_OFFSET scale offset)) false 0 0 0.

Definition PerTensorBw (scale : float) (offset bitwidth : Z) : QnnQuantParamsWrapper :=
  Wrapper (QuantizeParams DEFINITION_DEFINED (BW_SCALE_OFFSET bitwidth scale offset)) false 0 0 0.

(** The loops that pair the [i]-th scale with the [i]-th offset. *)
Definition zip_scale_offsets (num_elems : Z) (scales : list float) (offsets : list Z)
  : result (list Qnn_ScaleOffset_t) :=
  collect (Z.to_nat num_elems) (fun i =>
    let* o := aget offsets i in
    let* s := aget scales i in
    Ok (ScaleOffset s o)).

Definition PerChannel (scales : list float) (offsets : list Z) (axis : Z)
  : result QnnQuantParamsWrapper :=
  let num_elems := u32 (Z.of_nat (length scales)) in
  if num_elems >? 0 then
    let* dst := zip_scale_offsets num_elems scales offsets in
    Ok (Wrapper (QuantizeParams DEFINITION_DEFINED (AXIS_SCALE_OFFSET axis num_elems (Some dst)))
          true num_elems 0 0)
  else
    Ok (Wrapper (QuantizeParams DEFINITION_DEFINED (AXIS_SCALE_OFFSET axis num_elems None))
          false 0 0 0).

Definition PerChannelBw (scales : list float) (offsets : list Z) (axis bitwidth : Z)
  : result QnnQuantParamsWrapper :=
  let num_elems := u32 (Z.of_nat (length scales)) in
  if num_elems >? 0 then
    let* s := copy_n (Z.to_nat num_elems) (Some scales) in
    let* o := copy_n (Z.to_nat num_elems) (Some offsets) in
    Ok (Wrapper (QuantizeParams DEFINITION_DEFINED
                   (BW_AXIS_SCALE_OFFSET bitwidth axis num_elems (Some s) (Some o)))
          true num_elems 0 0)
  else
    Ok (Wrapper (QuantizeParams DEFINITION_DEFINED
                   (BW_AXIS_SCALE_OFFSET bitwidth axis num_elems None None))
          false 0 0 0).

(** The division by [num_elems] is undefined when there is no channel. *)
Definition LowPowerBlockwise (per_channel_float_scales : list float) (per_block_int_scales : list Z)
  (offsets : list Z) (axis block_scale_bitwidth : Z) : result QnnQuantParamsWrapper :=
  let num_elems := u32 (Z.of_nat (length per_channel_float_scales)) in
  if num_elems >? 0 then
    let* dst := zip_scale_offsets num_elems per_channel_float_scales offsets in
    let num_ints := u32 (Z.of_nat (length per_block_int_scales)) in
    let* ints := collect (Z.to_nat num_ints) (aget per_block_int_scales) in
    Ok (Wrapper (QuantizeParams DEFINITION_DEFINED (BLOCKWISE_EXPANSION (Some
                   (BlockwiseExpansion (i32 axis) (Some dst) (num_ints / num_elems)
                      block_scale_bitwidth (Some ints)))))
          true num_elems 0 0)
  else Err Trap.

Definition Block (scales : list float) (offsets : list Z) (block_sizes : list Z)
  : result QnnQuantParamsWrapper :=
  let num_blocks := u32 (Z.of_nat (length scales)) in
  let rank := u32 (Z.of_nat (length block_sizes)) in
  let* sizes := copy_n (Z.to_nat rank) (Some block_sizes) in
  if num_blocks >? 0 then
    let* dst := zip_scale_offsets num_blocks scales offsets in
    Ok (Wrapper (QuantizeParams DEFINITION_DEFINED (BLOCK (Some sizes) (Some dst)))
          false 0 rank num_blocks)
  else
    Ok (Wrapper (QuantizeParams DEFINITION_DEFINED (BLOCK (Some sizes) None))
          false 0 rank num_blocks).

Definition BwFloatBlock (scales offsets : list float) (bitwidth : Z) (block_sizes : list Z)
  : result QnnQuantParamsWrapper :=
  let rank := u32 (Z.of_nat (length block_sizes)) in
  let* sizes := copy_n (Z.to_nat rank) (Some block_sizes) in
  let num_blocks := u32 (Z.of_nat (length scales)) in
  let* dst := collect (Z.to_nat num_blocks) (fun i =>
    let* o := aget offsets i in
    let* s := aget scales i in
    Ok (FloatScaleOffset s o)) in
  Ok (Wrapper (QuantizeParams DEFINITION_DEFINED (BW_FLOAT_BLOCK bitwidth (Some sizes) (Some dst)))
        false 0 rank num_blocks).

(** ** Scales *)

Definition GetScales (w : QnnQuantParamsWrapper) : result (list float) :=
  let* _ := return_if_not (defined w) "Unquantized qparams does not have scales" in
  match quantizationEncoding (params_ w) with
  | SCALE_OFFSET s _ => Ok [s]
  | BW_SCALE_OFFSET _ s _ => Ok [s]
  | AXIS_SCALE_OFFSET _ num_elems so =>
      let* l := copy_n (Z.to_nat num_elems) so in Ok (so_scale <$> l)
  | BW_AXIS_SCALE_OFFSET _ _ num_elems scales _ => copy_n (Z.to_nat num_elems) scales
  | BLOCK _ so => let* l := copy_n (Z.to_nat (num_blocks_ w)) so in Ok (so_scale <$> l)
  | _ => Err (EpFail "Unsupported QNN quantization encoding: ")
  end.

(** ** Initialization from raw parameters

    The second component is the status: [None] is success.  The members are updated
    in place, so the new wrapper is returned in either case. *)
Abbreviation status := (option string).

Definition reset_per_channel (self : QnnQuantParamsWrapper) : QnnQuantParamsWrapper :=
  if per_channel_data_ self then
    Wrapper QNN_QUANTIZE_PARAMS_INIT false (per_channel_scales_size_ self)
      (block_encoding_tensor_rank_ self) (num_blocks_ self)
  else self.

Definition set_params (self : QnnQuantParamsWrapper) (p : Qnn_QuantizeParams_t) (owned : bool) :=
  Wrapper p owned (per_channel_scales_size_ self) (block_encoding_tensor_rank_ self)
    (num_blocks_ self).

Definition Init (self : QnnQuantParamsWrapper) (params : Qnn_QuantizeParams_t)
  (num_scaleoffsets tensor_rank : Z) : result (QnnQuantParamsWrapper * status) :=
  let self := reset_per_channel self in
  if bool_decide (encodingDefinition params ≠ DEFINITION_DEFINED) then
    Ok (set_params self params (per_channel_data_ self), None)
  else
  let mk e := QuantizeParams (encodingDefinition params) e in
  let owned := per_channel_data_ self in
  match quantizationEncoding params with
  | SCALE_OFFSET _ _ | BW_SCALE_OFFSET _ _ _ => Ok (set_params self params owned, None)
  | AXIS_SCALE_OFFSET axis num_elems so =>
      if num_elems >? 0 then
        let* dst := copy_n (Z.to_nat num_elems) so in
        Ok (set_params self (mk (AXIS_SCALE_OFFSET axis num_elems (Some dst))) true, None)
      else Ok (set_params self (mk (AXIS_SCALE_OFFSET axis num_elems None)) owned, None)
  | BW_AXIS_SCALE_OFFSET bitwidth axis num_elems scales offsets =>
      if num_elems >? 0 then
        let* s := copy_n (Z.to_nat num_elems) scales in
        let* o := copy_n (Z.to_nat num_elems) offsets in
        Ok (set_params self (mk (BW_AXIS_SCALE_OFFSET bitwidth axis num_elems (Some s) (Some o))) true,
            None)
      else Ok (set_params self (mk (BW_AXIS_SCALE_OFFSET bitwidth axis num_elems None None)) owned, None)
  | BLOCKWISE_EXPANSION None => Err Trap
  | BLOCKWISE_EXPANSION (Some e) =>
      let* so := copy_n (Z.to_nat num_scaleoffsets) (bwe_scaleOffsets e) in
      let bs_num_elems := u64 (num_scaleoffsets * bwe_numBlocksPerAxis e) in
      let* bs := copy_n (Z.to_nat bs_num_elems) (bwe_blocksScale8 e) in
      Ok (Wrapper (mk (BLOCKWISE_EXPANSION (Some (BlockwiseExpansion (bwe_axis e) (Some so)
                    (bwe_numBlocksPerAxis e) (bwe_blockScaleBitwidth e) (Some bs)))))
            true (u32 num_scaleoffsets) (block_encoding_tensor_rank_ self) (num_blocks_ self), None)
  | BLOCK sizes so =>
      let* sz := copy_n (Z.to_nat (u32 tensor_rank)) sizes in
      let* dst := copy_n (Z.to_nat num_scaleoffsets) so in
      Ok (Wrapper (mk (BLOCK (Some sz) (Some dst))) owned (per_channel_scales_size_ self)
            (u32 tensor_rank) (u32 num_scaleoffsets), None)
  | BW_FLOAT_BLOCK bitwidth sizes so =>
      let* sz := copy_n (Z.to_nat (u32 tensor_rank)) sizes in
      let* dst := copy_n (Z.to_nat num_scaleoffsets) so in
      Ok (Wrapper (mk (BW_FLOAT_BLOCK bitwidth (Some sz) (Some dst))) owned
            (per_channel_scales_size_ self) (u32 tensor_rank) (num_blocks_ self), None)
  | ENC_UNDEFINED | ENC_OTHER _ => Ok (self, Some "Unsupported QNN quantization encoding: ")
  end.

(** The number of scale/offset entries and the rank that copying passes to [Init]. *)
Definition copy_from (self other : QnnQuantParamsWrapper) : result QnnQuantParamsWrapper :=
  let '(num_scaleoffsets, self) :=
    if IsLPBQ other then (per_channel_scales_size_ other, self)
    else if IsBlockQuantized other then
      (num_blocks_ other,
       Wrapper (params_ self) (per_channel_data_ self) (per_channel_scales_size_ self)
         (block_encoding_tensor_rank_ other) (num_blocks_ self))
    else (0, self) in
  let* (w, _) := Init self (params_ other) num_scaleoffsets (block_encoding_tensor_rank_ self) in
  Ok w.

(** Copy constructor and copy assignment (of two distinct objects). *)
Definition copy_construct (other : QnnQuantParamsWrapper) : result QnnQuantParamsWrapper :=
  copy_from default_wrapper other.
Definition copy_assign (self other : QnnQuantParamsWrapper) : result QnnQuantParamsWrapper :=
  copy_from self other.
Definition Copy (w : QnnQuantParamsWrapper) : result QnnQuantParamsWrapper := copy_construct w.

(** ** Axis updates *)

Definition axis_of (e : Qnn_Encoding) : option Z :=
  match e with
  | AXIS_SCALE_OFFSET axis _ _ => Some axis
  | BW_AXIS_SCALE_OFFSET _ axis _ _ _ => Some axis
  | BLOCKWISE_EXPANSION (Some x) => Some (bwe_axis x)
  | _ => None
  end.

Definition with_axis (e : Qnn_Encoding) (axis : Z) : Qnn_Encoding :=
  match e with
  | AXIS_SCALE_OFFSET _ n so => AXIS_SCALE_OFFSET axis n so
  | BW_AXIS_SCALE_OFFSET b _ n s o => BW_AXIS_SCALE_OFFSET b axis n s o
  | BLOCKWISE_EXPANSION (Some x) => BLOCKWISE_EXPANSION (Some
      (BlockwiseExpansion axis (bwe_scaleOffsets x) (bwe_numBlocksPerAxis x)
         (bwe_blockScaleBitwidth x) (bwe_blocksScale8 x)))
  | _ => e
  end.

Definition set_axis (w : QnnQuantParamsWrapper) (axis : Z) : QnnQuantParamsWrapper :=
  set_params w (QuantizeParams (encodingDefinition (params_ w))
                  (with_axis (quantizationEncoding (params_ w)) axis)) (per_channel_data_ w).

Definition transpose_axis_msg (e : Qnn_Encoding) : string :=
  match e with
  | BLOCKWISE_EXPANSION _ => "LPBQ axis value is out of range of the provided permutation"
  | _ => "Axis value is out of range of the provided permutation"
  end.

(** [perm[axis]] after the range check on the axis converted to [size_t]. *)
Definition HandleTranspose (w : QnnQuantParamsWrapper) (perm : list Z) : result QnnQuantParamsWrapper :=
  if negb (IsPerChannel w) && negb (IsLPBQ w) then Ok w
  else match axis_of (quantizationEncoding (params_ w)) with
  | None => Ok w
  | Some axis =>
      let* _ := return_if_not (u64 axis <? Z.of_nat (length perm))
        (transpose_axis_msg (quantizationEncoding (params_ w))) in
      let* p := aget perm (Z.to_nat axis) in
      Ok (set_axis w (i32 p))
  end.

(** The [while] loop: [new_shape[j]] is read before [j] is compared with the size. *)
Fixpoint unsqueeze_scan (fuel : nat) (x : Z) (new_shape : list Z) (j : nat) : result nat :=
  match fuel with
  | O => Err Trap
  | S fuel =>
      let* y := aget new_shape j in
      if negb (x =? y) && (j <? length new_shape)%nat then unsqueeze_scan fuel x new_shape (S j)
      else Ok j
  end.

Fixpoint unsqueeze_loop (orig_shape new_shape : list Z) (axis : Z) (num_found j : nat) : result nat :=
  match orig_shape with
  | [] => Ok j
  | x :: orig_shape =>
      if (j <? length new_shape)%nat then
        let* j' := unsqueeze_scan (S (length new_shape)) x new_shape j in
        if Z.of_nat num_found =? u64 axis then Ok j'
        else unsqueeze_loop orig_shape new_shape axis (S num_found) (S j')
      else Ok j
  end.

Definition HandleUnsqueeze (w : QnnQuantParamsWrapper) (orig_shape new_shape : list Z)
  : result QnnQuantParamsWrapper :=
  if negb (IsPerChannel w) && negb (IsLPBQ w) then Ok w
  else
    let* _ := return_if_not (length orig_shape <? length new_shape)%nat
      "Expected unsqueezed shape to have a greater rank." in
    match axis_of (quantizationEncoding (params_ w)) with
    | None => Err (EpFail "Unhandled quantization encoding: ")
    | Some axis =>
        let* j := unsqueeze_loop orig_shape new_shape axis 0 0 in
        if Z.of_nat j =? u64 axis then Ok w else Ok (set_axis w (i32 (Z.of_nat j)))
    end.

(** ** Class invariant

    The counters agree with the arrays the parameters point to. *)
Definition sized {A} (n : Z) (a : option (list A)) : Prop :=
  match a with Some l => n = Z.of_nat (length l) ∧ 0 < n | None => n = 0 end.

Definition enc_wf (w : QnnQuantParamsWrapper) (e : Qnn_Encoding) : Prop :=
  match e with
  | ENC_UNDEFINED | ENC_OTHER _ => False
  | SCALE_OFFSET _ _ | BW_SCALE_OFFSET _ _ _ => True
  | AXIS_SCALE_OFFSET _ n so => sized n so
  | BW_AXIS_SCALE_OFFSET _ _ n s o => sized n s ∧ sized n o
  | BLOCKWISE_EXPANSION None => False
  | BLOCKWISE_EXPANSION (Some x) =>
      match bwe_scaleOffsets x, bwe_blocksScale8 x with
      | Some so, Some bs =>
          per_channel_scales_size_ w = Z.of_nat (length so) ∧
          Z.of_nat (length bs) = per_channel_scales_size_ w * bwe_numBlocksPerAxis x ∧
          in_u 32 (per_channel_scales_size_ w) ∧ Z.of_nat (length bs) < 2 ^ 64
      | _, _ => False
      end
  | BLOCK (Some sizes) (Some so) =>
      num_blocks_ w = Z.of_nat (length so) ∧ in_u 32 (num_blocks_ w) ∧
      block_encoding_tensor_rank_ w = Z.of_nat (length sizes) ∧ in_u 32 (block_encoding_tensor_rank_ w)
  | BW_FLOAT_BLOCK _ (Some sizes) (Some so) =>
      num_blocks_ w = Z.of_nat (length so) ∧ in_u 32 (num_blocks_ w) ∧
      block_encoding_tensor_rank_ w = Z.of_nat (length sizes) ∧ in_u 32 (block_encoding_tensor_rank_ w)
  | BLOCK _ _ | BW_FLOAT_BLOCK _ _ _ => False
  end.

Definition wf (w : QnnQuantParamsWrapper) : Prop :=
  encodingDefinition (params_ w) = DEFINITION_DEFINED → enc_wf w (quantizationEncoding (params_ w)).

(** An encoding whose number of blocks a copy does not record. *)
Definition is_bw_float_block (w : QnnQuantParamsWrapper) : bool :=
  match quantizationEncoding (params_ w) with BW_FLOAT_BLOCK _ _ _ => true | _ => false end.

Lemma copy_n_sized {A} n (a : option (list A)) :
  sized n a → copy_n (Z.to_nat n) a = Ok (default [] a).
Proof.
  destruct a as [l|]; cbn; [intros [-> _]|intros ->; done].
  rewrite Nat2Z.id. apply copy_n_all.
Qed.

Lemma copy_n_len {A} n (l : list A) : n = Z.of_nat (length l) → copy_n (Z.to_nat n) (Some l) = Ok l.
Proof. intros ->. rewrite Nat2Z.id. apply copy_n_all. Qed.

Lemma sized_pos {A} n (a : option (list A)) :
  sized n a → (n >? 0) = true ∧ a = Some (default [] a) ∨ (n >? 0) = false ∧ a = None.
Proof.
  destruct a as [l|]; cbn; [intros [? ?]; left|intros ->; by right].
  split; [|done]. rewrite Z.gtb_ltb. by apply Z.ltb_lt.
Qed.

(** Copying reproduces the parameters, and the invariant except for the number of
    blocks of a float-block encoding. *)
Lemma copy_from_spec self w :
  wf w →
  ∃ w', copy_from self w = Ok w' ∧ params_ w' = params_ w ∧ (is_bw_float_block w = false → wf w').
Proof.
  destruct w as [[d e] owned pc rank nb]. unfold wf. cbn. intros Hwf.
  unfold copy_from, IsLPBQ, IsBlockQuantized, defined, is_bw_float_block; cbn.
  destruct (decide (d = DEFINITION_DEFINED)) as [->|Hd].
  2:{ rewrite !bool_decide_false by done. cbn. unfold Init.
      rewrite bool_decide_true by done. cbn. eexists; split; [done|]. cbn. split; [done|]. done. }
  specialize (Hwf eq_refl). rewrite bool_decide_true by done. cbn.
  unfold Init. cbn. rewrite bool_decide_false by (intros H; by apply H).
  destruct e as [|s o|b s o|ax n so|b ax n s o|[x|]|[sz|] [so|]|b [sz|] [so|]|c]; cbn in *;
    try done; eauto.
  - apply sized_pos in Hwf as Hp. destruct Hp as [[Hn Es]|[Hn Es]]; rewrite Hn.
    + rewrite copy_n_sized by done. cbn. rewrite <- Es.
      eexists; split; [done|]. split; [done|]. by intros _ _.
    + subst. eexists; split; [done|]. split; [done|]. by intros _ _.
  - destruct Hwf as [Hs Ho]. apply sized_pos in Hs as Hp. apply sized_pos in Ho as Hq.
    destruct Hp as [[Hn Es]|[Hn Es]], Hq as [[Hn' Eo]|[Hn' Eo]]; try congruence; rewrite Hn.
    + rewrite !copy_n_sized by done. cbn. rewrite <- Es, <- Eo.
      eexists; split; [done|]. split; [done|]. by intros _ _.
    + subst. eexists; split; [done|]. split; [done|]. by intros _ _.
  - destruct x as [ax [so|] per bw [bs|]]; cbn in *; try done.
    destruct Hwf as (Hpc & Hbs & Hin & Hlt). rewrite copy_n_len by done. cbn.
    rewrite <- Hbs, wrapu_id by (unfold in_u; lia). rewrite copy_n_len by done. cbn.
    eexists; split; [done|]. split; [done|]. intros _ _. cbn. by rewrite wrapu_id.
  - destruct Hwf as (Hnb & Hin & Hr & Hinr). rewrite !(wrapu_id 32) by done.
    rewrite !copy_n_len by done. cbn. eexists; split; [done|]. split; [done|]. by intros _ _.
  - destruct Hwf as (Hnb & Hin & Hr & Hinr). rewrite !(wrapu_id 32) by done.
    rewrite !copy_n_len by done. cbn. eexists; split; [done|]. split; [done|]. done.
Qed.

(** ** Factories *)

Lemma collect_zip {A B C} (f : A → B → C) (l : list A) (m : list B) n :
  n = length l → n = length m →
  collect n (fun i => let* y := aget m i in let* x := aget l i in Ok (f x y)) = Ok (zip_with f l m).
Proof.
  intros Hl Hm. apply collect_Ok; [rewrite length_zip_with; lia|].
  intros k z Hz. apply lookup_zip_with_Some in Hz as (x & y & -> & Hx & Hy).
  rewrite (proj2 (aget_Ok m k y)), (proj2 (aget_Ok l k x)) by done. done.
Qed.

Lemma zip_scale_offsets_spec n scales offsets :
  n = Z.of_nat (length scales) → length offsets = length scales →
  zip_scale_offsets n scales offsets = Ok (zip_with ScaleOffset scales offsets).
Proof.
  intros -> Hl. unfold zip_scale_offsets. rewrite Nat2Z.id. by apply collect_zip.
Qed.

Lemma u32_length {A} (l : list A) :
  Z.of_nat (length l) < 2 ^ 32 → u32 (Z.of_nat (length l)) = Z.of_nat (length l).
Proof. intros. apply wrapu_id. unfold in_u. lia. Qed.

Lemma gtb_length {A} (l : list A) : l ≠ [] → (Z.of_nat (length l) >? 0) = true.
Proof. intros. destruct l; [done|]. rewrite Z.gtb_ltb. apply Z.ltb_lt. cbn. lia. Qed.

Section Factories.
Variables (scales : list float) (offsets : list Z).
Hypothesis Hne : scales ≠ [].
Hypothesis Hlen : length offsets = length scales.
Hypothesis Hu32 : Z.of_nat (length scales) < 2 ^ 32.

Lemma length_zip : length (zip_with ScaleOffset scales offsets) = length scales.
Proof. rewrite length_zip_with. lia. Qed.

Lemma scales_zip : so_scale <$> zip_with ScaleOffset scales offsets = scales.
Proof.
  clear Hne Hu32. revert offsets Hlen.
  induction scales as [|s l IH]; intros [|o os] Hl; cbn in *; try done.
  by rewrite IH by congruence.
Qed.

Lemma PerChannel_spec axis :
  ∃ w, PerChannel scales offsets axis = Ok w ∧ wf w ∧
    params_ w = QuantizeParams DEFINITION_DEFINED
      (AXIS_SCALE_OFFSET axis (Z.of_nat (length scales)) (Some (zip_with ScaleOffset scales offsets))).
Proof.
  unfold PerChannel. rewrite u32_length, gtb_length by done.
  rewrite zip_scale_offsets_spec by done. cbn. eexists; split; [done|]. split; [|done].
  intros _. cbn. rewrite length_zip. split; [done|]. destruct scales; [done|cbn; lia].
Qed.

Lemma PerChannelBw_spec axis bw :
  ∃ w, PerChannelBw scales offsets axis bw = Ok w ∧ wf w ∧
    params_ w = QuantizeParams DEFINITION_DEFINED
      (BW_AXIS_SCALE_OFFSET bw axis (Z.of_nat (length scales)) (Some scales) (Some offsets)).
Proof.
  unfold PerChannelBw. rewrite u32_length, gtb_length by done.
  rewrite copy_n_len by done. cbn. rewrite copy_n_len by lia. cbn.
  eexists; split; [done|]. split; [|done].
  intros _. cbn. destruct scales; [done|]. cbn in *. lia.
Qed.

Lemma Block_spec sizes :
  Z.of_nat (length sizes) < 2 ^ 32 →
  ∃ w, Block scales offsets sizes = Ok w ∧ wf w ∧ num_blocks_ w = Z.of_nat (length scales) ∧
    params_ w = QuantizeParams DEFINITION_DEFINED
      (BLOCK (Some sizes) (Some (zip_with ScaleOffset scales offsets))).
Proof.
  intros Hs. unfold Block. rewrite !u32_length, gtb_length by done. rewrite copy_n_len by done.
  cbn. rewrite zip_scale_offsets_spec by done. cbn. eexists; split; [done|].
  split; [|done]. intros _. cbn. rewrite length_zip. unfold in_u. lia.
Qed.

Lemma LowPowerBlockwise_spec ints axis bw :
  in_s 32 axis → Z.of_nat (length ints) < 2 ^ 32 →
  Z.of_nat (length ints) mod Z.of_nat (length scales) = 0 →
  ∃ w, LowPowerBlockwise scales ints offsets axis bw = Ok w ∧ wf w ∧
    params_ w = QuantizeParams DEFINITION_DEFINED (BLOCKWISE_EXPANSION (Some
      (BlockwiseExpansion axis (Some (zip_with ScaleOffset scales offsets))
         (Z.of_nat (length ints) / Z.of_nat (length scales)) bw (Some ints)))).
Proof.
  intros Hax Hi Hdiv. unfold LowPowerBlockwise. rewrite !u32_length, gtb_length by done.
  rewrite zip_scale_offsets_spec by done. cbn. rewrite Nat2Z.id.
  rewrite (collect_Ok _ _ ints) by (done || intros; by apply aget_Ok). cbn.
  rewrite wraps_id by (lia || done).
  eexists; split; [done|]. split; [|done]. intros _. cbn. rewrite length_zip.
  assert (0 < Z.of_nat (length scales)) by (destruct scales; [done|cbn; lia]).
  apply Z.mod_divide in Hdiv as [k Hk]; [|lia]. rewrite Hk, Z.div_mul by lia.
  unfold in_u. lia.
Qed.

End Factories.

Lemma BwFloatBlock_spec scales offsets bw sizes :
  length offsets = length scales → Z.of_nat (length scales) < 2 ^ 32 →
  Z.of_nat (length sizes) < 2 ^ 32 →
  BwFloatBlock scales offsets bw sizes =
    Ok (Wrapper (QuantizeParams DEFINITION_DEFINED
          (BW_FLOAT_BLOCK bw (Some sizes) (Some (zip_with FloatScaleOffset scales offsets))))
        false 0 (Z.of_nat (length sizes)) (Z.of_nat (length scales))).
Proof.
  intros Hl Hs Hz. unfold BwFloatBlock. rewrite !u32_length, copy_n_len by done. cbn.
  rewrite Nat2Z.id. by rewrite collect_zip.
Qed.

(** A copy of a float-block wrapper keeps as many entries as the counter says and
    sets no counter. *)
Lemma copy_bw_float_block bw sizes so nb :
  Z.of_nat (length sizes) < 2 ^ 32 → 0 ≤ nb ≤ Z.of_nat (length so) →
  Copy (Wrapper (QuantizeParams DEFINITION_DEFINED (BW_FLOAT_BLOCK bw (Some sizes) (Some so)))
          false 0 (Z.of_nat (length sizes)) nb) =
    Ok (Wrapper (QuantizeParams DEFINITION_DEFINED
          (BW_FLOAT_BLOCK bw (Some sizes) (Some (take (Z.to_nat nb) so))))
        false 0 (Z.of_nat (length sizes)) 0).
Proof.
  intros Hs Hn.
  unfold Copy, copy_construct, copy_from, IsLPBQ, IsBlockQuantized, defined.
  cbn -[wrapu copy_n]. rewrite bool_decide_true by done. cbn -[wrapu copy_n]. unfold Init.
  cbn -[wrapu copy_n]. rewrite bool_decide_false by (intros H; by apply H).
  rewrite u32_length, copy_n_len by done. cbn -[wrapu copy_n].
  destruct (Z.to_nat nb) as [|k] eqn:E; [done|]. cbn [copy_n].
  rewrite (proj2 (Nat.leb_le _ _)) by lia. done.
Qed.

Lemma copy_axis axis n so pc rank nb :
  n = Z.of_nat (length so) → (n >? 0) = true →
  Copy (Wrapper (QuantizeParams DEFINITION_DEFINED (AXIS_SCALE_OFFSET axis n (Some so)))
          true pc rank nb) =
    Ok (Wrapper (QuantizeParams DEFINITION_DEFINED (AXIS_SCALE_OFFSET axis n (Some so))) true 0 0 0).
Proof.
  intros Hn Hpos.
  unfold Copy, copy_construct, copy_from, IsLPBQ, IsBlockQuantized, defined.
  cbn. rewrite bool_decide_true by done. cbn. unfold Init.
  cbn. rewrite bool_decide_false by (intros H; by apply H).
  by rewrite Hpos, copy_n_len.
Qed.

(** ** Unsqueeze

    [ones_inserted o n]: [n] is [o] with dimensions of size one inserted. *)
Inductive ones_inserted : list Z → list Z → Prop :=
| ones_nil : ones_inserted [] []
| ones_keep x o n : ones_inserted o n → ones_inserted (x :: o) (x :: n)
| ones_skip o n : ones_inserted o n → ones_inserted o (1 :: n).

Lemma ones_inserted_drop x o n : ones_inserted (x :: o) n → x = 1 → ones_inserted o n.
Proof.
  intros H ->. remember (1 :: o) as l eqn:E. revert o E.
  induction H as [|y o' n H IH|o' n H IH]; intros o [= ]; subst; constructor; auto.
Qed.

Lemma ones_inserted_prod o n : ones_inserted o n → prodZ n = prodZ o.
Proof. induction 1; rewrite ?prodZ_cons; [done|congruence|lia]. Qed.

Lemma axis_of_with_axis e a b : axis_of e = Some a → axis_of (with_axis e b) = Some b.
Proof. by destruct e as [| | | | |[x|]| | |]. Qed.

(** The scan skips inserted dimensions only. *)
Lemma unsqueeze_scan_spec x o pre n fuel :
  ones_inserted (x :: o) n → (length n < fuel)%nat →
  ∃ skipped rest, n = skipped ++ x :: rest ∧ Forall (eq 1) skipped ∧ ones_inserted o rest ∧
    unsqueeze_scan fuel x (pre ++ n) (length pre) = Ok (length pre + length skipped)%nat.
Proof.
  revert pre fuel. induction n as [|y n IH]; intros pre fuel Hins Hfuel; [inversion Hins|].
  destruct fuel as [|fuel]; [lia|]. cbn [unsqueeze_scan].
  unfold aget. rewrite list_lookup_middle by done. cbn [rbind].
  destruct (Z.eqb_spec x y) as [->|Hne]; cbn [negb andb].
  - exists [], n. cbn. rewrite Nat.add_0_r. split_and!; try done.
    inversion Hins; subst; [done|]. by eapply ones_inserted_drop.
  - assert (y = 1 ∧ ones_inserted (x :: o) n) as [-> Hn] by (inversion Hins; subst; done).
    rewrite (proj2 (Nat.ltb_lt _ _)) by (rewrite length_app; cbn; lia).
    destruct (IH (pre ++ [1]) fuel Hn) as (sk & rest & -> & Hsk & Hr & Hscan); [cbn in Hfuel; lia|].
    exists (1 :: sk), rest. split_and!; [done|by constructor|done|].
    rewrite <- app_assoc, length_app in Hscan. cbn in Hscan.
    rewrite Nat.add_1_r in Hscan. rewrite Hscan. f_equal. cbn. lia.
Qed.

Lemma Forall_ones_prod l : Forall (eq 1) l → prodZ l = 1.
Proof. induction 1; rewrite ?prodZ_cons; [done|lia]. Qed.

(** The loop stops on the dimension that the axis has become: same size, same number
    of elements before it and after it. *)
Lemma unsqueeze_loop_spec axis o d : ∀ done_ pre n,
  ones_inserted (done_ ++ d :: o) n →
  u64 axis = Z.of_nat (length pre + length done_)%nat →
  ∀ full skipped_prefix, full = skipped_prefix ++ n →
  ∃ before after, n = before ++ d :: after ∧ ones_inserted o after ∧
    prodZ before = prodZ done_ ∧
    unsqueeze_loop (done_ ++ d :: o) full axis (length (pre : list Z)) (length skipped_prefix) =
      Ok (length skipped_prefix + length before)%nat.
Proof.
  induction done_ as [|x done_ IH]; intros pre n Hins Hax full sp ->; cbn [app unsqueeze_loop].
  - destruct (unsqueeze_scan_spec d o sp n (S (length (sp ++ n))) Hins) as (sk & rest & -> & Hsk & Hr & Hscan);
      [rewrite length_app; lia|].
    exists sk, rest. split_and!; [done|done|by rewrite Forall_ones_prod|].
    rewrite (proj2 (Nat.ltb_lt _ _)) by (rewrite !length_app; cbn; lia).
    rewrite Hscan. cbn [rbind]. rewrite Hax. cbn. by rewrite Nat.add_0_r, Z.eqb_refl.
  - destruct (unsqueeze_scan_spec x (done_ ++ d :: o) sp n (S (length (sp ++ n))) Hins)
      as (sk & rest & -> & Hsk & Hr & Hscan); [rewrite length_app; lia|].
    rewrite (proj2 (Nat.ltb_lt _ _)) by (rewrite !length_app; cbn; lia).
    rewrite Hscan. cbn [rbind]. rewrite Hax.
    rewrite (proj2 (Z.eqb_neq _ _)) by (cbn; lia).
    destruct (IH (x :: pre) rest Hr) with (full := sp ++ sk ++ x :: rest) (skipped_prefix := sp ++ sk ++ [x])
      as (before & after & -> & Ha & Hp & Hloop).
    { rewrite Hax. f_equal. cbn. lia. }
    { by rewrite <- !app_assoc. }
    exists (sk ++ x :: before), after. split_and!.
    + by rewrite <- app_assoc.
    + done.
    + rewrite prodZ_app, !prodZ_cons, Hp, Forall_ones_prod by done. lia.
    + replace (S (length sp + length sk)) with (length (sp ++ sk ++ [x]))
        by (rewrite !length_app; cbn; lia).
      change (S (length pre)) with (length (x :: pre)). rewrite Hloop. f_equal.
      rewrite !length_app. cbn. lia.
Qed.

(** ** Properties *)

(** Copying a well-formed wrapper, by construction or by assignment over any other
    wrapper, succeeds and reproduces its quantization parameters exactly, arrays
    included; the copy is well-formed again unless it is a float-block encoding. *)
Theorem copy_keeps_params (self w : QnnQuantParamsWrapper) :
  wf w →
  (∃ w', Copy w = Ok w' ∧ params_ w' = params_ w ∧ (is_bw_float_block w = false → wf w')) ∧
  (∃ w', copy_assign self w = Ok w' ∧ params_ w' = params_ w ∧ (is_bw_float_block w = false → wf w')).
Proof. intros Hw. split; by apply copy_from_spec. Qed.

Definition example_axis_wrapper : QnnQuantParamsWrapper :=
  Wrapper (QuantizeParams DEFINITION_DEFINED
    (AXIS_SCALE_OFFSET 1 2 (Some [ScaleOffset (f32_of_Z 1) 0; ScaleOffset (f32_of_Z 2) (-3)]))) true 2 0 0.

Lemma copy_keeps_params_witness :
  ∃ w', Copy example_axis_wrapper = Ok w' ∧ params_ w' = params_ example_axis_wrapper ∧
    (is_bw_float_block example_axis_wrapper = false → wf w').
Proof.
  apply (proj1 (copy_keeps_params default_wrapper example_axis_wrapper ltac:(intros _; cbn; lia))).
Defined.

(** The scales given to a factory are the scales [GetScales] returns, before and
    after a copy, for per-channel, per-channel with bit width and block encodings;
    for low-power blockwise encodings [GetScales] reports an error. *)
Theorem factory_scales (scales : list float) (offsets sizes ints : list Z) (axis bw : Z) :
  scales ≠ [] → length offsets = length scales → Z.of_nat (length scales) < 2 ^ 32 →
  Z.of_nat (length sizes) < 2 ^ 32 →
  (∃ w w', PerChannel scales offsets axis = Ok w ∧ Copy w = Ok w' ∧
     GetScales w = Ok scales ∧ GetScales w' = Ok scales) ∧
  (∃ w w', PerChannelBw scales offsets axis bw = Ok w ∧ Copy w = Ok w' ∧
     GetScales w = Ok scales ∧ GetScales w' = Ok scales) ∧
  (∃ w w', Block scales offsets sizes = Ok w ∧ Copy w = Ok w' ∧
     GetScales w = Ok scales ∧ GetScales w' = Ok scales) ∧
  (∀ w, LowPowerBlockwise scales ints offsets axis bw = Ok w → ∃ msg, GetScales w = Err (EpFail msg)).
Proof.
  intros Hne Hlen Hu Hz. split_and!.
  - destruct (PerChannel_spec scales offsets Hne Hlen Hu axis) as (w & Hw & Hwf & Hp).
    destruct (copy_from_spec default_wrapper w Hwf) as (w' & Hw' & Hp' & _).
    exists w, w'. split_and!; [done..| |]; unfold GetScales, defined; rewrite ?Hp', Hp; cbn;
      rewrite copy_n_len by (by rewrite length_zip); cbn; by rewrite scales_zip.
  - destruct (PerChannelBw_spec scales offsets Hne Hlen Hu axis bw) as (w & Hw & Hwf & Hp).
    destruct (copy_from_spec default_wrapper w Hwf) as (w' & Hw' & Hp' & _).
    exists w, w'. split_and!; [done..| |]; unfold GetScales, defined; rewrite ?Hp', Hp; cbn;
      by rewrite copy_n_len.
  - destruct (Block_spec scales offsets Hne Hlen Hu sizes Hz) as (w & Hw & Hwf & Hnb & Hp).
    destruct (copy_from_spec default_wrapper w Hwf) as (w' & Hw' & Hp' & Hwf').
    assert (num_blocks_ w' = Z.of_nat (length scales)) as Hnb'.
    { assert (wf w') as H by (apply Hwf'; unfold is_bw_float_block; by rewrite Hp).
      unfold wf in H. rewrite Hp', Hp in H. cbn in H. rewrite length_zip in H by done. tauto. }
    exists w, w'. split_and!; [done..| |]; unfold GetScales, defined; rewrite ?Hp', Hp; cbn;
      rewrite ?Hnb, ?Hnb', copy_n_len by (by rewrite length_zip); cbn; by rewrite scales_zip.
  - intros w Hw. unfold LowPowerBlockwise in Hw.
    destruct (_ >? 0); [|discriminate]. simplify_res. cbn. by eexists.
Qed.

Lemma factory_scales_witness :
  ∃ w w', PerChannel [f32_of_Z 1; f32_of_Z 3] [0; -7] 0 = Ok w ∧ Copy w = Ok w' ∧
    GetScales w = Ok [f32_of_Z 1; f32_of_Z 3] ∧ GetScales w' = Ok [f32_of_Z 1; f32_of_Z 3].
Proof.
  apply (factory_scales [f32_of_Z 1; f32_of_Z 3] [0; -7] [1] [1] 0 4);
    [discriminate|reflexivity|cbn; lia|cbn; lia].
Defined.

(** What a copy forgets.  A copy of a float-block wrapper does not record its number
    of blocks, so copying the copy drops every scale and offset; and a copy of a
    per-channel wrapper reports no per-channel scales although it has them. *)
Theorem copy_forgets_counts (scales offsets : list float) (zps sizes : list Z) (axis bw : Z) :
  scales ≠ [] → length offsets = length scales → length zps = length scales →
  Z.of_nat (length scales) < 2 ^ 32 → Z.of_nat (length sizes) < 2 ^ 32 →
  (∃ w1 w2 w3, BwFloatBlock scales offsets bw sizes = Ok w1 ∧ Copy w1 = Ok w2 ∧ Copy w2 = Ok w3 ∧
     params_ w2 = params_ w1 ∧
     quantizationEncoding (params_ w3) = BW_FLOAT_BLOCK bw (Some sizes) (Some [])) ∧
  (∃ w1 w2, PerChannel scales zps axis = Ok w1 ∧ Copy w1 = Ok w2 ∧
     GetPerChannelScalesSize w1 = Z.of_nat (length scales) ∧ GetPerChannelScalesSize w2 = 0 ∧
     GetScales w2 = Ok scales).
Proof.
  intros Hne Hl Hz Hu Hs. split.
  - assert (length (zip_with FloatScaleOffset scales offsets) = length scales) as Hzl
      by (rewrite length_zip_with; lia).
    rewrite BwFloatBlock_spec by done. do 3 eexists. split; [done|].
    rewrite copy_bw_float_block by (rewrite ?Hzl; done || lia). split; [done|].
    rewrite copy_bw_float_block by (done || cbn; lia). split; [done|]. cbn. split; [|done].
    by rewrite Nat2Z.id, <- Hzl, firstn_all.
  - unfold PerChannel. rewrite u32_length, gtb_length by done.
    rewrite zip_scale_offsets_spec by done. cbn [rbind].
    do 2 eexists; split; [done|]. rewrite copy_axis by (by rewrite length_zip || apply gtb_length).
    split; [done|]. split; [done|]. split; [done|]. unfold GetScales, defined. cbn.
    rewrite copy_n_len by (by rewrite length_zip). cbn. by rewrite scales_zip.
Qed.

Lemma copy_forgets_counts_witness :
  ∃ w1 w2 w3, BwFloatBlock [f32_of_Z 2] [f32_of_Z 0] 4 [1; 32] = Ok w1 ∧ Copy w1 = Ok w2 ∧
    Copy w2 = Ok w3 ∧ params_ w2 = params_ w1 ∧
    quantizationEncoding (params_ w3) = BW_FLOAT_BLOCK 4 (Some [1; 32]) (Some []).
Proof.
  apply (copy_forgets_counts [f32_of_Z 2] [f32_of_Z 0] [0] [1; 32] 0 4);
    [discriminate|reflexivity|reflexivity|cbn; lia|cbn; lia].
Defined.

(** When a tensor is unsqueezed (its new shape is the old one with dimensions of size
    one inserted), [HandleUnsqueeze] succeeds without reading past the new shape and
    moves the quantization axis to a dimension of the same size with as many elements
    before it and after it. *)
Theorem unsqueeze_moves_axis (w : QnnQuantParamsWrapper) (before after new_shape : list Z) (d : Z) :
  IsPerChannel w || IsLPBQ w = true →
  axis_of (quantizationEncoding (params_ w)) = Some (Z.of_nat (length before)) →
  ones_inserted (before ++ d :: after) new_shape →
  (length (before ++ d :: after) < length new_shape)%nat → Z.of_nat (length new_shape) < 2 ^ 31 →
  ∃ w' before' after', HandleUnsqueeze w (before ++ d :: after) new_shape = Ok w' ∧
    new_shape = before' ++ d :: after' ∧
    axis_of (quantizationEncoding (params_ w')) = Some (Z.of_nat (length before')) ∧
    prodZ before' = prodZ before ∧ prodZ after' = prodZ after.
Proof.
  intros Hq Hax Hins Hrank Hbig. unfold HandleUnsqueeze.
  rewrite <- negb_orb, Hq. cbn [negb].
  rewrite (proj2 (Nat.ltb_lt _ _)) by done. cbn [return_if_not rbind]. rewrite Hax.
  destruct (unsqueeze_loop_spec (Z.of_nat (length before)) after d before [] new_shape Hins)
    with (full := new_shape) (skipped_prefix := @nil Z) as (b & a & -> & Ha & Hp & Hloop).
  { cbn. rewrite wrapu_id; [done|]. unfold in_u. rewrite length_app in Hrank. lia. }
  { done. }
  cbn [length Nat.add] in Hloop. rewrite Hloop. cbn [rbind].
  apply ones_inserted_prod in Ha. rewrite !length_app in *. cbn [length] in *.
  rewrite wrapu_id by (unfold in_u; lia).
  destruct (Z.eqb_spec (Z.of_nat (length b)) (Z.of_nat (length before))) as [E|E];
    eexists _, b, a; (split; [done|]); (split; [done|]); (split; [|done]).
  - by rewrite Hax, E.
  - rewrite wraps_id by (unfold in_s; cbn; lia).
    by apply (axis_of_with_axis _ _ _ Hax).
Qed.

Lemma unsqueeze_moves_axis_witness :
  ∃ w' before' after', HandleUnsqueeze example_axis_wrapper ([3] ++ 2 :: []) [1; 3; 1; 2] = Ok w' ∧
    [1; 3; 1; 2] = before' ++ 2 :: after' ∧
    axis_of (quantizationEncoding (params_ w')) = Some (Z.of_nat (length before')) ∧
    prodZ before' = prodZ [3] ∧ prodZ after' = prodZ [].
Proof.
  apply (unsqueeze_moves_axis example_axis_wrapper [3] [] [1; 3; 1; 2] 2);
    [reflexivity|reflexivity|repeat constructor|cbn; lia|cbn; lia].
Defined.
