(* ===== verification/Perm.v ===== *)
(** * Permutations and shapes

    The permutation and shape helpers of [builder/qnn_utils.h] and
    [GetPermToLastAxis] of [builder/qnn_utils.cc].  Permutations are lists of
    [nat] ([size_t] and [uint32_t] indices), dimensions are integers. *)

From Stdlib Require Import Sorted.
From stdpp Require Import sorting.
From S2P Require Import Prelude DataTypes Floats QuantParams.
Local Open Scope Z_scope.

(** ** Operations *)

(** [RETURN_IF_NOT(j < rank)] precedes the store; [static_cast<size_t>] of a valid
    index is the identity. *)
Definition InvertPerm (perm perm_inv : list nat) : result (list nat) :=
  let rank := length perm in
  let* _ := return_if_not (length perm_inv =? rank)%nat "perm.size() != perm_inv.size()" in
  foldM (fun inv i =>
    let* j := aget perm i in
    let* _ := return_if_not (j <? rank)%nat "perm element out of range [0, rank - 1]" in
    aset inv j i) (seq 0 rank) perm_inv.

Fixpoint IsIdentityPerm_from (i : nat) (perm : list nat) : bool :=
  match perm with
  | [] => true
  | p :: perm => if negb (p =? i)%nat then false else IsIdentityPerm_from (S i) perm
  end.
Definition IsIdentityPerm (perm : list nat) : bool := IsIdentityPerm_from 0 perm.

Definition PermuteShape {A} (input_shape : list A) (perm : list nat) (output_shape : list A)
  : result (list A) :=
  let rank := length input_shape in
  let* _ := return_if_not ((rank =? length perm)%nat && (rank =? length output_shape)%nat)
    "PermuteShape(): expect all arguments to have the same rank." in
  foldM (fill (fun i => let* p := aget perm i in aget input_shape p)) (seq 0 rank) output_shape.

(** The loop state: the axes seen so far and the previous non-unit axis. *)
Fixpoint workaround_loop (input_shape output_shape : list Z) (rank i : nat) (perm : list nat)
  (seen_axis : list bool) (previous_non_unit_axis : option nat) : result bool :=
  match perm with
  | [] => Ok true
  | axis :: perm =>
      if (rank <=? axis)%nat then Ok false
      else
        let* seen := aget seen_axis axis in
        if seen : bool then Ok false
        else
          let* seen_axis := aset seen_axis axis true in
          let* dim := aget input_shape axis in
          let* out := aget output_shape i in
          if (dim =? 0) || negb (out =? dim) then Ok false
          else if negb (dim =? 1) then
            match previous_non_unit_axis with
            | Some p => if (axis <? p)%nat then Ok false
                        else workaround_loop input_shape output_shape rank (S i) perm seen_axis (Some axis)
            | None => workaround_loop input_shape output_shape rank (S i) perm seen_axis (Some axis)
            end
          else workaround_loop input_shape output_shape rank (S i) perm seen_axis previous_non_unit_axis
  end.

Definition NeedsHtpTransposeReshapeWorkaround (input_shape : list Z) (perm : list nat)
  (output_shape : list Z) : result bool :=
  let rank := length input_shape in
  if negb (length perm =? rank)%nat || negb (length output_shape =? rank)%nat
     || IsIdentityPerm perm || bool_decide (input_shape = output_shape)
  then Ok false
  else workaround_loop input_shape output_shape rank 0 perm (replicate rank false) None.

(** The trailing dimension [i] places from the right, one when the rank is exceeded. *)
Definition trailing (a : list Z) (i : nat) : result Z :=
  if (i <? length a)%nat then aget a (length a - 1 - i) else Ok 1.

Definition BroadcastShape (a b : list Z) : result (list Z) :=
  let rank := Nat.max (length a) (length b) in
  foldM (fun out i =>
    let* da := trailing a i in
    let* db := trailing b i in
    let* dim :=
      (if da =? db then Ok da
       else if da =? 1 then Ok db
       else if db =? 1 then Ok da
       else Err (EpFail "BroadcastShape: incompatible dimensions, cannot broadcast.")) in
    aset out (rank - 1 - i) dim) (seq 0 rank) (replicate rank 1).

(** Writes [dst[i] = src[p]] for the listed pairs, one after the other. *)
Definition assign_dims {A} (src : list A) (pairs : list (nat * nat)) (dst : list A) : result (list A) :=
  foldM (fun dst '(i, p) => let* x := aget src p in aset dst i x) pairs dst.

Definition NchwShapeToNhwc {A} (nchw_shape nhwc_shape : list A) : result (list A) :=
  let* _ := return_if_not (length nchw_shape =? 4)%nat "shape should have 4 dimension NCHW." in
  assign_dims nchw_shape [(0, 0); (1, 2); (2, 3); (3, 1)]%nat nhwc_shape.

Definition NchwShapeToHwcn {A} (nchw_shape hwcn_shape : list A) : result (list A) :=
  if (length nchw_shape =? 4)%nat then
    assign_dims nchw_shape [(0, 2); (1, 3); (2, 1); (3, 0)]%nat hwcn_shape
  else if (length nchw_shape =? 5)%nat then
    assign_dims nchw_shape [(0, 2); (1, 3); (2, 4); (3, 1); (4, 0)]%nat hwcn_shape
  else Err (EpFail "Unsupported rank! only support 4 or 5.").

Definition CnhwShapeToHwcn {A} (cnhw_shape hwcn_shape : list A) : result (list A) :=
  if (length cnhw_shape =? 4)%nat then
    assign_dims cnhw_shape [(0, 2); (1, 3); (2, 0); (3, 1)]%nat hwcn_shape
  else if (length cnhw_shape =? 5)%nat then
    assign_dims cnhw_shape [(0, 2); (1, 3); (2, 4); (3, 0); (4, 1)]%nat hwcn_shape
  else Err (EpFail "Unsupported rank! only support 4 or 5.").

Definition nchw2hwcn_perm : list nat := [2; 3; 1; 0]%nat.
Definition nchw2hwcn_perm_3d : list nat := [2; 3; 4; 1; 0]%nat.
Definition cnhw2hwcn_perm : list nat := [2; 3; 0; 1]%nat.
Definition cnhw2hwcn_perm_3d : list nat := [2; 3; 4; 0; 1]%nat.

Definition ChannelFirstToLastPerm (rank : nat) : result (list nat) :=
  let* perm := aset (replicate rank 0%nat) 0 0%nat in
  let* perm := foldM (fun perm i => aset perm (i - 1) i) (seq 2 (rank - 2)) perm in
  aset perm (rank - 1) 1%nat.

Definition ChannelLastToFirstPerm (rank : nat) : result (list nat) :=
  let* perm := aset (replicate rank 0%nat) 0 0%nat in
  let* perm := aset perm 1 (rank - 1)%nat in
  foldM (fun perm i => aset perm i (i - 1)%nat) (seq 2 (rank - 2)) perm.

Definition ApplyPermToShape {A} (zero : A) (shape : list A) (perm : list nat) : result (list A) :=
  foldM (fun out i =>
    let* p := aget perm i in
    let* x := aget shape p in
    aset out i x) (seq 0 (length perm)) (replicate (length shape) zero).

Definition GetPermToLastAxis (axis rank : nat) (perm : list nat) : result (list nat) :=
  let* _ := return_if_not (axis <? rank)%nat "Expected axis must be smaller than rank: " in
  let perm := perm ++ seq 0 rank in
  let* perm := aset perm axis (rank - 1)%nat in
  aset perm (rank - 1) axis.

(** ** Permutations *)

Definition is_perm (perm : list nat) : Prop := perm ≡ₚ seq 0 (length perm).

Global Instance is_perm_dec perm : Decision (is_perm perm).
Proof. unfold is_perm. apply _. Defined.

Lemma is_perm_NoDup perm : is_perm perm → NoDup perm.
Proof. unfold is_perm. intros H. rewrite H. apply NoDup_seq. Qed.

Lemma is_perm_lt perm i p : is_perm perm → perm !! i = Some p → (p < length perm)%nat.
Proof.
  unfold is_perm. intros H Hp. apply list_elem_of_lookup_2 in Hp. rewrite H in Hp. apply elem_of_seq in Hp. lia.
Qed.

Lemma is_perm_intro perm :
  NoDup perm → (∀ p, p ∈ perm → (p < length perm)%nat) → is_perm perm.
Proof.
  intros Hnd Hlt. unfold is_perm. apply submseteq_length_Permutation.
  - apply NoDup_submseteq; [done|]. intros p Hp. apply elem_of_seq. split; [lia|]. by apply Hlt.
  - by rewrite length_seq.
Qed.

(** Reading a shape through a permutation. *)
Definition permuted {A} (shape : list A) (perm : list nat) : list A :=
  omap (fun p => shape !! p) perm.

Lemma permuted_lookup {A} (shape : list A) perm :
  (∀ p, p ∈ perm → (p < length shape)%nat) →
  length (permuted shape perm) = length perm ∧
  ∀ i p, perm !! i = Some p → permuted shape perm !! i = shape !! p.
Proof.
  induction perm as [|p perm IH]; intros Hlt; [done|].
  destruct (lookup_lt_is_Some_2 shape p) as [x Hx]; [apply Hlt; set_solver|].
  assert (∀ q, q ∈ perm → (q < length shape)%nat) as Hlt' by (intros q Hq; apply Hlt; set_solver).
  destruct (IH Hlt') as [Hl Hi].
  unfold permuted in *. cbn. rewrite Hx. cbn. split; [by rewrite Hl|].
  intros [|i] q Hq; cbn in *; [by injection Hq as <-|]. by apply Hi.
Qed.

Lemma permuted_fmap {A B} (g : A → B) (l : list A) perm :
  permuted (g <$> l) perm = g <$> permuted l perm.
Proof.
  unfold permuted. induction perm as [|p perm IH]; [done|].
  cbn [omap list_omap]. rewrite list_lookup_fmap. destruct (l !! p); cbn; by rewrite IH.
Qed.

Lemma PermuteShape_spec {A} (shape out : list A) perm :
  length perm = length shape → length out = length shape →
  (∀ p, p ∈ perm → (p < length shape)%nat) →
  PermuteShape shape perm out = Ok (permuted shape perm).
Proof.
  intros Hp Ho Hlt. destruct (permuted_lookup shape perm Hlt) as [Hl Hi].
  unfold PermuteShape. rewrite Hp, Ho, Nat.eqb_refl. cbn [andb return_if_not rbind].
  rewrite <- Hp, <- Hl. apply fill_all; [lia|]. intros i x Hx.
  destruct (lookup_lt_is_Some_2 perm i) as [p Hpi]; [rewrite <- Hl; by eapply lookup_lt_Some|].
  rewrite (proj2 (aget_Ok perm i p)) by done. cbn. apply aget_Ok. by rewrite <- Hi with (1 := Hpi).
Qed.

(** [inverse_of perm inv]: [inv] maps the image of an index back to the index. *)
Definition inverse_of (perm inv : list nat) : Prop :=
  length inv = length perm ∧ ∀ i p, perm !! i = Some p → inv !! p = Some i.

Lemma InvertPerm_spec perm buf :
  is_perm perm → length buf = length perm →
  ∃ inv, InvertPerm perm buf = Ok inv ∧ inverse_of perm inv.
Proof.
  intros Hp Hlen. unfold InvertPerm. rewrite Hlen, Nat.eqb_refl. cbn [return_if_not rbind].
  set (g := fun i => (default 0%nat (perm !! i), i)).
  assert (∀ i, (i < length perm)%nat → ∃ p, perm !! i = Some p ∧ g i = (p, i) ∧ (p < length perm)%nat) as Hg.
  { intros i Hi. destruct (lookup_lt_is_Some_2 perm i Hi) as [p Hpi].
    exists p. unfold g. rewrite Hpi. split_and!; [done..|]. by eapply is_perm_lt. }
  rewrite (foldM_ext _ (fun d i => store d (g i))).
  2:{ intros d i Hi. apply elem_of_seq in Hi.
      destruct (Hg i) as (p & Hpi & -> & Hlt); [lia|].
      rewrite (proj2 (aget_Ok perm i p)) by done. cbn [rbind].
      by rewrite (proj2 (Nat.ltb_lt _ _)). }
  rewrite foldM_fmap.
  assert (∀ p i, (p, i) ∈ g <$> seq 0 (length perm) → perm !! i = Some p) as Hin.
  { intros p i Hpi. apply list_elem_of_fmap in Hpi as (i' & E & Hi).
    apply elem_of_seq in Hi. destruct (Hg i') as (q & Hq & Hgi & _); [lia|].
    rewrite Hgi in E. by injection E as -> ->. }
  destruct (scatter_spec (g <$> seq 0 (length perm)) buf) as (inv & Hrun & Hl & Hw & _).
  - intros p i Hpi. rewrite Hlen. eapply is_perm_lt; [done|]. by apply Hin.
  - intros p i j Hi Hj. apply Hin in Hi, Hj.
    by eapply NoDup_lookup; [apply is_perm_NoDup|..].
  - exists inv. split; [done|]. split; [lia|]. intros i p Hpi. apply Hw.
    apply list_elem_of_fmap. exists i. unfold g. rewrite Hpi. split; [done|].
    apply elem_of_seq. apply lookup_lt_Some in Hpi. lia.
Qed.

Lemma inverse_of_perm perm inv : is_perm perm → inverse_of perm inv →
  is_perm inv ∧ inverse_of inv perm.
Proof.
  intros Hp [Hl Hinv].
  assert (∀ p i, inv !! p = Some i → perm !! i = Some p) as Hback.
  { intros p i Hpi. assert (p ∈ perm) as Hin.
    { unfold is_perm in Hp. rewrite Hp. apply elem_of_seq. apply lookup_lt_Some in Hpi. lia. }
    apply list_elem_of_lookup in Hin as [k Hk]. pose proof (Hinv _ _ Hk). congruence. }
  split.
  - apply is_perm_intro.
    + apply NoDup_alt. intros i j x Hi Hj. apply Hback in Hi, Hj. congruence.
    + intros p Hpin. apply list_elem_of_lookup in Hpin as [k Hk]. rewrite Hl.
      apply Hback in Hk. by eapply lookup_lt_Some.
  - split; [lia|]. intros p i Hpi. by apply Hback.
Qed.

Lemma permuted_inverse {A} (shape : list A) perm inv :
  length perm = length shape → is_perm perm → inverse_of perm inv →
  permuted (permuted shape perm) inv = shape.
Proof.
  intros Hlen Hp Hinv. destruct (inverse_of_perm _ _ Hp Hinv) as [Hpi [Hl' Hinv']].
  assert (∀ p, p ∈ perm → (p < length shape)%nat) as Hlt.
  { intros p Hin. apply list_elem_of_lookup in Hin as [i Hi]. rewrite <- Hlen. by eapply is_perm_lt. }
  destruct (permuted_lookup shape perm Hlt) as [Hl Hlk].
  assert (∀ p, p ∈ inv → (p < length (permuted shape perm))%nat) as Hlt'.
  { intros p Hin. apply list_elem_of_lookup in Hin as [i Hi]. rewrite Hl, Hl'.
    by eapply is_perm_lt. }
  destruct (permuted_lookup (permuted shape perm) inv Hlt') as [Hl2 Hlk2].
  apply list_eq. intros i. destruct (inv !! i) as [p|] eqn:E.
  - rewrite (Hlk2 _ _ E). by rewrite (Hlk _ _ (Hinv' _ _ E)).
  - apply lookup_ge_None in E. rewrite !lookup_ge_None_2; [done|lia|lia].
Qed.

(** ** Flat order

    The row-major position of a multi-index, as a list of (dimension, index) pairs. *)
Fixpoint flat (l : list (Z * Z)) : Z :=
  match l with
  | [] => 0
  | (d, i) :: l => i * prodZ (fst <$> l) + flat l
  end.

Definition non_unit (p : Z * Z) : Prop := p.1 ≠ 1.
Global Instance non_unit_dec p : Decision (non_unit p).
Proof. unfold non_unit. apply _. Defined.

Definition in_bounds (p : Z * Z) : Prop := 0 ≤ p.2 < p.1.

Lemma prodZ_non_unit l : prodZ (fst <$> filter non_unit l) = prodZ (fst <$> l).
Proof.
  induction l as [|[d i] l IH]; [done|]. rewrite filter_cons.
  case_decide as H; cbn [fmap list_fmap fst]; rewrite !prodZ_cons, IH; [done|].
  unfold non_unit in H. cbn in H. destruct (decide (d = 1)) as [->|?]; [lia|done].
Qed.

Lemma flat_non_unit l : Forall in_bounds l → flat (filter non_unit l) = flat l.
Proof.
  induction 1 as [|[d i] l Hb _ IH]; [done|]. rewrite filter_cons.
  case_decide as H; cbn [flat]; rewrite IH, ?prodZ_non_unit; [done|].
  unfold non_unit, in_bounds in *. cbn in *. destruct (decide (d = 1)) as [->|?]; [|done].
  replace i with 0 by lia. lia.
Qed.

(** ** The reshape workaround *)

Definition non_unit_axis (input_shape : list Z) (a : nat) : Prop := input_shape !! a ≠ Some 1.
Global Instance non_unit_axis_dec s a : Decision (non_unit_axis s a).
Proof. unfold non_unit_axis. apply _. Defined.

Definition after_prev (prev : option nat) (l : list nat) : list nat :=
  match prev with Some p => p :: l | None => l end.

(** What a positive answer of the loop says about the remaining part of [perm]. *)
Lemma workaround_loop_true ins outs rank perm : ∀ i seen prev,
  length seen = rank →
  workaround_loop ins outs rank i perm seen prev = Ok true →
  (∀ k a, perm !! k = Some a →
     (a < rank)%nat ∧ seen !! a = Some false ∧ ∃ d, ins !! a = Some d ∧ outs !! (i + k)%nat = Some d) ∧
  NoDup perm ∧ Sorted le (after_prev prev (filter (non_unit_axis ins) perm)).
Proof.
  induction perm as [|a perm IH]; intros i seen prev Hlen H; cbn [workaround_loop] in H.
  { split; [done|]. split; [constructor|]. destruct prev; repeat constructor. }
  destruct (Nat.leb_spec rank a) as [|Ha]; [done|].
  inv_bind H. rename a0 into s. apply aget_Ok in H0. destruct s; [done|].
  inv_bind H. apply aset_Ok in H1 as [_ ->].
  inv_bind H. rename a0 into d. inv_bind H. rename a0 into o.
  apply aget_Ok in H1, H2.
  destruct (Z.eqb_spec d 0) as [|Hd0]; [done|].
  destruct (Z.eqb_spec o d) as [->|]; [|cbn in H; done].
  cbn [orb negb] in H.
  assert (∃ prev', workaround_loop ins outs rank (S i) perm (<[a:=true]> seen) prev' = Ok true ∧
    (Sorted le (after_prev prev' (filter (non_unit_axis ins) perm)) →
     Sorted le (after_prev prev (filter (non_unit_axis ins) (a :: perm))))) as (prev' & Hrun & Hsort).
  { rewrite filter_cons. destruct (Z.eqb_spec d 1) as [->|Hd1]; cbn [negb] in H.
    - exists prev. split; [done|]. rewrite decide_False; [done|].
      unfold non_unit_axis. rewrite H1. auto.
    - exists (Some a). rewrite decide_True by (unfold non_unit_axis; rewrite H1; congruence).
      destruct prev as [p|]; [|done]. destruct (Nat.ltb_spec a p); [done|].
      split; [done|]. cbn. intros Hs. constructor; [done|]. constructor. done. }
  destruct (IH (S i) _ _ ltac:(by rewrite length_insert) Hrun) as (Hall & Hnd & Hs).
  assert (a ∉ perm) as Hni.
  { intros Hin. apply list_elem_of_lookup in Hin as [k Hk]. apply Hall in Hk as (_ & Hseen & _).
    rewrite list_lookup_insert_eq in Hseen by lia. done. }
  split_and!; [|by constructor|by apply Hsort].
  intros [|k] b Hk; cbn in Hk.
  - injection Hk as <-. rewrite Nat.add_0_r. eauto.
  - pose proof (list_elem_of_lookup_2 _ _ _ Hk). apply Hall in Hk as (? & Hseen & e & ? & ?).
    rewrite list_lookup_insert_ne in Hseen by (intros ->; done).
    rewrite <- Nat.add_succ_comm. eauto.
Qed.

Lemma Sorted_filter_seq (P : nat → Prop) `{∀ n, Decision (P n)} i n : Sorted le (filter P (seq i n)).
Proof.
  apply StronglySorted_Sorted. revert i. induction n as [|n IH]; intros i; [constructor|].
  cbn [seq]. rewrite filter_cons. case_decide; [|done]. constructor; [done|].
  apply Forall_forall. intros x Hx. apply list_elem_of_filter in Hx as [_ Hx].
  apply elem_of_seq in Hx. lia.
Qed.

Lemma permuted_filter (ins : list Z) (l : list (Z * Z)) perm :
  fst <$> l = ins → (∀ p, p ∈ perm → (p < length l)%nat) →
  filter non_unit (permuted l perm) = permuted l (filter (non_unit_axis ins) perm).
Proof.
  intros <- Hlt. induction perm as [|p perm IH]; [done|].
  destruct (lookup_lt_is_Some_2 l p) as [[d x] Hx]; [apply Hlt; set_solver|].
  unfold permuted in *. cbn [omap list_omap]. rewrite Hx, filter_cons, filter_cons.
  rewrite IH by (intros q Hq; apply Hlt; set_solver).
  assert (non_unit (d, x) ↔ non_unit_axis l.*1 p) as Hiff.
  { unfold non_unit, non_unit_axis. rewrite list_lookup_fmap, Hx. cbn. split; congruence. }
  destruct (decide (non_unit (d, x))) as [H|H].
  - rewrite decide_True by (by apply Hiff). cbn. by rewrite Hx.
  - by rewrite decide_False by (by rewrite <- Hiff).
Qed.

Lemma permuted_seq {A} (l : list A) : permuted l (seq 0 (length l)) = l.
Proof.
  destruct (permuted_lookup l (seq 0 (length l))) as [Hl Hlk].
  { intros p Hp. apply elem_of_seq in Hp. lia. }
  rewrite length_seq in Hl. apply list_eq. intros i.
  destruct (decide (i < length l)%nat) as [Hi|Hi].
  - rewrite (Hlk i i); [done|]. by rewrite lookup_seq_lt.
  - by rewrite !lookup_ge_None_2 by lia.
Qed.

Lemma flat_workaround ins perm outs (l : list (Z * Z)) :
  NeedsHtpTransposeReshapeWorkaround ins perm outs = Ok true →
  fst <$> l = ins → Forall in_bounds l →
  is_perm perm ∧ fst <$> permuted l perm = outs ∧ flat (permuted l perm) = flat l.
Proof.
  intros H Hl Hb. unfold NeedsHtpTransposeReshapeWorkaround in H.
  destruct (Nat.eqb_spec (length perm) (length ins)) as [Hlp|]; [|done].
  destruct (Nat.eqb_spec (length outs) (length ins)) as [Hlo|]; [|done].
  destruct (IsIdentityPerm perm); [done|]. case_bool_decide; [done|]. cbn in H.
  apply workaround_loop_true in H as (Hall & Hnd & Hsort); [|apply length_replicate].
  assert (length l = length ins) as Hll by (by rewrite <- Hl, length_fmap).
  assert (∀ p, p ∈ perm → (p < length l)%nat) as Hlt.
  { intros p Hp. apply list_elem_of_lookup in Hp as [k Hk]. apply Hall in Hk. lia. }
  assert (is_perm perm) as Hperm.
  { apply is_perm_intro; [done|]. intros p Hp. rewrite Hlp, <- Hll. by apply Hlt. }
  destruct (permuted_lookup l perm Hlt) as [Hpl Hplk].
  split; [done|]. split.
  - apply list_eq_same_length with (length outs); [done|rewrite length_fmap; lia|].
    intros i x y Hi Hx Hy. rewrite list_lookup_fmap in Hx.
    destruct (lookup_lt_is_Some_2 perm i) as [a Ha]; [lia|].
    rewrite (Hplk _ _ Ha) in Hx. destruct (Hall _ _ Ha) as (_ & _ & d & Hd & Ho).
    rewrite <- Hl, list_lookup_fmap in Hd. cbn in Ho. congruence.
  - assert (Forall in_bounds (permuted l perm)) as Hb'.
    { apply Forall_lookup_2. intros i x Hx.
      destruct (lookup_lt_is_Some_2 perm i) as [a Ha]; [rewrite <- Hpl; by eapply lookup_lt_Some|].
      rewrite (Hplk _ _ Ha) in Hx. by eapply Forall_lookup_1. }
    rewrite <- (flat_non_unit (permuted l perm)), <- (flat_non_unit l) by done.
    f_equal. rewrite <- (permuted_seq l) at 2. rewrite (permuted_filter ins l perm) by done.
    rewrite (permuted_filter ins l (seq 0 (length l)));
      [|done|intros p Hp; apply elem_of_seq in Hp; lia].
    f_equal. apply (Sorted_unique le); [done|apply Sorted_filter_seq|].
    apply filter_Permutation. unfold is_perm in Hperm. by rewrite Hll, <- Hlp.
Qed.

(** ** Channel permutations *)

Lemma ChannelFirstToLastPerm_spec rank :
  (2 ≤ rank)%nat →
  ∃ f, ChannelFirstToLastPerm rank = Ok f ∧ length f = rank ∧
    ∀ i, (i < rank)%nat → f !! i = Some (if (i =? 0)%nat then 0%nat
                                         else if (i =? rank - 1)%nat then 1%nat else S i).
Proof.
  intros Hr. unfold ChannelFirstToLastPerm.
  rewrite aset_lt by (rewrite length_replicate; lia). cbn [rbind].
  set (p0 := <[0%nat:=0%nat]> (replicate rank 0%nat)).
  assert (length p0 = rank) as Hl0 by (unfold p0; by rewrite length_insert, length_replicate).
  rewrite (foldM_ext _ (fun d i => store d (i - 1, i)%nat)) by done. rewrite foldM_fmap.
  assert (∀ i x, (i, x) ∈ (fun i => (i - 1, i)%nat) <$> seq 2 (rank - 2) ↔
                 (1 ≤ i < rank - 1)%nat ∧ x = S i) as Hw.
  { intros i x. rewrite list_elem_of_fmap. split.
    - intros (y & [= -> ->] & Hy). apply elem_of_seq in Hy. lia.
    - intros [Hi ->]. exists (S i). rewrite elem_of_seq. split; [f_equal|]; lia. }
  destruct (scatter_spec _ p0 (fun i x H => ltac:(apply Hw in H; lia))
    (fun i x y Hx Hy => ltac:(apply Hw in Hx; apply Hw in Hy; lia)))
    as (p1 & -> & Hl1 & Hin & Hout).
  cbn [rbind]. rewrite aset_lt by lia. eexists; split; [done|].
  split; [rewrite length_insert; lia|]. intros i Hi.
  destruct (Nat.eqb_spec i (rank - 1)) as [->|Hne].
  - rewrite list_lookup_insert_eq by lia. by destruct (Nat.eqb_spec (rank - 1) 0); [lia|].
  - rewrite list_lookup_insert_ne by done. destruct (Nat.eqb_spec i 0) as [->|].
    + rewrite Hout; [unfold p0; apply list_lookup_insert_eq; rewrite length_replicate; lia|].
      intros x Hx. apply Hw in Hx. lia.
    + apply Hin, Hw. lia.
Qed.

Lemma ChannelLastToFirstPerm_spec rank :
  (2 ≤ rank)%nat →
  ∃ l, ChannelLastToFirstPerm rank = Ok l ∧ length l = rank ∧
    ∀ i, (i < rank)%nat → l !! i = Some (if (i =? 0)%nat then 0%nat
                                         else if (i =? 1)%nat then (rank - 1)%nat else (i - 1)%nat).
Proof.
  intros Hr. unfold ChannelLastToFirstPerm.
  rewrite aset_lt by (rewrite length_replicate; lia). cbn [rbind].
  rewrite aset_lt by (rewrite length_insert, length_replicate; lia). cbn [rbind].
  set (p0 := <[1%nat:=_]> _).
  assert (length p0 = rank) as Hl0 by (unfold p0; by rewrite !length_insert, length_replicate).
  rewrite (foldM_ext _ (fun d i => store d (i, i - 1)%nat)) by done. rewrite foldM_fmap.
  assert (∀ i x, (i, x) ∈ (fun i => (i, i - 1)%nat) <$> seq 2 (rank - 2) ↔
                 (2 ≤ i < rank)%nat ∧ x = (i - 1)%nat) as Hw.
  { intros i x. rewrite list_elem_of_fmap. split.
    - intros (y & [= -> ->] & Hy). apply elem_of_seq in Hy. lia.
    - intros [Hi ->]. exists i. rewrite elem_of_seq. split; [done|lia]. }
  destruct (scatter_spec _ p0 (fun i x H => ltac:(apply Hw in H; lia))
    (fun i x y Hx Hy => ltac:(apply Hw in Hx; apply Hw in Hy; lia)))
    as (p1 & -> & Hl1 & Hin & Hout).
  eexists; split; [done|]. split; [lia|]. intros i Hi.
  destruct (Nat.eqb_spec i 0) as [->|]; [|destruct (Nat.eqb_spec i 1) as [->|]].
  - rewrite Hout by (intros x Hx; apply Hw in Hx; lia).
    unfold p0. rewrite list_lookup_insert_ne by lia.
    apply list_lookup_insert_eq. rewrite length_replicate. lia.
  - rewrite Hout by (intros x Hx; apply Hw in Hx; lia).
    unfold p0. apply list_lookup_insert_eq. rewrite length_insert, length_replicate. lia.
  - apply Hin, Hw. lia.
Qed.

(** Case analysis on the comparisons of a goal about positions. *)
Ltac cases_nat :=
  repeat match goal with
  | H : context [(?a =? ?b)%nat] |- _ => destruct (Nat.eqb_spec a b); try lia
  | |- context [(?a =? ?b)%nat] => destruct (Nat.eqb_spec a b); try lia
  end; try lia.

(** ** Properties *)

(** Inverting a permutation gives a permutation that undoes it: permuting any shape
    by [perm] and then by the inverse gives the shape back; an entry outside the rank
    is an error. *)
Theorem invert_perm_undoes {A} (perm buf : list nat) (shape out1 out2 : list A) :
  length buf = length perm → length shape = length perm →
  length out1 = length perm → length out2 = length perm →
  (is_perm perm →
     ∃ inv mid, InvertPerm perm buf = Ok inv ∧ is_perm inv ∧
       PermuteShape shape perm out1 = Ok mid ∧ PermuteShape mid inv out2 = Ok shape) ∧
  ((∃ i p, perm !! i = Some p ∧ (length perm ≤ p)%nat) → is_ok (InvertPerm perm buf) = false).
Proof.
  intros Hb Hs Ho1 Ho2. split.
  - intros Hp. destruct (InvertPerm_spec perm buf Hp Hb) as (inv & Hrun & Hinv).
    destruct (inverse_of_perm _ _ Hp Hinv) as [Hpi [Hl Hinv']].
    assert (∀ p, p ∈ perm → (p < length shape)%nat) as Hlt.
    { intros p Hin. apply list_elem_of_lookup in Hin as [i Hi]. rewrite Hs. by eapply is_perm_lt. }
    exists inv, (permuted shape perm).
    rewrite PermuteShape_spec by (done || lia). split_and!; [done..|].
    destruct (permuted_lookup shape perm Hlt) as [Hpl _].
    rewrite PermuteShape_spec; rewrite ?Hpl; try lia; [by rewrite permuted_inverse|].
    intros p Hin. apply list_elem_of_lookup in Hin as [i Hi]. rewrite Hl. by eapply is_perm_lt.
  - intros (i & p & Hi & Hp). destruct (InvertPerm perm buf) as [inv|] eqn:E; [|done].
    unfold InvertPerm in E. rewrite Hb, Nat.eqb_refl in E. cbn [return_if_not rbind] in E.
    exfalso. apply (foldM_inv _ (fun visited _ => i ∉ visited)) in E.
    + apply E, elem_of_seq. apply lookup_lt_Some in Hi. lia.
    + set_solver.
    + intros visited x s1 s2 Hni Hstep Hin. apply Hni. simplify_res.
      apply elem_of_app in Hin as [|Hin]; [done|]. apply list_elem_of_singleton in Hin as ->.
      apply aget_Ok in Hstep0. apply Nat.ltb_lt in Hstep1. simplify_eq. lia.
Qed.

Lemma invert_perm_undoes_witness :
  ∃ inv mid, InvertPerm [2; 0; 1]%nat [0; 0; 0]%nat = Ok inv ∧ is_perm inv ∧
    PermuteShape [5; 6; 7] [2; 0; 1]%nat [0; 0; 0] = Ok mid ∧
    PermuteShape mid inv [0; 0; 0] = Ok [5; 6; 7].
Proof.
  apply (invert_perm_undoes [2; 0; 1]%nat [0; 0; 0]%nat [5; 6; 7] [0; 0; 0] [0; 0; 0]);
    [reflexivity..|]. apply (bool_decide_unpack _). vm_compute. exact I.
Defined.

(** The channel-first-to-last and channel-last-to-first permutations of every rank of
    two and more are permutations and inverse to each other; the first one moves the
    channel dimension to the end and keeps the order of the others. *)
Theorem channel_perms_inverse (rank : nat) :
  (2 ≤ rank)%nat →
  ∃ f l, ChannelFirstToLastPerm rank = Ok f ∧ ChannelLastToFirstPerm rank = Ok l ∧
    is_perm f ∧ inverse_of f l ∧ inverse_of l f ∧
    f !! (rank - 1)%nat = Some 1%nat ∧ f !! 0%nat = Some 0%nat ∧
    (∀ i, (1 ≤ i < rank - 1)%nat → f !! i = Some (S i)).
Proof.
  intros Hr. destruct (ChannelFirstToLastPerm_spec rank Hr) as (f & Hf & Hfl & Hfi).
  destruct (ChannelLastToFirstPerm_spec rank Hr) as (l & Hl & Hll & Hli).
  exists f, l.
  assert (∀ i p, f !! i = Some p → (i < rank)%nat ∧
    p = if (i =? 0)%nat then 0%nat else if (i =? rank - 1)%nat then 1%nat else S i) as Hfv.
  { intros i p Hp. pose proof (lookup_lt_Some _ _ _ Hp). rewrite Hfi in Hp by lia.
    split; [lia|]. congruence. }
  assert (is_perm f) as Hperm.
  { apply is_perm_intro.
    - apply NoDup_alt. intros i j x Hi Hj. apply Hfv in Hi as [? ->]. apply Hfv in Hj as [? E].
      revert E. cases_nat.
    - intros p Hp. apply list_elem_of_lookup in Hp as [i Hi]. apply Hfv in Hi as [? ->].
      rewrite Hfl. cases_nat. }
  assert (inverse_of f l) as Hinv.
  { split; [lia|]. intros i p Hp. apply Hfv in Hp as [? ->].
    rewrite Hli by cases_nat. f_equal. cases_nat. }
  split_and!; [done..| | | |].
  - by apply inverse_of_perm.
  - rewrite Hfi by lia. f_equal. cases_nat.
  - by rewrite Hfi by lia.
  - intros i Hi. rewrite Hfi by lia. f_equal. cases_nat.
Qed.

Lemma channel_perms_inverse_witness :
  ∃ f l, ChannelFirstToLastPerm 4 = Ok f ∧ ChannelLastToFirstPerm 4 = Ok l ∧
    is_perm f ∧ inverse_of f l ∧ inverse_of l f ∧
    f !! 3%nat = Some 1%nat ∧ f !! 0%nat = Some 0%nat ∧
    (∀ i, (1 ≤ i < 3)%nat → f !! i = Some (S i)).
Proof. apply (channel_perms_inverse 4). lia. Defined.

(** Replacing a Transpose by a Reshape is sound whenever the check asks for it: if
    [NeedsHtpTransposeReshapeWorkaround] answers true, [perm] is a permutation,
    [output_shape] is the permuted shape, and every element keeps its row-major
    position. *)
Theorem reshape_workaround_sound (input_shape : list Z) (perm : list nat) (output_shape : list Z)
  (index : list Z) :
  NeedsHtpTransposeReshapeWorkaround input_shape perm output_shape = Ok true →
  length index = length input_shape → Forall in_bounds (zip input_shape index) →
  is_perm perm ∧ permuted input_shape perm = output_shape ∧
  flat (zip output_shape (permuted index perm)) = flat (zip input_shape index).
Proof.
  intros H Hlen Hb. set (l := zip input_shape index) in *.
  assert (fst <$> l = input_shape) as Hfst by (apply fst_zip; lia).
  assert (snd <$> l = index) as Hsnd by (apply snd_zip; lia).
  destruct (flat_workaround _ _ _ l H Hfst Hb) as (Hp & Ho & Hflat).
  split; [done|]. split.
  - by rewrite <- Hfst, permuted_fmap, Ho.
  - rewrite <- Hflat, <- Ho, <- Hsnd, permuted_fmap. f_equal. apply zip_fst_snd.
Qed.

Lemma reshape_workaround_sound_witness :
  is_perm [1; 0; 2]%nat ∧ permuted [128; 1; 64] [1; 0; 2]%nat = [1; 128; 64] ∧
  flat (zip [1; 128; 64] (permuted [3; 0; 5] [1; 0; 2]%nat)) = flat (zip [128; 1; 64] [3; 0; 5]).
Proof.
  apply (reshape_workaround_sound [128; 1; 64] [1; 0; 2]%nat [1; 128; 64] [3; 0; 5]);
    [vm_compute; reflexivity|reflexivity|repeat constructor; cbn; lia].
Defined.

(** Updating the quantization axis for a Transpose: given the inverse of the
    Transpose's permutation, [HandleTranspose] moves the axis to the position that the
    quantized dimension has in the permuted shape. *)
Theorem handle_transpose_axis (w : QnnQuantParamsWrapper) (shape out : list Z) (perm inv : list nat)
  (axis : nat) (d : Z) :
  IsPerChannel w || IsLPBQ w = true →
  axis_of (quantizationEncoding (params_ w)) = Some (Z.of_nat axis) → shape !! axis = Some d →
  is_perm perm → inverse_of perm inv →
  length perm = length shape → length out = length shape → Z.of_nat (length shape) < 2 ^ 31 →
  ∃ w' mid axis', HandleTranspose w (Z.of_nat <$> inv) = Ok w' ∧
    PermuteShape shape perm out = Ok mid ∧
    axis_of (quantizationEncoding (params_ w')) = Some (Z.of_nat axis') ∧
    mid !! axis' = Some d ∧ perm !! axis' = Some axis.
Proof.
  intros Hq Hax Hd Hp Hinv Hlp Hlo Hbig.
  destruct (inverse_of_perm _ _ Hp Hinv) as [Hpi [Hl Hback]].
  pose proof (lookup_lt_Some _ _ _ Hd) as Hlt.
  destruct (lookup_lt_is_Some_2 inv axis) as [axis' Ha']; [lia|].
  assert (∀ p, p ∈ perm → (p < length shape)%nat) as Hin.
  { intros p Hp'. apply list_elem_of_lookup in Hp' as [i Hi]. rewrite <- Hlp. by eapply is_perm_lt. }
  destruct (permuted_lookup shape perm Hin) as [_ Hlk].
  pose proof (is_perm_lt _ _ _ Hpi Ha').
  exists (set_axis w (Z.of_nat axis')), (permuted shape perm), axis'. split_and!.
  - unfold HandleTranspose. rewrite <- negb_orb, Hq. cbn [negb]. rewrite Hax.
    rewrite length_fmap, wrapu_id by (unfold in_u; lia).
    rewrite (proj2 (Z.ltb_lt _ _)) by lia. cbn [return_if_not rbind].
    rewrite Nat2Z.id. rewrite (proj2 (aget_Ok _ axis (Z.of_nat axis')))
      by (by rewrite list_lookup_fmap, Ha'). cbn [rbind].
    by rewrite wraps_id by (lia || (unfold in_s; lia)).
  - by apply PermuteShape_spec.
  - by apply (axis_of_with_axis _ _ _ Hax).
  - by rewrite (Hlk _ _ (Hback _ _ Ha')).
  - by apply Hback.
Qed.

Lemma handle_transpose_axis_witness :
  ∃ w' mid axis', HandleTranspose example_axis_wrapper (Z.of_nat <$> [2; 0; 1]%nat) = Ok w' ∧
    PermuteShape [4; 2; 9] [1; 2; 0]%nat [0; 0; 0] = Ok mid ∧
    axis_of (quantizationEncoding (params_ w')) = Some (Z.of_nat axis') ∧
    mid !! axis' = Some 2 ∧ [1; 2; 0]%nat !! axis' = Some 1%nat.
Proof.
  apply (handle_transpose_axis example_axis_wrapper [4; 2; 9] [0; 0; 0] [1; 2; 0]%nat [2; 0; 1]%nat 1 2);
    [reflexivity|reflexivity|reflexivity| | |reflexivity|reflexivity|cbn; lia].
  - apply (bool_decide_unpack _). vm_compute. exact I.
  - split; [reflexivity|]. intros [|[|[|i]]] p Hp; cbn in Hp; try discriminate;
      injection Hp as <-; reflexivity.
Defined.

(** The dimension [i] places from the right under the broadcasting rules. *)
Definition trailing_dim (a : list Z) (i : nat) : Z :=
  if (i <? length a)%nat then default 1 (a !! (length a - 1 - i)%nat) else 1.

Definition broadcast_dim (da db : Z) : option Z :=
  if da =? db then Some da else if da =? 1 then Some db else if db =? 1 then Some da else None.

Lemma trailing_Ok a i : trailing a i = Ok (trailing_dim a i).
Proof.
  unfold trailing, trailing_dim. destruct (Nat.ltb_spec i (length a)) as [H|]; [|done].
  destruct (lookup_lt_is_Some_2 a (length a - 1 - i)%nat) as [x Hx]; [lia|].
  rewrite Hx. cbn. by apply aget_Ok.
Qed.

Lemma broadcast_step (da db : Z) msg :
  (if da =? db then Ok da else if da =? 1 then Ok db else if db =? 1 then Ok da else Err (EpFail msg)) =
  match broadcast_dim da db with Some d => Ok d | None => Err (EpFail msg) end.
Proof. unfold broadcast_dim. by destruct (da =? db), (da =? 1), (db =? 1). Qed.

(** [BroadcastShape] follows the broadcasting rules on right-aligned dimensions, is
    symmetric in its arguments, and fails exactly when some pair of dimensions is
    neither equal nor contains a one. *)
Theorem broadcast_shape_rules (a b : list Z) :
  let rank := Nat.max (length a) (length b) in
  ((∀ i, (i < rank)%nat → is_Some (broadcast_dim (trailing_dim a i) (trailing_dim b i))) →
     ∃ out, BroadcastShape a b = Ok out ∧ BroadcastShape b a = Ok out ∧ length out = rank ∧
       ∀ i, (i < rank)%nat →
         broadcast_dim (trailing_dim a i) (trailing_dim b i) = Some (trailing_dim out i)) ∧
  ((∃ i, (i < rank)%nat ∧ broadcast_dim (trailing_dim a i) (trailing_dim b i) = None) →
     is_ok (BroadcastShape a b) = false).
Proof.
  intros rank. split.
  - intros Hall. pose (dim i := default 1 (broadcast_dim (trailing_dim a i) (trailing_dim b i))).
    assert (∀ i, (i < rank)%nat → broadcast_dim (trailing_dim a i) (trailing_dim b i) = Some (dim i) ∧
       broadcast_dim (trailing_dim b i) (trailing_dim a i) = Some (dim i)) as Hdim.
    { intros i Hi. unfold dim. destruct (Hall i Hi) as [d Hd]. rewrite Hd. split; [done|].
      revert Hd. unfold broadcast_dim. generalize (trailing_dim a i) (trailing_dim b i).
      intros x y. destruct (Z.eqb_spec x y), (Z.eqb_spec y x), (Z.eqb_spec x 1), (Z.eqb_spec y 1);
        cbn; congruence. }
    assert (∀ p x, (p, x) ∈ (fun i => (rank - 1 - i, dim i)%nat) <$> seq 0 rank ↔
      (p < rank)%nat ∧ x = dim (rank - 1 - p)%nat) as Hw.
    { intros p x. rewrite list_elem_of_fmap. split.
      - intros (i & [= -> ->] & Hi). apply elem_of_seq in Hi. split; [lia|]. f_equal. lia.
      - intros [Hp ->]. exists (rank - 1 - p)%nat. rewrite elem_of_seq. split; [|lia].
        f_equal. lia. }
    destruct (scatter_spec ((fun i => (rank - 1 - i, dim i)%nat) <$> seq 0 rank) (replicate rank 1))
      as (out & Hrun & Hlen & Hin & _).
    { intros p x Hp. apply Hw in Hp. rewrite length_replicate. lia. }
    { intros p x y Hx Hy. apply Hw in Hx as [_ ->]. by apply Hw in Hy as [_ ->]. }
    rewrite length_replicate in Hlen. exists out. split_and!; [| |done|].
    + rewrite <- Hrun, <- foldM_fmap. apply foldM_ext. intros s i Hi. apply elem_of_seq in Hi.
      rewrite !trailing_Ok. cbn [rbind]. rewrite broadcast_step.
      destruct (Hdim i) as [-> _]; [lia|]. done.
    + rewrite <- Hrun, <- foldM_fmap. unfold BroadcastShape. rewrite Nat.max_comm.
      apply foldM_ext. intros s i Hi. apply elem_of_seq in Hi.
      rewrite !trailing_Ok. cbn [rbind]. rewrite broadcast_step.
      destruct (Hdim i) as [_ ->]; [lia|]. done.
    + intros i Hi. destruct (Hdim i Hi) as [-> _]. f_equal. unfold trailing_dim at 1.
      rewrite Hlen, (proj2 (Nat.ltb_lt _ _)) by done.
      rewrite (Hin _ (dim i)); [done|]. apply Hw. split; [lia|]. f_equal. lia.
  - intros (i & Hi & Hnone). destruct (BroadcastShape a b) as [out|] eqn:E; [exfalso|done].
    unfold BroadcastShape in E. apply (foldM_inv _ (fun visited _ => i ∉ visited)) in E.
    + apply E, elem_of_seq. fold rank. lia.
    + set_solver.
    + intros visited x s1 s2 Hni Hstep Hin. apply Hni.
      apply elem_of_app in Hin as [|Hin]; [done|]. apply list_elem_of_singleton in Hin as ->.
      rewrite !trailing_Ok in Hstep. cbn [rbind] in Hstep. rewrite broadcast_step, Hnone in Hstep.
      done.
Qed.

Lemma broadcast_shape_rules_witness :
  ∃ out, BroadcastShape [8; 1; 6] [7; 1] = Ok out ∧ BroadcastShape [7; 1] [8; 1; 6] = Ok out ∧
    length out = 3%nat ∧
    ∀ i, (i < 3)%nat →
      broadcast_dim (trailing_dim [8; 1; 6] i) (trailing_dim [7; 1] i) = Some (trailing_dim out i).
Proof.
  apply (proj1 (broadcast_shape_rules [8; 1; 6] [7; 1])).
  intros [|[|[|i]]] Hi; cbn in *; try lia; vm_compute; eauto.
Defined.
