(* ===== verification/Transpose.v ===== *)
(** * Transposing weight data

    [TwoDimensionTranspose], [TransposeTiled2D], [GetTransposeStrides],
    [TransposeDataRank5] and the layout conversions of convolution weights in
    [builder/qnn_utils.cc].  Buffers are lists of bytes; sizes and indices are
    [size_t] values, and the arithmetic on them wraps at [2^64] through [wrap64]. *)

From Stdlib Require Import ArithRing.
From S2P Require Import Prelude DataTypes Perm.
Local Open Scope nat_scope.

Definition wrap64 (n : nat) : nat := Z.to_nat (u64 (Z.of_nat n)).

Lemma wrap64_id n : (Z.of_nat n < 2 ^ 64)%Z → wrap64 n = n.
Proof. intros H. unfold wrap64. rewrite wrapu_id by (unfold in_u; lia). lia. Qed.

(** [std::memcpy(&dst[d], &src[s], n)] on spans. *)
Definition memcpy {A} (src dst : list A) (d s n : nat) : result (list A) :=
  foldM (fun dst b => copy1 src dst (d + b, s + b)) (seq 0 n) dst.

(** ** Two dimensions *)

(** The starts of the tiles: [0, 32, 64, ...] below [n]. *)
Definition tile_size : nat := 32.
Definition tile_starts (n : nat) : list nat :=
  (fun k => k * tile_size) <$> seq 0 ((n + tile_size - 1) / tile_size).

(** [for (i = start; i < end; ++i)] *)
Definition range (start stop : nat) : list nat := seq start (stop - start).

Definition TransposeTiled2D (ElementSize rows cols : nat) (input_buffer output_buffer : list Z)
  : result (list Z) :=
  foldM (fun out row_start =>
    let row_end := Nat.min (row_start + tile_size) rows in
    foldM (fun out col_start =>
      let col_end := Nat.min (col_start + tile_size) cols in
      foldM (fun out col =>
        foldM (fun out row =>
          let dst_byte_index := wrap64 ((col * rows + row_start) * ElementSize + (row - row_start) * ElementSize) in
          let src_byte_index := wrap64 ((row * cols + col) * ElementSize) in
          memcpy input_buffer out dst_byte_index src_byte_index ElementSize)
          (range row_start row_end) out)
        (range col_start col_end) out)
      (tile_starts cols) out)
    (tile_starts rows) output_buffer.

Definition TransposeUntiled (elem_byte_size rows cols : nat) (input_buffer output_buffer : list Z)
  : result (list Z) :=
  foldM (fun out row =>
    foldM (fun out col =>
      let src_byte_index := wrap64 ((row * cols + col) * elem_byte_size) in
      let dst_byte_index := wrap64 ((col * rows + row) * elem_byte_size) in
      memcpy input_buffer out dst_byte_index src_byte_index elem_byte_size)
      (seq 0 cols) out)
    (seq 0 rows) output_buffer.

Definition TwoDimensionTranspose (rows cols elem_byte_size : nat) (input_buffer output_buffer : list Z)
  : result (list Z) :=
  let* _ := return_if_not (negb (elem_byte_size =? 0)) "Expected a non-zero element byte size" in
  let num_bytes := wrap64 (rows * cols * elem_byte_size) in
  let* _ := return_if_not ((length input_buffer =? num_bytes) && (length output_buffer =? num_bytes))
    "Expected both transpose buffers to hold rows * cols * elem_byte_size bytes" in
  match elem_byte_size with
  | 1 | 2 | 4 | 8 => TransposeTiled2D elem_byte_size rows cols input_buffer output_buffer
  | _ => TransposeUntiled elem_byte_size rows cols input_buffer output_buffer
  end.

(** The overload on vectors of elements: [transposed_data.resize(data.size(), 0)] first,
    and only that when the data itself is not needed. *)
Definition TwoDimensionTranspose_vec {A} (zero : A) (data : list A) (data_shape : list nat)
  (transposed_data : list A) (skip_output_data_copy : bool) : result (list A) :=
  let transposed_data := resize (length data) zero transposed_data in
  if skip_output_data_copy then Ok transposed_data
  else
    let* rows := aget data_shape 0 in
    let* cols := aget data_shape 1 in
    foldM (fun out row =>
      foldM (fun out col => copy1 data out (wrap64 (col * rows + row), wrap64 (row * cols + col)))
        (seq 0 cols) out)
      (seq 0 rows) transposed_data.

(** ** Rank five *)

Definition stride_of (shape : list Z) (i : nat) : result nat :=
  foldM (fun stride j =>
    let* d := aget shape j in
    let* _ := return_if_not (d >? 0)%Z "Expected positive shape dims when computing strides." in
    Ok (wrap64 (stride * Z.to_nat d))) (range (S i) (length shape)) 1.

Definition GetTransposeStrides (input_shape : list Z) (perm : list nat)
  (input_strides output_strides : list nat) : result (list nat * list nat) :=
  let rank := length input_shape in
  let* _ := return_if_not (length perm =? rank) "Expected perm size of " in
  let* _ := return_if_not (length input_strides =? rank) "Expected input_strides size of " in
  let* _ := return_if_not (length output_strides =? rank) "Expected output_strides size of " in
  let* output_shape_dims := PermuteShape input_shape perm (replicate rank 0%Z) in
  let* ins := foldM (fill (stride_of input_shape)) (seq 0 rank) input_strides in
  let* outs := foldM (fill (stride_of output_shape_dims)) (seq 0 rank) output_strides in
  Ok (ins, outs).

(** The innermost body at the multi-index [[d0; d1; d2; d3; d4]]. *)
Definition rank5_copy (elem_byte_size : nat) (input_strides output_strides perm_inverse : list nat)
  (input_buffer : list Z) (out : list Z) (ds : list nat) : result (list Z) :=
  let* src_elem_index := foldM (fun acc k =>
    let* d := aget ds k in let* s := aget input_strides k in Ok (acc + d * s)) (seq 0 5) 0 in
  let* dst_elem_index := foldM (fun acc k =>
    let* d := aget ds k in
    let* p := aget perm_inverse k in
    let* s := aget output_strides p in Ok (acc + d * s)) (seq 0 5) 0 in
  memcpy input_buffer out (wrap64 (dst_elem_index * elem_byte_size))
    (wrap64 (src_elem_index * elem_byte_size)) elem_byte_size.

Definition TransposeDataRank5 (input_shape : list Z) (perm : list nat) (elem_byte_size : nat)
  (input_buffer output_buffer : list Z) : result (list Z) :=
  let* _ := return_if_not (length input_shape =? 5) "Expected input shape to have rank 5" in
  let* (input_strides, output_strides) :=
    GetTransposeStrides input_shape perm (replicate 5 0) (replicate 5 0) in
  let* perm_inverse := InvertPerm perm (replicate (length perm) 0) in
  let* n0 := aget input_shape 0 in
  let* n1 := aget input_shape 1 in
  let* n2 := aget input_shape 2 in
  let* n3 := aget input_shape 3 in
  let* n4 := aget input_shape 4 in
  foldM (fun out d0 =>
    foldM (fun out d1 =>
      foldM (fun out d2 =>
        foldM (fun out d3 =>
          foldM (fun out d4 =>
            rank5_copy elem_byte_size input_strides output_strides perm_inverse input_buffer out
              [d0; d1; d2; d3; d4])
            (seq 0 (Z.to_nat n4)) out)
          (seq 0 (Z.to_nat n3)) out)
        (seq 0 (Z.to_nat n2)) out)
      (seq 0 (Z.to_nat n1)) out)
    (seq 0 (Z.to_nat n0)) output_buffer.

(** The two conversions differ in the permutation only. *)
Definition TransposeToHwcn (perm_3d : list nat) (input_shape_dims : list Z) (elem_byte_size : nat)
  (input_buffer output_buffer : list Z) (is_3d : bool) : result (list Z) :=
  let rank := length input_shape_dims in
  let* _ := return_if_not ((is_3d && (rank =? 5)) || (negb is_3d && (rank =? 4)))
    "Only support input of rank 4 or 5 but got rank " in
  let* _ := return_if_not (length output_buffer =? length input_buffer)
    "Expected output buffer's size to equal the input buffer's size: " in
  let* _ := return_if_not (negb (elem_byte_size =? 0))
    "Invalid element byte size due to potentially unsupported type" in
  let input_shape_dims := if is_3d then input_shape_dims else input_shape_dims ++ [1%Z] in
  TransposeDataRank5 input_shape_dims perm_3d elem_byte_size input_buffer output_buffer.

Definition TransposeFromNchwToHwcn := TransposeToHwcn nchw2hwcn_perm_3d.
Definition TransposeFromCnhwToHwcn := TransposeToHwcn cnhw2hwcn_perm_3d.

(** ** Copying elements of several bytes *)

(** Consistent element copies put every source element at its destination. *)
Lemma copy_elems_spec (src : list Z) (es : nat) (ps : list (nat * nat)) (dst : list Z) :
  0 < es →
  (∀ d s, (d, s) ∈ ps → (d + 1) * es ≤ length dst ∧ (s + 1) * es ≤ length src) →
  (∀ d s s', (d, s) ∈ ps → (d, s') ∈ ps → s = s') →
  ∃ dst', foldM (fun out p => memcpy src out (p.1 * es) (p.2 * es) es) ps dst = Ok dst' ∧
    length dst' = length dst ∧
    ∀ d s b, (d, s) ∈ ps → b < es → dst' !! (d * es + b) = src !! (s * es + b).
Proof.
  intros Hes Hlt Hcons. unfold memcpy.
  rewrite (foldM_nest (fun out p b => copy1 src out (p.1 * es + b, p.2 * es + b)) (fun _ => seq 0 es)).
  rewrite foldM_fmap.
  set (ws := (_ <$> _) : list (nat * nat)).
  assert (∀ i j, (i, j) ∈ ws ↔ ∃ d s b, (d, s) ∈ ps ∧ b < es ∧ i = d * es + b ∧ j = s * es + b) as Hws.
  { intros i j. unfold ws. rewrite list_elem_of_fmap. split.
    - intros ([[d s] b] & [= -> ->] & Hin). apply elem_of_nest in Hin as [Hp Hb].
      apply elem_of_seq in Hb. exists d, s, b. split_and!; [done|lia|done|done].
    - intros (d & s & b & Hp & Hb & -> & ->). exists ((d, s), b). split; [done|].
      apply elem_of_nest. split; [done|]. apply elem_of_seq. lia. }
  destruct (gather_spec src ws dst) as (dst' & Hrun & Hlen & Hin & _).
  - intros i j Hij. apply Hws in Hij as (d & s & b & Hp & Hb & -> & ->).
    apply Hlt in Hp. nia.
  - intros i j k Hj Hk. apply Hws in Hj as (d & s & b & Hp & Hb & -> & ->).
    apply Hws in Hk as (d' & s' & b' & Hp' & Hb' & E & ->).
    apply mixed_radix in E as [<- <-]; [|done..]. by rewrite (Hcons d s s').
  - exists dst'. split_and!; [done|done|]. intros d s b Hp Hb. apply Hin, Hws. eauto 10.
Qed.

(** ** Two dimensions *)

Lemma wrap64_index rows cols r c es :
  (Z.of_nat (rows * cols * es) < 2 ^ 64)%Z → r < rows → c < cols → 0 < es →
  wrap64 ((c * rows + r) * es) = (c * rows + r) * es ∧
  wrap64 ((r * cols + c) * es) = (r * cols + c) * es ∧
  (c * rows + r + 1) * es ≤ rows * cols * es ∧ (r * cols + c + 1) * es ≤ rows * cols * es.
Proof.
  intros Hb Hr Hc Hes.
  assert (c * rows + r + 1 ≤ rows * cols) by nia.
  assert (r * cols + c + 1 ≤ rows * cols) by nia.
  assert ((c * rows + r + 1) * es ≤ rows * cols * es) by (apply Nat.mul_le_mono_r; lia).
  assert ((r * cols + c + 1) * es ≤ rows * cols * es) by (apply Nat.mul_le_mono_r; lia).
  rewrite !wrap64_id by nia. done.
Qed.

(** The element pairs of a 2-D transpose in any visiting order. *)
Section TwoDimensional.
Variables (rows cols es : nat) (inp out : list Z).
Hypothesis Hes : 0 < es.
Hypothesis Hbig : (Z.of_nat (rows * cols * es) < 2 ^ 64)%Z.
Hypothesis Hin : length inp = rows * cols * es.
Hypothesis Hout : length out = rows * cols * es.

Definition transposes (out' : list Z) : Prop :=
  length out' = rows * cols * es ∧
  ∀ r c b, r < rows → c < cols → b < es →
    out' !! ((c * rows + r) * es + b) = inp !! ((r * cols + c) * es + b).

Lemma transpose_any_order (ps : list (nat * nat)) :
  (∀ r c, (r, c) ∈ ps ↔ r < rows ∧ c < cols) →
  ∃ out', foldM (fun o p => memcpy inp o ((p.2 * rows + p.1) * es) ((p.1 * cols + p.2) * es) es) ps out
            = Ok out' ∧ transposes out'.
Proof.
  intros Hps. pose (g := fun p : nat * nat => (p.2 * rows + p.1, p.1 * cols + p.2)).
  rewrite (foldM_ext _ (fun o p => memcpy inp o ((g p).1 * es) ((g p).2 * es) es)) by done.
  rewrite (foldM_fmap (fun o p => memcpy inp o (p.1 * es) (p.2 * es) es)).
  assert (∀ d s, (d, s) ∈ g <$> ps ↔
    ∃ r c, r < rows ∧ c < cols ∧ d = c * rows + r ∧ s = r * cols + c) as Hg.
  { intros d s. rewrite list_elem_of_fmap. split.
    - intros ([r c] & [= -> ->] & Hrc). apply Hps in Hrc. exists r, c. tauto.
    - intros (r & c & Hr & Hc & -> & ->). exists (r, c). split; [done|]. by apply Hps. }
  destruct (copy_elems_spec inp es (g <$> ps) out Hes) as (out' & Hrun & Hlen & Hv).
  - intros d s Hds. apply Hg in Hds as (r & c & Hr & Hc & -> & ->).
    destruct (wrap64_index rows cols r c es Hbig Hr Hc Hes) as (_ & _ & ? & ?). lia.
  - intros d s s' Hs Hs'. apply Hg in Hs as (r & c & Hr & Hc & -> & ->).
    apply Hg in Hs' as (r' & c' & Hr' & Hc' & E & ->).
    by apply mixed_radix in E as [<- <-].
  - exists out'. split; [done|]. split; [lia|]. intros r c b Hr Hc Hb. apply Hv; [|done].
    apply Hg. eauto 10.
Qed.

Lemma elem_of_tile n i : (∃ t, t ∈ tile_starts n ∧ i ∈ range t (Nat.min (t + tile_size) n)) ↔ i < n.
Proof.
  unfold tile_starts, range. split.
  - intros (t & _ & Hi). apply elem_of_seq in Hi. lia.
  - intros Hi. exists (i / tile_size * tile_size). unfold tile_size.
    pose proof (Nat.div_mod_eq i 32). pose proof (Nat.mod_upper_bound i 32).
    pose proof (Nat.div_mod_eq (n + 32 - 1) 32). pose proof (Nat.mod_upper_bound (n + 32 - 1) 32).
    split; [|apply elem_of_seq; lia].
    apply list_elem_of_fmap. exists (i / 32). split; [lia|]. apply elem_of_seq. lia.
Qed.

Lemma TransposeUntiled_spec : ∃ out', TransposeUntiled es rows cols inp out = Ok out' ∧ transposes out'.
Proof.
  destruct (transpose_any_order (nest (seq 0 rows) (fun _ => seq 0 cols))) as (out' & Hrun & Ht).
  { intros r c. rewrite elem_of_nest, !elem_of_seq. lia. }
  exists out'. split; [|done]. rewrite <- Hrun. unfold TransposeUntiled.
  rewrite (foldM_nest (fun o r c => memcpy inp o (wrap64 ((c * rows + r) * es)) (wrap64 ((r * cols + c) * es)) es)).
  apply foldM_ext. intros o [r c] Hrc. apply elem_of_nest in Hrc as [Hr Hc].
  apply elem_of_seq in Hr, Hc. cbn [fst snd].
  destruct (wrap64_index rows cols r c es Hbig) as (-> & -> & _); [lia..|]. done.
Qed.

Lemma TransposeTiled2D_spec : ∃ out', TransposeTiled2D es rows cols inp out = Ok out' ∧ transposes out'.
Proof.
  pose (body := fun (o : list Z) (rs r c : nat) =>
    memcpy inp o (wrap64 ((c * rows + rs) * es + (r - rs) * es)) (wrap64 ((r * cols + c) * es)) es).
  pose (tiles := nest (nest (nest (tile_starts rows) (fun _ => tile_starts cols))
                        (fun t => range t.2 (Nat.min (t.2 + tile_size) cols)))
                  (fun t => range t.1.1 (Nat.min (t.1.1 + tile_size) rows))).
  assert (∀ rs cs c r, (rs, cs, c, r) ∈ tiles ↔
    (rs ∈ tile_starts rows ∧ r ∈ range rs (Nat.min (rs + tile_size) rows)) ∧
    (cs ∈ tile_starts cols ∧ c ∈ range cs (Nat.min (cs + tile_size) cols))) as Htiles.
  { intros rs cs c r. unfold tiles. rewrite !elem_of_nest. cbn. tauto. }
  destruct (transpose_any_order ((fun t => (t.2, t.1.2)) <$> tiles)) as (out' & Hrun & Ht).
  { intros r c. rewrite list_elem_of_fmap. rewrite <- (elem_of_tile rows r), <- (elem_of_tile cols c). split.
    - intros ([[[rs cs] c'] r'] & [= -> ->] & H). apply Htiles in H. naive_solver.
    - intros [(rs & ?) (cs & ?)]. exists (rs, cs, c, r). split; [done|]. by apply Htiles. }
  exists out'. split; [|done]. rewrite <- Hrun, <- foldM_fmap. unfold TransposeTiled2D.
  rewrite (foldM_nest (fun o rs cs => foldM (fun o c => foldM (fun o r => body o rs r c)
    (range rs (Nat.min (rs + tile_size) rows)) o) (range cs (Nat.min (cs + tile_size) cols)) o)).
  rewrite (foldM_nest (fun o t c => foldM (fun o r => body o t.1 r c)
    (range t.1 (Nat.min (t.1 + tile_size) rows)) o) (fun t => range t.2 (Nat.min (t.2 + tile_size) cols))).
  rewrite (foldM_nest (fun o t r => body o t.1.1 r t.2) (fun t => range t.1.1 (Nat.min (t.1.1 + tile_size) rows))).
  apply foldM_ext. intros o [[[rs cs] c] r] Hin'. apply Htiles in Hin' as [[_ Hr] [_ Hc]].
  unfold range in Hr, Hc. apply elem_of_seq in Hr, Hc. cbn. unfold body.
  destruct (wrap64_index rows cols r c es Hbig) as (E & -> & _); [lia..|].
  replace ((c * rows + rs) * es + (r - rs) * es) with ((c * rows + r) * es) by nia. by rewrite E.
Qed.

Lemma TwoDimensionTranspose_spec :
  ∃ out', TwoDimensionTranspose rows cols es inp out = Ok out' ∧ transposes out'.
Proof.
  unfold TwoDimensionTranspose. rewrite wrap64_id by done. rewrite Hin, Hout, Nat.eqb_refl.
  rewrite (proj2 (Nat.eqb_neq es 0)) by lia. cbn [negb andb return_if_not rbind].
  pose proof TransposeTiled2D_spec. pose proof TransposeUntiled_spec.
  destruct es as [|[|[|[|[|[|[|[|[|]]]]]]]]]; done.
Qed.
End TwoDimensional.

(** ** Strides *)

Definition prodn (l : list nat) : nat := foldr Nat.mul 1 l.

Lemma prodn_cons x l : prodn (x :: l) = x * prodn l.
Proof. done. Qed.

Lemma foldM_range_aget {S A} (k : S → A → result S) (l : list A) a s :
  foldM (fun s j => let* d := aget l j in k s d) (range a (length l)) s = foldM k (drop a l) s.
Proof.
  unfold range. remember (length l - a) as m eqn:Hm. revert a s Hm.
  induction m as [|m IH]; intros a s Hm.
  - by rewrite drop_ge by lia.
  - destruct (lookup_lt_is_Some_2 l a) as [x Hx]; [lia|].
    cbn [seq foldM]. rewrite (proj2 (aget_Ok l a x)) by done. cbn [rbind].
    rewrite (drop_S _ _ _ Hx). cbn [foldM]. destruct (k s x) as [s'|e]; cbn [rbind]; [|done].
    apply IH. lia.
Qed.

Lemma prodn_pos l : Forall (lt 0) l → 0 < prodn l.
Proof. induction 1; rewrite ?prodn_cons; cbn; lia. Qed.

Lemma prodn_drop_le l i : Forall (lt 0) l → prodn (drop i l) ≤ prodn l.
Proof.
  intros Hl. revert i. induction Hl as [|x l Hx Hl IH]; intros [|i]; cbn [drop]; [done..|].
  rewrite prodn_cons. specialize (IH i). nia.
Qed.

Lemma stride_of_spec dims i :
  Forall (lt 0) dims → (Z.of_nat (prodn dims) < 2 ^ 64)%Z →
  stride_of (Z.of_nat <$> dims) i = Ok (prodn (drop (S i) dims)).
Proof.
  intros Hpos Hbig. unfold stride_of. rewrite foldM_range_aget.
  pose proof (prodn_drop_le dims (S i) Hpos) as Hle.
  rewrite <- fmap_drop. apply (Forall_drop _ (S i)) in Hpos.
  generalize dependent (drop (S i) dims). intros l Hpos Hle.
  rewrite <- (Nat.mul_1_l (prodn l)). rewrite <- (Nat.mul_1_l (prodn l)) in Hle.
  assert (0 < 1) as Hacc by lia. revert Hacc Hle. generalize 1 as acc.
  induction Hpos as [|x l Hx Hl IH]; intros acc Hacc Hle.
  - cbn. by rewrite Nat.mul_1_r.
  - cbn [fmap list_fmap foldM]. rewrite Z.gtb_ltb, (proj2 (Z.ltb_lt _ _)) by lia.
    cbn [return_if_not rbind]. rewrite prodn_cons in Hle. pose proof (prodn_pos _ Hl).
    rewrite Nat2Z.id, wrap64_id by nia.
    rewrite IH by nia. f_equal. rewrite prodn_cons. lia.
Qed.

(** Row-major position in five dimensions. *)
Definition pos5 (n1 n2 n3 n4 i0 i1 i2 i3 i4 : nat) : nat :=
  (((i0 * n1 + i1) * n2 + i2) * n3 + i3) * n4 + i4.

Lemma radix_lt n m i j : i < n → j < m → i * m + j < n * m.
Proof. nia. Qed.

Lemma pos5_lt n0 n1 n2 n3 n4 i0 i1 i2 i3 i4 :
  i0 < n0 → i1 < n1 → i2 < n2 → i3 < n3 → i4 < n4 →
  pos5 n1 n2 n3 n4 i0 i1 i2 i3 i4 < n0 * n1 * n2 * n3 * n4.
Proof. intros. unfold pos5. by repeat apply radix_lt. Qed.

Lemma pos5_inj n1 n2 n3 n4 i0 i1 i2 i3 i4 j0 j1 j2 j3 j4 :
  i1 < n1 → i2 < n2 → i3 < n3 → i4 < n4 → j1 < n1 → j2 < n2 → j3 < n3 → j4 < n4 →
  pos5 n1 n2 n3 n4 i0 i1 i2 i3 i4 = pos5 n1 n2 n3 n4 j0 j1 j2 j3 j4 →
  i0 = j0 ∧ i1 = j1 ∧ i2 = j2 ∧ i3 = j3 ∧ i4 = j4.
Proof.
  intros H1 H2 H3 H4 K1 K2 K3 K4 E. unfold pos5 in E.
  apply mixed_radix in E as [E ->]; [|done..]. apply mixed_radix in E as [E ->]; [|done..].
  apply mixed_radix in E as [E ->]; [|done..]. by apply mixed_radix in E as [-> ->].
Qed.

(** ** Rank five

    An input of shape [[a; b; h; w; d]] whose destination position is [dst]. *)
Section RankFive.
Variables (a b h w d es : nat) (perm inv strides : list nat) (inp out : list Z).
Variable dst : nat → nat → nat → nat → nat → nat.
Hypothesis Hes : 0 < es.
Hypothesis Hpos : Forall (lt 0) [a; b; h; w; d].
Hypothesis Hin : length inp = a * b * h * w * d * es.
Hypothesis Hout : length out = length inp.
Hypothesis Hbig : (Z.of_nat (length inp) < 2 ^ 64)%Z.
Hypothesis Hstrides :
  GetTransposeStrides (Z.of_nat <$> [a; b; h; w; d]) perm (replicate 5 0) (replicate 5 0) =
    Ok ([b * (h * (w * (d * 1))); h * (w * (d * 1)); w * (d * 1); d * 1; 1], strides).
Hypothesis Hinv : InvertPerm perm (replicate (length perm) 0) = Ok inv.
Hypothesis Hdst : ∀ i0 i1 i2 i3 i4,
  foldM (fun acc k =>
    let* i := aget [i0; i1; i2; i3; i4] k in
    let* p := aget inv k in
    let* s := aget strides p in Ok (acc + i * s)) (seq 0 5) 0 = Ok (dst i0 i1 i2 i3 i4).
Hypothesis Hdst_lt : ∀ i0 i1 i2 i3 i4, i0 < a → i1 < b → i2 < h → i3 < w → i4 < d →
  dst i0 i1 i2 i3 i4 < a * b * h * w * d.
Hypothesis Hdst_inj : ∀ i0 i1 i2 i3 i4 j0 j1 j2 j3 j4,
  i0 < a → i1 < b → i2 < h → i3 < w → i4 < d → j0 < a → j1 < b → j2 < h → j3 < w → j4 < d →
  dst i0 i1 i2 i3 i4 = dst j0 j1 j2 j3 j4 →
  i0 = j0 ∧ i1 = j1 ∧ i2 = j2 ∧ i3 = j3 ∧ i4 = j4.

Definition moved (out' : list Z) : Prop :=
  length out' = length inp ∧
  ∀ i0 i1 i2 i3 i4 k, i0 < a → i1 < b → i2 < h → i3 < w → i4 < d → k < es →
    out' !! (dst i0 i1 i2 i3 i4 * es + k) = inp !! (pos5 b h w d i0 i1 i2 i3 i4 * es + k).

Definition indices : list (nat * nat * nat * nat * nat) :=
  nest (nest (nest (nest (seq 0 a) (fun _ => seq 0 b)) (fun _ => seq 0 h)) (fun _ => seq 0 w))
    (fun _ => seq 0 d).

Lemma elem_of_indices i0 i1 i2 i3 i4 :
  (i0, i1, i2, i3, i4) ∈ indices ↔ i0 < a ∧ i1 < b ∧ i2 < h ∧ i3 < w ∧ i4 < d.
Proof. unfold indices. rewrite !elem_of_nest, !elem_of_seq. lia. Qed.

Lemma rank5_copy_spec o i0 i1 i2 i3 i4 :
  i0 < a → i1 < b → i2 < h → i3 < w → i4 < d →
  rank5_copy es [b * (h * (w * (d * 1))); h * (w * (d * 1)); w * (d * 1); d * 1; 1] strides inv inp o
    [i0; i1; i2; i3; i4] =
  memcpy inp o (dst i0 i1 i2 i3 i4 * es) (pos5 b h w d i0 i1 i2 i3 i4 * es) es.
Proof.
  intros H0 H1 H2 H3 H4. unfold rank5_copy.
  assert (foldM (fun acc k => let* x := aget [i0; i1; i2; i3; i4] k in
      let* s := aget [b * (h * (w * (d * 1))); h * (w * (d * 1)); w * (d * 1); d * 1; 1] k in
      Ok (acc + x * s)) (seq 0 5) 0 = Ok (pos5 b h w d i0 i1 i2 i3 i4)) as ->.
  { cbn. f_equal. unfold pos5. ring. }
  cbn [rbind]. rewrite Hdst. cbn [rbind].
  pose proof (Hdst_lt _ _ _ _ _ H0 H1 H2 H3 H4).
  pose proof (pos5_lt _ _ _ _ _ _ _ _ _ _ H0 H1 H2 H3 H4).
  assert (dst i0 i1 i2 i3 i4 * es ≤ length inp ∧ pos5 b h w d i0 i1 i2 i3 i4 * es ≤ length inp) as [? ?].
  { rewrite Hin. split; apply Nat.mul_le_mono_r; lia. }
  by rewrite !wrap64_id by lia.
Qed.

Lemma TransposeDataRank5_spec :
  ∃ out', TransposeDataRank5 (Z.of_nat <$> [a; b; h; w; d]) perm es inp out = Ok out' ∧ moved out'.
Proof.
  pose (g := fun t : nat * nat * nat * nat * nat =>
    let '(i0, i1, i2, i3, i4) := t in (dst i0 i1 i2 i3 i4, pos5 b h w d i0 i1 i2 i3 i4)).
  assert (∀ x y, (x, y) ∈ g <$> indices ↔ ∃ i0 i1 i2 i3 i4,
    i0 < a ∧ i1 < b ∧ i2 < h ∧ i3 < w ∧ i4 < d ∧
    x = dst i0 i1 i2 i3 i4 ∧ y = pos5 b h w d i0 i1 i2 i3 i4) as Hg.
  { intros x y. rewrite list_elem_of_fmap. split.
    - intros ([[[[i0 i1] i2] i3] i4] & [= -> ->] & H). apply elem_of_indices in H.
      exists i0, i1, i2, i3, i4. tauto.
    - intros (i0 & i1 & i2 & i3 & i4 & ? & ? & ? & ? & ? & -> & ->).
      exists (i0, i1, i2, i3, i4). split; [done|]. by apply elem_of_indices. }
  destruct (copy_elems_spec inp es (g <$> indices) out Hes) as (out' & Hrun & Hlen & Hv).
  - intros x y Hxy. apply Hg in Hxy as (i0 & i1 & i2 & i3 & i4 & H0 & H1 & H2 & H3 & H4 & -> & ->).
    rewrite Hout, Hin. split; apply Nat.mul_le_mono_r.
    + pose proof (Hdst_lt _ _ _ _ _ H0 H1 H2 H3 H4). lia.
    + pose proof (pos5_lt _ _ _ _ _ _ _ _ _ _ H0 H1 H2 H3 H4). lia.
  - intros x y y' Hy Hy'.
    apply Hg in Hy as (i0 & i1 & i2 & i3 & i4 & ? & ? & ? & ? & ? & -> & ->).
    apply Hg in Hy' as (j0 & j1 & j2 & j3 & j4 & ? & ? & ? & ? & ? & E & ->).
    by apply Hdst_inj in E as (-> & -> & -> & -> & ->).
  - exists out'. split.
    + unfold TransposeDataRank5. rewrite length_fmap. cbn [length Nat.eqb return_if_not rbind].
      rewrite Hstrides. cbn [rbind]. rewrite Hinv. cbn [rbind].
      cbn [fmap list_fmap aget lookup list_lookup rbind]. rewrite !Nat2Z.id.
      rewrite <- Hrun, <- foldM_fmap. unfold indices.
      set (cp := rank5_copy _ _ _ _ _).
      rewrite (foldM_nest (fun o i0 i1 => foldM (fun o i2 => foldM (fun o i3 => foldM (fun o i4 =>
        cp o [i0; i1; i2; i3; i4]) (seq 0 d) o) (seq 0 w) o) (seq 0 h) o) (fun _ => seq 0 b)).
      rewrite (foldM_nest (fun o t i2 => foldM (fun o i3 => foldM (fun o i4 =>
        cp o [t.1; t.2; i2; i3; i4]) (seq 0 d) o) (seq 0 w) o) (fun _ => seq 0 h)).
      rewrite (foldM_nest (fun o t i3 => foldM (fun o i4 =>
        cp o [t.1.1; t.1.2; t.2; i3; i4]) (seq 0 d) o) (fun _ => seq 0 w)).
      rewrite (foldM_nest (fun o t i4 => cp o [t.1.1.1; t.1.1.2; t.1.2; t.2; i4]) (fun _ => seq 0 d)).
      apply foldM_ext. intros o [[[[i0 i1] i2] i3] i4] Ht. apply elem_of_indices in Ht as (? & ? & ? & ? & ?).
      unfold g. cbn [fst snd]. by apply rank5_copy_spec.
    + split; [lia|]. intros i0 i1 i2 i3 i4 k ? ? ? ? ? Hk. apply Hv; [|done].
      apply Hg. exists i0, i1, i2, i3, i4. tauto.
Qed.
End RankFive.

(** ** Convolution weights *)

Definition shape5 (a b h w d : nat) : list Z := Z.of_nat <$> [a; b; h; w; d].

Lemma GetTransposeStrides_5 a b h w d p0 p1 p2 p3 p4 (out : list nat) :
  Forall (lt 0) [a; b; h; w; d] → (Z.of_nat (a * b * h * w * d) < 2 ^ 64)%Z →
  is_perm [p0; p1; p2; p3; p4] → permuted [a; b; h; w; d] [p0; p1; p2; p3; p4] = out →
  prodn out = a * b * h * w * d →
  GetTransposeStrides (shape5 a b h w d) [p0; p1; p2; p3; p4] (replicate 5 0) (replicate 5 0) =
    Ok ((fun i => prodn (drop (S i) [a; b; h; w; d])) <$> seq 0 5,
        (fun i => prodn (drop (S i) out)) <$> seq 0 5).
Proof.
  intros Hpos Hbig Hp Ho Hprod. unfold GetTransposeStrides, shape5.
  rewrite length_fmap. cbn [length Nat.eqb return_if_not rbind replicate].
  assert (∀ p, p ∈ [p0; p1; p2; p3; p4] → p < 5) as Hlt.
  { intros p Hin. apply list_elem_of_lookup in Hin as [i Hi].
    by apply (is_perm_lt [p0; p1; p2; p3; p4] i p). }
  rewrite PermuteShape_spec; [|done..|by rewrite length_fmap].
  rewrite permuted_fmap, Ho.
  cbn [rbind]. destruct (permuted_lookup [a; b; h; w; d] [p0; p1; p2; p3; p4] Hlt) as [Hlo Hlk].
  rewrite Ho in Hlo, Hlk. cbn [length] in Hlo.
  assert (Forall (lt 0) out) as Hpos'.
  { apply Forall_lookup_2. intros i x Hx.
    destruct (lookup_lt_is_Some_2 [p0; p1; p2; p3; p4] i) as [p Hpi];
      [apply lookup_lt_Some in Hx; cbn; lia|].
    rewrite (Hlk _ _ Hpi) in Hx. by eapply (Forall_lookup_1 _ _ _ _ Hpos). }
  pose proof (fun l l' H1 H2 => fill_all (stride_of (Z.of_nat <$> l)) l' (replicate 5 0) H1 H2) as Hfill.
  specialize (Hfill [a; b; h; w; d] ((fun i => prodn (drop (S i) [a; b; h; w; d])) <$> seq 0 5)) as Hf1.
  specialize (Hfill out ((fun i => prodn (drop (S i) out)) <$> seq 0 5)) as Hf2.
  rewrite length_fmap, length_seq in Hf1, Hf2. cbn [replicate] in Hf1, Hf2.
  rewrite Hf1; [|done|]. 1: cbn [rbind]; rewrite Hf2; [done|done|].
  - intros i x Hx. apply list_lookup_fmap_Some in Hx as (j & -> & Hj).
    apply lookup_seq in Hj as [-> _]. apply stride_of_spec; [done|]. rewrite Hprod. done.
  - intros i x Hx. apply list_lookup_fmap_Some in Hx as (j & -> & Hj).
    apply lookup_seq in Hj as [-> _]. apply stride_of_spec; [done|].
    cbn [prodn foldr]. rewrite !Nat.mul_assoc, Nat.mul_1_r. done.
Qed.

Lemma Nchw_rank5 n c h w d es inp out :
  0 < es → Forall (lt 0) [n; c; h; w; d] →
  length inp = n * c * h * w * d * es → length out = length inp →
  (Z.of_nat (length inp) < 2 ^ 64)%Z →
  ∃ out', TransposeDataRank5 (shape5 n c h w d) nchw2hwcn_perm_3d es inp out = Ok out' ∧
    length out' = length inp ∧
    ∀ i0 i1 i2 i3 i4 k, i0 < n → i1 < c → i2 < h → i3 < w → i4 < d → k < es →
      out' !! (pos5 w d c n i2 i3 i4 i1 i0 * es + k) = inp !! (pos5 c h w d i0 i1 i2 i3 i4 * es + k).
Proof.
  intros Hes Hpos Hin Hout Hbig.
  apply (TransposeDataRank5_spec n c h w d es nchw2hwcn_perm_3d [4; 3; 0; 1; 2]
    ((fun i => prodn (drop (S i) [h; w; d; c; n])) <$> seq 0 5) inp out
    (fun i0 i1 i2 i3 i4 => pos5 w d c n i2 i3 i4 i1 i0)); try done.
  - apply (GetTransposeStrides_5 n c h w d 2 3 4 1 0 [h; w; d; c; n]); [done| | |done|].
    + rewrite Hin in Hbig. nia.
    + apply (bool_decide_unpack _). by vm_compute.
    + cbn [prodn foldr]. ring.
  - intros. cbn [seq fmap list_fmap drop prodn foldr]. cbn -[Nat.mul Nat.add]. f_equal. unfold pos5. ring.
  - intros i0 i1 i2 i3 i4 ? ? ? ? ?.
    replace (n * c * h * w * d) with (h * w * d * c * n) by ring. by apply pos5_lt.
  - intros i0 i1 i2 i3 i4 j0 j1 j2 j3 j4 ? ? ? ? ? ? ? ? ? ? E.
    apply pos5_inj in E; naive_solver.
Qed.

Lemma Cnhw_rank5 c n h w d es inp out :
  0 < es → Forall (lt 0) [c; n; h; w; d] →
  length inp = c * n * h * w * d * es → length out = length inp →
  (Z.of_nat (length inp) < 2 ^ 64)%Z →
  ∃ out', TransposeDataRank5 (shape5 c n h w d) cnhw2hwcn_perm_3d es inp out = Ok out' ∧
    length out' = length inp ∧
    ∀ i0 i1 i2 i3 i4 k, i0 < c → i1 < n → i2 < h → i3 < w → i4 < d → k < es →
      out' !! (pos5 w d c n i2 i3 i4 i0 i1 * es + k) = inp !! (pos5 n h w d i0 i1 i2 i3 i4 * es + k).
Proof.
  intros Hes Hpos Hin Hout Hbig.
  apply (TransposeDataRank5_spec c n h w d es cnhw2hwcn_perm_3d [3; 4; 0; 1; 2]
    ((fun i => prodn (drop (S i) [h; w; d; c; n])) <$> seq 0 5) inp out
    (fun i0 i1 i2 i3 i4 => pos5 w d c n i2 i3 i4 i0 i1)); try done.
  - apply (GetTransposeStrides_5 c n h w d 2 3 4 0 1 [h; w; d; c; n]); [done| | |done|].
    + rewrite Hin in Hbig. nia.
    + apply (bool_decide_unpack _). by vm_compute.
    + cbn [prodn foldr]. ring.
  - intros. cbn [seq fmap list_fmap drop prodn foldr]. cbn -[Nat.mul Nat.add]. f_equal. unfold pos5. ring.
  - intros i0 i1 i2 i3 i4 ? ? ? ? ?.
    replace (c * n * h * w * d) with (h * w * d * c * n) by ring. by apply pos5_lt.
  - intros i0 i1 i2 i3 i4 j0 j1 j2 j3 j4 ? ? ? ? ? ? ? ? ? ? E.
    apply pos5_inj in E; naive_solver.
Qed.

(** ** Properties *)

(** [TwoDimensionTranspose] puts element [(row, col)] at [(col, row)], byte for byte,
    for every element size - the tiled loops of the common sizes and the plain loop of
    the others alike - and transposing the result again gives the input back. *)
Theorem two_dimension_transpose (rows cols es : nat) (input output buf : list Z) :
  0 < es → (Z.of_nat (rows * cols * es) < 2 ^ 64)%Z →
  length input = rows * cols * es → length output = rows * cols * es →
  length buf = rows * cols * es →
  ∃ out, TwoDimensionTranspose rows cols es input output = Ok out ∧
    length out = rows * cols * es ∧
    (∀ r c b, r < rows → c < cols → b < es →
       out !! ((c * rows + r) * es + b) = input !! ((r * cols + c) * es + b)) ∧
    TwoDimensionTranspose cols rows es out buf = Ok input.
Proof.
  intros Hes Hbig Hi Ho Hb.
  destruct (TwoDimensionTranspose_spec rows cols es input output Hes Hbig Hi Ho) as (out & Hrun & Hl & Hv).
  assert (cols * rows * es = rows * cols * es) as E by ring.
  destruct (TwoDimensionTranspose_spec cols rows es out buf Hes) as (back & Hrun' & Hl' & Hv');
    rewrite ?E; [done..|].
  exists out. split_and!; [done|done|done|]. rewrite Hrun'. f_equal.
  rewrite E in Hl'. apply list_eq_same_length with (rows * cols * es); [done|done|].
  intros i x y Hlt Hx Hy.
  assert (∃ r c b, r < rows ∧ c < cols ∧ b < es ∧ i = (r * cols + c) * es + b)
    as (r & c & b & Hr & Hc & Hb' & ->).
  { assert (i / es < rows * cols) by (apply Nat.Div0.div_lt_upper_bound; lia).
    assert (cols ≠ 0) by (intros ->; lia).
    exists (i / es / cols), ((i / es) mod cols), (i mod es).
    pose proof (Nat.div_mod_eq i es). pose proof (Nat.div_mod_eq (i / es) cols).
    pose proof (Nat.mod_upper_bound i es). pose proof (Nat.mod_upper_bound (i / es) cols).
    split_and!; [apply Nat.Div0.div_lt_upper_bound; lia|lia|lia|nia]. }
  rewrite (Hv' c r b), (Hv r c b) in Hx by done. congruence.
Qed.

Lemma two_dimension_transpose_witness :
  ∃ out, TwoDimensionTranspose 2 3 1 [1; 2; 3; 4; 5; 6]%Z [0; 0; 0; 0; 0; 0]%Z = Ok out ∧
    length out = 2 * 3 * 1 ∧
    (∀ r c b, r < 2 → c < 3 → b < 1 →
       out !! ((c * 2 + r) * 1 + b) = [1; 2; 3; 4; 5; 6]%Z !! ((r * 3 + c) * 1 + b)) ∧
    TwoDimensionTranspose 3 2 1 out [9; 9; 9; 9; 9; 9]%Z = Ok [1; 2; 3; 4; 5; 6]%Z.
Proof.
  apply (two_dimension_transpose 2 3 1 [1; 2; 3; 4; 5; 6]%Z [0; 0; 0; 0; 0; 0]%Z [9; 9; 9; 9; 9; 9]%Z);
    [lia|cbn; lia|reflexivity|reflexivity|reflexivity].
Defined.

(** Converting convolution weights from NCHW or from CNHW to HWCN moves every element
    to its place in the new layout, for 2-D weights (rank 4) and 3-D weights (rank 5),
    and the shape helpers compute the shape of that layout. *)
Theorem conv_weights_to_hwcn (n c h w d es : nat) (inp out : list Z) (is_3d : bool) :
  0 < es → Forall (lt 0) [n; c; h; w; d] → (is_3d = false → d = 1) →
  length inp = n * c * h * w * d * es → length out = length inp →
  (Z.of_nat (length inp) < 2 ^ 64)%Z →
  let tail := if is_3d then [d] else [] in
  (∃ out' shape, TransposeFromNchwToHwcn (Z.of_nat <$> ([n; c; h; w] ++ tail)) es inp out is_3d = Ok out' ∧
     length out' = length inp ∧
     (∀ i0 i1 i2 i3 i4 k, i0 < n → i1 < c → i2 < h → i3 < w → i4 < d → k < es →
        out' !! (pos5 w d c n i2 i3 i4 i1 i0 * es + k) = inp !! (pos5 c h w d i0 i1 i2 i3 i4 * es + k)) ∧
     NchwShapeToHwcn ([n; c; h; w] ++ tail) (replicate (length ([n; c; h; w] ++ tail)) 0) = Ok shape ∧
     shape = [h; w] ++ tail ++ [c; n]) ∧
  (∃ out' shape, TransposeFromCnhwToHwcn (Z.of_nat <$> ([c; n; h; w] ++ tail)) es inp out is_3d = Ok out' ∧
     length out' = length inp ∧
     (∀ i0 i1 i2 i3 i4 k, i0 < c → i1 < n → i2 < h → i3 < w → i4 < d → k < es →
        out' !! (pos5 w d c n i2 i3 i4 i0 i1 * es + k) = inp !! (pos5 n h w d i0 i1 i2 i3 i4 * es + k)) ∧
     CnhwShapeToHwcn ([c; n; h; w] ++ tail) (replicate (length ([c; n; h; w] ++ tail)) 0) = Ok shape ∧
     shape = [h; w] ++ tail ++ [c; n]).
Proof.
  intros Hes Hpos Hd Hin Hout Hbig tail. split.
  - destruct (Nchw_rank5 n c h w d es inp out) as (out' & Hrun & Hl & Hv); [done..|].
    exists out', ([h; w] ++ tail ++ [c; n]). split; [|split; [done|split; [done|]]].
    + rewrite <- Hrun. unfold TransposeFromNchwToHwcn, TransposeToHwcn. rewrite Hout, Nat.eqb_refl.
      rewrite (proj2 (Nat.eqb_neq es 0)) by lia. unfold tail.
      destruct is_3d; [done|]. by rewrite (Hd eq_refl).
    + unfold tail. by destruct is_3d.
  - destruct (Cnhw_rank5 c n h w d es inp out) as (out' & Hrun & Hl & Hv);
      [done| |by rewrite Hin; ring|done..|].
    { inversion_clear Hpos as [|? ? Hn H1]. inversion_clear H1 as [|? ? Hc H2]. by do 2 (constructor; [done|]). }
    exists out', ([h; w] ++ tail ++ [c; n]). split; [|split; [done|split; [done|]]].
    + rewrite <- Hrun. unfold TransposeFromCnhwToHwcn, TransposeToHwcn. rewrite Hout, Nat.eqb_refl.
      rewrite (proj2 (Nat.eqb_neq es 0)) by lia. unfold tail.
      destruct is_3d; [done|]. by rewrite (Hd eq_refl).
    + unfold tail. by destruct is_3d.
Qed.

Lemma conv_weights_to_hwcn_witness :
  ∃ out' shape,
    TransposeFromNchwToHwcn (Z.of_nat <$> ([2; 1; 1; 2] ++ [])) 1 [10; 11; 20; 21]%Z [0; 0; 0; 0]%Z false = Ok out' ∧
    length out' = 4 ∧
    (∀ i0 i1 i2 i3 i4 k, i0 < 2 → i1 < 1 → i2 < 1 → i3 < 2 → i4 < 1 → k < 1 →
       out' !! (pos5 2 1 1 2 i2 i3 i4 i1 i0 * 1 + k) =
         [10; 11; 20; 21]%Z !! (pos5 1 1 2 1 i0 i1 i2 i3 i4 * 1 + k)) ∧
    NchwShapeToHwcn ([2; 1; 1; 2] ++ []) (replicate (length ([2; 1; 1; 2] ++ [])) 0) = Ok shape ∧
    shape = [1; 2] ++ [] ++ [1; 2].
Proof.
  apply (conv_weights_to_hwcn 2 1 1 2 1 1 [10; 11; 20; 21]%Z [0; 0; 0; 0]%Z false);
    [lia|repeat constructor; lia|reflexivity|reflexivity|reflexivity|cbn; lia].
Defined.
