(* ===== verification/Layout.v ===== *)
(** * Fusions of Reshape and Transpose nodes

    The computations of five fusions of [builder/qnn_node_group] that replace chains of Reshape
    and Transpose nodes: [Rank5ToRank4Fusion] ([reshape_transpose_rank5_to_rank4.cc]),
    [Rank6ToRank5Fusion] ([reshape_transpose_rank5.cc]), [TransposeReshapeTransposeFusion],
    [ReshapeTransposeFusion] and [ChannelShuffleFusion], with the helpers of [utils.h]; and the
    proof that the nodes they emit move every element to where the replaced chain moves it.

    A tensor is its elements in row-major order; a Reshape keeps the positions, and a Transpose
    moves the element at the position of a multi-index to the position of the permuted
    multi-index.  Products of dimensions of [int64_t] are exact: a tensor with more elements
    does not exist. *)

From Stdlib Require Import Sorted.
From S2P Require Import Prelude DataTypes QuantParams Perm.
Local Open Scope Z_scope.

(** Reading a vector at a [size_t] that is made from an [int64_t]. *)
Definition zget {A} (l : list A) (i : Z) : result A :=
  if (0 <=? i) && (i <? Z.of_nat (length l)) then aget l (Z.to_nat i) else Err Trap.

(** ** [Rank5ToRank4Fusion] *)

Fixpoint find_adjacent (p : nat) (perm : list Z) : option nat :=
  match perm with
  | a :: (b :: _) as perm' => if b =? a + 1 then Some p else find_adjacent (S p) perm'
  | _ => None
  end.
Definition FindAdjacentMergeIndex (perm_rank5 : list Z) : option nat := find_adjacent 0 perm_rank5.

Fixpoint valid_entries (seen perm : list Z) : bool :=
  match perm with
  | [] => true
  | v :: perm => negb ((v <? 0) || (5 <=? v) || bool_decide (v ∈ seen)) && valid_entries (v :: seen) perm
  end.
Definition IsValidRank5Perm (perm : list Z) : bool := (length perm =? 5)%nat && valid_entries [] perm.

(** The shape with the dimensions at [a] and [b] merged, in [uint32_t]. *)
Definition merge_dims (dims : list Z) (a b : Z) : result (list Z) :=
  foldM (fun acc i =>
    let* d := aget dims i in
    if Z.of_nat i =? a then
      let* e := aget dims (S i) in
      if d * e <? 2 ^ 32 then Ok (acc ++ [d * e]) else Err (EpFail "Merged dim overflows uint32_t")
    else if Z.of_nat i =? b then Ok acc
    else Ok (acc ++ [d])) (seq 0 (length dims)) [].

Definition shift_down (b v : Z) : Z := if b <? v then v - 1 else v.

(** The permutation without the entry at [k], with the values above [b] one lower. *)
Definition drop_entry (perm : list Z) (k : nat) (b : Z) : list Z := shift_down b <$> (take k perm ++ drop (S k) perm).

Definition apply_perm (dims perm : list Z) : result (list Z) :=
  foldM (fun acc p => if Z.of_nat (length dims) <=? p then Err (EpFail "Invalid rank-4 perm")
                      else let* d := zget dims p in Ok (acc ++ [d])) perm [].

(** The rank-4 shapes of the first Reshape and the Transpose, and the permutation. *)
Definition Rank4_params (t1_rank5_dims t2_rank5_dims perm_rank5 : list Z) (merge_perm_index : nat)
  : result (list Z * list Z * list Z) :=
  if negb ((length t1_rank5_dims =? 5)%nat && (length t2_rank5_dims =? 5)%nat)
  then Err (EpFail "Expected rank-5 intermediate shapes")
  else if negb (IsValidRank5Perm perm_rank5) || (5 <=? S merge_perm_index)%nat
  then Err (EpFail "Invalid rank-5 perm or merge index")
  else
  let* a := aget perm_rank5 merge_perm_index in
  let* b := aget perm_rank5 (S merge_perm_index) in
  if negb (b =? a + 1) || (a <? 0) || (5 <=? b) then Err (EpFail "Invalid rank-5 merge indices")
  else
  let* t1_rank4_dims := merge_dims t1_rank5_dims a b in
  let perm_rank4 := drop_entry perm_rank5 (S merge_perm_index) b in
  if negb ((length t1_rank4_dims =? 4)%nat && (length perm_rank4 =? 4)%nat)
  then Err (EpFail "Invalid rank-4 fusion shapes")
  else
  let* t2_rank4_dims := apply_perm t1_rank4_dims perm_rank4 in
  Ok (t1_rank4_dims, t2_rank4_dims, perm_rank4).

(** ** [Rank6ToRank5Fusion] *)

Inductive Reduction : Set := Squeeze (index : nat) | MergeLeading.

(** The first unit dimension that the Transpose leaves in place. *)
Fixpoint find_fixed_unit (i : nat) (t1_dims t2_dims perm : list Z) : option nat :=
  match t1_dims, t2_dims, perm with
  | a :: t1_dims, b :: t2_dims, p :: perm =>
      if (a =? 1) && (b =? 1) && (p =? Z.of_nat i) then Some i else find_fixed_unit (S i) t1_dims t2_dims perm
  | _, _, _ => None
  end.

(** From the shapes on, of [ValidatePatternConditions]. *)
Definition rank6_reduction (t1_dims t2_dims perm : list Z) : option Reduction :=
  if negb ((length t1_dims =? 6)%nat && (length t2_dims =? 6)%nat) then None
  else if negb (length perm =? 6)%nat then None
  else
  match find_fixed_unit 0 t1_dims t2_dims perm with
  | Some i => Some (Squeeze i)
  | None =>
      match perm with
      | p0 :: p1 :: _ => if (p0 =? 0) && (p1 =? 1) then Some MergeLeading else None
      | _ => None
      end
  end.

Definition Rank5_params (t1_dims t2_dims perm : list Z) (reduction : Reduction) : result (list Z * list Z * list Z) :=
  if negb ((length t1_dims =? 6)%nat && (length t2_dims =? 6)%nat) then Err (EpFail "Expected rank-6 intermediate tensors")
  else if negb (length perm =? 6)%nat then Err (EpFail "Expected rank-6 permutation")
  else
  match reduction with
  | MergeLeading =>
      let* a0 := aget t1_dims 0 in
      let* a1 := aget t1_dims 1 in
      let* b0 := aget t2_dims 0 in
      let* b1 := aget t2_dims 1 in
      if (2 ^ 32 - 1 <? a0 * a1) || (2 ^ 32 - 1 <? b0 * b1) then Err (EpFail "Merged dimension overflows uint32")
      else Ok (a0 * a1 :: drop 2 t1_dims, b0 * b1 :: drop 2 t2_dims, 0 :: ((fun p => u32 (p - 1)) <$> drop 2 perm))
  | Squeeze i =>
      Ok (take i t1_dims ++ drop (S i) t1_dims, take i t2_dims ++ drop (S i) t2_dims,
          u32 <$> drop_entry perm i (Z.of_nat i))
  end.

(** ** [TransposeReshapeTransposeFusion] *)

(** The dimensions [idx], [idx + 1], ... of [rest] up to the size [target]. *)
Fixpoint absorb_dims (target accumulated_size : Z) (idx : nat) (rest : list Z) : list nat * Z * nat * list Z :=
  match rest with
  | d :: rest' =>
      if accumulated_size <? target then
        let '(group, acc, idx', rest'') := absorb_dims target (accumulated_size * d) (S idx) rest' in
        (idx :: group, acc, idx', rest'')
      else ([], accumulated_size, idx, rest)
  | [] => ([], accumulated_size, idx, rest)
  end.

Fixpoint reshape_mapping (idx : nat) (rest reshape_shape : list Z) : option (list (list nat)) :=
  match reshape_shape with
  | [] => Some []
  | target_size :: reshape_shape =>
      let '(group, accumulated_size, idx, rest) := absorb_dims target_size 1 idx rest in
      if negb (accumulated_size =? target_size) then None
      else
      match group, rest with
      | [], d :: rest => if negb (d =? 1) then None else cons [idx] <$> reshape_mapping (S idx) rest reshape_shape
      | [], [] => None
      | _, _ => cons group <$> reshape_mapping idx rest reshape_shape
      end
  end.

(** [map] with [push_back]; the first failing access stops it. *)
Fixpoint mapM_r {A B} (f : A → result B) (l : list A) : result (list B) :=
  match l with
  | [] => Ok []
  | a :: l => let* b := f a in let* bs := mapM_r f l in Ok (b :: bs)
  end.

Definition final_mapping (mapping : list (list nat)) (perm1 perm2 : list Z) (output_rank : nat) : result (list (list Z)) :=
  mapM_r (fun i =>
    let* src_idx := aget perm2 i in
    let* group := zget mapping src_idx in
    mapM_r (aget perm1) group) (seq 0 output_rank).

Definition CanFuseToReshape (input_shape perm1 intermediate_shape reshape_shape perm2 output_shape : list Z)
  : result (option (list Z)) :=
  match reshape_mapping 0 intermediate_shape reshape_shape with
  | None => Ok None
  | Some mapping =>
      let* final := final_mapping mapping perm1 perm2 (length output_shape) in
      if negb (bool_decide (mjoin final = Z.of_nat <$> seq 0 (length (mjoin final)))) then Ok None
      else if negb (length (mjoin final) =? length input_shape)%nat then Ok None
      else
      let* fused_shape := mapM_r (fun group =>
        foldM (fun dim_size orig_dim => let* d := zget input_shape orig_dim in Ok (dim_size * d)) group 1) final in
      if bool_decide (fused_shape = output_shape) then Ok (Some fused_shape) else Ok None
  end.

(** ** [ReshapeTransposeFusion] *)

Definition IsReshapePermutable (input_shape output_shape : list Z) : bool :=
  (length input_shape =? length output_shape)%nat &&
  negb (existsb (fun d => d <? 0) input_shape || existsb (fun d => d <? 0) output_shape) &&
  bool_decide (filter (fun d => d ≠ 1) input_shape = filter (fun d => d ≠ 1) output_shape).

(** The first unused dimension of the given size. *)
Fixpoint first_unused (j : nat) (input_shape : list Z) (used : list nat) (target : Z) : option nat :=
  match input_shape with
  | [] => None
  | d :: input_shape =>
      if negb (bool_decide (j ∈ used)) && (d =? target) then Some j else first_unused (S j) input_shape used target
  end.

(** [perm] starts as -1 in every entry. *)
Fixpoint reshape_perm_from (input_shape output_shape : list Z) (used : list nat) : list Z :=
  match output_shape with
  | [] => []
  | target :: output_shape =>
      match first_unused 0 input_shape used target with
      | Some j => Z.of_nat j :: reshape_perm_from input_shape output_shape (j :: used)
      | None => -1 :: reshape_perm_from input_shape output_shape used
      end
  end.
Definition ComputeReshapePerm (input_shape output_shape : list Z) : list Z := reshape_perm_from input_shape output_shape [].

(** From the shapes and the [perm] attribute on. *)
Definition ComputeFusedPerm (input_shape output_shape transpose_perm : list Z) : result (option (list Z)) :=
  if negb (IsReshapePermutable input_shape output_shape) then Ok None
  else
  let reshape_perm := ComputeReshapePerm input_shape output_shape in
  let rank := length reshape_perm in
  let transpose_perm := match transpose_perm with
                        | [] => (fun i => Z.of_nat (rank - 1 - i)) <$> seq 0 rank
                        | _ => transpose_perm
                        end in
  if negb (length transpose_perm =? rank)%nat then Ok None
  else if existsb (fun t => (t <? 0) || (Z.of_nat rank <=? t)) transpose_perm then Ok None
  else let* fused := mapM_r (zget reshape_perm) transpose_perm in Ok (Some fused).

(** ** [ChannelShuffleFusion] *)

(** [InvertPerm] for [int64_t]: a negative entry is out of range as a [size_t]. *)
Definition IsCancelingTransposePermPair (perm1 perm2 : list Z) : bool :=
  (length perm1 =? length perm2)%nat && negb (existsb (fun p => p <? 0) perm1) &&
  match InvertPerm (Z.to_nat <$> perm1) (replicate (length perm1) 0%nat) with
  | Ok perm1_inverted => bool_decide (Z.of_nat <$> perm1_inverted = perm2)
  | Err _ => false
  end.

(** The shape with the batch dimension put back, and whether it was. *)
Definition NormalizeChannelShuffleIntermediateShape (input_dims reshape1_output_dims : list Z)
  : result (option (list Z * bool)) :=
  let in_rank := length input_dims in
  let out_rank := length reshape1_output_dims in
  if (out_rank =? S in_rank)%nat then Ok (Some (reshape1_output_dims, false))
  else if negb (out_rank =? in_rank)%nat then Ok None
  else let* d0 := aget input_dims 0 in
       if d0 =? 1 then Ok (Some (1 :: reshape1_output_dims, true)) else Ok None.

Record ChannelShuffleCoreInfo := CoreInfo { num_groups : Z; is_nhwc_decomp : bool }.

Definition zseq (i n : nat) : list Z := Z.of_nat <$> seq i n.
Definition nchw_perm (n : nat) : list Z := [0; 2; 1] ++ zseq 3 (n - 3).
Definition nhwc_to_nchw_perm (n : nat) : list Z := [0; Z.of_nat (n - 1); Z.of_nat (n - 2)] ++ zseq 1 (n - 3).

(** The part for one of the two permutations; the products wrap at 32 bits. *)
Definition nchw_core (input_shape intermediate_shape output_shape : list Z) : result (option ChannelShuffleCoreInfo) :=
  let* c := aget input_shape 1 in
  let* g := aget intermediate_shape 1 in
  let* k := aget intermediate_shape 2 in
  if negb (bool_decide (output_shape = input_shape)) || negb (c =? u32 (g * k)) ||
     negb (bool_decide (drop 2 input_shape = drop 3 intermediate_shape)) then Ok None
  else Ok (Some (CoreInfo g false)).

Definition nhwc_core (input_shape intermediate_shape output_shape : list Z) : result (option ChannelShuffleCoreInfo) :=
  let split_axis := (length intermediate_shape - 2)%nat in
  let* n := aget input_shape 0 in
  let* c := aget input_shape (length input_shape - 1) in
  let* g := aget intermediate_shape split_axis in
  let* k := aget intermediate_shape (S split_axis) in
  let spatial := take (length input_shape - 2) (drop 1 input_shape) in
  if negb (c =? u32 (g * k)) ||
     negb (bool_decide (spatial = take (length input_shape - 2) (drop 1 intermediate_shape))) ||
     negb (bool_decide (output_shape = n :: c :: spatial)) then Ok None
  else Ok (Some (CoreInfo g true)).

(** From the shapes and the [perm] attribute on. *)
Definition GetChannelShuffleCoreInfo (input_shape intermediate_shape output_shape perm : list Z)
  : result (option ChannelShuffleCoreInfo) :=
  if (length input_shape <? 3)%nat || negb (length output_shape =? length input_shape)%nat then Ok None
  else
  let* normalized := NormalizeChannelShuffleIntermediateShape input_shape intermediate_shape in
  match normalized with
  | None => Ok None
  | Some (intermediate_shape, was_collapsed) =>
      let* d0 := aget intermediate_shape 0 in
      let* i0 := aget input_shape 0 in
      if negb (length intermediate_shape =? S (length input_shape))%nat || negb (d0 =? i0) then Ok None
      else if was_collapsed && negb (S (length perm) =? length intermediate_shape)%nat then Ok None
      else
      let perm := if was_collapsed then 0 :: ((fun axis => axis + 1) <$> perm) else perm in
      if bool_decide (perm = nchw_perm (length intermediate_shape))
      then nchw_core input_shape intermediate_shape output_shape
      else if bool_decide (perm = nhwc_to_nchw_perm (length intermediate_shape))
      then nhwc_core input_shape intermediate_shape output_shape
      else Ok None
  end.

(** The conditions of [TryFusion] on the outer Transposes. *)
Definition head_tail_ok (perm_head perm_tail : list Z) : bool :=
  IsCancelingTransposePermPair perm_head perm_tail && negb (length perm_head <? 2)%nat &&
  match perm_head !! 1%nat with Some p => p =? Z.of_nat (length perm_head - 1) | None => false end.

(** The shape conditions of [TryFusion] and of [TryFusionFromReshape]: the groups of the ChannelShuffle. *)
Definition wrapped_groups (perm_head perm_tail input_shape intermediate_shape output_shape perm : list Z) : result (option Z) :=
  let* core_info := GetChannelShuffleCoreInfo input_shape intermediate_shape output_shape perm in
  match core_info with
  | None => Ok None
  | Some info =>
      if is_nhwc_decomp info then Ok None
      else if head_tail_ok perm_head perm_tail then Ok (Some (num_groups info)) else Ok None
  end.

Definition kNchwToNhwcPerm : list Z := [0; 2; 3; 1].
Definition bare_groups (input_shape intermediate_shape reshaped_shape perm tail_perm output_shape : list Z) : result (option Z) :=
  let* core_info := GetChannelShuffleCoreInfo input_shape intermediate_shape reshaped_shape perm in
  match core_info with
  | None => Ok None
  | Some info =>
      if negb (is_nhwc_decomp info) then Ok None
      else if negb (bool_decide (tail_perm = kNchwToNhwcPerm)) then Ok None
      else if (length input_shape <? 2)%nat || negb (bool_decide (input_shape = output_shape)) then Ok None
      else Ok (Some (num_groups info))
  end.

(** ** Positions *)

Definition to_nats (perm : list Z) : list nat := Z.to_nat <$> perm.

(** A multi-index of a tensor, with the dimensions. *)
Definition address (shape : list Z) (l : list (Z * Z)) : Prop := l.*1 = shape ∧ Forall in_bounds l.

(** A Transpose of a tensor of the given shape moves the element at position [p] to [q]. *)
Definition moves (shape : list Z) (perm : list nat) (p q : Z) : Prop :=
  ∃ l, address shape l ∧ p = flat l ∧ q = flat (permuted l perm).

Lemma flat_app l l' : flat (l ++ l') = flat l * prodZ l'.*1 + flat l'.
Proof.
  induction l as [|[d i] l IH]; [done|]. cbn [app flat]. rewrite IH, fmap_app, prodZ_app. lia.
Qed.

Lemma flat_cons d i l : flat ((d, i) :: l) = i * prodZ l.*1 + flat l.
Proof. done. Qed.

Lemma flat_bounds l : Forall in_bounds l → 0 ≤ flat l < prodZ l.*1.
Proof.
  induction l as [|[d i] l IH]; intros Hb; [cbn; lia|]. apply Forall_cons in Hb as [[Hi1 Hi2] Hb]. cbn in Hi1, Hi2.
  specialize (IH Hb). rewrite flat_cons, fmap_cons, prodZ_cons. cbn [fst].
  assert (i * prodZ l.*1 ≤ (d - 1) * prodZ l.*1) by (apply Z.mul_le_mono_nonneg_r; lia).
  assert (0 ≤ i * prodZ l.*1) by (apply Z.mul_nonneg_nonneg; lia). lia.
Qed.

(** Row-major positions determine the multi-index. *)
Lemma flat_inj shape l l' : address shape l → address shape l' → flat l = flat l' → l = l'.
Proof.
  revert l l'. induction shape as [|d shape IH]; intros [|[d1 i] l] [|[d2 i'] l'] [E Hb] [E' Hb'] H;
    try done. cbn in E, E'. injection E as -> E. injection E' as -> E'.
  apply Forall_cons in Hb as [[? ?] Hb], Hb' as [[? ?] Hb']. cbn in *.
  assert (i = i' ∧ flat l = flat l') as [-> Hf].
  { pose proof (flat_bounds l Hb). pose proof (flat_bounds l' Hb'). rewrite E, E' in *.
    apply (Z.div_mod_unique (prodZ shape)); lia. }
  f_equal. apply IH; [by split|by split|done].
Qed.

(** Two neighbouring dimensions as one. *)
Lemma flat_merge l l' d1 i1 d2 i2 : flat (l ++ (d1, i1) :: (d2, i2) :: l') = flat (l ++ (d1 * d2, i1 * d2 + i2) :: l').
Proof. rewrite !flat_app, !flat_cons, !fmap_cons. unfold prodZ. cbn. lia. Qed.

Lemma flat_unit l l' : flat (l ++ (1, 0) :: l') = flat (l ++ l').
Proof. rewrite !flat_app, flat_cons, !fmap_cons. unfold prodZ. cbn. lia. Qed.

(** ** Merging and dropping dimensions *)

Lemma permuted_app {A} (l : list A) p1 p2 : permuted l (p1 ++ p2) = permuted l p1 ++ permuted l p2.
Proof. apply omap_app. Qed.

Lemma permuted_ext {A} (l l' : list A) (f : nat → nat) ps : (∀ v, v ∈ ps → l' !! f v = l !! v) →
  permuted l' (f <$> ps) = permuted l ps.
Proof.
  intros H. unfold permuted. induction ps as [|v ps IH]; [done|]. rewrite fmap_cons. cbn [omap list_omap].
  rewrite (H v) by (by left). rewrite IH; [done|]. intros w Hw. apply H. by right.
Qed.

Definition lower (b v : nat) : nat := if (b <? v)%nat then (v - 1)%nat else v.

Lemma lower_merge {A} (x y : list A) u1 u2 w v : v ≠ length x → v ≠ S (length x) →
  (x ++ w :: y) !! lower (S (length x)) v = (x ++ u1 :: u2 :: y) !! v.
Proof.
  intros H1 H2. unfold lower. destruct (Nat.ltb_spec (S (length x)) v) as [Hv|Hv].
  - assert (v = length x + S (S (v - length x - 2)))%nat as E by lia. generalize dependent (v - length x - 2)%nat.
    intros k ->. rewrite !lookup_app_r by lia. replace (length x + S (S k) - 1 - length x)%nat with (S k) by lia.
    by rewrite Nat.add_comm, Nat.add_sub.
  - by rewrite !lookup_app_l by lia.
Qed.

Lemma lower_drop {A} (x y : list A) u v : v ≠ length x →
  (x ++ y) !! lower (length x) v = (x ++ u :: y) !! v.
Proof.
  intros H1. unfold lower. destruct (Nat.ltb_spec (length x) v) as [Hv|Hv].
  - rewrite !lookup_app_r by lia. by replace (v - length x)%nat with (S (v - 1 - length x)) by lia.
  - by rewrite !lookup_app_l by lia.
Qed.

Lemma address_app s1 s2 l : address (s1 ++ s2) l ↔ ∃ l1 l2, l = l1 ++ l2 ∧ address s1 l1 ∧ address s2 l2.
Proof.
  unfold address. split.
  - intros [E Hb]. apply fmap_app_inv in E as (l1 & l2 & -> & -> & ->). apply Forall_app in Hb as [? ?].
    exists l1, l2. done.
  - intros (l1 & l2 & -> & [<- ?] & [<- ?]). rewrite fmap_app. split; [done|]. by apply Forall_app.
Qed.

Lemma address_cons d s l : address (d :: s) l ↔ ∃ i l', l = (d, i) :: l' ∧ 0 ≤ i < d ∧ address s l'.
Proof.
  unfold address. split.
  - intros [E Hb]. destruct l as [|[d' i] l]; [done|]. injection E as -> <-.
    apply Forall_cons in Hb as [? ?]. exists i, l. done.
  - intros (i & l' & -> & Hi & <- & Hb). split; [done|]. by constructor.
Qed.

Lemma address_length s l : address s l → length l = length s.
Proof. intros [<- _]. by rewrite length_fmap. Qed.

Section Merge.
Context (x y : list Z) (d1 d2 : Z) (pre post : list nat).
Let a := length x.
Context (H1 : 0 ≤ d1) (H2 : 0 ≤ d2) (Hnd : NoDup (pre ++ a :: S a :: post)).

Lemma merged_address lx ly i1 i2 c : address x lx → c = i1 * d2 + i2 →
  let l := lx ++ (d1, i1) :: (d2, i2) :: ly in
  let l' := lx ++ (d1 * d2, c) :: ly in
  flat l = flat l' ∧ flat (permuted l (pre ++ a :: S a :: post)) = flat (permuted l' (lower (S a) <$> (pre ++ a :: post))).
Proof.
  intros Hx -> l l'. split; [apply flat_merge|].
  assert (length lx = a) as Hl by (by apply address_length).
  assert (∀ v, v ∈ pre ∨ v ∈ post → l' !! lower (S a) v = l !! v) as Hrest.
  { intros v Hv. unfold l, l'. rewrite <- Hl. apply lower_merge; rewrite Hl; intros ->.
    - apply NoDup_app in Hnd as (_ & Hn & Hnd'). apply NoDup_cons in Hnd' as [Hn' _].
      destruct Hv as [Hv|Hv]; [by apply (Hn _ Hv); left|by apply Hn'; right].
    - apply NoDup_app in Hnd as (_ & Hn & Hnd'). apply NoDup_cons in Hnd' as [_ Hnd']. apply NoDup_cons in Hnd' as [Hn' _].
      destruct Hv as [Hv|Hv]; [by apply (Hn _ Hv); right; left|done]. }
  rewrite fmap_app, fmap_cons, !permuted_app, (permuted_ext l l' (lower (S a)) pre) by (intros; apply Hrest; by left).
  assert (lower (S a) a = a) as -> by (unfold lower; by rewrite (proj2 (Nat.ltb_ge _ _)) by lia).
  assert (permuted l (a :: S a :: post) = (d1, i1) :: (d2, i2) :: permuted l post) as ->.
  { unfold permuted, l. cbn. rewrite <- Hl, list_lookup_middle by done.
    rewrite (lookup_app_r lx) by lia. replace (S (length lx) - length lx)%nat with 1%nat by lia. done. }
  assert (permuted l' (a :: (lower (S a) <$> post)) = (d1 * d2, i1 * d2 + i2) :: permuted l post) as ->.
  { rewrite <- (permuted_ext l l' (lower (S a)) post) by (intros; apply Hrest; by right).
    unfold permuted, l'. cbn. by rewrite <- Hl, list_lookup_middle by done. }
  apply flat_merge.
Qed.

(** Merging two dimensions that a Transpose keeps together does not change what it does. *)
Lemma merge_moves p q : moves (x ++ d1 :: d2 :: y) (pre ++ a :: S a :: post) p q ↔
  moves (x ++ d1 * d2 :: y) (lower (S a) <$> (pre ++ a :: post)) p q.
Proof.
  split; intros (l & Hl & -> & ->).
  - apply address_app in Hl as (lx & l2 & -> & Hx & Hl2).
    apply address_cons in Hl2 as (i1 & l3 & -> & Hi1 & Hl3). apply address_cons in Hl3 as (i2 & ly & -> & Hi2 & Hy).
    destruct (merged_address lx ly i1 i2 _ Hx eq_refl) as [E1 E2].
    eexists. split; [|split; [exact E1|exact E2]].
    apply address_app. exists lx, ((d1 * d2, i1 * d2 + i2) :: ly). split_and!; [done|done|].
    apply address_cons. exists (i1 * d2 + i2), ly. split_and!; [done|nia|nia|done].
  - apply address_app in Hl as (lx & l2 & -> & Hx & Hl2). apply address_cons in Hl2 as (c & ly & -> & Hc & Hy).
    assert (0 < d2) as Hd2 by nia.
    destruct (merged_address lx ly (c / d2) (c mod d2) c Hx) as [E1 E2]; [pose proof (Z.div_mod c d2); lia|].
    eexists. split; [|split; [symmetry; exact E1|symmetry; exact E2]].
    pose proof (Z.mod_pos_bound c d2 Hd2). assert (0 ≤ c / d2 < d1).
    { split; [apply Z.div_pos; lia|apply Z.div_lt_upper_bound; lia]. }
    apply address_app. exists lx, ((d1, c / d2) :: (d2, c mod d2) :: ly). split_and!; [done|done|].
    apply address_cons. eexists _, _. split_and!; [done|lia|lia|]. apply address_cons. eexists _, _. split_and!; [done|lia|lia|done].
Qed.

End Merge.

(** A unit dimension carries no information, wherever the Transpose puts it. *)
Lemma drop_moves (x y : list Z) (pre post : list nat) p q : NoDup (pre ++ length x :: post) →
  moves (x ++ 1 :: y) (pre ++ length x :: post) p q ↔ moves (x ++ y) (lower (length x) <$> (pre ++ post)) p q.
Proof.
  intros Hnd.
  assert (∀ lx ly, address x lx →
    flat (lx ++ (1, 0) :: ly) = flat (lx ++ ly) ∧
    flat (permuted (lx ++ (1, 0) :: ly) (pre ++ length x :: post)) =
      flat (permuted (lx ++ ly) (lower (length x) <$> (pre ++ post)))) as Hflat.
  { intros lx ly Hx. split; [apply flat_unit|]. apply address_length in Hx as Hl. rewrite <- Hl in *.
    rewrite (permuted_ext (lx ++ (1, 0) :: ly) (lx ++ ly)).
    - rewrite !permuted_app. unfold permuted at 2. cbn [omap list_omap]. rewrite list_lookup_middle by done. apply flat_unit.
    - intros v Hv. apply lower_drop. intros ->. rewrite <- Permutation_middle in Hnd. by apply NoDup_cons in Hnd as [? _]. }
  split; intros (l & Hl & -> & ->).
  - apply address_app in Hl as (lx & l2 & -> & Hx & Hl2). apply address_cons in Hl2 as (i & ly & -> & Hi & Hy).
    assert (i = 0) as -> by lia. destruct (Hflat lx ly Hx) as [E1 E2].
    eexists. split; [|split; [exact E1|exact E2]]. apply address_app. eauto.
  - apply address_app in Hl as (lx & ly & -> & Hx & Hy). destruct (Hflat lx ly Hx) as [E1 E2].
    eexists. split; [|split; [symmetry; exact E1|symmetry; exact E2]].
    apply address_app. exists lx, ((1, 0) :: ly). split_and!; [done|done|]. apply address_cons. eexists _, _. done.
Qed.

(** ** Rank reduction *)

Lemma valid_entries_spec seen perm : valid_entries seen perm = true →
  NoDup perm ∧ ∀ v, v ∈ perm → 0 ≤ v < 5 ∧ v ∉ seen.
Proof.
  revert seen. induction perm as [|v perm IH]; intros seen H; [split; [constructor|by intros v ?%elem_of_nil]|].
  cbn [valid_entries] in H. apply andb_true_iff in H as [Hv H]. apply IH in H as [Hnd Hin].
  rewrite negb_true_iff, !orb_false_iff in Hv. destruct Hv as [[H0 H5] Hs]. apply bool_decide_eq_false in Hs.
  split.
  - constructor; [|done]. intros Hvp. apply Hin in Hvp as [_ Hn]. apply Hn. by left.
  - intros w [->|Hw]%elem_of_cons; [split; [lia|done]|]. apply Hin in Hw as [? Hn]. split; [done|]. set_solver.
Qed.

Lemma to_nats_NoDup perm : Forall (Z.le 0) perm → NoDup perm → NoDup (to_nats perm).
Proof.
  intros Hp Hnd. unfold to_nats. apply NoDup_fmap_2_strong; [|done]. intros u v Hu Hv E.
  rewrite Forall_forall in Hp. apply Hp in Hu, Hv. lia.
Qed.

Lemma to_nats_app p1 p2 : to_nats (p1 ++ p2) = to_nats p1 ++ to_nats p2.
Proof. apply fmap_app. Qed.

Lemma to_nats_shift (b : nat) perm : Forall (Z.le 0) perm →
  to_nats (shift_down (Z.of_nat b) <$> perm) = lower b <$> to_nats perm.
Proof.
  intros Hp. unfold to_nats. rewrite <- !list_fmap_compose. apply list_fmap_ext. intros i v Hv. cbn.
  eapply Forall_lookup_1 in Hv; [|done]. unfold shift_down, lower.
  destruct (Z.ltb_spec (Z.of_nat b) v), (Nat.ltb_spec b (Z.to_nat v)); lia.
Qed.

(** The entries around position [k]. *)
Lemma split_at_two {A} (l : list A) k a b : l !! k = Some a → l !! S k = Some b →
  l = take k l ++ a :: b :: drop (S (S k)) l.
Proof.
  intros Ha Hb. rewrite <- (take_drop_middle l k a) at 1 by done. f_equal. f_equal.
  destruct (drop (S k) l) as [|b' l'] eqn:E.
  - apply (f_equal length) in E. rewrite length_drop in E. apply lookup_lt_Some in Hb. cbn in E. lia.
  - pose proof (lookup_drop l (S k) 0) as Hl. rewrite E, Nat.add_0_r, Hb in Hl. injection Hl as ->. f_equal.
    assert (drop (S (S k)) l = drop 1 (drop (S k) l)) as -> by (rewrite drop_drop; f_equal; lia). by rewrite E.
Qed.

Lemma merge_dims_spec t1 (a : nat) r : length t1 = 5%nat → (a < 4)%nat → merge_dims t1 (Z.of_nat a) (Z.of_nat a + 1) = Ok r →
  ∃ x d1 d2 y, t1 = x ++ d1 :: d2 :: y ∧ length x = a ∧ r = x ++ d1 * d2 :: y ∧ d1 * d2 < 2 ^ 32.
Proof.
  intros Hl Ha Hr. destruct t1 as [|x0 [|x1 [|x2 [|x3 [|x4 [|]]]]]]; try done.
  unfold merge_dims in Hr.
  destruct a as [|[|[|[|]]]]; [| | | |lia]; cbv -[Z.mul Z.ltb Z.pow] in Hr;
    (match type of Hr with context [?u * ?v <? 2 ^ 32] => destruct (Z.ltb_spec (u * v) (2 ^ 32)) end; [|done]);
    injection Hr as <-.
  - by exists [], x0, x1, [x2; x3; x4].
  - by exists [x0], x1, x2, [x3; x4].
  - by exists [x0; x1], x2, x3, [x4].
  - by exists [x0; x1; x2], x3, x4, [].
Qed.

Lemma apply_perm_spec dims perm r : apply_perm dims perm = Ok r →
  r = permuted dims (to_nats perm) ∧ Forall (fun p => 0 ≤ p < Z.of_nat (length dims)) perm.
Proof.
  unfold apply_perm. intros Hr.
  apply (foldM_inv _ (fun done acc => acc = permuted dims (to_nats done) ∧
    Forall (fun p => 0 ≤ p < Z.of_nat (length dims)) done)) in Hr; [done|by split; [|constructor]|].
  intros pre p acc acc' [-> Hp] Hs. destruct (Z.leb_spec (Z.of_nat (length dims)) p); [done|].
  inv_bind Hs. injection Hs as <-. unfold zget in Hs0.
  destruct (Z.leb_spec 0 p); [|done]. destruct (Z.ltb_spec p (Z.of_nat (length dims))); [|done]. cbn in Hs0.
  apply aget_Ok in Hs0. split.
  - rewrite to_nats_app, permuted_app. f_equal. unfold permuted. cbn. by rewrite Hs0.
  - apply Forall_app. split; [done|]. by repeat constructor.
Qed.

Lemma rank4_reduction t1 t2 perm k s4 s4' perm4 :
  Rank4_params t1 t2 perm k = Ok (s4, s4', perm4) → Forall (Z.le 0) t1 →
  length s4 = 4%nat ∧ s4' = permuted s4 (to_nats perm4) ∧ prodZ s4 = prodZ t1 ∧
  ∀ p q, moves t1 (to_nats perm) p q ↔ moves s4 (to_nats perm4) p q.
Proof.
  intros Hr Hpos. unfold Rank4_params in Hr.
  destruct ((length t1 =? 5)%nat && _) eqn:Elen; [|done]. apply andb_true_iff in Elen as [El1 _]. apply Nat.eqb_eq in El1.
  cbn [negb] in Hr. destruct (IsValidRank5Perm perm) eqn:Ev; [|done]. destruct (Nat.leb_spec 5 (S k)); [done|]. cbn [negb orb] in Hr.
  inv_bind Hr. inv_bind Hr. rename a0 into b. apply aget_Ok in Hr0, Hr1.
  destruct (Z.eqb_spec b (a + 1)) as [->|]; [|done]. destruct (Z.ltb_spec a 0); [done|]. destruct (Z.leb_spec 5 (a + 1)); [done|].
  cbn [negb orb] in Hr. inv_bind Hr. rename a0 into s.
  destruct ((length s =? 4)%nat && _) eqn:Es; [|done]. apply andb_true_iff in Es as [Es1 Es2]. apply Nat.eqb_eq in Es1.
  cbn [negb] in Hr. inv_bind Hr. injection Hr as -> -> <-.
  rewrite <- (Z2Nat.id a) in Hr2 by lia.
  destruct (merge_dims_spec t1 (Z.to_nat a) s4 El1) as (x & d1 & d2 & y & -> & Hx & -> & Hlt); [lia|done|].
  apply apply_perm_spec in Hr3 as [-> _].
  apply andb_true_iff in Ev as [_ Ev]. apply valid_entries_spec in Ev as [Hnd Hin].
  assert (Forall (Z.le 0) perm) as Hp by (apply Forall_forall; intros v Hv; apply Hin in Hv; lia).
  pose proof (split_at_two _ _ _ _ Hr0 Hr1) as Esplit.
  split_and!; [done|done|rewrite !prodZ_app, !prodZ_cons; lia|].
  intros p q.
  assert (to_nats perm = to_nats (take k perm) ++ length x :: S (length x) :: to_nats (drop (S (S k)) perm)) as E5.
  { rewrite Esplit at 1. rewrite to_nats_app, Hx. cbn. by rewrite Z2Nat.inj_add, Nat.add_1_r by lia. }
  assert (to_nats (drop_entry perm (S k) (a + 1)) =
    lower (S (length x)) <$> (to_nats (take k perm) ++ length x :: to_nats (drop (S (S k)) perm))) as E4.
  { unfold drop_entry. replace (a + 1) with (Z.of_nat (S (length x))) by (rewrite Hx; lia).
    rewrite to_nats_shift.
    - rewrite (take_S_r _ _ a) by done. rewrite <- app_assoc, to_nats_app. by rewrite Hx.
    - apply Forall_app. split; [by apply Forall_take|by apply Forall_drop]. }
  rewrite E5, E4. apply Forall_app in Hpos as [_ Hpos]. apply Forall_cons in Hpos as [? Hpos]. apply Forall_cons in Hpos as [? _].
  apply merge_moves; [done|done|]. rewrite <- E5. by apply to_nats_NoDup.
Qed.

Lemma find_fixed_unit_spec i t1 t2 perm k : find_fixed_unit i t1 t2 perm = Some k →
  ∃ j, k = (i + j)%nat ∧ t1 !! j = Some 1 ∧ t2 !! j = Some 1 ∧ perm !! j = Some (Z.of_nat k).
Proof.
  revert i t2 perm. induction t1 as [|a t1 IH]; intros i [|b t2] [|p perm]; cbn; try done.
  destruct (Z.eqb_spec a 1), (Z.eqb_spec b 1), (Z.eqb_spec p (Z.of_nat i)); cbn; intros H;
    try (apply IH in H as (j & -> & ? & ? & ?); exists (S j); by rewrite <- plus_n_Sm).
  injection H as <-. exists 0%nat. rewrite Nat.add_0_r. by subst.
Qed.

(** What the ONNX schema says about the [perm] of a Transpose. *)
Definition onnx_perm (perm : list Z) : Prop := Forall (Z.le 0) perm ∧ is_perm (to_nats perm).

Lemma onnx_perm_bounds perm v : onnx_perm perm → v ∈ perm → 0 ≤ v < Z.of_nat (length perm).
Proof.
  intros [Hp Hperm] Hv. rewrite Forall_forall in Hp. apply Hp in Hv as H0. split; [done|].
  apply list_elem_of_lookup in Hv as [i Hi].
  assert (to_nats perm !! i = Some (Z.to_nat v)) as Hi' by (unfold to_nats; by rewrite list_lookup_fmap, Hi).
  apply (is_perm_lt _ _ _ Hperm) in Hi'. unfold to_nats in Hi'. rewrite length_fmap in Hi'. lia.
Qed.

Lemma u32_small l : Forall (fun v => 0 ≤ v < 2 ^ 32) l → u32 <$> l = l.
Proof.
  intros H. rewrite <- (list_fmap_id l) at 2. apply list_fmap_ext. intros i v Hv. cbn.
  eapply Forall_lookup_1 in Hv; [|done]. by apply wrapu_id.
Qed.

Lemma squeeze_reduction t1 t2 perm i : onnx_perm perm → length t1 = 6%nat → length perm = 6%nat →
  t2 = permuted t1 (to_nats perm) → t1 !! i = Some 1 → perm !! i = Some (Z.of_nat i) →
  let s5 := take i t1 ++ drop (S i) t1 in
  let perm5 := u32 <$> drop_entry perm i (Z.of_nat i) in
  length s5 = 5%nat ∧ take i t2 ++ drop (S i) t2 = permuted s5 (to_nats perm5) ∧ prodZ s5 = prodZ t1 ∧
  ∀ p q, moves t1 (to_nats perm) p q ↔ moves s5 (to_nats perm5) p q.
Proof.
  intros Hp Hl1 Hlp Ht2 Hi Hpi s5 perm5.
  assert (i < 6)%nat as Hlt by (rewrite <- Hl1; by eapply lookup_lt_Some).
  pose proof (take_drop_middle t1 i 1 Hi) as E1. pose proof (take_drop_middle perm i _ Hpi) as Ep.
  assert (length (take i t1) = i) as Hx by (rewrite length_take; lia).
  assert (to_nats perm = to_nats (take i perm) ++ i :: to_nats (drop (S i) perm)) as E6.
  { rewrite <- Ep at 1. rewrite to_nats_app. cbn. by rewrite Nat2Z.id. }
  assert (Forall (Z.le 0) (take i perm ++ drop (S i) perm)) as Hnn.
  { apply Forall_app. split; [apply Forall_take, Hp|apply Forall_drop, Hp]. }
  assert (perm5 = drop_entry perm i (Z.of_nat i)) as E5.
  { apply u32_small. unfold drop_entry. apply Forall_fmap. apply Forall_forall. intros v Hv. cbn.
    assert (v ∈ perm) as Hv'.
    { rewrite <- Ep. rewrite elem_of_app, elem_of_cons. apply elem_of_app in Hv. tauto. }
    apply (onnx_perm_bounds _ _ Hp) in Hv'. unfold shift_down. destruct (Z.ltb_spec (Z.of_nat i) v); lia. }
  assert (to_nats perm5 = lower (length (take i t1)) <$> (to_nats (take i perm) ++ to_nats (drop (S i) perm))) as E5'.
  { rewrite E5, Hx. unfold drop_entry. rewrite to_nats_shift by done. by rewrite to_nats_app. }
  assert (NoDup (to_nats (take i perm) ++ i :: to_nats (drop (S i) perm))) as Hnd.
  { rewrite <- E6. apply is_perm_NoDup, Hp. }
  split_and!.
  - unfold s5. rewrite length_app, length_drop. lia.
  - rewrite E5'. rewrite (permuted_ext t1); [|intros v Hv; rewrite <- E1 at 2; apply lower_drop; rewrite Hx; intros ->;
      rewrite <- Permutation_middle in Hnd; by apply NoDup_cons in Hnd as [? _]].
    rewrite Ht2, E6, !permuted_app.
    assert (length (permuted t1 (to_nats (take i perm))) = i) as Hlen.
    { destruct (permuted_lookup t1 (to_nats (take i perm))) as [-> _].
      - intros v (w & -> & Hw)%list_elem_of_fmap. apply elem_of_take in Hw as (j & Hw & _).
        apply list_elem_of_lookup_2, (onnx_perm_bounds _ _ Hp) in Hw. lia.
      - unfold to_nats. rewrite length_fmap, length_take. lia. }
    assert (permuted t1 (i :: to_nats (drop (S i) perm)) = 1 :: permuted t1 (to_nats (drop (S i) perm))) as ->
      by (unfold permuted; cbn; by rewrite Hi).
    rewrite take_app_length' by done. f_equal. by rewrite drop_app_ge, Hlen, Nat.sub_succ_l, Nat.sub_diag by lia.
  - unfold s5. rewrite <- E1 at 3. rewrite !prodZ_app, prodZ_cons. lia.
  - intros p q. rewrite E5', E6. unfold s5.
    pose proof (drop_moves (take i t1) (drop (S i) t1) (to_nats (take i perm)) (to_nats (drop (S i) perm)) p q) as Hm.
    rewrite E1, Hx in Hm. rewrite Hx. by apply Hm.
Qed.

Lemma merge_leading_reduction a0 a1 t1 p2 : onnx_perm (0 :: 1 :: p2) → length t1 = 4%nat → length p2 = 4%nat →
  Forall (Z.le 0) (a0 :: a1 :: t1) →
  let perm5 := 0 :: ((fun p => u32 (p - 1)) <$> p2) in
  permuted (a0 :: a1 :: t1) (to_nats (0 :: 1 :: p2)) = a0 :: a1 :: permuted (a0 :: a1 :: t1) (to_nats p2) ∧
  a0 * a1 :: permuted (a0 :: a1 :: t1) (to_nats p2) = permuted (a0 * a1 :: t1) (to_nats perm5) ∧
  ∀ p q, moves (a0 :: a1 :: t1) (to_nats (0 :: 1 :: p2)) p q ↔ moves (a0 * a1 :: t1) (to_nats perm5) p q.
Proof.
  intros Hp Hl1 Hlp Hpos perm5.
  assert (∀ v, v ∈ p2 → 2 ≤ v < 6) as Hv.
  { intros v Hv. assert (v ∈ 0 :: 1 :: p2) as Hin by set_solver. apply (onnx_perm_bounds _ _ Hp) in Hin. cbn in Hin.
    pose proof (is_perm_NoDup _ (proj2 Hp)) as Hnd. cbn in Hnd. apply NoDup_cons in Hnd as [H0 Hnd]. apply NoDup_cons in Hnd as [H1 _].
    assert (Z.to_nat v ∈ to_nats p2) as Hv' by (by apply list_elem_of_fmap_2).
    assert (v ≠ 0) by (intros ->; apply H0; by right). assert (v ≠ 1) by (by intros ->). lia. }
  assert (to_nats perm5 = lower 1 <$> (0%nat :: to_nats p2)) as E5.
  { unfold perm5, to_nats. rewrite !fmap_cons. f_equal. rewrite <- !list_fmap_compose. apply list_fmap_ext.
    intros i v Hi. apply list_elem_of_lookup_2, Hv in Hi. cbn. rewrite wrapu_id by (unfold in_u; lia).
    unfold lower. destruct (Nat.ltb_spec 1 (Z.to_nat v)); lia. }
  split_and!; [done| |].
  - rewrite E5, fmap_cons. unfold permuted at 2. cbn [omap list_omap]. fold (permuted (a0 * a1 :: t1) (lower 1 <$> to_nats p2)).
    cbn. f_equal. symmetry. apply permuted_ext. intros v (w & -> & Hw)%list_elem_of_fmap. apply Hv in Hw.
    apply (lower_merge [] t1); cbn; lia.
  - intros p q. rewrite E5. apply Forall_cons in Hpos as [? Hpos]. apply Forall_cons in Hpos as [? _].
    apply (merge_moves [] t1 a0 a1 [] (to_nats p2)); [done|done|]. exact (is_perm_NoDup _ (proj2 Hp)).
Qed.

Lemma rank5_reduction t1 t2 perm red s5 s5' perm5 :
  rank6_reduction t1 t2 perm = Some red → Rank5_params t1 t2 perm red = Ok (s5, s5', perm5) →
  onnx_perm perm → Forall (Z.le 0) t1 → t2 = permuted t1 (to_nats perm) →
  length s5 = 5%nat ∧ s5' = permuted s5 (to_nats perm5) ∧ prodZ s5 = prodZ t1 ∧
  ∀ p q, moves t1 (to_nats perm) p q ↔ moves s5 (to_nats perm5) p q.
Proof.
  intros Hred Hr Hp Hpos Ht2. unfold rank6_reduction in Hred. unfold Rank5_params in Hr.
  destruct (Nat.eqb_spec (length t1) 6) as [Hl1|]; [|done]. destruct (Nat.eqb_spec (length t2) 6) as [Hl2|]; [|done]. cbn [andb negb] in *.
  destruct (Nat.eqb_spec (length perm) 6) as [Hlp|]; [|done]. cbn [negb] in *.
  destruct (find_fixed_unit 0 t1 t2 perm) as [i|] eqn:Ef.
  - injection Hred as <-. injection Hr as <- <- <-.
    apply find_fixed_unit_spec in Ef as (j & -> & H1 & _ & H3). by apply squeeze_reduction.
  - destruct perm as [|p0 [|p1 p2]]; try done. destruct (Z.eqb_spec p0 0) as [->|]; [|done].
    destruct (Z.eqb_spec p1 1) as [->|]; [|done]. injection Hred as <-.
    destruct t1 as [|a0 [|a1 t1]]; try done. injection Hl1 as Hl1. injection Hlp as Hlp.
    destruct (merge_leading_reduction a0 a1 t1 p2 Hp Hl1 Hlp Hpos) as (Et & Es & Hm).
    rewrite Ht2, Et in Hr. cbn -[Z.pow u32] in Hr. destruct (_ || _); [done|]. injection Hr as <- <- <-.
    rewrite !drop_0. split_and!; [cbn; by rewrite Hl1|exact Es|rewrite !prodZ_cons; lia|exact Hm].
Qed.

(** ** Transpose, Reshape, Transpose *)

Lemma mjoin_cons {A} (l : list A) ls : mjoin (l :: ls) = l ++ mjoin ls.
Proof. done. Qed.

(** The group of dimensions as one. *)
Definition merge_group (g : list (Z * Z)) : Z * Z := (prodZ g.*1, flat g).

Lemma flat_groups gs : flat (merge_group <$> gs) = flat (mjoin gs) ∧ prodZ (merge_group <$> gs).*1 = prodZ (mjoin gs).*1.
Proof.
  induction gs as [|g gs [IH1 IH2]]; [done|].
  rewrite fmap_cons, mjoin_cons, !fmap_app, !fmap_cons, flat_app, prodZ_app, prodZ_cons. unfold merge_group at 1 3. cbn [fst].
  rewrite flat_cons, IH1, IH2. done.
Qed.

Lemma groups_in_bounds gs : Forall in_bounds (mjoin gs) → Forall in_bounds (merge_group <$> gs).
Proof.
  induction gs as [|g gs IH]; intros H; [constructor|]. cbn in H. apply Forall_app in H as [Hg H].
  constructor; [by apply flat_bounds|by apply IH].
Qed.

Lemma absorb_dims_spec target acc idx rest g acc' idx' rest' : absorb_dims target acc idx rest = (g, acc', idx', rest') →
  ∃ ds, rest = ds ++ rest' ∧ g = seq idx (length ds) ∧ idx' = (idx + length ds)%nat ∧ acc' = acc * prodZ ds.
Proof.
  revert acc idx g. induction rest as [|d rest IH]; intros acc idx g; cbn.
  - intros [= <- <- <- <-]. exists []. rewrite Nat.add_0_r. split_and!; try done. unfold prodZ. cbn. lia.
  - destruct (acc <? target).
    + destruct (absorb_dims target (acc * d) (S idx) rest) as [[[g1 a1] i1] r1] eqn:E. intros [= <- <- <- <-].
      apply IH in E as (ds & -> & -> & -> & ->). exists (d :: ds). rewrite prodZ_cons. cbn. split_and!; [done|done|lia|lia].
    + intros [= <- <- <- <-]. exists []. rewrite Nat.add_0_r. split_and!; try done. unfold prodZ. cbn. lia.
Qed.

(** The groups are consecutive, and their sizes are the dimensions of the Reshape. *)
Lemma reshape_mapping_spec idx rest shape mapping : reshape_mapping idx rest shape = Some mapping →
  ∃ dss rest', rest = mjoin dss ++ rest' ∧ mjoin mapping = seq idx (length (mjoin dss)) ∧
    (length <$> mapping) = (length <$> dss) ∧ prodZ <$> dss = shape.
Proof.
  revert idx rest mapping. induction shape as [|target shape IH]; intros idx rest mapping; cbn.
  - intros [= <-]. by exists [], rest.
  - destruct (absorb_dims target 1 idx rest) as [[[g a] i] r] eqn:E. apply absorb_dims_spec in E as (ds & -> & -> & -> & ->).
    rewrite Z.mul_1_l. destruct (Z.eqb_spec (prodZ ds) target) as [<-|]; [|done]. cbn [negb].
    intros H.
    assert (∃ ds' r', prodZ ds' = prodZ ds ∧ ds ++ r = ds' ++ r' ∧
      cons (seq idx (length ds')) <$> reshape_mapping (idx + length ds') r' shape = Some mapping) as (ds' & r' & Ep & Er & H').
    { destruct ds as [|d ds].
      - cbn in H. destruct r as [|d r]; [done|]. destruct (Z.eqb_spec d 1) as [->|]; [|done]. cbn in H.
        exists [1], r. split_and!; [done|done|]. cbn. rewrite Nat.add_0_r, Nat.add_1_r in *. exact H.
      - exists (d :: ds), r. done. }
    clear H. rewrite <- Ep, Er. destruct (reshape_mapping _ r' shape) as [m|] eqn:Em; [|done]. cbn in H'. injection H' as <-.
    apply IH in Em as (dss & rest' & -> & Ej & El & <-).
    exists (ds' :: dss), rest'. rewrite !mjoin_cons, !fmap_cons, Ej, length_app, seq_app, <- El, length_seq.
    split_and!; try done. by rewrite app_assoc.
Qed.

Lemma mapM_r_Ok {A B} (f : A → result B) l r : mapM_r f l = Ok r ↔ Forall2 (fun a b => f a = Ok b) l r.
Proof.
  revert r. induction l as [|a l IH]; intros r; cbn.
  - split; [intros [= <-]; constructor|]. intros H. by inversion H.
  - split.
    + intros H. inv_bind H. inv_bind H. injection H as <-. constructor; [done|]. by apply IH.
    + intros H. inversion H as [|? b ? bs Hb Hbs]; subst. rewrite Hb. cbn. apply IH in Hbs. by rewrite Hbs.
Qed.

Lemma zget_Ok {A} (l : list A) i x : zget l i = Ok x ↔ 0 ≤ i ∧ l !! Z.to_nat i = Some x.
Proof.
  unfold zget. destruct (Z.leb_spec 0 i); cbn; [|split; [done|lia]].
  destruct (Z.ltb_spec i (Z.of_nat (length l))); [rewrite aget_Ok; naive_solver|]. split; [done|].
  intros [_ H2]. apply lookup_lt_Some in H2. lia.
Qed.

Lemma mjoin_length {A} (ls : list (list A)) : length (mjoin ls) = sum_list (length <$> ls).
Proof. induction ls as [|l ls IH]; [done|]. rewrite mjoin_cons, fmap_cons, length_app, IH. done. Qed.

(** Lists with the same lengths and the same concatenation are equal. *)
Lemma mjoin_inj {A} (ls ls' : list (list A)) : length <$> ls = length <$> ls' → mjoin ls = mjoin ls' → ls = ls'.
Proof.
  revert ls'. induction ls as [|l ls IH]; intros [|l' ls'] El Ej; try done. rewrite !mjoin_cons in Ej. injection El as El El'.
  apply app_inj_1 in Ej as [-> Ej]; [|done]. f_equal. by apply IH.
Qed.

Definition in_range {A} (l : list A) (perm : list nat) : Prop := ∀ p, p ∈ perm → (p < length l)%nat.

Lemma permuted_bind {A} (l : list A) P q : in_range l P → permuted l P !! q = P !! q ≫= (fun p => l !! p).
Proof.
  intros HP. destruct (permuted_lookup l P HP) as [Hl Hlk]. destruct (P !! q) as [p|] eqn:E; [by rewrite (Hlk _ _ E)|].
  apply lookup_ge_None. rewrite Hl. by apply lookup_ge_None.
Qed.

Lemma permuted_compose {A} (l : list A) P Q : in_range l P → permuted (permuted l P) Q = permuted l (permuted P Q).
Proof.
  intros HP. pose proof (fun q => permuted_bind l P q HP) as Hb. revert Hb. generalize (permuted l P). intros L Hb.
  unfold permuted. induction Q as [|q Q IH]; [done|]. cbn [omap list_omap]. rewrite Hb, IH.
  destruct (P !! q) as [p|]; done.
Qed.

Lemma permuted_mjoin {A} (l : list A) gs : mjoin (permuted l <$> gs) = permuted l (mjoin gs).
Proof. induction gs as [|g gs IH]; [done|]. rewrite fmap_cons, !mjoin_cons, IH. symmetry. apply permuted_app. Qed.

(** Consecutive groups of indices that cover a list read it off. *)
Lemma permuted_cover {A} (l : list A) mapping ls : mjoin mapping = seq 0 (length l) → length <$> mapping = length <$> ls →
  mjoin ls = l → permuted l <$> mapping = ls.
Proof.
  intros Hm Hlen Hj. apply mjoin_inj.
  - rewrite <- Hlen, <- list_fmap_compose. apply list_fmap_ext. intros i g Hg. cbn.
    apply permuted_lookup. intros p Hp.
    assert (p ∈ mjoin mapping) as Hin by (apply list_elem_of_join; exists g; split; [done|by eapply list_elem_of_lookup_2]).
    rewrite Hm in Hin. apply elem_of_seq in Hin. lia.
  - by rewrite permuted_mjoin, Hm, Hj, permuted_seq.
Qed.

Lemma final_mapping_spec mapping perm1 perm2 n final : final_mapping mapping perm1 perm2 n = Ok final →
  length perm2 = n → to_nats (mjoin final) = permuted (to_nats perm1) (mjoin (permuted mapping (to_nats perm2))) ∧
  length (mjoin final) = length (mjoin (permuted mapping (to_nats perm2))).
Proof.
  unfold final_mapping. intros Hf <-. apply mapM_r_Ok in Hf.
  enough (∀ i perm', perm' = drop i perm2 → ∀ fs, Forall2 (fun i f => (let* src_idx := aget perm2 i in
    let* group := zget mapping src_idx in mapM_r (aget perm1) group) = Ok f) (seq i (length perm')) fs →
    to_nats (mjoin fs) = permuted (to_nats perm1) (mjoin (permuted mapping (to_nats perm'))) ∧
    length (mjoin fs) = length (mjoin (permuted mapping (to_nats perm')))) as H by (by apply (H 0%nat perm2)).
  clear final Hf. intros i perm'. revert i. induction perm' as [|s perm' IH]; intros i E fs HF; cbn in HF.
  { by inversion HF. }
  inversion HF as [|? f ? fs' Hf HF']; subst. inv_bind Hf. apply aget_Ok in Hf0. inv_bind Hf.
  assert (perm2 !! i = Some s) as Hs by (rewrite <- (Nat.add_0_r i), <- lookup_drop, <- E; done).
  rewrite Hs in Hf0. injection Hf0 as <-. apply zget_Ok in Hf1 as [_ Hg]. apply mapM_r_Ok in Hf.
  destruct (IH (S i)) with (fs := fs') as [H1 H2]; [|done|].
  { assert (drop (S i) perm2 = drop 1 (drop i perm2)) as -> by (rewrite drop_drop; f_equal; lia). by rewrite <- E. }
  rewrite mjoin_cons, to_nats_app, H1.
  assert (permuted mapping (to_nats (s :: perm')) = a0 :: permuted mapping (to_nats perm')) as ->
    by (unfold permuted, to_nats; cbn; by rewrite Hg).
  rewrite mjoin_cons, permuted_app, !length_app, H2. pose proof (Forall2_length _ _ _ Hf) as Hlen. split; [|by rewrite Hlen].
  f_equal. clear -Hf. induction Hf as [|d v g f Hv Hf IH]; [done|]. apply aget_Ok in Hv.
  unfold permuted, to_nats. cbn [omap list_omap fmap list_fmap]. rewrite list_lookup_fmap, Hv. cbn. f_equal. exact IH.
Qed.

Lemma onnx_perm_range {A} (l : list A) perm : onnx_perm perm → length perm = length l → in_range l (to_nats perm).
Proof.
  intros Hp Hl p (v & -> & Hv)%list_elem_of_fmap. apply (onnx_perm_bounds _ _ Hp) in Hv. lia.
Qed.

Lemma onnx_perm_permuted {A} (l : list A) perm : onnx_perm perm → length perm = length l → permuted l (to_nats perm) ≡ₚ l.
Proof.
  intros [_ Hp] Hl. unfold is_perm, to_nats in Hp. rewrite length_fmap, Hl in Hp.
  unfold permuted, to_nats. rewrite Hp. change (permuted l (seq 0 (length l)) ≡ₚ l). by rewrite permuted_seq.
Qed.

Lemma to_nats_of_nat l : to_nats (Z.of_nat <$> l) = l.
Proof. unfold to_nats. rewrite <- list_fmap_compose. rewrite <- (list_fmap_id l) at 2. apply list_fmap_ext. intros. cbn. lia. Qed.

(** The fused Reshape has the shape of the chain, and the chain leaves every element where it is. *)
Lemma transpose_reshape_transpose s perm1 inter rs perm2 out fused :
  CanFuseToReshape s perm1 inter rs perm2 out = Ok (Some fused) →
  onnx_perm perm1 → length perm1 = length s → inter = permuted s (to_nats perm1) →
  onnx_perm perm2 → length perm2 = length rs → out = permuted rs (to_nats perm2) →
  fused = out ∧ ∀ p q r, moves s (to_nats perm1) p q → moves rs (to_nats perm2) q r → r = p.
Proof.
  intros Hc Hp1 Hl1 Hinter Hp2 Hl2 Hout. unfold CanFuseToReshape in Hc.
  destruct (reshape_mapping 0 inter rs) as [mapping|] eqn:Em; [|done]. inv_bind Hc. rename a into final.
  case_bool_decide as Hseq; [|done]. cbn [negb] in Hc. destruct (Nat.eqb_spec (length (mjoin final)) (length s)) as [Hn|]; [|done].
  cbn [negb] in Hc. inv_bind Hc. case_bool_decide; [|done]. injection Hc as ->. split; [done|].
  assert (length out = length perm2) as Hlo.
  { rewrite Hout. destruct (permuted_lookup rs (to_nats perm2)) as [-> _]; [by apply onnx_perm_range|].
    apply length_fmap. }
  apply final_mapping_spec in Hc0 as [Hf1 Hf2]; [|done].
  apply reshape_mapping_spec in Em as (dss & rest' & Einter & Ej & El & Ers).
  assert (length mapping = length rs) as Hlm.
  { apply (f_equal length) in El. rewrite !length_fmap in El. by rewrite El, <- Ers, length_fmap. }
  assert (length inter = length s) as Hli.
  { rewrite Hinter. destruct (permuted_lookup s (to_nats perm1)) as [-> _]; [by apply onnx_perm_range|].
    unfold to_nats. by rewrite length_fmap. }
  assert (length (mjoin dss) = length s) as Hld.
  { rewrite <- Hn, Hf2, <- (length_seq (length (mjoin dss)) 0), <- Ej, !mjoin_length.
    by rewrite (onnx_perm_permuted mapping perm2 Hp2) by lia. }
  assert (rest' = []) as ->.
  { apply length_zero_iff_nil. apply (f_equal length) in Einter. rewrite length_app in Einter. lia. }
  rewrite app_nil_r in Einter.
  intros p q r (l & Hl & -> & ->) (l2 & Ha2 & Eq & ->).
  set (L1 := permuted l (to_nats perm1)).
  assert (length L1 = length s) as HL1.
  { unfold L1. destruct (permuted_lookup l (to_nats perm1)) as [-> _]; [|unfold to_nats; by rewrite length_fmap].
    apply onnx_perm_range; [done|]. by rewrite (address_length _ _ Hl). }
  assert (L1.*1 = inter) as Efst by (unfold L1; rewrite <- permuted_fmap; by destruct Hl as [-> _]).
  assert (mjoin mapping = seq 0 (length L1)) as Ej' by (by rewrite Ej, Hld, HL1).
  set (Gs := permuted L1 <$> mapping).
  assert (mjoin Gs = L1) as EG by (unfold Gs; by rewrite permuted_mjoin, Ej', permuted_seq).
  assert (address rs (merge_group <$> Gs)) as HG.
  { split.
    - rewrite <- Ers. rewrite <- (permuted_cover inter mapping dss); [|by rewrite Ej, Hld, Hli|done|done].
      unfold Gs. rewrite <- !list_fmap_compose. apply list_fmap_ext. intros i g _. cbn. by rewrite <- permuted_fmap, Efst.
    - apply groups_in_bounds. rewrite EG. unfold L1. rewrite (onnx_perm_permuted l perm1 Hp1); [apply Hl|].
      by rewrite (address_length _ _ Hl). }
  assert (l2 = merge_group <$> Gs) as ->.
  { apply (flat_inj rs); [done|done|]. rewrite <- Eq. destruct (flat_groups Gs) as [-> _]. by rewrite EG. }
  rewrite permuted_fmap. destruct (flat_groups (permuted Gs (to_nats perm2))) as [-> _].
  unfold Gs. rewrite permuted_fmap, permuted_mjoin. unfold L1. rewrite permuted_compose.
  - rewrite <- Hf1, Hseq, to_nats_of_nat, Hn, <- (address_length _ _ Hl), permuted_seq. done.
  - apply onnx_perm_range; [done|]. by rewrite (address_length _ _ Hl).
Qed.

(** ** Reshape, Transpose *)

Lemma first_unused_spec i l used target k : l !! k = Some target → (i + k)%nat ∉ used →
  (∀ k', (k' < k)%nat → l !! k' = Some target → (i + k')%nat ∈ used) → first_unused i l used target = Some (i + k)%nat.
Proof.
  revert i k. induction l as [|d l IH]; intros i [|k] Hk Hu Hlt; try done; cbn in *.
  - injection Hk as ->. rewrite Nat.add_0_r in *. by rewrite bool_decide_eq_false_2, Z.eqb_refl.
  - rewrite (IH (S i) k); [|done|by rewrite Nat.add_succ_comm|
      intros k' Hk' Hl; rewrite Nat.add_succ_comm; apply (Hlt (S k')); [lia|done]].
    rewrite Nat.add_succ_comm. destruct (Z.eqb_spec d target) as [->|]; [|by rewrite andb_false_r].
    rewrite bool_decide_eq_true_2; [done|]. rewrite <- (Nat.add_0_r i). apply (Hlt 0%nat); [lia|done].
Qed.

Section ReshapePerm.
Context (s : list Z).

Definition unit_axis (a : nat) : Prop := s !! a = Some 1.
Global Instance unit_axis_dec a : Decision (unit_axis a).
Proof. unfold unit_axis. apply _. Defined.
Definition non_units : list nat := filter (non_unit_axis s) (seq 0 (length s)).
Definition units : list nat := filter unit_axis (seq 0 (length s)).

(** The candidates of one kind are taken in order. *)
Lemma take_next (P : nat → Prop) `{∀ n, Decision (P n)} a j (used : list nat) target :
  drop a (filter P (seq 0 (length s))) = j :: drop (S a) (filter P (seq 0 (length s))) →
  s !! j = Some target → (∀ k, s !! k = Some target → P k) →
  (∀ k, P k → k ∈ used ↔ k ∈ take a (filter P (seq 0 (length s)))) →
  first_unused 0 s used target = Some j.
Proof.
  intros Hd Hj HP Hused. set (F := filter P (seq 0 (length s))) in *.
  assert (StronglySorted lt F) as Hsort.
  { unfold F. clear. generalize 0%nat. induction (length s) as [|n IH]; intros i; [constructor|]. cbn [seq].
    rewrite filter_cons. case_decide; [|apply IH]. constructor; [apply IH|].
    apply Forall_forall. intros x Hx. apply list_elem_of_filter in Hx as [_ Hx]. apply elem_of_seq in Hx. lia. }
  assert (F = take a F ++ j :: drop (S a) F) as EF by (by rewrite <- Hd, take_drop).
  assert (∀ k, k ∈ take a F → (k < j)%nat) as Hbefore.
  { intros k Hk. rewrite EF in Hsort. revert Hk Hsort. generalize (take a F). intros L. induction L as [|x L IH]; intros Hk Hs; [by apply elem_of_nil in Hk|].
    apply StronglySorted_inv in Hs as [Hs Hx]. apply elem_of_cons in Hk as [->|Hk]; [|by apply IH].
    rewrite Forall_forall in Hx. apply Hx. apply elem_of_app. right. by left. }
  assert (∀ k, P k → (k < length s)%nat → (k < j)%nat → k ∈ take a F) as Hback.
  { intros k HPk Hlen Hkj. assert (k ∈ F) as HkF by (apply list_elem_of_filter; split; [done|apply elem_of_seq; lia]).
    rewrite EF in HkF. apply elem_of_app in HkF as [|HkF]; [done|]. exfalso.
    rewrite EF in Hsort. apply elem_of_cons in HkF as [->|HkF]; [lia|].
    revert Hsort. generalize (take a F). intros L. induction L as [|x L IH]; intros Hs; cbn in Hs.
    - apply StronglySorted_inv in Hs as [_ Hx]. rewrite Forall_forall in Hx. apply Hx in HkF. lia.
    - apply IH. by apply StronglySorted_inv in Hs as [? _]. }
  apply (first_unused_spec 0 s used target j); [done| |].
  - cbn. rewrite (Hused j) by (by apply HP). intros Hin. apply Hbefore in Hin. lia.
  - intros k Hk Hs. cbn. apply Hused; [by apply HP|]. apply Hback; [by apply HP|by eapply lookup_lt_Some|done].
Qed.

Lemma drop_cons_S {A} (l : list A) a x l' : drop a l = x :: l' → l' = drop (S a) l ∧ take (S a) l = take a l ++ [x].
Proof.
  intros E. assert (l !! a = Some x) as Hx by (rewrite <- (Nat.add_0_r a), <- lookup_drop, E; done).
  split; [|by apply take_S_r]. assert (drop (S a) l = drop 1 (drop a l)) as -> by (rewrite drop_drop; f_equal; lia). by rewrite E.
Qed.

Lemma drop_in_range (P : nat → Prop) `{∀ n, Decision (P n)} a : in_range s (drop a (filter P (seq 0 (length s)))).
Proof.
  intros p Hp. assert (p ∈ filter P (seq 0 (length s))) as Hin by (rewrite <- (take_drop a); apply elem_of_app; by right).
  apply list_elem_of_filter in Hin as [_ Hin]. apply elem_of_seq in Hin. lia.
Qed.

(** The values at the candidates that are left. *)
Lemma next_value (P : nat → Prop) `{∀ n, Decision (P n)} a d out :
  d :: out = permuted s (drop a (filter P (seq 0 (length s)))) →
  ∃ j, drop a (filter P (seq 0 (length s))) = j :: drop (S a) (filter P (seq 0 (length s))) ∧ s !! j = Some d ∧ P j ∧
    take (S a) (filter P (seq 0 (length s))) = take a (filter P (seq 0 (length s))) ++ [j] ∧
    out = permuted s (drop (S a) (filter P (seq 0 (length s)))).
Proof.
  intros E. pose proof (drop_in_range P a) as Hr. destruct (drop a (filter P (seq 0 (length s)))) as [|j F] eqn:Ed; [done|].
  destruct (drop_cons_S _ _ _ _ Ed) as [EF Et]. subst F. exists j.
  destruct (lookup_lt_is_Some_2 s j) as [x Hx]; [apply Hr; by left|].
  unfold permuted in E. cbn [omap list_omap] in E. rewrite Hx in E. injection E as -> ->.
  assert (j ∈ filter P (seq 0 (length s))) as Hin by (rewrite <- (take_drop a), Ed; apply elem_of_app; right; by left).
  apply list_elem_of_filter in Hin as [HP _]. done.
Qed.

Lemma no_value (P : nat → Prop) `{∀ n, Decision (P n)} a :
  [] = permuted s (drop a (filter P (seq 0 (length s)))) → drop a (filter P (seq 0 (length s))) = [].
Proof.
  intros E. apply length_zero_iff_nil. destruct (permuted_lookup s _ (drop_in_range P a)) as [<- _]. by rewrite <- E.
Qed.

Lemma reshape_perm_run out used a b :
  (∀ k, non_unit_axis s k → k ∈ used ↔ k ∈ take a non_units) → (∀ k, unit_axis k → k ∈ used ↔ k ∈ take b units) →
  filter (fun d => d ≠ 1) out = permuted s (drop a non_units) → filter (fun d => d = 1) out = permuted s (drop b units) →
  ∃ np, reshape_perm_from s out used = Z.of_nat <$> np ∧ permuted s np = out ∧
    filter (non_unit_axis s) np = drop a non_units ∧ filter unit_axis np = drop b units.
Proof.
  revert used a b. induction out as [|d out IH]; intros used a b Hn Hu Hfn Hfu.
  { exists []. split_and!; try done; symmetry; by apply no_value. }
  cbn [reshape_perm_from]. destruct (decide (d = 1)) as [->|Hd].
  - rewrite filter_cons_False in Hfn by (intros H; by apply H). rewrite filter_cons_True in Hfu by done.
    destruct (next_value unit_axis b 1 _ Hfu) as (j & Ed & Hj & HP & Et & Hfu').
    rewrite (take_next unit_axis b j used 1) by (done || (intros k Hk; exact Hk)).
    destruct (IH (j :: used) a (S b)) as (np & -> & Ep & E1 & E2); [| |done|done|].
    + intros k Hk. rewrite elem_of_cons, Hn by done. split; [|tauto]. intros [->|]; [by destruct Hk|done].
    + intros k Hk. unfold units. rewrite elem_of_cons, Et, elem_of_app, list_elem_of_singleton, (Hu k) by done. tauto.
    + exists (j :: np). split_and!; [done| | |].
      * unfold permuted in *. cbn [omap list_omap]. by rewrite Hj, Ep.
      * rewrite filter_cons_False; [done|]. intros H. by apply H.
      * rewrite filter_cons_True by done. unfold units in *. by rewrite E2, Ed.
  - rewrite filter_cons_True in Hfn by done. rewrite filter_cons_False in Hfu by done.
    destruct (next_value (non_unit_axis s) a d _ Hfn) as (j & Ed & Hj & HP & Et & Hfn').
    rewrite (take_next (non_unit_axis s) a j used d) by (done || (intros k Hk; unfold non_unit_axis; congruence)).
    destruct (IH (j :: used) (S a) b) as (np & -> & Ep & E1 & E2); [| |done|done|].
    + intros k Hk. unfold non_units. rewrite elem_of_cons, Et, elem_of_app, list_elem_of_singleton, (Hn k) by done. tauto.
    + intros k Hk. rewrite elem_of_cons, Hu by done. split; [|tauto]. intros [->|]; [by destruct HP|done].
    + exists (j :: np). split_and!; [done| | |].
      * unfold permuted in *. cbn [omap list_omap]. by rewrite Hj, Ep.
      * rewrite filter_cons_True by done. unfold non_units in *. by rewrite E1, Ed.
      * rewrite filter_cons_False; [done|]. unfold unit_axis. congruence.
Qed.

End ReshapePerm.

(** Values at the positions of one kind are the values of that kind, in order. *)
Lemma permuted_select (Q : Z → Prop) `{∀ d, Decision (Q d)} (P : nat → Prop) `{∀ n, Decision (P n)} (s : list Z) :
  (∀ k d, s !! k = Some d → P k ↔ Q d) → permuted s (filter P (seq 0 (length s))) = filter Q s.
Proof.
  intros HPQ. rewrite <- (permuted_seq s) at 3. assert (in_range s (seq 0 (length s))) as Hr by (intros p Hp; apply elem_of_seq in Hp; lia).
  revert Hr. generalize (seq 0 (length s)). intros L Hr. induction L as [|k L IH]; [done|].
  destruct (lookup_lt_is_Some_2 s k) as [d Hd]; [apply Hr; by left|].
  assert (in_range s L) as Hr' by (intros p Hp; apply Hr; by right). specialize (IH Hr').
  unfold permuted in *. cbn [omap list_omap]. rewrite Hd. destruct (decide (P k)) as [Hk|Hk].
  - rewrite filter_cons_True by done. rewrite filter_cons_True by (by eapply HPQ). cbn [omap list_omap]. by rewrite Hd, IH.
  - rewrite filter_cons_False by done. rewrite filter_cons_False; [done|]. by rewrite <- HPQ.
Qed.

(** Filters by a predicate and its negation hold everything. *)
Lemma filter_split {A} (P : A → Prop) `{∀ x, Decision (P x)} (Q : A → Prop) `{∀ x, Decision (Q x)} l :
  (∀ x, x ∈ l → Q x ↔ ¬ P x) → filter P l ++ filter Q l ≡ₚ l.
Proof.
  induction l as [|x l IH]; intros HQ; [done|]. rewrite !filter_cons.
  assert (filter P l ++ filter Q l ≡ₚ l) as IH' by (apply IH; intros y Hy; apply HQ; by right).
  destruct (decide (P x)) as [Hx|Hx].
  - rewrite decide_False by (rewrite HQ; [tauto|by left]). cbn. by rewrite IH'.
  - rewrite decide_True by (apply HQ; [by left|done]). rewrite <- Permutation_middle. by rewrite IH'.
Qed.

Lemma filter_ones l : filter (fun d => d = 1) l = replicate (length l - length (filter (fun d => d ≠ 1) l)) 1.
Proof.
  induction l as [|d l IH]; [done|]. pose proof (length_filter (fun d => d ≠ 1) l). destruct (decide (d = 1)) as [->|Hd].
  - rewrite filter_cons_True by done. rewrite filter_cons_False by (intros H'; by apply H').
    cbn [length]. rewrite Nat.sub_succ_l by done. cbn. by rewrite IH.
  - rewrite filter_cons_False by done. rewrite filter_cons_True by done. exact IH.
Qed.

Lemma reshape_perm_spec s o : IsReshapePermutable s o = true →
  ∃ np, ComputeReshapePerm s o = Z.of_nat <$> np ∧ is_perm np ∧ length np = length s ∧ permuted s np = o ∧
    ∀ l, address s l → flat (permuted l np) = flat l.
Proof.
  unfold IsReshapePermutable. intros [[Hl _]%andb_true_iff Hf%bool_decide_eq_true]%andb_true_iff. apply Nat.eqb_eq in Hl.
  assert (permuted s (non_units s) = filter (fun d => d ≠ 1) s) as En.
  { apply permuted_select. intros k d Hk. unfold non_unit_axis. rewrite Hk. split; congruence. }
  assert (permuted s (units s) = filter (fun d => d = 1) s) as Eu.
  { apply permuted_select. intros k d Hk. unfold unit_axis. rewrite Hk. split; congruence. }
  destruct (reshape_perm_run s o [] 0 0) as (np & Enp & Ep & E1 & E2).
  - intros k _. by rewrite take_0.
  - intros k _. by rewrite take_0.
  - by rewrite drop_0, En.
  - by rewrite drop_0, Eu, !filter_ones, <- Hf, Hl.
  - rewrite drop_0 in E1, E2. exists np.
    assert (np ≡ₚ seq 0 (length s)) as Hperm.
    { rewrite <- (filter_split (non_unit_axis s) (unit_axis s) np), E1, E2.
      - unfold non_units, units. apply filter_split. intros x Hx. unfold non_unit_axis, unit_axis. apply elem_of_seq in Hx.
        destruct (s !! x) as [d|]; [|split; [done|]; intros H; destruct H; done]. destruct (decide (d = 1)); naive_solver.
      - intros x _. unfold non_unit_axis, unit_axis. destruct (decide (s !! x = Some 1)); naive_solver. }
    assert (length np = length s) as Hlen by (rewrite Hperm; apply length_seq).
    split_and!; [done|by unfold is_perm; rewrite Hlen|done|done|].
    intros l [El Hb].
    assert (length l = length s) as Hll by (by rewrite <- El, length_fmap).
    assert (in_range l np) as Hr.
    { intros p Hp. rewrite Hperm in Hp. apply elem_of_seq in Hp. lia. }
    rewrite <- (flat_non_unit (permuted l np)), <- (flat_non_unit l); [|done|].
    + rewrite (permuted_filter s l np) by done. rewrite E1. rewrite <- (permuted_seq l) at 2.
      rewrite (permuted_filter s l (seq 0 (length l))); [by rewrite Hll|done|]. intros p Hp. apply elem_of_seq in Hp. lia.
    + unfold permuted. rewrite Hperm, <- Hll. change (Forall in_bounds (permuted l (seq 0 (length l)))). by rewrite permuted_seq.
Qed.

(** The permutation of a Transpose, with the default of a missing attribute. *)
Definition effective_perm (perm : list Z) (rank : nat) : list Z :=
  match perm with [] => (fun i => Z.of_nat (rank - 1 - i)) <$> seq 0 rank | _ => perm end.

Lemma reshape_transpose s o perm fused : ComputeFusedPerm s o perm = Ok (Some fused) →
  (∀ v, v ∈ fused → 0 ≤ v) ∧ permuted s (to_nats fused) = permuted o (to_nats (effective_perm perm (length o))) ∧
  ∀ p q, moves o (to_nats (effective_perm perm (length o))) p q ↔ moves s (to_nats fused) p q.
Proof.
  unfold ComputeFusedPerm. destruct (IsReshapePermutable s o) eqn:Er; [|done]. cbn [negb].
  destruct (reshape_perm_spec s o Er) as (np & -> & Hnp & Hlen & Eo & Hflat). rewrite length_fmap.
  assert (length o = length s) as Hlo by (by unfold IsReshapePermutable in Er; destruct (Nat.eqb_spec (length s) (length o))).
  fold (effective_perm perm (length np)). rewrite Hlen, <- Hlo. set (tp := effective_perm perm (length o)).
  destruct (Nat.eqb_spec (length tp) (length o)) as [Htl|]; [|done]. cbn [negb].
  destruct (existsb _ tp) eqn:Ex; [done|]. intros Hm. inv_bind Hm. injection Hm as ->. apply mapM_r_Ok in Hm0.
  assert (in_range s np) as Hrs.
  { intros p Hp. apply list_elem_of_lookup in Hp as [i Hi]. rewrite <- Hlen. by eapply is_perm_lt. }
  assert (to_nats fused = permuted np (to_nats tp) ∧ ∀ v, v ∈ fused → 0 ≤ v) as [Ef Hpos].
  { clear -Hm0. induction Hm0 as [|t v tp fused Hv Hm IH]; [split; [done|by intros v ?%elem_of_nil]|].
    apply zget_Ok in Hv as [_ Hv]. rewrite list_lookup_fmap in Hv. destruct IH as [IH1 IH2].
    destruct (np !! Z.to_nat t) as [j|] eqn:Ej; [|done]. injection Hv as <-. split.
    - unfold permuted, to_nats in *. cbn [omap list_omap fmap list_fmap]. rewrite Ej, IH1. f_equal. lia.
    - intros w [->|Hw]%elem_of_cons; [lia|by apply IH2]. }
  split_and!; [done|rewrite Ef, <- Eo; symmetry; by apply permuted_compose|].
  assert (∀ l, address s l → flat l = flat (permuted l np) ∧
    flat (permuted l (to_nats fused)) = flat (permuted (permuted l np) (to_nats tp))) as Hboth.
  { intros l Hl. split; [symmetry; by apply Hflat|]. rewrite Ef, permuted_compose; [done|].
    intros p Hp. rewrite (address_length _ _ Hl). by apply Hrs. }
  intros p q. split; intros (l & Hl & -> & ->).
  - destruct (InvertPerm_spec np (replicate (length np) 0%nat) Hnp) as (inv & _ & Hinv); [by rewrite length_replicate|].
    destruct (inverse_of_perm _ _ Hnp Hinv) as [Hpi Hinv'].
    assert (permuted (permuted l inv) np = l) as Eback.
    { apply permuted_inverse; [|done|done]. rewrite (address_length _ _ Hl), (proj1 Hinv), Hlen. by rewrite Hlo. }
    assert (address s (permuted l inv)) as Hl'.
    { destruct Hl as [El Hb]. split.
      - rewrite <- permuted_fmap, El, <- Eo. by apply permuted_inverse.
      - unfold permuted. unfold is_perm in Hpi. rewrite Hpi, (proj1 Hinv), Hlen, <- Hlo, <- El, length_fmap.
        change (Forall in_bounds (permuted l (seq 0 (length l)))). by rewrite permuted_seq. }
    destruct (Hboth _ Hl') as [E1 E2]. rewrite Eback in E1, E2. by exists (permuted l inv).
  - destruct (Hboth _ Hl) as [E1 E2]. exists (permuted l np). split_and!; [|done|done].
    destruct Hl as [El Hb]. split; [by rewrite <- permuted_fmap, El|].
    unfold permuted. unfold is_perm in Hnp. rewrite Hnp, Hlen, <- El, length_fmap.
    change (Forall in_bounds (permuted l (seq 0 (length l)))). by rewrite permuted_seq.
Qed.

(** ** Channel shuffle *)

(** The ChannelShuffle of QNN along the last axis: the channels, as a matrix of groups, are
    transposed. *)
Definition shuffled (groups channels c : Z) : Z := c mod (channels / groups) * groups + c / (channels / groups).
Definition shuffles (shape : list Z) (groups p q : Z) : Prop :=
  ∃ l channels c, address shape (l ++ [(channels, c)]) ∧ p = flat (l ++ [(channels, c)]) ∧
    q = flat (l ++ [(channels, shuffled groups channels c)]).

Lemma shuffled_split g k G K : 0 ≤ g < G → 0 ≤ k < K → shuffled G (G * K) (g * K + k) = k * G + g.
Proof.
  intros Hg Hk. unfold shuffled. rewrite (Z.mul_comm G K), Z.div_mul by lia.
  rewrite (Z.add_comm (g * K)), Z.mod_add, Z.mod_small, Z.div_add, Z.div_small by lia. lia.
Qed.

Lemma permuted_tail {A} (x y : list A) : permuted (x ++ y) (seq (length x) (length y)) = y.
Proof.
  revert x. induction y as [|u y IH]; intros x; [done|]. unfold permuted in *. cbn [length seq omap list_omap].
  rewrite list_lookup_middle by done. f_equal. specialize (IH (x ++ [u])). rewrite <- app_assoc, length_app, Nat.add_1_r in IH. exact IH.
Qed.

Lemma to_nats_zseq i n : to_nats (zseq i n) = seq i n.
Proof. apply to_nats_of_nat. Qed.

Record core_shape (s inter out perm inter' perm' : list Z) (info : ChannelShuffleCoreInfo) : Prop := {
  core_rank : (3 ≤ length s)%nat;
  core_out : length out = length s;
  core_inter : length inter' = S (length s);
  core_batch : ∃ n, inter' !! 0%nat = Some n ∧ s !! 0%nat = Some n;
  core_collapsed : inter' = inter ∧ perm' = perm ∨
    inter' = 1 :: inter ∧ perm' = 0 :: ((fun axis => axis + 1) <$> perm);
  core_kind : if is_nhwc_decomp info
    then perm' = nhwc_to_nchw_perm (length inter') ∧ nhwc_core s inter' out = Ok (Some info)
    else perm' = nchw_perm (length inter') ∧ nchw_core s inter' out = Ok (Some info)
}.

Lemma core_info_spec s inter out perm info : GetChannelShuffleCoreInfo s inter out perm = Ok (Some info) →
  ∃ inter' perm', core_shape s inter out perm inter' perm' info.
Proof.
  unfold GetChannelShuffleCoreInfo. destruct (Nat.ltb_spec (length s) 3); [done|].
  destruct (Nat.eqb_spec (length out) (length s)); [|done]. cbn [orb negb]. intros H1. inv_bind H1.
  destruct a as [[inter' collapsed]|]; [|done]. inv_bind H1. inv_bind H1. apply aget_Ok in H2, H3.
  destruct (Nat.eqb_spec (length inter') (S (length s))); [|done]. destruct (Z.eqb_spec a a0) as [->|]; [|done]. cbn [orb negb] in H1.
  destruct (collapsed && _); [done|].
  set (perm' := if collapsed then _ else perm) in H1.
  assert (inter' = inter ∧ perm' = perm ∨ inter' = 1 :: inter ∧ perm' = 0 :: ((fun axis => axis + 1) <$> perm)) as Hc.
  { unfold NormalizeChannelShuffleIntermediateShape in H0. destruct (_ =? _)%nat; [by injection H0 as <- <-; left|].
    destruct (negb _); [done|]. inv_bind H0. destruct (_ =? 1); [|done]. injection H0 as <- <-. by right. }
  exists inter', perm'. case_bool_decide as E1.
  - split; try done; [by exists a0|]. assert (is_nhwc_decomp info = false) as ->; [|done].
    unfold nchw_core in H1. inv_bind H1. inv_bind H1. inv_bind H1. destruct (_ || _); [done|]. by injection H1 as <-.
  - case_bool_decide as E2; [|done]. split; try done; [by exists a0|]. assert (is_nhwc_decomp info = true) as ->; [|done].
    unfold nhwc_core in H1. inv_bind H1. inv_bind H1. inv_bind H1. inv_bind H1. destruct (_ || _); [done|]. by injection H1 as <-.
Qed.


Lemma to_nats_lift perm : (∀ v, v ∈ perm → 0 ≤ v) →
  to_nats (0 :: ((fun axis => axis + 1) <$> perm)) = 0%nat :: (S <$> to_nats perm).
Proof.
  intros Hpos. unfold to_nats. rewrite fmap_cons. f_equal. rewrite <- !list_fmap_compose. apply list_fmap_ext.
  intros i v Hv. apply list_elem_of_lookup_2, Hpos in Hv. cbn. lia.
Qed.

(** The batch dimension that was dropped changes nothing. *)
Lemma lifted_moves inter perm p q : (∀ v, v ∈ perm → 0 ≤ v) → NoDup (to_nats perm) →
  moves (1 :: inter) (to_nats (0 :: ((fun axis => axis + 1) <$> perm))) p q ↔ moves inter (to_nats perm) p q.
Proof.
  intros Hpos Hnd. rewrite to_nats_lift by done.
  assert (lower 0 <$> (S <$> to_nats perm) = to_nats perm) as E.
  { rewrite <- list_fmap_compose. rewrite <- (list_fmap_id (to_nats perm)) at 2. apply list_fmap_ext. intros i v _.
    unfold lower. cbn. lia. }
  rewrite <- E at 2. apply (drop_moves [] inter []). cbn. constructor.
  - intros (v & ? & _)%list_elem_of_fmap. done.
  - by apply (NoDup_fmap_2 S).
Qed.

Lemma core_moves s inter out perm inter' perm' info p q : core_shape s inter out perm inter' perm' info →
  NoDup (to_nats perm') → (∀ v, v ∈ perm' → 0 ≤ v) →
  moves inter (to_nats perm) p q ↔ moves inter' (to_nats perm') p q.
Proof.
  intros Hc Hnd Hpos. destruct (core_collapsed _ _ _ _ _ _ _ Hc) as [[-> ->]|[-> ->]]; [done|].
  assert (∀ v, v ∈ perm → 0 ≤ v) as Hpos'.
  { intros v Hv. cbn in Hnd. apply NoDup_cons in Hnd as [Hnd _].
    assert (v + 1 ∈ (fun axis => axis + 1) <$> perm) as Hin by (by apply list_elem_of_fmap_2 with (f := fun axis => axis + 1)).
    assert (0 ≤ v + 1) by (apply Hpos; by right). assert (v + 1 ≠ 0); [|lia]. intros E.
    apply Hnd. apply list_elem_of_fmap. exists 0. split; [done|]. by rewrite <- E. }
  symmetry. apply lifted_moves; [done|]. rewrite to_nats_lift in Hnd by done.
  apply NoDup_cons in Hnd as [_ Hnd]. by apply NoDup_fmap_1 in Hnd.
Qed.

Lemma address_intro d i s l : 0 ≤ i < d → address s l → address (d :: s) ((d, i) :: l).
Proof. intros Hi Hl. apply address_cons. by exists i, l. Qed.

(** One channel dimension as groups and members. *)
Lemma split_channel l l' G K c : 0 < K → 0 ≤ c < G * K →
  let g := c / K in let k := c mod K in
  (0 ≤ g < G ∧ 0 ≤ k < K) ∧ flat (l ++ (G, g) :: (K, k) :: l') = flat (l ++ (G * K, c) :: l') ∧ shuffled G (G * K) c = k * G + g.
Proof.
  intros HK Hc g k.
  assert (c = g * K + k) as E by (unfold g, k; pose proof (Z.div_mod c K); lia).
  assert (0 ≤ k < K) as Hk by (apply Z.mod_pos_bound; lia).
  assert (0 ≤ g < G) as Hg.
  { split; [apply Z.div_pos; lia|]. apply Z.div_lt_upper_bound; lia. }
  split_and!; try lia.
  - rewrite flat_merge. by rewrite E.
  - rewrite E at 1. by apply shuffled_split.
Qed.

Lemma core_channels s inter' G K sp l : address s l → prodZ s = prodZ inter' →
  ∀ n C, s = n :: C :: sp → inter' = n :: G :: K :: sp → C = G * K.
Proof.
  intros [<- Hb] Hp n C E ->. rewrite E in *. pose proof (flat_bounds l Hb) as Hpos. rewrite E in Hpos.
  rewrite !prodZ_cons in *. assert (n * prodZ sp ≠ 0) as Hnz by (intros E0; assert (n * (C * prodZ sp) = C * (n * prodZ sp)) as E1 by ring; rewrite E1, E0 in Hpos; lia).
  apply (Z.mul_reg_l _ _ (n * prodZ sp)); [done|]. rewrite <- Z.mul_assoc in *. lia.
Qed.

Lemma nchw_nats n : to_nats (nchw_perm n) = [0; 2; 1]%nat ++ seq 3 (n - 3).
Proof. unfold nchw_perm. by rewrite to_nats_app, to_nats_zseq. Qed.

Lemma nchw_perm_ok n : NoDup (to_nats (nchw_perm n)) ∧ ∀ v, v ∈ nchw_perm n → 0 ≤ v.
Proof.
  split.
  - rewrite nchw_nats. apply NoDup_app. split_and!; [|intros x Hx Hin; apply elem_of_seq in Hin|apply NoDup_seq].
    + by apply (bool_decide_unpack _).
    + rewrite !elem_of_cons, elem_of_nil in Hx. lia.
  - intros v. unfold nchw_perm, zseq. rewrite elem_of_app, !elem_of_cons, elem_of_nil. intros [Hv|Hv]; [lia|].
    apply list_elem_of_fmap in Hv as (x & -> & _). lia.
Qed.

(** The core on axis 1: Reshape, Transpose, Reshape. *)
Lemma nchw_core_shuffles s inter out perm info l q :
  GetChannelShuffleCoreInfo s inter out perm = Ok (Some info) → is_nhwc_decomp info = false →
  prodZ s = prodZ inter → address s l → moves inter (to_nats perm) (flat l) q →
  out = s ∧ ∃ C c, l !! 1%nat = Some (C, c) ∧ (0 ≤ c < C) ∧ (0 ≤ shuffled (num_groups info) C c < C) ∧
    q = flat (<[1%nat := (C, shuffled (num_groups info) C c)]> l).
Proof.
  intros Hi Hd Hp Hl Hm. destruct (core_info_spec _ _ _ _ _ Hi) as (inter' & perm' & Hc).
  pose proof (core_kind _ _ _ _ _ _ _ Hc) as Hk. rewrite Hd in Hk. destruct Hk as [-> Hk].
  destruct (nchw_perm_ok (length inter')) as [Hnd Hpos].
  rewrite (core_moves _ _ _ _ _ _ _ _ _ Hc Hnd Hpos), nchw_nats in Hm.
  assert (prodZ s = prodZ inter') as Hp'.
  { rewrite Hp. destruct (core_collapsed _ _ _ _ _ _ _ Hc) as [[-> _]|[-> _]]; [done|]. rewrite prodZ_cons. lia. }
  pose proof (core_rank _ _ _ _ _ _ _ Hc). pose proof (core_inter _ _ _ _ _ _ _ Hc) as Hli.
  destruct (core_batch _ _ _ _ _ _ _ Hc) as (n & En & En').
  unfold nchw_core in Hk. inv_bind Hk. inv_bind Hk. inv_bind Hk.
  destruct (bool_decide_reflect (out = s)) as [->|]; [|done]. cbn [negb orb] in Hk.
  destruct (a =? _) eqn:Eu; [|done]. cbn [negb orb] in Hk. case_bool_decide as Esp; [|done]. injection Hk as <-. cbn [num_groups].
  apply aget_Ok in Hk0, Hk1, Hk2.
  destruct s as [|n1 [|C sp]]; [done..|]. destruct inter' as [|n2 [|G [|K sp']]]; [done..|]. cbn in En, En', Hk0, Hk1, Hk2, Esp.
  simplify_eq. pose proof (core_channels _ _ a0 a1 sp' l Hl Hp' n a eq_refl eq_refl) as ->. split; [done|].
  apply address_cons in Hl as (i & l1 & -> & Hin & Hl). apply address_cons in Hl as (c & ls & -> & Hcb & Hl).
  destruct Hm as (l' & Hl' & Ep & ->).
  assert (0 < a1) as Ha1.
  { destruct Hl' as [E Hb]. assert (a1 ∈ l'.*1) as (x & -> & Hx)%list_elem_of_fmap by (rewrite E; set_solver).
    rewrite Forall_forall in Hb. apply Hb in Hx as [? ?]. lia. }
  destruct (split_channel [(n, i)] ls a0 a1 c Ha1 Hcb) as ((Hg & Hk) & Ef & Es). cbn zeta in *.
  assert (l' = (n, i) :: (a0, c / a1) :: (a1, c mod a1) :: ls) as ->.
  { apply (flat_inj (n :: a0 :: a1 :: sp')); [done| |rewrite <- Ep; symmetry; exact Ef].
    by repeat apply address_intro. }
  exists (a0 * a1), c. rewrite Es. split_and!; [done|lia|lia|nia|nia|].
  cbn [length Nat.sub]. rewrite Nat.sub_0_r.
  rewrite permuted_app, <- (address_length _ _ Hl).
  change ((n, i) :: (a0, c / a1) :: (a1, c mod a1) :: ls) with ([(n, i); (a0, c / a1); (a1, c mod a1)] ++ ls).
  rewrite (permuted_tail [_; _; _] ls). cbn [permuted omap list_omap lookup app insert list_insert].
  rewrite (Z.mul_comm a0 a1). exact (flat_merge [(n, i)] ls a1 (c mod a1) a0 (c / a1)).
Qed.

Lemma permuted_insert {A} (l : list A) perm i j v : NoDup perm → in_range l perm → perm !! i = Some j →
  permuted (<[j := v]> l) perm = <[i := v]> (permuted l perm).
Proof.
  intros Hnd Hr Hi. assert (in_range (<[j := v]> l) perm) as Hr'.
  { intros p Hp. rewrite length_insert. by apply Hr. }
  apply list_eq. intros k. rewrite permuted_bind by done. destruct (decide (i = k)) as [<-|Hne].
  - assert (j < length l)%nat as Hj by (apply Hr; by eapply list_elem_of_lookup_2).
    rewrite Hi. cbn. rewrite !list_lookup_insert_eq; [done| |done].
    apply lookup_lt_is_Some_1. rewrite permuted_bind by done. rewrite Hi. cbn. by apply lookup_lt_is_Some_2.
  - rewrite list_lookup_insert_ne, permuted_bind by done. destruct (perm !! k) as [j'|] eqn:Ek; [|done]. cbn.
    apply list_lookup_insert_ne. intros <-. apply Hne. by eapply NoDup_lookup.
Qed.

Lemma canceling_spec H T : onnx_perm H → IsCancelingTransposePermPair H T = true → inverse_of (to_nats H) (to_nats T).
Proof.
  intros [Hpos Hp] Hc. unfold IsCancelingTransposePermPair in Hc.
  destruct (_ && negb _); [|done]. cbn [andb] in Hc. fold (to_nats H) in Hc.
  destruct (InvertPerm_spec (to_nats H) (replicate (length H) 0%nat)) as (inv & Ei & Hinv); [done|..].
  { by rewrite length_replicate; unfold to_nats; rewrite length_fmap. }
  rewrite Ei in Hc. case_bool_decide as E; [|done]. by rewrite <- E, to_nats_of_nat.
Qed.

Lemma address_permuted s l perm : is_perm perm → length perm = length s → address s l →
  address (permuted s perm) (permuted l perm).
Proof.
  intros Hp Hlen [<- Hb]. rewrite length_fmap in Hlen. split; [by rewrite permuted_fmap|].
  unfold permuted. unfold is_perm in Hp. rewrite Hp, Hlen.
  change (Forall in_bounds (permuted l (seq 0 (length l)))). by rewrite permuted_seq.
Qed.

Lemma address_insert s l i d c : address s l → s !! i = Some d → 0 ≤ c < d → address s (<[i := (d, c)]> l).
Proof.
  intros [<- Hb] Hi Hc. split.
  - rewrite list_fmap_insert. apply list_insert_id. done.
  - by apply Forall_insert.
Qed.

Lemma address_moves s l perm q : address s l → moves s perm (flat l) q → q = flat (permuted l perm).
Proof. intros Hl (l' & Hl' & E & ->). by rewrite (flat_inj s l l'). Qed.

(** The pattern of five nodes. *)
Lemma wrapped_shuffle s H T inter out perm groups p q0 q1 q2 :
  wrapped_groups H T (permuted s (to_nats H)) inter out perm = Ok (Some groups) →
  onnx_perm H → length H = length s → prodZ (permuted s (to_nats H)) = prodZ inter →
  moves s (to_nats H) p q0 → moves inter (to_nats perm) q0 q1 → moves out (to_nats T) q1 q2 →
  shuffles s groups p q2.
Proof.
  intros Hw Hon Hlen Hp (l & Hl & -> & ->) H1 H2. unfold wrapped_groups in Hw. inv_bind Hw.
  destruct a as [info|]; [|done]. destruct (is_nhwc_decomp info) eqn:Ed; [done|].
  destruct (head_tail_ok H T) eqn:Eh; [|done]. injection Hw as <-.
  assert (length (to_nats H) = length s) as Hln by (unfold to_nats; by rewrite length_fmap).
  pose proof (address_permuted s l _ (proj2 Hon) Hln Hl) as Hl0.
  destruct (nchw_core_shuffles _ _ _ _ _ _ _ Hw0 Ed Hp Hl0 H1) as (-> & C & c & El & Hc & Hs & ->).
  unfold head_tail_ok in Eh. apply andb_prop in Eh as [Eh Eh1]. apply andb_prop in Eh as [Ec _].
  destruct (H !! 1%nat) as [h|] eqn:EH; [|done]. apply Z.eqb_eq in Eh1 as ->.
  pose proof (canceling_spec H T Hon Ec) as Hinv. destruct (inverse_of_perm _ _ (proj2 Hon) Hinv) as [_ _].
  assert (to_nats H !! 1%nat = Some (length l - 1)%nat) as EH'.
  { unfold to_nats. rewrite list_lookup_fmap, EH. cbn. f_equal. rewrite (address_length _ _ Hl). lia. }
  pose proof (onnx_perm_range l H Hon) as Hr. rewrite (address_length _ _ Hl) in Hr. specialize (Hr Hlen).
  set (v := (C, shuffled (num_groups info) C c)) in *.
  rewrite permuted_bind, EH' in El by done. cbn in El.
  assert (s !! (length l - 1)%nat = Some C) as EC by (destruct Hl as [<- _]; by rewrite list_lookup_fmap, El).
  pose proof (address_insert s l _ _ _ Hl EC Hs) as Hlv. fold v in Hlv.
  rewrite <- (permuted_insert l (to_nats H) 1 (length l - 1) v) in H2; [|by apply is_perm_NoDup, Hon|done|done].
  apply (address_moves _ _ _ _ (address_permuted s _ _ (proj2 Hon) Hln Hlv)) in H2 as ->.
  rewrite permuted_inverse; [|by rewrite (address_length _ _ Hlv)|apply Hon|done].
  destruct (exists_last (l := l)) as (l' & [C' c'] & ->); [by intros ->|].
  rewrite length_app, Nat.add_sub in El. rewrite list_lookup_middle in El by done. injection El as -> ->.
  exists l', C, c. split_and!; [done|done|]. rewrite length_app, Nat.add_sub. f_equal. by rewrite insert_app_r_alt, Nat.sub_diag by done.
Qed.

Lemma nhwc_perm_ok n : (4 ≤ n)%nat → NoDup (to_nats (nhwc_to_nchw_perm n)) ∧ ∀ v, v ∈ nhwc_to_nchw_perm n → 0 ≤ v.
Proof.
  intros Hn. unfold nhwc_to_nchw_perm. split.
  - rewrite to_nats_app, to_nats_zseq. apply NoDup_app. split_and!; [|intros x Hx Hin; apply elem_of_seq in Hin|apply NoDup_seq].
    + cbn. rewrite !Nat2Z.id. repeat constructor; rewrite ?elem_of_cons, elem_of_nil; lia.
    + cbn in Hx. rewrite !Nat2Z.id, !elem_of_cons, elem_of_nil in Hx. lia.
  - intros v. unfold zseq. rewrite elem_of_app, !elem_of_cons, elem_of_nil. intros [Hv|Hv]; [lia|].
    apply list_elem_of_fmap in Hv as (x & -> & _). lia.
Qed.

(** The pattern of four nodes, whose core starts in NHWC. *)
Lemma bare_shuffle s inter out perm T result groups p q1 q2 :
  bare_groups s inter out perm T result = Ok (Some groups) →
  length T = length out → prodZ s = prodZ inter → (∃ l, address s l ∧ p = flat l) →
  moves inter (to_nats perm) p q1 → moves out (to_nats T) q1 q2 →
  shuffles s groups p q2 ∧ result = s.
Proof.
  intros Hw HT Hp (l & Hl & ->) H1 H2. unfold bare_groups in Hw. inv_bind Hw.
  destruct a as [info|]; [|done]. destruct (is_nhwc_decomp info) eqn:Ed; [|done]. cbn [negb] in Hw.
  case_bool_decide as ET; [|done]. subst T. cbn [negb] in Hw. destruct (_ <? _)%nat; [done|]. cbn [orb] in Hw.
  case_bool_decide as Er; [|done]. injection Hw as <-. split; [|done]. clear Er result. cbn in HT.
  destruct (core_info_spec _ _ _ _ _ Hw0) as (inter' & perm' & Hc).
  pose proof (core_out _ _ _ _ _ _ _ Hc) as Ho. pose proof (core_inter _ _ _ _ _ _ _ Hc) as Hli.
  pose proof (core_kind _ _ _ _ _ _ _ Hc) as Hk. rewrite Ed in Hk. destruct Hk as [-> Hk].
  destruct (nhwc_perm_ok (length inter')) as [Hnd Hpos]; [lia|].
  rewrite (core_moves _ _ _ _ _ _ _ _ _ Hc Hnd Hpos) in H1.
  assert (prodZ s = prodZ inter') as Hp'.
  { rewrite Hp. destruct (core_collapsed _ _ _ _ _ _ _ Hc) as [[-> _]|[-> _]]; [done|]. rewrite prodZ_cons. lia. }
  destruct (core_batch _ _ _ _ _ _ _ Hc) as (n & En & En'). rewrite <- HT in Ho.
  unfold nhwc_core in Hk. rewrite Hli, <- Ho in Hk. cbn [Nat.sub] in Hk. do 4 inv_bind Hk.
  apply aget_Ok in Hk0, Hk1, Hk2, Hk3.
  destruct s as [|n1 [|h [|w [|C [|]]]]]; try done. destruct inter' as [|n2 [|h' [|w' [|G [|K [|]]]]]]; try done.
  cbn in En, En', Hk0, Hk1, Hk2, Hk3. simplify_eq.
  destruct (a0 =? _); [|done]. cbn [negb orb] in Hk. cbn [take drop] in Hk.
  case_bool_decide as E1; [|done]. cbn [negb orb] in Hk. case_bool_decide as E2; [|done]. injection Hk as <-. cbn [num_groups].
  injection E1 as -> ->. subst out. rename a into n. clear Hc Hli HT Ho Hnd Hpos Hw0 Ed Hp.
  apply address_cons in Hl as (i & l1 & -> & Hi & Hl). apply address_cons in Hl as (x & l2 & -> & Hx & Hl).
  apply address_cons in Hl as (y & l3 & -> & Hy & Hl). apply address_cons in Hl as (c & l4 & -> & Hcb & Hl).
  destruct Hl as [E%fmap_nil_inv _]. subst l4.
  assert (a0 = a1 * a2) as ->.
  { rewrite !prodZ_cons in Hp'. cbn in Hp'. apply (Z.mul_reg_l _ _ (n * h' * w')); [rewrite !Z.mul_eq_0; lia|lia]. }
  destruct H1 as (l' & Hl' & Ep & ->).
  assert (0 < a2) as Ha2.
  { destruct Hl' as [E Hb]. assert (a2 ∈ l'.*1) as (z & -> & Hz)%list_elem_of_fmap by (rewrite E; set_solver).
    rewrite Forall_forall in Hb. apply Hb in Hz as [? ?]. lia. }
  destruct (split_channel [(n, i); (h', x); (w', y)] [] a1 a2 c Ha2 Hcb) as ((Hg & Hk) & Ef & Es). cbn zeta in *.
  assert (l' = [(n, i); (h', x); (w', y); (a1, c / a2); (a2, c mod a2)]) as ->.
  { apply (flat_inj [n; h'; w'; a1; a2]); [done| |rewrite <- Ep; symmetry; exact Ef].
    by repeat apply address_intro. }
  assert (flat (permuted [(n, i); (h', x); (w', y); (a1, c / a2); (a2, c mod a2)] (to_nats (nhwc_to_nchw_perm 5))) =
          flat [(n, i); (a1 * a2, shuffled a1 (a1 * a2) c); (h', x); (w', y)]) as E3.
  { rewrite Es, (Z.mul_comm a1 a2). exact (flat_merge [(n, i)] [(h', x); (w', y)] a2 (c mod a2) a1 (c / a2)). }
  cbn [length] in H2. rewrite E3 in H2. apply address_moves in H2 as ->.
  - exists [(n, i); (h', x); (w', y)], (a1 * a2), c. split_and!; [|done|done]. by repeat apply address_intro.
  - repeat apply address_intro; try done. rewrite Es. nia.
Qed.

(** ** The fusions keep what the graph computes *)

(** C26: the Transpose of lower rank that [Rank5ToRank4Fusion] and [Rank6ToRank5Fusion] emit between
    their two Reshapes moves every element to the position to which the Transpose of the graph moves
    it, the merged shape has as many elements, and the shape given for the Transpose's output is the
    permuted shape. *)
Theorem rank_reduction_sound :
  (∀ t1 t2 perm k s4 s4' perm4, Rank4_params t1 t2 perm k = Ok (s4, s4', perm4) → Forall (Z.le 0) t1 →
    length s4 = 4%nat ∧ s4' = permuted s4 (to_nats perm4) ∧ prodZ s4 = prodZ t1 ∧
    ∀ p q, moves t1 (to_nats perm) p q ↔ moves s4 (to_nats perm4) p q) ∧
  (∀ t1 t2 perm red s5 s5' perm5, rank6_reduction t1 t2 perm = Some red → Rank5_params t1 t2 perm red = Ok (s5, s5', perm5) →
    onnx_perm perm → Forall (Z.le 0) t1 → t2 = permuted t1 (to_nats perm) →
    length s5 = 5%nat ∧ s5' = permuted s5 (to_nats perm5) ∧ prodZ s5 = prodZ t1 ∧
    ∀ p q, moves t1 (to_nats perm) p q ↔ moves s5 (to_nats perm5) p q).
Proof. split; intros *; [apply rank4_reduction|apply rank5_reduction]. Qed.

Lemma rank_reduction_sound_witness :
  FindAdjacentMergeIndex [0; 3; 1; 2; 4] = Some 2%nat ∧
  (∀ p q, moves [1; 8; 4; 2; 6] (to_nats [0; 3; 1; 2; 4]) p q ↔ moves [1; 32; 2; 6] [0; 2; 1; 3]%nat p q) ∧
  (∀ p q, moves [2; 1; 3; 4; 5; 6] (to_nats [2; 1; 0; 3; 5; 4]) p q ↔ moves [2; 3; 4; 5; 6] [1; 0; 2; 4; 3]%nat p q).
Proof.
  split_and!; [done| |].
  - by destruct (proj1 rank_reduction_sound [1; 8; 4; 2; 6] [1; 2; 8; 4; 6] [0; 3; 1; 2; 4] 2%nat
      [1; 32; 2; 6] [1; 2; 32; 6] [0; 2; 1; 3]) as (_ & _ & _ & H); [done|repeat constructor; lia|].
  - destruct (proj2 rank_reduction_sound [2; 1; 3; 4; 5; 6] [3; 1; 2; 4; 6; 5] [2; 1; 0; 3; 5; 4] (Squeeze 1)
      [2; 3; 4; 5; 6] [3; 2; 4; 6; 5] [1; 0; 2; 4; 3]) as (_ & _ & _ & H); [done|done| |repeat constructor; lia|done|done].
    split; [repeat constructor; lia|by apply (bool_decide_unpack _)].
Defined.

(** C27: when [CanFuseToReshape] accepts a chain Transpose, Reshape, Transpose, the chain leaves every
    element where it was and the shape it gives is the chain's output shape, so one Reshape replaces
    it; and the permutation that [ComputeFusedPerm] gives for a chain Reshape, Transpose moves every
    element as the chain does and permutes the input's shape into the output's, a missing [perm]
    attribute taken as the reversal. *)
Theorem reshape_fusions_sound :
  (∀ s perm1 inter rs perm2 out fused, CanFuseToReshape s perm1 inter rs perm2 out = Ok (Some fused) →
    onnx_perm perm1 → length perm1 = length s → inter = permuted s (to_nats perm1) →
    onnx_perm perm2 → length perm2 = length rs → out = permuted rs (to_nats perm2) →
    fused = out ∧ ∀ p q r, moves s (to_nats perm1) p q → moves rs (to_nats perm2) q r → r = p) ∧
  (∀ s o perm fused, ComputeFusedPerm s o perm = Ok (Some fused) →
    permuted s (to_nats fused) = permuted o (to_nats (effective_perm perm (length o))) ∧
    ∀ p q, moves o (to_nats (effective_perm perm (length o))) p q ↔ moves s (to_nats fused) p q).
Proof.
  split; [intros *; apply transpose_reshape_transpose|]. intros s o perm fused H.
  by destruct (reshape_transpose s o perm fused H) as (_ & ? & ?).
Qed.

Lemma reshape_fusions_sound_witness :
  (∀ p q r, moves [2; 3; 4; 5] (to_nats [0; 2; 3; 1]) p q → moves [2; 20; 3] (to_nats [0; 2; 1]) q r → r = p) ∧
  (∀ p q, moves [1; 3; 4] [2; 1; 0]%nat p q ↔ moves [3; 1; 4] [2; 0; 1]%nat p q).
Proof.
  split.
  - refine (proj2 (proj1 reshape_fusions_sound [2; 3; 4; 5] [0; 2; 3; 1] [2; 4; 5; 3] [2; 20; 3] [0; 2; 1] [2; 3; 20] [2; 3; 20]
      _ _ _ _ _ _ _)); try done; (split; [repeat constructor; lia|by apply (bool_decide_unpack _)]).
  - exact (proj2 (proj2 reshape_fusions_sound [3; 1; 4] [1; 3; 4] [] [2; 0; 1] eq_refl)).
Defined.

(** When the conditions of [ChannelShuffleFusion] hold, the chain Transpose, Reshape, Transpose,
    Reshape, Transpose and the chain without the first Transpose move every element as QNN's
    ChannelShuffle along the last axis with the number of groups that the fusion emits; the shorter
    chain also keeps the shape. *)
Theorem channel_shuffle_sound :
  (∀ s H T inter out perm groups p q0 q1 q2,
    wrapped_groups H T (permuted s (to_nats H)) inter out perm = Ok (Some groups) →
    onnx_perm H → length H = length s → prodZ (permuted s (to_nats H)) = prodZ inter →
    moves s (to_nats H) p q0 → moves inter (to_nats perm) q0 q1 → moves out (to_nats T) q1 q2 →
    shuffles s groups p q2) ∧
  (∀ s inter out perm T result groups p q1 q2, bare_groups s inter out perm T result = Ok (Some groups) →
    length T = length out → prodZ s = prodZ inter → (∃ l, address s l ∧ p = flat l) →
    moves inter (to_nats perm) p q1 → moves out (to_nats T) q1 q2 →
    shuffles s groups p q2 ∧ result = s).
Proof. split; [exact wrapped_shuffle|exact bare_shuffle]. Qed.

Definition at_index (shape idx : list Z) : list (Z * Z) := zip shape idx.

(** The element at channel 4 of 6, in three groups: member 0 of group 2 becomes channel 2. *)
Lemma channel_shuffle_sound_witness :
  shuffles [1; 2; 2; 6] 3 (flat (at_index [1; 2; 2; 6] [0; 1; 0; 4])) (flat (at_index [1; 2; 2; 6] [0; 1; 0; 2])) ∧
  shuffles [1; 2; 2; 6] 3 (flat (at_index [1; 2; 2; 6] [0; 1; 0; 4])) (flat (at_index [1; 2; 2; 6] [0; 1; 0; 2])).
Proof.
  split.
  - apply (proj1 channel_shuffle_sound [1; 2; 2; 6] [0; 3; 1; 2] [0; 2; 3; 1] [3; 2; 2; 2] [1; 6; 2; 2] [1; 0; 2; 3] 3
      _ (flat (at_index [1; 6; 2; 2] [0; 4; 1; 0])) (flat (at_index [1; 6; 2; 2] [0; 2; 1; 0])));
      [done|split; [repeat constructor; lia|by apply (bool_decide_unpack _)]|done|done|..].
    + exists (at_index [1; 2; 2; 6] [0; 1; 0; 4]). split_and!; [split; [done|repeat constructor; cbn; lia]|done|done].
    + exists (at_index [3; 2; 2; 2] [2; 0; 1; 0]). split_and!; [split; [done|repeat constructor; cbn; lia]|done|done].
    + exists (at_index [1; 6; 2; 2] [0; 2; 1; 0]). split_and!; [split; [done|repeat constructor; cbn; lia]|done|done].
  - apply (proj2 channel_shuffle_sound [1; 2; 2; 6] [1; 2; 2; 3; 2] [1; 6; 2; 2] [0; 4; 3; 1; 2] [0; 2; 3; 1] [1; 2; 2; 6] 3
      _ (flat (at_index [1; 2; 3; 2; 2] [0; 0; 2; 1; 0]))); [done|done|done|..].
    + exists (at_index [1; 2; 2; 6] [0; 1; 0; 4]). split; [split; [done|repeat constructor; cbn; lia]|done].
    + exists (at_index [1; 2; 2; 3; 2] [0; 1; 0; 2; 0]). split_and!; [split; [done|repeat constructor; cbn; lia]|done|done].
    + exists (at_index [1; 6; 2; 2] [0; 2; 1; 0]). split_and!; [split; [done|repeat constructor; cbn; lia]|done|done].
Defined.

(** A Transpose without a [perm] attribute: [CanFuseToReshape] reads the empty vector out of bounds. *)
Example reshape_fusion_reads_missing_perm : CanFuseToReshape [2; 3] [] [3; 2] [3; 2] [] [2; 3] = Err Trap.
Proof. reflexivity. Qed.
