(* ===== verification/Partition.v ===== *)
(** * Partitioning the graph

    [CreateSupportedPartitionNodeGroups] of [qnn_ep_partition_utils.cc] and the
    edge queries of [OrtNodeUnit] in [ort_api.cc]: the nodes that the provider
    supports are collected into groups that can each run as one QNN graph.

    A node is named by its id, which stands for the [OrtNode*] and for [Index()].
    The ORT graph is reached through the API record: [None] is a failing call. *)

From Stdlib Require Import Sorted.
From S2P Require Import Prelude.

(** ** Node units *)

Inductive UnitType := SingleNode | QDQGroup.

Record OrtNodeUnit := NodeUnit {
  type_ : UnitType;
  target_node_ : nat;
  dq_nodes_ : list nat;
  q_nodes_ : list nat;
  output_reshape_node_ : option nat;
  redundant_clip_node_ : option nat
}.

Definition GetAllNodesInGroup (u : OrtNodeUnit) : list nat :=
  dq_nodes_ u ++ [target_node_ u] ++ option_list (output_reshape_node_ u)
  ++ option_list (redundant_clip_node_ u) ++ q_nodes_ u.

(** The ORT graph API: for each input of a node its producing node (null inputs, failing
    calls and inputs without producer are [None]), for each output its consumers. *)
Record GraphApi := {
  Graph_GetNodes : option (list nat);
  Node_GetInputProducers : nat → option (list (option nat));
  Node_GetOutputConsumers : nat → option (list (option (list nat)));
  Node_GetEpName : nat → option string
}.

Section Edges.
Variable api : GraphApi.

Definition count_edges (target_node : nat) : nat :=
  match Node_GetInputProducers api target_node with
  | None => 0
  | Some inputs => length (omap id inputs)
  end.

Definition GetInputEdgesCount (u : OrtNodeUnit) : Z :=
  match type_ u with
  | SingleNode => Z.of_nat (count_edges (target_node_ u))
  | QDQGroup =>
      let edges := foldl (fun acc node => acc + count_edges node) 0 (dq_nodes_ u) in
      u64 (Z.of_nat edges + Z.of_nat (count_edges (target_node_ u)) - Z.of_nat (length (dq_nodes_ u)))%Z
  end.

Definition get_consumers (target_node : nat) : list nat :=
  match Node_GetOutputConsumers api target_node with
  | None => []
  | Some outputs => mjoin (omap id outputs)
  end.

Definition GetOutputNodes (u : OrtNodeUnit) : list nat :=
  let output_producer :=
    match redundant_clip_node_ u, output_reshape_node_ u with
    | Some c, _ => c
    | None, Some r => r
    | None, None => target_node_ u
    end in
  mjoin ((fun output_node =>
    if decide (output_node ∈ q_nodes_ u) then get_consumers output_node else [output_node])
    <$> get_consumers output_producer).

(** ** Partitioning *)

Variable node_unit_map : gmap nat OrtNodeUnit.
Variable supported_nodes : list nat.
Variable ep_type : string.

Definition unit_at (node : nat) : result OrtNodeUnit :=
  match node_unit_map !! node with Some u => Ok u | None => Err (Throw "out_of_range") end.

Record state := State {
  in_degree : gmap nat Z;
  nodes_to_process : list nat;
  nodes_to_process_with_next_group : list nat;
  supported_group : list nat;
  supported_group_border : gset nat;
  supported_groups : list (list nat);
  num_nodes_processed : nat
}.

(** In-degrees and root nodes; nodes that are not the target of their unit are skipped. *)
Definition init_node (acc : gmap nat Z * list nat) (node : nat) : result (gmap nat Z * list nat) :=
  let* u := unit_at node in
  if negb (target_node_ u =? node) then Ok acc
  else
    let degree := GetInputEdgesCount u in
    let m := match acc.1 !! target_node_ u with
             | Some _ => acc.1
             | None => <[target_node_ u := degree]> acc.1
             end in
    Ok (m, if (degree =? 0)%Z then acc.2 ++ [node] else acc.2).

Definition close_group (st : state) : state :=
  match supported_group st with
  | [] => st
  | g => State (in_degree st) (nodes_to_process st) (nodes_to_process_with_next_group st)
           [] ∅ (supported_groups st ++ [g]) (num_nodes_processed st)
  end.

Definition is_node_supported (node : nat) (node_ep_name : string) : bool :=
  (bool_decide (node_ep_name = "") || bool_decide (node_ep_name = ep_type))
  && bool_decide (node ∈ supported_nodes).

(** The loop over the downstream nodes: border, in-degrees, newly ready nodes. *)
Definition visit_output (supported : bool) (acc : gset nat * gmap nat Z * list nat) (output_node : nat)
  : result (gset nat * gmap nat Z * list nat) :=
  let '(border, degrees, queue) := acc in
  let* downstream := unit_at output_node in
  let downstream_node := target_node_ downstream in
  let border := if supported then {[ downstream_node ]} ∪ border else border in
  let d := u64 (default 0%Z (degrees !! downstream_node) - 1)%Z in
  let degrees := <[downstream_node := d]> degrees in
  Ok (border, degrees, if (d =? 0)%Z then queue ++ [downstream_node] else queue).

(** One iteration of the [while] loop on a non-empty work list. *)
Definition step (st : state) : result state :=
  match nodes_to_process st with
  | [] =>
      let st := close_group st in
      Ok (State (in_degree st) (nodes_to_process_with_next_group st) [] (supported_group st)
            (supported_group_border st) (supported_groups st) (num_nodes_processed st))
  | node :: queue =>
      let* u := unit_at node in
      match Node_GetEpName api node with
      | None =>
          Ok (State (in_degree st) queue (nodes_to_process_with_next_group st) (supported_group st)
                (supported_group_border st) (supported_groups st) (num_nodes_processed st))
      | Some name =>
          let supported := is_node_supported node name in
          if negb supported && bool_decide (node ∈ supported_group_border st) then
            Ok (State (in_degree st) queue (nodes_to_process_with_next_group st ++ [node])
                  (supported_group st) (supported_group_border st) (supported_groups st)
                  (num_nodes_processed st))
          else
            let group :=
              if supported then
                supported_group st ++
                match type_ u with
                | QDQGroup => dq_nodes_ u ++ [node] ++ option_list (output_reshape_node_ u)
                              ++ option_list (redundant_clip_node_ u) ++ q_nodes_ u
                | SingleNode => [node]
                end
              else supported_group st in
            let border :=
              if supported then
                match type_ u with
                | QDQGroup => supported_group_border st ∖ list_to_set (option_list (output_reshape_node_ u))
                                ∖ list_to_set (option_list (redundant_clip_node_ u)) ∖ {[ node ]}
                | SingleNode => supported_group_border st ∖ {[ node ]}
                end
              else supported_group_border st in
            let* (border, degrees, queue) :=
              foldM (visit_output supported) (GetOutputNodes u) (border, in_degree st, queue) in
            Ok (State degrees queue (nodes_to_process_with_next_group st) group border
                  (supported_groups st) (S (num_nodes_processed st)))
      end
  end.

Definition done (st : state) : bool :=
  match nodes_to_process st, nodes_to_process_with_next_group st with [], [] => true | _, _ => false end.

Fixpoint loop (fuel : nat) (st : state) : result state :=
  if done st then Ok st
  else match fuel with
  | O => Err Trap
  | S fuel => let* st := step st in loop fuel st
  end.

Definition CreateSupportedPartitionNodeGroups : result (list (list nat)) :=
  match Graph_GetNodes api with
  | None => Ok []
  | Some graph_nodes =>
      let* (degrees, roots) := foldM init_node graph_nodes (∅, []) in
      let* st := loop (3 * length graph_nodes + 1) (State degrees roots [] [] ∅ [] 0) in
      let st := close_group st in
      if negb (num_nodes_processed st =? size (in_degree st)) then
        Err (Throw "Processed nodes. Expected to process")
      else Ok (supported_groups st)
  end.

End Edges.

(** ** Correctness

    What the partitioning relies on: every node belongs to a unit, units have distinct
    targets, the in-degree of a unit is the number of edges that enter it, and the
    units form an acyclic graph. *)

(** Number of occurrences of [v]. *)
Definition cnt (v : nat) (l : list nat) : nat := length (filter (eq v) l).

Record wf_graph (api : GraphApi) (node_unit_map : gmap nat OrtNodeUnit) (nodes : list nat)
  (unit_of : nat → OrtNodeUnit) (ep_name : nat → string) (rank : nat → nat) : Prop := {
  wf_nodes : Graph_GetNodes api = Some nodes;
  wf_NoDup : NoDup nodes;
  wf_unit : ∀ n, n ∈ nodes → node_unit_map !! n = Some (unit_of n);
  wf_target : ∀ n, n ∈ nodes →
    target_node_ (unit_of n) ∈ nodes ∧ unit_of (target_node_ (unit_of n)) = unit_of n;
  wf_outputs : ∀ n o, n ∈ nodes → o ∈ GetOutputNodes api (unit_of n) → o ∈ nodes;
  wf_degree : ∀ v, v ∈ nodes → target_node_ (unit_of v) = v →
    GetInputEdgesCount api (unit_of v) =
      Z.of_nat (sum_list_with
        (fun u => cnt v ((fun o => target_node_ (unit_of o)) <$> GetOutputNodes api (unit_of u)))
        (filter (fun n => target_node_ (unit_of n) = n) nodes)) ∧
    (GetInputEdgesCount api (unit_of v) < 2 ^ 64)%Z;
  wf_acyclic : ∀ u o, u ∈ nodes → target_node_ (unit_of u) = u → o ∈ GetOutputNodes api (unit_of u) →
    rank u < rank (target_node_ (unit_of o));
  wf_ep : ∀ n, n ∈ nodes → Node_GetEpName api n = Some (ep_name n);
  wf_inner : ∀ n v, n ∈ nodes → v ∈ nodes → target_node_ (unit_of v) = v →
    output_reshape_node_ (unit_of n) ≠ Some v ∧ redundant_clip_node_ (unit_of n) ≠ Some v
}.

Lemma cnt_app v l k : cnt v (l ++ k) = cnt v l + cnt v k.
Proof. unfold cnt. by rewrite filter_app, length_app. Qed.

Lemma cnt_cons v x l : cnt v (x :: l) = (if decide (v = x) then 1 else 0) + cnt v l.
Proof. unfold cnt. rewrite filter_cons. by case_decide. Qed.

Lemma cnt_pos v l : 0 < cnt v l ↔ v ∈ l.
Proof.
  induction l as [|x l IH]; [cbn; split; [lia|set_solver]|].
  rewrite cnt_cons, elem_of_cons. case_decide; [split; [tauto|lia]|].
  cbn. rewrite IH. naive_solver.
Qed.

Section Correct.
Variables (api : GraphApi) (node_unit_map : gmap nat OrtNodeUnit) (nodes : list nat).
Variables (unit_of : nat → OrtNodeUnit) (ep_name : nat → string) (rank : nat → nat).
Variables (supported_nodes : list nat) (ep_type : string).
Hypothesis Hwf : wf_graph api node_unit_map nodes unit_of ep_name rank.

Definition tgt (n : nat) : nat := target_node_ (unit_of n).
Definition targets : list nat := filter (fun n => target_node_ (unit_of n) = n) nodes.
Definition succ (u : nat) : list nat := tgt <$> GetOutputNodes api (unit_of u).
Definition sup (u : nat) : bool := is_node_supported supported_nodes ep_type u (ep_name u).
Definition seen (l : list nat) (v : nat) : nat := sum_list_with (fun u => cnt v (succ u)) l.

Lemma elem_of_targets v : v ∈ targets ↔ v ∈ nodes ∧ tgt v = v.
Proof. unfold targets, tgt. rewrite list_elem_of_filter. tauto. Qed.

Lemma targets_NoDup : NoDup targets.
Proof. apply NoDup_filter, (wf_NoDup _ _ _ _ _ _ Hwf). Qed.

Lemma tgt_target n : n ∈ nodes → tgt n ∈ targets.
Proof.
  intros Hn. destruct (wf_target _ _ _ _ _ _ Hwf n Hn) as [Hin Heq].
  apply elem_of_targets. split; [done|]. unfold tgt. by rewrite Heq.
Qed.

Lemma succ_targets u v : u ∈ targets → v ∈ succ u → v ∈ targets.
Proof.
  intros Hu Hv. apply elem_of_targets in Hu as [Hu _].
  apply list_elem_of_fmap in Hv as (o & -> & Ho).
  apply tgt_target. by eapply (wf_outputs _ _ _ _ _ _ Hwf).
Qed.

Lemma succ_rank u v : u ∈ targets → v ∈ succ u → rank u < rank v.
Proof.
  intros Hu Hv. apply elem_of_targets in Hu as [Hu Ht].
  apply list_elem_of_fmap in Hv as (o & -> & Ho). by apply (wf_acyclic _ _ _ _ _ _ Hwf).
Qed.

(** A set of targets misses some of the edges into [v] unless it contains every
    predecessor of [v]. *)
Lemma seen_split l : NoDup l → (∀ u, u ∈ l → u ∈ targets) →
  ∃ rest, (∀ u, u ∈ rest ↔ u ∈ targets ∧ u ∉ l) ∧ NoDup rest ∧
    ∀ v, seen targets v = seen l v + seen rest v.
Proof.
  intros Hnd Hsub.
  assert (l ⊆+ targets) as Hs by (by apply NoDup_submseteq).
  apply submseteq_Permutation in Hs as [rest Hp]. exists rest.
  assert (NoDup (l ++ rest)) as Hnd' by (rewrite <- Hp; apply targets_NoDup).
  apply NoDup_app in Hnd' as (_ & Hdis & Hr). split_and!; [|done|].
  - intros u. rewrite Hp, elem_of_app. split; [|tauto]. intros Hu. split; [tauto|].
    intros Hl. by apply (Hdis u Hl).
  - intros v. unfold seen. rewrite Hp. by rewrite sum_list_with_app.
Qed.

Lemma seen_snoc l u v : seen (l ++ [u]) v = seen l v + cnt v (succ u).
Proof. unfold seen. rewrite sum_list_with_app. cbn. lia. Qed.

Lemma seen_fits l u v : NoDup l → (∀ u, u ∈ l → u ∈ targets) → u ∈ targets → u ∉ l →
  seen l v + cnt v (succ u) ≤ seen targets v.
Proof.
  intros Hnd Hsub Hu Hul. destruct (seen_split l Hnd Hsub) as (rest & Hr & _ & Hs).
  rewrite Hs. assert (u ∈ rest) as Hin by (apply Hr; auto).
  pose proof (sum_list_with_in u (fun u => cnt v (succ u)) rest Hin) as H.
  change (cnt v (succ u) ≤ seen rest v) in H. lia.
Qed.

Lemma seen_all l v u : NoDup l → (∀ u, u ∈ l → u ∈ targets) → seen l v = seen targets v →
  u ∈ targets → v ∈ succ u → u ∈ l.
Proof.
  intros Hnd Hsub Heq Hu Hv. destruct (decide (u ∈ l)) as [|Hn]; [done|exfalso].
  pose proof (seen_fits l u v Hnd Hsub Hu Hn). apply cnt_pos in Hv. lia.
Qed.

Lemma seen_complete l v : NoDup l → (∀ u, u ∈ l → u ∈ targets) →
  (∀ u, u ∈ targets → v ∈ succ u → u ∈ l) → seen l v = seen targets v.
Proof.
  intros Hnd Hsub Hall. destruct (seen_split l Hnd Hsub) as (rest & Hr & _ & Hs).
  rewrite Hs. enough (seen rest v = 0) by lia.
  assert (∀ u, u ∈ rest → v ∉ succ u) as Hno.
  { intros u Hu Hv. apply Hr in Hu as [Hu Hul]. by apply Hul, Hall. }
  clear Hs Hr. induction rest as [|u rest IH]; [done|]. unfold seen in *. cbn.
  rewrite IH by (intros; apply Hno; set_solver).
  destruct (cnt v (succ u)) eqn:E; [done|].
  exfalso. apply (Hno u); [set_solver|]. apply cnt_pos. lia.
Qed.

(** A degree table that gives every target its number of remaining edges. *)
Definition degrees_are (deg : gmap nat Z) (δ : nat → nat) : Prop :=
  ∀ v, deg !! v = if decide (v ∈ targets) then Some (Z.of_nat (δ v)) else None.

Lemma border_cons (s : bool) x (l : list nat) (border : gset nat) :
  (if s then list_to_set l ∪ (if s then {[x]} ∪ border else border) else
     (if s then {[x]} ∪ border else border)) =
  (if s then list_to_set (x :: l) ∪ border else border).
Proof. destruct s; [|done]. rewrite list_to_set_cons. set_solver. Qed.

Lemma visit_spec (s : bool) outs : ∀ border deg queue δ,
  (∀ o, o ∈ outs → o ∈ nodes) → degrees_are deg δ →
  (∀ v, v ∈ targets → cnt v (tgt <$> outs) ≤ δ v ∧ (Z.of_nat (δ v) < 2 ^ 64)%Z) →
  ∃ deg' new, foldM (visit_output node_unit_map s) outs (border, deg, queue) =
      Ok (if s then list_to_set (tgt <$> outs) ∪ border else border, deg', queue ++ new) ∧
    degrees_are deg' (fun v => δ v - cnt v (tgt <$> outs)) ∧ NoDup new ∧
    (∀ v, v ∈ new ↔ v ∈ tgt <$> outs ∧ δ v = cnt v (tgt <$> outs)).
Proof.
  induction outs as [|o outs IH]; intros border deg queue δ Hin Hdeg Hle.
  - exists deg, []. cbn [foldM]. rewrite app_nil_r. split_and!.
    + destruct s; [|done]. cbn. by rewrite (left_id_L ∅ (∪)).
    + intros v. rewrite Hdeg. case_decide; [|done]. do 2 f_equal. cbn. lia.
    + constructor.
    + set_solver.
  - assert (o ∈ nodes) as Ho by (apply Hin; set_solver).
    assert (tgt o ∈ targets) as Ht by (by apply tgt_target).
    pose (δ' v := if decide (v = tgt o) then δ v - 1 else δ v).
    destruct (Hle (tgt o) Ht) as [Hle0 Hlt0]. cbn [fmap list_fmap] in Hle0.
    rewrite cnt_cons, decide_True in Hle0 by done.
    assert (u64 (default 0%Z (deg !! tgt o) - 1)%Z = Z.of_nat (δ' (tgt o))) as Hd.
    { rewrite Hdeg, decide_True by done. cbn [default from_option id]. unfold δ'. rewrite decide_True by done.
      rewrite wrapu_id; [lia|]. unfold in_u. lia. }
    set (queue1 := if (Z.of_nat (δ' (tgt o)) =? 0)%Z then queue ++ [tgt o] else queue).
    cbn [foldM].
    assert (visit_output node_unit_map s (border, deg, queue) o =
      Ok (if s then {[tgt o]} ∪ border else border,
          <[tgt o := Z.of_nat (δ' (tgt o))]> deg, queue1)) as ->.
    { unfold visit_output, unit_at. rewrite (wf_unit _ _ _ _ _ _ Hwf o Ho). cbn [rbind].
      fold (tgt o). by rewrite Hd. }
    cbn [rbind].
    destruct (IH (if s then {[tgt o]} ∪ border else border)
                (<[tgt o := Z.of_nat (δ' (tgt o))]> deg) queue1 δ')
      as (deg' & new & Hrun & Hdeg' & Hnd & Hnew).
    + intros; apply Hin; set_solver.
    + intros v. destruct (decide (v = tgt o)) as [->|Hne].
      * rewrite lookup_insert_eq, decide_True by done. done.
      * rewrite lookup_insert_ne, Hdeg by done. unfold δ'. by rewrite (decide_False (P := v = tgt o)).
    + intros v Hv. destruct (Hle v Hv) as [H1 H2]. cbn [fmap list_fmap] in H1.
      rewrite cnt_cons in H1. unfold δ'. case_decide; lia.
    + cbn [fmap list_fmap]. rewrite Hrun.
      assert (∀ v, δ' v - cnt v (tgt <$> outs) = δ v - cnt v (tgt o :: (tgt <$> outs))) as Hδ.
      { intros v. rewrite cnt_cons. unfold δ'. case_decide; lia. }
      exists deg', (if (Z.of_nat (δ' (tgt o)) =? 0)%Z then tgt o :: new else new).
      assert (∀ v, v ≠ tgt o → v ∈ new ↔ v ∈ tgt o :: (tgt <$> outs) ∧
                 δ v = cnt v (tgt o :: (tgt <$> outs))) as Hother.
      { intros v Hne. rewrite Hnew, elem_of_cons, cnt_cons. unfold δ'.
        rewrite !(decide_False (P := v = tgt o)) by done. naive_solver. }
      unfold δ' in Hnew at 1 |- *. rewrite decide_True by done.
      split_and!.
      * unfold queue1, δ'. rewrite decide_True, border_cons by done.
        destruct (Z.of_nat (δ (tgt o) - 1) =? 0)%Z; [by rewrite <- app_assoc|reflexivity].
      * intros v. rewrite Hdeg'. case_decide; [|done]. by rewrite Hδ.
      * destruct (Z.eqb_spec (Z.of_nat (δ (tgt o) - 1)) 0) as [E|E]; [|done].
        constructor; [|done]. rewrite Hnew. intros [Hin' _]. apply cnt_pos in Hin'. lia.
      * intros v. destruct (decide (v = tgt o)) as [->|Hne].
        -- rewrite cnt_cons, decide_True by done.
           destruct (Z.eqb_spec (Z.of_nat (δ (tgt o) - 1)) 0) as [E|E].
           ++ split; [|left]. intros _. split; [left|lia].
           ++ rewrite Hnew, decide_True by done. rewrite <- cnt_pos. split; [|lia].
              intros [? ?]. split; [left|lia].
        -- rewrite <- Hother by done. destruct (Z.of_nat (δ (tgt o) - 1) =? 0)%Z; [|tauto].
           rewrite elem_of_cons. tauto.
Qed.

Lemma init_spec l : ∀ m r,
  NoDup l → (∀ n, n ∈ l → n ∈ nodes) → (∀ n, n ∈ l → m !! n = None) →
  ∃ m', foldM (init_node api node_unit_map) l (m, r) =
      Ok (m', r ++ filter (fun n => tgt n = n ∧ seen targets n = 0) l) ∧
    ∀ v, m' !! v = if decide (v ∈ l ∧ tgt v = v) then Some (Z.of_nat (seen targets v)) else m !! v.
Proof.
  induction l as [|n l IH]; intros m r Hnd Hin Hnone.
  - exists m. cbn. rewrite app_nil_r. split; [done|]. intros v. rewrite decide_False by set_solver. done.
  - apply NoDup_cons in Hnd as [Hni Hnd]. assert (n ∈ nodes) as Hn by (apply Hin; set_solver).
    cbn [foldM]. unfold init_node at 1, unit_at. rewrite (wf_unit _ _ _ _ _ _ Hwf n Hn). cbn [rbind].
    fold (tgt n). destruct (Nat.eqb_spec (tgt n) n) as [E|E]; cbn [negb].
    + destruct (wf_degree _ _ _ _ _ _ Hwf n Hn E) as [Hd _].
      change (GetInputEdgesCount api (unit_of n) = Z.of_nat (seen targets n)) in Hd.
      rewrite Hd, E. cbn [fst snd]. rewrite Hnone by set_solver. cbn [rbind].
      destruct (IH (<[n:=Z.of_nat (seen targets n)]> m)
        (if (Z.of_nat (seen targets n) =? 0)%Z then r ++ [n] else r) Hnd) as (m' & Hrun & Hm').
      { intros; apply Hin; set_solver. }
      { intros k Hk. rewrite lookup_insert_ne by (intros ->; done). apply Hnone. set_solver. }
      exists m'. split.
      * rewrite Hrun, filter_cons. destruct (Z.eqb_spec (Z.of_nat (seen targets n)) 0).
        -- rewrite decide_True by (split; [done|lia]). by rewrite <- app_assoc.
        -- by rewrite decide_False by (intros [_ ?]; lia).
      * intros v. rewrite Hm'. destruct (decide (v = n)) as [->|Hne].
        -- rewrite decide_False by tauto. rewrite lookup_insert_eq, decide_True by (split; [left|done]). done.
        -- rewrite lookup_insert_ne by done. repeat case_decide; set_solver.
    + cbn [rbind]. destruct (IH m r Hnd) as (m' & Hrun & Hm').
      { intros; apply Hin; set_solver. }
      { intros; apply Hnone; set_solver. }
      exists m'. split.
      * rewrite Hrun, filter_cons. by rewrite decide_False by tauto.
      * intros v. rewrite Hm'. repeat case_decide; set_solver.
Qed.

(** ** The invariant

    [hist] lists the processed units, each with the number of groups that were closed
    before it; [released] is the part of the queue that was put off before the current
    group. *)
Definition unit_nodes (u : nat) : list nat :=
  match type_ (unit_of u) with
  | QDQGroup => dq_nodes_ (unit_of u) ++ [u] ++ option_list (output_reshape_node_ (unit_of u))
                ++ option_list (redundant_clip_node_ (unit_of u)) ++ q_nodes_ (unit_of u)
  | SingleNode => [u]
  end.

Definition in_group (i : nat) (p : nat * nat) : Prop := sup p.1 = true ∧ p.2 = i.
Global Instance in_group_dec i p : Decision (in_group i p).
Proof. unfold in_group. apply _. Defined.

Definition group_of (hist : list (nat * nat)) (i : nat) : list nat :=
  mjoin (unit_nodes <$> (filter (in_group i) hist).*1).

Record inv (st : state) (hist : list (nat * nat)) (released : list nat) : Prop := {
  inv_NoDup : NoDup hist.*1;
  inv_targets : ∀ u, u ∈ hist.*1 → u ∈ targets;
  inv_count : num_nodes_processed st = length hist;
  inv_degrees : degrees_are (in_degree st) (fun v => seen targets v - seen hist.*1 v);
  inv_queue_NoDup : NoDup (nodes_to_process st ++ nodes_to_process_with_next_group st);
  inv_queue : ∀ v, v ∈ nodes_to_process st ++ nodes_to_process_with_next_group st ↔
    v ∈ targets ∧ v ∉ hist.*1 ∧ seen hist.*1 v = seen targets v;
  inv_phase : ∀ u i, (u, i) ∈ hist → i ≤ length (supported_groups st);
  inv_edges : ∀ u i v j, (u, i) ∈ hist → (v, j) ∈ hist → v ∈ succ u →
    i ≤ j ∧ (sup u = true → sup v = false → i < j);
  inv_groups : ∀ i, i < length (supported_groups st) →
    supported_groups st !! i = Some (group_of hist i) ∧ group_of hist i ≠ [];
  inv_group : supported_group st = group_of hist (length (supported_groups st));
  inv_border : ∀ u v, (u, length (supported_groups st)) ∈ hist → sup u = true →
    v ∈ succ u → sup v = false → v ∈ supported_group_border st;
  inv_border_empty : supported_group st = [] → supported_group_border st = ∅;
  inv_released : (∃ rest, nodes_to_process st = released ++ rest) ∧
    (∀ v, v ∈ released → sup v = false) ∧ (released ≠ [] → supported_group_border st = ∅);
  inv_next : ∀ v, v ∈ nodes_to_process_with_next_group st → sup v = false;
  inv_ready : ∀ v, v ∈ hist.*1 → seen hist.*1 v = seen targets v;
  inv_topo : ∀ a b u v, hist.*1 !! a = Some u → hist.*1 !! b = Some v → v ∈ succ u → a < b
}.

Definition potential (st : state) (hist : list (nat * nat)) (released : list nat) : nat :=
  3 * (length targets - length hist) - length (nodes_to_process_with_next_group st)
  - 2 * length released.

(** Processed and waiting units are distinct targets. *)
Lemma inv_sizes st hist released : inv st hist released →
  length hist + length (nodes_to_process st) + length (nodes_to_process_with_next_group st)
    ≤ length targets ∧ length released ≤ length (nodes_to_process st).
Proof.
  intros H. destruct (inv_released _ _ _ H) as ([rest Hr] & _). split.
  - rewrite <- (length_fmap fst hist), <- Nat.add_assoc, <- length_app, <- length_app.
    apply submseteq_length, NoDup_submseteq.
    + apply NoDup_app. split_and!; [apply H| |apply H].
      intros u Hu Hq. by apply (inv_queue _ _ _ H) in Hq as (_ & Hn & _).
    + intros u Hu. apply elem_of_app in Hu as [Hu|Hu]; [by apply (inv_targets _ _ _ H)|].
      by apply (inv_queue _ _ _ H) in Hu as [? _].
  - rewrite Hr, length_app. lia.
Qed.

Lemma group_of_snoc hist u i j :
  group_of (hist ++ [(u, j)]) i =
    group_of hist i ++ (if decide (in_group i (u, j)) then unit_nodes u else []).
Proof.
  unfold group_of. rewrite filter_app, fmap_app, fmap_app, join_app. f_equal.
  rewrite filter_cons, filter_nil. case_decide; cbn; [by rewrite app_nil_r|done].
Qed.

Lemma unit_nodes_nonempty u : unit_nodes u ≠ [].
Proof. unfold unit_nodes. destruct (type_ _); [done|]. by destruct (dq_nodes_ _). Qed.

(** Closing the group starts an empty one with an empty border. *)
Lemma close_group_inv st hist released :
  inv st hist released → nodes_to_process st = [] →
  inv (close_group st) hist [] ∧ supported_group (close_group st) = [] ∧
  supported_group_border (close_group st) = ∅ ∧
  nodes_to_process (close_group st) = nodes_to_process st ∧
  nodes_to_process_with_next_group (close_group st) = nodes_to_process_with_next_group st.
Proof.
  intros H Hq. unfold close_group. destruct (supported_group st) as [|x g] eqn:Eg.
  - split_and!; [|done|by apply (inv_border_empty _ _ _ H)|done|done].
    destruct H as [H1 H2 H3 H4 H5 H6 H7 H8 H9 H10 H11 H12 (_ & _ & _) H14 H15 H16].
    constructor; try done. split_and!; [by eexists|set_solver|done].
  - rewrite <- Eg in *.
    assert (∀ u i, (u, i) ∈ hist → i < length (supported_groups st ++ [supported_group st])) as Hlt.
    { intros u i Hi. apply (inv_phase _ _ _ H) in Hi. rewrite length_app. cbn. lia. }
    assert (group_of hist (length (supported_groups st ++ [supported_group st])) = []) as Hnil.
    { unfold group_of. enough (filter (in_group (length (supported_groups st ++ [supported_group st]))) hist = [])
        as -> by done.
      apply filter_none. intros [u i] Hi [_ E]. apply Hlt in Hi. cbn in E. lia. }
    split_and!; try done.
    destruct H as [H1 H2 H3 H4 H5 H6 H7 H8 H9 H10 H11 H12 H13 H14 H15 H16].
    constructor; try done; cbn.
    + intros u i Hi. apply Hlt in Hi. lia.
    + intros i Hi. rewrite length_app in Hi. cbn in Hi.
      destruct (decide (i = length (supported_groups st))) as [->|Hne].
      * rewrite list_lookup_middle by done. rewrite <- H10, Eg. done.
      * rewrite lookup_app_l by lia. apply H9. lia.
    + intros u v Hu. apply Hlt in Hu. lia.
    + split_and!; [by eexists|set_solver|done].
Qed.

Abbreviation run_step := (step api node_unit_map supported_nodes ep_type).

(** No unit is ready in the current group: the postponed ones start the next group. *)
Lemma step_swap st hist released :
  inv st hist released → nodes_to_process st = [] → nodes_to_process_with_next_group st ≠ [] →
  ∃ st', run_step st = Ok st' ∧
    inv st' hist (nodes_to_process_with_next_group st) ∧
    potential st' hist (nodes_to_process_with_next_group st) < potential st hist released.
Proof.
  intros H Hq Hnext. unfold step. rewrite Hq. eexists; split; [done|].
  destruct (close_group_inv _ _ _ H Hq) as (Hc & Hg & Hb & Hq' & Hn').
  rewrite Hn', Hg, Hb. split.
  - destruct Hc as [H1 H2 H3 H4 H5 H6 H7 H8 H9 H10 H11 H12 H13 H14 H15 H16].
    rewrite Hq', Hn', Hq in *. rewrite Hg, Hb in *.
    constructor; cbn [in_degree nodes_to_process nodes_to_process_with_next_group supported_group
      supported_group_border supported_groups num_nodes_processed]; rewrite ?app_nil_r; try done.
    + split_and!; [exists []; by rewrite app_nil_r|done|done].
    + set_solver.
  - destruct (inv_sizes _ _ _ H) as [Hs Hr]. rewrite Hq in Hs, Hr. cbn in Hs, Hr.
    unfold potential. cbn.
    assert (0 < length (nodes_to_process_with_next_group st))
      by (destruct (nodes_to_process_with_next_group st); [done|cbn; lia]). lia.
Qed.

Lemma step_head st node queue :
  nodes_to_process st = node :: queue → node ∈ targets →
  run_step st =
    if negb (sup node) && bool_decide (node ∈ supported_group_border st) then
      Ok (State (in_degree st) queue (nodes_to_process_with_next_group st ++ [node])
            (supported_group st) (supported_group_border st) (supported_groups st)
            (num_nodes_processed st))
    else
      let border := if sup node then
        match type_ (unit_of node) with
        | QDQGroup => supported_group_border st
                        ∖ list_to_set (option_list (output_reshape_node_ (unit_of node)))
                        ∖ list_to_set (option_list (redundant_clip_node_ (unit_of node))) ∖ {[ node ]}
        | SingleNode => supported_group_border st ∖ {[ node ]}
        end else supported_group_border st in
      let* (border, degrees, queue) :=
        foldM (visit_output node_unit_map (sup node)) (GetOutputNodes api (unit_of node))
          (border, in_degree st, queue) in
      Ok (State degrees queue (nodes_to_process_with_next_group st)
            (if sup node then supported_group st ++ unit_nodes node else supported_group st) border
            (supported_groups st) (S (num_nodes_processed st))).
Proof.
  intros Hq Ht. apply elem_of_targets in Ht as [Hn Ht]. unfold step, unit_at. rewrite Hq.
  rewrite (wf_unit _ _ _ _ _ _ Hwf node Hn). cbn [rbind].
  rewrite (wf_ep _ _ _ _ _ _ Hwf node Hn). done.
Qed.

(** An unsupported unit on the border is put off to the next group. *)
Lemma step_defer st hist released node queue :
  inv st hist released → nodes_to_process st = node :: queue →
  sup node = false → node ∈ supported_group_border st →
  ∃ st', run_step st = Ok st' ∧ inv st' hist [] ∧ potential st' hist [] < potential st hist released.
Proof.
  intros H Hq Hs Hb.
  assert (node ∈ targets) as Ht.
  { eapply (inv_queue _ _ _ H). rewrite Hq. set_solver. }
  rewrite (step_head _ _ _ Hq Ht), Hs. cbn [negb andb]. rewrite bool_decide_true by done.
  eexists; split; [done|].
  assert (released = []) as ->.
  { destruct (inv_released _ _ _ H) as (_ & _ & Hr). destruct released; [done|].
    rewrite Hr in Hb by done. set_solver. }
  destruct (inv_sizes _ _ _ H) as [Hsz _]. rewrite Hq in Hsz. cbn in Hsz.
  split; [|unfold potential; cbn; rewrite length_app; cbn; lia].
  destruct H as [H1 H2 H3 H4 H5 H6 H7 H8 H9 H10 H11 H12 H13 H14 H15 H16].
  assert (queue ++ nodes_to_process_with_next_group st ++ [node] ≡ₚ
          nodes_to_process st ++ nodes_to_process_with_next_group st) as Hp.
  { rewrite Hq. cbn. rewrite app_assoc. symmetry. apply Permutation_cons_append. }
  constructor; cbn; try done.
  - rewrite Hp. done.
  - intros v. rewrite Hp. apply H6.
  - split_and!; [by eexists|set_solver|done].
  - intros v Hv. apply elem_of_app in Hv as [Hv|Hv]; [by apply H14|].
    apply list_elem_of_singleton in Hv as ->. done.
Qed.


(** The units that were waiting stay, the units whose last edge was seen are added. *)
Lemma process_queue hist node queue next new :
  NoDup hist → (∀ u, u ∈ hist → u ∈ targets) → node ∈ targets → node ∉ hist →
  NoDup ((node :: queue) ++ next) →
  (∀ v, v ∈ (node :: queue) ++ next ↔ v ∈ targets ∧ v ∉ hist ∧ seen hist v = seen targets v) →
  (∀ v, v ∈ hist → seen hist v = seen targets v) →
  NoDup new →
  (∀ v, v ∈ new ↔ v ∈ succ node ∧ seen targets v - seen hist v = cnt v (succ node)) →
  NoDup ((queue ++ new) ++ next) ∧
  (∀ v, v ∈ (queue ++ new) ++ next ↔
     v ∈ targets ∧ v ∉ hist ++ [node] ∧ seen (hist ++ [node]) v = seen targets v) ∧
  (∀ v, v ∈ hist ++ [node] → seen (hist ++ [node]) v = seen targets v) ∧
  (∀ v, v ∈ hist ++ [node] → v ∉ succ node).
Proof.
  intros Hnd Hsub Ht Hnh Hqn Hq Hready Hnn Hnew.
  assert (∀ v, seen hist v + cnt v (succ node) ≤ seen targets v) as Hfit
    by (intros v; by apply seen_fits).
  assert (∀ v, seen hist v = seen targets v → v ∉ succ node) as Hno.
  { intros v E Hv. apply cnt_pos in Hv. specialize (Hfit v). lia. }
  assert (∀ v, v ∉ succ node → cnt v (succ node) = 0) as Hzero.
  { intros v Hv. destruct (decide (0 < cnt v (succ node))) as [Hp|Hp]; [|lia].
    by apply cnt_pos in Hp. }
  assert (seen hist node = seen targets node) as Hnode.
  { apply Hq. set_solver. }
  assert (∀ v, v ∈ new → v ∉ (node :: queue) ++ next) as Hdis.
  { intros v Hv Hin. apply Hq in Hin as (_ & _ & E). apply Hnew in Hv as [Hv _]. by apply (Hno v). }
  assert (queue ++ new ++ next ≡ₚ new ++ queue ++ next) as Hp
    by (rewrite !app_assoc; by rewrite (Permutation_app_comm queue new)).
  cbn in Hqn. apply NoDup_cons in Hqn as [Hnq Hqn].
  split_and!.
  - rewrite <- app_assoc, Hp. apply NoDup_app. split_and!; [done| |done].
    intros v Hv Hin. apply (Hdis v Hv). set_solver.
  - intros v. rewrite <- app_assoc, Hp, (elem_of_app new), seen_snoc, (elem_of_app hist), list_elem_of_singleton.
    split.
    + intros [Hv|Hv].
      * assert (v ∉ hist) as Hvh.
        { intros Hh. apply Hnew in Hv as [Hv _]. by apply (Hno v); [apply Hready|]. }
        apply Hnew in Hv as [Hv E]. split_and!; [by eapply succ_targets| |].
        -- intros [?| ->]; [done|]. by apply (Hno node).
        -- specialize (Hfit v). lia.
      * assert (v ∈ (node :: queue) ++ next) as Hv' by set_solver.
        apply Hq in Hv' as (? & ? & E). split_and!; [done| |].
        -- intros [?| ->]; done.
        -- rewrite (Hzero v) by (by apply Hno). lia.
    + intros (Hvt & Hvn & E). destruct (decide (v ∈ succ node)) as [Hv|Hv].
      * left. apply Hnew. split; [done|lia].
      * right. assert (v ∈ (node :: queue) ++ next) as Hin; [|set_solver].
        apply Hq. rewrite (Hzero v Hv) in E. split_and!; [done|tauto|lia].
  - intros v Hv. rewrite seen_snoc. assert (seen hist v = seen targets v) as E.
    { apply elem_of_app in Hv as [Hv|Hv]; [by apply Hready|].
      by apply list_elem_of_singleton in Hv as ->. }
    rewrite (Hzero v) by (by apply Hno). lia.
  - intros v Hv. apply Hno. apply elem_of_app in Hv as [Hv|Hv]; [by apply Hready|].
    by apply list_elem_of_singleton in Hv as ->.
Qed.

(** The border after a supported unit joined the group. *)
Definition border_after (node : nat) (border : gset nat) : gset nat :=
  if sup node then
    match type_ (unit_of node) with
    | QDQGroup => border ∖ list_to_set (option_list (output_reshape_node_ (unit_of node)))
                    ∖ list_to_set (option_list (redundant_clip_node_ (unit_of node))) ∖ {[ node ]}
    | SingleNode => border ∖ {[ node ]}
    end
  else border.

Lemma border_after_keeps node border v :
  node ∈ nodes → v ∈ targets → sup v = false → v ∈ border → v ∈ border_after node border.
Proof.
  intros Hn Hv Hs Hb. unfold border_after. destruct (sup node) eqn:E; [|done].
  assert (v ≠ node) as Hne by (intros ->; congruence).
  apply elem_of_targets in Hv as [Hv Ht].
  destruct (wf_inner _ _ _ _ _ _ Hwf node v Hn Hv Ht) as [H1 H2].
  destruct (type_ _); [set_solver|].
  assert (∀ o : option nat, o ≠ Some v → v ∉ (list_to_set (option_list o) : gset nat)) as Hopt.
  { intros [x|] Hx; cbn; [|set_solver]. intros Hin. apply Hx. set_solver. }
  pose proof (Hopt _ H1). pose proof (Hopt _ H2). set_solver.
Qed.

(** The history grows by one unit of the current group. *)
Lemma inv_edges_snoc hist node k :
  (∀ u i, (u, i) ∈ hist → i ≤ k) →
  (∀ u i v j, (u, i) ∈ hist → (v, j) ∈ hist → v ∈ succ u → i ≤ j ∧ (sup u = true → sup v = false → i < j)) →
  (∀ v, v ∈ hist.*1 ++ [node] → v ∉ succ node) →
  (∀ u, (u, k) ∈ hist → sup u = true → node ∈ succ u → sup node = true) →
  ∀ u i v j, (u, i) ∈ hist ++ [(node, k)] → (v, j) ∈ hist ++ [(node, k)] → v ∈ succ u →
    i ≤ j ∧ (sup u = true → sup v = false → i < j).
Proof.
  intros Hphase Hedges Hno Hborder u i v j Hu Hv Huv.
  apply elem_of_app in Hu as [Hu|Hu]; apply elem_of_app in Hv as [Hv|Hv].
  - by eapply Hedges.
  - apply list_elem_of_singleton in Hv as [= -> ->]. pose proof (Hphase _ _ Hu) as Hle.
    split; [done|]. intros Hsu Hsn. destruct (decide (i = k)) as [->|]; [|lia].
    rewrite (Hborder u) in Hsn by done. done.
  - apply list_elem_of_singleton in Hu as [= -> ->]. exfalso. apply (Hno v); [|done].
    apply elem_of_app. left. apply list_elem_of_fmap. by exists (v, j).
  - apply list_elem_of_singleton in Hu as [= -> ->]. apply list_elem_of_singleton in Hv as [= -> ->].
    exfalso. apply (Hno node); [set_solver|done].
Qed.

Lemma topo_snoc hist node :
  (∀ a b u v, hist !! a = Some u → hist !! b = Some v → v ∈ succ u → a < b) →
  (∀ v, v ∈ hist ++ [node] → v ∉ succ node) →
  ∀ a b u v, (hist ++ [node]) !! a = Some u → (hist ++ [node]) !! b = Some v → v ∈ succ u → a < b.
Proof.
  intros Htopo Hno a b u v Ha Hb Huv. pose proof (list_elem_of_lookup_2 _ _ _ Hb) as Hv.
  apply lookup_app_Some in Ha as [Ha|[Hla Ha]].
  - apply lookup_app_Some in Hb as [Hb|[Hlb _]]; [by eapply Htopo|].
    apply lookup_lt_Some in Ha. lia.
  - apply list_lookup_singleton_Some in Ha as [_ <-]. by destruct (Hno v Hv).
Qed.

Lemma degree_bound v : v ∈ targets → (Z.of_nat (seen targets v) < 2 ^ 64)%Z.
Proof.
  intros Hv. apply elem_of_targets in Hv as [Hv Ht].
  destruct (wf_degree _ _ _ _ _ _ Hwf v Hv Ht) as [E H]. rewrite E in H. exact H.
Qed.

(** The state after a unit was processed, and its history. *)
Definition processed (st : state) (node : nat) (deg : gmap nat Z) (queue : list nat) : state :=
  State deg queue (nodes_to_process_with_next_group st)
    (if sup node then supported_group st ++ unit_nodes node else supported_group st)
    (if sup node then list_to_set (succ node) ∪ border_after node (supported_group_border st)
     else border_after node (supported_group_border st))
    (supported_groups st) (S (num_nodes_processed st)).

Lemma process_groups st hist released node hist' :
  inv st hist released → hist' = hist ++ [(node, length (supported_groups st))] →
  (∀ i, i < length (supported_groups st) →
     supported_groups st !! i = Some (group_of hist' i) ∧ group_of hist' i ≠ []) ∧
  (if sup node then supported_group st ++ unit_nodes node else supported_group st) =
    group_of hist' (length (supported_groups st)).
Proof.
  intros H ->. split.
  - intros i Hi. rewrite group_of_snoc, decide_False, app_nil_r by (intros [_ E]; cbn in E; lia).
    by apply (inv_groups _ _ _ H).
  - rewrite group_of_snoc, <- (inv_group _ _ _ H). case_decide as D; unfold in_group in D; cbn in D.
    + destruct D as [-> _]. done.
    + destruct (sup node); [tauto|by rewrite app_nil_r].
Qed.

Lemma process_border st hist released node u v :
  inv st hist released → node ∈ nodes →
  (u, length (supported_groups st)) ∈ hist ++ [(node, length (supported_groups st))] →
  sup u = true → v ∈ succ u → sup v = false →
  v ∈ (if sup node then list_to_set (succ node) ∪ border_after node (supported_group_border st)
       else border_after node (supported_group_border st)).
Proof.
  intros H Hn Hu Hsu Hv Hsv. apply elem_of_app in Hu as [Hu|Hu].
  - assert (v ∈ targets) as Hvt.
    { eapply succ_targets, Hv. apply (inv_targets _ _ _ H), list_elem_of_fmap. by eexists (_, _). }
    pose proof (border_after_keeps node (supported_group_border st) v Hn Hvt Hsv
                  (inv_border _ _ _ H u v Hu Hsu Hv Hsv)). destruct (sup node); set_solver.
  - apply list_elem_of_singleton in Hu as [= ->]. rewrite Hsu. set_solver.
Qed.

Lemma process_inv st hist released node queue deg new :
  inv st hist released → nodes_to_process st = node :: queue →
  (sup node = false → node ∉ supported_group_border st) →
  degrees_are deg (fun v => seen targets v - seen hist.*1 v - cnt v (succ node)) → NoDup new →
  (∀ v, v ∈ new ↔ v ∈ succ node ∧ seen targets v - seen hist.*1 v = cnt v (succ node)) →
  inv (processed st node deg (queue ++ new)) (hist ++ [(node, length (supported_groups st))])
    (tail released).
Proof.
  intros H Hq Hb Hdeg Hnn Hnew.
  assert (node ∈ targets ∧ node ∉ hist.*1) as [Ht Hnh].
  { destruct (inv_queue _ _ _ H node) as [Hi _]. rewrite Hq in Hi.
    destruct Hi as (? & ? & _); [set_solver|done]. }
  assert (node ∈ nodes) as Hn by (by apply elem_of_targets in Ht as [? _]).
  destruct (process_groups st hist released node _ H eq_refl) as [Hg1 Hg2].
  pose proof (process_border st hist released node) as Hbd.
  specialize (fun u v => Hbd u v H Hn).
  destruct H as [H1 H2 H3 H4 H5 H6 H7 H8 H9 H10 H11 H12 H13 H14 H15 H16]. rewrite Hq in H5, H6, H13.
  destruct (process_queue hist.*1 node queue (nodes_to_process_with_next_group st) new)
    as (Q1 & Q2 & Q3 & Q4); try done.
  assert ((hist ++ [(node, length (supported_groups st))]).*1 = hist.*1 ++ [node]) as Hfst
    by (by rewrite fmap_app).
  constructor; cbn [processed in_degree nodes_to_process nodes_to_process_with_next_group
    supported_group supported_group_border supported_groups num_nodes_processed];
    rewrite ?Hfst; try done.
  - apply NoDup_app. split_and!; [done|set_solver|apply NoDup_singleton].
  - intros u Hu. apply elem_of_app in Hu as [Hu|Hu]; [by apply H2|].
    by apply list_elem_of_singleton in Hu as ->.
  - rewrite length_app. cbn. lia.
  - intros v. rewrite Hdeg. case_decide; [|done]. rewrite seen_snoc. do 2 f_equal. lia.
  - intros u i Hu. apply elem_of_app in Hu as [Hu|Hu]; [by eapply H7|].
    by apply list_elem_of_singleton in Hu as [= -> ->].
  - apply inv_edges_snoc; try done. intros u Hu Hsu Hin. destruct (sup node) eqn:E; [done|].
    exfalso. by apply (Hb eq_refl), (H11 u).
  - destruct (sup node) eqn:E.
    + intros Hnil. apply app_eq_nil in Hnil as [_ Hnil]. by apply unit_nodes_nonempty in Hnil.
    + unfold border_after. by rewrite E.
  - destruct H13 as ([rest Hr] & Hrs & Hre). destruct released as [|r rel]; cbn [tail].
    + split_and!; [by eexists|set_solver|done].
    + injection Hr as <- ->. split_and!; [by eexists (_ ++ _); rewrite <- app_assoc|set_solver|].
      intros _. unfold border_after. rewrite (Hrs node) by set_solver. by apply Hre.
  - by apply topo_snoc.
Qed.

(** A unit that is supported or off the border is processed. *)
Lemma step_process st hist released node queue :
  inv st hist released → nodes_to_process st = node :: queue →
  (sup node = false → node ∉ supported_group_border st) →
  ∃ st' hist' released', run_step st = Ok st' ∧ inv st' hist' released' ∧
    potential st' hist' released' < potential st hist released.
Proof.
  intros H Hq Hb.
  assert (node ∈ targets ∧ node ∉ hist.*1) as [Ht Hnh].
  { destruct (inv_queue _ _ _ H node) as [Hi _]. rewrite Hq in Hi.
    destruct Hi as (? & ? & _); [set_solver|done]. }
  assert (node ∈ nodes) as Hn by (by apply elem_of_targets in Ht as [? _]).
  rewrite (step_head _ _ _ Hq Ht).
  rewrite (proj2 (andb_false_iff (negb (sup node)) _)).
  2:{ destruct (sup node); [by left|right]. apply bool_decide_eq_false. by apply Hb. }
  cbv zeta. fold (border_after node (supported_group_border st)).
  destruct (visit_spec (sup node) (GetOutputNodes api (unit_of node))
    (border_after node (supported_group_border st)) (in_degree st) queue _
    (fun o => wf_outputs _ _ _ _ _ _ Hwf node o Hn) (inv_degrees _ _ _ H))
    as (deg' & new & -> & Hdeg & Hnn & Hnew).
  { intros v Hv.
    pose proof (seen_fits hist.*1 node v (inv_NoDup _ _ _ H) (inv_targets _ _ _ H) Ht Hnh) as Hf.
    pose proof (degree_bound v Hv). fold (succ node). lia. }
  cbn [rbind]. fold (succ node) in Hdeg, Hnew |- *.
  eexists _, _, _. split; [reflexivity|]. split; [by apply (process_inv st hist released node queue)|].
  destruct (inv_sizes _ _ _ H) as [Hsz Hsr]. rewrite Hq in Hsz, Hsr.
  unfold potential. cbn in *. rewrite length_app. cbn. destruct released; cbn in *; lia.
Qed.

Lemma step_total st hist released : inv st hist released → done st = false →
  ∃ st' hist' released', run_step st = Ok st' ∧ inv st' hist' released' ∧
    potential st' hist' released' < potential st hist released.
Proof.
  intros H Hd. destruct (nodes_to_process st) as [|node queue] eqn:Hq.
  - destruct (step_swap _ _ _ H Hq) as (st' & ?); [|by eauto].
    unfold done in Hd. rewrite Hq in Hd. intros E. by rewrite E in Hd.
  - destruct (decide (sup node = false ∧ node ∈ supported_group_border st)) as [[Hs Hb]|Hn].
    + destruct (step_defer _ _ _ _ _ H Hq Hs Hb) as (st' & ?). by eauto.
    + eapply step_process; [done..|naive_solver].
Qed.

Lemma loop_total fuel : ∀ st hist released, inv st hist released → potential st hist released ≤ fuel →
  ∃ st' hist' released', loop api node_unit_map supported_nodes ep_type fuel st = Ok st' ∧
    inv st' hist' released' ∧ done st' = true.
Proof.
  induction fuel as [|fuel IH]; intros st hist released H Hp; cbn;
    destruct (done st) eqn:Hd; [by eauto 6| |by eauto 6|];
    destruct (step_total _ _ _ H Hd) as (st' & hist' & released' & Hs & H' & Hlt); [lia|].
  rewrite Hs. cbn. apply (IH st' hist' released'); [done|lia].
Qed.

Lemma loop_start : ∃ deg roots,
  foldM (init_node api node_unit_map) nodes (∅, []) = Ok (deg, roots) ∧
  inv (State deg roots [] [] ∅ [] 0) [] [].
Proof.
  destruct (init_spec nodes ∅ [] (wf_NoDup _ _ _ _ _ _ Hwf)) as (deg & Hrun & Hdeg); [done..|].
  exists deg, (filter (fun n => tgt n = n ∧ seen targets n = 0) nodes). split; [done|].
  constructor; cbn [fmap list_fmap in_degree nodes_to_process nodes_to_process_with_next_group
    supported_group supported_group_border supported_groups num_nodes_processed length];
    rewrite ?app_nil_r; try done; try set_solver.
  - constructor.
  - intros v. rewrite Hdeg. pose proof (elem_of_targets v).
    repeat case_decide; [|tauto|tauto|done]. do 2 f_equal. cbn. lia.
  - apply NoDup_filter, (wf_NoDup _ _ _ _ _ _ Hwf).
  - intros v. rewrite list_elem_of_filter, elem_of_targets. cbn. split.
    + intros [[? ?] ?]. split_and!; [done|done|set_solver|lia].
    + intros [[? ?] [_ E]]. split_and!; [done|lia|done].
  - intros i Hi. lia.
Qed.

(** When nothing waits, every unit was processed: a missing one would have a missing
    predecessor of smaller rank. *)
Lemma done_complete st hist released : inv st hist released → done st = true → hist.*1 ≡ₚ targets.
Proof.
  intros H Hd. apply NoDup_Permutation; [apply H|apply targets_NoDup|].
  assert (nodes_to_process st ++ nodes_to_process_with_next_group st = []) as Hnil.
  { unfold done in Hd. by destruct (nodes_to_process st), (nodes_to_process_with_next_group st). }
  assert (∀ r v, rank v < r → v ∈ targets → v ∈ hist.*1) as Hall.
  { induction r as [|r IH]; [lia|]. intros v Hr Hv.
    destruct (decide (v ∈ hist.*1)) as [|Hn]; [done|exfalso].
    apply (not_elem_of_nil v). rewrite <- Hnil. apply (inv_queue _ _ _ H). split_and!; [done|done|].
    apply seen_complete; [apply H|apply H|]. intros u Hu Huv. apply IH; [|done].
    pose proof (succ_rank u v Hu Huv). lia. }
  intros v. split; [apply H|]. by apply (Hall (S (rank v))); lia.
Qed.

Lemma degrees_size deg δ : degrees_are deg δ → size deg = length targets.
Proof.
  intros Hd. rewrite <- size_dom. enough (dom deg = list_to_set targets) as ->.
  { apply size_list_to_set, targets_NoDup. }
  apply set_eq. intros v. rewrite elem_of_dom, Hd, elem_of_list_to_set. case_decide; split; try done.
Qed.

(** Sorting the supported units into their groups keeps each of them once. *)
Lemma groups_cover hist n : (∀ u i, (u, i) ∈ hist → sup u = true → i < n) →
  mjoin (group_of hist <$> seq 0 n) ≡ₚ mjoin (unit_nodes <$> filter (fun u => sup u = true) hist.*1).
Proof.
  induction hist as [|[u k] hist IH] using rev_ind; intros Hlt.
  - cbn. induction (seq 0 n); [done|]. by cbn.
  - rewrite fmap_app, filter_app, fmap_app, join_app. cbn [fmap list_fmap].
    rewrite <- IH by set_solver.
    assert (∀ l, NoDup l → mjoin (group_of (hist ++ [(u, k)]) <$> l) ≡ₚ
      mjoin (group_of hist <$> l) ++ (if decide (sup u = true ∧ k ∈ l) then unit_nodes u else [])) as Hl.
    { induction l as [|i l IHl]; intros Hnd; [by rewrite decide_False by set_solver|]. apply NoDup_cons in Hnd as [Hi Hnd].
      cbn [fmap list_fmap mjoin list_join]. rewrite (IHl Hnd), group_of_snoc, <- !app_assoc.
      apply Permutation_app_head. destruct (decide (in_group i (u, k))) as [D1|D1].
      - destruct D1 as [Hs E]. change (k = i) in E. change (sup u = true) in Hs. subst k. rewrite decide_False, app_nil_r by tauto.
        rewrite decide_True by set_solver. apply Permutation_app_comm.
      - rewrite app_nil_l. apply Permutation_app_head. unfold in_group in D1. cbn in D1.
        destruct (decide (sup u = true ∧ k ∈ l)); [by rewrite decide_True by set_solver|].
        by rewrite decide_False by set_solver. }
    rewrite (Hl _ (NoDup_seq 0 n)). apply Permutation_app_head. cbn [fst].
    rewrite filter_cons, filter_nil. destruct (decide (sup u = true)) as [Hs|Hs]; [|by rewrite decide_False by tauto].
    rewrite decide_True; [by cbn; rewrite app_nil_r|]. split; [done|].
    apply elem_of_seq. specialize (Hlt u k). split; [lia|]. apply Hlt; [set_solver|done].
Qed.

Definition edge (u v : nat) : Prop := u ∈ targets ∧ v ∈ succ u.

(** What a run leaves behind: every unit has been processed once, and the groups are the
    supported units of each phase in the order they were processed. *)
Lemma partition_run : ∃ groups hist,
  CreateSupportedPartitionNodeGroups api node_unit_map supported_nodes ep_type = Ok groups ∧
  hist.*1 ≡ₚ targets ∧ groups = group_of hist <$> seq 0 (length groups) ∧
  (∀ g, g ∈ groups → g ≠ []) ∧
  (∀ u i, (u, i) ∈ hist → sup u = true → i < length groups) ∧
  (∀ u i v j, (u, i) ∈ hist → (v, j) ∈ hist → v ∈ succ u →
     i ≤ j ∧ (sup u = true → sup v = false → i < j)) ∧
  (∀ a b u v, hist.*1 !! a = Some u → hist.*1 !! b = Some v → v ∈ succ u → a < b).
Proof.
  unfold CreateSupportedPartitionNodeGroups. rewrite (wf_nodes _ _ _ _ _ _ Hwf).
  destruct loop_start as (deg & roots & -> & H0). cbn [rbind].
  assert (length targets ≤ length nodes) as Hlen by apply length_filter.
  destruct (loop_total (3 * length nodes + 1) _ _ _ H0) as (st & hist & released & -> & H & Hd).
  { unfold potential. cbn. lia. }
  cbn [rbind]. pose proof (done_complete _ _ _ H Hd) as Hall.
  assert (nodes_to_process st = []) as Hq.
  { unfold done in Hd. destruct (nodes_to_process st); done. }
  destruct (close_group_inv _ _ _ H Hq) as (Hc & Hg & _). exists (supported_groups (close_group st)), hist.
  rewrite (inv_count _ _ _ Hc), (degrees_size _ _ (inv_degrees _ _ _ Hc)), <- Hall, length_fmap.
  rewrite Nat.eqb_refl. cbn [negb].
  assert (∀ u, (u, length (supported_groups (close_group st))) ∈ hist → sup u = false) as Hlast.
  { intros u Hu. pose proof (inv_group _ _ _ Hc) as E. rewrite Hg in E.
    destruct (sup u) eqn:Hs; [|done]. exfalso. apply (unit_nodes_nonempty u).
    unfold group_of in E. symmetry in E. apply join_nil in E. rewrite Forall_forall in E. apply E.
    apply list_elem_of_fmap. exists u. split; [done|]. apply list_elem_of_fmap.
    exists (u, length (supported_groups (close_group st))). split; [done|].
    apply list_elem_of_filter. done. }
  split_and!; [done|done| | | |apply Hc|apply Hc].
  - apply list_eq. intros i. rewrite list_lookup_fmap.
    destruct (decide (i < length (supported_groups (close_group st)))) as [Hi|Hi].
    + rewrite (proj1 (inv_groups _ _ _ Hc i Hi)), lookup_seq_lt by done. done.
    + rewrite !lookup_ge_None_2 by (rewrite ?length_seq; lia). done.
  - intros g Hin. apply list_elem_of_lookup in Hin as [i Hi].
    pose proof (lookup_lt_Some _ _ _ Hi) as Hlt.
    destruct (inv_groups _ _ _ Hc i Hlt) as [E Hne]. congruence.
  - intros u i Hu Hs. pose proof (inv_phase _ _ _ Hc u i Hu).
    destruct (decide (i = length (supported_groups (close_group st)))) as [->|]; [|lia].
    rewrite (Hlast u Hu) in Hs. done.
Qed.

(** In topological order no unit is followed by one of its producers. *)
Lemma topo_sorted l :
  (∀ a b u v, l !! a = Some u → l !! b = Some v → v ∈ succ u → a < b) →
  StronglySorted (fun u v => u ∉ succ v) l.
Proof.
  induction l as [|x l IH]; intros Ht; constructor.
  - apply IH. intros a b u v Ha Hb Huv. specialize (Ht (S a) (S b) u v Ha Hb Huv). lia.
  - apply Forall_forall. intros y Hy Hxy. apply list_elem_of_lookup in Hy as [b Hb].
    specialize (Ht (S b) 0 y x Hb eq_refl Hxy). lia.
Qed.

Lemma topo_group hist i :
  StronglySorted (fun u v => u ∉ succ v) hist.*1 →
  StronglySorted (fun u v => u ∉ succ v) (filter (in_group i) hist).*1.
Proof.
  induction hist as [|p hist IH]; intros Hs; [done|]. cbn in Hs. apply StronglySorted_inv in Hs as [Hs Hp].
  rewrite filter_cons. case_decide; [|by apply IH]. cbn. constructor; [by apply IH|].
  rewrite Forall_forall in *. intros y Hy. apply Hp.
  apply list_elem_of_fmap in Hy as (q & -> & Hq). apply list_elem_of_filter in Hq as [_ Hq].
  apply list_elem_of_fmap. by exists q.
Qed.

(** A path between supported units of one phase stays in the phase and is supported. *)
Lemma phase_convex (phase : nat → nat) :
  (∀ u v, edge u v → phase u ≤ phase v ∧ (sup u = true → sup v = false → phase u < phase v)) →
  (∀ u v, rtc edge u v → phase u ≤ phase v) ∧
  (∀ u v, rtc edge u v → sup u = true → phase v ≤ phase u → sup v = true).
Proof.
  intros He.
  assert (∀ u v, rtc edge u v → phase u ≤ phase v) as Hmono.
  { induction 1 as [|u x v Hux _ IH]; [done|]. destruct (He _ _ Hux). lia. }
  split; [done|]. induction 1 as [|u x v Hux Hxv IH]; intros Hs Hle; [done|].
  destruct (He _ _ Hux) as [Hux' Hlt]. pose proof (Hmono _ _ Hxv). apply IH; [|lia].
  destruct (sup x); [done|]. specialize (Hlt Hs eq_refl). lia.
Qed.

End Correct.

(** ** The partition *)

Section Claims.
Variables (api : GraphApi) (node_unit_map : gmap nat OrtNodeUnit) (nodes : list nat).
Variables (unit_of : nat → OrtNodeUnit) (ep_name : nat → string) (rank : nat → nat).
Variables (supported_nodes : list nat) (ep_type : string).
Abbreviation units := (targets nodes unit_of).
Abbreviation supported := (sup ep_name supported_nodes ep_type).
Abbreviation path := (rtc (edge api nodes unit_of)).

(** C1: On a well-formed graph the partitioning returns without an error; its groups are
    non-empty and hold exactly the nodes of the supported node units, each unit once. *)
Theorem partition_covers :
  wf_graph api node_unit_map nodes unit_of ep_name rank →
  ∃ groups, CreateSupportedPartitionNodeGroups api node_unit_map supported_nodes ep_type = Ok groups ∧
    (∀ g, g ∈ groups → g ≠ []) ∧
    mjoin groups ≡ₚ mjoin (unit_nodes unit_of <$> filter (fun u => supported u = true) units).
Proof.
  intros Hwf. destruct (partition_run api node_unit_map nodes unit_of ep_name rank
    supported_nodes ep_type Hwf) as (groups & hist & Hrun & Hall & Hg & Hne & Hlt & _).
  exists groups. split_and!; [done|done|]. rewrite Hg, groups_cover by done.
  by rewrite <- Hall.
Qed.

(** C2: Every group is a set of whole units in topological order, and can run as one
    graph: the groups are numbered so that no edge goes back to an earlier one, and every
    unit on a path between two members of a group is a member of that group. *)
Theorem partition_convex :
  wf_graph api node_unit_map nodes unit_of ep_name rank →
  ∃ groups phase,
    CreateSupportedPartitionNodeGroups api node_unit_map supported_nodes ep_type = Ok groups ∧
    (∀ i g, groups !! i = Some g → ∃ us, g = mjoin (unit_nodes unit_of <$> us) ∧ NoDup us ∧
       (∀ u, u ∈ us ↔ u ∈ units ∧ supported u = true ∧ phase u = i) ∧
       StronglySorted (fun u v => u ∉ succ api unit_of v) us) ∧
    (∀ u v, path u v → phase u ≤ phase v) ∧
    (∀ u v w, path u v → path v w → supported u = true → supported w = true → phase u = phase w →
       supported v = true ∧ phase v = phase u).
Proof.
  intros Hwf. destruct (partition_run api node_unit_map nodes unit_of ep_name rank
    supported_nodes ep_type Hwf) as (groups & hist & Hrun & Hall & Hg & _ & _ & Hedge & Htopo).
  assert (NoDup hist.*1) as Hnd by (rewrite Hall; by eapply targets_NoDup).
  pose (phase u := default 0 ((list_to_map hist : gmap nat nat) !! u)).
  assert (∀ u i, (u, i) ∈ hist → phase u = i) as Hphase.
  { intros u i Hu. unfold phase. by rewrite (elem_of_list_to_map_1 _ _ _ Hnd Hu). }
  assert (∀ u, u ∈ units → (u, phase u) ∈ hist) as Hin.
  { intros u Hu. rewrite <- Hall in Hu.
    apply list_elem_of_fmap in Hu as ([u' i] & -> & Hu). cbn. by rewrite (Hphase _ _ Hu). }
  assert (∀ u v, edge api nodes unit_of u v → phase u ≤ phase v ∧
    (supported u = true → supported v = false → phase u < phase v)) as Hedges.
  { intros u v [Hu Hv]. eapply Hedge; [by apply Hin| |done]. apply Hin. by eapply succ_targets. }
  destruct (phase_convex api nodes unit_of ep_name supported_nodes ep_type phase Hedges) as [Hmono Hconv].
  exists groups, phase. split_and!; [done| |done|].
  - intros i g Hi. rewrite Hg, list_lookup_fmap in Hi. apply fmap_Some in Hi as (k & Hk & ->).
    apply lookup_seq in Hk as [-> _]. cbn.
    exists (filter (in_group ep_name supported_nodes ep_type i) hist).*1. split_and!; [done|..].
    + eapply sublist_NoDup; [apply Hnd|]. apply fmap_sublist, sublist_filter.
    + intros u. rewrite list_elem_of_fmap. split.
      * intros ([u' j] & -> & Hu). apply list_elem_of_filter in Hu as [[Hs <-] Hu]. cbn in *.
        split_and!; [|done|by apply Hphase]. rewrite <- Hall.
        apply list_elem_of_fmap. by exists (u', j).
      * intros (Hu & Hs & <-). exists (u, phase u). split; [done|].
        apply list_elem_of_filter. split; [done|by apply Hin].
    + apply topo_group, topo_sorted. done.
  - intros u v w Huv Hvw Hsu Hsw E. pose proof (Hmono _ _ Huv). pose proof (Hmono _ _ Hvw).
    split; [apply (Hconv u v); [done|done|lia]|lia].
Qed.

End Claims.

(** ** An example graph

    [0] is supported, [1;2;3] is a quantized unit with target [2], [4] is not supported,
    [5] is supported and reads from the unit and from [4]. *)
Definition example_unit (n : nat) : OrtNodeUnit :=
  match n with
  | 1 | 2 | 3 => NodeUnit QDQGroup 2 [1] [3] None None
  | _ => NodeUnit SingleNode n [] [] None None
  end.

Definition example_api : GraphApi := {|
  Graph_GetNodes := Some (seq 0 6);
  Node_GetInputProducers n :=
    Some (match n with
          | 0 => [None] | 1 => [Some 0; None] | 2 => [Some 1] | 3 => [Some 2; None]
          | 4 => [Some 3] | _ => [Some 3; Some 4]
          end);
  Node_GetOutputConsumers n :=
    Some (match n with
          | 0 => [Some [1]] | 1 => [Some [2]] | 2 => [Some [3]] | 3 => [Some [4; 5]]
          | 4 => [Some [5]] | _ => [Some []; None]
          end);
  Node_GetEpName _ := Some "" |}.

Definition example_units : gmap nat OrtNodeUnit :=
  list_to_map ((fun n => (n, example_unit n)) <$> seq 0 6).

(** Checks a statement about the listed nodes one by one. *)
Ltac each_node H :=
  cbn in H; repeat (apply elem_of_cons in H as [->|H]); [..|by apply elem_of_nil in H].

Lemma example_wf : wf_graph example_api example_units (seq 0 6) example_unit (fun _ => "") id.
Proof.
  constructor; try done.
  - apply NoDup_seq.
  - intros n Hn. each_node Hn; reflexivity.
  - intros n Hn. each_node Hn; (split; [apply elem_of_seq; cbn; lia|reflexivity]).
  - intros n o Hn Ho. each_node Hn; cbn in Ho; apply elem_of_seq; set_unfold in Ho; lia.
  - intros v Hv Ht. each_node Hv; try (cbn in Ht; lia); vm_compute; done.
  - intros u o Hu Ht Ho. each_node Hu; cbn in Ht; try lia; cbn in Ho; set_unfold in Ho;
      naive_solver (cbn; lia).
  - intros n v Hn _ _. each_node Hn; done.
Defined.

Lemma partition_covers_witness :
  wf_graph example_api example_units (seq 0 6) example_unit (fun _ => "") id ∧
  CreateSupportedPartitionNodeGroups example_api example_units [0; 2; 5] "QNN" =
    Ok [[0; 1; 2; 3]; [5]] ∧
  ∃ groups, CreateSupportedPartitionNodeGroups example_api example_units [0; 2; 5] "QNN" = Ok groups ∧
    (∀ g, g ∈ groups → g ≠ []) ∧
    mjoin groups ≡ₚ mjoin (unit_nodes example_unit <$>
      filter (fun u => sup (fun _ => "") [0; 2; 5] "QNN" u = true) (targets (seq 0 6) example_unit)).
Proof.
  split_and!; [apply example_wf|vm_compute; reflexivity|].
  apply (partition_covers example_api example_units (seq 0 6) example_unit (fun _ => "") id).
  apply example_wf.
Defined.

Lemma partition_convex_witness :
  ∃ groups phase,
    CreateSupportedPartitionNodeGroups example_api example_units [0; 2; 5] "QNN" = Ok groups ∧
    (∀ i g, groups !! i = Some g → ∃ us, g = mjoin (unit_nodes example_unit <$> us) ∧ NoDup us ∧
       (∀ u, u ∈ us ↔ u ∈ targets (seq 0 6) example_unit ∧
          sup (fun _ => "") [0; 2; 5] "QNN" u = true ∧ phase u = i) ∧
       StronglySorted (fun u v => u ∉ succ example_api example_unit v) us) ∧
    (∀ u v, rtc (edge example_api (seq 0 6) example_unit) u v → phase u ≤ phase v) ∧
    (∀ u v w, rtc (edge example_api (seq 0 6) example_unit) u v →
       rtc (edge example_api (seq 0 6) example_unit) v w →
       sup (fun _ => "") [0; 2; 5] "QNN" u = true → sup (fun _ => "") [0; 2; 5] "QNN" w = true →
       phase u = phase w → sup (fun _ => "") [0; 2; 5] "QNN" v = true ∧ phase v = phase u).
Proof.
  apply (partition_convex example_api example_units (seq 0 6) example_unit (fun _ => "") id).
  apply example_wf.
Defined.
