(* ===== verification/QnnTensor.v ===== *)
(** * QNN tensors, parameters and op configurations

    [builder/qnn_def.cc] and [builder/qnn_def.h]: the accessors of the versioned C
    struct [Qnn_Tensor_t], the wrappers that own what the struct points to, and the
    creation of tensors and ops in a QNN graph.

    A pointer is the contents it points to; [Placement] has the wrappers with their addresses
    and shows that they read as the values here.  The QNN library is the class
    [QnnInterface]: the graph behind the handle is its abstract state. *)

From Stdlib Require Import Floats.SpecFloat.
From stdpp Require Import pretty.
From S2P Require Import Prelude DataTypes Floats QuantParams.
Local Open Scope Z_scope.

(** ** [Qnn_Tensor_t] *)

Inductive Qnn_TensorType_t : Set :=
| TENSOR_TYPE_APP_WRITE | TENSOR_TYPE_APP_READ | TENSOR_TYPE_APP_READWRITE
| TENSOR_TYPE_NATIVE | TENSOR_TYPE_STATIC | TENSOR_TYPE_NULL | TENSOR_TYPE_OTHER (code : Z).

Inductive Qnn_TensorMemType_t : Set :=
| TENSORMEMTYPE_RAW | TENSORMEMTYPE_MEMHANDLE | TENSORMEMTYPE_OTHER (code : Z).

Global Instance tensor_type_eq_dec : EqDecision Qnn_TensorType_t.
Proof. solve_decision. Defined.
Global Instance mem_type_eq_dec : EqDecision Qnn_TensorMemType_t.
Proof. solve_decision. Defined.

(** A [void*]: null, a byte buffer, or an opaque handle. *)
Inductive ptr := PNull | PBuf (bytes : list Z) | PHandle (h : Z).

(** [clientBuf] and [memHandle] are members of one union; both start with a pointer. *)
Record Qnn_ClientBuffer_t := ClientBuffer { data : ptr; dataSize : Z }.

Record tensor_body := Body {
  t_id : Z;
  t_name : option string;
  t_type : Qnn_TensorType_t;
  t_dataFormat : Z;
  t_dataType : Qnn_DataType_t;
  t_quantizeParams : Qnn_QuantizeParams_t;
  t_rank : Z;
  t_dimensions : option (list Z);
  t_memType : Qnn_TensorMemType_t;
  t_clientBuf : Qnn_ClientBuffer_t
}.

Inductive Qnn_Tensor_t :=
| TENSOR_V1 (v1 : tensor_body)
| TENSOR_V2 (v2 : tensor_body) (isDynamicDimensions : option (list Z))
| TENSOR_VERSION (version : Z).

Definition unsupported : err := Throw "QNN tensor version not supported, QNN tensor version: ".

(** The dispatch on the version that every accessor starts with. *)
Definition body_of (t : Qnn_Tensor_t) : result tensor_body :=
  match t with TENSOR_V1 b | TENSOR_V2 b _ => Ok b | TENSOR_VERSION _ => Err unsupported end.
Definition update (f : tensor_body → tensor_body) (t : Qnn_Tensor_t) : result Qnn_Tensor_t :=
  match t with
  | TENSOR_V1 b => Ok (TENSOR_V1 (f b))
  | TENSOR_V2 b d => Ok (TENSOR_V2 (f b) d)
  | TENSOR_VERSION _ => Err unsupported
  end.

Definition set_id v (b : tensor_body) := Body v (t_name b) (t_type b) (t_dataFormat b) (t_dataType b)
  (t_quantizeParams b) (t_rank b) (t_dimensions b) (t_memType b) (t_clientBuf b).
Definition set_name v (b : tensor_body) := Body (t_id b) v (t_type b) (t_dataFormat b) (t_dataType b)
  (t_quantizeParams b) (t_rank b) (t_dimensions b) (t_memType b) (t_clientBuf b).
Definition set_type v (b : tensor_body) := Body (t_id b) (t_name b) v (t_dataFormat b) (t_dataType b)
  (t_quantizeParams b) (t_rank b) (t_dimensions b) (t_memType b) (t_clientBuf b).
Definition set_dataFormat v (b : tensor_body) := Body (t_id b) (t_name b) (t_type b) v (t_dataType b)
  (t_quantizeParams b) (t_rank b) (t_dimensions b) (t_memType b) (t_clientBuf b).
Definition set_dataType v (b : tensor_body) := Body (t_id b) (t_name b) (t_type b) (t_dataFormat b) v
  (t_quantizeParams b) (t_rank b) (t_dimensions b) (t_memType b) (t_clientBuf b).
Definition set_quantizeParams v (b : tensor_body) := Body (t_id b) (t_name b) (t_type b) (t_dataFormat b)
  (t_dataType b) v (t_rank b) (t_dimensions b) (t_memType b) (t_clientBuf b).
Definition set_dimensions r v (b : tensor_body) := Body (t_id b) (t_name b) (t_type b) (t_dataFormat b)
  (t_dataType b) (t_quantizeParams b) r v (t_memType b) (t_clientBuf b).
Definition set_memType v (b : tensor_body) := Body (t_id b) (t_name b) (t_type b) (t_dataFormat b)
  (t_dataType b) (t_quantizeParams b) (t_rank b) (t_dimensions b) v (t_clientBuf b).
Definition set_clientBuf v (b : tensor_body) := Body (t_id b) (t_name b) (t_type b) (t_dataFormat b)
  (t_dataType b) (t_quantizeParams b) (t_rank b) (t_dimensions b) (t_memType b) v.

(** [c_str()] and [data()] of a non-empty container; [data()] of an empty vector points
    to no element. *)
Definition buf_ptr (bytes : list Z) : ptr := match bytes with [] => PNull | _ => PBuf bytes end.
Definition vec_ptr (l : list Z) : option (list Z) := match l with [] => None | _ => Some l end.

Definition SetQnnTensorType (t : Qnn_Tensor_t) (v : Qnn_TensorType_t) := update (set_type v) t.
Definition SetQnnTensorName (t : Qnn_Tensor_t) (v : option string) := update (set_name v) t.
Definition SetQnnTensorDataFormat (t : Qnn_Tensor_t) (v : Z) := update (set_dataFormat v) t.
Definition SetQnnTensorDataType (t : Qnn_Tensor_t) (v : Qnn_DataType_t) := update (set_dataType v) t.
Definition SetQnnTensorDim (t : Qnn_Tensor_t) (dimensions : list Z) :=
  update (set_dimensions (u32 (Z.of_nat (length dimensions))) (vec_ptr dimensions)) t.
Definition SetQnnTensorMemType (t : Qnn_Tensor_t) (v : Qnn_TensorMemType_t) := update (set_memType v) t.
Definition SetQnnTensorClientBuf (t : Qnn_Tensor_t) (client_buf : list Z) :=
  update (set_clientBuf (ClientBuffer (buf_ptr client_buf) (u32 (Z.of_nat (length client_buf))))) t.
Definition SetQnnTensorClientBuf_ptr (t : Qnn_Tensor_t) (buf_data : ptr) (buf_size : Z) :=
  update (set_clientBuf (ClientBuffer buf_data buf_size)) t.
Definition SetQnnTensorClientBufSize (t : Qnn_Tensor_t) (client_buf_size : Z) :=
  update (fun b => set_clientBuf (ClientBuffer (data (t_clientBuf b)) client_buf_size) b) t.
Definition SetQnnTensorClientBufData (t : Qnn_Tensor_t) (client_buf_data : ptr) :=
  update (fun b => set_clientBuf (ClientBuffer client_buf_data (dataSize (t_clientBuf b))) b) t.
(** Writes the first word of the union. *)
Definition SetQnnTensorMemHandle (t : Qnn_Tensor_t) (mem_handle : ptr) :=
  update (fun b => set_clientBuf (ClientBuffer mem_handle (dataSize (t_clientBuf b))) b) t.
Definition SetQnnTensorQParams (t : Qnn_Tensor_t) (v : Qnn_QuantizeParams_t) :=
  update (set_quantizeParams v) t.
Definition SetQnnTensorID (t : Qnn_Tensor_t) (v : Z) := update (set_id v) t.

Definition GetQnnTensorID (t : Qnn_Tensor_t) : result Z := rmap t_id (body_of t).
Definition GetQnnTensorType (t : Qnn_Tensor_t) := rmap t_type (body_of t).
Definition GetQnnTensorName (t : Qnn_Tensor_t) := rmap t_name (body_of t).
Definition GetQnnTensorDataFormat (t : Qnn_Tensor_t) := rmap t_dataFormat (body_of t).
Definition GetQnnTensorDataType (t : Qnn_Tensor_t) := rmap t_dataType (body_of t).
Definition GetQnnTensorMemType (t : Qnn_Tensor_t) := rmap t_memType (body_of t).
Definition GetQnnTensorRank (t : Qnn_Tensor_t) := rmap t_rank (body_of t).
Definition GetQnnTensorDims (t : Qnn_Tensor_t) := rmap t_dimensions (body_of t).
Definition GetQnnTensorClientBuf (t : Qnn_Tensor_t) := rmap t_clientBuf (body_of t).
Definition GetQnnTensorMemHandle (t : Qnn_Tensor_t) := rmap (fun b => data (t_clientBuf b)) (body_of t).
Definition GetQnnTensorQParams (t : Qnn_Tensor_t) := rmap t_quantizeParams (body_of t).
Definition GetQnnTensorIsDynamicDimensions (t : Qnn_Tensor_t) : result (option (list Z)) :=
  match t with
  | TENSOR_V1 _ => Ok None
  | TENSOR_V2 _ d => Ok d
  | TENSOR_VERSION _ => Err unsupported
  end.

(** The first [rank] elements behind a pointer. *)
Definition read_dims (rank : Z) (dims : option (list Z)) : result (list Z) :=
  copy_n (Z.to_nat rank) dims.

Definition CalcQnnTensorNumElems (t : Qnn_Tensor_t) : result Z :=
  let* qnn_tensor_dims := GetQnnTensorDims t in
  let* qnn_tensor_rank := GetQnnTensorRank t in
  let* dims := read_dims qnn_tensor_rank qnn_tensor_dims in
  Ok (u32 (foldl (fun acc d => i32 (u32 (u32 acc * d))) 1 dims)).

Definition QnnTensorHasDynamicShape (t : Qnn_Tensor_t) : result bool :=
  let* is_dynamic_dimensions := GetQnnTensorIsDynamicDimensions t in
  match is_dynamic_dimensions with
  | None => Ok false
  | Some _ =>
      let* rank := GetQnnTensorRank t in
      let* flags := read_dims rank is_dynamic_dimensions in
      Ok (existsb (fun d => negb (d =? 0)) flags)
  end.

Definition f_abs (x : float) : float :=
  match x with
  | S754_zero _ => S754_zero false
  | S754_infinity _ => S754_infinity false
  | S754_nan => S754_nan
  | S754_finite _ m e => S754_finite false m e
  end.

Definition same_encoding (a b : Qnn_Encoding) : bool :=
  match a, b with
  | ENC_UNDEFINED, ENC_UNDEFINED | SCALE_OFFSET _ _, SCALE_OFFSET _ _
  | BW_SCALE_OFFSET _ _ _, BW_SCALE_OFFSET _ _ _ | AXIS_SCALE_OFFSET _ _ _, AXIS_SCALE_OFFSET _ _ _
  | BW_AXIS_SCALE_OFFSET _ _ _ _ _, BW_AXIS_SCALE_OFFSET _ _ _ _ _
  | BLOCKWISE_EXPANSION _, BLOCKWISE_EXPANSION _ | BLOCK _ _, BLOCK _ _
  | BW_FLOAT_BLOCK _ _ _, BW_FLOAT_BLOCK _ _ _ => true
  | ENC_OTHER x, ENC_OTHER y => x =? y
  | _, _ => false
  end.

(** [scale_diff] and [offset_diff]; the difference of the offsets is computed in [int],
    where overflow is undefined. *)
Definition CompareQnnQuantParams (qparam0 qparam1 : Qnn_QuantizeParams_t) : result (float * Z) :=
  let* _ := return_if_not
    (bool_decide (encodingDefinition qparam0 = encodingDefinition qparam1) &&
     same_encoding (quantizationEncoding qparam0) (quantizationEncoding qparam1))
    "Expected quantization parameters to be the same type." in
  match encodingDefinition qparam0 with
  | DEFINITION_DEFINED =>
      match quantizationEncoding qparam0, quantizationEncoding qparam1 with
      | SCALE_OFFSET s0 o0, SCALE_OFFSET s1 o1 =>
          if (- 2 ^ 31 <? o0 - o1) && (o0 - o1 <? 2 ^ 31) then Ok (f_abs (f32_sub s0 s1), Z.abs (o0 - o1))
          else Err Trap
      | _, _ => Err (EpFail "Unsupported quantization encoding: ")
      end
  | _ => Ok (f_zero, 0)
  end.

(** ** Narrowing of 64-bit constants

    Little-endian integers, and the bit patterns of [double] and [float].  The payload of
    a converted NaN is left to the platform. *)
Fixpoint le_decode (bytes : list Z) : Z :=
  match bytes with [] => 0 | b :: bytes => b + 256 * le_decode bytes end.

Fixpoint le_encode (n : nat) (z : Z) : list Z :=
  match n with O => [] | S n => z mod 256 :: le_encode n (z / 256) end.

Definition f64_of_bits (b : Z) : double :=
  let sign := Z.testbit b 63 in
  let e := (b / 2 ^ 52) mod 2 ^ 11 in
  let m := b mod 2 ^ 52 in
  if e =? 0 then
    if m =? 0 then S754_zero sign else S754_finite sign (Z.to_pos m) (- 1074)
  else if e =? 2047 then
    if m =? 0 then S754_infinity sign else S754_nan
  else S754_finite sign (Z.to_pos (m + 2 ^ 52)) (e - 1075).

Definition bits_of_f32 (nan : Z) (x : float) : Z :=
  let s (sign : bool) := if sign then 2 ^ 31 else 0 in
  match x with
  | S754_zero sign => s sign
  | S754_infinity sign => s sign + 255 * 2 ^ 23
  | S754_nan => nan
  | S754_finite sign m e =>
      if Z.pos m <? 2 ^ 23 then s sign + Z.pos m
      else s sign + (e + 150) * 2 ^ 23 + (Z.pos m - 2 ^ 23)
  end.

(** The [i]-th [size]-byte element of a buffer. *)
Definition element (size : nat) (bytes : list Z) (i : nat) : list Z := take size (drop (i * size) bytes).

Definition cast_elements (from : nat) (f : list Z → list Z) (bytes : list Z) : list Z :=
  mjoin ((fun i => f (element from bytes i)) <$> seq 0 (length bytes / from)).

Definition narrow_int64 (bytes : list Z) : list Z := le_encode 4 (i32 (i64 (le_decode bytes))).

Section Wrappers.
Context (QNN_TENSOR_INIT : Qnn_Tensor_t) (narrow_nan : Z → Z).

Definition narrow_double (bytes : list Z) : list Z :=
  let b := le_decode bytes in le_encode 4 (bits_of_f32 (narrow_nan b) (f32_of_f64 (f64_of_bits b))).

(** ** [QnnTensorWrapper] *)

Record QnnTensorWrapper := TensorWrapper {
  tensor_name_ : string;
  tensor_name_override_ : string;
  dimensions_ : list Z;
  client_buf_ : list Z;
  qnn_tensor_ : Qnn_Tensor_t;
  quant_params_ : QnnQuantParamsWrapper
}.

Definition default_tensor_wrapper : QnnTensorWrapper :=
  TensorWrapper "" "" [] [] QNN_TENSOR_INIT default_wrapper.

(** The constants of the constructor, after the casts of 64-bit types. *)
Definition narrowed (tensor_type : Qnn_TensorType_t) (data_type : Qnn_DataType_t) (client_buf : list Z)
  : Qnn_DataType_t * list Z :=
  let cast (narrow : Qnn_DataType_t) (f : list Z → list Z) :=
    let data_type := if bool_decide (tensor_type = TENSOR_TYPE_NATIVE) then narrow else data_type in
    match client_buf with [] => (data_type, []) | _ => (narrow, cast_elements 8 f client_buf) end in
  match data_type with
  | QNN_INT_64 => cast QNN_INT_32 narrow_int64
  | QNN_FLOAT_64 => cast QNN_FLOAT_32 narrow_double
  | _ => (data_type, client_buf)
  end.

Definition make_tensor (name : string) (tensor_type : Qnn_TensorType_t) (data_type : Qnn_DataType_t)
  (quantize_params : QnnQuantParamsWrapper) (shape client_buf : list Z) (mem_type : Qnn_TensorMemType_t)
  : result QnnTensorWrapper :=
  let* quant_params := copy_construct quantize_params in
  let '(data_type, client_buf) := narrowed tensor_type data_type client_buf in
  let* t := SetQnnTensorType QNN_TENSOR_INIT tensor_type in
  let* t := SetQnnTensorName t (Some name) in
  let* t := SetQnnTensorDataType t data_type in
  let* t := SetQnnTensorDim t shape in
  let* t := SetQnnTensorMemType t mem_type in
  let* t := match tensor_type with TENSOR_TYPE_STATIC => SetQnnTensorClientBuf t client_buf | _ => Ok t end in
  let* t := SetQnnTensorQParams t (params_ quant_params) in
  Ok (TensorWrapper name "" shape client_buf t quant_params).

Definition MakeNull (name : string) : result QnnTensorWrapper :=
  make_tensor name TENSOR_TYPE_NULL QNN_FLOAT_32 default_wrapper [0] [] TENSORMEMTYPE_RAW.

(** [Init] from a tensor of a cached context.  The members of an object whose [Init] failed
    are not described. *)
Definition kMaxCachedContextTensorRank : Z := 32.

Definition InitTensor (self : QnnTensorWrapper) (t : Qnn_Tensor_t) : result QnnTensorWrapper :=
  let* tensor_type := GetQnnTensorType t in
  let* _ := return_if (bool_decide (tensor_type = TENSOR_TYPE_STATIC))
    "QnnTensorWrapper::Init(const Qnn_Tensor_t&) does not support static initializers" in
  let* tensor_name := GetQnnTensorName t in
  match tensor_name with
  | None => Err (EpFail "Cached context tensor name is null")
  | Some tensor_name =>
      let* q := SetQnnTensorName t (Some tensor_name) in
      let* src_quantize_param := GetQnnTensorQParams t in
      let* (quant_params, init_status) := Init (quant_params_ self) src_quantize_param 0 0 in
      let* _ := match init_status with None => Ok tt | Some msg => Err (EpFail msg) end in
      let* q := SetQnnTensorQParams q (params_ quant_params) in
      let* shape_rank := GetQnnTensorRank t in
      let* shape_data := GetQnnTensorDims t in
      let* _ := return_if (shape_rank >? kMaxCachedContextTensorRank)
        "Cached context tensor rank exceeds the supported limit" in
      let* _ := return_if ((shape_rank >? 0) && bool_decide (shape_data = None))
        "Cached context tensor dimensions are null" in
      let* dimensions := read_dims shape_rank shape_data in
      let* q := SetQnnTensorDim q dimensions in
      let* mem_type := GetQnnTensorMemType t in
      let* q := SetQnnTensorMemType q mem_type in
      Ok (TensorWrapper tensor_name (tensor_name_override_ self) dimensions [] q quant_params)
  end.

Definition GetResolvedTensorName (w : QnnTensorWrapper) : string :=
  match tensor_name_override_ w with EmptyString => tensor_name_ w | o => o end.

Definition with_tensor (w : QnnTensorWrapper) (t : Qnn_Tensor_t) : QnnTensorWrapper :=
  TensorWrapper (tensor_name_ w) (tensor_name_override_ w) (dimensions_ w) (client_buf_ w) t (quant_params_ w).

Definition SetResolvedTensorName (w : QnnTensorWrapper) (resolved_name : string) : result QnnTensorWrapper :=
  if bool_decide (resolved_name = "") || bool_decide (tensor_name_override_ w = resolved_name) then Ok w
  else
    let* t := SetQnnTensorName (qnn_tensor_ w) (Some resolved_name) in
    Ok (TensorWrapper (tensor_name_ w) resolved_name (dimensions_ w) (client_buf_ w) t (quant_params_ w)).

(** [SwapOther]: the members are exchanged, then the pointers of [this] are set again. *)
Definition SwapOther (self other : QnnTensorWrapper) : result (QnnTensorWrapper * QnnTensorWrapper) :=
  let* t := SetQnnTensorName (qnn_tensor_ other) (Some (GetResolvedTensorName other)) in
  let* t := SetQnnTensorDim t (dimensions_ other) in
  let* t := SetQnnTensorClientBuf t (client_buf_ other) in
  let* t := SetQnnTensorQParams t (params_ (quant_params_ other)) in
  Ok (with_tensor other t, self).

Definition move_construct (other : QnnTensorWrapper) : result (QnnTensorWrapper * QnnTensorWrapper) :=
  SwapOther default_tensor_wrapper other.

Definition GetTensorType (w : QnnTensorWrapper) := GetQnnTensorType (qnn_tensor_ w).
Definition GetTensorDataType (w : QnnTensorWrapper) := GetQnnTensorDataType (qnn_tensor_ w).
Definition GetTensorRank (w : QnnTensorWrapper) : Z := u32 (Z.of_nat (length (dimensions_ w))).

(** ** [QnnParamWrapper] *)

(** The scalar of a parameter: the data type selects the member of the union. *)
Inductive Qnn_Scalar_t :=
| SCALAR_FLOAT_32 (v : float)
| SCALAR_UINT_32 (v : Z)
| SCALAR_INT_32 (v : Z)
| SCALAR_INT_64 (v : Z)
| SCALAR_BOOL_8 (v : bool)
| SCALAR_STRING (v : string).

Inductive Qnn_ParamValue :=
| PARAMTYPE_SCALAR (scalarParam : Qnn_Scalar_t)
| PARAMTYPE_TENSOR (tensorParam : Qnn_Tensor_t)
| PARAMTYPE_OTHER (code : Z).

Record Qnn_Param_t := Param { p_name : option string; p_value : Qnn_ParamValue }.

Record QnnParamWrapper := ParamWrapper {
  pw_name_ : string;
  pw_tensor_name_ : string;
  pw_shape_ : list Z;
  pw_param_data_ : list Z;
  pw_qnn_param_ : Qnn_Param_t
}.

Definition param_tensor_name (node_index : nat) (node_name name : string) : string :=
  node_name +:+ "_" +:+ pretty node_index +:+ "_" +:+ name.

Definition make_scalar_param (node_index : nat) (node_name name : string) (scalarParam : Qnn_ParamValue)
  : QnnParamWrapper :=
  ParamWrapper name (param_tensor_name node_index node_name name) [] [] (Param (Some name) scalarParam).

Definition make_tensor_param (node_index : nat) (node_name name : string) (data_type : Qnn_DataType_t)
  (shape param_data : list Z) : result QnnParamWrapper :=
  let tensor_name := param_tensor_name node_index node_name name in
  let* t := SetQnnTensorType QNN_TENSOR_INIT TENSOR_TYPE_STATIC in
  let* t := SetQnnTensorName t (Some tensor_name) in
  let* t := SetQnnTensorDataType t data_type in
  let* t := SetQnnTensorDim t shape in
  let* t := SetQnnTensorMemType t TENSORMEMTYPE_RAW in
  let* t := SetQnnTensorClientBuf t param_data in
  Ok (ParamWrapper name tensor_name shape param_data (Param (Some name) (PARAMTYPE_TENSOR t))).

(** The constructor from 32-bit values, which are copied byte by byte. *)
Definition make_u32_param (node_index : nat) (node_name name : string) (shape param_data : list Z)
  (is_signed : bool) : result QnnParamWrapper :=
  make_tensor_param node_index node_name name (if is_signed then QNN_INT_32 else QNN_UINT_32) shape
    (mjoin (le_encode 4 <$> param_data)).

Definition move_param (other : QnnParamWrapper) : result QnnParamWrapper :=
  let value := p_value (pw_qnn_param_ other) in
  let* value :=
    match value with
    | PARAMTYPE_TENSOR t =>
        let* t := SetQnnTensorName t (Some (pw_tensor_name_ other)) in
        let* t := SetQnnTensorDim t (pw_shape_ other) in
        let* t := SetQnnTensorClientBuf t (pw_param_data_ other) in
        Ok (PARAMTYPE_TENSOR t)
    | v => Ok v
    end in
  Ok (ParamWrapper (pw_name_ other) (pw_tensor_name_ other) (pw_shape_ other) (pw_param_data_ other)
        (Param (Some (pw_name_ other)) value)).

(** [createQnnParamWrapper<T>]: the element types it knows, with their size. *)
Inductive param_elem : Set := EL_FLOAT | EL_UINT32 | EL_INT32 | EL_INT64 | EL_BOOL.

Definition elem_data_type (T : param_elem) : Qnn_DataType_t :=
  match T with
  | EL_FLOAT => QNN_FLOAT_32 | EL_UINT32 => QNN_UINT_32 | EL_INT32 => QNN_INT_32
  | EL_INT64 => QNN_INT_64 | EL_BOOL => QNN_BOOL_8
  end.
Definition elem_size (T : param_elem) : nat := match T with EL_INT64 => 8 | EL_BOOL => 1 | _ => 4 end.

(** [param_data] holds the bit patterns of the elements. *)
Definition createQnnParamWrapper (T : param_elem) (node_index : nat) (node_name name : string)
  (shape param_data : list Z) : result QnnParamWrapper :=
  make_tensor_param node_index node_name name (elem_data_type T) shape
    (mjoin (le_encode (elem_size T) <$> param_data)).

End Wrappers.

(** ** [QnnOpConfigWrapper] *)

Record Qnn_OpConfig_t := OpConfig {
  oc_version : Z;
  oc_name : option string;
  oc_packageName : option string;
  oc_typeName : option string;
  oc_inputTensors : list Qnn_Tensor_t;
  oc_outputTensors : list Qnn_Tensor_t;
  oc_params : list Qnn_Param_t;
  oc_numOfInputs : Z;
  oc_numOfOutputs : Z;
  oc_numOfParams : Z
}.

Definition OPCONFIG_VERSION_1 : Z := 1.
Definition unsupported_op : err := Throw "QNN OpConfig version not supported, QNN OpConfig version: ".

Definition SetNames (c : Qnn_OpConfig_t) (op_name package_name type_name : string) : result Qnn_OpConfig_t :=
  if OPCONFIG_VERSION_1 =? oc_version c then
    Ok (OpConfig (oc_version c) (Some op_name) (Some package_name) (Some type_name) (oc_inputTensors c)
          (oc_outputTensors c) (oc_params c) (oc_numOfInputs c) (oc_numOfOutputs c) (oc_numOfParams c))
  else Err unsupported_op.

Definition SetNums (c : Qnn_OpConfig_t) (num_inputs num_outputs num_params : Z) : result Qnn_OpConfig_t :=
  if OPCONFIG_VERSION_1 =? oc_version c then
    Ok (OpConfig (oc_version c) (oc_name c) (oc_packageName c) (oc_typeName c) (oc_inputTensors c)
          (oc_outputTensors c) (oc_params c) num_inputs num_outputs num_params)
  else Err unsupported_op.

Definition SetData (c : Qnn_OpConfig_t) (input_tensors output_tensors : list Qnn_Tensor_t)
  (params : list Qnn_Param_t) : result Qnn_OpConfig_t :=
  if OPCONFIG_VERSION_1 =? oc_version c then
    Ok (OpConfig (oc_version c) (oc_name c) (oc_packageName c) (oc_typeName c) input_tensors
          output_tensors params (oc_numOfInputs c) (oc_numOfOutputs c) (oc_numOfParams c))
  else Err unsupported_op.

Section OpConfigWrapper.
Context (QNN_OPCONFIG_INIT : Qnn_OpConfig_t).

(** The constructor; the wrapper's vectors are the arrays of the configuration. *)
Definition make_op_config (name package_name type_name : string) (inputs outputs : list Qnn_Tensor_t)
  (params : list Qnn_Param_t) : result Qnn_OpConfig_t :=
  let* c := SetNames QNN_OPCONFIG_INIT name package_name type_name in
  let* c := SetNums c (u32 (Z.of_nat (length inputs))) (u32 (Z.of_nat (length outputs)))
    (u32 (Z.of_nat (length params))) in
  SetData c inputs outputs params.
End OpConfigWrapper.

(** ** The QNN library

    Each call returns its error code and the new graph; creating a tensor also writes to
    the tensor. *)
Class QnnInterface := {
  qnn_graph : Type;
  tensorCreateGraphTensor : qnn_graph → Qnn_Tensor_t → Z * Qnn_Tensor_t * qnn_graph;
  backendValidateOpConfig : Qnn_OpConfig_t → Z;
  graphAddNode : qnn_graph → Qnn_OpConfig_t → Z * qnn_graph
}.

Definition QNN_SUCCESS : Z := 0.

Section Creation.
Context `{SafeInt} `{QnnInterface}.

(** [utils::GetQnnTensorDataSizeInBytes(const Qnn_Tensor_t&)]. *)
Definition tensor_data_size (t : Qnn_Tensor_t) : result Z :=
  let* rank := GetQnnTensorRank t in
  let* dims := GetQnnTensorDims t in
  let* shape := read_dims rank dims in
  let* data_type := GetQnnTensorDataType t in
  GetQnnTensorDataSizeInBytes shape data_type.

(** What the creation of a tensor leaves behind: the answer, the tensor, the table of the
    created tensors, the graph and the error message. *)
Record created := Created {
  c_ok : bool;
  c_tensor : Qnn_Tensor_t;
  c_table : gmap string Z;
  c_graph : qnn_graph;
  c_error : string
}.

Definition CreateTensorInQnnGraph (graph : qnn_graph) (tensor_name : string) (t : Qnn_Tensor_t)
  (table : gmap string Z) (error_msg : string) : result created :=
  match table !! tensor_name with
  | Some id => let* t := SetQnnTensorID t id in Ok (Created true t table graph error_msg)
  | None =>
      let* qnn_data_type := GetQnnTensorDataType t in
      let* data_size := GetElementSizeByType_qnn qnn_data_type in
      if 0 =? data_size then Ok (Created false t table graph "Invalid QNN data type provided, ")
      else
      let* qnn_tensor_type := GetQnnTensorType t in
      let* problem :=
        match qnn_tensor_type with
        | TENSOR_TYPE_STATIC =>
            let* mem_type := GetQnnTensorMemType t in
            if bool_decide (mem_type ≠ TENSORMEMTYPE_RAW) then
              Ok (Some "Expected raw memType in provided static tensor ")
            else
              let* qnn_tensor_size := tensor_data_size t in
              let* buf := GetQnnTensorClientBuf t in
              if negb (qnn_tensor_size =? dataSize buf) then
                Ok (Some "Data length mismatch for static tensor.")
              else Ok None
        | _ => Ok None
        end in
      match problem with
      | Some msg => Ok (Created false t table graph msg)
      | None =>
          let '(tensor_create_result, t, graph) := tensorCreateGraphTensor graph t in
          if negb (tensor_create_result =? QNN_SUCCESS) then
            Ok (Created false t table graph "Failed to create tensor for node: ")
          else
            let* id := GetQnnTensorID t in
            Ok (Created true t (<[tensor_name := id]> table) graph error_msg)
      end
  end.

(** [QnnTensorWrapper::CreateQnnGraphTensor] and [QnnParamWrapper::CreateQnnGraphParam]:
    the wrapper with its updated tensor, and the outcome. *)
Definition CreateQnnGraphTensor (graph : qnn_graph) (w : QnnTensorWrapper) (table : gmap string Z)
  : result (QnnTensorWrapper * created) :=
  let* c := CreateTensorInQnnGraph graph (GetResolvedTensorName w) (qnn_tensor_ w) table "" in
  Ok (with_tensor w (c_tensor c), c).

Definition CreateQnnGraphParam (graph : qnn_graph) (w : QnnParamWrapper) (table : gmap string Z)
  : result (QnnParamWrapper * bool * gmap string Z * qnn_graph) :=
  match p_value (pw_qnn_param_ w) with
  | PARAMTYPE_TENSOR t =>
      let* c := CreateTensorInQnnGraph graph (pw_tensor_name_ w) t table "" in
      Ok (ParamWrapper (pw_name_ w) (pw_tensor_name_ w) (pw_shape_ w) (pw_param_data_ w)
            (Param (p_name (pw_qnn_param_ w)) (PARAMTYPE_TENSOR (c_tensor c))),
          c_ok c, c_table c, c_graph c)
  | _ => Ok (w, true, table, graph)
  end.

Definition QnnGraphOpValidation (op : Qnn_OpConfig_t) : bool := backendValidateOpConfig op =? QNN_SUCCESS.

Definition CreateQnnGraphOp (graph : qnn_graph) (op : Qnn_OpConfig_t) : bool * qnn_graph :=
  let '(status, graph) := graphAddNode graph op in (status =? QNN_SUCCESS, graph).

End Creation.

(** ** Wrappers and the tensors they describe *)

(** The tensor struct of a wrapper points to the members of the wrapper. *)
Definition describes (w : QnnTensorWrapper) : Prop :=
  ∃ b, body_of (qnn_tensor_ w) = Ok b ∧ t_name b = Some (GetResolvedTensorName w) ∧
    read_dims (t_rank b) (t_dimensions b) = Ok (dimensions_ w) ∧
    t_quantizeParams b = params_ (quant_params_ w) ∧
    (t_type b = TENSOR_TYPE_STATIC →
       t_clientBuf b = ClientBuffer (buf_ptr (client_buf_ w)) (u32 (Z.of_nat (length (client_buf_ w))))).

Lemma update_ok f t b : body_of t = Ok b → ∃ t', update f t = Ok t' ∧ body_of t' = Ok (f b).
Proof.
  destruct t as [v|v d|v]; intros [= <-]; [by exists (TENSOR_V1 (f v))|by exists (TENSOR_V2 (f v) d)].
Qed.

(** Runs the next setter in the goal on a tensor whose contents are known. *)
Ltac set_field :=
  match goal with
  | B : body_of ?t = Ok _ |- context [rbind (update ?f ?t) _] =>
      let t' := fresh "t" in let U := fresh "U" in let B' := fresh "B" in
      destruct (update_ok f t _ B) as (t' & U & B'); rewrite U; cbn [rbind]; clear U B
  end.

Ltac open_setters :=
  unfold SetQnnTensorType, SetQnnTensorName, SetQnnTensorDataType, SetQnnTensorDim, SetQnnTensorMemType,
    SetQnnTensorClientBuf, SetQnnTensorQParams, SetQnnTensorID.

Lemma read_vec (l : list Z) : Z.of_nat (length l) < 2 ^ 32 →
  read_dims (u32 (Z.of_nat (length l))) (vec_ptr l) = Ok l.
Proof.
  intros Hl. unfold read_dims. rewrite u32_length, Nat2Z.id by done.
  destruct l as [|x l]; [done|]. apply copy_n_all.
Qed.

Section WrapperFacts.
Context (QNN_TENSOR_INIT : Qnn_Tensor_t) (narrow_nan : Z → Z) (init_body : tensor_body).
Hypothesis Hinit : body_of QNN_TENSOR_INIT = Ok init_body.

Abbreviation mk := (make_tensor QNN_TENSOR_INIT narrow_nan).

Lemma make_tensor_spec name ty dt qp shape buf mem :
  wf qp → Z.of_nat (length shape) < 2 ^ 32 →
  ∃ w b, mk name ty dt qp shape buf mem = Ok w ∧ describes w ∧ tensor_name_ w = name ∧
    tensor_name_override_ w = "" ∧ dimensions_ w = shape ∧ params_ (quant_params_ w) = params_ qp ∧
    client_buf_ w = (narrowed narrow_nan ty dt buf).2 ∧ body_of (qnn_tensor_ w) = Ok b ∧
    t_type b = ty ∧ t_dataType b = (narrowed narrow_nan ty dt buf).1 ∧ t_memType b = mem.
Proof.
  intros Hq Hs. destruct (copy_from_spec default_wrapper qp Hq) as (q & Hc & Hp & _).
  unfold make_tensor. change (copy_construct qp) with (copy_from default_wrapper qp). rewrite Hc. cbn [rbind].
  destruct (narrowed narrow_nan ty dt buf) as [dt' buf'] eqn:En. open_setters.
  pose proof Hinit as B. do 5 set_field.
  match goal with H : body_of t3 = Ok _ |- _ => rename H into B3 end.
  assert (∃ t5 b5, match ty with
            | TENSOR_TYPE_STATIC => update (set_clientBuf (ClientBuffer (buf_ptr buf') (u32 (Z.of_nat (length buf'))))) t3
            | _ => Ok t3 end = Ok t5 ∧ body_of t5 = Ok b5 ∧ t_name b5 = Some name ∧
            t_rank b5 = u32 (Z.of_nat (length shape)) ∧ t_dimensions b5 = vec_ptr shape ∧ t_type b5 = ty ∧
            t_dataType b5 = dt' ∧ t_memType b5 = mem ∧
            (ty = TENSOR_TYPE_STATIC →
               t_clientBuf b5 = ClientBuffer (buf_ptr buf') (u32 (Z.of_nat (length buf')))))
    as (t5 & b5 & -> & B5 & ? & Hr & Hd & ? & ? & ? & Hbuf).
  { destruct ty; try (eexists _, _; split_and!; [reflexivity|exact B3|reflexivity..|done]).
    edestruct update_ok as (t5 & U & B5); [exact B3|]. rewrite U.
    eexists _, _; split_and!; [reflexivity|exact B5|reflexivity..|done]. }
  cbn [rbind]. set_field. eexists _, _; split_and!; try reflexivity; try eassumption.
  eexists. split_and!; [eassumption|done| |done|]; cbn.
  - rewrite Hr, Hd. by apply read_vec.
  - intros ?. apply Hbuf. congruence.
Qed.

End WrapperFacts.

Lemma resolved_override w name :
  tensor_name_override_ w = name → name ≠ "" → GetResolvedTensorName w = name.
Proof. unfold GetResolvedTensorName. intros -> ?. by destruct name. Qed.

(** A rename sets the name the struct shows; an empty one is ignored. *)
Lemma rename_spec w name : describes w →
  ∃ w', SetResolvedTensorName w name = Ok w' ∧ describes w' ∧
    GetResolvedTensorName w' = (if bool_decide (name = "") then GetResolvedTensorName w else name) ∧
    tensor_name_ w' = tensor_name_ w ∧ dimensions_ w' = dimensions_ w ∧ client_buf_ w' = client_buf_ w.
Proof.
  intros Hd. pose proof Hd as (b & B & Hn & Hdim & Hq & Hb). unfold SetResolvedTensorName.
  destruct (decide (name = "")) as [->|Hne].
  { rewrite bool_decide_true by done. cbn. by exists w. }
  rewrite (bool_decide_false (name = "")) by done. cbn [orb].
  destruct (decide (tensor_name_override_ w = name)) as [E|E].
  { rewrite bool_decide_true by done. exists w. split_and!; [done|done|by apply resolved_override|done..]. }
  rewrite bool_decide_false by done. open_setters. set_field.
  eexists; split_and!; [done| |by apply resolved_override|done..].
  eexists; split_and!; [eassumption| |done..]. cbn. f_equal. symmetry. by apply resolved_override.
Qed.

(** A move hands over the members and points the struct to them again. *)
Lemma move_spec self w : describes w → Z.of_nat (length (dimensions_ w)) < 2 ^ 32 →
  ∃ w', SwapOther self w = Ok (w', self) ∧ describes w' ∧
    GetResolvedTensorName w' = GetResolvedTensorName w ∧ tensor_name_ w' = tensor_name_ w ∧
    dimensions_ w' = dimensions_ w ∧ client_buf_ w' = client_buf_ w ∧ quant_params_ w' = quant_params_ w.
Proof.
  intros (b & B & Hn & Hdim & Hq & Hb) Hl. unfold SwapOther. open_setters. do 4 set_field.
  eexists; split_and!; [done| |done..].
  eexists; split_and!; [eassumption|done| |done|done]. by apply read_vec.
Qed.

(** A cached tensor keeps its name, shape and type; its quantization parameters are the
    ones the parameter wrapper read. *)
Lemma init_tensor_spec self t w : InitTensor self t = Ok w → tensor_name_override_ self = "" →
  describes w ∧ client_buf_ w = [] ∧
  ∃ b, body_of t = Ok b ∧ t_type b ≠ TENSOR_TYPE_STATIC ∧ t_name b = Some (tensor_name_ w) ∧
    read_dims (t_rank b) (t_dimensions b) = Ok (dimensions_ w) ∧ t_rank b ≤ 32 ∧
    Init (quant_params_ self) (t_quantizeParams b) 0 0 = Ok (quant_params_ w, None).
Proof.
  intros Hi Ho. unfold InitTensor, GetQnnTensorType, GetQnnTensorName, GetQnnTensorQParams,
    GetQnnTensorRank, GetQnnTensorDims, GetQnnTensorMemType in Hi.
  destruct (body_of t) as [b|] eqn:B; [|done]. cbn [rmap rbind] in Hi.
  inv_bind Hi. apply return_if_Ok, bool_decide_eq_false in Hi0.
  destruct (t_name b) as [name|] eqn:Hn; [|done]. revert Hi. open_setters. set_field. intros Hi.
  inv_bind Hi. destruct a0 as [q st]. inv_bind Hi. destruct st; [done|]. revert Hi. set_field. intros Hi.
  inv_bind Hi. inv_bind Hi. inv_bind Hi. apply return_if_Ok in Hi3. rewrite Z.gtb_ltb, Z.ltb_ge in Hi3.
  revert Hi. do 2 set_field. intros [= <-].
  match goal with H : read_dims _ _ = Ok a3 |- _ => rename H into Hr end.
  assert (length a3 ≤ 32)%nat as Hlen.
  { clear - Hr Hi3. unfold read_dims, copy_n, kMaxCachedContextTensorRank in *.
    destruct (Z.to_nat (t_rank b)) eqn:Er; [by injection Hr as <-; cbn; lia|].
    destruct (t_dimensions b) as [l|]; [|done]. destruct (S n <=? length l)%nat; [|done].
    injection Hr as <-. rewrite length_take. lia. }
  split_and!; [|done|].
  - eexists; split_and!; [eassumption| | |done|done]; cbn.
    + by rewrite Ho.
    + apply read_vec. lia.
  - exists b. unfold kMaxCachedContextTensorRank in *. split_and!; try done.
Qed.

(** ** Narrowed constants *)

Lemma le_encode_length n z : length (le_encode n z) = n.
Proof. revert z. induction n as [|n IH]; intros z; cbn; [done|]. by rewrite IH. Qed.

Lemma le_decode_encode n z : le_decode (le_encode n z) = z mod 256 ^ Z.of_nat n.
Proof.
  revert z. induction n as [|n IH]; intros z; cbn [le_encode le_decode]; [by rewrite Z.mod_1_r|].
  rewrite IH, Nat2Z.inj_succ, Z.pow_succ_r by lia.
  rewrite Z.rem_mul_r by lia. done.
Qed.

Lemma le_encode_congr n z k : le_encode n (z + 256 ^ Z.of_nat n * k) = le_encode n z.
Proof.
  revert z k. induction n as [|n IH]; intros z k; [done|]. cbn [le_encode].
  rewrite Nat2Z.inj_succ, Z.pow_succ_r by lia.
  replace (z + 256 * 256 ^ Z.of_nat n * k) with (z + (256 ^ Z.of_nat n * k) * 256) by lia.
  rewrite Z.mod_add, Z.div_add, IH by lia. done.
Qed.

(** Two's complement truncation keeps the low bytes. *)
Lemma narrow_int64_encode v : narrow_int64 (le_encode 8 v) = le_encode 4 v.
Proof.
  unfold narrow_int64. rewrite le_decode_encode.
  change (v mod 256 ^ Z.of_nat 8) with (wrapu 64 v). rewrite wraps_wrapu.
  unfold wraps.
  rewrite (Z.mod_eq (v + 2 ^ (64 - 1)) (2 ^ 64)) by lia.
  set (q := (v + 2 ^ (64 - 1)) / 2 ^ 64). rewrite (Z.mod_eq _ (2 ^ 32)) by lia.
  set (r := (_ + 2 ^ (32 - 1)) / 2 ^ 32).
  rewrite <- (le_encode_congr 4 v (- q * 2 ^ 32 - r)). f_equal. change (256 ^ Z.of_nat 4) with (2 ^ 32). lia.
Qed.

Lemma join_cons {A} (x : list A) (l : list (list A)) : mjoin (x :: l) = x ++ mjoin l.
Proof. done. Qed.

Lemma element_join (size : nat) (l : list (list Z)) i x :
  (∀ y, y ∈ l → length y = size) → l !! i = Some x → element size (mjoin l) i = x.
Proof.
  unfold element. revert i. induction l as [|y l IH]; intros i Hl Hi; [done|].
  assert (length y = size) as Hy by (apply Hl; set_solver). destruct i as [|i]; cbn in Hi |- *.
  - injection Hi as ->. rewrite drop_0, take_app_le, firstn_all2 by lia. done.
  - rewrite drop_app_ge by lia. replace (size + i * size - length y)%nat with (i * size)%nat by lia.
    apply IH; [set_solver|done].
Qed.

Lemma cast_join (from : nat) (f : list Z → list Z) (l : list (list Z)) :
  (0 < from)%nat → (∀ y, y ∈ l → length y = from) →
  cast_elements from f (mjoin l) = mjoin (f <$> l).
Proof.
  intros Hf Hl. unfold cast_elements.
  assert (length (mjoin l) = length l * from)%nat as ->.
  { clear Hf. induction l as [|y l IH]; [done|].
    rewrite join_cons, length_app, IH by set_solver.
    rewrite (Hl y) by set_solver. cbn. lia. }
  rewrite Nat.div_mul by lia. f_equal. apply list_eq. intros i. rewrite !list_lookup_fmap.
  destruct (decide (i < length l)%nat) as [Hi|Hi].
  - rewrite lookup_seq_lt by done. destruct (lookup_lt_is_Some_2 l i Hi) as [x Hx]. rewrite Hx. cbn.
    by rewrite (element_join from l i x).
  - rewrite !lookup_ge_None_2 by (rewrite ?length_seq; lia). done.
Qed.

Lemma join_encode_length n (vs : list Z) : length (mjoin (le_encode n <$> vs)) = (length vs * n)%nat.
Proof.
  induction vs as [|v vs IH]; [done|]. cbn [fmap list_fmap].
  rewrite join_cons, length_app, le_encode_length, IH. cbn. lia.
Qed.

Lemma narrowed_int64 narrow_nan ty vs : vs ≠ [] →
  narrowed narrow_nan ty QNN_INT_64 (mjoin (le_encode 8 <$> vs)) = (QNN_INT_32, mjoin (le_encode 4 <$> vs)).
Proof.
  intros Hne. unfold narrowed.
  destruct (mjoin (le_encode 8 <$> vs)) as [|x l] eqn:E.
  { apply (f_equal length) in E. rewrite join_encode_length in E. destruct vs; [done|]. cbn in E. lia. }
  rewrite <- E, cast_join; [|lia|].
  - f_equal. rewrite <- list_fmap_compose. f_equal. apply list_fmap_ext. intros i v _. apply narrow_int64_encode.
  - intros y Hy. apply list_elem_of_fmap in Hy as (v & -> & _). apply le_encode_length.
Qed.

(** ** Creating tensors *)

Section CreationFacts.
Context `{SafeInt} `{QnnInterface}.

Lemma create_tensor_spec graph name t table msg c :
  CreateTensorInQnnGraph graph name t table msg = Ok c →
  (c_ok c = true → ∃ b id, body_of (c_tensor c) = Ok b ∧ t_id b = id ∧ c_table c !! name = Some id) ∧
  (∀ n, n ≠ name → c_table c !! n = table !! n) ∧
  (∀ id, table !! name = Some id → c_ok c = true ∧ c_graph c = graph ∧ c_table c = table) ∧
  (table !! name = None →
     (c_ok c = false → c_table c = table) ∧
     (c_ok c = true → tensorCreateGraphTensor graph t = (QNN_SUCCESS, c_tensor c, c_graph c) ∧
        ∃ b, body_of t = Ok b ∧ (t_type b = TENSOR_TYPE_STATIC → t_memType b = TENSORMEMTYPE_RAW ∧
          tensor_data_size t = Ok (dataSize (t_clientBuf b))))).
Proof.
  unfold CreateTensorInQnnGraph. destruct (table !! name) as [id|] eqn:Et.
  - intros Hc. inv_bind Hc. injection Hc as <-. cbn. destruct t as [b|b d|v]; [| |done];
      injection Hc0 as <-; (split_and!; [intros _; by eexists _, _|done|done|done]).
  - intros Hc. inv_bind Hc. inv_bind Hc.
    destruct (0 =? a0); [by injection Hc as <-|]. inv_bind Hc.
    unfold GetQnnTensorType in Hc2. destruct (body_of t) as [b|] eqn:B; [|done]. injection Hc2 as <-.
    inv_bind Hc. destruct a1 as [m|]; [by injection Hc as <-|].
    destruct (tensorCreateGraphTensor graph t) as [[st t'] g] eqn:Eg.
    destruct (Z.eqb_spec st QNN_SUCCESS) as [->|]; cbn [negb] in Hc; [|by injection Hc as <-].
    inv_bind Hc. injection Hc as <-. cbn.
    unfold GetQnnTensorID in Hc3. destruct (body_of t') as [b'|] eqn:B'; [|done]. injection Hc3 as <-.
    split_and!; [intros _; exists b', (t_id b'); by rewrite lookup_insert_eq| |done|].
    { intros n Hn. by rewrite lookup_insert_ne. }
    intros _. split; [done|]. intros _. split; [done|]. exists b. split; [done|]. intros Hs.
    rewrite Hs in Hc2. unfold GetQnnTensorMemType, GetQnnTensorClientBuf in Hc2. rewrite B in Hc2.
    cbn [rmap rbind] in Hc2. destruct (bool_decide _) eqn:Hb; [done|].
    apply bool_decide_eq_false, dec_stable in Hb. split; [done|]. inv_bind Hc2.
    match goal with E : tensor_data_size t = _ |- _ => rewrite E end.
    destruct (Z.eqb_spec a1 (dataSize (t_clientBuf b))) as [->|]; [done|]. cbn in Hc2. done.
Qed.
End CreationFacts.

(** ** Properties *)

Definition example_body : tensor_body :=
  Body 0 None TENSOR_TYPE_NATIVE 0 QNN_FLOAT_32 QNN_QUANTIZE_PARAMS_INIT 0 None TENSORMEMTYPE_RAW
    (ClientBuffer PNull 0).

(** A 64-bit integer constant becomes a 32-bit one: each value is truncated to its low
    32 bits (so values that fit are kept), the type becomes INT_32, and the size check of
    the graph creation finds the byte size of the shape. *)
Theorem int64_constant_narrowed `{SafeInt} (init : Qnn_Tensor_t) (ib : tensor_body) (nan : Z → Z)
  (name : string) (qp : QnnQuantParamsWrapper) (shape vs : list Z) :
  body_of init = Ok ib → wf qp → Z.of_nat (length shape) < 2 ^ 32 →
  Forall (Z.lt 0) shape → prodZ shape = Z.of_nat (length vs) → prodZ shape < 2 ^ 30 →
  ∃ w, make_tensor init nan name TENSOR_TYPE_STATIC QNN_INT_64 qp shape (mjoin (le_encode 8 <$> vs))
         TENSORMEMTYPE_RAW = Ok w ∧
    GetTensorDataType w = Ok QNN_INT_32 ∧
    client_buf_ w = mjoin (le_encode 4 <$> vs) ∧
    (∀ i v, vs !! i = Some v → le_decode (element 4 (client_buf_ w) i) = u32 v) ∧
    (∃ buf, GetQnnTensorClientBuf (qnn_tensor_ w) = Ok buf ∧ tensor_data_size (qnn_tensor_ w) = Ok (dataSize buf)).
Proof.
  intros Hi Hq Hs Hpos Hprod Hlt. pose proof (prodZ_pos _ Hpos) as Hp.
  assert (vs ≠ []) as Hne by (intros ->; cbn in Hprod; lia).
  destruct (make_tensor_spec init nan ib Hi name TENSOR_TYPE_STATIC QNN_INT_64 qp shape
    (mjoin (le_encode 8 <$> vs)) TENSORMEMTYPE_RAW Hq Hs)
    as (w & b & Hw & (b' & B' & _ & Hdim & _ & Hbuf) & _ & _ & Hsh & _ & Hcb & B & Hty & Hdt & _).
  rewrite narrowed_int64 in Hcb, Hdt by done. cbn [fst snd] in Hcb, Hdt.
  rewrite B in B'. injection B' as <-. exists w. split_and!; [done| |done| |].
  - unfold GetTensorDataType, GetQnnTensorDataType. rewrite B. cbn. by rewrite Hdt.
  - intros i v Hv. rewrite Hcb, (element_join 4 _ i (le_encode 4 v)), le_decode_encode; [done| |].
    + intros y Hy. apply list_elem_of_fmap in Hy as (x & -> & _). apply le_encode_length.
    + rewrite list_lookup_fmap, Hv. done.
  - unfold GetQnnTensorClientBuf, tensor_data_size, GetQnnTensorRank, GetQnnTensorDims, GetQnnTensorDataType.
    rewrite B. cbn [rmap rbind]. rewrite Hdim. cbn [rbind]. eexists; split; [done|].
    rewrite (Hbuf Hty), Hdt, Hsh, qnn_size_eq, num_elements_fits, Z.mul_1_l by (done || lia). cbn [rbind].
    rewrite (qnn_count_fits _ _ 32) by (unfold in_u; done || zdiv). cbn [dataSize].
    rewrite Hcb, join_encode_length, wrapu_id by (unfold in_u; lia). f_equal. zdiv.
Qed.

Lemma int64_constant_narrowed_witness :
  ∃ w, make_tensor (TENSOR_V2 example_body None) id "x" TENSOR_TYPE_STATIC QNN_INT_64 default_wrapper [1; 2]
      (mjoin (le_encode 8 <$> [7; -1])) TENSORMEMTYPE_RAW = Ok w ∧
    GetTensorDataType w = Ok QNN_INT_32 ∧
    client_buf_ w = mjoin (le_encode 4 <$> [7; -1]) ∧
    (∀ i v, [7; -1] !! i = Some v → le_decode (element 4 (client_buf_ w) i) = u32 v) ∧
    (∃ buf, GetQnnTensorClientBuf (qnn_tensor_ w) = Ok buf ∧
       tensor_data_size (H := exact_safe_int) (qnn_tensor_ w) = Ok (dataSize buf)).
Proof.
  apply (int64_constant_narrowed (H := exact_safe_int) (TENSOR_V2 example_body None) example_body id "x"
    default_wrapper [1; 2] [7; -1]);
    [reflexivity|done|cbn; lia|repeat constructor; lia|reflexivity|cbn; lia].
Defined.

(** [CreateTensorInQnnGraph] creates a tensor in the QNN graph at most once per name: a
    name in the table is answered from the table without a call, a new name costs one call
    and is recorded with the id QNN assigned, a failure records nothing, and a constant is
    only created when its data has exactly the byte size of its shape. *)
Theorem create_tensor_once `{SafeInt} `{QnnInterface} (graph : qnn_graph) (name : string) (t : Qnn_Tensor_t)
  (table : gmap string Z) (msg : string) (c : created) :
  CreateTensorInQnnGraph graph name t table msg = Ok c →
  (c_ok c = true → ∃ id, GetQnnTensorID (c_tensor c) = Ok id ∧ c_table c !! name = Some id) ∧
  (∀ n, n ≠ name → c_table c !! n = table !! n) ∧
  (∀ id, table !! name = Some id → c_ok c = true ∧ c_graph c = graph ∧ c_table c = table) ∧
  (table !! name = None →
     (c_ok c = false → c_table c = table) ∧
     (c_ok c = true → tensorCreateGraphTensor graph t = (QNN_SUCCESS, c_tensor c, c_graph c) ∧
        (GetQnnTensorType t = Ok TENSOR_TYPE_STATIC → ∃ buf,
           GetQnnTensorMemType t = Ok TENSORMEMTYPE_RAW ∧ GetQnnTensorClientBuf t = Ok buf ∧
           tensor_data_size t = Ok (dataSize buf)))).
Proof.
  intros Hc. destruct (create_tensor_spec _ _ _ _ _ _ Hc) as (H1 & H2 & H3 & H4).
  split_and!; [|done|done|].
  - intros Hok. destruct (H1 Hok) as (b & id & B & <- & Hid). exists (t_id b).
    unfold GetQnnTensorID. by rewrite B.
  - intros Hn. destruct (H4 Hn) as [H5 H6]. split; [done|]. intros Hok.
    destruct (H6 Hok) as (Hcall & b & B & Hst). split; [done|].
    unfold GetQnnTensorType, GetQnnTensorMemType, GetQnnTensorClientBuf. rewrite B. intros [= E].
    destruct (Hst E) as [Hm Hsz]. exists (t_clientBuf b). cbn. by rewrite Hm.
Qed.

(** A library that numbers the tensors of a graph. *)
Definition counting_qnn : QnnInterface := {|
  qnn_graph := Z * list Qnn_OpConfig_t;
  tensorCreateGraphTensor g t :=
    match SetQnnTensorID t g.1 with Ok t' => (0, t', (g.1 + 1, g.2)) | Err _ => (1, t, g) end;
  backendValidateOpConfig _ := 0;
  graphAddNode g op := (0, (g.1, g.2 ++ [op]))
|}.

Lemma create_tensor_once_witness :
  let c := Created (H0 := counting_qnn) true (TENSOR_V1 (set_id 5 example_body)) {[ "x" := 5 ]} (6, []) "" in
  CreateTensorInQnnGraph (H := exact_safe_int) (H0 := counting_qnn) (5, []) "x" (TENSOR_V1 example_body) ∅ "" =
    Ok c ∧
  (c_ok c = true → ∃ id, GetQnnTensorID (c_tensor c) = Ok id ∧ c_table c !! "x" = Some id).
Proof.
  intros c.
  assert (CreateTensorInQnnGraph (H := exact_safe_int) (H0 := counting_qnn) (5, []) "x"
    (TENSOR_V1 example_body) ∅ "" = Ok c) as E by reflexivity.
  split; [exact E|].
  apply (create_tensor_once (H := exact_safe_int) (H0 := counting_qnn) _ _ _ _ _ _ E).
Defined.
