(* ===== verification/Placement.v ===== *)
(** * Tensor wrappers in memory

    [QnnTensor] reads a pointer as what it points to.  This file places the wrappers of
    [builder/qnn_def.h] in memory, where a move matters: a [std::string] keeps a short text inside the
    object and a long one in a block of the heap, vectors and the arrays of quantization parameters are
    blocks of the heap, and the struct that a wrapper hands to QNN holds addresses.  An address into
    another object, or into a block that was freed, shows something else or nothing.

    [view] reads a wrapper through its addresses.  The operations on memory give the views that the
    operations of [QnnTensor] give as values, also after the wrapper that was moved from is gone. *)

From stdpp Require Import gmap.
From S2P Require Import Prelude DataTypes Floats QuantParams QnnTensor.
Local Open Scope Z_scope.

(** ** Memory *)

(** The strings of a wrapper. *)
Inductive member := NAME | OVERRIDE.
Inductive addr := ANull | AMember (object : nat) (f : member) | AHeap (b : nat).

(** A block: a text, a non-empty vector, or the arrays of quantization parameters (with the
    parameters they belong to). *)
Inductive block :=
| BText (s : string)
| BWords (x : Z) (l : list Z)
| BBytes (x : Z) (l : list Z)
| BQuant (q : QnnQuantParamsWrapper).

(** A [std::string]: its text inside the object, or a block. *)
Inductive text := SHORT (s : string) | LONG (b : nat).

(** [Qnn_Tensor_t] with its addresses; [r_fields] has the other members. *)
Record raw_tensor := Raw { r_fields : Qnn_Tensor_t; r_name : addr; r_dims : addr; r_data : addr; r_quant : addr }.

(** A [QnnTensorWrapper]; an empty vector has no block. *)
Record object := Object {
  o_name : text;
  o_override : text;
  o_dims : option nat;
  o_buf : option nat;
  o_quant : nat;
  o_tensor : raw_tensor
}.

Record memory := Memory { objects : gmap nat object; heap : gmap nat block }.

(** [c_str()] of a string of object [o], and [data()] of a vector. *)
Definition c_str (o : nat) (f : member) (t : text) : addr := match t with SHORT _ => AMember o f | LONG b => AHeap b end.
Definition data_addr (v : option nat) : addr := match v with None => ANull | Some b => AHeap b end.

(** ** Reading *)

Definition text_value (m : memory) (t : text) : option string :=
  match t with SHORT s => Some s | LONG b => match heap m !! b with Some (BText s) => Some s | _ => None end end.
Definition words_value (m : memory) (v : option nat) : option (list Z) :=
  match v with None => Some [] | Some b => match heap m !! b with Some (BWords x l) => Some (x :: l) | _ => None end end.
Definition bytes_value (m : memory) (v : option nat) : option (list Z) :=
  match v with None => Some [] | Some b => match heap m !! b with Some (BBytes x l) => Some (x :: l) | _ => None end end.
Definition quant_value (m : memory) (b : nat) : option QnnQuantParamsWrapper :=
  match heap m !! b with Some (BQuant q) => Some q | _ => None end.

Definition member_of (ob : object) (f : member) : text := match f with NAME => o_name ob | OVERRIDE => o_override ob end.

(** What is behind an address: [None] when there is no such object or block any more, or when it
    holds something else. *)
Definition read_text (m : memory) (a : addr) : option (option string) :=
  match a with
  | ANull => Some None
  | AMember o f => match objects m !! o with
                   | Some ob => match member_of ob f with SHORT s => Some (Some s) | LONG _ => None end
                   | None => None end
  | AHeap b => match heap m !! b with Some (BText s) => Some (Some s) | _ => None end
  end.
Definition read_words (m : memory) (a : addr) : option (option (list Z)) :=
  match a with
  | ANull => Some None
  | AHeap b => match heap m !! b with Some (BWords x l) => Some (Some (x :: l)) | _ => None end
  | _ => None
  end.
Definition read_bytes (m : memory) (a : addr) : option ptr :=
  match a with
  | ANull => Some PNull
  | AHeap b => match heap m !! b with Some (BBytes x l) => Some (PBuf (x :: l)) | _ => None end
  | _ => None
  end.
Definition read_quant (m : memory) (a : addr) : option Qnn_QuantizeParams_t :=
  match a with AHeap b => params_ <$> quant_value m b | _ => None end.

(** The tensor as QNN sees it. *)
Definition point (n : option string) (d : option (list Z)) (p : ptr) (q : Qnn_QuantizeParams_t) (b : tensor_body) : tensor_body :=
  Body (t_id b) n (t_type b) (t_dataFormat b) (t_dataType b) q (t_rank b) d (t_memType b) (ClientBuffer p (dataSize (t_clientBuf b))).
Definition read_tensor (m : memory) (r : raw_tensor) : option Qnn_Tensor_t :=
  match read_text m (r_name r), read_words m (r_dims r), read_bytes m (r_data r), read_quant m (r_quant r) with
  | Some n, Some d, Some p, Some q => match update (point n d p q) (r_fields r) with Ok t => Some t | Err _ => None end
  | _, _, _, _ => None
  end.

Definition view_object (m : memory) (ob : object) : option QnnTensorWrapper :=
  match text_value m (o_name ob), text_value m (o_override ob), words_value m (o_dims ob), bytes_value m (o_buf ob), quant_value m (o_quant ob),
        read_tensor m (o_tensor ob) with
  | Some n, Some v, Some d, Some b, Some q, Some t => Some (TensorWrapper n v d b t q)
  | _, _, _, _, _, _ => None
  end.
Definition view (m : memory) (o : nat) : option QnnTensorWrapper := match objects m !! o with Some ob => view_object m ob | None => None end.

(** ** Operations *)

(** The setters store an address; the rank and the size are copied. *)
Definition SetNameAt (r : raw_tensor) (a : addr) : result raw_tensor :=
  let* _ := body_of (r_fields r) in Ok (Raw (r_fields r) a (r_dims r) (r_data r) (r_quant r)).
Definition SetDimAt (r : raw_tensor) (dims : list Z) (a : addr) : result raw_tensor :=
  let* t := SetQnnTensorDim (r_fields r) dims in Ok (Raw t (r_name r) a (r_data r) (r_quant r)).
Definition SetClientBufAt (r : raw_tensor) (buf : list Z) (a : addr) : result raw_tensor :=
  let* t := SetQnnTensorClientBuf (r_fields r) buf in Ok (Raw t (r_name r) (r_dims r) a (r_quant r)).
Definition SetQParamsAt (r : raw_tensor) (a : addr) : result raw_tensor :=
  let* _ := body_of (r_fields r) in Ok (Raw (r_fields r) (r_name r) (r_dims r) (r_data r) a).

(** Reading a member of a live wrapper; anything else is a use after free. *)
Definition live {A} (x : option A) : result A := match x with Some a => Ok a | None => Err Trap end.

(** [GetResolvedTensorName().c_str()] *)
Definition resolved_addr (m : memory) (o : nat) (ob : object) : result addr :=
  let* v := live (text_value m (o_override ob)) in
  Ok (if bool_decide (v = "") then c_str o NAME (o_name ob) else c_str o OVERRIDE (o_override ob)).

Definition with_raw (ob : object) (r : raw_tensor) : object := Object (o_name ob) (o_override ob) (o_dims ob) (o_buf ob) (o_quant ob) r.
Definition put (m : memory) (o : nat) (ob : object) : memory := Memory (<[o := ob]> (objects m)) (heap m).

(** [SwapOther]: the members change places, a short text between the objects and a block by its
    address; the struct of [self] then gets the addresses of the members of [self]. *)
Definition SwapAt (m : memory) (self other : nat) : result memory :=
  let* s := live (objects m !! self) in
  let* o := live (objects m !! other) in
  let m := put (put m other s) self o in
  let* name := resolved_addr m self o in
  let* dims := live (words_value m (o_dims o)) in
  let* buf := live (bytes_value m (o_buf o)) in
  let* r := SetNameAt (o_tensor o) name in
  let* r := SetDimAt r dims (data_addr (o_dims o)) in
  let* r := SetClientBufAt r buf (data_addr (o_buf o)) in
  let* r := SetQParamsAt r (AHeap (o_quant o)) in
  Ok (put m self (with_raw o r)).

(** The end of an object: its blocks are freed. *)
Definition text_blocks (t : text) : list nat := match t with SHORT _ => [] | LONG b => [b] end.
Definition blocks (ob : object) : list nat :=
  text_blocks (o_name ob) ++ text_blocks (o_override ob) ++ option_list (o_dims ob) ++ option_list (o_buf ob) ++ [o_quant ob].
Definition destroy (m : memory) (o : nat) : memory :=
  match objects m !! o with
  | None => m
  | Some ob => Memory (delete o (objects m)) (foldr delete (heap m) (blocks ob))
  end.

Section Strings.
(** Which texts are too long for the object is up to the library. *)
Context (long : string → bool).

Definition new_block (m : memory) (c : block) : memory * nat :=
  let b := fresh (dom (heap m)) in (Memory (objects m) (<[b := c]> (heap m)), b).
Definition new_text (m : memory) (s : string) : memory * text :=
  if long s then let (m, b) := new_block m (BText s) in (m, LONG b) else (m, SHORT s).
Definition new_words (m : memory) (l : list Z) : memory * option nat :=
  match l with [] => (m, None) | x :: l => let (m, b) := new_block m (BWords x l) in (m, Some b) end.
Definition new_bytes (m : memory) (l : list Z) : memory * option nat :=
  match l with [] => (m, None) | x :: l => let (m, b) := new_block m (BBytes x l) in (m, Some b) end.

(** [SetResolvedTensorName]: the old text of the override is freed. *)
Definition RenameAt (m : memory) (o : nat) (resolved_name : string) : result memory :=
  let* ob := live (objects m !! o) in
  let* old := live (text_value m (o_override ob)) in
  if bool_decide (resolved_name = "") || bool_decide (old = resolved_name) then Ok m
  else
    let m := Memory (objects m) (foldr delete (heap m) (text_blocks (o_override ob))) in
    let (m, t) := new_text m resolved_name in
    let* r := SetNameAt (o_tensor ob) (c_str o OVERRIDE t) in
    Ok (put m o (Object (o_name ob) t (o_dims ob) (o_buf ob) (o_quant ob) r)).

(** The default constructor, which a move constructor starts with. *)
Definition DefaultAt (QNN_TENSOR_INIT : Qnn_Tensor_t) (m : memory) (o : nat) : memory :=
  let (m, q) := new_block m (BQuant default_wrapper) in
  put m o (Object (SHORT "") (SHORT "") None None q (Raw QNN_TENSOR_INIT ANull ANull ANull (AHeap q))).

(** The constructor: the members, then the struct. *)
Definition ConstructAt (QNN_TENSOR_INIT : Qnn_Tensor_t) (narrow_nan : Z → Z) (m : memory) (o : nat) (name : string)
  (tensor_type : Qnn_TensorType_t) (data_type : Qnn_DataType_t) (quantize_params : QnnQuantParamsWrapper) (shape client_buf : list Z)
  (mem_type : Qnn_TensorMemType_t) : result memory :=
  let* quant_params := copy_construct quantize_params in
  let '(data_type, client_buf) := narrowed narrow_nan tensor_type data_type client_buf in
  let (m, n) := new_text m name in
  let (m, d) := new_words m shape in
  let (m, b) := new_bytes m client_buf in
  let (m, q) := new_block m (BQuant quant_params) in
  let* t := SetQnnTensorType QNN_TENSOR_INIT tensor_type in
  let* r := SetNameAt (Raw t ANull ANull ANull ANull) (c_str o NAME n) in
  let* t := SetQnnTensorDataType (r_fields r) data_type in
  let* r := SetDimAt (Raw t (r_name r) (r_dims r) (r_data r) (r_quant r)) shape (data_addr d) in
  let* t := SetQnnTensorMemType (r_fields r) mem_type in
  let r := Raw t (r_name r) (r_dims r) (r_data r) (r_quant r) in
  let* r := match tensor_type with TENSOR_TYPE_STATIC => SetClientBufAt r client_buf (data_addr b) | _ => Ok r end in
  let* r := SetQParamsAt r (AHeap q) in
  Ok (put m o (Object n (SHORT "") d b q r)).
End Strings.

(** ** Placed wrappers *)

(** The addresses of the struct are those of the members of its own object. *)
Record owned (m : memory) (o : nat) (ob : object) : Prop := Owned {
  own_name : resolved_addr m o ob = Ok (r_name (o_tensor ob));
  own_dims : r_dims (o_tensor ob) = data_addr (o_dims ob);
  own_quant : r_quant (o_tensor ob) = AHeap (o_quant ob);
  own_data : r_data (o_tensor ob) = ANull ∨ r_data (o_tensor ob) = data_addr (o_buf ob)
}.

(** Every block of an object is allocated and belongs to that object once. *)
Record separate (m : memory) : Prop := Separate {
  sep_once : ∀ o ob, objects m !! o = Some ob → NoDup (blocks ob);
  sep_live : ∀ o ob b, objects m !! o = Some ob → b ∈ blocks ob → is_Some (heap m !! b);
  sep_apart : ∀ o o' ob ob' b, objects m !! o = Some ob → objects m !! o' = Some ob' → b ∈ blocks ob → b ∈ blocks ob' → o = o'
}.

(** The objects of [A] are in memory, each in its own place, and read as the values of [A]. *)
Definition placed (m : memory) (o : nat) (w : QnnTensorWrapper) : Prop :=
  ∃ ob, objects m !! o = Some ob ∧ owned m o ob ∧ view m o = Some w ∧ describes w ∧ Z.of_nat (length (dimensions_ w)) < 2 ^ 32.
Definition represents (m : memory) (A : gmap nat QnnTensorWrapper) : Prop :=
  separate m ∧ ∀ o w, A !! o = Some w → placed m o w.

Definition agree (m m' : memory) (ob : object) : Prop := ∀ b, b ∈ blocks ob → heap m' !! b = heap m !! b.

Lemma in_name ob b : b ∈ text_blocks (o_name ob) → b ∈ blocks ob.
Proof. unfold blocks. set_solver. Qed.
Lemma in_override ob b : b ∈ text_blocks (o_override ob) → b ∈ blocks ob.
Proof. unfold blocks. set_solver. Qed.
Lemma in_dims ob b : o_dims ob = Some b → b ∈ blocks ob.
Proof. unfold blocks. intros ->. set_solver. Qed.
Lemma in_buf ob b : o_buf ob = Some b → b ∈ blocks ob.
Proof. unfold blocks. intros ->. set_solver. Qed.
Lemma in_quant ob : o_quant ob ∈ blocks ob.
Proof. unfold blocks. set_solver. Qed.

(** A member reads the same wherever its blocks are the same. *)
Section Agree.
Context (m m' : memory) (ob : object) (Hagree : agree m m' ob).

Lemma agree_text t : (∀ b, b ∈ text_blocks t → b ∈ blocks ob) → text_value m' t = text_value m t.
Proof. intros Ht. destruct t as [s|b]; cbn; [done|]. rewrite Hagree; [done|]. apply Ht. set_solver. Qed.
Lemma agree_words : words_value m' (o_dims ob) = words_value m (o_dims ob).
Proof. destruct (o_dims ob) as [b|] eqn:E; cbn; [|done]. rewrite Hagree; [done|by apply in_dims]. Qed.
Lemma agree_bytes : bytes_value m' (o_buf ob) = bytes_value m (o_buf ob).
Proof. destruct (o_buf ob) as [b|] eqn:E; cbn; [|done]. rewrite Hagree; [done|by apply in_buf]. Qed.
Lemma agree_quant : quant_value m' (o_quant ob) = quant_value m (o_quant ob).
Proof. unfold quant_value. rewrite Hagree; [done|apply in_quant]. Qed.
End Agree.

(** What a wrapper in its own place reads as, from its members. *)
Definition shown_data (ob : object) (l : list Z) : ptr := match r_data (o_tensor ob) with ANull => PNull | _ => buf_ptr l end.
Definition resolved (n v : string) : string := if bool_decide (v = "") then n else v.

Record members (m : memory) (ob : object) (n v : string) (d l : list Z) (q : QnnQuantParamsWrapper) : Prop := Members {
  mem_name : text_value m (o_name ob) = Some n;
  mem_override : text_value m (o_override ob) = Some v;
  mem_dims : words_value m (o_dims ob) = Some d;
  mem_buf : bytes_value m (o_buf ob) = Some l;
  mem_quant : quant_value m (o_quant ob) = Some q
}.

Lemma resolved_name n v d l t q : GetResolvedTensorName (TensorWrapper n v d l t q) = resolved n v.
Proof. unfold GetResolvedTensorName, resolved. cbn. destruct v; [by rewrite bool_decide_true|by rewrite bool_decide_false]. Qed.

Lemma agree_members m m' ob n v d l q : agree m m' ob → members m ob n v d l q → members m' ob n v d l q.
Proof.
  intros Ha [Hn Hv Hd Hl Hq]. split.
  - rewrite (agree_text m m' ob Ha); [done|apply in_name].
  - rewrite (agree_text m m' ob Ha); [done|apply in_override].
  - by rewrite (agree_words m m' ob Ha).
  - by rewrite (agree_bytes m m' ob Ha).
  - by rewrite (agree_quant m m' ob Ha).
Qed.

Lemma agree_owned m m' o ob : agree m m' ob → owned m o ob → owned m' o ob.
Proof.
  intros Ha [Hn Hd Hq Hl]. split; [|done..]. unfold resolved_addr in *.
  rewrite (agree_text m m' ob Ha); [done|apply in_override].
Qed.

Lemma read_member m o ob f t s : objects m !! o = Some ob → member_of ob f = t → text_value m t = Some s →
  read_text m (c_str o f t) = Some (Some s).
Proof.
  intros Ho Hm Ht. destruct t as [x|b]; cbn in *.
  - rewrite Ho, Hm. congruence.
  - destruct (heap m !! b) as [[]|]; congruence.
Qed.
Lemma read_dims_at m v l : words_value m v = Some l → read_words m (data_addr v) = Some (vec_ptr l).
Proof. destruct v as [b|]; cbn; [|by intros [= <-]]. destruct (heap m !! b) as [[]|]; intros [= <-]; done. Qed.
Lemma read_buf_at m v l : bytes_value m v = Some l → read_bytes m (data_addr v) = Some (buf_ptr l).
Proof. destruct v as [b|]; cbn; [|by intros [= <-]]. destruct (heap m !! b) as [[]|]; intros [= <-]; done. Qed.

Section Reading.
Context (m : memory) (o : nat) (ob : object) (n v : string) (d l : list Z) (q : QnnQuantParamsWrapper).
Context (Hobject : objects m !! o = Some ob) (Hmembers : members m ob n v d l q).

Lemma resolved_at : resolved_addr m o ob = Ok (if bool_decide (v = "") then c_str o NAME (o_name ob) else c_str o OVERRIDE (o_override ob)).
Proof. unfold resolved_addr. by rewrite (mem_override _ _ _ _ _ _ _ Hmembers). Qed.

Lemma read_resolved a : resolved_addr m o ob = Ok a → read_text m a = Some (Some (resolved n v)).
Proof.
  rewrite resolved_at. intros [= <-]. unfold resolved. destruct Hmembers.
  case_bool_decide; by apply (read_member m o ob).
Qed.

Lemma read_own_data : owned m o ob → read_bytes m (r_data (o_tensor ob)) = Some (shown_data ob l).
Proof.
  intros [_ _ _ Hdata]. unfold shown_data. destruct Hdata as [->| ->]; [done|]. destruct Hmembers.
  rewrite (read_buf_at m _ l) by done. destruct (o_buf ob) as [b|]; cbn in *; [done|]. by simplify_eq.
Qed.

Lemma view_owned t : owned m o ob →
  update (point (Some (resolved n v)) (vec_ptr d) (shown_data ob l) (params_ q)) (r_fields (o_tensor ob)) = Ok t →
  view m o = Some (TensorWrapper n v d l t q).
Proof.
  intros Hown Ht. pose proof Hown as [Hname Hdims Hquant Hdata]. pose proof Hmembers as [Hn Hv Hd Hl Hq].
  unfold view, view_object, read_tensor. rewrite Hobject, Hn, Hv, Hd, Hl, Hq, (read_resolved _ Hname).
  rewrite Hdims, (read_dims_at m _ d), read_own_data, Hquant by done. cbn. rewrite Hq. cbn. by rewrite Ht.
Qed.
End Reading.

Lemma owned_view m o ob w : objects m !! o = Some ob → owned m o ob → view m o = Some w →
  ∃ n v d l t q, w = TensorWrapper n v d l t q ∧ members m ob n v d l q ∧
    update (point (Some (resolved n v)) (vec_ptr d) (shown_data ob l) (params_ q)) (r_fields (o_tensor ob)) = Ok t.
Proof.
  intros Ho Hown. unfold view, view_object. rewrite Ho.
  destruct (text_value m (o_name ob)) as [n|] eqn:Hn; [|done]. destruct (text_value m (o_override ob)) as [v|] eqn:Hv; [|done].
  destruct (words_value m (o_dims ob)) as [d|] eqn:Hd; [|done]. destruct (bytes_value m (o_buf ob)) as [l|] eqn:Hl; [|done].
  destruct (quant_value m (o_quant ob)) as [q|] eqn:Hq; [|done].
  assert (members m ob n v d l q) as Hm by by split.
  pose proof Hown as [Hname Hdims Hquant Hdata]. unfold read_tensor.
  rewrite (read_resolved m o ob n v d l q Ho Hm _ Hname), Hdims, (read_dims_at m _ d) by done.
  rewrite (read_own_data m o ob n v d l q) by done. rewrite Hquant. cbn. rewrite Hq. cbn.
  destruct (update _ _) as [t|] eqn:Ht; [|done]. intros [= <-]. naive_solver.
Qed.

(** A wrapper stays where it is as long as nothing touches its object and its blocks. *)
Lemma placed_frame m m' o w : placed m o w → objects m' !! o = objects m !! o →
  (∀ ob, objects m !! o = Some ob → agree m m' ob) → placed m' o w.
Proof.
  intros (ob & Ho & Hown & Hview & Hdesc & Hlen) Hsame Ha. specialize (Ha ob Ho).
  destruct (owned_view m o ob w Ho Hown Hview) as (n & v & d & l & t & q & -> & Hm & Ht).
  exists ob. rewrite Hsame. split_and!; [done|by eapply agree_owned| |done..].
  apply (view_owned m' o ob); [congruence|by eapply agree_members|by eapply agree_owned|done].
Qed.

(** ** Blocks that come and go *)

Lemma freed_lookup (l : list nat) (h : gmap nat block) b : b ∉ l → foldr delete h l !! b = h !! b.
Proof. induction l as [|x l IH]; cbn; [done|]. intros [Hb Hl]%not_elem_of_cons. rewrite lookup_delete_ne by done. by apply IH. Qed.

(** [m'] is [m] with the new blocks [bs]. *)
Record grown (m m' : memory) (bs : list nat) : Prop := Grown {
  grow_objects : objects m' = objects m;
  grow_once : NoDup bs;
  grow_new : ∀ b, b ∈ bs → heap m !! b = None ∧ is_Some (heap m' !! b);
  grow_old : ∀ b, b ∉ bs → heap m' !! b = heap m !! b
}.

Lemma grown_live m m' bs b c : grown m m' bs → heap m !! b = Some c → heap m' !! b = Some c.
Proof. intros G Hb. rewrite (grow_old _ _ _ G); [done|]. intros [? _]%(grow_new _ _ _ G). congruence. Qed.
Lemma grown_nil m : grown m m [].
Proof. split; [done|constructor|set_solver|done]. Qed.
Lemma grown_app m1 m2 m3 l1 l2 : grown m1 m2 l1 → grown m2 m3 l2 → grown m1 m3 (l1 ++ l2).
Proof.
  intros G1 G2. split.
  - rewrite (grow_objects _ _ _ G2). apply G1.
  - apply NoDup_app. split_and!; [apply G1| |apply G2]. intros b [_ [c Hc]]%(grow_new _ _ _ G1) [? _]%(grow_new _ _ _ G2). congruence.
  - intros b [Hb|Hb]%elem_of_app.
    + destruct (grow_new _ _ _ G1 _ Hb) as [? [c Hc]]. split; [done|]. exists c. by apply (grown_live m2 m3 l2).
    + destruct (grow_new _ _ _ G2 _ Hb) as [Hn ?]. split; [|done]. destruct (heap m1 !! b) as [c|] eqn:E; [|done].
      rewrite (grown_live m1 m2 l1 b c) in Hn by done. done.
  - intros b [H1 H2]%not_elem_of_app. rewrite (grow_old _ _ _ G2), (grow_old _ _ _ G1) by done. done.
Qed.

Lemma grown_text m m' bs t s : grown m m' bs → text_value m t = Some s → text_value m' t = Some s.
Proof. intros G. destruct t as [x|b]; cbn; [done|]. destruct (heap m !! b) as [c|] eqn:E; [|done]. by rewrite (grown_live _ _ _ _ _ G E). Qed.
Lemma grown_words m m' bs v l : grown m m' bs → words_value m v = Some l → words_value m' v = Some l.
Proof. intros G. destruct v as [b|]; cbn; [|done]. destruct (heap m !! b) as [c|] eqn:E; [|done]. by rewrite (grown_live _ _ _ _ _ G E). Qed.
Lemma grown_bytes m m' bs v l : grown m m' bs → bytes_value m v = Some l → bytes_value m' v = Some l.
Proof. intros G. destruct v as [b|]; cbn; [|done]. destruct (heap m !! b) as [c|] eqn:E; [|done]. by rewrite (grown_live _ _ _ _ _ G E). Qed.
#[export] Hint Resolve grown_nil grown_app grown_text grown_words grown_bytes : core.

Lemma new_block_spec m c m' b : new_block m c = (m', b) → grown m m' [b] ∧ heap m' !! b = Some c.
Proof.
  unfold new_block. intros [= <- <-]. split; [|apply lookup_insert_eq]. split; cbn.
  - done.
  - apply NoDup_singleton.
  - intros b ->%list_elem_of_singleton. rewrite lookup_insert_eq. split; [|by eexists]. apply not_elem_of_dom, is_fresh.
  - intros b Hb%not_elem_of_cons. apply lookup_insert_ne. destruct Hb as [? _]. congruence.
Qed.

Section NewMembers.
Context (long : string → bool).

Lemma new_text_spec m s m' t : new_text long m s = (m', t) → grown m m' (text_blocks t) ∧ text_value m' t = Some s.
Proof.
  unfold new_text. destruct (long s); [|intros [= <- <-]; eauto].
  destruct (new_block m (BText s)) as [m1 b] eqn:E. intros [= <- <-]. apply new_block_spec in E as [G Hb]. split; [exact G|]. cbn. by rewrite Hb.
Qed.
Lemma new_words_spec m l m' v : new_words m l = (m', v) → grown m m' (option_list v) ∧ words_value m' v = Some l.
Proof.
  destruct l as [|x l]; cbn -[new_block]; [intros [= <- <-]; eauto|].
  destruct (new_block m (BWords x l)) as [m1 b] eqn:E. intros [= <- <-]. apply new_block_spec in E as [G Hb]. split; [exact G|]. cbn. by rewrite Hb.
Qed.
Lemma new_bytes_spec m l m' v : new_bytes m l = (m', v) → grown m m' (option_list v) ∧ bytes_value m' v = Some l.
Proof.
  destruct l as [|x l]; cbn -[new_block]; [intros [= <- <-]; eauto|].
  destruct (new_block m (BBytes x l)) as [m1 b] eqn:E. intros [= <- <-]. apply new_block_spec in E as [G Hb]. split; [exact G|]. cbn. by rewrite Hb.
Qed.
End NewMembers.

(** ** The operations keep wrappers apart *)

(** Object [o] is replaced or added: its blocks must be its own. *)
Record room (m m' : memory) (o : nat) (bs : list nat) : Prop := Room {
  room_objects : objects m' = objects m;
  room_once : NoDup bs;
  room_live : ∀ b, b ∈ bs → is_Some (heap m' !! b);
  room_others : ∀ k ob b, k ≠ o → objects m !! k = Some ob → b ∈ blocks ob → heap m' !! b = heap m !! b ∧ b ∉ bs
}.

Lemma separate_put m m' o ob : separate m → room m m' o (blocks ob) → separate (put m' o ob).
Proof.
  intros [S1 S2 S3] [R1 R2 R3 R4]. split; cbn; rewrite R1.
  - intros k x [[-> ->]|[Hk Hx]]%lookup_insert_Some; eauto.
  - intros k x b [[-> ->]|[Hk Hx]]%lookup_insert_Some Hb; [by apply R3|].
    destruct (R4 k x b) as [-> _]; [done..|]. by eapply S2.
  - intros k k' x x' b [[-> ->]|[Hk Hx]]%lookup_insert_Some [[-> ->]|[Hk' Hx']]%lookup_insert_Some Hb Hb'; [done| | |].
    + by destruct (R4 k' x' b).
    + by destruct (R4 k x b).
    + by eapply (S3 k k').
Qed.

Lemma others_put m m' o ob k w : room m m' o (blocks ob) → k ≠ o → placed m k w → placed (put m' o ob) k w.
Proof.
  intros R Hk Hp. apply (placed_frame m); [done| |].
  - cbn. rewrite lookup_insert_ne by done. by rewrite (room_objects _ _ _ _ R).
  - intros x Hx b Hb. cbn. by destruct (room_others _ _ _ _ R k x b).
Qed.

Lemma represents_put m m' A o ob w : represents m A → room m m' o (blocks ob) → placed (put m' o ob) o w →
  represents (put m' o ob) (<[o := w]> A).
Proof.
  intros [HS HA] R Hp. split; [by eapply separate_put|].
  intros k x [[<- <-]|[Hk Hx]]%lookup_insert_Some; [done|]. apply (others_put m); auto.
Qed.

Lemma grown_room m m' o bs : separate m → grown m m' bs → room m m' o bs.
Proof.
  intros HS G. split; [apply G..| |].
  - intros b Hb. by apply (grow_new _ _ _ G).
  - intros k ob b _ Hob Hb. destruct (sep_live _ HS k ob b) as [c Hc]; [done..|].
    split; [rewrite Hc; by eapply grown_live|]. intros [? _]%(grow_new _ _ _ G). congruence.
Qed.

Section Operations.
Context (long : string → bool) (init : Qnn_Tensor_t) (ib : tensor_body) (nan : Z → Z).
Context (Hinit : body_of init = Ok ib) (Hnull : data (t_clientBuf ib) = PNull).

Lemma default_keeps m A o : represents m A → objects m !! o = None → represents (DefaultAt init m o) A.
Proof.
  intros [HS HA] Ho. unfold DefaultAt. destruct (new_block m (BQuant default_wrapper)) as [m1 q] eqn:E.
  apply new_block_spec in E as [G Hq]. apply (grown_room m m1 o) in G as R; [|done].
  split; [by eapply separate_put|]. intros k w Hk. apply (others_put m); [done| |auto].
  intros ->. destruct (HA o w Hk) as (ob & ? & _). congruence.
Qed.

(** The struct that the constructor fills in: the same fields, with addresses instead of contents. *)
Lemma constructed_fields name ty dt qp shape buf mem w : make_tensor init nan name ty dt qp shape buf mem = Ok w →
  ∃ q t l f (a : bool), w = TensorWrapper name "" shape l t q ∧
    update (point (Some name) (vec_ptr shape) (if a then buf_ptr l else PNull) (params_ q)) f = Ok t ∧
    ∀ m o, ConstructAt long init nan m o name ty dt qp shape buf mem =
      (let (m, n) := new_text long m name in
       let (m, d) := new_words m shape in
       let (m, b) := new_bytes m l in
       let (m, q) := new_block m (BQuant q) in
       Ok (put m o (Object n (SHORT "") d b q (Raw f (c_str o NAME n) (data_addr d) (if a then data_addr b else ANull) (AHeap q))))).
Proof.
  unfold make_tensor, ConstructAt. intros Hw. inv_bind Hw. rename a into q. destruct (narrowed nan ty dt buf) as [dt' l].
  exists q. destruct (copy_construct qp) as [q'|]; [|done]. simplify_eq. cbn [rbind].
  destruct ib as [? ? ? ? ? ? ? ? ? [p sz]]. cbn in Hnull. subst p.
  destruct init as [b|b dy|]; [| |done]; injection Hinit as ->; destruct ty; cbn -[wrapu] in Hw; injection Hw as <-;
    match goal with
    | |- context [TENSOR_TYPE_STATIC] => eexists _, l, _, true
    | |- _ => eexists _, l, _, false
    end; (split; [reflexivity|]); apply and_comm; split;
    try (intros m o; destruct (new_text long m name) as [m1 n]; destruct (new_words m1 shape) as [m2 d];
      destruct (new_bytes m2 l) as [m3 bs]; destruct (new_block m3 (BQuant q)) as [m4 qb]; cbn -[wrapu]; reflexivity); reflexivity.
Qed.

Lemma construct_keeps m A o name ty dt qp shape buf mem :
  represents m A → objects m !! o = None → wf qp → Z.of_nat (length shape) < 2 ^ 32 →
  ∃ w m', make_tensor init nan name ty dt qp shape buf mem = Ok w ∧
    ConstructAt long init nan m o name ty dt qp shape buf mem = Ok m' ∧ represents m' (<[o := w]> A).
Proof.
  intros HR Ho Hq Hs.
  destruct (make_tensor_spec init nan ib Hinit name ty dt qp shape buf mem Hq Hs) as (w & b & Hw & Hdesc & _ & _ & Hdim & _).
  exists w. destruct (constructed_fields _ _ _ _ _ _ _ _ Hw) as (q & t & l & f & a & -> & Ht & HC).
  rewrite HC. clear HC. destruct (new_text long m name) as [m1 n] eqn:E1. destruct (new_words m1 shape) as [m2 d] eqn:E2.
  destruct (new_bytes m2 l) as [m3 c] eqn:E3. destruct (new_block m3 (BQuant q)) as [m4 k] eqn:E4.
  apply new_text_spec in E1 as [G1 V1]. apply new_words_spec in E2 as [G2 V2]. apply new_bytes_spec in E3 as [G3 V3].
  apply new_block_spec in E4 as [G4 V4]. eexists; split_and!; [done|done|].
  set (ob := Object n _ d c k _).
  assert (grown m m4 (blocks ob)) as G.
  { change (grown m m4 (text_blocks n ++ option_list d ++ option_list c ++ [k])). eauto 6. }
  apply (represents_put m); [done|apply grown_room; [apply HR|done]|].
  assert (members (put m4 o ob) ob name "" shape l q) as Hm.
  { split; [eapply (grown_text m3 m4); eauto|done|eapply (grown_words m3 m4); eauto|eapply (grown_bytes m3 m4); eauto|].
    unfold quant_value. cbn. by rewrite V4. }
  assert (objects (put m4 o ob) !! o = Some ob) as Hob by apply lookup_insert_eq.
  assert (owned (put m4 o ob) o ob) as Hown by (split; [done..|cbn; destruct a; auto]).
  exists ob. split_and!; [done|done| |done|done].
  apply (view_owned _ o ob); [done..|]. unfold resolved, shown_data. rewrite bool_decide_true by done. cbn.
  destruct a; [|done]. destruct c; [done|]. cbn in V3. by simplify_eq.
Qed.
End Operations.

(** A text takes the place of the override. *)
Definition others (ob : object) : list nat := option_list (o_dims ob) ++ option_list (o_buf ob) ++ [o_quant ob].
Lemma replaced_once (a b b' c : list nat) : NoDup (a ++ b ++ c) → NoDup b' → (∀ x, x ∈ b' → x ∉ a ∧ x ∉ c) → NoDup (a ++ b' ++ c).
Proof.
  intros (Ha & Hab & (Hb & Hbc & Hc)%NoDup_app)%NoDup_app Hb' Hx. apply NoDup_app. split_and!; [done| |].
  - intros x Hxa [H|H]%elem_of_app; [by destruct (Hx x H)|]. apply (Hab x Hxa). set_solver.
  - apply NoDup_app. split_and!; [done| |done]. intros x H. by apply Hx.
Qed.

Lemma override_room m m' o ob t r : separate m → objects m !! o = Some ob →
  grown (Memory (objects m) (foldr delete (heap m) (text_blocks (o_override ob)))) m' (text_blocks t) →
  room m m' o (blocks (Object (o_name ob) t (o_dims ob) (o_buf ob) (o_quant ob) r)) ∧
  ∀ b, b ∈ text_blocks (o_name ob) ++ others ob → heap m' !! b = heap m !! b.
Proof.
  intros HS Ho G. pose proof (sep_once _ HS o ob Ho) as Hnd. change (blocks ob) with (text_blocks (o_name ob) ++ text_blocks (o_override ob) ++ others ob) in Hnd.
  assert (∀ k x b, objects m !! k = Some x → b ∈ blocks x → b ∉ text_blocks (o_override ob) →
    heap m' !! b = heap m !! b ∧ b ∉ text_blocks t) as Hkeep.
  { intros k x b Hk Hb Hov. destruct (sep_live _ HS k x b Hk Hb) as [c Hc].
    assert (foldr delete (heap m) (text_blocks (o_override ob)) !! b = Some c) as Hc' by (by rewrite freed_lookup).
    split; [rewrite Hc; by apply (grown_live _ _ _ b c G)|]. intros [Hn _]%(grow_new _ _ _ G). cbn in Hn. congruence. }
  assert (∀ b, b ∈ text_blocks (o_name ob) ++ others ob → heap m' !! b = heap m !! b ∧ b ∉ text_blocks t) as Hrest.
  { intros b Hb. apply (Hkeep o ob); [done| |].
    - change (b ∈ text_blocks (o_name ob) ++ text_blocks (o_override ob) ++ others ob). set_solver.
    - intros Hov. apply NoDup_app in Hnd as (_ & Hd & (_ & Hd' & _)%NoDup_app). apply elem_of_app in Hb as [Hb|Hb]; [|by apply (Hd' b)].
      apply (Hd b Hb). set_solver. }
  split; [|intros b Hb; by apply Hrest].
  change (blocks _) with (text_blocks (o_name ob) ++ text_blocks t ++ others ob). split.
  - apply (grow_objects _ _ _ G).
  - apply (replaced_once _ _ _ _ Hnd); [apply G|]. intros b Hb. split; intros H; by eapply Hrest; [|exact Hb]; set_solver.
  - intros b Hb. destruct (decide (b ∈ text_blocks t)) as [Ht|Ht]; [by apply (grow_new _ _ _ G)|].
    assert (b ∈ text_blocks (o_name ob) ++ others ob) as Hin by set_solver. rewrite (proj1 (Hrest b Hin)).
    apply (sep_live _ HS o ob b Ho). change (b ∈ text_blocks (o_name ob) ++ text_blocks (o_override ob) ++ others ob). set_solver.
  - intros k x b Hk Hx Hb.
    destruct (Hkeep k x b Hx Hb) as [Hh Ht].
    { intros Hov. apply Hk. apply (sep_apart _ HS k o x ob b); [done..|]. by apply in_override. }
    split; [done|]. intros [H|[H|H]%elem_of_app]%elem_of_app; [|done|].
    all: apply Hk; apply (sep_apart _ HS k o x ob b); [done..|].
    all: change (b ∈ text_blocks (o_name ob) ++ text_blocks (o_override ob) ++ others ob); set_solver.
Qed.

Lemma rename_keeps (long : string → bool) m A o w name : represents m A → A !! o = Some w →
  ∃ w' m', SetResolvedTensorName w name = Ok w' ∧ RenameAt long m o name = Ok m' ∧ represents m' (<[o := w']> A).
Proof.
  intros HR HA. destruct (proj2 HR o w HA) as (ob & Ho & Hown & Hview & Hdesc & Hlen).
  destruct (owned_view m o ob w Ho Hown Hview) as (n & v & d & l & t & q & -> & Hm & Ht).
  destruct (rename_spec _ name Hdesc) as (w' & Hw & Hdesc' & _ & _ & Hdims' & _). exists w'.
  unfold RenameAt, SetResolvedTensorName in *. rewrite Ho. cbn [live rbind]. rewrite (mem_override _ _ _ _ _ _ _ Hm). cbn [live rbind tensor_name_override_] in *.
  destruct (_ || _) eqn:Esame.
  { exists m. injection Hw as <-. by rewrite insert_id. }
  apply orb_false_iff in Esame as [Hne%bool_decide_eq_false _].
  destruct (new_text long _ name) as [m2 t'] eqn:E. apply new_text_spec in E as [G V].
  assert (∃ r, SetNameAt (o_tensor ob) (c_str o OVERRIDE t') = Ok r ∧
    r = Raw (r_fields (o_tensor ob)) (c_str o OVERRIDE t') (r_dims (o_tensor ob)) (r_data (o_tensor ob)) (r_quant (o_tensor ob))) as (r & -> & ->).
  { unfold SetNameAt. destruct (r_fields (o_tensor ob)); cbn in *; eauto; done. }
  cbn [rbind]. eexists; split_and!; [done..|]. set (ob' := Object _ t' _ _ _ _).
  destruct (override_room m m2 o ob t' (o_tensor ob') (proj1 HR) Ho G) as [R Hsame].
  apply (represents_put m); [done|exact R|]. inv_bind Hw. injection Hw as <-.
  assert (∀ x, x ∈ text_blocks (o_name ob) → heap m2 !! x = heap m !! x) as Hs1 by (intros x Hx; apply Hsame; set_solver).
  assert (∀ x, x ∈ others ob → heap m2 !! x = heap m !! x) as Hs2 by (intros x Hx; apply Hsame; set_solver).
  assert (members (put m2 o ob') ob' n name d l q) as Hm'.
  { destruct Hm as [M1 M2 M3 M4 M5]. split; [|exact V| | |].
    - change (text_value m2 (o_name ob) = Some n). destruct (o_name ob); cbn in *; [done|]. rewrite Hs1; [done|set_solver].
    - change (words_value m2 (o_dims ob) = Some d). destruct (o_dims ob) eqn:E; cbn in *; [|done]. rewrite Hs2; [done|]. unfold others. rewrite E. set_solver.
    - change (bytes_value m2 (o_buf ob) = Some l). destruct (o_buf ob) eqn:E; cbn in *; [|done]. rewrite Hs2; [done|]. unfold others. rewrite E. set_solver.
    - unfold quant_value in *. cbn. rewrite Hs2; [done|]. unfold others. set_solver. }
  assert (objects (put m2 o ob') !! o = Some ob') as Hob by apply lookup_insert_eq.
  assert (owned (put m2 o ob') o ob') as Hown'.
  { destruct Hown as [O1 O2 O3 O4]. split; [|done..]. rewrite (resolved_at _ o ob' n name d l q Hm'). by rewrite bool_decide_false. }
  exists ob'. split_and!; [done|done| |done|done].
  apply (view_owned _ o ob'); [done..|]. unfold resolved. rewrite bool_decide_false by done.
  change (shown_data ob' l) with (shown_data ob l). change (r_fields (o_tensor ob')) with (r_fields (o_tensor ob)).
  rename Hw0 into Hset. unfold SetQnnTensorName in Hset. cbn [qnn_tensor_] in Hset. revert Ht Hset. destruct (r_fields (o_tensor ob)); cbn; [| |done]; by intros [= <-] [= <-].
Qed.

(** Objects that change places stay apart. *)
Lemma separate_along (f : nat → nat) m m' : (∀ k k', f k = f k' → k = k') → heap m' = heap m →
  (∀ k ob, objects m' !! k = Some ob → ∃ ob', objects m !! f k = Some ob' ∧ blocks ob = blocks ob') → separate m → separate m'.
Proof.
  intros Hf Hh Hob [S1 S2 S3]. split.
  - intros k ob Hk. destruct (Hob k ob Hk) as (ob' & ? & ->). eauto.
  - intros k ob b Hk. destruct (Hob k ob Hk) as (ob' & ? & ->). rewrite Hh. eauto.
  - intros k k' ob x b Hk Hk'. destruct (Hob k ob Hk) as (ob' & ? & ->). destruct (Hob k' x Hk') as (x' & ? & ->). eauto.
Qed.

(** What [SwapAt] puts at [self]: the members of [other], and their addresses. *)
Lemma swapped m self other s ob n v d l q f1 f2 : objects m !! self = Some s → objects m !! other = Some ob →
  members m ob n v d l q →
  SetQnnTensorDim (r_fields (o_tensor ob)) d = Ok f1 → SetQnnTensorClientBuf f1 l = Ok f2 →
  let a := if bool_decide (v = "") then c_str self NAME (o_name ob) else c_str self OVERRIDE (o_override ob) in
  let ob' := with_raw ob (Raw f2 a (data_addr (o_dims ob)) (data_addr (o_buf ob)) (AHeap (o_quant ob))) in
  let m' := put (put m other s) self ob' in
  SwapAt m self other = Ok m' ∧ members m' ob' n v d l q ∧ owned m' self ob' ∧ shown_data ob' l = buf_ptr l.
Proof.
  intros Hs Ho Hm Hf1 Hf2 a ob' m'. pose proof Hm as [M1 M2 M3 M4 M5].
  assert (body_of (r_fields (o_tensor ob)) ≠ Err unsupported ∧ body_of f2 ≠ Err unsupported) as [B1 B2].
  { destruct (r_fields (o_tensor ob)); [| |done]; injection Hf1 as <-; injection Hf2 as <-; done. }
  split_and!; [|by split| |].
  - unfold SwapAt. rewrite Hs, Ho. cbn [live rbind]. unfold resolved_addr.
    change (text_value _ (o_override ob)) with (text_value m (o_override ob)).
    change (words_value _ (o_dims ob)) with (words_value m (o_dims ob)).
    change (bytes_value _ (o_buf ob)) with (bytes_value m (o_buf ob)). rewrite M2, M3, M4. cbn [live rbind].
    fold a. unfold SetNameAt, SetDimAt, SetClientBufAt, SetQParamsAt.
    destruct (body_of (r_fields (o_tensor ob))) as [|[]] eqn:E; cbn [rbind r_fields];
      [|by destruct (r_fields (o_tensor ob))..].
    rewrite Hf1. cbn [rbind r_fields]. rewrite Hf2. cbn [rbind r_fields].
    destruct (body_of f2) eqn:E2; cbn [rbind]; [|by destruct f2; cbn in E2; simplify_eq].
    unfold m', put. cbn. by rewrite insert_insert_eq.
  - split; [|done|done|by right]. unfold resolved_addr. change (text_value _ _) with (text_value m (o_override ob)). by rewrite M2.
  - unfold shown_data. cbn. destruct (o_buf ob); [done|]. cbn in M4. by simplify_eq.
Qed.

Lemma swap_keeps m A self other s w ws : represents m A → self ≠ other → objects m !! self = Some s → A !! other = Some w →
  ∃ w' m', SwapOther ws w = Ok (w', ws) ∧ SwapAt m self other = Ok m' ∧ represents m' (<[self := w']> (delete other A)).
Proof.
  intros [HS HA] Hne Hs Hw. destruct (HA other w Hw) as (ob & Ho & Hown & Hview & Hdesc & Hlen).
  destruct (owned_view m other ob w Ho Hown Hview) as (n & v & d & l & t & q & -> & Hm & Ht).
  destruct (move_spec ws _ Hdesc Hlen) as (w' & Hsw & Hdesc' & _ & _ & Hdims' & _). exists w'.
  assert (∃ f1 f2, SetQnnTensorDim (r_fields (o_tensor ob)) d = Ok f1 ∧ SetQnnTensorClientBuf f1 l = Ok f2 ∧
    ∃ t', w' = TensorWrapper n v d l t' q ∧ update (point (Some (resolved n v)) (vec_ptr d) (buf_ptr l) (params_ q)) f2 = Ok t')
    as (f1 & f2 & Hf1 & Hf2 & t' & -> & Ht').
  { revert Ht Hsw. unfold SwapOther. rewrite resolved_name. destruct (r_fields (o_tensor ob)); cbn; [| |done];
      intros [= <-] [= <-]; do 2 eexists; (split; [done|]); (split; [done|]); eexists; (split; [done|]); reflexivity. }
  destruct (swapped m self other s ob n v d l q f1 f2 Hs Ho Hm Hf1 Hf2) as (Hswap & Hm' & Hown' & Hdata).
  eexists; split_and!; [done..|]. set (ob' := with_raw _ _) in *. split.
  - apply (separate_along (fun k => if decide (k = self) then other else if decide (k = other) then self else k) m); [|done| |done].
    + intros k k'. repeat case_decide; congruence.
    + intros k x. cbn. intros [[<- <-]|[Hk [[<- <-]|[Hk' Hx]]%lookup_insert_Some]]%lookup_insert_Some.
      * rewrite decide_True by done. by exists ob.
      * rewrite decide_False, decide_True by done. by exists s.
      * rewrite !decide_False by done. by exists x.
  - intros k x [[<- <-]|[Hk [Hk' Hx]%lookup_delete_Some]]%lookup_insert_Some.
    + exists ob'. split_and!; [apply lookup_insert_eq|done| |done|done].
      apply (view_owned _ self ob'); [apply lookup_insert_eq|done..|]. by rewrite Hdata.
    + apply (placed_frame m); [by apply HA| |by intros ? ? ? ?]. cbn. by rewrite !lookup_insert_ne.
Qed.

Lemma destroy_keeps m A o : represents m A → represents (destroy m o) (delete o A).
Proof.
  intros [HS HA]. unfold destroy. destruct (objects m !! o) as [ob|] eqn:Ho.
  - assert (∀ k x b, k ≠ o → objects m !! k = Some x → b ∈ blocks x → foldr delete (heap m) (blocks ob) !! b = heap m !! b) as Hkeep.
    { intros k x b Hk Hx Hb. apply freed_lookup. intros Hob. apply Hk. by apply (sep_apart _ HS k o x ob b). }
    split; [destruct HS as [S1 S2 S3]; split; cbn|].
    + intros k x [Hk Hx]%lookup_delete_Some. eauto.
    + intros k x b [Hk Hx]%lookup_delete_Some Hb. rewrite (Hkeep k x b); eauto.
    + intros k k' x x' b [Hk Hx]%lookup_delete_Some [Hk' Hx']%lookup_delete_Some. eauto.
    + intros k w [Hk Hw]%lookup_delete_Some. apply (placed_frame m); [by apply HA|cbn; by rewrite lookup_delete_ne|].
      intros x Hx b Hb. by apply (Hkeep k x).
  - split; [done|]. intros k w [Hk Hw]%lookup_delete_Some. by apply HA.
Qed.

(** C33: the struct that a wrapper hands to QNN always points into the wrapper it belongs to.  In memory,
    a [QnnTensorWrapper] is an object with its strings, its vectors and its quantization arrays, and the
    struct has their addresses.  Whenever memory represents wrappers [A] (each object has its own blocks,
    its struct has the addresses of its own members, and what QNN reads through them is the name, the
    dimensions, the quantization parameters and, for a constant, the data of the wrapper), it still does
    after the constructor, the default constructor, [SetResolvedTensorName], [SwapOther] (the move) and
    the end of an object, with the wrappers that [QnnTensor] computes; in particular a moved wrapper
    can still be read after the one it was moved from is gone.  [QNN_TENSOR_INIT] has no client buffer. *)
Theorem wrapper_describes (long : string → bool) (init : Qnn_Tensor_t) (ib : tensor_body) (nan : Z → Z) (m : memory)
  (A : gmap nat QnnTensorWrapper) :
  body_of init = Ok ib → data (t_clientBuf ib) = PNull → represents m A →
  (∀ o w, A !! o = Some w → view m o = Some w ∧ describes w) ∧
  (∀ o name ty dt qp shape buf mem, objects m !! o = None → wf qp → Z.of_nat (length shape) < 2 ^ 32 →
     ∃ w m', make_tensor init nan name ty dt qp shape buf mem = Ok w ∧
       ConstructAt long init nan m o name ty dt qp shape buf mem = Ok m' ∧ represents m' (<[o := w]> A)) ∧
  (∀ o, objects m !! o = None → represents (DefaultAt init m o) A) ∧
  (∀ o w name, A !! o = Some w →
     ∃ w' m', SetResolvedTensorName w name = Ok w' ∧ RenameAt long m o name = Ok m' ∧ represents m' (<[o := w']> A)) ∧
  (∀ self other s w ws, self ≠ other → objects m !! self = Some s → A !! other = Some w →
     ∃ w' m', SwapOther ws w = Ok (w', ws) ∧ SwapAt m self other = Ok m' ∧ represents m' (<[self := w']> (delete other A)) ∧
       view (destroy m' other) self = Some w') ∧
  (∀ o, represents (destroy m o) (delete o A)).
Proof.
  intros Hi Hn HR. split_and!.
  - intros o w Hw. by destruct (proj2 HR o w Hw) as (ob & _ & _ & ? & ? & _).
  - intros. by eapply construct_keeps.
  - intros. by apply default_keeps.
  - intros. by apply rename_keeps.
  - intros self other s w ws Hne Hs Hw. destruct (swap_keeps m A self other s w ws) as (w' & m' & ? & ? & HR'); [done..|].
    exists w', m'. split_and!; [done..|]. apply (destroy_keeps m' _ other) in HR'.
    destruct (proj2 HR' self w') as (ob & _ & _ & ? & _); [|done].
    by rewrite lookup_delete_ne, lookup_insert_eq.
  - intros o. by apply destroy_keeps.
Qed.

Lemma nothing_placed : represents (Memory ∅ ∅) ∅.
Proof. split; [split; cbn|]; intros; by simplify_map_eq. Qed.

(** A constant with a short name is constructed at 0 and moved to the default object at 1. *)
Lemma wrapper_describes_witness :
  ∃ w m' m2 w', make_tensor (TENSOR_V1 example_body) id "x" TENSOR_TYPE_STATIC QNN_INT_64 default_wrapper [2]
      (mjoin (le_encode 8 <$> [7; -1])) TENSORMEMTYPE_RAW = Ok w ∧ represents m' {[ 0%nat := w ]} ∧
    SwapAt (DefaultAt (TENSOR_V1 example_body) m' 1) 1 0 = Ok m2 ∧ view (destroy m2 0) 1 = Some w'.
Proof.
  pose proof (wrapper_describes (fun s => (15 <? String.length s)%nat) (TENSOR_V1 example_body) example_body id) as T.
  destruct (T (Memory ∅ ∅) ∅ eq_refl eq_refl nothing_placed) as (_ & Hc & _).
  destruct (Hc 0%nat "x" TENSOR_TYPE_STATIC QNN_INT_64 default_wrapper [2] (mjoin (le_encode 8 <$> [7; -1])) TENSORMEMTYPE_RAW)
    as (w & m' & Hw & Hm & HR); [done|done|cbn; lia|].
  assert (objects m' !! 1%nat = None) as H1.
  { vm_compute in Hm. injection Hm as <-. done. }
  destruct (T m' _ eq_refl eq_refl HR) as (_ & _ & Hd & _). specialize (Hd 1%nat H1).
  assert (∃ s, objects (DefaultAt (TENSOR_V1 example_body) m' 1) !! 1%nat = Some s) as [s Hs].
  { eexists. apply lookup_insert_eq. }
  destruct (T _ _ eq_refl eq_refl Hd) as (_ & _ & _ & _ & Hmove & _).
  destruct (Hmove 1%nat 0%nat s w w) as (w' & m2 & _ & Hsw & _ & Hv); [done|done|by rewrite lookup_insert_eq|].
  by exists w, m', m2, w'.
Defined.
