(* ===== verification/Quantize.v ===== *)
(** * Quantization of data

    The functions of [builder/qnn_utils.{h,cc}] that compute quantization parameters and
    quantize or dequantize tensors: [GetQuantParams], [GetDataQuantParams], [Quantize],
    [QuantizeData], [DequantizePerChannel], [ConvertBlockQuantScalesToLpbq] and
    [LowPowerBlockQuantizeData].

    Tensors are lists of floats or of bytes.  An access that a [gsl::span] checks, or that
    leaves the buffer, is a [Trap]; so is a conversion of a float that does not fit. *)

From Stdlib Require Import SpecFloat.
From S2P Require Import Prelude DataTypes Floats QnnTensor.
Local Open Scope Z_scope.

(** ** Constants and rounding of the C++ library *)

Definition FLT_MAX : float := S754_finite false 16777215 104.
Definition FLT_LOWEST : float := SFopp FLT_MAX.
(** [0.0001f]. *)
Definition min_range : float := S754_finite false 13743895 (- 37).

(** [std::nearbyint] in the default rounding mode. *)
Definition f64_nearbyint (x : double) : double :=
  match x with
  | S754_finite s m e =>
      if 0 <=? e then x else binary_normalize 53 1024 (cond_Zopp s (pos_round_even m e)) 0 s
  | _ => x
  end.

(** ** Parameters from a range *)

Definition CheckMinMax (rmin rmax : float) : float * float :=
  let rmin := f_min rmin f_zero in
  let rmax := f_max rmax f_zero in
  let rmax := f_max rmax (f32_add rmin min_range) in
  (rmin, rmax).

(** [Saturate<double>]. *)
Definition Saturate_double (qmax qmin quant_value : double) : double :=
  if f_lt qmax quant_value then qmax else if f_lt quant_value qmin then qmin else quant_value.

(** The negation of an [int32_t]. *)
Definition neg_i32 (z : Z) : result Z := if z =? - 2 ^ 31 then Err Trap else Ok (- z).

Definition is_signed_fixed (t : Qnn_DataType_t) : bool :=
  bool_decide (t = QNN_SFIXED_POINT_32) || bool_decide (t = QNN_SFIXED_POINT_16) ||
  bool_decide (t = QNN_SFIXED_POINT_8) || bool_decide (t = QNN_SFIXED_POINT_4).

Definition GetQuantParams (rmin rmax : float) (qnn_data_type : Qnn_DataType_t) (symmetric : bool)
  : result (float * Z) :=
  let '(rmin, rmax) := CheckMinMax rmin rmax in
  let '(rmin, rmax) :=
    if symmetric then let abs_max := f_max (f_abs rmax) (f_abs rmin) in (SFopp abs_max, abs_max)
    else (rmin, rmax) in
  let rmin_dbl := f64_of_f32 rmin in
  let rmax_dbl := f64_of_f32 rmax in
  let* (qmin, qmax) := GetQminQmax qnn_data_type symmetric in
  let qmin := f64_of_Z qmin in
  let qmax := f64_of_Z qmax in
  let scale_dbl := f64_div (f64_sub rmax_dbl rmin_dbl) (f64_sub qmax qmin) in
  let two := f64_of_Z 2 in
  let initial_zero_point :=
    if negb symmetric then f64_sub qmin (f64_div rmin_dbl scale_dbl)
    else if is_signed_fixed qnn_data_type then f64_div (f64_round (f64_add rmin_dbl rmax_dbl)) two
    else f64_div (f64_round (f64_add qmax qmin)) two in
  let* zero_point :=
    to_i32 (RoundHalfToEven (f32_of_f64 (Saturate_double qmax qmin initial_zero_point))) in
  let* zero_point := neg_i32 zero_point in
  Ok (f32_of_f64 scale_dbl, zero_point).

Definition Dequantize (offset : Z) (scale : float) (quant_value : double) : double :=
  f64_mul (f64_add quant_value (f64_of_Z offset)) (f64_of_f32 scale).

(** The conversion to [int] comes before the saturation. *)
Definition Quantize (double_value : double) (scale : float) (zero_point : Z) (qnn_data_type : Qnn_DataType_t)
  : result Z :=
  let* (qmin, qmax) := GetQminQmax qnn_data_type false in
  let* v := to_i32 (f64_round (f64_sub (f64_div double_value (f64_of_f32 scale)) (f64_of_Z zero_point))) in
  Ok (Saturate qmax qmin v).

(** ** Tensors *)

(** The product of [shape[start..end)], in [size_t]. *)
Definition ShapeSizeCalc (shape : list Z) (start end_ : nat) : result Z :=
  foldM (fun size i => let* d := aget shape i in Ok (u64 (size * d))) (seq start (end_ - start)) 1.

(** A negative axis counts from the end, in [size_t]. *)
Definition axis_no_neg (axis : Z) (num_dims : nat) : nat :=
  Z.to_nat (if axis <? 0 then u64 (u64 axis + Z.of_nat num_dims) else u64 axis).

(** [block_count], [broadcast_dim] and [block_size] of the loops below. *)
Definition axis_blocks (shape : list Z) (num_elems : Z) (axis : option Z) : result (nat * nat * nat) :=
  match axis with
  | None => Ok (1%nat, 1%nat, Z.to_nat num_elems)
  | Some a =>
      let num_dims := length shape in
      let ax := axis_no_neg a num_dims in
      let* block_count := ShapeSizeCalc shape 0 ax in
      let* broadcast_dim := aget shape ax in
      let* block_size := ShapeSizeCalc shape (S ax) num_dims in
      Ok (Z.to_nat block_count, Z.to_nat broadcast_dim, Z.to_nat block_size)
  end.

(** The loop nests below: [body] gets the outer index, the inner one and the index [i] of the
    first element of the block; the final [i] is returned too. *)
Definition for_blocks {S} (outer inner block_size : nat)
  (body : nat → nat → nat → S → result S) (s : S) : result (nat * S) :=
  foldM (fun st n =>
    foldM (fun '(i, s) bd => let* s := body n bd i s in Ok ((i + block_size)%nat, s))
      (seq 0 inner) st)
    (seq 0 outer) (O, s).

(** A span of [n] elements from [&data[i]]. *)
Definition span_at {A} (data : list A) (i n : nat) : result (list A) :=
  let* _ := aget data i in
  if (i + n <=? length data)%nat then Ok (take n (drop i data)) else Err Trap.

Definition splice {A} (data : list A) (i : nat) (piece : list A) : list A :=
  take i data ++ piece ++ drop (i + length piece) data.

(** The smallest and largest element of a block. *)
Definition range_step (r : float * float) (x : float) : float * float := (f_min r.1 x, f_max r.2 x).
Definition block_range (data : list float) : float * float := foldl range_step (FLT_MAX, FLT_LOWEST) data.

Definition GetDataQuantParams (data : list float) (shape : list Z) (scales : list float) (offsets : list Z)
  (data_type : Qnn_DataType_t) (symmetric : bool) (axis : option Z) : result (list float * list Z) :=
  let* num_elems := ShapeSizeCalc shape 0 (length shape) in
  let* _ := return_if_not (num_elems =? Z.of_nat (length data)) "Shape mismatch with data to quantize" in
  let* (block_count, broadcast_dim, block_size) := axis_blocks shape num_elems axis in
  let* _ := return_if_not (length scales =? broadcast_dim)%nat "Unexpected size of scales output buffer" in
  let* _ := return_if_not (length offsets =? broadcast_dim)%nat "Unexpected size of offsets output buffer" in
  rmap snd (for_blocks block_count broadcast_dim block_size
    (fun _ bd i '(scales, offsets) =>
       if (i + block_size <=? length data)%nat then
         let '(rmin, rmax) := block_range (take block_size (drop i data)) in
         let* (scale, offset) := GetQuantParams rmin rmax data_type symmetric in
         let* scales := aset scales bd scale in
         let* offsets := aset offsets bd offset in
         Ok (scales, offsets)
       else Err Trap)
    (scales, offsets)).

(** ** [QuantizeData] *)

(** The element types of the template: size in bytes and range. *)
Record QuantType := Quant { q_size : nat; q_lowest : Z; q_max : Z }.

Definition int8_t := Quant 1 (- 128) 127.
Definition uint8_t := Quant 1 0 255.
Definition int16_t := Quant 2 (- 32768) 32767.
Definition uint16_t := Quant 2 0 65535.
Definition int32_t := Quant 4 (- 2147483648) 2147483647.
Definition Int4QuantTraits := Quant 1 (- 8) 7.

Definition quantize_elem (T : QuantType) (scale : float) (offset : Z) (x : float) : result Z :=
  let float_val := f64_sub (f64_nearbyint (f64_div (f64_of_f32 x) (f64_of_f32 scale))) (f64_of_Z offset) in
  let float_val := f_max float_val (f64_of_Z (q_lowest T)) in
  let float_val := f_min float_val (f64_of_Z (q_max T)) in
  to_int (q_lowest T) (q_max T) float_val.

(** The template: the bytes of the elements of one span. *)
Definition QuantizeData_span (T : QuantType) (data : list float) (scale : float) (offset : Z)
  (quant_bytes_size : nat) : result (list Z) :=
  let* _ := return_if_not (q_size T * length data =? quant_bytes_size)%nat
    "Output buffer is not large enough to hold quantized bytes." in
  let* qs := mapM_res (quantize_elem T scale offset) data in
  Ok (mjoin (le_encode (q_size T) <$> qs)).

Definition quant_type (data_type : Qnn_DataType_t) : option QuantType :=
  match data_type with
  | QNN_SFIXED_POINT_8 => Some int8_t
  | QNN_UFIXED_POINT_8 => Some uint8_t
  | QNN_SFIXED_POINT_16 => Some int16_t
  | QNN_UFIXED_POINT_16 => Some uint16_t
  | QNN_SFIXED_POINT_32 => Some int32_t
  | _ => None
  end.

Section Data.
Context `{SafeInt}.

Definition QuantizeData (data : list float) (shape : list Z) (scales : list float) (offsets : list Z)
  (quant_bytes : list Z) (data_type : Qnn_DataType_t) (axis : option Z) : result (list Z) :=
  let* num_elems := ShapeSizeCalc shape 0 (length shape) in
  let* _ := return_if_not (num_elems =? Z.of_nat (length data)) "Shape mismatch with data to quantize" in
  let* expected_num_quant_bytes := GetQnnTensorDataSizeInBytes_count (Z.of_nat (length data)) data_type in
  let* _ := return_if_not (Z.of_nat (length quant_bytes) =? expected_num_quant_bytes)
    "Cannot quantize data because output buffer is not the correct size" in
  let* (block_count, broadcast_dim, block_size) := axis_blocks shape num_elems axis in
  let* _ := return_if_not (length scales =? broadcast_dim)%nat "Unexpected size of scales output buffer" in
  let* _ := return_if_not (length offsets =? broadcast_dim)%nat "Unexpected size of offsets output buffer" in
  rmap snd (for_blocks block_count broadcast_dim block_size
    (fun _ bd i quant_bytes =>
       match quant_type data_type with
       | None => Err (EpFail "Unsupported quantization data type for QuantizeData")
       | Some T =>
           let* input_span := span_at data i block_size in
           let* output_span := span_at quant_bytes (i * q_size T) (q_size T * block_size) in
           let* scale := aget scales bd in
           let* offset := aget offsets bd in
           let* bytes := QuantizeData_span T input_span scale offset (length output_span) in
           Ok (splice quant_bytes (i * q_size T) bytes)
       end)
    quant_bytes).

(** An element read back from its bytes. *)
Definition read_elem (T : QuantType) (quant_bytes : list Z) (i : nat) : Z :=
  let v := le_decode (element (q_size T) quant_bytes i) in
  if q_lowest T <? 0 then wraps (8 * Z.of_nat (q_size T)) v else v.

Definition dequantize_elem (T : QuantType) (quant_bytes : list Z) (scale : float) (offset : Z) (i : nat) : float :=
  f32_of_f64 (Dequantize offset scale (f64_of_Z (read_elem T quant_bytes i))).

Definition DequantizePerChannel (quant_bytes : list Z) (shape : list Z) (scales : list float) (offsets : list Z)
  (data : list float) (data_type : Qnn_DataType_t) (axis : option Z) : result (list float) :=
  let* num_elems := ShapeSizeCalc shape 0 (length shape) in
  let* _ := return_if_not (num_elems =? Z.of_nat (length data)) "Shape mismatch with data to dequantize" in
  let* elem_size := GetElementSizeByType_qnn data_type in
  let expected_num_quant_bytes := u64 (elem_size * Z.of_nat (length data)) in
  let* _ := return_if_not (Z.of_nat (length quant_bytes) =? expected_num_quant_bytes)
    "Cannot dequantize data because input buffer is not the correct size" in
  let* (block_count, broadcast_dim, block_size) := axis_blocks shape num_elems axis in
  let* _ := return_if_not (length scales =? broadcast_dim)%nat "Unexpected size of scales input buffer" in
  let* _ := return_if_not (length offsets =? broadcast_dim)%nat "Unexpected size of offsets input buffer" in
  rmap snd (for_blocks block_count broadcast_dim block_size
    (fun _ bd i data =>
       match quant_type data_type with
       | None => Err (EpFail "Unsupported quantization data type for DequantizeData")
       | Some T =>
           let* _ := aget quant_bytes (i * q_size T) in
           foldM (fun data j =>
             let* offset := aget offsets bd in
             let* scale := aget scales bd in
             aset data (i + j) (dequantize_elem T quant_bytes scale offset (i + j)))
             (seq 0 block_size) data
       end)
    data).

End Data.

(** ** Low power block quantization *)

(** The largest scale of a channel; the scales are in block-major order. *)
Definition channel_max (bq_scales : list float) (num_blocks_per_channel num_channels c : nat) : result float :=
  foldM (fun max_scale b =>
    let* s := aget bq_scales (b * num_channels + c) in
    Ok (if f_lt max_scale s then s else max_scale))
    (seq 0 num_blocks_per_channel) f_zero.

Definition block_int_scale (max_int_scale : Z) (pc_scale raw_scale : float) : result Z :=
  if f_le pc_scale f_zero then Ok 1
  else
    let* tentative := to_u32 (f32_round (f32_div raw_scale pc_scale)) in
    Ok (Z.max 1 (Z.min tentative max_int_scale)).

Definition ConvertBlockQuantScalesToLpbq (bq_scales : list float) (bq_offsets : list Z)
  (num_blocks_per_channel num_channels : nat) (bitwidth : Z) : result (list float * list Z * list Z) :=
  let* _ := return_if_not (length bq_scales =? num_blocks_per_channel * num_channels)%nat
    "BQ scales size does not match num_blocks_per_channel * num_channels" in
  let* _ := return_if_not (bool_decide (bq_offsets = []) || (length bq_offsets =? length bq_scales)%nat)
    "BQ offsets size must be empty or equal to bq_scales size" in
  let* _ := return_if_not (bitwidth =? 4) "BQ to LPBQ conversion is only supported for 4-bit" in
  let max_int_scale := 2 ^ bitwidth in
  let* _ := return_if_not (forallb (Z.eqb 0) bq_offsets)
    "LPBQ conversion requires symmetric quantization (all block zero-points must be 0)" in
  let* _ := return_if_not (forallb (fun s => isfinite s && f_le f_zero s) bq_scales)
    "BQ scales must be non-negative and finite" in
  let* per_channel_scales := collect num_channels (fun c =>
    let* max_scale := channel_max bq_scales num_blocks_per_channel num_channels c in
    Ok (f32_div max_scale (f32_of_Z max_int_scale))) in
  let* per_block_int_scales :=
    foldM (fun per_block_int_scales c =>
      let* pc_scale := aget per_channel_scales c in
      foldM (fun per_block_int_scales b =>
        let* raw_scale := aget bq_scales (b * num_channels + c) in
        let* int_scale := block_int_scale max_int_scale pc_scale raw_scale in
        aset per_block_int_scales (c * num_blocks_per_channel + b) (wrapu 8 int_scale))
        (seq 0 num_blocks_per_channel) per_block_int_scales)
      (seq 0 num_channels) (replicate (num_channels * num_blocks_per_channel) 0) in
  Ok (per_channel_scales, per_block_int_scales, replicate num_channels 0).

Definition LowPowerBlockQuantizeData (data : list float) (data_shape : list Z) (channel_scales : list float)
  (block_scales offsets quant_bytes : list Z) (data_type : Qnn_DataType_t) (data_axis block_scales_axis : Z)
  (data_block_size : nat) (block_scales_shape : list Z) : result (list Z) :=
  let num_dims := length data_shape in
  let* num_elems := ShapeSizeCalc data_shape 0 num_dims in
  let* _ := return_if_not (num_elems =? Z.of_nat (length data)) "Shape mismatch with data to quantize" in
  let* elem_size := GetElementSizeByType_qnn QNN_SFIXED_POINT_8 in
  let* _ := return_if_not (Z.of_nat (length quant_bytes) =? u64 (elem_size * Z.of_nat (length data)))
    "Cannot quantize data because output buffer is not the correct size" in
  let data_axis_no_neg := axis_no_neg data_axis num_dims in
  let block_scales_axis_no_neg := axis_no_neg block_scales_axis num_dims in
  let* _ := return_if_not (data_axis_no_neg =? 0)%nat "BlockQuantize works for Output Channel at axis 0" in
  let* channels := aget data_shape data_axis_no_neg in
  let* block_channels := aget block_scales_shape block_scales_axis_no_neg in
  let* _ := return_if_not (channels =? block_channels) "Incompatible shape of block_scales w.r.t data" in
  let channel_count := Z.to_nat channels in
  let* block_count := aget block_scales_shape (if block_scales_axis_no_neg =? 0 then 1 else 0)%nat in
  let block_count := Z.to_nat block_count in
  let* per_channel := ShapeSizeCalc data_shape (S data_axis_no_neg) num_dims in
  let* data_block_count := if (data_block_size =? 0)%nat then Err Trap
                           else Ok (per_channel / Z.of_nat data_block_size) in
  let* _ := return_if_not (data_block_count =? Z.of_nat block_count)
    "Incompatible LowPowerBlockQuantization encodings." in
  let* _ := return_if_not (length channel_scales =? channel_count)%nat
    "Unexpected size of per-channel-float-scales output buffer" in
  let* _ := return_if_not (length offsets =? channel_count)%nat "Unexpected size of offsets output buffer" in
  let* _ := return_if_not (length block_scales =? channel_count * block_count)%nat
    "Unexpected size of Per-block-int-scales output buffer" in
  let is_channel_first := (block_scales_axis_no_neg =? 0)%nat in
  let* (i, quant_bytes) := for_blocks channel_count block_count data_block_size
    (fun cn bn i quant_bytes =>
       let* input_span := span_at data i data_block_size in
       let* output_span := span_at quant_bytes i data_block_size in
       let block_scales_index := (if is_channel_first then cn * block_count + bn else bn * channel_count + cn)%nat in
       let* channel_scale := aget channel_scales cn in
       let* block_scale := aget block_scales block_scales_index in
       let scale := f32_mul channel_scale (f32_of_Z block_scale) in
       let* offset := aget offsets cn in
       let* T := match data_type with
                 | QNN_SFIXED_POINT_8 => Ok int8_t
                 | QNN_SFIXED_POINT_4 => Ok Int4QuantTraits
                 | _ => Err (EpFail "Unsupported quantization data type for LowPowerBlockQuantizeData")
                 end in
       let* bytes := QuantizeData_span T input_span scale offset (length output_span) in
       Ok (splice quant_bytes i bytes))
    quant_bytes in
  let* _ := return_if_not (i =? length data)%nat
    "Failed to LowPowerBlockQuantize due to mismatch per-channel and per-block scales" in
  Ok quant_bytes.

(** ** Loops over blocks *)

Lemma mapM_res_app {A B} (f : A → result B) l1 l2 :
  mapM_res f (l1 ++ l2) = (let* a := mapM_res f l1 in let* b := mapM_res f l2 in Ok (a ++ b)).
Proof.
  induction l1 as [|x l1 IH]; cbn; [by destruct (mapM_res f l2)|].
  destruct (f x); cbn; [|done]. rewrite IH. destruct (mapM_res f l1); cbn; [|done].
  by destruct (mapM_res f l2).
Qed.

Lemma mapM_res_length {A B} (f : A → result B) l l' : mapM_res f l = Ok l' → length l' = length l.
Proof. revert l'; induction l as [|x l IH]; intros l' E; cbn in *; simplify_res; [done|]. cbn. f_equal; eauto. Qed.

Lemma mapM_res_lookup {A B} (f : A → result B) l l' i x : mapM_res f l = Ok l' → l !! i = Some x →
  ∃ y, l' !! i = Some y ∧ f x = Ok y.
Proof.
  revert l' i; induction l as [|z l IH]; intros l' [|i] E Hi; cbn in *; simplify_res; simplify_eq; eauto.
  cbn. eapply IH; eauto.
Qed.

Lemma mapM_res_ext {A B} (f g : A → result B) l : (∀ x, x ∈ l → f x = g x) → mapM_res f l = mapM_res g l.
Proof.
  induction l as [|x l IH]; intros E; cbn; [done|]. rewrite E by left. destruct (g x); cbn; [|done].
  rewrite IH; [done|]. intros y Hy; apply E; by right.
Qed.

Lemma mapM_res_fmap {A B C} (f : B → result C) (g : A → B) l : mapM_res f (g <$> l) = mapM_res (λ x, f (g x)) l.
Proof. induction l as [|x l IH]; cbn; [done|]. destruct (f (g x)); cbn; [|done]. by rewrite IH. Qed.

(** The pairs of loop indices, in order, each once per element of its block. *)
Definition block_indices (outer inner block_size : nat) : list (nat * nat) :=
  mjoin (replicate block_size <$> nest (seq 0 outer) (λ _, seq 0 inner)).

Definition step_block {S} (block_size : nat) (body : nat → nat → nat → S → result S) (st : nat * S) (p : nat * nat)
  : result (nat * S) :=
  let '(i, s) := st in let* s := body p.1 p.2 i s in Ok ((i + block_size)%nat, s).

Lemma for_blocks_flat {S} outer inner block_size (body : nat → nat → nat → S → result S) s :
  for_blocks outer inner block_size body s =
  foldM (step_block block_size body) (nest (seq 0 outer) (λ _, seq 0 inner)) (O, s).
Proof.
  unfold for_blocks.
  rewrite <- (foldM_nest (λ st n bd, step_block block_size body st (n, bd))). apply foldM_ext.
  intros st n _. apply foldM_ext. by intros [i s'] bd _.
Qed.

Section Blockwise.
Context {A : Type} (f : nat * nat → A → result Z) (enc : Z → list Z) (sz bs : nat) (valid : nat * nat → Prop).
Hypothesis Henc : ∀ z, length (enc z) = sz.

Lemma join_enc_length qs : length (mjoin (enc <$> qs)) = (sz * length qs)%nat.
Proof using Henc.
  induction qs as [|q qs IH]; cbn [fmap list_fmap]; [cbn; lia|].
  rewrite join_cons, length_app, Henc, IH. cbn. lia.
Qed.

(** A loop whose body rewrites its block with the encoding of the mapped elements. *)
Lemma blocks_map (data : list A) (body : nat → nat → nat → list Z → result (list Z)) :
  (∀ n bd i out, valid (n, bd) → length out = (sz * length data)%nat → (i + bs ≤ length data)%nat →
     body n bd i out = let* qs := mapM_res (f (n, bd)) (take bs (drop i data)) in
                       Ok (splice out (i * sz) (mjoin (enc <$> qs)))) →
  ∀ ps pre rest done tail, Forall valid ps → data = pre ++ rest → length rest = (length ps * bs)%nat →
  length done = (sz * length pre)%nat → length tail = (sz * length rest)%nat →
  foldM (step_block bs body) ps (length pre, done ++ tail) =
  (let* qs := mapM_res (λ px, f px.1 px.2) (zip (mjoin (replicate bs <$> ps)) rest) in
   Ok (length data, done ++ mjoin (enc <$> qs))).
Proof using Henc.
  intros Hbody ps. induction ps as [|[n bd] ps IH]; intros pre rest done tail Hv Hd Hr Hdone Htail.
  { destruct rest; [|done]. assert (tail = []) as -> by (apply nil_length_inv; cbn in *; lia).
    cbn. rewrite Hd, length_app. cbn. by rewrite Nat.add_0_r. }
  apply Forall_cons in Hv as [Hv1 Hv]. cbn [foldM step_block fst snd]. cbn [length] in Hr.
  assert (length data = length pre + length rest)%nat as Hl by (by rewrite Hd, length_app).
  rewrite Hbody by (rewrite ?length_app; first [done | lia]).
  rewrite Hd, (drop_app_length' _ _ _ eq_refl). cbn [fmap list_fmap]. rewrite join_cons.
  rewrite <- (take_drop bs rest) at 2. rewrite zip_with_app by (rewrite length_replicate, length_take; lia).
  rewrite mapM_res_app.
  assert (mapM_res (λ px : nat * nat * A, f px.1 px.2) (zip (replicate bs (n, bd)) (take bs rest)) =
          mapM_res (f (n, bd)) (take bs rest)) as ->.
  { rewrite <- (mapM_res_fmap (λ px : nat * nat * A, f px.1 px.2) (pair (n, bd))). f_equal.
    assert (bs = length (take bs rest)) as E by (rewrite length_take; lia).
    rewrite E at 1. clear. induction (take bs rest) as [|x l IH]; cbn; [done|]. by f_equal. }
  destruct (mapM_res (f (n, bd)) (take bs rest)) as [qs|e] eqn:Eq; cbn [rbind]; [|done].
  pose proof (mapM_res_length _ _ _ Eq) as Hqs. rewrite length_take in Hqs.
  unfold splice. rewrite join_enc_length.
  replace (length pre * sz)%nat with (length done) by lia.
  rewrite (take_app_length' done tail (length done)) by done.
  rewrite drop_app_ge by lia. replace (length done + sz * length qs - length done)%nat with (sz * length qs)%nat by lia.
  replace (length pre + bs)%nat with (length (pre ++ take bs rest)) by (rewrite length_app, length_take; lia).
  rewrite app_assoc. rewrite (IH (pre ++ take bs rest) (drop bs rest)).
  - destruct (mapM_res _ (zip _ (drop bs rest))); cbn [rbind]; [|done].
    rewrite Hd. do 2 f_equal. rewrite fmap_app, join_app. by rewrite app_assoc.
  - done.
  - by rewrite <- app_assoc, take_drop.
  - rewrite length_drop. lia.
  - rewrite !length_app, join_enc_length, length_take. rewrite Hqs. nia.
  - rewrite !length_drop. nia.
Qed.

End Blockwise.

Lemma nest_seq_lookup (outer inner start k : nat) : (k < outer * inner)%nat →
  nest (seq start outer) (λ _, seq 0 inner) !! k = Some ((start + k / inner)%nat, (k mod inner)%nat).
Proof.
  revert start k; induction outer as [|outer IH]; intros start k Hk; cbn in Hk; [lia|].
  unfold nest. cbn [seq fmap list_fmap]. rewrite join_cons. fold (nest (seq (S start) outer) (λ _, seq 0 inner)).
  destruct (decide (k < inner)%nat) as [Hlt|Hge].
  - rewrite lookup_app_l by (rewrite length_fmap, length_seq; done).
    rewrite list_lookup_fmap, lookup_seq_lt by done. cbn. rewrite Nat.div_small, Nat.mod_small by done.
    do 2 f_equal. lia.
  - rewrite lookup_app_r by (rewrite length_fmap, length_seq; lia). rewrite length_fmap, length_seq.
    rewrite IH by lia. do 2 f_equal.
    + replace k with (k - inner + 1 * inner)%nat at 2 by lia. rewrite Nat.div_add by lia. lia.
    + replace k with (k - inner + 1 * inner)%nat at 2 by lia. by rewrite Nat.Div0.mod_add.
Qed.

Lemma nest_seq_length (outer inner start : nat) : length (nest (seq start outer) (λ _, seq 0 inner)) = (outer * inner)%nat.
Proof.
  revert start; induction outer as [|outer IH]; intros start; [done|].
  unfold nest. cbn [seq fmap list_fmap]. rewrite join_cons, length_app, length_fmap, length_seq.
  fold (nest (seq (S start) outer) (λ _, seq 0 inner)). rewrite IH. lia.
Qed.

Lemma repeated_lookup {A} (bs : nat) (l : list A) j : (0 < bs)%nat → mjoin (replicate bs <$> l) !! j = l !! (j / bs)%nat.
Proof.
  intros Hbs. revert j; induction l as [|x l IH]; intros j; [done|].
  cbn [fmap list_fmap]. rewrite join_cons. destruct (decide (j < bs)%nat) as [Hlt|Hge].
  - rewrite lookup_app_l by (by rewrite length_replicate). rewrite Nat.div_small by done. by rewrite lookup_replicate_2.
  - rewrite lookup_app_r by (rewrite length_replicate; lia). rewrite length_replicate, IH.
    replace j with (j - bs + 1 * bs)%nat at 2 by lia. rewrite Nat.div_add by lia. by rewrite Nat.add_1_r.
Qed.

Lemma block_indices_lookup outer inner bs j : (0 < bs)%nat → (j < outer * inner * bs)%nat →
  block_indices outer inner bs !! j = Some (j / bs / inner, (j / bs) mod inner)%nat.
Proof.
  intros Hbs Hj. unfold block_indices. rewrite repeated_lookup by done. apply (nest_seq_lookup outer inner 0).
  apply Nat.Div0.div_lt_upper_bound. lia.
Qed.

Lemma block_indices_length outer inner bs : length (block_indices outer inner bs) = (outer * inner * bs)%nat.
Proof.
  unfold block_indices. rewrite <- (nest_seq_length outer inner 0).
  induction (nest _ _) as [|p l IH]; [done|]. cbn [fmap list_fmap]. rewrite join_cons, length_app, length_replicate, IH.
  cbn. lia.
Qed.

(** The element [j] of the data with the loop indices of its block. *)
Lemma zip_block_indices {A} outer inner bs (data : list A) : length data = (outer * inner * bs)%nat →
  zip (block_indices outer inner bs) data = imap (λ j x, (j / bs / inner, (j / bs) mod inner, x)%nat) data.
Proof.
  intros Hl. apply list_eq. intros j. rewrite list_lookup_imap.
  destruct (data !! j) as [x|] eqn:Hx; cbn.
  - pose proof (lookup_lt_Some _ _ _ Hx). apply lookup_zip_with_Some. eexists _, _. split; [done|].
    split; [|done]. apply block_indices_lookup; destruct bs; lia.
  - apply lookup_zip_with_None. by right.
Qed.

Lemma for_blocks_map {A} (f : nat * nat → A → result Z) (enc : Z → list Z) (sz bs : nat) (data : list A) outer inner
  (body : nat → nat → nat → list Z → result (list Z)) out :
  (∀ z, length (enc z) = sz) →
  (∀ n bd i out, (n < outer)%nat → (bd < inner)%nat → length out = (sz * length data)%nat → (i + bs ≤ length data)%nat →
     body n bd i out = let* qs := mapM_res (f (n, bd)) (take bs (drop i data)) in
                       Ok (splice out (i * sz) (mjoin (enc <$> qs)))) →
  length data = (outer * inner * bs)%nat → length out = (sz * length data)%nat →
  for_blocks outer inner bs body out =
  (let* qs := mapM_res (λ px, f px.1 px.2) (imap (λ j x, (j / bs / inner, (j / bs) mod inner, x)%nat) data) in
   Ok (length data, mjoin (enc <$> qs))).
Proof.
  intros Henc Hbody Hl Hout. rewrite for_blocks_flat, <- (zip_block_indices outer inner bs data) by done.
  pose proof (blocks_map f enc sz bs (λ p, p.1 < outer ∧ p.2 < inner)%nat Henc data body) as E.
  change (O, out) with (length (@nil A), [] ++ out).
  rewrite (E ltac:(intros n bd i o [Hn Hbd]; cbn in *; by apply Hbody) _ [] data [] out); [done| |done| |cbn; lia|done].
  - apply Forall_forall. intros [n bd] Hp. apply elem_of_nest in Hp as [Hn Hb]. apply elem_of_seq in Hn, Hb. cbn; lia.
  - by rewrite nest_seq_length.
Qed.

(** ** Shapes *)

Lemma prodZ_take_le l n : Forall (Z.lt 0) l → prodZ (take n l) ≤ prodZ l.
Proof.
  intros H. rewrite <- (take_drop n l) at 2. rewrite prodZ_app.
  pose proof (prodZ_pos _ (Forall_take _ n _ H)). pose proof (prodZ_pos _ (Forall_drop _ n _ H)). nia.
Qed.

Lemma prodZ_drop_le l n : Forall (Z.lt 0) l → prodZ (drop n l) ≤ prodZ l.
Proof.
  intros H. rewrite <- (take_drop n l) at 2. rewrite prodZ_app.
  pose proof (prodZ_pos _ (Forall_take _ n _ H)). pose proof (prodZ_pos _ (Forall_drop _ n _ H)). nia.
Qed.

Lemma shape_size_fold shape s n acc : (s + n ≤ length shape)%nat → Forall (Z.lt 0) shape → 0 < acc →
  acc * prodZ (take n (drop s shape)) < 2 ^ 64 →
  foldM (fun size i => let* d := aget shape i in Ok (u64 (size * d))) (seq s n) acc =
  Ok (acc * prodZ (take n (drop s shape))).
Proof.
  revert s acc; induction n as [|n IH]; intros s acc Hn Hp Hacc Hlt; cbn [seq foldM].
  { rewrite take_0. cbn. f_equal. lia. }
  destruct (aget_lt shape s) as (d & Ed & Hd); [lia|]. rewrite Ed. cbn [rbind].
  pose proof (Forall_lookup_1 _ _ _ _ Hp Hd) as Hd0.
  rewrite (drop_S shape d s Hd) in Hlt |- *. cbn [take prodZ foldr] in Hlt |- *.
  fold (prodZ (take n (drop (S s) shape))) in Hlt |- *.
  pose proof (prodZ_pos _ (Forall_take _ n _ (Forall_drop _ (S s) _ Hp))).
  assert (u64 (acc * d) = acc * d) as -> by (apply wrapu_id; red; nia).
  rewrite IH; [f_equal; lia|lia|done|nia|nia].
Qed.

Lemma ShapeSizeCalc_spec shape s e : (e ≤ length shape)%nat → Forall (Z.lt 0) shape → prodZ shape < 2 ^ 64 →
  ShapeSizeCalc shape s e = Ok (prodZ (take (e - s) (drop s shape))).
Proof.
  intros He Hp Hlt. unfold ShapeSizeCalc. destruct (decide (s ≤ e)%nat).
  - pose proof (prodZ_take_le (drop s shape) (e - s) (Forall_drop _ _ _ Hp)).
    pose proof (prodZ_drop_le shape s Hp).
    rewrite shape_size_fold by (done || lia). f_equal. lia.
  - replace (e - s)%nat with O by lia. done.
Qed.

Definition axis_ok (shape : list Z) (axis : option Z) : Prop :=
  match axis with None => True | Some a => (axis_no_neg a (length shape) < length shape)%nat end.

(** The number of channels along the axis, and of elements after it. *)
Definition channels (shape : list Z) (axis : option Z) : nat :=
  match axis with None => 1%nat | Some a => Z.to_nat (default 0 (shape !! axis_no_neg a (length shape))) end.
Definition inner_size (shape : list Z) (axis : option Z) : nat :=
  match axis with None => Z.to_nat (prodZ shape) | Some a => Z.to_nat (prodZ (drop (S (axis_no_neg a (length shape))) shape)) end.

(** The coordinate of the flat index [j] along the axis. *)
Definition channel_of (shape : list Z) (axis : option Z) (j : nat) : nat :=
  ((j / inner_size shape axis) mod channels shape axis)%nat.

Lemma axis_blocks_spec shape axis : Forall (Z.lt 0) shape → prodZ shape < 2 ^ 64 → axis_ok shape axis →
  ∃ block_count, axis_blocks shape (prodZ shape) axis = Ok (block_count, channels shape axis, inner_size shape axis) ∧
    (block_count * channels shape axis * inner_size shape axis)%nat = Z.to_nat (prodZ shape) ∧
    (0 < channels shape axis)%nat ∧ (0 < inner_size shape axis)%nat.
Proof.
  intros Hp Hlt Hok. pose proof (prodZ_pos _ Hp). destruct axis as [a|]; cbn in *.
  2: { exists 1%nat. split; [done|]. lia. }
  set (ax := axis_no_neg a (length shape)) in *.
  destruct (lookup_lt_is_Some_2 shape ax Hok) as [d Hd]. rewrite Hd. cbn.
  rewrite !ShapeSizeCalc_spec by (done || lia). cbn. rewrite Nat.sub_0_r, drop_0.
  unfold aget. rewrite Hd. cbn [rbind]. rewrite (firstn_all2 (drop (S ax) shape)) by (rewrite length_drop; lia).
  exists (Z.to_nat (prodZ (take ax shape))). split; [done|].
  pose proof (Forall_lookup_1 _ _ _ _ Hp Hd) as Hd0.
  pose proof (prodZ_pos _ (Forall_take _ ax _ Hp)). pose proof (prodZ_pos _ (Forall_drop _ (S ax) _ Hp)).
  split; [|cbn in Hd0; lia]. rewrite <- !Z2Nat.inj_mul by (cbn in *; nia). f_equal.
  rewrite <- (take_drop_middle shape ax d Hd) at 3. rewrite prodZ_app. cbn [prodZ foldr].
  fold (prodZ (drop (S ax) shape)). lia.
Qed.

(** ** Element-wise meaning *)

(** What is stored for the element [j] of the data. *)
Definition quantized_elem (T : QuantType) (shape : list Z) (axis : option Z) (scales : list float) (offsets : list Z)
  (jx : nat * float) : result Z :=
  let c := channel_of shape axis jx.1 in
  let* scale := aget scales c in
  let* offset := aget offsets c in
  quantize_elem T scale offset jx.2.

Definition quantized (T : QuantType) (shape : list Z) (axis : option Z) (scales : list float) (offsets : list Z)
  (data : list float) : result (list Z) :=
  mapM_res (quantized_elem T shape axis scales offsets) (imap pair data).

Record quant_args (T : QuantType) (len : nat) (shape : list Z) (axis : option Z) (scales : list float)
  (offsets : list Z) (t : Qnn_DataType_t) : Prop := {
  qa_type : quant_type t = Some T;
  qa_shape : Forall (Z.lt 0) shape;
  qa_len : Z.of_nat len = prodZ shape;
  qa_fits : Z.of_nat (q_size T * len) < 2 ^ 64;
  qa_axis : axis_ok shape axis;
  qa_scales : length scales = channels shape axis;
  qa_offsets : length offsets = channels shape axis
}.

Lemma quant_type_size t T : quant_type t = Some T → GetElementSizeByType_qnn t = Ok (Z.of_nat (q_size T)).
Proof. destruct t; intros [= <-]; done. Qed.

Lemma quant_type_pos t T : quant_type t = Some T → (0 < q_size T)%nat.
Proof. destruct t; intros [= <-]; cbn; lia. Qed.

Lemma span_at_ok {A} (data : list A) i n : (0 < n)%nat → (i + n ≤ length data)%nat →
  span_at data i n = Ok (take n (drop i data)).
Proof.
  intros Hn Hi. unfold span_at. destruct (aget_lt data i) as (x & -> & _); [lia|]. cbn [rbind].
  by rewrite (proj2 (Nat.leb_le _ _) Hi).
Qed.

Section QuantizeSpec.
Context `{SafeInt} {T : QuantType} {len : nat} {shape : list Z} {axis : option Z} {scales : list float}
  {offsets : list Z} {t : Qnn_DataType_t} (Hargs : quant_args T len shape axis scales offsets t).

Lemma qa_prod : prodZ shape < 2 ^ 64.
Proof using Hargs.
  pose proof (qa_len _ _ _ _ _ _ _ Hargs). pose proof (qa_fits _ _ _ _ _ _ _ Hargs).
  pose proof (quant_type_pos _ _ (qa_type _ _ _ _ _ _ _ Hargs)). nia.
Qed.

Lemma quantize_data_spec (data : list float) (buf : list Z) : length data = len → length buf = (q_size T * len)%nat →
  QuantizeData data shape scales offsets buf t axis =
  (let* qs := quantized T shape axis scales offsets data in Ok (mjoin (le_encode (q_size T) <$> qs))).
Proof using Hargs.
  intros Hl Hb. destruct Hargs as [Ht Hp Hlen Hfit Hax Hs Ho]. pose proof qa_prod as Hlt.
  pose proof (quant_type_pos _ _ Ht) as Hsz. pose proof (prodZ_pos _ Hp) as Hpos.
  unfold QuantizeData. rewrite ShapeSizeCalc_spec by (done || lia).
  rewrite Nat.sub_0_r, drop_0, firstn_all. cbn [rbind].
  rewrite Hl, (proj2 (Z.eqb_eq _ _) (eq_sym Hlen)). cbn [return_if_not rbind].
  assert (GetQnnTensorDataSizeInBytes_count (Z.of_nat len) t = Ok (Z.of_nat (q_size T * len))) as ->.
  { assert (safe_mul (Z.of_nat len) (Z.of_nat (q_size T)) = Ok (Z.of_nat (q_size T * len))) as E.
    { rewrite safe_mul_exact by (red; nia). replace (Z.of_nat len * Z.of_nat (q_size T)) with (Z.of_nat (q_size T * len)) by lia.
      rewrite (proj2 (Z.leb_le _ _)), (proj2 (Z.ltb_lt _ _)) by (unfold size_max; lia). done. }
    unfold GetQnnTensorDataSizeInBytes_count. rewrite (quant_type_size _ _ Ht). cbn [rbind].
    by destruct t; try discriminate Ht. }
  cbn [rbind]. rewrite Hb, Z.eqb_refl. cbn [return_if_not rbind].
  destruct (axis_blocks_spec shape axis Hp Hlt Hax) as (bc & -> & Hprod & Hc & Hi). cbn [rbind].
  rewrite Hs, Ho, Nat.eqb_refl. cbn [return_if_not rbind]. rewrite Ht.
  rewrite (for_blocks_map (λ p x, let* s := aget scales p.2 in let* o := aget offsets p.2 in quantize_elem T s o x)
    (le_encode (q_size T)) (q_size T) (inner_size shape axis) data).
  - unfold quantized.
    replace (imap _ data) with ((λ jx : nat * float, (jx.1 / inner_size shape axis / channels shape axis,
      (jx.1 / inner_size shape axis) mod channels shape axis, jx.2)%nat) <$> imap pair data) by (by rewrite fmap_imap).
    rewrite mapM_res_fmap. unfold quantized_elem, channel_of. cbn [fst snd].
    by destruct (mapM_res _ (imap pair data)).
  - intros z. apply le_encode_length.
  - intros n bd i out _ Hbd Hout Hle. rewrite Hl in Hle, Hout.
    rewrite span_at_ok by (rewrite ?Hl; done). cbn [rbind]. rewrite span_at_ok by nia. cbn [rbind].
    cbn [fst snd]. destruct (aget_lt scales bd) as (s & -> & _); [lia|].
    destruct (aget_lt offsets bd) as (o & -> & _); [lia|]. cbn [rbind]. unfold QuantizeData_span. rewrite !length_take, !length_drop.
    rewrite (proj2 (Nat.eqb_eq _ _)) by nia. cbn [return_if_not rbind].
    change (λ x, quantize_elem T s o x) with (quantize_elem T s o). by destruct (mapM_res _ _).
  - rewrite Hl. lia.
  - by rewrite Hl.
Qed.

End QuantizeSpec.

(** ** Loop invariants *)

Lemma nest_seq outer inner :
  nest (seq 0 outer) (λ _, seq 0 inner) = (λ k, (k / inner, k mod inner)%nat) <$> seq 0 (outer * inner).
Proof.
  apply list_eq. intros k. rewrite list_lookup_fmap. destruct (decide (k < outer * inner)%nat) as [Hk|Hk].
  - rewrite (nest_seq_lookup outer inner 0) by done. by rewrite lookup_seq_lt.
  - rewrite lookup_seq_ge by lia. apply lookup_ge_None. rewrite nest_seq_length. lia.
Qed.

(** A loop nest whose body succeeds and keeps an invariant indexed by the number of blocks done. *)
Lemma for_blocks_total {S} outer inner bs (body : nat → nat → nat → S → result S) (I : nat → S → Prop) s :
  (∀ k s, (k < outer * inner)%nat → I k s →
     ∃ s', body (k / inner)%nat (k mod inner)%nat (k * bs)%nat s = Ok s' ∧ I (k + 1)%nat s') →
  I O s → ∃ s', for_blocks outer inner bs body s = Ok ((outer * inner * bs)%nat, s') ∧ I (outer * inner)%nat s'.
Proof.
  intros Hbody H0. rewrite for_blocks_flat, nest_seq, <- foldM_fmap.
  enough (∀ n, (n ≤ outer * inner)%nat → ∃ s', foldM (λ st k, step_block bs body st (k / inner, k mod inner)%nat)
    (seq 0 n) (O, s) = Ok ((n * bs)%nat, s') ∧ I n s') as E by (apply (E (outer * inner)%nat); lia).
  induction n as [|n IH]; intros Hn; [by exists s|].
  destruct IH as (s1 & E1 & H1); [lia|]. destruct (Hbody n s1) as (s2 & E2 & H2); [lia|done|].
  exists s2. rewrite seq_S, foldM_app, E1. cbn [rbind foldM]. unfold step_block. cbn [fst snd].
  cbn [Nat.add]. rewrite E2. cbn [rbind]. rewrite Nat.add_1_r in H2. split; [|done]. do 2 f_equal. lia.
Qed.

Lemma write_run {A} (g : nat → A) (L data : list A) i n : length L = length data → (i + n ≤ length data)%nat →
  (∀ j, (j < n)%nat → L !! (i + j)%nat = Some (g (i + j)%nat)) →
  foldM (λ d j, aset d (i + j) (g (i + j)%nat)) (seq 0 n) (take i L ++ drop i data) =
  Ok (take (i + n) L ++ drop (i + n) data).
Proof.
  intros Hl Hn Hg. induction n as [|n IH]; [by rewrite Nat.add_0_r|].
  rewrite seq_S, foldM_app, IH by (intros; try apply Hg; lia). cbn [rbind foldM Nat.add].
  rewrite aset_lt by (rewrite length_app, length_take, length_drop; lia). cbn [rbind].
  f_equal. rewrite insert_app_r_alt by (rewrite length_take; lia). rewrite length_take, Nat.min_l by lia.
  replace (i + n - (i + n))%nat with O by lia.
  destruct (lookup_lt_is_Some_2 data (i + n)) as [x Hx]; [lia|]. rewrite (drop_S data x) by done. cbn [insert list_insert].
  replace (i + S n)%nat with (S (i + n)) by lia. rewrite (take_S_r L (i + n) (g (i + n)%nat)) by (apply Hg; lia).
  by rewrite <- app_assoc.
Qed.
Lemma dequantize_spec `{SafeInt} {T len shape axis scales offsets t} (bytes : list Z) (data : list float) :
  quant_args T len shape axis scales offsets t → length data = len → length bytes = (q_size T * len)%nat →
  DequantizePerChannel bytes shape scales offsets data t axis =
  Ok (imap (λ j _, dequantize_elem T bytes (default f_zero (scales !! channel_of shape axis j))
                     (default 0 (offsets !! channel_of shape axis j)) j) data).
Proof.
  intros Hargs Hl Hb. pose proof (qa_prod Hargs) as Hlt. destruct Hargs as [Ht Hp Hlen Hfit Hax Hs Ho].
  pose proof (quant_type_pos _ _ Ht) as Hsz. pose proof (prodZ_pos _ Hp) as Hpos.
  unfold DequantizePerChannel. rewrite ShapeSizeCalc_spec by (done || lia).
  rewrite Nat.sub_0_r, drop_0, firstn_all. cbn [rbind].
  rewrite Hl, (proj2 (Z.eqb_eq _ _) (eq_sym Hlen)). cbn [return_if_not rbind].
  rewrite (quant_type_size _ _ Ht). cbn [rbind]. rewrite Hb.
  rewrite (wrapu_id 64) by (red; nia). rewrite (proj2 (Z.eqb_eq _ _)) by lia. cbn [return_if_not rbind].
  destruct (axis_blocks_spec shape axis Hp Hlt Hax) as (bc & -> & Hprod & Hc & Hi). cbn [rbind].
  rewrite Hs, Ho, Nat.eqb_refl. cbn [return_if_not rbind]. rewrite Ht.
  set (L := imap _ data).
  assert (length L = length data) as HL by (unfold L; by rewrite length_imap).
  set (bs := inner_size shape axis) in *. set (ch := channels shape axis) in *.
  destruct (for_blocks_total bc ch bs (λ _ bd i data,
      let* _ := aget bytes (i * q_size T) in
      foldM (λ data j, let* offset := aget offsets bd in let* scale := aget scales bd in
        aset data (i + j) (dequantize_elem T bytes scale offset (i + j))) (seq 0 bs) data)
    (λ k s, s = take (k * bs) L ++ drop (k * bs) data) data) as (s' & E & HE).
  - intros k s Hk ->. assert (k * bs + bs ≤ length data)%nat as Hle by nia.
    destruct (aget_lt bytes (k * bs * q_size T)) as (b & -> & _); [nia|]. cbn [rbind].
    assert (k mod ch < ch)%nat as Hkm by (apply Nat.mod_upper_bound; lia).
    destruct (aget_lt scales (k mod ch)) as (sc & Es & Hsc); [lia|].
    destruct (aget_lt offsets (k mod ch)) as (o & Eo & Hoc); [lia|].
    exists (take ((k + 1) * bs) L ++ drop ((k + 1) * bs) data). split; [|done].
    replace ((k + 1) * bs)%nat with (k * bs + bs)%nat by lia.
    rewrite Es, Eo. cbn [rbind]. apply (write_run (λ i, dequantize_elem T bytes sc o i)); [done|lia|].
    intros j Hj. unfold L. rewrite list_lookup_imap.
    destruct (lookup_lt_is_Some_2 data (k * bs + j)) as [x ->]; [lia|]. cbn [fmap option_fmap option_map].
    unfold channel_of. fold bs ch. rewrite Nat.div_add_l, (Nat.div_small j) by lia. rewrite Nat.add_0_r, Hsc, Hoc. done.
  - by rewrite take_0.
  - rewrite E. cbn. rewrite HE. f_equal. rewrite Hprod.
    rewrite firstn_all2, skipn_all2 by lia. apply app_nil_r.
Qed.

(** ** Reading back *)

Lemma quantize_elem_range T s o x q : q_lowest T ≤ 0 ≤ q_max T → quantize_elem T s o x = Ok q → q_lowest T ≤ q ≤ q_max T.
Proof.
  unfold quantize_elem, to_int. intros HT E. destruct (f_min _ _); simplify_res; [done|].
  case_match eqn:Hb; simplify_res. apply andb_true_iff in Hb as [?%Z.leb_le ?%Z.leb_le]. done.
Qed.

Lemma quant_type_range t T : quant_type t = Some T → q_lowest T ≤ 0 ≤ q_max T.
Proof. destruct t; intros [= <-]; cbn; lia. Qed.

Lemma read_back t T qs j q : quant_type t = Some T → qs !! j = Some q → q_lowest T ≤ q ≤ q_max T →
  read_elem T (mjoin (le_encode (q_size T) <$> qs)) j = q.
Proof.
  intros Ht Hq Hr. unfold read_elem.
  assert (element (q_size T) (mjoin (le_encode (q_size T) <$> qs)) j = le_encode (q_size T) q) as ->.
  { apply element_join; [|by rewrite list_lookup_fmap, Hq]. intros x (z & -> & _)%list_elem_of_fmap.
    apply le_encode_length. }
  rewrite le_decode_encode.
  destruct t; try discriminate Ht; injection Ht as <-; cbn in *; unfold wraps; zdiv.
Qed.

Lemma quantized_lookup T shape axis scales offsets data qs j x q :
  quantized T shape axis scales offsets data = Ok qs → data !! j = Some x → qs !! j = Some q →
  quantized_elem T shape axis scales offsets (j, x) = Ok q.
Proof.
  intros E Hx Hq. destruct (mapM_res_lookup _ _ _ j (j, x) E) as (y & Hy & Ey).
  - by rewrite list_lookup_imap, Hx.
  - by simplify_eq.
Qed.

Lemma quantized_range t T shape axis scales offsets data qs j q : quant_type t = Some T →
  quantized T shape axis scales offsets data = Ok qs → qs !! j = Some q → q_lowest T ≤ q ≤ q_max T.
Proof.
  intros Ht E Hq. pose proof (mapM_res_length _ _ _ E) as Hl. rewrite length_imap in Hl.
  pose proof (lookup_lt_Some _ _ _ Hq). destruct (lookup_lt_is_Some_2 data j) as [x Hx]; [lia|].
  pose proof (quantized_lookup _ _ _ _ _ _ _ _ _ _ E Hx Hq) as Eq. unfold quantized_elem in Eq. simplify_res.
  eapply quantize_elem_range; [by eapply quant_type_range|done].
Qed.

Lemma requantized `{SafeInt} {T len shape axis scales offsets t} (data out : list float) qs :
  quant_args T len shape axis scales offsets t → length data = len → length out = len →
  quantized T shape axis scales offsets data = Ok qs →
  DequantizePerChannel (mjoin (le_encode (q_size T) <$> qs)) shape scales offsets out t axis =
  Ok (imap (λ j q, f32_of_f64 (Dequantize (default 0 (offsets !! channel_of shape axis j))
       (default f_zero (scales !! channel_of shape axis j)) (f64_of_Z q))) qs).
Proof.
  intros Hargs Hd Ho E. pose proof (mapM_res_length _ _ _ E) as Hl. rewrite length_imap in Hl.
  rewrite (dequantize_spec _ out Hargs Ho) by (rewrite join_encode_length; lia). f_equal.
  apply list_eq. intros j. rewrite !list_lookup_imap.
  destruct (qs !! j) as [q|] eqn:Hq.
  - pose proof (lookup_lt_Some _ _ _ Hq). destruct (lookup_lt_is_Some_2 out j) as [x ->]; [lia|]. cbn.
    unfold dequantize_elem. rewrite (read_back t T qs j q); [done| |done|].
    + apply (qa_type _ _ _ _ _ _ _ Hargs).
    + eapply quantized_range; [apply (qa_type _ _ _ _ _ _ _ Hargs)|done|done].
  - apply lookup_ge_None in Hq. by rewrite (proj2 (lookup_ge_None out j)) by lia.
Qed.

(** ** Ranges *)

Lemma for_blocks_inv {S} outer inner bs (body : nat → nat → nat → S → result S) (I : nat → S → Prop) s i s' :
  (∀ k s s', (k < outer * inner)%nat → I k s →
     body (k / inner)%nat (k mod inner)%nat (k * bs)%nat s = Ok s' → I (k + 1)%nat s') →
  I O s → for_blocks outer inner bs body s = Ok (i, s') → I (outer * inner)%nat s'.
Proof.
  intros Hbody H0. rewrite for_blocks_flat, nest_seq, <- foldM_fmap.
  enough (∀ n i s', (n ≤ outer * inner)%nat → foldM (λ st k, step_block bs body st (k / inner, k mod inner)%nat)
    (seq 0 n) (O, s) = Ok (i, s') → i = (n * bs)%nat ∧ I n s') as E by (apply E; lia).
  induction n as [|n IH]; intros j s1 Hn E; [by cbn in E; simplify_res|].
  rewrite seq_S, foldM_app in E. apply bind_Ok in E as ([j0 s0] & E0 & E).
  destruct (IH j0 s0) as [-> HI]; [lia|done|]. cbn [foldM] in E. apply bind_Ok in E as ([j2 s2] & E2 & E).
  injection E as -> ->. unfold step_block in E2. cbn [fst snd Nat.add] in E2. simplify_res. split; [lia|]. replace (Datatypes.S n) with (n + 1)%nat by lia. by eapply Hbody.
Qed.

(** The parameters of a channel, as computed for one of its blocks. *)
Definition block_params (data : list float) (bs k : nat) (t : Qnn_DataType_t) (symmetric : bool) : result (float * Z) :=
  let '(rmin, rmax) := block_range (take bs (drop (k * bs) data)) in GetQuantParams rmin rmax t symmetric.

(** [GetDataQuantParams] leaves in each channel the parameters of the channel's last block. *)
Lemma data_quant_params_last_block data shape scales0 offsets0 t symmetric axis scales offsets :
  Forall (Z.lt 0) shape → prodZ shape < 2 ^ 64 → axis_ok shape axis →
  GetDataQuantParams data shape scales0 offsets0 t symmetric axis = Ok (scales, offsets) →
  let bs := inner_size shape axis in let ch := channels shape axis in
  ∃ block_count, (block_count * ch * bs)%nat = Z.to_nat (prodZ shape) ∧
  ∀ c, (c < ch)%nat → ∃ s o, scales !! c = Some s ∧ offsets !! c = Some o ∧
    block_params data bs ((block_count - 1) * ch + c) t symmetric = Ok (s, o).
Proof.
  intros Hp Hlt Hax E bs ch. unfold GetDataQuantParams in E.
  rewrite ShapeSizeCalc_spec in E by (done || lia). rewrite Nat.sub_0_r, drop_0, firstn_all in E. cbn [rbind] in E.
  destruct (axis_blocks_spec shape axis Hp Hlt Hax) as (bc & E1 & Hprod & Hc & Hi).
  apply bind_Ok in E as ([] & _ & E). rewrite E1 in E. cbn [rbind] in E.
  apply bind_Ok in E as ([] & Hs & E). apply bind_Ok in E as ([] & Ho & E).
  apply return_if_not_Ok, Nat.eqb_eq in Hs, Ho.
  fold bs ch in E, Hprod, Hc, Hi, Hs, Ho. exists bc. split; [done|].
  destruct (for_blocks _ _ _ _ _) as [[i [sc os]]|] eqn:Eb in E; cbn in E; simplify_res.
  eapply (for_blocks_inv _ _ _ _ (λ k so, length so.1 = ch ∧ length so.2 = ch ∧ ∀ c n, (c < ch)%nat →
    (n * ch + c < k ≤ (n + 1) * ch + c)%nat → ∃ s o, so.1 !! c = Some s ∧ so.2 !! c = Some o ∧
      block_params data bs (n * ch + c) t symmetric = Ok (s, o))) in Eb as (_ & _ & HI).
  - intros c Hcc. apply HI; [done|]. pose proof (prodZ_pos _ Hp).
    destruct bc as [|bc]; [cbn in Hprod; lia|]. cbn. rewrite Nat.sub_0_r. nia.
  - intros k [s o] [s' o'] Hk (H1 & H2 & H3) Ek. cbn [fst snd] in *.
    case_match; [|done]. destruct (block_range _) as [rmin rmax] eqn:Er in Ek. apply bind_Ok in Ek as ([s1 o1] & E4 & Ek).
    apply bind_Ok in Ek as (sc' & E5 & Ek). apply bind_Ok in Ek as (oc' & E6 & Ek).
    injection Ek as <- <-. apply aset_Ok in E5 as [Hm1 ->]. apply aset_Ok in E6 as [Hm2 ->].
    rewrite !length_insert. split_and!; [done..|]. intros c n Hcc Hn.
    destruct (decide ((k mod ch)%nat = c)) as [<-|Hne].
    + exists s1, o1. rewrite !list_lookup_insert_eq by lia. split_and!; [done..|].
      assert (k = n * ch + k mod ch)%nat as <-; [|unfold block_params; by rewrite Er].
      pose proof (Nat.div_mod_eq k ch) as Hdm. set (q := (k / ch)%nat) in *. set (r := (k mod ch)%nat) in *.
      destruct (Nat.lt_trichotomy q n) as [?|[->|?]]; nia.
    + rewrite !list_lookup_insert_ne by done. apply H3; [done|].
      pose proof (Nat.div_mod_eq k ch). pose proof (Nat.mod_upper_bound k ch ltac:(lia)).
      assert (n * ch + c ≠ k)%nat; [|lia]. intros <-. apply Hne.
      rewrite Nat.add_comm, Nat.Div0.mod_add, Nat.mod_small by lia. done.
  - cbn [fst snd]. split_and!; [done..|]. intros; lia.
Qed.

(** ** Low power block quantization *)

Lemma block_int_scale_range m pc raw v : 1 ≤ m → block_int_scale m pc raw = Ok v → 1 ≤ v ≤ m.
Proof. unfold block_int_scale. intros Hm E. case_match; simplify_res; lia. Qed.

(** The scales of a conversion: one float per channel, the largest of its block scales over
    16, and one integer of 1..16 per block, moved from block-major to channel-major order. *)
Record lpbq_of (bq_scales : list float) (nb nc : nat) (per_channel : list float) (per_block offsets : list Z) : Prop := {
  lp_channels : length per_channel = nc;
  lp_blocks : length per_block = (nc * nb)%nat;
  lp_offsets : offsets = replicate nc 0;
  lp_max : ∀ c, (c < nc)%nat → ∃ mx, channel_max bq_scales nb nc c = Ok mx ∧ per_channel !! c = Some (f32_div mx (f32_of_Z 16));
  lp_int : ∀ c b, (c < nc)%nat → (b < nb)%nat → ∃ pc raw v, per_channel !! c = Some pc ∧
    bq_scales !! (b * nc + c)%nat = Some raw ∧ block_int_scale 16 pc raw = Ok v ∧
    per_block !! (c * nb + b)%nat = Some v ∧ 1 ≤ v ≤ 16
}.

Lemma convert_lpbq bq_scales bq_offsets nb nc bits pc pb offs :
  ConvertBlockQuantScalesToLpbq bq_scales bq_offsets nb nc bits = Ok (pc, pb, offs) →
  bits = 4 ∧ Forall (eq 0) bq_offsets ∧ length bq_scales = (nb * nc)%nat ∧ lpbq_of bq_scales nb nc pc pb offs.
Proof.
  unfold ConvertBlockQuantScalesToLpbq. intros E.
  apply bind_Ok in E as ([] & H1 & E). apply return_if_not_Ok, Nat.eqb_eq in H1.
  apply bind_Ok in E as ([] & _ & E). apply bind_Ok in E as ([] & Hb & E). apply return_if_not_Ok, Z.eqb_eq in Hb. subst bits.
  apply bind_Ok in E as ([] & Hz & E). apply return_if_not_Ok in Hz.
  apply bind_Ok in E as ([] & _ & E). apply bind_Ok in E as (pc' & Hpc & E). apply bind_Ok in E as (pb' & Hpb & E).
  injection E as -> -> <-. split; [done|]. split.
  { rewrite forallb_forall in Hz. apply Forall_forall. intros x Hx. apply Z.eqb_eq, Hz. by apply list_elem_of_In. }
  split; [done|]. apply collect_from_inv in Hpc as [Hlc Hpc]. change (2 ^ 4) with 16 in *.
  assert (length pb = (nc * nb)%nat ∧ ∀ c b, (c < nc)%nat → (b < nb)%nat → ∃ p raw v, pc !! c = Some p ∧
    bq_scales !! (b * nc + c)%nat = Some raw ∧ block_int_scale 16 p raw = Ok v ∧
    pb !! (c * nb + b)%nat = Some v) as [Hlb Hint].
  { rewrite (foldM_ext _ (λ s c, foldM (λ s b, let* pc_scale := aget pc c in
       let* raw_scale := aget bq_scales (b * nc + c) in let* int_scale := block_int_scale 16 pc_scale raw_scale in
       aset s (c * nb + b) (wrapu 8 int_scale)) (seq 0 nb) s)) in Hpb.
    2: { intros s c Hc%elem_of_seq. destruct (aget_lt pc c) as (p & -> & _); [lia|]. cbn [rbind]. done. }
    rewrite (foldM_nest (λ s c b, let* pc_scale := aget pc c in
       let* raw_scale := aget bq_scales (b * nc + c) in let* int_scale := block_int_scale 16 pc_scale raw_scale in
       aset s (c * nb + b) (wrapu 8 int_scale))) in Hpb.
    eapply (foldM_inv_in _ (λ done s, length s = (nc * nb)%nat ∧ ∀ c b, (c, b) ∈ done → (b < nb)%nat ∧ ∃ p raw v, pc !! c = Some p ∧
      bq_scales !! (b * nc + c)%nat = Some raw ∧ block_int_scale 16 p raw = Ok v ∧ s !! (c * nb + b)%nat = Some v)) in Hpb.
    - destruct Hpb as [Hl Hd]. split; [done|]. intros c b Hc Hb. destruct (Hd c b) as [_ Hx]; [|done].
      apply elem_of_nest. rewrite !elem_of_seq. lia.
    - split; [by rewrite length_replicate|]. intros c b H. inversion H.
    - intros done [c b] s1 s2 Hin [Hl Hd] Es. cbn [fst snd] in Es. apply elem_of_nest in Hin as [Hc Hb].
      apply elem_of_seq in Hc, Hb. simplify_res. apply aget_Ok in Es0, Es1. apply aset_Ok in Es as [Hi ->].
      pose proof (block_int_scale_range 16 _ _ _ ltac:(lia) Es2).
      rewrite wrapu_id by (red; lia). rewrite length_insert. split; [done|].
      intros c' b' [Hin|Hx]%elem_of_app.
      + destruct (Hd c' b' Hin) as (Hb' & p & raw & v & ? & ? & ? & Hv). split; [done|].
        destruct (decide (c' * nb + b' = c * nb + b)%nat) as [E|E].
        * apply mixed_radix in E as [-> ->]; [|lia..]. exists a, a0, a1. rewrite list_lookup_insert_eq by done. done.
        * exists p, raw, v. by rewrite list_lookup_insert_ne by congruence.
      + apply list_elem_of_singleton in Hx. injection Hx as -> ->. split; [lia|].
        exists a, a0, a1. rewrite list_lookup_insert_eq by done. done. }
  constructor; [done|done|done| |].
  - intros c Hc. destruct (Hpc c Hc) as (x & Hx & Ex). cbn in Ex. simplify_res. eauto.
  - intros c b Hc Hb. destruct (Hint c b Hc Hb) as (p & raw & v & ? & ? & Ev & ?).
    pose proof (block_int_scale_range 16 p raw v ltac:(lia) Ev). exists p, raw, v. done.
Qed.

(** The index of the block scale of block [bn] of channel [cn]. *)
Definition scale_index (channel_first : bool) (nc nb cn bn : nat) : nat :=
  if channel_first then (cn * nb + bn)%nat else (bn * nc + cn)%nat.

Definition lpbq_elem (T : QuantType) (channel_scales : list float) (block_scales offsets : list Z)
  (channel_first : bool) (nc nb bs : nat) (jx : nat * float) : result Z :=
  let cn := (jx.1 / bs / nb)%nat in
  let bn := ((jx.1 / bs) mod nb)%nat in
  let* channel_scale := aget channel_scales cn in
  let* block_scale := aget block_scales (scale_index channel_first nc nb cn bn) in
  let* offset := aget offsets cn in
  quantize_elem T (f32_mul channel_scale (f32_of_Z block_scale)) offset jx.2.

(** [LowPowerBlockQuantizeData] quantizes each element with the scale of its channel times
    the integer scale of its block. *)
Lemma lpbq_quantize_spec (data : list float) (shape : list Z) (channel_scales : list float)
  (block_scales offsets buf : list Z) (t : Qnn_DataType_t) (data_axis scales_axis : Z) (bs nc nb : nat)
  (scales_shape : list Z) :
  let first := (axis_no_neg scales_axis (length shape) =? 0)%nat in
  Forall (Z.lt 0) shape → prodZ shape < 2 ^ 64 → Z.of_nat (length data) = prodZ shape → length buf = length data →
  axis_no_neg data_axis (length shape) = O → shape !! O = Some (Z.of_nat nc) →
  prodZ (drop 1 shape) = Z.of_nat (nb * bs) →
  scales_shape !! axis_no_neg scales_axis (length shape) = Some (Z.of_nat nc) →
  scales_shape !! (if first then 1 else 0)%nat = Some (Z.of_nat nb) →
  length channel_scales = nc → length offsets = nc → length block_scales = (nc * nb)%nat →
  t = QNN_SFIXED_POINT_8 ∨ t = QNN_SFIXED_POINT_4 →
  LowPowerBlockQuantizeData data shape channel_scales block_scales offsets buf t data_axis scales_axis bs scales_shape =
  (let* qs := mapM_res (lpbq_elem (if decide (t = QNN_SFIXED_POINT_8) then int8_t else Int4QuantTraits)
                          channel_scales block_scales offsets first nc nb bs) (imap pair data) in
   Ok (mjoin (le_encode 1 <$> qs))).
Proof.
  intros first Hp Hlt Hlen Hbuf Hda Hnc Hper Hsc Hnb Hcs Ho Hbs Ht.
  pose proof (prodZ_pos _ Hp) as Hpos. pose proof (prodZ_pos _ (Forall_drop _ 1 _ Hp)) as Hpos1.
  assert (prodZ shape = Z.of_nat nc * prodZ (drop 1 shape)) as Hprod.
  { destruct shape as [|d shape]; [done|]. cbn in Hnc. injection Hnc as ->. cbn [prodZ foldr drop]. done. }
  unfold LowPowerBlockQuantizeData. rewrite ShapeSizeCalc_spec by (done || lia).
  rewrite Nat.sub_0_r, drop_0, firstn_all. cbn [rbind].
  rewrite (proj2 (Z.eqb_eq _ _) (eq_sym Hlen)). cbn [return_if_not rbind].
  change (GetElementSizeByType_qnn QNN_SFIXED_POINT_8) with (Ok (A := Z) 1). cbn [rbind].
  rewrite Z.mul_1_l, (wrapu_id 64) by (red; lia). rewrite Hbuf, Z.eqb_refl. cbn [return_if_not rbind].
  rewrite Hda. cbn [Nat.eqb return_if_not rbind]. unfold aget at 1. rewrite Hnc. cbn [rbind].
  unfold aget at 1. rewrite Hsc. cbn [rbind]. rewrite Z.eqb_refl. cbn [return_if_not rbind].
  fold first. unfold aget at 1. rewrite Hnb. cbn [rbind]. rewrite ShapeSizeCalc_spec by (done || lia).
  rewrite (firstn_all2 (drop 1 shape)) by (rewrite length_drop; lia). cbn [rbind].
  rewrite !Nat2Z.id. rewrite (proj2 (Nat.eqb_neq bs 0)) by lia. cbn [rbind].
  rewrite Hper, Nat2Z.inj_mul, Z.div_mul, Z.eqb_refl by lia. cbn [return_if_not rbind].
  rewrite Hcs, Ho, Hbs, !Nat.eqb_refl. cbn [return_if_not rbind].
  set (T := if decide (t = QNN_SFIXED_POINT_8) then int8_t else Int4QuantTraits).
  assert (q_size T = 1%nat) as Hsz by (unfold T; by destruct (decide _)).
  rewrite (for_blocks_map (λ p x, let* c := aget channel_scales p.1 in
    let* b := aget block_scales (scale_index first nc nb p.1 p.2) in let* o := aget offsets p.1 in
    quantize_elem T (f32_mul c (f32_of_Z b)) o x) (le_encode 1) 1 bs data); [| |
    |rewrite <- (Nat2Z.id (length data)), Hlen, Hprod, Hper; lia|lia].
  - replace (imap _ data) with ((λ jx : nat * float, (jx.1 / bs / nb, (jx.1 / bs) mod nb, jx.2)%nat) <$> imap pair data)
      by (by rewrite fmap_imap).
    rewrite mapM_res_fmap. unfold lpbq_elem. cbn [fst snd]. destruct (mapM_res _ (imap pair data)); cbn [rbind]; [|done].
    by rewrite Nat.eqb_refl.
  - intros z. apply le_encode_length.
  - intros n bd i out Hn Hbd Hout Hle.
    rewrite !span_at_ok by lia. cbn [rbind fst snd].
    destruct (aget_lt channel_scales n) as (c & -> & _); [lia|]. cbn [rbind].
    fold (scale_index first nc nb n bd).
    destruct (aget_lt block_scales (scale_index first nc nb n bd)) as (b & -> & _).
    { unfold scale_index. destruct first; nia. }
    destruct (aget_lt offsets n) as (o & -> & _); [lia|]. cbn [rbind].
    assert (match t with QNN_SFIXED_POINT_8 => Ok int8_t | QNN_SFIXED_POINT_4 => Ok Int4QuantTraits
      | _ => Err (EpFail "Unsupported quantization data type for LowPowerBlockQuantizeData") end = Ok T) as ->
      by (unfold T; by destruct Ht as [-> | ->]).
    cbn [rbind]. unfold QuantizeData_span. rewrite Hsz, !length_take, !length_drop.
    rewrite (proj2 (Nat.eqb_eq _ _)) by lia. cbn [return_if_not rbind]. rewrite Nat.mul_1_r.
    change (λ x, quantize_elem T (f32_mul c (f32_of_Z b)) o x) with (quantize_elem T (f32_mul c (f32_of_Z b)) o).
    by destruct (mapM_res _ _).
Qed.

(** [Quantize] converts to [int] before it saturates: a value that rounds outside [int] is
    undefined instead of saturated. *)
Lemma quantize_converts_first : Quantize (f64_of_Z (2 ^ 40)) (f32_of_Z 1) 0 QNN_UFIXED_POINT_8 = Err Trap.
Proof. reflexivity. Qed.

(** With an axis that is not the first, only the last block of a channel counts: here the
    channel holds 100 and 0, and its parameters are those of 0 alone. *)
Lemma data_quant_params_ignore_blocks :
  let params data := GetDataQuantParams data [2; 1] [f_zero] [0] QNN_UFIXED_POINT_8 false (Some 1) in
  params [f32_of_Z 100; f_zero] = params [f_zero; f_zero] ∧
  params [f32_of_Z 100; f_zero] ≠ GetDataQuantParams [f32_of_Z 100; f_zero] [2; 1] [f_zero] [0] QNN_UFIXED_POINT_8 false None.
Proof. cbv zeta. split; [vm_compute; reflexivity|]. vm_compute. discriminate. Qed.

(** ** Claims *)

Lemma mapM_res_Ok {A B} (f : A → result B) l : (∀ x, x ∈ l → ∃ y, f x = Ok y) → ∃ ys, mapM_res f l = Ok ys.
Proof.
  induction l as [|x l IH]; intros Hf; [by eexists|]. destruct (Hf x) as [y Ey]; [by left|].
  destruct IH as [ys Eys]; [intros; apply Hf; by right|]. exists (y :: ys). cbn. by rewrite Ey, Eys.
Qed.

(** [n] is the integer nearest to [m * 2^e], for a negative [e], and the even one of two. *)
Definition nearest_even (m : positive) (e n : Z) : Prop :=
  2 * Z.abs (Zpos m - n * 2 ^ (- e)) ≤ 2 ^ (- e) ∧ (2 * Z.abs (Zpos m - n * 2 ^ (- e)) = 2 ^ (- e) → Z.even n = true).

Lemma pos_round_even_nearest m e n : e < 0 → nearest_even m e n → pos_round_even m e = n.
Proof.
  intros He [Hn Htie]. unfold pos_round_even. pose proof (Z.pow_pos_nonneg 2 (- e)) as Hd. set (d := 2 ^ (- e)) in *.
  pose proof (Z.div_mod (Zpos m) d ltac:(lia)) as Hdm. pose proof (Z.mod_pos_bound (Zpos m) d ltac:(lia)) as Hr.
  set (q := Zpos m / d) in *. set (r := Zpos m mod d) in *. rewrite Hdm in Hn, Htie.
  assert (n = q ∨ n = q + 1) as [->| ->] by nia.
  - replace (d * q + r - q * d) with r in * by lia. rewrite Z.abs_eq in * by lia.
    destruct (Z.ltb_spec (2 * r) d); [done|]. destruct (Z.ltb_spec d (2 * r)); [lia|]. by rewrite Htie by lia.
  - replace (d * q + r - (q + 1) * d) with (- (d - r)) in * by lia. rewrite Z.abs_opp, Z.abs_eq in * by lia.
    destruct (Z.ltb_spec (2 * r) d); [lia|]. destruct (Z.ltb_spec d (2 * r)); [done|].
    rewrite Z.even_add in Htie. cbn in Htie. destruct (Z.even q); [|done]. by specialize (Htie ltac:(lia)).
Qed.

(** The integer to store for a quotient [data / scale]: it is rounded to the nearest integer, the
    offset is subtracted (the zero point, which is [- offset], added), and the result is brought into
    the range of the type; an infinite quotient gives an end of the range.  A finite quotient of
    [2^52] or more is not described, and for a quotient that is not a number nothing is stored. *)
Definition in_range (T : QuantType) (v : Z) : Z := Z.min (q_max T) (Z.max (q_lowest T) v).

Inductive stored (T : QuantType) (offset : Z) : double → Z → Prop :=
| stored_zero s : stored T offset (S754_zero s) (in_range T (0 - offset))
| stored_finite s m e n : e < 0 → nearest_even m e n → 0 ≤ n ≤ 2 ^ 52 →
    stored T offset (S754_finite s m e) (in_range T (cond_Zopp s n - offset))
| stored_infinite s : stored T offset (S754_infinity s) (if s then q_lowest T else q_max T).

Definition plain_range (T : QuantType) : Prop := - 2 ^ 31 ≤ q_lowest T ≤ 0 ∧ 0 ≤ q_max T < 2 ^ 32.

Lemma quant_type_plain t T : quant_type t = Some T → plain_range T.
Proof. destruct t; intros [= <-]; split; cbn; lia. Qed.

Lemma clip_rep T x v : plain_range T → rep x v → Z.abs v < 2 ^ 53 →
  to_int (q_lowest T) (q_max T) (f_min (f_max x (f64_of_Z (q_lowest T))) (f64_of_Z (q_max T))) = Ok (in_range T v).
Proof.
  intros [Hl Hh] Hx Hv. pose proof (f64_of_Z_rep (q_lowest T) ltac:(lia)) as Rl. pose proof (f64_of_Z_rep (q_max T) ltac:(lia)) as Rh.
  pose proof (max_rep _ _ _ _ Hx Rl Hv ltac:(lia)) as Rm. pose proof (min_rep _ _ _ _ Rm Rh ltac:(lia) ltac:(lia)) as Rr.
  rewrite (to_int_rep _ _ _ _ Rr) by lia. unfold in_range.
  rewrite (proj2 (Z.leb_le _ _)), (proj2 (Z.leb_le _ _)) by lia. cbn. f_equal. lia.
Qed.

Lemma nearbyint_rep s m e n : e < 0 → nearest_even m e n → 0 ≤ n ≤ 2 ^ 52 →
  rep (f64_nearbyint (S754_finite s m e)) (cond_Zopp s n).
Proof.
  intros He Hn Hr. unfold f64_nearbyint. rewrite (proj2 (Z.leb_gt 0 e)) by lia. rewrite (pos_round_even_nearest m e n) by done.
  pose proof (normalize_int (cond_Zopp s n) 0 s ltac:(lia)) as H. rewrite Z.mul_1_r in H. apply H. destruct s; cbn; lia.
Qed.

Lemma quantize_elem_stored T s o x q : plain_range T → Z.abs o ≤ 2 ^ 31 →
  stored T o (f64_div (f64_of_f32 x) (f64_of_f32 s)) q → quantize_elem T s o x = Ok q.
Proof.
  intros HT Ho Hq. unfold quantize_elem. pose proof (f64_of_Z_rep o ltac:(lia)) as Ro.
  destruct Hq as [sg|sg m e n He Hn Hr|sg].
  - apply clip_rep; [done|apply sub_rep; [by exists sg|done|lia..]|lia].
  - apply clip_rep; [done|apply sub_rep; [by apply nearbyint_rep|done|..]|]; destruct sg; cbn; lia.
  - cbn [f64_nearbyint]. assert (f64_sub (S754_infinity sg) (f64_of_Z o) = S754_infinity sg) as ->.
    { unfold rep in Ro. destruct (o =? 0); [destruct Ro as [s' ->]|rewrite Ro]; by destruct sg. }
    destruct HT as [Hl Hh]. pose proof (f64_of_Z_rep (q_lowest T) ltac:(lia)) as Rl.
    pose proof (f64_of_Z_rep (q_max T) ltac:(lia)) as Rh.
    assert (∀ z, rep (f64_of_Z z) z → f_lt (S754_infinity true) (f64_of_Z z) = true ∧ f_lt (S754_infinity false) (f64_of_Z z) = false ∧
      f_lt (f64_of_Z z) (S754_infinity false) = true) as Hinf.
    { intros z Rz. unfold rep in Rz. destruct (z =? 0); [destruct Rz as [s' ->]|rewrite Rz]; done. }
    unfold f_max. destruct sg.
    + rewrite (proj1 (Hinf _ Rl)). unfold f_min. rewrite (lt_rep _ _ _ _ Rh Rl) by lia.
      rewrite (proj2 (Z.ltb_ge (q_max T) (q_lowest T))) by lia. rewrite (to_int_rep _ _ _ _ Rl) by lia.
      by rewrite (proj2 (Z.leb_le _ _)), (proj2 (Z.leb_le _ _)) by lia.
    + rewrite (proj1 (proj2 (Hinf _ Rl))). unfold f_min. rewrite (proj2 (proj2 (Hinf _ Rh))).
      rewrite (to_int_rep _ _ _ _ Rh) by lia. by rewrite (proj2 (Z.leb_le _ _)), (proj2 (Z.leb_le _ _)) by lia.
Qed.

(** The axis as ONNX counts it, and the coordinate of a flat index along it. *)
Definition onnx_axis (shape : list Z) (a : Z) : nat := Z.to_nat (if a <? 0 then a + Z.of_nat (length shape) else a).
Definition own_channel (shape : list Z) (axis : option Z) (j : nat) : nat :=
  match axis with
  | None => 0
  | Some a =>
      let k := onnx_axis shape a in
      (j / Z.to_nat (prodZ (drop (S k) shape))) mod Z.to_nat (default 0 (shape !! k))
  end.
Definition axis_valid (shape : list Z) (axis : option Z) : Prop :=
  Z.of_nat (length shape) < 2 ^ 63 ∧
  match axis with None => True | Some a => - Z.of_nat (length shape) ≤ a < Z.of_nat (length shape) end.

Lemma own_channel_eq shape axis j : axis_valid shape axis → channel_of shape axis j = own_channel shape axis j.
Proof.
  intros [Hl Ha]. destruct axis as [a|]; [|done]. unfold channel_of, channels, inner_size, own_channel.
  assert (axis_no_neg a (length shape) = onnx_axis shape a) as ->; [|done].
  unfold axis_no_neg, onnx_axis. f_equal. destruct (Z.ltb_spec a 0); unfold wrapu; zdiv.
Qed.

(** C22: for any shape, axis and fixed-point type and any data whose quotients by the scales are
    infinite or below [2^52] in magnitude: [QuantizeData] succeeds and stores, in order, one integer
    of the type's size for each element, which is the element divided by the scale of its own
    channel (its coordinate along the axis), rounded to the nearest integer, less the offset of that
    channel, and brought into the range of the type; and [DequantizePerChannel] on the stored bytes
    gives each element the product of the integer plus the offset with the scale of its channel. *)
Theorem quantize_per_channel `{SafeInt} (T : QuantType) (shape : list Z) (axis : option Z) (scales : list float)
  (offsets : list Z) (t : Qnn_DataType_t) (data out : list float) (buf : list Z) :
  quant_args T (length data) shape axis scales offsets t → axis_valid shape axis →
  Forall (fun o => Z.abs o ≤ 2 ^ 31) offsets →
  length buf = (q_size T * length data)%nat → length out = length data →
  let scale j := default f_zero (scales !! own_channel shape axis j) in
  let offset j := default 0 (offsets !! own_channel shape axis j) in
  let quotient j x := f64_div (f64_of_f32 x) (f64_of_f32 (scale j)) in
  (∀ j x, data !! j = Some x → ∃ q, stored T (offset j) (quotient j x) q) →
  ∃ qs, QuantizeData data shape scales offsets buf t axis = Ok (mjoin (le_encode (q_size T) <$> qs)) ∧
    length qs = length data ∧
    (∀ j x q, data !! j = Some x → qs !! j = Some q → stored T (offset j) (quotient j x) q ∧ q_lowest T ≤ q ≤ q_max T) ∧
    DequantizePerChannel (mjoin (le_encode (q_size T) <$> qs)) shape scales offsets out t axis =
    Ok (imap (λ j q, f32_of_f64 (f64_mul (f64_of_Z (q + offset j)) (f64_of_f32 (scale j)))) qs).
Proof.
  intros Hargs Hax Hoff Hb Ho scale offset quotient Hq. pose proof (qa_type _ _ _ _ _ _ _ Hargs) as Ht.
  pose proof (quant_type_plain _ _ Ht) as HT.
  assert (∀ j x, data !! j = Some x → ∃ s o, scales !! channel_of shape axis j = Some s ∧
    offsets !! channel_of shape axis j = Some o ∧ scale j = s ∧ offset j = o ∧ Z.abs o ≤ 2 ^ 31) as Hc.
  { intros j x _. assert (channel_of shape axis j < channels shape axis)%nat as Hlt.
    { destruct (axis_blocks_spec shape axis) as (bc & _ & _ & H0 & _);
        [apply Hargs|rewrite <- (qa_len _ _ _ _ _ _ _ Hargs); pose proof (qa_fits _ _ _ _ _ _ _ Hargs);
         pose proof (quant_type_pos _ _ Ht); nia|apply Hargs|]. apply Nat.mod_upper_bound. lia. }
    destruct (lookup_lt_is_Some_2 scales (channel_of shape axis j)) as [s Es]; [by rewrite (qa_scales _ _ _ _ _ _ _ Hargs)|].
    destruct (lookup_lt_is_Some_2 offsets (channel_of shape axis j)) as [o Eo]; [by rewrite (qa_offsets _ _ _ _ _ _ _ Hargs)|].
    exists s, o. unfold scale, offset. rewrite <- own_channel_eq, Es, Eo by done. split_and!; try done.
    exact (Forall_lookup_1 _ _ _ _ Hoff Eo). }
  destruct (mapM_res_Ok (quantized_elem T shape axis scales offsets) (imap pair data)) as [qs Eqs].
  { intros jx [j Hj]%list_elem_of_lookup. rewrite list_lookup_imap in Hj. destruct (data !! j) as [x|] eqn:Hx; [|done].
    injection Hj as <-. destruct (Hc j x Hx) as (s & o & Es & Eo & Hs' & Ho' & Hbound). destruct (Hq j x Hx) as [q Hsq].
    exists q. unfold quantized_elem. cbn [fst snd]. unfold aget. rewrite Es, Eo. cbn [rbind].
    unfold quotient in Hsq. rewrite Hs', Ho' in Hsq. by apply quantize_elem_stored. }
  exists qs. split_and!.
  - rewrite (quantize_data_spec Hargs) by done. unfold quantized. by rewrite Eqs.
  - rewrite (mapM_res_length _ _ _ Eqs). apply length_imap.
  - intros j x q Hx Hj. split; [|by eapply quantized_range].
    pose proof (quantized_lookup _ _ _ _ _ _ _ _ _ _ Eqs Hx Hj) as E. destruct (Hc j x Hx) as (s & o & Es & Eo & Hs' & Ho' & Hbound).
    destruct (Hq j x Hx) as [q' Hsq]. unfold quantized_elem in E. cbn [fst snd] in E. unfold aget in E. rewrite Es, Eo in E. cbn [rbind] in E.
    enough (q' = q) as <- by done. unfold quotient in Hsq. rewrite Hs', Ho' in Hsq.
    rewrite (quantize_elem_stored T s o x q') in E by done. by injection E.
  - rewrite (requantized data out qs Hargs) by done. f_equal. apply list_eq. intros j. rewrite !list_lookup_imap.
    destruct (qs !! j) as [q|] eqn:Hj; [|done]. cbn. f_equal. f_equal.
    destruct (lookup_lt_is_Some_2 data j) as [x Hx].
    { pose proof (mapM_res_length _ _ _ Eqs) as El. rewrite length_imap in El. rewrite <- El. by eapply lookup_lt_Some. }
    destruct (Hc j x Hx) as (s & o & Es & Eo & Hs' & Ho' & Hbound). rewrite Es, Eo, Hs', Ho'. cbn [default]. unfold Dequantize. f_equal.
    pose proof (quantized_range _ _ _ _ _ _ _ _ _ _ Ht Eqs Hj) as Hr. destruct HT as [Hl Hh].
    apply add_of_Z; lia.
Qed.

(** Two rows of two channels; 5 with scale 2 rounds to even. *)
Definition example_data : list float := f32_of_Z <$> [1; 5; -1000; 1000].

Lemma example_quant_args : quant_args int8_t (length example_data) [2; 2] (Some (-1))
  (f32_of_Z <$> [1; 2]) [0; 3] QNN_SFIXED_POINT_8.
Proof. constructor; cbn; try done; try lia; repeat constructor; lia. Qed.

Lemma quantize_per_channel_witness :
  ∃ qs, QuantizeData (H := exact_safe_int) example_data [2; 2] (f32_of_Z <$> [1; 2]) [0; 3] [0; 0; 0; 0] QNN_SFIXED_POINT_8 (Some (-1)) =
    Ok (mjoin (le_encode 1 <$> qs)) ∧ length qs = 4%nat.
Proof.
  destruct (quantize_per_channel (H := exact_safe_int) int8_t [2; 2] (Some (-1)) (f32_of_Z <$> [1; 2]) [0; 3]
    QNN_SFIXED_POINT_8 example_data example_data [0; 0; 0; 0] example_quant_args) as (qs & H1 & H2 & _).
  - split; [reflexivity|cbn; lia].
  - repeat constructor; cbn; lia.
  - reflexivity.
  - reflexivity.
  - intros [|[|[|[|j]]]] x Hx; [..|discriminate Hx]; injection Hx as <-; eexists;
      [apply (stored_finite _ _ _ _ _ 1)|apply (stored_finite _ _ _ _ _ 2)|
       apply (stored_finite _ _ _ _ _ 1000)|apply (stored_finite _ _ _ _ _ 500)];
      try reflexivity; try (split; [vm_compute; discriminate|]); try lia; vm_compute; done.
  - exists qs. split; [exact H1|exact H2].
Defined.

(** The conversion of block scales to low power block quantization accepts only symmetric
    4-bit parameters; it gives each channel a sixteenth of its largest block scale and each
    block an integer of 1 to 16, moved from block-major to channel-major order; and
    [LowPowerBlockQuantizeData] with these scales quantizes every element with the product
    of the scale of its channel and the integer of its block. *)
Theorem lpbq_conversion (bq_scales : list float) (bq_offsets : list Z) (nb nc bs : nat) (bits : Z)
  (pc : list float) (pb offs : list Z) (data : list float) (buf : list Z) :
  ConvertBlockQuantScalesToLpbq bq_scales bq_offsets nb nc bits = Ok (pc, pb, offs) →
  (0 < nc)%nat → (0 < nb)%nat → (0 < bs)%nat → Z.of_nat (nc * (nb * bs)) < 2 ^ 64 →
  length data = (nc * (nb * bs))%nat → length buf = length data →
  bits = 4 ∧ Forall (eq 0) bq_offsets ∧ length bq_scales = (nb * nc)%nat ∧ lpbq_of bq_scales nb nc pc pb offs ∧
  LowPowerBlockQuantizeData data [Z.of_nat nc; Z.of_nat (nb * bs)] pc pb offs buf QNN_SFIXED_POINT_4 0 0 bs
    [Z.of_nat nc; Z.of_nat nb] =
  (let* qs := mapM_res (lpbq_elem Int4QuantTraits pc pb offs true nc nb bs) (imap pair data) in
   Ok (mjoin (le_encode 1 <$> qs))).
Proof.
  intros E Hc Hb Hs Hlt Hd Hbuf. destruct (convert_lpbq _ _ _ _ _ _ _ _ E) as (? & ? & ? & Hof).
  split_and!; try done. destruct Hof as [Hpc Hpb -> _ _].
  rewrite (lpbq_quantize_spec _ _ _ _ _ _ _ _ _ _ nc nb); cbn; rewrite ?length_replicate; try done; try lia.
  - repeat constructor; lia.
  - by right.
Qed.

Lemma lpbq_conversion_witness :
  LowPowerBlockQuantizeData (f32_of_Z <$> [3; 8; 5; 1]) [1; 4] [f32_div (f32_of_Z 16) (f32_of_Z 16)] [16; 1] [0]
    [0; 0; 0; 0] QNN_SFIXED_POINT_4 0 0 2 [1; 2] = Ok [0; 0; 5; 1].
Proof.
  destruct (lpbq_conversion (f32_of_Z <$> [16; 1]) [] 2 1 2 4 [f32_div (f32_of_Z 16) (f32_of_Z 16)] [16; 1] [0]
    (f32_of_Z <$> [3; 8; 5; 1]) [0; 0; 0; 0]) as (_ & _ & _ & _ & E); try lia; [vm_compute; reflexivity..|].
  refine (eq_trans E _). vm_compute. reflexivity.
Defined.
