(* ===== verification/OpParams.v ===== *)
(** * Parameters that the op builders compute

    The arithmetic of op builders of [builder/opbuilder]: the ranges of Slice
    ([slice_op_builder.cc]), the amounts of Pad and the StridedSlice for negative pads
    ([pad_op_builder.cc]), the attributes of the pools ([ResolvePoolAttributes] and
    [ReArrangePads] of [base_op_builder]), the indices of Split ([split_op_builder.cc]) and of
    Gather and Scatter ([normalize_indices_utils.cc]).  Reading the initializers and adding the
    tensors and nodes are not part of it.

    [int64_t] values that come from the graph are unbounded integers where the code only adds a
    dimension, below [2 ^ 32], to a negative one; [uint32_t] results wrap. *)

From Stdlib Require Import SpecFloat.
From S2P Require Import Prelude Floats DataTypes QuantParams QnnTensor.
Local Open Scope Z_scope.

(** [std::clamp] *)
Definition clamp (x lo hi : Z) : Z := if x <? lo then lo else if hi <? x then hi else x.

(** ** Slice *)

Module Slice.

Record PrepareForComputeMetadata := Metadata {
  starts_ : list Z;
  ends_ : list Z;
  steps_ : list Z;
  output_dims_ : list Z
}.

Definition new_metadata (input_dimensions : list Z) : PrepareForComputeMetadata :=
  Metadata (replicate (length input_dimensions) 0) input_dimensions
    (replicate (length input_dimensions) 1) input_dimensions.

(** [ceil(1.0 * a / b)]: exact, the operands are below [2 ^ 53]. *)
Definition ceil_div (a b : Z) : Z := - (- a / b).

Definition is_int_max (v : Z) : bool := (v =? 2 ^ 31 - 1) || (v =? 2 ^ 63 - 1).

(** Start, end, step and size of one axis. *)
Definition axis_range (dim_value start stop step : Z) : Z * Z * Z * Z :=
  if dim_value =? 0 then (0, 0, step, 0)
  else
  let step := clamp step (- dim_value) dim_value in
  let start := if start <? 0 then start + dim_value else start in
  let start := if step <? 0 then clamp start 0 (dim_value - 1) else clamp start 0 dim_value in
  let stop :=
    if is_int_max stop then if step <? 0 then -1 else dim_value
    else
    let stop := if stop <? 0 then stop + dim_value else stop in
    if step <? 0 then clamp stop (-1) dim_value else clamp stop 0 dim_value in
  let temp := ceil_div (stop - start) step in
  (start, stop, step, if temp <? 0 then 0 else temp).

Definition set_axis (m : PrepareForComputeMetadata) (axis : nat) (r : Z * Z * Z * Z) : result PrepareForComputeMetadata :=
  let '(start, stop, step, size) := r in
  let* ss := aset (starts_ m) axis start in
  let* es := aset (ends_ m) axis stop in
  let* ts := aset (steps_ m) axis step in
  let* os := aset (output_dims_ m) axis size in
  Ok (Metadata ss es ts os).

Definition slice_axis (raw_starts raw_ends axes raw_steps input_dimensions : list Z)
    (st : list Z * PrepareForComputeMetadata) (axis_index : nat) : result (list Z * PrepareForComputeMetadata) :=
  let '(unique_axes, m) := st in
  let dimension_count := Z.of_nat (length input_dimensions) in
  let* a := aget axes axis_index in
  let axis := if a <? 0 then a + dimension_count else a in
  if (dimension_count <=? axis) || (axis <? 0) then Err (EpFail "'axes' has an axis outside of the tensor dimension count")
  else if bool_decide (axis ∈ unique_axes) then Err (EpFail "'axes' has duplicates")
  else
  let* dim_value := aget input_dimensions (Z.to_nat axis) in
  let step := default 1 (raw_steps !! axis_index) in
  if step =? 0 then Err (EpFail "'step' value cannot be 0")
  else
  let* start := aget raw_starts axis_index in
  let* stop := aget raw_ends axis_index in
  let* m := set_axis m (Z.to_nat axis) (axis_range dim_value start stop step) in
  Ok (axis :: unique_axes, m).

Definition slice_axes (raw_starts raw_axes : list Z) : list Z :=
  match raw_axes with [] => Z.of_nat <$> seq 0 (length raw_starts) | _ => raw_axes end.

Definition PrepareForComputeHelper (raw_starts raw_ends raw_axes raw_steps input_dimensions : list Z)
  : result PrepareForComputeMetadata :=
  let axes := slice_axes raw_starts raw_axes in
  let axes_count := length axes in
  if (length raw_starts <? axes_count)%nat || (length raw_ends <? axes_count)%nat
  then Err (EpFail "'starts' and 'ends' must have at least as many elements as 'axes'")
  else
  let* st := foldM (slice_axis raw_starts raw_ends axes raw_steps input_dimensions) (seq 0 axes_count)
               ([], new_metadata input_dimensions) in
  Ok st.2.

(** [ComputeSliceZeroDimDecision]: whether no node is built. *)
Definition ComputeSliceZeroDimDecision (is_htp can_elide : bool) (m : PrepareForComputeMetadata) : result bool :=
  if negb is_htp then Ok false
  else if negb (existsb (Z.eqb 0) (output_dims_ m)) then Ok false
  else if negb can_elide then Err (EpFail "QNN HTP's StridedSlice rejects a zero-sized output dimension")
  else Ok true.

(** The parameter of the StridedSlice, as [uint32_t]. *)
Definition ranges_data (m : PrepareForComputeMetadata) (input_rank : nat) : result (list Z) :=
  foldM (fun acc i =>
    let* start := aget (starts_ m) i in
    let* stop := aget (ends_ m) i in
    let* step := aget (steps_ m) i in
    Ok (acc ++ [u32 start; u32 stop; u32 step])) (seq 0 input_rank) [].

End Slice.

(** *** What the range selects *)
Module SliceSpec.
Import Slice.

(** The indices of a strided range, in order. *)
Definition strided (start stop step : Z) : list Z :=
  (fun k => start + Z.of_nat k * step) <$> seq 0 (Z.to_nat (ceil_div (stop - start) step)).

(** The indices that the Slice of ONNX selects on an axis of size [d]: bounds are relative to
    the end when negative and limited to the axis; [INT_MAX] as the end takes all that follows. *)
Definition onnx_start (d start step : Z) : Z :=
  let s := if start <? 0 then start + d else start in Z.max 0 (Z.min s (if 0 <? step then d else d - 1)).
Definition onnx_stop (d stop step : Z) : Z :=
  if is_int_max stop then if 0 <? step then d else -1
  else let e := if stop <? 0 then stop + d else stop in
       if 0 <? step then Z.max 0 (Z.min e d) else Z.max (-1) (Z.min e (d - 1)).
Definition onnx_selects (d start stop step j : Z) : Prop :=
  ∃ k, 0 ≤ k ∧ j = onnx_start d start step + k * step ∧
    if 0 <? step then j < onnx_stop d stop step else onnx_stop d stop step < j.

Ltac zcases := repeat (match goal with |- context [?a <? ?b] => destruct (Z.ltb_spec a b) end; cbn [negb]); try (split_and!; first [done|lia]); try lia.

Lemma div_lt_iff a b k : 0 < b → a / b < k ↔ a < k * b.
Proof.
  intros Hb. split; intros H.
  - pose proof (Z.div_mod a b). pose proof (Z.mod_pos_bound a b). nia.
  - apply Z.div_lt_upper_bound; lia.
Qed.

Lemma ceil_div_lt a step k : step ≠ 0 → k < ceil_div a step ↔ if 0 <? step then k * step < a else a < k * step.
Proof.
  intros Hs. unfold ceil_div. destruct (Z.ltb_spec 0 step).
  - rewrite <- (Z.opp_involutive k) at 1. rewrite <- Z.opp_lt_mono, div_lt_iff by lia. lia.
  - replace step with (- - step) at 1 by lia. rewrite Z.div_opp_opp by lia.
    rewrite <- (Z.opp_involutive k) at 1. rewrite <- Z.opp_lt_mono, div_lt_iff by lia. lia.
Qed.

Lemma strided_elem start stop step j : step ≠ 0 →
  j ∈ strided start stop step ↔ ∃ k, 0 ≤ k ∧ j = start + k * step ∧ if 0 <? step then j < stop else stop < j.
Proof.
  intros Hs. unfold strided. rewrite list_elem_of_fmap. split.
  - intros (k & -> & Hk%elem_of_seq). exists (Z.of_nat k). split_and!; [lia|done|].
    assert (Z.of_nat k < ceil_div (stop - start) step) as Hk'%ceil_div_lt by lia; [|done]. destruct (0 <? step); lia.
  - intros (k & Hk & -> & Hb). exists (Z.to_nat k). rewrite Z2Nat.id by lia. split; [done|]. apply elem_of_seq.
    assert (k < ceil_div (stop - start) step); [|lia]. apply ceil_div_lt; [done|]. destruct (0 <? step); lia.
Qed.

Lemma strided_length start stop step :
  length (strided start stop step) = Z.to_nat (ceil_div (stop - start) step).
Proof. unfold strided. by rewrite length_fmap, length_seq. Qed.

Lemma axis_range_spec d start stop step s e st n : 0 ≤ d → step ≠ 0 →
  axis_range d start stop step = (s, e, st, n) →
  st ≠ 0 ∧ n = Z.of_nat (length (strided s e st)) ∧ (∀ j, j ∈ strided s e st → 0 ≤ j < d) ∧
  (∀ j, j ∈ strided s e st ↔ d ≠ 0 ∧ onnx_selects d start stop step j) ∧
  0 ≤ s ≤ d ∧ -1 ≤ e ≤ d ∧ (d ≠ 0 → - d ≤ st ≤ d).
Proof.
  intros Hd Hs. unfold axis_range. destruct (Z.eqb_spec d 0) as [->|Hd0].
  { intros E. injection E as <- <- <- <-. assert (∀ j, j ∉ strided 0 0 step) as Hno.
    { intros j. rewrite strided_elem by done. intros (k & Hk & -> & Hb). destruct (Z.ltb_spec 0 step); nia. }
    split_and!; try lia; [|intros j Hj; by destruct (Hno j)|intros j; split; [intros Hj; by destruct (Hno j)|by intros []]].
    rewrite strided_length. done. }
  set (st' := clamp step (- d) d). intros E. injection E as Es0 Ee0 Est <-. symmetry in Est. subst st. rewrite Es0, Ee0.
  assert (st' ≠ 0 ∧ - d ≤ st' ≤ d ∧ (0 <? st') = (0 <? step) ∧ (st' <? 0) = negb (0 <? step) ∧ (st' = step ∨ d ≤ Z.abs st' ∧ d < Z.abs step))
    as (H1 & H2 & H3 & H4 & H5).
  { unfold st', clamp. clear -Hd Hd0 Hs. zcases. }
  rewrite H4 in Es0, Ee0.
  assert (s = onnx_start d start step) as Es.
  { rewrite <- Es0. unfold onnx_start, clamp. clear -Hd Hd0. zcases. }
  assert (e = onnx_stop d stop step ∨ 0 <? step = false ∧ e = d ∧ onnx_stop d stop step = d - 1) as Ee.
  { rewrite <- Ee0. unfold onnx_stop, clamp. clear -Hd Hd0. destruct (is_int_max stop); zcases. }
  assert (0 ≤ s ≤ d ∧ -1 ≤ e ≤ d ∧ (0 <? step = false → s < d) ∧ (0 <? step = true → 0 ≤ e)) as (Hs1 & He1 & Hs2 & He2).
  { rewrite <- Es0, <- Ee0. unfold clamp. clear -Hd Hd0. destruct (is_int_max stop); zcases. }
  clear Es0 Ee0.
  clearbody st'.
  assert (∀ j, j ∈ strided s e st' → 0 ≤ j < d) as Hin.
  { intros j. rewrite strided_elem by done. rewrite H3. intros (k & Hk & -> & Hb).
    destruct (Z.ltb_spec 0 step); rewrite ?Z.ltb_lt, ?Z.ltb_ge in *; nia. }
  split_and!; try done; try lia.
  - rewrite strided_length. unfold ceil_div. case_match; rewrite ?Z.ltb_lt, ?Z.ltb_ge in *; lia.
  - intros j. rewrite strided_elem by done. rewrite H3. unfold onnx_selects. rewrite <- Es.
    assert (∀ j, (if 0 <? step then j < e else e < j) → (j < d) → (if 0 <? step then j < onnx_stop d stop step else onnx_stop d stop step < j)) as Hto.
    { intros j' Hj ?. destruct Ee as [->|(E1 & E2 & E3)]; [done|]. rewrite E1 in *. lia. }
    assert (∀ j, (if 0 <? step then j < onnx_stop d stop step else onnx_stop d stop step < j) → j < d → (if 0 <? step then j < e else e < j)) as Hfrom.
    { intros j' Hj ?. destruct Ee as [->|(E1 & E2 & E3)]; [done|]. rewrite E1 in *. lia. }
    split.
    + intros (k & Hk & -> & Hb). split; [done|].
      assert (s + k * st' < d) by (destruct (Z.ltb_spec 0 step); rewrite ?Z.ltb_lt, ?Z.ltb_ge in *; nia).
      exists k. apply Hto in Hb; [|done]. destruct H5 as [<-|[H5 H5']]; [done|].
      assert (k = 0) as ->; [destruct (Z.ltb_spec 0 step); rewrite ?Z.ltb_lt, ?Z.ltb_ge in *; nia|].
      rewrite Z.mul_0_l in *. split_and!; [lia|lia|done].
    + intros (_ & k & Hk & -> & Hb).
      assert (s + k * step < d) as Hlt.
      { destruct (Z.ltb_spec 0 step); rewrite ?Z.ltb_lt, ?Z.ltb_ge in *; [|nia]. destruct Ee as [E1|(E1 & _)]; [lia|done]. }
      exists k. apply Hfrom in Hb; [|done]. destruct H5 as [<-|[H5 H5']]; [done|].
      assert (k = 0) as ->; [destruct (Z.ltb_spec 0 step); rewrite ?Z.ltb_lt, ?Z.ltb_ge in *; nia|].
      rewrite Z.mul_0_l in *. split_and!; [lia|lia|done].
Qed.

Section Run.
Context (raw_starts raw_ends raw_axes raw_steps dims : list Z).
Let axes := slice_axes raw_starts raw_axes.
Let n := Z.of_nat (length dims).

Definition norm_axis (a : Z) : Z := if a <? 0 then a + n else a.
Definition axis_step (k : nat) : Z := default 1 (raw_steps !! k).

(** The inputs of a Slice that ONNX allows. *)
Definition valid_slice : Prop :=
  (length axes ≤ length raw_starts)%nat ∧ (length axes ≤ length raw_ends)%nat ∧
  (∀ k a, axes !! k = Some a → 0 ≤ norm_axis a < n ∧ axis_step k ≠ 0) ∧
  (∀ k k' a a', axes !! k = Some a → axes !! k' = Some a' → norm_axis a = norm_axis a' → k = k').

Definition row (m : PrepareForComputeMetadata) (i : nat) (r : Z * Z * Z * Z) : Prop :=
  starts_ m !! i = Some r.1.1.1 ∧ ends_ m !! i = Some r.1.1.2 ∧ steps_ m !! i = Some r.1.2 ∧ output_dims_ m !! i = Some r.2.

Definition sized_meta (m : PrepareForComputeMetadata) : Prop :=
  length (starts_ m) = length dims ∧ length (ends_ m) = length dims ∧
  length (steps_ m) = length dims ∧ length (output_dims_ m) = length dims.

Lemma set_axis_spec m i r : sized_meta m → (i < length dims)%nat →
  ∃ m', set_axis m i r = Ok m' ∧ sized_meta m' ∧ row m' i r ∧ ∀ i' r', i' ≠ i → row m' i' r' ↔ row m i' r'.
Proof.
  destruct r as [[[a b] c] d]. intros (H1 & H2 & H3 & H4) Hi. unfold set_axis. rewrite !aset_lt by lia. cbn [rbind].
  eexists. split; [done|]. unfold sized_meta, row. cbn. rewrite !length_insert. split_and!; try done.
  - by rewrite list_lookup_insert_eq by lia.
  - by rewrite list_lookup_insert_eq by lia.
  - by rewrite list_lookup_insert_eq by lia.
  - by rewrite list_lookup_insert_eq by lia.
  - intros i' r' Hne. by rewrite !list_lookup_insert_ne by done.
Qed.

(** After the axes [done]. *)
Record visited (done : list nat) (st : list Z * PrepareForComputeMetadata) : Prop := {
  visited_axes : ∀ x, x ∈ st.1 ↔ ∃ k a, k ∈ done ∧ axes !! k = Some a ∧ norm_axis a = x;
  visited_sized : sized_meta st.2;
  visited_row : ∀ k a i d start stop, k ∈ done → axes !! k = Some a → norm_axis a = Z.of_nat i → dims !! i = Some d →
    raw_starts !! k = Some start → raw_ends !! k = Some stop → row st.2 i (axis_range d start stop (axis_step k));
  visited_other : ∀ i d, dims !! i = Some d → (∀ k a, k ∈ done → axes !! k = Some a → norm_axis a ≠ Z.of_nat i) →
    row st.2 i (0, d, 1, d);
  visited_valid : ∀ k a, k ∈ done → axes !! k = Some a → 0 ≤ norm_axis a < n ∧ axis_step k ≠ 0;
  visited_distinct : ∀ k k' a a', k ∈ done → k' ∈ done → axes !! k = Some a → axes !! k' = Some a' →
    norm_axis a = norm_axis a' → k = k'
}.

Lemma visited_nil : visited [] ([], new_metadata dims).
Proof.
  split; cbn; try (intros; by apply elem_of_nil in H).
  - intros x. split; [by intros ?%elem_of_nil|]. intros (k & a & Hk & _). by apply elem_of_nil in Hk.
  - unfold sized_meta. cbn. by rewrite !length_replicate.
  - intros i d Hi _. pose proof (lookup_lt_Some _ _ _ Hi). unfold row. cbn.
    by rewrite !(proj2 (lookup_replicate _ _ _ _)) by done.
Qed.

Lemma visit_axis done st k a start stop : visited done st → axes !! k = Some a →
  raw_starts !! k = Some start → raw_ends !! k = Some stop →
  match slice_axis raw_starts raw_ends axes raw_steps dims st k with
  | Ok st' => visited (done ++ [k]) st'
  | Err e => e ≠ Trap ∧ ¬ (0 ≤ norm_axis a < n ∧ norm_axis a ∉ st.1 ∧ axis_step k ≠ 0)
  end.
Proof.
  destruct st as [u m]. intros Hv Ha Hs He. unfold slice_axis.
  rewrite (proj2 (aget_Ok _ _ _) Ha). cbn [rbind]. fold n. fold (norm_axis a). fold (axis_step k).
  destruct (Z.leb_spec n (norm_axis a)); [cbn; split; [done|lia]|].
  destruct (Z.ltb_spec (norm_axis a) 0); [cbn; split; [done|lia]|]. cbn [orb].
  case_bool_decide as Hu; [cbn; split; [done|naive_solver]|].
  destruct (lookup_lt_is_Some_2 dims (Z.to_nat (norm_axis a))) as [d Hd]; [lia|].
  rewrite (proj2 (aget_Ok _ _ _) Hd). cbn [rbind].
  destruct (Z.eqb_spec (axis_step k) 0); [cbn; split; [done|naive_solver]|].
  rewrite (proj2 (aget_Ok _ _ _) Hs), (proj2 (aget_Ok _ _ _) He). cbn [rbind].
  destruct (set_axis_spec m (Z.to_nat (norm_axis a)) (axis_range d start stop (axis_step k)) (visited_sized _ _ Hv))
    as (m' & -> & Hsz & Hrow & Hother); [lia|]. cbn [rbind].
  assert (∀ k' a', k' ∈ done → axes !! k' = Some a' → norm_axis a' ≠ norm_axis a) as Hnew.
  { intros k' a' Hk' Ha' E. apply Hu. apply (visited_axes _ _ Hv). by exists k', a'. }
  split; cbn [fst snd].
  - intros x. rewrite elem_of_cons, (visited_axes _ _ Hv x). cbn. setoid_rewrite elem_of_app. setoid_rewrite list_elem_of_singleton.
    split; [intros [->|(k' & a' & ? & ? & ?)]; [by exists k, a; auto|by exists k', a'; auto]|].
    intros (k' & a' & [Hk'| ->] & Ha' & <-); [right; by exists k', a'|left; congruence].
  - done.
  - intros k' a' i d' st1 sp1 [Hk'|Hk']%elem_of_app Ha' Hi Hd' Hs' He'.
    + apply Hother; [|by eapply (visited_row _ _ Hv)]. pose proof (Hnew _ _ Hk' Ha'). lia.
    + apply list_elem_of_singleton in Hk' as ->. rewrite Ha in Ha'. injection Ha' as <-.
      assert (i = Z.to_nat (norm_axis a)) as -> by lia. by simplify_eq.
  - intros i d' Hd' Hno. apply Hother.
    + intros ->. apply (Hno k a); [set_solver|done|lia].
    + apply (visited_other _ _ Hv); [done|]. intros k' a' Hk'. apply Hno. set_solver.
  - intros k' a' [Hk'|Hk']%elem_of_app Ha'; [by eapply (visited_valid _ _ Hv)|].
    apply list_elem_of_singleton in Hk' as ->. rewrite Ha in Ha'. injection Ha' as <-. split; [lia|done].
  - intros k1 k2 a1 a2 H1 H2 E1 E2 En. apply elem_of_app in H1, H2. rewrite !list_elem_of_singleton in *.
    destruct H1 as [H1| ->], H2 as [H2| ->]; [by eapply (visited_distinct _ _ Hv)|..|done].
    + rewrite Ha in E2. injection E2 as <-. by destruct (Hnew _ _ H1 E1).
    + rewrite Ha in E1. injection E1 as <-. by destruct (Hnew _ _ H2 E2).
Qed.

Lemma visit_axes rest done st : (length axes ≤ length raw_starts)%nat → (length axes ≤ length raw_ends)%nat →
  visited done st → NoDup (done ++ rest) → (∀ k, k ∈ rest → (k < length axes)%nat) →
  match foldM (slice_axis raw_starts raw_ends axes raw_steps dims) rest st with
  | Ok st' => visited (done ++ rest) st'
  | Err e => e ≠ Trap ∧ ¬ valid_slice
  end.
Proof.
  intros Hl1 Hl2. revert done st. induction rest as [|k rest IH]; intros done st Hv Hnd Hlt; [by rewrite app_nil_r|].
  assert (k < length axes)%nat as Hk by (apply Hlt; by left).
  destruct (lookup_lt_is_Some_2 axes k Hk) as [a Ha]. destruct (lookup_lt_is_Some_2 raw_starts k) as [b Hb]; [lia|].
  destruct (lookup_lt_is_Some_2 raw_ends k) as [c Hc]; [lia|]. pose proof (visit_axis done st k a b c Hv Ha Hb Hc) as Hstep.
  cbn [foldM]. destruct (slice_axis _ _ _ _ _ _ _) as [st'|e]; cbn [rbind].
  - replace (done ++ k :: rest) with ((done ++ [k]) ++ rest) in * by (by rewrite <- app_assoc). apply IH; [done|done|]. intros k' Hk'. apply Hlt. by right.
  - destruct Hstep as [He Hno]. split; [done|]. intros (_ & _ & Hval & Hdist). apply Hno.
    destruct (Hval k a Ha) as [Hr Hs]. split_and!; [lia|lia| |done]. intros Hin.
    apply (visited_axes _ _ Hv) in Hin as (k' & a' & Hk' & Ha' & E).
    rewrite (Hdist k' k a' a Ha' Ha E) in Hk'. apply NoDup_app in Hnd as (_ & Hnd & _). apply (Hnd k Hk'). by left.
Qed.

Lemma slice_run :
  match PrepareForComputeHelper raw_starts raw_ends raw_axes raw_steps dims with
  | Ok m => valid_slice ∧ ∃ u, visited (seq 0 (length axes)) (u, m)
  | Err e => e ≠ Trap ∧ ¬ valid_slice
  end.
Proof.
  unfold PrepareForComputeHelper. fold axes.
  destruct (Nat.ltb_spec (length raw_starts) (length axes)); [cbn; split; [done|]; unfold valid_slice; lia|].
  destruct (Nat.ltb_spec (length raw_ends) (length axes)); [cbn; split; [done|]; unfold valid_slice; lia|]. cbn [orb].
  assert (∀ k, k ∈ seq 0 (length axes) → (k < length axes)%nat) as Hlt by (intros k ?%elem_of_seq; lia).
  pose proof (visit_axes (seq 0 (length axes)) [] _ ltac:(lia) ltac:(lia) visited_nil (NoDup_seq _ _) Hlt) as Hrun. cbn [app] in Hrun.
  destruct (foldM _ _ _) as [[u m]|e]; cbn [rbind snd]; [|done]. split; [|by exists u]. split_and!; [lia|lia|..].
  - intros k a Ha. apply (visited_valid _ _ Hrun); [|done]. apply elem_of_seq. apply lookup_lt_Some in Ha. lia.
  - intros k k' a a' Ha Ha'. apply (visited_distinct _ _ Hrun); [..|done|done]; apply elem_of_seq; [apply lookup_lt_Some in Ha|apply lookup_lt_Some in Ha']; lia.
Qed.
End Run.

(** The triples of the parameter, read back as [int32_t]. *)
Lemma ranges_spec m rank : (rank ≤ length (starts_ m))%nat → (rank ≤ length (ends_ m))%nat → (rank ≤ length (steps_ m))%nat →
  ∃ data, ranges_data m rank = Ok data ∧ length data = (3 * rank)%nat ∧
    ∀ i s e t, (i < rank)%nat → starts_ m !! i = Some s → ends_ m !! i = Some e → steps_ m !! i = Some t →
      data !! (3 * i)%nat = Some (u32 s) ∧ data !! (3 * i + 1)%nat = Some (u32 e) ∧ data !! (3 * i + 2)%nat = Some (u32 t).
Proof.
  intros H1 H2 H3. unfold ranges_data. induction rank as [|rank IH]; [exists []; split_and!; [done..|]; intros; lia|].
  destruct IH as (data & Hd & Hl & Hrows); [lia..|]. rewrite foldM_seq_S, Hd. cbn [rbind].
  destruct (aget_lt (starts_ m) rank) as (s & -> & Hs); [lia|]. destruct (aget_lt (ends_ m) rank) as (e & -> & He); [lia|].
  destruct (aget_lt (steps_ m) rank) as (t & -> & Ht); [lia|]. cbn [rbind]. eexists. split; [done|].
  rewrite length_app, Hl. split; [cbn; lia|]. intros i s' e' t' Hi Hs' He' Ht'.
  destruct (decide (i = rank)) as [->|Hne].
  - simplify_eq. rewrite !lookup_app_r by lia. rewrite Hl, Nat.sub_diag.
    replace (3 * rank + 1 - 3 * rank)%nat with 1%nat by lia. by replace (3 * rank + 2 - 3 * rank)%nat with 2%nat by lia.
  - rewrite !lookup_app_l by lia. apply (Hrows i); [lia|done..].
Qed.

End SliceSpec.

Import Slice SliceSpec.

Lemma strided_same s t : strided s s t = [].
Proof. unfold strided, ceil_div. rewrite Z.sub_diag. by destruct t. Qed.

Lemma i32_u32 x : - 2 ^ 31 ≤ x < 2 ^ 31 → i32 (u32 x) = x.
Proof. intros Hx. rewrite wraps_wrapu. apply wraps_id; [lia|]. unfold in_s. cbn. lia. Qed.

(** One row of the metadata as the parameter of the StridedSlice holds it. *)
Lemma row_read_back d start stop step s e t n : 0 ≤ d < 2 ^ 31 → step ≠ 0 → axis_range d start stop step = (s, e, t, n) →
  let sel := strided (i32 (u32 s)) (i32 (u32 e)) (i32 (u32 t)) in
  n = Z.of_nat (length sel) ∧ (∀ j, j ∈ sel → 0 ≤ j < d) ∧ ∀ j, j ∈ sel ↔ d ≠ 0 ∧ onnx_selects d start stop step j.
Proof.
  intros Hd Hs Hr. destruct (axis_range_spec d start stop step s e t n) as (H1 & H2 & H3 & H4 & H5 & H6 & H7); [lia|done|done|].
  cbn zeta. rewrite (i32_u32 s), (i32_u32 e) by lia. destruct (decide (d = 0)) as [->|Hd0].
  - unfold axis_range in Hr. cbn in Hr. injection Hr as <- <- <- <-. rewrite strided_same.
    split_and!; [done|by intros j ?%elem_of_nil|]. intros j. rewrite elem_of_nil. naive_solver.
  - rewrite (i32_u32 t) by (specialize (H7 Hd0); lia). done.
Qed.

Lemma full_row d : 0 ≤ d < 2 ^ 31 → let sel := strided (i32 (u32 0)) (i32 (u32 d)) (i32 (u32 1)) in
  d = Z.of_nat (length sel) ∧ ∀ j, j ∈ sel ↔ 0 ≤ j < d.
Proof.
  intros Hd. cbn zeta. rewrite !i32_u32 by lia. split.
  - rewrite strided_length. unfold ceil_div. rewrite Z.div_1_r. lia.
  - intros j. rewrite strided_elem by done. cbn. split; [intros (k & ? & -> & ?); lia|]. intros ?. exists j. lia.
Qed.

(** C31: [PrepareForComputeHelper] fails exactly on the inputs that ONNX does not allow (an axis out of
    range or repeated, a zero step, missing bounds).  Otherwise the ranges that the StridedSlice
    receives, read as [int32_t], select on every listed axis exactly the indices that Slice selects,
    on every other axis all indices, never one outside the axis, and the computed output dimension is
    the number of selected indices. *)
Theorem slice_ranges_sound (raw_starts raw_ends raw_axes raw_steps dims : list Z) :
  Forall (fun d => 0 ≤ d < 2 ^ 31) dims →
  match PrepareForComputeHelper raw_starts raw_ends raw_axes raw_steps dims with
  | Err e => e ≠ Trap ∧ ¬ valid_slice raw_starts raw_ends raw_axes raw_steps dims
  | Ok m => valid_slice raw_starts raw_ends raw_axes raw_steps dims ∧
      ∃ data, ranges_data m (length dims) = Ok data ∧ ∀ i d, dims !! i = Some d →
        ∃ s e t n, data !! (3 * i)%nat = Some s ∧ data !! (3 * i + 1)%nat = Some e ∧ data !! (3 * i + 2)%nat = Some t ∧
          output_dims_ m !! i = Some n ∧
          let sel := strided (i32 s) (i32 e) (i32 t) in
          n = Z.of_nat (length sel) ∧ (∀ j, j ∈ sel → 0 ≤ j < d) ∧
          (∀ k a start stop, slice_axes raw_starts raw_axes !! k = Some a → norm_axis dims a = Z.of_nat i →
             raw_starts !! k = Some start → raw_ends !! k = Some stop →
             ∀ j, j ∈ sel ↔ d ≠ 0 ∧ onnx_selects d start stop (axis_step raw_steps k) j) ∧
          ((∀ k a, slice_axes raw_starts raw_axes !! k = Some a → norm_axis dims a ≠ Z.of_nat i) →
             ∀ j, j ∈ sel ↔ 0 ≤ j < d)
  end.
Proof.
  intros Hdims. pose proof (slice_run raw_starts raw_ends raw_axes raw_steps dims) as Hrun.
  destruct (PrepareForComputeHelper _ _ _ _ _) as [m|e]; [|done]. destruct Hrun as [Hval (u & Hv)]. split; [done|].
  destruct (visited_sized _ _ _ _ _ _ _ Hv) as (Hl1 & Hl2 & Hl3 & Hl4). cbn in Hl1, Hl2, Hl3, Hl4.
  destruct (ranges_spec m (length dims)) as (data & Hdata & _ & Hrows); [lia..|]. exists data. split; [done|].
  intros i d Hd. pose proof (lookup_lt_Some _ _ _ Hd) as Hi. rewrite Forall_lookup in Hdims. specialize (Hdims _ _ Hd).
  destruct (decide (Exists (fun a => norm_axis dims a = Z.of_nat i) (slice_axes raw_starts raw_axes))) as [Hex|Hex].
  - apply Exists_exists in Hex as (a & Hin & Hna). apply list_elem_of_lookup in Hin as [k Ha].
    pose proof (lookup_lt_Some _ _ _ Ha) as Hk. destruct Hval as (Hv1 & Hv2 & Hv3 & Hv4).
    destruct (lookup_lt_is_Some_2 raw_starts k) as [start Hs]; [lia|]. destruct (lookup_lt_is_Some_2 raw_ends k) as [stop He]; [lia|].
    destruct (Hv3 k a Ha) as [_ Hstep].
    pose proof (visited_row _ _ _ _ _ _ _ Hv k a i d start stop ltac:(apply elem_of_seq; lia) Ha Hna Hd Hs He) as (R1 & R2 & R3 & R4).
    destruct (axis_range d start stop (axis_step raw_steps k)) as [[[s e] t] n] eqn:Er. cbn in R1, R2, R3, R4.
    destruct (Hrows i s e t Hi R1 R2 R3) as (D1 & D2 & D3). exists (u32 s), (u32 e), (u32 t), n.
    destruct (row_read_back _ _ _ _ _ _ _ _ Hdims Hstep Er) as (E1 & E2 & E3). cbn zeta.
    split_and!; [done|done|done|done|done|done| |].
    + intros k' a' start' stop' Ha' Hna' Hs' He' j. assert (k' = k) as -> by (eapply Hv4; [done|done|congruence]). simplify_eq. apply E3.
    + intros Hno. by destruct (Hno k a Ha).
  - pose proof (visited_other _ _ _ _ _ _ _ Hv i d Hd) as (R1 & R2 & R3 & R4).
    { intros k a _ Ha Hna. apply Hex. apply Exists_exists. exists a. split; [by eapply list_elem_of_lookup_2|done]. }
    cbn in R1, R2, R3, R4. destruct (Hrows i 0 d 1 Hi R1 R2 R3) as (D1 & D2 & D3). exists (u32 0), (u32 d), (u32 1), d.
    destruct (full_row d Hdims) as [E1 E2]. cbn zeta.
    split_and!; [done|done|done|done|done|intros j; by rewrite E2| |done].
    intros k a start stop Ha Hna. destruct Hex. apply Exists_exists. exists a. split; [by eapply list_elem_of_lookup_2|done].
Qed.

(** A [5 x 10] tensor, every third column backwards from the last but one. *)
Lemma slice_ranges_sound_witness :
  ∃ m, PrepareForComputeHelper [-2] [-100] [-1] [-3] [5; 10] = Ok m ∧
    ∃ data, ranges_data m 2 = Ok data ∧ ∃ s e t n, data !! 3%nat = Some s ∧ data !! 4%nat = Some e ∧ data !! 5%nat = Some t ∧
      output_dims_ m !! 1%nat = Some n ∧ ∀ j, j ∈ strided (i32 s) (i32 e) (i32 t) ↔ 10 ≠ 0 ∧ onnx_selects 10 (-2) (-100) (-3) j.
Proof.
  pose proof (slice_ranges_sound [-2] [-100] [-1] [-3] [5; 10] ltac:(repeat constructor; lia)) as H.
  eexists. split; [reflexivity|]. destruct H as (_ & data & Hd & H). exists data. split; [exact Hd|].
  destruct (H 1%nat 10 eq_refl) as (s & e & t & n & H1 & H2 & H3 & H4 & _ & _ & H5 & _).
  exists s, e, t, n. split_and!; [done|done|done|done|]. apply (H5 0%nat (-1) (-2) (-100)); done.
Defined.

(** ** Pad *)

Module Pad.

(** [SafeInt<uint32_t>] of an [int64_t] *)
Definition safe_u32 (v : Z) : result Z :=
  if (0 <=? v) && (v <? 2 ^ 32) then Ok v else Err (Throw "SafeInt").

Fixpoint pad_amounts (tensor_data : list Z) : result (list Z) :=
  match tensor_data with
  | [] => Ok []
  | item :: tensor_data =>
      let* p := if item <? 0 then Ok 0 else safe_u32 item in
      let* ps := pad_amounts tensor_data in
      Ok (p :: ps)
  end.

(** In place: [begin_0, begin_1, ..., end_0, end_1, ...] to [begin_0, end_0, begin_1, end_1, ...]. *)
Definition ReArrangePads (pads : list Z) : result (list Z) :=
  let middle_pos := (length pads / 2)%nat in
  let first_half := take middle_pos pads in
  foldM (fun pads i =>
    let* a := aget first_half i in
    let* pads := aset pads (2 * i) a in
    let* b := aget pads (middle_pos + i) in
    aset pads (2 * i + 1) b) (seq 0 middle_pos) pads.

(** The parameters of the Pad node, and of the StridedSlice that follows it. *)
Record PadPlan := Plan {
  pad_amount : list Z;
  has_positive : bool;
  slice_ranges : option (list Z * list Z)  (** the padded shape and the ranges *)
}.

Definition check_reflect (pad_amount input_shape : list Z) : result unit :=
  foldM (fun _ i =>
    let* d := aget input_shape i in
    let* b := aget pad_amount (2 * i) in
    let* a := aget pad_amount (2 * i + 1) in
    return_if ((u32 (d - 1) <? b) || (u32 (d - 1) <? a)) "Pad amount should not be greater than shape(input[0])[i] - 1")
    (seq 0 (length input_shape)) tt.

Definition check_mode (mode : string) (pad_amount input_shape : list Z) : result unit :=
  if bool_decide (mode = "constant") then Ok tt
  else if bool_decide (mode = "reflect") then check_reflect pad_amount input_shape
  else if bool_decide (mode = "edge") then Ok tt
  else Err (EpFail "Pad mode only support constant.").

Definition pad_output_shape (pad_amount input_shape : list Z) : result (list Z) :=
  foldM (fun acc i =>
    let* d := aget input_shape i in
    let* b := aget pad_amount (2 * i) in
    let* a := aget pad_amount (2 * i + 1) in
    Ok (acc ++ [u32 (d + b + a)])) (seq 0 (length input_shape)) [].

Definition negative_ranges (tensor_data padded_shape : list Z) (input_rank : nat) : result (list Z) :=
  let slice_amount := (fun item => if 0 <? item then 0 else item) <$> tensor_data in
  foldM (fun acc i =>
    let* b := aget slice_amount i in
    let* d := aget padded_shape i in
    let* a := aget slice_amount (i + input_rank) in
    Ok (acc ++ [u32 (0 - b); u32 (d + a); 1])) (seq 0 input_rank) [].

Definition pad_plan (mode : string) (tensor_data input_shape : list Z) : result PadPlan :=
  let has_negative := existsb (fun item => item <? 0) tensor_data in
  let has_positive := existsb (fun item => 0 <=? item) tensor_data in
  let* pads := pad_amounts tensor_data in
  let* pads := ReArrangePads pads in
  let* _ := return_if (bool_decide (mode = "reflect") && has_negative) "reflect mode doesn't support negative padding value." in
  let* _ := check_mode mode pads input_shape in
  if negb has_negative then Ok (Plan pads has_positive None)
  else
  let* shape := pad_output_shape pads input_shape in
  let* ranges := negative_ranges tensor_data shape (length input_shape) in
  Ok (Plan pads has_positive (Some (shape, ranges))).

End Pad.

(** ** Pools *)

Module Pool.

Record PoolAttributes := {
  kernel_shape : option (list Z);
  strides : option (list Z);
  dilations : option (list Z);
  pads : option (list Z);
  auto_pad : string;
  ceil_mode : option Z
}.

Record PoolParams := Params {
  filter_size : list Z;
  stride : list Z;
  dilation : list Z;
  pad_amount : list Z;
  rounding_mode : Z
}.

(** A one-dimensional attribute for a tensor with a unit height. *)
Definition widen (raw : list Z) : list Z := match raw with [x] => [1; x] | _ => raw end.
Definition widen_pads (raw : list Z) : list Z := match raw with [a; b] => [0; a; 0; b] | _ => raw end.

Definition same_pads (upper : bool) (input_shape output_shape filter_size stride dilation : list Z) (spatial_rank : nat)
    (pad_amount : list Z) (axis : nat) : result (list Z) :=
  let* o := aget output_shape (axis + 1) in
  let* s := aget stride axis in
  let* f := aget filter_size axis in
  let* d := aget dilation axis in
  let* i := aget input_shape (axis + 1) in
  let total_pads := u32 ((o - 1) * s + (f - 1) * d + 1 - i) in
  if upper then
    let* pads := aset pad_amount axis (total_pads / 2) in
    aset pads (axis + spatial_rank) (u32 (total_pads - total_pads / 2))
  else
    let* pads := aset pad_amount (axis + spatial_rank) (total_pads / 2) in
    aset pads axis (u32 (total_pads - total_pads / 2)).

Definition ResolvePoolAttributes (attrs : PoolAttributes) (input_shape output_shape : list Z) (rounding_mode : Z) : result PoolParams :=
  let spatial_rank := (length input_shape - 2)%nat in
  let filter_size := widen (default (replicate spatial_rank 1) (kernel_shape attrs)) in
  let stride := widen (default (replicate spatial_rank 1) (strides attrs)) in
  let dilation := widen (default (replicate spatial_rank 1) (dilations attrs)) in
  let pad_amount := widen_pads (default (replicate (spatial_rank * 2) 0) (pads attrs)) in
  let* pad_amount :=
    if bool_decide (auto_pad attrs = "SAME_UPPER") || bool_decide (auto_pad attrs = "SAME_LOWER") then
      foldM (same_pads (bool_decide (auto_pad attrs = "SAME_UPPER")) input_shape output_shape filter_size stride dilation spatial_rank)
        (seq 0 spatial_rank) pad_amount
    else Ok pad_amount in
  Ok (Params filter_size stride dilation pad_amount (default rounding_mode (ceil_mode attrs))).

End Pool.

(** ** Split *)

Module Split.

(** The position [split_it] is a [uint32_t]. *)
Fixpoint split_indices (first : bool) (split_it : Z) (split_lengths : list Z) : result (list Z) :=
  match split_lengths with
  | [] => Ok []
  | len :: split_lengths =>
      let* n := Pad.safe_u32 len in
      let* rest := split_indices false (u32 (split_it + n)) split_lengths in
      Ok (if first then rest else split_it :: rest)
  end.
Definition ConvertSplitLengthsToSplitIndices (split_lengths : list Z) : result (list Z) := split_indices true 0 split_lengths.

(** [SafeInt<uint32_t>(std::ceil(x))] *)
Definition ceil_u32 (x : float) : result Z :=
  match x with
  | S754_zero _ => Ok 0
  | S754_finite s m e =>
      let z := if s then Z.neg m else Z.pos m in
      Pad.safe_u32 (if 0 <=? e then z * 2 ^ e else - (- z / 2 ^ (- e)))
  | _ => Err (Throw "SafeInt")
  end.

(** Equal parts, for [num_outputs] outputs. *)
Definition equal_split (dim : Z) (num_outputs : nat) : result (list Z) :=
  let* step := ceil_u32 (f32_div (f32_of_Z dim) (f32_of_Z (Z.of_nat num_outputs))) in
  Ok ((fun i => u32 (Z.of_nat i * step)) <$> seq 1 (num_outputs - 1)).

End Split.

(** ** Indices of Gather and Scatter *)

Module Indices.

(** An element of [sizeof(SrcType)] bytes, [size] of 4 or 8. *)
Definition read_index (size : nat) (onnx_bytes : list Z) (i : nat) : Z :=
  wraps (8 * Z.of_nat size) (le_decode (element size onnx_bytes i)).

Fixpoint normalize_indices (axis_dim_for_element : nat → Z) (read : nat → Z) (i n : nat) (has_negative_indices : bool)
  : option (list Z) * bool :=
  match n with
  | O => (Some [], has_negative_indices)
  | S n =>
      let axis_dim := axis_dim_for_element i in
      let idx := read i in
      let has_negative_indices := has_negative_indices || (idx <? 0) in
      let idx := if idx <? 0 then idx + axis_dim else idx in
      if (idx <? 0) || (axis_dim <=? idx) || (2 ^ 31 - 1 <? idx) then (None, has_negative_indices)
      else
      let '(rest, neg) := normalize_indices axis_dim_for_element read (S i) n has_negative_indices in
      (cons idx <$> rest, neg)
  end.

(** The bytes of the indices as [int32_t], unless one is out of range. *)
Definition NormalizeIndicesBytes (size : nat) (onnx_bytes : list Z) (axis_dim_for_element : nat → Z) (has_negative_indices : bool)
  : option (list Z) * bool :=
  let num_elems := (length onnx_bytes / size)%nat in
  let '(r, neg) := normalize_indices axis_dim_for_element (read_index size onnx_bytes) 0 num_elems has_negative_indices in
  ((fun l => mjoin (le_encode 4 <$> l)) <$> r, neg).

End Indices.

(** *** Padding *)
Module PadSpec.
Import Pad.

Lemma rearrange_spec pads m : length pads = (2 * m)%nat →
  ∃ r, ReArrangePads pads = Ok r ∧ length r = (2 * m)%nat ∧
    ∀ i, (i < m)%nat → r !! (2 * i)%nat = pads !! i ∧ r !! (2 * i + 1)%nat = pads !! (m + i)%nat.
Proof.
  intros Hl. unfold ReArrangePads. rewrite Hl, Nat.mul_comm, Nat.div_mul by done.
  set (body := fun _ _ => _). assert (∀ k, (k ≤ m)%nat → ∃ r, foldM body (seq 0 k) pads = Ok r ∧ length r = (2 * m)%nat ∧
    (∀ i, (i < k)%nat → r !! (2 * i)%nat = pads !! i ∧ r !! (2 * i + 1)%nat = pads !! (m + i)%nat) ∧
    ∀ j, (2 * k ≤ j)%nat → r !! j = pads !! j) as Hk.
  { induction k as [|k IH]; intros Hk; [exists pads; split_and!; [done|done|lia|done]|].
    destruct IH as (r & Hr & Hlr & Hdone & Hrest); [lia|]. rewrite foldM_seq_S, Hr. cbn [rbind]. unfold body.
    destruct (aget_lt (take m pads) k) as (a & -> & Ha); [rewrite length_take; lia|]. cbn [rbind]. rewrite aset_lt by lia. cbn [rbind].
    destruct (aget_lt (<[(2 * k)%nat := a]> r) (m + k)) as (b & -> & Hb); [rewrite length_insert; lia|]. cbn [rbind].
    rewrite aset_lt by (rewrite length_insert; lia). rewrite lookup_take_lt in Ha by lia.
    rewrite list_lookup_insert_ne, Hrest in Hb by lia.
    eexists. split; [done|]. rewrite !length_insert. split; [done|]. split.
    - intros i Hi. destruct (decide (i = k)) as [->|].
      + rewrite (list_lookup_insert_ne _ (2 * k + 1)), !list_lookup_insert_eq by (rewrite ?length_insert; lia). by rewrite Ha, Hb.
      + rewrite !list_lookup_insert_ne by lia. apply Hdone. lia.
    - intros j Hj. rewrite !list_lookup_insert_ne by lia. apply Hrest. lia. }
  destruct (Hk m) as (r & Hr & Hlr & Hdone & _); [lia|]. exists r. split_and!; [done|lia|done].
Qed.

Lemma pad_amounts_spec data ps : pad_amounts data = Ok ps → ps = Z.max 0 <$> data ∧ Forall (fun v => v < 2 ^ 32) data.
Proof.
  revert ps. induction data as [|v data IH]; intros ps H; [injection H as <-; by split|]. cbn in H. inv_bind H. inv_bind H.
  injection H as <-. destruct (IH _ H1) as [-> Hall].
  destruct (Z.ltb_spec v 0); [injection H0 as <-|unfold safe_u32 in H0; destruct (_ && _) eqn:E; [injection H0 as <-|done]];
    rewrite fmap_cons; split; try (f_equal; lia); constructor; try done; [lia|].
  apply andb_true_iff in E as [_ E%Z.ltb_lt]. lia.
Qed.

Lemma existsb_none {A} (f : A → bool) l v : existsb f l = false → v ∈ l → f v = false.
Proof.
  intros H Hv. induction l as [|x l IH]; [by apply elem_of_nil in Hv|]. cbn in H. apply orb_false_iff in H as [? ?].
  apply elem_of_cons in Hv as [->|Hv]; auto.
Qed.

(** Where the padded axis of size [d] takes the element at [j] from; [None] is the constant. *)
Definition pad_source (mode : string) (d before j : Z) : option Z :=
  let k := j - before in
  if bool_decide (mode = "constant") then if (0 <=? k) && (k <? d) then Some k else None
  else if bool_decide (mode = "edge") then Some (Z.max 0 (Z.min k (d - 1)))
  else Some (if k <? 0 then - k else if d <=? k then 2 * (d - 1) - k else k).

Lemma pad_source_shift mode d b s j : pad_source mode d b (s + j) = pad_source mode d (b - s) j.
Proof. unfold pad_source. by replace (s + j - b) with (j - (b - s)) by lia. Qed.

Lemma collect_rows {A} (f : nat → result (list A)) (w rank : nat) acc :
  foldM (fun acc i => let* x := f i in Ok (acc ++ x)) (seq 0 rank) [] = Ok acc →
  (∀ i x, f i = Ok x → length x = w) →
  length acc = (w * rank)%nat ∧ ∀ i, (i < rank)%nat → ∃ x, f i = Ok x ∧ ∀ k, (k < w)%nat → acc !! (w * i + k)%nat = x !! k.
Proof.
  intros H Hw. revert acc H. induction rank as [|rank IH]; intros acc H; [injection H as <-; split; [cbn; lia|lia]|].
  rewrite foldM_seq_S in H. inv_bind H. inv_bind H. injection H as <-. destruct (IH _ H0) as [Hl Hrows].
  rewrite length_app, Hl, (Hw _ _ H1). split; [lia|]. intros i Hi. destruct (decide (i = rank)) as [->|].
  - exists a0. split; [done|]. intros k Hk. rewrite lookup_app_r by lia. f_equal. lia.
  - destruct (Hrows i) as (x & Hx & Hk); [lia|]. exists x. split; [done|]. intros k Hlt.
    rewrite lookup_app_l; [by apply Hk|]. rewrite Hl. nia.
Qed.

Lemma output_shape_spec pads shape r : pad_output_shape pads shape = Ok r →
  ∀ i d, shape !! i = Some d → ∃ b a, pads !! (2 * i)%nat = Some b ∧ pads !! (2 * i + 1)%nat = Some a ∧ r !! i = Some (u32 (d + b + a)).
Proof.
  unfold pad_output_shape. intros H i d Hd. pose proof (lookup_lt_Some _ _ _ Hd) as Hi.
  set (f := fun i => let* d := aget shape i in let* b := aget pads (2 * i) in let* a := aget pads (2 * i + 1) in Ok [u32 (d + b + a)]).
  rewrite (foldM_ext _ (fun acc i => let* x := f i in Ok (acc ++ x))) in H.
  2:{ intros acc k _. unfold f. destruct (aget shape k); cbn; [|done]. destruct (aget pads (k + (k + 0))); cbn; [|done].
      by destruct (aget pads _). }
  destruct (collect_rows f 1 _ _ H) as [_ Hrows].
  { intros k x Hx. unfold f in Hx. do 3 inv_bind Hx. by injection Hx as <-. }
  destruct (Hrows i Hi) as (x & Hx & Hk). specialize (Hk 0%nat ltac:(lia)). unfold f in Hx. do 3 inv_bind Hx. injection Hx as <-.
  apply aget_Ok in Hx0, Hx1, Hx2. simplify_eq. exists a0, a1. split_and!; [done|done|].
  by replace (1 * i + 0)%nat with i in Hk by lia.
Qed.

Lemma negative_ranges_spec data shape rank r : negative_ranges data shape rank = Ok r →
  ∀ i, (i < rank)%nat → ∃ b d a, data !! i = Some b ∧ shape !! i = Some d ∧ data !! (i + rank)%nat = Some a ∧
    r !! (3 * i)%nat = Some (u32 (0 - Z.min 0 b)) ∧ r !! (3 * i + 1)%nat = Some (u32 (d + Z.min 0 a)) ∧ r !! (3 * i + 2)%nat = Some 1.
Proof.
  unfold negative_ranges. intros H i Hi. set (sl := _ <$> data) in H.
  assert (∀ k, sl !! k = Z.min 0 <$> data !! k) as Hsl.
  { intros k. unfold sl. rewrite list_lookup_fmap. destruct (data !! k); cbn; [|done]. destruct (Z.ltb_spec 0 z); f_equal; lia. }
  set (f := fun i => let* b := aget sl i in let* d := aget shape i in let* a := aget sl (i + rank) in Ok [u32 (0 - b); u32 (d + a); 1]).
  rewrite (foldM_ext _ (fun acc i => let* x := f i in Ok (acc ++ x))) in H.
  2:{ intros acc k _. unfold f. destruct (aget sl k); cbn; [|done]. destruct (aget shape k); cbn; [|done]. by destruct (aget sl _). }
  destruct (collect_rows f 3 _ _ H) as [_ Hrows].
  { intros k x Hx. unfold f in Hx. do 3 inv_bind Hx. by injection Hx as <-. }
  destruct (Hrows i Hi) as (x & Hx & Hk). unfold f in Hx. do 3 inv_bind Hx. injection Hx as <-.
  apply aget_Ok in Hx0, Hx1, Hx2. rewrite Hsl in Hx0, Hx2.
  destruct (data !! i) as [b|]; [|done]. destruct (data !! (i + rank)%nat) as [c|]; [|done]. injection Hx0 as <-. injection Hx2 as <-.
  exists b, a0, c. pose proof (Hk 0%nat ltac:(lia)) as K0. pose proof (Hk 1%nat ltac:(lia)) as K1. pose proof (Hk 2%nat ltac:(lia)) as K2.
  rewrite Nat.add_0_r in K0. done.
Qed.

Lemma check_reflect_spec pads shape u : check_reflect pads shape = Ok u →
  ∀ i d b a, shape !! i = Some d → 0 < d < 2 ^ 32 → pads !! (2 * i)%nat = Some b → pads !! (2 * i + 1)%nat = Some a → b < d ∧ a < d.
Proof.
  unfold check_reflect. intros H i d b a Hd Hpos Hb Ha.
  pose (I := fun (ks : list nat) (_ : unit) => i ∈ ks → b < d ∧ a < d).
  apply (foldM_inv _ I) in H.
  - apply H. apply elem_of_seq. apply lookup_lt_Some in Hd. lia.
  - intros ?%elem_of_nil. done.
  - intros ks k s1 s2 IH Hk [Hin| ->%list_elem_of_singleton]%elem_of_app; [by apply IH|].
    do 3 inv_bind Hk. apply aget_Ok in Hk0, Hk1, Hk2. simplify_eq. apply return_if_Ok, orb_false_iff in Hk as [K1 K2].
    rewrite wrapu_id in K1, K2 by (unfold in_u; lia). apply Z.ltb_ge in K1, K2. lia.
Qed.
End PadSpec.
Import Pad PadSpec.

(** C32: the parameters that the Pad builder computes realize the ONNX Pad on every axis: without
    negative pads the amounts are those of ONNX, rearranged in place to pairs, and within the limit of
    the mode; with negative pads, the StridedSlice of the padded tensor has as many elements as the
    ONNX output, stays inside the padded tensor, and its element [j] comes from the same input element
    (or is the constant), also when the Pad node is left out because every pad is negative. *)
Theorem pad_plan_sound (mode : string) (data shape : list Z) (plan : PadPlan) :
  pad_plan mode data shape = Ok plan → length data = (2 * length shape)%nat →
  ∀ i d b a, shape !! i = Some d → data !! i = Some b → data !! (length shape + i)%nat = Some a →
  0 < d → 0 ≤ d + b + a → d + Z.max 0 b + Z.max 0 a < 2 ^ 31 →
  ∃ pb pa, pad_amount plan !! (2 * i)%nat = Some pb ∧ pad_amount plan !! (2 * i + 1)%nat = Some pa ∧
    match slice_ranges plan with
    | None => pb = b ∧ pa = a ∧ (mode = "reflect" → b < d ∧ a < d)
    | Some (padded, ranges) => mode ≠ "reflect" ∧ (has_positive plan = false → pb = 0 ∧ pa = 0) ∧
        padded !! i = Some (d + pb + pa) ∧
        ∃ s e, ranges !! (3 * i)%nat = Some s ∧ ranges !! (3 * i + 1)%nat = Some e ∧ ranges !! (3 * i + 2)%nat = Some 1 ∧
          0 ≤ s ∧ e ≤ d + pb + pa ∧ e - s = d + b + a ∧
          ∀ j, pad_source mode d pb (s + j) = pad_source mode d b j
    end.
Proof.
  intros H Hlen i d b a Hd Hb Ha Hpos Hsum Hfit. pose proof (lookup_lt_Some _ _ _ Hd) as Hi. unfold pad_plan in H.
  inv_bind H. rename a0 into ps. apply pad_amounts_spec in H0 as [-> Hmax]. inv_bind H. rename a0 into pads. inv_bind H. inv_bind H.
  destruct (rearrange_spec (Z.max 0 <$> data) (length shape)) as (r & Er & _ & Hr); [by rewrite length_fmap|].
  rewrite Er in H0. injection H0 as <-. destruct (Hr i Hi) as [R1 R2]. rewrite list_lookup_fmap, Hb in R1. rewrite list_lookup_fmap, Ha in R2.
  change (Z.max 0 <$> Some b) with (Some (Z.max 0 b)) in R1. change (Z.max 0 <$> Some a) with (Some (Z.max 0 a)) in R2.
  destruct (existsb (fun item => item <? 0) data) eqn:Eneg; cbn [negb] in H.
  - rewrite andb_true_r in H1. apply return_if_Ok, bool_decide_eq_false in H1. inv_bind H. inv_bind H. injection H as <-. cbn [pad_amount slice_ranges has_positive].
    eexists _, _. split_and!; [exact R1|exact R2|done|..].
    + intros Hno. pose proof (existsb_none _ _ b Hno (list_elem_of_lookup_2 _ _ _ Hb)) as E1%Z.leb_gt.
      pose proof (existsb_none _ _ a Hno (list_elem_of_lookup_2 _ _ _ Ha)) as E2%Z.leb_gt. lia.
    + destruct (output_shape_spec _ _ _ H0 i d Hd) as (b' & a' & B1 & B2 & B3). rewrite R1 in B1. rewrite R2 in B2. simplify_eq.
      rewrite B3. f_equal. apply wrapu_id. unfold in_u. lia.
    + destruct (output_shape_spec _ _ _ H0 i d Hd) as (b' & a' & B1 & B2 & B3). rewrite R1 in B1. rewrite R2 in B2. simplify_eq.
      destruct (negative_ranges_spec _ _ _ _ H3 i Hi) as (b' & d' & a' & N1 & N2 & N3 & N4 & N5 & N6).
      rewrite Nat.add_comm in N3. simplify_eq.
      rewrite (wrapu_id 32 (d + _ + _)) in N5 by (unfold in_u; lia).
      rewrite wrapu_id in N4 by (unfold in_u; lia). rewrite wrapu_id in N5 by (unfold in_u; lia).
      eexists _, _. split_and!; [exact N4|exact N5|exact N6|lia|lia|lia|]. intros j. rewrite pad_source_shift. f_equal. lia.
  - injection H as <-. cbn [pad_amount slice_ranges has_positive]. pose proof (existsb_none _ _ b Eneg (list_elem_of_lookup_2 _ _ _ Hb)) as E1%Z.ltb_ge.
    pose proof (existsb_none _ _ a Eneg (list_elem_of_lookup_2 _ _ _ Ha)) as E2%Z.ltb_ge.
    eexists _, _. split_and!; [exact R1|exact R2|lia|lia|]. intros ->. unfold check_mode in H2. cbn in H2.
    pose proof (check_reflect_spec _ _ _ H2 i d _ _ Hd ltac:(lia) R1 R2). lia.
Qed.

(** Two columns dropped on the left, one added on the right. *)
Lemma pad_plan_sound_witness :
  ∃ plan, pad_plan "edge" [0; -2; 0; 1] [4; 5] = Ok plan ∧ ∃ pb pa, pad_amount plan !! 2%nat = Some pb ∧ pad_amount plan !! 3%nat = Some pa ∧
    match slice_ranges plan with
    | None => False
    | Some (padded, ranges) => ∃ s e, ranges !! 3%nat = Some s ∧ ranges !! 4%nat = Some e ∧ e - s = 4 ∧
        ∀ j, pad_source "edge" 5 pb (s + j) = pad_source "edge" 5 (-2) j
    end.
Proof.
  eexists. split; [reflexivity|].
  destruct (pad_plan_sound "edge" [0; -2; 0; 1] [4; 5] _ eq_refl eq_refl 1%nat 5 (-2) 1 eq_refl eq_refl eq_refl)
    as (pb & pa & H1 & H2 & H3); [lia..|]. exists pb, pa. split_and!; [done|done|].
  destruct H3 as (_ & _ & _ & s & e & E1 & E2 & _ & _ & _ & E3 & E4). by exists s, e.
Defined.

(** *** Pools *)
Module PoolSpec.
Import Pool.

Section SamePads.
Context (upper : bool) (inp out f s d : list Z) (sr : nat) (pads0 : list Z).
Context (Ho : (sr < length out)%nat) (Hi : (sr < length inp)%nat) (Hf : (sr ≤ length f)%nat) (Hs : (sr ≤ length s)%nat)
  (Hd : (sr ≤ length d)%nat) (Hp : length pads0 = (2 * sr)%nat).

(** The padding that keeps the ratio of sizes, of the given axis. *)
Definition same_total (axis : nat) : option Z :=
  o ← out !! S axis; i ← inp !! S axis; k ← f !! axis; st ← s !! axis; dl ← d !! axis;
  Some ((o - 1) * st + (k - 1) * dl + 1 - i).

Definition low_high (t : Z) : Z * Z := if upper then (t / 2, t - t / 2) else (t - t / 2, t / 2).

Lemma same_pads_run : ∃ pads, foldM (same_pads upper inp out f s d sr) (seq 0 sr) pads0 = Ok pads ∧ length pads = (2 * sr)%nat ∧
  ∀ axis t, (axis < sr)%nat → same_total axis = Some t →
    pads !! axis = Some (low_high (u32 t)).1 ∧ pads !! (axis + sr)%nat = Some (low_high (u32 t)).2.
Proof.
  assert (∀ k, (k ≤ sr)%nat → ∃ pads, foldM (same_pads upper inp out f s d sr) (seq 0 k) pads0 = Ok pads ∧ length pads = (2 * sr)%nat ∧
    ∀ axis t, (axis < k)%nat → same_total axis = Some t →
      pads !! axis = Some (low_high (u32 t)).1 ∧ pads !! (axis + sr)%nat = Some (low_high (u32 t)).2) as Hk; [|by apply Hk].
  induction k as [|k IH]; intros Hk; [exists pads0; split_and!; [done|done|lia]|].
  destruct IH as (pads & Hrun & Hl & Hdone); [lia|]. rewrite foldM_seq_S, Hrun. cbn [rbind]. unfold same_pads. rewrite !Nat.add_1_r.
  destruct (aget_lt out (S k)) as (o & -> & Eo); [lia|]. destruct (aget_lt s k) as (st & -> & Es); [lia|].
  destruct (aget_lt f k) as (fk & -> & Ef); [lia|]. destruct (aget_lt d k) as (dl & -> & Ed); [lia|].
  destruct (aget_lt inp (S k)) as (i & -> & Ei); [lia|]. cbn [rbind].
  assert (same_total k = Some ((o - 1) * st + (fk - 1) * dl + 1 - i)) as Et.
  { unfold same_total. by rewrite Eo, Ei, Ef, Es, Ed. }
  set (t := (o - 1) * st + (fk - 1) * dl + 1 - i) in *.
  assert (u32 (u32 t - u32 t / 2) = u32 t - u32 t / 2) as Eh.
  { apply wrapu_id. pose proof (wrapu_range 32 ltac:(lia) t) as [? ?]. unfold in_u. split; zdiv. }
  exists (<[(k + sr)%nat := (low_high (u32 t)).2]> (<[k := (low_high (u32 t)).1]> pads)).
  unfold low_high in *. destruct upper; rewrite !aset_lt by (rewrite ?length_insert; lia); cbn [rbind fst snd]; rewrite !aset_lt by (rewrite ?length_insert; lia);
    rewrite ?Eh, !length_insert; (split_and!; [first [done|f_equal; by apply list_insert_insert_ne; lia]|done|]);
    intros axis t' Ha Ht; (destruct (decide (axis = k)) as [->|]; [rewrite Et in Ht; injection Ht as <-; split;
      [rewrite list_lookup_insert_ne, list_lookup_insert_eq by lia; done|rewrite list_lookup_insert_eq by (rewrite length_insert; lia); done]
      |rewrite !list_lookup_insert_ne by lia; apply Hdone; [lia|done]]).
Qed.
End SamePads.

(** The number of positions of a window of [extent] elements. *)
Definition positions (size extent stride : Z) : Z := (size - extent) / stride + 1.

(** An attribute with a value for each spatial axis, or for the one axis of a tensor of rank 3. *)
Definition attr_fits (n sr : nat) (attr : option (list Z)) : Prop :=
  match attr with None => True | Some l => length l = (n * sr)%nat ∨ sr = 2%nat ∧ length l = n end.

Lemma widen_length sr attr : (2 ≤ sr)%nat → attr_fits 1 sr attr → length (widen (default (replicate sr 1) attr)) = sr.
Proof.
  intros Hsr Ha. destruct attr as [l|]; cbn in *.
  - destruct l as [|x [|y l]]; cbn in *; lia.
  - destruct sr as [|[|sr]]; [lia|lia|]. cbn. by rewrite length_replicate.
Qed.

Lemma widen_pads_length sr attr : (2 ≤ sr)%nat → attr_fits 2 sr attr → length (widen_pads (default (replicate (sr * 2) 0) attr)) = (2 * sr)%nat.
Proof.
  intros Hsr Ha. destruct attr as [l|]; cbn in *.
  - destruct l as [|x [|y [|z l]]]; cbn in *; lia.
  - destruct sr as [|[|sr]]; [lia|lia|]. cbn. rewrite length_replicate. lia.
Qed.
End PoolSpec.

Import Pool PoolSpec.

(** [ResolvePoolAttributes] succeeds on attributes that fit the rank (one value for each spatial
    axis, or the short form of a one-dimensional pool).  For [SAME_UPPER] and [SAME_LOWER] the pads of
    an axis add up to the padding that ONNX asks for, the odd element goes to the end or to the
    beginning, and the pool then has exactly the output size; any other [auto_pad] keeps the explicit
    pads. *)
Theorem pool_padding_exact (attrs : PoolAttributes) (inp out : list Z) (rounding : Z) :
  let sr := (length inp - 2)%nat in
  (2 ≤ sr)%nat → length out = length inp →
  attr_fits 1 sr (kernel_shape attrs) → attr_fits 1 sr (strides attrs) → attr_fits 1 sr (dilations attrs) → attr_fits 2 sr (pads attrs) →
  ∃ p, ResolvePoolAttributes attrs inp out rounding = Ok p ∧
    (auto_pad attrs ≠ "SAME_UPPER" → auto_pad attrs ≠ "SAME_LOWER" →
       Pool.pad_amount p = widen_pads (default (replicate (sr * 2) 0) (pads attrs))) ∧
    (auto_pad attrs = "SAME_UPPER" ∨ auto_pad attrs = "SAME_LOWER" →
       ∀ axis i o k st dl, (axis < sr)%nat → inp !! S axis = Some i → out !! S axis = Some o →
         filter_size p !! axis = Some k → stride p !! axis = Some st → dilation p !! axis = Some dl →
         let extent := (k - 1) * dl + 1 in
         0 < st → 0 ≤ (o - 1) * st + extent - i < 2 ^ 32 →
         ∃ b e, Pool.pad_amount p !! axis = Some b ∧ Pool.pad_amount p !! (axis + sr)%nat = Some e ∧
           b + e = (o - 1) * st + extent - i ∧
           (if bool_decide (auto_pad attrs = "SAME_UPPER") then b ≤ e ≤ b + 1 else e ≤ b ≤ e + 1) ∧
           positions (i + b + e) extent st = o).
Proof.
  intros sr Hsr Hlen Hk Hst Hdl Hp. unfold ResolvePoolAttributes. fold sr.
  pose proof (widen_length sr _ Hsr Hk) as Lk. pose proof (widen_length sr _ Hsr Hst) as Ls. pose proof (widen_length sr _ Hsr Hdl) as Ld.
  pose proof (widen_pads_length sr _ Hsr Hp) as Lp.
  destruct (bool_decide (auto_pad attrs = "SAME_UPPER") || bool_decide (auto_pad attrs = "SAME_LOWER")) eqn:Esame; cbn [rbind].
  - destruct (same_pads_run (bool_decide (auto_pad attrs = "SAME_UPPER")) inp out _ _ _ sr _ ltac:(lia) ltac:(lia) ltac:(rewrite Lk; lia)
      ltac:(rewrite Ls; lia) ltac:(rewrite Ld; lia) Lp) as (pads' & -> & _ & Hpads). cbn [rbind].
    eexists. split; [done|]. cbn [Pool.pad_amount filter_size stride dilation]. split.
    { intros H1 H2. apply orb_true_iff in Esame as [E|E]; by apply bool_decide_eq_true in E. }
    intros _ axis i o k st dl Ha Ei Eo Ek Es Ed Hst0 Hr.
    destruct (Hpads axis ((o - 1) * st + (k - 1) * dl + 1 - i) Ha) as [P1 P2].
    { unfold same_total. by rewrite Eo, Ei, Ek, Es, Ed. }
    rewrite wrapu_id in P1, P2 by (unfold in_u; lia). set (t := (o - 1) * st + (k - 1) * dl + 1 - i) in *.
    eexists _, _. split_and!; [exact P1|exact P2|..]; unfold low_high in *.
    + destruct (bool_decide _); cbn; lia.
    + destruct (bool_decide _); cbn; zdiv.
    + unfold positions. replace (i + _ + _ - _) with ((o - 1) * st) by (destruct (bool_decide _); cbn; lia).
      rewrite Z.div_mul by lia. lia.
  - eexists. split; [done|]. split; [done|]. apply orb_false_iff in Esame as [E1 E2].
    apply bool_decide_eq_false in E1, E2. by intros [?|?].
Qed.

Definition example_pool : PoolAttributes := {|
  kernel_shape := Some [3; 3]; strides := Some [2; 2]; dilations := None; pads := None; auto_pad := "SAME_UPPER"; ceil_mode := None |}.

Lemma pool_padding_exact_witness :
  ∃ p, ResolvePoolAttributes example_pool [1; 6; 7; 8] [1; 3; 4; 8] 0 = Ok p ∧
    ∃ b e, Pool.pad_amount p !! 0%nat = Some b ∧ Pool.pad_amount p !! 2%nat = Some e ∧ b + e = 1 ∧ b ≤ e ≤ b + 1 ∧ positions (6 + b + e) 3 2 = 3.
Proof.
  destruct (pool_padding_exact example_pool [1; 6; 7; 8] [1; 3; 4; 8] 0) as (p & Hp & _ & H); [cbn; lia|done|by left|by left|done|done|].
  exists p. split; [exact Hp|]. vm_compute in Hp. injection Hp as <-.
  exact (H (or_introl eq_refl) 0%nat 6 3 3 2 1 ltac:(cbn; lia) eq_refl eq_refl eq_refl eq_refl eq_refl ltac:(lia) ltac:(lia)).
Defined.

(** *** Split and indices *)
Module IndexSpec.
Import Split Indices.

Definition sumZ (l : list Z) : Z := foldr Z.add 0 l.

(** The starting points of the parts after the first. *)
Fixpoint starting_points (at_ : Z) (lens : list Z) : list Z :=
  match lens with
  | [] => []
  | len :: lens => at_ :: starting_points (at_ + len) lens
  end.

Lemma split_indices_spec first at_ lens : Forall (Z.le 0) lens → 0 ≤ at_ → at_ + sumZ lens < 2 ^ 32 →
  split_indices first at_ lens = Ok (if first then tail (starting_points at_ lens) else starting_points at_ lens).
Proof.
  intros Hpos. revert first at_. induction Hpos as [|n lens Hn Hpos IH]; intros first at_ Hat Hsum; [by destruct first|].
  unfold sumZ in *. cbn in *. assert (0 ≤ foldr Z.add 0 lens) by (clear -Hpos; induction Hpos; cbn; lia).
  unfold Pad.safe_u32. destruct (Z.leb_spec 0 n); [|lia]. destruct (Z.ltb_spec n (2 ^ 32)); [|lia]. cbn [andb rbind].
  rewrite wrapu_id by (unfold in_u; lia). rewrite IH by lia. by destruct first.
Qed.

(** A negative or too large length is an error. *)
Lemma split_indices_error first at_ lens r : split_indices first at_ lens = Ok r → Forall (fun n => 0 ≤ n < 2 ^ 32) lens.
Proof.
  revert first at_ r. induction lens as [|n lens IH]; intros first at_ r H; [done|]. cbn in H. inv_bind H. inv_bind H.
  unfold Pad.safe_u32 in H0. destruct (Z.leb_spec 0 n); [|done]. destruct (Z.ltb_spec n (2 ^ 32)); [|done]. constructor; [lia|by eapply IH].
Qed.

(** The position an index of ONNX denotes. *)
Definition denotes (dim idx k : Z) : Prop := 0 ≤ k < dim ∧ (idx = k ∨ idx = k - dim).

Lemma normalize_spec dim read i n neg :
  match normalize_indices dim read i n neg with
  | (Some l, neg') => length l = n ∧ (∀ k v, l !! k = Some v → denotes (dim (i + k)%nat) (read (i + k)%nat) v ∧ v < 2 ^ 31) ∧
      (neg' = true ↔ neg = true ∨ ∃ k, (k < n)%nat ∧ read (i + k)%nat < 0)
  | (None, _) => ∃ k, (k < n)%nat ∧ ∀ v, denotes (dim (i + k)%nat) (read (i + k)%nat) v → 2 ^ 31 ≤ v
  end.
Proof.
  revert i neg. induction n as [|n IH]; intros i neg; cbn [normalize_indices].
  { split_and!; [done|done|]. split; [by left|]. intros [?|(k & ? & _)]; [done|lia]. }
  destruct ((_ <? 0) || _ || _) eqn:Ebad.
  - exists 0%nat. split; [lia|]. rewrite Nat.add_0_r. intros v [Hv Hd].
    rewrite !orb_true_iff, !Z.ltb_lt, Z.leb_le in Ebad. destruct (Z.ltb_spec (read i) 0); lia.
  - rewrite !orb_false_iff, !Z.ltb_ge, Z.leb_gt in Ebad. specialize (IH (S i) (neg || (read i <? 0))).
    destruct (normalize_indices dim read (S i) n _) as [[l|] neg']; cbn.
    + destruct IH as (Hl & Hv & Hn). split_and!; [by rewrite Hl|..].
      * intros [|k] v Hk; cbn in Hk.
        -- injection Hk as <-. rewrite Nat.add_0_r. unfold denotes. destruct (Z.ltb_spec (read i) 0); lia.
        -- rewrite <- Nat.add_succ_comm. by apply Hv.
      * rewrite Hn, orb_true_iff, Z.ltb_lt. split.
        -- intros [[?|?]|(k & Hk & Hr)]; [by left|right; exists 0%nat; rewrite Nat.add_0_r; lia|].
           right. exists (S k). rewrite <- Nat.add_succ_comm. lia.
        -- intros [?|([|k] & Hk & Hr)]; [auto|rewrite Nat.add_0_r in Hr; auto|].
           right. exists k. rewrite <- Nat.add_succ_comm in Hr. lia.
    + destruct IH as (k & Hk & Hv). exists (S k). rewrite <- Nat.add_succ_comm. split; [lia|done].
Qed.
End IndexSpec.

Import Indices IndexSpec.

(** [NormalizeIndicesBytes] succeeds exactly when every index denotes an element of its axis (at a
    position below [2 ^ 31]); the [int32_t] it writes for an index is that position, and the flag tells
    whether one was negative. *)
Theorem indices_normalized (size : nat) (bytes : list Z) (dim : nat → Z) (neg : bool) :
  let n := (length bytes / size)%nat in
  match NormalizeIndicesBytes size bytes dim neg with
  | (Some out, neg') => length out = (4 * n)%nat ∧
      (∀ k, (k < n)%nat → denotes (dim k) (read_index size bytes k) (i32 (le_decode (element 4 out k)))) ∧
      (neg' = true ↔ neg = true ∨ ∃ k, (k < n)%nat ∧ read_index size bytes k < 0)
  | (None, _) => ∃ k, (k < n)%nat ∧ ∀ v, denotes (dim k) (read_index size bytes k) v → 2 ^ 31 ≤ v
  end.
Proof.
  cbn zeta. unfold NormalizeIndicesBytes. pose proof (normalize_spec dim (read_index size bytes) 0 (length bytes / size) neg) as H.
  destruct (normalize_indices _ _ _ _ _) as [[l|] neg']; [|exact H].
  change ((fun l => mjoin (le_encode 4 <$> l)) <$> Some l) with (Some (mjoin (le_encode 4 <$> l))). cbn beta iota. destruct H as (Hl & Hv & Hn). split_and!; [|..|exact Hn].
  - rewrite join_encode_length, Hl. lia.
  - intros k Hk. destruct (lookup_lt_is_Some_2 l k) as [v Ev]; [lia|]. destruct (Hv k v Ev) as [Hd Hlt]. cbn in Hd.
    rewrite (element_join 4 _ k (le_encode 4 v)), le_decode_encode.
    + change (256 ^ Z.of_nat 4) with (2 ^ 32). fold (u32 v). rewrite i32_u32; [done|]. destruct Hd as [? _]. lia.
    + intros y Hy. apply list_elem_of_fmap in Hy as (x & -> & _). apply le_encode_length.
    + by rewrite list_lookup_fmap, Ev.
Qed.

(** *** What modelling showed *)
Module OpParamsFindings.

(** A pool with a stride larger than its window: the padding of [SAME_UPPER] would be negative, and
    wraps to about [2 ^ 32]; ONNX uses no padding. *)
Definition strided_pool : PoolAttributes := {|
  kernel_shape := Some [1; 1]; strides := Some [2; 2]; dilations := None; pads := None; auto_pad := "SAME_UPPER"; ceil_mode := None |}.

Example same_padding_wraps :
  ∃ p, ResolvePoolAttributes strided_pool [1; 4; 4; 8] [1; 2; 2; 8] 0 = Ok p ∧ Pool.pad_amount p = [2147483647; 2147483647; 2147483648; 2147483648].
Proof. eexists. split; [reflexivity|]. vm_compute. done. Qed.

(** Splitting [2 ^ 24 + 1] elements in two: the size is rounded to [float], and the first part has one
    element less than [ceil] of the half. *)
Example equal_split_rounds : Split.equal_split 16777217 2 = Ok [8388608] ∧ Slice.ceil_div 16777217 2 = 8388609.
Proof. split; vm_compute; done. Qed.

End OpParamsFindings.
