(* ===== verification/Einsum.v ===== *)
(** * Einsum

    The equations that [EinsumOpBuilder] ([builder/opbuilder/einsum_op_builder.cc]) accepts and
    the QNN ops it emits for them.  The parser is characterized by the equations it reads, and the
    emitted ops are proved to compute the sum of products that the equation denotes, over any type
    of elements; adding the nodes to the model wrapper is not part of it. *)

From Stdlib Require Import Ascii.
From Stdlib Require String.
From S2P Require Import Prelude.
Local Open Scope nat_scope.

Abbreviation term := (list ascii).

(** ** The parser *)

Definition is_alpha (c : ascii) : bool :=
  let n := nat_of_ascii c in (65 <=? n) && (n <=? 90) || (97 <=? n) && (n <=? 122).

Definition space : ascii := " "%char.
Definition comma : ascii := ","%char.
Definition dash : ascii := "-"%char.
Definition greater : ascii := ">"%char.

(** The parts before and after the first ["->"], and the first [","]. *)
Fixpoint find_arrow (s : term) : option (term * term) :=
  match s with
  | c1 :: (c2 :: rest) as s' =>
      if bool_decide (c1 = dash) && bool_decide (c2 = greater) then Some ([], rest)
      else '(l, r) ← find_arrow s'; Some (c1 :: l, r)
  | _ => None
  end.

Fixpoint find_comma (s : term) : option (term * term) :=
  match s with
  | [] => None
  | c :: s => if bool_decide (c = comma) then Some ([], s) else '(l, r) ← find_comma s; Some (c :: l, r)
  end.

Record Equation := Eqn { term_1 : term; term_2 : term; result_ : term }.

Definition ParseEquation (equation_string : string) : option Equation :=
  let equation := filter (fun c => c ≠ space) (String.list_ascii_of_string equation_string) in
  if bool_decide (equation = []) then None
  else
  '(lhs, result) ← find_arrow equation;
  if bool_decide (lhs = []) || bool_decide (result = []) then None
  else
  '(term_1, term_2) ← find_comma lhs;
  if bool_decide (term_1 = []) || bool_decide (term_2 = []) then None
  else if (length term_1 <? 2) || (length term_2 <? 2) || (length result <? 2) then None
  else if negb (forallb is_alpha term_1) then None
  else if negb (forallb is_alpha term_2) then None
  else if negb (forallb is_alpha result) then None
  else Some (Eqn term_1 term_2 result).

(** ** The kinds of equations *)

(** Comparison of two characters; the positions are in range, since a term has two letters at least. *)
Definition same (l : term) (i : nat) (l' : term) (j : nat) : bool := bool_decide (l !! i = l' !! j).

Definition same_batch (num_dims : nat) (e : Equation) : bool :=
  forallb (fun i => same (term_1 e) i (term_2 e) i && same (term_1 e) i (result_ e) i) (seq 0 (num_dims - 2)).

Definition IsEquationMatMul (e : Equation) : bool :=
  let num_dims := length (term_1 e) in
  if negb ((length (term_2 e) =? num_dims) && (length (result_ e) =? num_dims)) then false
  else if negb (same_batch num_dims e) then false
  else same (term_1 e) (num_dims - 2) (result_ e) (num_dims - 2) &&
       same (term_1 e) (num_dims - 1) (term_2 e) (num_dims - 2) &&
       same (term_2 e) (num_dims - 1) (result_ e) (num_dims - 1).

Definition IsEquationMatMulTransposeY (e : Equation) : bool :=
  let num_dims := length (term_1 e) in
  if negb ((length (term_2 e) =? num_dims) && (length (result_ e) =? num_dims)) then false
  else if negb (same_batch num_dims e) then false
  else same (term_1 e) (num_dims - 2) (result_ e) (num_dims - 2) &&
       same (term_1 e) (num_dims - 1) (term_2 e) (num_dims - 1) &&
       same (term_2 e) (num_dims - 2) (result_ e) (num_dims - 1).

Definition IsEquationMatMulTransposeAll (e : Equation) : bool :=
  if negb ((length (term_1 e) =? 4) && (length (term_2 e) =? 4) && (length (result_ e) =? 4)) then false
  else if negb (same (term_1 e) 0 (term_2 e) 0 && same (term_1 e) 0 (result_ e) 0) then false
  else same (term_1 e) 3 (result_ e) 3 && same (term_1 e) 1 (term_2 e) 3 && same (term_2 e) 1 (result_ e) 1.

Definition IsEquationMatMulBroadcastTransposeY (e : Equation) : bool :=
  if negb ((length (term_1 e) =? 4) && (length (term_2 e) =? 3) && (length (result_ e) =? 4)) then false
  else same (term_1 e) 2 (result_ e) 2 && same (term_1 e) 3 (term_2 e) 2 && same (term_2 e) 1 (result_ e) 3 &&
       same (term_1 e) 0 (result_ e) 0 && same (term_1 e) 1 (result_ e) 1 && same (term_2 e) 0 (result_ e) 1.

Definition IsEquationReduceSumMulBroadcastX (e : Equation) : bool :=
  if negb ((length (term_1 e) =? 4) && (length (term_2 e) =? 3) && (length (result_ e) =? 4)) then false
  else same (term_1 e) 3 (term_2 e) 2 && same (term_1 e) 2 (term_2 e) 0 && same (term_1 e) 2 (result_ e) 2 &&
       same (term_2 e) 1 (result_ e) 3 && same (term_1 e) 0 (result_ e) 0 && same (term_1 e) 1 (result_ e) 1.

(** The ops that [ProcessAttributesAndOutputs] emits. *)
Inductive Lowering : Set :=
| LMatMul (transpose_in1 : bool)
| LMatMulTransposeAll
| LReduceSumMulBroadcastX.

Definition EmitEinsum (e : Equation) : option Lowering :=
  if IsEquationMatMul e then Some (LMatMul false)
  else if IsEquationMatMulTransposeY e || IsEquationMatMulBroadcastTransposeY e then Some (LMatMul true)
  else if IsEquationMatMulTransposeAll e then Some LMatMulTransposeAll
  else if IsEquationReduceSumMulBroadcastX e then Some LReduceSumMulBroadcastX
  else None.

(** The checks of [IsOpSupported]. *)
Definition EinsumSupported (equation : string) (num_inputs : nat) (is_gpu input0_quantized : bool) : result Equation :=
  if num_inputs <? 2 then Err (EpFail "requires at least 2 inputs.")
  else
  match ParseEquation equation with
  | None => Err (EpFail "unsupported equation")
  | Some e =>
      if negb (IsEquationMatMul e) && negb (IsEquationMatMulTransposeY e) && negb (IsEquationMatMulBroadcastTransposeY e) &&
         negb (IsEquationMatMulTransposeAll e) && negb (IsEquationReduceSumMulBroadcastX e)
      then Err (EpFail "unsupported equation")
      else if IsEquationReduceSumMulBroadcastX e && is_gpu then Err (EpFail "unsupported equation on backend GPU")
      else if IsEquationReduceSumMulBroadcastX e && input0_quantized then Err (EpFail "unsupported equation for quantized inputs")
      else Ok e
  end.

(** ** What the parser reads *)

Definition letters (t : term) : Prop := 2 ≤ length t ∧ Forall (fun c => is_alpha c = true) t.
Definition printed (e : Equation) : term := term_1 e ++ comma :: term_2 e ++ dash :: greater :: result_ e.

Lemma find_arrow_sound s l r : find_arrow s = Some (l, r) → s = l ++ dash :: greater :: r.
Proof.
  revert l. induction s as [|c1 s IH]; intros l H; [done|]. cbn [find_arrow] in H. destruct s as [|c2 s]; [done|].
  destruct (bool_decide (c1 = dash) && bool_decide (c2 = greater)) eqn:E.
  - apply andb_true_iff in E as [->%bool_decide_eq_true ->%bool_decide_eq_true]. by injection H as <- <-.
  - apply bind_Some in H as ([l' r'] & H & E'). injection E' as <- <-. cbn. f_equal. by apply IH.
Qed.

Lemma find_arrow_complete l r : Forall (fun c => c ≠ dash) l → find_arrow (l ++ dash :: greater :: r) = Some (l, r).
Proof.
  induction 1 as [|c l Hc Hl IH]; [done|]. rewrite <- app_comm_cons. cbn [find_arrow].
  destruct (l ++ dash :: greater :: r) as [|c2 s] eqn:E; [by destruct l|].
  rewrite bool_decide_eq_false_2 by done. cbn [andb]. by rewrite IH.
Qed.

Lemma find_comma_sound s l r : find_comma s = Some (l, r) → s = l ++ comma :: r.
Proof.
  revert l. induction s as [|c s IH]; intros l H; [done|]. cbn in H. case_bool_decide as E.
  - injection H as <- <-. by subst c.
  - apply bind_Some in H as ([l' r'] & H & E'). injection E' as <- <-. cbn. f_equal. by apply IH.
Qed.

Lemma find_comma_complete l r : Forall (fun c => c ≠ comma) l → find_comma (l ++ comma :: r) = Some (l, r).
Proof.
  induction 1 as [|c l Hc Hl IH]; [done|]. cbn. rewrite bool_decide_eq_false_2 by done. by rewrite IH.
Qed.

Lemma alpha_not (x : ascii) t : is_alpha x = false → Forall (fun c => is_alpha c = true) t → Forall (fun c => c ≠ x) t.
Proof. intros Hx Ht. eapply Forall_impl; [exact Ht|]. intros c Hc ->. congruence. Qed.

Lemma forallb_letters t : forallb is_alpha t = true ↔ Forall (fun c => is_alpha c = true) t.
Proof.
  induction t as [|c t IH]; cbn; [done|]. rewrite andb_true_iff, Forall_cons, IH. done.
Qed.

Lemma parse_sound s e : ParseEquation s = Some e →
  filter (fun c => c ≠ space) (String.list_ascii_of_string s) = printed e ∧ letters (term_1 e) ∧ letters (term_2 e) ∧ letters (result_ e).
Proof.
  unfold ParseEquation. set (q := filter _ _). case_bool_decide as Hq; [done|]. intros H. apply bind_Some in H as ([lhs r] & Ha & H).
  destruct (_ || _); [done|]. apply bind_Some in H as ([t1 t2] & Hc & H). destruct (bool_decide (t1 = []) || _); [done|].
  destruct (_ || _ || _) eqn:El; [done|]. rewrite !orb_false_iff, !Nat.ltb_ge in El.
  destruct (forallb is_alpha t1) eqn:E1; [|done]. destruct (forallb is_alpha t2) eqn:E2; [|done].
  destruct (forallb is_alpha r) eqn:E3; [|done]. injection H as <-. apply forallb_letters in E1, E2, E3.
  apply find_arrow_sound in Ha. apply find_comma_sound in Hc. unfold letters, printed. cbn. split_and!; try lia; try done.
  rewrite Ha, Hc, <- app_assoc. done.
Qed.

Lemma parse_complete s e : filter (fun c => c ≠ space) (String.list_ascii_of_string s) = printed e →
  letters (term_1 e) → letters (term_2 e) → letters (result_ e) → ParseEquation s = Some e.
Proof.
  intros Hq [L1 A1] [L2 A2] [L3 A3]. unfold ParseEquation. rewrite Hq. destruct e as [t1 t2 r]. unfold printed. cbn [term_1 term_2 result_] in *.
  rewrite bool_decide_eq_false_2 by (by destruct t1).
  replace (t1 ++ comma :: t2 ++ dash :: greater :: r) with ((t1 ++ comma :: t2) ++ dash :: greater :: r) by (by rewrite <- app_assoc).
  rewrite find_arrow_complete; cbn [mbind option_bind].
  2:{ apply Forall_app. split; [by apply (alpha_not dash)|]. constructor; [done|by apply (alpha_not dash)]. }
  rewrite (bool_decide_eq_false_2 (_ = [])) by (by destruct t1). rewrite (bool_decide_eq_false_2 (_ = [])) by (destruct r; [cbn in *; lia|done]). cbn [orb].
  rewrite find_comma_complete by (by apply (alpha_not comma)). cbn [mbind option_bind].
  rewrite (bool_decide_eq_false_2 (_ = [])) by (destruct t1; [cbn in *; lia|done]).
  rewrite (bool_decide_eq_false_2 (_ = [])) by (destruct t2; [cbn in *; lia|done]). cbn [orb].
  rewrite !(proj2 (Nat.ltb_ge _ _)) by lia. cbn [orb].
  by rewrite (proj2 (forallb_letters t1)), (proj2 (forallb_letters t2)), (proj2 (forallb_letters r)) by done.
Qed.

(** ** The shape of the accepted equations *)

Lemma last_two {A} (t : list A) n : length t = S (S n) → ∃ a b, t = take n t ++ [a; b] ∧ t !! n = Some a ∧ t !! S n = Some b.
Proof.
  intros Hl. destruct (lookup_lt_is_Some_2 t n) as [a Ha]; [lia|]. destruct (lookup_lt_is_Some_2 t (S n)) as [b Hb]; [lia|].
  exists a, b. split_and!; [|done|done]. rewrite <- (take_drop n t) at 1. f_equal.
  rewrite (drop_S _ a) by done. f_equal. rewrite (drop_S _ b) by done. by rewrite drop_ge by lia.
Qed.

Lemma batch_spec e n : length (term_1 e) = S (S n) → length (term_2 e) = S (S n) → length (result_ e) = S (S n) →
  same_batch (S (S n)) e = true → take n (term_2 e) = take n (term_1 e) ∧ take n (result_ e) = take n (term_1 e).
Proof.
  intros H1 H2 H3 Hb. unfold same_batch in Hb. replace (S (S n) - 2) with n in Hb by lia.
  assert (∀ i, i < n → term_2 e !! i = term_1 e !! i ∧ result_ e !! i = term_1 e !! i) as Hi.
  { intros i Hi. rewrite forallb_forall in Hb. specialize (Hb i ltac:(apply in_seq; lia)). unfold same in Hb.
    apply andb_true_iff in Hb as [E1%bool_decide_eq_true E2%bool_decide_eq_true]. by rewrite E1 at 1. }
  split; apply list_eq; intros i; (destruct (decide (i < n)); [rewrite !lookup_take_lt by done; by apply Hi|
    rewrite !lookup_ge_None_2 by (rewrite length_take; lia); done]).
Qed.

(** The two kinds with the same batch letters everywhere. *)
Lemma matmul_form (ty : bool) e : (if ty then IsEquationMatMulTransposeY e else IsEquationMatMul e) = true → 2 ≤ length (term_1 e) →
  ∃ b m k n, term_1 e = b ++ [m; k] ∧ term_2 e = b ++ (if ty then [n; k] else [k; n]) ∧ result_ e = b ++ [m; n].
Proof.
  intros H Hl. destruct (length (term_1 e)) as [|[|n]] eqn:E1; [lia|lia|].
  assert (length (term_2 e) = S (S n) ∧ length (result_ e) = S (S n) ∧ same_batch (S (S n)) e = true) as (E2 & E3 & Hb).
  { unfold IsEquationMatMulTransposeY, IsEquationMatMul in H. rewrite E1 in H.
    destruct (Nat.eqb_spec (length (term_2 e)) (S (S n))), (Nat.eqb_spec (length (result_ e)) (S (S n))); try (by destruct ty).
    destruct (same_batch (S (S n)) e); by destruct ty. }
  destruct (batch_spec e n E1 E2 E3 Hb) as [B2 B3].
  destruct (last_two (term_1 e) n E1) as (m & k & T1 & M1 & K1). destruct (last_two (term_2 e) n E2) as (x & y & T2 & X2 & Y2).
  destruct (last_two (result_ e) n E3) as (m' & n' & T3 & M3 & N3). rewrite B2 in T2. rewrite B3 in T3.
  exists (take n (term_1 e)), m, k, n'.
  assert (m' = m ∧ if ty then x = n' ∧ y = k else x = k ∧ y = n') as [-> Hxy].
  { unfold IsEquationMatMulTransposeY, IsEquationMatMul, same in H. rewrite E1, E2, E3, Nat.eqb_refl, Hb in H. cbn [andb negb] in H.
    replace (S (S n) - 2) with n in H by lia. replace (S (S n) - 1) with (S n) in H by lia. rewrite M1, K1, X2, Y2, M3, N3 in H.
    destruct ty; rewrite !andb_true_iff, !bool_decide_eq_true in H; naive_solver. }
  destruct ty; destruct Hxy as [-> ->]; done.
Qed.

(** The kinds with three and four letters, by evaluation. *)
Ltac letters_of e :=
  destruct e as [[|? [|? [|? [|? [|]]]]] [|? [|? [|? [|? [|]]]]] [|? [|? [|? [|? [|]]]]]]; try done.

Lemma broadcast_form e : IsEquationMatMulBroadcastTransposeY e = true →
  ∃ b h w c k, e = Eqn [b; h; w; c] [h; k; c] [b; h; w; k].
Proof.
  letters_of e. unfold IsEquationMatMulBroadcastTransposeY, same. cbn. rewrite !andb_true_iff, !bool_decide_eq_true. intros H. destruct_and!. simplify_eq.
  by eexists _, _, _, _, _.
Qed.

Lemma transpose_all_form e : IsEquationMatMulTransposeAll e = true →
  ∃ b k n m h1 h2 h3, e = Eqn [b; k; h1; m] [b; n; h2; k] [b; n; h3; m].
Proof.
  letters_of e. unfold IsEquationMatMulTransposeAll, same. cbn.
  case_bool_decide; [|done]. case_bool_decide; [|done]. cbn. rewrite !andb_true_iff, !bool_decide_eq_true. intros Hs. destruct_and!. simplify_eq.
  by eexists _, _, _, _, _, _, _.
Qed.

Lemma reduce_form e : IsEquationReduceSumMulBroadcastX e = true → ∃ b h w c k, e = Eqn [b; h; w; c] [w; k; c] [b; h; w; k].
Proof.
  letters_of e. unfold IsEquationReduceSumMulBroadcastX, same. cbn. rewrite !andb_true_iff, !bool_decide_eq_true. intros H. destruct_and!. simplify_eq.
  by eexists _, _, _, _, _.
Qed.

Lemma distinct4 (a b c d : ascii) : NoDup [a; b; c; d] → a ≠ b ∧ a ≠ c ∧ a ≠ d ∧ b ≠ c ∧ b ≠ d ∧ c ≠ d.
Proof. rewrite !NoDup_cons, !not_elem_of_cons. naive_solver. Qed.
Lemma distinct3 (a b c : ascii) : NoDup [a; b; c] → a ≠ b ∧ a ≠ c ∧ b ≠ c.
Proof. rewrite !NoDup_cons, !not_elem_of_cons. naive_solver. Qed.

(** ** Sums of products *)

Section Semantics.
Context {R : Type} (zero : R) (add mul : R → R → R).

(** A tensor: its shape and its element at a multi-index. *)
Record Tensor := { shape : list nat; at_ : list nat → R }.

Definition sum (n : nat) (f : nat → R) : R := foldr add zero (f <$> seq 0 n).

(** The value of a letter of the result at a multi-index of the output. *)
Fixpoint value (r : term) (o : list nat) (c : ascii) : nat :=
  match r, o with
  | c' :: r, i :: o => if bool_decide (c = c') then i else value r o c
  | _, _ => 0
  end.
Definition assign (env : ascii → nat) (c : ascii) (i : nat) (c' : ascii) : nat := if bool_decide (c' = c) then i else env c'.

Fixpoint sum_over (dim : ascii → nat) (cs : term) (env : ascii → nat) (f : (ascii → nat) → R) : R :=
  match cs with
  | [] => f env
  | c :: cs => sum (dim c) (fun i => sum_over dim cs (assign env c i) f)
  end.

(** The letters that the result does not have are summed over. *)
Definition summed (e : Equation) : term := remove_dups (filter (fun c => c ∉ result_ e) (term_1 e ++ term_2 e)).

Definition einsum (e : Equation) (dim : ascii → nat) (x y : Tensor) (o : list nat) : R :=
  sum_over dim (summed e) (value (result_ e) o) (fun env => mul (at_ x (env <$> term_1 e)) (at_ y (env <$> term_2 e))).

(** ** The ops of QNN *)

(** MatMul of the last two axes; the batch axes of the second input are the last of the first's. *)
Definition MatMul (transpose_in1 : bool) (x y : Tensor) : Tensor :=
  let rx := length (shape x) in
  {| shape := take (rx - 1) (shape x) ++ [nth (if transpose_in1 then length (shape y) - 2 else length (shape y) - 1) (shape y) 0];
     at_ o :=
       let b := take (rx - 2) o in
       let m := nth (rx - 2) o 0 in
       let n := nth (rx - 1) o 0 in
       sum (nth (rx - 1) (shape x) 0) (fun k =>
         mul (at_ x (b ++ [m; k])) (at_ y (drop (rx - length (shape y)) b ++ if transpose_in1 then [n; k] else [k; n]))) |}.

(** Transpose with the permutation 0, 2, 1, 3, its own inverse. *)
Definition swap12 {A} (l : list A) : list A := match l with [a; b; c; d] => [a; c; b; d] | _ => l end.
Definition Transpose0213 (x : Tensor) : Tensor := {| shape := swap12 (shape x); at_ o := at_ x (swap12 o) |}.

(** Reshape of [b, h, w, c] to [b, h, w, 1, c], Multiply with [w, k, c], ReduceSum over the last axis. *)
Definition Reshape5 (x : Tensor) : Tensor :=
  {| shape := match shape x with [b; h; w; c] => [b; h; w; 1; c] | s => s end;
     at_ o := at_ x (match o with [b; h; w; _; c] => [b; h; w; c] | _ => o end) |}.
Definition Multiply53 (x y : Tensor) : Tensor :=
  {| shape := match shape x, shape y with [b; h; w; _; c], [_; k; _] => [b; h; w; k; c] | s, _ => s end;
     at_ o := match o with
              | [b; h; w; k; c] => mul (at_ x [b; h; w; 0; c]) (at_ y [w; k; c])
              | _ => zero
              end |}.
Definition ReduceSumLast (x : Tensor) : Tensor :=
  {| shape := take (length (shape x) - 1) (shape x);
     at_ o := sum (nth (length (shape x) - 1) (shape x) 0) (fun c => at_ x (o ++ [c])) |}.

Definition run_lowering (l : Lowering) (x y : Tensor) : Tensor :=
  match l with
  | LMatMul transpose_in1 => MatMul transpose_in1 x y
  | LMatMulTransposeAll => Transpose0213 (MatMul false (Transpose0213 y) (Transpose0213 x))
  | LReduceSumMulBroadcastX => ReduceSumLast (Multiply53 (Reshape5 x) y)
  end.

Lemma sum_ext n f g : (∀ i, i < n → f i = g i) → sum n f = sum n g.
Proof.
  intros H. unfold sum. f_equal. apply list_fmap_ext. intros i x Hx. apply H. apply lookup_seq in Hx. lia.
Qed.

Lemma value_all r o : NoDup r → length o = length r → value r o <$> r = o.
Proof.
  revert o. induction r as [|c r IH]; intros [|i o] Hnd Hl; try done. apply NoDup_cons in Hnd as [Hc Hnd]. cbn.
  rewrite bool_decide_eq_true_2 by done. f_equal. transitivity (value r o <$> r); [|apply IH; [done|cbn in Hl; lia]].
  apply list_fmap_ext. intros j c' Hj. rewrite bool_decide_eq_false_2; [done|]. intros ->. apply Hc. by eapply list_elem_of_lookup_2.
Qed.

Lemma value_app r1 r2 o1 o2 : NoDup (r1 ++ r2) → length o1 = length r1 → length o2 = length r2 →
  (value (r1 ++ r2) (o1 ++ o2) <$> r1 = o1) ∧ (value (r1 ++ r2) (o1 ++ o2) <$> r2 = o2).
Proof.
  intros Hnd H1 H2. pose proof (value_all (r1 ++ r2) (o1 ++ o2) Hnd) as E. rewrite !length_app in E. specialize (E ltac:(lia)).
  rewrite fmap_app in E. apply app_inj_1 in E; [done|]. by rewrite length_fmap.
Qed.

Lemma assign_other env c i (t : term) : c ∉ t → assign env c i <$> t = env <$> t.
Proof.
  intros Hc. apply list_fmap_ext. intros j c' Hj. unfold assign. rewrite bool_decide_eq_false_2; [done|]. intros ->.
  apply Hc. by eapply list_elem_of_lookup_2.
Qed.

Lemma assign_self env c i : assign env c i c = i.
Proof. unfold assign. by rewrite bool_decide_eq_true_2. Qed.

(** One letter is summed over. *)
Lemma summed_one e k : (∀ c, c ∈ term_1 e ++ term_2 e → c ∉ result_ e ↔ c = k) → k ∈ term_1 e → summed e = [k].
Proof.
  intros H Hk. assert (∀ c, c ∈ summed e ↔ c = k) as Hs.
  { intros c. unfold summed. rewrite elem_of_remove_dups, list_elem_of_filter. split; [intros [Hr Hc]; by apply H|].
    intros ->. assert (k ∈ term_1 e ++ term_2 e) as Hin by (apply elem_of_app; by left). split; [by apply H|done]. }
  assert (NoDup (summed e)) as Hnd by apply NoDup_remove_dups.
  destruct (summed e) as [|c [|c' l]].
  - assert (k ∈ []) as Hn by (by apply Hs). by apply elem_of_nil in Hn.
  - f_equal. apply Hs. by left.
  - assert (c = k) as -> by (apply Hs; by left). assert (c' = k) as -> by (apply Hs; right; by left).
    apply NoDup_cons in Hnd as [Hnd _]. destruct Hnd. by left.
Qed.

Lemma einsum_matmul (ty : bool) b m k n dim x y o : NoDup (b ++ [m; k]) → NoDup (b ++ (if ty then [n; k] else [k; n])) → NoDup (b ++ [m; n]) →
  let e := Eqn (b ++ [m; k]) (b ++ if ty then [n; k] else [k; n]) (b ++ [m; n]) in
  shape x = dim <$> term_1 e → shape y = dim <$> term_2 e → length o = length (result_ e) →
  at_ (MatMul ty x y) o = einsum e dim x y o.
Proof.
  intros N1 N2 N3 e Hx Hy Ho. cbn in Hx, Hy, Ho.
  assert (k ∉ b ∧ m ≠ k ∧ n ≠ k) as (Kb & Km & Kn).
  { apply NoDup_app in N1 as (_ & A1 & A2), N2 as (_ & B1 & B2).
    split_and!; [intros Hin; apply (A1 k Hin); set_solver|intros ->; by apply NoDup_cons in A2 as [[]%not_elem_of_cons _]|].
    intros ->. destruct ty; apply NoDup_cons in B2 as [B2 _]; apply B2; by left. }
  assert (summed e = [k]) as Es.
  { apply summed_one; cbn; [|set_solver]. intros c Hc. rewrite elem_of_app in Hc. split.
    - intros Hr. destruct (decide (c = k)); [done|]. destruct Hr. destruct ty; set_solver.
    - intros ->. set_solver. }
  unfold einsum. rewrite Es. cbn [sum_over]. cbn [MatMul at_].
  assert (length (shape x) = S (S (length b))) as Lx by (rewrite Hx, length_fmap, length_app; cbn; lia).
  assert (length (shape y) = S (S (length b))) as Ly by (rewrite Hy, length_fmap, length_app; destruct ty; cbn; lia).
  rewrite length_app in Ho. cbn in Ho. rewrite Lx, Ly, Nat.sub_diag. replace (S (S (length b)) - 1) with (S (length b)) by lia.
  replace (S (S (length b)) - 2) with (length b) by lia.
  destruct (last_two o (length b)) as (om & on & Eo & _ & _); [lia|]. set (ob := take (length b) o) in *.
  assert (length ob = length b) as Lo by (unfold ob; rewrite length_take; lia).
  rewrite Eo. rewrite !app_nth2 by lia. rewrite Lo, Nat.sub_diag, Nat.sub_succ_l, Nat.sub_diag by lia. cbn [nth]. rewrite drop_0.
  rewrite Hx, fmap_app, app_nth2 by (rewrite length_fmap; lia). rewrite length_fmap, Nat.sub_succ_l, Nat.sub_diag by lia. cbn [fmap list_fmap nth].
  destruct (value_app b [m; n] ob [om; on] N3 Lo eq_refl) as [V1 V2]. cbn in V2. injection V2 as Vm Vn.
  apply sum_ext. intros i _. subst e. cbn [term_1 term_2 result_]. rewrite !fmap_app, !(assign_other _ k i b) by done. rewrite V1. cbn [fmap list_fmap].
  rewrite assign_self. unfold assign at 1. rewrite bool_decide_eq_false_2, Vm by done. f_equal. f_equal. f_equal.
  destruct ty; cbn [fmap list_fmap]; rewrite assign_self; unfold assign; rewrite bool_decide_eq_false_2, Vn by done; done.
Qed.

(** Evaluates the environment of a term of distinct letters. *)
Ltac letters := repeat match goal with
  | |- context [bool_decide (?a = ?a)] => rewrite (bool_decide_eq_true_2 (a = a)) by reflexivity
  | |- context [bool_decide (?a = ?b)] => rewrite (bool_decide_eq_false_2 (a = b)) by congruence
  end.

Lemma broadcast_einsum b h w c k dim x y o : NoDup [b; h; w; c] → NoDup [h; k; c] → NoDup [b; h; w; k] →
  let e := Eqn [b; h; w; c] [h; k; c] [b; h; w; k] in
  shape x = dim <$> term_1 e → shape y = dim <$> term_2 e → length o = 4 → at_ (MatMul true x y) o = einsum e dim x y o.
Proof.
  intros N1%distinct4 N2%distinct3 N3%distinct4 e Hx Hy Ho. destruct_and!. destruct o as [|ob [|oh [|ow [|ok [|]]]]]; try done.
  unfold einsum. rewrite (summed_one e c); [|cbn; set_solver|cbn; set_solver]. cbn [sum_over]. cbn [MatMul at_]. rewrite Hx, Hy.
  cbn. apply sum_ext. intros i _. unfold assign. letters. done.
Qed.

Lemma reduce_einsum b h w c k dim x y o : NoDup [b; h; w; c] → NoDup [w; k; c] → NoDup [b; h; w; k] →
  let e := Eqn [b; h; w; c] [w; k; c] [b; h; w; k] in
  shape x = dim <$> term_1 e → shape y = dim <$> term_2 e → length o = 4 →
  at_ (run_lowering LReduceSumMulBroadcastX x y) o = einsum e dim x y o.
Proof.
  intros N1%distinct4 N2%distinct3 N3%distinct4 e Hx Hy Ho. destruct_and!. destruct o as [|ob [|oh [|ow [|ok [|]]]]]; try done.
  unfold einsum. rewrite (summed_one e c); [|cbn; set_solver|cbn; set_solver]. cbn [sum_over run_lowering].
  unfold ReduceSumLast, Multiply53, Reshape5. cbn [at_ shape]. rewrite Hx, Hy.
  cbn. apply sum_ext. intros i _. unfold assign. letters. done.
Qed.

Lemma transpose_all_einsum b k n m h dim x y o : (∀ u v, mul u v = mul v u) →
  NoDup [b; k; h; m] → NoDup [b; n; h; k] → NoDup [b; n; h; m] →
  let e := Eqn [b; k; h; m] [b; n; h; k] [b; n; h; m] in
  shape x = dim <$> term_1 e → shape y = dim <$> term_2 e → length o = 4 →
  at_ (run_lowering LMatMulTransposeAll x y) o = einsum e dim x y o.
Proof.
  intros Hcomm N1%distinct4 N2%distinct4 N3%distinct4 e Hx Hy Ho. destruct_and!. destruct o as [|ob [|oh [|ow [|ok [|]]]]]; try done.
  unfold einsum. rewrite (summed_one e k); [|cbn; set_solver|cbn; set_solver]. cbn [sum_over run_lowering].
  unfold Transpose0213, MatMul. cbn [at_ shape swap12]. rewrite Hx, Hy.
  cbn. apply sum_ext. intros i _. unfold assign. letters. rewrite Hcomm. done.
Qed.
End Semantics.

(** ** The emitted ops compute the equation *)

(** No letter twice in a term; and for the equations with a transposed output, the same third letter. *)
Definition distinct_letters (e : Equation) : Prop := NoDup (term_1 e) ∧ NoDup (term_2 e) ∧ NoDup (result_ e).
Definition same_third (e : Equation) : Prop := term_2 e !! 2 = term_1 e !! 2 ∧ result_ e !! 2 = term_1 e !! 2.

(** [ParseEquation] reads exactly the equations that print, spaces aside, as two terms with a comma
    between them, an arrow and the result, each of two letters at least. *)
Theorem parse_equation_exact (s : string) (e : Equation) :
  ParseEquation s = Some e ↔
  filter (fun c => c ≠ space) (String.list_ascii_of_string s) = printed e ∧ letters (term_1 e) ∧ letters (term_2 e) ∧ letters (result_ e).
Proof. split; [apply parse_sound|]. intros (H1 & H2 & H3 & H4). by apply parse_complete. Qed.

(** C30: for every equation that the Einsum builder accepts, the ops it emits (MatMul with the right
    transposition, MatMul between Transposes, or Reshape, Multiply and ReduceSum) compute the sum of
    products that the equation denotes, when no letter occurs twice in a term and, for the kind with
    a transposed output, the third letters agree. *)
Theorem einsum_emits_equation {R : Type} (zero : R) (add mul : R → R → R) (s : string) (e : Equation) (l : Lowering)
    (dim : ascii → nat) (x y : Tensor) (o : list nat) :
  (∀ u v, mul u v = mul v u) →
  ParseEquation s = Some e → EmitEinsum e = Some l → distinct_letters e → (l = LMatMulTransposeAll → same_third e) →
  shape x = dim <$> term_1 e → shape y = dim <$> term_2 e → length o = length (result_ e) →
  at_ (run_lowering zero add mul l x y) o = einsum zero add mul e dim x y o.
Proof.
  intros Hcomm Hp He (N1 & N2 & N3) H3 Hx Hy Ho. apply parse_sound in Hp as (_ & [L1 _] & [L2 _] & [L3 _]). unfold EmitEinsum in He.
  destruct (IsEquationMatMul e) eqn:E1; [|destruct (IsEquationMatMulTransposeY e || _) eqn:E2; [|destruct (IsEquationMatMulTransposeAll e) eqn:E3;
    [|destruct (IsEquationReduceSumMulBroadcastX e) eqn:E4; [|done]]]]; injection He as <-.
  - destruct (matmul_form false e E1 L1) as (b & m & k & n & T1 & T2 & T3). destruct e as [t1 t2 r]. cbn in *. subst. by apply (einsum_matmul _ _ _ false).
  - apply orb_true_iff in E2 as [E2|E2].
    + destruct (matmul_form true e E2 L1) as (b & m & k & n & T1 & T2 & T3). destruct e as [t1 t2 r]. cbn in *. subst. by apply (einsum_matmul _ _ _ true).
    + destruct (broadcast_form e E2) as (b & h & w & c & k & ->). cbn in *. by apply broadcast_einsum.
  - destruct (transpose_all_form e E3) as (b & k & n & m & h1 & h2 & h3 & ->). destruct (H3 eq_refl) as [E5 E6]. cbn in *. simplify_eq.
    by apply transpose_all_einsum.
  - destruct (reduce_form e E4) as (b & h & w & c & k & ->). cbn in *. by apply reduce_einsum.
Qed.

Lemma einsum_emits_equation_witness :
  let e := Eqn ["b"; "i"; "j"]%char ["b"; "j"; "k"]%char ["b"; "i"; "k"]%char in
  let dim := fun _ : ascii => 2 in
  let x := {| shape := [2; 2; 2]; at_ idx := foldr (fun i acc => (Z.of_nat i + 2 * acc)%Z) 1%Z idx |} in
  ParseEquation "bij, bjk -> bik" = Some e ∧
  at_ (run_lowering 0%Z Z.add Z.mul (LMatMul false) x x) [1; 0; 1] = einsum 0%Z Z.add Z.mul e dim x x [1; 0; 1] ∧
  einsum 0%Z Z.add Z.mul e dim x x [1; 0; 1] = 312%Z.
Proof.
  cbn zeta. split_and!; [by vm_compute| |by vm_compute].
  refine (einsum_emits_equation 0%Z Z.add Z.mul "bij, bjk -> bik" _ (LMatMul false) (fun _ => 2) _ _ [1; 0; 1] Z.mul_comm _ _ _ _ _ _ _); try done; try by vm_compute.
  split_and!; by apply (bool_decide_unpack _).
Defined.

(** ** What modelling showed *)
Module EinsumFindings.

(** "ij,jj->ij" takes the diagonal of the second input; it is accepted as a MatMul. *)
Example repeated_letter_accepted :
  ∃ e, ParseEquation "ij,jj->ij" = Some e ∧ EmitEinsum e = Some (LMatMul false) ∧
    let x := {| shape := [2; 2]; at_ _ := 1%Z |} in
    at_ (run_lowering 0%Z Z.add Z.mul (LMatMul false) x x) [0; 0] = 2%Z ∧
    einsum 0%Z Z.add Z.mul e (fun _ => 2) x x [0; 0] = 1%Z.
Proof. eexists. split_and!; by vm_compute. Qed.

(** "bchq,bkxc->bkhq" sums over [x]; it is accepted although the third letters differ, and [x] is
    taken as the batch axis [h]. *)
Example third_letter_ignored :
  ∃ e, ParseEquation "bchq,bkxc->bkhq" = Some e ∧ EmitEinsum e = Some LMatMulTransposeAll ∧
    let x := {| shape := [1; 1; 2; 1]; at_ _ := 1%Z |} in
    at_ (run_lowering 0%Z Z.add Z.mul LMatMulTransposeAll x x) [0; 0; 0; 0] = 1%Z ∧
    einsum 0%Z Z.add Z.mul e (fun c => if bool_decide (c = "h" ∨ c = "x")%char then 2 else 1) x x [0; 0; 0; 0] = 2%Z.
Proof. eexists. split_and!; by vm_compute. Qed.

End EinsumFindings.
