(* ===== verification/ModelWrapper.v ===== *)
(** * Composing the QNN graph

    [QnnModelWrapper] of [builder/qnn_model_wrapper.{h,cc}]: the tables of tensor and
    parameter wrappers and of QNN nodes that the op builders fill, and
    [ComposeQnnGraph], which turns them into calls of the QNN library; also the global
    [UniqueNameGenerator] of [builder/qnn_utils.cc].

    The maps are finite maps, the JSON copy of the graph, the op trace and the log are
    left out.  A method that returns [bool] yields its answer and the new state. *)

From stdpp Require Import pretty.
From S2P Require Import Prelude DataTypes Floats QuantParams QnnTensor.
Local Open Scope Z_scope.

(** ** [UniqueNameGenerator] *)

Definition counters : Type := gmap string Z.

Definition Reset : counters := ∅.

(** [New(base, suffix)]: [counter_[name]] is created as 0, and counted in [int]. *)
Definition New (counter : counters) (base suffix : string) : string * counters :=
  let name := base +:+ suffix in
  let count := default 0 (counter !! name) in
  let counter := <[name := count + 1]> counter in
  (if count >? 0 then name +:+ "_" +:+ pretty (Z.to_N (count + 1)) else name, counter).

(** [NodeUnitBaseName]: the name of the node, or its type and index. *)
Definition NodeUnitBaseName (name op_type : string) (index : N) : string :=
  match name with EmptyString => op_type +:+ pretty index | n => n end.

Definition New_unit (counter : counters) (name op_type : string) (index : N) (suffix : string)
  : string * counters :=
  New counter (NodeUnitBaseName name op_type index) suffix.

(** ** The model wrapper *)

Record QnnOpProperty := OpProperty {
  qnn_node_name_ : string;
  package_name_ : string;
  qnn_node_type_ : string;
  input_names_ : list string;
  output_names_ : list string;
  param_tensor_names_ : list string
}.

Record ModelSettings := Settings {
  offload_graph_io_quantization : bool;
  htp_shared_memory : bool;
  htp_bf16_enable : bool;
  enable_block_quant_weight_optimization : bool;
  use_native_matmul : bool;
  enable_htp_monolithic_lstm : bool
}.

(** What the model wrapper is constructed from: settings, backend, the names of the graph
    inputs and outputs, the ORT graph's constants, the initial QNN structs and the
    constants of the QNN headers. *)
Record environment := Env {
  model_settings_ : ModelSettings;
  backend_type : QnnBackendType;
  graph_inputs_ : list string;
  graph_outputs_ : list string;
  IsConstantInput : string → bool;
  tensor_init : Qnn_Tensor_t;
  op_config_init : Qnn_OpConfig_t;
  narrow_nan : Z → Z;
  QNN_OP_PACKAGE_NAME_QTI_AISW : string;
  QNN_OP_CAST : string
}.

Section ModelWrapper.
Context `{SafeInt} `{QnnInterface}.
Variable env : environment.

Record QnnModelWrapper := Model {
  model_tensors_map_ : gmap string QnnTensorWrapper;
  model_params_map_ : gmap string QnnParamWrapper;
  qnn_op_property_list_ : list QnnOpProperty;
  qnn_node_names_ : gset string;
  qnn_tensor_id_map_ : gmap string Z;
  tensor_name_overrides_ : option (gmap string string);
  graph_ : qnn_graph;
  name_counters : counters
}.

Definition with_tensors (m : QnnModelWrapper) v := Model v (model_params_map_ m) (qnn_op_property_list_ m)
  (qnn_node_names_ m) (qnn_tensor_id_map_ m) (tensor_name_overrides_ m) (graph_ m) (name_counters m).
Definition with_params (m : QnnModelWrapper) v := Model (model_tensors_map_ m) v (qnn_op_property_list_ m)
  (qnn_node_names_ m) (qnn_tensor_id_map_ m) (tensor_name_overrides_ m) (graph_ m) (name_counters m).
Definition with_ops (m : QnnModelWrapper) v := Model (model_tensors_map_ m) (model_params_map_ m) v
  (qnn_node_names_ m) (qnn_tensor_id_map_ m) (tensor_name_overrides_ m) (graph_ m) (name_counters m).
Definition with_node_names (m : QnnModelWrapper) v := Model (model_tensors_map_ m) (model_params_map_ m)
  (qnn_op_property_list_ m) v (qnn_tensor_id_map_ m) (tensor_name_overrides_ m) (graph_ m) (name_counters m).
Definition with_graph (m : QnnModelWrapper) ids v := Model (model_tensors_map_ m) (model_params_map_ m)
  (qnn_op_property_list_ m) (qnn_node_names_ m) ids (tensor_name_overrides_ m) v (name_counters m).
Definition with_counters (m : QnnModelWrapper) v := Model (model_tensors_map_ m) (model_params_map_ m)
  (qnn_op_property_list_ m) (qnn_node_names_ m) (qnn_tensor_id_map_ m) (tensor_name_overrides_ m) (graph_ m) v.

Definition IsGraphInput (name : string) : bool := bool_decide (name ∈ graph_inputs_ env).
Definition IsGraphOutput (name : string) : bool := bool_decide (name ∈ graph_outputs_ env).

Definition TensorTypeOf (name : string) : Qnn_TensorType_t :=
  if IsConstantInput env name then TENSOR_TYPE_STATIC
  else if IsGraphInput name then TENSOR_TYPE_APP_WRITE
  else if IsGraphOutput name then TENSOR_TYPE_APP_READ
  else TENSOR_TYPE_NATIVE.

Definition IsQnnTensorWrapperExist (m : QnnModelWrapper) (name : string) : bool :=
  bool_decide (is_Some (model_tensors_map_ m !! name)).
Definition QnnParamExists (m : QnnModelWrapper) (name : string) : bool :=
  bool_decide (is_Some (model_params_map_ m !! name)).

Definition SetTensorNameOverride (m : QnnModelWrapper) (internal original : string) : QnnModelWrapper :=
  match tensor_name_overrides_ m with
  | None => m
  | Some t =>
      if bool_decide (internal ≠ "") && bool_decide (original ≠ "") && bool_decide (t !! internal = None) then
        Model (model_tensors_map_ m) (model_params_map_ m) (qnn_op_property_list_ m) (qnn_node_names_ m)
          (qnn_tensor_id_map_ m) (Some (<[internal := original]> t)) (graph_ m) (name_counters m)
      else m
  end.

Definition GetTensorNameOverride (m : QnnModelWrapper) (internal : string) : option string :=
  match tensor_name_overrides_ m with None => None | Some t => t !! internal end.

Definition SetTensorMemTypeFromSettings (w : QnnTensorWrapper) (tensor_name : string)
  : result QnnTensorWrapper :=
  let mem_type :=
    if htp_shared_memory (model_settings_ env) && (IsGraphInput tensor_name || IsGraphOutput tensor_name)
    then TENSORMEMTYPE_MEMHANDLE else TENSORMEMTYPE_RAW in
  let* t := SetQnnTensorMemType (qnn_tensor_ w) mem_type in
  Ok (with_tensor w t).

Definition AddTensorWrapper (m : QnnModelWrapper) (w : QnnTensorWrapper) : result (bool * QnnModelWrapper) :=
  let tensor_name := tensor_name_ w in
  if bool_decide (tensor_name = "") then Ok (false, m)
  else if IsQnnTensorWrapperExist m tensor_name then Ok (true, m)
  else
    let* w := SetTensorMemTypeFromSettings w tensor_name in
    let* (w, _) := move_construct (tensor_init env) w in
    Ok (true, with_tensors m (<[tensor_name := w]> (model_tensors_map_ m))).

Definition AddParamWrapper (m : QnnModelWrapper) (w : QnnParamWrapper) : result (bool * QnnModelWrapper) :=
  let param_tensor_name := pw_tensor_name_ w in
  if bool_decide (param_tensor_name = "") then Ok (false, m)
  else if QnnParamExists m param_tensor_name then Ok (true, m)
  else
    let* w := move_param w in
    Ok (true, with_params m (<[param_tensor_name := w]> (model_params_map_ m))).

Definition GetQnnTensorWrapper (m : QnnModelWrapper) (tensor_name : string) : result QnnTensorWrapper :=
  match model_tensors_map_ m !! tensor_name with
  | Some w => Ok w
  | None => Err (Throw "Qnn tensor not exist: ")
  end.

(** The name override of a tensor, applied to its wrapper. *)
Definition apply_override (m : QnnModelWrapper) (tensor_name : string) (w : QnnTensorWrapper)
  : result QnnTensorWrapper :=
  if offload_graph_io_quantization (model_settings_ env) then
    match GetTensorNameOverride m tensor_name with
    | Some name => SetResolvedTensorName w name
    | None => Ok w
    end
  else Ok w.

(** The creation of one tensor of the table. *)
Definition create_in_graph (m : QnnModelWrapper) (tensor_name : string) (w : QnnTensorWrapper)
  : result (bool * QnnModelWrapper * QnnTensorWrapper) :=
  let* w := apply_override m tensor_name w in
  let* (w, c) := CreateQnnGraphTensor (graph_ m) w (qnn_tensor_id_map_ m) in
  let m := with_graph (with_tensors m (<[tensor_name := w]> (model_tensors_map_ m))) (c_table c) (c_graph c) in
  Ok (c_ok c, m, w).

Fixpoint CreateQnnInputOutputTensors (m : QnnModelWrapper) (tensor_names : list string)
  (qnn_tensors : list Qnn_Tensor_t) (do_op_validation : bool)
  : result (bool * QnnModelWrapper * list Qnn_Tensor_t) :=
  match tensor_names with
  | [] => Ok (true, m, qnn_tensors)
  | tensor_name :: tensor_names =>
      match model_tensors_map_ m !! tensor_name with
      | None => Ok (false, m, qnn_tensors)
      | Some w =>
          if do_op_validation then
            CreateQnnInputOutputTensors m tensor_names (qnn_tensors ++ [qnn_tensor_ w]) do_op_validation
          else
            let* (rt, m, w) := create_in_graph m tensor_name w in
            if negb rt then Ok (false, m, qnn_tensors)
            else CreateQnnInputOutputTensors m tensor_names (qnn_tensors ++ [qnn_tensor_ w]) do_op_validation
      end
  end.

Fixpoint CreateQnnParamTensors (m : QnnModelWrapper) (param_tensor_names : list string)
  (qnn_params : list Qnn_Param_t) (do_op_validation : bool)
  : result (bool * QnnModelWrapper * list Qnn_Param_t) :=
  match param_tensor_names with
  | [] => Ok (true, m, qnn_params)
  | name :: names =>
      match model_params_map_ m !! name with
      | None => Ok (false, m, qnn_params)
      | Some w =>
          if do_op_validation then
            CreateQnnParamTensors m names (qnn_params ++ [pw_qnn_param_ w]) do_op_validation
          else
            let* (w, rt, table, graph) := CreateQnnGraphParam (graph_ m) w (qnn_tensor_id_map_ m) in
            let m := with_graph (with_params m (<[name := w]> (model_params_map_ m))) table graph in
            if negb rt then Ok (false, m, qnn_params)
            else CreateQnnParamTensors m names (qnn_params ++ [pw_qnn_param_ w]) do_op_validation
      end
  end.

(** [requested_name], or the first free [requested_name_<suffix>]. *)
Definition suffixed (requested_name : string) (suffix : nat) : string :=
  requested_name +:+ "_" +:+ pretty suffix.

Fixpoint find_suffix (names : gset string) (requested_name : string) (suffix n : nat) : option string :=
  match n with
  | O => None
  | S n =>
      if bool_decide (suffixed requested_name suffix ∈ names)
      then find_suffix names requested_name (S suffix) n
      else Some (suffixed requested_name suffix)
  end.

Definition MakeUniqueQnnNodeName (m : QnnModelWrapper) (requested_name : string)
  : result (string * QnnModelWrapper) :=
  let names := qnn_node_names_ m in
  if negb (bool_decide (requested_name ∈ names)) then
    Ok (requested_name, with_node_names m ({[ requested_name ]} ∪ names))
  else
    let max_suffix := S (size names) in
    match find_suffix names requested_name 2 (max_suffix - 1) with
    | Some unique_name => Ok (unique_name, with_node_names m ({[ unique_name ]} ∪ names))
    | None => Err (Throw "Failed to allocate a unique QNN node name.")
    end.

(** ** BF16 conversion *)

Definition IsBF16ConversionEnabled : bool :=
  htp_bf16_enable (model_settings_ env) &&
  (bool_decide (backend_type env = HTP) || bool_decide (backend_type env = SERIALIZER)).

Definition CreateBF16CastTensor (m : QnnModelWrapper) (tensor_name : string) (shape : list Z)
  (tensor_type : Qnn_TensorType_t) : result (bool * QnnModelWrapper) :=
  let* bf16_tensor := make_tensor (tensor_init env) (narrow_nan env) tensor_name tensor_type QNN_BFLOAT_16
    default_wrapper shape [] TENSORMEMTYPE_RAW in
  AddTensorWrapper m bf16_tensor.

(** [SetQnnTensorDataType(tensor_wrapper.GetQnnTensor(), ...)] on an entry of the table. *)
Definition set_data_type (m : QnnModelWrapper) (name : string) (w : QnnTensorWrapper)
  (data_type : Qnn_DataType_t) : result QnnModelWrapper :=
  let* t := SetQnnTensorDataType (qnn_tensor_ w) data_type in
  Ok (with_tensors m (<[name := with_tensor w t]> (model_tensors_map_ m))).

Definition bf16_name (name : string) : string := name +:+ "_bf16_intermediate".

Definition cast_op (node_name input output : string) : QnnOpProperty :=
  OpProperty node_name (QNN_OP_PACKAGE_NAME_QTI_AISW env) (QNN_OP_CAST env) [input] [output] [].

(** A cast of [input_name] to BF16, added unless its output exists already. *)
Definition add_input_cast (m : QnnModelWrapper) (input_name : string) (w : QnnTensorWrapper)
  (cast_ops : list QnnOpProperty) : result (bool * QnnModelWrapper * list QnnOpProperty) :=
  let cast_output_name := bf16_name input_name in
  if IsQnnTensorWrapperExist m cast_output_name then Ok (true, m, cast_ops)
  else
    let* (ok, m) := CreateBF16CastTensor m cast_output_name (dimensions_ w) TENSOR_TYPE_NATIVE in
    if negb ok then Ok (false, m, cast_ops)
    else
      let* (node_name, m) := MakeUniqueQnnNodeName m cast_output_name in
      Ok (true, m, cast_ops ++ [cast_op node_name input_name cast_output_name]).

Fixpoint ProcessBF16InputConversion (m : QnnModelWrapper) (input_names converted : list string)
  (cast_ops : list QnnOpProperty) : result (bool * QnnModelWrapper * list string * list QnnOpProperty) :=
  match input_names with
  | [] => Ok (true, m, converted, cast_ops)
  | input_name :: input_names =>
      match model_tensors_map_ m !! input_name with
      | None => Ok (false, m, converted, cast_ops)
      | Some w =>
          let* tensor_dtype := GetTensorDataType w in
          let* tensor_type := GetTensorType w in
          let is_float := bool_decide (tensor_dtype = QNN_FLOAT_32) in
          let is_graph_input_or_init :=
            IsGraphInput input_name || IsConstantInput env input_name || IsGraphOutput input_name in
          if is_graph_input_or_init && is_float then
            let* (ok, m, cast_ops) := add_input_cast m input_name w cast_ops in
            if negb ok then Ok (false, m, converted, cast_ops)
            else ProcessBF16InputConversion m input_names (converted ++ [bf16_name input_name]) cast_ops
          else if bool_decide (tensor_type = TENSOR_TYPE_NATIVE) && is_float then
            let* m := set_data_type m input_name w QNN_BFLOAT_16 in
            ProcessBF16InputConversion m input_names (converted ++ [input_name]) cast_ops
          else if bool_decide (tensor_type = TENSOR_TYPE_STATIC) && negb (IsConstantInput env input_name) && is_float then
            let* (ok, m, cast_ops) := add_input_cast m input_name w cast_ops in
            if negb ok then Ok (false, m, converted, cast_ops)
            else ProcessBF16InputConversion m input_names (converted ++ [bf16_name input_name]) cast_ops
          else ProcessBF16InputConversion m input_names (converted ++ [input_name]) cast_ops
      end
  end.

Fixpoint ProcessBF16OutputConversion (m : QnnModelWrapper) (output_names converted : list string)
  (casts : list (string * string)) : result (bool * QnnModelWrapper * list string * list (string * string)) :=
  match output_names with
  | [] => Ok (true, m, converted, casts)
  | output_name :: output_names =>
      match model_tensors_map_ m !! output_name with
      | None => ProcessBF16OutputConversion m output_names converted casts
      | Some w =>
          let* tensor_dtype := GetTensorDataType w in
          let* tensor_type := GetTensorType w in
          let is_float := bool_decide (tensor_dtype = QNN_FLOAT_32) in
          if IsGraphOutput output_name && (is_float || bool_decide (tensor_dtype = QNN_BFLOAT_16)) then
            let '(bf16_output_name, counter) := New (name_counters m) output_name "_bf16_intermediate" in
            let m := with_counters m counter in
            if IsQnnTensorWrapperExist m bf16_output_name then
              ProcessBF16OutputConversion m output_names (converted ++ [bf16_output_name]) casts
            else
              let* (ok, m) := CreateBF16CastTensor m bf16_output_name (dimensions_ w) TENSOR_TYPE_NATIVE in
              if negb ok then Ok (false, m, converted, casts)
              else ProcessBF16OutputConversion m output_names (converted ++ [bf16_output_name])
                     (casts ++ [(bf16_output_name, output_name)])
          else if bool_decide (tensor_type = TENSOR_TYPE_NATIVE) && is_float then
            let* m := set_data_type m output_name w QNN_BFLOAT_16 in
            ProcessBF16OutputConversion m output_names (converted ++ [output_name]) casts
          else ProcessBF16OutputConversion m output_names (converted ++ [output_name]) casts
      end
  end.

(** The casts of the graph outputs, each with a node name of its own. *)
Fixpoint output_cast_ops (m : QnnModelWrapper) (casts : list (string * string)) (ops : list QnnOpProperty)
  : result (QnnModelWrapper * list QnnOpProperty) :=
  match casts with
  | [] => Ok (m, ops)
  | (bf16_name, fp32_name) :: casts =>
      let* (cast_node_name, m) := MakeUniqueQnnNodeName m bf16_name in
      output_cast_ops m casts (ops ++ [cast_op cast_node_name bf16_name fp32_name])
  end.

Fixpoint bf16_ops (m : QnnModelWrapper) (ops processed input_casts : list QnnOpProperty)
  : result (bool * QnnModelWrapper * list QnnOpProperty * list QnnOpProperty) :=
  match ops with
  | [] => Ok (true, m, processed, input_casts)
  | op :: ops =>
      let* (ok, m, converted_inputs, input_casts) :=
        ProcessBF16InputConversion m (input_names_ op) [] input_casts in
      if negb ok then Ok (false, m, processed, input_casts)
      else
      let* (ok, m, converted_outputs, casts) := ProcessBF16OutputConversion m (output_names_ op) [] [] in
      if negb ok then Ok (false, m, processed, input_casts)
      else
      let processed := processed ++ [OpProperty (qnn_node_name_ op) (package_name_ op) (qnn_node_type_ op)
        converted_inputs converted_outputs (param_tensor_names_ op)] in
      let* (m, processed) := output_cast_ops m casts processed in
      bf16_ops m ops processed input_casts
  end.

Definition ProcessBF16Conversions (m : QnnModelWrapper)
  : result (bool * QnnModelWrapper * list QnnOpProperty) :=
  let* (ok, m, processed_ops, input_cast_ops) := bf16_ops m (qnn_op_property_list_ m) [] [] in
  if negb ok then Ok (false, m, []) else Ok (true, m, input_cast_ops ++ processed_ops).

(** Validation runs with the FP32 tensors shown as BF16, and turns them back afterwards. *)
Fixpoint convert_types (from to : Qnn_DataType_t) (m : QnnModelWrapper) (names : list string)
  : result QnnModelWrapper :=
  match names with
  | [] => Ok m
  | name :: names =>
      match model_tensors_map_ m !! name with
      | None => convert_types from to m names
      | Some w =>
          let* dtype := GetTensorDataType w in
          let* m := if bool_decide (dtype = from) then set_data_type m name w to else Ok m in
          convert_types from to m names
      end
  end.

Fixpoint convert_inputs (m : QnnModelWrapper) (names : list string) : result (bool * QnnModelWrapper) :=
  match names with
  | [] => Ok (true, m)
  | name :: names =>
      match model_tensors_map_ m !! name with
      | None => Ok (false, m)
      | Some w =>
          let* dtype := GetTensorDataType w in
          let* m := if bool_decide (dtype = QNN_FLOAT_32) then set_data_type m name w QNN_BFLOAT_16 else Ok m in
          convert_inputs m names
      end
  end.

Definition ApplyBF16ConversionForValidation (m : QnnModelWrapper) (input_names output_names : list string)
  : result (bool * QnnModelWrapper) :=
  let* (ok, m) := convert_inputs m input_names in
  if negb ok then Ok (false, m)
  else let* m := convert_types QNN_FLOAT_32 QNN_BFLOAT_16 m output_names in Ok (true, m).

Definition RestoreFP32AfterValidation (m : QnnModelWrapper) (input_names output_names : list string)
  : result QnnModelWrapper :=
  let* m := convert_types QNN_BFLOAT_16 QNN_FLOAT_32 m input_names in
  convert_types QNN_BFLOAT_16 QNN_FLOAT_32 m output_names.

(** ** Nodes *)

(** The three tables of a node, in the order of the arguments of [QnnOpConfigWrapper]. *)
Definition node_tensors (m : QnnModelWrapper) (input_names output_names param_names : list string)
  (do_op_validation : bool)
  : result (option (list Qnn_Tensor_t * list Qnn_Tensor_t * list Qnn_Param_t) * QnnModelWrapper) :=
  let* (ok, m, inputs) := CreateQnnInputOutputTensors m input_names [] do_op_validation in
  if negb ok then Ok (None, m) else
  let* (ok, m, outputs) := CreateQnnInputOutputTensors m output_names [] do_op_validation in
  if negb ok then Ok (None, m) else
  let* (ok, m, params) := CreateQnnParamTensors m param_names [] do_op_validation in
  if negb ok then Ok (None, m) else Ok (Some (inputs, outputs, params), m).

(** [CreateQnnNode]: validation of a node, or its entry in the list of nodes. *)
Definition CreateQnnNode (m : QnnModelWrapper) (qnn_node_name package_name qnn_node_type : string)
  (input_names output_names param_tensor_names : list string) (do_op_validation : bool)
  : result (bool * QnnModelWrapper) :=
  if do_op_validation then
    let* (ok, m) :=
      if IsBF16ConversionEnabled then ApplyBF16ConversionForValidation m input_names output_names
      else Ok (true, m) in
    if negb ok then Ok (false, m)
    else
    let* (tensors, m) := node_tensors m input_names output_names param_tensor_names true in
    let* valid :=
      match tensors with
      | None => Ok false
      | Some (inputs, outputs, params) =>
          let* op := make_op_config (op_config_init env) qnn_node_name package_name qnn_node_type
            inputs outputs params in
          Ok (QnnGraphOpValidation op)
      end in
    let* m := if IsBF16ConversionEnabled then RestoreFP32AfterValidation m input_names output_names else Ok m in
    Ok (valid, m)
  else
    let* (unique_node_name, m) := MakeUniqueQnnNodeName m qnn_node_name in
    let op := OpProperty unique_node_name package_name qnn_node_type input_names output_names param_tensor_names in
    Ok (true, with_ops m (qnn_op_property_list_ m ++ [op])).

(** The lambda of [RegisterGraphInputOutputInOrder]. *)
Fixpoint register_names (m : QnnModelWrapper) (sorted_names : list string) (expected_type : Qnn_TensorType_t)
  : result (bool * QnnModelWrapper) :=
  match sorted_names with
  | [] => Ok (true, m)
  | name :: names =>
      match model_tensors_map_ m !! name with
      | None => register_names m names expected_type
      | Some w =>
          let* tensor_type := GetTensorType w in
          if bool_decide (tensor_type ≠ expected_type) || bool_decide (is_Some (qnn_tensor_id_map_ m !! name))
          then register_names m names expected_type
          else
            let* (ok, m, _) := create_in_graph m name w in
            if negb ok then Ok (false, m) else register_names m names expected_type
      end
  end.

Definition RegisterGraphInputOutputInOrder (m : QnnModelWrapper) : result (bool * QnnModelWrapper) :=
  let* (ok, m) := register_names m (graph_inputs_ env) TENSOR_TYPE_APP_WRITE in
  if negb ok then Ok (false, m) else register_names m (graph_outputs_ env) TENSOR_TYPE_APP_READ.

Fixpoint compose_ops (m : QnnModelWrapper) (ops : list QnnOpProperty) : result (bool * QnnModelWrapper) :=
  match ops with
  | [] => Ok (true, m)
  | op :: ops =>
      let* (tensors, m) :=
        node_tensors m (input_names_ op) (output_names_ op) (param_tensor_names_ op) false in
      match tensors with
      | None => Ok (false, m)
      | Some (inputs, outputs, params) =>
          let* config := make_op_config (op_config_init env) (qnn_node_name_ op) (package_name_ op)
            (qnn_node_type_ op) inputs outputs params in
          let '(rt, graph) := CreateQnnGraphOp (graph_ m) config in
          let m := with_graph m (qnn_tensor_id_map_ m) graph in
          if negb rt then Ok (false, m) else compose_ops m ops
      end
  end.

Definition ComposeQnnGraph (m : QnnModelWrapper) : result (bool * QnnModelWrapper) :=
  match qnn_op_property_list_ m with
  | [] => Ok (false, m)
  | _ =>
      let* (ok, m) := RegisterGraphInputOutputInOrder m in
      if negb ok then Ok (false, m) else
      let* (ok, m, ops_to_process) :=
        if IsBF16ConversionEnabled then ProcessBF16Conversions m
        else Ok (true, m, qnn_op_property_list_ m) in
      if negb ok then Ok (false, m) else compose_ops m ops_to_process
  end.

(** [GetGraphInputOutputTensorWrapper]: the wrappers move out of the table. *)
Fixpoint GetGraphInputOutputTensorWrapper (m : QnnModelWrapper) (names : list string)
  (wrappers : list QnnTensorWrapper) : result (QnnModelWrapper * list QnnTensorWrapper) :=
  match names with
  | [] => Ok (m, wrappers)
  | name :: names =>
      match model_tensors_map_ m !! name with
      | None => Ok (m, wrappers)
      | Some w =>
          let* w := apply_override m name w in
          let* (w, _) := move_construct (tensor_init env) w in
          GetGraphInputOutputTensorWrapper (with_tensors m (delete name (model_tensors_map_ m))) names
            (wrappers ++ [w])
      end
  end.

(** [GetOnnxShape]: dynamic dimensions are refused, a scalar has shape [1]; [SafeInt<uint32_t>]
    throws on a dimension that does not fit. *)
Definition GetOnnxShape (onnx_shape : option (list Z)) : result (option (list Z)) :=
  match onnx_shape with
  | None => Ok None
  | Some [] => Ok (Some [1])
  | Some dims =>
      foldM (fun shape dim =>
        match shape with
        | None => Ok None
        | Some s => if dim <? 0 then Ok None
                    else if dim <? 2 ^ 32 then Ok (Some (s ++ [dim])) else Err overflow
        end) dims (Some [])
  end.

End ModelWrapper.

(** ** Node names *)

Lemma append_inj (s a b : string) : s +:+ a = s +:+ b → a = b.
Proof. induction s as [|c s IH]; cbn; [done|]. intros [= E]. by apply IH. Qed.

Lemma append_length (a b : string) : String.length (a +:+ b) = (String.length a + String.length b)%nat.
Proof. induction a as [|c a IH]; [done|]. exact (f_equal S IH). Qed.

Lemma suffixed_inj r i j : suffixed r i = suffixed r j → i = j.
Proof. intros E. apply append_inj, (append_inj "_") in E. by apply (inj pretty). Qed.

Lemma suffixed_ne r i : suffixed r i ≠ r.
Proof.
  intros E. apply (f_equal String.length) in E. unfold suffixed in E.
  rewrite !append_length in E. change (String.length "_") with 1%nat in E. lia.
Qed.

Lemma find_suffix_spec names r : ∀ n i,
  match find_suffix names r i n with
  | Some u => u ∉ names
  | None => ∀ j, (i ≤ j < i + n)%nat → suffixed r j ∈ names
  end.
Proof.
  induction n as [|n IH]; intros i; cbn; [intros j Hj; lia|].
  case_bool_decide as Hin; [|done]. specialize (IH (S i)). destruct (find_suffix names r (S i) n); [done|].
  intros j Hj. destruct (decide (j = i)) as [->|]; [done|]. apply IH. lia.
Qed.

(** [size names] candidates and the requested name cannot all be among [size names] names. *)
Lemma find_suffix_total names r :
  r ∈ names → ∃ u, find_suffix names r 2 (size names) = Some u ∧ u ∉ names.
Proof.
  intros Hr. pose proof (find_suffix_spec names r (size names) 2) as Hs.
  destruct (find_suffix names r 2 (size names)) as [u|] eqn:E; [by exists u|exfalso].
  assert (NoDup (r :: (suffixed r <$> seq 2 (size names)))) as Hnd.
  { constructor.
    - intros Hin. apply list_elem_of_fmap in Hin as (j & Ej & _). by apply (suffixed_ne r j).
    - apply NoDup_fmap_2_strong; [|apply NoDup_seq]. intros x y _ _. apply suffixed_inj. }
  assert ((list_to_set (r :: (suffixed r <$> seq 2 (size names))) : gset string) ⊆ names) as Hsub.
  { intros x. rewrite elem_of_list_to_set, elem_of_cons. intros [->|Hx]; [done|].
    apply list_elem_of_fmap in Hx as (j & -> & Hj). apply elem_of_seq in Hj. apply Hs. lia. }
  apply subseteq_size in Hsub. rewrite size_list_to_set in Hsub by done.
  cbn [length] in Hsub. rewrite length_fmap, length_seq in Hsub. lia.
Qed.

Section NodeNames.
Context `{SafeInt} `{QnnInterface}.
Variable env : environment.

Lemma make_unique_spec (m : QnnModelWrapper) r :
  ∃ u, MakeUniqueQnnNodeName m r = Ok (u, with_node_names m ({[ u ]} ∪ qnn_node_names_ m)) ∧
    u ∉ qnn_node_names_ m.
Proof.
  unfold MakeUniqueQnnNodeName. case_bool_decide as Hin; cbn [negb]; [|by exists r].
  destruct (find_suffix_total _ _ Hin) as (u & Hu & Hn). exists u.
  rewrite Nat.sub_succ, Nat.sub_0_r, Hu. done.
Qed.

(** The names of the listed nodes are distinct and reserved. *)
Definition names_ok (m : QnnModelWrapper) (ops : list QnnOpProperty) : Prop :=
  NoDup (qnn_node_name_ <$> ops) ∧ ∀ op, op ∈ ops → qnn_node_name_ op ∈ qnn_node_names_ m.

Lemma names_ok_snoc m m' ops op :
  names_ok m ops → qnn_node_name_ op ∉ qnn_node_names_ m →
  qnn_node_names_ m' = {[ qnn_node_name_ op ]} ∪ qnn_node_names_ m → names_ok m' (ops ++ [op]).
Proof.
  intros [Hnd Hin] Hnew Heq. split.
  - rewrite fmap_app. apply NoDup_app. split_and!; [done| |apply NoDup_singleton].
    intros x Hx Hy. apply list_elem_of_singleton in Hy as ->.
    apply list_elem_of_fmap in Hx as (o & E & Ho). apply Hnew. rewrite E. by apply Hin.
  - intros o Ho. rewrite Heq. apply elem_of_app in Ho as [Ho|Ho]; [set_solver|].
    apply list_elem_of_singleton in Ho as ->. set_solver.
Qed.

Lemma names_ok_perm m ops ops' : ops ≡ₚ ops' → names_ok m ops → names_ok m ops'.
Proof. intros Hp [Hnd Hin]. split; [by rewrite <- Hp|]. intros op Hop. apply Hin. by rewrite Hp. Qed.

Lemma names_ok_names m m' ops : qnn_node_names_ m' = qnn_node_names_ m → names_ok m ops → names_ok m' ops.
Proof. intros E [Hnd Hin]. split; [done|]. by rewrite E. Qed.

(** Renaming the tensors of a node keeps its name. *)
Lemma names_ok_same m ops ops' :
  qnn_node_name_ <$> ops' = qnn_node_name_ <$> ops → names_ok m ops → names_ok m ops'.
Proof.
  intros E [Hnd Hin]. split; [by rewrite E|]. intros op Hop.
  assert (qnn_node_name_ op ∈ qnn_node_name_ <$> ops) as Hx by (rewrite <- E; by apply list_elem_of_fmap_2).
  apply list_elem_of_fmap in Hx as (o & -> & Ho). by apply Hin.
Qed.

Lemma add_tensor_names m w ok m' : AddTensorWrapper env m w = Ok (ok, m') →
  qnn_node_names_ m' = qnn_node_names_ m ∧ qnn_op_property_list_ m' = qnn_op_property_list_ m.
Proof.
  unfold AddTensorWrapper. case_bool_decide; [by intros [= _ <-]|].
  destruct (IsQnnTensorWrapperExist m (tensor_name_ w)); [by intros [= _ <-]|].
  intros Ha. inv_bind Ha. inv_bind Ha. destruct a0. by injection Ha as _ <-.
Qed.

Lemma bf16_tensor_names m name shape ty ok m' : CreateBF16CastTensor env m name shape ty = Ok (ok, m') →
  qnn_node_names_ m' = qnn_node_names_ m ∧ qnn_op_property_list_ m' = qnn_op_property_list_ m.
Proof. unfold CreateBF16CastTensor. intros Hc. inv_bind Hc. by apply add_tensor_names in Hc. Qed.

Lemma add_input_cast_names m name w casts ok m' casts' ops :
  add_input_cast env m name w casts = Ok (ok, m', casts') → names_ok m (ops ++ casts) →
  names_ok m' (ops ++ casts').
Proof.
  unfold add_input_cast. destruct (IsQnnTensorWrapperExist m (bf16_name name)); [by intros [= _ <- <-]|].
  intros Hc Hok. inv_bind Hc. destruct a as [ok1 m1]. apply bf16_tensor_names in Hc0 as [En _].
  destruct ok1; cbn [negb] in Hc.
  - destruct (make_unique_spec m1 (bf16_name name)) as (u & Hu & Hn). rewrite Hu in Hc. cbn [rbind] in Hc.
    injection Hc as _ <- <-. rewrite app_assoc. eapply names_ok_snoc; [by apply (names_ok_names m)|done|done].
  - injection Hc as _ <- <-. by apply (names_ok_names m).
Qed.

Lemma set_data_type_names m name w dt m' : set_data_type m name w dt = Ok m' →
  qnn_node_names_ m' = qnn_node_names_ m ∧ qnn_op_property_list_ m' = qnn_op_property_list_ m.
Proof. unfold set_data_type. intros Hs. inv_bind Hs. by injection Hs as <-. Qed.

Lemma bf16_inputs_names ops : ∀ names m converted casts ok m' converted' casts',
  ProcessBF16InputConversion env m names converted casts = Ok (ok, m', converted', casts') →
  names_ok m (ops ++ casts) → names_ok m' (ops ++ casts').
Proof.
  induction names as [|n names IH]; intros m converted casts ok m' converted' casts' Hp Hok; cbn in Hp.
  { by injection Hp as _ <- _ <-. }
  destruct (model_tensors_map_ m !! n) as [w|]; [|by injection Hp as _ <- _ <-].
  run_cases;
    repeat match goal with
    | E : add_input_cast _ _ _ _ _ = Ok _ |- _ => eapply add_input_cast_names in E; [|done]
    | E : set_data_type _ _ _ _ = Ok _ |- _ => apply set_data_type_names in E as [? _]
    end; simplify_res; eauto using names_ok_names.
Qed.

Lemma bf16_outputs_names ops : ∀ names m converted casts ok m' converted' casts',
  ProcessBF16OutputConversion env m names converted casts = Ok (ok, m', converted', casts') →
  names_ok m ops → names_ok m' ops.
Proof.
  induction names as [|n names IH]; intros m converted casts ok m' converted' casts' Hp Hok; cbn in Hp.
  { by injection Hp as _ <- _ <-. }
  destruct (model_tensors_map_ m !! n) as [w|]; [|by eapply IH].
  run_cases;
    repeat match goal with
    | E : CreateBF16CastTensor _ _ _ _ _ = Ok _ |- _ => apply bf16_tensor_names in E as [? _]
    | E : set_data_type _ _ _ _ = Ok _ |- _ => apply set_data_type_names in E as [? _]
    end; simplify_res; eauto using names_ok_names.
Qed.

Lemma output_casts_names rest : ∀ casts m ops m' ops',
  output_cast_ops env m casts ops = Ok (m', ops') → names_ok m (rest ++ ops) → names_ok m' (rest ++ ops').
Proof.
  induction casts as [|[b f] casts IH]; intros m ops m' ops' Hc Hok; cbn in Hc.
  { by injection Hc as <- <-. }
  destruct (make_unique_spec m b) as (u & Hu & Hn). rewrite Hu in Hc. cbn [rbind] in Hc.
  eapply IH; [exact Hc|]. rewrite app_assoc. by eapply names_ok_snoc.
Qed.

(** The processed nodes keep their names, the casts get new ones. *)
Lemma bf16_ops_names : ∀ ops m processed casts ok m' processed' casts',
  bf16_ops env m ops processed casts = Ok (ok, m', processed', casts') →
  names_ok m ((ops ++ processed) ++ casts) → ok = true → names_ok m' (processed' ++ casts').
Proof.
  induction ops as [|op ops IH]; intros m processed casts ok m' processed' casts' Hp Hok Ht; cbn in Hp.
  { by injection Hp as _ <- <- <-. }
  run_cases; try done.
  match goal with E : ProcessBF16InputConversion _ _ _ _ _ = Ok _ |- _ =>
    eapply (bf16_inputs_names (op :: ops ++ processed)) in E; [|exact Hok] end.
  match goal with E : ProcessBF16OutputConversion _ _ _ _ _ = Ok _ |- _ =>
    eapply bf16_outputs_names in E; [|eassumption] end.
  match goal with E : output_cast_ops _ _ _ _ = Ok _, N : names_ok ?m (_ ++ ?c) |- _ =>
    eapply (output_casts_names (ops ++ c)) in E end.
  - eapply IH; [eassumption| |done]. eapply names_ok_perm; [|eassumption].
    rewrite <- !app_assoc. apply Permutation_app_head, Permutation_app_comm.
  - apply (names_ok_same _ ((ops ++ l) ++ processed ++ [op])).
    { by rewrite !fmap_app. }
    eapply names_ok_perm; [|eassumption]. rewrite <- !app_assoc, <- app_comm_cons.
    rewrite Permutation_cons_append, <- !app_assoc. apply Permutation_app_head.
    rewrite !app_assoc. apply Permutation_app_tail, Permutation_app_comm.
Qed.

Lemma convert_types_names from to names : ∀ m m', convert_types from to m names = Ok m' →
  qnn_node_names_ m' = qnn_node_names_ m ∧ qnn_op_property_list_ m' = qnn_op_property_list_ m.
Proof.
  induction names as [|n names IH]; intros m m' Hc; cbn in Hc; [by injection Hc as <-|].
  run_cases; try (by apply IH);
    match goal with E : set_data_type _ _ _ _ = Ok _ |- _ => apply set_data_type_names in E as [<- <-] end;
    by apply IH.
Qed.

Lemma convert_inputs_names names : ∀ m ok m', convert_inputs m names = Ok (ok, m') →
  qnn_node_names_ m' = qnn_node_names_ m ∧ qnn_op_property_list_ m' = qnn_op_property_list_ m.
Proof.
  induction names as [|n names IH]; intros m ok m' Hc; cbn in Hc; [by injection Hc as _ <-|].
  run_cases; try done; try (by eapply IH);
    match goal with E : set_data_type _ _ _ _ = Ok _ |- _ => apply set_data_type_names in E as [<- <-] end;
    by eapply IH.
Qed.

(** Validation reads the tables and changes nothing. *)
Lemma validate_tensors_same names : ∀ m ts ok m' ts',
  CreateQnnInputOutputTensors env m names ts true = Ok (ok, m', ts') → m' = m.
Proof.
  induction names as [|n names IH]; intros m ts ok m' ts' Hc; cbn in Hc; [by injection Hc as _ <- _|].
  destruct (model_tensors_map_ m !! n); [by eapply IH|]. by injection Hc as _ <- _.
Qed.

Lemma validate_params_same names : ∀ m ts ok m' ts',
  CreateQnnParamTensors m names ts true = Ok (ok, m', ts') → m' = m.
Proof.
  induction names as [|n names IH]; intros m ts ok m' ts' Hc; cbn in Hc; [by injection Hc as _ <- _|].
  destruct (model_params_map_ m !! n); [by eapply IH|]. by injection Hc as _ <- _.
Qed.

Lemma validate_node_same m i o p r m' : node_tensors env m i o p true = Ok (r, m') → m' = m.
Proof.
  unfold node_tensors. intros Hn. run_cases;
    repeat match goal with
    | E : CreateQnnInputOutputTensors _ _ _ _ true = Ok _ |- _ => apply validate_tensors_same in E as ->
    | E : CreateQnnParamTensors _ _ _ true = Ok _ |- _ => apply validate_params_same in E as ->
    end; done.
Qed.

Lemma create_node_names m name pkg ty i o p v ok m' :
  CreateQnnNode env m name pkg ty i o p v = Ok (ok, m') →
  names_ok m (qnn_op_property_list_ m) → names_ok m' (qnn_op_property_list_ m').
Proof.
  unfold CreateQnnNode. intros Hc Hok. destruct v.
  - assert (∀ m1, qnn_node_names_ m1 = qnn_node_names_ m → qnn_op_property_list_ m1 = qnn_op_property_list_ m →
      names_ok m1 (qnn_op_property_list_ m1)) as Hsame.
    { intros m1 E1 E2. rewrite E2. by apply (names_ok_names m). }
    unfold ApplyBF16ConversionForValidation, RestoreFP32AfterValidation in Hc.
    run_cases;
      repeat match goal with
      | E : node_tensors _ _ _ _ _ _ = Ok _ |- _ => apply validate_node_same in E as ->
      | E : convert_types _ _ _ _ = Ok _ |- _ => apply convert_types_names in E as [? ?]
      | E : convert_inputs _ _ = Ok _ |- _ => apply convert_inputs_names in E as [? ?]
      end; apply Hsame; congruence.
  - destruct (make_unique_spec m name) as (u & Hu & Hn). rewrite Hu in Hc. cbn [rbind] in Hc.
    injection Hc as _ <-. by eapply (names_ok_snoc m).
Qed.

End NodeNames.

(** ** What the QNN library sees

    The abstract behaviour of composing: a table of ids that only grows, where each name
    is created once, and nodes that only use tensors with an id of the table. *)

Section Trace.
Context `{SafeInt} `{QnnInterface}.
Variable env : environment.

Inductive qnn_call :=
| CALL_CREATE (name : string) (t : Qnn_Tensor_t) (id : Z)
| CALL_ADD (op : Qnn_OpConfig_t).

Definition known (ids : gmap string Z) (t : Qnn_Tensor_t) : Prop :=
  ∃ name id, GetQnnTensorID t = Ok id ∧ ids !! name = Some id.

Definition known_param (ids : gmap string Z) (p : Qnn_Param_t) : Prop :=
  match p_value p with PARAMTYPE_TENSOR t => known ids t | _ => True end.

Inductive emits : gmap string Z → qnn_graph → list qnn_call → gmap string Z → qnn_graph → Prop :=
| emits_nil ids g : emits ids g [] ids g
| emits_create ids g name t t' id g' cs ids' g'' :
    ids !! name = None → tensorCreateGraphTensor g t = (QNN_SUCCESS, t', g') → GetQnnTensorID t' = Ok id →
    emits (<[name := id]> ids) g' cs ids' g'' → emits ids g (CALL_CREATE name t id :: cs) ids' g''
| emits_add ids g op g' cs ids' g'' :
    graphAddNode g op = (QNN_SUCCESS, g') →
    Forall (known ids) (oc_inputTensors op) → Forall (known ids) (oc_outputTensors op) →
    Forall (known_param ids) (oc_params op) →
    emits ids g' cs ids' g'' → emits ids g (CALL_ADD op :: cs) ids' g''.

Lemma emits_app ids g cs ids1 g1 cs' ids2 g2 :
  emits ids g cs ids1 g1 → emits ids1 g1 cs' ids2 g2 → emits ids g (cs ++ cs') ids2 g2.
Proof. induction 1; intros He; cbn; [done|eapply emits_create|eapply emits_add]; eauto. Qed.

Lemma emits_mono ids g cs ids' g' : emits ids g cs ids' g' → ids ⊆ ids'.
Proof.
  induction 1; [done| |done]. etrans; [|eassumption]. by apply insert_subseteq.
Qed.

(** The tensors created by a trace, and its nodes. *)
Definition created_names (cs : list qnn_call) : list string :=
  omap (fun c => match c with CALL_CREATE n _ _ => Some n | _ => None end) cs.
Definition added_nodes (cs : list qnn_call) : list Qnn_OpConfig_t :=
  omap (fun c => match c with CALL_ADD op => Some op | _ => None end) cs.

Lemma emits_distinct ids g cs ids' g' : emits ids g cs ids' g' →
  NoDup (created_names cs) ∧ ∀ n, n ∈ created_names cs → ids !! n = None.
Proof.
  induction 1 as [|ids g name t t' id g' cs ids' g'' Hn Ht Hid _ [IH1 IH2]|]; cbn.
  - split; [constructor|set_solver].
  - split.
    + constructor; [|done]. intros Hin. apply IH2 in Hin. by rewrite lookup_insert_eq in Hin.
    + intros n Hin. apply elem_of_cons in Hin as [->|Hin]; [done|]. apply IH2 in Hin.
      destruct (decide (n = name)) as [->|]; [by rewrite lookup_insert_eq in Hin|].
      by rewrite lookup_insert_ne in Hin.
  - done.
Qed.

(** ** Names of tensors

    The name under which a wrapper of the table is created. *)
Definition final_name (m : QnnModelWrapper) (n : string) (w : QnnTensorWrapper) : string :=
  if offload_graph_io_quantization (model_settings_ env) then
    match GetTensorNameOverride m n with
    | Some o => if bool_decide (o = "") then GetResolvedTensorName w else o
    | None => GetResolvedTensorName w
    end
  else GetResolvedTensorName w.

Definition label (m : QnnModelWrapper) (n : string) : option string := final_name m n <$> model_tensors_map_ m !! n.

Definition same_labels (m m' : QnnModelWrapper) : Prop :=
  tensor_name_overrides_ m' = tensor_name_overrides_ m ∧ ∀ n, label m' n = label m n.

Lemma same_labels_trans m1 m2 m3 : same_labels m1 m2 → same_labels m2 m3 → same_labels m1 m3.
Proof. intros [E1 L1] [E2 L2]. split; [congruence|]. intros n. by rewrite L2. Qed.

Lemma apply_override_name m n w w' : apply_override env m n w = Ok w' → GetResolvedTensorName w' = final_name m n w.
Proof.
  unfold apply_override, final_name. destruct (offload_graph_io_quantization _); [|by intros [= ->]].
  destruct (GetTensorNameOverride m n) as [o|]; [|by intros [= ->]].
  unfold SetResolvedTensorName. destruct (decide (o = "")) as [->|Ho].
  - rewrite bool_decide_true by done. cbn. by intros [= ->].
  - rewrite bool_decide_false by done. cbn. case_bool_decide as E.
    + intros [= ->]. by apply resolved_override.
    + intros Hs. inv_bind Hs. injection Hs as <-. by apply resolved_override.
Qed.

(** The declared graph inputs (or outputs) as QNN is to see them: the names, in the order of
    the declaration, of those that have a tensor of the expected type. *)
Definition io_label (m : QnnModelWrapper) (ty : Qnn_TensorType_t) (n : string) : option string :=
  match model_tensors_map_ m !! n with
  | Some w => if bool_decide (GetTensorType w = Ok ty) then Some (final_name m n w) else None
  | None => None
  end.

(** The library sets the id of a tensor it creates and leaves its type. *)
Definition keeps_type : Prop :=
  ∀ g t t' g', tensorCreateGraphTensor g t = (QNN_SUCCESS, t', g') → GetQnnTensorType t' = GetQnnTensorType t.

Lemma override_type m n w w' : apply_override env m n w = Ok w' → GetTensorType w' = GetTensorType w.
Proof.
  unfold apply_override, SetResolvedTensorName. intros Ho.
  destruct (offload_graph_io_quantization _); [|by injection Ho as <-].
  destruct (GetTensorNameOverride m n); [|by injection Ho as <-].
  destruct (_ || _); [by injection Ho as <-|]. inv_bind Ho. injection Ho as <-.
  unfold GetTensorType. cbn. unfold SetQnnTensorName, update in Ho0.
  by destruct (qnn_tensor_ w); simplify_eq/=.
Qed.

Lemma created_type g name t table msg c : keeps_type →
  CreateTensorInQnnGraph g name t table msg = Ok c → c_ok c = true → GetQnnTensorType (c_tensor c) = GetQnnTensorType t.
Proof.
  intros Hk Hc Hok. destruct (table !! name) eqn:Et.
  - unfold CreateTensorInQnnGraph in Hc. rewrite Et in Hc. inv_bind Hc. injection Hc as <-. cbn.
    unfold SetQnnTensorID, update in Hc0. by destruct t; simplify_eq/=.
  - destruct (create_tensor_spec _ _ _ _ _ _ Hc) as (_ & _ & _ & H4).
    destruct (H4 Et) as [_ H5]. destruct (H5 Hok) as [Hcall _]. by eapply Hk.
Qed.

Definition unless_known (ids : gmap string Z) (name : string) : list string :=
  match ids !! name with Some _ => [] | None => [name] end.

(** Creating a tensor makes one call when its name has no id, and records its id. *)
Lemma create_emits g name t table msg c :
  CreateTensorInQnnGraph g name t table msg = Ok c → c_ok c = true →
  ∃ cs id, emits table g cs (c_table c) (c_graph c) ∧ added_nodes cs = [] ∧
    created_names cs = unless_known table name ∧
    GetQnnTensorID (c_tensor c) = Ok id ∧ c_table c !! name = Some id.
Proof.
  intros Hcr Hok. unfold unless_known.
  destruct (create_tensor_spec _ _ _ _ _ _ Hcr) as (H1 & H2 & H3 & H4).
  destruct (H1 Hok) as (b & id & B & <- & Hid).
  assert (GetQnnTensorID (c_tensor c) = Ok (t_id b)) as HID by (unfold GetQnnTensorID; by rewrite B).
  destruct (table !! name) as [old|] eqn:Eold.
  - destruct (H3 old eq_refl) as (_ & -> & Htab). exists [], (t_id b). rewrite Htab in *.
    split_and!; try done. constructor.
  - destruct (H4 eq_refl) as [_ H5]. destruct (H5 Hok) as [Hcall _].
    exists [CALL_CREATE name t (t_id b)], (t_id b). split_and!; try done.
    econstructor; [done|exact Hcall|done|].
    enough (<[name := t_id b]> table = c_table c) as -> by constructor.
    apply map_eq. intros k. destruct (decide (k = name)) as [->|Hk].
    + by rewrite lookup_insert_eq.
    + rewrite lookup_insert_ne by done. symmetry. by apply H2.
Qed.

(** A run of the model wrapper and the calls it makes. *)
Record ext (m : QnnModelWrapper) (cs : list qnn_call) (m' : QnnModelWrapper) : Prop := {
  ext_emits : emits (qnn_tensor_id_map_ m) (graph_ m) cs (qnn_tensor_id_map_ m') (graph_ m');
  ext_labels : same_labels m m';
  ext_ops : qnn_op_property_list_ m' = qnn_op_property_list_ m
}.

Lemma ext_nil m : ext m [] m.
Proof. split; [constructor|done|done]. Qed.

Lemma ext_app m cs m1 cs' m2 : ext m cs m1 → ext m1 cs' m2 → ext m (cs ++ cs') m2.
Proof.
  intros [E1 L1 O1] [E2 L2 O2]. split; [by eapply emits_app|by eapply same_labels_trans|congruence].
Qed.

Definition uses (m : QnnModelWrapper) (n : string) (t : Qnn_Tensor_t) : Prop :=
  ∃ l id, label m n = Some l ∧ GetQnnTensorID t = Ok id ∧ qnn_tensor_id_map_ m !! l = Some id.

Lemma ext_ids m cs m' : ext m cs m' → qnn_tensor_id_map_ m ⊆ qnn_tensor_id_map_ m'.
Proof. intros [He _ _]. by eapply emits_mono. Qed.

Lemma uses_ext m cs m' n t : ext m cs m' → uses m n t → uses m' n t.
Proof.
  intros He (l & id & Hl & Hid & Ht). exists l, id. split_and!; [|done|].
  - by rewrite (proj2 (ext_labels _ _ _ He)).
  - eapply lookup_weaken; [done|by eapply ext_ids].
Qed.

Lemma uses_known m n t : uses m n t → known (qnn_tensor_id_map_ m) t.
Proof. intros (l & id & _ & ? & ?). by exists l, id. Qed.

Lemma known_mono ids ids' t : ids ⊆ ids' → known ids t → known ids' t.
Proof. intros Hs (n & id & ? & ?). exists n, id. split; [done|]. by eapply lookup_weaken. Qed.

Lemma known_param_mono ids ids' p : ids ⊆ ids' → known_param ids p → known_param ids' p.
Proof. unfold known_param. destruct (p_value p); try done. by apply known_mono. Qed.

(** A tensor is created under its final name, or found under it. *)
Lemma create_ext m n w m' w' :
  model_tensors_map_ m !! n = Some w → create_in_graph env m n w = Ok (true, m', w') →
  ∃ cs, ext m cs m' ∧ added_nodes cs = [] ∧
    created_names cs = unless_known (qnn_tensor_id_map_ m) (final_name m n w) ∧
    (keeps_type → ∀ k ty, io_label m' ty k = io_label m ty k) ∧ uses m' n (qnn_tensor_ w').
Proof.
  intros Hw Hc. unfold create_in_graph, CreateQnnGraphTensor in Hc. run_cases.
  repeat match goal with
  | E : apply_override _ _ _ _ = Ok _ |- _ =>
      apply apply_override_name in E as Hname; apply override_type in E as Hty; clear E
  | E : CreateTensorInQnnGraph _ _ _ _ _ = Ok _ |- _ => rename E into Hcr
  | E : c_ok _ = true |- _ => rename E into Hok
  end.
  rewrite Hname in Hcr. destruct (create_emits _ _ _ _ _ _ Hcr) as (cs & id & He & Ha & Hn & Hid & Htab); [done|].
  match goal with |- context [ext m _ ?m1] => set (m' := m1) end.
  match goal with |- context [uses m' n (qnn_tensor_ ?w2)] => set (w' := w2) end.
  assert (final_name m' n w' = final_name m n w) as Hlab.
  { transitivity (final_name m n w'); [done|]. unfold final_name at 1.
    change (GetResolvedTensorName w') with (GetResolvedTensorName a). rewrite Hname. unfold final_name.
    repeat case_match; done. }
  assert (∀ k, label m' k = label m k) as Hlabels.
  { intros k. unfold label. change (model_tensors_map_ m') with (<[n:=w']> (model_tensors_map_ m)).
    destruct (decide (k = n)) as [->|].
    - rewrite lookup_insert_eq, Hw. exact (f_equal Some Hlab).
    - by rewrite lookup_insert_ne. }
  exists cs. split_and!; [by split|done|done| |].
  - intros Hk k ty. unfold io_label. change (model_tensors_map_ m') with (<[n:=w']> (model_tensors_map_ m)).
    destruct (decide (k = n)) as [->|]; [|by rewrite lookup_insert_ne].
    rewrite lookup_insert_eq, Hw. assert (GetTensorType w' = GetTensorType w) as ->
      by (rewrite <- Hty; eapply (created_type _ _ _ _ _ _ Hk Hcr); done).
    destruct (bool_decide _); [|done]. exact (f_equal Some Hlab).
  - exists (final_name m n w), id. split_and!; [|done|done]. rewrite Hlabels. unfold label. by rewrite Hw.
Qed.

Lemma io_tensors_ext names : ∀ m ts m' ts',
  CreateQnnInputOutputTensors env m names ts false = Ok (true, m', ts') →
  ∃ cs new, ext m cs m' ∧ added_nodes cs = [] ∧ ts' = ts ++ new ∧ Forall2 (uses m') names new.
Proof.
  induction names as [|n names IH]; intros m ts m' ts' Hc; cbn in Hc.
  { injection Hc as <- <-. exists [], []. rewrite app_nil_r. split_and!; [apply ext_nil|done|done|constructor]. }
  destruct (model_tensors_map_ m !! n) as [w|] eqn:Hw; [|done].
  inv_bind Hc. destruct a as [[ok m1] w1]. destruct ok; [|done]. cbn [negb] in Hc.
  destruct (create_ext _ _ _ _ _ Hw Hc0) as (cs1 & He1 & Ha1 & _ & _ & Hu).
  destruct (IH _ _ _ _ Hc) as (cs2 & new & He2 & Ha2 & -> & Hf).
  exists (cs1 ++ cs2), (qnn_tensor_ w1 :: new). split_and!; [by eapply ext_app| | |].
  - unfold added_nodes in *. by rewrite omap_app, Ha1, Ha2.
  - by rewrite <- app_assoc.
  - constructor; [by eapply uses_ext|done].
Qed.

Lemma params_ext names : ∀ m ps m' ps',
  CreateQnnParamTensors m names ps false = Ok (true, m', ps') →
  ∃ cs new, ext m cs m' ∧ added_nodes cs = [] ∧ ps' = ps ++ new ∧ length new = length names ∧
    Forall (known_param (qnn_tensor_id_map_ m')) new.
Proof.
  induction names as [|n names IH]; intros m ps m' ps' Hc; cbn in Hc.
  { injection Hc as <- <-. exists [], []. rewrite app_nil_r. split_and!; [apply ext_nil|done|done|done|constructor]. }
  destruct (model_params_map_ m !! n) as [w|] eqn:Hw; [|done].
  inv_bind Hc. destruct a as [[[w1 ok] table] g]. destruct ok; [|done]. cbn [negb] in Hc.
  set (m1 := with_graph (with_params m (<[n:=w1]> (model_params_map_ m))) table g) in *.
  assert (∃ cs1, ext m cs1 m1 ∧ added_nodes cs1 = [] ∧ known_param table (pw_qnn_param_ w1))
    as (cs1 & He1 & Ha1 & Hk).
  { unfold CreateQnnGraphParam in Hc0. destruct (p_value (pw_qnn_param_ w)) as [dt v|t|code] eqn:Ep.
    2:{ inv_bind Hc0. injection Hc0 as <- Hok <- <-.
        destruct (create_emits _ _ _ _ _ _ Hc1 Hok) as (cs & id & He & Ha & _ & Hid & Htab).
        exists cs. split_and!; [by split|done|]. by exists (pw_tensor_name_ w), id. }
    all: injection Hc0 as <- <- <-; exists []; split_and!; [split; [constructor|done|done]|done|];
      unfold known_param; by rewrite Ep. }
  destruct (IH _ _ _ _ Hc) as (cs2 & new & He2 & Ha2 & -> & Hl & Hf).
  exists (cs1 ++ cs2), (pw_qnn_param_ w1 :: new). split_and!; [by eapply ext_app| | |cbn; by rewrite Hl|].
  - unfold added_nodes in *. by rewrite omap_app, Ha1, Ha2.
  - by rewrite <- app_assoc.
  - constructor; [|done]. eapply known_param_mono; [by eapply (ext_ids m1)|done].
Qed.

(** Graph inputs and outputs are created in the order of their names: all of them, when
    their names are new. *)
Definition new_names (m : QnnModelWrapper) (ty : Qnn_TensorType_t) (names : list string) : Prop :=
  NoDup (omap (io_label m ty) names) ∧
  (∀ l, l ∈ omap (io_label m ty) names → qnn_tensor_id_map_ m !! l = None) ∧
  (∀ n, n ∈ names → is_Some (io_label m ty n) → qnn_tensor_id_map_ m !! n = None) ∧
  (∀ n n', n ∈ names → n' ∈ names → is_Some (io_label m ty n) → io_label m ty n' = Some n → n' = n).

Lemma emits_table ids g cs ids' g' n : emits ids g cs ids' g' → n ∉ created_names cs → ids' !! n = ids !! n.
Proof.
  induction 1 as [|ids g name t t' id g' cs ids' g'' Hn Ht Hid _ IH|]; cbn; [done| |done].
  intros Hin. apply not_elem_of_cons in Hin as [Hne Hin]. rewrite IH by done. by rewrite lookup_insert_ne.
Qed.

Lemma io_labels_same m m' ty (names : list string) : (∀ k ty, io_label m' ty k = io_label m ty k) →
  omap (io_label m' ty) names = omap (io_label m ty) names.
Proof. intros E. induction names as [|k names IH]; [done|]. cbn. rewrite E. by destruct (io_label m ty k); rewrite IH. Qed.

Lemma register_ext names ty : ∀ m m', register_names env m names ty = Ok (true, m') →
  ∃ cs, ext m cs m' ∧ added_nodes cs = [] ∧ created_names cs `sublist_of` omap (label m) names ∧
    (keeps_type → new_names m ty names →
       created_names cs = omap (io_label m ty) names ∧ ∀ k ty, io_label m' ty k = io_label m ty k).
Proof.
  induction names as [|n names IH]; intros m m' Hr; cbn in Hr.
  { injection Hr as <-. exists []. split_and!; [apply ext_nil|done|apply sublist_nil_l|done]. }
  assert (io_label m ty n = None → new_names m ty (n :: names) → new_names m ty names) as Hskip.
  { intros E (N1 & N2 & N3 & N4). unfold new_names. cbn in N1, N2. rewrite E in N1, N2.
    split_and!; [done|done| |]; set_solver. }
  destruct (model_tensors_map_ m !! n) as [w|] eqn:Hw.
  2:{ destruct (IH _ _ Hr) as (cs & He & Ha & Hs & Hn). exists cs.
      assert (io_label m ty n = None) as E by (unfold io_label; by rewrite Hw).
      assert (label m n = None) as E' by (unfold label; by rewrite Hw).
      cbn. rewrite E, E'. split_and!; [done..|]. intros Hk Hnew. apply Hn; auto. }
  assert (label m n = Some (final_name m n w)) as Hl by (unfold label; by rewrite Hw).
  cbn. rewrite Hl. inv_bind Hr. destruct (_ || _) eqn:Eskip.
  { destruct (IH _ _ Hr) as (cs & He & Ha & Hs & Hn). exists cs.
    split_and!; [done|done|by apply sublist_cons|]. intros Hk Hnew.
    assert (io_label m ty n = None) as E.
    { unfold io_label. rewrite Hw, Hr0. destruct (decide (a = ty)) as [->|Ne]; [|by rewrite bool_decide_false by congruence].
      rewrite bool_decide_false in Eskip by (by intros []). cbn in Eskip. apply bool_decide_eq_true in Eskip.
      destruct Hnew as (_ & _ & N3 & _). rewrite N3 in Eskip; [by destruct Eskip|apply elem_of_cons; by left|].
      unfold io_label. rewrite Hw, Hr0, bool_decide_true by done. by eexists. }
    rewrite E. apply Hn; auto. }
  inv_bind Hr. destruct a0 as [[ok m1] w1]. destruct ok; [|done]. cbn [negb] in Hr.
  destruct (create_ext _ _ _ _ _ Hw Hr1) as (cs1 & He1 & Ha1 & Hn1 & Hsame & _).
  destruct (IH _ _ Hr) as (cs2 & He2 & Ha2 & Hn2 & Hall). exists (cs1 ++ cs2). split_and!; [by eapply ext_app| | |].
  - unfold added_nodes in *. by rewrite omap_app, Ha1, Ha2.
  - assert (omap (label m1) names = omap (label m) names) as E.
    { clear - He1. induction names as [|k names IH]; [done|]. cbn.
      rewrite (proj2 (ext_labels _ _ _ He1) k). by destruct (label m k); rewrite IH. }
    rewrite E in Hn2. unfold created_names in *. rewrite omap_app. apply (sublist_app _ [_]); [|done].
    rewrite Hn1. unfold unless_known. case_match; [apply sublist_nil_l|done].
  - intros Hk (N1 & N2 & N3 & N4). specialize (Hsame Hk).
    apply orb_false_elim in Eskip as [Et%bool_decide_eq_false Eid]. apply dec_stable in Et as ->.
    assert (io_label m ty n = Some (final_name m n w)) as E
      by (unfold io_label; by rewrite Hw, Hr0, bool_decide_true).
    cbn in N1, N2. rewrite E in N1, N2 |- *. unfold unless_known in Hn1.
    rewrite N2 in Hn1 by (apply elem_of_cons; by left).
    apply NoDup_cons in N1 as [N1 N1'].
    assert (∀ l, l ≠ final_name m n w → qnn_tensor_id_map_ m1 !! l = qnn_tensor_id_map_ m !! l) as Hids.
    { intros l Hl'. eapply emits_table; [apply (ext_emits _ _ _ He1)|]. rewrite Hn1. set_solver. }
    destruct (Hall Hk) as [H1 H2].
    { split_and!.
      - by rewrite (io_labels_same m).
      - intros l Hin. rewrite (io_labels_same m) in Hin by done.
        rewrite Hids by (intros ->; done). apply N2, elem_of_cons. by right.
      - intros k Hin Hs. rewrite Hsame in Hs. rewrite Hids; [apply N3; [apply elem_of_cons; by right|done]|].
        intros ->. assert (n = final_name m n w) as Eq
          by (apply N4; [apply elem_of_cons; by right|apply elem_of_cons; by left|done|done]).
        apply N1, list_elem_of_omap. exists n. split; [by rewrite Eq|done].
      - intros k k' Hi Hi'. rewrite !Hsame. apply N4; apply elem_of_cons; by right. }
    split; [|intros k ty'; by rewrite H2, Hsame].
    unfold created_names in *. rewrite omap_app, Hn1, H1, (io_labels_same m) by done. done.
Qed.

(** The QNN names of the graph inputs and outputs are distinct, and none of them is the ONNX
    name of another one. *)
Definition io_pairs (m : QnnModelWrapper) : list (string * string) :=
  omap (fun n => (n,.) <$> io_label m TENSOR_TYPE_APP_WRITE n) (graph_inputs_ env) ++
  omap (fun n => (n,.) <$> io_label m TENSOR_TYPE_APP_READ n) (graph_outputs_ env).

Definition distinct_io (m : QnnModelWrapper) : Prop :=
  NoDup (snd <$> io_pairs m) ∧
  ∀ p q, p ∈ io_pairs m → q ∈ io_pairs m → q.2 = p.1 → q = p.

Lemma labels_of_pairs (f : string → option string) (names : list string) :
  snd <$> omap (fun n => (n,.) <$> f n) names = omap f names.
Proof. induction names as [|n names IH]; [done|]. cbn. destruct (f n); cbn; by rewrite IH. Qed.

Lemma pair_in (f : string → option string) (names : list string) n l :
  n ∈ names → f n = Some l → (n, l) ∈ omap (fun n => (n,.) <$> f n) names.
Proof. intros Hn E. apply list_elem_of_omap. exists n. by rewrite E. Qed.

Lemma distinct_inputs m : qnn_tensor_id_map_ m = ∅ → distinct_io m → new_names m TENSOR_TYPE_APP_WRITE (graph_inputs_ env).
Proof.
  intros He [Hnd Hsep]. unfold io_pairs in Hnd. rewrite fmap_app, !labels_of_pairs in Hnd. apply NoDup_app in Hnd as [Hnd _].
  split_and!; [done|by rewrite He..|]. intros n n' Hn Hn' [l Hl] Hl'.
  assert ((n', n) = (n, l)) as [= -> _]; [|done].
  apply Hsep; [apply elem_of_app; left; by apply pair_in..|done].
Qed.

Lemma distinct_outputs m m' ins g g' : qnn_tensor_id_map_ m = ∅ → distinct_io m →
  (∀ k ty, io_label m' ty k = io_label m ty k) →
  emits (qnn_tensor_id_map_ m) g ins (qnn_tensor_id_map_ m') g' →
  created_names ins = omap (io_label m TENSOR_TYPE_APP_WRITE) (graph_inputs_ env) →
  new_names m' TENSOR_TYPE_APP_READ (graph_outputs_ env).
Proof.
  intros He [Hnd Hsep] Same Hem Hc. unfold io_pairs in Hnd. rewrite fmap_app, !labels_of_pairs in Hnd.
  apply NoDup_app in Hnd as (_ & Hdis & Hnd).
  assert (∀ l, l ∉ omap (io_label m TENSOR_TYPE_APP_WRITE) (graph_inputs_ env) → qnn_tensor_id_map_ m' !! l = None) as Hfree.
  { intros l Hl. rewrite <- Hc in Hl. by rewrite (emits_table _ _ _ _ _ _ Hem Hl), He. }
  split_and!.
  - by rewrite (io_labels_same m).
  - intros l Hl. rewrite (io_labels_same m) in Hl by done. apply Hfree. intros Hin. by apply (Hdis l).
  - intros n Hn [l Hl]. rewrite Same in Hl. apply Hfree. intros Hin.
    apply list_elem_of_omap in Hin as (n' & Hn' & Hl').
    assert ((n', n) = (n, l)) as [= -> <-].
    { apply Hsep; [apply elem_of_app; right; by apply pair_in|apply elem_of_app; left; by apply pair_in|done]. }
    apply (Hdis n); apply list_elem_of_omap; by exists n.
  - intros n n' Hn Hn' [l Hl] Hl'. rewrite Same in Hl, Hl'.
    assert ((n', n) = (n, l)) as [= -> _]; [|done].
    apply Hsep; [apply elem_of_app; right; by apply pair_in..|done].
Qed.

(** A node of the QNN graph for an entry of the list of nodes. *)
Record node_of (m : QnnModelWrapper) (op : QnnOpProperty) (c : Qnn_OpConfig_t) : Prop := {
  node_names : oc_name c = Some (qnn_node_name_ op) ∧ oc_packageName c = Some (package_name_ op) ∧
    oc_typeName c = Some (qnn_node_type_ op);
  node_inputs : Forall2 (uses m) (input_names_ op) (oc_inputTensors c);
  node_outputs : Forall2 (uses m) (output_names_ op) (oc_outputTensors c);
  node_params : length (oc_params c) = length (param_tensor_names_ op);
  node_nums : oc_numOfInputs c = u32 (Z.of_nat (length (input_names_ op))) ∧
    oc_numOfOutputs c = u32 (Z.of_nat (length (output_names_ op))) ∧
    oc_numOfParams c = u32 (Z.of_nat (length (param_tensor_names_ op)))
}.

Lemma node_of_ext m cs m' op c : ext m cs m' → node_of m op c → node_of m' op c.
Proof.
  intros He [N I O P Q]. split; try done; (eapply Forall2_impl; [done|]; intros n t; by eapply uses_ext).
Qed.

Lemma op_config_spec n p t i o ps c : make_op_config (op_config_init env) n p t i o ps = Ok c →
  oc_name c = Some n ∧ oc_packageName c = Some p ∧ oc_typeName c = Some t ∧
  oc_inputTensors c = i ∧ oc_outputTensors c = o ∧ oc_params c = ps ∧
  oc_numOfInputs c = u32 (Z.of_nat (length i)) ∧ oc_numOfOutputs c = u32 (Z.of_nat (length o)) ∧
  oc_numOfParams c = u32 (Z.of_nat (length ps)).
Proof. unfold make_op_config, SetNames, SetNums, SetData. intros Hc. run_cases. done. Qed.

Lemma uses_all_known m names ts : Forall2 (uses m) names ts → Forall (known (qnn_tensor_id_map_ m)) ts.
Proof. induction 1; constructor; [by eapply uses_known|done]. Qed.

(** The tensors of a node have their ids before the node is added. *)
Lemma node_tensors_ext m i o p tensors m' :
  node_tensors env m i o p false = Ok (Some tensors, m') →
  ∃ cs inputs outputs params, tensors = (inputs, outputs, params) ∧ ext m cs m' ∧ added_nodes cs = [] ∧
    Forall2 (uses m') i inputs ∧ Forall2 (uses m') o outputs ∧
    length params = length p ∧ Forall (known_param (qnn_tensor_id_map_ m')) params.
Proof.
  unfold node_tensors. intros Hn. inv_bind Hn. destruct a as [[ok m1] inputs]. destruct ok; [|done].
  cbn [negb] in Hn. inv_bind Hn. destruct a as [[ok m2] outputs]. destruct ok; [|done].
  cbn [negb] in Hn. inv_bind Hn. destruct a as [[ok m3] params]. destruct ok; [|done].
  cbn [negb] in Hn. injection Hn as <- <-.
  destruct (io_tensors_ext _ _ _ _ _ Hn0) as (cs1 & new1 & E1 & A1 & -> & F1).
  destruct (io_tensors_ext _ _ _ _ _ Hn1) as (cs2 & new2 & E2 & A2 & -> & F2).
  destruct (params_ext _ _ _ _ _ Hn2) as (cs3 & new3 & E3 & A3 & -> & L3 & F3).
  pose proof (ext_app _ _ _ _ _ E2 E3) as E23.
  exists (cs1 ++ cs2 ++ cs3), new1, new2, new3. split_and!; [done|by eapply ext_app| | | |done|done].
  - unfold added_nodes in *. by rewrite !omap_app, A1, A2, A3.
  - eapply Forall2_impl; [done|]. intros n t. by eapply uses_ext.
  - eapply Forall2_impl; [done|]. intros n t. by eapply uses_ext.
Qed.

Lemma compose_ops_ext ops : ∀ m m', compose_ops env m ops = Ok (true, m') →
  ∃ cs, ext m cs m' ∧ Forall2 (node_of m') ops (added_nodes cs).
Proof.
  induction ops as [|op ops IH]; intros m m' Hc; cbn in Hc.
  { injection Hc as <-. exists []. split; [apply ext_nil|constructor]. }
  inv_bind Hc. destruct a as [tensors m1]. destruct tensors as [tensors|]; [|done].
  destruct (node_tensors_ext _ _ _ _ _ _ Hc0) as (cs1 & i & o & p & -> & E1 & A1 & Fi & Fo & Lp & Fp).
  inv_bind Hc. rename a into c.
  destruct (op_config_spec _ _ _ _ _ _ _ Hc1) as (N1 & N2 & N3 & I & O & P & Q1 & Q2 & Q3).
  unfold CreateQnnGraphOp in Hc. destruct (graphAddNode (graph_ m1) c) as [st g] eqn:Eg.
  destruct (Z.eqb_spec st QNN_SUCCESS) as [->|]; [|done]. cbn [negb] in Hc.
  set (m2 := with_graph m1 (qnn_tensor_id_map_ m1) g) in *.
  assert (ext m1 [CALL_ADD c] m2) as E2.
  { split; [|done|done]. econstructor; [exact Eg|rewrite I|rewrite O|by rewrite P|constructor];
      by eapply uses_all_known. }
  assert (node_of m2 op c) as Hnode.
  { eapply node_of_ext; [exact E2|]. split; [done|by rewrite I|by rewrite O|by rewrite P|].
    rewrite Q1, Q2, Q3, Lp. by rewrite <- (Forall2_length _ _ _ Fi), <- (Forall2_length _ _ _ Fo). }
  destruct (IH _ _ Hc) as (cs3 & E3 & F3). exists (cs1 ++ [CALL_ADD c] ++ cs3). split.
  - eapply ext_app; [exact E1|]. by eapply ext_app.
  - unfold added_nodes in *. rewrite !omap_app, A1. cbn. constructor; [|done]. by eapply node_of_ext.
Qed.

End Trace.

(** ** BF16 conversion and the graph

    The conversion changes the tables of the model wrapper only. *)
Section Bf16.
Context `{SafeInt} `{QnnInterface}.
Variable env : environment.

Definition same_graph (m m' : QnnModelWrapper) : Prop :=
  graph_ m' = graph_ m ∧ qnn_tensor_id_map_ m' = qnn_tensor_id_map_ m ∧
  qnn_op_property_list_ m' = qnn_op_property_list_ m.

Lemma same_graph_trans m1 m2 m3 : same_graph m1 m2 → same_graph m2 m3 → same_graph m1 m3.
Proof. unfold same_graph. intros (? & ? & ?) (? & ? & ?). split_and!; congruence. Qed.

Lemma bf16_tensor_graph m name shape ty ok m' :
  CreateBF16CastTensor env m name shape ty = Ok (ok, m') → same_graph m m'.
Proof. unfold CreateBF16CastTensor, AddTensorWrapper. intros Hc. run_cases; done. Qed.

Lemma make_unique_graph m r u m' : MakeUniqueQnnNodeName m r = Ok (u, m') → same_graph m m'.
Proof. unfold MakeUniqueQnnNodeName. intros Hc. run_cases; done. Qed.

Lemma set_data_type_graph m name w dt m' : set_data_type m name w dt = Ok m' → same_graph m m'.
Proof. unfold set_data_type. intros Hs. run_cases. done. Qed.

Lemma add_input_cast_graph m name w casts ok m' casts' :
  add_input_cast env m name w casts = Ok (ok, m', casts') → same_graph m m'.
Proof.
  unfold add_input_cast. intros Hc. run_cases; try done;
    eauto using bf16_tensor_graph, make_unique_graph, same_graph_trans.
Qed.

Lemma bf16_inputs_graph : ∀ names m converted casts ok m' converted' casts',
  ProcessBF16InputConversion env m names converted casts = Ok (ok, m', converted', casts') → same_graph m m'.
Proof.
  induction names as [|n names IH]; intros m converted casts ok m' converted' casts' Hp; cbn in Hp;
    run_cases; try done;
    eauto 6 using add_input_cast_graph, set_data_type_graph, same_graph_trans.
Qed.

Lemma counters_graph m c m' : same_graph (with_counters m c) m' → same_graph m m'.
Proof. done. Qed.

Lemma bf16_outputs_graph : ∀ names m converted casts ok m' converted' casts',
  ProcessBF16OutputConversion env m names converted casts = Ok (ok, m', converted', casts') → same_graph m m'.
Proof.
  induction names as [|n names IH]; intros m converted casts ok m' converted' casts' Hp; cbn in Hp;
    run_cases; try done; try (by eapply IH); try (by eapply counters_graph, IH);
    repeat match goal with
    | E : set_data_type _ _ _ _ = Ok _ |- _ => apply set_data_type_graph in E
    | E : CreateBF16CastTensor _ _ _ _ _ = Ok _ |- _ => apply bf16_tensor_graph, counters_graph in E
    end; try done; (eapply same_graph_trans; [eassumption|by eapply IH]).
Qed.

Lemma output_casts_graph : ∀ casts m ops m' ops',
  output_cast_ops env m casts ops = Ok (m', ops') → same_graph m m'.
Proof.
  induction casts as [|[b f] casts IH]; intros m ops m' ops' Hc; cbn in Hc; run_cases; try done;
    eauto using make_unique_graph, same_graph_trans.
Qed.

Lemma bf16_ops_graph : ∀ ops m processed casts ok m' processed' casts',
  bf16_ops env m ops processed casts = Ok (ok, m', processed', casts') → same_graph m m'.
Proof.
  induction ops as [|op ops IH]; intros m processed casts ok m' processed' casts' Hp; cbn in Hp;
    run_cases; try done;
    eauto 8 using bf16_inputs_graph, bf16_outputs_graph, output_casts_graph, same_graph_trans.
Qed.

Lemma bf16_graph m ok m' ops : ProcessBF16Conversions env m = Ok (ok, m', ops) → same_graph m m'.
Proof. unfold ProcessBF16Conversions. intros Hp. run_cases; eauto using bf16_ops_graph. Qed.

End Bf16.

(** ** Data types during validation *)

Section Retype.
Context `{SafeInt} `{QnnInterface}.
Variable env : environment.

Definition dtype (w : QnnTensorWrapper) : option Qnn_DataType_t :=
  match qnn_tensor_ w with TENSOR_V1 b | TENSOR_V2 b _ => Some (t_dataType b) | _ => None end.

(** The wrapper with data type [to] where it had [from]. *)
Definition retype (from to : Qnn_DataType_t) (w : QnnTensorWrapper) : QnnTensorWrapper :=
  if bool_decide (dtype w = Some from) then
    match qnn_tensor_ w with
    | TENSOR_V1 b => with_tensor w (TENSOR_V1 (set_dataType to b))
    | TENSOR_V2 b d => with_tensor w (TENSOR_V2 (set_dataType to b) d)
    | _ => w
    end
  else w.

Definition retype_all (from to : Qnn_DataType_t) (names : list string) (ts : gmap string QnnTensorWrapper) :=
  map_imap (fun n w => Some (if bool_decide (n ∈ names) then retype from to w else w)) ts.

Definition all_supported (ts : gmap string QnnTensorWrapper) : Prop :=
  ∀ n w, ts !! n = Some w → is_Some (dtype w).

Lemma retype_supported from to w : is_Some (dtype w) → is_Some (dtype (retype from to w)).
Proof.
  unfold retype, dtype. case_bool_decide; [|done]. by destruct (qnn_tensor_ w).
Qed.

Lemma retype_idem from to w : from ≠ to → retype from to (retype from to w) = retype from to w.
Proof.
  intros Hne. unfold retype at 2 3. case_bool_decide as E; [|unfold retype; by rewrite bool_decide_false].
  unfold retype, dtype in *. destruct (qnn_tensor_ w) as [b|b d|v]; cbn; [| |done];
    rewrite bool_decide_false by congruence; done.
Qed.

(** One entry of the loops. *)
Lemma retype_step from to m n w : model_tensors_map_ m !! n = Some w → is_Some (dtype w) →
  (let* dt := GetTensorDataType w in
   if bool_decide (dt = from) then set_data_type m n w to else Ok m) =
  Ok (with_tensors m (<[n := retype from to w]> (model_tensors_map_ m))).
Proof.
  intros Hn [dt Hdt]. unfold dtype, GetTensorDataType, GetQnnTensorDataType, set_data_type, retype, dtype,
    SetQnnTensorDataType in *.
  assert (with_tensors m (<[n := w]> (model_tensors_map_ m)) = m) as Hsame.
  { rewrite insert_id by done. by destruct m. }
  destruct (qnn_tensor_ w) as [b|b d|v]; [| |done]; injection Hdt as <-; cbn;
    (destruct (decide (t_dataType b = from)) as [->|Hne];
     [rewrite !bool_decide_true by done; done|rewrite !bool_decide_false by congruence; by rewrite Hsame]).
Qed.

Lemma retype_all_cons from to n names w ts : from ≠ to → ts !! n = Some w →
  retype_all from to names (<[n := retype from to w]> ts) = retype_all from to (n :: names) ts.
Proof.
  intros Hne Hn. apply map_eq. intros k. unfold retype_all. rewrite !map_lookup_imap.
  destruct (decide (k = n)) as [->|Hk].
  - rewrite lookup_insert_eq, Hn. cbn. rewrite (bool_decide_true (n ∈ n :: names)) by set_solver.
    case_bool_decide; [by rewrite retype_idem|done].
  - rewrite lookup_insert_ne by done. destruct (ts !! k); [|done]. cbn.
    rewrite (bool_decide_ext (k ∈ names) (k ∈ n :: names)); [done|]. set_solver.
Qed.

Lemma retype_all_missing from to n names ts : ts !! n = None →
  retype_all from to names ts = retype_all from to (n :: names) ts.
Proof.
  intros Hn. apply map_eq. intros k. unfold retype_all. rewrite !map_lookup_imap.
  destruct (ts !! k) eqn:Ek; [|done]. cbn.
  rewrite (bool_decide_ext (k ∈ names) (k ∈ n :: names)); [done|]. set_solver.
Qed.

Lemma all_supported_insert ts n w from to :
  all_supported ts → ts !! n = Some w → all_supported (<[n := retype from to w]> ts).
Proof.
  intros Ha Hn k x. destruct (decide (k = n)) as [->|].
  - rewrite lookup_insert_eq. intros [= <-]. apply retype_supported. by eapply Ha.
  - rewrite lookup_insert_ne by done. apply Ha.
Qed.

Lemma all_supported_retype ts names from to : all_supported ts → all_supported (retype_all from to names ts).
Proof.
  intros Ha k x. unfold retype_all. rewrite map_lookup_imap. destruct (ts !! k) as [w|] eqn:Ek; [|done].
  cbn. intros [= <-]. specialize (Ha k w Ek). case_bool_decide; [by apply retype_supported|done].
Qed.

Lemma retype_all_nil from to ts : retype_all from to [] ts = ts.
Proof.
  apply map_eq. intros k. unfold retype_all. rewrite map_lookup_imap. destruct (ts !! k); [|done].
  cbn. by rewrite bool_decide_false by set_solver.
Qed.

Lemma with_tensors_same m : with_tensors m (model_tensors_map_ m) = m.
Proof. by destruct m. Qed.

Lemma with_tensors_twice m a b : with_tensors (with_tensors m a) b = with_tensors m b.
Proof. done. Qed.

Lemma convert_types_spec from to names : from ≠ to → ∀ m, all_supported (model_tensors_map_ m) →
  convert_types from to m names = Ok (with_tensors m (retype_all from to names (model_tensors_map_ m))).
Proof.
  intros Hne. induction names as [|n names IH]; intros m Ha; cbn.
  { by rewrite retype_all_nil, with_tensors_same. }
  destruct (model_tensors_map_ m !! n) as [w|] eqn:Hn.
  - pose proof (retype_step from to m n w Hn (Ha n w Hn)) as Hs.
    destruct (GetTensorDataType w); cbn [rbind] in *; [|done]. rewrite Hs. cbn [rbind].
    rewrite IH by (cbn; by apply all_supported_insert). cbn. by rewrite retype_all_cons.
  - rewrite IH by done. by rewrite <- retype_all_missing.
Qed.

Lemma convert_inputs_spec names : ∀ m, all_supported (model_tensors_map_ m) →
  (∀ n, n ∈ names → is_Some (model_tensors_map_ m !! n)) →
  ∀ rest, convert_inputs m (names ++ rest) =
    convert_inputs (with_tensors m (retype_all QNN_FLOAT_32 QNN_BFLOAT_16 names (model_tensors_map_ m))) rest.
Proof.
  induction names as [|n names IH]; intros m Ha Hin rest; cbn.
  { by rewrite retype_all_nil, with_tensors_same. }
  destruct (Hin n) as [w Hn]; [set_solver|]. rewrite Hn.
  pose proof (retype_step QNN_FLOAT_32 QNN_BFLOAT_16 m n w Hn (Ha n w Hn)) as Hs.
  destruct (GetTensorDataType w); cbn [rbind] in *; [|done]. rewrite Hs. cbn [rbind].
  rewrite IH; cbn.
  - by rewrite retype_all_cons.
  - by apply all_supported_insert.
  - intros k Hk. destruct (decide (k = n)) as [->|]; [by rewrite lookup_insert_eq|].
    rewrite lookup_insert_ne by done. apply Hin. set_solver.
Qed.

(** Converting there and back. *)
Lemma retype_back ins outs ts :
  retype_all QNN_BFLOAT_16 QNN_FLOAT_32 outs (retype_all QNN_BFLOAT_16 QNN_FLOAT_32 ins
    (retype_all QNN_FLOAT_32 QNN_BFLOAT_16 outs (retype_all QNN_FLOAT_32 QNN_BFLOAT_16 ins ts))) =
  retype_all QNN_BFLOAT_16 QNN_FLOAT_32 (ins ++ outs) ts.
Proof.
  assert (∀ w, retype QNN_BFLOAT_16 QNN_FLOAT_32 (retype QNN_FLOAT_32 QNN_BFLOAT_16 w) =
    retype QNN_BFLOAT_16 QNN_FLOAT_32 w) as Hrt.
  { intros [n o d c t q]. unfold retype at 2. case_bool_decide as E; [|done].
    unfold retype, dtype in *; cbn in *. destruct t as [b|b dd|v]; [| |done]; injection E as E; cbn;
      rewrite bool_decide_true, bool_decide_false by congruence; destruct b; cbn in *; by subst. }
  apply map_eq. intros k. unfold retype_all. rewrite !map_lookup_imap. destruct (ts !! k) as [w|]; [|done]. cbn.
  rewrite (bool_decide_ext (k ∈ ins ++ outs) (k ∈ ins ∨ k ∈ outs)) by apply elem_of_app.
  repeat case_bool_decide; cbn; try tauto; rewrite ?retype_idem by done; rewrite ?Hrt, ?retype_idem by done; done.
Qed.

End Retype.

(** ** Properties *)

(** The answers to a sequence of requests. *)
Fixpoint requests (c : counters) (l : list (string * string)) : list string :=
  match l with [] => [] | (b, s) :: l => let '(n, c) := New c b s in n :: requests c l end.

(** The name of the [k]-th request (from 0) for a key. *)
Definition name_at (key : string) (k : nat) : string :=
  if (k =? 0)%nat then key else suffixed key (S k).

Lemma name_at_inj key j k : name_at key j = name_at key k → j = k.
Proof.
  unfold name_at. destruct (Nat.eqb_spec j 0), (Nat.eqb_spec k 0); intros E; subst; try done.
  - by destruct (suffixed_ne key (S k)).
  - by destruct (suffixed_ne key (S j)).
  - apply suffixed_inj in E. lia.
Qed.

Lemma requests_same b s n : ∀ c k, c !! (b +:+ s) = (if (k =? 0)%nat then None else Some (Z.of_nat k)) →
  requests c (replicate n (b, s)) = name_at (b +:+ s) <$> seq k n.
Proof.
  induction n as [|n IH]; intros c k Hc; [done|]. cbn [replicate requests].
  assert (New c b s = (name_at (b +:+ s) k, <[b +:+ s := Z.of_nat (S k)]> c)) as ->.
  { unfold New, name_at, suffixed. rewrite Hc. destruct (Nat.eqb_spec k 0) as [E|E]; cbn [default from_option];
      [by rewrite E|]. unfold id. rewrite (proj2 (Z.gtb_lt _ _)) by lia.
    replace (Z.of_nat k + 1) with (Z.of_nat (S k)) by lia. by rewrite <- (nat_N_Z (S k)), N2Z.id. }
  cbn [seq fmap list_fmap]. f_equal. apply IH. apply (lookup_insert_eq (M := gmap string)).
Qed.

Section Claims.
Context `{SafeInt} `{QnnInterface}.
Variable env : environment.

(** Repeated requests for the same base and suffix give distinct names from the global
    name generator; requests for different keys may collide: the second name for [a] is the
    first name for [a_2]. *)
Theorem generator_names (b s : string) (n : nat) :
  NoDup (requests Reset (replicate n (b, s))) ∧
  requests Reset [("a", ""); ("a", ""); ("a_2", "")] = ["a"; "a_2"; "a_2"].
Proof.
  split; [|reflexivity]. rewrite (requests_same b s n Reset 0) by done.
  apply NoDup_fmap_2_strong; [|apply NoDup_seq]. intros j k _ _. apply name_at_inj.
Qed.

(** C7: QNN node names are unique.  Reserving a name never throws and returns a name that
    was not reserved; registering or validating nodes keeps the names of the registered
    nodes distinct; and the node list with the BF16 casts inserted has distinct names
    again. *)
Theorem node_names_unique (m : QnnModelWrapper) :
  (∀ r, ∃ u m', MakeUniqueQnnNodeName m r = Ok (u, m') ∧ u ∉ qnn_node_names_ m ∧
     qnn_node_names_ m' = {[ u ]} ∪ qnn_node_names_ m) ∧
  (names_ok m (qnn_op_property_list_ m) →
     (∀ name pkg ty i o p v ok m', CreateQnnNode env m name pkg ty i o p v = Ok (ok, m') →
        names_ok m' (qnn_op_property_list_ m')) ∧
     (∀ m' ops, ProcessBF16Conversions env m = Ok (true, m', ops) → NoDup (qnn_node_name_ <$> ops))).
Proof.
  split.
  - intros r. destruct (make_unique_spec m r) as (u & Hu & Hn). eauto 6.
  - intros Hok. split; [intros; by eapply create_node_names|].
    intros m' ops Hp. unfold ProcessBF16Conversions in Hp. run_cases; try done.
    match goal with E : bf16_ops _ _ _ _ _ = Ok _, N : negb ?b = false |- _ =>
      apply bf16_ops_names in E; [|by rewrite !app_nil_r|by destruct b] end.
    rewrite Permutation_app_comm. match goal with E : names_ok _ _ |- _ => apply E end.
Qed.


(** Validation with BF16 conversion leaves the model wrapper unchanged when all inputs
    exist and none of the node's tensors was BF16 before; a tensor that was BF16 before is
    left as FP32.  When an input is missing, the inputs before it are left as BF16. *)
Theorem bf16_validation (m : QnnModelWrapper) (name pkg ty : string) (ins outs params : list string) :
  IsBF16ConversionEnabled env = true → all_supported (model_tensors_map_ m) →
  ((∀ n, n ∈ ins → is_Some (model_tensors_map_ m !! n)) → ∀ ok m',
     CreateQnnNode env m name pkg ty ins outs params true = Ok (ok, m') →
     m' = with_tensors m (retype_all QNN_BFLOAT_16 QNN_FLOAT_32 (ins ++ outs) (model_tensors_map_ m)) ∧
     ((∀ n w, n ∈ ins ++ outs → model_tensors_map_ m !! n = Some w → dtype w ≠ Some QNN_BFLOAT_16) → m' = m)) ∧
  (∀ pre x post, ins = pre ++ x :: post → (∀ n, n ∈ pre → is_Some (model_tensors_map_ m !! n)) →
     model_tensors_map_ m !! x = None →
     CreateQnnNode env m name pkg ty ins outs params true =
       Ok (false, with_tensors m (retype_all QNN_FLOAT_32 QNN_BFLOAT_16 pre (model_tensors_map_ m)))).
Proof.
  intros Hb Ha. unfold CreateQnnNode, ApplyBF16ConversionForValidation, RestoreFP32AfterValidation. rewrite Hb. split.
  - intros Hin ok m' Hc.
    pose proof (convert_inputs_spec ins m Ha Hin []) as Hi. rewrite app_nil_r in Hi. rewrite Hi in Hc.
    cbn [convert_inputs rbind negb] in Hc.
    rewrite convert_types_spec in Hc by (done || by apply all_supported_retype). cbn [rbind negb] in Hc.
    inv_bind Hc. destruct a as [tensors m1]. apply validate_node_same in Hc0 as ->. inv_bind Hc.
    rewrite convert_types_spec in Hc by (done || by repeat apply all_supported_retype). cbn [rbind] in Hc.
    rewrite convert_types_spec in Hc by (done || by repeat apply all_supported_retype). cbn [rbind] in Hc.
    injection Hc as _ <-. cbn [model_tensors_map_ with_tensors]. rewrite retype_back, !with_tensors_twice. split; [done|]. intros Hno.
    assert (retype_all QNN_BFLOAT_16 QNN_FLOAT_32 (ins ++ outs) (model_tensors_map_ m) = model_tensors_map_ m)
      as ->; [|apply with_tensors_same].
    apply map_eq. intros k. unfold retype_all. rewrite map_lookup_imap.
    destruct (model_tensors_map_ m !! k) as [w|] eqn:Ek; [|done]. cbn.
    case_bool_decide as Hk; [|done]. unfold retype. by rewrite bool_decide_false by (by eapply Hno).
  - intros pre x post -> Hpre Hx. rewrite (convert_inputs_spec pre m Ha Hpre (x :: post)). cbn.
    unfold retype_all. rewrite map_lookup_imap, Hx. done.
Qed.

End Claims.

(** ** An example model *)

Definition example_env (bf16 : bool) : environment :=
  Env (Settings true false bf16 false false false) HTP ["x"] ["y"] (fun _ => false) (TENSOR_V1 example_body)
    (OpConfig 1 None None None [] [] [] 0 0 0) id "qti.aisw" "Cast".

Definition example_tensor (name : string) (ty : Qnn_TensorType_t) : QnnTensorWrapper :=
  TensorWrapper name "" [2] [] (TENSOR_V1 (Body 0 (Some name) ty 0 QNN_FLOAT_32 QNN_QUANTIZE_PARAMS_INIT 1
    (Some [2]) TENSORMEMTYPE_RAW (ClientBuffer PNull 0))) default_wrapper.

(** [t = f x; y = f t], where [y] is shown to QNN as [out]. *)
Definition example_model : QnnModelWrapper (H0 := counting_qnn) :=
  Model (H0 := counting_qnn)
    {[ "x" := example_tensor "x" TENSOR_TYPE_APP_WRITE; "t" := example_tensor "t" TENSOR_TYPE_NATIVE;
       "y" := example_tensor "y" TENSOR_TYPE_APP_READ ]}
    ∅ [OpProperty "f" "qti.aisw" "Relu" ["x"] ["t"] []; OpProperty "f_2" "qti.aisw" "Relu" ["t"] ["y"] []]
    {[ "f"; "f_2" ]} ∅ (Some {[ "y" := "out" ]}) (0, []) ∅.

Lemma example_names_ok : names_ok (H0 := counting_qnn) example_model (qnn_op_property_list_ example_model).
Proof.
  split.
  - cbn. repeat constructor; set_solver.
  - intros op Hop. cbn in *. set_solver.
Defined.

Lemma node_names_unique_witness :
  names_ok (H0 := counting_qnn) example_model (qnn_op_property_list_ example_model) ∧
  (∃ u m', MakeUniqueQnnNodeName (H0 := counting_qnn) example_model "f" = Ok (u, m') ∧ u = "f_3") ∧
  (∀ m' ops, ProcessBF16Conversions (H0 := counting_qnn) (example_env true) example_model = Ok (true, m', ops) →
     NoDup (qnn_node_name_ <$> ops)).
Proof.
  split_and!; [apply example_names_ok|by eexists _, _|].
  apply (proj2 (node_names_unique (H := exact_safe_int) (H0 := counting_qnn) (example_env true) example_model)
    example_names_ok).
Defined.


Lemma bf16_validation_witness :
  IsBF16ConversionEnabled (example_env true) = true ∧
  all_supported (model_tensors_map_ (H0 := counting_qnn) example_model) ∧
  (∀ ok m', CreateQnnNode (H := exact_safe_int) (H0 := counting_qnn) (example_env true) example_model "g" "qti.aisw" "Relu"
     ["x"] ["t"] [] true = Ok (ok, m') → m' = example_model).
Proof.
  assert (IsBF16ConversionEnabled (example_env true) = true) as Hb by reflexivity.
  assert (all_supported (model_tensors_map_ (H0 := counting_qnn) example_model)) as Ha.
  { intros n w Hw. unfold example_model in Hw. cbn in Hw.
    repeat (apply lookup_insert_Some in Hw as [[_ <-]|[_ Hw]]; [by eexists|]).
    apply lookup_singleton_Some in Hw as [_ <-]. by eexists. }
  split_and!; [exact Hb|exact Ha|].
  intros ok m' Hc.
  destruct (proj1 (bf16_validation (H := exact_safe_int) (H0 := counting_qnn) (example_env true) example_model
    "g" "qti.aisw" "Relu" ["x"] ["t"] [] Hb Ha)
    ltac:(intros n Hn; apply list_elem_of_singleton in Hn as ->; by eexists) ok m' Hc) as [_ Hno].
  apply Hno. intros n w Hn Hw.
  unfold example_model in Hw. cbn in Hw.
  repeat (apply lookup_insert_Some in Hw as [[_ <-]|[_ Hw]]; [done|]).
  apply lookup_singleton_Some in Hw as [_ <-]. done.
Defined.
