(* ===== verification/Memory.v ===== *)
(** * Shared memory and QNN memory handles

    [HtpSharedMemoryAllocator] and its global [AllocationTracker] of
    [qnn_allocator.{h,cc}], [QnnContextMemHandleManager] of
    [builder/qnn_context_mem_handle_manager.cc], and
    [QnnBackendManager::GetOrRegisterContextMemHandle], which ties a memory handle to the
    allocation it refers to.

    Each operation runs under its mutex and is one step here; the Windows-only branches
    are left out.  Addresses and handles are integers, the null pointer is 0.  An operation
    returns the new state also when it throws. *)

From Stdlib Require Import Sorted.
From S2P Require Import Prelude DataTypes Floats QuantParams QnnTensor.
Local Open Scope Z_scope.

(** ** The libraries

    The rpcmem library: [rpc_live] are the blocks that are allocated and not freed. *)
Class RpcMem := {
  rpc_state : Type;
  rpc_live : rpc_state → gmap Z Z;
  rpcmem_alloc : rpc_state → Z → Z * rpc_state;
  rpcmem_to_fd : rpc_state → Z → Z;
  rpcmem_free : rpc_state → Z → rpc_state;
  rpc_alloc_null s n s' : rpcmem_alloc s n = (0, s') → rpc_live s' = rpc_live s;
  rpc_alloc_live s n p s' : rpcmem_alloc s n = (p, s') → p ≠ 0 →
    rpc_live s' = <[p := n]> (rpc_live s) ∧ 0 < p ∧ rpc_live s !! p = None ∧
    ∀ q k, rpc_live s !! q = Some k → p + n ≤ q ∨ q + k ≤ p;
  rpc_free_live s p : rpc_live (rpcmem_free s p) = delete p (rpc_live s)
}.

(** The memory functions of the QNN library; [memDeRegister]'s error code is only logged. *)
Record QnnMemHtp_Descriptor := MemDescriptor {
  d_dims : option (list Z);
  d_rank : Z;
  d_dataType : Qnn_DataType_t;
  d_size : Z;
  d_fd : Z;
  d_offset : Z
}.

Class QnnMem := {
  mem_state : Type;
  memRegister : mem_state → QnnMemHtp_Descriptor → Z * Z * mem_state;
  memDeRegister : mem_state → Z → mem_state
}.

(** ** State *)

(** A clean-up callback: unregister the address in a context, if it still exists. *)
Record CleanUp := Unregister_at { cu_address : Z; cu_context : nat }.

Record SharedMemoryInfo := MemoryInfo { fd : Z; offset : Z; total_size : Z }.

Record AllocationRecord := Allocation { shared_memory_info : SharedMemoryInfo; clean_up_fns : list CleanUp }.

Record TrackerRecord := Tracked { base_address : Z; size_in_bytes : Z; allocator : nat }.

Record MemHandleRecord := MemHandle { registered_tensor_data_size : Z; mem_handle : Z }.

Section Memory.
Context `{SafeInt} `{RpcMem} `{QnnMem}.

Record world := World {
  records_ : list (Z * TrackerRecord);
  allocations_ : gmap (nat * Z) AllocationRecord;
  mem_handles_ : gmap nat (gmap Z MemHandleRecord);
  rpcmem : rpc_state;
  qnn_mem : mem_state
}.

Definition with_records w v := World v (allocations_ w) (mem_handles_ w) (rpcmem w) (qnn_mem w).
Definition with_allocations w v := World (records_ w) v (mem_handles_ w) (rpcmem w) (qnn_mem w).
Definition with_handles w v q := World (records_ w) (allocations_ w) v (rpcmem w) q.
Definition with_rpcmem w v := World (records_ w) (allocations_ w) (mem_handles_ w) v (qnn_mem w).

(** ** [AllocationTracker]: a [std::map] ordered by base address *)

Fixpoint emplace (key : Z) (r : TrackerRecord) (l : list (Z * TrackerRecord))
  : bool * list (Z * TrackerRecord) :=
  match l with
  | [] => (true, [(key, r)])
  | (k, x) :: l' =>
      if key <? k then (true, (key, r) :: l)
      else if key =? k then (false, l)
      else let '(b, l') := emplace key r l' in (b, (k, x) :: l')
  end.

Definition RegisterAllocation (l : list (Z * TrackerRecord)) (base size : Z) (a : nat) :=
  emplace base (Tracked base size a) l.

Definition UnregisterAllocation (l : list (Z * TrackerRecord)) (base : Z) : bool * list (Z * TrackerRecord) :=
  (bool_decide (base ∈ l.*1), filter (fun p => p.1 ≠ base) l).

(** The entry before [upper_bound(address)]. *)
Fixpoint before_upper_bound (l : list (Z * TrackerRecord)) (prev : option TrackerRecord) (address : Z)
  : option TrackerRecord :=
  match l with
  | [] => prev
  | (k, r) :: l => if address <? k then prev else before_upper_bound l (Some r) address
  end.

Definition LookUp (l : list (Z * TrackerRecord)) (address : Z) : option TrackerRecord :=
  match before_upper_bound l None address with
  | None => None
  | Some r => if base_address r + size_in_bytes r <=? address then None else Some r
  end.

(** ** [HtpSharedMemoryAllocator] *)

Definition AllocationAlignment : Z := 64.
Definition IsAligned (address alignment : Z) : bool := Z.land address (alignment - 1) =? 0.

(** [AllocImpl] with the rpcmem library loaded; on an exception the block is freed by its
    [unique_ptr]. *)
Definition AllocImpl (w : world) (a : nat) (requested_size : Z) : world * result Z :=
  if 2 ^ 31 - 1 <? requested_size then (w, Err overflow)
  else
  let '(p, s) := rpcmem_alloc (rpcmem w) requested_size in
  let w := with_rpcmem w s in
  if p =? 0 then (w, Err (Throw "rpcmem_alloc() failed to allocate and returned nullptr."))
  else
  let throw (w : world) (msg : string) := (with_rpcmem w (rpcmem_free (rpcmem w) p), Err (Throw msg)) in
  if negb (IsAligned p AllocationAlignment) then
    throw w "Shared memory address does not have required alignment"
  else
  let shared_memory_fd := rpcmem_to_fd s p in
  if shared_memory_fd =? -1 then throw w "rpcmem_to_fd() returned invalid file descriptor."
  else
  match allocations_ w !! (a, p) with
  | Some _ => throw w "Allocation record already exists for address."
  | None =>
      let record := Allocation (MemoryInfo shared_memory_fd 0 requested_size) [] in
      let w := with_allocations w (<[(a, p) := record]> (allocations_ w)) in
      let '(registered, records) := RegisterAllocation (records_ w) p requested_size a in
      let w := with_records w records in
      if negb registered then
        throw w "Attempted to register allocation but it is already tracked for address."
      else (w, Ok p)
  end.

(** ** [QnnContextMemHandleManager] *)

(** Erasing an entry deregisters its handle, unless it is null; a callback whose context is
    gone does nothing. *)
Definition deregister (q : mem_state) (h : MemHandleRecord) : mem_state :=
  if mem_handle h =? 0 then q else memDeRegister q (mem_handle h).

Definition Unregister (w : world) (context : nat) (address : Z) : world * option err :=
  match mem_handles_ w !! context with
  | None => (w, None)
  | Some handles =>
      match handles !! address with
      | None => (w, Some (EpFail "No mem handle found for address."))
      | Some h =>
          (with_handles w (<[context := delete address handles]> (mem_handles_ w))
             (deregister (qnn_mem w) h), None)
      end
  end.

(** [Clear], run by the destructor of a context. *)
Definition DestroyContext (w : world) (context : nat) : world :=
  match mem_handles_ w !! context with
  | None => w
  | Some handles =>
      with_handles w (delete context (mem_handles_ w))
        (foldl (fun q p => deregister q p.2) (qnn_mem w) (map_to_list handles))
  end.

(** [FreeImpl]: the callbacks run before the block is freed; their errors are logged. *)
Definition run_clean_ups (w : world) (fns : list CleanUp) : world :=
  foldl (fun w f => (Unregister w (cu_context f) (cu_address f)).1) w fns.

Definition FreeImpl (w : world) (a : nat) (address : Z) : world * result unit :=
  if address =? 0 then (w, Ok tt)
  else
  match allocations_ w !! (a, address) with
  | None => (w, Err (Throw "Failed to get allocation info for address."))
  | Some record =>
      let w := with_allocations w (delete (a, address) (allocations_ w)) in
      let w := with_records w (UnregisterAllocation (records_ w) address).2 in
      let w := run_clean_ups w (clean_up_fns record) in
      (with_rpcmem w (rpcmem_free (rpcmem w) address), Ok tt)
  end.

Definition GetAllocationSharedMemoryInfo (w : world) (address : Z) : result SharedMemoryInfo :=
  match LookUp (records_ w) address with
  | None => Err (EpFail "Failed to look up tracked allocation.")
  | Some r =>
      match allocations_ w !! (allocator r, base_address r) with
      | None => Err (EpFail "Failed to get allocation info for address.")
      | Some record =>
          let info := shared_memory_info record in
          Ok (MemoryInfo (fd info) (u64 (offset info + (address - base_address r))) (total_size info))
      end
  end.

Definition IsAllocationTracked (w : world) (address : Z) : bool :=
  match LookUp (records_ w) address with Some _ => true | None => false end.

Definition AddAllocationCleanUp (w : world) (address : Z) (fn : CleanUp) : world * option err :=
  match LookUp (records_ w) address with
  | None => (w, Some (EpFail "Failed to look up tracked allocation."))
  | Some r =>
      match allocations_ w !! (allocator r, base_address r) with
      | None => (w, Some (EpFail "Failed to get allocation info for address."))
      | Some record =>
          let record := Allocation (shared_memory_info record) (clean_up_fns record ++ [fn]) in
          (with_allocations w (<[(allocator r, base_address r) := record]> (allocations_ w)), None)
      end
  end.

(** [GetOrRegister]: the handle and whether it is new. *)
Definition GetOrRegister (w : world) (context : nat) (allocator_type : QnnAllocatorType) (address : Z)
  (t : Qnn_Tensor_t) : world * result (Z * bool) :=
  match mem_handles_ w !! context,
        (let* rank := GetQnnTensorRank t in let* dims := GetQnnTensorDims t in
         let* dt := GetQnnTensorDataType t in let* size := tensor_data_size t in
         Ok (rank, dims, dt, size)) with
  | None, _ => (w, Err Trap)
  | _, Err e => (w, Err e)
  | Some handles, Ok (rank, dims, dt, size) =>
      match handles !! address with
      | Some h =>
          if size <=? registered_tensor_data_size h then (w, Ok (mem_handle h, false))
          else (w, Err (EpFail "Actual tensor data size is larger than registered tensor data size."))
      | None =>
          if negb (IsHtpSharedMemoryAllocator allocator_type) then
            (w, Err (EpFail "No HTP or DX12 allocation found for shared memory address."))
          else
          match GetAllocationSharedMemoryInfo w address with
          | Err e => (w, Err e)
          | Ok info =>
              let '(st, handle, q) :=
                memRegister (qnn_mem w) (MemDescriptor dims rank dt (total_size info) (fd info) (offset info)) in
              if negb (st =? 0) then (with_handles w (mem_handles_ w) q, Err (EpFail "qnn_interface.memRegister() failed: "))
              else (with_handles w (<[context := <[address := MemHandle size handle]> handles]> (mem_handles_ w)) q,
                    Ok (handle, true))
          end
      end
  end.

(** [GetOrRegisterContextMemHandle] of the backend manager. *)
Definition GetOrRegisterContextMemHandle (w : world) (context : nat) (allocator_type : QnnAllocatorType)
  (address : Z) (t : Qnn_Tensor_t) : world * result Z :=
  match mem_handles_ w !! context with
  | None => (w, Err (EpFail "QNN context not found."))
  | Some _ =>
      match GetOrRegister w context allocator_type address t with
      | (w, Err e) => (w, Err e)
      | (w, Ok (handle, did_register)) =>
          if did_register then
            if IsHtpSharedMemoryAllocator allocator_type then
              match AddAllocationCleanUp w address (Unregister_at address context) with
              | (w, Some e) => (w, Err e)
              | (w, None) => (w, Ok handle)
              end
            else (w, Err (EpFail "Cannot add allocation clean up function for unsupported backend."))
          else (w, Ok handle)
      end
  end.

(** [AddQnnContextHandle] of the backend manager: a record with an empty handle table.  A
    context number stands for the record, which clean-up callbacks refer to weakly. *)
Definition AddQnnContextHandle (w : world) (context : nat) : world * option err :=
  match mem_handles_ w !! context with
  | None => (with_handles w (<[context := ∅]> (mem_handles_ w)) (qnn_mem w), None)
  | Some _ => (w, Some (EpFail "QNN context was already added."))
  end.

End Memory.

(** ** The tracker *)

Lemma emplace_spec key r l : StronglySorted Z.lt l.*1 →
  (key ∈ l.*1 → emplace key r l = (false, l)) ∧
  (key ∉ l.*1 → ∃ l', emplace key r l = (true, l') ∧ l' ≡ₚ (key, r) :: l ∧ StronglySorted Z.lt l'.*1).
Proof.
  induction l as [|[k x] l IH]; intros Hs; cbn in *.
  - split; [set_solver|]. intros _. eexists; split_and!; [done|done|]. repeat constructor.
  - apply StronglySorted_inv in Hs as [Hs Hk]. destruct (IH Hs) as [IH1 IH2].
    rewrite Forall_forall in Hk. destruct (Z.ltb_spec key k) as [Hlt|Hge].
    + split.
      * intros Hin. apply elem_of_cons in Hin as [->|Hin]; [lia|]. specialize (Hk _ Hin). lia.
      * intros _. eexists; split_and!; [done|done|]. cbn. constructor; [by constructor; [done|apply Forall_forall]|].
        apply Forall_forall. intros y Hy. apply elem_of_cons in Hy as [->|Hy]; [lia|]. specialize (Hk y Hy). lia.
    + destruct (Z.eqb_spec key k) as [->|Hne]; [split; [done|set_solver]|]. split.
      * intros Hin. rewrite IH1 by set_solver. done.
      * intros Hni. destruct IH2 as (l' & -> & Hp & Hs'); [set_solver|]. eexists; split_and!; [done| |].
        -- rewrite Hp. apply perm_swap.
        -- cbn. constructor; [done|]. apply Forall_forall. intros y Hy.
           assert (y ∈ key :: l.*1) as Hy' by (change (key :: l.*1) with ((key, r) :: l).*1; by rewrite <- Hp).
           apply elem_of_cons in Hy' as [->|Hy']; [lia|by apply Hk].
Qed.

Lemma sorted_keys (l : list (Z * TrackerRecord)) b r r' :
  StronglySorted Z.lt l.*1 → (b, r) ∈ l → (b, r') ∈ l → r = r'.
Proof.
  induction l as [|[k x] l IH]; intros Hs H1 H2; [set_solver|]. cbn in Hs.
  apply StronglySorted_inv in Hs as [Hs Hk]. rewrite Forall_forall in Hk.
  assert (∀ y, (k, y) ∉ l) as Hno.
  { intros y Hy. specialize (Hk k (list_elem_of_fmap_2 fst _ _ Hy)). lia. }
  apply elem_of_cons in H1 as [E1|H1]; apply elem_of_cons in H2 as [E2|H2]; simplify_eq; try done.
  - by destruct (Hno r').
  - by destruct (Hno r).
  - by apply IH.
Qed.

Lemma sorted_filter (P : Z * TrackerRecord → Prop) `{∀ p, Decision (P p)} (l : list (Z * TrackerRecord)) :
  StronglySorted Z.lt l.*1 → StronglySorted Z.lt (filter P l).*1.
Proof.
  induction l as [|[k x] l IH]; intros Hs; [done|]. cbn in Hs. apply StronglySorted_inv in Hs as [Hs Hk].
  rewrite filter_cons. case_decide; [|by apply IH]. cbn. constructor; [by apply IH|].
  rewrite Forall_forall in *. intros y Hy. apply Hk.
  apply list_elem_of_fmap in Hy as (q & -> & Hq). apply list_elem_of_filter in Hq as [_ Hq].
  by apply list_elem_of_fmap_2.
Qed.

Lemma before_spec addr l : ∀ prev, StronglySorted Z.lt l.*1 →
  (∃ b r, (b, r) ∈ l ∧ b ≤ addr ∧ before_upper_bound l prev addr = Some r ∧
     ∀ b' r', (b', r') ∈ l → b' ≤ addr → b' ≤ b) ∨
  (before_upper_bound l prev addr = prev ∧ ∀ b r, (b, r) ∈ l → addr < b).
Proof.
  induction l as [|[k x] l IH]; intros prev Hs; cbn in *; [right; set_solver|].
  apply StronglySorted_inv in Hs as [Hs Hk]. rewrite Forall_forall in Hk.
  assert (∀ b r, (b, r) ∈ l → k < b) as Hlt.
  { intros b r Hb. apply Hk. apply list_elem_of_fmap. by exists (b, r). }
  destruct (Z.ltb_spec addr k) as [Ha|Ha].
  - right. split; [done|]. intros b r Hb. apply elem_of_cons in Hb as [[= -> ->]|Hb]; [done|].
    specialize (Hlt _ _ Hb). lia.
  - left. destruct (IH (Some x) Hs) as [(b & r & Hb & Hle & E & Hmax)|[E Hno]].
    + exists b, r. split_and!; [by right|done|done|]. intros b' r' Hb' Hle'.
      apply elem_of_cons in Hb' as [[= -> ->]|Hb']; [|by eapply Hmax]. specialize (Hlt _ _ Hb). lia.
    + exists k, x. split_and!; [by left|done|done|]. intros b' r' Hb' Hle'.
      apply elem_of_cons in Hb' as [[= -> ->]|Hb']; [done|]. specialize (Hno _ _ Hb'). lia.
Qed.

(** ** Invariant *)

Section Facts.
Context `{SafeInt} `{RpcMem} `{QnnMem}.

Record inv (w : world) : Prop := {
  inv_sorted : StronglySorted Z.lt (records_ w).*1;
  inv_tracked : ∀ b r, (b, r) ∈ records_ w →
    base_address r = b ∧ 0 ≤ size_in_bytes r ∧ rpc_live (rpcmem w) !! b = Some (size_in_bytes r) ∧
    ∃ ar, allocations_ w !! (allocator r, b) = Some ar ∧
      total_size (shared_memory_info ar) = size_in_bytes r ∧ offset (shared_memory_info ar) = 0;
  inv_allocated : ∀ a b ar, allocations_ w !! (a, b) = Some ar → 0 < b ∧ ∃ r, (b, r) ∈ records_ w ∧ allocator r = a;
  inv_disjoint : ∀ p k q j, rpc_live (rpcmem w) !! p = Some k → rpc_live (rpcmem w) !! q = Some j →
    p ≠ q → p + k ≤ q ∨ q + j ≤ p;
  inv_handles : ∀ c hs addr h, mem_handles_ w !! c = Some hs → hs !! addr = Some h →
    ∃ a b ar, allocations_ w !! (a, b) = Some ar ∧ b ≤ addr < b + total_size (shared_memory_info ar) ∧
      Unregister_at addr c ∈ clean_up_fns ar;
  inv_live : ∀ b k, rpc_live (rpcmem w) !! b = Some k → ∃ r, (b, r) ∈ records_ w
}.

(** Two tracked blocks that contain an address are the same. *)
Lemma tracked_unique w addr b r b' r' : inv w →
  (b, r) ∈ records_ w → (b', r') ∈ records_ w → b ≤ addr < b + size_in_bytes r → b' ≤ addr →
  (b ≤ b') → b = b' ∧ r = r'.
Proof.
  intros Hi Hb Hb' Ha Ha' Hle.
  destruct (inv_tracked _ Hi _ _ Hb) as (_ & _ & Hl & _).
  destruct (inv_tracked _ Hi _ _ Hb') as (_ & Hs & Hl' & _).
  destruct (decide (b = b')) as [->|Hne].
  - split; [done|]. eapply sorted_keys; [apply (inv_sorted _ Hi)|done|done].
  - destruct (inv_disjoint _ Hi _ _ _ _ Hl Hl' Hne); lia.
Qed.

Lemma lookup_spec w addr r : inv w →
  LookUp (records_ w) addr = Some r ↔
    (base_address r, r) ∈ records_ w ∧ base_address r ≤ addr < base_address r + size_in_bytes r.
Proof.
  intros Hi. unfold LookUp.
  destruct (before_spec addr (records_ w) None (inv_sorted _ Hi)) as [(b & x & Hb & Hle & -> & Hmax)|[-> Hno]].
  - destruct (inv_tracked _ Hi _ _ Hb) as (Hbase & _). rewrite Hbase.
    destruct (Z.leb_spec (b + size_in_bytes x) addr) as [Hout|Hin]; split.
    + done.
    + intros [Hr Hrange]. pose proof (Hmax _ _ Hr ltac:(lia)) as Hm.
      destruct (tracked_unique w addr _ _ b x Hi Hr Hb Hrange Hle Hm) as [E ->]. lia.
    + intros [= ->]. rewrite Hbase. split; [done|lia].
    + intros [Hr Hrange]. pose proof (Hmax _ _ Hr ltac:(lia)) as Hm.
      by destruct (tracked_unique w addr _ _ b x Hi Hr Hb Hrange Hle Hm) as [E ->].
  - split; [done|]. intros [Hr Hrange]. specialize (Hno _ _ Hr). lia.
Qed.

Lemma inv_rpc w s : inv w → rpc_live s = rpc_live (rpcmem w) → inv (with_rpcmem w s).
Proof. intros [] E. split; cbn; rewrite ?E; done. Qed.

Lemma inv_qnn w q : inv w → inv (with_handles w (mem_handles_ w) q).
Proof. by intros []. Qed.

(** A live block is in no record before it is allocated. *)
Lemma fresh_block w p : inv w → rpc_live (rpcmem w) !! p = None →
  p ∉ (records_ w).*1 ∧ ∀ a, allocations_ w !! (a, p) = None.
Proof.
  intros Hi Hn. assert (∀ r, (p, r) ∉ records_ w) as Hno.
  { intros r Hr. destruct (inv_tracked _ Hi _ _ Hr) as (_ & _ & Hl & _). congruence. }
  split.
  - intros Hin. apply list_elem_of_fmap in Hin as ([b r] & -> & Hr). by apply (Hno r).
  - intros a. destruct (allocations_ w !! (a, p)) eqn:E; [|done]. exfalso.
    apply (inv_allocated _ Hi) in E as (_ & r & Hr & _). by apply (Hno r).
Qed.

(** The allocator and the tracker after a new block. *)
Lemma inv_new_block w a p n s records info :
  inv w → 0 ≤ n → 0 < p → rpc_live (rpcmem w) !! p = None →
  rpc_live s = <[p := n]> (rpc_live (rpcmem w)) →
  (∀ q k, rpc_live (rpcmem w) !! q = Some k → p + n ≤ q ∨ q + k ≤ p) →
  records ≡ₚ (p, Tracked p n a) :: records_ w → StronglySorted Z.lt records.*1 →
  total_size info = n → offset info = 0 →
  inv (World records (<[(a, p) := Allocation info []]> (allocations_ w)) (mem_handles_ w) s (qnn_mem w)).
Proof.
  intros Hi Hn Hp Hnone Hs Hdis Hrec Hsort Htot Hoff.
  destruct (fresh_block w p Hi Hnone) as [Hnr Hna].
  assert (∀ b r, (b, r) ∈ records_ w → b ≠ p) as Hne.
  { intros b r Hr ->. apply Hnr, list_elem_of_fmap. by exists (p, r). }
  destruct Hi as [_ H2 H3 H4 H5 H6]. split; cbn.
  - done.
  - intros b r Hr. rewrite Hrec in Hr. apply elem_of_cons in Hr as [[= -> ->]|Hr]; cbn.
    + rewrite Hs, !lookup_insert_eq. eauto 8.
    + pose proof (Hne _ _ Hr). rewrite Hs, lookup_insert_ne by done.
      destruct (H2 b r Hr) as (? & ? & ? & ar & Har & ? & ?). split_and!; [done..|].
      exists ar. rewrite lookup_insert_ne by congruence. done.
  - intros a' b ar. destruct (decide ((a', b) = (a, p))) as [[= -> ->]|Hk].
    + intros _. split; [done|]. exists (Tracked p n a). by rewrite Hrec; split; [left|].
    + rewrite lookup_insert_ne by congruence. intros Har. destruct (H3 _ _ _ Har) as (? & r & Hr & ?).
      split; [done|]. exists r. rewrite Hrec. by split; [right|].
  - rewrite Hs. intros x k y j Hx Hy Hxy.
    apply lookup_insert_Some in Hx as [[-> <-]|[Hxp Hx]]; apply lookup_insert_Some in Hy as [[-> <-]|[Hyp Hy]].
    + done.
    + by apply Hdis.
    + destruct (Hdis _ _ Hx); auto.
    + by eapply H4.
  - intros c hs addr h Hc Hh. destruct (H5 _ _ _ _ Hc Hh) as (a' & b & ar & Har & ? & ?). exists a', b, ar.
    split; [|done]. rewrite lookup_insert_ne; [done|]. intros [= -> ->]. by rewrite Hna in Har.
  - rewrite Hs. intros b k Hb. apply lookup_insert_Some in Hb as [[<- _]|[_ Hb]].
    + eexists. rewrite Hrec. by left.
    + destruct (H6 _ _ Hb) as [r Hr]. exists r. rewrite Hrec. by right.
Qed.

(** [AllocImpl] returns a new aligned block that is tracked, or throws and changes nothing. *)
Lemma alloc_spec w a n : inv w → 0 ≤ n →
  ∃ w' res, AllocImpl w a n = (w', res) ∧ inv w' ∧ mem_handles_ w' = mem_handles_ w ∧
    match res with
    | Ok p => IsAligned p AllocationAlignment = true ∧ rpc_live (rpcmem w) !! p = None ∧
        rpc_live (rpcmem w') = <[p := n]> (rpc_live (rpcmem w)) ∧ (p, Tracked p n a) ∈ records_ w'
    | Err e => rpc_live (rpcmem w') = rpc_live (rpcmem w) ∧ records_ w' = records_ w ∧
        allocations_ w' = allocations_ w ∧
        e ∈ [overflow; Throw "rpcmem_alloc() failed to allocate and returned nullptr.";
             Throw "Shared memory address does not have required alignment";
             Throw "rpcmem_to_fd() returned invalid file descriptor."]
    end.
Proof.
  intros Hi Hn. unfold AllocImpl. destruct (_ <? n).
  { eexists _, _. split_and!; [done..|]. split_and!; try done. set_solver. }
  destruct (rpcmem_alloc (rpcmem w) n) as [p s] eqn:Ea. destruct (Z.eqb_spec p 0) as [->|Hp].
  { apply rpc_alloc_null in Ea. eexists _, _. split_and!; [done|by apply inv_rpc|done|]. cbn.
    split_and!; try done. set_solver. }
  destruct (rpc_alloc_live _ _ _ _ Ea Hp) as (Hs & Hpos & Hnone & Hdis).
  assert (rpc_live (rpcmem_free s p) = rpc_live (rpcmem w)) as Hfree.
  { rewrite rpc_free_live, Hs. by rewrite delete_insert_id. }
  cbn [rpcmem with_rpcmem].
  destruct (IsAligned p AllocationAlignment) eqn:Hal; cbn [negb].
  2:{ eexists _, _. split_and!; [done|by apply (inv_rpc w)|done|]. cbn. split_and!; try done. set_solver. }
  destruct (Z.eqb_spec (rpcmem_to_fd s p) (-1)).
  { eexists _, _. split_and!; [done|by apply (inv_rpc w)|done|]. cbn. split_and!; try done. set_solver. }
  destruct (fresh_block w p Hi Hnone) as [Hnr Hna]. cbn [allocations_ with_rpcmem]. rewrite Hna.
  unfold RegisterAllocation. cbn [records_ with_allocations with_rpcmem].
  destruct (proj2 (emplace_spec p (Tracked p n a) (records_ w) (inv_sorted _ Hi)) Hnr)
    as (l' & -> & Hperm & Hsort). cbn [negb].
  eexists _, _. split_and!; [done| |done|].
  - eapply (inv_new_block w a p n s); done.
  - cbn. split_and!; [done|done|done|]. rewrite Hperm. by left.
Qed.

(** The callbacks remove their entries and touch nothing else but the QNN library. *)
Lemma clean_ups_spec fns : ∀ w, let w' := run_clean_ups w fns in
  records_ w' = records_ w ∧ allocations_ w' = allocations_ w ∧ rpcmem w' = rpcmem w ∧
  ∀ c hs', mem_handles_ w' !! c = Some hs' → ∃ hs, mem_handles_ w !! c = Some hs ∧
    ∀ addr h, hs' !! addr = Some h → hs !! addr = Some h ∧ Unregister_at addr c ∉ fns.
Proof.
  induction fns as [|[x c0] fns IH]; intros w; cbv zeta.
  { split_and!; try done. intros c hs' Hc. exists hs'. split; [done|]. intros addr h Hh. split; [done|set_solver]. }
  change (run_clean_ups w (Unregister_at x c0 :: fns)) with (run_clean_ups (Unregister w c0 x).1 fns).
  destruct (IH (Unregister w c0 x).1) as (R & A & P & M).
  assert (records_ (Unregister w c0 x).1 = records_ w ∧ allocations_ (Unregister w c0 x).1 = allocations_ w ∧
    rpcmem (Unregister w c0 x).1 = rpcmem w ∧
    ∀ c hs', mem_handles_ (Unregister w c0 x).1 !! c = Some hs' → ∃ hs, mem_handles_ w !! c = Some hs ∧
      ∀ addr h, hs' !! addr = Some h → hs !! addr = Some h ∧ Unregister_at addr c ≠ Unregister_at x c0)
    as (R1 & A1 & P1 & M1).
  { unfold Unregister. destruct (mem_handles_ w !! c0) as [hs0|] eqn:E0.
    2:{ split_and!; try done. cbn. intros c hs' Hc. exists hs'. split; [done|]. intros addr h Hh. split; [done|].
        intros [= -> ->]. congruence. }
    destruct (hs0 !! x) as [h0|] eqn:Ex; cbn.
    2:{ split_and!; try done. intros c hs' Hc. exists hs'. split; [done|]. intros addr h Hh. split; [done|].
        intros [= -> ->]. congruence. }
    split_and!; try done. intros c hs' Hc. apply lookup_insert_Some in Hc as [[<- <-]|[Hne Hc]].
    - exists hs0. split; [done|]. intros addr h Hh. apply lookup_delete_Some in Hh as [Hax Hh].
      split; [done|]. congruence.
    - exists hs'. split; [done|]. intros addr h Hh. split; [done|]. congruence. }
  rewrite R, A, P. split_and!; [done..|]. intros c hs' Hc. destruct (M _ _ Hc) as (hs1 & Hc1 & Hh1).
  destruct (M1 _ _ Hc1) as (hs & Hc2 & Hh2). exists hs. split; [done|]. intros addr h Hh.
  destruct (Hh1 _ _ Hh) as [Hh' Hn1]. destruct (Hh2 _ _ Hh') as [Hh'' Hn2]. split; [done|].
  intros Hin. apply elem_of_cons in Hin as [E|Hin]; [by apply Hn2|done].
Qed.

(** Freeing removes the block, its records and every handle into it. *)
Lemma free_spec w a b ar : inv w → allocations_ w !! (a, b) = Some ar →
  ∃ w', FreeImpl w a b = (w', Ok tt) ∧ inv w' ∧
    rpc_live (rpcmem w') = delete b (rpc_live (rpcmem w)) ∧ allocations_ w' = delete (a, b) (allocations_ w) ∧
    (∀ r, (b, r) ∉ records_ w') ∧
    (∀ c hs addr h, mem_handles_ w' !! c = Some hs → hs !! addr = Some h →
       ¬ b ≤ addr < b + total_size (shared_memory_info ar)).
Proof.
  intros Hi Har. destruct (inv_allocated _ Hi _ _ _ Har) as (Hpos & r & Hr & Hra).
  unfold FreeImpl. destruct (Z.eqb_spec b 0); [lia|]. rewrite Har.
  match goal with |- context [run_clean_ups ?x _] => set (w0 := x) end.
  destruct (clean_ups_spec (clean_up_fns ar) w0) as (R & A & P & M).
  set (w1 := run_clean_ups w0 (clean_up_fns ar)) in *.
  assert (∀ x y, (x, y) ∈ records_ w1 ↔ x ≠ b ∧ (x, y) ∈ records_ w) as Hrec.
  { intros x y. rewrite R. cbn. by rewrite list_elem_of_filter. }
  assert (∀ k x, allocations_ w1 !! k = Some x ↔ k ≠ (a, b) ∧ allocations_ w !! k = Some x) as Hall.
  { intros k x. rewrite A. cbn. rewrite lookup_delete_Some. naive_solver. }
  assert (rpc_live (rpcmem_free (rpcmem w1) b) = delete b (rpc_live (rpcmem w))) as Hlive
    by (by rewrite rpc_free_live, P).
  assert (inv (with_rpcmem w1 (rpcmem_free (rpcmem w1) b))) as Hi1.
  { split; cbn.
    - rewrite R. apply sorted_filter, (inv_sorted _ Hi).
    - intros x y Hxy. apply Hrec in Hxy as [Hne Hxy].
      destruct (inv_tracked _ Hi _ _ Hxy) as (? & ? & Hl & ar' & Har' & ? & ?). split_and!; try done.
      + rewrite Hlive. by rewrite lookup_delete_ne.
      + exists ar'. split_and!; try done. apply Hall. split; [congruence|done].
    - intros a' b' ar' Har'. apply Hall in Har' as [Hne Har'].
      destruct (inv_allocated _ Hi _ _ _ Har') as (? & r' & Hr' & Hra'). split; [done|]. exists r'.
      split; [|done]. apply Hrec. split; [|done]. intros ->. apply Hne.
      by rewrite <- Hra', <- Hra, (sorted_keys _ _ _ _ (inv_sorted _ Hi) Hr Hr').
    - rewrite Hlive. intros p k q j Hp Hq. apply lookup_delete_Some in Hp as [_ Hp].
      apply lookup_delete_Some in Hq as [_ Hq]. by eapply (inv_disjoint _ Hi).
    - intros c hs' addr h Hc Hh. destruct (M _ _ Hc) as (hs & Hc0 & Hsub).
      destruct (Hsub _ _ Hh) as [Hh0 Hnot]. cbn in Hc0.
      destruct (inv_handles _ Hi _ _ _ _ Hc0 Hh0) as (a' & b' & ar' & Har' & Hrange & Hcu).
      exists a', b', ar'. split; [|done]. apply Hall. split; [|done]. intros [= -> ->]. by rewrite Har in Har'; simplify_eq.
    - rewrite Hlive. intros b' k Hb'. apply lookup_delete_Some in Hb' as [Hne Hb'].
      destruct (inv_live _ Hi _ _ Hb') as [r' Hr']. exists r'. by apply Hrec. }
  eexists. split_and!; [done|exact Hi1|exact Hlive|exact A| |].
  - intros r' Hr'. by apply Hrec in Hr' as [? _].
  - intros c hs addr h Hc Hh Hin. destruct (inv_handles _ Hi1 _ _ _ _ Hc Hh) as (a' & b' & ar' & Har' & Hrange & _).
    apply Hall in Har' as [Hne Har']. destruct (inv_allocated _ Hi _ _ _ Har') as (_ & r' & Hr' & Hra').
    destruct (inv_tracked _ Hi _ _ Hr) as (_ & _ & _ & x & Hx & Hsz & _). rewrite Hra, Har in Hx. injection Hx as <-.
    destruct (inv_tracked _ Hi _ _ Hr') as (_ & _ & _ & x & Hx & Hsz' & _). rewrite Hra', Har' in Hx. injection Hx as <-.
    apply Hne. destruct (decide (b ≤ b')) as [Hle|Hle].
    + destruct (tracked_unique w addr b r b' r' Hi Hr Hr') as [-> ->]; [lia..|]. congruence.
    + destruct (tracked_unique w addr b' r' b r Hi Hr' Hr) as [-> ->]; [lia..|]. congruence.
Qed.

(** A new handle together with its callback. *)
Lemma inv_register w c hs addr size handle r ar q :
  inv w → mem_handles_ w !! c = Some hs → LookUp (records_ w) addr = Some r →
  allocations_ w !! (allocator r, base_address r) = Some ar →
  inv (World (records_ w)
         (<[(allocator r, base_address r) :=
            Allocation (shared_memory_info ar) (clean_up_fns ar ++ [Unregister_at addr c])]> (allocations_ w))
         (<[c := <[addr := MemHandle size handle]> hs]> (mem_handles_ w)) (rpcmem w) q).
Proof.
  intros Hi Hc Hl Har. apply (lookup_spec _ _ _ Hi) in Hl as [Hr Hrange].
  destruct (inv_tracked _ Hi _ _ Hr) as (_ & _ & _ & x & Hx & Hsz & _). rewrite Har in Hx. injection Hx as <-.
  set (ar' := Allocation (shared_memory_info ar) (clean_up_fns ar ++ [Unregister_at addr c])).
  assert (∀ a b y, allocations_ w !! (a, b) = Some y → ∃ y',
    <[(allocator r, base_address r) := ar']> (allocations_ w) !! (a, b) = Some y' ∧
    shared_memory_info y' = shared_memory_info y ∧ clean_up_fns y ⊆ clean_up_fns y') as Hkeep.
  { intros a b y Hy. destruct (decide ((a, b) = (allocator r, base_address r))) as [E|E].
    - rewrite E in *. rewrite Har in Hy. injection Hy as <-. exists ar'. rewrite lookup_insert_eq.
      split_and!; [done|done|set_solver].
    - exists y. rewrite lookup_insert_ne by congruence. done. }
  destruct Hi as [H2 H3 H4 H5 H6 H7]. split; cbn; [..|done].
  - done.
  - intros b x Hbx. destruct (H3 b x Hbx) as (? & ? & ? & y & Hy & ? & ?).
    destruct (Hkeep _ _ _ Hy) as (y' & Hy' & E & _). split_and!; try done. exists y'. by rewrite E.
  - intros a b y Hy. destruct (decide ((a, b) = (allocator r, base_address r))) as [[= -> ->]|E].
    + by apply H4 in Har.
    + rewrite lookup_insert_ne in Hy by congruence. by eapply H4.
  - done.
  - intros c' hs' addr' h Hc' Hh. apply lookup_insert_Some in Hc' as [[<- <-]|[Hne Hc']].
    + apply lookup_insert_Some in Hh as [[<- <-]|[Hne Hh]].
      * exists (allocator r), (base_address r), ar'. rewrite lookup_insert_eq. split_and!; [done|cbn; lia..|].
        cbn. set_solver.
      * destruct (H6 _ _ _ _ Hc Hh) as (a & b & y & Hy & ? & ?). destruct (Hkeep _ _ _ Hy) as (y' & ? & E & ?).
        exists a, b, y'. rewrite E. split_and!; [done|lia..|set_solver].
    + destruct (H6 _ _ _ _ Hc' Hh) as (a & b & y & Hy & ? & ?). destruct (Hkeep _ _ _ Hy) as (y' & ? & E & ?).
      exists a, b, y'. rewrite E. split_and!; [done|lia..|set_solver].
Qed.

Lemma register_spec w c ty addr t w' res : inv w →
  GetOrRegisterContextMemHandle w c ty addr t = (w', res) →
  inv w' ∧ rpc_live (rpcmem w') = rpc_live (rpcmem w) ∧ records_ w' = records_ w ∧
  match res with
  | Err _ => mem_handles_ w' = mem_handles_ w
  | Ok handle => ∃ hs h size, mem_handles_ w' !! c = Some hs ∧ hs !! addr = Some h ∧ mem_handle h = handle ∧
      tensor_data_size t = Ok size ∧ size ≤ registered_tensor_data_size h ∧
      (w' = w ∨ registered_tensor_data_size h = size ∧
         (∃ hs0, mem_handles_ w !! c = Some hs0 ∧ hs0 !! addr = None ∧ hs = <[addr := h]> hs0) ∧
         ∃ r, LookUp (records_ w) addr = Some r)
  end.
Proof.
  intros Hi Hg. unfold GetOrRegisterContextMemHandle in Hg.
  destruct (mem_handles_ w !! c) as [hs|] eqn:Hc; [|by simplify_eq].
  unfold GetOrRegister in Hg. rewrite Hc in Hg.
  match type of Hg with context [rbind ?x ?y] => destruct (rbind x y) as [[[[rank dims] dt] size]|e] eqn:Ed end;
    [|by simplify_eq].
  assert (tensor_data_size t = Ok size) as Hsize by (run_cases; done). clear Ed.
  destruct (hs !! addr) as [h|] eqn:Hh.
  { destruct (Z.leb_spec size (registered_tensor_data_size h)); simplify_eq; [|done].
    split_and!; try done. exists hs, h, size. split_and!; try done. by left. }
  destruct (IsHtpSharedMemoryAllocator ty) eqn:Ety; cbn [negb] in Hg; [|by simplify_eq].
  unfold GetAllocationSharedMemoryInfo in Hg. destruct (LookUp (records_ w) addr) as [r|] eqn:El; [|by simplify_eq].
  destruct (allocations_ w !! (allocator r, base_address r)) as [ar|] eqn:Ea; [|by simplify_eq].
  destruct (memRegister _ _) as [[st handle] q]. destruct (Z.eqb_spec st 0); cbn [negb] in Hg.
  2:{ simplify_eq. split_and!; try done. by apply inv_qnn. }
  unfold AddAllocationCleanUp in Hg. cbn [records_ with_handles allocations_] in Hg. rewrite El, Ea in Hg.
  simplify_eq. split_and!; try done; [exact (inv_register w c hs addr size handle r ar q Hi Hc El Ea)|].
  eexists _, _, size. cbn. rewrite !lookup_insert_eq. split_and!; try done. right.
  split_and!; [done|by exists hs|by exists r].
Qed.

Lemma destroy_inv w c : inv w → inv (DestroyContext w c) ∧ mem_handles_ (DestroyContext w c) !! c = None.
Proof.
  intros Hi. unfold DestroyContext. destruct (mem_handles_ w !! c) eqn:Hc; [|done]. split; [|by apply lookup_delete_eq].
  destruct Hi as [H2 H3 H4 H5 H6 H7]. split; cbn; try done.
  intros c' hs addr h Hc'. apply lookup_delete_Some in Hc' as [_ Hc']. by eapply H6.
Qed.

Lemma create_inv w c : inv w → inv (AddQnnContextHandle w c).1.
Proof.
  intros Hi. unfold AddQnnContextHandle. destruct (mem_handles_ w !! c) eqn:Hc; [done|].
  destruct Hi as [H2 H3 H4 H5 H6 H7]. split; cbn; try done.
  intros c' hs addr h Hc' Hh. apply lookup_insert_Some in Hc' as [[_ <-]|[_ Hc']]; [by rewrite lookup_empty in Hh|].
  by eapply H6.
Qed.

(** ** Reachable states *)

Inductive step : world → world → Prop :=
| step_alloc w a n w' res : 0 ≤ n → AllocImpl w a n = (w', res) → step w w'
| step_free w a p w' res : FreeImpl w a p = (w', res) → step w w'
| step_register w c ty addr t w' res : GetOrRegisterContextMemHandle w c ty addr t = (w', res) → step w w'
| step_create w c : step w (AddQnnContextHandle w c).1
| step_destroy w c : step w (DestroyContext w c).

Lemma step_inv w w' : step w w' → inv w → inv w'.
Proof.
  destruct 1 as [w a n w' res Hn Ha|w a p w' res Hf|w c ty addr t w' res Hr|w c|w c]; intros Hi.
  - destruct (alloc_spec w a n Hi Hn) as (w2 & res2 & E & Hi2 & _). rewrite Ha in E. by simplify_eq.
  - destruct (allocations_ w !! (a, p)) as [ar|] eqn:Ea.
    + destruct (free_spec w a p ar Hi Ea) as (w2 & E & Hi2 & _). rewrite Hf in E. by simplify_eq.
    + unfold FreeImpl in Hf. rewrite Ea in Hf. by destruct (p =? 0); simplify_eq.
  - by destruct (register_spec _ _ _ _ _ _ _ Hi Hr).
  - by apply create_inv.
  - by apply destroy_inv.
Qed.

Definition initial (s : rpc_state) (q : mem_state) : world := World [] ∅ ∅ s q.

Lemma initial_inv s q : rpc_live s = ∅ → inv (initial s q).
Proof.
  intros E. split; cbn.
  - constructor.
  - set_solver.
  - intros a b ar Hx. by apply lookup_empty_Some in Hx.
  - rewrite E. intros p k q' j Hx. by apply lookup_empty_Some in Hx.
  - intros c hs addr h Hx. by apply lookup_empty_Some in Hx.
  - rewrite E. intros b k Hx. by apply lookup_empty_Some in Hx.
Qed.

Lemma reachable_inv s q w : rpc_live s = ∅ → rtc step (initial s q) w → inv w.
Proof.
  intros Hs Hr. remember (initial s q) as w0 eqn:E0. assert (inv w0) as Hi by (subst; by apply initial_inv).
  clear E0 Hs. induction Hr; [done|]. eauto using step_inv.
Qed.

End Facts.

(** ** Properties *)

Section Claims.
Context `{SafeInt} `{RpcMem} `{QnnMem}.

(** C34: in every state that allocations, frees, registrations and context creation and
    destruction can reach: every address inside a block that the rpcmem library has allocated and
    not freed is found by the tracker, with the block's address and size and an allocator that has a
    record of it; every answer of the tracker is such a block; and every registered memory handle
    refers to an address inside one. *)
Theorem memory_safe (s : rpc_state) (q : mem_state) (w : world) :
  rpc_live s = ∅ → rtc step (initial s q) w →
  (∀ b k addr, rpc_live (rpcmem w) !! b = Some k → b ≤ addr < b + k →
     ∃ a, LookUp (records_ w) addr = Some (Tracked b k a) ∧ is_Some (allocations_ w !! (a, b))) ∧
  (∀ addr r, LookUp (records_ w) addr = Some r →
     rpc_live (rpcmem w) !! base_address r = Some (size_in_bytes r) ∧
     base_address r ≤ addr < base_address r + size_in_bytes r) ∧
  (∀ c hs addr h, mem_handles_ w !! c = Some hs → hs !! addr = Some h →
     ∃ b k, rpc_live (rpcmem w) !! b = Some k ∧ b ≤ addr < b + k).
Proof.
  intros Hs Hr. pose proof (reachable_inv s q w Hs Hr) as Hi. split_and!.
  - intros b k addr Hb Haddr. destruct (inv_live _ Hi _ _ Hb) as [r Hin].
    destruct (inv_tracked _ Hi _ _ Hin) as (Hbase & _ & Hl & ar & Har & _). rewrite Hb in Hl. injection Hl as ->.
    exists (allocator r). split; [|by eexists]. replace (Tracked _ _ _) with r by (destruct r; cbn in *; by subst).
    apply (lookup_spec _ _ _ Hi). by rewrite Hbase.
  - intros addr r Hl. apply (lookup_spec _ _ _ Hi) in Hl as [Hin Haddr].
    by apply (inv_tracked _ Hi) in Hin as (_ & _ & ? & _).
  - intros c hs addr h Hc Hh. destruct (inv_handles _ Hi _ _ _ _ Hc Hh) as (a & b & ar & Har & Hin & _).
    destruct (inv_allocated _ Hi _ _ _ Har) as (_ & r & Hb & Ha).
    destruct (inv_tracked _ Hi _ _ Hb) as (Hbase & _ & Hl & ar' & Har' & Hsz & _).
    rewrite Ha, Har in Har'. injection Har' as <-. exists b, (size_in_bytes r). split; [done|lia].
Qed.

(** [AllocImpl] returns a new block aligned to 64 bytes, tracked with its size, or throws
    one of the four errors that come from the request or the rpcmem library and leaves
    allocator, tracker and live blocks as they were; the two internal errors for an address
    that is already known never occur. *)
Theorem alloc_contract (w : world) (a : nat) (n : Z) :
  inv w → 0 ≤ n →
  ∃ w' res, AllocImpl w a n = (w', res) ∧ inv w' ∧ mem_handles_ w' = mem_handles_ w ∧
    match res with
    | Ok p => IsAligned p AllocationAlignment = true ∧ rpc_live (rpcmem w) !! p = None ∧
        rpc_live (rpcmem w') = <[p := n]> (rpc_live (rpcmem w)) ∧
        (∀ addr, p ≤ addr < p + n → LookUp (records_ w') addr = Some (Tracked p n a))
    | Err e => rpc_live (rpcmem w') = rpc_live (rpcmem w) ∧ records_ w' = records_ w ∧
        allocations_ w' = allocations_ w ∧
        e ∈ [overflow; Throw "rpcmem_alloc() failed to allocate and returned nullptr.";
             Throw "Shared memory address does not have required alignment";
             Throw "rpcmem_to_fd() returned invalid file descriptor."]
    end.
Proof.
  intros Hi Hn. destruct (alloc_spec w a n Hi Hn) as (w' & res & Ha & Hi' & Hm & Hres).
  exists w', res. split_and!; [done..|]. destruct res as [p|e]; [|done].
  destruct Hres as (? & ? & ? & Hin). split_and!; [done..|]. intros addr Haddr.
  by apply (lookup_spec _ _ _ Hi').
Qed.

(** Freeing an allocation succeeds, ends its life in the rpcmem library, and leaves
    nothing behind: no address of the block is tracked any more, and no context holds a
    memory handle for an address in it.  Freeing an address that the allocator does not own
    throws and changes nothing. *)
Theorem free_releases (w : world) (a : nat) (b : Z) :
  inv w → b ≠ 0 →
  (∀ ar, allocations_ w !! (a, b) = Some ar → ∃ w', FreeImpl w a b = (w', Ok tt) ∧ inv w' ∧
     rpc_live (rpcmem w') = delete b (rpc_live (rpcmem w)) ∧
     (∀ addr, b ≤ addr < b + total_size (shared_memory_info ar) → LookUp (records_ w') addr = None) ∧
     (∀ c hs addr h, mem_handles_ w' !! c = Some hs → hs !! addr = Some h →
        ¬ b ≤ addr < b + total_size (shared_memory_info ar))) ∧
  (allocations_ w !! (a, b) = None →
     FreeImpl w a b = (w, Err (Throw "Failed to get allocation info for address."))).
Proof.
  intros Hi Hb. split.
  - intros ar Har. destruct (free_spec w a b ar Hi Har) as (w' & Hf & Hi' & Hl & Ha & Hr & Hh).
    exists w'. split_and!; [done..| |done]. intros addr Haddr.
    destruct (LookUp (records_ w') addr) as [r|] eqn:E; [exfalso|done].
    apply (lookup_spec _ _ _ Hi') in E as [Hin Hrange].
    destruct (inv_tracked _ Hi' _ _ Hin) as (_ & Hsz & Hlive & _). rewrite Hl in Hlive.
    apply lookup_delete_Some in Hlive as [Hne Hlive].
    destruct (inv_allocated _ Hi _ _ _ Har) as (_ & r0 & Hr0 & Hra0).
    destruct (inv_tracked _ Hi _ _ Hr0) as (_ & _ & Hl0 & ar0 & Har0 & Hsz0 & _).
    rewrite Hra0, Har in Har0. injection Har0 as <-.
    destruct (inv_disjoint _ Hi _ _ _ _ Hl0 Hlive Hne); lia.
  - intros Hn. unfold FreeImpl. rewrite Hn. by destruct (Z.eqb_spec b 0).
Qed.

(** [GetOrRegisterContextMemHandle] returns a handle that is registered for the address in
    that context and large enough for the tensor: an existing one, or a new one of exactly
    the tensor's size for an address in a tracked allocation that had none; an error leaves
    the handles unchanged. *)
Theorem register_contract (w : world) (c : nat) (ty : QnnAllocatorType) (addr : Z) (t : Qnn_Tensor_t)
  (w' : world) (res : result Z) :
  inv w → GetOrRegisterContextMemHandle w c ty addr t = (w', res) →
  inv w' ∧
  match res with
  | Err _ => mem_handles_ w' = mem_handles_ w
  | Ok handle => ∃ hs h size, mem_handles_ w' !! c = Some hs ∧ hs !! addr = Some h ∧ mem_handle h = handle ∧
      tensor_data_size t = Ok size ∧ size ≤ registered_tensor_data_size h ∧
      (w' = w ∨ registered_tensor_data_size h = size ∧
         (∃ hs0, mem_handles_ w !! c = Some hs0 ∧ hs0 !! addr = None ∧ hs = <[addr := h]> hs0) ∧
         ∃ r, LookUp (records_ w) addr = Some r)
  end.
Proof.
  intros Hi Hg. destruct (register_spec _ _ _ _ _ _ _ Hi Hg) as (Hi' & _ & _ & Hres). by split.
Qed.

End Claims.

(** ** Example libraries

    An allocator that places a block above all live ones, and a QNN library that numbers
    its handles. *)
Definition top (m : gmap Z Z) : Z := map_fold (fun q k acc => Z.max acc (Z.max q (q + k))) 0 m.

Lemma top_bound m : 0 ≤ top m ∧ ∀ q k, m !! q = Some k → q ≤ top m ∧ q + k ≤ top m.
Proof.
  unfold top. apply (map_fold_weak_ind (fun acc m => 0 ≤ acc ∧ ∀ q k, m !! q = Some k → q ≤ acc ∧ q + k ≤ acc)).
  - split; [done|]. intros q k Hq. by apply lookup_empty_Some in Hq.
  - intros i x m' acc Hi [H0 Hacc]. split; [lia|]. intros q k Hq.
    apply lookup_insert_Some in Hq as [[<- <-]|[_ Hq]]; [lia|]. specialize (Hacc _ _ Hq). lia.
Qed.

Definition example_rpcmem : RpcMem.
Proof.
  refine {| rpc_state := gmap Z Z; rpc_live m := m;
            rpcmem_alloc m n := let p := 64 * (top m + 1) in (p, <[p := n]> m);
            rpcmem_to_fd _ _ := 3; rpcmem_free m p := delete p m |}.
  - intros m n m' E. injection E as E _. pose proof (proj1 (top_bound m)). lia.
  - intros m n p m' E _. injection E as <- <-. destruct (top_bound m) as [H0 Hb]. split_and!; [done|lia| |].
    + destruct (m !! (64 * (top m + 1))) eqn:E; [|done]. apply Hb in E. lia.
    + intros q k Hq. specialize (Hb _ _ Hq). lia.
  - done.
Defined.

Definition example_mem : QnnMem := {|
  mem_state := Z;
  memRegister n _ := (0, n, n + 1);
  memDeRegister n _ := n
|}.

(** An allocation of 8 bytes, a context, and a handle for its second half. *)
Definition example_dims : Qnn_Tensor_t := TENSOR_V1 (Body 0 (Some "x") TENSOR_TYPE_APP_WRITE 0 QNN_FLOAT_32
  QNN_QUANTIZE_PARAMS_INIT 1 (Some [1]) TENSORMEMTYPE_MEMHANDLE (ClientBuffer PNull 0)).

Definition w_start : world (H0 := example_rpcmem) (H1 := example_mem) :=
  initial (H0 := example_rpcmem) (H1 := example_mem) ∅ 1.
Definition w_alloc : world (H0 := example_rpcmem) (H1 := example_mem) :=
  (AllocImpl (H0 := example_rpcmem) (H1 := example_mem) w_start 0 8).1.
Definition w_context : world (H0 := example_rpcmem) (H1 := example_mem) :=
  (AddQnnContextHandle (H0 := example_rpcmem) (H1 := example_mem) w_alloc 7).1.
Definition w_handle : world (H0 := example_rpcmem) (H1 := example_mem) :=
  (GetOrRegisterContextMemHandle (H := exact_safe_int) (H0 := example_rpcmem) (H1 := example_mem)
     w_context 7 HTP_SHARED 68 example_dims).1.

Lemma example_reachable :
  rtc (step (H := exact_safe_int) (H0 := example_rpcmem) (H1 := example_mem)) w_start w_handle.
Proof.
  eapply rtc_l; [apply (step_alloc w_start 0 8 w_alloc (Ok 64)); [lia|reflexivity]|].
  eapply rtc_l; [apply (step_create w_alloc 7)|].
  apply rtc_once. apply (step_register w_context 7 HTP_SHARED 68 example_dims w_handle (Ok 1)).
  reflexivity.
Defined.

Lemma example_inv : inv (H0 := example_rpcmem) (H1 := example_mem) w_handle.
Proof.
  apply (reachable_inv (H := exact_safe_int) (H0 := example_rpcmem) (H1 := example_mem) ∅ 1);
    [done|apply example_reachable].
Defined.

Lemma memory_safe_witness :
  (∃ hs h, mem_handles_ w_handle !! 7%nat = Some hs ∧ hs !! 68 = Some h ∧ mem_handle h = 1) ∧
  (∃ a, LookUp (records_ w_handle) 68 = Some (Tracked 64 8 a) ∧ is_Some (allocations_ w_handle !! (a, 64))).
Proof.
  split; [by eexists _, _|].
  apply (memory_safe (H := exact_safe_int) (H0 := example_rpcmem) (H1 := example_mem) ∅ 1 w_handle eq_refl
    example_reachable); [reflexivity|lia].
Defined.

Lemma alloc_contract_witness :
  ∃ w' res, AllocImpl (H0 := example_rpcmem) (H1 := example_mem) w_handle 0 100 = (w', res) ∧ res = Ok 4672 ∧
    inv (H0 := example_rpcmem) (H1 := example_mem) w'.
Proof.
  destruct (alloc_contract (H0 := example_rpcmem) (H1 := example_mem) w_handle 0 100 example_inv ltac:(lia))
    as (w' & res & Ha & Hi & _).
  exists w', res. split_and!; [exact Ha| |exact Hi]. apply (f_equal snd) in Ha. cbn [snd] in Ha. rewrite <- Ha.
  reflexivity.
Defined.

Lemma free_releases_witness :
  ∃ w', FreeImpl (H0 := example_rpcmem) (H1 := example_mem) w_handle 0 64 = (w', Ok tt) ∧
    ∀ addr, 64 ≤ addr < 64 + 8 → LookUp (records_ w') addr = None.
Proof.
  destruct (proj1 (free_releases (H0 := example_rpcmem) (H1 := example_mem) w_handle 0 64 example_inv ltac:(lia))
    (Allocation (MemoryInfo 3 0 8) [Unregister_at 68 7]) eq_refl)
    as (w' & Hf & _ & _ & Hl & _).
  exists w'. split; [exact Hf|exact Hl].
Defined.

Lemma register_contract_witness :
  GetOrRegisterContextMemHandle (H := exact_safe_int) (H0 := example_rpcmem) (H1 := example_mem)
    w_handle 7 HTP_SHARED 68 example_dims = (w_handle, Ok 1) ∧
  ∃ hs h size, mem_handles_ w_handle !! 7%nat = Some hs ∧ hs !! 68 = Some h ∧ mem_handle h = 1 ∧
    tensor_data_size (H := exact_safe_int) example_dims = Ok size ∧ size ≤ registered_tensor_data_size h.
Proof.
  assert (GetOrRegisterContextMemHandle (H := exact_safe_int) (H0 := example_rpcmem) (H1 := example_mem)
    w_handle 7 HTP_SHARED 68 example_dims = (w_handle, Ok 1)) as E by reflexivity.
  split; [exact E|].
  destruct (register_contract (H := exact_safe_int) (H0 := example_rpcmem) (H1 := example_mem) _ _ _ _ _ _ _
    example_inv E) as (_ & hs & h & size & H1 & H2 & H3 & H4 & H5 & _).
  exists hs, h, size. split_and!; [exact H1|exact H2|exact H3|exact H4|exact H5].
Defined.
