(* ===== verification/NodeGroups.v ===== *)
(** * Grouping node units

    [GetQnnNodeGroups] of [builder/qnn_node_group/qnn_node_group.cc] collects the node units
    of the graph into [IQnnNodeGroup] objects, each of which becomes one QNN operator, and the
    [OpAffinityMap] of [op_affinity/qnn_op_affinity_map.cc] that it consults.

    A node unit is named by its target node, a group by its index in the vector of groups.
    The ORT graph is reached through total queries: a failing call throws out of the whole
    operation.  What a fusion function promises is the class [Fusion]; [Fusions] models three
    of them. *)

From S2P Require Import Prelude DataTypes Floats Partition.

Global Instance unit_type_eq_dec : EqDecision UnitType.
Proof. solve_decision. Defined.

(** ** Op affinity *)
Module Affinity.

Definition to_lower_char (c : Ascii.ascii) : Ascii.ascii :=
  let n := Ascii.nat_of_ascii c in
  if (65 <=? n) && (n <=? 90) then Ascii.ascii_of_nat (n + 32) else c.

Fixpoint ToLower (s : string) : string :=
  match s with
  | EmptyString => EmptyString
  | String c s => String (to_lower_char c) (ToLower s)
  end.

Definition BackendFromName (raw_name : string) : option QnnBackendType :=
  list_find (fun b => ToLower raw_name = QnnBackendTypeToString b) [CPU; GPU; DSP; HTP] ≫= fun p => Some p.2.

(** The JSON values that the config file distinguishes. *)
Inductive json := JString (s : string) | JArray (l : list json) | JOther.

Definition backend_name_of (value : json) : result string :=
  match value with
  | JString s => Ok s
  | JArray [] => Err (Throw "must specify exactly one backend, but the array is empty.")
  | JArray [JString s] => Ok s
  | JArray [_] => Err (Throw "must be a string.")
  | JArray _ => Err (Throw "must map to exactly one backend; heterogeneous execution is not supported.")
  | JOther => Err (Throw "must be a string or a single-element array of strings.")
  end.

Abbreviation OpAffinityMap := (gmap string QnnBackendType).

(** [FromConfigFile] on the items of the "op_type" object; [None]: there is no such object. *)
Definition add_item (m : OpAffinityMap) (item : string * json) : result OpAffinityMap :=
  let* backend_name := backend_name_of item.2 in
  match BackendFromName backend_name with
  | None => Err (Throw "unknown backend")
  | Some backend => Ok (<[item.1 := backend]> m)
  end.

Definition FromConfigFile (op_type : option (list (string * json))) : result OpAffinityMap :=
  match op_type with
  | None => Err (Throw "op_affinity config: top-level op_type object is required.")
  | Some items => foldM add_item items ∅
  end.

Definition Evaluate (m : OpAffinityMap) (op_type : string) (session_backend : QnnBackendType) : result unit :=
  match m !! op_type with
  | None => Ok tt
  | Some pinned =>
      if bool_decide (pinned = session_backend) then Ok tt
      else if bool_decide (pinned = CPU) then
        Err (EpFail (op_type +:+ " filtered off QNN by the op_affinity provider option."))
      else Err (EpFail (op_type +:+ " op_affinity pins it to a backend this session is not running."))
  end.

Definition SeedDefaultIfAbsent (m : OpAffinityMap) (op_type : string) (default_backend : QnnBackendType)
  : OpAffinityMap :=
  match m !! op_type with Some _ => m | None => <[op_type := default_backend]> m end.

Definition ValidateForSessionBackend (m : OpAffinityMap) (session_backend : QnnBackendType) : result unit :=
  foldM (fun _ '(op_type, pinned) =>
    if negb (bool_decide (pinned = CPU)) && negb (bool_decide (pinned = session_backend)) then
      Err (EpFail ("op_affinity pins op type '" +:+ op_type +:+ "' to a backend that this session does not run."))
    else Ok tt) (map_to_list m) tt.

End Affinity.
Import Affinity.

(** ** The graph as the fusions see it *)

Record ValueInfo := Value {
  vi_name : string;
  vi_shape : option (list Z);
  vi_producer : option nat;
  vi_consumers : list (option nat);
  vi_graph_output : bool
}.

(** A null value is a missing optional input or output. *)
Record OrtNode := Node {
  op_type : string;
  since_version : Z;
  inputs : list (option ValueInfo);
  outputs : list (option ValueInfo);
  float_attribute : string → option float;
  int_attribute : string → option Z;
  ints_attribute : string → option (list Z)
}.

Record IQnnNodeGroup := NodeGroup {
  GetNodeUnits : list nat;
  GetTargetNodeUnit : nat;
  Type_ : string
}.

Section Groups.
Context {M : Type}.
Variable graph : nat → OrtNode.
Variable nodes : list nat.
Variable node_to_node_unit : gmap nat OrtNodeUnit.
Variable affinity : OpAffinityMap.
Variable backend : QnnBackendType.

Definition OpType (u : OrtNodeUnit) : string := op_type (graph (target_node_ u)).

(** A fusion function reads the graph and may change the model wrapper and the name
    generator, here the state [M], when it validates the fused node. *)
Definition FusionFunc : Type := M → OrtNodeUnit → gmap nat nat → result (M * option IQnnNodeGroup).

(** [registerUDO] replaces the fusions of an op type. *)
Definition registerUDO (fusions : gmap string (list FusionFunc)) (node_type : string) (udo_fusion : FusionFunc)
  : gmap string (list FusionFunc) := <[node_type := [udo_fusion]]> fusions.

Variable fusions : gmap string (list FusionFunc).

Fixpoint try_each (s : M) (u : OrtNodeUnit) (groups : gmap nat nat) (fs : list FusionFunc)
  : result (M * option IQnnNodeGroup) :=
  match fs with
  | [] => Ok (s, None)
  | fusion_func :: fs =>
      let* (s, fused_node_group) := fusion_func s u groups in
      match fused_node_group with
      | Some g => Ok (s, Some g)
      | None => try_each s u groups fs
      end
  end.

Definition TryQnnFusions (s : M) (u : OrtNodeUnit) (groups : gmap nat nat) : result (M * option IQnnNodeGroup) :=
  if negb (bool_decide (type_ u = SingleNode)) &&
     negb (bool_decide (OpType u ∈ ["Gather"; "MatMul"; "Gemm"; "Erf"; "Tanh"; "Reshape"; "Concat"])) then
    Ok (s, None)
  else
    match fusions !! OpType u with
    | Some fs => try_each s u groups fs
    | None => Ok (s, None)
    end.

(** The op type of a member, through its target node. *)
Definition allowed (unit : nat) : bool := is_ok (Evaluate affinity (op_type (graph unit)) backend).

Record grouping := Grouping {
  model : M;
  qnn_node_groups : list IQnnNodeGroup;
  node_unit_to_qnn_node_group : gmap nat nat;
  fused_qnn_node_group_indices : gmap nat nat;
  sorted_node_units : list nat
}.

(** [unordered_map::insert] keeps an existing entry. *)
Definition insert_new (m : gmap nat nat) (k v : nat) : gmap nat nat :=
  match m !! k with Some _ => m | None => <[k := v]> m end.

(** One node of the first loop: fusions. *)
Definition visit_node (st : grouping) (node : nat) : result grouping :=
  match node_to_node_unit !! node with
  | None => Err (EpFail "Could not find NodeUnit for Node.")
  | Some u =>
      if negb (target_node_ u =? node) then Ok st
      else
      let sorted := sorted_node_units st ++ [target_node_ u] in
      match node_unit_to_qnn_node_group st !! target_node_ u with
      | Some _ => Ok (Grouping (model st) (qnn_node_groups st) (node_unit_to_qnn_node_group st)
                        (fused_qnn_node_group_indices st) sorted)
      | None =>
          let* (s, fused_node_group) := TryQnnFusions (model st) u (node_unit_to_qnn_node_group st) in
          let fused_node_group :=
            match fused_node_group with
            | Some g => if forallb allowed (GetNodeUnits g) then Some g else None
            | None => None
            end in
          match fused_node_group with
          | None => Ok (Grouping s (qnn_node_groups st) (node_unit_to_qnn_node_group st)
                          (fused_qnn_node_group_indices st) sorted)
          | Some g =>
              let index := length (qnn_node_groups st) in
              Ok (Grouping s (qnn_node_groups st ++ [g])
                    (foldl (fun m v => insert_new m v index) (node_unit_to_qnn_node_group st) (GetNodeUnits g))
                    (<[index := index]> (fused_qnn_node_group_indices st)) sorted)
          end
      end
  end.

(** One unit of the second loop: the position of a fused group, or a group of its own. *)
Definition QnnNodeUnitWrapper (u : nat) : IQnnNodeGroup := NodeGroup [u] u "OrtNodeUnit".

Definition visit_unit (acc : list IQnnNodeGroup * gmap nat nat * list nat) (fused_indices : gmap nat nat) (u : nat)
  : result (list IQnnNodeGroup * gmap nat nat * list nat) :=
  let '(groups, unit_group, indices) := acc in
  match unit_group !! u with
  | Some p =>
      let* g := aget groups p in
      Ok (groups, unit_group,
          if GetTargetNodeUnit g =? u then indices ++ [default 0 (fused_indices !! p)] else indices)
  | None =>
      let index := length groups in
      Ok (groups ++ [QnnNodeUnitWrapper u], insert_new unit_group u index, indices ++ [index])
  end.

Definition GetQnnNodeGroupsImpl (s : M) : result (M * list IQnnNodeGroup * list nat) :=
  let* st := foldM visit_node nodes (Grouping s [] ∅ ∅ []) in
  let* (groups, _, indices) :=
    foldM (fun acc u => visit_unit acc (fused_qnn_node_group_indices st) u) (sorted_node_units st)
      (qnn_node_groups st, node_unit_to_qnn_node_group st, []) in
  Ok (model st, groups, indices).

(** The groups move out of the holder: a slot read twice is null. *)
Definition move_group (acc : list (option IQnnNodeGroup) * list (option IQnnNodeGroup)) (index : nat)
  : result (list (option IQnnNodeGroup) * list (option IQnnNodeGroup)) :=
  let '(holder, out) := acc in
  let* g := aget holder index in
  Ok (<[index := None]> holder, out ++ [g]).

Definition GetQnnNodeGroups (s : M) : result (M * list (option IQnnNodeGroup)) :=
  let* (s, holder, indices) := GetQnnNodeGroupsImpl s in
  let* (_, out) := foldM move_group indices (Some <$> holder, []) in
  Ok (s, out).

(** [QnnNodeUnitWrapper::IsSupported]; the op builders are a parameter. *)
Definition IsSupported (GetOpBuilder : string → option (OrtNodeUnit → result unit)) (u : OrtNodeUnit) : result unit :=
  match GetOpBuilder (OpType u) with
  | None => Err (EpFail ("Operators of type `" +:+ OpType u +:+ "` are not supported by QNN EP."))
  | Some IsOpSupported =>
      let* _ := Evaluate affinity (OpType u) backend in
      IsOpSupported u
  end.

(** ** What a fusion promises *)

(** The units in the order of their target nodes. *)
Definition is_target (n : nat) : bool :=
  match node_to_node_unit !! n with Some u => target_node_ u =? n | None => false end.

Definition unit_order : list nat := filter (fun n => is_target n = true) nodes.

Definition before (u v : nat) : Prop :=
  ∃ i j, unit_order !! i = Some u ∧ unit_order !! j = Some v ∧ i < j.

(** A value flows from a node of unit [u] to a node of unit [v]. *)
Definition edge (u v : nat) : Prop :=
  u ≠ v ∧ ∃ n m un um i, node_to_node_unit !! n = Some un ∧ target_node_ un = u ∧
    node_to_node_unit !! m = Some um ∧ target_node_ um = v ∧
    Some i ∈ inputs (graph m) ∧ vi_producer i = Some n.

(** The contract of an [IQnnNodeGroup] made by a fusion function: members that are in no
    group yet, each once, the target among them; every value from outside enters before the
    target, and every value leaves at the target or after it. *)
Class Fusion (f : FusionFunc) : Prop := {
  fusion_total s u m : target_node_ u ∈ unit_order → node_to_node_unit !! target_node_ u = Some u →
    ∃ s' g, f s u m = Ok (s', g);
  fusion_units s u m s' g : target_node_ u ∈ unit_order → node_to_node_unit !! target_node_ u = Some u →
    m !! target_node_ u = None → f s u m = Ok (s', Some g) →
    NoDup (GetNodeUnits g) ∧ GetTargetNodeUnit g ∈ GetNodeUnits g ∧
    ∀ v, v ∈ GetNodeUnits g → v ∈ unit_order ∧ m !! v = None;
  fusion_edges s u m s' g : target_node_ u ∈ unit_order → node_to_node_unit !! target_node_ u = Some u →
    f s u m = Ok (s', Some g) →
    ∀ p v, edge p v →
      (v ∈ GetNodeUnits g → p ∉ GetNodeUnits g → before p (GetTargetNodeUnit g)) ∧
      (p ∈ GetNodeUnits g → v ∉ GetNodeUnits g → p = GetTargetNodeUnit g ∨ before (GetTargetNodeUnit g) p)
}.

(** What the caller and the ORT graph guarantee: every node has a unit, whose target node
    belongs to the graph, and units come in topological order. *)
Record wf_units : Prop := {
  wf_nodes : NoDup nodes;
  wf_covered n : n ∈ nodes → is_Some (node_to_node_unit !! n);
  wf_target n u : node_to_node_unit !! n = Some u →
    target_node_ u ∈ nodes ∧ node_to_node_unit !! target_node_ u = Some u;
  wf_topological u v : edge u v → before u v
}.

End Groups.

(** ** Facts *)

Section Facts.
Context {M : Type} (graph : nat → OrtNode) (nodes : list nat) (units : gmap nat OrtNodeUnit).
Context (affinity : OpAffinityMap) (backend : QnnBackendType).
Context (fusions : gmap string (list (@FusionFunc M))).
Context (Hwf : wf_units graph nodes units).
Context (Hfusions : ∀ op fs f, fusions !! op = Some fs → f ∈ fs → Fusion graph nodes units f).

Local Abbreviation order := (unit_order nodes units).
Local Abbreviation edge := (edge graph units).
Local Abbreviation before := (before nodes units).
Local Abbreviation visit_node := (visit_node graph units affinity backend fusions).
Local Abbreviation allowed := (allowed graph affinity backend).

Lemma elem_of_order n : n ∈ order ↔ n ∈ nodes ∧ ∃ u, units !! n = Some u ∧ target_node_ u = n.
Proof.
  unfold unit_order, is_target. rewrite list_elem_of_filter. split.
  - intros [Ht Hn]. split; [done|]. destruct (units !! n) as [u|] eqn:E; [|done]. exists u.
    by apply Nat.eqb_eq in Ht.
  - intros (Hn & u & -> & <-). by rewrite Nat.eqb_refl.
Qed.

Lemma order_NoDup : NoDup order.
Proof. apply NoDup_filter, Hwf. Qed.

(** What the contract says of a group. *)
Record group_ok (g : IQnnNodeGroup) : Prop := {
  ok_target : GetTargetNodeUnit g ∈ GetNodeUnits g;
  ok_members v : v ∈ GetNodeUnits g → v ∈ order;
  ok_enter p v : edge p v → v ∈ GetNodeUnits g → p ∉ GetNodeUnits g → before p (GetTargetNodeUnit g);
  ok_leave p v : edge p v → p ∈ GetNodeUnits g → v ∉ GetNodeUnits g →
    p = GetTargetNodeUnit g ∨ before (GetTargetNodeUnit g) p
}.

Lemma wrapper_ok u : u ∈ order → group_ok (QnnNodeUnitWrapper u).
Proof.
  intros Hu. split; cbn; [set_solver|set_solver| |set_solver].
  intros p v He Hv _. apply list_elem_of_singleton in Hv as ->. by apply Hwf.
Qed.

Lemma try_each_spec s u m (fs : list (@FusionFunc M)) : (∀ f, f ∈ fs → Fusion graph nodes units f) →
  target_node_ u ∈ order → units !! target_node_ u = Some u → m !! target_node_ u = None →
  ∃ s' og, try_each s u m fs = Ok (s', og) ∧
    ∀ g, og = Some g → group_ok g ∧ NoDup (GetNodeUnits g) ∧ ∀ v, v ∈ GetNodeUnits g → m !! v = None.
Proof.
  intros Hfs Ho Hu Hm. revert s. induction fs as [|f fs IH]; intros s; cbn; [by eexists _, _|].
  assert (Fusion graph nodes units f) as Hf by (apply Hfs; set_solver).
  destruct (fusion_total graph nodes units s u m Ho Hu) as (s' & og & E). rewrite E. cbn.
  destruct og as [g|]; [|apply IH; set_solver].
  eexists _, _. split; [done|]. intros g' [= <-].
  destruct (fusion_units graph nodes units s u m s' g Ho Hu Hm E) as (Hnd & Ht & Hv).
  pose proof (fusion_edges graph nodes units s u m s' g Ho Hu E) as He.
  split_and!; [split|done|]; try done.
  - intros v ?. by apply Hv.
  - intros p v ?. by apply He.
  - intros p v ?. by apply He.
  - intros v ?. by apply Hv.
Qed.

Lemma TryQnnFusions_spec s u m :
  target_node_ u ∈ order → units !! target_node_ u = Some u → m !! target_node_ u = None →
  ∃ s' og, TryQnnFusions graph fusions s u m = Ok (s', og) ∧
    ∀ g, og = Some g → group_ok g ∧ NoDup (GetNodeUnits g) ∧ ∀ v, v ∈ GetNodeUnits g → m !! v = None.
Proof.
  intros Ho Hu Hm. unfold TryQnnFusions. destruct (_ && _); [by eexists _, _|].
  destruct (fusions !! OpType graph u) as [fs|] eqn:E; [|by eexists _, _].
  apply try_each_spec; [|done..]. intros f. by apply (Hfusions _ _ _ E).
Qed.

(** *** First loop *)

Lemma insert_all (vs : list nat) (index : nat) : ∀ m v,
  foldl (fun m v => insert_new m v index) m vs !! v =
  match m !! v with Some i => Some i | None => if decide (v ∈ vs) then Some index else None end.
Proof.
  induction vs as [|x vs IH]; intros m v; cbn.
  - destruct (m !! v); [done|]. by rewrite decide_False by set_solver.
  - rewrite IH. unfold insert_new. destruct (m !! x) as [i|] eqn:E.
    + destruct (m !! v) eqn:Ev; [done|]. apply decide_ext. set_unfold. naive_solver.
    + destruct (decide (x = v)) as [->|Hne].
      * rewrite lookup_insert_eq, E. by rewrite decide_True by set_solver.
      * rewrite lookup_insert_ne by done. destruct (m !! v); [done|]. apply decide_ext. set_unfold. naive_solver.
Qed.

Record inv1 (visited : list nat) (st : @grouping M) : Prop := {
  inv1_sorted : sorted_node_units st = filter (fun n => is_target units n = true) visited;
  inv1_index v i : node_unit_to_qnn_node_group st !! v = Some i ↔
    ∃ g, qnn_node_groups st !! i = Some g ∧ v ∈ GetNodeUnits g;
  inv1_groups i g : qnn_node_groups st !! i = Some g →
    group_ok g ∧ NoDup (GetNodeUnits g) ∧ ∀ v, v ∈ GetNodeUnits g → allowed v = true;
  inv1_fused i : i < length (qnn_node_groups st) → fused_qnn_node_group_indices st !! i = Some i
}.

Lemma inv1_add visited st n s g :
  inv1 visited st → is_target units n = true → group_ok g → NoDup (GetNodeUnits g) →
  (∀ v, v ∈ GetNodeUnits g → node_unit_to_qnn_node_group st !! v = None) →
  (∀ v, v ∈ GetNodeUnits g → allowed v = true) →
  let index := length (qnn_node_groups st) in
  inv1 (visited ++ [n]) (Grouping s (qnn_node_groups st ++ [g])
    (foldl (fun m v => insert_new m v index) (node_unit_to_qnn_node_group st) (GetNodeUnits g))
    (<[index := index]> (fused_qnn_node_group_indices st)) (sorted_node_units st ++ [n])).
Proof.
  intros [Is Ii Ig If] Ht Hg Hnd Hnew Hall index. split; cbn [qnn_node_groups node_unit_to_qnn_node_group
    fused_qnn_node_group_indices sorted_node_units].
  - by rewrite filter_app, Is, filter_cons_True.
  - intros v i. rewrite insert_all. split.
    + destruct (node_unit_to_qnn_node_group st !! v) as [j|] eqn:Ej.
      * intros [= <-]. apply Ii in Ej as (g' & Hg' & Hv). exists g'. split; [|done]. by apply lookup_app_l_Some.
      * case_decide as Hv; [|done]. intros [= <-]. exists g. split; [|done]. by apply list_lookup_middle.
    + intros (g' & Hg' & Hv). apply lookup_app_Some in Hg' as [Hg'|[Hlen Hg']].
      * by rewrite (proj2 (Ii v i)) by (by exists g').
      * apply list_lookup_singleton_Some in Hg' as [? ->]. rewrite Hnew, decide_True by done. f_equal. unfold index. lia.
  - intros i g' Hg'. apply lookup_app_Some in Hg' as [Hg'|[_ Hg']]; [by eapply Ig|].
    by apply list_lookup_singleton_Some in Hg' as [_ <-].
  - intros i. rewrite length_app. cbn. intros Hi. destruct (decide (i = index)) as [->|Hne].
    + by rewrite lookup_insert_eq.
    + rewrite lookup_insert_ne by done. apply If. unfold index in Hne. lia.
Qed.

Lemma visit_node_spec visited n st :
  n ∈ nodes → inv1 visited st → ∃ st', visit_node st n = Ok st' ∧ inv1 (visited ++ [n]) st'.
Proof.
  intros Hn Hi. unfold NodeGroups.visit_node. destruct (wf_covered _ _ _ Hwf n Hn) as [u Hu]. rewrite Hu.
  assert (is_target units n = (target_node_ u =? n)) as Et by (unfold is_target; by rewrite Hu).
  destruct (Nat.eqb_spec (target_node_ u) n) as [E|Hne]; cbn [negb].
  2:{ exists st. split; [done|]. destruct Hi as [Is Ii Ig If]. split; try done.
      rewrite filter_app, Is, filter_cons_False, filter_nil, app_nil_r; [done|by rewrite Et]. }
  assert (∀ s m, inv1 (visited ++ [n]) (Grouping s (qnn_node_groups st) (node_unit_to_qnn_node_group st)
    m (sorted_node_units st ++ [n])) ↔ ∀ i, i < length (qnn_node_groups st) → m !! i = Some i) as Hsame.
  { intros s m. destruct Hi as [Is Ii Ig If]. split; [by intros []|]. intros Hm. split; try done.
    cbn [sorted_node_units]. by rewrite filter_app, Is, filter_cons_True. }
  rewrite E. destruct (node_unit_to_qnn_node_group st !! n) as [i|] eqn:Ei.
  { eexists. split; [done|]. by apply Hsame, Hi. }
  assert (target_node_ u ∈ order) as Ho by (apply elem_of_order; rewrite E; eauto).
  destruct (TryQnnFusions_spec (model st) u (node_unit_to_qnn_node_group st)) as (s & og & -> & Hog);
    [done|by rewrite E|by rewrite E|]. cbn [rbind].
  destruct og as [g|]; [destruct (forallb allowed (GetNodeUnits g)) eqn:Ea|].
  - eexists. split; [done|]. destruct (Hog g eq_refl) as (Hok & Hnd & Hnew).
    apply inv1_add; [done..|].
    intros v Hv. by apply (proj1 (forallb_forall _ _) Ea), list_elem_of_In.
  - eexists. split; [done|]. by apply Hsame, Hi.
  - eexists. split; [done|]. by apply Hsame, Hi.
Qed.

(** *** Second loop *)

Section Leftover.
Context (st : @grouping M) (Hst : inv1 nodes st).

(** The group that is placed when a unit is visited. *)
Definition emit (u : nat) : option IQnnNodeGroup :=
  match node_unit_to_qnn_node_group st !! u with
  | Some p => g ← qnn_node_groups st !! p; if GetTargetNodeUnit g =? u then Some g else None
  | None => Some (QnnNodeUnitWrapper u)
  end.

(** The unit whose visit places the group of [v]. *)
Definition rep (v : nat) : nat :=
  match node_unit_to_qnn_node_group st !! v ≫= (qnn_node_groups st !!.) with
  | Some g => GetTargetNodeUnit g
  | None => v
  end.

Lemma emit_target u g : emit u = Some g → GetTargetNodeUnit g = u.
Proof.
  unfold emit. destruct (node_unit_to_qnn_node_group st !! u) as [p|]; [|by intros [= <-]].
  destruct (qnn_node_groups st !! p) as [g'|]; cbn; [|done].
  destruct (Nat.eqb_spec (GetTargetNodeUnit g') u); [|done]. by intros [= <-].
Qed.

Lemma emit_cases u g : emit u = Some g →
  g = QnnNodeUnitWrapper u ∨ ∃ p, qnn_node_groups st !! p = Some g.
Proof.
  unfold emit. destruct (node_unit_to_qnn_node_group st !! u) as [p|]; [|intros [= <-]; by left].
  destruct (qnn_node_groups st !! p) as [g'|] eqn:E; cbn; [|done]. case_match; [|done].
  intros [= <-]. right. by exists p.
Qed.

Lemma emit_ok u g : u ∈ order → emit u = Some g → group_ok g ∧ NoDup (GetNodeUnits g).
Proof.
  intros Hu [->|[p Hp]]%emit_cases.
  - split; [by apply wrapper_ok|apply NoDup_singleton].
  - by destruct (inv1_groups _ _ Hst _ _ Hp) as (? & ? & _).
Qed.

Lemma emit_rep u g v : emit u = Some g → v ∈ GetNodeUnits g → rep v = u.
Proof.
  intros Hg Hv. pose proof (emit_target _ _ Hg) as <-. unfold emit in Hg. unfold rep.
  destruct (node_unit_to_qnn_node_group st !! GetTargetNodeUnit g) as [p|] eqn:Ep.
  - destruct (qnn_node_groups st !! p) as [g'|] eqn:E; cbn in Hg; [|done]. case_match; simplify_eq.
    by rewrite (proj2 (inv1_index _ _ Hst v p)) by (by exists g); cbn; rewrite E.
  - injection Hg as Hg. rewrite <- Hg in Hv. cbn in Hv. apply list_elem_of_singleton in Hv as ->. by rewrite Ep.
Qed.

Lemma rep_emit v : v ∈ order → ∃ g, rep v ∈ order ∧ emit (rep v) = Some g ∧ v ∈ GetNodeUnits g.
Proof.
  intros Hv. unfold rep. destruct (node_unit_to_qnn_node_group st !! v) as [p|] eqn:Ep; cbn.
  - pose proof Ep as Ep'. apply (inv1_index _ _ Hst) in Ep' as (g & Hg & Hin). rewrite Hg.
    destruct (inv1_groups _ _ Hst _ _ Hg) as (Hok & _ & _). exists g.
    split; [by apply Hok, Hok|]. split; [|done]. unfold emit.
    rewrite (proj2 (inv1_index _ _ Hst _ p)) by (exists g; split; [done|apply Hok]). cbn. rewrite Hg. cbn.
    by rewrite Nat.eqb_refl.
  - exists (QnnNodeUnitWrapper v). split; [done|]. unfold emit. rewrite Ep. split; [done|]. cbn. set_solver.
Qed.

Lemma omap_emit_NoDup l : NoDup l → NoDup (GetTargetNodeUnit <$> omap emit l).
Proof.
  induction 1 as [|u l Hu _ IH]; [constructor|]. cbn. destruct (emit u) as [g|] eqn:E; [|done]. cbn.
  constructor; [|done]. rewrite (emit_target _ _ E). intros (g' & -> & Hg')%list_elem_of_fmap.
  apply list_elem_of_omap in Hg' as (u' & Hu' & E'). by rewrite (emit_target _ _ E') in Hu.
Qed.

Record inv2 (visited : list nat) (acc : list IQnnNodeGroup * gmap nat nat * list nat) : Prop := {
  inv2_groups : ∃ rest, acc.1.1 = qnn_node_groups st ++ rest;
  inv2_map v : v ∉ visited → acc.1.2 !! v = node_unit_to_qnn_node_group st !! v;
  inv2_indices : Forall2 (fun i g => acc.1.1 !! i = Some g) acc.2 (omap emit visited)
}.

Lemma visit_unit_spec visited u rest acc :
  NoDup (visited ++ u :: rest) → inv2 visited acc →
  ∃ acc', visit_unit acc (fused_qnn_node_group_indices st) u = Ok acc' ∧ inv2 (visited ++ [u]) acc'.
Proof.
  intros Hnd [[more Hg] Hm Hi]. destruct acc as [[groups ug] indices]. cbn [fst snd] in *. subst groups.
  assert (u ∉ visited) as Hu by (intros Hin; apply NoDup_app in Hnd as (_ & Hd & _); by eapply Hd; [|left]).
  unfold visit_unit. rewrite (Hm u Hu). destruct (node_unit_to_qnn_node_group st !! u) as [p|] eqn:Ep.
  - destruct (proj1 (inv1_index _ _ Hst _ _) Ep) as (g & Hgp & Hug).
    assert (aget (qnn_node_groups st ++ more) p = Ok g) as -> by (by apply aget_Ok, lookup_app_l_Some). cbn [rbind].
    eexists. split; [done|]. split; cbn [fst snd]; [by exists more|intros v Hv; apply Hm; set_solver|].
    rewrite omap_app. cbn. unfold emit at 2. rewrite Ep, Hgp. cbn.
    destruct (GetTargetNodeUnit g =? u); [|by rewrite app_nil_r]. apply Forall2_app; [done|].
    repeat constructor. rewrite (inv1_fused _ _ Hst p) by (by eapply lookup_lt_Some). by apply lookup_app_l_Some.
  - eexists. split; [done|]. split; cbn [fst snd].
    + exists (more ++ [QnnNodeUnitWrapper u]). by rewrite app_assoc.
    + intros v Hv. unfold insert_new. rewrite (Hm u Hu), Ep. rewrite lookup_insert_ne by set_solver. apply Hm. set_solver.
    + rewrite omap_app. cbn. unfold emit at 2. rewrite Ep. cbn. apply Forall2_app.
      * eapply Forall2_impl; [done|]. intros i g Hig. by apply lookup_app_l_Some.
      * repeat constructor. by apply list_lookup_middle.
Qed.

(** *** Moving the groups *)
Lemma move_groups indices gs : ∀ holder out, NoDup indices →
  Forall2 (fun i g => holder !! i = Some (Some g)) indices gs →
  ∃ holder', foldM move_group indices (holder, out) = Ok (holder', out ++ (Some <$> gs)).
Proof.
  induction indices as [|i indices IH] in gs |- *; intros holder out Hnd Hf.
  - apply Forall2_nil_inv_l in Hf as ->. exists holder. cbn. by rewrite app_nil_r.
  - apply Forall2_cons_inv_l in Hf as (g & gs' & Hg & Hf & ->). apply NoDup_cons in Hnd as [Hi Hnd].
    cbn. rewrite (proj2 (aget_Ok holder i _) Hg). cbn.
    destruct (IH gs' (<[i := None]> holder) (out ++ [Some g]) Hnd) as [holder' ->].
    + rewrite Forall2_same_length_lookup in *. destruct Hf as [Hl Hf].
      split; [done|]. intros j k g' Hk Hg'. rewrite list_lookup_insert_ne; [by eapply Hf|].
      intros ->. apply Hi. by apply list_elem_of_lookup_2 in Hk.
    + exists holder'. cbn. by rewrite <- app_assoc.
Qed.

End Leftover.

Lemma groups_run s : ∃ st, inv1 nodes st ∧
  GetQnnNodeGroups graph nodes units affinity backend fusions s = Ok (model st, Some <$> omap (emit st) order).
Proof.
  destruct (foldM_total visit_node inv1 nodes (Grouping s [] ∅ ∅ [])) as (st & Hrun & Hst).
  - split; cbn; [done|..].
    + intros v i. rewrite lookup_empty. split; [done|]. by intros (g & ? & _).
    + done.
    + lia.
  - intros visited n rest st E Hi. apply visit_node_spec; [|done]. rewrite E. set_solver.
  - exists st. split; [done|]. unfold GetQnnNodeGroups, GetQnnNodeGroupsImpl. rewrite Hrun. cbn [rbind].
    pose proof (inv1_sorted _ _ Hst) as Hs. fold order in Hs. rewrite Hs.
    destruct (foldM_total (fun acc u => visit_unit acc (fused_qnn_node_group_indices st) u) (inv2 st) order
      (qnn_node_groups st, node_unit_to_qnn_node_group st, [])) as ([[groups ug] indices] & -> & Hi2).
    + split; cbn; [exists []; by rewrite app_nil_r|done|constructor].
    + intros visited u rest acc E Hi. eapply visit_unit_spec; [done| |done]. rewrite <- E. apply order_NoDup.
    + cbn [rbind]. destruct (move_groups indices (omap (emit st) order) (Some <$> groups) []) as [holder' ->]; [| |done].
      * pose proof (inv2_indices _ _ _ Hi2) as Hf. cbn [fst snd] in Hf.
        apply (NoDup_fmap_1 (fun i => GetTargetNodeUnit <$> groups !! i)).
        assert ((fun i => GetTargetNodeUnit <$> groups !! i) <$> indices =
                Some <$> (GetTargetNodeUnit <$> omap (emit st) order)) as ->.
        { clear - Hf. induction Hf as [|i g idx gs Hg Hf IH]; [done|]. cbn. by rewrite Hg, IH. }
        apply NoDup_fmap_2; [by intros ?? [= ->]|]. apply omap_emit_NoDup, order_NoDup.
      * pose proof (inv2_indices _ _ _ Hi2) as Hf. cbn [fst snd] in Hf. eapply Forall2_impl; [exact Hf|].
        intros i g Hg. cbn. by rewrite list_lookup_fmap, Hg.
Qed.

(** *** The placed groups *)

Lemma emitted_units st : inv1 nodes st → mjoin (GetNodeUnits <$> omap (emit st) order) ≡ₚ order.
Proof.
  intros Hst. apply NoDup_Permutation; [|apply order_NoDup|].
  - assert (∀ l, NoDup l → (∀ u, u ∈ l → u ∈ order) → NoDup (mjoin (GetNodeUnits <$> omap (emit st) l))) as H;
      [|by apply H; [apply order_NoDup|]].
    induction 1 as [|u l Hu _ IH]; intros Hl; [constructor|]. cbn. destruct (emit st u) as [g|] eqn:E; cbn.
    2:{ apply IH. set_solver. }
    apply NoDup_app. split; [by eapply emit_ok; [| |exact E]; [done|set_solver]|]. split; [|apply IH; set_solver].
    intros v Hv Hin. apply list_elem_of_join in Hin as (vs & Hv' & Hvs).
    apply list_elem_of_fmap in Hvs as (g' & -> & Hg'). apply list_elem_of_omap in Hg' as (u' & Hu' & E').
    apply Hu. by rewrite <- (emit_rep st Hst u g v E Hv), (emit_rep st Hst u' g' v E' Hv').
  - intros v. rewrite list_elem_of_join. split.
    + intros (vs & Hv & Hvs). apply list_elem_of_fmap in Hvs as (g & -> & Hg).
      apply list_elem_of_omap in Hg as (u & Hu & E). by eapply emit_ok; [| | |exact Hv].
    + intros Hv. destruct (rep_emit st Hst v Hv) as (g & Hr & E & Hin). exists (GetNodeUnits g). split; [done|].
      apply list_elem_of_fmap. exists g. split; [done|]. apply list_elem_of_omap. eauto.
Qed.

Lemma emitted_order (st : @grouping M) (l : list nat) : ∀ i j gi gj, omap (emit st) l !! i = Some gi → omap (emit st) l !! j = Some gj → i < j →
  ∃ p q, l !! p = Some (GetTargetNodeUnit gi) ∧ l !! q = Some (GetTargetNodeUnit gj) ∧ p < q.
Proof.
  induction l as [|u l IH]; intros i j gi gj Hi Hj Hij; [done|]. cbn in Hi, Hj.
  destruct (emit st u) as [g|] eqn:E.
  - destruct j as [|j]; [lia|]. cbn in Hj. destruct i as [|i]; cbn in Hi.
    + injection Hi as <-. apply list_elem_of_lookup_2 in Hj. apply list_elem_of_omap in Hj as (v & Hv & Ev).
      apply list_elem_of_lookup_1 in Hv as [q Hq]. exists 0, (S q). cbn.
      rewrite (emit_target _ _ _ E), (emit_target _ _ _ Ev). split_and!; [done|done|lia].
    + destruct (IH i j gi gj Hi Hj) as (p & q & ? & ? & ?); [lia|]. exists (S p), (S q). split_and!; [done|done|lia].
  - destruct (IH i j gi gj Hi Hj Hij) as (p & q & ? & ? & ?). exists (S p), (S q). split_and!; [done|done|lia].
Qed.

Lemma before_irrefl u v : before u v → before v u → False.
Proof.
  intros (i & j & Hi & Hj & ?) (k & l & Hk & Hl & ?).
  pose proof (NoDup_lookup _ _ _ _ order_NoDup Hi Hl). pose proof (NoDup_lookup _ _ _ _ order_NoDup Hj Hk). lia.
Qed.

Lemma before_trans u v w : before u v → before v w → before u w.
Proof.
  intros (i & j & Hi & Hj & ?) (k & l & Hk & Hl & ?).
  pose proof (NoDup_lookup _ _ _ _ order_NoDup Hj Hk). exists i, l. split_and!; [done|done|lia].
Qed.

Lemma emitted_topological st i j gi gj u v : inv1 nodes st →
  omap (emit st) order !! i = Some gi → omap (emit st) order !! j = Some gj →
  u ∈ GetNodeUnits gi → v ∈ GetNodeUnits gj → edge u v → i = j ∨ i < j.
Proof.
  intros Hst Hi Hj Hu Hv He. destruct (decide (i = j)) as [|Hne]; [by left|right].
  pose proof (list_elem_of_lookup_2 _ _ _ Hi) as (ui & Hui & Ei)%list_elem_of_omap.
  pose proof (list_elem_of_lookup_2 _ _ _ Hj) as (uj & Huj & Ej)%list_elem_of_omap.
  destruct (emit_ok st Hst ui gi Hui Ei) as [Hoki _]. destruct (emit_ok st Hst uj gj Huj Ej) as [Hokj _].
  assert (ui ≠ uj) as Hd.
  { intros ->. assert (gi = gj) as -> by congruence. destruct (decide (i < j)) as [Hlt|Hge].
    - destruct (emitted_order st order i j gj gj Hi Hj Hlt) as (p & q & Hp & Hq & ?).
      pose proof (NoDup_lookup _ _ _ _ order_NoDup Hp Hq). lia.
    - destruct (emitted_order st order j i gj gj Hj Hi) as (p & q & Hp & Hq & ?); [lia|].
      pose proof (NoDup_lookup _ _ _ _ order_NoDup Hp Hq). lia. }
  assert (u ∉ GetNodeUnits gj) as Huj'.
  { intros Hin. by rewrite <- (emit_rep st Hst _ _ _ Ei Hu), (emit_rep st Hst _ _ _ Ej Hin) in Hd. }
  assert (v ∉ GetNodeUnits gi) as Hvi'.
  { intros Hin. by rewrite <- (emit_rep st Hst _ _ _ Ej Hv), (emit_rep st Hst _ _ _ Ei Hin) in Hd. }
  assert (before (GetTargetNodeUnit gi) (GetTargetNodeUnit gj)) as Hb.
  { pose proof (ok_enter _ Hokj u v He Hv Huj') as Hin.
    destruct (ok_leave _ Hoki u v He Hu Hvi') as [->|Hout]; [done|by eapply before_trans]. }
  destruct (decide (i < j)) as [|Hge]; [done|exfalso].
  destruct (emitted_order st order j i gj gi Hj Hi) as (p & q & Hp & Hq & ?); [lia|].
  eapply before_irrefl; [exact Hb|]. by exists p, q.
Qed.

End Facts.

(** ** Properties *)

Section Claims.
Context {M : Type} (graph : nat → OrtNode) (nodes : list nat) (units : gmap nat OrtNodeUnit).
Context (affinity : OpAffinityMap) (backend : QnnBackendType).
Context (fusions : gmap string (list (@FusionFunc M))).

(** C23: With fusion functions that keep their contract, [GetQnnNodeGroups] succeeds and
    returns no null group; the groups hold every node unit of the graph exactly once, each
    group contains its target, and the groups come in the order of their targets. *)
Theorem node_groups_partition (s : M) :
  wf_units graph nodes units →
  (∀ op fs f, fusions !! op = Some fs → f ∈ fs → Fusion graph nodes units f) →
  ∃ s' gs, GetQnnNodeGroups graph nodes units affinity backend fusions s = Ok (s', Some <$> gs) ∧
    mjoin (GetNodeUnits <$> gs) ≡ₚ unit_order nodes units ∧
    (∀ g, g ∈ gs → GetTargetNodeUnit g ∈ GetNodeUnits g) ∧
    (∀ i j gi gj, gs !! i = Some gi → gs !! j = Some gj → i < j →
       before nodes units (GetTargetNodeUnit gi) (GetTargetNodeUnit gj)).
Proof.
  intros Hwf Hf. destruct (groups_run graph nodes units affinity backend fusions Hwf Hf s) as (st & Hst & Hrun).
  eexists _, _. split; [exact Hrun|]. split_and!.
  - by eapply emitted_units.
  - intros g (u & Hu & E)%list_elem_of_omap. by eapply emit_ok.
  - intros i j gi gj Hi Hj Hij. by apply (emitted_order st (unit_order nodes units) i j).
Qed.

(** C24: The groups are in topological order, for well-formed units and registered fusions that
    all keep the contract [Fusion] (by which a group's own edges allow the place of its target; it is
    proved of three of the registered fusions in [Fusions] and assumed of the others): when a value flows
    from a unit of one group to a unit of another, the first group comes earlier. *)
Theorem node_groups_topological (s s' : M) (out : list (option IQnnNodeGroup)) :
  wf_units graph nodes units →
  (∀ op fs f, fusions !! op = Some fs → f ∈ fs → Fusion graph nodes units f) →
  GetQnnNodeGroups graph nodes units affinity backend fusions s = Ok (s', out) →
  ∀ i j gi gj u v, out !! i = Some (Some gi) → out !! j = Some (Some gj) → i ≠ j →
    u ∈ GetNodeUnits gi → v ∈ GetNodeUnits gj → edge graph units u v → i < j.
Proof.
  intros Hwf Hf Hrun i j gi gj u v Hi Hj Hne Hu Hv He.
  destruct (groups_run graph nodes units affinity backend fusions Hwf Hf s) as (st & Hst & Hrun').
  rewrite Hrun in Hrun'. injection Hrun' as _ ->. rewrite list_lookup_fmap in Hi, Hj.
  apply fmap_Some in Hi as (gi' & Hi & [= <-]). apply fmap_Some in Hj as (gj' & Hj & [= <-]).
  assert (i = j ∨ i < j) as [|] by (by eapply emitted_topological; [exact Hwf|..]); done.
Qed.

(** No op reaches QNN that the op affinity pins to another backend: a fused group only
    has members that [Evaluate] accepts, and a single unit whose op is rejected is not
    supported. *)
Theorem affinity_respected (s s' : M) (out : list (option IQnnNodeGroup))
  (GetOpBuilder : string → option (OrtNodeUnit → result unit)) :
  wf_units graph nodes units →
  (∀ op fs f, fusions !! op = Some fs → f ∈ fs → Fusion graph nodes units f) →
  GetQnnNodeGroups graph nodes units affinity backend fusions s = Ok (s', out) →
  ∀ g, Some g ∈ out →
    (∀ u n, g = QnnNodeUnitWrapper n → units !! n = Some u →
       IsSupported graph affinity backend GetOpBuilder u = Ok tt) →
    ∀ v, v ∈ GetNodeUnits g → Evaluate affinity (op_type (graph v)) backend = Ok tt.
Proof.
  intros Hwf Hf Hrun g Hg Hsup v Hv.
  destruct (groups_run graph nodes units affinity backend fusions Hwf Hf s) as (st & Hst & Hrun').
  rewrite Hrun in Hrun'. injection Hrun' as _ ->. apply list_elem_of_fmap in Hg as (g' & [= <-] & Hg).
  apply list_elem_of_omap in Hg as (u & Hu & E). destruct (emit_cases _ _ _ E) as [->|[p Hp]].
  - cbn in Hv. apply list_elem_of_singleton in Hv as ->.
    apply elem_of_order in Hu as (Hn & un & Hun & <-).
    specialize (Hsup un _ eq_refl Hun). unfold IsSupported, OpType in Hsup. by run_cases.
  - destruct (inv1_groups _ _ _ _ _ _ _ Hst _ _ Hp) as (_ & _ & Hall). specialize (Hall v Hv).
    unfold allowed in Hall. by destruct (Evaluate _ _ _) as [[]|].
Qed.

End Claims.
