(* ===== verification/Fusions.v ===== *)
(** * Fusions

    Three of the fusions of [builder/qnn_node_group]: [HardSigmoidMulFusion],
    [ScaleSoftmaxFusion] and [L2NormFusion], with the helpers of [utils.cc] that they use, and
    the proof that they keep the contract [Fusion] that [NodeGroups] relies on.

    All units they look into are standalone nodes other than Q and DQ, whose inputs and
    outputs [OrtNodeUnit::InitForSingleNode] copies from the node.  The last step of a fusion,
    which makes QNN check the fused node, is a parameter. *)

From Stdlib Require Import Sorted.
From stdpp Require Import sorting.
From S2P Require Import Prelude DataTypes Floats QnnTensor ModelWrapper Perm Partition NodeGroups.
Local Open Scope Z_scope.

(** A constant initializer: what [UnpackInitializerData] and the tensor accessors return. *)
Record ConstantTensor := Constant {
  unpacked : option (list Z);
  has_initializer : bool;
  element_count : Z;
  element_type : ONNXTensorElementDataType;
  float_data : option float;
  half_data : option Z
}.

(** The fused nodes, with the arguments of their [CreateOrValidateOnQnn]. *)
Inductive fused_node :=
| HardSwish (hardsigmoid mul : nat)
| ScaledSoftmax (mul softmax : nat)
| L2Norm (reducel2 add div : nat) (epsilon : float) (axes : list Z).

Section Fusions.
Context {M : Type}.
Variable graph : nat → OrtNode.
Variable units : gmap nat OrtNodeUnit.
Variable constants : string → option ConstantTensor.
Variable Float16_ToFloat : Z → float.
Variable ValidateOnQnn : M → fused_node → M * bool.

(** ** Node unit accessors *)

Definition io_name (v : option ValueInfo) : string := match v with Some v => vi_name v | None => "" end.
Definition io_shape (v : option ValueInfo) : option (list Z) := v ≫= vi_shape.
Definition Inputs (u : OrtNodeUnit) : list (option ValueInfo) := inputs (graph (target_node_ u)).
Definition Outputs (u : OrtNodeUnit) : list (option ValueInfo) := outputs (graph (target_node_ u)).
Definition is_single (u : OrtNodeUnit) (op : string) : bool :=
  bool_decide (OpType graph u = op) && bool_decide (type_ u = SingleNode).

Definition deref {A} (v : option A) : result A := match v with Some a => Ok a | None => Err Trap end.

(** ** Helpers of [utils.cc] *)

Definition GetOnlyChildOfType (parent : OrtNodeUnit) (child_op_types : list string) (groups : gmap nat nat)
  : result (option OrtNodeUnit) :=
  match Outputs parent with
  | [output] =>
      let* out := deref output in
      if vi_graph_output out then Ok None
      else
      match vi_consumers out with
      | [Some child] =>
          if negb (bool_decide (op_type (graph child) ∈ child_op_types)) then Ok None
          else
          match units !! child with
          | None => Ok None
          | Some child_unit =>
              if bool_decide (is_Some (groups !! target_node_ child_unit)) then Ok None
              else if negb (bool_decide (type_ child_unit = SingleNode)) then Ok None
              else Ok (Some child_unit)
          end
      | _ => Ok None
      end
  | _ => Ok None
  end.

Definition GetScalarConstantValue (input_name : string) : option float :=
  match constants input_name with
  | None => None
  | Some c =>
      if negb (has_initializer c) then None
      else if negb (element_count c =? 1) then None
      else match element_type c with
           | ONNX_FLOAT => float_data c
           | ONNX_FLOAT16 => Float16_ToFloat <$> half_data c
           | _ => None
           end
  end.

(** [GetConstantFloatScalar] of [l2_norm_fusion.cc]. *)
Definition GetConstantFloatScalar (input_name : string) : option float :=
  match constants input_name with
  | None => None
  | Some c =>
      if negb (has_initializer c) then None
      else if negb (bool_decide (element_type c = ONNX_FLOAT)) then None
      else if negb (element_count c =? 1) then None
      else float_data c
  end.

(** Eight bytes per axis; [memcpy] overruns the vector when the size is no multiple of 8. *)
Fixpoint int64s (n : nat) (bytes : list Z) : list Z :=
  match n with
  | O => []
  | S n => i64 (le_decode (take 8 bytes)) :: int64s n (drop 8 bytes)
  end.

Definition read_int64s (bytes : list Z) : result (list Z) :=
  if (length bytes mod 8 =? 0)%nat then Ok (int64s (length bytes / 8)%nat bytes) else Err Trap.

Definition normalize_axis (rank : Z) (ax : Z) : option Z :=
  let positive_ax := if ax <? 0 then i64 (ax + rank) else ax in
  if (positive_ax <? 0) || (rank <=? positive_ax) then None else Some (u32 positive_ax).

Fixpoint unique (l : list Z) : list Z :=
  match l with
  | x :: (y :: _) as l' => if x =? y then unique l' else x :: unique l'
  | _ => l
  end.

Definition GetReduceAxes (u : OrtNodeUnit) : result (option (list Z)) :=
  let* input0 := aget (Inputs u) 0 in
  let* input_shape := GetOnnxShape (io_shape input0) in
  match input_shape with
  | None => Ok None
  | Some shape =>
      let input_rank := Z.of_nat (length shape) in
      let* raw_axes :=
        if since_version (graph (target_node_ u)) <? 18 then
          Ok (Some (default [] (ints_attribute (graph (target_node_ u)) "axes")))
        else if (1 <? length (Inputs u))%nat then
          let* input1 := aget (Inputs u) 1 in
          match constants (io_name input1) with
          | None => Ok None
          | Some c =>
              match unpacked c with
              | None => Ok None
              | Some bytes => let* axes := read_int64s bytes in Ok (Some axes)
              end
          end
        else Ok (Some []) in
      match raw_axes ≫= mapM (normalize_axis input_rank) with
      | None => Ok None
      | Some axes => Ok (Some (unique (merge_sort Z.le axes)))
      end
  end.

(** ** [HardSigmoidMulFusion] *)

Definition f_one : float := f32_of_Z 1.
Definition float_epsilon : float := f32_div f_one (f32_of_Z (2 ^ 23)).
Definition req_alpha : float := f32_div f_one (f32_of_Z 6).
Definition req_beta : float := f32_div f_one (f32_of_Z 2).
Definition alpha_eps : float := f32_mul float_epsilon req_alpha.
Definition beta_eps : float := f32_mul float_epsilon req_beta.

Definition HardSigmoidMulFusion_TryFusion (s : M) (u : OrtNodeUnit) (groups : gmap nat nat)
  : result (M * option IQnnNodeGroup) :=
  if negb (is_single u "HardSigmoid") then Ok (s, None)
  else
  let attr := float_attribute (graph (target_node_ u)) in
  let alpha := default (f32_div f_one (f32_of_Z 5)) (attr "alpha") in
  let beta := default req_beta (attr "beta") in
  if f_lt alpha_eps (f_abs (f32_sub alpha req_alpha)) || f_lt beta_eps (f_abs (f32_sub beta req_beta)) then Ok (s, None)
  else
  let* child := GetOnlyChildOfType u ["Mul"] groups in
  match child with
  | None => Ok (s, None)
  | Some mul =>
      let* hs_input := aget (Inputs u) 0 in
      let* mul_input0 := aget (Inputs mul) 0 in
      let* same_root_input :=
        if bool_decide (io_name mul_input0 = io_name hs_input) then Ok true
        else let* mul_input1 := aget (Inputs mul) 1 in Ok (bool_decide (io_name mul_input1 = io_name hs_input)) in
      if negb same_root_input then Ok (s, None)
      else
      let '(s, ok) := ValidateOnQnn s (HardSwish (target_node_ u) (target_node_ mul)) in
      if negb ok then Ok (s, None)
      else Ok (s, Some (NodeGroup [target_node_ u; target_node_ mul] (target_node_ u) "HardSigmoidMulFusion"))
  end.

(** ** [ScaleSoftmaxFusion] *)

Definition IsSingleElementShape (shape : list Z) : bool := forallb (fun dim => dim =? 1) shape.

Definition GetMulScaleInputIndex (mul : OrtNodeUnit) : option nat :=
  match Inputs mul with
  | [x; y] =>
      match io_shape x, io_shape y with
      | Some x_shape, Some y_shape =>
          let is_x_single_element := IsSingleElementShape x_shape in
          let is_y_single_element := IsSingleElementShape y_shape in
          if negb is_x_single_element && negb is_y_single_element then None
          else if is_x_single_element && is_y_single_element && (length x_shape =? length y_shape)%nat then None
          else
          let x_is_scale := is_x_single_element && (negb is_y_single_element || (length x_shape <? length y_shape)%nat) in
          let '(scale, data) := if x_is_scale then (x_shape, y_shape) else (y_shape, x_shape) in
          if (length data <? length scale)%nat then None else Some (if x_is_scale then 0%nat else 1%nat)
      | _, _ => None
      end
  | _ => None
  end.

Definition data_shape (mul : OrtNodeUnit) (scale_index : nat) : option (list Z) :=
  Inputs mul !! (1 - scale_index)%nat ≫= io_shape.

Definition GetPositiveSoftmaxAxis (mul softmax : OrtNodeUnit) : option Z :=
  let axis_value := default (-1) (int_attribute (graph (target_node_ softmax)) "axis") in
  if axis_value <? 0 then
    scale_index ← GetMulScaleInputIndex mul;
    shape ← data_shape mul scale_index;
    Some (u32 (i64 (axis_value + Z.of_nat (length shape))))
  else Some (u32 axis_value).

Definition ExtractScaleValueFromMul (mul : OrtNodeUnit) : option float :=
  scale_index ← GetMulScaleInputIndex mul;
  scale ← Inputs mul !! scale_index;
  GetScalarConstantValue (io_name scale).

Definition IsSoftmaxAxisLast (mul softmax : OrtNodeUnit) : option bool :=
  scale_input_index ← GetMulScaleInputIndex mul;
  shape ← data_shape mul scale_input_index;
  match shape with
  | [] => None
  | _ =>
      axis ← GetPositiveSoftmaxAxis mul softmax;
      if Z.of_nat (length shape) <=? axis then None
      else Some (axis =? u32 (Z.of_nat (length shape) - 1))
  end.

Definition ScaleSoftmaxFusion_TryFusion (s : M) (u : OrtNodeUnit) (groups : gmap nat nat)
  : result (M * option IQnnNodeGroup) :=
  if negb (is_single u "Mul") then Ok (s, None)
  else
  match ExtractScaleValueFromMul u with
  | None => Ok (s, None)
  | Some _ =>
      let* child := GetOnlyChildOfType u ["Softmax"] groups in
      match child with
      | None => Ok (s, None)
      | Some softmax =>
          match IsSoftmaxAxisLast u softmax with
          | Some true =>
              let '(s, ok) := ValidateOnQnn s (ScaledSoftmax (target_node_ u) (target_node_ softmax)) in
              if negb ok then Ok (s, None)
              else Ok (s, Some (NodeGroup [target_node_ u; target_node_ softmax] (target_node_ softmax) "ScaleSoftmaxFusion"))
          | _ => Ok (s, None)
          end
      end
  end.

(** ** [L2NormFusion] *)

(** The last input of the Add that is not the norm. *)
Definition find_epsilon (reducel2 add : OrtNodeUnit) : result (option float) :=
  foldM (fun epsilon add_in =>
    let* out := aget (Outputs reducel2) 0 in
    if bool_decide (io_name add_in = io_name out) then Ok epsilon
    else Ok (GetConstantFloatScalar (io_name add_in))) (Inputs add) None.

Definition L2NormFusion_TryFusion (s : M) (u : OrtNodeUnit) (groups : gmap nat nat)
  : result (M * option IQnnNodeGroup) :=
  if negb (is_single u "ReduceL2") then Ok (s, None)
  else if negb (default 1 (int_attribute (graph (target_node_ u)) "keepdims") =? 1) then Ok (s, None)
  else
  let* add_child := GetOnlyChildOfType u ["Add"] groups in
  match add_child with
  | None => Ok (s, None)
  | Some add =>
      let* epsilon := find_epsilon u add in
      match epsilon with
      | None => Ok (s, None)
      | Some epsilon =>
          let* div_child := GetOnlyChildOfType add ["Div"] groups in
          match div_child with
          | None => Ok (s, None)
          | Some div =>
              let* reducel2_input := aget (Inputs u) 0 in
              let* add_output := aget (Outputs add) 0 in
              match Inputs div with
              | [div_input0; div_input1] =>
                  if negb (bool_decide (io_name div_input0 = io_name reducel2_input)) ||
                     negb (bool_decide (io_name div_input1 = io_name add_output)) then Ok (s, None)
                  else
                  let* axes := GetReduceAxes u in
                  match axes with
                  | None | Some [] => Ok (s, None)
                  | Some axes =>
                      let '(s, ok) := ValidateOnQnn s
                        (L2Norm (target_node_ u) (target_node_ add) (target_node_ div) epsilon axes) in
                      if negb ok then Ok (s, None)
                      else Ok (s, Some (NodeGroup [target_node_ u; target_node_ add; target_node_ div]
                                          (target_node_ div) "L2NormFusion"))
                  end
              | _ => Ok (s, None)
              end
          end
      end
  end.

End Fusions.

(** ** What the graph guarantees

    Values link producers and consumers, a name has one producer, no node consumes its own
    output, and the ops have the inputs that the ONNX schema gives them. *)
Record wf_view (graph : nat → OrtNode) (nodes : list nat) (units : gmap nat OrtNodeUnit)
  (constants : string → option ConstantTensor) : Prop := {
  view_units : wf_units graph nodes units;
  view_single n u : units !! n = Some u → type_ u = SingleNode → n = target_node_ u;
  view_produced m i n : Some i ∈ inputs (graph m) → vi_producer i = Some n →
    ∃ o, Some o ∈ outputs (graph n) ∧ vi_name o = vi_name i ∧ Some m ∈ vi_consumers o;
  view_consumed n o m : Some o ∈ outputs (graph n) → Some m ∈ vi_consumers o →
    ∃ i, Some i ∈ inputs (graph m) ∧ vi_name i = vi_name o ∧ vi_producer i = Some n;
  view_names m m' i i' : Some i ∈ inputs (graph m) → Some i' ∈ inputs (graph m') →
    vi_name i = vi_name i' → vi_producer i = vi_producer i';
  view_acyclic m i : Some i ∈ inputs (graph m) → vi_producer i ≠ Some m;
  view_outputs n : outputs (graph n) ≠ [None];
  view_hardsigmoid n : op_type (graph n) = "HardSigmoid" → ∃ i, inputs (graph n) = [Some i];
  view_mul n : op_type (graph n) = "Mul" → ∃ a b, inputs (graph n) = [Some a; Some b];
  view_reduce n : op_type (graph n) = "ReduceL2" → ∃ i rest, inputs (graph n) = i :: rest ∧
    (∀ ds, io_shape i = Some ds → Forall (fun d => d < 2 ^ 32) ds) ∧
    (∀ a rest' c bytes, rest = a :: rest' → constants (io_name a) = Some c → unpacked c = Some bytes →
       (length bytes mod 8 = 0)%nat)
}.

Section FusionFacts.
Context {M : Type} (graph : nat → OrtNode) (nodes : list nat) (units : gmap nat OrtNodeUnit).
Context (constants : string → option ConstantTensor) (Float16_ToFloat : Z → float).
Context (ValidateOnQnn : M → fused_node → M * bool).
Context (Hv : wf_view graph nodes units constants).

Local Abbreviation order := (unit_order nodes units).
Local Abbreviation edge := (edge graph units).
Local Abbreviation before := (before nodes units).
Local Abbreviation only_child := (GetOnlyChildOfType graph units).

Lemma unit_target_eq n u : units !! n = Some u → units !! target_node_ u = Some u ∧ target_node_ u ∈ order.
Proof.
  intros Hu. destruct (wf_target _ _ _ (view_units _ _ _ _ Hv) _ _ Hu) as [Hn Ht]. split; [done|].
  apply elem_of_order. eauto.
Qed.

Lemma edge_before u v : edge u v → before u v.
Proof. apply (wf_topological _ _ _ (view_units _ _ _ _ Hv)). Qed.

Lemma before_tr u v w : before u v → before v w → before u w.
Proof.
  intros (i & j & Hi & Hj & ?) (k & l & Hk & Hl & ?). exists i, l.
  pose proof (NoDup_lookup _ _ _ _ (order_NoDup graph nodes units (view_units _ _ _ _ Hv)) Hj Hk).
  split_and!; [done|done|lia].
Qed.

Lemma only_child_total u types m : ∃ c, only_child u types m = Ok c.
Proof.
  unfold GetOnlyChildOfType, Outputs. pose proof (view_outputs _ _ _ _ Hv (target_node_ u)) as Ho.
  destruct (outputs _) as [|[o|] [|o' l]]; eauto; [|done]. cbn. repeat (case_match; eauto).
Qed.

Record is_only_child (u c : OrtNodeUnit) (types : list string) (m : gmap nat nat) : Prop := {
  oc_unit : units !! target_node_ c = Some c;
  oc_order : target_node_ c ∈ order;
  oc_free : m !! target_node_ c = None;
  oc_single : type_ c = SingleNode;
  oc_type : op_type (graph (target_node_ c)) ∈ types;
  oc_output : ∃ o, Outputs graph u = [Some o] ∧ vi_consumers o = [Some (target_node_ c)];
  oc_edge : edge (target_node_ u) (target_node_ c);
  oc_only v : edge (target_node_ u) v → v = target_node_ c
}.

Lemma only_child_spec u types m c : units !! target_node_ u = Some u → type_ u = SingleNode →
  only_child u types m = Ok (Some c) → is_only_child u c types m.
Proof.
  intros Hu Hsu Hc. unfold GetOnlyChildOfType in Hc. destruct (Outputs graph u) as [|output [|]] eqn:Eo; simplify_eq.
  destruct output as [out|]; [|done]. cbn [deref rbind] in Hc. destruct (vi_graph_output out); [done|].
  destruct (vi_consumers out) as [|[child|] [|]] eqn:Ec; simplify_eq.
  case_bool_decide as Ht; [|done]. cbn [negb] in Hc. destruct (units !! child) as [cu|] eqn:Ecu; [|done].
  case_bool_decide as Hfree; [done|]. case_bool_decide as Hs; [|done]. cbn [negb] in Hc. simplify_eq.
  assert (child = target_node_ c) as -> by (by eapply view_single).
  destruct (unit_target_eq _ _ Ecu) as [Hcu Hco].
  destruct (view_consumed _ _ _ _ Hv (target_node_ u) out (target_node_ c)) as (i & Hi & Hn & Hp).
  { fold (Outputs graph u). rewrite Eo. set_solver. }
  { rewrite Ec. set_solver. }
  assert (target_node_ u ≠ target_node_ c) as Hne.
  { intros E. rewrite E in Hp. by apply (view_acyclic _ _ _ _ Hv) in Hi. }
  split; try done.
  - destruct (m !! target_node_ c) eqn:E; [|done]. exfalso. apply Hfree. eauto.
  - by exists out.
  - split; [done|]. by exists (target_node_ u), (target_node_ c), u, c, i.
  - intros v (_ & n & m' & un & um & i' & Hun & Etn & Hum & <- & Hi' & Hp').
    destruct (unit_target_eq _ _ Hun) as [Hun' _]. rewrite Etn, Hu in Hun'. injection Hun' as <-.
    assert (n = target_node_ u) as -> by (by eapply view_single).
    destruct (view_produced _ _ _ _ Hv _ _ _ Hi' Hp') as (o & Ho & _ & Hco').
    fold (Outputs graph u) in Ho. rewrite Eo in Ho. apply list_elem_of_singleton in Ho as [= ->].
    rewrite Ec in Hco'. apply list_elem_of_singleton in Hco' as [= ->]. by rewrite Ecu in Hum; injection Hum as ->.
Qed.

(** A group whose target is its last member: every other member only feeds the group. *)
Lemma target_last_edges (ms : list nat) (t p v : nat) :
  (∀ m, m ∈ ms → m = t ∨ before m t) → (∀ m v, m ∈ ms → m ≠ t → edge m v → v ∈ ms) → edge p v →
  (v ∈ ms → p ∉ ms → before p t) ∧ (p ∈ ms → v ∉ ms → p = t ∨ before t p).
Proof.
  intros Hb Ho He. split.
  - intros Hvm _. destruct (Hb v Hvm) as [->|Hbt]; [by apply edge_before|].
    eapply before_tr; [by apply edge_before|done].
  - intros Hpm Hvm. destruct (decide (p = t)) as [|Hne]; [by left|]. by destruct Hvm; eapply Ho.
Qed.

Lemma is_single_spec u op : is_single graph u op = true → op_type (graph (target_node_ u)) = op ∧ type_ u = SingleNode.
Proof. unfold is_single, OpType. intros [? ?]%andb_true_iff. by split; eapply bool_decide_eq_true. Qed.

(** *** The fusions *)

Local Abbreviation hardsigmoid_mul := (HardSigmoidMulFusion_TryFusion graph units ValidateOnQnn).
Local Abbreviation scale_softmax :=
  (ScaleSoftmaxFusion_TryFusion graph units constants Float16_ToFloat ValidateOnQnn).
Local Abbreviation l2_norm := (L2NormFusion_TryFusion graph units constants ValidateOnQnn).

Lemma oc_type_1 u c ty m : is_only_child u c [ty] m → op_type (graph (target_node_ c)) = ty.
Proof. intros Hc. by apply list_elem_of_singleton, (oc_type _ _ _ _ Hc). Qed.

Lemma hardsigmoid_mul_total s u m : units !! target_node_ u = Some u → ∃ s' g, hardsigmoid_mul s u m = Ok (s', g).
Proof.
  intros Hu. unfold HardSigmoidMulFusion_TryFusion. destruct (is_single graph u "HardSigmoid") eqn:E; [|by eexists _, _].
  apply is_single_spec in E as [Hop Hs]. cbn [negb]. destruct (_ || _); [by eexists _, _|].
  destruct (only_child_total u ["Mul"] m) as [c Hc]. rewrite Hc. cbn [rbind]. destruct c as [mul|]; [|by eexists _, _].
  destruct (view_hardsigmoid _ _ _ _ Hv _ Hop) as [i Hi]. apply only_child_spec in Hc; [|done..].
  destruct (view_mul _ _ _ _ Hv _ (oc_type_1 _ _ _ _ Hc)) as (a & b & Hab). unfold Inputs. rewrite Hi, Hab.
  cbn. destruct (ValidateOnQnn _ _) as [s' [|]]; repeat case_bool_decide; cbn; eauto.
Qed.

Lemma hardsigmoid_mul_spec s u m s' g : units !! target_node_ u = Some u → hardsigmoid_mul s u m = Ok (s', Some g) →
  ∃ mul hs a b, type_ u = SingleNode ∧ is_only_child u mul ["Mul"] m ∧ inputs (graph (target_node_ u)) = [Some hs] ∧
    inputs (graph (target_node_ mul)) = [Some a; Some b] ∧ (vi_name a = vi_name hs ∨ vi_name b = vi_name hs) ∧
    GetNodeUnits g = [target_node_ u; target_node_ mul] ∧ GetTargetNodeUnit g = target_node_ u.
Proof.
  intros Hu Hg. unfold HardSigmoidMulFusion_TryFusion in Hg.
  destruct (is_single graph u "HardSigmoid") eqn:E; [|done]. apply is_single_spec in E as [Hop Hs].
  cbn [negb] in Hg. case_match; [done|]. inv_bind Hg. destruct a as [mul|]; [|done].
  apply only_child_spec in Hg0 as Hc; [|done..].
  destruct (view_hardsigmoid _ _ _ _ Hv _ Hop) as [hs Hhs].
  destruct (view_mul _ _ _ _ Hv _ (oc_type_1 _ _ _ _ Hc)) as (a & b & Hab). unfold Inputs in Hg. rewrite Hhs, Hab in Hg. cbn in Hg.
  exists mul, hs, a, b. split_and!; [done..| | |].
  - case_bool_decide; [by left|]. cbn in Hg. case_bool_decide; [by right|done].
  - by run_cases.
  - by run_cases.
Qed.

(** The value that enters the Mul from outside is the one that enters the HardSigmoid. *)
Lemma hardsigmoid_mul_enter u mul hs a b m p :
  units !! target_node_ u = Some u → type_ u = SingleNode → is_only_child u mul ["Mul"] m →
  inputs (graph (target_node_ u)) = [Some hs] → inputs (graph (target_node_ mul)) = [Some a; Some b] →
  vi_name a = vi_name hs ∨ vi_name b = vi_name hs →
  edge p (target_node_ mul) → p ≠ target_node_ u → edge p (target_node_ u).
Proof.
  intros Hu Hs Hc Hhs Hab Hname He Hpu.
  assert (∀ q, edge q (target_node_ mul) → ∃ i n un, Some i ∈ [Some a; Some b] ∧ vi_producer i = Some n ∧
    units !! n = Some un ∧ target_node_ un = q) as Hin.
  { intros q (_ & n & k & un & uk & i & Hun & Hq & Huk & Hk & Hi & Hprod).
    destruct (unit_target_eq _ _ Huk) as [Huk' _]. rewrite Hk, (oc_unit _ _ _ _ Hc) in Huk'. injection Huk' as <-.
    assert (k = target_node_ mul) as -> by (eapply view_single; [done..|apply (oc_single _ _ _ _ Hc)]).
    rewrite Hab in Hi. by exists i, n, un. }
  destruct (Hin _ He) as (i & n & un & Hi & Hprod & Hun & Hp).
  destruct (Hin _ (oc_edge _ _ _ _ Hc)) as (i' & n' & un' & Hi' & Hprod' & Hun' & Hq).
  assert (i ≠ i') as Hne by (intros ->; simplify_eq).
  assert (∀ r, Some r ∈ [Some a; Some b] → vi_name r = vi_name hs → vi_producer r = vi_producer hs) as Hsame.
  { intros r Hr Hn. eapply (view_names _ _ _ _ Hv (target_node_ mul) (target_node_ u)); [by rewrite Hab|by rewrite Hhs; left|done]. }
  assert (vi_producer i' ≠ vi_producer hs) as Hno.
  { intros E. destruct (unit_target_eq _ _ Hun') as [Hx _]. rewrite Hq, Hu in Hx. injection Hx as <-.
    assert (n' = target_node_ u) as -> by (by eapply view_single).
    eapply (view_acyclic _ _ _ _ Hv (target_node_ u) hs); [rewrite Hhs; by left|congruence]. }
  assert (vi_producer i = vi_producer hs) as Hsrc.
  { destruct Hname as [Hn|Hn]; set_unfold; destruct_or!; simplify_eq; try (by apply Hsame; [set_solver|]);
      by destruct Hno; apply Hsame; [set_solver|]. }
  split; [done|]. exists n, (target_node_ u), un, u, hs. split_and!; try done; [rewrite Hhs; by left|congruence].
Qed.

Global Instance hardsigmoid_mul_fusion : Fusion graph nodes units hardsigmoid_mul.
Proof.
  split.
  - intros. by apply hardsigmoid_mul_total.
  - intros s u m s' g Ho Hu Hm Hg.
    destruct (hardsigmoid_mul_spec s u m s' g Hu Hg) as (mul & hs & a & b & _ & Hc & _ & _ & _ & -> & ->).
    pose proof (oc_edge _ _ _ _ Hc) as [Hne _]. pose proof (oc_order _ _ _ _ Hc). pose proof (oc_free _ _ _ _ Hc).
    split_and!; [apply NoDup_cons; split; [set_solver|apply NoDup_singleton]|set_solver|].
    intros v Hin. apply elem_of_cons in Hin as [->|Hin]; [done|]. by apply list_elem_of_singleton in Hin as ->.
  - intros s u m s' g Ho Hu Hg p v He.
    destruct (hardsigmoid_mul_spec s u m s' g Hu Hg) as (mul & hs & a & b & Hs & Hc & Hhs & Hab & Hname & -> & ->). split.
    + intros Hin Hp. apply elem_of_cons in Hin as [->|Hin]; [by apply edge_before|].
      apply list_elem_of_singleton in Hin as ->. apply edge_before.
      eapply hardsigmoid_mul_enter; [done..|set_solver].
    + intros Hin Hvn. apply elem_of_cons in Hin as [->|Hin]; [by left|right].
      apply list_elem_of_singleton in Hin as ->. apply edge_before, (oc_edge _ _ _ _ Hc).
Qed.

Lemma scale_softmax_total s u m : ∃ s' g, scale_softmax s u m = Ok (s', g).
Proof.
  unfold ScaleSoftmaxFusion_TryFusion. destruct (negb _); [by eexists _, _|].
  destruct (ExtractScaleValueFromMul _ _ _ _); [|by eexists _, _].
  destruct (only_child_total u ["Softmax"] m) as [c ->]. cbn [rbind]. destruct c as [c|]; [|by eexists _, _].
  destruct (IsSoftmaxAxisLast _ _ _) as [[]|]; [|by eexists _, _..].
  destruct (ValidateOnQnn _ _) as [s' [|]]; cbn; eauto.
Qed.

Lemma scale_softmax_spec s u m s' g : units !! target_node_ u = Some u → scale_softmax s u m = Ok (s', Some g) →
  ∃ softmax, is_only_child u softmax ["Softmax"] m ∧
    GetNodeUnits g = [target_node_ u; target_node_ softmax] ∧ GetTargetNodeUnit g = target_node_ softmax.
Proof.
  intros Hu Hg. unfold ScaleSoftmaxFusion_TryFusion in Hg. destruct (is_single graph u "Mul") eqn:E; [|done].
  apply is_single_spec in E as [_ Hs]. cbn [negb] in Hg. destruct (ExtractScaleValueFromMul _ _ _ _); [|done].
  inv_bind Hg. destruct a as [c|]; [|done]. apply only_child_spec in Hg0; [|done..]. exists c.
  destruct (IsSoftmaxAxisLast _ _ _) as [[]|]; try done. destruct (ValidateOnQnn _ _) as [s2 [|]]; cbn in Hg; by simplify_eq.
Qed.

Global Instance scale_softmax_fusion : Fusion graph nodes units scale_softmax.
Proof.
  split.
  - intros. apply scale_softmax_total.
  - intros s u m s' g Ho Hu Hm Hg. destruct (scale_softmax_spec s u m s' g Hu Hg) as (c & Hc & -> & ->).
    pose proof (oc_edge _ _ _ _ Hc) as [Hne _]. pose proof (oc_order _ _ _ _ Hc). pose proof (oc_free _ _ _ _ Hc).
    split_and!; [apply NoDup_cons; split; [set_solver|apply NoDup_singleton]|set_solver|].
    intros v Hin. apply elem_of_cons in Hin as [->|Hin]; [done|]. by apply list_elem_of_singleton in Hin as ->.
  - intros s u m s' g Ho Hu Hg p v He. destruct (scale_softmax_spec s u m s' g Hu Hg) as (c & Hc & -> & ->).
    pose proof (oc_edge _ _ _ _ Hc) as Hu1. apply target_last_edges; [| |done].
    + intros k Hk. apply elem_of_cons in Hk as [->|Hk]; [right; by apply edge_before|].
      apply list_elem_of_singleton in Hk as ->. by left.
    + intros k w Hk Hne Hkw. apply elem_of_cons in Hk as [->|Hk]; [|by apply list_elem_of_singleton in Hk].
      rewrite (oc_only _ _ _ _ Hc w Hkw). set_solver.
Qed.

Lemma onnx_shape_total i : (∀ ds, io_shape i = Some ds → Forall (fun d => d < 2 ^ 32) ds) →
  ∃ r, GetOnnxShape (io_shape i) = Ok r.
Proof.
  intros Hd. unfold GetOnnxShape. destruct (io_shape i) as [ds|]; [|by eexists]. specialize (Hd ds eq_refl).
  destruct ds as [|d ds]; [by eexists|]. revert Hd. generalize (Some (@nil Z)), (d :: ds). clear.
  intros acc ds. revert acc. induction ds as [|d ds IH]; intros acc Hd; [by eexists|]. inversion Hd as [|?? Hlt Hd']; subst. cbn.
  destruct acc as [l|]; [|by apply IH]. destruct (d <? 0); [by apply IH|].
  rewrite (proj2 (Z.ltb_lt _ _) Hlt). by apply IH.
Qed.

Lemma reduce_axes_total u : op_type (graph (target_node_ u)) = "ReduceL2" → ∃ r, GetReduceAxes graph constants u = Ok r.
Proof.
  intros Hop. destruct (view_reduce _ _ _ _ Hv _ Hop) as (i & rest & Hi & Hd & Hb).
  unfold GetReduceAxes, Inputs. rewrite Hi. cbn [aget lookup list_lookup rbind].
  destruct (onnx_shape_total i Hd) as [[sh|] ->]; [|by eexists]. cbn [rbind].
  assert (∀ o : option (list Z), ∃ r, match o ≫= mapM (normalize_axis (Z.of_nat (length sh))) with
    | None => Ok None | Some axes => Ok (Some (unique (merge_sort Z.le axes))) end = Ok r) as Hlast by (intros o; case_match; eauto).
  destruct (_ <? 18); [exact (Hlast (Some _))|]. destruct rest as [|a rest]; [exact (Hlast (Some []))|]. cbn.
  destruct (constants (io_name a)) as [c|] eqn:Ec; [|by eexists]. destruct (unpacked c) as [bytes|] eqn:Eb; [|by eexists].
  unfold read_int64s. rewrite (Hb a rest c bytes eq_refl Ec Eb), Nat.eqb_refl. exact (Hlast (Some _)).
Qed.

Lemma find_epsilon_total u add o : Outputs graph u = [Some o] → ∃ r, find_epsilon graph constants u add = Ok r.
Proof.
  intros Ho. unfold find_epsilon. rewrite Ho. cbn. generalize (@None float).
  induction (Inputs graph add) as [|i ins IH]; intros acc; [by eexists|]. cbn. case_bool_decide; cbn; apply IH.
Qed.

Lemma l2_norm_total s u m : units !! target_node_ u = Some u → ∃ s' g, l2_norm s u m = Ok (s', g).
Proof.
  intros Hu. unfold L2NormFusion_TryFusion. destruct (is_single graph u "ReduceL2") eqn:E; [|by eexists _, _].
  apply is_single_spec in E as [Hop Hs]. cbn [negb]. destruct (negb _); [by eexists _, _|].
  destruct (only_child_total u ["Add"] m) as [c Hc]. rewrite Hc. cbn [rbind]. destruct c as [add|]; [|by eexists _, _].
  apply only_child_spec in Hc; [|done..]. destruct (oc_output _ _ _ _ Hc) as (o & Ho & _).
  destruct (find_epsilon_total u add o Ho) as [[eps|] ->]; cbn [rbind]; [|by eexists _, _].
  destruct (only_child_total add ["Div"] m) as [d Hd]. rewrite Hd. cbn [rbind]. destruct d as [div|]; [|by eexists _, _].
  apply only_child_spec in Hd; [|apply (oc_unit _ _ _ _ Hc)|apply (oc_single _ _ _ _ Hc)].
  destruct (oc_output _ _ _ _ Hd) as (o' & Ho' & _). destruct (view_reduce _ _ _ _ Hv _ Hop) as (i & rest & Hi & _).
  destruct (reduce_axes_total u Hop) as [axes ->]. rewrite Ho'. unfold Inputs at 1. rewrite Hi. cbn.
  destruct (Inputs graph div) as [|d0 [|d1 [|]]]; eauto. destruct (negb _ || negb _); eauto.
  destruct axes as [[|]|]; eauto. destruct (ValidateOnQnn _ _) as [s' [|]]; cbn; eauto.
Qed.

Lemma l2_norm_spec s u m s' g : units !! target_node_ u = Some u → l2_norm s u m = Ok (s', Some g) →
  ∃ add div, is_only_child u add ["Add"] m ∧ is_only_child add div ["Div"] m ∧
    GetNodeUnits g = [target_node_ u; target_node_ add; target_node_ div] ∧ GetTargetNodeUnit g = target_node_ div.
Proof.
  intros Hu Hg. unfold L2NormFusion_TryFusion in Hg. destruct (is_single graph u "ReduceL2") eqn:E; [|done].
  apply is_single_spec in E as [_ Hs]. cbn [negb] in Hg. destruct (negb _); [done|].
  inv_bind Hg. destruct a as [add|]; [|done]. apply only_child_spec in Hg0 as Hc; [|done..].
  inv_bind Hg. destruct a as [eps|]; [|done]. inv_bind Hg. destruct a as [div|]; [|done].
  apply only_child_spec in Hg2 as Hd; [|apply (oc_unit _ _ _ _ Hc)|apply (oc_single _ _ _ _ Hc)].
  exists add, div. inv_bind Hg. inv_bind Hg. destruct (Inputs graph div) as [|d0 [|d1 [|]]]; try done.
  destruct (negb _ || negb _); [done|]. inv_bind Hg. destruct a1 as [[|ax axes]|]; try done.
  destruct (ValidateOnQnn _ _) as [s2 [|]]; cbn in Hg; by simplify_eq.
Qed.

Lemma chain_distinct u c d t1 t2 m : is_only_child u c t1 m → is_only_child c d t2 m → target_node_ u ≠ target_node_ d.
Proof.
  intros Hc Hd E. pose proof (edge_before _ _ (oc_edge _ _ _ _ Hc)) as H1.
  pose proof (edge_before _ _ (oc_edge _ _ _ _ Hd)) as H2. rewrite <- E in H2.
  by eapply (before_irrefl graph nodes units (view_units _ _ _ _ Hv)).
Qed.

Global Instance l2_norm_fusion : Fusion graph nodes units l2_norm.
Proof.
  split.
  - intros. by apply l2_norm_total.
  - intros s u m s' g Ho Hu Hm Hg. destruct (l2_norm_spec s u m s' g Hu Hg) as (add & div & Hc & Hd & -> & ->).
    pose proof (oc_edge _ _ _ _ Hc) as [H1 _]. pose proof (oc_edge _ _ _ _ Hd) as [H2 _].
    pose proof (chain_distinct _ _ _ _ _ _ Hc Hd) as H3.
    pose proof (oc_order _ _ _ _ Hc). pose proof (oc_free _ _ _ _ Hc). pose proof (oc_order _ _ _ _ Hd). pose proof (oc_free _ _ _ _ Hd).
    split_and!; [|set_solver|].
    + repeat (apply NoDup_cons; split; [set_solver|]). constructor.
    + intros v Hin. apply elem_of_cons in Hin as [->|Hin]; [done|]. apply elem_of_cons in Hin as [->|Hin]; [done|].
      by apply list_elem_of_singleton in Hin as ->.
  - intros s u m s' g Ho Hu Hg p v He. destruct (l2_norm_spec s u m s' g Hu Hg) as (add & div & Hc & Hd & -> & ->).
    pose proof (edge_before _ _ (oc_edge _ _ _ _ Hc)) as H1. pose proof (edge_before _ _ (oc_edge _ _ _ _ Hd)) as H2.
    apply target_last_edges; [| |done].
    + intros k Hk. apply elem_of_cons in Hk as [->|Hk]; [right; by eapply before_tr|].
      apply elem_of_cons in Hk as [->|Hk]; [by right|]. apply list_elem_of_singleton in Hk as ->. by left.
    + intros k w Hk Hne Hkw. apply elem_of_cons in Hk as [->|Hk]; [rewrite (oc_only _ _ _ _ Hc w Hkw); set_solver|].
      apply elem_of_cons in Hk as [->|Hk]; [rewrite (oc_only _ _ _ _ Hd w Hkw); set_solver|].
      by apply list_elem_of_singleton in Hk.
Qed.

End FusionFacts.

(** ** The operands of the fused nodes *)

Lemma ones_trailing ones i : Forall (eq 1) ones → trailing_dim ones i = 1.
Proof.
  intros Ho. unfold trailing_dim. destruct (i <? length ones)%nat; [|done].
  destruct (ones !! _) as [d|] eqn:E; [|done]. by rewrite Forall_lookup in Ho; rewrite <- (Ho _ _ E).
Qed.

Lemma broadcast_one d : broadcast_dim d 1 = Some d ∧ broadcast_dim 1 d = Some d.
Proof. unfold broadcast_dim. split; [destruct (Z.eqb_spec d 1)|destruct (Z.eqb_spec 1 d)]; by subst. Qed.

Lemma broadcast_ones data ones : Forall (eq 1) ones → (length ones ≤ length data)%nat →
  BroadcastShape data ones = Ok data ∧ BroadcastShape ones data = Ok data.
Proof.
  intros Ho Hl. unfold BroadcastShape. rewrite (Nat.max_l (length data)), (Nat.max_r (length ones)) by done.
  assert (∀ body, (∀ out i, (i < length data)%nat → body out i = aset out (length data - 1 - i) (trailing_dim data i)) →
    foldM body (seq 0 (length data)) (replicate (length data) 1) = Ok data) as Hrun.
  { intros body Hb.
    destruct (foldM_total body (fun done out => length out = length data ∧
      ∀ k, (length data - length done ≤ k < length data)%nat → out !! k = data !! k)
      (seq 0 (length data)) (replicate (length data) 1)) as (out & -> & Hlen & Hout).
    - split; [apply length_replicate|]. cbn. lia.
    - intros pre x rest out E [Hlen Hout].
      assert (x = length pre) as ->.
      { apply (f_equal (lookup (length pre))) in E. rewrite list_lookup_middle in E by done.
        apply lookup_seq in E. lia. }
      assert (length pre < length data)%nat as Hlt.
      { apply (f_equal length) in E. rewrite length_seq, length_app in E. cbn in E. lia. }
      rewrite Hb by done. rewrite aset_lt by lia. eexists. split; [done|]. rewrite length_insert, length_app. cbn.
      split; [done|]. intros k Hk. destruct (decide (k = length data - 1 - length pre)%nat) as [->|Hne].
      + rewrite list_lookup_insert_eq by lia. unfold trailing_dim. rewrite (proj2 (Nat.ltb_lt _ _) Hlt).
        destruct (lookup_lt_is_Some_2 data (length data - 1 - length pre)) as [d Hd]; [lia|]. by rewrite Hd.
      + rewrite list_lookup_insert_ne by lia. apply Hout. lia.
    - f_equal. apply list_eq_same_length with (length data); [done|done|]. intros k x y Hk Hx Hy.
      rewrite length_seq in Hout. rewrite Hout in Hx by lia. congruence. }
  split; apply Hrun; intros out i Hi; rewrite !trailing_Ok; cbn; rewrite broadcast_step, (ones_trailing ones) by done;
    destruct (broadcast_one (trailing_dim data i)) as [E1 E2]; [by rewrite E1|by rewrite E2].
Qed.

Lemma single_element_ones sh : IsSingleElementShape sh = true → Forall (eq 1) sh.
Proof.
  unfold IsSingleElementShape. rewrite forallb_forall. intros Hall. apply Forall_forall. intros d Hd.
  symmetry. by apply Z.eqb_eq, Hall, list_elem_of_In.
Qed.

(** The scale index: the scale is one element, the data input has the shape of the product. *)
Lemma scale_index_spec graph mul k : GetMulScaleInputIndex graph mul = Some k →
  ∃ x y xs ys scale data, Inputs graph mul = [x; y] ∧ io_shape x = Some xs ∧ io_shape y = Some ys ∧
    (k = 0%nat ∧ scale = xs ∧ data = ys ∨ k = 1%nat ∧ scale = ys ∧ data = xs) ∧
    Forall (eq 1) scale ∧ (length scale ≤ length data)%nat.
Proof.
  unfold GetMulScaleInputIndex. destruct (Inputs graph mul) as [|x [|y [|]]]; try done.
  destruct (io_shape x) as [xs|] eqn:Ex, (io_shape y) as [ys|] eqn:Ey; try done.
  destruct (IsSingleElementShape xs) eqn:Sx, (IsSingleElementShape ys) eqn:Sy; cbn [andb negb orb]; try done; intros Hk.
  all: repeat match type of Hk with context [if (?a <? ?b)%nat then _ else _] =>
         destruct (Nat.ltb_spec a b) | context [if (?a =? ?b)%nat then _ else _] => destruct (Nat.eqb_spec a b) end; simplify_eq.
  all: first
    [ exists x, y, xs, ys, xs, ys; split_and!; [done|done|done|by left|by apply single_element_ones|lia]
    | exists x, y, xs, ys, ys, xs; split_and!; [done|done|done|by right|by apply single_element_ones|lia] ].
Qed.

Lemma data_shape_spec graph mul k x y xs ys : GetMulScaleInputIndex graph mul = Some k →
  Inputs graph mul = [x; y] → io_shape x = Some xs → io_shape y = Some ys →
  data_shape graph mul k = Some (if (k =? 0)%nat then ys else xs).
Proof.
  intros Hk Hin Hx Hy. destruct (scale_index_spec _ _ _ Hk) as (x' & y' & xs' & ys' & scale & data & Hin' & Hx' & Hy' & Hc & _).
  unfold data_shape. rewrite Hin. by destruct Hc as [[-> _]|[-> _]].
Qed.

Lemma axis_last graph mul softmax k data axis :
  GetMulScaleInputIndex graph mul = Some k → data_shape graph mul k = Some data →
  data ≠ [] → Z.of_nat (length data) < 2 ^ 31 →
  default (-1) (int_attribute (graph (target_node_ softmax)) "axis") = axis → in_s 32 axis →
  IsSoftmaxAxisLast graph mul softmax = Some true ↔ axis = -1 ∨ axis = Z.of_nat (length data) - 1.
Proof.
  intros Hk Hd Hne Hlen Ha Hr. assert (0 < Z.of_nat (length data)) as Hpos by (destruct data; [done|cbn; lia]).
  unfold IsSoftmaxAxisLast, GetPositiveSoftmaxAxis. rewrite Ha, Hk. cbn. rewrite Hd. cbn.
  assert (∀ o : option bool, match data with [] => None | _ :: _ => o end = o) as -> by (by destruct data).
  unfold in_s in Hr. change (2 ^ (32 - 1)) with (2 ^ 31) in Hr.
  rewrite (wrapu_id 32 (Z.of_nat (length data) - 1)) by (unfold in_u; lia).
  destruct (Z.ltb_spec axis 0) as [Hneg|Hnn]; cbn.
  - rewrite (wraps_id 64 eq_refl (axis + Z.of_nat (length data))) by (unfold in_s; lia).
    destruct (Z.leb_spec 0 (axis + Z.of_nat (length data))) as [H0|H0].
    + rewrite wrapu_id by (unfold in_u; lia). destruct (Z.leb_spec (Z.of_nat (length data)) (axis + Z.of_nat (length data))); [lia|].
      destruct (Z.eqb_spec (axis + Z.of_nat (length data)) (Z.of_nat (length data) - 1)); split; try done; intros; first [lia|left; lia].
    + assert (u32 (axis + Z.of_nat (length data)) = axis + Z.of_nat (length data) + 2 ^ 32) as ->.
      { unfold wrapu. rewrite <- (Z_mod_plus_full _ 1), Z.mod_small; lia. }
      destruct (Z.leb_spec (Z.of_nat (length data)) (axis + Z.of_nat (length data) + 2 ^ 32)); [|lia]. split; [done|lia].
  - rewrite wrapu_id by (unfold in_u; lia). destruct (Z.leb_spec (Z.of_nat (length data)) axis); [split; [done|lia]|].
    destruct (Z.eqb_spec axis (Z.of_nat (length data) - 1)); split; try done; [by right|lia].
Qed.

Lemma unique_spec l : StronglySorted Z.le l → StronglySorted Z.lt (unique l) ∧ (∀ x, x ∈ unique l ↔ x ∈ l).
Proof.
  induction l as [|x l IH]; intros Hs; [by split; [constructor|]|].
  apply StronglySorted_inv in Hs as [Hs Hx]. destruct (IH Hs) as [Hu He]. clear IH.
  destruct l as [|y l]; [split; [repeat constructor|done]|]. cbn [unique] in *.
  apply Forall_cons in Hx as [Hxy Hx]. destruct (Z.eqb_spec x y) as [->|Hne].
  - split; [done|]. intros z. rewrite He. set_solver.
  - split; [|intros z; rewrite elem_of_cons, He; set_solver].
    constructor; [done|]. apply Forall_forall. intros z Hz. apply He in Hz.
    apply StronglySorted_inv in Hs as [_ Hy]. rewrite Forall_forall in Hy.
    apply elem_of_cons in Hz as [->|Hz]; [lia|]. specialize (Hy z Hz). lia.
Qed.

Lemma normalize_axis_range rank ax a : normalize_axis rank ax = Some a → 0 ≤ a < rank.
Proof.
  unfold normalize_axis. generalize (if ax <? 0 then i64 (ax + rank) else ax). intros p.
  destruct (Z.ltb_spec p 0); [done|]. destruct (Z.leb_spec rank p); [done|]. cbn. intros [= <-].
  unfold wrapu. pose proof (Z.mod_le p (2 ^ 32)). pose proof (Z.mod_pos_bound p (2 ^ 32)). lia.
Qed.

(** ** Properties *)

(** C25: On a well-formed graph the three fusions keep the contract of an [IQnnNodeGroup]:
    they never fail, group free units only, each once, and their target lies after every
    value that enters the group and not after any value that leaves it. *)
Theorem fusions_keep_contract {M : Type} (graph : nat → OrtNode) (nodes : list nat) (units : gmap nat OrtNodeUnit)
  (constants : string → option ConstantTensor) (Float16_ToFloat : Z → float)
  (ValidateOnQnn : M → fused_node → M * bool) :
  wf_view graph nodes units constants →
  Fusion graph nodes units (HardSigmoidMulFusion_TryFusion graph units ValidateOnQnn) ∧
  Fusion graph nodes units (ScaleSoftmaxFusion_TryFusion graph units constants Float16_ToFloat ValidateOnQnn) ∧
  Fusion graph nodes units (L2NormFusion_TryFusion graph units constants ValidateOnQnn).
Proof.
  intros Hv. split_and!.
  - by eapply hardsigmoid_mul_fusion.
  - by eapply scale_softmax_fusion.
  - by eapply l2_norm_fusion.
Qed.

(** The operands of the fused nodes: the input that [GetMulScaleInputIndex] calls the
    scale has one element, and the other input already has the shape of the product; the
    Softmax axis is accepted exactly when it is the last one, where a missing axis counts as
    -1 for every opset; and the axes of a norm are strictly increasing and below the rank. *)
Theorem fusion_operands (graph : nat → OrtNode) (constants : string → option ConstantTensor) :
  (∀ mul k, GetMulScaleInputIndex graph mul = Some k →
     ∃ x y xs ys scale data, Inputs graph mul = [x; y] ∧ io_shape x = Some xs ∧ io_shape y = Some ys ∧
       (k = 0%nat ∧ scale = xs ∧ data = ys ∨ k = 1%nat ∧ scale = ys ∧ data = xs) ∧
       Forall (eq 1) scale ∧ BroadcastShape xs ys = Ok data) ∧
  (∀ mul softmax k data axis, GetMulScaleInputIndex graph mul = Some k → data_shape graph mul k = Some data →
     data ≠ [] → Z.of_nat (length data) < 2 ^ 31 →
     default (-1) (int_attribute (graph (target_node_ softmax)) "axis") = axis → in_s 32 axis →
     IsSoftmaxAxisLast graph mul softmax = Some true ↔ axis = -1 ∨ axis = Z.of_nat (length data) - 1) ∧
  (∀ u axes, GetReduceAxes graph constants u = Ok (Some axes) →
     ∃ input0 sh, Inputs graph u !! 0%nat = Some input0 ∧ GetOnnxShape (io_shape input0) = Ok (Some sh) ∧
       StronglySorted Z.lt axes ∧ Forall (fun a => 0 ≤ a < Z.of_nat (length sh)) axes).
Proof.
  split_and!.
  - intros mul k Hk. destruct (scale_index_spec _ _ _ Hk) as (x & y & xs & ys & scale & data & Hin & Hx & Hy & Hc & Hs & Hl).
    exists x, y, xs, ys, scale, data. split_and!; try done. destruct (broadcast_ones data scale Hs Hl) as [H1 H2].
    by destruct Hc as [(_ & -> & ->)|(_ & -> & ->)].
  - intros. by eapply axis_last.
  - intros u axes Ha. unfold GetReduceAxes in Ha. inv_bind Ha. apply aget_Ok in Ha0. inv_bind Ha.
    destruct a0 as [sh|]; [|done]. inv_bind Ha.
    destruct (a0 ≫= mapM (normalize_axis (Z.of_nat (length sh)))) as [ax|] eqn:Em; [|done]. simplify_eq.
    exists a, sh. split_and!; [done|done|..].
    + apply unique_spec. apply (StronglySorted_merge_sort Z.le).
    + apply Forall_forall. intros x Hx.
      apply (unique_spec (merge_sort Z.le ax)) in Hx; [|apply (StronglySorted_merge_sort Z.le)].
      rewrite (merge_sort_Permutation Z.le) in Hx. destruct a0 as [raw|]; [|done]. cbn in Em.
      apply mapM_Some in Em. apply list_elem_of_lookup_1 in Hx as [i Hi].
      destruct (Forall2_lookup_r _ _ _ _ _ Em Hi) as (r & _ & Hr). by eapply normalize_axis_range.
Qed.

(** ** Example

    HardSigmoid(x) = h, Mul(x, h) = y, Mul(y, s) = z with the constant s, Softmax(z) = w,
    Relu(w) = o: two fusions and a single unit. *)
Definition val (name : string) (shape : list Z) (producer : option nat) (consumers : list nat) (out : bool) : ValueInfo :=
  Value name (Some shape) producer (Some <$> consumers) out.
Definition vx := val "x" [2; 3] None [0; 1]%nat false.
Definition vh := val "h" [2; 3] (Some 0%nat) [1]%nat false.
Definition vy := val "y" [2; 3] (Some 1%nat) [2]%nat false.
Definition vs := val "s" [] None [2]%nat false.
Definition vz := val "z" [2; 3] (Some 2%nat) [3]%nat false.
Definition vw := val "w" [2; 3] (Some 3%nat) [4]%nat false.
Definition vo := val "o" [2; 3] (Some 4%nat) [] true.

Definition example_node (op : string) (ins outs : list ValueInfo) : OrtNode :=
  Node op 13 (Some <$> ins) (Some <$> outs)
    (fun k => if bool_decide (k = "alpha") then Some req_alpha else None) (fun _ => None) (fun _ => None).

Definition example_view (n : nat) : OrtNode :=
  match n with
  | 0 => example_node "HardSigmoid" [vx] [vh]
  | 1 => example_node "Mul" [vx; vh] [vy]
  | 2 => example_node "Mul" [vy; vs] [vz]
  | 3 => example_node "Softmax" [vz] [vw]
  | 4 => example_node "Relu" [vw] [vo]
  | _ => example_node "Identity" [] []
  end%nat.

Definition example_single (n : nat) : OrtNodeUnit := NodeUnit SingleNode n [] [] None None.
Definition example_nodes : list nat := [0; 1; 2; 3; 4]%nat.
Definition example_units : gmap nat OrtNodeUnit := list_to_map ((fun n => (n, example_single n)) <$> example_nodes).
Definition example_constants (name : string) : option ConstantTensor :=
  if bool_decide (name = "s") then Some (Constant None true 1 ONNX_FLOAT (Some f_one) None) else None.
Definition example_validate (s : unit) (_ : fused_node) : unit * bool := (s, true).
Definition example_half (_ : Z) : float := f_zero.

Lemma example_units_lookup n u : example_units !! n = Some u → (n < 5)%nat ∧ u = example_single n.
Proof.
  intros Hu. apply elem_of_list_to_map_2 in Hu. apply list_elem_of_fmap in Hu as (k & [= -> ->] & Hk).
  split; [|done]. unfold example_nodes in Hk. set_unfold in Hk. lia.
Qed.

Ltac each_node n :=
  destruct n as [|[|[|[|[|n]]]]]; cbn in *; set_unfold; destruct_or?; simplify_eq; cbn in *; simplify_eq; try done.

Lemma example_view_wf : wf_view example_view example_nodes example_units example_constants.
Proof.
  split.
  - split.
    + apply (bool_decide_unpack _). vm_compute. done.
    + intros n Hn. unfold example_nodes in Hn. set_unfold in Hn. destruct_or!; subst; by eexists.
    + intros n u Hu. apply example_units_lookup in Hu as [Hn ->]. cbn.
      do 5 (destruct n as [|n]; [by split; [set_solver|]|]). lia.
    + intros u v (Hne & n & m & un & um & i & Hun & Hu & Hum & Hm & Hi & Hp).
      apply example_units_lookup in Hun as [Hn ->], Hum as [Hm' ->]. cbn in Hu, Hm. subst u v.
      assert (n < m)%nat by (each_node m; lia).
      assert (∀ k, (k < 5)%nat → unit_order example_nodes example_units !! k = Some k) as Ho.
      { intros k Hk. do 5 (destruct k as [|k]; [done|]). lia. }
      exists n, m. split_and!; [by apply Ho|by apply Ho|done].
  - intros n u Hu _. by apply example_units_lookup in Hu as [_ ->].
  - intros m i n Hi Hp. each_node m; eexists; (split; [by left|]); split; try done; set_solver.
  - intros n o m Ho Hm. each_node n; set_unfold in Hm; destruct_or?; simplify_eq;
      first [by eexists; split; [by left|]|by eexists; split; [right; by left|]].
  - intros m m' i i' Hi Hi' Hname. each_node m; each_node m'.
  - intros m i Hi. each_node m.
  - intros n. each_node n.
  - intros n. each_node n; eauto.
  - intros n. each_node n; eauto.
  - intros n. each_node n.
Qed.

Definition example_fusions : gmap string (list (@FusionFunc unit)) :=
  <["HardSigmoid" := [HardSigmoidMulFusion_TryFusion example_view example_units example_validate]]>
  (<["Mul" := [ScaleSoftmaxFusion_TryFusion example_view example_units example_constants example_half example_validate]]>
  (<["ReduceL2" := [L2NormFusion_TryFusion example_view example_units example_constants example_validate]]> ∅)).

Lemma example_fusions_ok op fs f : example_fusions !! op = Some fs → f ∈ fs →
  Fusion example_view example_nodes example_units f.
Proof.
  unfold example_fusions. intros Hop Hf. repeat (apply lookup_insert_Some in Hop as [[_ <-]|[_ Hop]]);
    try (apply list_elem_of_singleton in Hf as ->); [eapply hardsigmoid_mul_fusion|eapply scale_softmax_fusion|
    eapply l2_norm_fusion|by rewrite lookup_empty in Hop]; apply example_view_wf.
Qed.

Definition example_affinity : gmap string QnnBackendType := {[ "Relu" := HTP ]}.

Definition example_groups : list IQnnNodeGroup :=
  [NodeGroup [0; 1]%nat 0 "HardSigmoidMulFusion"; NodeGroup [2; 3]%nat 3 "ScaleSoftmaxFusion"; QnnNodeUnitWrapper 4].

Lemma example_run : GetQnnNodeGroups example_view example_nodes example_units example_affinity HTP example_fusions tt =
  Ok (tt, Some <$> example_groups).
Proof. vm_compute. reflexivity. Defined.

Lemma node_groups_partition_witness : ∃ s' gs,
  GetQnnNodeGroups example_view example_nodes example_units example_affinity HTP example_fusions tt = Ok (s', Some <$> gs) ∧
  mjoin (GetNodeUnits <$> gs) ≡ₚ [0; 1; 2; 3; 4]%nat.
Proof.
  destruct (node_groups_partition example_view example_nodes example_units example_affinity HTP example_fusions tt
    (view_units _ _ _ _ example_view_wf) example_fusions_ok) as (s' & gs & Hrun & Hp & _).
  exists s', gs. split; [exact Hrun|exact Hp].
Defined.

Lemma node_groups_topological_witness : edge example_view example_units 1 2 ∧ (0 < 1)%nat.
Proof.
  assert (edge example_view example_units 1 2) as He.
  { split; [done|]. exists 1%nat, 2%nat, (example_single 1), (example_single 2), vy.
    split_and!; try reflexivity. left. }
  split; [exact He|].
  apply (node_groups_topological example_view example_nodes example_units example_affinity HTP example_fusions tt tt
    (Some <$> example_groups) (view_units _ _ _ _ example_view_wf) example_fusions_ok example_run 0 1
    (NodeGroup [0; 1]%nat 0 "HardSigmoidMulFusion") (NodeGroup [2; 3]%nat 3 "ScaleSoftmaxFusion") 1 2);
    [reflexivity|reflexivity|done|right; left|left|exact He].
Defined.

Lemma affinity_respected_witness : Affinity.Evaluate example_affinity "Relu" HTP = Ok tt ∧
  Affinity.Evaluate example_affinity "Relu" GPU ≠ Ok tt.
Proof.
  split; [|done].
  apply (affinity_respected example_view example_nodes example_units example_affinity HTP example_fusions tt tt
    (Some <$> example_groups) (fun _ => Some (fun _ => Ok tt)) (view_units _ _ _ _ example_view_wf) example_fusions_ok
    example_run (QnnNodeUnitWrapper 4)) with (v := 4%nat).
  - right; right; left.
  - intros u n [= <-] [_ ->]%example_units_lookup. reflexivity.
  - left.
Defined.

Lemma fusions_keep_contract_witness :
  Fusion example_view example_nodes example_units
    (HardSigmoidMulFusion_TryFusion example_view example_units example_validate) ∧
  HardSigmoidMulFusion_TryFusion example_view example_units example_validate tt (example_single 0) ∅ =
    Ok (tt, Some (NodeGroup [0; 1]%nat 0 "HardSigmoidMulFusion")).
Proof.
  split; [|vm_compute; reflexivity].
  apply (fusions_keep_contract example_view example_nodes example_units example_constants example_half example_validate
    example_view_wf).
Defined.

Lemma fusion_operands_witness :
  IsSoftmaxAxisLast example_view (example_single 2) (example_single 3) = Some true ∧ BroadcastShape [2; 3] [] = Ok [2; 3].
Proof.
  split.
  - apply (proj1 (proj2 (fusion_operands example_view example_constants)) (example_single 2) (example_single 3) 1%nat
      [2; 3] (-1)); try reflexivity; [done|split; done|by left].
  - destruct (proj1 (fusion_operands example_view example_constants) (example_single 2) 1%nat eq_refl)
      as (x & y & xs & ys & scale & data & [= <- <-] & [= <-] & [= <-] & [[? _]|(_ & _ & ->)] & _ & Hb); [done|exact Hb].
Defined.
