(* ===== verification/QdqSelector.v ===== *)
(** * Selecting QDQ groups

    [builder/qdq_node_group_selector.cc]: a node between DequantizeLinear (DQ) and
    QuantizeLinear (Q) nodes becomes, with them, one node unit.  [GetOrtQDQSelection] collects
    the DQ and Q nodes around a node, folding a redundant Relu or Clip and absorbing the
    Reshape behind a Gemm; the selector of the op type decides; [GetAllOrtNodeUnits] maps
    every node of the graph to its unit, which is what [Partition], [NodeGroups] and
    [Fusions] start from.

    Nodes are named as in [NodeGroups].  The accessors of the ORT C API succeed on the
    pointers that the graph holds; following a null pointer, and reading a vector or an
    initializer out of range, is a [Trap].  The number of inputs of a node fits in an [int]. *)

From Stdlib Require Import SpecFloat.
From S2P Require Import Prelude DataTypes Floats QnnTensor Partition NodeGroups Fusions.

(** An initializer: element type, dimensions and the raw little-endian buffer. *)
Record OrtValue := Tensor {
  ov_type : ONNXTensorElementDataType;
  ov_dims : list Z;
  ov_bytes : list Z
}.

Definition f32_of_bits (b : Z) : float :=
  (let sign := Z.testbit b 31 in
  let e := (b / 2 ^ 23) mod 2 ^ 8 in
  let m := b mod 2 ^ 23 in
  if e =? 0 then
    if m =? 0 then S754_zero sign else S754_finite sign (Z.to_pos m) (- 149)
  else if e =? 255 then
    if m =? 0 then S754_infinity sign else S754_nan
  else S754_finite sign (Z.to_pos (m + 2 ^ 23)) (e - 150))%Z.

(** The first [size] bytes of a buffer. *)
Definition read_scalar (size : nat) (v : OrtValue) : result Z :=
  if size <=? length (ov_bytes v) then Ok (le_decode (take size (ov_bytes v))) else Err Trap.

Definition max_float : float := S754_finite false 16777215 104.
Definition lowest_float : float := S754_finite true 16777215 104.

(** ** Element types *)

Definition FixedPointBitWidth (t : ONNXTensorElementDataType) : Z :=
  match t with
  | ONNX_UINT4 | ONNX_INT4 => 4
  | ONNX_UINT8 | ONNX_INT8 => 8
  | ONNX_UINT16 | ONNX_INT16 => 16
  | _ => 0
  end.

Definition IsConvertibleFixedPointType (t : ONNXTensorElementDataType) : bool :=
  negb (FixedPointBitWidth t =? 0)%Z.

Definition NeedsPrecisionConvert (a b : ONNXTensorElementDataType) : bool :=
  bool_decide (a ≠ b) && IsConvertibleFixedPointType a && IsConvertibleFixedPointType b.

Definition IsConvertBeforeOpGroup (dt_input dt_weight dt_output : ONNXTensorElementDataType) : bool :=
  let is_htp_width (t : ONNXTensorElementDataType) :=
    (FixedPointBitWidth t =? 8)%Z || (FixedPointBitWidth t =? 16)%Z in
  NeedsPrecisionConvert dt_input dt_output && is_htp_width dt_input && is_htp_width dt_weight &&
  is_htp_width dt_output && (FixedPointBitWidth dt_input <=? FixedPointBitWidth dt_output)%Z &&
  (FixedPointBitWidth dt_weight <=? FixedPointBitWidth dt_output)%Z &&
  (bool_decide (dt_output ≠ ONNX_INT16) || bool_decide (dt_weight = ONNX_INT8)).

Definition IsConvertCompatibleUnaryOp (op : string) : bool :=
  bool_decide (op ∈ ["Abs"; "Asin"; "Atan"; "Ceil"; "Cos"; "Elu"; "Exp"; "Floor"; "Gelu"; "HardSigmoid";
    "HardSwish"; "LeakyRelu"; "Log"; "Neg"; "Relu"; "Round"; "Sigmoid"; "Sign"; "Sin"; "Softplus"; "Sqrt";
    "Tanh"]).

Definition IsConvertCompatibleBinaryOp (op : string) : bool :=
  bool_decide (op ∈ ["Add"; "Div"; "Mul"; "Pow"; "Sub"]).

Definition IsCompatibleFcBiasShape (bias_shape : list Z) (output_channels : Z) : bool :=
  match bias_shape with
  | [] => (output_channels =? 1)%Z
  | [n] => (n =? output_channels)%Z
  | [m; n] => (m =? 1)%Z && (n =? output_channels)%Z
  | _ => false
  end.

Record OrtNodeGroup := QdqGroup {
  dq_nodes : list nat;
  q_nodes : list nat;
  target_node : nat;
  redundant_clip_node : option nat;
  output_reshape_node : option nat
}.

Inductive OrtNodeGroupSelector :=
| DropQDQ (allow_nonpositive_scale : bool)
| DropDQ | Unary | Clip | Binary | Variadic
| Split (req_equal_quant_params : bool)
| Conv | Einsum | Reciprocal | MatMul | Gemm | Where | Pad | InstanceAndLayerNormalization
| BatchNormalization | LogicalComparison | TopK | CumSum | ScatterElements | RMSNormalization
| MatMulNBits | GRU.

Global Instance selector_eq_dec : EqDecision OrtNodeGroupSelector.
Proof. solve_decision. Defined.

Section Selectors.
Variable graph : nat → OrtNode.
(** [Node_GetDomain]; the element type of a value, [None] when it is no tensor; the graph
    initializers; [ValueInfo_IsConstantInitializer]. *)
Variable node_domain : nat → string.
Variable elem_type : string → option ONNXTensorElementDataType.
Variable initializers : list (string * OrtValue).
Variable is_constant_initializer : string → bool.

Local Abbreviation op n := (op_type (graph n)).

(** ** Metadata *)

Definition GetDataTypeFromValueInfo (v : option ValueInfo) : result (option ONNXTensorElementDataType) :=
  let* v := deref v in Ok (elem_type (vi_name v)).

Definition GetNodeInputDataType (node index : nat) : result (option ONNXTensorElementDataType) :=
  match inputs (graph node) !! index with
  | None => Ok None
  | Some v => GetDataTypeFromValueInfo v
  end.

Definition GetNodeOutputDataType (node index : nat) : result (option ONNXTensorElementDataType) :=
  match outputs (graph node) !! index with
  | None => Ok None
  | Some v => GetDataTypeFromValueInfo v
  end.

(** A tensor without shape information has no dimensions. *)
Definition GetValueInfoShape (v : option ValueInfo) : result (option (list Z)) :=
  let* v := deref v in
  Ok (match elem_type (vi_name v) with None => None | Some _ => Some (default [] (vi_shape v)) end).

(** ** Initializers *)

Definition GetConstantInitializer (name : string) : option OrtValue :=
  list_find (fun p => p.1 = name) initializers ≫= fun p => Some p.2.2.

Definition GetInitializerFromValueInfo (v : option ValueInfo) : result (option OrtValue) :=
  let* v := deref v in Ok (GetConstantInitializer (vi_name v)).

Definition IsConstantInitializerValueInfo (v : option ValueInfo) : bool :=
  match v with
  | None => false
  | Some v =>
      match GetConstantInitializer (vi_name v) with
      | None => false
      | Some _ => is_constant_initializer (vi_name v)
      end
  end.

Definition IsConstantOrInitializerValueInfo (v : option ValueInfo) : bool :=
  match v with
  | None => false
  | Some w =>
      if IsConstantInitializerValueInfo v then true
      else match vi_producer w with
           | None => false
           | Some producer => bool_decide (op producer = "Constant")
           end
  end.

Definition GetNodeInputValueInfo (node index : nat) : option ValueInfo := mjoin (inputs (graph node) !! index).

Definition IsStaticQdqBias (bias_vi : ValueInfo) : bool :=
  if IsConstantOrInitializerValueInfo (Some bias_vi) then true
  else
  match vi_producer bias_vi with
  | None => false
  | Some bias_producer =>
      if negb (bool_decide (op bias_producer = "DequantizeLinear")) then false
      else
      match GetNodeInputValueInfo bias_producer 0 with
      | None => false
      | Some dq_data_input =>
          if IsConstantOrInitializerValueInfo (Some dq_data_input) then true
          else
          match vi_producer dq_data_input with
          | None => false
          | Some dq_data_producer =>
              if negb (bool_decide (op dq_data_producer = "QuantizeLinear")) then false
              else
              match GetNodeInputValueInfo dq_data_producer 0 with
              | None => false
              | Some q_data_input => IsConstantOrInitializerValueInfo (Some q_data_input)
              end
          end
      end
  end.

Definition GetScalarValue_float (v : OrtValue) : result float :=
  let* b := read_scalar 4 v in Ok (f32_of_bits b).

Definition GetZeroPointValue (zp_init : OrtValue) : result (option (Z * Qnn_DataType_t)) :=
  match ov_type zp_init with
  | ONNX_UINT8 => let* b := read_scalar 1 zp_init in Ok (Some (b, QNN_UFIXED_POINT_8))
  | ONNX_UINT16 => let* b := read_scalar 2 zp_init in Ok (Some (b, QNN_UFIXED_POINT_16))
  | ONNX_INT8 => let* b := read_scalar 1 zp_init in Ok (Some (i8 b, QNN_SFIXED_POINT_8))
  | ONNX_INT16 => let* b := read_scalar 2 zp_init in Ok (Some (wraps 16 b, QNN_SFIXED_POINT_16))
  | _ => Ok None
  end.

Definition GetQNodeScaleAndZeroPoint (q_node : nat) : result (option (float * Z * Qnn_DataType_t)) :=
  match inputs (graph q_node) with
  | _ :: scale :: zp :: _ =>
      let* scale_init := GetInitializerFromValueInfo scale in
      match scale_init with
      | None => Ok None
      | Some scale_init =>
          let* s := GetScalarValue_float scale_init in
          let* zp_init := GetInitializerFromValueInfo zp in
          match zp_init with
          | None => Ok None
          | Some zp_init =>
              let* z := GetZeroPointValue zp_init in
              Ok (match z with None => None | Some (zero_point, t) => Some (s, zero_point, t) end)
          end
      end
  | _ => Ok None
  end.

(** The bound that an optional input of Clip carries. *)
Definition clip_bound (v : option ValueInfo) (bound : float) : result float :=
  match v with
  | None => Ok bound
  | Some v =>
      match GetConstantInitializer (vi_name v) with
      | None => Ok bound
      | Some init => GetScalarValue_float init
      end
  end.

Definition GetClipMinMax (clip_node : nat) : result (float * float) :=
  let attr := float_attribute (graph clip_node) in
  match attr "min", attr "max" with
  | None, None =>
      match inputs (graph clip_node) with
      | _ :: mn :: rest =>
          let* clip_min := clip_bound mn lowest_float in
          let* clip_max := clip_bound (mjoin (head rest)) max_float in
          Ok (clip_min, clip_max)
      | _ => Ok (lowest_float, max_float)
      end
  | mn, mx => Ok (default lowest_float mn, default max_float mx)
  end.

(** ** Folding and absorbing *)

Definition IsActivationEncodingSafe (activation_node : nat) (op_type : string) (q_node : nat) : result bool :=
  let* enc := GetQNodeScaleAndZeroPoint q_node in
  match enc with
  | None => Ok false
  | Some (scale_val, zero_point, qnn_dt) =>
      match GetQminQmax qnn_dt false with
      | Err _ => Ok false
      | Ok (qmin, qmax) =>
          let encoding_min := f32_mul scale_val (f32_of_Z (qmin - zero_point)) in
          let encoding_max := f32_mul scale_val (f32_of_Z (qmax - zero_point)) in
          let* (activation_min, activation_max) :=
            if bool_decide (op_type = "Clip") then GetClipMinMax activation_node else Ok (f_zero, max_float) in
          Ok (f_le activation_min encoding_min && f_le encoding_max activation_max)
      end
  end.

Definition GetSoleNonOutputConsumer (v : ValueInfo) : option nat :=
  if vi_graph_output v then None
  else match vi_consumers v with [c] => c | _ => None end.

Definition GetSingleOutput (node : nat) : option ValueInfo :=
  match outputs (graph node) with [v] => v | _ => None end.

(** The only node that reads the only output of [node]. *)
Definition sole_successor (node : nat) : option nat := GetSingleOutput node ≫= GetSoleNonOutputConsumer.

Definition is_activation (op_type : string) : bool := bool_decide (op_type = "Relu") || bool_decide (op_type = "Clip").

Definition TryFoldRedundantActivation (node : nat) : result (option nat) :=
  match sole_successor node with
  | None => Ok None
  | Some activation =>
      if negb (is_activation (op activation)) then Ok None
      else
      match sole_successor activation with
      | None => Ok None
      | Some q_node =>
          if negb (bool_decide (op q_node = "QuantizeLinear")) then Ok None
          else
          let* safe := IsActivationEncodingSafe activation (op activation) q_node in
          Ok (if safe then Some activation else None)
      end
  end.

Definition IsGemmWeightBlockQuantized (weight_vi : ValueInfo) : result bool :=
  match vi_producer weight_vi with
  | None => Ok false
  | Some dq =>
      if negb (bool_decide (op dq = "DequantizeLinear")) then Ok false
      else match inputs (graph dq) with
           | _ :: scale :: _ =>
               let* scale_shape := GetValueInfoShape scale in
               Ok (match scale_shape with Some s => length s =? 2 | None => false end)
           | _ => Ok false
           end
  end.

Definition IsGemmSafeForAbsorbedReshape (gemm_node : nat) : result bool :=
  let attrs := int_attribute (graph gemm_node) in
  if negb (default 0 (attrs "transA") =? 0)%Z then Ok false
  else if negb (default 0 (attrs "transB") =? 0)%Z then Ok false
  else
  match inputs (graph gemm_node) with
  | _ :: Some weight :: rest =>
      let* block := IsGemmWeightBlockQuantized weight in
      if block then Ok false
      else
      match head rest with
      | None => Ok true
      | Some None => Ok true
      | Some (Some bias_vi) =>
          let beta := default (f32_of_Z 1) (float_attribute (graph gemm_node) "beta") in
          if f_eq beta f_zero then Ok true
          else
          let* weight_shape := GetValueInfoShape (Some weight) in
          let* bias_shape := GetValueInfoShape (Some bias_vi) in
          match weight_shape, bias_shape with
          | Some [k; n], Some bias_shape =>
              if forallb (fun d => 0 <=? d)%Z [k; n] && forallb (fun d => 0 <=? d)%Z bias_shape &&
                 IsCompatibleFcBiasShape bias_shape n
              then Ok (IsStaticQdqBias bias_vi) else Ok false
          | _, _ => Ok false
          end
      end
  | _ => Ok false
  end.

(** Returns the absorbed Reshape and the folded activation behind it. *)
Definition TryAbsorbTrailingReshape (gemm_node : nat) : result (option (nat * option nat)) :=
  if negb (bool_decide (op gemm_node = "Gemm")) then Ok None
  else
  let* safe_gemm := IsGemmSafeForAbsorbedReshape gemm_node in
  if negb safe_gemm then Ok None
  else
  match sole_successor gemm_node with
  | None => Ok None
  | Some reshape_node =>
      if negb (bool_decide (op reshape_node = "Reshape")) then Ok None
      else
      match sole_successor reshape_node with
      | None => Ok None
      | Some next_node =>
          if bool_decide (op next_node = "QuantizeLinear") then Ok (Some (reshape_node, None))
          else if negb (is_activation (op next_node)) then Ok None
          else
          match sole_successor next_node with
          | None => Ok None
          | Some q_node =>
              if negb (bool_decide (op q_node = "QuantizeLinear")) then Ok None
              else
              let* safe := IsActivationEncodingSafe next_node (op next_node) q_node in
              Ok (if safe then Some (reshape_node, Some next_node) else None)
          end
      end
  end.

(** ** Scales *)

Definition IsQOrDQScalePositiveConstantScalar (q_node : nat) : result bool :=
  match inputs (graph q_node) with
  | _ :: scale :: _ =>
      let* scale_initializer := GetInitializerFromValueInfo scale in
      match scale_initializer with
      | None => Ok false
      | Some init =>
          if negb (length (ov_dims init) =? 0) then Ok false
          else match ov_type init with
               | ONNX_FLOAT => let* s := GetScalarValue_float init in Ok (f_lt f_zero s)
               | ONNX_DOUBLE => let* b := read_scalar 8 init in Ok (f_lt f_zero (f64_of_bits b))
               | _ => Ok false
               end
      end
  | _ => Ok false
  end.

Definition IsQDQPairSupported (q_node dq_node : nat) : result bool :=
  match inputs (graph q_node), inputs (graph dq_node) with
  | _ :: q_scale :: _, _ :: dq_scale :: _ =>
      let* q_scale := deref q_scale in
      let* dq_scale := deref dq_scale in
      if bool_decide (vi_name q_scale = vi_name dq_scale) then Ok true
      else
      match GetConstantInitializer (vi_name q_scale), GetConstantInitializer (vi_name dq_scale) with
      | Some q_init, Some dq_init =>
          if negb (bool_decide (ov_type q_init = ov_type dq_init)) then Ok false
          else match ov_type q_init with
               | ONNX_FLOAT =>
                   let* a := GetScalarValue_float q_init in
                   let* b := GetScalarValue_float dq_init in
                   Ok (f_eq a b)
               | ONNX_DOUBLE =>
                   let* a := read_scalar 8 q_init in
                   let* b := read_scalar 8 dq_init in
                   Ok (f_eq (f64_of_bits a) (f64_of_bits b))
               | _ => Ok false
               end
      | _, _ => Ok false
      end
  | _, _ => Ok false
  end.

(** ** Group shape *)

(** One step of the loop over the output slots: the outputs whose only consumer is a Q of
    the group are absorbed; [None] stops at a graph output. *)
Definition count_absorbed (q_nodes : list nat) (acc : option nat) (v : option ValueInfo) : result (option nat) :=
  match acc with
  | None => Ok None
  | Some n =>
      let* v := deref v in
      match vi_consumers v with
      | [Some consumer] =>
          if negb (bool_decide (consumer ∈ q_nodes)) then Ok (Some n)
          else if vi_graph_output v then Ok None
          else Ok (Some (S n))
      | _ => Ok (Some n)
      end
  end.

Definition CanCreateNodeGroup (node : nat) (dq_nodes q_nodes : list nat) : result bool :=
  if length dq_nodes =? 0 then Ok false
  else if length (inputs (graph node)) <? length dq_nodes then Ok false
  else if length q_nodes =? 0 then Ok false
  else
  let* num_absorbed_outputs := foldM (count_absorbed q_nodes) (outputs (graph node)) (Some 0) in
  Ok (match num_absorbed_outputs with None => false | Some n => n =? length q_nodes end).

(** The loop of [CheckQDQNodes] over the output slots. *)
Definition present (node : nat) : list ValueInfo := omap id (outputs (graph node)).

Definition CheckQDQNodes (node : nat) (dq_nodes q_nodes : list nat) (num_dq_inputs : Z)
  (is_empty_q_nodes_allowed : bool) : bool :=
  let num_dq_inputs := if (num_dq_inputs =? -1)%Z then Z.of_nat (length (inputs (graph node))) else num_dq_inputs in
  if negb (num_dq_inputs =? Z.of_nat (length dq_nodes))%Z then false
  else if length q_nodes =? 0 then is_empty_q_nodes_allowed
  else
  let produces_graph_output := existsb vi_graph_output (present node) in
  let total_consumers := sum_list_with (fun v => length (vi_consumers v)) (present node) in
  (length (present node) =? length q_nodes) && (length q_nodes =? total_consumers) && negb produces_graph_output.

(** Both types are known and satisfy [p]. *)
Definition types2 (a b : option ONNXTensorElementDataType)
  (p : ONNXTensorElementDataType → ONNXTensorElementDataType → bool) : bool :=
  match a, b with Some a, Some b => p a b | _, _ => false end.

Definition same_type (a b : ONNXTensorElementDataType) : bool := bool_decide (a = b).

(** Types of the data that DQ [i] reads and Q [i] writes; the vectors are indexed unchecked. *)
Definition dq_type (dq_nodes : list nat) (i : nat) : result (option ONNXTensorElementDataType) :=
  let* n := aget dq_nodes i in GetNodeInputDataType n 0.
Definition q_type (q_nodes : list nat) (i : nat) : result (option ONNXTensorElementDataType) :=
  let* n := aget q_nodes i in GetNodeOutputDataType n 0.

(** The loops over the remaining nodes stop at the first type that is unknown or differs. *)
Fixpoint all_types (get : nat → result (option ONNXTensorElementDataType))
  (p : ONNXTensorElementDataType → bool) (ns : list nat) : result bool :=
  match ns with
  | [] => Ok true
  | n :: ns =>
      let* t := get n in
      match t with
      | Some t => if p t then all_types get p ns else Ok false
      | None => Ok false
      end
  end.

(** ** Selectors *)

Definition OrtDropQDQ_Check (allow_nonpositive_scale : bool) (node : nat) (clip : option nat) (dqs qs : list nat)
  : result bool :=
  match clip with
  | Some _ => Ok false
  | None =>
      if negb (CheckQDQNodes node dqs qs 1 false) then Ok false
      else
      let* dt_input := dq_type dqs 0 in
      let* dt_output := q_type qs 0 in
      if negb (types2 dt_input dt_output same_type) then Ok false
      else
      let* dq_node := aget dqs 0 in
      let* q_node := aget qs 0 in
      let* positive :=
        if allow_nonpositive_scale then Ok true else IsQOrDQScalePositiveConstantScalar q_node in
      if negb positive then Ok false else IsQDQPairSupported q_node dq_node
  end.

Definition OrtDropDQ_Check (clip : option nat) (dqs : list nat) : result bool :=
  match clip, dqs with
  | None, [dq_node] =>
      let* dt_input := GetNodeInputDataType dq_node 0 in
      Ok (match dt_input with Some _ => true | None => false end)
  | _, _ => Ok false
  end.

Definition OrtUnary_Check (node : nat) (dqs qs : list nat) : result bool :=
  if negb (CheckQDQNodes node dqs qs 1 false) then Ok false
  else
  let* dt_input := dq_type dqs 0 in
  let* dt_output := q_type qs 0 in
  Ok (types2 dt_input dt_output (fun i o =>
    same_type i o || (IsConvertCompatibleUnaryOp (op node) && NeedsPrecisionConvert i o))).

Definition OrtClip_Check (node : nat) (dqs qs : list nat) : result bool :=
  let num_dq_nodes := length dqs in
  if (num_dq_nodes <? 1) || (3 <? num_dq_nodes) then Ok false
  else if negb (CheckQDQNodes node dqs qs (Z.of_nat num_dq_nodes) false) then Ok false
  else
  let* data_ok :=
    if length qs =? 0 then Ok true
    else
    let* input := aget (inputs (graph node)) 0 in
    let* v := deref input in
    Ok (match vi_producer v with
        | None => false
        | Some data_producer =>
            bool_decide (op data_producer = "DequantizeLinear") && bool_decide (data_producer ∈ dqs)
        end) in
  if negb data_ok then Ok false
  else
  let* dt_input := dq_type dqs 0 in
  let* dt_output := q_type qs 0 in
  Ok (types2 dt_input dt_output same_type).

Definition OrtBinary_Check (node : nat) (dqs qs : list nat) : result bool :=
  if negb (CheckQDQNodes node dqs qs 2 false) then Ok false
  else
  let* dt_input_1 := dq_type dqs 0 in
  let* dt_input_2 := dq_type dqs 1 in
  let* dt_output := q_type qs 0 in
  Ok (match dt_input_1, dt_input_2, dt_output with
      | Some i1, Some i2, Some o =>
          (same_type i1 i2 && same_type i1 o) ||
          (IsConvertCompatibleBinaryOp (op node) && (IsConvertibleFixedPointType i1 &&
             IsConvertibleFixedPointType i2 && IsConvertibleFixedPointType o))
      | _, _, _ => false
      end).

Definition OrtVariadic_Check (node : nat) (dqs qs : list nat) : result bool :=
  if negb (CheckQDQNodes node dqs qs (-1) false) then Ok false
  else
  let* dt_input := dq_type dqs 0 in
  match dt_input with
  | None => Ok false
  | Some dt_input =>
      let* same_inputs := all_types (fun n => GetNodeInputDataType n 0) (same_type dt_input) (tail dqs) in
      if negb same_inputs then Ok false
      else
      let* dt_output := q_type qs 0 in
      match dt_output with
      | None => Ok false
      | Some dt_output =>
          let* same_outputs := all_types (fun n => GetNodeOutputDataType n 0) (same_type dt_output) (tail qs) in
          if negb same_outputs then Ok false else Ok (same_type dt_input dt_output)
      end
  end.

Fixpoint split_outputs (req_equal_quant_params : bool) (dt_input : ONNXTensorElementDataType) (dq_node : nat)
  (qs : list nat) : result bool :=
  match qs with
  | [] => Ok true
  | q_node :: qs =>
      let* dt_output := GetNodeOutputDataType q_node 0 in
      match dt_output with
      | None => Ok false
      | Some dt_output =>
          if negb (same_type dt_input dt_output) then Ok false
          else
          let* supported := if req_equal_quant_params then IsQDQPairSupported q_node dq_node else Ok true in
          if negb supported then Ok false else split_outputs req_equal_quant_params dt_input dq_node qs
      end
  end.

Definition OrtSplit_Check (req_equal_quant_params : bool) (node : nat) (clip : option nat) (dqs qs : list nat)
  : result bool :=
  match clip with
  | Some _ => Ok false
  | None =>
      if negb (CheckQDQNodes node dqs qs 1 false) then Ok false
      else
      let* dq_node := aget dqs 0 in
      let* dt_input := GetNodeInputDataType dq_node 0 in
      match dt_input with
      | None => Ok false
      | Some dt_input => split_outputs req_equal_quant_params dt_input dq_node qs
      end
  end.

Definition IsSupportedActivationOutputTypePair (dt_input dt_output : ONNXTensorElementDataType) (q_node : nat)
  : result bool :=
  if same_type dt_input dt_output then Ok true
  else
  let is_16bit_input := bool_decide (dt_input = ONNX_UINT16) || bool_decide (dt_input = ONNX_INT16) in
  let is_8bit_output := bool_decide (dt_output = ONNX_UINT8) || bool_decide (dt_output = ONNX_INT8) in
  if is_16bit_input && is_8bit_output then IsQOrDQScalePositiveConstantScalar q_node else Ok false.

Definition IsConvertActivationToOutputGroup (dt_input dt_output : ONNXTensorElementDataType) (dq_node : nat)
  : result bool :=
  if NeedsPrecisionConvert dt_input dt_output && (FixedPointBitWidth dt_input <=? FixedPointBitWidth dt_output)%Z &&
     bool_decide (dt_output ≠ ONNX_INT16)
  then IsQOrDQScalePositiveConstantScalar dq_node else Ok false.

Definition IsPerChannelConstantWeightOnlyGroup (node : nat) (dqs qs : list nat) : result bool :=
  match dqs, qs, inputs (graph node) with
  | [dq], [], _ :: Some weight :: _ =>
      if negb (bool_decide (vi_producer weight = Some dq)) then Ok false
      else if negb (bool_decide (GetSoleNonOutputConsumer weight = Some node)) then Ok false
      else
      match inputs (graph dq) with
      | data :: scale :: _ =>
          let* init := GetInitializerFromValueInfo data in
          match init with
          | None => Ok false
          | Some _ =>
              let* scale_shape := GetValueInfoShape scale in
              Ok (match scale_shape with Some [n] => (1 <? n)%Z | _ => false end)
          end
      | _ => Ok false
      end
  | _, _, _ => Ok false
  end.

(** A slot of the node whose value a DQ node produces. *)
Definition dq_produced (v : option ValueInfo) : bool :=
  match v with
  | None => false
  | Some v =>
      match vi_producer v with
      | None => false
      | Some producer => bool_decide (op producer = "DequantizeLinear")
      end
  end.

Definition OrtConv_Check (node : nat) (dqs qs : list nat) : result bool :=
  let* weight_only := IsPerChannelConstantWeightOnlyGroup node dqs qs in
  if weight_only then Ok true
  else
  let num_dq_nodes := length dqs in
  if (num_dq_nodes <? 2) || (3 <? num_dq_nodes) then Ok false
  else if negb (CheckQDQNodes node dqs qs (Z.of_nat num_dq_nodes) false) then Ok false
  else
  match inputs (graph node) with
  | data :: weight :: _ =>
      if negb (dq_produced data) then Ok false
      else if negb (dq_produced weight) then Ok false
      else
      let* dt_input := dq_type dqs 0 in
      let* dt_weight := dq_type dqs 1 in
      let* dt_output := q_type qs 0 in
      match dt_input, dt_weight, dt_output with
      | Some dt_input, Some dt_weight, Some dt_output =>
          let* q_node := aget qs 0 in
          let* supported := IsSupportedActivationOutputTypePair dt_input dt_output q_node in
          let* supported :=
            if supported then Ok true
            else if negb (NeedsPrecisionConvert dt_input dt_output) then Ok false
            else
            let* input_shape := GetValueInfoShape data in
            Ok (match input_shape with Some s => negb (length s =? 3) | None => false end) in
          if negb supported then Ok false
          else if bool_decide (dt_input = ONNX_INT8) && negb (same_type dt_weight dt_input) then Ok false
          else if num_dq_nodes =? 3 then
            let* dt_bias := dq_type dqs 2 in Ok (bool_decide (dt_bias = Some ONNX_INT32))
          else Ok true
      | _, _, _ => Ok false
      end
  | _ => Ok false
  end.

(** [OrtEinsumNodeGroupSelector] and [OrtReciprocalNodeGroupSelector] have the same body. *)
Definition OrtEinsum_Check (node : nat) (dqs qs : list nat) : result bool :=
  if negb (CheckQDQNodes node dqs qs (-1) true) then Ok false
  else
  let* known := all_types (fun n => GetNodeInputDataType n 0) (fun _ => true) dqs in
  if negb known then Ok false
  else if length qs =? 0 then Ok true
  else
  let* dt_input0 := dq_type dqs 0 in
  let* dt_output := q_type qs 0 in
  Ok (types2 dt_input0 dt_output same_type).

Definition OrtReciprocal_Check (node : nat) (dqs qs : list nat) : result bool :=
  if negb (CheckQDQNodes node dqs qs (-1) true) then Ok false
  else
  let* known := all_types (fun n => GetNodeInputDataType n 0) (fun _ => true) dqs in
  if negb known then Ok false
  else if length qs =? 0 then Ok true
  else
  let* dt_input0 := dq_type dqs 0 in
  let* dt_output := q_type qs 0 in
  Ok (types2 dt_input0 dt_output same_type).

Definition OrtMatMul_Check (node : nat) (dqs qs : list nat) : result bool :=
  let* weight_only := IsPerChannelConstantWeightOnlyGroup node dqs qs in
  if weight_only then Ok true
  else if negb (length dqs =? 2) then Ok false
  else
  let* dt_input := dq_type dqs 0 in
  let* dt_weight := dq_type dqs 1 in
  match dt_input, dt_weight with
  | Some dt_input, Some dt_weight =>
      if bool_decide (dt_input = ONNX_INT8) && negb (same_type dt_weight dt_input) then Ok false
      else if length qs =? 0 then Ok false
      else if negb (CheckQDQNodes node dqs qs (-1) false) then Ok false
      else
      let* dt_output := q_type qs 0 in
      match dt_output with
      | None => Ok false
      | Some dt_output =>
          let* q_node := aget qs 0 in
          let* supported := IsSupportedActivationOutputTypePair dt_input dt_output q_node in
          Ok (supported || IsConvertBeforeOpGroup dt_input dt_weight dt_output)
      end
  | _, _ => Ok false
  end.

Definition OrtGemm_Check (node : nat) (dqs qs : list nat) : result bool :=
  if negb (CheckQDQNodes node dqs qs (-1) true) then Ok false
  else if length dqs <? 2 then Ok false
  else
  let* dt_A := dq_type dqs 0 in
  let* dt_B := dq_type dqs 1 in
  match dt_A, dt_B with
  | Some dt_A, Some dt_B =>
      if bool_decide (dt_A = ONNX_INT8) && negb (same_type dt_A dt_B) then Ok false
      else
      let* output_ok :=
        if length qs =? 0 then Ok true
        else
        let* dt_Y := q_type qs 0 in
        match dt_Y with
        | None => Ok false
        | Some dt_Y =>
            let* q_node := aget qs 0 in
            let* supported := IsSupportedActivationOutputTypePair dt_A dt_Y q_node in
            Ok (supported || IsConvertBeforeOpGroup dt_A dt_B dt_Y)
        end in
      if negb output_ok then Ok false
      else if length dqs <? 3 then Ok true
      else if negb (f_eq (default f_zero (float_attribute (graph node) "beta")) (f32_of_Z 1)) then Ok false
      else
      let* dt_bias := dq_type dqs 2 in
      Ok (bool_decide (dt_bias = Some ONNX_INT32))
  | _, _ => Ok false
  end.

(** Two DQ inputs and the output of the same type: [OrtWhereNodeGroupSelector] and
    [OrtScatterElementsNodeGroupSelector]. *)
Definition OrtWhere_Check (node : nat) (dqs qs : list nat) : result bool :=
  if negb (CheckQDQNodes node dqs qs 2 false) then Ok false
  else
  let* dt_input_1 := dq_type dqs 0 in
  let* dt_input_2 := dq_type dqs 1 in
  let* dt_output := q_type qs 0 in
  Ok (match dt_input_1, dt_input_2, dt_output with
      | Some i1, Some i2, Some o => same_type i1 i2 && same_type i1 o
      | _, _, _ => false
      end).

Definition OrtScatterElements_Check (node : nat) (dqs qs : list nat) : result bool :=
  if negb (CheckQDQNodes node dqs qs 2 false) then Ok false
  else
  let* dt_input_1 := dq_type dqs 0 in
  let* dt_input_2 := dq_type dqs 1 in
  let* dt_output := q_type qs 0 in
  Ok (match dt_input_1, dt_input_2, dt_output with
      | Some i1, Some i2, Some o => same_type i1 i2 && same_type i1 o
      | _, _, _ => false
      end).

Definition OrtPad_Check (node : nat) (dqs qs : list nat) : result bool :=
  let num_dq_inputs := length dqs in
  if (num_dq_inputs <? 1) || (2 <? num_dq_inputs) then Ok false
  else if negb (CheckQDQNodes node dqs qs (Z.of_nat num_dq_inputs) false) then Ok false
  else
  let* dt_input_1 := dq_type dqs 0 in
  let* dt_output := q_type qs 0 in
  match dt_input_1, dt_output with
  | Some i1, Some o =>
      if 1 <? length dqs then
        let* dt_input_2 := dq_type dqs 1 in
        Ok (match dt_input_2 with Some i2 => same_type i1 i2 && same_type i1 o | None => false end)
      else Ok (same_type i1 o)
  | _, _ => Ok false
  end.

Definition OrtInstanceAndLayerNormalization_Check (node : nat) (dqs qs : list nat) : result bool :=
  if negb (CheckQDQNodes node dqs qs (-1) false) then Ok false
  else
  let* dt_input := dq_type dqs 0 in
  let* dt_output := q_type qs 0 in
  match dt_input, dt_output with
  | Some dt_input, Some dt_output =>
      let has_bias := 2 <? length dqs in
      let* dt_bias := if has_bias then dq_type dqs 2 else Ok None in
      if has_bias && bool_decide (dt_bias = None) then Ok false
      else
      let* supported_activation_output :=
        if same_type dt_input dt_output then Ok true
        else if bool_decide (op node = "LayerNormalization") then
          let* q_node := aget qs 0 in
          let* supported := IsSupportedActivationOutputTypePair dt_input dt_output q_node in
          if supported then Ok true
          else if 1 <? length dqs then
            let* dq_node := aget dqs 0 in
            IsConvertActivationToOutputGroup dt_input dt_output dq_node
          else Ok false
        else Ok false in
      Ok (supported_activation_output && (if has_bias then bool_decide (dt_bias = Some ONNX_INT32) else true))
  | _, _ => Ok false
  end.

Definition OrtBatchNormalization_Check (node : nat) (dqs qs : list nat) : result bool :=
  let num_dq_nodes := length dqs in
  if (num_dq_nodes <? 2) || (5 <? num_dq_nodes) then Ok false
  else
  let has_float_output := length qs =? 0 in
  if negb (CheckQDQNodes node dqs qs (Z.of_nat num_dq_nodes) true) then Ok false
  else
  let* dt_input := dq_type dqs 0 in
  let* dt_scale := dq_type dqs 1 in
  match dt_input, dt_scale with
  | Some dt_input, Some dt_scale =>
      let* output_ok :=
        if has_float_output then Ok true
        else let* dt_output := q_type qs 0 in Ok (types2 (Some dt_input) dt_output same_type) in
      if negb output_ok then Ok false
      else Ok (negb (bool_decide (dt_input = ONNX_INT8) && negb (same_type dt_scale dt_input)))
  | _, _ => Ok false
  end.

Definition OrtLogicalComparison_Check (node : nat) (dqs qs : list nat) : result bool :=
  if negb (CheckQDQNodes node dqs qs (-1) true) then Ok false
  else
  let* dt_input_1 := dq_type dqs 0 in
  let* dt_input_2 := dq_type dqs 1 in
  Ok (types2 dt_input_1 dt_input_2 same_type).

Definition OrtTopK_Check (node : nat) (clip : option nat) (dqs qs : list nat) : result bool :=
  match clip with
  | Some _ => Ok false
  | None =>
      if negb (length dqs =? 1) then Ok false
      else
      let* can_create := CanCreateNodeGroup node dqs qs in
      if negb can_create then Ok false
      else if negb (length qs =? 1) then Ok false
      else
      let* dq_node := aget dqs 0 in
      let* q_node := aget qs 0 in
      let* dt_input := GetNodeInputDataType dq_node 0 in
      let* dt_output := GetNodeOutputDataType q_node 0 in
      if negb (types2 dt_input dt_output same_type) then Ok false
      else IsQDQPairSupported q_node dq_node
  end.

Definition OrtCumSum_Check (node : nat) (dqs qs : list nat) : result bool :=
  if negb (CheckQDQNodes node dqs qs 1 false) then Ok false
  else
  let* dt_input := dq_type dqs 0 in
  let* dt_output := q_type qs 0 in
  Ok (types2 dt_input dt_output same_type).

Definition OrtRMSNormalization_Check (node : nat) (dqs qs : list nat) : result bool :=
  if negb (CheckQDQNodes node dqs qs (-1) false) then Ok false
  else
  let* dt_input := dq_type dqs 0 in
  let* dt_output := q_type qs 0 in
  Ok (types2 dt_input dt_output same_type).

Definition OrtMatMulNBits_Check (node : nat) (dqs qs : list nat) : result bool :=
  if negb (CheckQDQNodes node dqs qs 1 false) then Ok false
  else
  let* dt_input := dq_type dqs 0 in
  let* dt_output := q_type qs 0 in
  Ok (types2 dt_input dt_output same_type).

Definition IsOutputDataTypeMatchingFirstInput (node : nat) (qs : list nat) : result bool :=
  match inputs (graph node) with
  | Some x :: _ =>
      match vi_producer x with
      | None => Ok false
      | Some x_dq_node =>
          if negb (bool_decide (op x_dq_node = "DequantizeLinear")) then Ok false
          else
          let* dt_x := GetNodeInputDataType x_dq_node 0 in
          match dt_x with
          | None => Ok false
          | Some dt_x => all_types (fun n => GetNodeOutputDataType n 0) (fun t => same_type t dt_x) qs
          end
      end
  | _ => Ok false
  end.

Definition OrtGRU_Check (node : nat) (dqs qs : list nat) : result bool :=
  if negb (CheckQDQNodes node dqs qs (Z.of_nat (length dqs)) false) then Ok false
  else IsOutputDataTypeMatchingFirstInput node qs.

(** The virtual call [selector->Check]. *)
Definition Check_ (selector : OrtNodeGroupSelector) (node : nat) (clip : option nat) (dqs qs : list nat) : result bool :=
  match selector with
  | DropQDQ allow => OrtDropQDQ_Check allow node clip dqs qs
  | DropDQ => OrtDropDQ_Check clip dqs
  | Unary => OrtUnary_Check node dqs qs
  | Clip => OrtClip_Check node dqs qs
  | Binary => OrtBinary_Check node dqs qs
  | Variadic => OrtVariadic_Check node dqs qs
  | Split req => OrtSplit_Check req node clip dqs qs
  | Conv => OrtConv_Check node dqs qs
  | Einsum => OrtEinsum_Check node dqs qs
  | Reciprocal => OrtReciprocal_Check node dqs qs
  | MatMul => OrtMatMul_Check node dqs qs
  | Gemm => OrtGemm_Check node dqs qs
  | Where => OrtWhere_Check node dqs qs
  | Pad => OrtPad_Check node dqs qs
  | InstanceAndLayerNormalization => OrtInstanceAndLayerNormalization_Check node dqs qs
  | BatchNormalization => OrtBatchNormalization_Check node dqs qs
  | LogicalComparison => OrtLogicalComparison_Check node dqs qs
  | TopK => OrtTopK_Check node clip dqs qs
  | CumSum => OrtCumSum_Check node dqs qs
  | ScatterElements => OrtScatterElements_Check node dqs qs
  | RMSNormalization => OrtRMSNormalization_Check node dqs qs
  | MatMulNBits => OrtMatMulNBits_Check node dqs qs
  | GRU => OrtGRU_Check node dqs qs
  end.

(** ** Selection *)

Definition collect_dq (dqs : list nat) (v : option ValueInfo) : list nat :=
  match v ≫= vi_producer with
  | Some producer => if bool_decide (op producer = "DequantizeLinear") then dqs ++ [producer] else dqs
  | None => dqs
  end.

Definition collect_q (qs : list nat) (c : option nat) : result (list nat) :=
  let* consumer := deref c in
  Ok (if bool_decide (op consumer = "QuantizeLinear") then qs ++ [consumer] else qs).

Definition GetOrtQDQSelection (node : nat) (selector : OrtNodeGroupSelector) : result (option OrtNodeGroup) :=
  let dqs := foldl collect_dq [] (inputs (graph node)) in
  let output_count := length (outputs (graph node)) in
  let* clip_node := if output_count =? 1 then TryFoldRedundantActivation node else Ok None in
  let* (output_reshape_node, clip_node) :=
    match clip_node with
    | Some c => Ok (None, Some c)
    | None =>
        if output_count =? 1 then
          let* absorbed := TryAbsorbTrailingReshape node in
          Ok (match absorbed with
              | None => (None, None)
              | Some (reshape, folded_activation) => (Some reshape, folded_activation)
              end)
        else Ok (None, None)
    end in
  let q_anchor :=
    match clip_node, output_reshape_node with
    | Some c, _ => c
    | None, Some r => r
    | None, None => node
    end in
  let* qs := foldM collect_q (mjoin (vi_consumers <$> present q_anchor)) [] in
  let* accept := Check_ selector node clip_node dqs qs in
  Ok (if accept then Some (QdqGroup dqs qs node clip_node output_reshape_node) else None).

(** The registered op types, with the versions they are limited to. *)
Definition CreateSelectors : list (list (string * list Z) * OrtNodeGroupSelector) :=
  let any (ops : list string) : list (string * list Z) := (fun o => (o, [])) <$> ops in
  [ (any ["Expand"; "Flatten"; "Gather"; "GatherElements"] ++ [("MaxPool", [12%Z])] ++
       any ["Reshape"; "Resize"; "Squeeze"; "Tile"; "Transpose"; "Unsqueeze"], DropQDQ true);
    (any ["ArgMax"; "ArgMin"; "NonZero"], DropDQ);
    (any ["Abs"; "Asin"; "Atan"; "AveragePool"; "Buffer"; "Ceil"; "Cos"; "DepthToSpace"; "Elu"; "Erf"; "Exp";
          "Floor"; "Gelu"; "GlobalAveragePool"; "GlobalMaxPool"; "HardSigmoid"; "HardSwish"; "LRN"; "LeakyRelu";
          "Log"; "LogSoftmax"; "LpNormalization"; "Neg"; "ReduceL2"; "ReduceLogSumExp"; "ReduceMax";
          "ReduceMean"; "ReduceMin"; "ReduceProd"; "ReduceSum"; "Relu"; "Round"; "Sigmoid"; "Sign"; "Sin";
          "Slice"; "Softmax"; "Softplus"; "SpaceToDepth"; "Sqrt"; "Swish"; "Tanh"], Unary);
    (any ["Clip"], Clip);
    (any ["Add"; "Div"; "GridSample"; "Mul"; "Pow"; "PRelu"; "Sub"], Binary);
    (any ["Concat"; "Max"; "Min"], Variadic);
    (any ["Split"], Split false);
    (any ["Conv"], Conv);
    (any ["ConvTranspose"], Conv);
    (any ["Einsum"], Einsum);
    (any ["Reciprocal"], Reciprocal);
    (any ["MatMul"], MatMul);
    (any ["Gemm"], Gemm);
    (any ["GRU"; "StatefulGru"], GRU);
    (any ["InstanceNormalization"; "LayerNormalization"], InstanceAndLayerNormalization);
    (any ["BatchNormalization"], BatchNormalization);
    (any ["Equal"; "Greater"; "GreaterOrEqual"; "Less"; "LessOrEqual"], LogicalComparison);
    (any ["Where"], Where);
    (any ["Pad"], Pad);
    (any ["TopK"], TopK);
    (any ["CumSum"], CumSum);
    (any ["ScatterElements"], ScatterElements);
    (any ["RMSNormalization"; "SimplifiedLayerNormalization"], RMSNormalization);
    (any ["MatMulNBits"], MatMulNBits) ].

(** [insert] keeps the entry that is already there. *)
Definition InitializeSelectorsMap (set : list (list (string * list Z) * OrtNodeGroupSelector))
  : gmap string (list Z * OrtNodeGroupSelector) :=
  foldl (fun m entry =>
    foldl (fun m op_info =>
      match m !! op_info.1 with
      | Some _ => m
      | None => <[op_info.1 := (op_info.2, entry.2)]> m
      end) m entry.1) ∅ set.

Definition select_node (selectors : gmap string (list Z * OrtNodeGroupSelector)) (acc : list OrtNodeGroup) (node : nat)
  : result (list OrtNodeGroup) :=
  if negb (bool_decide (node_domain node ∈
       [""; "com.ms.internal.nhwc"; "com.microsoft"; "ai.onnx.ml"; "qti_aisw"])) then Ok acc
  else
  match selectors !! op node with
  | None => Ok acc
  | Some (versions, selector) =>
      if negb (length versions =? 0) && negb (bool_decide (since_version (graph node) ∈ versions)) then Ok acc
      else
      let* selection := GetOrtQDQSelection node selector in
      Ok (match selection with None => acc | Some g => acc ++ [g] end)
  end.

Definition GetOrtQDQSelections (nodes : list nat) : result (list OrtNodeGroup) :=
  foldM (select_node (InitializeSelectorsMap CreateSelectors)) nodes [].

(** ** Node units *)

Definition OrtNodeUnit_of_group (g : OrtNodeGroup) : OrtNodeUnit :=
  NodeUnit QDQGroup (target_node g) (dq_nodes g) (q_nodes g) (output_reshape_node g) (redundant_clip_node g).

Definition OrtNodeUnit_of_node (node : nat) : OrtNodeUnit := NodeUnit SingleNode node [] [] None None.

Definition add_node_unit_to_map (_nodes : list nat) (u : OrtNodeUnit) (m : gmap nat OrtNodeUnit) : gmap nat OrtNodeUnit :=
  foldl (fun m node => <[node := u]> m) m _nodes.

Definition add_selection (acc : list OrtNodeUnit * gmap nat OrtNodeUnit) (g : OrtNodeGroup)
  : list OrtNodeUnit * gmap nat OrtNodeUnit :=
  let '(holder, m) := acc in
  let u := OrtNodeUnit_of_group g in
  let m := add_node_unit_to_map (dq_nodes g) u m in
  let m := add_node_unit_to_map (q_nodes g) u m in
  let m := add_node_unit_to_map [target_node g] u m in
  let m := match redundant_clip_node g with Some c => add_node_unit_to_map [c] u m | None => m end in
  let m := match output_reshape_node g with Some r => add_node_unit_to_map [r] u m | None => m end in
  (holder ++ [u], m).

Definition add_single (acc : list OrtNodeUnit * gmap nat OrtNodeUnit) (node : nat)
  : list OrtNodeUnit * gmap nat OrtNodeUnit :=
  let '(holder, m) := acc in
  match m !! node with
  | Some _ => acc
  | None => let u := OrtNodeUnit_of_node node in (holder ++ [u], <[node := u]> m)
  end.

Definition GetAllOrtNodeUnits (nodes : list nat) : result (list OrtNodeUnit * gmap nat OrtNodeUnit) :=
  let* qdq_selections := GetOrtQDQSelections nodes in
  Ok (foldl add_single (foldl add_selection ([], ∅) qdq_selections) nodes).

End Selectors.
