(* ===== verification/QdqUnits.v ===== *)
(** * Node units made of QDQ groups

    What the selection of [QdqSelector] promises: the shape and the element types of the
    groups that the selectors accept, and that [GetAllOrtNodeUnits] yields the well-formed
    node units that [Partition], [NodeGroups] and [Fusions] assume. *)

From Stdlib Require Import SpecFloat ZifyBool.
From S2P Require Import Prelude DataTypes Floats QnnTensor Partition NodeGroups Fusions QdqSelector.

(** ** Facts about the selection *)

Section SelectionFacts.
Context (graph : nat → OrtNode).
Context (elem_type : string → option ONNXTensorElementDataType).
Context (initializers : list (string * OrtValue)) (is_constant_initializer : string → bool).

Local Abbreviation op n := (op_type (graph n)).
Local Abbreviation select := (GetOrtQDQSelection graph elem_type initializers is_constant_initializer).
Local Abbreviation check := (Check_ graph elem_type initializers).
Local Abbreviation succ_of := (sole_successor graph).

Definition dq_producer (v : option ValueInfo) : option nat :=
  (v ≫= vi_producer) ≫= fun p => if bool_decide (op p = "DequantizeLinear") then Some p else None.

Lemma collect_dq_spec l acc : foldl (collect_dq graph) acc l = acc ++ omap dq_producer l.
Proof.
  revert acc. induction l as [|v l IH]; intros acc; cbn; [by rewrite app_nil_r|].
  rewrite IH. unfold collect_dq, dq_producer. destruct (v ≫= vi_producer) as [p|]; cbn; [|done].
  case_match; cbn; [by rewrite <- app_assoc|done].
Qed.

Lemma dq_producer_dq (vs : list (option ValueInfo)) n : n ∈ omap dq_producer vs → op n = "DequantizeLinear".
Proof.
  intros (v & _ & E)%list_elem_of_omap. unfold dq_producer in E. destruct (v ≫= vi_producer); [|done].
  cbn in E. case_bool_decide; naive_solver.
Qed.

Definition is_q (c : option nat) : option nat :=
  c ≫= fun n => if bool_decide (op n = "QuantizeLinear") then Some n else None.

Lemma collect_q_spec cs acc qs : foldM (collect_q graph) cs acc = Ok qs → None ∉ cs ∧ qs = acc ++ omap is_q cs.
Proof.
  revert acc. induction cs as [|c cs IH]; intros acc H; cbn in H.
  - injection H as <-. cbn. by rewrite app_nil_r; split; [apply not_elem_of_nil|].
  - destruct c as [c|]; [|done]. cbn in H. apply IH in H as [Hn ->]. split; [set_solver|].
    cbn. case_match; cbn; [by rewrite <- app_assoc|done].
Qed.

(** The nodes that a group takes in behind its target. *)
Inductive extends (node : nat) : option nat → option nat → Prop :=
| extends_none : extends node None None
| extends_fold a q : succ_of node = Some a → is_activation (op a) = true →
    succ_of a = Some q → op q = "QuantizeLinear" → extends node (Some a) None
| extends_reshape r q : op node = "Gemm" → succ_of node = Some r → op r = "Reshape" →
    succ_of r = Some q → op q = "QuantizeLinear" → extends node None (Some r)
| extends_both r a q : op node = "Gemm" → succ_of node = Some r → op r = "Reshape" →
    succ_of r = Some a → is_activation (op a) = true → succ_of a = Some q → op q = "QuantizeLinear" →
    extends node (Some a) (Some r).

Definition anchor (g : OrtNodeGroup) : nat :=
  default (default (target_node g) (output_reshape_node g)) (redundant_clip_node g).

Lemma fold_spec node c : TryFoldRedundantActivation graph initializers node = Ok (Some c) →
  extends node (Some c) None.
Proof.
  unfold TryFoldRedundantActivation. intros H. run_cases; simplify_eq.
  eapply extends_fold; [done|by destruct (is_activation _)|done|].
  by destruct (bool_decide_reflect (op n0 = "QuantizeLinear")).
Qed.

Lemma absorb_spec node r c :
  TryAbsorbTrailingReshape graph elem_type initializers is_constant_initializer node = Ok (Some (r, c)) →
  extends node c (Some r).
Proof.
  unfold TryAbsorbTrailingReshape. intros H.
  run_cases; simplify_eq; repeat match goal with
    H : context [bool_decide ?P] |- _ => destruct (bool_decide_reflect P); cbn in H; try done end;
    by econstructor; eauto; apply negb_false_iff.
Qed.

Record selected (node : nat) (selector : OrtNodeGroupSelector) (g : OrtNodeGroup) : Prop := {
  sel_target : target_node g = node;
  sel_extends : extends node (redundant_clip_node g) (output_reshape_node g);
  sel_dq : dq_nodes g = omap dq_producer (inputs (graph node));
  sel_consumers : None ∉ mjoin (vi_consumers <$> present graph (anchor g));
  sel_q : q_nodes g = omap is_q (mjoin (vi_consumers <$> present graph (anchor g)));
  sel_check : check selector node (redundant_clip_node g) (dq_nodes g) (q_nodes g) = Ok true
}.

Lemma extension_spec node clip0 clip reshape :
  (if length (outputs (graph node)) =? 1 then TryFoldRedundantActivation graph initializers node else Ok None) = Ok clip0 →
  match clip0 with
  | Some c => Ok (None, Some c)
  | None =>
      if length (outputs (graph node)) =? 1 then
        let* absorbed := TryAbsorbTrailingReshape graph elem_type initializers is_constant_initializer node in
        Ok (match absorbed with
            | None => (None, None)
            | Some (reshape, folded_activation) => (Some reshape, folded_activation)
            end)
      else Ok (None, None)
  end = Ok (reshape, clip) →
  extends node clip reshape.
Proof.
  intros Hfold Habs. destruct clip0 as [c|].
  - injection Habs as <- <-. apply fold_spec. by destruct (length _ =? 1).
  - run_cases; simplify_eq; try apply extends_none. by apply absorb_spec.
Qed.

Lemma select_spec node selector g : select node selector = Ok (Some g) → selected node selector g.
Proof.
  unfold GetOrtQDQSelection. intros H. inv_bind H. rename a into clip0, H0 into Hfold.
  inv_bind H. destruct a as [reshape clip]. rename H0 into Habs.
  assert (extends node clip reshape) as Hext by (by eapply extension_spec).
  clear Hfold Habs. inv_bind H. rename a into qs, H0 into Hq. inv_bind H. rename a into accept, H0 into Hcheck.
  apply collect_q_spec in Hq as [Hnull ->]. rewrite collect_dq_spec in *.
  destruct accept; simplify_eq. split; cbn; try done;
    unfold anchor; cbn; by destruct clip, reshape.
Qed.

(** ** Shape of an accepted group *)

Lemma present_elem n v : v ∈ present graph n ↔ Some v ∈ outputs (graph n).
Proof.
  unfold present. rewrite list_elem_of_omap. split; [intros (x & Hx & E); cbn in E; by subst x|eauto].
Qed.

Lemma sole_successor_spec n s : succ_of n = Some s →
  ∃ v, outputs (graph n) = [Some v] ∧ vi_graph_output v = false ∧ vi_consumers v = [Some s].
Proof.
  unfold sole_successor, GetSingleOutput, GetSoleNonOutputConsumer. intros H.
  destruct (outputs (graph n)) as [|[v|] [|]]; cbn in H; try done. exists v.
  destruct (vi_graph_output v); [done|]. destruct (vi_consumers v) as [|? [|]]; naive_solver.
Qed.

Definition closed_shape (node : nat) (qs : list nat) : Prop :=
  length (present graph node) = length qs ∧
  length qs = sum_list_with (fun v => length (vi_consumers v)) (present graph node) ∧
  ∀ v, v ∈ present graph node → vi_graph_output v = false.

Lemma CheckQDQNodes_spec node dqs qs n b : CheckQDQNodes graph node dqs qs n b = true →
  (if (n =? -1)%Z then Z.of_nat (length (inputs (graph node))) else n) = Z.of_nat (length dqs) ∧
  (qs = [] ∧ b = true ∨ qs ≠ [] ∧ closed_shape node qs).
Proof.
  unfold CheckQDQNodes. intros H. destruct (Z.eqb_spec (if (n =? -1)%Z then
    Z.of_nat (length (inputs (graph node))) else n) (Z.of_nat (length dqs))); [|done]. cbn in H. split; [done|].
  destruct qs as [|q qs]; cbn in H; [by left|right]. split; [done|].
  apply andb_true_iff in H as [[H1 H2]%andb_true_iff H3]. cbn in *.
  split_and!; [by destruct (length (present graph node)) as [|k]; [|f_equal; apply Nat.eqb_eq]| |].
  - cbn. by destruct (sum_list_with _ _); [|f_equal; apply Nat.eqb_eq].
  - intros v Hv. apply negb_true_iff in H3. destruct (vi_graph_output v) eqn:E; [|done].
    exfalso. apply not_true_iff_false in H3. apply H3, existsb_exists. exists v. split; [|done].
    by apply list_elem_of_In.
Qed.

Lemma closed_or_empty node dqs qs n b : negb (CheckQDQNodes graph node dqs qs n b) = false →
  qs = [] ∨ closed_shape node qs.
Proof. intros H%negb_false_iff%CheckQDQNodes_spec. tauto. Qed.

Lemma weight_only_spec node dqs qs :
  IsPerChannelConstantWeightOnlyGroup graph elem_type initializers node dqs qs = Ok true → qs = [].
Proof. unfold IsPerChannelConstantWeightOnlyGroup. by intros H; run_cases. Qed.

Ltac unfold_checks :=
  unfold OrtDropQDQ_Check, OrtUnary_Check, OrtClip_Check, OrtBinary_Check, OrtVariadic_Check, OrtSplit_Check,
    OrtConv_Check, OrtEinsum_Check, OrtReciprocal_Check, OrtMatMul_Check, OrtGemm_Check, OrtWhere_Check,
    OrtPad_Check, OrtInstanceAndLayerNormalization_Check, OrtBatchNormalization_Check,
    OrtLogicalComparison_Check, OrtCumSum_Check, OrtScatterElements_Check, OrtRMSNormalization_Check,
    OrtMatMulNBits_Check, OrtGRU_Check, OrtTopK_Check in *.

Ltac check_cases H :=
  repeat match type of H with
  | Ok false = Ok true => discriminate H
  | rbind _ _ = Ok true => inv_bind H
  | (if negb (CheckQDQNodes ?g ?n ?d ?q ?k ?b) then _ else _) = Ok true =>
      let E := fresh "Hcheck" in destruct (negb (CheckQDQNodes g n d q k b)) eqn:E; [discriminate H|clear H]
  | (if ?c then _ else _) = Ok true => let E := fresh "E" in destruct c eqn:E
  | match ?c with _ => _ end = Ok true => let E := fresh "E" in destruct c eqn:E
  end.

(** What an accepting selector has checked about the outputs. *)
Lemma check_shape selector node clip dqs qs : check selector node clip dqs qs = Ok true →
  selector = DropDQ ∨ qs = [] ∨ closed_shape node qs ∨
  (selector = TopK ∧ clip = None ∧ length qs = 1 ∧ CanCreateNodeGroup graph node dqs qs = Ok true).
Proof.
  intros H. destruct selector; cbn in H; try (by left); right; unfold_checks; check_cases H;
    try (match goal with E : negb (CheckQDQNodes _ _ _ _ _ _) = false |- _ => apply closed_or_empty in E; tauto end);
    try (match goal with E : IsPerChannelConstantWeightOnlyGroup _ _ _ _ _ _ = Ok true |- _ =>
      apply weight_only_spec in E; tauto end).
  - right; right. split_and!; try done; [by apply Nat.eqb_eq, negb_false_iff|].
    by destruct a; [|discriminate].
Qed.

(** ** Interior tensors *)

Definition interior_nodes (g : OrtNodeGroup) : list nat :=
  target_node g :: option_list (output_reshape_node g) ++ option_list (redundant_clip_node g).
Definition absorbers (g : OrtNodeGroup) : list nat :=
  option_list (output_reshape_node g) ++ option_list (redundant_clip_node g) ++ q_nodes g.

(** The value stays inside the group: it is no graph output and only the group reads it. *)
Definition consumed_inside (g : OrtNodeGroup) (v : ValueInfo) : Prop :=
  vi_graph_output v = false ∧ ∀ c, c ∈ vi_consumers v → ∃ n, c = Some n ∧ n ∈ absorbers g.

Lemma is_q_elem (cs : list (option nat)) n : n ∈ omap is_q cs ↔ Some n ∈ cs ∧ op n = "QuantizeLinear".
Proof.
  rewrite list_elem_of_omap. unfold is_q. split.
  - intros ([c|] & Hc & E); cbn in E; [|done]. case_bool_decide; naive_solver.
  - intros [Hc Hq]. exists (Some n). split; [done|]. cbn. by rewrite bool_decide_true.
Qed.

Lemma sum_length_mjoin {A B} (f : A → list B) l : sum_list_with (fun x => length (f x)) l = length (mjoin (f <$> l)).
Proof. induction l as [|x l IH]; cbn; [done|]. rewrite length_app. by f_equal. Qed.

Lemma omap_length_le {A B} (f : A → option B) l : length (omap f l) ≤ length l.
Proof. induction l as [|a l IH]; cbn; [done|]. destruct (f a); cbn; lia. Qed.

Lemma omap_length_all {A B} (f : A → option B) l : length (omap f l) = length l → ∀ x, x ∈ l → is_Some (f x).
Proof.
  induction l as [|a l IH]; cbn; intros E x Hx; [by apply not_elem_of_nil in Hx|].
  pose proof (omap_length_le f l). destruct (f a) eqn:Ea; cbn in E; [|lia].
  apply elem_of_cons in Hx as [->|Hx]; [by eexists|]. apply IH; [lia|done].
Qed.

Lemma omap_mjoin_single {A B C} (f : B → option C) (g : A → list B) l x y :
  length (omap f (mjoin (g <$> l))) ≤ 1 → x ∈ l → y ∈ l → omap f (g x) ≠ [] → omap f (g y) ≠ [] → x = y.
Proof.
  assert (∀ z l, z ∈ l → omap f (g z) ≠ [] → 1 ≤ length (omap f (mjoin (g <$> l)))) as Hpos.
  { intros z l' Hz Hne. induction Hz as [z l'|z z' l' Hz IH]; csimpl; rewrite omap_app, length_app.
    - destruct (omap f (g z)); [done|cbn; lia].
    - specialize (IH Hne). lia. }
  induction l as [|a l IH]; intros Hlen Hx Hy Hfx Hfy; [by apply not_elem_of_nil in Hx|].
  csimpl in Hlen. rewrite omap_app, length_app in Hlen.
  apply elem_of_cons in Hx as [->|Hx], Hy as [->|Hy]; try done.
  - specialize (Hpos y l Hy Hfy). destruct (omap f (g a)); [done|cbn in *; lia].
  - specialize (Hpos x l Hx Hfx). destruct (omap f (g a)); [done|cbn in *; lia].
  - apply IH; try done. lia.
Qed.

Lemma count_absorbed_pos qs l k n : foldM (count_absorbed qs) l (Some k) = Ok (Some n) → k < n →
  ∃ v c, Some v ∈ l ∧ vi_consumers v = [Some c] ∧ c ∈ qs ∧ vi_graph_output v = false.
Proof.
  assert (∀ l, foldM (count_absorbed qs) l None = Ok None ∨ ∃ e, foldM (count_absorbed qs) l None = Err e) as Hnone.
  { intros l'. induction l' as [|? ? IH]; cbn; eauto. }
  revert k. induction l as [|v l IH]; intros k H Hk; cbn in H; [simplify_res; lia|].
  inv_bind H. destruct v as [v|]; [|done]. cbn in H0.
  destruct a as [k'|]; [|destruct (Hnone l) as [E|[e E]]; by rewrite E in H].
  assert (k' = k ∨ ∃ c, vi_consumers v = [Some c] ∧ c ∈ qs ∧ vi_graph_output v = false) as [->|(c & Hc)].
  { destruct (vi_consumers v) as [|[c|] [|]]; simplify_res; simplify_eq; eauto.
    destruct (bool_decide_reflect (c ∈ qs)); cbn in H0; simplify_res; simplify_eq; eauto.
    destruct (vi_graph_output v); simplify_res; simplify_eq; eauto. }
  - destruct (IH _ H Hk) as (w & c & Hw & Hc). exists w, c. split; [by right|done].
  - exists v, c. split; [left|done].
Qed.

Lemma absorbed_direct node selector g v : selected node selector g → selector ≠ DropDQ →
  redundant_clip_node g = None → output_reshape_node g = None → v ∈ present graph node →
  (∃ c, Some c ∈ vi_consumers v ∧ c ∈ q_nodes g) → consumed_inside g v.
Proof.
  intros Hs Hne E1 E2 Hv (c & Hcv & Hcq). pose proof (sel_q _ _ _ Hs) as Hqs. pose proof (sel_check _ _ _ Hs) as Hck.
  unfold anchor in Hqs. rewrite E1, E2, (sel_target _ _ _ Hs) in Hqs. cbn in Hqs.
  unfold consumed_inside, absorbers. rewrite E1, E2. cbn.
  destruct (check_shape _ _ _ _ _ Hck) as [?|[E|[(Hl & Ht & Hg)|(-> & _ & Hl & Hcan)]]]; [done| | |].
  - rewrite E in Hcq. by apply not_elem_of_nil in Hcq.
  - split; [by apply Hg|]. intros c' Hc'. rewrite sum_length_mjoin, Hqs in Ht.
    assert (c' ∈ mjoin (vi_consumers <$> present graph node)) as Hin.
    { apply list_elem_of_join. exists (vi_consumers v). split; [done|]. by apply list_elem_of_fmap_2. }
    destruct (omap_length_all _ _ Ht c' Hin) as [n Hn]. exists n.
    destruct c' as [n'|]; [|done]. cbn in Hn. case_bool_decide; [|done]. injection Hn as ->. split; [done|].
    by rewrite Hqs, is_q_elem.
  - unfold CanCreateNodeGroup in Hcan. run_cases; try done.
    match goal with E : foldM _ _ _ = Ok (Some ?n) |- _ =>
      apply count_absorbed_pos in E as (w & d & Hw%present_elem & Hd & Hdq & Hg);
        [|apply Nat.eqb_eq in Hcan; lia] end.
    assert (v = w) as <-.
    { apply (omap_mjoin_single is_q vi_consumers (present graph node)); try done.
      - rewrite <- Hqs. lia.
      - rewrite Hqs, is_q_elem in Hcq. apply elem_of_not_nil with c. apply is_q_elem; tauto.
      - rewrite Hqs, is_q_elem in Hdq. apply elem_of_not_nil with d. apply is_q_elem. rewrite Hd. set_solver. }
    split; [done|]. rewrite Hd. intros c' Hc'. apply list_elem_of_singleton in Hc' as ->. eauto.
Qed.

Lemma absorbed_successor g n s v : succ_of n = Some s → s ∈ absorbers g → Some v ∈ outputs (graph n) →
  consumed_inside g v.
Proof.
  intros (w & Ho & Hg & Hw)%sole_successor_spec Hin Hv. rewrite Ho in Hv.
  apply list_elem_of_singleton in Hv as [= ->]. split; [done|]. rewrite Hw.
  intros c Hc. apply list_elem_of_singleton in Hc as ->. eauto.
Qed.

Lemma anchor_q node selector g q : selected node selector g → succ_of (anchor g) = Some q →
  op q = "QuantizeLinear" → q ∈ q_nodes g.
Proof.
  intros Hs (w & Ho & Hg & Hw)%sole_successor_spec Hop. rewrite (sel_q _ _ _ Hs), is_q_elem.
  split; [|done]. unfold present. rewrite Ho. cbn. rewrite Hw. set_solver.
Qed.

Lemma interior_closed node selector g : selected node selector g → selector ≠ DropDQ →
  ∀ n v, n ∈ interior_nodes g → Some v ∈ outputs (graph n) →
    (∃ c, Some c ∈ vi_consumers v ∧ c ∈ absorbers g) → consumed_inside g v.
Proof.
  intros Hs Hne n v Hn Hv Hc. pose proof (sel_target _ _ _ Hs) as Ht. 
  pose proof (fun q => anchor_q _ _ _ q Hs) as Hq. unfold anchor, interior_nodes in *. rewrite Ht in *.
  pose proof (sel_extends _ _ _ Hs) as Hext. inversion Hext as [E1 E2|a q Ha Hact Hsq Hop E1 E2|r q Hgm Hr Hor Hsq Hop E1 E2
    |r a q Hgm Hr Hor Ha Hact Hsq Hop E1 E2]; rewrite <- E1, <- E2 in *; cbn in *.
  - apply list_elem_of_singleton in Hn as ->. apply present_elem in Hv. eapply absorbed_direct; eauto.
    unfold absorbers in Hc. by rewrite <- E1, <- E2 in Hc.
  - assert (a ∈ absorbers g ∧ q ∈ absorbers g) as [Hina Hinq].
    { unfold absorbers. rewrite <- E1, <- E2. specialize (Hq q Hsq Hop). set_solver. }
    apply elem_of_cons in Hn as [->|Hn]; [|apply list_elem_of_singleton in Hn as ->]; eauto using absorbed_successor.
  - assert (r ∈ absorbers g ∧ q ∈ absorbers g) as [Hinr Hinq].
    { unfold absorbers. rewrite <- E1, <- E2. specialize (Hq q Hsq Hop). set_solver. }
    apply elem_of_cons in Hn as [->|Hn]; [|apply list_elem_of_singleton in Hn as ->]; eauto using absorbed_successor.
  - assert (r ∈ absorbers g ∧ a ∈ absorbers g ∧ q ∈ absorbers g) as (Hinr & Hina & Hinq).
    { unfold absorbers. rewrite <- E1, <- E2. specialize (Hq q Hsq Hop). set_solver. }
    apply elem_of_cons in Hn as [->|Hn]; [eauto using absorbed_successor|].
    apply elem_of_cons in Hn as [->|Hn]; [|apply list_elem_of_singleton in Hn as ->]; eauto using absorbed_successor.
Qed.

(** ** Types of an accepted group *)

(** The element type of the data that the DQ reads, and of the data that the Q writes. *)
Definition type_in (n : nat) : result (option ONNXTensorElementDataType) := GetNodeInputDataType graph elem_type n 0.
Definition type_out (n : nat) : result (option ONNXTensorElementDataType) := GetNodeOutputDataType graph elem_type n 0.

(** The types that one QNN op can bridge: equal, or two fixed-point types that a Convert
    takes into each other. *)
Definition bridgeable (i o : ONNXTensorElementDataType) : Prop :=
  i = o ∨ FixedPointBitWidth i ≠ 0%Z ∧ FixedPointBitWidth o ≠ 0%Z.

Lemma same_type_bridge i o : same_type i o = true → bridgeable i o.
Proof. intros ?%bool_decide_eq_true. by left. Qed.

Lemma convertible_spec t : IsConvertibleFixedPointType t = true → FixedPointBitWidth t ≠ 0%Z.
Proof. unfold IsConvertibleFixedPointType. intros H%negb_true_iff. by apply Z.eqb_neq. Qed.

Lemma convert_bridge i o : NeedsPrecisionConvert i o = true → bridgeable i o.
Proof. unfold NeedsPrecisionConvert. intros [[_ ?]%andb_true_iff ?]%andb_true_iff. right. split; by apply convertible_spec. Qed.

Lemma before_op_bridge i w o : IsConvertBeforeOpGroup i w o = true → bridgeable i o.
Proof. unfold IsConvertBeforeOpGroup. intros H. do 6 apply andb_true_iff in H as [H _]. by apply convert_bridge. Qed.

Lemma pair_bridge i o q : IsSupportedActivationOutputTypePair graph initializers i o q = Ok true → bridgeable i o.
Proof.
  unfold IsSupportedActivationOutputTypePair. intros H.
  destruct (same_type i o) eqn:E; [by apply same_type_bridge|]. right.
  destruct i, o; cbn in H; try done; by split.
Qed.

Lemma to_output_bridge i o dq : IsConvertActivationToOutputGroup graph initializers i o dq = Ok true → bridgeable i o.
Proof.
  unfold IsConvertActivationToOutputGroup. intros H. destruct (NeedsPrecisionConvert i o) eqn:E; [|done].
  by apply convert_bridge.
Qed.
#[local] Hint Resolve same_type_bridge convert_bridge before_op_bridge pair_bridge to_output_bridge : bridge.

Lemma types2_spec a b p : types2 a b p = true → ∃ i o, a = Some i ∧ b = Some o ∧ p i o = true.
Proof. destruct a, b; cbn; naive_solver. Qed.

Definition first_types_bridge (dqs qs : list nat) : Prop :=
  ∃ dq q i o, head dqs = Some dq ∧ head qs = Some q ∧ type_in dq = Ok (Some i) ∧ type_out q = Ok (Some o) ∧ bridgeable i o.

Lemma first_types dqs qs i o : dq_type graph elem_type dqs 0 = Ok (Some i) → q_type graph elem_type qs 0 = Ok (Some o) →
  bridgeable i o → first_types_bridge dqs qs.
Proof.
  unfold dq_type, q_type, aget. destruct dqs as [|dq dqs], qs as [|q qs]; cbn; try done.
  intros Hi Ho Hb. exists dq, q, i, o. by split_and!.
Qed.

(** Follows an accepting run, keeping the results of the calls. *)
Ltac accept_cases H :=
  repeat match type of H with
  | Ok ?b = Ok true => first [discriminate H|injection H as H]; try (apply types2_spec in H as (? & ? & -> & -> & H))
  | rbind _ _ = Ok true => inv_bind H
  | (if ?c then _ else _) = Ok true => let E := fresh "E" in destruct c eqn:E
  | match ?c with _ => _ end = Ok true => let E := fresh "E" in destruct c eqn:E
  end.

Ltac bool_hyps :=
  repeat match goal with
  | E : negb _ = false |- _ => apply negb_false_iff in E
  | E : types2 _ _ _ = true |- _ => apply types2_spec in E as (? & ? & -> & -> & E)
  | E : _ || _ = true |- _ => apply orb_true_iff in E as [E|E]
  | E : _ && _ = true |- _ => apply andb_true_iff in E as [? E]
  | E : Ok _ = Ok _ |- _ => injection E as E
  | E : ?b = true |- _ => is_var b; subst b
  | E : true = true |- _ => clear E
  | E : false = true |- _ => discriminate E
  | E : Err _ = Ok _ |- _ => discriminate E
  | E : rbind _ _ = Ok _ |- _ => inv_bind E
  | E : match ?a with _ => _ end = true |- _ => destruct a eqn:?
  | E : match ?a with _ => _ end = Ok true |- _ => destruct a eqn:?
  end.

Lemma convertible_bridge i o : IsConvertibleFixedPointType i = true → IsConvertibleFixedPointType o = true → bridgeable i o.
Proof. right. split; by apply convertible_spec. Qed.
#[local] Hint Resolve convertible_bridge : bridge.

Lemma first_types_nodes dqs qs dq q i o : aget dqs 0 = Ok dq → aget qs 0 = Ok q →
  type_in dq = Ok (Some i) → type_out q = Ok (Some o) → bridgeable i o → first_types_bridge dqs qs.
Proof.
  intros Hd Hq Hi Ho. apply first_types; unfold dq_type, q_type; [by rewrite Hd|by rewrite Hq].
Qed.

Lemma split_first req i dq q qs : split_outputs graph elem_type initializers req i dq (q :: qs) = Ok true →
  type_out q = Ok (Some i).
Proof.
  cbn. unfold type_out. intros H. inv_bind H. destruct a as [o|]; [|done].
  destruct (same_type i o) eqn:E; [|done]. apply bool_decide_eq_true in E. by subst.
Qed.

Lemma gru_first node q qs : IsOutputDataTypeMatchingFirstInput graph elem_type node (q :: qs) = Ok true →
  ∃ dq i, head (omap dq_producer (inputs (graph node))) = Some dq ∧ type_in dq = Ok (Some i) ∧ type_out q = Ok (Some i).
Proof.
  unfold IsOutputDataTypeMatchingFirstInput, type_in, type_out. intros H. accept_cases H. bool_hyps.
  exists n, o0. cbn. unfold dq_producer at 1. cbn. rewrite E1. cbn. rewrite E2. split_and!; [done|done|].
  clear E3 a. cbn in H. inv_bind H. destruct a as [t|]; [|done]. destruct (same_type t o0) eqn:Et; [|done].
  apply bool_decide_eq_true in Et. by subst.
Qed.

Lemma check_types selector node clip dqs qs : check selector node clip dqs qs = Ok true →
  dqs = omap dq_producer (inputs (graph node)) → qs ≠ [] → selector ≠ DropDQ → selector ≠ LogicalComparison →
  first_types_bridge dqs qs.
Proof.
  intros H Hdq Hq H1 H2. destruct selector; try done; clear H1 H2; cbn in H; unfold_checks; accept_cases H;
    bool_hyps; try done; try (eapply first_types; [eassumption|eassumption|by eauto 3 with bridge]);
    try (by destruct qs);
    try (match goal with E : IsPerChannelConstantWeightOnlyGroup _ _ _ _ _ _ = Ok true |- _ =>
      by apply weight_only_spec in E end);
    try (eapply first_types_nodes; [eassumption|eassumption|eassumption|eassumption|by eauto 3 with bridge]).
  - destruct qs as [|q qs]; [done|]. apply split_first in H.
    eapply first_types_nodes; [eassumption|done|eassumption|exact H|by left].
  - destruct qs as [|q qs]; [done|]. apply gru_first in H as (dq & i & Hd & Hi & Ho). rewrite <- Hdq in Hd.
    exists dq, q, i, i. split_and!; try done. by left.
Qed.

(** ** The selected groups of a graph *)

Context (node_domain : nat → string).

Local Abbreviation table := (InitializeSelectorsMap CreateSelectors).

Lemma table_facts :
  table !! "DequantizeLinear" = None ∧ table !! "QuantizeLinear" = None ∧
  table !! "Relu" = Some ([], Unary) ∧ table !! "Clip" = Some ([], Clip) ∧
  table !! "Reshape" = Some ([], DropQDQ true).
Proof. vm_compute. by split_and!. Qed.
#[local] Opaque InitializeSelectorsMap CreateSelectors.

Definition registered (g : OrtNodeGroup) : Prop :=
  ∃ versions selector, table !! op (target_node g) = Some (versions, selector) ∧ selected (target_node g) selector g.

Lemma selections_spec nodes gs :
  GetOrtQDQSelections graph node_domain elem_type initializers is_constant_initializer nodes = Ok gs →
  Forall registered gs ∧ sublist (target_node <$> gs) nodes.
Proof.
  unfold GetOrtQDQSelections.
  apply (foldM_inv _ (fun done gs => Forall registered gs ∧ sublist (target_node <$> gs) done)).
  - split; [constructor|done].
  - intros ns n gs1 gs2 [Hr Hsub] Hstep.
    assert (gs2 = gs1 ∨ ∃ g, gs2 = gs1 ++ [g] ∧ registered g ∧ target_node g = n) as [->|(g & -> & Hg & <-)].
    { unfold registered. clear Hr. revert Hstep. generalize table. intros tab Hstep. unfold select_node in Hstep.
      destruct (negb (bool_decide _)); [injection Hstep; by left|].
      destruct (tab !! op n) as [[versions selector]|] eqn:Et; [|injection Hstep; by left].
      destruct (negb _ && _); [injection Hstep; by left|]. inv_bind Hstep.
      destruct a as [g|]; injection Hstep as <-; [right|by left]. apply select_spec in Hstep0.
      exists g. pose proof (sel_target _ _ _ Hstep0) as Ht. split_and!; try done. exists versions, selector.
      by rewrite Ht. }
    + split; [done|]. by apply sublist_inserts_r.
    + split; [apply Forall_app; split; [done|by constructor]|]. rewrite fmap_app. by apply sublist_app.
Qed.

(** ** Well-formed graphs *)

Definition earlier (nodes : list nat) (p n : nat) : Prop :=
  ∃ i j, nodes !! i = Some p ∧ nodes !! j = Some n ∧ i < j.

Lemma omap_none {A B} (f : A → option B) l : (∀ x, x ∈ l → f x = None) → omap f l = [].
Proof.
  induction l as [|a l IH]; intros H; [done|]. cbn. rewrite (H a) by left. apply IH. intros x Hx. apply H. by right.
Qed.

Definition no_producer (v : option ValueInfo) : Prop := v ≫= vi_producer = None.

(** What is assumed of the graph that ONNX Runtime hands over: the nodes come in topological
    order; consumers and producers agree; a DQ node has one consumer (the graph transformers
    duplicate shared ones); no node computes the scale or the zero point of a Q; a Relu has one
    input; no node computes the bounds of a Clip or the shape of a Reshape, except that they may be
    dequantized when the data is.  The code does not check the last assumption, and ONNX does not
    give it: [clip_folded_into_its_bound] and [computed_clip_bound_ignored] show what happens
    without it. *)
Record wf_ort_graph (nodes : list nat) : Prop := {
  og_NoDup : NoDup nodes;
  og_topological n i p : n ∈ nodes → Some i ∈ inputs (graph n) → vi_producer i = Some p → earlier nodes p n;
  og_consumed n o c : n ∈ nodes → Some o ∈ outputs (graph n) → Some c ∈ vi_consumers o →
    c ∈ nodes ∧ ∃ i, Some i ∈ inputs (graph c) ∧ vi_producer i = Some n;
  og_dq n m m' i i' : op n = "DequantizeLinear" → Some i ∈ inputs (graph m) → vi_producer i = Some n →
    Some i' ∈ inputs (graph m') → vi_producer i' = Some n → m = m';
  og_q n : op n = "QuantizeLinear" → ∃ x rest, inputs (graph n) = x :: rest ∧ Forall no_producer rest;
  og_relu n : op n = "Relu" → ∃ x, inputs (graph n) = [x];
  og_bounds n : op n = "Clip" ∨ op n = "Reshape" → ∃ x rest, inputs (graph n) = x :: rest ∧
    Forall (fun v => no_producer v ∨ dq_produced graph v = true ∧ dq_produced graph x = true) rest
}.

Section Units.
Context (nodes : list nat) (gs : list OrtNodeGroup).
Hypothesis Hwf : wf_ort_graph nodes.
Hypothesis Hgs : GetOrtQDQSelections graph node_domain elem_type initializers is_constant_initializer nodes = Ok gs.

Definition members (g : OrtNodeGroup) : list nat :=
  dq_nodes g ++ target_node g :: option_list (output_reshape_node g) ++ option_list (redundant_clip_node g) ++ q_nodes g.

(** The nodes that are taken in between the target and the Q nodes. *)
Definition inner (g : OrtNodeGroup) : list nat := option_list (output_reshape_node g) ++ option_list (redundant_clip_node g).

Lemma group_registered g : g ∈ gs → registered g.
Proof. intros Hg. apply selections_spec in Hgs as [Hr _]. rewrite Forall_forall in Hr. auto. Qed.

Lemma group_target g : g ∈ gs → target_node g ∈ nodes.
Proof.
  intros Hg. apply selections_spec in Hgs as [_ Hs]. eapply elem_of_sublist; [|exact Hs].
  by apply list_elem_of_fmap_2.
Qed.

Lemma group_unique g g' : g ∈ gs → g' ∈ gs → target_node g = target_node g' → g = g'.
Proof.
  intros Hg Hg' E. apply selections_spec in Hgs as [_ Hs].
  assert (NoDup (target_node <$> gs)) as Hnd by (eapply sublist_NoDup; [apply Hwf|exact Hs]).
  apply list_elem_of_lookup in Hg as [i Hi], Hg' as [j Hj].
  assert (i = j) as -> by (eapply NoDup_lookup; [exact Hnd|rewrite list_lookup_fmap, Hi; done|
    rewrite list_lookup_fmap, Hj; cbn; by f_equal]). congruence.
Qed.

Lemma target_not_dq g : g ∈ gs → op (target_node g) ≠ "DequantizeLinear" ∧ op (target_node g) ≠ "QuantizeLinear".
Proof.
  intros Hg. destruct (group_registered g Hg) as (versions & selector & Ht & _).
  destruct table_facts as (Hd & Hq & _). split; intros E; rewrite E in Ht; congruence.
Qed.

(** The node that feeds an inner node. *)
Lemma inner_prev g a : g ∈ gs → a ∈ inner g →
  ∃ p, succ_of p = Some a ∧ (is_activation (op a) = true ∨ op a = "Reshape") ∧
    (p = target_node g ∨ op p = "Reshape" ∧ output_reshape_node g = Some p ∧ succ_of (target_node g) = Some p).
Proof.
  intros Hg Ha. destruct (group_registered g Hg) as (versions & selector & _ & Hs).
  pose proof (sel_extends _ _ _ Hs) as Hext. unfold inner in Ha.
  inversion Hext as [E1 E2|a' q Ha' Hact Hsq Hop E1 E2|r q Hgm Hr Hor Hsq Hop E1 E2
    |r a' q Hgm Hr Hor Ha' Hact Hsq Hop E1 E2]; rewrite <- E1, <- E2 in Ha; cbn in Ha.
  - by apply not_elem_of_nil in Ha.
  - apply list_elem_of_singleton in Ha as ->. exists (target_node g). auto.
  - apply list_elem_of_singleton in Ha as ->. exists (target_node g). auto.
  - apply elem_of_cons in Ha as [->|Ha]; [exists (target_node g); auto|].
    apply list_elem_of_singleton in Ha as ->. exists r. auto 7.
Qed.

Lemma succ_edge p s : p ∈ nodes → succ_of p = Some s →
  s ∈ nodes ∧ ∃ i, Some i ∈ inputs (graph s) ∧ vi_producer i = Some p.
Proof.
  intros Hp (v & Ho & _ & Hc)%sole_successor_spec. eapply og_consumed; [done|done| |].
  - rewrite Ho. by apply list_elem_of_singleton.
  - rewrite Hc. by apply list_elem_of_singleton.
Qed.

Lemma foldable_cases s : is_activation s = true ∨ s = "Reshape" → s = "Relu" ∨ s = "Clip" ∨ s = "Reshape".
Proof.
  unfold is_activation. intros [[H|H]%orb_true_iff|H]; [| |by auto]; apply bool_decide_eq_true in H; auto.
Qed.

(** An activation or Reshape behind a node that is no DQ has that node as its only producer. *)
Lemma behind p a : op p ≠ "DequantizeLinear" → (is_activation (op a) = true ∨ op a = "Reshape") →
  (∃ i, Some i ∈ inputs (graph a) ∧ vi_producer i = Some p) →
  omap dq_producer (inputs (graph a)) = [] ∧ ∀ i n, Some i ∈ inputs (graph a) → vi_producer i = Some n → n = p.
Proof.
  intros Hp Hop (i & Hi & Hpr).
  assert (∃ x rest, inputs (graph a) = x :: rest ∧
    Forall (fun v => no_producer v ∨ dq_produced graph v = true ∧ dq_produced graph x = true) rest)
    as (x & rest & E & Hrest).
  { destruct (foldable_cases _ Hop) as [Ha|Ha]; [|by eapply og_bounds].
    destruct (og_relu _ Hwf a Ha) as [x E]. exists x, []. by split. }
  rewrite E in *. rewrite Forall_forall in Hrest.
  assert (dq_produced graph (Some i) = false) as Hnd.
  { cbn. rewrite Hpr. by apply bool_decide_eq_false. }
  assert (x = Some i ∧ Forall no_producer rest) as [-> Hnone].
  { apply elem_of_cons in Hi as [<-|Hi].
    - split; [done|]. apply Forall_forall. intros v Hv. destruct (Hrest v Hv) as [?|[_ ?]]; [done|congruence].
    - destruct (Hrest _ Hi) as [Hn|[? _]]; [unfold no_producer in Hn; cbn in Hn|]; congruence. }
  clear Hrest Hi. rewrite Forall_forall in Hnone. split.
  - apply omap_none. intros v Hv. unfold dq_producer. apply elem_of_cons in Hv as [->|Hv]; cbn.
    + rewrite Hpr. cbn. by rewrite bool_decide_false.
    + by rewrite (Hnone v Hv).
  - intros j n Hj Hn. apply elem_of_cons in Hj as [[= ->]|Hj]; [congruence|].
    specialize (Hnone _ Hj). unfold no_producer in Hnone. cbn in Hnone. congruence.
Qed.

Lemma no_dq_rejected selector node clip qs : selector = Unary ∨ selector = Clip ∨ selector = DropQDQ true →
  check selector node clip [] qs ≠ Ok true.
Proof. intros [->|[->| ->]]; [done|done|]. by destruct clip. Qed.

(** A node that a group takes in is not the target of another group. *)
Lemma behind_not_target p g : op p ≠ "DequantizeLinear" → g ∈ gs →
  (is_activation (op (target_node g)) = true ∨ op (target_node g) = "Reshape") →
  ¬ ∃ i, Some i ∈ inputs (graph (target_node g)) ∧ vi_producer i = Some p.
Proof.
  intros Hp Hg Hop Hi. destruct (behind p _ Hp Hop Hi) as [Hnil _].
  destruct (group_registered g Hg) as (versions & selector & Ht & Hs).
  pose proof (sel_check _ _ _ Hs) as Hck. rewrite (sel_dq _ _ _ Hs), Hnil in Hck.
  destruct table_facts as (_ & _ & Hr & Hc & Hrs).
  eapply no_dq_rejected; [|exact Hck].
  { destruct (foldable_cases _ Hop) as [E|[E|E]]; rewrite E in Ht.
    - rewrite Hr in Ht. injection Ht as _ <-. by left.
    - rewrite Hc in Ht. injection Ht as _ <-. by right; left.
    - rewrite Hrs in Ht. injection Ht as _ <-. by right; right. }
Qed.

Definition core (g : OrtNodeGroup) : list nat := target_node g :: inner g.

Lemma reshape_inner g p : output_reshape_node g = Some p → p ∈ inner g.
Proof. unfold inner. intros ->. by left. Qed.

Lemma earlier_elem p n : earlier nodes p n → p ∈ nodes ∧ n ∈ nodes.
Proof. intros (i & j & Hi & Hj & _). split; by eapply list_elem_of_lookup_2. Qed.

Lemma earlier_trans p n m : earlier nodes p n → earlier nodes n m → earlier nodes p m.
Proof.
  intros (i & j & Hi & Hj & ?) (k & l & Hk & Hl & ?). exists i, l.
  pose proof (NoDup_lookup _ _ _ _ (og_NoDup _ Hwf) Hj Hk). split_and!; [done|done|lia].
Qed.

Lemma succ_earlier p s : p ∈ nodes → succ_of p = Some s → earlier nodes p s.
Proof. intros Hp Hs. destruct (succ_edge p s Hp Hs) as (Hn & i & Hi & Hpr). by eapply og_topological. Qed.

(** An inner node is produced by a core node of its group, and by nothing else. *)
Lemma inner_produced g a : g ∈ gs → a ∈ inner g →
  ∃ p, p ∈ core g ∧ (p = target_node g ∨ p ∈ inner g ∧ op p = "Reshape" ∧ output_reshape_node g = Some p) ∧
    p ∈ nodes ∧ op p ≠ "DequantizeLinear" ∧ succ_of p = Some a ∧
    (is_activation (op a) = true ∨ op a = "Reshape") ∧ earlier nodes (target_node g) a.
Proof.
  intros Hg Ha. destruct (inner_prev g a Hg Ha) as (p & Hp & Hop & [->|(Hr & Ho & Hs)]).
  - exists (target_node g). pose proof (group_target g Hg). split_and!; try done; [left|by left|by apply target_not_dq|].
    by apply succ_earlier.
  - exists p. pose proof (reshape_inner g p Ho). destruct (succ_edge _ _ (group_target g Hg) Hs) as [Hn _].
    split_and!; try done; [by right|by right|congruence|].
    eapply earlier_trans; apply succ_earlier; try done. by apply group_target.
Qed.

Lemma inner_not_target g g' a : g ∈ gs → g' ∈ gs → a ∈ inner g → a ≠ target_node g'.
Proof.
  intros Hg Hg' Ha ->. destruct (inner_produced g _ Hg Ha) as (p & _ & _ & Hp & Hnd & Hs & Hop & _).
  eapply (behind_not_target p g'); eauto. by apply succ_edge.
Qed.

Lemma inner_unique g g' a : g ∈ gs → g' ∈ gs → a ∈ inner g → a ∈ inner g' → g = g'.
Proof.
  assert (∀ g g' a p p', g ∈ gs → g' ∈ gs → succ_of p = Some a → succ_of p' = Some a → p ∈ nodes → p' ∈ nodes →
    op p ≠ "DequantizeLinear" → (is_activation (op a) = true ∨ op a = "Reshape") → p' = p) as Hsame.
  { intros h h' b p p' Hh Hh' Hs Hs' Hp Hp' Hnd Hop. destruct (succ_edge p b Hp Hs) as [_ Hi].
    destruct (succ_edge p' b Hp' Hs') as (_ & i' & Hi' & Hpr'). by eapply (behind p b). }
  assert (∀ g g' p, g ∈ gs → g' ∈ gs → p = target_node g → p ∈ core g' → g = g') as Htarget.
  { intros h h' p Hh Hh' -> [E|Hin]%elem_of_cons; [by apply group_unique|].
    exfalso. by eapply (inner_not_target h' h). }
  intros Hg Hg' Ha Ha'.
  destruct (inner_produced g a Hg Ha) as (p & Hpc & Hp & Hpn & Hnd & Hs & Hop & _).
  destruct (inner_produced g' a Hg' Ha') as (p' & Hpc' & Hp' & Hpn' & Hnd' & Hs' & _).
  assert (p' = p) as -> by eauto.
  destruct Hp as [Hp|(Hpi & Hpr & Ho)]; [by eapply Htarget|].
  destruct Hp' as [Hp'|(Hpi' & _ & Ho')]; [symmetry; by eapply Htarget|].
  destruct (inner_produced g p Hg Hpi) as (t & Htc & Ht & Htn & Htd & Hts & Htop & _).
  destruct (inner_produced g' p Hg' Hpi') as (t' & Htc' & Ht' & Htn' & _ & Hts' & _).
  assert (t' = t) as -> by eauto.
  destruct Ht as [Ht|(_ & _ & Ht)]; [by eapply Htarget|].
  destruct Ht' as [Ht'|(_ & _ & Ht')]; [symmetry; by eapply Htarget|].
  assert (t = p) as -> by congruence.
  exfalso. destruct (succ_earlier p p Hpn Hts) as (i & j & Hi & Hj & ?).
  pose proof (NoDup_lookup _ _ _ _ (og_NoDup _ Hwf) Hi Hj). lia.
Qed.

Lemma core_unique g g' a : g ∈ gs → g' ∈ gs → a ∈ core g → a ∈ core g' → g = g'.
Proof.
  intros Hg Hg' [->|Ha]%elem_of_cons [E|Ha']%elem_of_cons.
  - by apply group_unique.
  - exfalso. by eapply (inner_not_target g' g).
  - subst a. exfalso. by eapply (inner_not_target g g').
  - by eapply inner_unique.
Qed.

Lemma anchor_core g : anchor g ∈ core g.
Proof.
  unfold anchor, core, inner. destruct (redundant_clip_node g) as [c|], (output_reshape_node g) as [r|]; cbn; set_solver.
Qed.

Lemma core_node g a : g ∈ gs → a ∈ core g →
  a ∈ nodes ∧ op a ≠ "DequantizeLinear" ∧ op a ≠ "QuantizeLinear" ∧ (a = target_node g ∨ earlier nodes (target_node g) a).
Proof.
  intros Hg [->|Ha]%elem_of_cons.
  - pose proof (target_not_dq g Hg) as [? ?]. split_and!; try done; [by apply group_target|by left].
  - destruct (inner_produced g a Hg Ha) as (p & _ & _ & _ & _ & _ & Hop & He).
    pose proof (earlier_elem _ _ He) as [_ ?]. pose proof (foldable_cases _ Hop) as Hc.
    split_and!; [done| | |by right]; by destruct Hc as [->|[->| ->]].
Qed.

(** A Q of a group is fed by the anchor only. *)
Lemma q_produced g q : g ∈ gs → q ∈ q_nodes g →
  op q = "QuantizeLinear" ∧ earlier nodes (anchor g) q ∧
  (∃ i, Some i ∈ inputs (graph q) ∧ vi_producer i = Some (anchor g)) ∧
  ∀ i n, Some i ∈ inputs (graph q) → vi_producer i = Some n → n = anchor g.
Proof.
  intros Hg Hq. destruct (group_registered g Hg) as (versions & selector & _ & Hs).
  rewrite (sel_q _ _ _ Hs), is_q_elem in Hq. destruct Hq as [Hc Hop].
  apply list_elem_of_join in Hc as (cs & Hc & Hcs). apply list_elem_of_fmap in Hcs as (v & -> & Hv%present_elem).
  destruct (core_node g _ Hg (anchor_core g)) as (Hn & _).
  destruct (og_consumed _ Hwf _ _ _ Hn Hv Hc) as (Hqn & i & Hi & Hpr).
  split; [done|]. split; [by eapply og_topological|]. split; [eauto|].
  destruct (og_q _ Hwf q Hop) as (x & rest & E & Hrest). rewrite Forall_forall in Hrest.
  assert (∀ j m, Some j ∈ inputs (graph q) → vi_producer j = Some m → x = Some j) as Hx.
  { intros j m Hj Hm. rewrite E in Hj. apply elem_of_cons in Hj as [->|Hj]; [done|].
    specialize (Hrest _ Hj). unfold no_producer in Hrest. cbn in Hrest. congruence. }
  intros j m Hj Hm. pose proof (Hx j m Hj Hm). pose proof (Hx i _ Hi Hpr). congruence.
Qed.

Lemma dq_elem g n : g ∈ gs → n ∈ dq_nodes g →
  op n = "DequantizeLinear" ∧ ∃ i, Some i ∈ inputs (graph (target_node g)) ∧ vi_producer i = Some n.
Proof.
  intros Hg Hn. destruct (group_registered g Hg) as (versions & selector & _ & Hs).
  rewrite (sel_dq _ _ _ Hs), list_elem_of_omap in Hn. destruct Hn as ([i|] & Hi & E); [|done].
  unfold dq_producer in E. cbn in E. destruct (vi_producer i) as [p|] eqn:Ep; [|done]. cbn in E.
  case_bool_decide; simplify_eq. eauto.
Qed.

Lemma members_cases g n : n ∈ members g → n ∈ dq_nodes g ∨ n ∈ core g ∨ n ∈ q_nodes g.
Proof. unfold members, core, inner. rewrite !elem_of_app, !elem_of_cons, !elem_of_app. tauto. Qed.

Lemma core_member g n : n ∈ core g → n ∈ members g.
Proof. unfold members, core, inner. rewrite !elem_of_app, !elem_of_cons, !elem_of_app. tauto. Qed.

(** The groups are disjoint. *)
Lemma member_unique g g' n : g ∈ gs → g' ∈ gs → n ∈ members g → n ∈ members g' → g = g'.
Proof.
  intros Hg Hg' [Hn|[Hn|Hn]]%members_cases [Hn'|[Hn'|Hn']]%members_cases.
  - destruct (dq_elem g n Hg Hn) as (Hop & i & Hi & Hp), (dq_elem g' n Hg' Hn') as (_ & i' & Hi' & Hp').
    apply group_unique; [done|done|]. by eapply (og_dq _ Hwf n).
  - destruct (dq_elem g n Hg Hn) as [? _], (core_node g' n Hg' Hn') as (_ & ? & _). done.
  - destruct (dq_elem g n Hg Hn) as [? _], (q_produced g' n Hg' Hn') as [? _]. congruence.
  - destruct (core_node g n Hg Hn) as (_ & ? & _), (dq_elem g' n Hg' Hn') as [? _]. done.
  - by eapply core_unique.
  - destruct (core_node g n Hg Hn) as (_ & _ & ? & _), (q_produced g' n Hg' Hn') as [? _]. done.
  - destruct (q_produced g n Hg Hn) as [? _], (dq_elem g' n Hg' Hn') as [? _]. congruence.
  - destruct (q_produced g n Hg Hn) as [? _], (core_node g' n Hg' Hn') as (_ & _ & ? & _). done.
  - destruct (q_produced g n Hg Hn) as (_ & _ & _ & Ha), (q_produced g' n Hg' Hn') as (_ & _ & (i & Hi & Hp) & _).
    eapply core_unique; [done|done|apply anchor_core|]. rewrite <- (Ha i _ Hi Hp). apply anchor_core.
Qed.

Lemma members_nodes g n : g ∈ gs → n ∈ members g → n ∈ nodes.
Proof.
  intros Hg [Hn|[Hn|Hn]]%members_cases.
  - destruct (dq_elem g n Hg Hn) as (_ & i & Hi & Hp).
    pose proof (og_topological _ Hwf _ _ _ (group_target g Hg) Hi Hp) as He. by apply earlier_elem in He as [? _].
  - by destruct (core_node g n Hg Hn).
  - destruct (q_produced g n Hg Hn) as (_ & He & _). by apply earlier_elem in He as [_ ?].
Qed.

(** ** The map of node units *)

Lemma add_to_map_lookup l u m n :
  add_node_unit_to_map l u m !! n = if decide (n ∈ l) then Some u else m !! n.
Proof.
  unfold add_node_unit_to_map. revert m. induction l as [|x l IH]; intros m; cbn; [done|].
  rewrite IH. destruct (decide (n ∈ l)); [by rewrite decide_True by (by right)|].
  destruct (decide (n = x)) as [->|].
  - rewrite lookup_insert_eq, decide_True by left. done.
  - rewrite lookup_insert_ne by done. rewrite decide_False; [done|]. by intros [?|?]%elem_of_cons.
Qed.

Lemma add_selection_lookup h m g n :
  (add_selection (h, m) g).2 !! n = if decide (n ∈ members g) then Some (OrtNodeUnit_of_group g) else m !! n.
Proof.
  unfold add_selection, members. cbn [snd].
  destruct (output_reshape_node g) as [r|], (redundant_clip_node g) as [c|]; cbn [option_list app];
    rewrite !add_to_map_lookup; repeat case_decide; try done; set_solver.
Qed.

Definition unit_of_group_spec (sel : list OrtNodeGroup) (m : gmap nat OrtNodeUnit) : Prop :=
  ∀ n u, m !! n = Some u ↔ ∃ g, g ∈ sel ∧ u = OrtNodeUnit_of_group g ∧ n ∈ members g.

Lemma selections_map : ∃ m, foldl add_selection ([], ∅) gs = (OrtNodeUnit_of_group <$> gs, m) ∧ unit_of_group_spec gs m.
Proof.
  enough (∀ pre post h m, gs = pre ++ post → unit_of_group_spec pre m →
    ∃ m', foldl add_selection (h, m) post = (h ++ (OrtNodeUnit_of_group <$> post), m') ∧ unit_of_group_spec gs m')
    as H by (apply (H [] gs [] ∅); [done|]; intros n u; rewrite lookup_empty; split; [done|set_solver]).
  intros pre post. revert pre. induction post as [|g post IH]; intros pre h m E Hm.
  - exists m. rewrite app_nil_r in *. by subst pre.
  - destruct (add_selection (h, m) g) as [h' m'] eqn:Ea. cbn [foldl]. rewrite Ea.
    assert (h' = h ++ [OrtNodeUnit_of_group g]) as -> by (unfold add_selection in Ea; by simplify_eq).
    destruct (IH (pre ++ [g]) (h ++ [OrtNodeUnit_of_group g]) m') as (m'' & Hf & Hm'').
    { by rewrite <- app_assoc. }
    { intros n u. pose proof (add_selection_lookup h m g n) as Hl. rewrite Ea in Hl. cbn in Hl. rewrite Hl.
      assert (∀ g', g' ∈ pre → g' ∈ gs) as Hpre by (intros; rewrite E; set_solver).
      assert (g ∈ gs) as Hg by (rewrite E; set_solver). case_decide as Hin.
      - split; [intros [= <-]; exists g; set_solver|]. intros (g' & Hg' & -> & Hn). do 2 f_equal.
        apply elem_of_app in Hg' as [Hg'|Hg'%list_elem_of_singleton]; [|done]. by eapply member_unique; eauto.
      - rewrite (Hm n u). split; intros (g' & Hg' & -> & Hn); exists g'; [set_solver|].
        apply elem_of_app in Hg' as [Hg'|Hg'%list_elem_of_singleton]; [done|by subst]. }
    exists m''. split; [|done]. rewrite Hf, <- app_assoc. done.
Qed.

Lemma filter_ext_elem {A} (P Q : A → Prop) `{!∀ x, Decision (P x), !∀ x, Decision (Q x)} (l : list A) :
  (∀ x, x ∈ l → P x ↔ Q x) → filter P l = filter Q l.
Proof.
  induction l as [|a l IH]; intros HPQ; [done|]. rewrite !filter_cons, IH by (intros; apply HPQ; by right).
  pose proof (HPQ a ltac:(left)). repeat case_decide; tauto.
Qed.

Lemma singles_map h m ns : NoDup ns →
  ∃ m', foldl add_single (h, m) ns = (h ++ (OrtNodeUnit_of_node <$> filter (fun n => m !! n = None) ns), m') ∧
    ∀ n, m' !! n = match m !! n with
                   | Some u => Some u
                   | None => if decide (n ∈ ns) then Some (OrtNodeUnit_of_node n) else None
                   end.
Proof.
  revert h m. induction ns as [|x ns IH]; intros h m Hnd.
  - exists m. cbn. rewrite app_nil_r. split; [done|]. intros n. by destruct (m !! n).
  - apply NoDup_cons in Hnd as [Hx Hnd]. cbn [foldl]. unfold add_single at 2.
    rewrite filter_cons. destruct (m !! x) as [u|] eqn:Ex.
    + rewrite decide_False by done. destruct (IH h m Hnd) as (m' & Hf & Hm'). exists m'. split; [done|].
      intros n. rewrite Hm'. destruct (m !! n) eqn:En; [done|]. apply decide_ext.
      rewrite elem_of_cons. split; [by right|intros [->|]; congruence].
    + rewrite decide_True by done.
      destruct (IH (h ++ [OrtNodeUnit_of_node x]) (<[x := OrtNodeUnit_of_node x]> m) Hnd) as (m' & Hf & Hm').
      exists m'. split.
      * rewrite Hf, <- app_assoc. f_equal. cbn. do 3 f_equal.
        apply filter_ext_elem. intros n Hn. rewrite lookup_insert_ne; [done|]. by intros ->.
      * intros n. rewrite Hm'. destruct (decide (n = x)) as [->|Hne].
        -- rewrite lookup_insert_eq, Ex, decide_True by left. done.
        -- rewrite lookup_insert_ne by done. destruct (m !! n); [done|]. apply decide_ext.
           rewrite elem_of_cons. naive_solver.
Qed.

(** ** The node units *)

Lemma filter_earlier (P : nat → Prop) `{!∀ x, Decision (P x)} (l : list nat) i j p n :
  l !! i = Some p → l !! j = Some n → i < j → P p → P n →
  ∃ i' j', filter P l !! i' = Some p ∧ filter P l !! j' = Some n ∧ i' < j'.
Proof.
  intros Hi Hj Hij Hp Hn. rewrite <- (take_drop (S i) l), filter_app.
  assert (p ∈ filter P (take (S i) l)) as [i' Hi']%list_elem_of_lookup.
  { apply list_elem_of_filter. split; [done|]. apply list_elem_of_lookup. exists i. rewrite lookup_take_lt by lia. done. }
  assert (n ∈ filter P (drop (S i) l)) as [j' Hj']%list_elem_of_lookup.
  { apply list_elem_of_filter. split; [done|]. apply list_elem_of_lookup. exists (j - S i). rewrite lookup_drop.
    by replace (S i + (j - S i)) with j by lia. }
  exists i', (length (filter P (take (S i) l)) + j'). split_and!.
  - by apply lookup_app_l_Some.
  - rewrite lookup_app_r by lia. by replace (_ + j' - _) with j' by lia.
  - apply lookup_lt_Some in Hi'. lia.
Qed.

Definition grouped (n : nat) : bool := existsb (fun g => bool_decide (n ∈ members g)) gs.

Lemma grouped_spec n : grouped n = true ↔ ∃ g, g ∈ gs ∧ n ∈ members g.
Proof.
  unfold grouped. rewrite existsb_exists. split; intros (g & Hg & Hn); exists g; rewrite <- list_elem_of_In in *;
    by rewrite bool_decide_eq_true in *.
Qed.

(** Every node is in the map, with the group that takes it in or as a single node. *)
Definition unit_map (m : gmap nat OrtNodeUnit) : Prop :=
  ∀ n u, m !! n = Some u ↔
    (∃ g, g ∈ gs ∧ n ∈ members g ∧ u = OrtNodeUnit_of_group g) ∨
    n ∈ nodes ∧ grouped n = false ∧ u = OrtNodeUnit_of_node n.

Lemma units_spec : ∃ m,
  GetAllOrtNodeUnits graph node_domain elem_type initializers is_constant_initializer nodes =
    Ok ((OrtNodeUnit_of_group <$> gs) ++ (OrtNodeUnit_of_node <$> filter (fun n => grouped n = false) nodes), m) ∧
  unit_map m.
Proof.
  destruct selections_map as (m0 & E0 & H0).
  destruct (singles_map (OrtNodeUnit_of_group <$> gs) m0 nodes (og_NoDup _ Hwf)) as (m & E & Hm).
  assert (∀ n, m0 !! n = None ↔ grouped n = false) as Hnone.
  { intros n. rewrite <- not_true_iff_false, grouped_spec, eq_None_not_Some. apply not_iff_compat.
    split; [intros [u (g & Hg & _ & Hn)%H0]; eauto|intros (g & Hg & Hn); eexists; apply H0; eauto]. }
  exists m. split.
  - unfold GetAllOrtNodeUnits. rewrite Hgs. cbn. rewrite E0, E. do 4 f_equal.
    apply filter_ext_elem. intros n _. apply Hnone.
  - intros n u. rewrite Hm. destruct (m0 !! n) as [u0|] eqn:En.
    + pose proof En as (g & Hg & -> & Hn)%H0. split.
      * intros [= <-]. left. eauto.
      * intros [(g' & Hg' & Hn' & ->)|(_ & Hgr%Hnone & _)]; [|congruence].
        by rewrite (member_unique g g' n).
    + pose proof En as Hgr%Hnone. split.
      * case_decide; intros; simplify_eq. auto.
      * intros [(g & Hg & Hn & _)|(Hn & _ & ->)]; [|by rewrite decide_True].
        assert (grouped n = true) by (apply grouped_spec; eauto). congruence.
Qed.

(** A value enters a group at its target or at one of its DQ nodes. *)
Lemma enters g x i n : g ∈ gs → x ∈ members g → Some i ∈ inputs (graph x) → vi_producer i = Some n →
  n ∈ members g ∨ x = target_node g ∨ earlier nodes x (target_node g).
Proof.
  intros Hg Hx Hi Hp. apply members_cases in Hx as [Hx|[[->|Hx]%elem_of_cons|Hx]].
  - right; right. destruct (dq_elem g x Hg Hx) as (_ & j & Hj & Hpj). eapply og_topological; eauto using group_target.
  - by right; left.
  - left. apply core_member. destruct (inner_produced g x Hg Hx) as (p & Hpc & _ & Hpn & Hnd & Hs & Hop & _).
    destruct (behind p x Hnd Hop) as [_ Hall]; [by apply succ_edge|]. by rewrite (Hall i n Hi Hp).
  - left. apply core_member. destruct (q_produced g x Hg Hx) as (_ & _ & _ & Hall). rewrite (Hall i n Hi Hp).
    apply anchor_core.
Qed.

(** A value leaves a group at its target or behind it, unless the group reads it. *)
Lemma leaves g n x i : g ∈ gs → n ∈ members g → Some i ∈ inputs (graph x) → vi_producer i = Some n →
  x ∈ members g ∨ n = target_node g ∨ earlier nodes (target_node g) n.
Proof.
  intros Hg Hn Hi Hp. apply members_cases in Hn as [Hn|[Hn|Hn]].
  - left. destruct (dq_elem g n Hg Hn) as (Hop & j & Hj & Hpj).
    rewrite (og_dq _ Hwf n x (target_node g) i j) by done. apply core_member. by left.
  - right. by destruct (core_node g n Hg Hn) as (_ & _ & _ & [|]); [left|right].
  - right; right. destruct (q_produced g n Hg Hn) as (_ & He & _).
    destruct (core_node g _ Hg (anchor_core g)) as (_ & _ & _ & [E|He']); [by rewrite <- E|by eapply earlier_trans].
Qed.

Lemma map_node m n u : unit_map m → m !! n = Some u → n ∈ nodes.
Proof. intros Hm [(g & Hg & Hn & _)|(Hn & _)]%Hm; [by eapply members_nodes|done]. Qed.

Lemma map_target m n u : unit_map m → m !! n = Some u → target_node_ u ∈ nodes ∧ m !! target_node_ u = Some u.
Proof.
  intros Hm [(g & Hg & Hn & ->)|(Hn & Hgr & ->)]%Hm; cbn.
  - split; [by apply group_target|]. apply Hm. left. exists g. split_and!; try done. apply core_member. by left.
  - split; [done|]. apply Hm. auto.
Qed.

Lemma map_enter m x u i n : unit_map m → m !! x = Some u → Some i ∈ inputs (graph x) → vi_producer i = Some n →
  m !! n = Some u ∨ x = target_node_ u ∨ earlier nodes x (target_node_ u).
Proof.
  intros Hm [(g & Hg & Hx & ->)|(Hn & Hgr & ->)]%Hm Hi Hp; [|by right; left].
  destruct (enters g x i n Hg Hx Hi Hp) as [Hn|?]; [left|by right]. apply Hm. eauto.
Qed.

Lemma map_leave m n u x i : unit_map m → m !! n = Some u → Some i ∈ inputs (graph x) → vi_producer i = Some n →
  m !! x = Some u ∨ n = target_node_ u ∨ earlier nodes (target_node_ u) n.
Proof.
  intros Hm [(g & Hg & Hn & ->)|(Hn & Hgr & ->)]%Hm Hi Hp; [|by right; left].
  destruct (leaves g n x i Hg Hn Hi Hp) as [Hx|?]; [left|by right]. apply Hm. eauto.
Qed.

Lemma units_before m p n up un : unit_map m → m !! p = Some up → m !! n = Some un →
  earlier nodes (target_node_ up) (target_node_ un) → before nodes m (target_node_ up) (target_node_ un).
Proof.
  intros Hm Hp Hn (i & j & Hi & Hj & Hij). unfold before, unit_order.
  assert (∀ x u, m !! x = Some u → is_target m (target_node_ u) = true) as Ht.
  { intros x u [_ Hu]%map_target; [|done]. unfold is_target. rewrite Hu. by apply Nat.eqb_refl. }
  eapply filter_earlier; eauto.
Qed.

Lemma unit_map_wf m : unit_map m → wf_units graph nodes m.
Proof.
  intros Hm. split.
  - apply Hwf.
  - intros n Hn. destruct (grouped n) eqn:Hgr.
    + apply grouped_spec in Hgr as (g & Hg & Hin). exists (OrtNodeUnit_of_group g). apply Hm. eauto.
    + exists (OrtNodeUnit_of_node n). apply Hm. auto.
  - intros n u. by apply map_target.
  - intros u v (Hne & n & x & un & um & i & Hn & <- & Hx & <- & Hi & Hp).
    pose proof (og_topological _ Hwf x i n (map_node m x um Hm Hx) Hi Hp) as He.
    eapply units_before; eauto.
    destruct (map_leave m n un x i Hm Hn Hi Hp) as [E|Hl]; [congruence|].
    destruct (map_enter m x um i n Hm Hx Hi Hp) as [E|Hr]; [congruence|].
    destruct Hl as [<-|Hl], Hr as [<-|Hr]; eauto using earlier_trans.
Qed.

End Units.

(** ** Selection never fails

    What the ONNX schema guarantees about the nodes that the selection looks into: a Q or DQ
    has its data and scale, and the initializers that are read as scalars hold one. *)

Definition holds_scalar (v : option ValueInfo) (size : ONNXTensorElementDataType → nat) : Prop :=
  ∀ w init, v = Some w → GetConstantInitializer initializers (vi_name w) = Some init →
    size (ov_type init) ≤ length (ov_bytes init).

Definition scale_size (t : ONNXTensorElementDataType) : nat := match t with ONNX_DOUBLE => 8 | _ => 4 end.
Definition zero_point_size (t : ONNXTensorElementDataType) : nat :=
  match t with ONNX_UINT8 | ONNX_INT8 => 1 | ONNX_UINT16 | ONNX_INT16 => 2 | _ => 0 end.

Definition comparison_ops : list string := ["Equal"; "Greater"; "GreaterOrEqual"; "Less"; "LessOrEqual"].
Definition counted_ops : list string :=
  ["Concat"; "Max"; "Min"; "Einsum"; "Reciprocal"; "InstanceNormalization"; "LayerNormalization"; "RMSNormalization";
   "SimplifiedLayerNormalization"].

Record wf_schema (nodes : list nat) : Prop := {
  sc_dq n : op n = "DequantizeLinear" → ∃ x s rest, inputs (graph n) = Some x :: Some s :: rest ∧
    holds_scalar (Some s) scale_size;
  sc_q n : op n = "QuantizeLinear" → ∃ x s rest y out, inputs (graph n) = Some x :: Some s :: rest ∧
    outputs (graph n) = Some y :: out ∧ holds_scalar (Some s) scale_size ∧
    (∀ z rest', rest = z :: rest' → z ≠ None ∧ holds_scalar z zero_point_size);
  sc_clip n : op n = "Clip" → ∃ x rest, inputs (graph n) = Some x :: rest ∧
    Forall (fun v => holds_scalar v (fun _ => 4)) rest;
  sc_consumers n o : n ∈ nodes → Some o ∈ outputs (graph n) → None ∉ vi_consumers o;
  sc_inputs n : op n ∈ counted_ops → inputs (graph n) ≠ [];
  sc_comparison n : op n ∈ comparison_ops → 2 ≤ length (inputs (graph n));
  sc_topk n : op n = "TopK" → None ∉ outputs (graph n)
}.

(** The selectors whose index expressions depend on the arity of the op. *)
Definition arity_checked (op : string) (selector : OrtNodeGroupSelector) : bool :=
  match selector with
  | Clip => bool_decide (op = "Clip")
  | TopK => bool_decide (op = "TopK")
  | LogicalComparison => bool_decide (op ∈ comparison_ops)
  | Variadic | Einsum | Reciprocal | InstanceAndLayerNormalization | RMSNormalization => bool_decide (op ∈ counted_ops)
  | _ => true
  end.

Lemma table_arity o versions selector : table !! o = Some (versions, selector) → arity_checked o selector = true.
Proof.
  assert (map_Forall (fun o vs => arity_checked o vs.2 = true) table) as H by (apply (bool_decide_unpack _); vm_compute; done).
  apply (H o (versions, selector)).
Qed.

Definition ok {A} (r : result A) : Prop := ∃ a, r = Ok a.

Lemma ok_Ok {A} (a : A) : ok (Ok a).
Proof. by exists a. Qed.

Lemma ok_bind {A B} (r : result A) (f : A → result B) : ok r → (∀ a, r = Ok a → ok (f a)) → ok (rbind r f).
Proof. intros [a ->] H. by apply H. Qed.

Create HintDb total.
#[local] Hint Resolve ok_Ok : total.

Ltac total :=
  repeat match goal with
  | |- ok (Ok _) => apply ok_Ok
  | |- ok (rbind _ _) => apply ok_bind; [|let E := fresh "E" in intros ? E]
  | |- ok (if ?b then _ else _) => let E := fresh "E" in destruct b eqn:E
  | |- ok (match ?x with _ => _ end) => let E := fresh "E" in destruct x eqn:E
  | |- ok _ => solve [eauto with total]
  end.

Section Total.
Context (nodes : list nat).
Hypothesis Hsc : wf_schema nodes.

Lemma type_in_ok n : op n = "DequantizeLinear" → ok (GetNodeInputDataType graph elem_type n 0).
Proof.
  intros (x & s & rest & E & _)%(sc_dq _ Hsc). unfold GetNodeInputDataType. rewrite E. apply ok_Ok.
Qed.

Lemma type_out_ok n : op n = "QuantizeLinear" → ok (GetNodeOutputDataType graph elem_type n 0).
Proof.
  intros (x & s & rest & y & out & _ & E & _)%(sc_q _ Hsc). unfold GetNodeOutputDataType. rewrite E. apply ok_Ok.
Qed.

Lemma read_scalar_ok size v : size ≤ length (ov_bytes v) → ok (read_scalar size v).
Proof. intros H. unfold read_scalar. rewrite (proj2 (Nat.leb_le _ _) H). apply ok_Ok. Qed.

Lemma float_ok v : 4 ≤ length (ov_bytes v) → ok (GetScalarValue_float v).
Proof. intros H. unfold GetScalarValue_float. apply ok_bind; [by apply read_scalar_ok|]. intros. apply ok_Ok. Qed.

Lemma scale_bytes s init : holds_scalar (Some s) scale_size → GetConstantInitializer initializers (vi_name s) = Some init →
  4 ≤ length (ov_bytes init) ∧ (ov_type init = ONNX_DOUBLE → 8 ≤ length (ov_bytes init)).
Proof.
  intros H Hi. specialize (H s init eq_refl Hi). unfold scale_size in H.
  split; [destruct (ov_type init); lia|]. intros E. by rewrite E in H.
Qed.

(** A scale as both kinds of node have it. *)
Lemma qdq_scale n : op n = "QuantizeLinear" ∨ op n = "DequantizeLinear" →
  ∃ x s rest, inputs (graph n) = Some x :: Some s :: rest ∧ holds_scalar (Some s) scale_size.
Proof.
  intros [(x & s & rest & y & out & E & _ & Hs & _)%(sc_q _ Hsc)|(x & s & rest & E & Hs)%(sc_dq _ Hsc)]; eauto 6.
Qed.

Lemma positive_ok n : op n = "QuantizeLinear" ∨ op n = "DequantizeLinear" →
  ok (IsQOrDQScalePositiveConstantScalar graph initializers n).
Proof.
  intros (x & s & rest & E & Hs)%qdq_scale. unfold IsQOrDQScalePositiveConstantScalar. rewrite E. cbn.
  destruct (GetConstantInitializer _ _) as [init|] eqn:Hi; [|apply ok_Ok].
  destruct (scale_bytes s init Hs Hi) as [H4 H8].
  total; eauto using float_ok, read_scalar_ok.
Qed.

Lemma pair_ok q dq : op q = "QuantizeLinear" → op dq = "DequantizeLinear" → ok (IsQDQPairSupported graph initializers q dq).
Proof.
  intros Hq Hd. destruct (qdq_scale q (or_introl Hq)) as (x & s & rest & E & Hs).
  destruct (qdq_scale dq (or_intror Hd)) as (x' & s' & rest' & E' & Hs').
  unfold IsQDQPairSupported. rewrite E, E'. cbn. case_match; [apply ok_Ok|].
  destruct (GetConstantInitializer _ (vi_name s)) as [init|] eqn:Hi; [|apply ok_Ok].
  destruct (GetConstantInitializer _ (vi_name s')) as [init'|] eqn:Hi'; [|apply ok_Ok].
  destruct (scale_bytes s init Hs Hi) as [H4 H8], (scale_bytes s' init' Hs' Hi') as [H4' H8'].
  destruct (bool_decide_reflect (ov_type init = ov_type init')) as [Et|]; [|apply ok_Ok]. rewrite <- Et in H8'.
  total; eauto using float_ok, read_scalar_ok.
Qed.

Lemma clip_bound_ok v d : holds_scalar v (fun _ => 4) → ok (clip_bound initializers v d).
Proof. intros H. unfold clip_bound. total. apply float_ok. by eapply H. Qed.

Lemma encoding_safe_ok a o q : op a = o → op q = "QuantizeLinear" →
  ok (IsActivationEncodingSafe graph initializers a o q).
Proof.
  intros Ho Hq. unfold IsActivationEncodingSafe, GetQNodeScaleAndZeroPoint.
  destruct (sc_q _ Hsc q Hq) as (x & s & rest & y & out & E & _ & Hs & Hz). rewrite E.
  apply ok_bind.
  - destruct rest as [|z rest]; [apply ok_Ok|]. destruct (Hz _ _ eq_refl) as [Hnn Hzs].
    destruct z as [z|]; [|done]. cbn.
    destruct (GetConstantInitializer _ (vi_name s)) as [init|] eqn:Hi; [|apply ok_Ok].
    destruct (scale_bytes s init Hs Hi) as [H4 _]. apply ok_bind; [by apply float_ok|]. intros f _.
    destruct (GetConstantInitializer _ (vi_name z)) as [zi|] eqn:Hzi; cbn; [|apply ok_Ok].
    specialize (Hzs z zi eq_refl Hzi). apply ok_bind; [|intros; apply ok_Ok].
    unfold GetZeroPointValue. destruct (ov_type zi); total; by apply read_scalar_ok.
  - intros enc _. total.
    match goal with H : bool_decide _ = true |- _ => apply bool_decide_eq_true in H as Hclip end. subst o.
    destruct (sc_clip _ Hsc a Hclip) as (c & crest & Ec & Hbounds). unfold GetClipMinMax. rewrite Ec.
    destruct (float_attribute _ "min"), (float_attribute _ "max"); try apply ok_Ok.
    destruct crest as [|mn crest]; [apply ok_Ok|]. apply Forall_cons in Hbounds as [Hmn Hrest].
    apply ok_bind; [by apply clip_bound_ok|]. intros. apply ok_bind; [|intros; apply ok_Ok].
    apply clip_bound_ok. destruct crest as [|mx crest]; [by intros ? ? [=]|].
    apply Forall_cons in Hrest as [Hmx _]. by cbn.
Qed.

Lemma fold_ok n : ok (TryFoldRedundantActivation graph initializers n).
Proof.
  unfold TryFoldRedundantActivation. total. apply encoding_safe_ok; [done|]. by apply negb_false_iff, bool_decide_eq_true in E2.
Qed.

Lemma block_ok v : ok (IsGemmWeightBlockQuantized graph elem_type v).
Proof.
  unfold IsGemmWeightBlockQuantized. destruct (vi_producer v) as [dq|]; [|apply ok_Ok].
  destruct (bool_decide_reflect (op dq = "DequantizeLinear")) as [Hd|]; [|apply ok_Ok]. cbn.
  destruct (sc_dq _ Hsc dq Hd) as (x & s & rest & E & _). rewrite E. apply ok_Ok.
Qed.

Lemma shape_ok v : ok (GetValueInfoShape elem_type (Some v)).
Proof. apply ok_Ok. Qed.
#[local] Hint Resolve shape_ok block_ok : total.

Lemma gemm_safe_ok n : ok (IsGemmSafeForAbsorbedReshape graph elem_type initializers is_constant_initializer n).
Proof. unfold IsGemmSafeForAbsorbedReshape. total. Qed.
#[local] Hint Resolve gemm_safe_ok : total.

Lemma absorb_ok n : ok (TryAbsorbTrailingReshape graph elem_type initializers is_constant_initializer n).
Proof.
  unfold TryAbsorbTrailingReshape. total. apply encoding_safe_ok; [done|].
  match goal with H : negb (bool_decide (op ?q = "QuantizeLinear")) = false |- op ?q = _ =>
    by apply negb_false_iff, bool_decide_eq_true in H end.
Qed.

Lemma count_ok qs l n : None ∉ l → ok (foldM (count_absorbed qs) l n).
Proof.
  revert n. induction l as [|v l IH]; intros n Hl; cbn; [apply ok_Ok|].
  apply not_elem_of_cons in Hl as [Hv Hl]. destruct v as [v|]; [|done].
  apply ok_bind; [|intros; by apply IH]. unfold count_absorbed. cbn. total.
Qed.

Section Checks.
Context (node : nat) (clip : option nat) (dqs qs : list nat).
Hypothesis Hdqs : ∀ n, n ∈ dqs → op n = "DequantizeLinear".
Hypothesis Hqs : ∀ n, n ∈ qs → op n = "QuantizeLinear".

Lemma aget_ok {A} (l : list A) i : i < length l → ok (aget l i).
Proof. intros (x & E & _)%aget_lt. by exists x. Qed.

Lemma dq_type_ok i : i < length dqs → ok (dq_type graph elem_type dqs i).
Proof.
  intros Hi. unfold dq_type. apply ok_bind; [by apply aget_ok|]. intros n Hn%aget_Ok%list_elem_of_lookup_2.
  apply type_in_ok. auto.
Qed.

Lemma q_type_ok i : i < length qs → ok (q_type graph elem_type qs i).
Proof.
  intros Hi. unfold q_type. apply ok_bind; [by apply aget_ok|]. intros n Hn%aget_Ok%list_elem_of_lookup_2.
  apply type_out_ok. auto.
Qed.

Lemma all_types_ok get p ns : (∀ n, n ∈ ns → ok (get n)) → ok (all_types get p ns).
Proof.
  induction ns as [|n ns IH]; intros H; cbn; [apply ok_Ok|]. apply ok_bind; [apply H; by left|]. intros t _.
  total. apply IH. intros m Hm. apply H. by right.
Qed.

Lemma split_ok req i dq l : op dq = "DequantizeLinear" → (∀ n, n ∈ l → op n = "QuantizeLinear") →
  ok (split_outputs graph elem_type initializers req i dq l).
Proof.
  intros Hd. induction l as [|q l IH]; intros Hl; cbn; [apply ok_Ok|].
  apply ok_bind; [apply type_out_ok, Hl; by left|]. intros t _. total; [apply pair_ok; [apply Hl; by left|done]|].
  apply IH. intros n Hn. apply Hl. by right.
Qed.

Lemma weight_only_ok : ok (IsPerChannelConstantWeightOnlyGroup graph elem_type initializers node dqs qs).
Proof.
  unfold IsPerChannelConstantWeightOnlyGroup. destruct dqs as [|dq [|]]; try apply ok_Ok.
  destruct qs; try apply ok_Ok. destruct (inputs (graph node)) as [|? [|[w|] ?]]; try apply ok_Ok.
  destruct (sc_dq _ Hsc dq (Hdqs dq ltac:(left))) as (x & s & rest & E & _). rewrite E.
  total; apply ok_Ok.
Qed.

(** Counts from a passed [CheckQDQNodes]. *)
Lemma checked_counts n b : negb (CheckQDQNodes graph node dqs qs n b) = false →
  Z.of_nat (length dqs) = (if (n =? -1)%Z then Z.of_nat (length (inputs (graph node))) else n) ∧
  (b = false → 0 < length qs).
Proof.
  intros [? [[-> ->]|[Hq _]]]%negb_false_iff%CheckQDQNodes_spec; [by split|]. split; [done|].
  intros _. destruct qs; [done|cbn; lia].
Qed.

Lemma q_pair_ok i o : 0 < length qs →
  ok (let* q_node := aget qs 0 in IsSupportedActivationOutputTypePair graph initializers i o q_node).
Proof.
  intros Hl. apply ok_bind; [by apply aget_ok|]. intros q Hq%aget_Ok%list_elem_of_lookup_2.
  unfold IsSupportedActivationOutputTypePair. total. apply positive_ok. auto.
Qed.

Lemma activation_pair_ok i o q : op q = "QuantizeLinear" → ok (IsSupportedActivationOutputTypePair graph initializers i o q).
Proof. intros Hq. unfold IsSupportedActivationOutputTypePair. total. apply positive_ok. auto. Qed.

Lemma to_output_ok i o dq : op dq = "DequantizeLinear" → ok (IsConvertActivationToOutputGroup graph initializers i o dq).
Proof. intros Hd. unfold IsConvertActivationToOutputGroup. total. apply positive_ok. auto. Qed.

Lemma aget_dq i n : aget dqs i = Ok n → op n = "DequantizeLinear".
Proof. intros Hn%aget_Ok%list_elem_of_lookup_2. auto. Qed.
Lemma aget_q i n : aget qs i = Ok n → op n = "QuantizeLinear".
Proof. intros Hn%aget_Ok%list_elem_of_lookup_2. auto. Qed.

Lemma all_in_ok p : ok (all_types (fun n => GetNodeInputDataType graph elem_type n 0) p dqs).
Proof. apply all_types_ok. intros n Hn. apply type_in_ok. auto. Qed.
Lemma all_in_tail_ok p : ok (all_types (fun n => GetNodeInputDataType graph elem_type n 0) p (tail dqs)).
Proof. apply all_types_ok. intros n Hn. apply type_in_ok, Hdqs. destruct dqs; [done|by right]. Qed.
Lemma all_out_ok p : ok (all_types (fun n => GetNodeOutputDataType graph elem_type n 0) p qs).
Proof. apply all_types_ok. intros n Hn. apply type_out_ok. auto. Qed.
Lemma all_out_tail_ok p : ok (all_types (fun n => GetNodeOutputDataType graph elem_type n 0) p (tail qs)).
Proof. apply all_types_ok. intros n Hn. apply type_out_ok, Hqs. destruct qs; [done|by right]. Qed.
#[local] Hint Resolve all_in_ok all_in_tail_ok all_out_ok all_out_tail_ok activation_pair_ok to_output_ok pair_ok
  weight_only_ok aget_dq aget_q type_in_ok type_out_ok split_ok : total.
#[local] Hint Extern 4 (ok (IsQOrDQScalePositiveConstantScalar _ _ _)) => apply positive_ok : total.

Ltac counts :=
  repeat match goal with
  | H : negb (CheckQDQNodes _ _ _ _ _ _) = false |- _ => 
      let Hc := fresh "Hc" in let Hq := fresh "Hq" in
      apply checked_counts in H as [Hc Hq]; cbn in Hc; try specialize (Hq eq_refl)
  end; lia.
#[local] Hint Extern 1 (ok (dq_type _ _ _ _)) => apply dq_type_ok; counts : total.
#[local] Hint Extern 1 (ok (q_type _ _ _ _)) => apply q_type_ok; counts : total.
#[local] Hint Extern 1 (ok (aget _ _)) => apply aget_ok; counts : total.

Lemma counted_inputs n : op n ∈ counted_ops → 1 ≤ length (inputs (graph n)).
Proof. intros H%(sc_inputs _ Hsc). destruct (inputs (graph n)); [done|cbn; lia]. Qed.

Lemma check_ok selector : arity_checked (op node) selector = true → ok (check selector node clip dqs qs).
Proof.
  intros Har. destruct selector; cbn in Har |- *;
    try (apply bool_decide_eq_true in Har; first [apply counted_inputs in Har|apply (sc_comparison _ Hsc) in Har]);
    unfold_checks; total.
  - unfold OrtDropDQ_Check. destruct clip; [apply ok_Ok|]. destruct dqs as [|dq [|]]; try apply ok_Ok.
    total. apply type_in_ok, Hdqs. by left.
  - apply bool_decide_eq_true in Har. destruct (sc_clip _ Hsc node Har) as (x & rest & E' & _). rewrite E'. apply ok_Ok.
  - apply bool_decide_eq_true in Har. destruct (sc_clip _ Hsc node Har) as (x & rest & E' & _).
    rewrite E' in E2. injection E2 as <-. apply ok_Ok.
  - destruct o; [apply ok_Ok|done].
  - apply bool_decide_eq_true in Har. unfold CanCreateNodeGroup. total. apply count_ok. by apply (sc_topk _ Hsc).
  - unfold IsOutputDataTypeMatchingFirstInput. total. apply type_in_ok. by apply negb_false_iff, bool_decide_eq_true in E3.
Qed.
End Checks.

Lemma extends_nodes n clip reshape : wf_ort_graph nodes → n ∈ nodes → extends n clip reshape →
  (∀ c, clip = Some c → c ∈ nodes) ∧ (∀ r, reshape = Some r → r ∈ nodes).
Proof.
  intros Hwf Hn Hext. assert (∀ p s, p ∈ nodes → succ_of p = Some s → s ∈ nodes) as Hs
    by (intros p s Hp Hs; by destruct (succ_edge nodes Hwf p s Hp Hs)).
  inversion Hext; split; intros; simplify_eq; eauto.
Qed.

Lemma collect_q_ok cs acc : None ∉ cs → ok (foldM (collect_q graph) cs acc).
Proof.
  revert acc. induction cs as [|c cs IH]; intros acc Hc; cbn; [apply ok_Ok|].
  apply not_elem_of_cons in Hc as [? ?]. destruct c; [|done]. cbn. by apply IH.
Qed.

Lemma selection_ok node versions selector : wf_ort_graph nodes → node ∈ nodes →
  table !! op node = Some (versions, selector) → ok (select node selector).
Proof.
  intros Hwf Hn Har%table_arity. unfold GetOrtQDQSelection. rewrite collect_dq_spec. cbn [app].
  apply ok_bind; [total; apply fold_ok|]. intros clip0 E0.
  apply ok_bind; [total; apply absorb_ok|]. intros [reshape clip] E1.
  destruct (extends_nodes node clip reshape Hwf Hn) as [Hc Hr]; [by eapply extension_spec|].
  match goal with |- context [present graph ?a] => set (an := a) end.
  assert (an ∈ nodes) as Han by (subst an; destruct clip, reshape; auto).
  apply ok_bind.
  - apply collect_q_ok. intros (cs & Hcs & Hcl)%list_elem_of_join. apply list_elem_of_fmap in Hcl as (v & -> & Hv).
    apply present_elem in Hv. by eapply (sc_consumers _ Hsc an v).
  - intros qs [_ ->]%collect_q_spec. apply ok_bind; [|intros; apply ok_Ok]. apply check_ok; [| |done].
    + apply dq_producer_dq.
    + cbn. by intros n [_ ?]%is_q_elem.
Qed.

Lemma selections_ok : wf_ort_graph nodes →
  ok (GetOrtQDQSelections graph node_domain elem_type initializers is_constant_initializer nodes).
Proof.
  intros Hwf. unfold GetOrtQDQSelections.
  destruct (foldM_total (select_node graph node_domain elem_type initializers is_constant_initializer table)
    (fun _ _ => True) nodes []) as (gs & E & _); [done| |by exists gs].
  intros pre n post acc E _.
  assert (n ∈ nodes) as Hn by (rewrite E; set_solver).
  pose proof (fun versions selector => selection_ok n versions selector Hwf Hn) as Hsel.
  revert Hsel. generalize table. intros tab Hsel. unfold select_node.
  destruct (negb (bool_decide _)); [eauto|]. destruct (tab !! op n) as [[versions selector]|]; [|eauto].
  destruct (_ && _); [eauto|]. destruct (Hsel versions selector eq_refl) as [sel ->]. cbn. eauto.
Qed.

End Total.

(** ** Holder and map *)

Lemma all_nodes_group g : GetAllNodesInGroup (OrtNodeUnit_of_group g) = members g.
Proof. done. Qed.

Section Holder.
Context (nodes : list nat) (gs : list OrtNodeGroup).
Hypothesis Hwf : wf_ort_graph nodes.
Hypothesis Hgs : GetOrtQDQSelections graph node_domain elem_type initializers is_constant_initializer nodes = Ok gs.

Definition holder : list OrtNodeUnit :=
  (OrtNodeUnit_of_group <$> gs) ++ (OrtNodeUnit_of_node <$> filter (fun n => grouped gs n = false) nodes).

Lemma holder_map m n u : unit_map nodes gs m → m !! n = Some u ↔ u ∈ holder ∧ n ∈ GetAllNodesInGroup u.
Proof.
  intros Hm. rewrite (Hm n u). unfold holder. rewrite elem_of_app, !list_elem_of_fmap. split.
  - intros [(g & Hg & Hn & ->)|(Hn & Hgr & ->)]; [by split; [left; eauto|]|].
    split; [right; exists n; split; [done|]; by apply list_elem_of_filter|by left].
  - intros [[(g & -> & Hg)|(x & -> & [Hgr Hx]%list_elem_of_filter)] Hn]; [left; eauto|right].
    cbn in Hn. apply list_elem_of_singleton in Hn as ->. done.
Qed.

Lemma holder_targets m : unit_map nodes gs m → target_node_ <$> holder ≡ₚ unit_order nodes m.
Proof.
  intros Hm. pose proof (unit_map_wf nodes gs Hwf Hgs m Hm) as Hu.
  assert (∀ g, g ∈ gs → grouped gs (target_node g) = true) as Hgr.
  { intros g Hg. apply grouped_spec. exists g. split; [done|]. apply core_member. by left. }
  apply NoDup_Permutation.
  - unfold holder. rewrite fmap_app, <- !list_fmap_compose. apply NoDup_app. split_and!.
    + eapply sublist_NoDup; [apply (og_NoDup _ Hwf)|]. by apply selections_spec in Hgs as [_ ?].
    + intros n (g & -> & Hg)%list_elem_of_fmap (x & Hx & [Hf _]%list_elem_of_filter)%list_elem_of_fmap.
      cbn in Hx. subst x. cbn in Hf. rewrite Hgr in Hf; done.
    + apply NoDup_fmap; [intros ?? [=]; done|]. apply NoDup_filter, Hwf.
  - eapply order_NoDup. exact Hu.
  - intros n. rewrite elem_of_order by done. split.
    + intros (u & -> & Hin)%list_elem_of_fmap.
      assert (m !! target_node_ u = Some u) as E.
      { apply (holder_map m _ u Hm). split; [done|]. unfold GetAllNodesInGroup. set_solver. }
      split; [by eapply map_node|]. eauto.
    + intros (Hn & u & E & <-). apply (holder_map m _ u Hm) in E as [? _]. by apply list_elem_of_fmap_2.
Qed.

End Holder.

(** A unit that is no QDQ group is the one node. *)
Definition single_units (m : gmap nat OrtNodeUnit) : Prop :=
  ∀ n u, m !! n = Some u → type_ u = SingleNode → n = target_node_ u.

Lemma unit_map_single nodes gs m : unit_map nodes gs m → single_units m.
Proof. by intros Hm n u [(g & _ & _ & ->)|(_ & _ & ->)]%Hm. Qed.

(** ** Properties *)

(** C3: Interior tensors of a QDQ group die with it: a tensor behind the target, the absorbed
    Reshape or the folded activation that the group reads is no graph output and has no reader
    outside the group.  The selectors for ops without quantized output check nothing. *)
Theorem interior_tensors_stay_inside node selector g :
  select node selector = Ok (Some g) → selector ≠ DropDQ →
  ∀ n v, n ∈ interior_nodes g → Some v ∈ outputs (graph n) →
    (∃ c, Some c ∈ vi_consumers v ∧ c ∈ absorbers g) →
    vi_graph_output v = false ∧ ∀ c, c ∈ vi_consumers v → ∃ n', c = Some n' ∧ n' ∈ absorbers g.
Proof. intros H%select_spec Hne n v Hn Hv Hc. by eapply interior_closed. Qed.

(** C28: The element types of an accepted group fit one QNN op: the type that the first DQ
    reads and the type that the first Q writes are known, and they are equal or both are
    4-, 8- or 16-bit fixed-point types, which a Convert takes into each other.  Groups of
    comparison ops have no quantized output. *)
Theorem selected_types_bridgeable node selector g :
  select node selector = Ok (Some g) → selector ≠ DropDQ → selector ≠ LogicalComparison → q_nodes g ≠ [] →
  ∃ dq q i o, head (dq_nodes g) = Some dq ∧ head (q_nodes g) = Some q ∧
    GetNodeInputDataType graph elem_type dq 0 = Ok (Some i) ∧
    GetNodeOutputDataType graph elem_type q 0 = Ok (Some o) ∧ bridgeable i o.
Proof.
  intros H%select_spec H1 H2 Hq. eapply check_types; [apply H|apply H|done|done|done].
Qed.


(** C5: From the graph to the QNN node groups: for a graph that conforms to the ONNX schema and
    satisfies [wf_ort_graph] (no node computes the bounds of a Clip, the shape of a Reshape or the
    encoding of a Q, one consumer for each DQ), and with fusion functions that keep the contract
    [Fusion] on all well-formed units of the graph, [GetAllOrtNodeUnits] and then [GetQnnNodeGroups]
    succeed, and the groups hold each of the units found exactly once. *)
Theorem units_to_groups {M} nodes (affinity : Affinity.OpAffinityMap) backend
  (fusions : gmap nat OrtNodeUnit → gmap string (list (@FusionFunc M))) (s : M) :
  wf_ort_graph nodes → wf_schema nodes →
  (∀ m op fs f, wf_units graph nodes m → single_units m → fusions m !! op = Some fs → f ∈ fs →
     Fusion graph nodes m f) →
  ∃ holder m s' groups,
    GetAllOrtNodeUnits graph node_domain elem_type initializers is_constant_initializer nodes = Ok (holder, m) ∧
    GetQnnNodeGroups graph nodes m affinity backend (fusions m) s = Ok (s', Some <$> groups) ∧
    mjoin (GetNodeUnits <$> groups) ≡ₚ target_node_ <$> holder.
Proof.
  intros Hwf Hsc Hf. destruct (selections_ok nodes Hsc Hwf) as [gs Hgs].
  destruct (units_spec nodes gs Hwf Hgs) as (m & E & Hm).
  pose proof (unit_map_wf nodes gs Hwf Hgs m Hm) as Hu. pose proof (unit_map_single nodes gs m Hm) as Hsg.
  destruct (groups_run graph nodes m affinity backend (fusions m) Hu (fun op fs f => Hf m op fs f Hu Hsg) s)
    as (st & Hst & Hrun).
  eexists (holder nodes gs), m, _, _. split; [done|]. split; [exact Hrun|].
  rewrite holder_targets by done. eapply emitted_units; [exact Hu|intros op fs f; exact (Hf m op fs f Hu Hsg)|exact Hst].
Qed.

End SelectionFacts.

(** ** A graph: DQ, DQ -> MatMul -> Relu -> Q -> Identity *)
Module QdqExample.

Definition value (name : string) (producer : option nat) (consumers : list nat) : option ValueInfo :=
  Some (Value name (Some []) producer (Some <$> consumers) false).

Definition node (op : string) (ins outs : list (option ValueInfo)) : OrtNode :=
  Node op 13 ins outs (fun _ => None) (fun _ => None) (fun _ => None).

Definition dq_out (i : nat) : option ValueInfo := value (if i =? 0 then "a_f" else "b_f") (Some i) [2].
Definition y : option ValueInfo := value "y" (Some 2) [3].
Definition r : option ValueInfo := value "r" (Some 3) [4].
Definition q : option ValueInfo := value "q" (Some 4) [5].

Definition graph (n : nat) : OrtNode :=
  match n with
  | 0 => node "DequantizeLinear" [value "a" None [0]; value "s" None [0; 1; 4]; value "z" None [0; 1; 4]] [dq_out 0]
  | 1 => node "DequantizeLinear" [value "b" None [1]; value "s" None [0; 1; 4]; value "z" None [0; 1; 4]] [dq_out 1]
  | 2 => node "MatMul" [dq_out 0; dq_out 1] [y]
  | 3 => node "Relu" [y] [r]
  | 4 => node "QuantizeLinear" [r; value "s" None [0; 1; 4]; value "z" None [0; 1; 4]] [q]
  | 5 => node "Identity" [q] [value "out" (Some 5) []]
  | _ => node "" [] []
  end.

Definition elem_type (name : string) : option ONNXTensorElementDataType := Some ONNX_UINT8.

(** Scale 1.0 and zero point 0. *)
Definition initializers : list (string * OrtValue) :=
  [("s", Tensor ONNX_FLOAT [] [0; 0; 128; 63]%Z); ("z", Tensor ONNX_UINT8 [] [0%Z])].

Definition group : OrtNodeGroup := QdqGroup [0; 1] [4] 2 (Some 3) None.

Lemma selects : GetOrtQDQSelection graph elem_type initializers (fun _ => true) 2 MatMul = Ok (Some group).
Proof. vm_compute. reflexivity. Qed.

Ltac inv_elem H :=
  repeat match type of H with
  | _ ∈ [] => by apply not_elem_of_nil in H
  | _ ∈ _ :: _ => apply elem_of_cons in H as [H|H]
  end.

Ltac cases n := destruct n as [|[|[|[|[|[|?]]]]]]; cbn in *.

Definition nodes : list nat := [0; 1; 2; 3; 4; 5].

Lemma producer_spec n i p : Some i ∈ inputs (graph n) → vi_producer i = Some p →
  (p, n) ∈ [(0, 2); (1, 2); (2, 3); (3, 4); (4, 5)].
Proof. intros Hi Hp. cases n; inv_elem Hi; injection Hi as ->; cbn in Hp; simplify_eq; set_solver. Qed.

Lemma graph_wf : wf_ort_graph graph nodes.
Proof.
  split.
  - unfold nodes. repeat constructor; set_solver.
  - intros n i p _ Hi Hp. pose proof (producer_spec n i p Hi Hp) as Hin. unfold earlier. exists p, n.
    inv_elem Hin; simplify_eq; split_and!; try done; lia.
  - intros n o c _ Ho Hc. cases n; inv_elem Ho; injection Ho as ->; cbn in Hc; inv_elem Hc; injection Hc as ->;
      (split; [unfold nodes; set_solver|]); cbn;
      first [eexists; split; [left|reflexivity]|eexists; split; [right; left|reflexivity]].
  - intros n m m' i i' _ Hi Hp Hi' Hp'. pose proof (producer_spec _ _ _ Hi Hp) as H.
    pose proof (producer_spec _ _ _ Hi' Hp') as H'. inv_elem H; inv_elem H'; congruence.
  - intros n Hop. cases n; try done. eexists _, _. split; [done|]. by repeat constructor.
  - intros n Hop. cases n; try done. by eexists.
  - intros n Hop. cases n; by destruct Hop.
Qed.

Lemma graph_schema : wf_schema graph initializers nodes.
Proof.
  assert (holds_scalar initializers (value "s" None [0; 1; 4]) scale_size) as Hs.
  { intros w init [= <-] E. cbn in E. injection E as <-. cbn. lia. }
  split.
  - intros n Hop. cases n; try done; eexists _, _, _; by split.
  - intros n Hop. cases n; try done. eexists _, _, _, _, _. split_and!; try done.
    intros z rest [= <- _]. split; [done|]. intros w init [= <-] E. cbn in E. injection E as <-. cbn. lia.
  - intros n Hop. by cases n.
  - intros n o _ Ho. cases n; inv_elem Ho; injection Ho as ->; cbn; set_solver.
  - intros n Hop. cases n; try done; exfalso; unfold counted_ops in Hop; by inv_elem Hop.
  - intros n Hop. cases n; exfalso; unfold comparison_ops in Hop; by inv_elem Hop.
  - intros n Hop. by cases n.
Qed.

Definition no_constants (_ : string) : option ConstantTensor := None.
Definition validate (s : unit) (_ : fused_node) : unit * bool := (s, true).

Lemma graph_view m : wf_units graph nodes m → single_units m → wf_view graph nodes m no_constants.
Proof.
  intros Hu Hs. split; [done|exact Hs|..].
  - intros x i n Hi Hp. cases x; inv_elem Hi; injection Hi as ->; cbn in Hp; simplify_eq;
      (eexists; split; [left|]); (split; [reflexivity|]); left.
  - intros n o x Ho Hx. destruct (og_consumed _ _ graph_wf n o x) as (_ & i & Hi & Hp); [|done|done|].
    { cases n; unfold nodes; set_solver. }
    exists i. split_and!; [done| |done].
    cases n; inv_elem Ho; injection Ho as ->; cbn in Hx; inv_elem Hx; injection Hx as ->; cbn in Hi; inv_elem Hi;
      injection Hi as ->; cbn in Hp; by simplify_eq.
  - intros x x' i i' Hi Hi' E. cases x; inv_elem Hi; injection Hi as ->; cases x'; inv_elem Hi'; injection Hi' as ->;
      by cbn in *.
  - intros x i Hi Hp. pose proof (producer_spec _ _ _ Hi Hp) as Hin. inv_elem Hin; congruence.
  - intros n. by cases n.
  - intros n Hop. by cases n.
  - intros n Hop. by cases n.
  - intros n Hop. by cases n.
Qed.

Definition fusions (m : gmap nat OrtNodeUnit) : gmap string (list (@FusionFunc unit)) :=
  {[ "HardSigmoid" := [HardSigmoidMulFusion_TryFusion graph m validate] ]}.

Lemma fusions_ok m op fs f : wf_units graph nodes m → single_units m → fusions m !! op = Some fs → f ∈ fs →
  Fusion graph nodes m f.
Proof.
  intros Hu Hs Hop Hf. unfold fusions in Hop. apply lookup_singleton_Some in Hop as [_ <-]. apply list_elem_of_singleton in Hf as ->.
  eapply hardsigmoid_mul_fusion, graph_view; done.
Qed.

End QdqExample.

Lemma interior_tensors_stay_inside_witness : ∃ v, QdqExample.y = Some v ∧
  vi_graph_output v = false ∧ ∀ c, c ∈ vi_consumers v → ∃ n, c = Some n ∧ n ∈ absorbers QdqExample.group.
Proof.
  eexists. split; [reflexivity|].
  apply (interior_tensors_stay_inside QdqExample.graph QdqExample.elem_type QdqExample.initializers (fun _ => true) 2 MatMul
    QdqExample.group QdqExample.selects (ltac:(discriminate)) 2); [left|left|].
  exists 3. split; left.
Defined.

Lemma selected_types_bridgeable_witness :
  ∃ i o, GetNodeInputDataType QdqExample.graph QdqExample.elem_type 0 0 = Ok (Some i) ∧
    GetNodeOutputDataType QdqExample.graph QdqExample.elem_type 4 0 = Ok (Some o) ∧ bridgeable i o.
Proof.
  destruct (selected_types_bridgeable QdqExample.graph QdqExample.elem_type QdqExample.initializers (fun _ => true) 2 MatMul
    QdqExample.group QdqExample.selects (ltac:(discriminate)) (ltac:(discriminate)) (ltac:(discriminate)))
    as (dq & q & i & o & [= <-] & [= <-] & Hi & Ho & Hb).
  exists i, o. split; [exact Hi|]. split; [exact Ho|exact Hb].
Defined.


Lemma units_to_groups_witness : ∃ holder m s' groups,
  GetAllOrtNodeUnits QdqExample.graph (fun _ => "") QdqExample.elem_type QdqExample.initializers (fun _ => true) QdqExample.nodes =
    Ok (holder, m) ∧
  GetQnnNodeGroups QdqExample.graph QdqExample.nodes m ∅ HTP (QdqExample.fusions m) tt = Ok (s', Some <$> groups) ∧
  mjoin (GetNodeUnits <$> groups) ≡ₚ target_node_ <$> holder.
Proof.
  exact (units_to_groups QdqExample.graph QdqExample.elem_type QdqExample.initializers (fun _ => true) (fun _ => "")
    QdqExample.nodes ∅ HTP QdqExample.fusions tt QdqExample.graph_wf QdqExample.graph_schema QdqExample.fusions_ok).
Defined.
