(* ===== verification/NodeUnitDefs.v ===== *)
(** * Inputs and outputs of node units

    The constructors of [OrtNodeUnit] in [ort_api.cc]: [ParseOrtValueInfo], [GetQDQIODefs] and
    [InitForSingleNode], which describe each input and output by name, type, shape and the
    quantization parameters of the DQ or Q next to it, with the attribute readers of
    [OrtNodeAttrHelper] that narrow integers. *)

From S2P Require Import Prelude DataTypes Floats QnnTensor Partition NodeGroups Fusions QdqSelector QdqUnits.

Record QuantParam := QuantParam_ {
  scale : option ValueInfo;
  zero_point : option ValueInfo;
  axis : option Z;
  block_size : option Z
}.

Record OrtNodeUnitIODef := IODef {
  name : string;
  type : ONNXTensorElementDataType;
  shape : option (list Z);
  quant_param : option QuantParam
}.

Definition Exists_ (d : OrtNodeUnitIODef) : bool := negb (bool_decide (name d = "")).

(** The description of an optional input that is not there. *)
Definition absent_def : OrtNodeUnitIODef := IODef "" ONNX_UNDEFINED None None.

(** A status that the caller releases, going on with [d]. *)
Definition or_else {A} (r : result A) (d : A) : result A :=
  match r with Err (EpFail _) => Ok d | _ => r end.

Section Defs.
Variable graph : nat → OrtNode.
Variable elem_type : string → option ONNXTensorElementDataType.

Definition ParseOrtValueInfo (io : option ValueInfo) (quant_param : option QuantParam) : result OrtNodeUnitIODef :=
  let* v := deref io in
  match elem_type (vi_name v) with
  | None => Err (EpFail "io is not a tensor.")
  | Some t => Ok (IODef (vi_name v) t (vi_shape v) quant_param)
  end.

(** Scale and zero point are the inputs 1 and 2 of a Q or DQ. *)
Definition quant_param_of (node : nat) : result QuantParam :=
  let node_inputs := inputs (graph node) in
  let* s := aget node_inputs 1 in
  let* z := if length node_inputs =? 3 then aget node_inputs 2 else Ok None in
  Ok (QuantParam_ s z (int_attribute (graph node) "axis") (int_attribute (graph node) "block_size")).

(** The DQ that produces an input, or the only consumer of an output. *)
Definition neighbour (is_input : bool) (v : ValueInfo) : option nat :=
  if is_input then vi_producer v
  else match vi_consumers v with [c] => c | _ => None end.

(** The first loop of [GetQDQIODefs]: the definition of a quantized input or output. *)
Definition quantized_def (dq_or_q_nodes : list nat) (is_input : bool) (io : option ValueInfo)
  : result (option OrtNodeUnitIODef) :=
  match io with
  | None => Ok None
  | Some v =>
      match neighbour is_input v with
      | None => Ok None
      | Some node =>
          if negb (bool_decide (node ∈ dq_or_q_nodes)) then Ok None
          else
          let* qp := quant_param_of node in
          let* data := aget (if is_input then inputs (graph node) else outputs (graph node)) 0 in
          or_else (let* d := ParseOrtValueInfo data (Some qp) in Ok (Some d)) None
      end
  end.

(** The second loop. *)
Definition io_def (quantized : option OrtNodeUnitIODef) (io : option ValueInfo) : result OrtNodeUnitIODef :=
  match io, quantized with
  | None, _ => Ok absent_def
  | Some _, Some d => Ok d
  | Some _, None => or_else (ParseOrtValueInfo io None) absent_def
  end.

Definition GetQDQIODefs (target_node : nat) (node_group : OrtNodeGroup) (is_input : bool)
  : result (list OrtNodeUnitIODef) :=
  let dq_or_q_nodes := if is_input then dq_nodes node_group else q_nodes node_group in
  let target_node_ios := if is_input then inputs (graph target_node) else outputs (graph target_node) in
  let* quantized_io_defs := mapM_res (quantized_def dq_or_q_nodes is_input) target_node_ios in
  mapM_res (fun '(q, io) => io_def q io) (zip quantized_io_defs target_node_ios).

(** The constructor for a QDQ group. *)
Definition group_io_defs (g : OrtNodeGroup) : result (list OrtNodeUnitIODef * list OrtNodeUnitIODef) :=
  let* ins := GetQDQIODefs (target_node g) g true in
  let* outs := GetQDQIODefs (default (default (target_node g) (output_reshape_node g)) (redundant_clip_node g)) g false in
  Ok (ins, outs).

Definition InitForSingleNode (target_node_ : nat) : result (list OrtNodeUnitIODef * list OrtNodeUnitIODef) :=
  let inputs_data := inputs (graph target_node_) in
  let outputs_data := outputs (graph target_node_) in
  let op_type := op_type (graph target_node_) in
  let parse io qp := or_else (ParseOrtValueInfo io qp) absent_def in
  if bool_decide (op_type = "DequantizeLinear") then
    let* qp := quant_param_of target_node_ in
    let* i := aget inputs_data 0 in
    let* input_def := parse i (Some qp) in
    let* o := aget outputs_data 0 in
    let* output_def := parse o None in
    Ok ([input_def], [output_def])
  else if bool_decide (op_type = "QuantizeLinear") then
    let* qp := quant_param_of target_node_ in
    let* i := aget inputs_data 0 in
    let* input_def := parse i None in
    let* o := aget outputs_data 0 in
    let* output_def := parse o (Some qp) in
    Ok ([input_def], [output_def])
  else
    let* ins := mapM_res (fun io => match io with None => Ok absent_def | Some _ => parse io None end) inputs_data in
    let* outs := mapM_res (fun io => match io with None => Ok absent_def | Some _ => parse io None end) outputs_data in
    Ok (ins, outs).

End Defs.

(** ** Attributes

    [Get] with a default: the attribute is missing, or has another type, when it is [None].
    [gsl::narrow] throws when the value does not fit. *)
Definition narrow (lo hi : Z) (v : Z) : result Z :=
  if ((lo <=? v) && (v <=? hi))%Z then Ok v else Err (Throw "gsl::narrowing_error").

Definition Get_int32 (attr : option Z) (def_val : Z) : result Z :=
  match attr with None => Ok def_val | Some v => narrow (- 2 ^ 31) (2 ^ 31 - 1) v end.
Definition Get_uint32 (attr : option Z) (def_val : Z) : result Z :=
  match attr with None => Ok def_val | Some v => narrow 0 (2 ^ 32 - 1) v end.
Definition Get_int32s (attr : option (list Z)) (def_val : list Z) : result (list Z) :=
  match attr with None => Ok def_val | Some vs => mapM_res (narrow (- 2 ^ 31) (2 ^ 31 - 1)) vs end.
Definition Get_uint32s (attr : option (list Z)) (def_val : list Z) : result (list Z) :=
  match attr with None => Ok def_val | Some vs => mapM_res (narrow 0 (2 ^ 32 - 1)) vs end.

(** ** Reference definitions *)

Section Spec.
Context (graph : nat → OrtNode) (elem_type : string → option ONNXTensorElementDataType).
Context (initializers : list (string * OrtValue)) (is_constant_initializer : string → bool).

Local Abbreviation op n := (op_type (graph n)).

Definition plain_def (v : ValueInfo) : OrtNodeUnitIODef :=
  match elem_type (vi_name v) with None => absent_def | Some t => IODef (vi_name v) t (vi_shape v) None end.

(** The value [v] with the encoding of the Q or DQ [node]; [fallback] when it is no tensor. *)
Definition encoded_def (node : nat) (v : ValueInfo) (fallback : OrtNodeUnitIODef) : OrtNodeUnitIODef :=
  match elem_type (vi_name v) with
  | None => fallback
  | Some t =>
      IODef (vi_name v) t (vi_shape v) (Some (QuantParam_
        (mjoin (inputs (graph node) !! 1))
        (if length (inputs (graph node)) =? 3 then mjoin (inputs (graph node) !! 2) else None)
        (int_attribute (graph node) "axis") (int_attribute (graph node) "block_size")))
  end.

(** An input of the target: what the DQ in front of it reads, or the value itself. *)
Definition expected_input (io : option ValueInfo) : OrtNodeUnitIODef :=
  match io with
  | None => absent_def
  | Some v =>
      match dq_producer graph io with
      | None => plain_def v
      | Some dq =>
          match GetNodeInputValueInfo graph dq 0 with
          | None => absent_def
          | Some x => encoded_def dq x (plain_def v)
          end
      end
  end.

(** The two loops, element by element. *)
Lemma two_loops {A B C} (f : A → result B) (h : B * A → result C) (d : A → C) (l : list A) :
  (∀ x, x ∈ l → ∃ y, f x = Ok y ∧ h (y, x) = Ok (d x)) →
  (let* ys := mapM_res f l in mapM_res h (zip ys l)) = Ok (d <$> l).
Proof.
  induction l as [|x l IH]; intros H; [done|]. destruct (H x) as (y & Hy & Hd); [by left|].
  cbn [mapM_res]. rewrite Hy. cbn [rbind].
  assert ((let* ys := mapM_res f l in mapM_res h (zip ys l)) = Ok (d <$> l)) as IH'
    by (apply IH; intros; apply H; by right).
  destruct (mapM_res f l) as [ys|]; [|done]. cbn in IH' |- *. by rewrite Hd, IH'.
Qed.

Lemma GetQDQIODefs_spec n g (is_input : bool) (d : option ValueInfo → OrtNodeUnitIODef) :
  (∀ io, io ∈ (if is_input then inputs (graph n) else outputs (graph n)) →
    ∃ q, quantized_def graph elem_type (if is_input then dq_nodes g else q_nodes g) is_input io = Ok q ∧
      io_def elem_type q io = Ok (d io)) →
  GetQDQIODefs graph elem_type n g is_input = Ok (d <$> (if is_input then inputs (graph n) else outputs (graph n))).
Proof. intros H. unfold GetQDQIODefs. apply two_loops. exact H. Qed.

Lemma plain_io_def v : io_def elem_type None (Some v) = Ok (plain_def v).
Proof. unfold io_def, plain_def. cbn. by destruct (elem_type _). Qed.

(** A Q or DQ with its data and scale. *)
Lemma quant_param_ok n x s rest : inputs (graph n) = Some x :: Some s :: rest →
  quant_param_of graph n = Ok (QuantParam_ (mjoin (inputs (graph n) !! 1))
    (if length (inputs (graph n)) =? 3 then mjoin (inputs (graph n) !! 2) else None)
    (int_attribute (graph n) "axis") (int_attribute (graph n) "block_size")).
Proof.
  intros E. unfold quant_param_of. rewrite E. cbn. by destruct rest as [|z [|]].
Qed.

Lemma encoded_ok nodes is_input n w v : is_input = true ∧ GetNodeInputValueInfo graph n 0 = Some w ∨
    is_input = false ∧ outputs (graph n) !! 0 = Some (Some w) →
  (∃ x s rest, inputs (graph n) = Some x :: Some s :: rest) → n ∈ nodes → neighbour is_input v = Some n →
  ∃ q, quantized_def graph elem_type nodes is_input (Some v) = Ok q ∧
    io_def elem_type q (Some v) = Ok (encoded_def n w (plain_def v)).
Proof.
  intros Hw (x & s & rest & E) Hn Hnb. unfold quantized_def. rewrite Hnb, bool_decide_true by done. cbn [negb].
  rewrite (quant_param_ok n x s rest E). cbn [rbind].
  assert (aget (if is_input then inputs (graph n) else outputs (graph n)) 0 = Ok (Some w)) as ->.
  { apply aget_Ok. destruct Hw as [[-> Hw]|[-> Hw]]; [|done]. unfold GetNodeInputValueInfo in Hw. rewrite E in *. cbn in *.
    congruence. }
  cbn. unfold encoded_def. destruct (elem_type (vi_name w)); cbn; eexists; (split; [reflexivity|]); [done|].
  apply plain_io_def.
Qed.

Context (nodes : list nat) (Hsc : wf_schema graph initializers nodes).

Lemma group_inputs_spec node selector g : selected graph elem_type initializers node selector g →
  GetQDQIODefs graph elem_type node g true = Ok (expected_input <$> inputs (graph node)).
Proof.
  intros Hs. apply (GetQDQIODefs_spec node g true). intros [v|] Hv; [|by exists None].
  unfold expected_input. destruct (dq_producer graph (Some v)) as [dq|] eqn:Ed.
  - assert (vi_producer v = Some dq ∧ op dq = "DequantizeLinear") as [Hp Hop].
    { unfold dq_producer in Ed. cbn in Ed. destruct (vi_producer v) as [p|]; [|done]. cbn in Ed.
      case_bool_decide; naive_solver. }
    destruct (sc_dq _ _ _ Hsc dq Hop) as (x & s & rest & E & _).
    assert (GetNodeInputValueInfo graph dq 0 = Some x) as Hx by (unfold GetNodeInputValueInfo; by rewrite E).
    rewrite Hx. apply (encoded_ok _ true dq x v); [by left|by eauto| |done].
    rewrite (sel_dq _ _ _ _ _ _ Hs). apply list_elem_of_omap. eauto.
  - exists None. split; [|apply plain_io_def]. unfold quantized_def. cbn.
    destruct (vi_producer v) as [p|] eqn:Ep; [|done]. rewrite bool_decide_false; [done|].
    rewrite (sel_dq _ _ _ _ _ _ Hs). intros Hop%dq_producer_dq. unfold dq_producer in Ed. cbn in Ed. rewrite Ep in Ed.
    cbn in Ed. by rewrite bool_decide_true in Ed.
Qed.

Lemma single_output_q node selector g v : selected graph elem_type initializers node selector g → selector ≠ DropDQ →
  q_nodes g ≠ [] → outputs (graph (anchor g)) = [Some v] → ∃ q, q_nodes g = [q] ∧ vi_consumers v = [Some q].
Proof.
  intros Hs Hne Hq Ho. pose proof (sel_q _ _ _ _ _ _ Hs) as Hqs. pose proof (sel_consumers _ _ _ _ _ _ Hs) as Hnull.
  unfold present in Hqs, Hnull. rewrite Ho in Hqs, Hnull. cbn in Hqs, Hnull. rewrite app_nil_r in Hqs, Hnull.
  assert (length (vi_consumers v) = 1) as Hl.
  { pose proof (sel_target _ _ _ _ _ _ Hs) as Ht. pose proof (sel_extends _ _ _ _ _ _ Hs) as Hext.
    pose proof (sel_check _ _ _ _ _ _ Hs) as Hck. unfold anchor in Ho.
    inversion Hext as [E1 E2|a q Ha Hact Hsq Hop E1 E2|r q Hgm Hr Hor Hsq Hop E1 E2
      |r a q Hgm Hr Hor Ha Hact Hsq Hop E1 E2]; rewrite <- E1, <- E2 in Ho; cbn in Ho;
      try (apply sole_successor_spec in Hsq as (w & Hw & _ & Hc); rewrite Hw in Ho; injection Ho as ->; by rewrite Hc).
    rewrite Ht in Ho. destruct (check_shape _ _ _ _ _ _ _ _ Hck) as [?|[?|[(Hl & Hsum & _)|(_ & _ & Hl & Hcan)]]]; try done.
    - unfold present in Hl, Hsum. rewrite Ho in Hl, Hsum. cbn in Hl, Hsum. lia.
    - unfold CanCreateNodeGroup in Hcan. run_cases; try done.
      match goal with E : foldM _ _ _ = Ok (Some ?n) |- _ =>
        apply count_absorbed_pos in E as (w & c & Hw & Hc & _); [|apply Nat.eqb_eq in Hcan; lia] end.
      rewrite Ho in Hw. apply list_elem_of_singleton in Hw as [= ->]. by rewrite Hc. }
  destruct (vi_consumers v) as [|c [|]]; try done. destruct c as [c|]; [|by destruct Hnull; left].
  exists c. split; [|done]. cbn in Hqs. case_bool_decide; [done|]. by rewrite Hqs in Hq.
Qed.

(** C29: The inputs and outputs that a QDQ unit reports, for a group of a selector other than DropDQ
    that has a Q and whose last member before the Q has exactly one output: there is one Q; an input
    fed by a DQ is what the DQ reads, with the scale, zero point, axis and block size of the DQ, any
    other input is itself, and the output is what the Q writes, with the encoding of the Q; so the
    quantized op works on the stored integers.  (For several outputs see [uneven_split_accepted].) *)
Theorem qdq_unit_io_defs node selector g v :
  GetOrtQDQSelection graph elem_type initializers is_constant_initializer node selector = Ok (Some g) →
  selector ≠ DropDQ → q_nodes g ≠ [] → outputs (graph (anchor g)) = [Some v] →
  ∃ q y, q_nodes g = [q] ∧ outputs (graph q) !! 0 = Some (Some y) ∧
    group_io_defs graph elem_type g =
      Ok (expected_input <$> inputs (graph node), [encoded_def q y (plain_def v)]).
Proof.
  intros Hs%select_spec Hne Hq Ho. destruct (single_output_q node selector g v Hs Hne Hq Ho) as (q & Hqs & Hc).
  assert (op q = "QuantizeLinear") as Hop.
  { assert (q ∈ q_nodes g) as Hin by (rewrite Hqs; left). rewrite (sel_q _ _ _ _ _ _ Hs) in Hin. by apply is_q_elem in Hin as [_ ?]. }
  destruct (sc_q _ _ _ Hsc q Hop) as (x & s & rest & y & out & E & Ey & _).
  exists q, y. split; [done|]. split; [by rewrite Ey|].
  unfold group_io_defs. rewrite (sel_target _ _ _ _ _ _ Hs), (group_inputs_spec node selector g Hs). cbn [rbind].
  fold (anchor g). unfold anchor in Ho. rewrite (sel_target _ _ _ _ _ _ Hs) in Ho.
  rewrite (GetQDQIODefs_spec _ g false (fun _ => encoded_def q y (plain_def v))); rewrite Ho; [done|].
  intros io Hio. apply list_elem_of_singleton in Hio as ->. apply encoded_ok.
  - right. by rewrite Ey.
  - eauto.
  - rewrite Hqs. by left.
  - cbn. by rewrite Hc.
Qed.

End Spec.

Lemma qdq_unit_io_defs_witness : ∃ q y, q_nodes QdqExample.group = [q] ∧
  group_io_defs QdqExample.graph QdqExample.elem_type QdqExample.group =
    Ok (expected_input QdqExample.graph QdqExample.elem_type <$> inputs (QdqExample.graph 2),
        [encoded_def QdqExample.graph QdqExample.elem_type q y
           (IODef "r" ONNX_UINT8 (Some []) None)]).
Proof.
  destruct (qdq_unit_io_defs QdqExample.graph QdqExample.elem_type QdqExample.initializers (fun _ => true)
    QdqExample.nodes QdqExample.graph_schema 2 MatMul QdqExample.group (Value "r" (Some []) (Some 3) [Some 4] false)
    QdqExample.selects (ltac:(discriminate)) (ltac:(discriminate)) eq_refl) as (q & y & Hq & _ & E).
  exists q, y. split; [exact Hq|exact E].
Defined.

(** ** What the selection gets wrong *)
Module Findings.
Import QdqExample.

Definition s : option ValueInfo := value "s" None [].
Definition z : option ValueInfo := value "z" None [].
Definition scalar (t : ONNXTensorElementDataType) (bytes : list Z) : OrtValue := Tensor t [] bytes.
Definition encodings : list (string * OrtValue) :=
  [("s", scalar ONNX_FLOAT [0; 0; 128; 63]%Z); ("z", scalar ONNX_UINT8 [0%Z]); ("z5", scalar ONNX_UINT8 [5%Z]);
   ("half", scalar ONNX_FLOAT16 [0; 60]%Z)].

(** DQ -> Neg -> Clip(min) -> Q, where the lower bound is the output of a DQ node. *)
Definition computed_bound (n : nat) : OrtNode :=
  match n with
  | 0 => node "DequantizeLinear" [value "x" None [0]; s; z] [value "xf" (Some 0) [1]]
  | 1 => node "Neg" [value "xf" (Some 0) [1]] [value "y" (Some 1) [2]]
  | 2 => node "Clip" [value "y" (Some 1) [2]; value "lo" (Some 3) [2]] [value "c" (Some 2) [4]]
  | 3 => node "DequantizeLinear" [value "l" None [3]; s; z] [value "lo" (Some 3) [2]]
  | 4 => node "QuantizeLinear" [value "c" (Some 2) [4]; s; z] [value "q" (Some 4) []]
  | _ => node "" [] []
  end.

(** The Clip is folded away although its bound is not known to be redundant. *)
Theorem computed_clip_bound_ignored :
  TryFoldRedundantActivation computed_bound encodings 1 = Ok (Some 2) ∧
  ∃ lo, inputs (computed_bound 2) !! 1 = Some (Some lo) ∧ vi_producer lo = Some 3 ∧
    GetConstantInitializer encodings (vi_name lo) = None.
Proof. split; [vm_compute; reflexivity|]. by eexists. Qed.

(** The Neg feeds the lower bound of the Clip, whose data comes from another DQ. *)
Definition bound_producer (n : nat) : OrtNode :=
  match n with
  | 2 => node "Clip" [value "lo" (Some 3) [2]; value "y" (Some 1) [2]] [value "c" (Some 2) [4]]
  | _ => computed_bound n
  end.

(** Both the Neg and the Clip get a group, and both groups claim the Clip and the Q. *)
Theorem clip_folded_into_its_bound : ∃ g g',
  GetOrtQDQSelection bound_producer elem_type encodings (fun _ => true) 1 Unary = Ok (Some g) ∧
  GetOrtQDQSelection bound_producer elem_type encodings (fun _ => true) 2 Clip = Ok (Some g') ∧
  redundant_clip_node g = Some (target_node g') ∧ q_nodes g = [4] ∧ q_nodes g' = [4].
Proof. eexists _, _. split; [vm_compute; reflexivity|]. split; [vm_compute; reflexivity|]. done. Qed.

(** DQ -> Split, whose first output has two Q consumers and whose second has none. *)
Definition uneven_split (n : nat) : OrtNode :=
  match n with
  | 0 => node "DequantizeLinear" [value "x" None [0]; s; z] [value "xf" (Some 0) [1]]
  | 1 => node "Split" [value "xf" (Some 0) [1]] [value "y0" (Some 1) [2; 3]; value "y1" (Some 1) []]
  | 2 => node "QuantizeLinear" [value "y0" (Some 1) [2; 3]; s; z] [value "q0" (Some 2) []]
  | 3 => node "QuantizeLinear" [value "y0" (Some 1) [2; 3]; s; z] [value "q1" (Some 3) []]
  | _ => node "" [] []
  end.

(** The group is accepted and takes in both Q nodes, but neither output carries an encoding. *)
Theorem uneven_split_accepted : ∃ g ins outs,
  GetOrtQDQSelection uneven_split elem_type encodings (fun _ => true) 1 (Split false) = Ok (Some g) ∧
  q_nodes g = [2; 3] ∧ group_io_defs uneven_split elem_type g = Ok (ins, outs) ∧
  quant_param <$> outs = [None; None].
Proof. eexists _, _, _. split; [vm_compute; reflexivity|]. split; [done|]. split; [vm_compute; reflexivity|done]. Qed.

(** DQ(zero point 0) -> Reshape -> Q(zero point 5). *)
Definition shifted_reshape (n : nat) : OrtNode :=
  match n with
  | 0 => node "DequantizeLinear" [value "x" None [0]; s; z] [value "xf" (Some 0) [1]]
  | 1 => node "Reshape" [value "xf" (Some 0) [1]; value "shape" None [1]] [value "y" (Some 1) [2]]
  | 2 => node "QuantizeLinear" [value "y" (Some 1) [2]; s; value "z5" None [2]] [value "q" (Some 2) []]
  | _ => node "" [] []
  end.

Theorem zero_points_not_compared : ∃ g,
  GetOrtQDQSelection shifted_reshape elem_type encodings (fun _ => true) 1 (DropQDQ true) = Ok (Some g) ∧
  GetConstantInitializer encodings "z" ≠ GetConstantInitializer encodings "z5".
Proof. eexists. split; [vm_compute; reflexivity|]. vm_compute. discriminate. Qed.

(** DQ -> Neg -> Relu -> Q with a float16 scale: two bytes are read as a [float]. *)
Definition half_scale (n : nat) : OrtNode :=
  match n with
  | 2 => node "Relu" [value "y" (Some 1) [2]] [value "c" (Some 2) [4]]
  | 4 => node "QuantizeLinear" [value "c" (Some 2) [4]; value "half" None [4]; z] [value "q" (Some 4) []]
  | _ => computed_bound n
  end.

Theorem half_scale_read_as_float : TryFoldRedundantActivation half_scale encodings 1 = Err Trap.
Proof. vm_compute. reflexivity. Qed.

End Findings.
