(* ===== verification/TensorInfo.v ===== *)
(** * Descriptions of ONNX tensors

    What the model wrapper reads from the ORT graph to describe a tensor to QNN:
    [UnpackInitializerData], [UnpackScales], [UnpackZeroPoints], [IsPerChannelQuantized],
    [GetTensorInfo] and [MakeTensorWrapper] of [builder/qnn_model_wrapper.{h,cc}], the
    initialization of quantization parameters from an ONNX tensor in
    [builder/qnn_quant_params_wrapper.cc], and the helpers of [builder/qnn_bq_utils.cc] that
    do not add nodes.

    The ORT graph is a record of functions: the element type of a value, the raw bytes of an
    initializer (in memory or in an external file), the constant initializer of a name and, for
    the outputs of a node, the operator types of the consumers. *)

From Stdlib Require Import SpecFloat.
From S2P Require Import Prelude SubByte DataTypes Floats QuantParams QnnTensor Quantize ModelWrapper NodeGroups NodeUnitDefs.
Local Open Scope Z_scope.

(** ** Bit patterns of floats *)

Definition f32_of_bits (b : Z) : float :=
  let sign := Z.testbit b 31 in
  let e := (b / 2 ^ 23) mod 2 ^ 8 in
  let m := b mod 2 ^ 23 in
  if e =? 0 then
    if m =? 0 then S754_zero sign else S754_finite sign (Z.to_pos m) (- 149)
  else if e =? 255 then
    if m =? 0 then S754_infinity sign else S754_nan
  else S754_finite sign (Z.to_pos (m + 2 ^ 23)) (e - 150).

(** A [Float16_t] as a [float]. *)
Definition f32_of_f16_bits (b : Z) : float :=
  let sign := Z.testbit b 15 in
  let e := (b / 2 ^ 10) mod 2 ^ 5 in
  let m := b mod 2 ^ 10 in
  if e =? 0 then
    if m =? 0 then S754_zero sign else convert 24 128 (S754_finite sign (Z.to_pos m) (- 24))
  else if e =? 31 then
    if m =? 0 then S754_infinity sign else S754_nan
  else convert 24 128 (S754_finite sign (Z.to_pos (m + 2 ^ 10)) (e - 25)).

Definition f32_of_bf16_bits (b : Z) : float := f32_of_bits (b * 2 ^ 16).

(** ** The ORT graph *)

Record OrtGraph := Graph {
  value_type : string → option ONNXTensorElementDataType;
  raw_initializer : option ValueInfo → result (list Z);
  FindInitializer : string → result ValueInfo;
  GetConstantTensor : string → option ValueInfo;
  consumers : nat → list (list (option string))
}.

Section TensorInfo.
Context (env : environment) (graph : OrtGraph).

(** [GetTensorElementType] of a value; a null value or one that is no tensor is a failing
    status. *)
Definition elem_type_of (v : option ValueInfo) : result ONNXTensorElementDataType :=
  match v with
  | None => Err (EpFail "GetValueInfoTypeInfo")
  | Some v => match value_type graph (vi_name v) with Some t => Ok t | None => Err (EpFail "CastTypeInfoToTensorInfo") end
  end.

Definition GetInitializerShape (v : option ValueInfo) : list Z :=
  match v with None => [] | Some v => default [] (vi_shape v) end.

Definition num_elements (v : option ValueInfo) : nat :=
  Z.to_nat (foldl (fun n d => u64 (n * u64 d)) 1 (GetInitializerShape v)).

Definition UnpackInitializerData (initializer : option ValueInfo) (unpack_sub_byte_to_8_bit : bool)
  : result (list Z) :=
  let* unpacked_tensor := raw_initializer graph initializer in
  let* onnx_data_type := elem_type_of initializer in
  if negb unpack_sub_byte_to_8_bit then Ok unpacked_tensor
  else match onnx_data_type with
  | ONNX_INT4 => UnpackInt4ToInt8 true (num_elements initializer) unpacked_tensor
  | ONNX_UINT4 => UnpackInt4ToInt8 false (num_elements initializer) unpacked_tensor
  | ONNX_INT2 => UnpackInt2ToInt8 true (num_elements initializer) unpacked_tensor
  | ONNX_UINT2 => UnpackInt2ToInt8 false (num_elements initializer) unpacked_tensor
  | _ => Ok unpacked_tensor
  end.

(** ** Scales and zero points *)

(** The whole elements of a buffer. *)
Definition elements (size : nat) (bytes : list Z) : list Z :=
  (fun i => le_decode (element size bytes i)) <$> seq 0 (length bytes / size).

Definition UnpackScales (scale_tensor : option ValueInfo) : result (list float) :=
  let* _ := return_if (bool_decide (scale_tensor = None)) "Given scale(s) to be unpacked is null." in
  let* onnx_data_type := elem_type_of scale_tensor in
  let* _ := return_if_not (bool_decide (onnx_data_type ∈ [ONNX_FLOAT; ONNX_FLOAT16; ONNX_BFLOAT16]))
    "Expected scale initializer to be of type FLOAT, FLOAT16, or BFLOAT16" in
  let* initializer_bytes := UnpackInitializerData scale_tensor true in
  Ok match onnx_data_type with
     | ONNX_FLOAT => f32_of_bits <$> elements 4 initializer_bytes
     | ONNX_FLOAT16 => f32_of_f16_bits <$> elements 2 initializer_bytes
     | _ => f32_of_bf16_bits <$> elements 2 initializer_bytes
     end.

(** [UnpackScales<uint8_t>]. *)
Definition UnpackScales_uint8 (scale_tensor : option ValueInfo) : result (list Z) :=
  let* _ := return_if (bool_decide (scale_tensor = None)) "Given scale(s) to be unpacked is null." in
  let* onnx_data_type := elem_type_of scale_tensor in
  let* _ := return_if_not (bool_decide (onnx_data_type = ONNX_UINT8))
    "Expected uint8_t scale initializer to be of type UINT8" in
  UnpackInitializerData scale_tensor true.

(** [ReinterpretAsSpan] expects a whole number of elements. *)
Definition reinterpret (T : QuantType) (bytes : list Z) : result (list Z) :=
  if (length bytes mod q_size T =? 0)%nat then Ok (read_elem T bytes <$> seq 0 (length bytes / q_size T)) else Err Trap.

Definition uint32_t := Quant 4 0 4294967295.

(** The C++ values of the zero points of a type, before the negation. *)
Definition zero_point_values (onnx_data_type : ONNXTensorElementDataType) (bytes : list Z) : result (list Z) :=
  match onnx_data_type with
  | ONNX_INT2 => rmap (fmap (fun v => Int2x4.SignExtendLower2Bits (u8 v))) (reinterpret int8_t bytes)
  | ONNX_INT4 => rmap (fmap (fun v => Int4x2.SignExtendLower4Bits (u8 v))) (reinterpret int8_t bytes)
  | ONNX_INT8 => reinterpret int8_t bytes
  | ONNX_UINT4 | ONNX_UINT2 | ONNX_UINT8 => reinterpret uint8_t bytes
  | ONNX_UINT16 => reinterpret uint16_t bytes
  | ONNX_INT16 => reinterpret int16_t bytes
  | ONNX_INT32 => reinterpret int32_t bytes
  | ONNX_UINT32 => reinterpret uint32_t bytes
  | _ => Err (EpFail "Zero-point ONNX data type is not supported.")
  end.

(** The zero points with the sign QNN uses, and their ONNX type. *)
Definition UnpackZeroPoints (zp_tensor : option ValueInfo) : result (list Z * ONNXTensorElementDataType) :=
  let* _ := return_if (bool_decide (zp_tensor = None)) "Given zero point(s) to be unpacked is null." in
  let* onnx_data_type := elem_type_of zp_tensor in
  let* initializer_bytes := UnpackInitializerData zp_tensor true in
  let* values := zero_point_values onnx_data_type initializer_bytes in
  let* zero_points := mapM_res (fun zp => neg_i32 (i32 zp)) values in
  Ok (zero_points, onnx_data_type).

(** Whether a tensor is quantized per channel, and along which axis. *)
Definition IsPerChannelQuantized (io_def : OrtNodeUnitIODef) : result (bool * Z) :=
  match quant_param io_def with
  | None => Ok (false, 0)
  | Some qp =>
      let* _ := return_if (bool_decide (scale qp = None)) "Given IO def has null scale." in
      let scale_shape := GetInitializerShape (scale qp) in
      let total_number_of_elements := foldl (fun n d => i64 (n * d)) 1 scale_shape in
      let is_scalar_or_1_elem_vector :=
        (length scale_shape =? 0)%nat || ((length scale_shape =? 1)%nat && (total_number_of_elements =? 1)) in
      if is_scalar_or_1_elem_vector then Ok (false, 0)
      else
        let axis := default 1 (axis qp) in
        if axis <? 0 then
          let* tensor_shape := GetOnnxShape (shape io_def) in
          match tensor_shape with
          | None => Err (EpFail "Cannot get shape")
          | Some s =>
              let* _ := return_if_not (0 <? length s)%nat "Per-channel quantized tensor should be of rank > 0" in
              Ok (true, i64 (axis + Z.of_nat (length s)))
          end
        else Ok (true, axis)
  end.

(** ** Quantization parameters of an ONNX tensor *)

Definition onnx_shape_of (io_def : OrtNodeUnitIODef) : result (list Z) :=
  let* s := GetOnnxShape (shape io_def) in
  match s with None => Err (EpFail "Cannot get shape") | Some s => Ok s end.

Definition DEFAULT_QDQ_AXIS : Z := 1.

(** The axis of the parameters, counted from the front. *)
Definition normalized_axis (qp : QuantParam) (rank : Z) : Z :=
  let axis := default DEFAULT_QDQ_AXIS (axis qp) in if axis <? 0 then axis + rank else axis.

Definition per_channel_axis (io_def : OrtNodeUnitIODef) (qp : QuantParam) : result Z :=
  let* io_shape := onnx_shape_of io_def in
  let io_rank := i32 (Z.of_nat (length io_shape)) in
  let axis := normalized_axis qp io_rank in
  let* _ := return_if_not ((0 <=? axis) && (axis <? io_rank))
    "Quantization axis must be within the range [0, rank - 1]" in
  Ok axis.

(** The offset of a per-tensor encoding. *)
Definition per_tensor_offset (qp : QuantParam) (zero_points : list Z) : result Z :=
  match zero_point qp with
  | None => Ok 0
  | Some _ => let* _ := return_if_not (length zero_points =? 1)%nat "Expected one zero-point value" in aget zero_points 0
  end.

(** The offsets of a per-channel encoding. *)
Definition per_channel_offsets (num_elems : nat) (zero_points : list Z) : result (list Z) :=
  let no_zero_points := bool_decide (zero_points = []) in
  let* _ := return_if_not (1 <? num_elems)%nat "Expected more than one scale value" in
  let* _ := return_if_not (no_zero_points || (length zero_points =? num_elems)%nat)
    "Expected the same number of zero-points and scales for per-channel quantization" in
  collect num_elems (fun i => if no_zero_points then Ok 0 else aget zero_points i).

(** The shape of the scales; scales of rank 1 are those of [n] channels. *)
Definition effective_scale_shape (scale_shape io_shape : list Z) (axis : Z) : result (list Z) :=
  match scale_shape with
  | [s] =>
      if (1 <? length io_shape)%nat then
        let* n := aget io_shape (Z.to_nat (1 - axis)) in
        if (0 <? n) && (Z.rem s n =? 0) then Ok [n; Z.quot s n] else Ok scale_shape
      else Ok scale_shape
  | _ => Ok scale_shape
  end.

(** Block quantization of a weight: low power block parameters when they apply, otherwise
    the wrapper as it is. *)
Definition init_block (self : QnnQuantParamsWrapper) (io_def : OrtNodeUnitIODef) (qp : QuantParam)
  (scales : list float) (zero_points : list Z) : result QnnQuantParamsWrapper :=
  if negb (enable_block_quant_weight_optimization (model_settings_ env)) then Ok self
  else if bool_decide (type io_def ≠ ONNX_INT4) then Ok self
  else if negb (forallb (Z.eqb 0) zero_points) then Ok self
  else
  let* io_shape := onnx_shape_of io_def in
  let io_rank := i32 (Z.of_nat (length io_shape)) in
  let axis := normalized_axis qp io_rank in
  let* _ := return_if_not ((axis =? 0) || (axis =? 1))
    "Only axis 0 or 1 is supported for block quantization LPBQ conversion" in
  let* ess := effective_scale_shape (GetInitializerShape (scale qp)) io_shape axis in
  let* _ := return_if_not ((2 <=? length ess) && (length ess <=? 4))%nat
    "Block quantization scale tensors must have rank between 2 and 4 for LPBQ conversion" in
  let* d0 := aget ess 0 in
  let* d1 := aget ess 1 in
  let* _ := return_if_not ((0 <? d0) && (0 <? d1)) "Block quantization scale tensor dimensions must be positive" in
  let* _ := return_if_not (d0 * d1 =? Z.of_nat (length scales))
    "Block quantization scale tensor shape product must equal number of scales" in
  let num_blocks_per_channel := Z.to_nat (u32 (if axis =? 0 then d0 else d1)) in
  let num_channels := Z.to_nat (u32 (if axis =? 0 then d1 else d0)) in
  let* bq_scales_bm :=
    if axis =? 0 then Ok scales
    else foldM (fun bm c => foldM (fun bm b =>
           let* s := aget scales (c * num_blocks_per_channel + b) in
           aset bm (b * num_channels + c) s) (seq 0 num_blocks_per_channel) bm)
         (seq 0 num_channels) (replicate (length scales) f_zero) in
  match ConvertBlockQuantScalesToLpbq bq_scales_bm zero_points num_blocks_per_channel num_channels 4 with
  | Err (EpFail _) => Ok self
  | Err e => Err e
  | Ok (per_channel_scales, per_block_int_scales, lpbq_offsets) =>
      LowPowerBlockwise per_channel_scales per_block_int_scales lpbq_offsets (1 - axis) 4
  end.

(** [QnnQuantParamsWrapper::Init(qnn_model_wrapper, io_def)]. *)
Definition Init_io (self : QnnQuantParamsWrapper) (io_def : OrtNodeUnitIODef) : result QnnQuantParamsWrapper :=
  let self := reset_per_channel self in
  match quant_param io_def with
  | None => Ok (set_params self QNN_QUANTIZE_PARAMS_INIT (per_channel_data_ self))
  | Some qp =>
      let* scales := UnpackScales (scale qp) in
      let* (zero_points, is_int4_type) :=
        match zero_point qp with
        | None => Ok ([], false)
        | Some _ =>
            let* (zps, onnx_tp_type) := UnpackZeroPoints (zero_point qp) in
            Ok (zps, bool_decide (onnx_tp_type = ONNX_INT4) || bool_decide (onnx_tp_type = ONNX_UINT4))
        end in
      let is_block_quant := match block_size qp with Some b => 0 <? b | None => false end in
      let is_per_channel := (1 <? length scales)%nat && negb is_block_quant in
      let is_per_tensor := (length scales =? 1)%nat && negb is_block_quant in
      let defined e owned := set_params self (QuantizeParams DEFINITION_DEFINED e) owned in
      if is_per_tensor then
        let* s := aget scales 0 in
        let* offset := per_tensor_offset qp zero_points in
        Ok (defined (if is_int4_type then BW_SCALE_OFFSET 4 s offset else SCALE_OFFSET s offset) (per_channel_data_ self))
      else if is_per_channel then
        let* axis := per_channel_axis io_def qp in
        let num_elems := length scales in
        let* offsets := per_channel_offsets num_elems zero_points in
        let n := u32 (Z.of_nat num_elems) in
        Ok (defined (if is_int4_type then BW_AXIS_SCALE_OFFSET 4 (i32 axis) n (Some scales) (Some offsets)
                     else AXIS_SCALE_OFFSET (i32 axis) n (Some (zip_with ScaleOffset scales offsets))) true)
      else if is_block_quant then init_block self io_def qp scales zero_points
      else Err (EpFail "Unexpected tensor kind for QuantParamsWrapper::Init()")
  end.

(** ** [TensorInfo] *)

Record TensorInfo := Info {
  info_shape : list Z;
  info_data_type : Qnn_DataType_t;
  info_quant_param : QnnQuantParamsWrapper;
  info_is_initializer : bool;
  info_initializer : option ValueInfo
}.

Definition GetTensorInfo (tensor : OrtNodeUnitIODef) : result TensorInfo :=
  let* quant := Init_io default_wrapper tensor in
  let* qnn_data_type := GetQnnDataType (bool_decide (is_Some (quant_param tensor))) (type tensor) (backend_type env) in
  let* s := onnx_shape_of tensor in
  let is_initializer := IsConstantInput env (name tensor) in
  Ok (Info s qnn_data_type quant is_initializer
        (if is_initializer then GetConstantTensor graph (name tensor) else None)).

Definition unpacked_initializer (info : TensorInfo) : result (list Z) :=
  if info_is_initializer info then UnpackInitializerData (info_initializer info) true else Ok [].

(** [MakeTensorWrapper], from an input or output and from its description. *)
Definition MakeTensorWrapper_info (info : TensorInfo) (tensor_name : string) : result QnnTensorWrapper :=
  let* unpacked_tensor := unpacked_initializer info in
  let* quant := Copy (info_quant_param info) in
  make_tensor (tensor_init env) (narrow_nan env) tensor_name (TensorTypeOf env tensor_name) (info_data_type info)
    quant (info_shape info) unpacked_tensor TENSORMEMTYPE_RAW.

Definition MakeTensorWrapper (tensor : OrtNodeUnitIODef) : result QnnTensorWrapper :=
  let* info := GetTensorInfo tensor in
  let* unpacked_tensor := unpacked_initializer info in
  make_tensor (tensor_init env) (narrow_nan env) (name tensor) (TensorTypeOf env (name tensor)) (info_data_type info)
    (info_quant_param info) (info_shape info) unpacked_tensor TENSORMEMTYPE_RAW.

(** ** Block quantization ([builder/qnn_bq_utils.cc]) *)

Definition GetBQBitwidth (onnx_type : ONNXTensorElementDataType) : Z :=
  match onnx_type with
  | ONNX_INT2 | ONNX_UINT2 => 2
  | ONNX_INT4 | ONNX_UINT4 => 4
  | ONNX_INT8 | ONNX_UINT8 => 8
  | _ => 0
  end.

Definition IsUnsignedBQType (onnx_type : ONNXTensorElementDataType) : bool :=
  match onnx_type with ONNX_UINT2 | ONNX_UINT4 | ONNX_UINT8 => true | _ => false end.

Definition kHtpBQBitsAndBlockSizeMultipliers : list (Z * Z) := [(2, 16); (4, 8); (8, 4)].

Definition ValidateBQBitwidthAndBlockSize (bitwidth block_size : Z) : result unit :=
  match find_assoc bitwidth kHtpBQBitsAndBlockSizeMultipliers with
  | None => Err (EpFail "QNN HTP BQ: unsupported weight bitwidth")
  | Some m => return_if (negb (Z.rem block_size m =? 0)) "QNN HTP BQ: block_size must be a multiple"
  end.

Definition ResolveBlockSize (weight : OrtNodeUnitIODef) (contraction_dim num_blocks : Z) : result Z :=
  let* _ := return_if ((num_blocks <=? 0) || negb (Z.rem contraction_dim num_blocks =? 0))
    "QNN EP: BQ: contraction dim must be a positive multiple of num_blocks" in
  let derived := Z.quot contraction_dim num_blocks in
  let* _ := match quant_param weight with
            | Some (QuantParam_ _ _ _ (Some attr_block_size)) =>
                return_if (negb (attr_block_size =? derived))
                  "QNN EP: BQ: block_size attribute disagrees with scale-derived block_size"
            | _ => Ok tt
            end in
  Ok derived.

Definition IsBQScale (scale_shape weight_shape : list Z) (block_axis : nat) : bool :=
  match scale_shape !! block_axis, weight_shape !! block_axis with
  | Some num_blocks, Some weight_dim =>
      if (num_blocks <=? 0) || (weight_dim <=? num_blocks) then false else Z.rem weight_dim num_blocks =? 0
  | _, _ => false
  end.

(** [UnpackZeroPoints] has negated the zero points already. *)
Definition ComputeBQOffsets (zero_point : option ValueInfo) (is_unsigned_weight : bool) (bitwidth count : Z)
  : result (list float) :=
  let* _ := return_if (count <=? 0) "QNN EP: BQ ComputeBQOffsets: count must be positive" in
  let unsigned_bias := if is_unsigned_weight then f32_of_Z (u32 (2 ^ (bitwidth - 1))) else f_zero in
  match zero_point with
  | None => Ok (replicate (Z.to_nat count) unsigned_bias)
  | Some _ =>
      let* (zp_values, _) := UnpackZeroPoints zero_point in
      let* _ := return_if_not (Z.of_nat (length zp_values) =? count) "QNN EP: BQ zero_point size mismatch" in
      Ok ((fun zp => f32_sub unsigned_bias (f32_of_Z zp)) <$> zp_values)
  end.

(** [available] is the build flag [QNN_HTP_NATIVE_BQ_AVAILABLE], [min_arch] the QNN header's V81. *)
Definition IsHTPSupportedNativeBQ (available : bool) (min_arch htp_arch : Z) (act_data_type : Qnn_DataType_t)
  (bitwidth block_size output_channel : Z) (offsets : list float) : bool :=
  if htp_arch <? min_arch then false
  else if bool_decide (act_data_type ≠ QNN_UFIXED_POINT_16) then false
  else if negb (bitwidth =? 4) then false
  else if negb (forallb (f_eq f_zero) offsets) then false
  else if negb (bool_decide (block_size ∈ [32; 64; 128])) then false
  else if negb (output_channel mod 32 =? 0) then false
  else available.

Definition IsValidLPBQPerBlockIntScale (per_block_int_scale : list Z) : bool :=
  forallb (fun s => (1 <=? s) && (s <=? 16)) per_block_int_scale.

End TensorInfo.

(** ** Zero points *)

(** The number of bytes of [n] packed elements. *)
Definition storage (t : ONNXTensorElementDataType) (n : nat) : nat :=
  match t with
  | ONNX_INT4 | ONNX_UINT4 => ((n + 1) / 2)%nat
  | ONNX_INT2 | ONNX_UINT2 => ((n + 3) / 4)%nat
  | ONNX_INT16 | ONNX_UINT16 => (2 * n)%nat
  | ONNX_INT32 | ONNX_UINT32 | ONNX_FLOAT => (4 * n)%nat
  | ONNX_FLOAT16 | ONNX_BFLOAT16 => (2 * n)%nat
  | _ => n
  end.

(** The integers of a tensor, as ONNX stores them. *)
Definition onnx_integers (t : ONNXTensorElementDataType) (n : nat) (raw : list Z) : list Z :=
  match t with
  | ONNX_INT4 => unpacked (Int4x2.GetElem true) 2 n raw
  | ONNX_UINT4 => unpacked (Int4x2.GetElem false) 2 n raw
  | ONNX_INT2 => unpacked (Int2x4.GetElem true) 4 n raw
  | ONNX_UINT2 => unpacked (Int2x4.GetElem false) 4 n raw
  | ONNX_INT8 => read_elem int8_t raw <$> seq 0 n
  | ONNX_INT16 => read_elem int16_t raw <$> seq 0 n
  | ONNX_UINT16 => read_elem uint16_t raw <$> seq 0 n
  | ONNX_INT32 => read_elem int32_t raw <$> seq 0 n
  | ONNX_UINT32 => read_elem uint32_t raw <$> seq 0 n
  | _ => read_elem uint8_t raw <$> seq 0 n
  end.

Definition zero_point_types : list ONNXTensorElementDataType :=
  [ONNX_INT2; ONNX_INT4; ONNX_INT8; ONNX_UINT4; ONNX_UINT2; ONNX_UINT8; ONNX_UINT16; ONNX_INT16; ONNX_INT32; ONNX_UINT32].

Lemma onnx_integers_length t n raw : length (onnx_integers t n raw) = n.
Proof. destruct t; cbn; by rewrite ?length_unpacked, ?length_fmap, ?length_seq. Qed.

Lemma read_byte T raw i b : q_size T = 1%nat → in_u 8 b → raw !! i = Some b →
  read_elem T raw i = if q_lowest T <? 0 then i8 b else b.
Proof.
  intros HT Hb Hi. unfold read_elem, element. rewrite HT, Nat.mul_1_r.
  rewrite (drop_S raw b) by done. cbn [take le_decode]. rewrite Z.mul_0_r, Z.add_0_r. done.
Qed.

Lemma reinterpret_spec T raw n : (0 < q_size T)%nat → length raw = (q_size T * n)%nat →
  reinterpret T raw = Ok (read_elem T raw <$> seq 0 n).
Proof.
  intros HT Hl. unfold reinterpret. rewrite Hl, Nat.mul_comm, Nat.Div0.mod_mul, Nat.div_mul by lia. done.
Qed.

(** A field of a packed byte, expanded and read back. *)
Lemma signed4_field b c : in_u 8 b → (c < 2)%nat →
  Int4x2.SignExtendLower4Bits (u8 (i8 (expand4 (Int4x2.GetElem true b c)))) = Int4x2.GetElem true b c.
Proof.
  intros Hb Hc. unfold in_u in Hb.
  assert (forall_below 256 (fun b => forallb (fun c =>
    Int4x2.SignExtendLower4Bits (u8 (i8 (expand4 (Int4x2.GetElem true b c)))) =? Int4x2.GetElem true b c) (seq 0 2)) = true)
    as Hall by (by vm_compute).
  pose proof (forall_below_spec _ _ Hall b ltac:(lia)) as H. cbn beta in H. rewrite forallb_forall in H.
  apply Z.eqb_eq, H, in_seq. lia.
Qed.

Lemma signed2_field b c : in_u 8 b → (c < 4)%nat →
  Int2x4.SignExtendLower2Bits (u8 (i8 (expand2 (Int2x4.GetElem true b c)))) = Int2x4.GetElem true b c.
Proof.
  intros Hb Hc. unfold in_u in Hb.
  assert (forall_below 256 (fun b => forallb (fun c =>
    Int2x4.SignExtendLower2Bits (u8 (i8 (expand2 (Int2x4.GetElem true b c)))) =? Int2x4.GetElem true b c) (seq 0 4)) = true)
    as Hall by (by vm_compute).
  pose proof (forall_below_spec _ _ Hall b ltac:(lia)) as H. cbn beta in H. rewrite forallb_forall in H.
  apply Z.eqb_eq, H, in_seq. lia.
Qed.

(** An unsigned field is a byte. *)
Lemma unsigned_field b c : in_u 8 b →
  ((c < 2)%nat → in_u 8 (Int4x2.GetElem false b c)) ∧ ((c < 4)%nat → in_u 8 (Int2x4.GetElem false b c)).
Proof.
  intros Hb. unfold in_u in *.
  assert (forall_below 256 (fun b =>
    forallb (fun c => (0 <=? Int4x2.GetElem false b c) && (Int4x2.GetElem false b c <? 256)) (seq 0 2) &&
    forallb (fun c => (0 <=? Int2x4.GetElem false b c) && (Int2x4.GetElem false b c <? 256)) (seq 0 4)) = true)
    as Hall by (by vm_compute).
  pose proof (forall_below_spec _ _ Hall b ltac:(lia)) as H. cbn beta in H.
  apply andb_true_iff in H as [H1 H2]. rewrite forallb_forall in H1, H2.
  split; intros Hc; [specialize (H1 c)|specialize (H2 c)]; rewrite in_seq in *;
    [destruct (andb_prop _ _ (H1 ltac:(lia)))|destruct (andb_prop _ _ (H2 ltac:(lia)))]; lia.
Qed.

Lemma expand_range v : in_u 8 (expand4 v) ∧ in_u 8 (expand2 v).
Proof. split; apply wrapu_range; lia. Qed.

(** The bytes of a buffer that is one byte per field, read and extended. *)
Lemma reread (get : Z → nat → Z) per (ex se : Z → Z) n raw : (0 < per)%nat → (n ≤ per * length raw)%nat →
  Forall (in_u 8) raw → (∀ b c, in_u 8 b → (c < per)%nat → in_u 8 (ex (get b c)) ∧ se (ex (get b c)) = get b c) →
  Forall (in_u 8) (ex <$> unpacked get per n raw) ∧ se <$> (ex <$> unpacked get per n raw) = unpacked get per n raw.
Proof.
  intros Hper Hn Hraw H.
  assert (∀ i, (i < n)%nat → in_u 8 (getd raw (i / per))) as Hin.
  { intros i Hi. destruct (lookup_lt_is_Some_2 raw (i / per)) as [b Hb].
    - apply Nat.Div0.div_lt_upper_bound. lia.
    - rewrite (getd_lookup _ _ _ Hb). by eapply Forall_lookup_1. }
  split.
  - rewrite Forall_fmap. apply Forall_lookup_2. intros i x Hx. apply lookup_fmap_seq in Hx as [Hi ->].
    apply H; [auto|apply Nat.mod_upper_bound; lia].
  - rewrite <- !list_fmap_compose. trans (id <$> unpacked get per n raw); [|apply list_fmap_id].
    apply list_fmap_ext. intros i x Hx. apply lookup_fmap_seq in Hx as [Hi ->].
    apply H; [auto|apply Nat.mod_upper_bound; lia].
Qed.

Lemma read_bytes T l : q_size T = 1%nat → Forall (in_u 8) l →
  read_elem T l <$> seq 0 (length l) = (λ b, if q_lowest T <? 0 then i8 b else b) <$> l.
Proof.
  intros HT Hl. apply list_eq. intros i. rewrite !list_lookup_fmap.
  destruct (l !! i) as [b|] eqn:Hi.
  - rewrite lookup_seq_lt by (by eapply lookup_lt_Some). cbn. f_equal.
    apply read_byte; [done|by eapply Forall_lookup_1|done].
  - apply lookup_ge_None in Hi. rewrite lookup_seq_ge by done. done.
Qed.

Section ZeroPoints.
Context (env : environment) (graph : OrtGraph).

(** An initializer of [n] elements of type [t] whose bytes are [raw]. *)
Record initializer_data (v : option ValueInfo) (t : ONNXTensorElementDataType) (n : nat) (raw : list Z) : Prop := {
  id_type : elem_type_of graph v = Ok t;
  id_raw : raw_initializer graph v = Ok raw;
  id_count : num_elements v = n;
  id_small : Z.of_nat n < 2 ^ 64 - 3;
  id_bytes : Forall (in_u 8) raw;
  id_size : length raw = storage t n
}.

Lemma zero_point_values_spec v t n raw : initializer_data v t n raw → t ∈ zero_point_types →
  (let* bytes := UnpackInitializerData graph v true in zero_point_values t bytes) = Ok (onnx_integers t n raw).
Proof.
  intros [Ht Hr Hn Hs Hb Hl] Hin. unfold UnpackInitializerData. rewrite Hr, Ht. cbn [rbind negb].
  rewrite Hn.
  assert (t = ONNX_INT4 ∨ t = ONNX_INT2 ∨ t = ONNX_UINT4 ∨ t = ONNX_UINT2 ∨
    t ∈ [ONNX_INT8; ONNX_UINT8; ONNX_UINT16; ONNX_INT16; ONNX_INT32; ONNX_UINT32]) as H by set_solver.
  destruct H as [-> | [-> | [-> | [-> | H]]]]; cbn [storage onnx_integers] in *.
  - rewrite UnpackInt4ToInt8_spec by (lia || by symmetry). cbn [rbind]. apply eq_sym, half_cover in Hl.
    destruct (reread (Int4x2.GetElem true) 2 expand4 (λ e, Int4x2.SignExtendLower4Bits (u8 (i8 e))) n raw)
      as [Hu E]; [lia|lia|done| |].
    { intros b c ??. split; [apply expand_range|by apply signed4_field]. }
    unfold zero_point_values. rewrite (reinterpret_spec _ _ n) by (cbn; rewrite ?length_fmap, ?length_unpacked; lia).
    cbn [rmap]. f_equal. pose proof (read_bytes int8_t _ eq_refl Hu) as E2. rewrite length_fmap, length_unpacked in E2.
    rewrite E2. etransitivity; [|exact E]. by rewrite <- list_fmap_compose.
  - rewrite UnpackInt2ToInt8_spec by (lia || by symmetry). cbn [rbind]. apply eq_sym, quarter_cover in Hl.
    destruct (reread (Int2x4.GetElem true) 4 expand2 (λ e, Int2x4.SignExtendLower2Bits (u8 (i8 e))) n raw)
      as [Hu E]; [lia|lia|done| |].
    { intros b c ??. split; [apply expand_range|by apply signed2_field]. }
    unfold zero_point_values. rewrite (reinterpret_spec _ _ n) by (cbn; rewrite ?length_fmap, ?length_unpacked; lia).
    cbn [rmap]. f_equal. pose proof (read_bytes int8_t _ eq_refl Hu) as E2. rewrite length_fmap, length_unpacked in E2.
    rewrite E2. etransitivity; [|exact E]. by rewrite <- list_fmap_compose.
  - unfold UnpackInt4ToInt8. rewrite Unpack4_spec by (rewrite length_replicate; first [lia | by symmetry]).
    cbn [rbind return_if_not]. rewrite length_replicate. apply eq_sym, half_cover in Hl.
    destruct (reread (Int4x2.GetElem false) 2 id id n raw) as [Hu E]; [lia|lia|done| |].
    { intros b c ??. split; [by apply unsigned_field|done]. }
    rewrite list_fmap_id in Hu. unfold zero_point_values.
    rewrite (reinterpret_spec _ _ n) by (cbn; rewrite ?length_unpacked; lia). f_equal.
    pose proof (read_bytes uint8_t _ eq_refl Hu) as E2. rewrite length_unpacked in E2. rewrite E2. apply list_fmap_id.
  - unfold UnpackInt2ToInt8. rewrite Unpack2_spec by (rewrite length_replicate; first [lia | by symmetry]).
    cbn [rbind return_if_not]. rewrite length_replicate. apply eq_sym, quarter_cover in Hl.
    destruct (reread (Int2x4.GetElem false) 4 id id n raw) as [Hu E]; [lia|lia|done| |].
    { intros b c ??. split; [by apply unsigned_field|done]. }
    rewrite list_fmap_id in Hu. unfold zero_point_values.
    rewrite (reinterpret_spec _ _ n) by (cbn; rewrite ?length_unpacked; lia). f_equal.
    pose proof (read_bytes uint8_t _ eq_refl Hu) as E2. rewrite length_unpacked in E2. rewrite E2. apply list_fmap_id.
  - assert (∃ T, (0 < q_size T)%nat ∧ storage t n = (q_size T * n)%nat ∧
      zero_point_values t raw = reinterpret T raw ∧ onnx_integers t n raw = read_elem T raw <$> seq 0 n) as (T & HT & HsT & E1 & E2).
    { repeat (apply elem_of_cons in H as [-> |H]);
        [exists int8_t|exists uint8_t|exists uint16_t|exists int16_t|exists int32_t|exists uint32_t|by apply elem_of_nil in H];
        cbn; repeat split; lia. }
    assert (match t with
      | ONNX_INT4 => UnpackInt4ToInt8 true n raw | ONNX_UINT4 => UnpackInt4ToInt8 false n raw
      | ONNX_INT2 => UnpackInt2ToInt8 true n raw | ONNX_UINT2 => UnpackInt2ToInt8 false n raw
      | _ => Ok raw end = Ok raw) as ->.
    { by repeat (apply elem_of_cons in H as [-> |H]); [..|apply elem_of_nil in H]. }
    cbn [rbind]. rewrite E1, E2. apply reinterpret_spec; [done|]. by rewrite Hl.
Qed.

(** [UnpackZeroPoints] returns the ONNX zero points with the opposite sign. *)
Lemma zero_points_negated v t n raw : initializer_data v t n raw → t ∈ zero_point_types →
  Forall (λ z, - 2 ^ 31 < z < 2 ^ 31) (onnx_integers t n raw) →
  UnpackZeroPoints graph v = Ok (Z.opp <$> onnx_integers t n raw, t).
Proof.
  intros Hd Hin Hr. pose proof (zero_point_values_spec v t n raw Hd Hin) as E. destruct Hd as [Ht _ _ _ _ _].
  unfold UnpackZeroPoints. destruct v as [v|]; [|discriminate Ht].
  rewrite bool_decide_false by done. cbn [return_if return_if_not negb rbind]. rewrite Ht. cbn [rbind].
  destruct (UnpackInitializerData graph (Some v) true) as [bytes|]; cbn [rbind] in *; [|done]. rewrite E. cbn [rbind].
  assert (mapM_res (λ zp, neg_i32 (i32 zp)) (onnx_integers t n raw) = Ok (Z.opp <$> onnx_integers t n raw)) as ->; [|done].
  clear E. induction Hr as [|z l Hz Hl IH]; [done|]. cbn [mapM_res fmap list_fmap].
  assert (neg_i32 (i32 z) = Ok (- z)) as ->.
  { rewrite wraps_id by (lia || (red; lia)). unfold neg_i32. by rewrite (proj2 (Z.eqb_neq _ _)) by lia. }
  cbn [rbind]. by rewrite IH.
Qed.

End ZeroPoints.

(** ** Parameters of a quantized tensor *)

(** The scale and offset that a wrapper gives to a channel. *)
Definition channel_params (w : QnnQuantParamsWrapper) (c : nat) : option (float * Z) :=
  match quantizationEncoding (params_ w) with
  | SCALE_OFFSET s o | BW_SCALE_OFFSET _ s o => Some (s, o)
  | AXIS_SCALE_OFFSET _ _ (Some so) => (λ x, (so_scale x, so_offset x)) <$> so !! c
  | BW_AXIS_SCALE_OFFSET _ _ _ (Some s) (Some o) => zip s o !! c
  | _ => None
  end.

Lemma per_channel_offsets_spec zps n offsets : per_channel_offsets n zps = Ok offsets →
  (zps = [] ∨ length zps = n) ∧ length offsets = n ∧ ∀ c, (c < n)%nat → offsets !! c = Some (default 0 (zps !! c)).
Proof.
  unfold per_channel_offsets. intros E. apply bind_Ok in E as ([] & _ & E). apply bind_Ok in E as ([] & H & E).
  apply return_if_not_Ok in H. apply collect_from_inv in E as [Hl Hk].
  assert (zps = [] ∨ length zps = n) as Hz.
  { apply orb_true_iff in H as [H%bool_decide_eq_true|H%Nat.eqb_eq]; eauto. }
  split_and!; [done..|]. intros c Hc. destruct (Hk c Hc) as (x & -> & Hx). cbn in Hx. f_equal.
  case_bool_decide as Hn; [subst; cbn; by injection Hx|]. apply aget_Ok in Hx. by rewrite Hx.
Qed.

Section FromOnnx.
Context (env : environment) (graph : OrtGraph) (io : OrtNodeUnitIODef) (qp : QuantParam).
Context (scales : list float) (zps : list Z) (int4 : bool).
Hypothesis Hqp : quant_param io = Some qp.
Hypothesis Hscales : UnpackScales graph (scale qp) = Ok scales.
Hypothesis Hnoblock : match block_size qp with Some b => b ≤ 0 | None => True end.
(** The zero points as [Init] has them: none, or the negated ones. *)
Hypothesis Hzps : match zero_point qp with
  | None => zps = [] ∧ int4 = false
  | Some _ => ∃ t, UnpackZeroPoints graph (zero_point qp) = Ok (zps, t) ∧
      int4 = bool_decide (t = ONNX_INT4) || bool_decide (t = ONNX_UINT4)
  end.

Lemma not_block : match block_size qp with Some b => 0 <? b | None => false end = false.
Proof using Hnoblock. destruct (block_size qp); [|done]. apply Z.ltb_ge. lia. Qed.

Lemma init_unfold : Init_io env graph default_wrapper io =
  (let defined e owned := set_params default_wrapper (QuantizeParams DEFINITION_DEFINED e) owned in
   if (length scales =? 1)%nat then
     let* s := aget scales 0 in
     let* offset := per_tensor_offset qp zps in
     Ok (defined (if int4 then BW_SCALE_OFFSET 4 s offset else SCALE_OFFSET s offset) false)
   else if (1 <? length scales)%nat then
     let* axis := per_channel_axis io qp in
     let* offsets := per_channel_offsets (length scales) zps in
     let n := u32 (Z.of_nat (length scales)) in
     Ok (defined (if int4 then BW_AXIS_SCALE_OFFSET 4 (i32 axis) n (Some scales) (Some offsets)
                  else AXIS_SCALE_OFFSET (i32 axis) n (Some (zip_with ScaleOffset scales offsets))) true)
   else Err (EpFail "Unexpected tensor kind for QuantParamsWrapper::Init()")).
Proof using All.
  unfold Init_io. cbn [reset_per_channel default_wrapper per_channel_data_]. rewrite Hqp, Hscales. cbn [rbind].
  rewrite not_block. destruct (zero_point qp) as [z|] eqn:Ez.
  - destruct Hzps as (t & -> & ->). cbn [rbind]. rewrite !andb_true_r. done.
  - destruct Hzps as [-> ->]. cbn [rbind]. rewrite !andb_true_r. done.
Qed.

Lemma init_channels w : Z.of_nat (length scales) < 2 ^ 32 → Init_io env graph default_wrapper io = Ok w →
  wf w ∧ IsQuantized w = true ∧
  (∀ c s, scales !! c = Some s → channel_params w c = Some (s, default 0 (zps !! c))) ∧
  (IsPerChannel w = true ↔ (1 < length scales)%nat) ∧
  ((1 < length scales)%nat → ∃ a, per_channel_axis io qp = Ok a ∧ axis_of (quantizationEncoding (params_ w)) = Some (i32 a)).
Proof using All.
  intros Hlen E. rewrite init_unfold in E. cbn zeta in E.
  destruct (Nat.eqb_spec (length scales) 1) as [H1|H1].
  - apply bind_Ok in E as (s & Hs & E). apply bind_Ok in E as (o & Ho & E). injection E as <-. apply aget_Ok in Hs.
    assert (o = default 0 (zps !! O)) as ->.
    { unfold per_tensor_offset in Ho. destruct (zero_point qp) as [z|]; simplify_res.
      - apply aget_Ok in Ho. by rewrite Ho.
      - by destruct Hzps as [-> _]. }
    split; [by intros _; destruct int4|]. split; [done|]. split.
    { intros [|c] s' Hc; [|apply lookup_lt_Some in Hc; lia]. rewrite Hs in Hc. injection Hc as <-. by destruct int4. }
    split; [destruct int4; split; [done|lia|done|lia]|lia].
  - destruct (Nat.ltb_spec 1 (length scales)) as [H2|H2]; [|done].
    apply bind_Ok in E as (a & Ha & E). apply bind_Ok in E as (offs & Ho & E). injection E as <-.
    apply per_channel_offsets_spec in Ho as (_ & Hlo & Ho). rewrite (u32_length scales) by done.
    assert (0 < Z.of_nat (length scales)) as Hpos by lia.
    split.
    { intros _. destruct int4; cbn; rewrite ?length_zip_with; lia. }
    split; [done|]. split.
    { intros c s Hc. pose proof (lookup_lt_Some _ _ _ Hc) as Hlt. pose proof (Ho c Hlt) as Hoc.
      unfold channel_params. destruct int4; cbn.
      - apply lookup_zip_with_Some. eauto.
      - rewrite (proj2 (lookup_zip_with_Some _ _ _ _ (ScaleOffset s (default 0 (zps !! c)))) ltac:(eauto)). done. }
    split; [destruct int4; split; done|]. intros _. exists a. split; [done|]. by destruct int4.
Qed.

End FromOnnx.

(** [ComputeBQOffsets] subtracts the zero points that [UnpackZeroPoints] has already negated,
    so that they enter with a positive sign. *)
Lemma bq_offsets_add_zero_points (graph : OrtGraph) v t n raw (unsigned : bool) bits :
  initializer_data graph v t n raw → t ∈ zero_point_types →
  Forall (λ z, - 2 ^ 31 < z < 2 ^ 31) (onnx_integers t n raw) → (0 < n)%nat →
  ComputeBQOffsets graph v unsigned bits (Z.of_nat n) =
  Ok ((λ z, f32_sub (if unsigned then f32_of_Z (u32 (2 ^ (bits - 1))) else f_zero) (f32_of_Z (- z))) <$> onnx_integers t n raw).
Proof.
  intros Hd Ht Hr Hn. pose proof (zero_points_negated graph v t n raw Hd Ht Hr) as E.
  unfold ComputeBQOffsets. rewrite (proj2 (Z.leb_gt _ _)) by lia. cbn [return_if return_if_not negb rbind].
  destruct v as [v|]; [|destruct Hd as [[=] _ _ _ _ _]]. rewrite E. cbn [rbind].
  rewrite length_fmap, onnx_integers_length, Z.eqb_refl. cbn [return_if_not rbind].
  by rewrite <- list_fmap_compose.
Qed.

Definition example_value (name : string) : ValueInfo := Value name (Some [1]) None [] false.

(** One scale of 0.5 and one zero point of 3, of type [t]. *)
Definition example_graph (t : ONNXTensorElementDataType) : OrtGraph :=
  Graph (λ n, if bool_decide (n = "s") then Some ONNX_FLOAT else Some t)
    (λ v, match v with
          | Some v => if bool_decide (vi_name v = "s") then Ok [0; 0; 0; 63] else Ok [3]
          | None => Err (EpFail "null")
          end)
    (λ _, Err (EpFail "not found")) (λ _, None) (λ _, []).

(** The offset of a signed 8-bit weight with zero point 3 is 3; the comment of the function
    says -3. *)
Lemma bq_offset_sign :
  ComputeBQOffsets (example_graph ONNX_INT8) (Some (example_value "z")) false 8 1 = Ok [f32_of_Z 3].
Proof. reflexivity. Qed.

(** ** Claims *)

(** *** The numbers of an ONNX tensor

    Element [c] of the raw data of a tensor, described by arithmetic on its bytes and independently of
    the functions that unpack it: bytes are little-endian, two 4-bit or four 2-bit elements share a
    byte with the first in the low bits, and signed integers are in two's complement. *)
Definition word (k : nat) (raw : list Z) (c : nat) : Z := foldr (fun i v => getd raw (k * c + i) + 256 * v) 0 (seq 0 k).
Definition field (bits per : nat) (raw : list Z) (c : nat) : Z :=
  (getd raw (c / per) / 2 ^ (Z.of_nat bits * Z.of_nat (c mod per))) mod 2 ^ Z.of_nat bits.
Definition as_signed (w v : Z) : Z := if v <? 2 ^ (w - 1) then v else v - 2 ^ w.

Definition onnx_integer (t : ONNXTensorElementDataType) (raw : list Z) (c : nat) : Z :=
  match t with
  | ONNX_INT2 => as_signed 2 (field 2 4 raw c)
  | ONNX_UINT2 => field 2 4 raw c
  | ONNX_INT4 => as_signed 4 (field 4 2 raw c)
  | ONNX_UINT4 => field 4 2 raw c
  | ONNX_INT8 => as_signed 8 (word 1 raw c)
  | ONNX_INT16 => as_signed 16 (word 2 raw c)
  | ONNX_UINT16 => word 2 raw c
  | ONNX_INT32 => as_signed 32 (word 4 raw c)
  | ONNX_UINT32 => word 4 raw c
  | _ => word 1 raw c
  end.

Definition onnx_float (t : ONNXTensorElementDataType) (raw : list Z) (c : nat) : float :=
  match t with
  | ONNX_FLOAT16 => f32_of_f16_bits (word 2 raw c)
  | ONNX_BFLOAT16 => f32_of_bits (word 2 raw c * 2 ^ 16)
  | _ => f32_of_bits (word 4 raw c)
  end.

Lemma decode_word k raw c : (k * c + k ≤ length raw)%nat → le_decode (element k raw c) = word k raw c.
Proof.
  unfold element, word. rewrite (Nat.mul_comm c k). generalize (k * c)%nat. clear c.
  induction k as [|k IH]; intros s Hs; [done|]. destruct (lookup_lt_is_Some_2 raw s) as [b Hb]; [lia|].
  rewrite (drop_S raw b s Hb). cbn [take le_decode seq foldr]. rewrite Nat.add_0_r, (getd_lookup _ _ _ Hb), (IH (S s)) by lia.
  rewrite <- fmap_S_seq, foldr_fmap. f_equal. f_equal. apply foldr_ext; [|done|done]. intros i v. do 2 f_equal. lia.
Qed.

Lemma word_range k raw c : Forall (in_u 8) raw → 0 ≤ word k raw c < 2 ^ (8 * Z.of_nat k).
Proof.
  intros Hr. unfold word. generalize (k * c)%nat as s. intros s.
  assert (∀ n a, 0 ≤ foldr (λ i v, getd raw (s + i) + 256 * v) 0 (seq a n) < 2 ^ (8 * Z.of_nat n)) as H; [|by apply H].
  induction n as [|n IH]; intros a; [done|]. cbn [seq foldr]. specialize (IH (S a)).
  assert (0 ≤ getd raw (s + a) < 256) as Hb.
  { unfold getd. destruct (raw !! (s + a)%nat) as [b|] eqn:E; [|cbn; lia]. exact (Forall_lookup_1 _ _ _ _ Hr E). }
  replace (8 * Z.of_nat (S n)) with (8 + 8 * Z.of_nat n) by lia. rewrite Z.pow_add_r by lia. change (2 ^ 8) with 256. lia.
Qed.

Lemma read_word T raw c : (0 < q_size T)%nat → Forall (in_u 8) raw → (q_size T * c + q_size T ≤ length raw)%nat →
  read_elem T raw c =
    if q_lowest T <? 0 then as_signed (8 * Z.of_nat (q_size T)) (word (q_size T) raw c) else word (q_size T) raw c.
Proof.
  intros H0 Hr Hl. unfold read_elem. rewrite decode_word by done. destruct (q_lowest T <? 0); [|done].
  pose proof (word_range (q_size T) raw c Hr) as H. set (w := 8 * Z.of_nat (q_size T)) in *.
  unfold wraps, as_signed. assert (2 ^ w = 2 * 2 ^ (w - 1)) as Ew by (rewrite <- Z.pow_succ_r by lia; f_equal; lia).
  destruct (Z.ltb_spec (word (q_size T) raw c) (2 ^ (w - 1))).
  - rewrite Z.mod_small by lia. lia.
  - rewrite <- (Z.mod_add _ (-1)) by lia. rewrite Z.mod_small by lia. lia.
Qed.

Lemma field_elem (signed : bool) b c : in_u 8 b →
  ((c < 2)%nat → Int4x2.GetElem signed b c = (if signed then as_signed 4 else id) ((b / 2 ^ (4 * Z.of_nat c)) mod 2 ^ 4)) ∧
  ((c < 4)%nat → Int2x4.GetElem signed b c = (if signed then as_signed 2 else id) ((b / 2 ^ (2 * Z.of_nat c)) mod 2 ^ 2)).
Proof.
  intros Hb. unfold in_u in Hb.
  assert (forall_below 256 (fun b => forallb (fun sg : bool =>
    forallb (fun c => Int4x2.GetElem sg b c =? (if sg then as_signed 4 else id) ((b / 2 ^ (4 * Z.of_nat c)) mod 2 ^ 4)) (seq 0 2) &&
    forallb (fun c => Int2x4.GetElem sg b c =? (if sg then as_signed 2 else id) ((b / 2 ^ (2 * Z.of_nat c)) mod 2 ^ 2)) (seq 0 4))
    [true; false]) = true) as Hall by (by vm_compute).
  pose proof (forall_below_spec _ _ Hall b ltac:(lia)) as H. cbn beta in H. rewrite forallb_forall in H.
  specialize (H signed ltac:(destruct signed; cbn; auto)). apply andb_true_iff in H as [H4 H2].
  rewrite forallb_forall in H4, H2. split; intros Hc; apply Z.eqb_eq; [apply H4|apply H2]; apply in_seq; lia.
Qed.

Lemma onnx_integers_spec t n raw : t ∈ zero_point_types → Forall (in_u 8) raw → length raw = storage t n →
  onnx_integers t n raw = onnx_integer t raw <$> seq 0 n.
Proof.
  intros Ht Hr Hl.
  assert (∀ T, storage t n = (q_size T * n)%nat → ∀ i, (i < n)%nat → (q_size T * i + q_size T ≤ length raw)%nat) as Hw
    by (intros T E i Hi; rewrite Hl, E; nia).
  assert (∀ (sg : bool) i, (i < length raw)%nat → in_u 8 (getd raw i)) as Hb.
  { intros _ i Hi. destruct (lookup_lt_is_Some_2 raw i Hi) as [b E]. rewrite (getd_lookup _ _ _ E). exact (Forall_lookup_1 _ _ _ _ Hr E). }
  assert (∀ f g : nat → Z, (∀ i, (i < n)%nat → f i = g i) → f <$> seq 0 n = g <$> seq 0 n) as Hext.
  { intros f g H. apply list_fmap_ext. intros i x [-> Hx]%lookup_seq. apply H. lia. }
  repeat (apply elem_of_cons in Ht as [->|Ht]); [..|by apply elem_of_nil in Ht]; cbn [onnx_integers onnx_integer storage] in *; apply Hext; intros i Hi;
    unfold field.
  - rewrite (proj2 (field_elem true _ (i mod 4) (Hb true (i / 4)%nat ltac:(apply Nat.Div0.div_lt_upper_bound; apply eq_sym, quarter_cover in Hl; lia)))) by (apply Nat.mod_upper_bound; lia). done.
  - rewrite (proj1 (field_elem true _ (i mod 2) (Hb true (i / 2)%nat ltac:(apply Nat.Div0.div_lt_upper_bound; apply eq_sym, half_cover in Hl; lia)))) by (apply Nat.mod_upper_bound; lia). done.
  - apply (read_word int8_t); [cbn; lia|done|cbn in *; lia].
  - rewrite (proj1 (field_elem false _ (i mod 2) (Hb true (i / 2)%nat ltac:(apply Nat.Div0.div_lt_upper_bound; apply eq_sym, half_cover in Hl; lia)))) by (apply Nat.mod_upper_bound; lia). done.
  - rewrite (proj2 (field_elem false _ (i mod 4) (Hb true (i / 4)%nat ltac:(apply Nat.Div0.div_lt_upper_bound; apply eq_sym, quarter_cover in Hl; lia)))) by (apply Nat.mod_upper_bound; lia). done.
  - apply (read_word uint8_t); [cbn; lia|done|cbn in *; lia].
  - apply (read_word uint16_t); [cbn; lia|done|cbn in *; lia].
  - apply (read_word int16_t); [cbn; lia|done|cbn in *; lia].
  - apply (read_word int32_t); [cbn; lia|done|cbn in *; lia].
  - apply (read_word uint32_t); [cbn; lia|done|cbn in *; lia].
Qed.

Definition scale_types : list ONNXTensorElementDataType := [ONNX_FLOAT; ONNX_FLOAT16; ONNX_BFLOAT16].

Lemma unpack_scales graph v t n raw : initializer_data graph v t n raw → t ∈ scale_types →
  UnpackScales graph v = Ok (onnx_float t raw <$> seq 0 n).
Proof.
  intros [Ht Hr Hn _ _ Hl] Hin. unfold UnpackScales. destruct v as [v|]; [|discriminate Ht].
  cbn [bool_decide return_if rbind]. rewrite bool_decide_false by done. cbn [return_if rbind]. rewrite Ht. cbn [rbind].
  rewrite bool_decide_true by done. cbn [return_if_not rbind]. unfold UnpackInitializerData. rewrite Hr, Ht. cbn [rbind negb].
  assert (∀ k (f : Z → float), (0 < k)%nat → length raw = (k * n)%nat →
    f <$> elements k raw = (fun c => f (word k raw c)) <$> seq 0 n) as He.
  { intros k f Hk Hlen. unfold elements. rewrite Hlen, Nat.mul_comm, Nat.div_mul, <- list_fmap_compose by lia.
    apply list_fmap_ext. intros i x [-> Hx]%lookup_seq. cbn. f_equal. apply decode_word. nia. }
  repeat (apply elem_of_cons in Hin as [->|Hin]); [..|by apply elem_of_nil in Hin]; cbn [negb return_if return_if_not rbind storage] in *; f_equal.
  - by apply (He 4%nat f32_of_bits); [lia|].
  - by apply (He 2%nat f32_of_f16_bits); [lia|].
  - by apply (He 2%nat f32_of_bf16_bits); [lia|].
Qed.

(** The parameters from the unpacked scales. *)
Lemma quant_params_from_scales (env : environment) (graph : OrtGraph) (io : OrtNodeUnitIODef) (qp : QuantParam)
  (scales : list float) (t : ONNXTensorElementDataType) (n : nat) (raw : list Z) :
  quant_param io = Some qp → match block_size qp with Some b => b ≤ 0 | None => True end →
  UnpackScales graph (scale qp) = Ok scales → scales ≠ [] → Z.of_nat (length scales) < 2 ^ 32 →
  is_Some (zero_point qp) → initializer_data graph (zero_point qp) t n raw → t ∈ zero_point_types →
  Forall (λ z, - 2 ^ 31 < z < 2 ^ 31) (onnx_integers t n raw) → (0 < n)%nat →
  (n = length scales → ((1 < length scales)%nat → is_ok (per_channel_axis io qp) = true) →
   ∃ w, Init_io env graph default_wrapper io = Ok w ∧ wf w ∧ IsQuantized w = true ∧
     (∀ c s, scales !! c = Some s → ∃ z, onnx_integers t n raw !! c = Some z ∧ channel_params w c = Some (s, - z)) ∧
     (IsPerChannel w = true ↔ (1 < length scales)%nat) ∧
     ((1 < length scales)%nat → ∃ sh a, onnx_shape_of io = Ok sh ∧
        axis_of (quantizationEncoding (params_ w)) = Some (i32 a) ∧ 0 ≤ a < i32 (Z.of_nat (length sh)))) ∧
  (n ≠ length scales → is_ok (Init_io env graph default_wrapper io) = false).
Proof.
  intros Hqp Hb Hs Hne Hlen [z Hz] Hd Ht Hr Hn.
  pose proof (zero_points_negated graph _ t n raw Hd Ht Hr) as Ezp.
  set (zps := Z.opp <$> onnx_integers t n raw) in *.
  assert (length zps = n) as Hlz by (unfold zps; by rewrite length_fmap, onnx_integers_length).
  set (int4 := bool_decide (t = ONNX_INT4) || bool_decide (t = ONNX_UINT4)).
  assert (match zero_point qp with
    | None => zps = [] ∧ int4 = false
    | Some _ => ∃ t, UnpackZeroPoints graph (zero_point qp) = Ok (zps, t) ∧
        int4 = bool_decide (t = ONNX_INT4) || bool_decide (t = ONNX_UINT4) end) as Hzps by (rewrite Hz in *; eauto).
  pose proof (init_unfold env graph io qp scales zps int4 Hqp Hs Hb Hzps) as Ei. cbn zeta in Ei.
  assert (length scales ≠ 0)%nat as Hl0 by (destruct scales; done).
  split.
  - intros -> Hax.
    assert (is_ok (Init_io env graph default_wrapper io) = true) as Hok.
    { rewrite Ei. destruct (Nat.eqb_spec (length scales) 1) as [H1|H1].
      - destruct (aget_lt scales 0) as (s & -> & _); [lia|]. unfold per_tensor_offset. rewrite Hz, Hlz, H1. cbn.
        by destruct (aget_lt zps 0) as (o & -> & _); [lia|].
      - rewrite (proj2 (Nat.ltb_lt _ _)) by lia. specialize (Hax ltac:(lia)).
        destruct (per_channel_axis io qp); [|done]. cbn [rbind]. unfold per_channel_offsets.
        rewrite (proj2 (Nat.ltb_lt _ _)) by lia. cbn [return_if_not rbind]. rewrite Hlz, Nat.eqb_refl, orb_true_r.
        cbn [return_if_not rbind]. rewrite bool_decide_false by (intros E; rewrite E in Hlz; done).
        rewrite (collect_Ok _ _ zps) by (done || intros; by apply aget_Ok). done. }
    destruct (Init_io env graph default_wrapper io) as [w|] eqn:Ew; [|done].
    destruct (init_channels env graph io qp scales zps int4 Hqp Hs Hb Hzps w Hlen Ew) as (Hwf & Hq & Hc & Hp & Ha).
    exists w. split_and!; try done.
    + intros c s Hcs. rewrite (Hc c s Hcs). pose proof (lookup_lt_Some _ _ _ Hcs).
      destruct (lookup_lt_is_Some_2 (onnx_integers t (length scales) raw) c) as [y Hy]; [by rewrite onnx_integers_length|].
      exists y. split; [done|]. unfold zps. by rewrite list_lookup_fmap, Hy.
    + intros H1. destruct (Ha H1) as (a & Ea & Haxis). unfold per_channel_axis in Ea. simplify_res.
      exists a0, (normalized_axis qp (i32 (Z.of_nat (length a0)))). split_and!; try done; lia.
  - intros Hneq. rewrite Ei. destruct (Nat.eqb_spec (length scales) 1) as [H1|H1].
    + destruct (aget scales 0); [|done]. cbn [rbind]. unfold per_tensor_offset. rewrite Hz, Hlz.
      rewrite (proj2 (Nat.eqb_neq n 1)) by lia. done.
    + destruct (1 <? length scales)%nat; [|done]. destruct (per_channel_axis io qp); [|done]. cbn [rbind].
      unfold per_channel_offsets. rewrite Hlz, (proj2 (Nat.eqb_neq _ _)) by done.
      rewrite bool_decide_false by (intros E; rewrite E in Hlz; cbn in Hlz; lia). by destruct (1 <? length scales)%nat.
Qed.

(** C21: the quantization parameters that the provider builds for an ONNX tensor that is quantized
    without blocks and has a zero point give channel [c] the number at position [c] of the scale
    initializer (a 32-bit or 16-bit float or a bfloat16) and the negation of the integer at position
    [c] of the zero-point initializer, whatever its integer type, packed 4-bit and 2-bit types
    included, both read from the raw bytes; they satisfy the invariant of the wrapper; they are
    per-channel exactly when there are several scales, and then the axis lies inside the shape.  A
    number of zero points that differs from the number of scales is refused.  (With blocks the sign of
    the offset differs, see [bq_offset_sign].) *)
Theorem quant_params_from_onnx (env : environment) (graph : OrtGraph) (io : OrtNodeUnitIODef) (qp : QuantParam)
  (ts t : ONNXTensorElementDataType) (k n : nat) (raw_scales raw : list Z) :
  quant_param io = Some qp → match block_size qp with Some b => b ≤ 0 | None => True end →
  initializer_data graph (scale qp) ts k raw_scales → ts ∈ scale_types → 0 < Z.of_nat k < 2 ^ 32 →
  is_Some (zero_point qp) → initializer_data graph (zero_point qp) t n raw → t ∈ zero_point_types →
  (∀ c, (c < n)%nat → - 2 ^ 31 < onnx_integer t raw c < 2 ^ 31) → (0 < n)%nat →
  (n = k → ((1 < k)%nat → is_ok (per_channel_axis io qp) = true) →
   ∃ w, Init_io env graph default_wrapper io = Ok w ∧ wf w ∧ IsQuantized w = true ∧
     (∀ c, (c < k)%nat → channel_params w c = Some (onnx_float ts raw_scales c, - onnx_integer t raw c)) ∧
     (IsPerChannel w = true ↔ (1 < k)%nat) ∧
     ((1 < k)%nat → ∃ sh a, onnx_shape_of io = Ok sh ∧
        axis_of (quantizationEncoding (params_ w)) = Some (i32 a) ∧ 0 ≤ a < i32 (Z.of_nat (length sh)))) ∧
  (n ≠ k → is_ok (Init_io env graph default_wrapper io) = false).
Proof.
  intros Hqp Hb Hs Hts Hk Hz Hd Ht Hr Hn.
  pose proof (onnx_integers_spec t n raw Ht (id_bytes _ _ _ _ _ Hd) (id_size _ _ _ _ _ Hd)) as Ei.
  assert (length (onnx_float ts raw_scales <$> seq 0 k) = k) as El by (by rewrite length_fmap, length_seq).
  destruct (quant_params_from_scales env graph io qp (onnx_float ts raw_scales <$> seq 0 k) t n raw) as [H1 H2]; try done.
  - by apply unpack_scales.
  - destruct k; [cbn in Hk; lia|done].
  - lia.
  - rewrite Ei, Forall_fmap. apply Forall_forall. intros c Hc. apply elem_of_seq in Hc. apply Hr. lia.
  - rewrite El in H1, H2. split; [|done]. intros -> Hax. destruct (H1 eq_refl Hax) as (w & Hw & Hwf & Hq & Hc & Hp & Ha).
    exists w. split_and!; try done. intros c Hck. destruct (Hc c (onnx_float ts raw_scales c)) as (z & Hz' & Hcz).
    { rewrite list_lookup_fmap, lookup_seq_lt by done. done. }
    rewrite Hcz. rewrite Ei, list_lookup_fmap, lookup_seq_lt in Hz' by done. injection Hz' as <-. done.
Qed.

Definition example_io : OrtNodeUnitIODef :=
  IODef "x" ONNX_INT4 (Some [2]) (Some (QuantParam_ (Some (example_value "s")) (Some (example_value "z")) None None)).

Lemma example_zero_point : initializer_data (example_graph ONNX_INT4) (Some (example_value "z")) ONNX_INT4 1 [3].
Proof. constructor; try done. repeat constructor; done. Qed.

Lemma example_scale : initializer_data (example_graph ONNX_INT4) (Some (example_value "s")) ONNX_FLOAT 1 [0; 0; 0; 63].
Proof. constructor; try done. repeat constructor; done. Qed.

Lemma quant_params_from_onnx_witness :
  ∃ w, Init_io (example_env false) (example_graph ONNX_INT4) default_wrapper example_io = Ok w ∧
    channel_params w 0 = Some (f32_div (f32_of_Z 1) (f32_of_Z 2), -3).
Proof.
  destruct (quant_params_from_onnx (example_env false) (example_graph ONNX_INT4) example_io
    (QuantParam_ (Some (example_value "s")) (Some (example_value "z")) None None)
    ONNX_FLOAT ONNX_INT4 1 1 [0; 0; 0; 63] [3]) as [H _]; try done.
  - exact example_scale.
  - unfold scale_types. set_solver.
  - exact example_zero_point.
  - unfold zero_point_types. set_solver.
  - intros [|c] Hc; [vm_compute; done|lia].
  - lia.
  - destruct H as (w & Hw & _ & _ & Hc & _); [done|lia|]. exists w. split; [exact Hw|].
    rewrite (Hc 0%nat) by lia. reflexivity.
Defined.
