(* ===== verification/ModelOps.v ===== *)
(** * Adding tensors and nodes to the model

    The methods of [QnnModelWrapper] in [builder/qnn_model_wrapper.{h,cc}] that add a tensor
    and a node at once ([AddCastNode], [AddReshapeNode], [AddTransposeNode] and the like),
    [AddQnnScalar], and the monad the op builders are written in.

    A builder runs on the model wrapper, ends with a value or with a failing status and keeps
    what it added in both cases; an exception ends the run.  [wp] is the weakest precondition
    of a builder for its result and the model it leaves, and includes what every builder owes
    the composition of the graph: the names in the list of nodes stay defined, nothing is
    taken back, and the QNN graph is not touched. *)

From stdpp Require Import pretty.
From S2P Require Import Prelude DataTypes Floats QuantParams Perm QnnTensor ModelWrapper NodeGroups NodeUnitDefs TensorInfo.
Local Open Scope Z_scope.

(** ** The monad *)

Section Monad.
Context `{QnnInterface}.

Definition M (A : Type) : Type := QnnModelWrapper → result (QnnModelWrapper * (string + A)).

Definition ret {A} (a : A) : M A := fun m => Ok (m, inr a).

Definition bind {A B} (c : M A) (k : A → M B) : M B := fun m =>
  match c m with
  | Err e => Err e
  | Ok (m, inl msg) => Ok (m, inl msg)
  | Ok (m, inr a) => k a m
  end.

(** A computation that does not change the model; its failing status is that of the builder. *)
Definition lift {A} (r : result A) : M A := fun m =>
  match r with
  | Ok a => Ok (m, inr a)
  | Err (EpFail msg) => Ok (m, inl msg)
  | Err e => Err e
  end.

Definition get {A} (f : QnnModelWrapper → A) : M A := fun m => Ok (m, inr (f m)).

(** [RETURN_IF_NOT] on a method that changes the model. *)
Definition require (f : QnnModelWrapper → result (bool * QnnModelWrapper)) (msg : string) : M unit := fun m =>
  match f m with
  | Err e => Err e
  | Ok (ok, m) => Ok (m, if ok : bool then inr tt else inl msg)
  end.

(** The same method with its answer ignored. *)
Definition perform (f : QnnModelWrapper → result (bool * QnnModelWrapper)) : M unit := fun m =>
  match f m with
  | Err e => Err e
  | Ok (_, m) => Ok (m, inr tt)
  end.

Fixpoint each {S A} (xs : list A) (body : S → A → M S) (s : S) : M S :=
  match xs with
  | [] => ret s
  | x :: xs => bind (body s x) (each xs body)
  end.

End Monad.

Notation "'let!' x ':=' c 'in' k" := (bind c (fun x => k))
  (at level 10, x pattern, c at level 200, k at level 200,
   format "'[v' 'let!'  x  ':='  c  'in' '/' k ']'") : res_scope.

(** ** Constants of the QNN headers

    The names of ops and parameters and the values of parameters, by the macro of [QnnOpDef.h]
    that holds them; the bit patterns of the NaNs that are written to constants. *)
Record QnnHeaders := Headers {
  macro : string → string;
  macro_value : string → Z;
  nan32 : Z;
  nan16 : Z;
  nan_bf16 : Z
}.

(** A node unit as the op builders see it: the inputs and outputs of the unit, those of its target
    node by name, and whether a Reshape after the target is part of the unit. *)
Record OrtNodeAttrHelper := Attributes {
  attr_int : string → option Z;
  attr_float : string → option float;
  attr_string : string → option string;
  attr_ints : string → option (list Z);
  attr_floats : string → option (list float)
}.

Record UnitView := View {
  u_name : string;
  u_op_type : string;
  u_index : nat;
  u_since_version : Z;
  u_domain : string;
  Inputs : list OrtNodeUnitIODef;
  Outputs : list OrtNodeUnitIODef;
  u_attributes : OrtNodeAttrHelper;
  u_node_inputs : list string;
  u_node_outputs : list string;
  u_output_reshape : bool
}.

Section ModelOps.
Context `{SafeInt} `{QnnInterface}.
Context (env : environment) (graph : OrtGraph) (qnn : QnnHeaders).

(** ** Names *)

Definition fresh (base suffix : string) : M string := fun m =>
  let '(n, counter) := New (name_counters m) base suffix in Ok (with_counters m counter, inr n).

Definition fresh_unit (u : UnitView) (suffix : string) : M string := fun m =>
  let '(n, counter) := New_unit (name_counters m) (u_name u) (u_op_type u) (N.of_nat (u_index u)) suffix in
  Ok (with_counters m counter, inr n).

(** ** Tensors, parameters and nodes *)

Definition add_wrapper (w : QnnTensorWrapper) (msg : string) : M unit := require (fun m => AddTensorWrapper env m w) msg.

Definition new_tensor (name : string) (ty : Qnn_TensorType_t) (data_type : Qnn_DataType_t) (quant : QnnQuantParamsWrapper)
  (shape data : list Z) : result QnnTensorWrapper :=
  make_tensor (tensor_init env) (narrow_nan env) name ty data_type quant shape data TENSORMEMTYPE_RAW.

Definition add_tensor (name : string) (ty : Qnn_TensorType_t) (data_type : Qnn_DataType_t) (quant : QnnQuantParamsWrapper)
  (shape data : list Z) (msg : string) : M unit :=
  let! w := lift (new_tensor name ty data_type quant shape data) in
  add_wrapper w msg.

Definition create_node (name op : string) (ins outs params : list string) (do_op_validation : bool) (msg : string) : M unit :=
  require (fun m => CreateQnnNode env m name (QNN_OP_PACKAGE_NAME_QTI_AISW env) op ins outs params do_op_validation) msg.

(** A tensor parameter of 32-bit values; the answer is its name. *)
Definition add_u32_param (index : nat) (node_name name : string) (shape data : list Z) : M string :=
  let! p := lift (make_u32_param (tensor_init env) index node_name name shape data false) in
  let! _ := perform (fun m => AddParamWrapper m p) in
  ret (pw_tensor_name_ p).

(** [AddQnnScalar]: a scalar parameter, whose name is appended to [param_names]. *)
Definition AddQnnScalar (index : nat) (node_name : string) (scalar : Qnn_Scalar_t) (name : string) (param_names : list string)
  : M (list string) :=
  let p := make_scalar_param index node_name name (PARAMTYPE_SCALAR scalar) in
  let! _ := require (fun m => AddParamWrapper m p) "QNN EP: Failed to add scalar param" in
  ret (param_names ++ [pw_tensor_name_ p]).

Definition IsExternalOverrideTarget (m : QnnModelWrapper) (external : string) : bool :=
  match tensor_name_overrides_ m with
  | None => false
  | Some t => existsb (fun '(_, ext) => bool_decide (ext = external)) (map_to_list t)
  end.

Definition native_or (b : bool) (ty : Qnn_TensorType_t) : Qnn_TensorType_t := if b then ty else TENSOR_TYPE_NATIVE.

(** ** Nodes inserted by the op builders *)

Definition AddCastNode (cast_node_name input_name output_name : string) (output_tensor_type : Qnn_TensorType_t)
  (output_data_type : Qnn_DataType_t) (output_quant_params : QnnQuantParamsWrapper) (output_shape : list Z)
  (do_op_validation : bool) : M unit :=
  let! exists_ := get (fun m => IsQnnTensorWrapperExist m output_name) in
  if exists_ : bool then ret tt
  else
    let! _ := add_tensor output_name output_tensor_type output_data_type output_quant_params output_shape []
      "Failed to add cast tensor." in
    create_node cast_node_name (QNN_OP_CAST env) [input_name] [output_name] [] do_op_validation "Failed to add Cast node.".

Definition IsQnnFixedPointType (dt : Qnn_DataType_t) : bool :=
  bool_decide (dt ∈ [QNN_SFIXED_POINT_4; QNN_UFIXED_POINT_4; QNN_SFIXED_POINT_8; QNN_UFIXED_POINT_8;
                     QNN_SFIXED_POINT_16; QNN_UFIXED_POINT_16; QNN_SFIXED_POINT_32; QNN_UFIXED_POINT_32]).

Definition AddDequantizeNode (input_name output_name : string) (output_data_type : Qnn_DataType_t) (output_shape : list Z)
  (do_op_validation : bool) : M unit :=
  let! _ := lift (return_if (negb (bool_decide (output_data_type ∈ [QNN_FLOAT_16; QNN_FLOAT_32])))
    "AddDequantizeNode: output_data_type must be FLOAT_16 or FLOAT_32") in
  let! _ := add_tensor output_name TENSOR_TYPE_NATIVE output_data_type default_wrapper output_shape []
    "Failed to add Dequantize output tensor." in
  let! node_name := fresh input_name "_dequantize" in
  create_node node_name (macro qnn "QNN_OP_DEQUANTIZE") [input_name] [output_name] [] do_op_validation
    "Failed to add Dequantize node.".

Definition AddQuantizeNode (input_name output_name : string) (output_tensor_type : Qnn_TensorType_t)
  (output_data_type : Qnn_DataType_t) (output_quant_param : QnnQuantParamsWrapper) (output_shape : list Z)
  (do_op_validation : bool) : M unit :=
  let! _ := lift (return_if (negb (IsQnnFixedPointType output_data_type))
    "AddQuantizeNode: output_data_type must be a SFIXED_POINT or UFIXED_POINT type") in
  let! _ := add_tensor output_name output_tensor_type output_data_type output_quant_param output_shape []
    "Failed to add Quantize output tensor." in
  let! node_name := fresh input_name "_quantize" in
  create_node node_name (macro qnn "QNN_OP_QUANTIZE") [input_name] [output_name] [] do_op_validation
    "Failed to add Quantize node.".

Definition AddReshapeNode (input_name output_name : string) (input_shape output_shape : list Z) (data_type : Qnn_DataType_t)
  (input_quant output_quant : QnnQuantParamsWrapper) (do_op_validation is_for_input is_for_output : bool) : M unit :=
  let! q := lift (Copy input_quant) in
  let! _ := add_tensor input_name (native_or is_for_input TENSOR_TYPE_APP_WRITE) data_type q input_shape []
    "QNN EP: Failed to add input tensor for inserted Reshape." in
  let! q := lift (Copy output_quant) in
  let! _ := add_tensor output_name (native_or is_for_output TENSOR_TYPE_APP_READ) data_type q output_shape []
    "QNN EP: Failed to add output tensor for inserted Reshape." in
  let! node_name := fresh output_name (macro qnn "QNN_OP_RESHAPE") in
  create_node node_name (macro qnn "QNN_OP_RESHAPE") [input_name] [output_name] [] do_op_validation
    "QNN EP: Failed to create manually inserted Qnn Reshape node.".

(** The overload with one set of quantization parameters. *)
Definition AddReshapeNode_same (input_name output_name : string) (input_shape output_shape : list Z) (data_type : Qnn_DataType_t)
  (quant : QnnQuantParamsWrapper) (do_op_validation is_for_input is_for_output : bool) : M unit :=
  let! _ := lift (return_if (IsPerChannel quant) "Do not support inserted Reshape nodes with per-channel quantization") in
  AddReshapeNode input_name output_name input_shape output_shape data_type quant quant do_op_validation is_for_input is_for_output.

Definition AddTransposeNode (node_index : nat) (input_name output_name : string) (input_shape : list Z) (perm : list nat)
  (output_shape : list Z) (data_type : Qnn_DataType_t) (quant : QnnQuantParamsWrapper)
  (do_op_validation is_for_input is_for_output : bool) : M unit :=
  let! _ := lift (return_if (IsPerChannel quant) "Do not support inserted Transpose nodes with per-channel quantization") in
  let! workaround := lift (NeedsHtpTransposeReshapeWorkaround input_shape perm output_shape) in
  if workaround : bool then
    AddReshapeNode_same input_name output_name input_shape output_shape data_type quant do_op_validation is_for_input is_for_output
  else
  let! exists_ := get (fun m => IsQnnTensorWrapperExist m input_name) in
  let! _ :=
    if is_for_input || negb exists_ then
      let! q := lift (Copy quant) in
      add_tensor input_name (native_or is_for_input TENSOR_TYPE_APP_WRITE) data_type q input_shape [] "Failed to add tensor."
    else ret tt in
  let! p := lift (make_u32_param (tensor_init env) node_index output_name (macro qnn "QNN_OP_TRANSPOSE_PARAM_PERM")
    [Z.of_nat (length perm)] (Z.of_nat <$> perm) false) in
  let! _ := require (fun m => AddParamWrapper m p) "Failed to add tensor." in
  let! q := lift (Copy quant) in
  let! _ := add_tensor output_name (native_or is_for_output TENSOR_TYPE_APP_READ) data_type q output_shape []
    "Failed to add tensor." in
  let! node_name := fresh output_name (macro qnn "QNN_OP_TRANSPOSE") in
  create_node node_name (macro qnn "QNN_OP_TRANSPOSE") [input_name] [output_name] [pw_tensor_name_ p] do_op_validation
    "QNN EP: Failed to create manually inserted Qnn Transpose node.".

Definition AddNoopReshapeNode (node_name input_name : string) (output : OrtNodeUnitIODef) (do_op_validation : bool) : M unit :=
  let! input := get (fun m => model_tensors_map_ m !! input_name) in
  match input with
  | None => lift (Err (EpFail "Input tensor wrapper not exist for no-op node."))
  | Some input_tensor_wrapper =>
      let! output_tensor_wrapper := lift (MakeTensorWrapper env graph output) in
      let! _ := lift (return_if (negb (bool_decide (dimensions_ input_tensor_wrapper = dimensions_ output_tensor_wrapper)))
        "Expecting identical shapes for no-op input/output.") in
      let output_name := tensor_name_ output_tensor_wrapper in
      let! _ := add_wrapper output_tensor_wrapper "Failed to add no-op output tensor." in
      let! node_name := fresh node_name "" in
      create_node node_name (macro qnn "QNN_OP_RESHAPE") [input_name] [output_name] [] do_op_validation
        "Failed to add no-op node."
  end.

(** The answer is [input_names] with the new bias. *)
Definition AddStaticBiasTensor (bias_name : string) (bias_shape : list Z) (data_type : Qnn_DataType_t)
  (quant : QnnQuantParamsWrapper) (bias_data : list Z) (input_names : list string) : M (list string) :=
  let! _ := add_tensor bias_name TENSOR_TYPE_STATIC data_type quant bias_shape bias_data "Failed to add bias tensor." in
  ret (input_names ++ [bias_name]).

Definition AddNchwToHwcnTranspose (node_index : nat) (input_name output_name : string) (input_shape output_shape : list Z)
  (data_type : Qnn_DataType_t) (quant : QnnQuantParamsWrapper) (do_op_validation is_for_input is_for_output is_3d : bool) : M unit :=
  AddTransposeNode node_index input_name output_name input_shape (if is_3d then nchw2hwcn_perm_3d else nchw2hwcn_perm)
    output_shape data_type quant do_op_validation is_for_input is_for_output.

Definition AddCnhwToHwcnTranspose (node_index : nat) (input_name output_name : string) (input_shape output_shape : list Z)
  (data_type : Qnn_DataType_t) (quant : QnnQuantParamsWrapper) (do_op_validation is_for_input is_for_output is_3d : bool) : M unit :=
  AddTransposeNode node_index input_name output_name input_shape (if is_3d then cnhw2hwcn_perm_3d else cnhw2hwcn_perm)
    output_shape data_type quant do_op_validation is_for_input is_for_output.

End ModelOps.

(** ** What a builder owes the model *)

Section Wp.
Context `{QnnInterface}.

Definition has (m : QnnModelWrapper) (n : string) : Prop := is_Some (model_tensors_map_ m !! n).
Definition has_param (m : QnnModelWrapper) (n : string) : Prop := is_Some (model_params_map_ m !! n).

Definition node_defined (m : QnnModelWrapper) (op : QnnOpProperty) : Prop :=
  Forall (has m) (input_names_ op) ∧ Forall (has m) (output_names_ op) ∧ Forall (has_param m) (param_tensor_names_ op).

(** Every name in the list of nodes is that of a tensor or parameter of the tables. *)
Definition closed (m : QnnModelWrapper) : Prop := Forall (node_defined m) (qnn_op_property_list_ m).

(** Nothing is taken back: the tables grow, an entry keeps its name, kind, shape, data and
    quantization parameters (validation may change its data type), nodes are appended, and no call
    of the QNN graph is made. *)
Record grows (m m' : QnnModelWrapper) : Prop := {
  grows_tensors : ∀ n w, model_tensors_map_ m !! n = Some w →
    ∃ t, model_tensors_map_ m' !! n = Some (with_tensor w t) ∧ GetQnnTensorType t = GetQnnTensorType (qnn_tensor_ w);
  grows_params : model_params_map_ m ⊆ model_params_map_ m';
  grows_ops : ∃ l, qnn_op_property_list_ m' = qnn_op_property_list_ m ++ l;
  grows_graph : graph_ m' = graph_ m ∧ qnn_tensor_id_map_ m' = qnn_tensor_id_map_ m
}.

Lemma with_tensor_same w : with_tensor w (qnn_tensor_ w) = w.
Proof. by destruct w. Qed.

Lemma same_entry (w : QnnTensorWrapper) (l : option QnnTensorWrapper) : l = Some w →
  ∃ t, l = Some (with_tensor w t) ∧ GetQnnTensorType t = GetQnnTensorType (qnn_tensor_ w).
Proof. intros ->. exists (qnn_tensor_ w). by rewrite with_tensor_same. Qed.

Global Instance grows_refl : Reflexive grows.
Proof.
  intros m. split; [|done|exists []; by rewrite app_nil_r|done].
  intros n w Hw. by apply same_entry.
Qed.

Global Instance grows_trans : Transitive grows.
Proof.
  intros m1 m2 m3 [T1 P1 [l1 O1] [G1 I1]] [T2 P2 [l2 O2] [G2 I2]]. split.
  - intros n w Hw. destruct (T1 n w Hw) as (t & Ht & Et). destruct (T2 _ _ Ht) as (t' & Ht' & Et'). exists t'.
    split; [done|]. by rewrite Et', <- Et.
  - by etrans.
  - exists (l1 ++ l2). by rewrite O2, O1, app_assoc.
  - split; congruence.
Qed.

Global Instance grows_preorder : PreOrder grows.
Proof. split; apply _. Qed.

Lemma has_grows m m' n : has m n → grows m m' → has m' n.
Proof. intros [w Hw] Hg. destruct (grows_tensors _ _ Hg n w Hw) as (t & Ht & _). by eexists. Qed.

Lemma has_param_grows m m' n : has_param m n → grows m m' → has_param m' n.
Proof. intros [w Hw] Hg. exists w. eapply lookup_weaken; [done|apply Hg]. Qed.

Lemma all_has_grows m m' l : Forall (has m) l → grows m m' → Forall (has m') l.
Proof. intros Hl Hg. eapply Forall_impl; [done|]. intros n Hn. by eapply has_grows. Qed.

Lemma all_has_param_grows m m' l : Forall (has_param m) l → grows m m' → Forall (has_param m') l.
Proof. intros Hl Hg. eapply Forall_impl; [done|]. intros n Hn. by eapply has_param_grows. Qed.

Lemma node_defined_grows m m' op : node_defined m op → grows m m' → node_defined m' op.
Proof. intros (H1 & H2 & H3) Hg. split_and!; by eauto using all_has_grows, all_has_param_grows. Qed.

(** A growing model with the same nodes stays closed. *)
Lemma closed_same_ops m m' : grows m m' → qnn_op_property_list_ m' = qnn_op_property_list_ m → closed m → closed m'.
Proof.
  unfold closed. intros Hg -> Hc. eapply Forall_impl; [done|]. intros op Hop. by eapply node_defined_grows.
Qed.

Lemma closed_snoc m m' op : grows m m' → qnn_op_property_list_ m' = qnn_op_property_list_ m ++ [op] →
  node_defined m op → closed m → closed m'.
Proof.
  unfold closed. intros Hg -> Hop Hc. apply Forall_app. split.
  - eapply Forall_impl; [done|]. intros o Ho. by eapply node_defined_grows.
  - constructor; [by eapply node_defined_grows|done].
Qed.

Definition wp {A} (c : M A) (Q : A → QnnModelWrapper → Prop) (m : QnnModelWrapper) : Prop :=
  closed m →
  match c m with
  | Err _ => True
  | Ok (m', r) => closed m' ∧ grows m m' ∧ match r with inl _ => True | inr a => Q a m' end
  end.

Lemma wp_ret {A} (a : A) Q m : Q a m → wp (ret a) Q m.
Proof. intros HQ Hc. cbn. by split_and!. Qed.

Lemma wp_bind {A B} (c : M A) (k : A → M B) Q m :
  wp c (fun a m' => grows m m' → wp (k a) Q m') m → wp (bind c k) Q m.
Proof.
  intros Hw Hc. specialize (Hw Hc). unfold bind. destruct (c m) as [[m1 [msg|a]]|]; [done| |done].
  destruct Hw as (Hc1 & Hg1 & Hk). specialize (Hk Hg1 Hc1). destruct (k a m1) as [[m2 r]|]; [|done].
  destruct Hk as (Hc2 & Hg2 & HQ). split_and!; [done|by etrans|done].
Qed.

Lemma wp_mono {A} (c : M A) (Q Q' : A → QnnModelWrapper → Prop) m :
  (∀ a m', grows m m' → Q a m' → Q' a m') → wp c Q m → wp c Q' m.
Proof.
  intros HQ Hw Hc. specialize (Hw Hc). destruct (c m) as [[m1 [msg|a]]|]; [done| |done].
  destruct Hw as (? & Hg & ?). split_and!; auto.
Qed.

(** What is known before a run is known after it. *)
Lemma wp_grows {A} (c : M A) Q m : wp c (fun a m' => grows m m' → Q a m') m → wp c Q m.
Proof.
  intros Hw Hc. specialize (Hw Hc). destruct (c m) as [[m1 [msg|a]]|]; [done| |done].
  destruct Hw as (? & Hg & HQ). split_and!; auto.
Qed.

Lemma wp_lift {A} (r : result A) Q m : (∀ a, r = Ok a → Q a m) → wp (lift r) Q m.
Proof.
  intros HQ Hc. unfold lift. destruct r as [a|[| |]]; try done; split_and!; auto using grows_refl.
Qed.

Lemma wp_get {A} (f : QnnModelWrapper → A) Q m : Q (f m) m → wp (get f) Q m.
Proof. intros HQ Hc. cbn. by split_and!. Qed.

(** A step that changes the model as [R] says. *)
Lemma wp_require (f : QnnModelWrapper → result (bool * QnnModelWrapper)) msg Q m :
  (∀ ok m', f m = Ok (ok, m') → grows m m' ∧ (closed m → closed m') ∧ (ok = true → Q tt m')) → wp (require f msg) Q m.
Proof.
  intros HQ Hc. unfold require. destruct (f m) as [[ok m']|] eqn:E; [|done].
  destruct (HQ ok m' eq_refl) as (Hg & Hc' & HQ'). split_and!; [by apply Hc'|done|]. destruct ok; auto.
Qed.

Lemma wp_perform (f : QnnModelWrapper → result (bool * QnnModelWrapper)) Q m :
  (∀ ok m', f m = Ok (ok, m') → grows m m' ∧ (closed m → closed m') ∧ Q tt m') → wp (perform f) Q m.
Proof.
  intros HQ Hc. unfold perform. destruct (f m) as [[ok m']|] eqn:E; [|done].
  destruct (HQ ok m' eq_refl) as (Hg & Hc' & HQ'). split_and!; auto.
Qed.

(** A loop with an invariant of the values done and the state. *)
Lemma wp_each {S A} (I : list A → S → QnnModelWrapper → Prop) (body : S → A → M S) xs :
  (∀ done_ s x m, I done_ s m → x ∈ xs → wp (body s x) (I (done_ ++ [x])) m) →
  ∀ s m, I [] s m → wp (each xs body s) (I xs) m.
Proof.
  intros Hbody. assert (∀ rest done_ s m, done_ ++ rest = xs → I done_ s m → wp (each rest body s) (I xs) m) as Hgen.
  { induction rest as [|x rest IH]; intros done_ s m E HI.
    - rewrite app_nil_r in E. subst. by apply wp_ret.
    - cbn. apply wp_bind. eapply wp_mono; [|apply Hbody; [done|subst; set_solver]].
      intros s' m' _ HI' _. eapply IH; [|done]. by rewrite <- app_assoc. }
  intros s m. by apply (Hgen xs []).
Qed.

End Wp.

(** ** The steps of a builder *)

Section Steps.
Context `{SafeInt} `{QnnInterface}.
Context (env : environment).

(** A new entry of a table. *)
Lemma grows_insert_tensor m n w : model_tensors_map_ m !! n = None →
  grows m (with_tensors m (<[n := w]> (model_tensors_map_ m))).
Proof.
  intros Hn. split; [|done|exists []; by rewrite app_nil_r|done]. intros k v Hk. cbn.
  apply same_entry. by rewrite lookup_insert_ne by congruence.
Qed.

(** An entry with another struct. *)
Lemma grows_retype m n w t : model_tensors_map_ m !! n = Some w → GetQnnTensorType t = GetQnnTensorType (qnn_tensor_ w) →
  grows m (with_tensors m (<[n := with_tensor w t]> (model_tensors_map_ m))).
Proof.
  intros Hn Ht. split; [|done|exists []; by rewrite app_nil_r|done]. intros k v Hk. cbn.
  destruct (decide (k = n)) as [->|].
  - exists t. rewrite lookup_insert_eq. split; congruence.
  - apply same_entry. by rewrite lookup_insert_ne.
Qed.

Lemma grows_insert_param m n w : model_params_map_ m !! n = None →
  grows m (with_params m (<[n := w]> (model_params_map_ m))).
Proof.
  intros Hn. split; [|by apply insert_subseteq|exists []; by rewrite app_nil_r|done].
  intros k v Hk. by apply same_entry.
Qed.

Lemma move_construct_fields init w w' o : move_construct init w = Ok (w', o) →
  tensor_name_ w' = tensor_name_ w ∧ dimensions_ w' = dimensions_ w ∧ client_buf_ w' = client_buf_ w ∧
  quant_params_ w' = quant_params_ w.
Proof. unfold move_construct, SwapOther. intros E. run_cases; done. Qed.

(** [AddTensorWrapper]: the table has the name afterwards, unless it is empty; an entry that
    was there stays. *)
Lemma add_tensor_step m w ok m' : AddTensorWrapper env m w = Ok (ok, m') →
  grows m m' ∧ qnn_op_property_list_ m' = qnn_op_property_list_ m ∧ qnn_node_names_ m' = qnn_node_names_ m ∧
  name_counters m' = name_counters m ∧
  (ok = true → has m' (tensor_name_ w)) ∧
  (ok = true → model_tensors_map_ m !! tensor_name_ w = None →
     ∃ w', model_tensors_map_ m' !! tensor_name_ w = Some w' ∧ dimensions_ w' = dimensions_ w ∧ client_buf_ w' = client_buf_ w ∧
       quant_params_ w' = quant_params_ w).
Proof.
  unfold AddTensorWrapper, IsQnnTensorWrapperExist. intros E. case_bool_decide as Hn.
  { injection E as <- <-. by split_and!. }
  case_bool_decide as Hx.
  { injection E as <- <-. split_and!; try done. intros _ Hnone. by rewrite Hnone in Hx; destruct Hx. }
  destruct (model_tensors_map_ m !! tensor_name_ w) eqn:Hnone; [by destruct Hx|].
  inv_bind E. inv_bind E. destruct a0 as [w' o]. injection E as <- <-. split_and!; try done.
  - by apply grows_insert_tensor.
  - intros _. unfold has. cbn. rewrite lookup_insert_eq. by eexists.
  - intros _ _. exists w'. cbn. rewrite lookup_insert_eq.
    destruct (move_construct_fields _ _ _ _ E1) as (_ & -> & -> & ->).
    unfold SetTensorMemTypeFromSettings in E0. inv_bind E0. injection E0 as <-. done.
Qed.

Lemma add_param_step m w ok m' : AddParamWrapper m w = Ok (ok, m') →
  grows m m' ∧ qnn_op_property_list_ m' = qnn_op_property_list_ m ∧ qnn_node_names_ m' = qnn_node_names_ m ∧
  name_counters m' = name_counters m ∧ model_tensors_map_ m' = model_tensors_map_ m ∧
  (ok = true → has_param m' (pw_tensor_name_ w)) ∧ (pw_tensor_name_ w ≠ "" → ok = true).
Proof.
  unfold AddParamWrapper, QnnParamExists. intros E. case_bool_decide as Hn.
  { injection E as <- <-. by split_and!. }
  case_bool_decide as Hx.
  { injection E as <- <-. by split_and!. }
  destruct (model_params_map_ m !! pw_tensor_name_ w) eqn:Hnone; [by destruct Hx|].
  inv_bind E. injection E as <- <-. split_and!; try done.
  - by apply grows_insert_param.
  - intros _. unfold has_param. cbn. rewrite lookup_insert_eq. by eexists.
Qed.

(** Changing types for validation. *)
Definition same_but_types (m m' : QnnModelWrapper) : Prop :=
  grows m m' ∧ qnn_op_property_list_ m' = qnn_op_property_list_ m ∧ qnn_node_names_ m' = qnn_node_names_ m ∧
  name_counters m' = name_counters m.

Lemma same_but_types_trans m1 m2 m3 : same_but_types m1 m2 → same_but_types m2 m3 → same_but_types m1 m3.
Proof. intros (? & ? & ? & ?) (? & ? & ? & ?). split_and!; [by etrans|congruence..]. Qed.

Lemma same_but_types_refl m : same_but_types m m.
Proof. by split_and!. Qed.

Lemma set_data_type_step m n w t m' : model_tensors_map_ m !! n = Some w → set_data_type m n w t = Ok m' → same_but_types m m'.
Proof.
  unfold set_data_type. intros Hn E. inv_bind E. injection E as <-. split_and!; try done.
  apply grows_retype; [done|]. unfold SetQnnTensorDataType, GetQnnTensorType in *. by destruct (qnn_tensor_ w); try done; injection E0 as <-.
Qed.

Lemma convert_types_step from to names : ∀ m m', convert_types from to m names = Ok m' → same_but_types m m'.
Proof.
  induction names as [|n names IH]; intros m m' E; cbn in E; [injection E as <-; apply same_but_types_refl|].
  destruct (model_tensors_map_ m !! n) as [w|] eqn:Hn; [|by apply IH]. inv_bind E. inv_bind E.
  apply IH in E. eapply same_but_types_trans; [|done]. case_bool_decide.
  - by eapply set_data_type_step.
  - injection E1 as <-. apply same_but_types_refl.
Qed.

Lemma convert_inputs_step names : ∀ m ok m', convert_inputs m names = Ok (ok, m') → same_but_types m m'.
Proof.
  induction names as [|n names IH]; intros m ok m' E; cbn in E; [injection E as _ <-; apply same_but_types_refl|].
  destruct (model_tensors_map_ m !! n) as [w|] eqn:Hn; [|injection E as _ <-; apply same_but_types_refl].
  inv_bind E. inv_bind E. apply IH in E. eapply same_but_types_trans; [|done]. case_bool_decide.
  - by eapply set_data_type_step.
  - injection E1 as <-. apply same_but_types_refl.
Qed.

Lemma node_tensors_same m ins outs ps r m' : node_tensors env m ins outs ps true = Ok (r, m') → m' = m.
Proof.
  unfold node_tensors. intros E. run_cases;
    repeat match goal with
    | E : CreateQnnInputOutputTensors _ _ _ _ _ = _ |- _ => apply validate_tensors_same in E
    | E : CreateQnnParamTensors _ _ _ _ = _ |- _ => apply validate_params_same in E
    end; congruence.
Qed.

(** Validation of a node adds nothing. *)
Lemma validate_step m name pkg ty ins outs ps ok m' :
  CreateQnnNode env m name pkg ty ins outs ps true = Ok (ok, m') → same_but_types m m'.
Proof.
  unfold CreateQnnNode, ApplyBF16ConversionForValidation, RestoreFP32AfterValidation.
  destruct (IsBF16ConversionEnabled env); intros E; run_cases;
    repeat match goal with
    | E : node_tensors _ _ _ _ _ _ = Ok _ |- _ => apply node_tensors_same in E; subst
    | E : convert_inputs _ _ = Ok _ |- _ => apply convert_inputs_step in E
    | E : convert_types _ _ _ _ = Ok _ |- _ => apply convert_types_step in E
    end; eauto using same_but_types_trans, same_but_types_refl.
Qed.

(** A new node gets a name of its own; its type, inputs, outputs and parameters are as given. *)
Lemma create_node_step m name pkg ty ins outs ps ok m' :
  CreateQnnNode env m name pkg ty ins outs ps false = Ok (ok, m') →
  ok = true ∧ model_tensors_map_ m' = model_tensors_map_ m ∧ model_params_map_ m' = model_params_map_ m ∧
  name_counters m' = name_counters m ∧ grows m m' ∧
  ∃ u, u ∉ qnn_node_names_ m ∧ qnn_node_names_ m' = {[ u ]} ∪ qnn_node_names_ m ∧
    qnn_op_property_list_ m' = qnn_op_property_list_ m ++ [OpProperty u pkg ty ins outs ps].
Proof.
  cbn. intros E. destruct (make_unique_spec m name) as (u & Hu & Hnew). rewrite Hu in E. cbn in E.
  injection E as <- <-. split_and!; try done; [|by exists u].
  split; [|done|by eexists|done]. intros n w Hw. by apply same_entry.
Qed.

End Steps.

(** Some node writes the tensor, or the tensor is a constant. *)
Definition constant_tensor `{QnnInterface} (m : QnnModelWrapper) (n : string) : Prop :=
  ∃ w, model_tensors_map_ m !! n = Some w ∧ GetTensorType w = Ok TENSOR_TYPE_STATIC.
Definition provided `{QnnInterface} (m : QnnModelWrapper) (n : string) : Prop :=
  (∃ op, op ∈ qnn_op_property_list_ m ∧ n ∈ output_names_ op) ∨ constant_tensor m n.

Lemma provided_grows `{QnnInterface} m m' n : provided m n → grows m m' → provided m' n.
Proof.
  intros [(op & Hop & Hn)|(w & Hw & Et)] Hg.
  - left. destruct (grows_ops _ _ Hg) as [l Hl]. exists op. split; [|done]. rewrite Hl. set_solver.
  - right. destruct (grows_tensors _ _ Hg n w Hw) as (t & Ht & Ett). exists (with_tensor w t). split; [done|]. by rewrite <- Et.
Qed.

Lemma all_provided_grows `{QnnInterface} m m' l : Forall (provided m) l → grows m m' → Forall (provided m') l.
Proof. intros Hl Hg. eapply Forall_impl; [done|]. intros n Hn. by eapply provided_grows. Qed.

Lemma wp_use `{QnnInterface} {A} (Q0 : A → QnnModelWrapper → Prop) (c : M A) Q m :
  wp c Q0 m → (∀ a m', grows m m' → Q0 a m' → Q a m') → wp c Q m.
Proof. intros Hw HQ. by eapply wp_mono. Qed.

Lemma exists_has `{QnnInterface} m n : IsQnnTensorWrapperExist m n = true → has m n.
Proof. apply bool_decide_eq_true. Qed.

Lemma node_writes `{QnnInterface} m op n : op ∈ qnn_op_property_list_ m → n ∈ output_names_ op → provided m n.
Proof. intros ? ?. left. by exists op. Qed.

#[global] Opaque has has_param provided.

Section Rules.
Context `{SafeInt} `{QnnInterface}.
Context (env : environment) (graph : OrtGraph) (qnn : QnnHeaders).

Lemma wp_add_wrapper w msg Q m :
  (∀ m', grows m m' → has m' (tensor_name_ w) → Q tt m') → wp (add_wrapper env w msg) Q m.
Proof.
  intros HQ. apply wp_require. intros ok m' E.
  destruct (add_tensor_step env _ _ _ _ E) as (Hg & Ho & _ & _ & Hh & _).
  split_and!; [done|by apply closed_same_ops|auto].
Qed.

Lemma make_tensor_name init nan n ty dt q s d mt w : make_tensor init nan n ty dt q s d mt = Ok w → tensor_name_ w = n.
Proof. unfold make_tensor. destruct (narrowed _ _ _ _). intros E. run_cases; done. Qed.

Lemma wp_add_tensor n ty dt q s d msg Q m :
  (∀ m', grows m m' → has m' n → Q tt m') → wp (add_tensor env n ty dt q s d msg) Q m.
Proof.
  intros HQ. apply wp_bind, wp_lift. intros w E _. apply wp_add_wrapper. by rewrite (make_tensor_name _ _ _ _ _ _ _ _ _ _ E).
Qed.

Lemma wp_require_param p msg Q m :
  (∀ m', grows m m' → has_param m' (pw_tensor_name_ p) → Q tt m') → wp (require (fun m => AddParamWrapper m p) msg) Q m.
Proof.
  intros HQ. apply wp_require. intros ok m' E.
  destruct (add_param_step _ _ _ _ E) as (Hg & Ho & _ & _ & _ & Hh & _).
  split_and!; [done|by apply closed_same_ops|auto].
Qed.

Lemma make_param_name init i nn n dt s d p : make_tensor_param init i nn n dt s d = Ok p →
  pw_tensor_name_ p = param_tensor_name i nn n.
Proof. unfold make_tensor_param. intros E. run_cases; done. Qed.

Lemma param_name_ne i nn n : param_tensor_name i nn n ≠ "".
Proof. unfold param_tensor_name. by destruct nn. Qed.

Lemma wp_add_u32_param i nn n s d Q m :
  (∀ m' p, grows m m' → has_param m' p → Q p m') → wp (add_u32_param env i nn n s d) Q m.
Proof.
  intros HQ. apply wp_bind, wp_lift. intros p E _. apply wp_bind, wp_perform. intros ok m' Ep.
  apply make_param_name in E. destruct (add_param_step _ _ _ _ Ep) as (Hg & Ho & _ & _ & _ & Hh & Hne).
  split_and!; [done|by apply closed_same_ops|]. intros _. apply wp_ret, HQ; [done|]. apply Hh, Hne.
  rewrite E. apply param_name_ne.
Qed.

Lemma wp_AddQnnScalar i nn v n ps Q m : Forall (has_param m) ps →
  (∀ m' ps', grows m m' → Forall (has_param m') ps' → Q ps' m') → wp (AddQnnScalar i nn v n ps) Q m.
Proof.
  intros Hps HQ. apply wp_bind, wp_require_param. intros m' Hg Hp _. apply wp_ret, HQ; [done|].
  apply Forall_app. split; [by eapply all_has_param_grows|by constructor].
Qed.

Lemma wp_create_node n op ins outs ps v msg Q m :
  Forall (has m) ins → Forall (has m) outs → Forall (has_param m) ps →
  (∀ m', grows m m' → (v = false → Forall (provided m') outs) → Q tt m') → wp (create_node env n op ins outs ps v msg) Q m.
Proof.
  intros Hi Ho Hp HQ. apply wp_require. intros ok m' E. destruct v.
  - apply validate_step in E as (Hg & Hops & _ & _). split_and!; [done|by apply closed_same_ops|]. intros _. by apply HQ.
  - apply create_node_step in E as (-> & _ & _ & _ & Hg & u & _ & _ & Hops). split_and!; [done| |].
    + eapply closed_snoc; [done|exact Hops|]. done.
    + intros _. apply HQ; [done|]. intros _. apply Forall_forall. intros x Hx.
      eapply node_writes; [rewrite Hops; apply elem_of_app; right; by left|done].
Qed.

Lemma grows_counters m c : grows m (with_counters m c).
Proof.
  split; [|done|exists []; by rewrite app_nil_r|done]. intros n w Hw. by apply same_entry.
Qed.

Lemma wp_fresh base suffix Q m : (∀ n m', grows m m' → Q n m') → wp (fresh base suffix) Q m.
Proof.
  intros HQ Hc. unfold fresh. destruct (New _ _ _) as [n c]. split_and!; [done|apply grows_counters|].
  apply HQ, grows_counters.
Qed.

Lemma wp_fresh_unit u suffix Q m : (∀ n m', grows m m' → Q n m') → wp (fresh_unit u suffix) Q m.
Proof.
  intros HQ Hc. unfold fresh_unit. destruct (New_unit _ _ _ _ _) as [n c]. split_and!; [done|apply grows_counters|].
  apply HQ, grows_counters.
Qed.

End Rules.

(** Moves what is known of [m] to the model [m'] that a step made of it. *)
Ltac advance Hg :=
  match type of Hg with grows ?m ?m' =>
    repeat match goal with
    | H : has m ?n |- _ => apply (fun h => has_grows m m' n h Hg) in H
    | H : has_param m ?n |- _ => apply (fun h => has_param_grows m m' n h Hg) in H
    | H : provided m ?n |- _ => apply (fun h => provided_grows m m' n h Hg) in H
    | H : Forall (has m) ?l |- _ => apply (fun h => all_has_grows m m' l h Hg) in H
    | H : Forall (has_param m) ?l |- _ => apply (fun h => all_has_param_grows m m' l h Hg) in H
    | H : Forall (provided m) ?l |- _ => apply (fun h => all_provided_grows m m' l h Hg) in H
    | H : ?v = false → Forall (provided m) ?l |- _ =>
        let H' := fresh in
        pose proof (fun e => all_provided_grows m m' l (H e) Hg) as H'; clear H; rename H' into H
    end
  end.

(** Names that are known to be defined. *)
Ltac solve_names :=
  repeat first [assumption | apply Forall_app; split | apply List.Forall_nil | apply List.Forall_cons].
Ltac side := try solve [solve_names].

(** One step of a builder. *)
Ltac wp_step :=
  lazymatch goal with
  | |- wp (bind _ _) _ _ => apply wp_bind
  | |- wp (ret _) _ _ => apply wp_ret
  | |- wp (lift _) _ _ => apply wp_lift; let E := fresh "E" in intros ? E
  | |- wp (get _) _ _ => apply wp_get
  | |- wp (fresh _ _) _ _ => apply wp_fresh; let Hg := fresh "Hg" in intros ? ? Hg; advance Hg
  | |- wp (fresh_unit _ _) _ _ => apply wp_fresh_unit; let Hg := fresh "Hg" in intros ? ? Hg; advance Hg
  | |- wp (add_wrapper _ _ _) _ _ => apply wp_add_wrapper; let Hg := fresh "Hg" in intros ? Hg ?; advance Hg
  | |- wp (add_tensor _ _ _ _ _ _ _ _) _ _ => apply wp_add_tensor; let Hg := fresh "Hg" in intros ? Hg ?; advance Hg
  | |- wp (require (fun m => AddParamWrapper m _) _) _ _ =>
      apply wp_require_param; let Hg := fresh "Hg" in intros ? Hg ?; advance Hg
  | |- wp (add_u32_param _ _ _ _ _ _) _ _ => apply wp_add_u32_param; let Hg := fresh "Hg" in intros ? ? Hg ?; advance Hg
  | |- wp (AddQnnScalar _ _ _ _ _) _ _ =>
      apply wp_AddQnnScalar; [side|let Hg := fresh "Hg" in intros ? ? Hg ?; advance Hg]
  | |- wp (create_node _ _ _ _ _ _ _ _) _ _ =>
      apply wp_create_node; [side|side|side|let Hg := fresh "Hg" in intros ? Hg ?; advance Hg]
  | |- wp (if ?b then _ else _) _ _ => let Eb := fresh "Eb" in destruct b eqn:Eb
  | |- wp (match ?x with _ => _ end) _ _ => let Ex := fresh "Ex" in destruct x eqn:Ex
  | |- wp (let '_ := ?x in _) _ _ => destruct x
  | |- grows _ _ → _ => let Hg := fresh "Hg" in intros Hg; try clear Hg
  end; cbv beta.

(** Runs a builder to its end. *)
Ltac finish := try solve [split_and?; intros; (assumption || solve [solve_names] || auto)].
Ltac wp_auto := repeat wp_step; finish.

Section Helpers.
Context `{SafeInt} `{QnnInterface}.
Context (env : environment) (graph : OrtGraph) (qnn : QnnHeaders).

Lemma wp_AddCastNode n i o ty dt q s v Q m : has m i →
  (∀ m', grows m m' → has m' o → Q tt m') → wp (AddCastNode env n i o ty dt q s v) Q m.
Proof.
  intros Hi HQ. eapply (wp_use (fun _ m' => has m' o)); [|by intros []; auto].
  unfold AddCastNode. do 3 wp_step. destruct (IsQnnTensorWrapperExist m o) eqn:Ex; [|wp_auto].
  apply wp_ret. by apply exists_has.
Qed.

Lemma wp_AddDequantizeNode i o dt s v Q m : has m i →
  (∀ m', grows m m' → has m' o → (v = false → Forall (provided m') [o]) → Q tt m') → wp (AddDequantizeNode env qnn i o dt s v) Q m.
Proof.
  intros Hi HQ. eapply (wp_use (fun _ m' => has m' o ∧ (v = false → Forall (provided m') [o]))); [|by intros [] ? ? []; auto].
  unfold AddDequantizeNode. wp_auto.
Qed.

Lemma wp_AddQuantizeNode i o ty dt q s v Q m : has m i →
  (∀ m', grows m m' → has m' o → (v = false → Forall (provided m') [o]) → Q tt m') → wp (AddQuantizeNode env qnn i o ty dt q s v) Q m.
Proof.
  intros Hi HQ. eapply (wp_use (fun _ m' => has m' o ∧ (v = false → Forall (provided m') [o]))); [|by intros [] ? ? []; auto].
  unfold AddQuantizeNode. wp_auto.
Qed.

Definition linked (i o : string) (v : bool) (m : QnnModelWrapper) : Prop :=
  has m i ∧ has m o ∧ (v = false → Forall (provided m) [o]).

Lemma wp_AddReshapeNode i o s s' dt q q' v bi bo Q m :
  (∀ m', grows m m' → has m' i → has m' o → (v = false → Forall (provided m') [o]) → Q tt m') →
  wp (AddReshapeNode env qnn i o s s' dt q q' v bi bo) Q m.
Proof.
  intros HQ. eapply (wp_use (fun _ => linked i o v)); [|by intros [] ? ? (? & ? & ?); auto].
  unfold AddReshapeNode. wp_auto. by split_and!.
Qed.

Lemma wp_AddReshapeNode_same i o s s' dt q v bi bo Q m :
  (∀ m', grows m m' → has m' i → has m' o → (v = false → Forall (provided m') [o]) → Q tt m') →
  wp (AddReshapeNode_same env qnn i o s s' dt q v bi bo) Q m.
Proof. intros HQ. unfold AddReshapeNode_same. wp_step. wp_step. intros _. by apply wp_AddReshapeNode. Qed.

Lemma wp_AddTransposeNode k i o s p s' dt q v bi bo Q m :
  (∀ m', grows m m' → has m' i → has m' o → (v = false → Forall (provided m') [o]) → Q tt m') →
  wp (AddTransposeNode env qnn k i o s p s' dt q v bi bo) Q m.
Proof.
  intros HQ. eapply (wp_use (fun _ => linked i o v)); [|by intros [] ? ? (? & ? & ?); auto].
  unfold AddTransposeNode. do 6 wp_step. wp_step.
  { apply wp_AddReshapeNode_same. intros. by split_and!. }
  wp_step. wp_step. wp_step. wp_step.
  destruct bi; cbn [orb]; [wp_auto; by split_and!|].
  destruct (IsQnnTensorWrapperExist m i) eqn:Ei; cbn [negb]; [|wp_auto; by split_and!].
  assert (has m i) as Hi by (by apply exists_has). wp_auto; by split_and!.
Qed.

Lemma wp_AddNoopReshapeNode n i o v Q m : has m i →
  (∀ m', grows m m' → has m' (name o) → (v = false → Forall (provided m') [name o]) → Q tt m') →
  wp (AddNoopReshapeNode env graph qnn n i o v) Q m.
Proof.
  intros Hi HQ. eapply (wp_use (fun _ => linked i (name o) v)); [|by intros [] ? ? (? & ? & ?); auto].
  unfold AddNoopReshapeNode. do 3 wp_step. wp_step; [|wp_step; done]. wp_step. wp_step. wp_step.
  assert (tensor_name_ a = name o) as En.
  { unfold MakeTensorWrapper in E. inv_bind E. inv_bind E. by apply make_tensor_name in E. }
  wp_auto. rewrite En in *. by split_and!.
Qed.

Lemma wp_AddStaticBiasTensor n s dt q d ins Q m : Forall (has m) ins →
  (∀ m' ins', grows m m' → Forall (has m') ins' → Q ins' m') → wp (AddStaticBiasTensor env n s dt q d ins) Q m.
Proof.
  intros Hi HQ. eapply (wp_use (fun r m' => Forall (has m') r)); [|auto]. unfold AddStaticBiasTensor. wp_auto.
Qed.

End Helpers.
