(* ===== verification/OpBuilder.v ===== *)
(** * The base op builder

    [BaseOpBuilder] of [builder/opbuilder/base_op_builder.{h,cc}]: how a node unit becomes QNN
    tensors and nodes.  The virtual methods are the fields of [Virtuals] and [OpBuilder];
    [AddToModelBuilder] and [ProcessOutputs] are written against them, and [builder_laws] is
    what they owe, so that the theorems hold for every builder that keeps it. *)

From S2P Require Import Prelude DataTypes Floats QuantParams Perm QnnTensor Quantize OpParams ModelWrapper NodeGroups NodeUnitDefs TensorInfo ModelOps.
Local Open Scope Z_scope.

(** The macro of [QnnOpDef.h] for an ONNX op. *)
Definition onnx_op_type_to_qnn_op_type : list (string * string) :=
  [("Abs", "QNN_OP_ELEMENT_WISE_ABS"); ("Add", "QNN_OP_ELEMENT_WISE_ADD"); ("And", "QNN_OP_ELEMENT_WISE_AND");
   ("ArgMax", "QNN_OP_ARGMAX"); ("ArgMin", "QNN_OP_ARGMIN"); ("Asin", "QNN_OP_ELEMENT_WISE_ASIN");
   ("Atan", "QNN_OP_ELEMENT_WISE_ATAN"); ("AveragePool", "QNN_OP_POOL_AVG_2D");
   ("BatchNormalization", "QNN_OP_BATCHNORM"); ("Cast", "QNN_OP_CAST"); ("CastLike", "QNN_OP_CAST");
   ("Ceil", "QNN_OP_ELEMENT_WISE_CEIL"); ("Clip", "QNN_OP_RELU_MIN_MAX"); ("Concat", "QNN_OP_CONCAT");
   ("Conv", "QNN_OP_CONV_2D"); ("ConvTranspose", "QNN_OP_TRANSPOSE_CONV_2D"); ("Cos", "QNN_OP_ELEMENT_WISE_COS");
   ("CumSum", "QNN_OP_CUMULATIVE_SUM"); ("DepthToSpace", "QNN_OP_DEPTH_TO_SPACE");
   ("DequantizeLinear", "QNN_OP_DEQUANTIZE"); ("Div", "QNN_OP_ELEMENT_WISE_DIVIDE"); ("Elu", "QNN_OP_ELU");
   ("Equal", "QNN_OP_ELEMENT_WISE_EQUAL"); ("Exp", "QNN_OP_ELEMENT_WISE_EXP");
   ("Expand", "QNN_OP_ELEMENT_WISE_MULTIPLY"); ("Flatten", "QNN_OP_RESHAPE"); ("Floor", "QNN_OP_ELEMENT_WISE_FLOOR");
   ("Gather", "QNN_OP_GATHER"); ("GatherElements", "QNN_OP_GATHER_ELEMENTS"); ("Gelu", "QNN_OP_GELU");
   ("Gemm", "QNN_OP_FULLY_CONNECTED"); ("GlobalAveragePool", "QNN_OP_POOL_AVG_2D");
   ("GlobalMaxPool", "QNN_OP_POOL_MAX_2D"); ("Greater", "QNN_OP_ELEMENT_WISE_GREATER");
   ("GreaterOrEqual", "QNN_OP_ELEMENT_WISE_GREATER_EQUAL"); ("GridSample", "QNN_OP_GRID_SAMPLE");
   ("GroupNormalization", "QNN_OP_GROUP_NORM"); ("HardSigmoid", "QNN_OP_ELEMENT_WISE_NEURON");
   ("HardSwish", "QNN_OP_ELEMENT_WISE_NEURON"); ("InstanceNormalization", "QNN_OP_INSTANCE_NORM");
   ("LRN", "QNN_OP_LRN"); ("LSTM", "QNN_OP_LSTM"); ("LayerNormalization", "QNN_OP_LAYER_NORM");
   ("LeakyRelu", "QNN_OP_PRELU"); ("Less", "QNN_OP_ELEMENT_WISE_LESS");
   ("LessOrEqual", "QNN_OP_ELEMENT_WISE_LESS_EQUAL"); ("Log", "QNN_OP_ELEMENT_WISE_LOG");
   ("LogSoftmax", "QNN_OP_LOG_SOFTMAX"); ("LpNormalization", "QNN_OP_L2_NORM"); ("MatMul", "QNN_OP_MAT_MUL");
   ("Max", "QNN_OP_ELEMENT_WISE_MAXIMUM"); ("MaxPool", "QNN_OP_POOL_MAX_2D"); ("Min", "QNN_OP_ELEMENT_WISE_MINIMUM");
   ("Mul", "QNN_OP_ELEMENT_WISE_MULTIPLY"); ("Neg", "QNN_OP_ELEMENT_WISE_NEG"); ("Not", "QNN_OP_ELEMENT_WISE_NOT");
   ("NotEqual", "QNN_OP_ELEMENT_WISE_NOT_EQUAL"); ("OneHot", "QNN_OP_ONE_HOT"); ("Or", "QNN_OP_ELEMENT_WISE_OR");
   ("PRelu", "QNN_OP_PRELU"); ("Pad", "QNN_OP_PAD"); ("Pow", "QNN_OP_ELEMENT_WISE_POWER");
   ("QuantizeLinear", "QNN_OP_QUANTIZE"); ("RMSNormalization", "QNN_OP_RMS_NORM"); ("ReduceMax", "QNN_OP_REDUCE_MAX");
   ("ReduceMean", "QNN_OP_REDUCE_MEAN"); ("ReduceMin", "QNN_OP_REDUCE_MIN"); ("ReduceProd", "QNN_OP_REDUCE_PROD");
   ("ReduceSum", "QNN_OP_REDUCE_SUM"); ("Relu", "QNN_OP_RELU"); ("Reshape", "QNN_OP_RESHAPE");
   ("Resize", "QNN_OP_RESIZE"); ("Round", "QNN_OP_ELEMENT_WISE_ROUND");
   ("ScatterElements", "QNN_OP_SCATTER_ELEMENTS"); ("ScatterND", "QNN_OP_SCATTER_ND"); ("Shape", "QNN_OP_SHAPE");
   ("Sigmoid", "QNN_OP_SIGMOID"); ("Sign", "QNN_OP_ELEMENT_WISE_SIGN");
   ("SimplifiedLayerNormalization", "QNN_OP_RMS_NORM"); ("Sin", "QNN_OP_ELEMENT_WISE_SIN");
   ("Slice", "QNN_OP_STRIDED_SLICE"); ("Softmax", "QNN_OP_SOFTMAX"); ("Softplus", "QNN_OP_ELEMENT_WISE_NEURON");
   ("SpaceToDepth", "QNN_OP_SPACE_TO_DEPTH"); ("Split", "QNN_OP_SPLIT"); ("Sqrt", "QNN_OP_ELEMENT_WISE_SQUARE_ROOT");
   ("Squeeze", "QNN_OP_RESHAPE"); ("Sub", "QNN_OP_ELEMENT_WISE_SUBTRACT"); ("Sum", "QNN_OP_ELEMENT_WISE_ADD");
   ("Tanh", "QNN_OP_TANH"); ("Tile", "QNN_OP_TILE"); ("TopK", "QNN_OP_TOP_K"); ("Transpose", "QNN_OP_TRANSPOSE");
   ("Unsqueeze", "QNN_OP_RESHAPE"); ("Upsample", "QNN_OP_RESIZE"); ("Where", "QNN_OP_ELEMENT_WISE_SELECT");
   ("Xor", "QNN_OP_ELEMENT_WISE_XOR")].

(** How many inputs and outputs QNN needs; 0 stands for all. *)
Definition GetInputOutputCountQnnRequired (onnx_op_type : string) : nat * nat :=
  default (0, 0)%nat (find_assoc onnx_op_type
    [("BatchNormalization", (3, 1)%nat); ("GlobalAveragePool", (0, 1)%nat); ("LayerNormalization", (0, 1)%nat);
     ("MaxPool", (0, 1)%nat)]).

Definition GetInputCountQnnRequired (u : UnitView) : nat :=
  match (GetInputOutputCountQnnRequired (u_op_type u)).1 with 0%nat => length (Inputs u) | n => n end.
Definition GetOutputCountQnnRequired (u : UnitView) : nat :=
  match (GetInputOutputCountQnnRequired (u_op_type u)).2 with 0%nat => length (Outputs u) | n => n end.

Section BaseOpBuilder.
Context `{SafeInt} `{QnnInterface}.
Context (env : environment) (graph : OrtGraph) (qnn : QnnHeaders).

Definition GetQnnOpType (onnx_op_type : string) : result string :=
  match find_assoc onnx_op_type onnx_op_type_to_qnn_op_type with
  | Some m => Ok (macro qnn m)
  | None => Err (Throw "Unable to map given ONNX op type to QNN")
  end.

(** The virtual methods that [ProcessOutputs] and [IsOpSupported] call. *)
Record Virtuals := {
  GetSupportedOutputDataType : nat → Qnn_DataType_t → Qnn_DataType_t;
  OverrideOutputQuantParam : UnitView → list string → nat → Qnn_DataType_t → QnnQuantParamsWrapper → M QnnQuantParamsWrapper;
  CheckCpuDataTypes : list Qnn_DataType_t → list Qnn_DataType_t → result unit;
  CheckHtpDataTypes : list Qnn_DataType_t → list Qnn_DataType_t → result unit;
  CheckGpuDataTypes : list Qnn_DataType_t → list Qnn_DataType_t → result unit
}.

Definition base_virtuals : Virtuals := {|
  GetSupportedOutputDataType _ t := t;
  OverrideOutputQuantParam _ _ _ _ q := ret q;
  CheckCpuDataTypes _ _ := Ok tt;
  CheckHtpDataTypes _ _ := Ok tt;
  CheckGpuDataTypes _ _ := Ok tt
|}.

(** ** Inputs *)

(** The answer is [input_names] with the input. *)
Definition ProcessInput (input : OrtNodeUnitIODef) (input_names : list string) : M (list string) :=
  let! exists_ := get (fun m => IsQnnTensorWrapperExist m (name input)) in
  if exists_ : bool then ret (input_names ++ [name input])
  else
    let! w := lift (MakeTensorWrapper env graph input) in
    let! _ := add_wrapper env w "Failed to add tensor." in
    ret (input_names ++ [name input]).

Definition process_inputs (u : UnitView) (n : nat) (input_names : list string) : M (list string) :=
  each (seq 0 n) (fun names i => let! input := lift (aget (Inputs u) i) in ProcessInput input names) input_names.

Definition base_ProcessInputs (u : UnitView) (do_op_validation : bool) : M (list string) :=
  process_inputs u (GetInputCountQnnRequired u) [].

(** A bias of zeros for two quantized inputs, with the products of their scales. *)
Definition zero_bias_scales (scales0 scales1 : list float) : result (list float) :=
  let* _ := return_if_not (length scales0 <=? length scales1)%nat "Input[1] should have >= 1 quantization scale values" in
  let* s0 := match scales1 with [] => Ok f_zero | _ => aget scales0 0 end in
  Ok (f32_mul s0 <$> scales1).

Definition AddZeroBiasInput (input0_qparams input1_qparams : QnnQuantParamsWrapper) (bias_shape : list Z) (bias_name : string)
  (input_names : list string) : M (list string) :=
  let! _ := lift (return_if_not (IsPerTensor input0_qparams true && IsQuantized input1_qparams)
    "QNN EP currently only supports adding a dummy zero bias input") in
  let num_bias_elems := foldl (fun n d => u64 (n * d)) 1 bias_shape in
  let bias_bytes := replicate (Z.to_nat (u64 (num_bias_elems * 4))) 0 in
  let! scales0 := lift (GetScales input0_qparams) in
  let! scales1 := lift (GetScales input1_qparams) in
  let! bias_scales := lift (zero_bias_scales scales0 scales1) in
  let bias_offsets := replicate (length scales1) 0 in
  let! bias_qparams :=
    if IsPerChannel input1_qparams then lift (PerChannel bias_scales bias_offsets 0)
    else lift (let* s := aget bias_scales 0 in let* o := aget bias_offsets 0 in Ok (PerTensor s o)) in
  let! w := lift (new_tensor env bias_name TENSOR_TYPE_STATIC QNN_SFIXED_POINT_32 bias_qparams bias_shape bias_bytes) in
  let! _ := perform (fun m => AddTensorWrapper env m w) in
  ret (input_names ++ [bias_name]).

(** The name of the input after the cast, when it has 64-bit integers. *)
Definition int64_step (u : UnitView) (input_names : list string) (i : nat) : M (list string) :=
  let! name_i := lift (aget input_names i) in
  if bool_decide (name_i = "") then ret input_names
  else
  let! found := get (fun m => GetQnnTensorWrapper m name_i) in
  let! w := lift found in
  let! data_type := lift (GetTensorDataType w) in
  if negb (bool_decide (data_type = QNN_INT_64)) then ret input_names
  else
  let! cast_output_name := fresh name_i "_cast_int32" in
  let! exists_ := get (fun m => IsQnnTensorWrapperExist m cast_output_name) in
  let! _ :=
    if exists_ : bool then ret tt
    else
      let! input_i := lift (aget (Inputs u) i) in
      let! output_shape := lift (onnx_shape_of input_i) in
      AddCastNode env cast_output_name name_i cast_output_name TENSOR_TYPE_NATIVE QNN_INT_32 default_wrapper output_shape false in
  ret (<[i := cast_output_name]> input_names).

Definition ProcessInt64Tensors (u : UnitView) (input_names : list string) : M (list string) :=
  each (seq 0 (length input_names)) (int64_step u) input_names.

(** ** Outputs *)

Record CastNodeInfo := CastInfo { cast_node_name : string; cast_input_name : string; cast_output_name : string }.

Definition output_tensor_type (n : string) : Qnn_TensorType_t := native_or (IsGraphOutput env n) TENSOR_TYPE_APP_READ.

(** The tensor that the node writes for an output, the cast from it, and the output itself. *)
Definition output_step (b : Virtuals) (u : UnitView) (input_names : list string) (do_op_validation : bool)
  (st : list string * list CastNodeInfo) (output_idx : nat) : M (list string * list CastNodeInfo) :=
  let '(output_names, casts) := st in
  let! output := lift (aget (Outputs u) output_idx) in
  let output_name := name output in
  let! info := lift (GetTensorInfo env graph output) in
  let data_type := info_data_type info in
  let! quant :=
    if IsQuantized (info_quant_param info)
    then OverrideOutputQuantParam b u input_names output_idx data_type (info_quant_param info)
    else ret (info_quant_param info) in
  let supported := GetSupportedOutputDataType b output_idx data_type in
  let is_graph_output := IsGraphOutput env output_name in
  let needs_int64_cast :=
    is_graph_output && bool_decide (supported = data_type) && bool_decide (data_type ∈ [QNN_INT_64; QNN_UINT_64]) in
  let! (output_names, casts, data_type) :=
    if needs_int64_cast then
      let supported := if bool_decide (supported = QNN_INT_64) then QNN_INT_32 else QNN_UINT_32 in
      let! node := fresh_unit u "_cast_int64" in
      let! input := fresh output_name "_cast_int64" in
      let! _ := lift (Copy quant) in
      let! q := lift (Copy quant) in
      let! _ := add_tensor env input TENSOR_TYPE_NATIVE supported q (info_shape info) [] "Failed to add tensor." in
      ret (output_names ++ [input], casts ++ [CastInfo node input output_name], data_type)
    else if negb (bool_decide (supported = data_type)) && is_graph_output && negb do_op_validation then
      let! node := fresh_unit u "_cast" in
      let! input := fresh output_name "_cast" in
      let! q := lift (Copy quant) in
      let mem_type := if htp_shared_memory (model_settings_ env) then TENSORMEMTYPE_MEMHANDLE else TENSORMEMTYPE_RAW in
      let! w := lift (make_tensor (tensor_init env) (narrow_nan env) input TENSOR_TYPE_NATIVE supported q (info_shape info) [] mem_type) in
      let! _ := add_wrapper env w "Failed to add tensor." in
      ret (output_names ++ [input], casts ++ [CastInfo node input output_name], data_type)
    else ret (output_names ++ [output_name], casts, supported) in
  let! _ := add_tensor env output_name (output_tensor_type output_name) data_type quant (info_shape info) []
    "Failed to add tensor." in
  ret (output_names, casts).

Definition ProcessOutputs (b : Virtuals) (u : UnitView) (input_names param_tensor_names : list string) (do_op_validation : bool)
  (qnn_op_type : string) : M unit :=
  let! (output_names, casts) :=
    each (seq 0 (GetOutputCountQnnRequired u)) (output_step b u input_names do_op_validation) ([], []) in
  let! node := fresh_unit u "" in
  let! _ := create_node env node qnn_op_type input_names output_names param_tensor_names do_op_validation "Failed to add node." in
  each casts (fun _ c =>
    create_node env (cast_node_name c) (QNN_OP_CAST env) [cast_input_name c] [cast_output_name c] [] false
      " Failed to add Cast node") tt.

Definition base_ProcessAttributesAndOutputs (b : Virtuals) (u : UnitView) (input_names : list string) (do_op_validation : bool) : M unit :=
  match input_names with
  | [] => ret tt
  | _ =>
      let! op := lift (GetQnnOpType (u_op_type u)) in
      ProcessOutputs b u input_names [] do_op_validation op
  end.

Definition NEARLY_EQUAL_THRESHOLD : float := f32_div (f32_of_Z 1) (f32_of_Z 1000000000).

Definition SetOutputQParamEqualToInputIfNearlyEqual (input_names : list string) (input_index : nat) (qnn_data_type : Qnn_DataType_t)
  (quant_param : QnnQuantParamsWrapper) : M QnnQuantParamsWrapper :=
  let! input := lift (aget input_names input_index) in
  let! found := get (fun m => GetQnnTensorWrapper m input) in
  let! w := lift found in
  let! input_type := lift (GetTensorDataType w) in
  let! _ := lift (return_if_not (bool_decide (input_type = qnn_data_type)) "Input and output data types do not match") in
  let! (scale_diff, offset_diff) := lift (CompareQnnQuantParams (params_ quant_param) (params_ (quant_params_ w))) in
  if negb (f_eq scale_diff f_zero) && (offset_diff =? 0) && f_le scale_diff NEARLY_EQUAL_THRESHOLD
  then lift (copy_assign quant_param (quant_params_ w))
  else ret quant_param.

(** The override that many builders use: per-tensor outputs follow input 0. *)
Definition override_like_input0 (_ : UnitView) (input_names : list string) (_ : nat) (qnn_data_type : Qnn_DataType_t)
  (quant_param : QnnQuantParamsWrapper) : M QnnQuantParamsWrapper :=
  if negb (IsPerTensor quant_param false) then ret quant_param
  else SetOutputQParamEqualToInputIfNearlyEqual input_names 0 qnn_data_type quant_param.

Definition GetCanonicalizedAxisAttribute (u : UnitView) (attr_name : string) (default_axis : Z) : result Z :=
  let* input := aget (Inputs u) 0 in
  let* input_shape := onnx_shape_of input in
  let rank := i32 (Z.of_nat (length input_shape)) in
  let* axis := Get_int32 (attr_int (u_attributes u) attr_name) default_axis in
  let axis := if axis <? 0 then axis + rank else axis in
  let* _ := return_if_not ((0 <=? axis) && (axis <? rank)) "QNN requires axis range [0, rank-1]." in
  Ok axis.

Definition DataTypeCheckForCpuBackend (onnx_tensor_data_type : ONNXTensorElementDataType) : result unit :=
  return_if (IsCpuBackend (backend_type env) && negb (bool_decide (onnx_tensor_data_type = ONNX_FLOAT)))
    "QNN CPU backend only support float data type.".

(** ** The builder *)

Record OpBuilder := Builder {
  virtuals : Virtuals;
  ProcessInputs : UnitView → bool → M (list string);
  ProcessAttributesAndOutputs : UnitView → list string → bool → M unit
}.

Definition data_types (ios : list OrtNodeUnitIODef) : result (list Qnn_DataType_t) :=
  mapM_res (fun io => rmap info_data_type (GetTensorInfo env graph io)) (filter (fun io => Is_true (Exists_ io)) ios).

Definition ProcessDataTypes (b : Virtuals) (u : UnitView) : result unit :=
  let* input_qnn_dtypes := data_types (Inputs u) in
  let* output_qnn_dtypes := data_types (Outputs u) in
  if IsCpuBackend (backend_type env) then CheckCpuDataTypes b input_qnn_dtypes output_qnn_dtypes
  else if IsNpuBackend (backend_type env) then CheckHtpDataTypes b input_qnn_dtypes output_qnn_dtypes
  else if IsGpuBackend (backend_type env) then CheckGpuDataTypes b input_qnn_dtypes output_qnn_dtypes
  else if IsIrBackend (backend_type env) then Ok tt
  else Err (EpFail "Only support backend: CPU, HTP and GPU").

Definition AddToModelBuilder (b : OpBuilder) (u : UnitView) (do_op_validation : bool) : M unit :=
  let! input_names := ProcessInputs b u do_op_validation in
  let! input_names := ProcessInt64Tensors u input_names in
  ProcessAttributesAndOutputs b u input_names do_op_validation.

Definition IsOpSupported (b : OpBuilder) (u : UnitView) : M unit :=
  let! _ := lift (ProcessDataTypes (virtuals b) u) in
  AddToModelBuilder b u true.

End BaseOpBuilder.

(** ** What a builder owes *)

Section Laws.
Context `{SafeInt} `{QnnInterface}.
Context (env : environment) (graph : OrtGraph) (qnn : QnnHeaders).

Definition required_outputs (u : UnitView) : list string := name <$> take (GetOutputCountQnnRequired u) (Outputs u).

Class virtual_laws (b : Virtuals) : Prop := {
  law_override : ∀ u names i dt q m, Forall (has m) names →
    wp (OverrideOutputQuantParam b u names i dt q) (fun _ _ => True) m
}.

(** The inputs a builder hands on are in the table; given such inputs, it leaves a closed
    model in which, after composing a unit it is made for, every output QNN needs is written by
    some node or is a constant. *)
Class builder_laws (b : OpBuilder) (made_for : UnitView → Prop) : Prop := {
  law_inputs : ∀ u v m,
    wp (ProcessInputs b u v) (fun names m' => Forall (has m') names ∧ (Inputs u ≠ [] → made_for u → names ≠ [])) m;
  law_outputs : ∀ u v names m, Forall (has m) names →
    wp (ProcessAttributesAndOutputs b u names v)
      (fun _ m' => v = false → names ≠ [] → made_for u → Forall (provided m') (required_outputs u)) m
}.

Lemma wp_ProcessInput input names Q m : Forall (has m) names →
  (∀ m', grows m m' → Forall (has m') (names ++ [name input]) → Q (names ++ [name input]) m') →
  wp (ProcessInput env graph input names) Q m.
Proof.
  intros Hn HQ. eapply (wp_use (fun r m' => r = names ++ [name input] ∧ Forall (has m') r)).
  2:{ intros r m' Hg [-> Hr]. by apply HQ. }
  unfold ProcessInput. wp_step. wp_step. wp_step. destruct (IsQnnTensorWrapperExist m (name input)) eqn:Ei.
  - assert (has m (name input)) by (by apply exists_has). wp_step. split; [done|]. solve_names.
  - wp_step. wp_step. wp_step. assert (tensor_name_ a = name input) as En.
    { unfold MakeTensorWrapper in E. inv_bind E. inv_bind E. by apply make_tensor_name in E. }
    wp_auto. rewrite En in *. split; [done|]. solve_names.
Qed.

Lemma wp_process_inputs u n names Q m : Forall (has m) names →
  (∀ m' r, grows m m' → Forall (has m') r → length r = (length names + n)%nat → Q r m') →
  wp (process_inputs env graph u n names) Q m.
Proof.
  intros Hn HQ. eapply (wp_use (fun r m' => Forall (has m') r ∧ length r = (length names + length (seq 0 n))%nat)).
  2:{ intros r m' Hg [? Hl]. rewrite length_seq in Hl. by apply HQ. }
  apply (wp_each (fun d r m' => Forall (has m') r ∧ length r = (length names + length d)%nat)).
  2:{ split; [done|]. cbn. lia. }
  intros d r i m1 [Hr Hl] _. wp_step. wp_step. wp_step. apply wp_ProcessInput; [done|]. intros m2 _ Hm2.
  split; [done|]. rewrite !length_app. cbn. lia.
Qed.

Lemma required_inputs_ne u (names : list string) : length names = GetInputCountQnnRequired u → Inputs u ≠ [] → names ≠ [].
Proof. intros Hl Hne ->. unfold GetInputCountQnnRequired in Hl. destruct (_.1); [by destruct (Inputs u)|done]. Qed.

Lemma wp_base_ProcessInputs (P : Prop) u v m :
  wp (base_ProcessInputs env graph u v) (fun names m' => Forall (has m') names ∧ (Inputs u ≠ [] → P → names ≠ [])) m.
Proof.
  apply wp_process_inputs; [constructor|]. intros m' r _ Hr Hl. split; [done|]. intros Hi _. by apply (required_inputs_ne u).
Qed.

Lemma wp_AddZeroBiasInput q0 q1 s n names Q m : n ≠ "" → Forall (has m) names →
  (∀ m', grows m m' → Forall (has m') (names ++ [n]) → Q (names ++ [n]) m') → wp (AddZeroBiasInput env q0 q1 s n names) Q m.
Proof.
  intros Hne Hn HQ. eapply (wp_use (fun r m' => r = names ++ [n] ∧ Forall (has m') r)); [|by intros r m' ? [-> ?]; auto].
  unfold AddZeroBiasInput.
  do 12 wp_step. apply wp_bind. eapply (wp_use (fun _ m' => Forall (has m') names)).
  { destruct (IsPerChannel q1); wp_step; done. }
  intros q m' Hg Hn' _. wp_step. wp_step. wp_step. apply make_tensor_name in E3 as En.
  wp_step. apply wp_perform. intros ok m'' Ea.
  destruct (add_tensor_step env _ _ _ _ Ea) as (Hg' & Ho & _ & _ & Hh & _).
  split_and!; [done|by apply closed_same_ops|]. intros _. advance Hg'. apply wp_ret. split; [done|]. apply Forall_app. split; [done|].
  constructor; [|done]. rewrite <- En. apply Hh. unfold AddTensorWrapper in Ea. rewrite En, bool_decide_false in Ea by done.
  destruct (IsQnnTensorWrapperExist m' n); [by injection Ea|]. run_cases; done.
Qed.

Lemma insert_has m (l : list string) i n : Forall (has m) l → has m n → Forall (has m) (<[i := n]> l).
Proof. intros Hl Hn. by apply Forall_insert. Qed.

Lemma wp_int64_step u names i Q m : Forall (has m) names →
  (∀ m' r, grows m m' → Forall (has m') r → length r = length names → Q r m') → wp (int64_step env u names i) Q m.
Proof.
  intros Hn HQ. eapply (wp_use (fun r m' => Forall (has m') r ∧ length r = length names)).
  2:{ intros r m' Hg [? ?]. by apply HQ. }
  unfold int64_step. wp_step. wp_step. wp_step. wp_step; [by wp_step|]. do 9 wp_step.
  wp_step; [by wp_step|]. apply aget_Ok in E. pose proof (proj1 (Forall_lookup _ _) Hn _ _ E) as Hi.
  do 7 wp_step.
  match goal with |- context [IsQnnTensorWrapperExist ?m1 ?n] => rename m1 into m', n into a0' end.
  destruct (IsQnnTensorWrapperExist m' a0') eqn:Ex.
  - assert (has m' a0') by (by apply exists_has). wp_step. wp_step. wp_step.
    rewrite length_insert. split; [|done]. by apply insert_has.
  - do 6 wp_step. apply wp_AddCastNode; [done|]. intros m2 Hg2 Ho. advance Hg2. wp_step. wp_step.
    rewrite length_insert. split; [|done]. by apply insert_has.
Qed.

Lemma wp_ProcessInt64Tensors u names Q m : Forall (has m) names →
  (∀ m' r, grows m m' → Forall (has m') r → length r = length names → Q r m') → wp (ProcessInt64Tensors env u names) Q m.
Proof.
  intros Hn HQ. eapply (wp_use (fun r m' => Forall (has m') r ∧ length r = length names)).
  2:{ intros r m' Hg [? ?]. by apply HQ. }
  apply (wp_each (fun _ r m' => Forall (has m') r ∧ length r = length names)); [|done].
  intros d r i m1 [Hr Hl] _. apply wp_int64_step; [done|]. intros. split; [done|]. congruence.
Qed.

End Laws.

Section Outputs.
Context `{SafeInt} `{QnnInterface}.
Context (env : environment) (graph : OrtGraph) (qnn : QnnHeaders).

(** The tensors of the outputs handled so far: written by the node itself or by a cast. *)
Record outputs_inv (u : UnitView) (names ps : list string) (done_ : list nat) (st : list string * list CastNodeInfo)
  (m : QnnModelWrapper) : Prop := {
  inv_names : Forall (has m) names;
  inv_params : Forall (has_param m) ps;
  inv_outputs : Forall (has m) st.1;
  inv_casts : Forall (fun c => has m (cast_input_name c) ∧ has m (cast_output_name c)) st.2;
  inv_done : ∀ i o, i ∈ done_ → Outputs u !! i = Some o → name o ∈ st.1 ∨ name o ∈ cast_output_name <$> st.2
}.

Lemma casts_grow m m' casts : grows m m' →
  Forall (fun c => has m (cast_input_name c) ∧ has m (cast_output_name c)) casts →
  Forall (fun c => has m' (cast_input_name c) ∧ has m' (cast_output_name c)) casts.
Proof. intros Hg Hc. eapply Forall_impl; [done|]. intros c [? ?]. split; by eapply has_grows. Qed.

Lemma outputs_inv_step u names ps d i o m m' on casts on' casts' :
  outputs_inv u names ps d (on, casts) m → grows m m' → Outputs u !! i = Some o → has m' (name o) →
  (on' = on ++ [name o] ∧ casts' = casts ∨
   ∃ n x, on' = on ++ [x] ∧ casts' = casts ++ [CastInfo n x (name o)] ∧ has m' x) →
  outputs_inv u names ps (d ++ [i]) (on', casts') m'.
Proof.
  intros [Hn Hp Ho Hc Hd] Hg Ei Hname Hcase. cbn in *. advance Hg. apply (casts_grow _ _ _ Hg) in Hc. split; cbn.
  - done.
  - done.
  - destruct Hcase as [[-> _]|(n & x & -> & _ & Hx)]; solve_names.
  - destruct Hcase as [[_ ->]|(n & x & _ & -> & Hx)]; [done|]. apply Forall_app. split; [done|]. by repeat constructor.
  - intros j o' Hj Eo. apply elem_of_app in Hj as [Hj|Hj%list_elem_of_singleton].
    + destruct (Hd _ _ Hj Eo); destruct Hcase as [[-> ->]|(n & x & -> & -> & _)]; rewrite ?fmap_app; set_solver.
    + subst. simplify_eq. destruct Hcase as [[-> ->]|(n & x & -> & -> & _)]; rewrite ?fmap_app; set_solver.
Qed.

Lemma wp_output_step (b : Virtuals) `{!virtual_laws b} u names ps v d st i m : outputs_inv u names ps d st m →
  wp (output_step env graph b u names v st i) (outputs_inv u names ps (d ++ [i])) m.
Proof.
  destruct st as [on casts]. intros HI. unfold output_step. wp_step. wp_step. wp_step. apply aget_Ok in E.
  rename a into o. wp_step. wp_step. wp_step. rename a into info. wp_step.
  eapply (wp_use (fun _ _ => True)).
  { destruct (IsQuantized _); [|by apply wp_ret]. apply law_override. apply HI. }
  intros q m1 Hg1 _ _. wp_step.
  match goal with |- wp (if ?c then _ else _) _ _ => set (needs := c) end.
  eapply (wp_use (fun '(on', casts', _) m' =>
    on' = on ++ [name o] ∧ casts' = casts ∨
    ∃ n x, on' = on ++ [x] ∧ casts' = casts ++ [CastInfo n x (name o)] ∧ has m' x)).
  { destruct needs; [wp_auto; right; eauto|].
    wp_step; [|by wp_auto; left]. do 12 wp_step. apply make_tensor_name in E2 as En. wp_step. wp_step. wp_step. wp_step.
    right. rewrite En in *. eauto. }
  intros [[on' casts'] dt] m2 Hg2 Hcase _. wp_step. wp_step. wp_step. wp_step.
  eapply outputs_inv_step; [exact HI| |done|done|].
  - etrans; [|done]. by etrans.
  - destruct Hcase as [?|(n & x & ? & ? & ?)]; [by left|]. right. exists n, x. split_and!; try done. by eapply has_grows.
Qed.

Lemma wp_ProcessOutputs (b : Virtuals) `{!virtual_laws b} u names ps v op Q m :
  Forall (has m) names → Forall (has_param m) ps →
  (∀ m', grows m m' → (v = false → Forall (provided m') (required_outputs u)) → Q tt m') →
  wp (ProcessOutputs env graph b u names ps v op) Q m.
Proof.
  intros Hn Hp HQ.
  eapply (wp_use (fun _ m' => v = false → Forall (provided m') (required_outputs u))); [|by intros []; auto].
  unfold ProcessOutputs. wp_step.
  eapply wp_use.
  { apply (wp_each (outputs_inv u names ps)).
    - intros d st i m1 HI _. by apply wp_output_step.
    - split; cbn; try done. set_solver. }
  intros [on casts] m1 Hg1 [Hn1 Hp1 Ho Hc Hd] _. cbn in *. do 4 wp_step.
  apply (casts_grow _ _ _ Hg) in Hc. wp_step. apply (casts_grow _ _ _ Hg0) in Hc. wp_step.
  eapply (wp_use (fun _ m' => (v = false → Forall (provided m') on) ∧
    Forall (fun c => has m' (cast_input_name c) ∧ has m' (cast_output_name c)) casts ∧
    Forall (provided m') (cast_output_name <$> casts))).
  - apply (wp_each (fun d _ m' => (v = false → Forall (provided m') on) ∧
      Forall (fun c => has m' (cast_input_name c) ∧ has m' (cast_output_name c)) casts ∧
      Forall (provided m') (cast_output_name <$> d))).
    + intros d [] c m2 (Hw & Hc2 & Hd2) Hin. pose proof (proj1 (Forall_forall _ _) Hc2 _ Hin) as [? ?].
      wp_step. apply (casts_grow _ _ _ Hg2) in Hc2. rewrite fmap_app. split_and!; [done|done|]. apply Forall_app. auto.
    + split_and!; [done|done|constructor].
  - intros [] m2 Hg2 (Hw & _ & Hcw) Hv. specialize (Hw Hv). apply Forall_fmap, Forall_forall. intros o Hin.
    apply list_elem_of_lookup in Hin as [i Hi]. apply lookup_take_Some in Hi as [Hi Hlt].
    destruct (Hd i o) as [Ho'|Ho']; [by apply elem_of_seq; lia|done| |].
    + by apply (proj1 (Forall_forall _ _) Hw).
    + by apply (proj1 (Forall_forall _ _) Hcw).
Qed.

Lemma wp_SetOutputQParam names i dt q Q m :
  (∀ r, Q r m) → wp (SetOutputQParamEqualToInputIfNearlyEqual names i dt q) Q m.
Proof. intros HQ. unfold SetOutputQParamEqualToInputIfNearlyEqual. wp_auto. Qed.

#[export] Instance base_virtual_laws : virtual_laws base_virtuals.
Proof. split. intros. by apply wp_ret. Qed.

(** Builders that only change [GetSupportedOutputDataType], or let outputs follow input 0. *)
Lemma override_laws f o c1 c2 c3 : (o = (fun _ _ _ _ q => ret q) ∨ o = override_like_input0) →
  virtual_laws {| GetSupportedOutputDataType := f; OverrideOutputQuantParam := o;
    CheckCpuDataTypes := c1; CheckHtpDataTypes := c2; CheckGpuDataTypes := c3 |}.
Proof.
  intros Ho. split. intros u names i dt q m Hn. cbn. destruct Ho as [->| ->]; [by apply wp_ret|].
  unfold override_like_input0. wp_step; [by wp_step|]. by apply wp_SetOutputQParam.
Qed.

Lemma wp_base_attributes (b : Virtuals) `{!virtual_laws b} u names v m : Forall (has m) names →
  wp (base_ProcessAttributesAndOutputs env graph qnn b u names v)
    (fun _ m' => v = false → names ≠ [] → Forall (provided m') (required_outputs u)) m.
Proof.
  intros Hn. unfold base_ProcessAttributesAndOutputs. destruct names; [by wp_step|]. wp_step. wp_step. wp_step.
  apply wp_ProcessOutputs; auto.
Qed.

(** The whole run of a builder. *)
Lemma wp_AddToModelBuilder (b : OpBuilder) ok `{!builder_laws b ok} u v m :
  wp (AddToModelBuilder env b u v)
    (fun _ m' => v = false → Inputs u ≠ [] → ok u → Forall (provided m') (required_outputs u)) m.
Proof.
  unfold AddToModelBuilder. wp_step. eapply wp_use; [apply law_inputs|]. intros names m1 Hg1 [Hn Hne] _. wp_step.
  apply wp_ProcessInt64Tensors; [done|]. intros m2 r Hg2 Hr Hl _. eapply wp_use; [by apply law_outputs|].
  intros [] m3 Hg3 Hw Hv Hi Hok. apply Hw; [done| |done]. intros ->. specialize (Hne Hi Hok). by destruct names.
Qed.

(** A builder made for units with one output writes that output. *)
Lemma single_output m u o : Outputs u !! 0%nat = Some o → length (Outputs u) = 1%nat → provided m (name o) →
  Forall (provided m) (required_outputs u).
Proof.
  unfold required_outputs. destruct (Outputs u) as [|o' [|]]; try done. intros [= ->] _ Hw. cbn.
  destruct (GetOutputCountQnnRequired u) as [|n]; cbn; [constructor|]. rewrite firstn_nil. by apply Forall_singleton.
Qed.

End Outputs.

(** One step of a builder, with the methods of the base. *)
Ltac bp_step :=
  lazymatch goal with
  | |- wp (ProcessInput _ _ _ _) _ _ =>
      apply wp_ProcessInput; [side|let Hg := fresh "Hg" in intros ? Hg ?; advance Hg]
  | |- wp (process_inputs _ _ _ _ _) _ _ =>
      apply wp_process_inputs; [side|let Hg := fresh "Hg" in intros ? ? Hg ? ?; advance Hg]
  | |- wp (ProcessOutputs _ _ _ _ _ _ _ _) _ _ =>
      apply wp_ProcessOutputs; [apply _|side|side|let Hg := fresh "Hg" in intros ? Hg ?; advance Hg]
  | |- wp (SetOutputQParamEqualToInputIfNearlyEqual _ _ _ _) _ _ => apply wp_SetOutputQParam; intros ?
  | |- wp (AddCastNode _ _ _ _ _ _ _ _ _) _ _ =>
      apply wp_AddCastNode; [side|let Hg := fresh "Hg" in intros ? Hg ?; advance Hg]
  | |- wp (AddDequantizeNode _ _ _ _ _ _ _) _ _ =>
      apply wp_AddDequantizeNode; [side|let Hg := fresh "Hg" in intros ? Hg ? ?; advance Hg]
  | |- wp (AddQuantizeNode _ _ _ _ _ _ _ _ _) _ _ =>
      apply wp_AddQuantizeNode; [side|let Hg := fresh "Hg" in intros ? Hg ? ?; advance Hg]
  | |- wp (AddReshapeNode _ _ _ _ _ _ _ _ _ _ _ _) _ _ =>
      apply wp_AddReshapeNode; let Hg := fresh "Hg" in intros ? Hg ? ? ?; advance Hg
  | |- wp (AddReshapeNode_same _ _ _ _ _ _ _ _ _ _ _) _ _ =>
      apply wp_AddReshapeNode_same; let Hg := fresh "Hg" in intros ? Hg ? ? ?; advance Hg
  | |- wp (AddTransposeNode _ _ _ _ _ _ _ _ _ _ _ _ _) _ _ =>
      apply wp_AddTransposeNode; let Hg := fresh "Hg" in intros ? Hg ? ? ?; advance Hg
  | |- wp (AddNoopReshapeNode _ _ _ _ _ _ _) _ _ =>
      apply wp_AddNoopReshapeNode; [side|let Hg := fresh "Hg" in intros ? Hg ? ?; advance Hg]
  | |- wp (AddStaticBiasTensor _ _ _ _ _ _ _) _ _ =>
      apply wp_AddStaticBiasTensor; [side|let Hg := fresh "Hg" in intros ? ? Hg ?; advance Hg]
  | |- _ => wp_step
  end; cbv beta.

Ltac bp_auto := repeat bp_step; finish.
