(* ===== verification/Builders.v ===== *)
(** * Op builders of elementwise and shape operators

    The builders of [builder/opbuilder/] whose operators map to one QNN node with parameters
    (ArgMax, Concat, Clip, CumSum, Identity, IsInf, IsNaN, LRN, Reshape, Shape, Tile, Expand) or
    to a chain of elementwise QNN nodes (Tan, Mean, Mod, Reciprocal, Selu, QuickGelu,
    ThresholdedRelu).  A definition is named after the operator and the method it models. *)

From stdpp Require Import pretty.
From Stdlib Require Import SpecFloat.
From S2P Require Import Prelude DataTypes Floats QuantParams Perm QnnTensor Quantize OpParams ModelWrapper NodeGroups NodeUnitDefs TensorInfo ModelOps OpBuilder.
Local Open Scope Z_scope.

(** ** Bytes of constants *)

Definition bits_of_f16 (nan : Z) (x : float) : Z :=
  let s (sign : bool) := if sign then 2 ^ 15 else 0 in
  match convert 11 16 x with
  | S754_zero sign => s sign
  | S754_infinity sign => s sign + 31 * 2 ^ 10
  | S754_nan => nan
  | S754_finite sign m e =>
      if Z.pos m <? 2 ^ 10 then s sign + Z.pos m else s sign + (e + 25) * 2 ^ 10 + (Z.pos m - 2 ^ 10)
  end.

Definition bits_of_bf16 (nan : Z) (x : float) : Z :=
  let s (sign : bool) := if sign then 2 ^ 15 else 0 in
  match convert 8 128 x with
  | S754_zero sign => s sign
  | S754_infinity sign => s sign + 255 * 2 ^ 7
  | S754_nan => nan
  | S754_finite sign m e =>
      if Z.pos m <? 2 ^ 7 then s sign + Z.pos m else s sign + (e + 134) * 2 ^ 7 + (Z.pos m - 2 ^ 7)
  end.

Section Bytes.
Variable qnn : QnnHeaders.

Definition f32_bytes (x : float) : list Z := le_encode 4 (bits_of_f32 (nan32 qnn) x).
Definition f16_bytes (x : float) : list Z := le_encode 2 (bits_of_f16 (nan16 qnn) x).
Definition bf16_bytes (x : float) : list Z := le_encode 2 (bits_of_bf16 (nan_bf16 qnn) x).

(** The bytes of a constant for an activation type; every other type gets those of a [float]. *)
Definition float_const_bytes (dt : Qnn_DataType_t) (x : float) : list Z :=
  match dt with QNN_FLOAT_16 => f16_bytes x | QNN_BFLOAT_16 => bf16_bytes x | _ => f32_bytes x end.

End Bytes.

(** The member [scaleOffsetEncoding] of the union; other encodings have no such member. *)
Definition scaleOffsetEncoding (p : Qnn_QuantizeParams_t) : result (float * Z) :=
  match quantizationEncoding p with SCALE_OFFSET s o => Ok (s, o) | _ => Err Trap end.

(** The 64-bit elements of an initializer. *)
Definition int64_elements (bytes : list Z) : list Z := i64 <$> elements 8 bytes.

Section Builders.
Context `{SafeInt} `{QnnInterface}.
Context (env : environment) (graph : OrtGraph) (qnn : QnnHeaders).

Local Abbreviation tensor_info io := (GetTensorInfo env graph io).
Local Abbreviation input u i := (aget (Inputs u) i).
Local Abbreviation output u i := (aget (Outputs u) i).
Local Abbreviation scalar u v n ps := (AddQnnScalar (u_index u) (u_name u) v (macro qnn n) ps).

(** [node_helper.Get] of a 64-bit integer, a float and a string. *)
Definition Get_int64 (u : UnitView) (attr : string) (def_val : Z) : Z := default def_val (attr_int (u_attributes u) attr).
Definition Get_float (u : UnitView) (attr : string) (def_val : float) : float := default def_val (attr_float (u_attributes u) attr).
Definition Get_string (u : UnitView) (attr def_val : string) : string := default def_val (attr_string (u_attributes u) attr).

Definition with_override_like_input0 : Virtuals := {|
  GetSupportedOutputDataType _ t := t;
  OverrideOutputQuantParam := override_like_input0;
  CheckCpuDataTypes _ _ := Ok tt; CheckHtpDataTypes _ _ := Ok tt; CheckGpuDataTypes _ _ := Ok tt
|}.

Definition with_output_type (f : Qnn_DataType_t → Qnn_DataType_t) : Virtuals := {|
  GetSupportedOutputDataType _ t := f t;
  OverrideOutputQuantParam _ _ _ _ q := ret q;
  CheckCpuDataTypes _ _ := Ok tt; CheckHtpDataTypes _ _ := Ok tt; CheckGpuDataTypes _ _ := Ok tt
|}.

(** The end of many builders: one node of the QNN type of the ONNX operator. *)
Definition finish_node (b : Virtuals) (u : UnitView) (input_names params : list string) (v : bool) : M unit :=
  let! op := lift (GetQnnOpType qnn (u_op_type u)) in
  ProcessOutputs env graph b u input_names params v op.

(** ** ArgMax and ArgMin *)

Definition ArgMaxMin_GetSupportedOutputDataType (t : Qnn_DataType_t) : Qnn_DataType_t :=
  match t with QNN_INT_64 => QNN_INT_32 | QNN_UINT_64 => QNN_UINT_32 | t => t end.

Definition ArgMaxMin_ProcessAttributesAndOutputs (u : UnitView) (input_names : list string) (v : bool) : M unit :=
  let! axis := lift (GetCanonicalizedAxisAttribute u "axis" 0) in
  let! ps := scalar u (SCALAR_UINT_32 (u32 axis)) "QNN_OP_ARGMAX_PARAM_AXIS" [] in
  let! select_last := lift (Get_int32 (attr_int (u_attributes u) "select_last_index") 0) in
  let! _ := lift (return_if (negb (select_last =? 0)) "QNN ArgMax/ArgMin only support select_last_index=0.") in
  let! onnx_keepdims := lift (Get_int32 (attr_int (u_attributes u) "keepdims") 1) in
  let! ps := scalar u (SCALAR_BOOL_8 (negb (onnx_keepdims =? 0))) "QNN_OP_ARGMAX_PARAM_KEEP_DIMS" ps in
  finish_node (with_output_type ArgMaxMin_GetSupportedOutputDataType) u input_names ps v.

Definition ArgMaxMinOpBuilder : OpBuilder :=
  Builder (with_output_type ArgMaxMin_GetSupportedOutputDataType) (base_ProcessInputs env graph) ArgMaxMin_ProcessAttributesAndOutputs.

(** ** Identity: a Transpose that keeps the axes *)

Definition Identity_ProcessAttributesAndOutputs (u : UnitView) (input_names : list string) (v : bool) : M unit :=
  let! input := lift (input u 0) in
  let! input_shape := lift (onnx_shape_of input) in
  let rank := length input_shape in
  let! p := add_u32_param env (u_index u) (u_name u) (macro qnn "QNN_OP_TRANSPOSE_PARAM_PERM") [u32 (Z.of_nat rank)]
    (Z.of_nat <$> seq 0 rank) in
  ProcessOutputs env graph with_override_like_input0 u input_names [p] v (macro qnn "QNN_OP_TRANSPOSE").

Definition IdentityOpBuilder : OpBuilder :=
  Builder with_override_like_input0 (base_ProcessInputs env graph) Identity_ProcessAttributesAndOutputs.

(** ** Reshape *)

Definition Reshape_ProcessInputs (u : UnitView) (v : bool) : M (list string) :=
  let! _ :=
    if v && negb (Get_int64 u "allowzero" 0 =? 0) then
      let! shape_input := lift (input u 1) in
      let! shape_tensor := lift (FindInitializer graph (name shape_input)) in
      let! unpacked_tensor := lift (UnpackInitializerData graph (Some shape_tensor) true) in
      lift (return_if (existsb (Z.eqb 0) (int64_elements unpacked_tensor))
        "QNN Reshape does not support shapes with zero dimensions. ")
    else ret tt in
  let! input_0 := lift (input u 0) in
  ProcessInput env graph input_0 [].

Definition ReshapeOpBuilder : OpBuilder :=
  Builder with_override_like_input0 Reshape_ProcessInputs (base_ProcessAttributesAndOutputs env graph qnn with_override_like_input0).

(** ** Shape *)

Definition ResolveShapeBounds (rank start_attr end_attr : Z) : Z * Z :=
  let start := if start_attr <? 0 then i64 (start_attr + rank) else start_attr in
  let end_ := if end_attr <? 0 then i64 (end_attr + rank) else end_attr in
  (Z.min (Z.max start 0) rank, Z.min (Z.max end_ 0) rank).

Definition Shape_GetSupportedOutputDataType (t : Qnn_DataType_t) : Qnn_DataType_t :=
  match t with QNN_INT_64 => QNN_INT_32 | t => t end.

Definition Shape_ProcessAttributesAndOutputs (u : UnitView) (input_names : list string) (v : bool) : M unit :=
  let! input := lift (input u 0) in
  let! input_shape := lift (onnx_shape_of input) in
  let rank := Z.of_nat (length input_shape) in
  let! _ := lift (return_if (rank <? 1) "QNN Shape requires an input of rank >= 1.") in
  let '(start, end_) := ResolveShapeBounds rank (Get_int64 u "start" 0) (Get_int64 u "end" rank) in
  let output_length := Z.max 0 (end_ - start) in
  let! _ := lift (return_if (output_length <? 1) "QNN Shape produces a 1-D output of length (end - start)") in
  let! ps := scalar u (SCALAR_UINT_32 (u32 start)) "QNN_OP_SHAPE_PARAM_START" [] in
  let! ps := scalar u (SCALAR_UINT_32 (u32 end_)) "QNN_OP_SHAPE_PARAM_END" ps in
  finish_node (with_output_type Shape_GetSupportedOutputDataType) u input_names ps v.

Definition ShapeOpBuilder : OpBuilder :=
  Builder (with_output_type Shape_GetSupportedOutputDataType) (base_ProcessInputs env graph) Shape_ProcessAttributesAndOutputs.

(** ** Concat *)

(** Inputs without elements are left out. *)
Definition Concat_has_zero_dim (input : OrtNodeUnitIODef) : result bool :=
  if IsConstantInput env (name input) then
    Ok match GetConstantTensor graph (name input) with
       | Some t => existsb (Z.eqb 0) (default [] (vi_shape t))
       | None => false
       end
  else let* shape := onnx_shape_of input in Ok (existsb (Z.eqb 0) shape).

Definition Concat_ProcessInputs (u : UnitView) (v : bool) : M (list string) :=
  let! input_names := each (Inputs u) (fun names input =>
    let! has_zero_dim := lift (Concat_has_zero_dim input) in
    if has_zero_dim : bool then ret names else ProcessInput env graph input names) [] in
  let! _ := lift (return_if (bool_decide (input_names = [])) "Concat operation requires at least one input without a 0 dimension") in
  ret input_names.

Definition Concat_ProcessAttributesAndOutputs (u : UnitView) (input_names : list string) (v : bool) : M unit :=
  match input_names with
  | [] => ret tt
  | _ =>
      let! axis := lift (GetCanonicalizedAxisAttribute u "axis" 0) in
      let! ps := scalar u (SCALAR_UINT_32 (u32 axis)) "QNN_OP_CONCAT_PARAM_AXIS" [] in
      finish_node base_virtuals u input_names ps v
  end.

Definition ConcatOpBuilder : OpBuilder := Builder base_virtuals Concat_ProcessInputs Concat_ProcessAttributesAndOutputs.

(** ** IsInf and IsNaN *)

(** Inputs that must be floats, for the operator [what]. *)
Definition float_inputs (what : string) (u : UnitView) (v : bool) : M (list string) :=
  let! _ :=
    if v then
      let! input := lift (input u 0) in
      let! info := lift (tensor_info input) in
      lift (return_if (negb (bool_decide (info_data_type info ∈ [QNN_FLOAT_32; QNN_FLOAT_16])))
        ("QNN " +:+ what +:+ " Op supports only float32 and float16 input tensors."))
    else ret tt in
  process_inputs env graph u (GetInputCountQnnRequired u) [].

(** The output with the type that the graph gives it. *)
Definition add_graph_output (o : OrtNodeUnitIODef) (info : TensorInfo) (dt : Qnn_DataType_t) (shape : list Z) (msg : string) : M unit :=
  let! q := lift (Copy (info_quant_param info)) in
  add_tensor env (name o) (output_tensor_type env (name o)) dt q shape [] msg.

Definition IsInf_IsOpSupported_check : result unit :=
  return_if (IsNpuBackend (backend_type env)) "QNN EP does not support IsInf on the HTP backend ".

Definition IsInf_ProcessAttributesAndOutputs (u : UnitView) (input_names : list string) (v : bool) : M unit :=
  let detect_positive := negb (Get_int64 u "detect_positive" 1 =? 0) in
  let detect_negative := negb (Get_int64 u "detect_negative" 1 =? 0) in
  let! ps := scalar u (SCALAR_BOOL_8 detect_positive) "QNN_OP_IS_INF_PARAM_DETECT_POSITIVE" [] in
  let! ps := scalar u (SCALAR_BOOL_8 detect_negative) "QNN_OP_IS_INF_PARAM_DETECT_NEGATIVE" ps in
  let! o := lift (output u 0) in
  let! info := lift (tensor_info o) in
  let! _ := lift (return_if (v && negb (bool_decide (info_data_type info = QNN_BOOL_8))) "QNN IsInf Op supports only bool8 output tensor.") in
  let! node := fresh_unit u "_IsInf" in
  let! _ := add_graph_output o info (info_data_type info) (info_shape info) "Failed to add tensor." in
  let! i := lift (aget input_names 0) in
  create_node env node (macro qnn "QNN_OP_IS_INF") [i] [name o] ps v "Failed to create QNN IsInf node.".

Definition IsInfOpBuilder : OpBuilder := Builder base_virtuals (float_inputs "IsInf") IsInf_ProcessAttributesAndOutputs.

(** The node is recorded without validation. *)
Definition IsNaN_ProcessAttributesAndOutputs (u : UnitView) (input_names : list string) (v : bool) : M unit :=
  let! o := lift (output u 0) in
  let! info := lift (tensor_info o) in
  let! _ := lift (return_if (v && negb (bool_decide (info_data_type info = QNN_BOOL_8))) "QNN IsNan Op support only bool8 output tensor.") in
  let! node := fresh_unit u "_IsNan" in
  let! _ := add_graph_output o info (info_data_type info) (info_shape info) "Failed to add tensor." in
  let! i := lift (aget input_names 0) in
  create_node env node (macro qnn "QNN_OP_IS_NAN") [i] [name o] [] false "Failed to create QNN IsNan node.".

Definition IsNaNOpBuilder : OpBuilder := Builder base_virtuals (float_inputs "IsNan") IsNaN_ProcessAttributesAndOutputs.

(** ** CumSum *)

(** The axis is read from a constant with one 32- or 64-bit element; the sizes are compared in
    units of [sizeof(axis_input_info.qnn_data_type)], that is of 4 bytes. *)
Definition CumSum_GetOnnxAxis (u : UnitView) : result Z :=
  let* axis_input := input u 1 in
  let* info := tensor_info axis_input in
  let* _ := return_if_not (info_is_initializer info) "axis must be initializers" in
  let* bytes := UnpackInitializerData graph (info_initializer info) true in
  let is_int64 := bool_decide (info_data_type info = QNN_INT_64) in
  let* _ := return_if_not ((if is_int64 then 2 else 1) =? Z.of_nat (length bytes / 4)) "axis should be a single element" in
  let axis := if is_int64 then i32 (i64 (le_decode (element 8 bytes 0))) else i32 (le_decode (element 4 bytes 0)) in
  let* data := input u 0 in
  let* input_shape := onnx_shape_of data in
  let rank := i32 (Z.of_nat (length input_shape)) in
  let axis := if axis <? 0 then axis + rank else axis in
  let* _ := return_if_not ((0 <=? axis) && (axis <? rank)) "QNN requires axis range [0, rank-1]." in
  Ok (u32 axis).

Definition CumSum_IsOpSupported_check (u : UnitView) : result unit :=
  let* axis_input := input u 1 in
  let* _ := return_if_not (IsConstantInput env (name axis_input)) "QNN CumSum needs axis as a param, hence input[1] must be a constant." in
  let* _ := return_if_not (Get_int64 u "exclusive" 0 =? 0) "QNN only supports default value 0 for exclusive attribute" in
  return_if_not (Get_int64 u "reverse" 0 =? 0) "QNN only supports default value 0 for reverse attribute".

Definition first_input (u : UnitView) (v : bool) : M (list string) :=
  let! i := lift (input u 0) in ProcessInput env graph i [].

Definition CumSum_ProcessAttributesAndOutputs (u : UnitView) (input_names : list string) (v : bool) : M unit :=
  let! onnx_axis := lift (CumSum_GetOnnxAxis u) in
  let! ps := scalar u (SCALAR_UINT_32 onnx_axis) "QNN_OP_CUMULATIVE_SUM_PARAM_AXIS" [] in
  let! ps := scalar u (SCALAR_BOOL_8 (negb (Get_int64 u "exclusive" 0 =? 0))) "QNN_OP_CUMULATIVE_SUM_PARAM_EXCLUSIVE" ps in
  let! ps := scalar u (SCALAR_BOOL_8 (negb (Get_int64 u "reverse" 0 =? 0))) "QNN_OP_CUMULATIVE_SUM_PARAM_REVERSE" ps in
  finish_node base_virtuals u input_names ps v.

Definition CumSumOpBuilder : OpBuilder := Builder base_virtuals first_input CumSum_ProcessAttributesAndOutputs.

(** ** Tile *)

Definition Tile_ProcessInputs (u : UnitView) (v : bool) : M (list string) :=
  let! _ :=
    if v then
      let! repeats := lift (input u 1) in
      lift (return_if_not (IsConstantInput env (name repeats)) "Qnn doesn't support dynamic repeats input")
    else ret tt in
  first_input u v.

Definition Tile_ProcessAttributesAndOutputs (u : UnitView) (input_names : list string) (v : bool) : M unit :=
  let! repeats := lift (input u 1) in
  let! unpacked_tensor := lift (UnpackInitializerData graph (GetConstantTensor graph (name repeats)) true) in
  let! multiples := lift (mapM_res Pad.safe_u32 (int64_elements unpacked_tensor)) in
  let! p := add_u32_param env (u_index u) (u_name u) (macro qnn "QNN_OP_TILE_PARAM_MULTIPLES")
    [u32 (Z.of_nat (length multiples))] multiples in
  finish_node with_override_like_input0 u input_names [p] v.

Definition TileOpBuilder : OpBuilder := Builder with_override_like_input0 Tile_ProcessInputs Tile_ProcessAttributesAndOutputs.

(** ** LRN *)

Definition LRN_size (u : UnitView) : Z := Get_int64 u "size" 0.
Definition LRN_alpha (u : UnitView) : float := Get_float u "alpha" (f32_div (f32_of_Z 1) (f32_of_Z 10000)).
Definition LRN_beta (u : UnitView) : float := Get_float u "beta" (f32_div (f32_of_Z 3) (f32_of_Z 4)).

Definition LRN_IsOpSupported_check (u : UnitView) : result unit :=
  let* _ := return_if (negb (length (Inputs u) =? 1)%nat) "QNN EP: LRN operator must have 1 input." in
  let* _ := return_if (negb (length (Outputs u) =? 1)%nat) "QNN EP: LRN operator must have 1 output." in
  let* i := input u 0 in
  let* o := output u 0 in
  let* _ := DataTypeCheckForCpuBackend env (type i) in
  let* input_shape := onnx_shape_of i in
  let* _ := return_if ((length input_shape <=? 2) || (4 <? length input_shape))%nat
    "QNN EP: LRN operator only supports input ranks of size 3 or 4." in
  let* output_shape := onnx_shape_of o in
  let* _ := return_if (negb (bool_decide (output_shape = input_shape))) "QNN EP: LRN operator's output must have the same shape as the input." in
  let* _ := return_if (Z.rem (LRN_size u) 2 =? 0) "QNN EP: LRN operator's size attribute must be odd." in
  let* _ := return_if (f_le (LRN_alpha u) f_zero) "QNN EP: LRN operator's alpha attribute must be greater than zero." in
  return_if (f_le (LRN_beta u) f_zero) "QNN EP: LRN operator's beta attribute must be greater than zero.".

Definition safe_i32 (z : Z) : result Z := if (- 2 ^ 31 <=? z) && (z <? 2 ^ 31) then Ok z else Err overflow.

Definition LRN_ProcessAttributesAndOutputs (u : UnitView) (input_names : list string) (v : bool) : M unit :=
  let onnx_size := LRN_size u in
  let! qnn_radius := lift (safe_i32 (Z.quot (i64 (onnx_size - 1)) 2)) in
  let! ps := scalar u (SCALAR_INT_32 qnn_radius) "QNN_OP_LRN_PARAM_RADIUS" [] in
  let! ps := scalar u (SCALAR_FLOAT_32 (f32_div (LRN_alpha u) (f32_of_Z onnx_size))) "QNN_OP_LRN_PARAM_ALPHA" ps in
  let! ps := scalar u (SCALAR_FLOAT_32 (LRN_beta u)) "QNN_OP_LRN_PARAM_BETA" ps in
  let! ps := scalar u (SCALAR_FLOAT_32 (Get_float u "bias" (f32_of_Z 1))) "QNN_OP_LRN_PARAM_BIAS" ps in
  let! ps := scalar u (SCALAR_UINT_32 (macro_value qnn "QNN_OP_LRN_REGION_ACROSS_CHANNEL")) "QNN_OP_LRN_PARAM_REGION" ps in
  finish_node base_virtuals u input_names ps v.

Definition LRNOpBuilder : OpBuilder := Builder base_virtuals (base_ProcessInputs env graph) LRN_ProcessAttributesAndOutputs.

(** ** Clip *)

(** The value of a quantized bound. *)
Definition dequantized_bound (size : nat) (signed : bool) (p : Qnn_QuantizeParams_t) (bytes : list Z) : result float :=
  let* (scale, offset) := scaleOffsetEncoding p in
  let q := le_decode (element size bytes 0) in
  let q := if signed then wraps (8 * Z.of_nat size) q else q in
  Ok (f32_of_f64 (Dequantize offset scale (f64_of_Z q))).

(** The value of an integer bound. *)
Definition int_bound (size : nat) (signed : bool) (bytes : list Z) : float :=
  let q := le_decode (element size bytes 0) in
  f32_of_Z (if signed then wraps (8 * Z.of_nat size) q else q).

Definition float_lowest : float := S754_finite true 16777215 104.
Definition float_max : float := S754_finite false 16777215 104.

Definition Clip_ProcessClipMinMax (io : OrtNodeUnitIODef) (is_min : bool) : result float :=
  let* info := tensor_info io in
  let* _ := return_if_not (info_is_initializer info) "QNN EP: Clip min/max must be a constant initializer." in
  let* bytes := UnpackInitializerData graph (info_initializer info) true in
  let* value :=
    match quant_param io with
    | Some _ =>
        let* _ := return_if_not (IsPerTensor (info_quant_param info) false) "Clip's min/max must use per-tensor quantization" in
        let p := params_ (info_quant_param info) in
        match info_data_type info with
        | QNN_SFIXED_POINT_8 => dequantized_bound 1 true p bytes
        | QNN_SFIXED_POINT_16 => dequantized_bound 2 true p bytes
        | QNN_SFIXED_POINT_32 => dequantized_bound 4 true p bytes
        | QNN_UFIXED_POINT_8 => dequantized_bound 1 false p bytes
        | QNN_UFIXED_POINT_16 => dequantized_bound 2 false p bytes
        | QNN_UFIXED_POINT_32 => dequantized_bound 4 false p bytes
        | _ => Err (EpFail "Quantized min/max input data type not supported.")
        end
    | None =>
        match info_data_type info with
        | QNN_INT_8 => Ok (int_bound 1 true bytes)
        | QNN_INT_16 => Ok (int_bound 2 true bytes)
        | QNN_INT_32 => Ok (int_bound 4 true bytes)
        | QNN_INT_64 => Ok (int_bound 8 true bytes)
        | QNN_UINT_8 => Ok (int_bound 1 false bytes)
        | QNN_UINT_16 => Ok (int_bound 2 false bytes)
        | QNN_UINT_32 => Ok (int_bound 4 false bytes)
        | QNN_UINT_64 => Ok (int_bound 8 false bytes)
        | QNN_FLOAT_16 => Ok (f32_of_f16_bits (le_decode (element 2 bytes 0)))
        | QNN_FLOAT_32 => Ok (f32_of_bits (le_decode (element 4 bytes 0)))
        | _ => Err (EpFail "Non-quantized min/max input data type not supported.")
        end
    end in
  Ok (if is_min then f_max value float_lowest else f_min value float_max).

(** A bound that is given must be constant. *)
Definition Clip_check_bound (u : UnitView) (i : nat) : result unit :=
  if (i <? length (Inputs u))%nat then
    let* b := input u i in
    return_if (Exists_ b && negb (IsConstantInput env (name b))) "QNN doesn't support dynamic min/max."
  else Ok tt.

Definition Clip_ExplicitOpCheck (u : UnitView) : result unit :=
  let* _ := Clip_check_bound u 1 in Clip_check_bound u 2.

Definition Clip_ProcessInputs (u : UnitView) (v : bool) : M (list string) :=
  let! _ := lift (if v then Clip_ExplicitOpCheck u else Ok tt) in
  first_input u v.

Definition Clip_bound (u : UnitView) (i : nat) (is_min : bool) (def_val : float) : result float :=
  match Inputs u !! i with
  | Some b => if Exists_ b then Clip_ProcessClipMinMax b is_min else Ok def_val
  | None => Ok def_val
  end.

Definition Clip_ProcessAttributesAndOutputs (u : UnitView) (input_names : list string) (v : bool) : M unit :=
  let! min_value := lift (Clip_bound u 1 true float_lowest) in
  let! ps := scalar u (SCALAR_FLOAT_32 min_value) "QNN_OP_RELU_MIN_MAX_PARAM_MIN_VALUE" [] in
  let! max_value := lift (Clip_bound u 2 false float_max) in
  let! ps := scalar u (SCALAR_FLOAT_32 max_value) "QNN_OP_RELU_MIN_MAX_PARAM_MAX_VALUE" ps in
  finish_node base_virtuals u input_names ps v.

Definition ClipOpBuilder : OpBuilder := Builder base_virtuals Clip_ProcessInputs Clip_ProcessAttributesAndOutputs.

(** ** Expand: a multiplication by ones *)

(** The axes on which the data has the size already get a single one. *)
Definition Expand_ones_shape (data_shape : result (list Z)) (input_shape : list Z) : result (list Z) :=
  match data_shape with
  | Err (EpFail _) => Ok input_shape
  | Err e => Err e
  | Ok data_shape =>
      if (length data_shape =? length input_shape)%nat then
        if forallb (fun '(d, i) => (d =? i) || (d =? 1)) (zip data_shape input_shape)
        then Ok (zip_with (fun d i => if d =? i then 1 else i) data_shape input_shape)
        else Ok input_shape
      else Ok input_shape
  end.

Definition repeat_bytes (n : Z) (bytes : list Z) : list Z := mjoin (replicate (Z.to_nat n) bytes).

(** A one of the type of the data, with its encoding. *)
Definition Expand_one (io : OrtNodeUnitIODef) : result (list Z * Qnn_DataType_t * QnnQuantParamsWrapper) :=
  match quant_param io with
  | Some _ =>
      let* dt := GetQnnDataType true (type io) CPU in
      let* (scale, zero_point) := GetQuantParams (f32_of_Z 1) (f32_of_Z 1) dt false in
      let* q := Quantize (f64_of_Z 1) scale zero_point dt in
      match dt with
      | QNN_SFIXED_POINT_8 | QNN_UFIXED_POINT_8 => Ok (le_encode 1 (u8 q), dt, PerTensor scale zero_point)
      | QNN_UFIXED_POINT_16 => Ok (le_encode 2 (wrapu 16 q), dt, PerTensor scale zero_point)
      | _ => Err (EpFail "Type not supported.")
      end
  | None =>
      let* dt := GetQnnDataType false (type io) CPU in
      match dt with
      | QNN_FLOAT_32 => Ok (f32_bytes qnn (f32_of_Z 1), dt, default_wrapper)
      | QNN_FLOAT_16 => Ok (f16_bytes qnn (f32_of_Z 1), dt, default_wrapper)
      | QNN_INT_64 => Ok (le_encode 4 1, QNN_INT_32, default_wrapper)
      | QNN_INT_32 | QNN_UINT_32 => Ok (le_encode 4 1, dt, default_wrapper)
      | QNN_BOOL_8 => Ok ([1], dt, default_wrapper)
      | _ => Err (EpFail "Type not supported.")
      end
  end.

Definition Expand_ProcessInputs (u : UnitView) (v : bool) : M (list string) :=
  let! _ := lift (return_if (negb (length (Inputs u) =? 2)%nat) "Expand should has 2 inputs!") in
  let! data := lift (input u 0) in
  let! input_names := ProcessInput env graph data [] in
  let! shape_input := lift (input u 1) in
  let! _ := lift (return_if_not (IsConstantInput env (name shape_input)) "QNN doesn't support dynamic shape.") in
  let! shape := lift (onnx_shape_of shape_input) in
  let! shape_rank := lift (aget shape 0) in
  let! bytes := lift (UnpackInitializerData graph (GetConstantTensor graph (name shape_input)) true) in
  let! dims := lift (collect (Z.to_nat shape_rank) (aget (int64_elements bytes))) in
  let! input_shape := lift (mapM_res Pad.safe_u32 dims) in
  let! ones_shape := lift (Expand_ones_shape (onnx_shape_of data) input_shape) in
  let shape_size := i32 (foldl (fun n d => u32 (n * d)) 1 ones_shape) in
  let! (one, dt, quant) := lift (Expand_one data) in
  let! o := lift (output u 0) in
  let! shape_input_name := fresh (name shape_input) (name o) in
  let! _ := add_tensor env shape_input_name TENSOR_TYPE_STATIC dt quant ones_shape (repeat_bytes shape_size one) "Failed to add tensor." in
  ret (input_names ++ [shape_input_name]).

Definition Expand_ProcessAttributesAndOutputs (u : UnitView) (input_names : list string) (v : bool) : M unit :=
  match input_names with
  | [] => ret tt
  | _ =>
      let! data := lift (input u 0) in
      let! dt := lift (GetQnnDataType false (type data) CPU) in
      let! op := lift (GetQnnOpType qnn (if bool_decide (dt = QNN_BOOL_8) then "And" else u_op_type u)) in
      ProcessOutputs env graph with_override_like_input0 u input_names [] v op
  end.

Definition ExpandOpBuilder : OpBuilder := Builder with_override_like_input0 Expand_ProcessInputs Expand_ProcessAttributesAndOutputs.

(** ** Tan: sine over cosine *)

Definition Tan_IsOpSupported (u : UnitView) : result unit :=
  let is_float t := bool_decide (t = ONNX_FLOAT) || bool_decide (t = ONNX_FLOAT16) in
  let* _ := return_if_not (length (Inputs u) =? 1)%nat "Tan operator must have exactly 1 input." in
  let* _ := return_if_not (length (Outputs u) =? 1)%nat "Tan operator must have exactly 1 output." in
  let* i := input u 0 in
  let* _ := return_if_not (is_float (type i)) "Tan operator only supports float and float16 input." in
  let* o := output u 0 in
  return_if_not (is_float (type o)) "Tan operator only supports float and float16 output.".

(** A tensor inside a decomposition, described like the input. *)
Definition add_like_input (n : string) (info : TensorInfo) (msg : string) : M unit :=
  let! q := lift (Copy (info_quant_param info)) in
  add_tensor env n TENSOR_TYPE_NATIVE (info_data_type info) q (info_shape info) [] msg.

Definition Tan_ProcessAttributesAndOutputs (u : UnitView) (input_names : list string) (v : bool) : M unit :=
  let! o := lift (output u 0) in
  let! input := lift (input u 0) in
  let! input_info := lift (tensor_info input) in
  let! output_info := lift (tensor_info o) in
  let! sin_output_name := fresh_unit u "_sin_out" in
  let! _ := add_like_input sin_output_name input_info "Failed to add Sin output tensor." in
  let! cos_output_name := fresh_unit u "_cos_out" in
  let! _ := add_like_input cos_output_name input_info "Failed to add Cos output tensor." in
  let! i := lift (aget input_names 0) in
  let! node := fresh_unit u "_Sin" in
  let! _ := create_node env node (macro qnn "QNN_OP_ELEMENT_WISE_SIN") [i] [sin_output_name] [] v "Failed to create Sin node." in
  let! node := fresh_unit u "_Cos" in
  let! _ := create_node env node (macro qnn "QNN_OP_ELEMENT_WISE_COS") [i] [cos_output_name] [] v "Failed to create Cos node." in
  let! _ := add_graph_output o output_info (info_data_type output_info) (info_shape output_info) "Failed to add output tensor." in
  let! node := fresh_unit u "_Div" in
  create_node env node (macro qnn "QNN_OP_ELEMENT_WISE_DIVIDE") [sin_output_name; cos_output_name] [name o] [] v
    "Failed to create Div node.".

Definition TanOpBuilder : OpBuilder := Builder base_virtuals (base_ProcessInputs env graph) Tan_ProcessAttributesAndOutputs.

(** ** Mean: a chain of additions and a division *)

Definition Mean_add (u : UnitView) (out : OrtNodeUnitIODef) (input_info : TensorInfo) (v : bool) (sum_output : string)
  (p : nat * string) : M string :=
  let '(i, input_name) := p in
  let! output_shape := lift (onnx_shape_of out) in
  let! add_output := fresh sum_output ("_add" +:+ pretty i) in
  let! _ := add_tensor env add_output TENSOR_TYPE_NATIVE (info_data_type input_info) default_wrapper output_shape []
    "Failed to add Add tensor wrapper." in
  let! node := fresh_unit u (macro qnn "QNN_OP_ELEMENT_WISE_ADD") in
  let! _ := create_node env node (macro qnn "QNN_OP_ELEMENT_WISE_ADD") [sum_output; input_name] [add_output] [] v
    "Create Qnn Node for Add Op Failed" in
  ret add_output.

Definition Mean_ProcessAttributesAndOutputs (u : UnitView) (input_names : list string) (v : bool) : M unit :=
  let! out := lift (output u 0) in
  let! _ := lift (return_if (length (Inputs u) <? 2)%nat "Mean op requires at least two inputs.") in
  let! first := lift (aget input_names 0) in
  let! input := lift (input u 0) in
  let! input_info := lift (tensor_info input) in
  let! sum_output := each (zip (seq 1 (length input_names - 1)) (drop 1 input_names)) (Mean_add u out input_info v) first in
  let divisor_data := f32_bytes qnn (f32_of_Z (Z.of_nat (length (Inputs u)))) in
  let! divisor_name := fresh sum_output "_divisor" in
  let! _ := add_tensor env divisor_name TENSOR_TYPE_STATIC (info_data_type input_info) default_wrapper [1] divisor_data
    "AddTensorWrapper Failed" in
  let! output_info := lift (tensor_info out) in
  let! output_shape := lift (onnx_shape_of out) in
  let! _ := add_graph_output out output_info (info_data_type output_info) output_shape "Failed to add output tensor wrapper." in
  let! node := fresh_unit u (macro qnn "QNN_OP_ELEMENT_WISE_DIVIDE") in
  create_node env node (macro qnn "QNN_OP_ELEMENT_WISE_DIVIDE") [sum_output; divisor_name] [name out] [] v
    "Failed to create Mean_Div node.".

Definition MeanOpBuilder : OpBuilder := Builder base_virtuals (base_ProcessInputs env graph) Mean_ProcessAttributesAndOutputs.

(** ** Reciprocal: one over the input *)

Definition Reciprocal_IsOpSupported (u : UnitView) : result unit :=
  let* _ := return_if_not (length (Inputs u) =? 1)%nat "Reciprocal operator must have exactly 1 input." in
  let* _ := return_if_not (length (Outputs u) =? 1)%nat "Reciprocal operator must have exactly 1 output." in
  let* i := input u 0 in
  DataTypeCheckForCpuBackend env (type i).

Definition Reciprocal_divisor (info : TensorInfo) : result (list Z) :=
  let dt := info_data_type info in
  if IsQuantized (info_quant_param info) then
    let* (scale, offset) := scaleOffsetEncoding (params_ (info_quant_param info)) in
    let* q := Quantize (f64_of_Z 1) scale offset dt in
    let* element_size := GetElementSizeByType_qnn dt in
    if element_size <=? 4 then Ok (le_encode (Z.to_nat element_size) (u32 q)) else Err Trap
  else Ok (float_const_bytes qnn dt (f32_of_Z 1)).

Definition Reciprocal_ProcessAttributesAndOutputs (u : UnitView) (input_names : list string) (v : bool) : M unit :=
  let! divisor_name := fresh_unit u "_divisor" in
  let! input := lift (input u 0) in
  let! input_info := lift (tensor_info input) in
  let! q := lift (Copy (info_quant_param input_info)) in
  let! divisor_data := lift (Reciprocal_divisor input_info) in
  let! _ := add_tensor env divisor_name TENSOR_TYPE_STATIC (info_data_type input_info) q [1] divisor_data
    "Failed to add divisor tensor." in
  let! o := lift (output u 0) in
  let! output_info := lift (tensor_info o) in
  let! _ := add_graph_output o output_info (info_data_type output_info) (info_shape output_info) "Failed to add output tensor." in
  let! node := fresh_unit u "" in
  let! i := lift (aget input_names 0) in
  create_node env node (macro qnn "QNN_OP_ELEMENT_WISE_DIVIDE") [divisor_name; i] [name o] [] v "Failed to create Div node.".

Definition ReciprocalOpBuilder : OpBuilder := Builder base_virtuals (base_ProcessInputs env graph) Reciprocal_ProcessAttributesAndOutputs.

(** ** Selu: gamma times Elu *)

Definition Selu_alpha : float := S754_finite false 14036349 (-23).
Definition Selu_gamma : float := S754_finite false 8813919 (-23).

Definition Selu_ProcessAttributesAndOutputs (u : UnitView) (input_names : list string) (v : bool) : M unit :=
  let! input_name := lift (aget input_names 0) in
  let! o := lift (output u 0) in
  let alpha := Get_float u "alpha" Selu_alpha in
  let gamma := Get_float u "gamma" Selu_gamma in
  let! input := lift (input u 0) in
  let! input_info := lift (tensor_info input) in
  let dt := info_data_type input_info in
  let! elu_output_name := fresh (u_name u +:+ "_elu_out") "" in
  let! _ := add_tensor env elu_output_name TENSOR_TYPE_NATIVE dt default_wrapper (info_shape input_info) []
    "Selu: failed to add intermediate ELU output tensor." in
  let! ps := scalar u (SCALAR_FLOAT_32 alpha) "QNN_OP_ELU_PARAM_ALPHA" [] in
  let! node := fresh (u_name u +:+ "_elu") "" in
  let! _ := create_node env node (macro qnn "QNN_OP_ELU") [input_name] [elu_output_name] ps v "Selu: failed to create ELU node." in
  let! gamma_tensor_name := fresh (u_name u +:+ "_gamma") "" in
  let! _ := add_tensor env gamma_tensor_name TENSOR_TYPE_STATIC dt default_wrapper [1] (float_const_bytes qnn dt gamma)
    "Selu: failed to add gamma constant tensor." in
  let! _ := add_graph_output o input_info dt (info_shape input_info) "Selu: failed to add output tensor." in
  let! node := fresh (u_name u +:+ "_gamma_mul") "" in
  create_node env node (macro qnn "QNN_OP_ELEMENT_WISE_MULTIPLY") [gamma_tensor_name; elu_output_name] [name o] [] v
    "Selu: failed to create Multiply node.".

Definition SeluOpBuilder : OpBuilder := Builder base_virtuals (base_ProcessInputs env graph) Selu_ProcessAttributesAndOutputs.

(** ** QuickGelu and Swish: the input times a sigmoid *)

Definition alpha_epsilon : float := f32_div (f32_of_Z 1) (f32_of_Z 1000000).

(** The input of the sigmoid, scaled by alpha unless that is one. *)
Definition QuickGelu_scaled (u : UnitView) (input_name : string) (input_info : TensorInfo) (alpha : float) (v : bool) : M string :=
  if f_lt (Floats.f_abs (f32_sub alpha (f32_of_Z 1))) alpha_epsilon then ret input_name
  else
  let dt := info_data_type input_info in
  let! alpha_mul_output_name := fresh (u_name u +:+ "_alpha_mul") "" in
  let! alpha_tensor_name := fresh (u_name u +:+ "_alpha") "" in
  let alpha_data := match dt with QNN_FLOAT_16 => f16_bytes qnn alpha | _ => f32_bytes qnn alpha end in
  let! _ := add_tensor env alpha_tensor_name TENSOR_TYPE_STATIC dt default_wrapper [1] alpha_data "Failed to add alpha tensor." in
  let! _ := add_tensor env alpha_mul_output_name TENSOR_TYPE_NATIVE dt default_wrapper (info_shape input_info) []
    "Failed to add alpha_mul_output tensor." in
  let! node := fresh (u_name u +:+ "_alpha_mul") "" in
  let! _ := create_node env node (macro qnn "QNN_OP_ELEMENT_WISE_MULTIPLY") [alpha_tensor_name; input_name] [alpha_mul_output_name] [] v
    "Failed to create alpha_mul node." in
  ret alpha_mul_output_name.

Definition QuickGelu_ProcessAttributesAndOutputs (u : UnitView) (input_names : list string) (v : bool) : M unit :=
  let! input_name := lift (aget input_names 0) in
  let! o := lift (output u 0) in
  let default_alpha := if bool_decide (u_op_type u = "Swish") then f32_of_Z 1 else f32_div (f32_of_Z 1702) (f32_of_Z 1000) in
  let alpha := Get_float u "alpha" default_alpha in
  let! input := lift (input u 0) in
  let! input_info := lift (tensor_info input) in
  let dt := info_data_type input_info in
  let! sigmoid_output_name := fresh (u_name u +:+ "_sigmoid") "" in
  let! sigmoid_input_name := QuickGelu_scaled u input_name input_info alpha v in
  let! _ := add_tensor env sigmoid_output_name TENSOR_TYPE_NATIVE dt default_wrapper (info_shape input_info) []
    "Failed to add sigmoid_output tensor." in
  let! _ := add_graph_output o input_info dt (info_shape input_info) "Failed to add output tensor." in
  let! node := fresh (u_name u +:+ "_sigmoid") "" in
  let! _ := create_node env node (macro qnn "QNN_OP_SIGMOID") [sigmoid_input_name] [sigmoid_output_name] [] v
    "Failed to create sigmoid node." in
  let! node := fresh (u_name u +:+ "_final_mul") "" in
  create_node env node (macro qnn "QNN_OP_ELEMENT_WISE_MULTIPLY") [input_name; sigmoid_output_name] [name o] [] v
    "Failed to create final_mul node.".

Definition QuickGeluOpBuilder : OpBuilder := Builder base_virtuals (base_ProcessInputs env graph) QuickGelu_ProcessAttributesAndOutputs.

(** ** ThresholdedRelu: a selection *)

Definition ThresholdedRelu_ExplicitOpCheck (u : UnitView) : result unit :=
  let* i := input u 0 in
  let* info := tensor_info i in
  return_if (negb (bool_decide (info_data_type info ∈ [QNN_FLOAT_16; QNN_FLOAT_32; QNN_UFIXED_POINT_16; QNN_SFIXED_POINT_16;
    QNN_UFIXED_POINT_8; QNN_SFIXED_POINT_8; QNN_INT_32]))) "ThresholdRelu input data type not supported.".

(** The bytes of alpha; a value that does not fit the integer type is undefined. *)
Definition SetAlphaByte (dt : Qnn_DataType_t) (alpha_value : float) : result (list Z) :=
  match dt with
  | QNN_FLOAT_16 => Ok (f16_bytes qnn alpha_value)
  | QNN_FLOAT_32 => Ok (f32_bytes qnn alpha_value)
  | QNN_UFIXED_POINT_16 => rmap (le_encode 2) (to_int 0 65535 alpha_value)
  | QNN_SFIXED_POINT_16 => rmap (fun z => le_encode 2 (wrapu 16 z)) (to_int (-32768) 32767 alpha_value)
  | QNN_UFIXED_POINT_8 => rmap (le_encode 1) (to_int 0 255 alpha_value)
  | QNN_SFIXED_POINT_8 => rmap (fun z => le_encode 1 (u8 z)) (to_int (-128) 127 alpha_value)
  | QNN_INT_32 => rmap (fun z => le_encode 4 (u32 z)) (to_i32 alpha_value)
  | _ => Err (EpFail "Unsupported QNN Data type for thresholdedrelu.")
  end.

Definition ThresholdedRelu_ProcessInputs (u : UnitView) (v : bool) : M (list string) :=
  let! _ := lift (if v then ThresholdedRelu_ExplicitOpCheck u else Ok tt) in
  process_inputs env graph u (GetInputCountQnnRequired u) [].

Definition ThresholdedRelu_ProcessAttributesAndOutputs (u : UnitView) (input_names : list string) (v : bool) : M unit :=
  let! input := lift (input u 0) in
  let! input_info := lift (tensor_info input) in
  let! o := lift (output u 0) in
  let! output_info := lift (tensor_info o) in
  let! input_name := lift (aget input_names 0) in
  let dt := info_data_type input_info in
  let! alpha_bytes := lift (SetAlphaByte dt (Get_float u "alpha" f_zero)) in
  let! alpha_tensor_name := fresh_unit u "_alpha" in
  let! _ := add_tensor env alpha_tensor_name TENSOR_TYPE_STATIC dt default_wrapper [1] alpha_bytes "Failed to add alpha tensor." in
  let! greater_name := fresh_unit u "_Greater" in
  let! greater_output_name := fresh_unit u "_Greater_output" in
  let! _ := add_tensor env greater_output_name TENSOR_TYPE_NATIVE QNN_BOOL_8 default_wrapper (info_shape output_info) []
    "Failed to add ThresholdRelu - Greater output tensor." in
  let! _ := create_node env greater_name (macro qnn "QNN_OP_ELEMENT_WISE_GREATER") [input_name; alpha_tensor_name]
    [greater_output_name] [] v "Failed to add ThresholdRelu - Greater node." in
  let! zero_bytes := lift (SetAlphaByte dt f_zero) in
  let! zero_tensor_name := fresh_unit u "_zero" in
  let! _ := add_tensor env zero_tensor_name TENSOR_TYPE_STATIC dt default_wrapper [1] zero_bytes "Failed to add zero tensor." in
  let! select_name := fresh_unit u "_Select" in
  let! _ := add_graph_output o output_info (info_data_type output_info) (info_shape output_info)
    "Failed to add ThresholdRelu - Select output tensor." in
  create_node env select_name (macro qnn "QNN_OP_ELEMENT_WISE_SELECT") [greater_output_name; input_name; zero_tensor_name]
    [name o] [] v "Failed to add ThresholdRelu - Select node.".

Definition ThresholdedReluOpBuilder : OpBuilder :=
  Builder base_virtuals ThresholdedRelu_ProcessInputs ThresholdedRelu_ProcessAttributesAndOutputs.

(** ** Mod: [a - b * floor (a / b)] *)

Definition Mod_IsCastRequired (dt : Qnn_DataType_t) : bool :=
  negb (bool_decide (dt ∈ [QNN_FLOAT_16; QNN_FLOAT_32; QNN_UFIXED_POINT_16; QNN_UFIXED_POINT_8; QNN_SFIXED_POINT_8])).

Definition Mod_ProcessInputs (u : UnitView) (v : bool) : M (list string) :=
  let! _ := lift (return_if (Get_int64 u "fmod" 0 =? 1) "QNN Mod Op only support fmod == 0 for now.") in
  process_inputs env graph u (GetInputCountQnnRequired u) [].

(** An intermediate tensor and the node that writes it; the answer is its name. *)
Definition Mod_step (u : UnitView) (label op : string) (ins : list string) (dt : Qnn_DataType_t) (shape : list Z) (v : bool)
  (msg_t msg_n : string) : M string :=
  let! node := fresh_unit u ("_" +:+ label) in
  let! out := fresh_unit u ("_" +:+ label +:+ "_output") in
  let! _ := add_tensor env out TENSOR_TYPE_NATIVE dt default_wrapper shape [] msg_t in
  let! _ := create_node env node op ins [out] [] v msg_n in
  ret out.

(** The operands as floats; the cast of the first one is given the shape of the output. *)
Definition Mod_operands (u : UnitView) (a b : string) (output_shape : list Z) (cast : bool) : M (string * string) :=
  if cast then
    let! a := Mod_step u "Cast_A" (QNN_OP_CAST env) [a] QNN_FLOAT_32 output_shape false
      "Failed to add output tensor for QNN Cast node." "Failed to create QNN Cast node." in
    let! input_b := lift (input u 1) in
    let! input_B_info := lift (tensor_info input_b) in
    let! b := Mod_step u "Cast_B" (QNN_OP_CAST env) [b] QNN_FLOAT_32 (info_shape input_B_info) false
      "Failed to add output tensor for QNN Cast node." "Failed to create QNN Cast node." in
    ret (a, b)
  else ret (a, b).

Definition Mod_ProcessAttributesAndOutputs (u : UnitView) (input_names : list string) (v : bool) : M unit :=
  let! input := lift (input u 0) in
  let! input_info := lift (tensor_info input) in
  let! o := lift (output u 0) in
  let! output_info := lift (tensor_info o) in
  let! input_a := lift (aget input_names 0) in
  let! input_b := lift (aget input_names 1) in
  let output_shape := info_shape output_info in
  let cast := Mod_IsCastRequired (info_data_type input_info) in
  let dt := if cast then QNN_FLOAT_32 else info_data_type input_info in
  let! (a, b) := Mod_operands u input_a input_b output_shape cast in
  if negb (Get_int64 u "fmod" 0 =? 0) then lift (Err (EpFail "QNN Mod Op doesn't support fmod."))
  else
  let! div := Mod_step u "Div" (macro qnn "QNN_OP_ELEMENT_WISE_DIVIDE") [a; b] dt output_shape v
    "Failed to add Mod - ElementWiseDiv output tensor." "Failed to add Mod - ElementWiseDiv node." in
  let! floor := Mod_step u "Floor" (macro qnn "QNN_OP_ELEMENT_WISE_FLOOR") [div] dt output_shape v
    "Failed to add Mod - ElementWiseFloor output tensor." "Failed to add Mod - ElementWiseFloor node." in
  let! mul := Mod_step u "Mul" (macro qnn "QNN_OP_ELEMENT_WISE_MULTIPLY") [b; floor] dt output_shape v
    "Failed to add Mod - ElementWiseMul output tensor." "Failed to add Mod - ElementWiseMul node." in
  if cast then
    let! sub := Mod_step u "Sub" (macro qnn "QNN_OP_ELEMENT_WISE_SUBTRACT") [a; mul] dt output_shape v
      "Failed to add Mod output tensor." "Failed to add Mod - ElementWiseSub node." in
    let! node := fresh_unit u "_output_Cast" in
    let! _ := add_graph_output o output_info (info_data_type output_info) output_shape "Failed to add output tensor for QNN Cast node." in
    create_node env node (QNN_OP_CAST env) [sub] [name o] [] false "Failed to create QNN Cast node."
  else
    let! node := fresh_unit u "_Sub" in
    let! _ := add_graph_output o output_info (info_data_type output_info) output_shape "Failed to add Mod output tensor." in
    create_node env node (macro qnn "QNN_OP_ELEMENT_WISE_SUBTRACT") [a; mul] [name o] [] v "Failed to add Mod - ElementWiseSub node.".

Definition ModOpBuilder : OpBuilder := Builder base_virtuals Mod_ProcessInputs Mod_ProcessAttributesAndOutputs.

(** ** The builders keep the laws *)

Definition any_unit (u : UnitView) : Prop := True.
Definition one_output (u : UnitView) : Prop := length (Outputs u) = 1%nat.

#[export] Instance like_input0_laws : virtual_laws with_override_like_input0.
Proof. apply override_laws. by right. Qed.
#[export] Instance output_type_laws f : virtual_laws (with_output_type f).
Proof. apply override_laws. by left. Qed.

Lemma wp_finish_node (b : Virtuals) `{!virtual_laws b} u names ps v Q m :
  Forall (has m) names → Forall (has_param m) ps →
  (∀ m', grows m m' → (v = false → Forall (provided m') (required_outputs u)) → Q tt m') →
  wp (finish_node b u names ps v) Q m.
Proof. intros. unfold finish_node. wp_step. wp_step. wp_step. by apply wp_ProcessOutputs. Qed.

Lemma wp_add_graph_output o info dt s msg Q m :
  (∀ m', grows m m' → has m' (name o) → Q tt m') → wp (add_graph_output o info dt s msg) Q m.
Proof. intros HQ. unfold add_graph_output. wp_step. wp_step. wp_step. by apply wp_add_tensor. Qed.

Lemma wp_add_like_input n info msg Q m :
  (∀ m', grows m m' → has m' n → Q tt m') → wp (add_like_input n info msg) Q m.
Proof. intros HQ. unfold add_like_input. wp_step. wp_step. wp_step. by apply wp_add_tensor. Qed.

Lemma wp_Mod_step u label op ins dt s v t n Q m : Forall (has m) ins →
  (∀ m' out, grows m m' → has m' out → Q out m') → wp (Mod_step u label op ins dt s v t n) Q m.
Proof.
  intros Hi HQ. eapply (wp_use (fun out m' => has m' out)); [|auto]. unfold Mod_step. wp_auto.
Qed.

(** The members of a list of defined names. *)
Lemma aget_has m (l : list string) i x : Forall (has m) l → aget l i = Ok x → has m x.
Proof. intros Hl E%aget_Ok. by apply (proj1 (Forall_lookup _ _) Hl i). Qed.

End Builders.

(** One step of a builder, with the common ends and names. *)
Ltac known_names := repeat match goal with
  | H : Forall (has ?m) ?l, E : aget ?l _ = Ok ?x |- _ => lazymatch goal with
      | _ : has m x |- _ => fail
      | _ => pose proof (aget_has m l _ x H E)
      end
  end.

Ltac op_step :=
  known_names;
  lazymatch goal with
  | |- wp (finish_node _ _ _ _ _ _ _ _) _ _ =>
      apply wp_finish_node; [apply _|side|side|let Hg := fresh "Hg" in intros ? Hg ?; advance Hg]
  | |- wp (add_graph_output _ _ _ _ _ _) _ _ => apply wp_add_graph_output; let Hg := fresh "Hg" in intros ? Hg ?; advance Hg
  | |- wp (add_like_input _ _ _ _) _ _ => apply wp_add_like_input; let Hg := fresh "Hg" in intros ? Hg ?; advance Hg
  | |- wp (Mod_step _ _ _ _ _ _ _ _ _ _) _ _ => apply wp_Mod_step; [side|let Hg := fresh "Hg" in intros ? ? Hg ?; advance Hg]
  | |- _ => bp_step
  end; cbv beta.

(** The last step: the outputs are written. *)
Ltac written_outputs := intros; repeat match goal with
  | H : false = false → Forall _ _ |- _ => specialize (H eq_refl)
  | H : ?v = false → Forall _ _, E : ?v = false |- _ => specialize (H E)
  end;
  first [assumption | congruence
        | eapply single_output; [by apply aget_Ok|done|by eapply Forall_inv] ].

(** The inputs are defined, and there is one. *)
Ltac some_inputs := split; [solve [solve_names] | intros ? ?;
  first [done | match goal with Hi : Inputs ?u ≠ [], L : length ?r = _ |- ?r ≠ [] => exact (required_inputs_ne u r L Hi) end | let E := fresh in intros E; by apply app_nil in E as [_ ?] ]].

Ltac op_auto := repeat op_step; try solve [written_outputs | some_inputs | finish].

Section BuilderLaws.
Context `{SafeInt} `{QnnInterface}.
Context (env : environment) (graph : OrtGraph) (qnn : QnnHeaders).

Lemma wp_first_input u v Q m :
  (∀ m' r, grows m m' → Forall (has m') r → r ≠ [] → Q r m') → wp (first_input env graph u v) Q m.
Proof.
  intros HQ. unfold first_input. wp_step. wp_step. wp_step. apply wp_ProcessInput; [constructor|]. intros m' Hg Hr.
  by apply HQ.
Qed.

Lemma wp_float_inputs (P : Prop) what u v m :
  wp (float_inputs env graph what u v) (fun names m' => Forall (has m') names ∧ (Inputs u ≠ [] → P → names ≠ [])) m.
Proof. unfold float_inputs. op_auto. Qed.

#[export] Instance ArgMaxMin_laws : builder_laws (ArgMaxMinOpBuilder env graph qnn) any_unit.
Proof.
  split; intros; cbn [ProcessInputs ProcessAttributesAndOutputs ArgMaxMinOpBuilder].
  - apply wp_base_ProcessInputs.
  - unfold ArgMaxMin_ProcessAttributesAndOutputs. op_auto.
Qed.

#[export] Instance Identity_laws : builder_laws (IdentityOpBuilder env graph qnn) any_unit.
Proof.
  split; intros; cbn [ProcessInputs ProcessAttributesAndOutputs IdentityOpBuilder].
  - apply wp_base_ProcessInputs.
  - unfold Identity_ProcessAttributesAndOutputs. op_auto.
Qed.

#[export] Instance Reshape_laws : builder_laws (ReshapeOpBuilder env graph qnn) any_unit.
Proof.
  split; intros; cbn [ProcessInputs ProcessAttributesAndOutputs ReshapeOpBuilder].
  - unfold Reshape_ProcessInputs. op_auto.
  - eapply wp_use; [by apply (wp_base_attributes env graph qnn with_override_like_input0)|]. auto.
Qed.

#[export] Instance Shape_laws : builder_laws (ShapeOpBuilder env graph qnn) any_unit.
Proof.
  split; intros; cbn [ProcessInputs ProcessAttributesAndOutputs ShapeOpBuilder].
  - apply wp_base_ProcessInputs.
  - unfold Shape_ProcessAttributesAndOutputs. op_auto.
Qed.

#[export] Instance IsInf_laws : builder_laws (IsInfOpBuilder env graph qnn) one_output.
Proof.
  split; intros; cbn [ProcessInputs ProcessAttributesAndOutputs IsInfOpBuilder].
  - by apply wp_float_inputs.
  - unfold IsInf_ProcessAttributesAndOutputs. op_auto.
Qed.

#[export] Instance IsNaN_laws : builder_laws (IsNaNOpBuilder env graph qnn) one_output.
Proof.
  split; intros; cbn [ProcessInputs ProcessAttributesAndOutputs IsNaNOpBuilder].
  - by apply wp_float_inputs.
  - unfold IsNaN_ProcessAttributesAndOutputs. op_auto.
Qed.

#[export] Instance CumSum_laws : builder_laws (CumSumOpBuilder env graph qnn) any_unit.
Proof.
  split; intros; cbn [ProcessInputs ProcessAttributesAndOutputs CumSumOpBuilder].
  - apply wp_first_input. auto.
  - unfold CumSum_ProcessAttributesAndOutputs. op_auto.
Qed.

#[export] Instance Tile_laws : builder_laws (TileOpBuilder env graph qnn) any_unit.
Proof.
  split; intros; cbn [ProcessInputs ProcessAttributesAndOutputs TileOpBuilder].
  - unfold Tile_ProcessInputs. op_auto; apply wp_first_input; auto.
  - unfold Tile_ProcessAttributesAndOutputs. op_auto.
Qed.

#[export] Instance LRN_laws : builder_laws (LRNOpBuilder env graph qnn) any_unit.
Proof.
  split; intros; cbn [ProcessInputs ProcessAttributesAndOutputs LRNOpBuilder].
  - apply wp_base_ProcessInputs.
  - unfold LRN_ProcessAttributesAndOutputs. op_auto.
Qed.

#[export] Instance Clip_laws : builder_laws (ClipOpBuilder env graph qnn) any_unit.
Proof.
  split; intros; cbn [ProcessInputs ProcessAttributesAndOutputs ClipOpBuilder].
  - unfold Clip_ProcessInputs. op_step. op_step. op_step. apply wp_first_input. auto.
  - unfold Clip_ProcessAttributesAndOutputs. op_auto.
Qed.

#[export] Instance Expand_laws : builder_laws (ExpandOpBuilder env graph qnn) any_unit.
Proof.
  split; intros; cbn [ProcessInputs ProcessAttributesAndOutputs ExpandOpBuilder].
  - unfold Expand_ProcessInputs. op_auto.
  - unfold Expand_ProcessAttributesAndOutputs. op_auto.
Qed.

#[export] Instance Tan_laws : builder_laws (TanOpBuilder env graph qnn) one_output.
Proof.
  split; intros; cbn [ProcessInputs ProcessAttributesAndOutputs TanOpBuilder].
  - apply wp_base_ProcessInputs.
  - unfold Tan_ProcessAttributesAndOutputs. op_auto.
Qed.

#[export] Instance Reciprocal_laws : builder_laws (ReciprocalOpBuilder env graph qnn) one_output.
Proof.
  split; intros; cbn [ProcessInputs ProcessAttributesAndOutputs ReciprocalOpBuilder].
  - apply wp_base_ProcessInputs.
  - unfold Reciprocal_ProcessAttributesAndOutputs. op_auto.
Qed.

#[export] Instance Selu_laws : builder_laws (SeluOpBuilder env graph qnn) one_output.
Proof.
  split; intros; cbn [ProcessInputs ProcessAttributesAndOutputs SeluOpBuilder].
  - apply wp_base_ProcessInputs.
  - unfold Selu_ProcessAttributesAndOutputs. op_auto.
Qed.

#[export] Instance ThresholdedRelu_laws : builder_laws (ThresholdedReluOpBuilder env graph qnn) one_output.
Proof.
  split; intros; cbn [ProcessInputs ProcessAttributesAndOutputs ThresholdedReluOpBuilder].
  - unfold ThresholdedRelu_ProcessInputs. op_auto.
  - unfold ThresholdedRelu_ProcessAttributesAndOutputs. op_auto.
Qed.

#[export] Instance Concat_laws : builder_laws (ConcatOpBuilder env graph qnn) any_unit.
Proof.
  split; intros; cbn [ProcessInputs ProcessAttributesAndOutputs ConcatOpBuilder].
  - unfold Concat_ProcessInputs. op_step. eapply wp_use.
    { apply (wp_each (fun _ names m' => Forall (has m') names)); [|constructor]. intros d names i m1 Hn _. op_auto. }
    intros names m1 _ Hn _. op_step. op_step. op_step. op_step. split; [done|]. intros _ _ ->. done.
  - unfold Concat_ProcessAttributesAndOutputs. destruct names; op_auto.
Qed.

Lemma wp_QuickGelu_scaled u i info alpha v Q m : has m i →
  (∀ m' r, grows m m' → has m' r → Q r m') → wp (QuickGelu_scaled env qnn u i info alpha v) Q m.
Proof. intros Hi HQ. eapply (wp_use (fun r m' => has m' r)); [|auto]. unfold QuickGelu_scaled. op_auto. Qed.

#[export] Instance QuickGelu_laws : builder_laws (QuickGeluOpBuilder env graph qnn) one_output.
Proof.
  split; intros; cbn [ProcessInputs ProcessAttributesAndOutputs QuickGeluOpBuilder].
  - apply wp_base_ProcessInputs.
  - unfold QuickGelu_ProcessAttributesAndOutputs. do 16 op_step. apply wp_QuickGelu_scaled; [done|].
    intros m2 r Hg2 Hr. advance Hg2. op_auto.
Qed.

#[export] Instance Mean_laws : builder_laws (MeanOpBuilder env graph qnn) one_output.
Proof.
  split; intros; cbn [ProcessInputs ProcessAttributesAndOutputs MeanOpBuilder].
  - apply wp_base_ProcessInputs.
  - unfold Mean_ProcessAttributesAndOutputs. do 16 op_step.
    eapply (wp_use (fun s m' => has m' s)).
    + set (l := zip _ _). assert (Forall (has m) (l.*2)) as Hl.
      { apply Forall_forall. intros x Hx. apply list_elem_of_fmap in Hx as ([k y] & -> & Hx). apply elem_of_zip_r in Hx.
        apply list_elem_of_lookup in Hx as [j Hj]. rewrite lookup_drop in Hj. by eapply (proj1 (Forall_lookup _ _)). }
      eapply (wp_use (fun s m' => has m' s ∧ Forall (has m') (l.*2))); [|by intros ? ? _ []].
      apply (wp_each (fun _ s m' => has m' s ∧ Forall (has m') (l.*2))); [|done].
      intros d s [k y] m1 [Hs Hl1] Hin. assert (has m1 y) by (eapply (proj1 (Forall_forall _ _)); [exact Hl1|]; by apply (list_elem_of_fmap_2' _ _ (k, y))).
      unfold Mean_add. op_auto.
    + intros s m1 Hg1 Hs. op_auto.
Qed.

Lemma wp_Mod_operands u a b s cast Q m : has m a → has m b →
  (∀ m' r, grows m m' → has m' r.1 → has m' r.2 → Q r m') → wp (Mod_operands env graph u a b s cast) Q m.
Proof.
  intros Ha Hb HQ. eapply (wp_use (fun r m' => has m' r.1 ∧ has m' r.2)); [|by intros ? ? ? []; auto].
  unfold Mod_operands. op_auto.
Qed.

#[export] Instance Mod_laws : builder_laws (ModOpBuilder env graph qnn) one_output.
Proof.
  split; intros; cbn [ProcessInputs ProcessAttributesAndOutputs ModOpBuilder].
  - unfold Mod_ProcessInputs. op_auto.
  - unfold Mod_ProcessAttributesAndOutputs. do 19 op_step. apply wp_Mod_operands; [done|done|].
    intros m1 [a' b'] Hg1 Ha Hb. cbn in *. advance Hg1. op_auto.
Qed.

End BuilderLaws.
