(* ===== verification/Convert.v ===== *)
(** * Conversions between precisions

    The functions with which op builders bridge fixed-point types of different widths:
    [InsertConvertOp] and [AddOpWithQuantizedOutput] ([builder/qnn_utils.cc]) and
    [builder/opbuilder/mixed_precision_convert_utils.cc]. *)

From S2P Require Import Prelude DataTypes Floats QuantParams QnnTensor Quantize ModelWrapper QdqSelector NodeUnitDefs TensorInfo ModelOps OpBuilder Builders.
Local Open Scope Z_scope.

(** ** Encodings *)

(** The scale and offset with which [to_dtype] covers the range that [from_dtype] covers. *)
Definition DeriveScaleOffsetForDtype (from_dtype : Qnn_DataType_t) (from_offset : Z) (from_scale : float)
  (to_dtype : Qnn_DataType_t) (to_symmetric : bool) : result (float * Z) :=
  let* (qmin, qmax) := GetQminQmax from_dtype false in
  let value_min := Dequantize from_offset from_scale (f64_of_f32 (f32_of_Z qmin)) in
  let value_max := Dequantize from_offset from_scale (f64_of_f32 (f32_of_Z qmax)) in
  GetQuantParams (f32_of_f64 value_min) (f32_of_f64 value_max) to_dtype to_symmetric.

Definition GetNarrowingIntermediateQuantParams (activation_qnn_data_type output_qnn_data_type : Qnn_DataType_t)
  (output_quant_param : QnnQuantParamsWrapper) : result QnnQuantParamsWrapper :=
  let* _ := return_if_not (IsPerTensor output_quant_param false) "Narrowing output requires a per-tensor encoding" in
  let* (out_scale, out_offset) := scaleOffsetEncoding (params_ output_quant_param) in
  let* (qmin_out, qmax_out) := GetQminQmax output_qnn_data_type false in
  let* (qmin_act, qmax_act) := GetQminQmax activation_qnn_data_type false in
  let ratio := (qmax_act - qmin_act) / (qmax_out - qmin_out) in
  let scale := f32_of_f64 (f64_div (f64_of_f32 out_scale) (f64_of_Z ratio)) in
  let offset := (qmin_out + out_offset) * ratio - qmin_act in
  let* offset := narrow (- 2 ^ 31) (2 ^ 31 - 1) offset in
  Ok (PerTensor scale offset).

(** The encoding that HTP asks of 16-bit Sigmoid, HardSigmoid and Tanh, and whether it differs. *)
Definition OverrideActivationFixedEncoding (op_type : string) (qnn_data_type : Qnn_DataType_t) (scale : float) (offset : Z)
  : bool * float * Z :=
  let '(s, o) :=
    if bool_decide (op_type ∈ ["Sigmoid"; "HardSigmoid"]) then
      match qnn_data_type with
      | QNN_UFIXED_POINT_16 => (f32_div (f32_of_Z 1) (f32_of_Z 65536), 0)
      | QNN_SFIXED_POINT_16 => (f32_div (f32_of_Z 1) (f32_of_Z 32768), 0)
      | _ => (scale, offset)
      end
    else if bool_decide (op_type = "Tanh") then
      match qnn_data_type with
      | QNN_UFIXED_POINT_16 => (f32_div (f32_of_Z 1) (f32_of_Z 32768), -32768)
      | QNN_SFIXED_POINT_16 => (f32_div (f32_of_Z 1) (f32_of_Z 32768), 0)
      | _ => (scale, offset)
      end
    else (scale, offset) in
  (negb (o =? offset) || negb (f_eq s scale), s, o).

Section Convert.
Context `{SafeInt} `{QnnInterface}.
Context (env : environment) (graph : OrtGraph) (qnn : QnnHeaders).

(** ** Convert nodes *)

Definition InsertConvertOp (convert_input_name convert_output_name : string)
  (input_qnn_data_type output_qnn_data_type : Qnn_DataType_t) (input_offset : Z) (input_scale : float)
  (output_shape : list Z) (output_symmetric do_op_validation : bool) (output_tensor_type : Qnn_TensorType_t) : M unit :=
  let! (scale, offset) := lift (DeriveScaleOffsetForDtype input_qnn_data_type input_offset input_scale output_qnn_data_type
    output_symmetric) in
  let! _ := add_tensor env convert_output_name output_tensor_type output_qnn_data_type (PerTensor scale offset) output_shape []
    "Failed to add tensor." in
  let! node := fresh convert_output_name (macro qnn "QNN_OP_CONVERT") in
  create_node env node (macro qnn "QNN_OP_CONVERT") [convert_input_name] [convert_output_name] [] do_op_validation
    "Failed to add node.".

Definition tensor_of (n : string) : M QnnTensorWrapper :=
  let! found := get (fun m => GetQnnTensorWrapper m n) in
  lift found.

Definition data_type_of (n : string) : M Qnn_DataType_t :=
  let! w := tensor_of n in
  lift (GetTensorDataType w).

(** The 32-bit float inputs, cast to half precision. *)
Definition cast_fp16_step (do_op_validation : bool) (names : list string) (input_name : string) : M (list string) :=
  let! w := tensor_of input_name in
  let! dt := lift (GetTensorDataType w) in
  if negb (bool_decide (dt = QNN_FLOAT_32)) then ret (names ++ [input_name])
  else
  let! cast_output_name := fresh input_name "_cast_fp16" in
  let! node := fresh cast_output_name (QNN_OP_CAST env) in
  let! _ := AddCastNode env node input_name cast_output_name TENSOR_TYPE_NATIVE QNN_FLOAT_16 default_wrapper (dimensions_ w)
    do_op_validation in
  ret (names ++ [cast_output_name]).

Definition is_float_act_quant_weight (input_names : list string) (activation_qnn_data_type : Qnn_DataType_t) : M bool :=
  if IsNpuBackend (backend_type env) && bool_decide (activation_qnn_data_type = QNN_FLOAT_32) && (1 <? length input_names)%nat then
    let! weight := lift (aget input_names 1) in
    let! w := tensor_of weight in
    ret (IsQuantized (quant_params_ w))
  else ret false.

(** The node, which writes the output or a tensor that a Cast or Convert takes to it. *)
Definition AddOpWithQuantizedOutput (node_name op_type : string) (input_names param_tensor_names : list string)
  (output_name : string) (output_tensor_type : Qnn_TensorType_t) (output_qnn_data_type : Qnn_DataType_t)
  (output_quant_param : QnnQuantParamsWrapper) (output_shape : list Z) (activation_qnn_data_type : Qnn_DataType_t)
  (do_op_validation : bool) : M unit :=
  let! float_act := is_float_act_quant_weight input_names activation_qnn_data_type in
  let! input_names := if float_act : bool then each input_names (cast_fp16_step do_op_validation) [] else ret input_names in
  let! op_output_name :=
    if float_act then
      let! n := fresh output_name "_fp16" in
      let! _ := add_tensor env n TENSOR_TYPE_NATIVE QNN_FLOAT_16 default_wrapper output_shape [] "Failed to add tensor." in
      ret n
    else if IsNarrowingQuantOutput activation_qnn_data_type output_qnn_data_type then
      let! q := lift (GetNarrowingIntermediateQuantParams activation_qnn_data_type output_qnn_data_type output_quant_param) in
      let! n := fresh output_name "_pre_convert" in
      let! _ := add_tensor env n TENSOR_TYPE_NATIVE activation_qnn_data_type q output_shape [] "Failed to add tensor." in
      ret n
    else ret output_name in
  let! _ := add_tensor env output_name output_tensor_type output_qnn_data_type output_quant_param output_shape []
    "Failed to add tensor." in
  let! _ := create_node env node_name op_type input_names [op_output_name] param_tensor_names do_op_validation
    "Failed to add node." in
  if bool_decide (op_output_name = output_name) then ret tt
  else
    let op := if float_act then QNN_OP_CAST env else macro qnn "QNN_OP_CONVERT" in
    let! node := fresh output_name op in
    create_node env node op [op_output_name] [output_name] [] do_op_validation "Failed to add output conversion node.".

(** ** Operators whose inputs or output differ in precision *)

(** The names with that of input [i] converted to [to_dtype]. *)
Definition convert_input (input_names : list string) (i : nat) (w : QnnTensorWrapper) (to_dtype : Qnn_DataType_t)
  (do_op_validation : bool) : M (list string) :=
  let! n := lift (aget input_names i) in
  let! (scale, offset) := lift (scaleOffsetEncoding (params_ (quant_params_ w))) in
  let! converted_name := fresh n "_convert" in
  let! dt := lift (GetTensorDataType w) in
  let! _ := InsertConvertOp n converted_name dt to_dtype offset scale (dimensions_ w) false do_op_validation TENSOR_TYPE_NATIVE in
  ret (<[i := converted_name]> input_names).

Definition AlignBinaryInputPrecision (u : UnitView) (input_names : list string) (do_op_validation : bool) : M (list string) :=
  if negb (IsConvertCompatibleBinaryOp (u_op_type u)) || negb (length input_names =? 2)%nat then ret input_names
  else
  let! n0 := lift (aget input_names 0) in
  let! dt0 := data_type_of n0 in
  let! n1 := lift (aget input_names 1) in
  let! dt1 := data_type_of n1 in
  if bool_decide (dt0 = dt1) || (DataTypes.FixedPointBitWidth dt0 =? DataTypes.FixedPointBitWidth dt1) then ret input_names
  else
  let! _ := lift (return_if_not (DataTypes.NeedsPrecisionConvert dt0 dt1)
    "QNN EP's binary-op precision Convert only supports a mismatched fixed-point input pair.") in
  let narrow_idx := if DataTypes.FixedPointBitWidth dt0 <? DataTypes.FixedPointBitWidth dt1 then 0%nat else 1%nat in
  let wide_dtype := if (narrow_idx =? 0)%nat then dt1 else dt0 in
  let! n := lift (aget input_names narrow_idx) in
  let! w := tensor_of n in
  let! _ := lift (return_if_not (IsPerTensor (quant_params_ w) false)
    "QNN EP's binary-op precision Convert only supports per-tensor quantization") in
  convert_input input_names narrow_idx w wide_dtype do_op_validation.

Definition ConvertActivationToOutputPrecision (input_names : list string) (output_dtype : Qnn_DataType_t) (do_op_validation : bool)
  : M (list string) :=
  let! n := lift (aget input_names 0) in
  let! w := tensor_of n in
  let! dt := lift (GetTensorDataType w) in
  if IsNarrowingQuantOutput dt output_dtype || negb (DataTypes.NeedsPrecisionConvert dt output_dtype) then ret input_names
  else
  let! _ := lift (return_if_not (IsPerTensor (quant_params_ w) false)
    "QNN EP's activation precision Convert only supports per-tensor quantization") in
  convert_input input_names 0 w output_dtype do_op_validation.

Definition InsertOutputPrecisionConvert (u : UnitView) (input_names param_tensor_names : list string) (do_op_validation : bool)
  (qnn_op_type : string) (native_dtype : Qnn_DataType_t) (declared : TensorInfo) : M unit :=
  let! o := lift (aget (Outputs u) 0) in
  let! _ := lift (return_if_not (IsPerTensor (info_quant_param declared) false)
    "QNN EP's precision Convert only supports per-tensor quantization for") in
  let! (scale, offset) := lift (scaleOffsetEncoding (params_ (info_quant_param declared))) in
  let! (native_scale, native_offset) := lift (DeriveScaleOffsetForDtype (info_data_type declared) offset scale native_dtype false) in
  let '(_, native_scale, native_offset) := OverrideActivationFixedEncoding (u_op_type u) native_dtype native_scale native_offset in
  let! native_output_name := fresh (name o) "_native" in
  let! _ := add_tensor env native_output_name TENSOR_TYPE_NATIVE native_dtype (PerTensor native_scale native_offset)
    (info_shape declared) [] "Failed to add native-precision output tensor." in
  let! node := fresh_unit u "" in
  let! _ := create_node env node qnn_op_type input_names [native_output_name] param_tensor_names do_op_validation
    "Failed to add node." in
  InsertConvertOp native_output_name (name o) native_dtype (info_data_type declared) native_offset native_scale
    (info_shape declared) false do_op_validation (output_tensor_type env (name o)).

End Convert.

(** ** What the functions owe the model *)

Section ConvertLaws.
Context `{SafeInt} `{QnnInterface}.
Context (env : environment) (graph : OrtGraph) (qnn : QnnHeaders).

Lemma wp_InsertConvertOp i o a b off sc s sym v ty Q m : has m i →
  (∀ m', grows m m' → has m' o → (v = false → Forall (provided m') [o]) → Q tt m') →
  wp (InsertConvertOp env qnn i o a b off sc s sym v ty) Q m.
Proof.
  intros Hi HQ. eapply (wp_use (fun _ m' => has m' o ∧ (v = false → Forall (provided m') [o]))); [|by intros [] ? ? []; auto].
  unfold InsertConvertOp. op_auto.
Qed.

Lemma wp_tensor_of n Q m : (∀ w, has m n → Q w m) → wp (tensor_of n) Q m.
Proof.
  intros HQ. unfold tensor_of. do 4 wp_step. apply HQ. unfold GetQnnTensorWrapper in E. Transparent has. unfold has. Opaque has.
  destruct (_ !! _) as [w|]; [by eexists|done].
Qed.

Lemma wp_data_type_of n Q m : (∀ dt, has m n → Q dt m) → wp (data_type_of n) Q m.
Proof. intros HQ. unfold data_type_of. wp_step. apply wp_tensor_of. intros w Hn. do 2 wp_step. auto. Qed.

Lemma wp_convert_input names i w dt v Q m : Forall (has m) names →
  (∀ m' r, grows m m' → Forall (has m') r → length r = length names → Q r m') → wp (convert_input env qnn names i w dt v) Q m.
Proof.
  intros Hn HQ. eapply (wp_use (fun r m' => Forall (has m') r ∧ length r = length names)); [|by intros ? ? ? []; auto].
  unfold convert_input. repeat op_step. apply wp_InsertConvertOp; [done|]. intros m2 Hg2 Ho _. advance Hg2. intros _. apply wp_ret.
  rewrite length_insert. split; [by apply Forall_insert|done].
Qed.

Lemma wp_AlignBinaryInputPrecision u names v Q m : Forall (has m) names →
  (∀ m' r, grows m m' → Forall (has m') r → length r = length names → Q r m') → wp (AlignBinaryInputPrecision env qnn u names v) Q m.
Proof.
  intros Hn HQ. eapply (wp_use (fun r m' => Forall (has m') r ∧ length r = length names)); [|by intros ? ? ? []; auto].
  unfold AlignBinaryInputPrecision.
  repeat first [apply wp_data_type_of; intros ? ? | apply wp_tensor_of; intros ? ? | apply wp_convert_input; [done|]; auto | op_step]; auto.
Qed.

Lemma wp_ConvertActivation names dt v Q m : Forall (has m) names →
  (∀ m' r, grows m m' → Forall (has m') r → length r = length names → Q r m') →
  wp (ConvertActivationToOutputPrecision env qnn names dt v) Q m.
Proof.
  intros Hn HQ. eapply (wp_use (fun r m' => Forall (has m') r ∧ length r = length names)); [|by intros ? ? ? []; auto].
  unfold ConvertActivationToOutputPrecision.
  repeat first [apply wp_tensor_of; intros ? ? | apply wp_convert_input; [done|]; auto | op_step]; auto.
Qed.

Lemma wp_InsertOutputPrecisionConvert u o names ps v op dt info Q m : aget (Outputs u) 0 = Ok o →
  Forall (has m) names → Forall (has_param m) ps →
  (∀ m', grows m m' → (v = false → Forall (provided m') [name o]) → Q tt m') →
  wp (InsertOutputPrecisionConvert env qnn u names ps v op dt info) Q m.
Proof.
  intros Eo Hn Hp HQ. eapply (wp_use (fun _ m' => v = false → Forall (provided m') [name o])); [|by intros [] ? ? ?; auto].
  unfold InsertOutputPrecisionConvert. do 2 wp_step. rewrite Eo in E. injection E as <-.
  repeat first [apply wp_InsertConvertOp; [done|]; auto | op_step].
Qed.

Lemma wp_fp16_casts v names Q m : Forall (has m) names →
  (∀ m' r, grows m m' → Forall (has m') r → Q r m') → wp (each names (cast_fp16_step env v) []) Q m.
Proof.
  intros Hn HQ. eapply (wp_use (fun r m' => Forall (has m') r)); [|auto].
  apply (wp_each (fun _ r m' => Forall (has m') r)); [|constructor]. intros d r n m1 Hr _. unfold cast_fp16_step.
  repeat first [apply wp_tensor_of; intros ? ? | op_step]; solve_names.
Qed.

Lemma wp_AddOpWithQuantizedOutput nn op names ps o ty dt q s act v Q m : Forall (has m) names → Forall (has_param m) ps →
  (∀ m', grows m m' → has m' o → (v = false → Forall (provided m') [o]) → Q tt m') →
  wp (AddOpWithQuantizedOutput env qnn nn op names ps o ty dt q s act v) Q m.
Proof.
  intros Hn Hp HQ. eapply (wp_use (fun _ m' => has m' o ∧ (v = false → Forall (provided m') [o]))); [|by intros [] ? ? []; auto].
  unfold AddOpWithQuantizedOutput. wp_step. eapply (wp_use (fun _ _ => True)).
  { unfold is_float_act_quant_weight. repeat first [apply wp_tensor_of; intros ? ? | op_step]; auto. }
  intros float_act m1 Hg1 _ _. advance Hg1. wp_step. eapply (wp_use (fun r m' => Forall (has m') r)).
  { destruct float_act; [apply wp_fp16_casts; auto|by apply wp_ret]. }
  intros names' m2 Hg2 Hn' _. advance Hg2. wp_step.
  eapply (wp_use (fun n m' => n = o ∨ has m' n)).
  { op_auto. }
  intros n m3 Hg3 Hno _. advance Hg3. wp_step. apply wp_add_tensor. intros m4 Hg4 Ho. advance Hg4. intros _.
  assert (has m4 n) as Hn4 by (destruct Hno as [->|Hno]; [done|by eapply has_grows]).
  repeat op_step; [|finish..].
  match goal with E : bool_decide _ = true |- _ => apply bool_decide_eq_true in E as -> end. auto.
Qed.
End ConvertLaws.

(** ** Narrowing *)

(** The level of the activation type that stands for level [q] of the output type. *)
Definition fine_level (qmin_act qmin_out ratio q : Z) : Z := qmin_act + (q - qmin_out) * ratio.

(** C13: when the result of a node is narrowed, the encoding of the intermediate tensor holds
    every level of the output encoding: its step is the output's step divided by an integer
    [ratio], level [q] of the output has the value of a level of the activation type
    ([offset + level = ratio * (out_offset + q)]), and the two ranges have the same ends, so that
    Convert only drops precision.  An offset that does not fit raises an exception. *)
Theorem narrowing_keeps_levels (act out : Qnn_DataType_t) (q : QnnQuantParamsWrapper) (s : float) (o : Z)
  (amin amax omin omax : Z) :
  IsNarrowingQuantOutput act out = true → IsPerTensor q false = true → scaleOffsetEncoding (params_ q) = Ok (s, o) →
  GetQminQmax act false = Ok (amin, amax) → GetQminQmax out false = Ok (omin, omax) →
  ∃ ratio, 1 < ratio ∧
    let offset := (omin + o) * ratio - amin in
    GetNarrowingIntermediateQuantParams act out q =
      (if (- 2 ^ 31 <=? offset) && (offset <=? 2 ^ 31 - 1)
       then Ok (PerTensor (f32_of_f64 (f64_div (f64_of_f32 s) (f64_of_Z ratio))) offset)
       else Err (Throw "gsl::narrowing_error")) ∧
    (∀ l, omin ≤ l ≤ omax → amin ≤ fine_level amin omin ratio l ≤ amax ∧
      fine_level amin omin ratio l + offset = ratio * (l + o)) ∧
    fine_level amin omin ratio omin = amin ∧ fine_level amin omin ratio omax = amax.
Proof.
  intros Hn Hq Hso Ha Ho. exists ((amax - amin) / (omax - omin)).
  assert ((amax - amin) / (omax - omin) * (omax - omin) = amax - amin ∧ 1 < (amax - amin) / (omax - omin) ∧ omin < omax) as (Hr & H1 & Hlt).
  { destruct act; cbn in Hn; try discriminate; destruct out; cbn in Hn; try discriminate;
      cbn in Ha, Ho; injection Ha as <- <-; injection Ho as <- <-; vm_compute; split_and!; congruence. }
  split; [done|]. cbv zeta. split; [|split].
  - unfold GetNarrowingIntermediateQuantParams. rewrite Hq. cbn [return_if_not rbind]. rewrite Hso. cbn [rbind]. rewrite Ho. cbn [rbind].
    rewrite Ha. cbn [rbind]. unfold narrow. by destruct (_ && _).
  - intros l Hl. unfold fine_level. split; [split; nia|]. lia.
  - unfold fine_level. split; nia.
Qed.

Lemma narrowing_keeps_levels_witness :
  ∃ ratio, 1 < ratio ∧ 
    GetNarrowingIntermediateQuantParams QNN_UFIXED_POINT_16 QNN_UFIXED_POINT_8 (PerTensor (f32_of_Z 1) (-128)) =
      Ok (PerTensor (f32_of_f64 (f64_div (f64_of_f32 (f32_of_Z 1)) (f64_of_Z ratio))) ((0 + -128) * ratio - 0)) ∧
    fine_level 0 0 ratio 255 = 65535.
Proof.
  destruct (narrowing_keeps_levels QNN_UFIXED_POINT_16 QNN_UFIXED_POINT_8 (PerTensor (f32_of_Z 1) (-128)) (f32_of_Z 1) (-128) 0 65535 0 255
    ltac:(reflexivity) ltac:(reflexivity) ltac:(reflexivity) ltac:(reflexivity) ltac:(reflexivity)) as (ratio & H1 & E & _ & _ & Hmax).
  exists ratio. split_and!; [exact H1| |exact Hmax]. rewrite E. assert (ratio = 257) as -> by (unfold fine_level in Hmax; lia). reflexivity.
Defined.
