(* ===== verification/Bias.v ===== *)
(** * The bias of quantized operators

    A quantized operator accumulates in 32-bit integers, so that the scale of its bias has to be
    the product of the scales of activation and weight.  This file models how [builder/qnn_utils.cc]
    brings a bias to that scale: float biases are quantized, quantized ones are quantized again. *)

From S2P Require Import Prelude DataTypes Floats QuantParams QnnTensor Quantize ModelWrapper NodeGroups NodeUnitDefs TensorInfo ModelOps OpBuilder Builders.
Local Open Scope Z_scope.

(** ** Scales *)

Definition CheckBiasScaleMatch (bias_scale weights_scale activation_scale : float) : bool :=
  f_eq bias_scale (f32_mul weights_scale activation_scale).

(** The scales of [n] channels behind a pointer that must not be null. *)
Definition checked_scales {A} (f : A → float) (n : Z) (p : option (list A)) (msg : string) : result (list float) :=
  let* _ := return_if_not (bool_decide (is_Some p) && (0 <? n)) msg in
  let* l := copy_n (Z.to_nat n) p in
  Ok (f <$> l).

Definition GetWeightQuantScales (weight_quant_param : QnnQuantParamsWrapper) : result (list float) :=
  let qp := quantizationEncoding (params_ weight_quant_param) in
  if IsPerTensor weight_quant_param false then
    Ok (match qp with SCALE_OFFSET s _ => [s] | BW_SCALE_OFFSET _ s _ => [s] | _ => [] end)
  else
  match qp with
  | AXIS_SCALE_OFFSET _ n so => checked_scales so_scale n so "Invalid AXIS_SCALE_OFFSET weight quant params"
  | BW_AXIS_SCALE_OFFSET _ _ n scales _ => checked_scales id n scales "Invalid BW_AXIS_SCALE_OFFSET weight quant params"
  | BLOCKWISE_EXPANSION e =>
      checked_scales so_scale (GetPerChannelScalesSize weight_quant_param)
        (match e with Some e => bwe_scaleOffsets e | None => None end) "Invalid BLOCKWISE_EXPANSION weight quant params"
  | _ => Err (EpFail "Unsupported weight quantization encoding for bias quantization.")
  end.

(** Scales, offsets and axis. *)
Definition GetBiasQuantScalesAndOffsets (bias_quant_param : QnnQuantParamsWrapper) : result (list float * list Z * Z) :=
  match quantizationEncoding (params_ bias_quant_param) with
  | SCALE_OFFSET s o => Ok ([s], [o], 0)
  | BW_SCALE_OFFSET _ s o => Ok ([s], [o], 0)
  | AXIS_SCALE_OFFSET axis n so =>
      let* _ := return_if_not (bool_decide (is_Some so) && (0 <? n)) "Invalid AXIS_SCALE_OFFSET bias quant params" in
      let* l := copy_n (Z.to_nat n) so in
      Ok (so_scale <$> l, so_offset <$> l, axis)
  | BW_AXIS_SCALE_OFFSET _ axis n scales offsets =>
      let* _ := return_if_not (bool_decide (is_Some scales) && bool_decide (is_Some offsets) && (0 <? n))
        "Invalid BW_AXIS_SCALE_OFFSET bias quant params" in
      let* ss := copy_n (Z.to_nat n) scales in
      let* os := copy_n (Z.to_nat n) offsets in
      Ok (ss, os, axis)
  | _ => Err (EpFail "Unsupported bias quantization encoding for requantization.")
  end.

(** The scale of channel [c]: the first when there is none for it. *)
Definition weight_scale (weights_scales : list float) (c : nat) : result float :=
  if (c <? length weights_scales)%nat then aget weights_scales c else aget weights_scales 0.

(** ** Data *)

Definition quantize_bias_elem (bias_scale x : float) : result Z :=
  let rounded := f64_round (f64_div (f64_of_f32 x) (f64_of_f32 bias_scale)) in
  to_i32 (Saturate_double (f64_of_Z (2 ^ 31 - 1)) (f64_of_Z (- 2 ^ 31)) rounded).

Definition float_bias_channel (weights_scales : list float) (activation_scale : float) (float_bias_data : list float) (c : nat)
  : result (float * Z) :=
  let* w := weight_scale weights_scales c in
  let bias_scale := f32_mul activation_scale w in
  let* _ := return_if_not (f_lt f_zero bias_scale) "Bias scale value is non-positive" in
  let* x := aget float_bias_data c in
  let* q := quantize_bias_elem bias_scale x in
  Ok (bias_scale, q).

Definition QuantizeFloatBiasTensor (float_bias_data weights_scales : list float) (activation_scale : float)
  : result (list Z * list float * list Z) :=
  let* _ := return_if (bool_decide (float_bias_data = [])) "Float bias data must not be empty" in
  let* _ := return_if (bool_decide (weights_scales = [])) "Weight scales must not be empty" in
  let num_channels := length float_bias_data in
  let* qs := collect num_channels (float_bias_channel weights_scales activation_scale float_bias_data) in
  Ok (mjoin (le_encode 4 <$> (snd <$> qs)), fst <$> qs, replicate num_channels 0).

Section Data.
Context `{SafeInt}.

Definition RequantizeBiasTensor (original_bias_data bias_shape : list Z) (current_scales : list float) (current_offsets : list Z)
  (weights_scales : list float) (activation_scale : float) (data_type : Qnn_DataType_t) (axis : option Z)
  : result (list Z * list float * list Z) :=
  let* num_elems := ShapeSizeCalc bias_shape 0 (length bias_shape) in
  let* float_bias_data := DequantizePerChannel original_bias_data bias_shape current_scales current_offsets
    (replicate (Z.to_nat num_elems) f_zero) data_type axis in
  let* broadcast_dim :=
    match axis with None => Ok 1 | Some a => aget bias_shape (axis_no_neg a (length bias_shape)) end in
  let* new_scales := collect (Z.to_nat broadcast_dim) (fun i =>
    let* w := weight_scale weights_scales i in Ok (f32_mul w activation_scale)) in
  let new_offsets := replicate (Z.to_nat broadcast_dim) 0 in
  let* elem_size := GetElementSizeByType_qnn data_type in
  let* data := QuantizeData float_bias_data bias_shape new_scales new_offsets
    (replicate (Z.to_nat (u64 (elem_size * num_elems))) 0) data_type axis in
  Ok (data, new_scales, new_offsets).

End Data.

Definition needs_requantization (current_scales : list float) (current_offsets : list Z) (weights_scales : list float)
  (activation_scale : float) : result bool :=
  foldM (fun (needs : bool) i =>
    if needs then Ok true
    else
    let* w := weight_scale weights_scales i in
    let* o := aget current_offsets i in
    let* s := aget current_scales i in
    Ok (negb (o =? 0) || negb (CheckBiasScaleMatch s w activation_scale))) (seq 0 (length current_scales)) false.

(** One scale makes per-tensor parameters. *)
Definition bias_quant_params (scales : list float) (offsets : list Z) (axis : Z) : result QnnQuantParamsWrapper :=
  match scales, offsets with
  | [s], o :: _ => Ok (PerTensor s o)
  | [s], [] => Err Trap
  | _, _ => PerChannel scales offsets axis
  end.

Section Bias.
Context `{SafeInt} `{QnnInterface}.
Context (env : environment) (graph : OrtGraph) (qnn : QnnHeaders).

Local Abbreviation base_name u := (NodeUnitBaseName (u_name u) (u_op_type u) (N.of_nat (u_index u))).

Definition DequantizeInt32BiasToFp16 (raw_int32_bytes : list Z) (scales : list float) : result (list Z) :=
  let* _ := return_if_not (length raw_int32_bytes mod 4 =? 0)%nat "raw_int32_bytes size must be a multiple of sizeof(int32_t)" in
  let num_elems := (length raw_int32_bytes / 4)%nat in
  let* _ := return_if_not (bool_decide (scales = []) || (length scales =? 1)%nat || (length scales =? num_elems)%nat)
    "scales must be empty (all 1.0f), per-tensor (size 1), or per-channel (size num_elems)" in
  let is_per_channel := (length scales =? num_elems)%nat in
  let* bytes := collect num_elems (fun i =>
    let* scale := match scales with [] => Ok (f32_of_Z 1) | _ => aget scales (if is_per_channel then i else 0%nat) end in
    Ok (f16_bytes qnn (f32_mul (f32_of_Z (read_elem int32_t raw_int32_bytes i)) scale))) in
  Ok (mjoin bytes).

(** The names with the new bias, when the bias had to be quantized again. *)
Definition RequantizeBiasIfNeeded (u : UnitView) (bias_info : TensorInfo) (weights_scales : list float) (activation_scale : float)
  (input_names : list string) : M (option (list string)) :=
  let! (current_scales, current_offsets, bias_quant_axis) := lift (GetBiasQuantScalesAndOffsets (info_quant_param bias_info)) in
  let! needs := lift (needs_requantization current_scales current_offsets weights_scales activation_scale) in
  if negb needs then ret None
  else
  let! original_bias_data := lift (UnpackInitializerData graph (info_initializer bias_info) true) in
  let axis_opt := if (1 <? length current_scales)%nat then Some bias_quant_axis else None in
  let shape := info_shape bias_info in
  let dt := info_data_type bias_info in
  let! (new_bias_data, new_scales, new_offsets) := lift (RequantizeBiasTensor original_bias_data shape current_scales current_offsets
    weights_scales activation_scale dt axis_opt) in
  let! _ := lift (
    if match axis_opt with None => true | Some a => a =? 0 end then
      let* num_elems := ShapeSizeCalc shape 0 (length shape) in
      if 0 <? num_elems then
        let zeros := replicate (Z.to_nat num_elems) f_zero in
        let* _ := DequantizePerChannel original_bias_data shape current_scales current_offsets zeros dt axis_opt in
        let* _ := DequantizePerChannel new_bias_data shape new_scales new_offsets zeros dt axis_opt in
        Ok tt
      else Ok tt
    else Ok tt) in
  let! q := lift (bias_quant_params new_scales new_offsets bias_quant_axis) in
  let! names := AddStaticBiasTensor env (base_name u +:+ "_bias_rq") shape dt q new_bias_data input_names in
  ret (Some names).

Definition QuantizeFloatBias (u : UnitView) (bias_info : TensorInfo) (weights_scales : list float) (activation_scale : float)
  (input_names : list string) : M (list string) :=
  let! original_bias_data := lift (UnpackInitializerData graph (info_initializer bias_info) true) in
  let! num_channels := lift (aget (info_shape bias_info) 0) in
  let! _ := lift (return_if_not (Z.of_nat (length original_bias_data) =? num_channels * 4)
    "Unexpected bias data size for float bias quantization") in
  let! (new_bias_data, new_scales, new_offsets) := lift (QuantizeFloatBiasTensor (f32_of_bits <$> elements 4 original_bias_data)
    weights_scales activation_scale) in
  let! q := lift (bias_quant_params new_scales new_offsets 0) in
  AddStaticBiasTensor env (base_name u +:+ "_bias_q") (info_shape bias_info) QNN_SFIXED_POINT_32 q new_bias_data input_names.

(** A bias of shape [1, N] as one of shape [N], with the suffix of its name. *)
Definition collapse_bias (bias_info : TensorInfo) : result (TensorInfo * string) :=
  match info_shape bias_info with
  | [1; n] =>
      let* q :=
        if IsQuantized (info_quant_param bias_info) then
          let* (scales, offsets, quant_axis) := GetBiasQuantScalesAndOffsets (info_quant_param bias_info) in
          if quant_axis =? 0 then Ok (info_quant_param bias_info) else bias_quant_params scales offsets 0
        else Ok (info_quant_param bias_info) in
      Ok (Info [n] (info_data_type bias_info) q (info_is_initializer bias_info) (info_initializer bias_info), "_bias_1d")
  | _ => Ok (bias_info, "_bias")
  end.

(** The names with the bias, unless the caller has to add it. *)
Definition ProcessBiasForQuantizedOp (u : UnitView) (bias_def : OrtNodeUnitIODef)
  (act_quant_param weight_quant_param : QnnQuantParamsWrapper) (input_names : list string) : M (option (list string)) :=
  let! bias_info := lift (GetTensorInfo env graph bias_def) in
  if negb (info_is_initializer bias_info) then ret None
  else if negb (IsQuantized act_quant_param) || negb (IsQuantized weight_quant_param) then ret None
  else
  let! (bias_info, suffix) := lift (collapse_bias bias_info) in
  let! _ := lift (return_if_not (IsPerTensor act_quant_param true)
    "Activation must be per-tensor quantized for quantized-domain bias processing") in
  let! (activation_scale, _) := lift (GetPerTensorScaleOffset act_quant_param) in
  let! weights_scales := lift (GetWeightQuantScales weight_quant_param) in
  let! _ := lift (return_if (bool_decide (weights_scales = [])) "No weight scales found for bias quantization") in
  if IsQuantized (info_quant_param bias_info) then
    let! requantized := RequantizeBiasIfNeeded u bias_info weights_scales activation_scale input_names in
    match requantized with
    | Some names => ret (Some names)
    | None =>
        let! bias_data := lift (UnpackInitializerData graph (info_initializer bias_info) true) in
        let! q := lift (Copy (info_quant_param bias_info)) in
        let! names := AddStaticBiasTensor env (base_name u +:+ suffix) (info_shape bias_info) (info_data_type bias_info) q bias_data
          input_names in
        ret (Some names)
    end
  else
    let! names := QuantizeFloatBias u bias_info weights_scales activation_scale input_names in
    ret (Some names).

End Bias.

(** ** What the functions owe the model *)

Section BiasLaws.
Context `{SafeInt} `{QnnInterface}.
Context (env : environment) (graph : OrtGraph).

(** Names in the table, of which there is one. *)
Definition named (r : list string) (m : QnnModelWrapper) : Prop := Forall (has m) r ∧ r ≠ [].
Definition named_if (r : option (list string)) (m : QnnModelWrapper) : Prop := ∀ l, r = Some l → named l m.

Lemma named_snoc m (l : list string) n : Forall (has m) l → has m n → named (l ++ [n]) m.
Proof using Type. intros. split; [solve_names|]. by intros [_ ?]%app_nil. Qed.

Lemma wp_static_bias n s dt q d names Q m : Forall (has m) names →
  (∀ m' r, grows m m' → named r m' → Q r m') → wp (AddStaticBiasTensor env n s dt q d names) Q m.
Proof.
  intros Hn HQ. eapply (wp_use named); [|auto]. unfold AddStaticBiasTensor. repeat wp_step. by apply named_snoc.
Qed.

Lemma wp_Requantize u info ws act names Q m : Forall (has m) names →
  (∀ m' r, grows m m' → named_if r m' → Q r m') → wp (RequantizeBiasIfNeeded env graph u info ws act names) Q m.
Proof.
  intros Hn HQ. eapply (wp_use named_if); [|auto]. unfold RequantizeBiasIfNeeded.
  repeat first [apply wp_static_bias; [done|let Hg := fresh in intros ? ? Hg ?; advance Hg] | op_step]; intros ? [=]; subst; auto.
Qed.

Lemma wp_QuantizeFloatBias u info ws act names Q m : Forall (has m) names →
  (∀ m' r, grows m m' → named r m' → Q r m') → wp (QuantizeFloatBias env graph u info ws act names) Q m.
Proof.
  intros Hn HQ. eapply (wp_use named); [|auto].
  unfold QuantizeFloatBias. repeat first [apply wp_static_bias; [done|intros ? ? ? ?; done] | op_step].
Qed.

Lemma wp_ProcessBias u bias qa qw names Q m : Forall (has m) names →
  (∀ m' r, grows m m' → named_if r m' → Q r m') → wp (ProcessBiasForQuantizedOp env graph u bias qa qw names) Q m.
Proof.
  intros Hn HQ. eapply (wp_use named_if); [|auto]. unfold ProcessBiasForQuantizedOp.
  repeat first [apply wp_static_bias; [done|let Hg := fresh in intros ? ? Hg ?; advance Hg]
    | apply wp_QuantizeFloatBias; [done|let Hg := fresh in intros ? ? Hg ?; advance Hg]
    | apply wp_Requantize; [done|let Hg := fresh in intros ? ? Hg ?; advance Hg] | op_step]; intros ? [=]; subst; auto.
Qed.

End BiasLaws.

(** ** The new scales *)

(** The scale that channel [c] of the bias has to have. *)
Definition accumulator_scale (weights_scales : list float) (activation_scale : float) (c : nat) : float :=
  f32_mul (default f_zero (weights_scales !! (if (c <? length weights_scales)%nat then c else O))) activation_scale.
Definition accumulator_scales (weights_scales : list float) (activation_scale : float) (n : nat) : list float :=
  accumulator_scale weights_scales activation_scale <$> seq 0 n.

Lemma weight_scale_ok ws c : ws ≠ [] →
  weight_scale ws c = Ok (default f_zero (ws !! (if (c <? length ws)%nat then c else O))).
Proof.
  intros Hne. unfold weight_scale. destruct (c <? length ws)%nat eqn:Ec.
  - apply Nat.ltb_lt in Ec. destruct (aget_lt ws c Ec) as (x & -> & ->). done.
  - destruct (aget_lt ws 0) as (x & -> & ->); [destruct ws; [done|cbn; lia]|]. done.
Qed.

Lemma new_scales_ok ws act n : ws ≠ [] →
  collect n (fun i => let* w := weight_scale ws i in Ok (f32_mul w act)) = Ok (accumulator_scales ws act n).
Proof.
  intros Hne. apply collect_Ok; [unfold accumulator_scales; by rewrite length_fmap, length_seq|].
  intros i x Hx. unfold accumulator_scales in Hx. rewrite list_lookup_fmap in Hx.
  destruct (seq 0 n !! i) as [k|] eqn:Ek; [|done]. apply lookup_seq in Ek as [-> _]. injection Hx as <-. by rewrite weight_scale_ok.
Qed.

Lemma replicate_channels T len shape axis scales offsets t ws act : quant_args T len shape axis scales offsets t →
  quant_args T len shape axis (accumulator_scales ws act (channels shape axis)) (replicate (channels shape axis) 0) t.
Proof.
  intros [? ? ? ? ? ? ?]. constructor; try done.
  - unfold accumulator_scales. by rewrite length_fmap, length_seq.
  - by rewrite length_replicate.
Qed.

(** The value of element [j] of quantized data. *)
Definition values (T : QuantType) (shape : list Z) (axis : option Z) (scales : list float) (offsets bytes : list Z) (len : nat) : list float :=
  (fun j => dequantize_elem T bytes (default f_zero (scales !! channel_of shape axis j)) (default 0 (offsets !! channel_of shape axis j)) j)
    <$> seq 0 len.

Lemma imap_replicate_seq {A B} (f : nat → B) (x : A) n : imap (fun j _ => f j) (replicate n x) = f <$> seq 0 n.
Proof.
  apply list_eq. intros i. rewrite list_lookup_imap, list_lookup_fmap. destruct (decide (i < n)%nat).
  - by rewrite lookup_replicate_2, lookup_seq_lt by lia.
  - rewrite (proj2 (lookup_ge_None _ _)), (proj2 (lookup_ge_None (seq 0 n) i)); [done|rewrite length_seq; lia|rewrite length_replicate; lia].
Qed.

(** A bias that is quantized again has exactly the scale of the accumulator in every channel
    (weight scale times activation scale, in single precision), offset 0, and every element is its
    old value quantized with the new scale of its channel; when no scale is NaN, the new parameters
    need no further requantization. *)
Theorem bias_requantized `{SafeInt} (T : QuantType) (len : nat) (shape bytes : list Z) (axis : option Z) (scales : list float)
  (offsets : list Z) (t : Qnn_DataType_t) (ws : list float) (act : float) :
  quant_args T len shape axis scales offsets t → length bytes = (q_size T * len)%nat → ws ≠ [] →
  let new_scales := accumulator_scales ws act (channels shape axis) in
  let zeros := replicate (channels shape axis) 0 in
  RequantizeBiasTensor bytes shape scales offsets ws act t axis =
    (let* qs := quantized T shape axis new_scales zeros (values T shape axis scales offsets bytes len) in
     Ok (mjoin (le_encode (q_size T) <$> qs), new_scales, zeros)) ∧
  (Forall (fun s => f_eq s s = true) new_scales → needs_requantization new_scales zeros ws act = Ok false).
Proof.
  intros Hargs Hb Hne new_scales zeros. pose proof (qa_prod Hargs) as Hlt. split.
  - pose proof (qa_len _ _ _ _ _ _ _ Hargs) as Hlen.
    unfold RequantizeBiasTensor. rewrite ShapeSizeCalc_spec by (apply Hargs || lia). rewrite Nat.sub_0_r, drop_0, firstn_all. cbn [rbind].
    rewrite <- Hlen, Nat2Z.id. rewrite (dequantize_spec bytes _ Hargs) by (rewrite ?length_replicate; done). cbn [rbind].
    rewrite (imap_replicate_seq (fun j => dequantize_elem T bytes (default f_zero (scales !! channel_of shape axis j))
      (default 0 (offsets !! channel_of shape axis j)) j)). fold (values T shape axis scales offsets bytes len).
    assert (∃ z, match axis with None => Ok 1 | Some a => aget shape (axis_no_neg a (length shape)) end = Ok z ∧
      Z.to_nat z = channels shape axis) as (z & -> & Hz).
    { destruct axis as [a|]; [|by exists 1]. pose proof (qa_axis _ _ _ _ _ _ _ Hargs) as Hax. cbn in Hax.
      destruct (aget_lt _ _ Hax) as (d & -> & Hd). exists d. split; [done|]. cbn. by rewrite Hd. }
    cbn [rbind]. rewrite Hz, new_scales_ok by done. cbn [rbind]. rewrite (quant_type_size _ _ (qa_type _ _ _ _ _ _ _ Hargs)). cbn [rbind].
    fold new_scales zeros.
    pose proof (replicate_channels _ _ _ _ _ _ _ ws act Hargs) as Hargs'. fold new_scales zeros in Hargs'.
    pose proof (qa_fits _ _ _ _ _ _ _ Hargs).
    rewrite (quantize_data_spec Hargs' (values T shape axis scales offsets bytes len)).
    + by destruct (quantized _ _ _ _ _ _).
    + unfold values. by rewrite length_fmap, length_seq.
    + rewrite length_replicate, (wrapu_id 64) by (red; lia). lia.
  - intros Hnan. unfold needs_requantization. unfold new_scales at 2, accumulator_scales. rewrite length_fmap, length_seq.
    destruct (foldM_total (S := bool) (fun (needs : bool) i => if needs then Ok true else
      let* w := weight_scale ws i in let* o := aget zeros i in let* s := aget new_scales i in
      Ok (negb (o =? 0) || negb (CheckBiasScaleMatch s w act))) (fun _ b => b = false) (seq 0 (channels shape axis)) false eq_refl)
      as (b & Eb & ->); [|exact Eb].
    intros d i rest b Ei ->. exists false. split; [|done].
    assert (i ∈ seq 0 (channels shape axis)) as Hi by (rewrite Ei; set_solver). rewrite elem_of_seq in Hi.
    rewrite weight_scale_ok by done. cbn [rbind].
    destruct (aget_lt zeros i) as (o & -> & Ho); [unfold zeros; rewrite length_replicate; lia|].
    apply lookup_replicate_1 in Ho as [-> _]. cbn [rbind].
    destruct (aget_lt new_scales i) as (s & -> & Hs); [unfold new_scales, accumulator_scales; rewrite length_fmap, length_seq; lia|].
    cbn [rbind]. pose proof (proj1 (Forall_lookup _ _) Hnan i s Hs) as Hss. cbn in Hss.
    unfold new_scales, accumulator_scales in Hs. rewrite list_lookup_fmap, lookup_seq_lt in Hs by lia. injection Hs as <-.
    unfold CheckBiasScaleMatch. fold (accumulator_scale ws act i). cbn [negb Z.eqb orb]. by rewrite Hss.
Qed.

(** The bias 8 and 12, stored with scale 1, for weights of scales 1 and 3 and an activation of scale 2. *)
Lemma bias_requantized_witness :
  RequantizeBiasTensor (H := exact_safe_int) (le_encode 4 8 ++ le_encode 4 12) [2] (f32_of_Z <$> [1; 1]) [0; 0] (f32_of_Z <$> [1; 3])
    (f32_of_Z 2) QNN_SFIXED_POINT_32 (Some 0) = Ok (le_encode 4 4 ++ le_encode 4 2, f32_of_Z <$> [2; 6], [0; 0]) ∧
  needs_requantization (f32_of_Z <$> [2; 6]) [0; 0] (f32_of_Z <$> [1; 3]) (f32_of_Z 2) = Ok false.
Proof.
  assert (quant_args int32_t 2 [2] (Some 0) (f32_of_Z <$> [1; 1]) [0; 0] QNN_SFIXED_POINT_32) as Hargs
    by (constructor; cbn; try done; try lia; repeat constructor; lia).
  destruct (bias_requantized (H := exact_safe_int) int32_t 2 [2] (le_encode 4 8 ++ le_encode 4 12) (Some 0) (f32_of_Z <$> [1; 1]) [0; 0]
    QNN_SFIXED_POINT_32 (f32_of_Z <$> [1; 3]) (f32_of_Z 2) Hargs eq_refl ltac:(intros Hw; apply (f_equal length) in Hw; discriminate Hw)) as [E Hstable].
  split.
  - etransitivity; [exact E|]. vm_compute. reflexivity.
  - exact (Hstable ltac:(repeat constructor)).
Defined.

(** ** Behaviour that a reader would not expect *)
Module BiasFindings.

(** The branch of [GetWeightQuantScales] for a bit width and one scale is never taken: [IsPerTensor]
    leaves such parameters out, so that the bias of an operator with a 4-bit per-tensor weight is
    refused, although the activation may have such parameters. *)
Lemma bw_per_tensor_weight_refused s o b : GetWeightQuantScales (PerTensorBw s o b) =
  Err (EpFail "Unsupported weight quantization encoding for bias quantization.").
Proof. done. Qed.

(** Only the scale of the first channel is looked at when a bias has one scale: with weights of
    several scales it is left as it is when its scale fits the first channel, and the other channels
    are not in the scale of the accumulator. *)
Lemma per_tensor_bias_for_channels ws act w : ws !! 0%nat = Some w → f_eq (f32_mul w act) (f32_mul w act) = true →
  needs_requantization [f32_mul w act] [0] ws act = Ok false.
Proof.
  intros Hw He. assert (ws ≠ []) as Hne by (by intros ->). unfold needs_requantization. cbn [length seq foldM].
  rewrite weight_scale_ok by done. assert ((if (0 <? length ws)%nat then O else O) = O) as -> by (by destruct (0 <? length ws)%nat).
  rewrite Hw. change (Ok (negb (f_eq (f32_mul w act) (f32_mul w act))) = Ok false). by rewrite He.
Qed.

End BiasFindings.
