(* ===== verification/MoveBuilders.v ===== *)
(** * Op builders of reductions and data movement

    The builders of Softmax and LogSoftmax, of the Reduce operators, Transpose, Split, Slice,
    Gather and GatherElements ([builder/opbuilder/], with [folded_static_utils.h] and
    [normalize_indices_utils.cc]).  They surround the QNN node with Reshape, Transpose, Cast or
    Convert nodes when QNN cannot do what ONNX asks for, or fold the node away.  A definition is
    named after the operator and the method it models. *)

From stdpp Require Import pretty.
From S2P Require Import Prelude SubByte DataTypes Floats QuantParams Perm QnnTensor Quantize OpParams ModelWrapper NodeGroups NodeUnitDefs TensorInfo ModelOps OpBuilder Builders.
Local Open Scope Z_scope.

(** [std::string::find] *)
Definition contains (sub s : string) : bool := bool_decide (is_Some (String.index 0 sub s)).

Definition shape_or (io : OrtNodeUnitIODef) (msg : string) : result (list Z) :=
  let* s := GetOnnxShape (shape io) in
  match s with None => Err (EpFail msg) | Some s => Ok s end.

(** [memcpy] of a buffer into a vector of 64-bit integers. *)
Definition copy_int64 (bytes : list Z) : result (list Z) :=
  if (length bytes mod 8 =? 0)%nat then Ok (int64_elements bytes) else Err Trap.

(** A [std::set] of integers is its sorted list of elements. *)
Fixpoint set_insert (x : Z) (l : list Z) : list Z :=
  match l with
  | [] => [x]
  | y :: l' => if x <? y then x :: l else if x =? y then l else y :: set_insert x l'
  end.

Inductive ReduceOpType := REDUCE_MAX | REDUCE_MIN | REDUCE_MEAN | REDUCE_PROD | REDUCE_SUM | REDUCE_L2 | REDUCE_LOG_SUM_EXP.
#[export] Instance ReduceOpType_eq : EqDecision ReduceOpType.
Proof. solve_decision. Defined.

Section MoveBuilders.
Context `{SafeInt} `{QnnInterface}.
Context (env : environment) (graph : OrtGraph) (qnn : QnnHeaders).

Local Abbreviation tensor_info io := (GetTensorInfo env graph io).
Local Abbreviation input u i := (aget (Inputs u) i).
Local Abbreviation output u i := (aget (Outputs u) i).
Local Abbreviation scalar u v n ps := (AddQnnScalar (u_index u) (u_name u) v (macro qnn n) ps).

(** A native tensor without quantization parameters and the node that writes it. *)
Definition float_step (u : UnitView) (out : string) (dt : Qnn_DataType_t) (shape : list Z) (label op : string)
  (ins params : list string) (v : bool) : M unit :=
  let! _ := add_tensor env out TENSOR_TYPE_NATIVE dt default_wrapper shape [] "AddTensorWrapper failed" in
  let! node := fresh_unit u label in
  create_node env node op ins [out] params v "CreateQnnNode failed".

(** ** Softmax and LogSoftmax *)

Definition GetDefaultAxisAttribute (opset_version : Z) : Z := if opset_version <? 13 then 1 else -1.

Definition NeedsBoundedOutputSplit (op_type : string) (dt : Qnn_DataType_t) (q : QnnQuantParamsWrapper) : result bool :=
  if negb (bool_decide (op_type = "Softmax")) then Ok false
  else if negb (IsNpuBackend (backend_type env)) then Ok false
  else if negb (IsPerTensor q false) then Ok false
  else if negb (bool_decide (dt ∈ [QNN_UFIXED_POINT_8; QNN_UFIXED_POINT_16])) then Ok false
  else
  let* size := GetElementSizeByType_qnn dt in
  let symmetric_offset := - i32 (2 ^ (size * 8 - 1)) in
  let* (_, offset) := scaleOffsetEncoding (params_ q) in
  Ok (offset =? symmetric_offset).

Definition BuildUnitRangeQuantParams (dt : Qnn_DataType_t) : result QnnQuantParamsWrapper :=
  let* size := GetElementSizeByType_qnn dt in
  Ok (PerTensor (f32_div (f32_of_Z 1) (f32_of_Z (2 ^ (size * 8)))) 0).

(** The Softmax node; a symmetric encoding is reached with a Convert behind it. *)
Definition CreateSoftmaxOutputNodes (u : UnitView) (input_names params : list string) (output_name : string)
  (dt : Qnn_DataType_t) (quant : QnnQuantParamsWrapper) (shape : list Z) (is_graph_output : bool) (qnn_op_type : string)
  (v : bool) : M unit :=
  let! q := lift (Copy quant) in
  let output_tensor_type := native_or is_graph_output TENSOR_TYPE_APP_READ in
  let! split := lift (NeedsBoundedOutputSplit (u_op_type u) dt q) in
  if negb split then
    let! q := lift (Copy quant) in
    let! _ := add_tensor env output_name output_tensor_type dt q shape [] "Failed to add (Log)Softmax output tensor." in
    let! node := fresh_unit u "" in
    create_node env node qnn_op_type input_names [output_name] params v "Failed to add (Log)Softmax node."
  else
  let! natural_quant_param := lift (BuildUnitRangeQuantParams dt) in
  let! natural_name := fresh output_name "_natural" in
  let! q := lift (Copy natural_quant_param) in
  let! _ := add_tensor env natural_name TENSOR_TYPE_NATIVE dt q shape []
    "Failed to add natural-encoding (Log)Softmax output tensor." in
  let! node := fresh_unit u "" in
  let! _ := create_node env node qnn_op_type input_names [natural_name] params v "Failed to add (Log)Softmax node (split path)." in
  let! q := lift (Copy quant) in
  let! _ := add_tensor env output_name output_tensor_type dt q shape [] "Failed to add (Log)Softmax converted output tensor." in
  let! node := fresh_unit u (macro qnn "QNN_OP_CONVERT") in
  create_node env node (macro qnn "QNN_OP_CONVERT") [natural_name] [output_name] [] v
    "Failed to add Convert node for (Log)Softmax bounded-output split.".

Definition FlattenShapeFromAxis (input_shape : list Z) (axis : Z) : result (list Z) :=
  if (length input_shape <? Z.to_nat axis)%nat then Err Trap
  else
  Ok (take (Z.to_nat axis) input_shape ++ (if axis =? 0 then [1] else []) ++
      [foldl (fun p d => u32 (p * d)) 1 (drop (Z.to_nat axis) input_shape)]).

(** The shape with the last dimension and that of [axis] exchanged. *)
Definition swap_last (shape : list Z) (axis : Z) : result (list Z) :=
  let rank := length shape in
  let* a := aget shape (Z.to_nat axis) in
  let* s := aset shape (rank - 1) a in
  let* l := aget shape (rank - 1) in
  aset s (Z.to_nat axis) l.

Definition Softmax_ProcessInputs (u : UnitView) (v : bool) : M (list string) :=
  let! i := lift (input u 0) in
  let opset := u_since_version u in
  let! axis := lift (GetCanonicalizedAxisAttribute u "axis" (GetDefaultAxisAttribute opset)) in
  let! info := lift (tensor_info i) in
  let input_rank := length (info_shape info) in
  let! _ := lift (return_if (info_is_initializer info) "QNN EP does not support (Log)Softmax with an initializer input") in
  let is_graph_input := IsGraphInput env (name i) in
  if opset <? 13 then
    let! out := fresh (name i) "_reshape" in
    let! out_shape := lift (FlattenShapeFromAxis (info_shape info) axis) in
    let! _ := AddReshapeNode_same env qnn (name i) out (info_shape info) out_shape (info_data_type info) (info_quant_param info)
      v is_graph_input false in
    ret [out]
  else if IsQpuBackend (backend_type env) && negb (axis =? i32 (Z.of_nat input_rank) - 1) then
    let! out := fresh (name i) "_transpose" in
    let! perm := lift (GetPermToLastAxis (Z.to_nat axis) input_rank []) in
    let! out_shape := lift (swap_last (info_shape info) axis) in
    let! _ := AddTransposeNode env qnn (u_index u) (name i) out (info_shape info) perm out_shape (info_data_type info)
      (info_quant_param info) v is_graph_input false in
    ret [out]
  else ProcessInput env graph i [].

Definition Softmax_ProcessAttributesAndOutputs (u : UnitView) (input_names : list string) (v : bool) : M unit :=
  let! o := lift (output u 0) in
  let opset := u_since_version u in
  let! axis := lift (GetCanonicalizedAxisAttribute u "axis" (GetDefaultAxisAttribute opset)) in
  let! info := lift (tensor_info o) in
  let output_rank := length (info_shape info) in
  let is_graph_output := IsGraphOutput env (name o) in
  if opset <? 13 then
    let! reshape_input := fresh (name o) "_reshape" in
    let! shape := lift (FlattenShapeFromAxis (info_shape info) axis) in
    let! ps := scalar u (SCALAR_UINT_32 (if axis =? 0 then 1 else u32 axis)) "QNN_OP_SOFTMAX_PARAM_AXIS" [] in
    let! op := lift (GetQnnOpType qnn (u_op_type u)) in
    let! _ := CreateSoftmaxOutputNodes u input_names ps reshape_input (info_data_type info) (info_quant_param info) shape
      false op v in
    AddReshapeNode_same env qnn reshape_input (name o) shape (info_shape info) (info_data_type info) (info_quant_param info)
      v false is_graph_output
  else if IsQpuBackend (backend_type env) && negb (axis =? i32 (Z.of_nat output_rank) - 1) then
    let! transpose_input := fresh (name o) "_transpose" in
    let! shape := lift (swap_last (info_shape info) axis) in
    let! ps := scalar u (SCALAR_UINT_32 (u32 (u32 (Z.of_nat output_rank) - 1))) "QNN_OP_SOFTMAX_PARAM_AXIS" [] in
    let! op := lift (GetQnnOpType qnn (u_op_type u)) in
    let! _ := CreateSoftmaxOutputNodes u input_names ps transpose_input (info_data_type info) (info_quant_param info) shape
      false op v in
    let! perm := lift (GetPermToLastAxis (Z.to_nat axis) output_rank []) in
    AddTransposeNode env qnn (u_index u) transpose_input (name o) shape perm (info_shape info) (info_data_type info)
      (info_quant_param info) v false is_graph_output
  else
    let! ps := scalar u (SCALAR_UINT_32 (u32 axis)) "QNN_OP_SOFTMAX_PARAM_AXIS" [] in
    let! split := lift (NeedsBoundedOutputSplit (u_op_type u) (info_data_type info) (info_quant_param info)) in
    if negb split then finish_node env graph qnn base_virtuals u input_names ps v
    else
      let! op := lift (GetQnnOpType qnn (u_op_type u)) in
      CreateSoftmaxOutputNodes u input_names ps (name o) (info_data_type info) (info_quant_param info) (info_shape info)
        is_graph_output op v.

Definition SoftmaxOpBuilder : OpBuilder := Builder base_virtuals Softmax_ProcessInputs Softmax_ProcessAttributesAndOutputs.

(** ** Reduce operators *)

Definition GetReduceOpType (op_type : string) : option ReduceOpType :=
  find_assoc op_type [("ReduceMax", REDUCE_MAX); ("ReduceMin", REDUCE_MIN); ("ReduceMean", REDUCE_MEAN);
    ("ReduceProd", REDUCE_PROD); ("ReduceSum", REDUCE_SUM); ("ReduceL2", REDUCE_L2); ("ReduceLogSumExp", REDUCE_LOG_SUM_EXP)].

(** The opset in which "axes" became an input. *)
Definition opset_with_axes_as_input (t : ReduceOpType) : Z := match t with REDUCE_SUM => 13 | _ => 18 end.

(** The axes as the operator gives them; none stands for all. *)
Definition Reduce_axes (t : ReduceOpType) (u : UnitView) (input_rank : nat) : result (list Z) :=
  if u_since_version u <? opset_with_axes_as_input t then
    Ok (default [] (attr_ints (u_attributes u) (macro qnn "QNN_OP_REDUCE_MAX_PARAM_AXES")))
  else if (length (Inputs u) <=? 1)%nat then Ok []
  else
  let* axes_input := input u 1 in
  let* axes_shape := shape_or axes_input "Cannot get shape of axes input" in
  let* _ := return_if (negb (length axes_shape =? 1)%nat) "QNN EP: axes input must have shape [M] where 0 < M <= rank(input[0])" in
  let* n := aget axes_shape 0 in
  let noop_with_empty_axes := negb (Get_int64 u "noop_with_empty_axes" 0 =? 0) in
  let* _ := return_if ((n =? 0) && noop_with_empty_axes)
    "QNN EP: does not support NoOp for reduction operators with empty axes." in
  if n <=? 0 then Ok []
  else
  let* _ := return_if (negb (IsConstantInput env (name axes_input))) "QNN EP: axes input for reduce operator must be an initializer" in
  let* axes_bytes := UnpackInitializerData graph (GetConstantTensor graph (name axes_input)) true in
  let* _ := return_if_not (length axes_bytes <=? input_rank * 8)%nat
    "Expect QNN Reduce* operator to have at most rank(input[0]) axes elements." in
  copy_int64 axes_bytes.

Definition GetAxesSet (u : UnitView) : result (list Z) :=
  match GetReduceOpType (u_op_type u) with
  | None => Err (EpFail ("QNN EP: Unknown reduce operator " +:+ u_op_type u))
  | Some t =>
      let* i := input u 0 in
      let* input_shape := shape_or i "Cannot get shape" in
      let input_rank := length input_shape in
      let* reduce_axes := Reduce_axes t u input_rank in
      let axes_set :=
        match reduce_axes with
        | [] => Z.of_nat <$> seq 0 input_rank
        | _ => foldl (fun s ax => set_insert (if ax <? 0 then ax + Z.of_nat input_rank else ax) s) [] reduce_axes
        end in
      let* _ := return_if (input_rank <? length axes_set)%nat
        "QNN EP: axes input must have shape [M] where 0 < M <= rank(input[0])" in
      Ok axes_set
  end.

Definition Reduce_IsOpSupported (u : UnitView) : result unit :=
  match GetReduceOpType (u_op_type u) with
  | None => Err (EpFail ("QNN EP: Unknown reduce operator " +:+ u_op_type u))
  | Some t =>
      let* _ := return_if (bool_decide (t = REDUCE_PROD) && IsNpuBackend (backend_type env))
        "QNN EP: ReduceProd operator not supported by HTP backend." in
      let* i := input u 0 in
      match t with
      | REDUCE_LOG_SUM_EXP =>
          let* _ := return_if (bool_decide (is_Some (quant_param i))) "QNN EP: ReduceLogSumExp operator does not support quantized input." in
          return_if (negb (bool_decide (type i ∈ [ONNX_FLOAT; ONNX_FLOAT16; ONNX_BFLOAT16])))
            "QNN EP: ReduceLogSumExp operator only supports float input dtypes."
      | REDUCE_L2 =>
          let* o := output u 0 in
          foldM (fun _ io =>
            match quant_param io with
            | None => Ok tt
            | Some _ =>
                let* (is_per_channel, _) := IsPerChannelQuantized io in
                return_if is_per_channel "QNN EP: ReduceL2 operator does not support per-channel quantized input/output."
            end) [i; o] tt
      | _ => Ok tt
      end
  end.

(** ReduceL2: the square root of the sum of squares, in floats when the unit is quantized. *)
Definition Reduce_L2 (u : UnitView) (input_names params : list string) (v : bool) : M unit :=
  let! i := lift (input u 0) in
  let! o := lift (output u 0) in
  let! input_shape := lift (shape_or i "Cannot get input shape.") in
  let! output_shape := lift (shape_or o "Cannot get output shape.") in
  let is_quantized_input := bool_decide (is_Some (quant_param i)) in
  let! dt := lift (if is_quantized_input then Ok QNN_FLOAT_32 else GetQnnDataType false (type o) CPU) in
  let! input_name := lift (aget input_names 0) in
  let! input_name :=
    if is_quantized_input then
      let! dq := fresh input_name "_to_f32" in
      let! _ := add_tensor env dq TENSOR_TYPE_NATIVE QNN_FLOAT_32 default_wrapper input_shape [] "AddTensorWrapper failed" in
      let! node := fresh_unit u "_dequant_in" in
      let! _ := create_node env node (macro qnn "QNN_OP_DEQUANTIZE") [input_name] [dq] [] v "Failed to add dequantize node" in
      ret dq
    else ret input_name in
  let! pow2 := fresh input_name "_pow2" in
  let! _ := float_step u pow2 dt input_shape (macro qnn "QNN_OP_ELEMENT_WISE_MULTIPLY") (macro qnn "QNN_OP_ELEMENT_WISE_MULTIPLY")
    [input_name; input_name] [] v in
  let! sum := fresh input_name "_sum" in
  let! _ := float_step u sum dt output_shape (macro qnn "QNN_OP_REDUCE_SUM") (macro qnn "QNN_OP_REDUCE_SUM") [pow2] params v in
  let is_graph_output := IsGraphOutput env (name o) in
  let! sqrt := if is_quantized_input then fresh (name o) "_f32" else ret (name o) in
  let! _ := add_tensor env sqrt (native_or (negb is_quantized_input && is_graph_output) TENSOR_TYPE_APP_READ) dt default_wrapper
    output_shape [] "AddTensorWrapper failed" in
  let! node := fresh_unit u (macro qnn "QNN_OP_ELEMENT_WISE_SQUARE_ROOT") in
  let! _ := create_node env node (macro qnn "QNN_OP_ELEMENT_WISE_SQUARE_ROOT") [sum] [sqrt] [] v "CreateQnnNode failed" in
  if is_quantized_input then
    let! final_dt := lift (GetQnnDataType (bool_decide (is_Some (quant_param o))) (type o) (backend_type env)) in
    let! q := lift (Init_io env graph default_wrapper o) in
    let! _ := add_tensor env (name o) (native_or is_graph_output TENSOR_TYPE_APP_READ) final_dt q output_shape []
      "AddTensorWrapper failed" in
    let! node := fresh_unit u "_quant_out" in
    create_node env node (macro qnn "QNN_OP_QUANTIZE") [sqrt] [name o] [] v "Failed to add quantize node"
  else ret tt.

(** The shape of a reduction that keeps the dimensions. *)
Definition kept_shape (input_shape axes_set : list Z) : result (list Z) :=
  foldM (fun kept ax =>
    let* _ := return_if_not ((0 <=? ax) && (ax <? Z.of_nat (length input_shape))) "QNN EP: ReduceLogSumExp axis out of range." in
    aset kept (Z.to_nat ax) 1) axes_set input_shape.

(** ReduceLogSumExp, relative to the maximum. *)
Definition Reduce_LogSumExp (u : UnitView) (axes_set : list Z) (axes_param : string) (keepdims : bool) (input_names : list string)
  (v : bool) : M unit :=
  let! i := lift (input u 0) in
  let! o := lift (output u 0) in
  let! input_shape := lift (shape_or i "Cannot get input shape.") in
  let! output_shape := lift (shape_or o "Cannot get output shape.") in
  let! dt := lift (GetQnnDataType false (type o) CPU) in
  let! input_name := lift (aget input_names 0) in
  let! kept := lift (kept_shape input_shape axes_set) in
  let! inner := fresh_unit u "_inner" in
  let! kd := AddQnnScalar (u_index u) inner (SCALAR_BOOL_8 true) (macro qnn "QNN_OP_REDUCE_MAX_PARAM_KEEP_DIMS") [] in
  let op n := macro qnn n in
  let! max := fresh input_name "_max" in
  let! _ := float_step u max dt kept (op "QNN_OP_REDUCE_MAX") (op "QNN_OP_REDUCE_MAX") [input_name] (axes_param :: kd) v in
  let! sub := fresh input_name "_normalized" in
  let! _ := float_step u sub dt input_shape (op "QNN_OP_ELEMENT_WISE_SUBTRACT") (op "QNN_OP_ELEMENT_WISE_SUBTRACT")
    [input_name; max] [] v in
  let! exp := fresh input_name "_exp" in
  let! _ := float_step u exp dt input_shape (op "QNN_OP_ELEMENT_WISE_EXP") (op "QNN_OP_ELEMENT_WISE_EXP") [sub] [] v in
  let! sum := fresh input_name "_sum" in
  let! _ := float_step u sum dt kept (op "QNN_OP_REDUCE_SUM") (op "QNN_OP_REDUCE_SUM") [exp] (axes_param :: kd) v in
  let! log := fresh input_name "_log" in
  let! _ := float_step u log dt kept (op "QNN_OP_ELEMENT_WISE_LOG") (op "QNN_OP_ELEMENT_WISE_LOG") [sum] [] v in
  let! add := if keepdims then ret (name o) else fresh input_name "_kept" in
  let is_graph_output := IsGraphOutput env (name o) in
  let! _ := add_tensor env add (native_or (keepdims && is_graph_output) TENSOR_TYPE_APP_READ) dt default_wrapper kept []
    "AddTensorWrapper failed" in
  let! node := fresh_unit u (op "QNN_OP_ELEMENT_WISE_ADD") in
  let! _ := create_node env node (op "QNN_OP_ELEMENT_WISE_ADD") [log; max] [add] [] v "CreateQnnNode failed" in
  if keepdims then ret tt
  else
    let! _ := add_tensor env (name o) (native_or is_graph_output TENSOR_TYPE_APP_READ) dt default_wrapper output_shape []
      "AddTensorWrapper failed" in
    let! node := fresh_unit u (op "QNN_OP_RESHAPE") in
    create_node env node (op "QNN_OP_RESHAPE") [add] [name o] [] v "CreateQnnNode failed".

Definition Reduce_ProcessAttributesAndOutputs (u : UnitView) (input_names : list string) (v : bool) : M unit :=
  let! axes_set := lift (GetAxesSet u) in
  let! n := lift (Pad.safe_u32 (Z.of_nat (length axes_set))) in
  let! axes_data := lift (mapM_res Pad.safe_u32 axes_set) in
  let! axes_param := add_u32_param env (u_index u) (u_name u) (macro qnn "QNN_OP_REDUCE_MAX_PARAM_AXES") [n] axes_data in
  let! onnx_keepdims := lift (Get_int32 (attr_int (u_attributes u) "keepdims") 1) in
  let keepdims := negb (onnx_keepdims =? 0) in
  if bool_decide (u_op_type u = "ReduceLogSumExp") then Reduce_LogSumExp u axes_set axes_param keepdims input_names v
  else
  let! ps := scalar u (SCALAR_BOOL_8 keepdims) "QNN_OP_REDUCE_MAX_PARAM_KEEP_DIMS" [axes_param] in
  if bool_decide (u_op_type u = "ReduceL2") then Reduce_L2 u input_names ps v
  else finish_node env graph qnn base_virtuals u input_names ps v.

Definition ReduceOpBuilder : OpBuilder := Builder base_virtuals (first_input env graph) Reduce_ProcessAttributesAndOutputs.

(** ** Transpose *)

Definition IsFoldedStaticTensor (m : QnnModelWrapper) (n : string) : result bool :=
  match model_tensors_map_ m !! n with
  | None => Ok false
  | Some w => let* t := GetTensorType w in Ok (bool_decide (t = TENSOR_TYPE_STATIC))
  end.

Definition sub_byte_kind (t : ONNXTensorElementDataType) : sub_byte_type :=
  match t with ONNX_INT4 => SB_INT4 | ONNX_INT2 => SB_INT2 | _ => SB_OTHER end.

Definition GetConstantOrFoldedBytes (m : QnnModelWrapper) (n : string) : result (list Z) :=
  if IsConstantInput env n then
    match GetConstantTensor graph n with
    | None => Err (EpFail "Constant initializer not found for tensor.")
    | Some init =>
        let* bytes := UnpackInitializerData graph (Some init) true in
        let* t := elem_type_of graph (Some init) in
        Ok (SignExtendUnpackedSubByteData (sub_byte_kind t) bytes)
    end
  else
  let* folded := IsFoldedStaticTensor m n in
  let* _ := return_if (negb folded) "Tensor is not a constant initializer or folded static tensor." in
  let* w := GetQnnTensorWrapper m n in
  let* buf := GetQnnTensorClientBuf (qnn_tensor_ w) in
  match data buf with
  | PNull => let* _ := return_if (negb (dataSize buf =? 0)) "Folded static tensor has null data." in Ok []
  | PBuf bytes => copy_n (Z.to_nat (dataSize buf)) (Some bytes)
  | _ => Err Trap
  end.

Definition GetTransposePerm (u : UnitView) : result (list nat) :=
  let* i := input u 0 in
  let* input_shape := shape_or i "Cannot get shape" in
  let rank := length input_shape in
  let perm := default (Z.of_nat <$> rev (seq 0 rank)) (attr_ints (u_attributes u) "perm") in
  let* perm := mapM_res Pad.safe_u32 perm in
  Ok (Z.to_nat <$> perm).

Definition kFoldedStaticMaxBytes : nat := 1024 * 1024.

(** The strides of the input and the number of elements. *)
Definition fold_strides (input_shape : list Z) : result (list Z * Z) :=
  let rank := length input_shape in
  let* last := aget input_shape (rank - 1) in
  foldM (fun '(strides, num_elems) i =>
    let* s := aget strides (S i) in
    let* d := aget input_shape (S i) in
    let* strides := aset strides i (u64 (s * d)) in
    let* e := aget input_shape i in
    Ok (strides, u64 (num_elems * e))) (rev (seq 0 (rank - 1))) (replicate rank 1, last).

Definition source_element (index strides : list Z) (perm : list nat) (rank : nat) : result Z :=
  foldM (fun in_elem d =>
    let* x := aget index d in
    let* p := aget perm d in
    let* s := aget strides p in
    Ok (u64 (in_elem + x * s))) (seq 0 rank) 0.

(** The next multi-index, [ds] being the dimensions from the last to the first. *)
Fixpoint next_index (output_shape : list Z) (ds : list nat) (index : list Z) : result (list Z) :=
  match ds with
  | [] => Ok index
  | d :: ds =>
      let* x := aget index d in
      let x := u32 (x + 1) in
      let* s := aget output_shape d in
      if x <? s then aset index d x
      else let* index := aset index d 0 in next_index output_shape ds index
  end.

Definition copy_element (elem_size : nat) (input_bytes : list Z) (in_elem : Z) : result (list Z) :=
  if ((Z.to_nat in_elem + 1) * elem_size <=? length input_bytes)%nat
  then Ok (element elem_size input_bytes (Z.to_nat in_elem)) else Err Trap.

(** The output is filled from the front. *)
Definition transposed_bytes (input_bytes input_shape output_shape strides : list Z) (perm : list nat) (elem_size num_elems : nat)
  : result (list Z) :=
  let rank := length input_shape in
  let* st := foldM (fun '(index, out) _ =>
    let* in_elem := source_element index strides perm rank in
    let* e := copy_element elem_size input_bytes in_elem in
    let* index := next_index output_shape (rev (seq 0 rank)) index in
    Ok (index, out ++ e)) (seq 0 num_elems) (replicate rank 0, []) in
  Ok st.2.

(** The folded constant: its bytes, shape and quantization parameters. *)
Definition folded_transpose (w : QnnTensorWrapper) (perm : result (list nat)) (input_bytes : result (list Z))
  : result (Qnn_DataType_t * QnnQuantParamsWrapper * list Z * list Z) :=
  let* data_type := GetTensorDataType w in
  let* _ := return_if (bool_decide (data_type ∈ [QNN_SFIXED_POINT_4; QNN_UFIXED_POINT_4])) "Unsupported folded Transpose data type." in
  let* elem_size := GetElementSizeByType_qnn data_type in
  let* perm := perm in
  let input_shape := dimensions_ w in
  let rank := length input_shape in
  let* _ := return_if_not ((0 <? rank)%nat && (length perm =? rank)%nat) "Transpose perm rank mismatch." in
  let* perm_inv := InvertPerm perm (replicate rank 0%nat) in
  let* _ := foldM (fun _ d =>
    let* j := aget perm_inv d in
    let* p := aget perm j in
    return_if (negb (p =? d)%nat) "Transpose perm is not a permutation.") (seq 0 rank) tt in
  let* output_shape := PermuteShape input_shape perm (replicate rank 0) in
  let* (strides, num_elems) := fold_strides input_shape in
  let* input_bytes := input_bytes in
  let* expected := safe_mul num_elems elem_size in
  let* _ := return_if (negb (Z.of_nat (length input_bytes) =? expected)) "Folded Transpose input byte size mismatch with shape." in
  let* _ := return_if (kFoldedStaticMaxBytes <? length input_bytes)%nat "Folded Transpose input too large to fold." in
  let* output_bytes := transposed_bytes input_bytes input_shape output_shape strides perm (Z.to_nat elem_size) (Z.to_nat num_elems) in
  let* q := Copy (quant_params_ w) in
  let* q := HandleTranspose q (Z.of_nat <$> perm_inv) in
  Ok (data_type, q, output_shape, output_bytes).

Definition TryFoldConstantTranspose (u : UnitView) (input_name : string) : M unit :=
  let! o := lift (output u 0) in
  let! exists_ := get (fun m => IsQnnTensorWrapperExist m (name o)) in
  let! _ := lift (return_if exists_ "Transpose output is already registered.") in
  let! found := get (fun m => GetQnnTensorWrapper m input_name) in
  let! w := lift found in
  let! input_bytes := get (fun m => GetConstantOrFoldedBytes m input_name) in
  let! (dt, q, shape, data) := lift (folded_transpose w (GetTransposePerm u) input_bytes) in
  add_tensor env (name o) TENSOR_TYPE_STATIC dt q shape data "Failed to add folded Transpose output tensor.".

(** A failing status is only logged. *)
Definition attempt (c : M unit) : M bool := fun m =>
  match c m with
  | Err e => Err e
  | Ok (m, inl _) => Ok (m, inr false)
  | Ok (m, inr _) => Ok (m, inr true)
  end.

(** The node, after folding was not possible.  With a 64-bit output the shape has been moved to the
    tensor for the cast, and the output is left without one. *)
Definition Transpose_node (u : UnitView) (o : OrtNodeUnitIODef) (perm : list nat) (input_names : list string) (v : bool) : M unit :=
  let is_graph_output := IsGraphOutput env (name o) in
  let needs_int64_cast := is_graph_output && existsb (contains "_cast_int32") input_names in
  let! output_info := lift (tensor_info o) in
  let! output_shape := lift (shape_or o "Cannot get shape") in
  let! input_name := lift (aget input_names 0) in
  let! found := get (fun m => GetQnnTensorWrapper m input_name) in
  let! w := lift found in
  let! dt := lift (GetTensorDataType w) in
  let! i := lift (input u 0) in
  let! workaround :=
    if negb needs_int64_cast && negb (IsPerChannel (quant_params_ w)) then
      lift (let* s := shape_or i "Cannot get shape" in rmap (pair s) (NeedsHtpTransposeReshapeWorkaround s perm output_shape))
    else ret ([], false) in
  if workaround.2 then
    AddReshapeNode_same env qnn input_name (name o) workaround.1 output_shape dt (quant_params_ w) v
      (IsGraphInput env input_name) is_graph_output
  else
  let! p := add_u32_param env (u_index u) (u_name u) (macro qnn "QNN_OP_TRANSPOSE_PARAM_PERM")
    [u32 (Z.of_nat (length perm))] (Z.of_nat <$> perm) in
  let! casts :=
    if needs_int64_cast then
      let! node := fresh_unit u "_cast_int64" in
      let! cast_input := fresh (name o) "_cast_int64" in
      let! q := lift (Copy (info_quant_param output_info)) in
      let! _ := add_tensor env cast_input TENSOR_TYPE_NATIVE (info_data_type output_info) q output_shape [] "Failed to add tensor." in
      ret [CastInfo node cast_input (name o)]
    else ret [] in
  let! q := lift (Copy (quant_params_ w)) in
  let! _ := add_tensor env (name o) (output_tensor_type env (name o)) dt q (if needs_int64_cast then [] else output_shape) []
    "Failed to add tensor." in
  let! node := fresh_unit u "" in
  let! _ := create_node env node (macro qnn "QNN_OP_TRANSPOSE") input_names [name o] [p] v "Failed to add node." in
  each casts (fun _ c =>
    create_node env (cast_node_name c) (QNN_OP_CAST env) [cast_input_name c] [cast_output_name c] [] false
      " Failed to add Cast node") tt.

Definition Transpose_ProcessAttributesAndOutputs (u : UnitView) (input_names : list string) (v : bool) : M unit :=
  match input_names with
  | [] => ret tt
  | input_name :: _ =>
      let! o := lift (output u 0) in
      let! is_static := get (fun m => IsFoldedStaticTensor m input_name) in
      let! folded :=
        if v then ret false
        else
          let! is_static := lift is_static in
          if is_static && negb (IsGraphOutput env (name o)) then attempt (TryFoldConstantTranspose u input_name) else ret false in
      if folded : bool then ret tt
      else
        let! perm := lift (GetTransposePerm u) in
        Transpose_node u o perm input_names v
  end.

Definition TransposeOpBuilder : OpBuilder := Builder base_virtuals (base_ProcessInputs env graph) Transpose_ProcessAttributesAndOutputs.

(** ** Split *)

(** The indices that the operator gives; none stands for equal parts. *)
Definition Split_given (u : UnitView) : result (list Z) :=
  if (1 <? length (Inputs u))%nat then
    let* i := input u 1 in
    if IsConstantInput env (name i) then
      let* bytes := UnpackInitializerData graph (GetConstantTensor graph (name i)) true in
      Split.ConvertSplitLengthsToSplitIndices (int64_elements bytes)
    else Err (EpFail "QNN doesn't support dynamic split")
  else
  match attr_ints (u_attributes u) "split" with
  | Some split_lengths => Split.ConvertSplitLengthsToSplitIndices split_lengths
  | None => Ok []
  end.

Definition Split_equal (u : UnitView) (axis_value : Z) : result (list Z) :=
  let* i := input u 0 in
  let* input_shape := shape_or i "Cannot get shape" in
  let* _ := return_if_not (axis_value <? Z.of_nat (length input_shape)) "axis not valid!" in
  let* d := aget input_shape (Z.to_nat axis_value) in
  let* _ := return_if_not (0 <? d) "Shape value not valid!" in
  Split.equal_split d (length (Outputs u)).

Definition Split_ProcessAttributesAndOutputs (u : UnitView) (input_names : list string) (v : bool) : M unit :=
  let! axis := lift (GetCanonicalizedAxisAttribute u "axis" 0) in
  let axis_value := u32 axis in
  let! ps := scalar u (SCALAR_UINT_32 axis_value) "QNN_OP_SPLIT_PARAM_AXIS" [] in
  let! given := lift (Split_given u) in
  if bool_decide (given = []) && (length (Outputs u) =? 1)%nat then
    let! i := lift (aget input_names 0) in
    let! o := lift (output u 0) in
    AddNoopReshapeNode env graph qnn (u_name u) i o v
  else
  let! split_index := lift (match given with [] => Split_equal u axis_value | _ => Ok given end) in
  let! p := add_u32_param env (u_index u) (u_name u) (macro qnn "QNN_OP_SPLIT_PARAM_SPLIT_INDEX")
    [u32 (Z.of_nat (length split_index))] split_index in
  finish_node env graph qnn with_override_like_input0 u input_names (ps ++ [p]) v.

Definition SplitOpBuilder : OpBuilder := Builder with_override_like_input0 (first_input env graph) Split_ProcessAttributesAndOutputs.

(** ** Slice *)

Definition GetInitializerInputData (i : OrtNodeUnitIODef) : result (list Z) :=
  let* _ := return_if_not (IsConstantInput env (name i)) ("Expected input " +:+ name i +:+ " to be an initializer.") in
  let* init := FindInitializer graph (name i) in
  let* bytes := UnpackInitializerData graph (Some init) true in
  match type i with
  | ONNX_INT64 => copy_int64 bytes
  | ONNX_INT32 => reinterpret int32_t bytes
  | _ => Err (EpFail "Data type is not supported for Slice initializer input")
  end.

(** An optional input. *)
Definition optional_input_data (u : UnitView) (i : nat) : result (list Z) :=
  match Inputs u !! i with
  | Some d => if Exists_ d then GetInitializerInputData d else Ok []
  | None => Ok []
  end.

Record SliceParams := RawSlice { raw_starts : list Z; raw_ends : list Z; raw_axes : list Z; raw_steps : list Z; slice_dims : list Z }.

Definition ExtractSliceParams (u : UnitView) : result SliceParams :=
  let* (starts, ends, axes, steps) :=
    if u_since_version u <? 10 then
      let attr n := attr_ints (u_attributes u) n in
      Ok (default [0] (attr "starts"), default [0] (attr "ends"), default [] (attr "axes"), [])
    else
      let* s := input u 1 in
      let* starts := GetInitializerInputData s in
      let* e := input u 2 in
      let* ends := GetInitializerInputData e in
      let* axes := optional_input_data u 3 in
      let* steps := optional_input_data u 4 in
      Ok (starts, ends, axes, steps) in
  let* i := input u 0 in
  let* dims := shape_or i "Cannot get shape for Slice input 0." in
  Ok (RawSlice starts ends axes steps dims).

(** The target node has one output, whose only consumer is a Concat. *)
Definition CanElideZeroDimOutput (u : UnitView) : result bool :=
  let* o := output u 0 in
  if IsGraphOutput env (name o) then Ok false
  else Ok (bool_decide (consumers graph (u_index u) = [[Some "Concat"]])).

Definition slice_metadata (p : SliceParams) : result Slice.PrepareForComputeMetadata :=
  Slice.PrepareForComputeHelper (raw_starts p) (raw_ends p) (raw_axes p) (raw_steps p) (slice_dims p).

(** The metadata of a Slice and whether no node is built for it. *)
Definition slice_decision (u : UnitView) : result (SliceParams * Slice.PrepareForComputeMetadata * bool) :=
  let* p := ExtractSliceParams u in
  let* m := slice_metadata p in
  let is_htp := bool_decide (backend_type env = HTP) in
  let* can_elide := if is_htp && existsb (Z.eqb 0) (Slice.output_dims_ m) then CanElideZeroDimOutput u else Ok false in
  let* should_elide := Slice.ComputeSliceZeroDimDecision is_htp can_elide m in
  Ok (p, m, should_elide).

Definition Slice_ExplicitOpCheck (u : UnitView) : result unit :=
  return_if (existsb (fun i => Exists_ i && negb (IsConstantInput env (name i))) (drop 1 (Inputs u))) "QNN doesn't support dynamic slice.".

(** Booleans travel as 8-bit integers on the HTP backend. *)
Definition needs_bool_cast (u : UnitView) : result bool :=
  let* i := input u 0 in Ok (bool_decide (backend_type env = HTP) && bool_decide (type i = ONNX_BOOL)).

Definition bool_input_cast (u : UnitView) (input_names : list string) (v : bool) : M (list string) :=
  let! i := lift (input u 0) in
  let! input0 := lift (aget input_names 0) in
  let! info := lift (tensor_info i) in
  let! out := fresh input0 "_bool_to_u8" in
  let! exists_ := get (fun m => IsQnnTensorWrapperExist m out) in
  let! _ :=
    if exists_ : bool then ret tt
    else
      let! node := fresh input0 (QNN_OP_CAST env) in
      AddCastNode env node input0 out TENSOR_TYPE_NATIVE QNN_UFIXED_POINT_8 (PerTensor (f32_of_Z 1) 0) (info_shape info) v in
  ret (<[0%nat := out]> input_names).

(** The node on 8-bit integers, and the cast back. *)
Definition bool_node (u : UnitView) (o : OrtNodeUnitIODef) (input_names params : list string) (v : bool) : M unit :=
  let! output_shape := lift (shape_or o "Cannot get shape") in
  let! out := fresh (name o) "_u8_to_bool_in" in
  let! _ := add_tensor env out TENSOR_TYPE_NATIVE QNN_UFIXED_POINT_8 (PerTensor (f32_of_Z 1) 0) output_shape [] "Failed to add tensor." in
  let! node := fresh_unit u "" in
  let! op := lift (GetQnnOpType qnn (u_op_type u)) in
  let! _ := create_node env node op input_names [out] params v "Failed to add node." in
  let! info := lift (tensor_info o) in
  let! cast := fresh (name o) "_u8_to_bool" in
  let! q := lift (Copy (info_quant_param info)) in
  AddCastNode env cast out (name o) (output_tensor_type env (name o)) (info_data_type info) q output_shape v.

Definition Slice_ProcessInputs (u : UnitView) (v : bool) : M (list string) :=
  let! _ := lift (if v then Slice_ExplicitOpCheck u else Ok tt) in
  let! (_, _, should_elide) := lift (slice_decision u) in
  if should_elide : bool then ret []
  else
  let! i := lift (input u 0) in
  let! names := ProcessInput env graph i [] in
  let! cast := lift (needs_bool_cast u) in
  if cast : bool then bool_input_cast u names v else ret names.

Definition add_i32_param (index : nat) (node_name name : string) (shape data : list Z) : M string :=
  let! p := lift (make_u32_param (tensor_init env) index node_name name shape data true) in
  let! _ := perform (fun m => AddParamWrapper m p) in
  ret (pw_tensor_name_ p).

Definition Slice_ProcessAttributesAndOutputs (u : UnitView) (input_names : list string) (v : bool) : M unit :=
  let! (raw, m, should_elide) := lift (slice_decision u) in
  if should_elide : bool then ret tt
  else
  let input_rank := length (slice_dims raw) in
  let! data := lift (Slice.ranges_data m input_rank) in
  let! p := add_i32_param (u_index u) (u_name u) (macro qnn "QNN_OP_STRIDED_SLICE_PARAM_RANGES") [u32 (Z.of_nat input_rank); 3] data in
  let! cast := lift (needs_bool_cast u) in
  if negb cast then finish_node env graph qnn base_virtuals u input_names [p] v
  else
    let! o := lift (output u 0) in
    bool_node u o input_names [p] v.

Definition SliceOpBuilder : OpBuilder := Builder base_virtuals Slice_ProcessInputs Slice_ProcessAttributesAndOutputs.

(** ** Gather and GatherElements *)

Definition Gather_IsOpSupported (u : UnitView) : result unit :=
  if bool_decide (backend_type env = CPU) && bool_decide (u_op_type u = "GatherElements") then
    let* i := input u 0 in
    let* input0_shape := shape_or i "Cannot get input[0] shape for " in
    return_if_not ((1 <? length input0_shape) && (length input0_shape <=? 4))%nat "QNN CPU backend does not support input[0] of this rank"
  else Ok tt.

Definition GetInput0AxisDimValue (u : UnitView) (default_axis_value : Z) : result Z :=
  let* i := input u 0 in
  let* input0_shape := shape_or i "Cannot get shape for input[0]" in
  let rank := Z.of_nat (length input0_shape) in
  let onnx_axis := Get_int64 u "axis" default_axis_value in
  let onnx_axis := if onnx_axis <? 0 then onnx_axis + rank else onnx_axis in
  let* _ := return_if_not ((0 <=? onnx_axis) && (onnx_axis <? rank)) "QNN requires axis range [0, rank-1] for " in
  aget input0_shape (Z.to_nat onnx_axis).

(** The tensor of the indices, cast at run time when they are 64-bit. *)
Definition AddNormalizedIndicesTensor (info : TensorInfo) (n : string) (bytes : list Z) (input_names : list string) (v : bool)
  : M (list string) :=
  let! exists_ := get (fun m => IsQnnTensorWrapperExist m n) in
  let! _ :=
    if exists_ : bool then ret tt
    else add_tensor env n (if info_is_initializer info then TENSOR_TYPE_STATIC else TensorTypeOf env n) (info_data_type info)
           default_wrapper (info_shape info) bytes "Failed to add tensor." in
  let! found := get (fun m => GetQnnTensorWrapper m n) in
  let! w := lift found in
  let! dt := lift (GetTensorDataType w) in
  if bool_decide (dt = QNN_INT_64) then
    let casted := n +:+ "_int32" in
    let! node := fresh n (QNN_OP_CAST env) in
    let! _ := AddCastNode env node n casted TENSOR_TYPE_NATIVE QNN_INT_32 default_wrapper (info_shape info) v in
    ret (input_names ++ [casted])
  else ret (input_names ++ [n]).

(** Constant indices as [int32_t], with whether one was negative. *)
Definition static_indices (info : TensorInfo) (axis_dim : nat → Z) (msg : string) : result (Qnn_DataType_t * list Z * bool) :=
  let* bytes := UnpackInitializerData graph (info_initializer info) true in
  let normalized size :=
    match Indices.NormalizeIndicesBytes size bytes axis_dim false with
    | (Some b, neg) => Ok (QNN_INT_32, b, neg)
    | (None, _) => Err (EpFail msg)
    end in
  match info_data_type info with
  | QNN_INT_64 => normalized 8%nat
  | QNN_INT_32 => normalized 4%nat
  | dt => Ok (dt, bytes, false)
  end.

Definition with_data_type (info : TensorInfo) (dt : Qnn_DataType_t) : TensorInfo :=
  Info (info_shape info) dt (info_quant_param info) (info_is_initializer info) (info_initializer info).

Definition ProcessIndicesInput (indices_input : OrtNodeUnitIODef) (gather_input0_name : string) (input0_axis_dim : Z)
  (input_names : list string) (v : bool) : M (list string) :=
  let! info := lift (tensor_info indices_input) in
  let! (dt, bytes, has_negative_indices) :=
    lift (if info_is_initializer info then static_indices info (fun _ => input0_axis_dim) "QNN does not support out-of-range index values for Gather* ops"
          else Ok (info_data_type info, [], false)) in
  let n :=
    if info_is_initializer info && has_negative_indices
    then name indices_input +:+ "_neg2pos_axis" +:+ pretty input0_axis_dim +:+ "_" +:+ gather_input0_name
    else name indices_input in
  AddNormalizedIndicesTensor (with_data_type info dt) n bytes input_names v.

Definition Gather_ProcessInputs (u : UnitView) (v : bool) : M (list string) :=
  let! _ := lift (return_if (negb (length (Inputs u) =? 2)%nat) ("QNN EP: " +:+ u_op_type u +:+ " operator must have two inputs")) in
  let! i := lift (input u 0) in
  let! names := ProcessInput env graph i [] in
  let! cast := lift (needs_bool_cast u) in
  let! names := if cast : bool then bool_input_cast u names v else ret names in
  let! input0_axis_dim := lift (GetInput0AxisDimValue u 0) in
  let! indices := lift (input u 1) in
  let! input0 := lift (aget names 0) in
  ProcessIndicesInput indices input0 input0_axis_dim names v.

(** The shape of the QNN output: the axis is replaced by the shape of the indices. *)
Definition gather_shape (dims indices : list Z) (axis : Z) : result (list Z) :=
  if (length dims <=? Z.to_nat axis)%nat then Err Trap
  else Ok (take (Z.to_nat axis) dims ++ indices ++ drop (S (Z.to_nat axis)) dims).

(** Gather, a Reshape when the rank of the output differs, and the casts back. *)
Definition Gather_node (u : UnitView) (o : OrtNodeUnitIODef) (axis : Z) (cast : bool) (input_names params : list string) (v : bool)
  : M unit :=
  let! input0 := lift (aget input_names 0) in
  let! found := get (fun m => GetQnnTensorWrapper m input0) in
  let! w := lift found in
  let! input1 := lift (aget input_names 1) in
  let! found := get (fun m => GetQnnTensorWrapper m input1) in
  let! wi := lift found in
  let! pre_shape := lift (gather_shape (dimensions_ w) (dimensions_ wi) (u32 axis)) in
  let! quant := lift (Init_io env graph default_wrapper o) in
  let! dt := lift (GetQnnDataType (IsQuantized quant) (type o) CPU) in
  let! quant :=
    if negb cast && IsPerTensor quant false then SetOutputQParamEqualToInputIfNearlyEqual input_names 0 dt quant else ret quant in
  let! final_shape := lift (shape_or o "Cannot get shape") in
  let is_graph_output := IsGraphOutput env (name o) in
  let reshape_required := negb (length pre_shape =? length final_shape)%nat in
  let! info := lift (tensor_info o) in
  let int64_cast := is_graph_output && negb cast &&
    existsb (fun n => contains "_cast_int32" n || contains "_int64_to_int32" n) input_names in
  let! bool_in := if cast then fresh (name o) "_u8_to_bool_in" else ret "" in
  let! (int64_node, int64_in) :=
    if int64_cast then
      let! node := fresh_unit u "_int32_to_int64" in
      let! t := fresh (name o) "_int32_to_int64_in" in
      let! q := lift (Copy (info_quant_param info)) in
      let! _ := add_tensor env t TENSOR_TYPE_NATIVE (info_data_type info) q pre_shape [] "Failed to add tensor." in
      ret (node, t)
    else ret ("", "") in
  let! out :=
    if reshape_required then fresh (name o) "_reshape"
    else ret (if cast then bool_in else if int64_cast then int64_in else name o) in
  let! gather_quant := lift (Copy quant) in
  let gather_dt := if cast then QNN_UFIXED_POINT_8 else dt in
  let gather_quant := if cast then PerTensor (f32_of_Z 1) 0 else gather_quant in
  let last := is_graph_output && negb cast && negb int64_cast in
  let! q := lift (Copy gather_quant) in
  let! _ := add_tensor env out (native_or (negb reshape_required && last) TENSOR_TYPE_APP_READ) gather_dt q pre_shape []
    "Failed to add tensor." in
  let! node := fresh_unit u "" in
  let! op := lift (GetQnnOpType qnn (u_op_type u)) in
  let! _ := create_node env node op input_names [out] params v "Failed to add node." in
  let! _ :=
    if reshape_required then
      let reshape_out := if int64_cast then int64_in else if cast then bool_in else name o in
      let! q := lift (Copy gather_quant) in
      let! _ := add_tensor env reshape_out (native_or last TENSOR_TYPE_APP_READ) gather_dt q final_shape [] "Failed to add tensor." in
      let! node := fresh_unit u (macro qnn "QNN_OP_RESHAPE") in
      create_node env node (macro qnn "QNN_OP_RESHAPE") [out] [reshape_out] [] v "Failed to add node."
    else ret tt in
  let! _ :=
    if cast then
      let! node := fresh (name o) "_u8_to_bool" in
      let! q := lift (Copy (info_quant_param info)) in
      AddCastNode env node bool_in (name o) (output_tensor_type env (name o)) (info_data_type info) q final_shape v
    else ret tt in
  if int64_cast then
    let! q := lift (Copy quant) in
    AddCastNode env int64_node int64_in (name o) (output_tensor_type env (name o)) dt q final_shape v
  else ret tt.

Definition Gather_ProcessAttributesAndOutputs (u : UnitView) (input_names : list string) (v : bool) : M unit :=
  let is_gather_elems := bool_decide (u_op_type u = "GatherElements") in
  let! cast := lift (needs_bool_cast u) in
  let! axis := lift (GetCanonicalizedAxisAttribute u "axis" 0) in
  let! ps :=
    if is_gather_elems then scalar u (SCALAR_UINT_32 (u32 axis)) "QNN_OP_GATHER_ELEMENTS_PARAM_AXIS" []
    else scalar u (SCALAR_INT_32 axis) "QNN_OP_GATHER_PARAM_AXIS" [] in
  if is_gather_elems && negb cast then finish_node env graph qnn base_virtuals u input_names ps v
  else
  let! o := lift (output u 0) in
  if is_gather_elems then bool_node u o input_names ps v
  else Gather_node u o axis cast input_names ps v.

Definition GatherOpBuilder : OpBuilder := Builder base_virtuals Gather_ProcessInputs Gather_ProcessAttributesAndOutputs.

End MoveBuilders.

(** ** The builders keep the laws *)

Section MoveLaws.
Context `{SafeInt} `{QnnInterface}.
Context (env : environment) (graph : OrtGraph) (qnn : QnnHeaders).

Lemma wp_float_step u out dt s l op ins ps v Q m : Forall (has m) ins → Forall (has_param m) ps →
  (∀ m', grows m m' → has m' out → (v = false → Forall (provided m') [out]) → Q tt m') →
  wp (float_step env u out dt s l op ins ps v) Q m.
Proof.
  intros Hi Hp HQ. eapply (wp_use (fun _ m' => has m' out ∧ (v = false → Forall (provided m') [out]))); [|by intros [] ? ? []; auto].
  unfold float_step. op_auto.
Qed.

Lemma wp_CreateSoftmaxOutputNodes u ins ps o dt q s b op v Q m : Forall (has m) ins → Forall (has_param m) ps →
  (∀ m', grows m m' → has m' o → (v = false → Forall (provided m') [o]) → Q tt m') →
  wp (CreateSoftmaxOutputNodes env qnn u ins ps o dt q s b op v) Q m.
Proof.
  intros Hi Hp HQ. eapply (wp_use (fun _ m' => has m' o ∧ (v = false → Forall (provided m') [o]))); [|by intros [] ? ? []; auto].
  unfold CreateSoftmaxOutputNodes. op_auto.
Qed.

Lemma wp_attempt c (Q : unit → QnnModelWrapper → Prop) R m : wp c Q m →
  (∀ (b : bool) m', grows m m' → (b = true → Q tt m') → R b m') → wp (attempt c) R m.
Proof.
  intros Hw HR Hc. specialize (Hw Hc). unfold attempt. destruct (c m) as [[m1 [msg|[]]]|]; [| |done].
  - destruct Hw as (? & Hg & _). split_and!; [done|done|]. by apply HR.
  - destruct Hw as (? & Hg & ?). split_and!; [done|done|]. by apply HR.
Qed.

Lemma wp_add_i32_param i nn n s d Q m :
  (∀ m' p, grows m m' → has_param m' p → Q p m') → wp (add_i32_param env i nn n s d) Q m.
Proof.
  intros HQ. apply wp_bind, wp_lift. intros p E _. apply wp_bind, wp_perform. intros ok m' Ep.
  apply make_param_name in E. destruct (add_param_step _ _ _ _ Ep) as (Hg & Ho & _ & _ & _ & Hh & Hne).
  split_and!; [done|by apply closed_same_ops|]. intros _. apply wp_ret, HQ; [done|]. apply Hh, Hne.
  rewrite E. apply param_name_ne.
Qed.

End MoveLaws.

Ltac mv_step :=
  known_names;
  lazymatch goal with
  | |- wp (float_step _ _ _ _ _ _ _ _ _ _) _ _ =>
      apply wp_float_step; [side|side|let Hg := fresh "Hg" in intros ? Hg ? ?; advance Hg]
  | |- wp (CreateSoftmaxOutputNodes _ _ _ _ _ _ _ _ _ _ _ _) _ _ =>
      apply wp_CreateSoftmaxOutputNodes; [side|side|let Hg := fresh "Hg" in intros ? Hg ? ?; advance Hg]
  | |- wp (add_i32_param _ _ _ _ _ _) _ _ => apply wp_add_i32_param; let Hg := fresh "Hg" in intros ? ? Hg ?; advance Hg
  | |- wp (first_input _ _ _ _) _ _ => apply wp_first_input; let Hg := fresh "Hg" in intros ? ? Hg ? ?; advance Hg
  | |- wp (each [] _ _) _ _ => cbn [each]
  | |- wp (each (_ :: _) _ _) _ _ => cbn [each]
  | |- _ => op_step
  end; cbv beta.
Ltac mv_until_if := repeat lazymatch goal with |- wp (if _ then _ else _) _ _ => fail | |- _ => mv_step end.
Ltac mv_auto := repeat mv_step; try solve [written_outputs | some_inputs | finish].

Section MoveLaws2.
Context `{SafeInt} `{QnnInterface}.
Context (env : environment) (graph : OrtGraph) (qnn : QnnHeaders).

#[export] Instance Softmax_laws : builder_laws (SoftmaxOpBuilder env graph qnn) one_output.
Proof.
  split; intros; cbn [ProcessInputs ProcessAttributesAndOutputs SoftmaxOpBuilder].
  - unfold Softmax_ProcessInputs. mv_auto.
  - unfold Softmax_ProcessAttributesAndOutputs. mv_auto.
Qed.

Lemma wp_Reduce_L2 u names ps v m : Forall (has m) names → Forall (has_param m) ps →
  wp (Reduce_L2 env graph qnn u names ps v) 
    (fun _ m' => v = false → names ≠ [] → one_output u → Forall (provided m') (required_outputs u)) m.
Proof.
  intros Hn Hp. unfold Reduce_L2. mv_auto.
Qed.


Lemma wp_Reduce_LogSumExp u axes p kd names v m : Forall (has m) names → has_param m p →
  wp (Reduce_LogSumExp env qnn u axes p kd names v) 
    (fun _ m' => v = false → names ≠ [] → one_output u → Forall (provided m') (required_outputs u)) m.
Proof. intros Hn Hp. unfold Reduce_LogSumExp. mv_auto. Qed.

#[export] Instance Reduce_laws : builder_laws (ReduceOpBuilder env graph qnn) one_output.
Proof.
  split; intros; cbn [ProcessInputs ProcessAttributesAndOutputs ReduceOpBuilder].
  - mv_auto.
  - unfold Reduce_ProcessAttributesAndOutputs. repeat first [apply wp_Reduce_LogSumExp | apply wp_Reduce_L2 | mv_step]; mv_auto.
Qed.

#[export] Instance Split_laws : builder_laws (SplitOpBuilder env graph qnn) any_unit.
Proof.
  split; intros; cbn [ProcessInputs ProcessAttributesAndOutputs SplitOpBuilder].
  - mv_auto.
  - unfold Split_ProcessAttributesAndOutputs. mv_auto. intros Hv _ _.
    match goal with Hb : _ && _ = true |- _ => apply andb_prop in Hb as [_ L%Nat.eqb_eq] end.
    match goal with Ho : aget (Outputs _) _ = Ok _, Hw : _ → Forall _ _ |- _ =>
      eapply single_output; [by apply aget_Ok|done|by eapply Forall_inv, Hw] end.
Qed.


(** The kind of a new tensor is that of its wrapper. *)
Lemma make_tensor_type init nan n ty dt q s d mt w : make_tensor init nan n ty dt q s d mt = Ok w → GetTensorType w = Ok ty.
Proof.
  unfold make_tensor, GetTensorType. destruct (narrowed _ _ _ _) as [dt' d']. intros E. destruct (copy_construct q) as [q'|]; [|done].
  destruct init; [destruct ty; by injection E as <-..|done].
Qed.

Lemma added_type m w m' : AddTensorWrapper env m w = Ok (true, m') → model_tensors_map_ m !! tensor_name_ w = None →
  ∃ w', model_tensors_map_ m' !! tensor_name_ w = Some w' ∧ GetTensorType w' = GetTensorType w.
Proof.
  unfold AddTensorWrapper, IsQnnTensorWrapperExist. intros E Hn. rewrite Hn in E. case_bool_decide; [done|].
  rewrite bool_decide_false in E by (by intros []). inv_bind E. inv_bind E. destruct a0 as [w' o]. injection E as <-.
  exists w'. cbn. rewrite lookup_insert_eq. split; [done|]. unfold SetTensorMemTypeFromSettings in E0. inv_bind E0. injection E0 as <-.
  unfold move_construct, SwapOther in E1. unfold GetTensorType, GetQnnTensorType. destruct (qnn_tensor_ w); [..|done];
    injection E2 as <-; by injection E1 as <- _.
Qed.

(** A constant that is added under a new name. *)
Lemma wp_add_constant n dt q s d msg Q m : model_tensors_map_ m !! n = None →
  (∀ m', grows m m' → provided m' n → Q tt m') → wp (add_tensor env n TENSOR_TYPE_STATIC dt q s d msg) Q m.
Proof.
  intros Hn HQ. apply wp_bind, wp_lift. intros w E _. apply wp_require. intros ok m' Ea.
  destruct (add_tensor_step env _ _ _ _ Ea) as (Hg & Ho & _). split_and!; [done|by apply closed_same_ops|]. intros ->.
  apply HQ; [done|]. apply make_tensor_name in E as En. rewrite <- En in Hn |- *.
  destruct (added_type _ _ _ Ea Hn) as (w' & Hw & Et). apply make_tensor_type in E. Transparent provided. right. Opaque provided.
  exists w'. by rewrite Et.
Qed.

Lemma wp_TryFold u n m : wp (TryFoldConstantTranspose env graph u n)
  (fun _ m' => one_output u → Forall (provided m') (required_outputs u)) m.
Proof.
  unfold TryFoldConstantTranspose. do 6 mv_step. wp_step. wp_step. intros _.
  match goal with E : return_if _ _ = Ok _ |- _ => apply return_if_Ok, bool_decide_eq_false, eq_None_not_Some in E as Hn end.
  repeat lazymatch goal with |- wp (add_tensor _ _ _ _ _ _ _ _) _ _ => fail | _ => mv_step end. apply wp_add_constant; [done|]. intros m' _ Hp Ho. eapply single_output; [by apply aget_Ok|done|done].
Qed.

Lemma wp_Transpose_node u o perm names v m : aget (Outputs u) 0 = Ok o → Forall (has m) names →
  wp (Transpose_node env graph qnn u o perm names v)
    (fun _ m' => v = false → names ≠ [] → one_output u → Forall (provided m') (required_outputs u)) m.
Proof.
  intros Eo Hn. unfold Transpose_node. mv_auto.
Qed.

#[export] Instance Transpose_laws : builder_laws (TransposeOpBuilder env graph qnn) one_output.
Proof.
  split; intros; cbn [ProcessInputs ProcessAttributesAndOutputs TransposeOpBuilder].
  - apply wp_base_ProcessInputs.
  - unfold Transpose_ProcessAttributesAndOutputs. destruct names as [|n names]; [mv_auto|]. do 6 mv_step. wp_step.
    eapply (wp_use (fun (b : bool) m' => b = true → one_output u → Forall (provided m') (required_outputs u))).
    { destruct v; [by apply wp_ret|]. do 3 mv_step. mv_step; [|by apply wp_ret].
      eapply wp_attempt; [apply wp_TryFold|]. auto. }
    intros folded m1 Hg Hf. advance Hg. do 2 mv_step; [apply wp_ret; auto|]. do 3 mv_step. by apply wp_Transpose_node.
Qed.

Lemma wp_bool_input_cast u names v Q m : Forall (has m) names →
  (∀ m' r, grows m m' → Forall (has m') r → length r = length names → Q r m') → wp (bool_input_cast env graph u names v) Q m.
Proof.
  intros Hn HQ. eapply (wp_use (fun r m' => Forall (has m') r ∧ length r = length names)); [|by intros ? ? ? []; auto].
  unfold bool_input_cast. mv_until_if.
  match goal with |- wp (if ?b then _ else _) _ _ => destruct b eqn:Ex end.
  - apply exists_has in Ex. mv_auto. rewrite length_insert. split; [by apply insert_has|done].
  - mv_auto. rewrite length_insert. split; [by apply insert_has|done].
Qed.

Lemma wp_bool_node u o names ps v Q m : Forall (has m) names → Forall (has_param m) ps →
  (∀ m', grows m m' → Q tt m') → wp (bool_node env graph qnn u o names ps v) Q m.
Proof. intros Hn Hp HQ. eapply (wp_use (fun _ _ => True)); [|by intros []; auto]. unfold bool_node. mv_auto. Qed.

Lemma wp_AddNormalizedIndicesTensor info n bytes names v Q m : Forall (has m) names →
  (∀ m' r, grows m m' → Forall (has m') r → r ≠ [] → Q r m') →
  wp (AddNormalizedIndicesTensor env info n bytes names v) Q m.
Proof.
  intros Hn HQ. eapply (wp_use (fun r m' => Forall (has m') r ∧ r ≠ [])); [|by intros ? ? ? []; auto].
  assert (∀ x : string, names ++ [x] ≠ []) as Hne by (by intros ? [_ ?]%app_nil).
  unfold AddNormalizedIndicesTensor. mv_until_if.
  match goal with |- wp (if ?b then _ else _) _ _ => destruct b eqn:Ex end.
  - apply exists_has in Ex. mv_auto.
  - mv_auto.
Qed.

(** The outputs that a builder of this file writes itself: the Slice is not left out, and no
    Cast, which is left out when its output is in the table, comes last. *)
Definition slice_built (u : UnitView) : Prop :=
  one_output u ∧ (∀ p d e, slice_decision env graph u = Ok (p, d, e) → e = false) ∧ needs_bool_cast env u ≠ Ok true.
Definition gather_built (u : UnitView) : Prop :=
  one_output u ∧ needs_bool_cast env u ≠ Ok true ∧ (∀ o, aget (Outputs u) 0 = Ok o → IsGraphOutput env (name o) = false).

#[export] Instance Slice_laws : builder_laws (SliceOpBuilder env graph qnn) slice_built.
Proof.
  split; intros; cbn [ProcessInputs ProcessAttributesAndOutputs SliceOpBuilder].
  - unfold Slice_ProcessInputs. mv_until_if. destruct b.
    + mv_step. split; [constructor|]. intros _ (_ & Hb & _). by specialize (Hb _ _ _ E0).
    + mv_until_if. match goal with |- wp (if ?c then _ else _) _ _ => destruct c end; [|mv_auto].
      apply wp_bool_input_cast; [done|]. intros m2 r _ Hr Hl. split; [done|]. intros _ _ ->. by rewrite length_app in Hl.
  - unfold Slice_ProcessAttributesAndOutputs. mv_until_if. destruct b.
    + mv_step. intros _ _ (_ & Hb & _). by specialize (Hb _ _ _ E).
    + mv_until_if. match goal with Ec : needs_bool_cast _ _ = Ok ?c |- _ => destruct c end; cbn [negb].
      * do 3 mv_step. apply wp_bool_node; [done|solve_names|]. intros m3 _ _ _ (_ & _ & Hc). done.
      * mv_auto.
Qed.

Lemma wp_Gather_node u o axis cast names ps v m : aget (Outputs u) 0 = Ok o → Forall (has m) names → Forall (has_param m) ps →
  needs_bool_cast env u = Ok cast →
  wp (Gather_node env graph qnn u o axis cast names ps v)
    (fun _ m' => v = false → names ≠ [] → gather_built u → Forall (provided m') (required_outputs u)) m.
Proof.
  intros Eo Hn Hp Hcast. unfold Gather_node. mv_until_if.
  match goal with |- wp (if ?c then _ else _) _ _ => eapply (wp_use (fun _ _ => True)); [destruct c; [by apply wp_SetOutputQParam|by apply wp_ret]|] end.
  intros q m1 Hg1 _ _. advance Hg1. mv_until_if.
  destruct cast.
  - destruct (IsGraphOutput env (name o)); cbn [andb negb]; mv_auto; intros _ _ (_ & Hc & _); done.
  - destruct (IsGraphOutput env (name o)) eqn:Hgo; cbn [andb negb].
    + destruct (existsb _ _); cbn [andb negb]; mv_auto; intros _ _ (_ & _ & Hg'); by rewrite (Hg' o Eo) in Hgo.
    + mv_auto; intros Hv _ (Ho & _ & _); (eapply single_output; [by apply aget_Ok|done|]);
        match goal with Hw : _ → Forall _ [name o] |- _ => by eapply Forall_inv, Hw end.
Qed.

#[export] Instance Gather_laws : builder_laws (GatherOpBuilder env graph qnn) gather_built.
Proof.
  split; intros; cbn [ProcessInputs ProcessAttributesAndOutputs GatherOpBuilder].
  - unfold Gather_ProcessInputs. mv_until_if.
    match goal with |- wp (if ?c then _ else _) _ _ => eapply (wp_use (fun r m' => Forall (has m') r)); [destruct c|] end.
    { apply wp_bool_input_cast; auto. }
    { by apply wp_ret. }
    intros names m1 _ Hn. mv_step. do 9 mv_step. unfold ProcessIndicesInput. repeat lazymatch goal with |- wp (AddNormalizedIndicesTensor _ _ _ _ _ _) _ _ => fail | _ => mv_step end.
    apply wp_AddNormalizedIndicesTensor; [done|]. auto.
  - unfold Gather_ProcessAttributesAndOutputs. mv_until_if. destruct (bool_decide (u_op_type u = "GatherElements")); cbn [andb].
    + mv_until_if. match goal with Ec : needs_bool_cast _ _ = Ok ?c |- _ => destruct c end; cbn [negb].
      * do 3 mv_step. apply wp_bool_node; [done|done|]. intros m3 _ _ _ (_ & Hc & _). done.
      * mv_auto.
    + repeat lazymatch goal with |- wp (Gather_node _ _ _ _ _ _ _ _ _ _) _ _ => fail | _ => mv_step end. by apply wp_Gather_node.
Qed.

End MoveLaws2.
