(* ===== verification/Folding.v ===== *)
(** * Constant folding of Transpose

    [TryFoldConstantTranspose] ([builder/opbuilder/transpose_op_builder.cc]) moves the bytes of a
    constant instead of adding a node.  It walks the output with an odometer and reads the input
    through its strides; the theorem says that the bytes it makes are those that the Transpose
    node would make, that shape and quantization axis follow, and that it succeeds whenever the
    permutation is one. *)

From S2P Require Import Prelude DataTypes QuantParams Perm Layout QnnTensor Quantize OpParams ModelWrapper TensorInfo ModelOps MoveBuilders.
Local Open Scope Z_scope.

(** ** Positions and multi-indices *)

(** The multi-index of a row-major position. *)
Fixpoint unflat (shape : list Z) (k : Z) : list (Z * Z) :=
  match shape with
  | [] => []
  | d :: shape => (d, k / prodZ shape) :: unflat shape (k mod prodZ shape)
  end.

Lemma unflat_spec shape k : Forall (Z.lt 0) shape → 0 ≤ k < prodZ shape → address shape (unflat shape k) ∧ flat (unflat shape k) = k.
Proof.
  intros Hp. revert k. induction Hp as [|d shape Hd Hp IH]; intros k Hk.
  { unfold prodZ in Hk. cbn in *. split; [by split|lia]. }
  pose proof (prodZ_pos _ Hp) as Hs. rewrite prodZ_cons in Hk. cbn [unflat].
  destruct (IH (k mod prodZ shape)) as [Ha Hf]; [apply Z.mod_pos_bound; lia|]. split.
  - apply address_cons. eexists _, _. split; [done|]. split; [|done]. split; [apply Z.div_pos; lia|]. apply Z.div_lt_upper_bound; lia.
  - rewrite flat_cons, Hf. destruct Ha as [-> _]. pose proof (Z.div_mod k (prodZ shape)). lia.
Qed.

Lemma unflat_flat shape l : Forall (Z.lt 0) shape → address shape l → unflat shape (flat l) = l.
Proof.
  intros Hp Ha. assert (0 ≤ flat l < prodZ shape) as Hb. { destruct Ha as [<- Hb]. by apply flat_bounds. }
  destruct (unflat_spec shape _ Hp Hb) as [Ha' Hf]. by eapply flat_inj.
Qed.

(** An address has positive dimensions. *)
Lemma address_pos shape l : address shape l → Forall (Z.lt 0) shape.
Proof. intros [<- Hb]. induction Hb as [|[d i] l [? ?] Hb IH]; cbn in *; constructor; [lia|done]. Qed.

(** ** The odometer *)

Lemma lookup_middle_ {A} (l1 : list A) x l2 : (l1 ++ x :: l2) !! length l1 = Some x.
Proof. by apply list_lookup_middle. Qed.

Lemma flat_snoc l d i : flat (l ++ [(d, i)]) = flat l * d + i.
Proof. rewrite flat_app. unfold prodZ. cbn. lia. Qed.

Lemma rev_seq_S n : rev (seq 0 (S n)) = n :: rev (seq 0 n).
Proof. by rewrite seq_S, rev_app_distr. Qed.

(** The digits of [a] are advanced, those behind them are zero. *)
Lemma next_index_gen (a z : list (Z * Z)) : Forall in_bounds a → Forall (fun d => d < 2 ^ 32) a.*1 →
  ∃ a', a'.*1 = a.*1 ∧ Forall in_bounds a' ∧
    next_index (a.*1 ++ z.*1) (rev (seq 0 (length a))) (a.*2 ++ (replicate (length z) 0)) = Ok (a'.*2 ++ replicate (length z) 0) ∧
    (flat a + 1 < prodZ a.*1 → flat a' = flat a + 1).
Proof.
  revert z. induction a as [|[d i] a IH] using rev_ind; intros z Hb Hd.
  { exists []. split_and!; [done|done|done|]. unfold prodZ. cbn. lia. }
  apply Forall_app in Hb as [Hb Hi]. apply Forall_inv in Hi as [Hi1 Hi2]. cbn in Hi1, Hi2.
  rewrite fmap_app in Hd. apply Forall_app in Hd as [Hd Hd']. apply Forall_inv in Hd'.
  rewrite !fmap_app, length_app. cbn [length fmap list_fmap fst snd]. rewrite Nat.add_1_r, rev_seq_S. cbn [next_index].
  rewrite <- !app_assoc. cbn [app].
  rewrite (proj2 (aget_Ok (a.*2 ++ i :: _) (length a) i)) by (rewrite <- (length_fmap snd a); apply lookup_middle_).
  cbn [rbind]. rewrite (proj2 (aget_Ok (a.*1 ++ d :: _) (length a) d)) by (rewrite <- (length_fmap fst a); apply lookup_middle_).
  cbn [rbind]. cbn in Hd'. rewrite (wrapu_id 32) by (red; lia).
  assert (∀ x, aset (a.*2 ++ i :: replicate (length z) 0) (length a) x = Ok (a.*2 ++ x :: replicate (length z) 0)) as Hset.
  { intros x. rewrite aset_lt by (rewrite length_app, length_fmap; cbn; lia). f_equal.
    rewrite <- (length_fmap snd a) at 1. by rewrite <- (Nat.add_0_r (length a.*2)), insert_app_r. }
  rewrite flat_snoc, prodZ_app. unfold prodZ at 2. cbn [foldr]. destruct (Z.ltb_spec (i + 1) d) as [Hlt|Hge].
  - exists (a ++ [(d, i + 1)]). rewrite !fmap_app. cbn [fmap list_fmap fst snd]. rewrite Hset, <- app_assoc. split_and!; [done| |done|].
    + apply Forall_app. split; [done|]. constructor; [|done]. split; cbn; lia.
    + intros _. rewrite flat_snoc. lia.
  - assert (i + 1 = d) as <- by lia. rewrite Hset. cbn [rbind].
    destruct (IH ((i + 1, 0) :: z) Hb Hd) as (a' & E1 & Hb' & En & Hf). cbn [fmap list_fmap fst snd length replicate] in En.
    exists (a' ++ [(i + 1, 0)]). rewrite !fmap_app. cbn [fmap list_fmap fst snd]. rewrite <- app_assoc, E1. split_and!; [done| |exact En|].
    + apply Forall_app. split; [done|]. constructor; [|done]. split; cbn; lia.
    + intros Hlt. rewrite flat_snoc, Hf; [lia|]. nia.
Qed.

Lemma next_index_spec shape k : Forall (fun d => 0 < d < 2 ^ 32) shape → 0 ≤ k < prodZ shape →
  ∃ index, next_index shape (rev (seq 0 (length shape))) (unflat shape k).*2 = Ok index ∧
    (k + 1 < prodZ shape → index = (unflat shape (k + 1)).*2).
Proof.
  intros Hs Hk. assert (Forall (Z.lt 0) shape) as Hp by (eapply Forall_impl; [exact Hs|]; intros d Hd; cbn in Hd; lia).
  destruct (unflat_spec shape k Hp Hk) as [[E Hb] Hf].
  destruct (next_index_gen (unflat shape k) [] Hb) as (a' & E' & Hb' & En & Hnext).
  { rewrite E. eapply Forall_impl; [exact Hs|]. intros d Hd; cbn in Hd; lia. }
  cbn [fmap list_fmap length replicate] in En. rewrite E, !app_nil_r in En.
  assert (length (unflat shape k) = length shape) as El by (rewrite <- (length_fmap fst), E; done). rewrite El in En.
  exists a'.*2. split; [done|]. intros Hk1. rewrite E, Hf in Hnext. f_equal. rewrite <- Hnext by done. symmetry.
  apply unflat_flat; [done|]. by split; [rewrite E', E|].
Qed.

(** ** Strides *)

Fixpoint strides_of (shape : list Z) : list Z :=
  match shape with
  | [] => []
  | _ :: shape => prodZ shape :: strides_of shape
  end.

Lemma strides_length shape : length (strides_of shape) = length shape.
Proof. induction shape as [|d shape IH]; [done|]. cbn. by rewrite IH. Qed.

Lemma strides_lookup shape i : (i < length shape)%nat → strides_of shape !! i = Some (prodZ (drop (S i) shape)).
Proof.
  revert i. induction shape as [|d shape IH]; intros [|i] Hi; cbn in Hi; [lia|lia|done|].
  cbn [strides_of lookup list_lookup drop skipn]. apply IH. lia.
Qed.

Lemma prodZ_drop shape i : Forall (Z.lt 0) shape → 0 < prodZ (drop i shape) ≤ prodZ shape.
Proof.
  intros Hp. split; [by apply prodZ_pos, Forall_drop|].
  rewrite <- (take_drop i shape) at 2. rewrite prodZ_app.
  pose proof (prodZ_pos _ (Forall_take _ i _ Hp)). pose proof (prodZ_pos _ (Forall_drop _ i _ Hp)). nia.
Qed.

Lemma fold_strides_spec shape : Forall (Z.lt 0) shape → prodZ shape < 2 ^ 64 → shape ≠ [] →
  fold_strides shape = Ok (strides_of shape, prodZ shape).
Proof.
  intros Hp Hs Hne. assert (0 < length shape)%nat as Hl by (destruct shape; cbn; [done|lia]).
  set (body := fun '(strides, num_elems) i =>
    let* s := aget strides (S i) in
    let* d := aget shape (S i) in
    let* strides := aset strides i (u64 (s * d)) in
    let* e := aget shape i in
    Ok (strides, u64 (num_elems * e))).
  assert (∀ j, (j < length shape)%nat →
    foldM body (rev (seq 0 j)) (replicate j 1 ++ drop j (strides_of shape), prodZ (drop j shape)) = Ok (strides_of shape, prodZ shape)) as Hloop.
  { induction j as [|j IH]; intros Hj; [done|]. rewrite rev_seq_S. cbn [foldM]. rewrite <- IH by lia. match goal with |- rbind ?b _ = _ => enough (b = Ok (replicate j 1 ++ drop j (strides_of shape), prodZ (drop j shape))) as -> by done end.
    unfold body.
    destruct (lookup_lt_is_Some_2 shape (S j) Hj) as [d Hd]. destruct (lookup_lt_is_Some_2 shape j) as [e He]; [lia|].
    rewrite (proj2 (aget_Ok (replicate (S j) 1 ++ _) (S j) (prodZ (drop (S (S j)) shape)))).
    2:{ rewrite lookup_app_r by (rewrite length_replicate; lia). rewrite length_replicate, Nat.sub_diag, lookup_drop, Nat.add_0_r.
        by apply strides_lookup. }
    cbn [rbind]. rewrite (proj2 (aget_Ok _ _ _) Hd). cbn [rbind].
    rewrite aset_lt by (rewrite length_app, length_replicate; lia). cbn [rbind].
    rewrite (proj2 (aget_Ok _ _ _) He). cbn [rbind].
    pose proof (drop_S _ _ _ Hd) as Ed. pose proof (drop_S _ _ _ He) as Ee.
    assert (prodZ (drop (S (S j)) shape) * d = prodZ (drop (S j) shape)) as -> by (rewrite Ed, prodZ_cons; lia).
    assert (prodZ (drop (S j) shape) * e = prodZ (drop j shape)) as -> by (rewrite Ee, prodZ_cons; lia).
    pose proof (prodZ_drop shape (S j) Hp). pose proof (prodZ_drop shape j Hp).
    rewrite !(wrapu_id 64) by (red; lia). do 2 f_equal.
    rewrite (drop_S (strides_of shape) (prodZ (drop (S j) shape)) j) by (apply strides_lookup; lia).
    rewrite replicate_S_end, <- app_assoc. cbn [app].
    rewrite insert_app_r_alt by (rewrite length_replicate; lia). by rewrite length_replicate, Nat.sub_diag. }
  unfold fold_strides. destruct (lookup_lt_is_Some_2 shape (length shape - 1)) as [l Hlast]; [lia|].
  rewrite (proj2 (aget_Ok _ _ _) Hlast). cbn [rbind]. rewrite <- (Hloop (length shape - 1)%nat) by lia. fold body.
  do 2 f_equal.
  - rewrite (drop_S (strides_of shape) 1 (length shape - 1)).
    + rewrite drop_ge by (rewrite strides_length; lia). rewrite <- replicate_S_end. f_equal. lia.
    + rewrite strides_lookup by lia. rewrite drop_ge by lia. done.
  - rewrite (drop_S _ _ _ Hlast), drop_ge, prodZ_cons by lia. unfold prodZ. cbn. lia.
Qed.

(** ** The element that is read *)

Lemma flat_strides l : flat l = IndexSpec.sumZ (zip_with Z.mul l.*2 (strides_of l.*1)).
Proof.
  induction l as [|[d i] l IH]; [done|]. rewrite flat_cons, IH. cbn [fmap list_fmap fst snd strides_of zip_with]. done.
Qed.

Lemma sumZ_perm l l' : l ≡ₚ l' → IndexSpec.sumZ l = IndexSpec.sumZ l'.
Proof. unfold IndexSpec.sumZ. induction 1; cbn; lia. Qed.

Lemma foldM_sum {X} (f : X → result Z) (g : X → Z) xs a : (∀ x, x ∈ xs → f x = Ok (g x)) →
  foldM (fun a x => let* t := f x in Ok (u64 (a + t))) xs (u64 a) = Ok (u64 (a + IndexSpec.sumZ (g <$> xs))).
Proof.
  revert a. induction xs as [|x xs IH]; intros a Hf.
  { cbn. by rewrite Z.add_0_r. }
  cbn [foldM]. rewrite Hf by (apply elem_of_cons; auto). cbn [rbind].
  assert (u64 (u64 a + g x) = u64 (a + g x)) as -> by (unfold wrapu; by rewrite Zplus_mod_idemp_l).
  rewrite IH by (intros y Hy; apply Hf, elem_of_cons; auto). do 2 f_equal. unfold IndexSpec.sumZ. cbn. lia.
Qed.

Lemma perm_range {A} (l : list A) perm : is_perm perm → length perm = length l → ∀ p, p ∈ perm → (p < length l)%nat.
Proof. intros Hp Hl p Hin. apply list_elem_of_lookup in Hin as [i Hi]. rewrite <- Hl. by eapply is_perm_lt. Qed.

Lemma permuted_perm {A} (l : list A) perm : is_perm perm → length perm = length l → permuted l perm ≡ₚ l.
Proof.
  intros Hp Hl. rewrite <- (permuted_seq l) at 2. unfold permuted, is_perm in *. rewrite Hl in Hp. by rewrite Hp.
Qed.

Lemma source_element_spec shape l perm : address shape l → prodZ shape < 2 ^ 64 → is_perm perm → length perm = length shape →
  source_element (permuted l perm).*2 (strides_of shape) perm (length shape) = Ok (flat l).
Proof.
  intros Ha Hs Hp Hlen. pose proof (address_length _ _ Ha) as Hll. pose proof Ha as [E Hb].
  set (terms := zip_with Z.mul l.*2 (strides_of shape)).
  assert (length terms = length shape) as Hlt by (unfold terms; rewrite length_zip_with, length_fmap, strides_length; lia).
  destruct (permuted_lookup terms perm) as [Htl Htk]; [apply perm_range; [done|lia]|].
  destruct (permuted_lookup l perm) as [Hpl Hpk]; [apply perm_range; [done|lia]|].
  unfold source_element. rewrite (foldM_ext _ (fun a d => let* t := aget (permuted terms perm) d in Ok (u64 (a + t)))).
  2:{ intros a d Hd. apply elem_of_seq in Hd. destruct (lookup_lt_is_Some_2 perm d) as [p Hpd]; [lia|].
      pose proof (is_perm_lt _ _ _ Hp Hpd). destruct (lookup_lt_is_Some_2 l p) as [[n x] Hx]; [lia|].
      destruct (lookup_lt_is_Some_2 (strides_of shape) p) as [s Hst]; [rewrite strides_length; lia|].
      rewrite (proj2 (aget_Ok _ _ x)) by (by rewrite list_lookup_fmap, (Hpk _ _ Hpd), Hx). cbn [rbind].
      rewrite (proj2 (aget_Ok _ _ _) Hpd). cbn [rbind]. rewrite (proj2 (aget_Ok _ _ _) Hst). cbn [rbind].
      rewrite (proj2 (aget_Ok _ _ (x * s))); [done|]. rewrite (Htk _ _ Hpd). unfold terms. apply lookup_zip_with_Some.
      exists x, s. by rewrite list_lookup_fmap, Hx. }
  change (foldM _ (seq 0 (length shape)) 0) with
    (foldM (fun a d => let* t := aget (permuted terms perm) d in Ok (u64 (a + t))) (seq 0 (length shape)) (u64 0)).
  rewrite (foldM_sum _ (fun d => default 0 (permuted terms perm !! d))).
  2:{ intros d Hd. apply elem_of_seq in Hd. destruct (lookup_lt_is_Some_2 (permuted terms perm) d) as [t Ht]; [lia|].
      rewrite Ht. by apply aget_Ok. }
  rewrite (list_eq (_ <$> seq 0 (length shape)) (permuted terms perm)).
  - rewrite (sumZ_perm _ terms) by (apply permuted_perm; [done|lia]). unfold terms. rewrite <- E, <- flat_strides.
    pose proof (flat_bounds l Hb) as Hf. rewrite E in Hf. rewrite wrapu_id by (red; lia). done.
  - intros d. rewrite list_lookup_fmap. destruct (decide (d < length shape)%nat) as [Hd|Hd].
    + rewrite lookup_seq_lt by done. cbn. destruct (lookup_lt_is_Some_2 (permuted terms perm) d) as [t Ht]; [lia|]. by rewrite Ht.
    + rewrite !lookup_ge_None_2 by (rewrite ?length_seq; lia). done.
Qed.

#[export] Instance prodZ_Permutation : Proper ((≡ₚ) ==> (=)) prodZ.
Proof. intros l l' H. unfold prodZ. induction H; cbn; lia. Qed.

(** ** The loop over the output *)
Section Loop.
  Context (shape : list Z) (perm inv : list nat) (es : nat) (bytes : list Z).
  Hypotheses (Hshape : Forall (fun d => 0 < d < 2 ^ 32) shape) (Hsize : prodZ shape < 2 ^ 64).
  Hypotheses (Hperm : is_perm perm) (Hinv : inverse_of perm inv) (Hlen : length perm = length shape).
  Hypothesis Hbytes : length bytes = (Z.to_nat (prodZ shape) * es)%nat.

Local Abbreviation out_shape := (permuted shape perm).

Lemma out_shape_facts : length out_shape = length shape ∧ prodZ out_shape = prodZ shape ∧ Forall (fun d => 0 < d < 2 ^ 32) out_shape.
Proof.
  pose proof (permuted_perm shape perm Hperm Hlen) as HP. split_and!; by rewrite HP.
Qed.

(** Every output address is that of an input address. *)
Lemma source_address l' : address out_shape l' → address shape (permuted l' inv) ∧ permuted (permuted l' inv) perm = l'.
Proof.
  destruct (inverse_of_perm _ _ Hperm Hinv) as [Hpi Hback]. intros Ha. pose proof (address_length _ _ Ha) as Hl'. destruct Ha as [E Hb].
  assert (length inv = length l') as Hil.
  { destruct Hinv as [-> _]. rewrite Hl'. destruct (permuted_lookup shape perm) as [-> _]; [by apply perm_range|done]. }
  split.
  - split.
    + rewrite <- permuted_fmap, E. by apply permuted_inverse.
    + by rewrite (permuted_perm l' inv Hpi Hil).
  - by apply permuted_inverse.
Qed.

(** The input element at output position [k]. *)
Definition source (k : nat) : list Z := element es bytes (Z.to_nat (flat (permuted (unflat out_shape (Z.of_nat k)) inv))).

Lemma source_bounds k : Z.of_nat k < prodZ shape →
  address out_shape (unflat out_shape (Z.of_nat k)) ∧
  (Z.to_nat (flat (permuted (unflat out_shape (Z.of_nat k)) inv)) < Z.to_nat (prodZ shape))%nat.
Proof.
  destruct out_shape_facts as (_ & Ep & Hf). intros Hk.
  destruct (unflat_spec out_shape (Z.of_nat k)) as [Ha _]; [eapply Forall_impl; [exact Hf|]; intros d Hd; cbn in Hd; lia|lia|].
  split; [done|]. destruct (source_address _ Ha) as [[E Hb] _]. pose proof (flat_bounds _ Hb) as Hfb. rewrite E in Hfb. lia.
Qed.

Lemma source_length k : Z.of_nat k < prodZ shape → length (source k) = es.
Proof.
  intros Hk. destruct (source_bounds k Hk) as [_ Hb]. unfold source, element. rewrite length_take, length_drop, Hbytes. nia.
Qed.

Lemma loop_step k out : Z.of_nat k < prodZ shape →
  ∃ index, (let* in_elem := source_element (unflat out_shape (Z.of_nat k)).*2 (strides_of shape) perm (length shape) in
    let* e := copy_element es bytes in_elem in
    let* index := next_index out_shape (rev (seq 0 (length shape))) (unflat out_shape (Z.of_nat k)).*2 in
    Ok (index, out ++ e)) = Ok (index, out ++ source k) ∧
    (Z.of_nat (S k) < prodZ shape → index = (unflat out_shape (Z.of_nat (S k))).*2).
Proof.
  intros Hk. destruct (source_bounds k Hk) as [Ha Hb]. destruct (source_address _ Ha) as [Ha' Ep].
  destruct out_shape_facts as (El & Epr & Hf). pose proof (source_element_spec shape _ perm Ha' Hsize Hperm Hlen) as Es. rewrite Ep in Es. rewrite Es. cbn [rbind].
  unfold copy_element. rewrite (proj2 (Nat.leb_le _ _)) by (rewrite Hbytes; nia). cbn [rbind].
  destruct (next_index_spec out_shape (Z.of_nat k) Hf) as (index & En & Hn); [lia|]. rewrite El in En. rewrite En. cbn [rbind].
  exists index. split; [done|]. intros Hk1. replace (Z.of_nat (S k)) with (Z.of_nat k + 1) by lia. apply Hn. lia.
Qed.

Lemma transposed_bytes_spec : ∃ out,
  transposed_bytes bytes shape out_shape (strides_of shape) perm es (Z.to_nat (prodZ shape)) = Ok out ∧
  length out = length bytes ∧
  ∀ p q, moves shape perm p q → element es out (Z.to_nat q) = element es bytes (Z.to_nat p).
Proof.
  set (N := Z.to_nat (prodZ shape)). destruct out_shape_facts as (El & Epr & Hf).
  assert (Forall (Z.lt 0) out_shape) as Hpos by (eapply Forall_impl; [exact Hf|]; intros d Hd; cbn in Hd; lia).
  unfold transposed_bytes. match goal with |- context [foldM ?b _ _] => destruct (foldM_total b
    (fun d st => ((length d < N)%nat → st.1 = (unflat out_shape (Z.of_nat (length d))).*2) ∧ st.2 = mjoin (source <$> seq 0 (length d)))
    (seq 0 N) (replicate (length shape) 0, [])) as ([index out] & Hrun & _ & Hout) end.
  - split; [|done]. intros _. cbn [fst length Z.of_nat]. rewrite <- El. clear. induction out_shape as [|d s IH]; [done|].
    cbn [unflat fmap list_fmap length replicate snd]. rewrite IH. cbn [Z.of_nat]. by rewrite Zdiv_0_l, Zmod_0_l.
  - intros d x rest [index out] E [Hi Ho]. cbn [fst snd] in Hi, Ho.
    assert (length d < N)%nat as Hd by (rewrite <- (length_seq N 0), E, length_app; cbn; lia). rewrite (Hi Hd).
    destruct (loop_step (length d) out) as (index' & Es & Hn); [lia|]. eexists. split; [exact Es|].
    rewrite length_app, Nat.add_1_r, seq_S, fmap_app, join_app, Ho. cbn [fst snd]. split; [intros Hd'; apply Hn; lia|].
    cbn. by rewrite app_nil_r.
  - rewrite Hrun. cbn [rbind snd]. cbn [snd] in Hout. rewrite length_seq in Hout. exists out. split; [done|].
    assert (∀ y, y ∈ source <$> seq 0 N → length y = es) as Hy.
    { intros y Hy. apply list_elem_of_fmap in Hy as (k & -> & Hk). apply elem_of_seq in Hk. apply source_length. lia. }
    split.
    + rewrite Hout, Hbytes. fold N. clear -Hy. rewrite <- (length_seq N 0) at 2. rewrite <- (length_fmap source). revert Hy.
      generalize (source <$> seq 0 N) as ls. intros ls. induction ls as [|y ls IH]; intros Hy; [done|]. rewrite join_cons, length_app, IH.
      * rewrite (Hy y) by (apply elem_of_cons; auto). done.
      * intros z Hz. apply Hy, elem_of_cons. auto.
    + intros p q (l & Ha & -> & ->). assert (address out_shape (permuted l perm)) as Ha'.
      { pose proof (address_length _ _ Ha) as Hl. destruct Ha as [E Hb]. split; [by rewrite <- permuted_fmap, E|].
        rewrite (permuted_perm l perm) by (done || lia). done. }
      pose proof Ha' as [E' Hb']. pose proof (flat_bounds _ Hb') as Hfb. rewrite E', Epr in Hfb.
      rewrite Hout, (element_join es _ _ (source (Z.to_nat (flat (permuted l perm))))); [|done|].
      * unfold source. rewrite Z2Nat.id by lia. rewrite unflat_flat by done.
        rewrite permuted_inverse by (done || (rewrite (address_length _ _ Ha); lia)). done.
      * rewrite list_lookup_fmap, lookup_seq_lt by lia. done.
Qed.
End Loop.

(** ** The folded constant *)

Lemma elem_size_range dt es : GetElementSizeByType_qnn dt = Ok es → 1 ≤ es ≤ 8.
Proof. destruct dt; vm_compute; intros [= <-]; split; discriminate. Qed.

(** The check after the inversion passes for permutations only. *)
Lemma inversion_check perm inv rank : is_perm perm → inverse_of perm inv → length perm = rank →
  foldM (fun _ d =>
    let* j := aget inv d in
    let* p := aget perm j in
    return_if (negb (p =? d)%nat) "Transpose perm is not a permutation.") (seq 0 rank) tt = Ok tt.
Proof.
  intros Hp Hinv <-. destruct (inverse_of_perm _ _ Hp Hinv) as [_ [Hl Hback]].
  match goal with |- foldM ?b _ _ = _ => destruct (foldM_total b (fun _ _ => True) (seq 0 (length perm)) tt) as ([] & -> & _) end; [done| |done].
  intros pre d rest [] E _. exists tt. split; [|done].
  assert (d < length perm)%nat as Hd. { assert (d ∈ seq 0 (length perm)) as Hin by (rewrite E; set_solver). apply elem_of_seq in Hin. lia. }
  destruct (lookup_lt_is_Some_2 inv d) as [j Hj]; [lia|].
  rewrite (proj2 (aget_Ok _ _ _) Hj). cbn [rbind]. rewrite (proj2 (aget_Ok _ _ _) (Hback _ _ Hj)). cbn [rbind]. by rewrite Nat.eqb_refl.
Qed.

Lemma inversion_checked perm inv rank : length perm = rank →
  foldM (fun _ d =>
    let* j := aget inv d in
    let* p := aget perm j in
    return_if (negb (p =? d)%nat) "Transpose perm is not a permutation.") (seq 0 rank) tt = Ok tt → is_perm perm.
Proof.
  intros <- Hrun. set (onto := fun (visited : list nat) (_ : unit) => ∀ d, d ∈ visited → d ∈ perm).
  apply (foldM_inv _ onto) in Hrun; unfold onto in *.
  - assert (seq 0 (length perm) ⊆+ perm) as Hsub by (apply NoDup_submseteq; [apply NoDup_seq|exact Hrun]).
    unfold is_perm. symmetry. apply submseteq_length_Permutation; [done|]. by rewrite length_seq.
  - intros d Hd. by apply not_elem_of_nil in Hd.
  - intros visited x s1 s2 Hv Hstep d Hd. apply elem_of_app in Hd as [Hd|Hd]; [by apply Hv|]. apply list_elem_of_singleton in Hd as ->.
    apply bind_Ok in Hstep as (j & Hj & Hstep). apply bind_Ok in Hstep as (p & Hp & Hstep). apply aget_Ok in Hp.
    destruct (Nat.eqb_spec p x) as [<-|]; [|done]. by eapply list_elem_of_lookup_2.
Qed.

(** The quantization axis, when there is one, is a dimension. *)
Definition axis_in_rank (q : QnnQuantParamsWrapper) (rank : nat) : Prop :=
  IsPerChannel q || IsLPBQ q = true →
    match axis_of (quantizationEncoding (params_ q)) with Some axis => 0 ≤ axis < Z.of_nat rank | None => True end.

(** The axis of [q'] is where the permutation puts that of [q]. *)
Definition axis_follows (perm : list nat) (q q' : QnnQuantParamsWrapper) : Prop :=
  if IsPerChannel q || IsLPBQ q then
    match axis_of (quantizationEncoding (params_ q)) with
    | Some axis => ∃ axis', axis_of (quantizationEncoding (params_ q')) = Some (Z.of_nat axis') ∧ perm !! axis' = Some (Z.to_nat axis)
    | None => q' = q
    end
  else q' = q.

Lemma HandleTranspose_follows q perm inv : is_perm perm → inverse_of perm inv → Z.of_nat (length perm) < 2 ^ 31 →
  axis_in_rank q (length perm) → ∃ q', HandleTranspose q (Z.of_nat <$> inv) = Ok q' ∧ axis_follows perm q q'.
Proof.
  intros Hp Hinv Hb Hax. unfold axis_in_rank, axis_follows in *. unfold HandleTranspose. rewrite <- negb_orb.
  destruct (IsPerChannel q || IsLPBQ q) eqn:Eq; cbn [negb]; [|by exists q]. specialize (Hax eq_refl).
  destruct (axis_of _) as [axis|] eqn:Ea; [|by exists q].
  destruct (lookup_lt_is_Some_2 (seq 0 (length perm)) (Z.to_nat axis)) as [d Hd]; [rewrite length_seq; lia|].
  destruct (handle_transpose_axis q (Z.of_nat <$> seq 0 (length perm)) (Z.of_nat <$> seq 0 (length perm)) perm inv (Z.to_nat axis) (Z.of_nat d))
    as (q' & mid & axis' & Hq & _ & Ha' & _ & Hk); rewrite ?length_fmap, ?length_seq; try done.
  - rewrite Ea. f_equal. lia.
  - by rewrite list_lookup_fmap, Hd.
  - exists q'. split; [|by exists axis']. unfold HandleTranspose in Hq. rewrite <- negb_orb, Eq, Ea, length_fmap in Hq. exact Hq.
Qed.

(** C12: folding a Transpose of a constant is equivalent to running it.  For a tensor whose
    elements are whole bytes, with the right number of bytes, at most 1 MiB of them, and a
    quantization axis within the rank, [TryFoldConstantTranspose]'s computation succeeds exactly
    when [perm] is a permutation of the dimensions; the result has the permuted shape and as many
    bytes, each element is where the Transpose moves it, and the quantization axis moves along. *)
Theorem folded_transpose_sound `{SafeInt} (w : QnnTensorWrapper) (dt : Qnn_DataType_t) (es : Z) (perm : list nat) (bytes : list Z) (q : QnnQuantParamsWrapper) :
  GetTensorDataType w = Ok dt → dt ∉ [QNN_SFIXED_POINT_4; QNN_UFIXED_POINT_4] → GetElementSizeByType_qnn dt = Ok es →
  dimensions_ w ≠ [] → Forall (fun d => 0 < d < 2 ^ 32) (dimensions_ w) → Z.of_nat (length (dimensions_ w)) < 2 ^ 31 →
  Z.of_nat (length bytes) = prodZ (dimensions_ w) * es → (length bytes ≤ kFoldedStaticMaxBytes)%nat →
  Copy (quant_params_ w) = Ok q → axis_in_rank q (length (dimensions_ w)) →
  (is_perm perm ∧ length perm = length (dimensions_ w) → ∃ q' out,
    folded_transpose w (Ok perm) (Ok bytes) = Ok (dt, q', permuted (dimensions_ w) perm, out) ∧
    length out = length bytes ∧ axis_follows perm q q' ∧
    ∀ p r, moves (dimensions_ w) perm p r → element (Z.to_nat es) out (Z.to_nat r) = element (Z.to_nat es) bytes (Z.to_nat p)) ∧
  (is_ok (folded_transpose w (Ok perm) (Ok bytes)) = true → is_perm perm ∧ length perm = length (dimensions_ w)).
Proof.
  intros Hdt H4 Hes Hne Hdims Hrank Hbytes Hmax Hq Hax. pose proof (elem_size_range _ _ Hes) as He. split.
  - intros [Hp Hl].
    assert (Forall (Z.lt 0) (dimensions_ w)) as Hpos by (eapply Forall_impl; [exact Hdims|]; intros d Hd; cbn in Hd; lia).
    pose proof (prodZ_pos _ Hpos) as Hpp.
    assert (prodZ (dimensions_ w) * es ≤ 2 ^ 20) as Hsmall by (rewrite <- Hbytes; unfold kFoldedStaticMaxBytes in Hmax; lia).
    assert (prodZ (dimensions_ w) < 2 ^ 64) as Hs by nia.
    destruct (InvertPerm_spec perm (replicate (length (dimensions_ w)) 0%nat) Hp) as (inv & Einv & Hinv); [by rewrite length_replicate|].
    destruct (HandleTranspose_follows q perm inv Hp Hinv) as (q' & Eh & Hf); [lia|by rewrite Hl|].
    destruct (transposed_bytes_spec (dimensions_ w) perm inv (Z.to_nat es) bytes Hdims Hs Hp Hinv Hl) as (out & Eo & Hlo & Hm); [nia|].
    exists q', out. split; [|done]. unfold folded_transpose. rewrite Hdt. cbn [rbind]. rewrite bool_decide_eq_false_2 by done. cbn [return_if rbind].
    rewrite Hes. cbn [rbind]. rewrite Hl, Nat.eqb_refl, (proj2 (Nat.ltb_lt _ _)) by (destruct (dimensions_ w); cbn; [done|lia]).
    cbn [andb return_if_not rbind]. rewrite Einv. cbn [rbind]. rewrite inversion_check by done. cbn [rbind].
    rewrite PermuteShape_spec; [|done|by rewrite length_replicate|by apply perm_range]. cbn [rbind].
    rewrite fold_strides_spec by done. cbn [rbind]. rewrite safe_mul_fits by (red; lia). cbn [rbind].
    rewrite <- Hbytes, Z.eqb_refl. cbn [negb return_if rbind]. rewrite (proj2 (Nat.ltb_ge _ _)) by done. cbn [return_if rbind].
    rewrite Eo. cbn [rbind]. rewrite Hq. cbn [rbind]. rewrite Eh. done.
  - unfold folded_transpose. rewrite Hdt. cbn [rbind]. rewrite bool_decide_eq_false_2 by done. cbn [return_if rbind]. rewrite Hes. cbn [rbind].
    destruct (Nat.eqb_spec (length perm) (length (dimensions_ w))) as [Hl|]; [|by rewrite andb_false_r].
    destruct (InvertPerm perm _) as [inv|] eqn:Ei; [|by destruct (_ && _)]. intros Hok. split; [|done].
    apply (inversion_checked perm inv (length (dimensions_ w)) Hl). destruct (_ && _); [|done]. cbn [return_if return_if_not rbind] in Hok.
    match type of Hok with context [foldM ?b ?l tt] => destruct (foldM b l tt) as [[]|] eqn:Ex end; done.
Qed.

Definition example_folded_input : QnnTensorWrapper :=
  TensorWrapper "w" "" [3; 2] [1; 2; 3; 4; 5; 6]
    (TENSOR_V1 (Body 0 (Some "w") TENSOR_TYPE_STATIC 0 QNN_SFIXED_POINT_8 QNN_QUANTIZE_PARAMS_INIT 2 (Some [3; 2]) TENSORMEMTYPE_RAW
      (ClientBuffer PNull 6))) example_axis_wrapper.

Lemma folded_transpose_sound_witness :
  (∃ q' out, folded_transpose (H := exact_safe_int) example_folded_input (Ok [1; 0]%nat) (Ok [1; 2; 3; 4; 5; 6]) =
      Ok (QNN_SFIXED_POINT_8, q', permuted (dimensions_ example_folded_input) [1; 0]%nat, out) ∧
    length out = 6%nat ∧ axis_follows [1; 0]%nat (Wrapper (params_ example_axis_wrapper) true 0 0 0) q' ∧
    ∀ p r, moves (dimensions_ example_folded_input) [1; 0]%nat p r →
      element (Z.to_nat 1) out (Z.to_nat r) = element (Z.to_nat 1) [1; 2; 3; 4; 5; 6] (Z.to_nat p)) ∧
  is_ok (folded_transpose (H := exact_safe_int) example_folded_input (Ok [1; 1]%nat) (Ok [1; 2; 3; 4; 5; 6])) = false.
Proof.
  split; [|reflexivity].
  apply (proj1 (folded_transpose_sound (H := exact_safe_int) example_folded_input QNN_SFIXED_POINT_8 1 [1; 0]%nat [1; 2; 3; 4; 5; 6]
    (Wrapper (params_ example_axis_wrapper) true 0 0 0) ltac:(reflexivity) ltac:(apply (bool_decide_unpack _); vm_compute; exact I) ltac:(reflexivity)
    ltac:(discriminate) ltac:(repeat constructor; lia) ltac:(cbn; lia) ltac:(reflexivity) ltac:(unfold kFoldedStaticMaxBytes; cbn [length]; lia)
    ltac:(reflexivity) ltac:(intros _; cbn; lia))).
  split; [apply (bool_decide_unpack _); vm_compute; exact I|reflexivity].
Defined.
