(* ===== verification/SimpleBuilders.v ===== *)
(** * The builder of simple operators

    [builder/opbuilder/simple_op_builder.cc]: the operators that map to one QNN node with few or
    no parameters, with what they need on the way: the sums of many inputs, the encodings that
    HTP asks for, conversions between precisions and the detour of Gelu through a matrix. *)

From stdpp Require Import pretty.
From S2P Require Import Prelude DataTypes Floats QuantParams Perm QnnTensor Quantize ModelWrapper QdqSelector NodeGroups NodeUnitDefs TensorInfo ModelOps OpBuilder Builders Convert MoveBuilders.
Local Open Scope Z_scope.

(** What the builder reads besides the unit: the graph after the layout transformation, whether
    the unit is a single node, the attribute "perm" of the only consumer of its output,
    whether the version of the QNN SDK rejects 16-bit Tanh by mistake, and the architecture of the
    HTP. *)
Record SimpleContext := SimpleCtx {
  IsPostLayoutTransform : bool;
  is_single_node : UnitView → bool;
  consumer_perm : UnitView → list Z;
  tanh_validation_broken : bool;
  GetHtpArch : Z
}.

Definition kMSInternalNHWCDomain : string := "com.ms.internal.nhwc".

Definition with_quant_param (info : TensorInfo) (q : QnnQuantParamsWrapper) : TensorInfo :=
  Info (info_shape info) (info_data_type info) q (info_is_initializer info) (info_initializer info).

Section SimpleBuilder.
Context `{SafeInt} `{QnnInterface}.
Context (env : environment) (graph : OrtGraph) (qnn : QnnHeaders) (ctx : SimpleContext).

Local Abbreviation tensor_info io := (GetTensorInfo env graph io).
Local Abbreviation input u i := (aget (Inputs u) i).
Local Abbreviation output u i := (aget (Outputs u) i).
Local Abbreviation scalar u v n ps := (AddQnnScalar (u_index u) (u_name u) v (macro qnn n) ps).

(** ** Checks *)

Definition gridsample_supported_modes : list string := ["bilinear"; "nearest"; "linear"].
Definition gridsample_supported_padding_modes : list string := ["zeros"; "border"; "reflection"].

(** The graph output that a Dequantize makes, or the graph input that a Quantize reads, is
    handled outside; its name is recorded once. *)
Definition offload (internal external : string) (msg : string) : M unit := fun m =>
  let m := if IsExternalOverrideTarget m external then m else SetTensorNameOverride m internal external in
  Ok (m, inl msg).

Definition check_gridsample (u : UnitView) : result unit :=
  let mode := Get_string u "mode" "linear" in
  let* _ := return_if_not (bool_decide (mode ∈ gridsample_supported_modes)) ("GridSample does not support mode " +:+ mode) in
  let padding_mode := Get_string u "padding_mode" "zeros" in
  let* _ := return_if_not (bool_decide (padding_mode ∈ gridsample_supported_padding_modes))
    ("GridSample does not support padding_mode " +:+ padding_mode) in
  let* i := input u 0 in
  let* info := tensor_info i in
  let is_fixed_point := IsQuant8bit (info_data_type info) || IsQuant16bit (info_data_type info) in
  let max_rank := if is_fixed_point then 5%nat else 4%nat in
  return_if (max_rank <? length (info_shape info))%nat "QNN EP does not support GridSample with input rank > ".

Definition Simple_ExplicitOpCheck (u : UnitView) : M unit :=
  let op_type := u_op_type u in
  let! _ := if bool_decide (op_type = "GridSample") then lift (check_gridsample u) else ret tt in
  let! _ := lift (return_if (bool_decide (op_type = "PRelu") && bool_decide (backend_type env = CPU))
    "QNN EP does not support PRelu op on CPU backend. Falling back to ORT CPU.") in
  let! _ := lift (return_if (bool_decide (op_type ∈ ["Min"; "Max"; "Sum"]) && (length (Inputs u) <? 2)%nat)
    ("QNN EP requires " +:+ op_type +:+ " to have at least 2 inputs.")) in
  let! _ :=
    if bool_decide (op_type = "DequantizeLinear") then
      let! i := lift (input u 0) in
      let! (is_per_chan_quant, _) := lift (IsPerChannelQuantized i) in
      let! _ := lift (return_if is_per_chan_quant "QNN EP does not support a standalone DQ op with per-channel quantization") in
      if offload_graph_io_quantization (model_settings_ env) then
        let! o := lift (output u 0) in
        if IsGraphOutput env (name o) then
          offload (name i) (name o) "QNN EP is configured to not take DQ nodes that generate a graph output."
        else ret tt
      else ret tt
    else ret tt in
  let! _ :=
    if bool_decide (op_type = "QuantizeLinear") then
      let! o := lift (output u 0) in
      let! (is_per_chan_quant, _) := lift (IsPerChannelQuantized o) in
      let! _ := lift (return_if is_per_chan_quant "QNN EP does not support a standalone Q op with per-channel quantization") in
      if offload_graph_io_quantization (model_settings_ env) then
        let! i := lift (input u 0) in
        if IsGraphInput env (name i) then
          offload (name o) (name i) "QNN EP is configured to not take Q nodes that consume a graph input."
        else ret tt
      else ret tt
    else ret tt in
  if bool_decide (op_type = "Softplus") && negb (bool_decide (backend_type env = CPU)) then
    let! i := lift (input u 0) in
    let! info := lift (tensor_info i) in
    lift (return_if (4 <? length (info_shape info))%nat "QNN EP does not support Softplus with input rank > 4.")
  else ret tt.

Definition Simple_ProcessInputs (u : UnitView) (v : bool) : M (list string) :=
  let! input_names := base_ProcessInputs env graph u v in
  if negb (IsNpuBackend (backend_type env)) then ret input_names
  else AlignBinaryInputPrecision env qnn u input_names v.

(** ** Attributes *)

Definition ProcessNodeAttribute (u : UnitView) (onnx_attr_key qnn_param_key : string) (ps : list string) (default_value : float)
  : M (list string) :=
  scalar u (SCALAR_FLOAT_32 (Get_float u onnx_attr_key default_value)) qnn_param_key ps.

Definition ProcessBlockSizeAttribute (u : UnitView) (ps : list string) : M (list string) :=
  let! block_size := lift (Get_uint32 (attr_int (u_attributes u) "blocksize") 0) in
  let! p := add_u32_param env (u_index u) (u_name u) (macro qnn "QNN_OP_DEPTH_TO_SPACE_PARAM_BLOCK_SIZE") [2]
    [block_size; block_size] in
  ret (ps ++ [p]).

Definition ProcessModeAttribute (u : UnitView) (ps : list string) : M (list string) :=
  let! mode_value := lift (
    match find_assoc (Get_string u "mode" "DCR") [("DCR", "QNN_OP_DEPTH_TO_SPACE_MODE_DCR"); ("CRD", "QNN_OP_DEPTH_TO_SPACE_MODE_CRD")] with
    | Some mode => Ok (macro_value qnn mode)
    | None => Err (EpFail "DepthToSpace mode only support DCR & CRD.")
    end) in
  scalar u (SCALAR_UINT_32 mode_value) "QNN_OP_DEPTH_TO_SPACE_PARAM_MODE" ps.

(** The output of a permutation of elements has the encoding of its input. *)
Definition PropagatePerTensorInputQuantToOutput (u : UnitView) (input_names : list string) : M unit :=
  match Outputs u, input_names with
  | o :: _, input_name :: _ =>
      let! out_exists := get (fun m => IsQnnTensorWrapperExist m (name o)) in
      let! in_exists := get (fun m => IsQnnTensorWrapperExist m input_name) in
      if out_exists || negb in_exists then ret tt
      else
      let! w := tensor_of input_name in
      if negb (IsPerTensor (quant_params_ w) false) then ret tt
      else
      let! info := lift (tensor_info o) in
      if IsQuantized (info_quant_param info) then ret tt
      else
      let! dt := lift (GetTensorDataType w) in
      let! q := lift (Copy (quant_params_ w)) in
      add_tensor env (name o) (output_tensor_type env (name o)) dt q (info_shape info) [] "Failed to add tensor."
  | _, _ => ret tt
  end.

(** Alpha as a constant of the type LeakyRelu computes in. *)
Definition alpha_tensor (u : UnitView) : result (Qnn_DataType_t * QnnQuantParamsWrapper * list Z) :=
  let alpha := Get_float u "alpha" (f32_div (f32_of_Z 1) (f32_of_Z 100)) in
  let* o := output u 0 in
  if bool_decide (is_Some (quant_param o)) then
    let dt := QNN_UFIXED_POINT_8 in
    let* (scales, offsets) := GetDataQuantParams [alpha] [1] [f32_of_Z 1] [0] dt false None in
    let* data := QuantizeData [alpha] [1] scales offsets [0] dt None in
    let* s := aget scales 0 in
    let* off := aget offsets 0 in
    Ok (dt, PerTensor s off, data)
  else
    let* i := input u 0 in
    let* info := tensor_info i in
    if bool_decide (info_data_type info = QNN_FLOAT_16) then Ok (QNN_FLOAT_16, default_wrapper, f16_bytes qnn alpha)
    else Ok (QNN_FLOAT_32, default_wrapper, f32_bytes qnn alpha).

Definition ProcessAlphaAttributeAsInput (u : UnitView) (input_name : string) : M unit :=
  let! (dt, q, data) := lift (alpha_tensor u) in
  add_tensor env input_name TENSOR_TYPE_STATIC dt q [1] data "Failed to add tensor.".

Definition ProcessGridSampleAttributes (u : UnitView) (ps : list string) : M (list string) :=
  let! ps := scalar u (SCALAR_BOOL_8 (negb (Get_int64 u "align_corners" 0 =? 0))) "QNN_OP_GRID_SAMPLE_PARAM_ALIGN_CORNERS" ps in
  let! mode_value := lift (
    match find_assoc (Get_string u "mode" "linear") [("linear", "QNN_OP_GRID_SAMPLE_MODE_BILINEAR");
        ("bilinear", "QNN_OP_GRID_SAMPLE_MODE_BILINEAR"); ("nearest", "QNN_OP_GRID_SAMPLE_MODE_NEAREST")] with
    | Some mode => Ok (macro_value qnn mode)
    | None => Err (EpFail "GridSample mode only support [linear, bilinear, nearest].")
    end) in
  let! ps := scalar u (SCALAR_UINT_32 mode_value) "QNN_OP_GRID_SAMPLE_PARAM_MODE" ps in
  let! padding_mode_value := lift (
    match find_assoc (Get_string u "padding_mode" "zeros") [("zeros", "QNN_OP_GRID_SAMPLE_PADDING_MODE_ZEROS");
        ("border", "QNN_OP_GRID_SAMPLE_PADDING_MODE_BORDER"); ("reflection", "QNN_OP_GRID_SAMPLE_PADDING_MODE_REFLECTION")] with
    | Some mode => Ok (macro_value qnn mode)
    | None => Err (EpFail "GridSample padding_mode only support [zeros, border, reflection].")
    end) in
  scalar u (SCALAR_UINT_32 padding_mode_value) "QNN_OP_GRID_SAMPLE_PARAM_PADDING_MODE" ps.

Definition AddHardSwishNeuronParams (u : UnitView) (ps : list string) : M (list string) :=
  let p := make_scalar_param (u_index u) (u_name u) (macro qnn "QNN_OP_ELEMENT_WISE_NEURON_PARAM_OPERATION")
    (PARAMTYPE_SCALAR (SCALAR_UINT_32 (macro_value qnn "QNN_OP_ELEMENT_WISE_NEURON_OPERATION_HARD_SWISH"))) in
  let! _ := perform (fun m => AddParamWrapper m p) in
  ret (ps ++ [pw_tensor_name_ p]).

(** ** Sums, maxima and minima of many inputs *)

Definition is_int64 (dt : Qnn_DataType_t) : bool := bool_decide (dt ∈ [QNN_INT_64; QNN_UINT_64]).

(** The quantized inputs, dequantized. *)
Definition dequantize_step (u : UnitView) (shapes : list (list Z)) (v : bool) (names : list string) (i : nat) : M (list string) :=
  let! input := lift (input u i) in
  match quant_param input with
  | None => ret names
  | Some _ =>
      let! n := lift (aget names i) in
      let! s := lift (aget shapes i) in
      let dq_name := n +:+ "_to_f32" in
      let! _ := AddDequantizeNode env qnn n dq_name QNN_FLOAT_32 s v in
      ret (<[i := dq_name]> names)
  end.

(** One node of the chain; the state is the left operand and its shape. *)
Definition fold_step (u : UnitView) (o : OrtNodeUnitIODef) (info : TensorInfo) (shapes : list (list Z)) (names : list string)
  (qnn_op_type : string) (intermediate_dtype : Qnn_DataType_t) (needs_more v : bool) (st : string * list Z) (i : nat)
  : M (string * list Z) :=
  let '(lhs_name, running_shape) := st in
  let! s := lift (aget shapes i) in
  let! running_shape := lift (BroadcastShape running_shape s) in
  let is_last := (i =? length names - 1)%nat in
  let! out_name :=
    if negb is_last || needs_more then
      let out_name := NodeUnitBaseName (u_name u) (u_op_type u) (N.of_nat (u_index u)) +:+ "_fold_" +:+ pretty i in
      let! _ := add_tensor env out_name TENSOR_TYPE_NATIVE intermediate_dtype default_wrapper running_shape []
        "AddTensorWrapper failed for fold output." in
      ret out_name
    else
      let! q := lift (Copy (info_quant_param info)) in
      let! _ := add_tensor env (name o) (output_tensor_type env (name o)) (info_data_type info) q (info_shape info) []
        "AddTensorWrapper failed for output." in
      ret (name o) in
  let! rhs := lift (aget names i) in
  let! node := fresh_unit u qnn_op_type in
  let! _ := create_node env node qnn_op_type [lhs_name; rhs] [out_name] [] v "Failed to add binary node." in
  ret (out_name, running_shape).

Definition ProcessVariadicToBinaryChain (u : UnitView) (input_names : list string) (qnn_op_type : string) (v : bool) : M unit :=
  let! o := lift (output u 0) in
  let! info := lift (tensor_info o) in
  let output_quantized := bool_decide (is_Some (quant_param o)) in
  let is_graph_output := IsGraphOutput env (name o) in
  let needs_int64_cast := negb output_quantized && is_graph_output && is_int64 (info_data_type info) in
  let cast_dtype := if bool_decide (info_data_type info = QNN_INT_64) then QNN_INT_32 else QNN_UINT_32 in
  let intermediate_dtype :=
    if output_quantized then QNN_FLOAT_32 else if needs_int64_cast then cast_dtype else info_data_type info in
  let! shapes := lift (mapM_res (fun i => let* input := input u i in shape_or input "Failed to get input shape.")
    (seq 0 (length input_names))) in
  let! names := each (seq 0 (length input_names)) (dequantize_step u shapes v) input_names in
  let! lhs := lift (aget names 0) in
  let! s0 := lift (aget shapes 0) in
  let! (lhs, _) := each (seq 1 (length names - 1))
    (fold_step u o info shapes names qnn_op_type intermediate_dtype (output_quantized || needs_int64_cast) v) (lhs, s0) in
  if output_quantized then
    let! q := lift (Copy (info_quant_param info)) in
    AddQuantizeNode env qnn lhs (name o) (output_tensor_type env (name o)) (info_data_type info) q (info_shape info) v
  else if needs_int64_cast then
    let! node := fresh_unit u "_cast_int64" in
    let! q := lift (Copy (info_quant_param info)) in
    AddCastNode env node lhs (name o) TENSOR_TYPE_APP_READ (info_data_type info) q (info_shape info) v
  else ret tt.

(** ** Gelu on channels-first tensors *)

(** The shapes of the transposed view and of the matrix, when the detour applies. *)
Definition gelu_view (u : UnitView) : result (option (TensorInfo * list Z * list Z)) :=
  if bool_decide (u_op_type u = "Gelu") && bool_decide (backend_type env = HTP) && IsPostLayoutTransform ctx && is_single_node ctx u then
    let* i := input u 0 in
    let* info := tensor_info i in
    match info_shape info with
    | [s0; s1; s2] =>
        if bool_decide (info_data_type info ∈ [QNN_FLOAT_32; QNN_FLOAT_16]) then
          let* consumers0 := aget (consumers graph (u_index u)) 0 in
          let* o := output u 0 in
          if bool_decide (consumers0 = [Some "Transpose"]) && bool_decide (consumer_perm ctx u = [0; 2; 1])
              && negb (IsGraphOutput env (name o)) && (0 <? s0 * s2) && (s0 * s2 <=? 2 ^ 32 - 1) && (0 <? s1)
          then Ok (Some (info, [s0; s2; s1], [s0 * s2; s1]))
          else Ok None
        else Ok None
    | _ => Ok None
    end
  else Ok None.

Definition Gelu_detour (u : UnitView) (info : TensorInfo) (view_shape flat_shape : list Z) (input_names : list string) (v : bool)
  : M unit :=
  let! o := lift (output u 0) in
  let! input_name := lift (aget input_names 0) in
  let dt := info_data_type info in
  let q := info_quant_param info in
  let shape := info_shape info in
  let! view_input := fresh (u_name u +:+ "_gelu_channels_last") "" in
  let! flat_input := fresh (u_name u +:+ "_gelu_flat_input") "" in
  let! flat_output := fresh (u_name u +:+ "_gelu_flat_output") "" in
  let! view_output := fresh (u_name u +:+ "_gelu_channels_last_output") "" in
  let! _ := AddTransposeNode env qnn (u_index u) input_name view_input shape [0; 2; 1]%nat view_shape dt q v false false in
  let! _ := AddReshapeNode_same env qnn view_input flat_input view_shape flat_shape dt q v false false in
  let! qc := lift (Copy q) in
  let! _ := add_tensor env flat_output TENSOR_TYPE_NATIVE dt qc flat_shape [] "Failed to add rank-2 GELU output tensor." in
  let! node := fresh_unit u "" in
  let! _ := create_node env node (macro qnn "QNN_OP_GELU") [flat_input] [flat_output] [] v "Failed to add rank-2 GELU node." in
  let! _ := AddReshapeNode_same env qnn flat_output view_output flat_shape view_shape dt q v false false in
  AddTransposeNode env qnn (u_index u) view_output (name o) view_shape [0; 2; 1]%nat shape dt q v false false.

(** ** The node *)

(** The constants and parameters that the operator asks for. *)
Definition Simple_attributes (u : UnitView) (input_names : list string) : M (list string * list string) :=
  let op_type := u_op_type u in
  let neuron := "QNN_OP_ELEMENT_WISE_NEURON_PARAM_OPERATION" in
  if bool_decide (op_type = "LpNormalization") then
    let! axis := lift (GetCanonicalizedAxisAttribute u "axis" (-1)) in
    let! ps := scalar u (SCALAR_UINT_32 (u32 axis)) "QNN_OP_L2_NORM_PARAM_AXIS" [] in
    let! _ := lift (return_if (negb (Get_int64 u "p" 2 =? 2)) "QNN EP only supports LpNormalization with 'p' attribute equal to 2.") in
    ret (input_names, ps)
  else if bool_decide (op_type = "LeakyRelu") then
    let! n := fresh (u_name u) "_alpha" in
    let! _ := ProcessAlphaAttributeAsInput u n in
    ret (input_names ++ [n], [])
  else if bool_decide (op_type = "Elu") then
    let! ps := ProcessNodeAttribute u "alpha" "QNN_OP_ELU_PARAM_ALPHA" [] (f32_of_Z 1) in
    ret (input_names, ps)
  else if bool_decide (op_type = "Softplus") then
    let! ps := scalar u (SCALAR_FLOAT_32 (f32_of_Z 1)) "QNN_OP_ELEMENT_WISE_NEURON_PARAM_BETA" [] in
    let! ps := scalar u (SCALAR_FLOAT_32 (f32_of_Z 20)) "QNN_OP_ELEMENT_WISE_NEURON_PARAM_THRESHOLD" ps in
    let! ps := scalar u (SCALAR_UINT_32 (macro_value qnn "QNN_OP_ELEMENT_WISE_NEURON_OPERATION_SOFTPLUS")) neuron ps in
    ret (input_names, ps)
  else if bool_decide (op_type = "HardSwish") then
    let! ps := AddHardSwishNeuronParams u [] in
    ret (input_names, ps)
  else if bool_decide (op_type = "HardSigmoid") then
    let! ps := ProcessNodeAttribute u "alpha" "QNN_OP_ELEMENT_WISE_NEURON_PARAM_ALPHA" [] (f32_div (f32_of_Z 1) (f32_of_Z 5)) in
    let! ps := ProcessNodeAttribute u "beta" "QNN_OP_ELEMENT_WISE_NEURON_PARAM_BETA" ps (f32_div (f32_of_Z 1) (f32_of_Z 2)) in
    let! ps := scalar u (SCALAR_UINT_32 (macro_value qnn "QNN_OP_ELEMENT_WISE_NEURON_OPERATION_HARD_SIGMOID")) neuron ps in
    ret (input_names, ps)
  else if bool_decide (op_type = "DepthToSpace") then
    let! ps := ProcessBlockSizeAttribute u [] in
    let! ps := ProcessModeAttribute u ps in
    let! _ := PropagatePerTensorInputQuantToOutput u input_names in
    ret (input_names, ps)
  else if bool_decide (op_type = "SpaceToDepth") then
    let! ps := ProcessBlockSizeAttribute u [] in
    let! ps := scalar u (SCALAR_UINT_32 (macro_value qnn "QNN_OP_SPACE_TO_DEPTH_MODE_DCR")) "QNN_OP_SPACE_TO_DEPTH_PARAM_MODE" ps in
    let! _ := PropagatePerTensorInputQuantToOutput u input_names in
    ret (input_names, ps)
  else if bool_decide (op_type = "GridSample") then
    let! ps := ProcessGridSampleAttributes u [] in
    ret (input_names, ps)
  else ret (input_names, []).

Definition Simple_OverrideOutputQuantParam (u : UnitView) (_ : list string) (output_index : nat) (qnn_data_type : Qnn_DataType_t)
  (quant_param : QnnQuantParamsWrapper) : M QnnQuantParamsWrapper :=
  if bool_decide (u_op_type u ∈ ["Sigmoid"; "Tanh"; "HardSigmoid"]) then
    let! _ := lift (return_if_not (output_index <? length (Outputs u))%nat
      ("Invalid output index in OverrideOutputQuantParam for op " +:+ u_op_type u)) in
    let! o := lift (output u 0) in
    if IsPerTensor quant_param false then
      let! (scale, offset) := lift (scaleOffsetEncoding (params_ quant_param)) in
      let '(changed, scale, offset) := OverrideActivationFixedEncoding (u_op_type u) qnn_data_type scale offset in
      if changed : bool then
        let! exists_ := get (fun m => IsQnnTensorWrapperExist m (name o)) in
        let! _ := lift (return_if exists_ ("QNN EP is unable to override output quantization parameters for " +:+ u_op_type u)) in
        ret (Wrapper (QuantizeParams (encodingDefinition (params_ quant_param)) (SCALE_OFFSET scale offset))
          (per_channel_data_ quant_param) (per_channel_scales_size_ quant_param) (block_encoding_tensor_rank_ quant_param)
          (num_blocks_ quant_param))
      else ret quant_param
    else ret quant_param
  else ret quant_param.

Definition simple_virtuals : Virtuals := {|
  GetSupportedOutputDataType _ t := t;
  OverrideOutputQuantParam := Simple_OverrideOutputQuantParam;
  CheckCpuDataTypes _ _ := Ok tt; CheckHtpDataTypes _ _ := Ok tt; CheckGpuDataTypes _ _ := Ok tt
|}.

(** Validation is left out for layouts that change later and for the Tanh that QNN misjudges. *)
Definition skips_validation (u : UnitView) : result bool :=
  if negb (bool_decide (u_domain u = kMSInternalNHWCDomain)) && bool_decide (u_op_type u ∈ ["DepthToSpace"; "SpaceToDepth"; "GridSample"])
  then Ok true
  else if tanh_validation_broken ctx && bool_decide (u_op_type u = "Tanh") then
    let* o := output u 0 in
    let* info := tensor_info o in
    Ok (bool_decide (info_data_type info = QNN_UFIXED_POINT_16))
  else Ok false.

(** The node at the precision of its first input, with a Convert to the declared one if needed. *)
Definition Simple_node (u : UnitView) (input_names ps : list string) (v : bool) : M unit :=
  let finish := finish_node env graph qnn simple_virtuals u input_names ps v in
  if IsNpuBackend (backend_type env) && (IsConvertCompatibleUnaryOp (u_op_type u) || IsConvertCompatibleBinaryOp (u_op_type u)) then
    let! o := lift (output u 0) in
    let! info := lift (tensor_info o) in
    let! q :=
      if IsQuantized (info_quant_param info)
      then Simple_OverrideOutputQuantParam u input_names 0 (info_data_type info) (info_quant_param info)
      else ret (info_quant_param info) in
    let! n := lift (aget input_names 0) in
    let! native_dtype := data_type_of n in
    if DataTypes.NeedsPrecisionConvert native_dtype (info_data_type info) then
      let! op := lift (GetQnnOpType qnn (u_op_type u)) in
      InsertOutputPrecisionConvert env qnn u input_names ps v op native_dtype (with_quant_param info q)
    else finish
  else finish.

Definition Simple_ProcessAttributesAndOutputs (u : UnitView) (input_names : list string) (v : bool) : M unit :=
  match input_names with
  | [] => ret tt
  | _ =>
      let! _ := if v then Simple_ExplicitOpCheck u else ret tt in
      let! skip := if v then lift (skips_validation u) else ret false in
      if skip : bool then ret tt
      else
      let! view := lift (gelu_view u) in
      match view with
      | Some (info, view_shape, flat_shape) => Gelu_detour u info view_shape flat_shape input_names v
      | None =>
          let! (input_names, ps) := Simple_attributes u input_names in
          if bool_decide (u_op_type u ∈ ["Sum"; "Max"; "Min"]) && (2 <? length input_names)%nat then
            let! op := lift (GetQnnOpType qnn (u_op_type u)) in
            ProcessVariadicToBinaryChain u input_names op v
          else Simple_node u input_names ps v
      end
  end.

Definition SimpleOpBuilder : OpBuilder := Builder simple_virtuals Simple_ProcessInputs Simple_ProcessAttributesAndOutputs.

End SimpleBuilder.

(** ** The builder keeps the laws *)

Section SimpleLaws.
Context `{SafeInt} `{QnnInterface}.
Context (env : environment) (graph : OrtGraph) (qnn : QnnHeaders) (ctx : SimpleContext).

Lemma grows_override m i e : grows m (SetTensorNameOverride m i e).
Proof.
  unfold SetTensorNameOverride. destruct (tensor_name_overrides_ m); [|reflexivity]. destruct (_ && _); [|reflexivity].
  split; [|done|exists []; by rewrite app_nil_r|done]. intros n w Hw. by apply same_entry.
Qed.

Lemma override_ops m i e : qnn_op_property_list_ (SetTensorNameOverride m i e) = qnn_op_property_list_ m.
Proof. unfold SetTensorNameOverride. destruct (tensor_name_overrides_ m); [|done]. by destruct (_ && _). Qed.

Lemma wp_offload i e msg Q m : wp (offload i e msg) Q m.
Proof.
  intros Hc. unfold offload. destruct (IsExternalOverrideTarget m e); [by split_and!|].
  split_and!; [|apply grows_override|done]. by eapply closed_same_ops; [apply grows_override|apply override_ops|].
Qed.

Lemma wp_check u m : wp (Simple_ExplicitOpCheck env graph u) (fun _ _ => True) m.
Proof. unfold Simple_ExplicitOpCheck. repeat first [apply wp_offload | op_step]; auto. Qed.

#[export] Instance simple_virtual_laws : virtual_laws simple_virtuals.
Proof.
  split. intros u names i dt q m _. cbn [OverrideOutputQuantParam simple_virtuals]. unfold Simple_OverrideOutputQuantParam. op_auto.
Qed.

Lemma wp_AddHardSwish u ps Q m : Forall (has_param m) ps →
  (∀ m' ps', grows m m' → Forall (has_param m') ps' → Q ps' m') → wp (AddHardSwishNeuronParams qnn u ps) Q m.
Proof.
  intros Hps HQ. unfold AddHardSwishNeuronParams. apply wp_bind, wp_perform. intros ok m' Ep.
  destruct (add_param_step _ _ _ _ Ep) as (Hg & Ho & _ & _ & _ & Hh & Hne).
  split_and!; [done|by apply closed_same_ops|]. intros _. apply wp_ret, HQ; [done|].
  apply Forall_app. split; [by eapply all_has_param_grows|]. constructor; [|constructor]. apply Hh, Hne, param_name_ne.
Qed.

Lemma wp_propagate u names Q m : (∀ m', grows m m' → Q tt m') → wp (PropagatePerTensorInputQuantToOutput env graph u names) Q m.
Proof.
  intros HQ. eapply (wp_use (fun _ _ => True)); [|by intros [] ? ? _; auto]. unfold PropagatePerTensorInputQuantToOutput.
  repeat first [apply wp_tensor_of; intros ? ? | op_step]; auto.
Qed.

Lemma wp_Simple_attributes u names Q m : Forall (has m) names →
  (∀ m' r ps, grows m m' → Forall (has m') r → Forall (has_param m') ps → (names ≠ [] → r ≠ []) → Q (r, ps) m') →
  wp (Simple_attributes env graph qnn u names) Q m.
Proof.
  intros Hn HQ. eapply (wp_use (fun r m' => Forall (has m') r.1 ∧ Forall (has_param m') r.2 ∧ (names ≠ [] → r.1 ≠ []))).
  2:{ intros [r ps] m' Hg (? & ? & ?). auto. }
  unfold Simple_attributes, ProcessAlphaAttributeAsInput, ProcessNodeAttribute, ProcessBlockSizeAttribute, ProcessModeAttribute,
    ProcessGridSampleAttributes.
  repeat first [ apply wp_propagate; let Hg := fresh "Hg" in intros ? Hg; advance Hg
               | apply wp_AddHardSwish; [solve [solve_names]|let Hg := fresh "Hg" in intros ? ? Hg ?; advance Hg]
               | op_step ];
    cbn [fst snd]; (split_and!; [solve [solve_names]|solve [solve_names]|]); try done.
  intros _ Enil. by apply app_nil in Enil as [_ ?].
Qed.

Lemma wp_Gelu_detour u info vs fs names v m : Forall (has m) names →
  wp (Gelu_detour env qnn u info vs fs names v)
    (fun _ m' => v = false → names ≠ [] → one_output u → Forall (provided m') (required_outputs u)) m.
Proof. intros Hn. unfold Gelu_detour. mv_auto. Qed.

(** The units of which every required output is written. *)
Definition simple_built (u : UnitView) : Prop :=
  one_output u ∧ (u_op_type u ∈ ["Sum"; "Max"; "Min"] → ∀ o info, aget (Outputs u) 0 = Ok o → GetTensorInfo env graph o = Ok info →
    IsGraphOutput env (name o) = true → is_int64 (info_data_type info) = false).

Lemma wp_dequantize_inputs u shapes v names Q m : Forall (has m) names →
  (∀ m' r, grows m m' → Forall (has m') r → length r = length names → Q r m') →
  wp (each (seq 0 (length names)) (dequantize_step env qnn u shapes v) names) Q m.
Proof.
  intros Hn HQ. eapply (wp_use (fun r m' => Forall (has m') r ∧ length r = length names)); [|by intros ? ? ? []; auto].
  apply (wp_each (fun _ r m' => Forall (has m') r ∧ length r = length names)); [|done]. intros d r n m1 [Hr Hl] _. unfold dequantize_step.
  op_auto. rewrite length_insert. split; [by apply Forall_insert|done].
Qed.

Lemma wp_fold_chain u o info shapes names op dt more v lhs s0 Q m : Forall (has m) names → has m lhs → (1 < length names)%nat →
  (∀ m' r s, grows m m' → has m' r → (v = false → more = false → Forall (provided m') [name o]) → Q (r, s) m') →
  wp (each (seq 1 (length names - 1)) (fold_step env u o info shapes names op dt more v) (lhs, s0)) Q m.
Proof.
  intros Hn Hl Hlen HQ.
  set (inv := fun (done_ : list nat) (st : string * list Z) m' => Forall (has m') names ∧ has m' st.1 ∧
    (v = false → more = false → (length names - 1)%nat ∈ done_ → Forall (provided m') [name o])).
  eapply (wp_use (inv (seq 1 (length names - 1)))).
  2:{ intros [r s] m' Hg (_ & Hr & Hp). apply HQ; [done|done|]. intros Hv Hm. apply Hp; [done|done|]. apply elem_of_seq. lia. }
  apply (wp_each inv); [|split_and!; [done|done|by intros _ _ ?%not_elem_of_nil]].
  intros d [lhs1 s1] i m1 (Hn1 & Hl1 & Hp1) Hi. cbn [fst] in Hl1.
  eapply (wp_use (fun st m' => has m' st.1 ∧ (v = false → more = false → i = (length names - 1)%nat → Forall (provided m') [name o]))).
  { unfold fold_step. op_auto; split; intros; try done.
    all: match goal with E : _ || _ = true |- _ => apply orb_true_iff in E as [E|E]; [apply negb_true_iff, Nat.eqb_neq in E; lia|congruence] | _ => auto end. }
  intros [r s] m2 Hg [Hr Hw]. split_and!; [by eapply all_has_grows|done|]. intros Hv Hm Hin.
  apply elem_of_app in Hin as [Hin|Hin%list_elem_of_singleton]; [|auto]. eapply all_provided_grows; [by apply Hp1|done].
Qed.

Lemma wp_chain u names op v m : Forall (has m) names → (2 < length names)%nat → u_op_type u ∈ ["Sum"; "Max"; "Min"] →
  wp (ProcessVariadicToBinaryChain env graph qnn u names op v)
    (fun _ m' => v = false → names ≠ [] → simple_built u → Forall (provided m') (required_outputs u)) m.
Proof.
  intros Hn Hlen Hop. unfold ProcessVariadicToBinaryChain. op_step. op_step. op_step. op_step. op_step. op_step. op_step. op_step. op_step. wp_step.
  apply wp_dequantize_inputs; [done|]. intros m1 names1 Hg1 Hn1 Hl1 _. do 6 op_step. wp_step.
  apply wp_fold_chain; [done|done|lia|]. intros m2 r s Hg2 Hr Hw _. cbn beta iota.
  destruct (bool_decide (is_Some (quant_param a))) eqn:Eq; cbn [negb andb orb] in *.
  { mv_auto. intros Hv ? [Ho _]. change (one_output u) in Ho. clear Hw. written_outputs. }
  destruct (IsGraphOutput env (name a) && is_int64 (info_data_type a0)) eqn:Ec.
  - mv_auto. intros _ _ (_ & Hb). apply andb_prop in Ec as [Eg Ei]. rewrite (Hb Hop _ _ E E0 Eg) in Ei. done.
  - apply wp_ret. intros Hv _ [Ho _]. eapply single_output; [by apply aget_Ok|done|]. by eapply Forall_inv, Hw.
Qed.

Lemma wp_Simple_node u names ps v m : Forall (has m) names → Forall (has_param m) ps →
  wp (Simple_node env graph qnn u names ps v)
    (fun _ m' => v = false → names ≠ [] → simple_built u → Forall (provided m') (required_outputs u)) m.
Proof.
  intros Hn Hp. unfold Simple_node. op_step; [|op_auto]. do 6 op_step. wp_step.
  eapply (wp_use (fun _ _ => True)); [destruct (IsQuantized _); [by apply (law_override (b := simple_virtuals) u names)|by apply wp_ret]|].
  intros q m1 Hg1 _ _. advance Hg1. do 3 op_step. wp_step. apply wp_data_type_of. intros dt Hdt _. op_step; [|op_auto].
  op_step. op_step. op_step. eapply wp_InsertOutputPrecisionConvert; [done|done|done|]. intros m2 _ Hw Hv _ [Ho _].
  eapply single_output; [by apply aget_Ok|done|]. by eapply Forall_inv, Hw.
Qed.

#[export] Instance Simple_laws : builder_laws (SimpleOpBuilder env graph qnn ctx) simple_built.
Proof.
  split; intros; cbn [ProcessInputs ProcessAttributesAndOutputs SimpleOpBuilder].
  - unfold Simple_ProcessInputs. wp_step. eapply wp_use; [apply (wp_base_ProcessInputs _ _ (simple_built u))|].
    intros names m1 _ [Hn Hne] _. op_step; [by apply wp_ret|]. apply wp_AlignBinaryInputPrecision; [done|]. intros m2 r _ Hr Hl.
    split; [done|]. intros Hi Hb ->. specialize (Hne Hi Hb). by destruct names.
  - unfold Simple_ProcessAttributesAndOutputs. destruct names as [|n names]; [mv_auto|]. wp_step.
    eapply (wp_use (fun _ _ => True)); [destruct v; [apply wp_check|by apply wp_ret]|]. intros [] m1 Hg1 _ _. advance Hg1. wp_step.
    eapply (wp_use (fun skip _ => v = false → skip = false)); [destruct v; op_auto|]. intros skip m2 Hg2 Hs _. advance Hg2.
    destruct skip; [apply wp_ret; intros Hv; by specialize (Hs Hv)|]. do 3 op_step. destruct a as [[[info vs] fs]|].
    { eapply wp_use; [by apply wp_Gelu_detour|]. intros [] m3 _ Hw Hv Hne [Ho _]. auto. }
    wp_step. apply wp_Simple_attributes; [done|]. intros m3 r ps Hg3 Hr Hps Hne _. cbn beta iota.
    destruct (bool_decide (u_op_type u ∈ _) && _) eqn:Ev.
    + apply andb_prop in Ev as [Ev%bool_decide_eq_true El%Nat.ltb_lt]. do 3 op_step. eapply wp_use; [by apply wp_chain|].
      intros [] m4 _ Hw Hv Hn' Hb. auto.
    + eapply wp_use; [by apply wp_Simple_node|]. intros [] m4 _ Hw Hv Hn' Hb. auto.
Qed.
End SimpleLaws.
