(* ===== verification/IndexBuilders.v ===== *)
(** * Op builders of TopK, the Scatter operators and Cast

    The builders of [topk_op_builder.cc], [scatternd_op_builder.cc], [scatterelements_op_builder.cc]
    and [cast_op_builder.cc] in [builder/opbuilder/].  TopK is surrounded by Transpose nodes when its
    axis is not the last, the constant indices of the Scatter operators are made non-negative
    [int32_t], and Cast is replaced by other nodes where HTP does not do what ONNX asks for. *)

From stdpp Require Import pretty.
From S2P Require Import Prelude SubByte DataTypes Floats QuantParams Perm QnnTensor Quantize OpParams ModelWrapper NodeGroups NodeUnitDefs TensorInfo ModelOps OpBuilder Builders MoveBuilders.
Local Open Scope Z_scope.

Section IndexBuilders.
Context `{SafeInt} `{QnnInterface}.
Context (env : environment) (graph : OrtGraph) (qnn : QnnHeaders).

Local Abbreviation tensor_info io := (GetTensorInfo env graph io).
Local Abbreviation input u i := (aget (Inputs u) i).
Local Abbreviation output u i := (aget (Outputs u) i).
Local Abbreviation scalar u v n ps := (AddQnnScalar (u_index u) (u_name u) v (macro qnn n) ps).

(** ** TopK *)

Definition GetNormalizedAxis (u : UnitView) (input_rank : nat) : result nat :=
  let axis_attr := Get_int64 u "axis" (-1) in
  let axis_attr := if axis_attr <? 0 then axis_attr + Z.of_nat input_rank else axis_attr in
  let* _ := return_if_not ((0 <=? axis_attr) && (axis_attr <? Z.of_nat input_rank))
    "TopK axis must be in range [-input rank, input rank - 1]." in
  Ok (Z.to_nat axis_attr).

Definition TopK_GetSupportedOutputDataType (index : nat) (t : Qnn_DataType_t) : Qnn_DataType_t :=
  if (index =? 1)%nat then ArgMaxMin_GetSupportedOutputDataType t else t.

Definition topk_virtuals : Virtuals := {|
  GetSupportedOutputDataType := TopK_GetSupportedOutputDataType;
  OverrideOutputQuantParam _ _ _ _ q := ret q;
  CheckCpuDataTypes _ _ := Ok tt; CheckHtpDataTypes _ _ := Ok tt; CheckGpuDataTypes _ _ := Ok tt
|}.

Definition TopK_ExplictOpCheck (u : UnitView) : result unit :=
  let* _ := return_if_not (length (Inputs u) =? 2)%nat "For ONNX TopK operation the expected number of inputs is 2." in
  let* _ := return_if_not (length (Outputs u) =? 2)%nat "QNN TopK expects exactly 2 outputs." in
  let* i := input u 1 in
  return_if (negb (IsConstantInput env (name i))) "The number of top elements to retrieve must be specified as constant input.".

Definition TopK_ProcessInputs (u : UnitView) (v : bool) : M (list string) :=
  let! _ := lift (if v then TopK_ExplictOpCheck u else Ok tt) in
  let! i := lift (input u 0) in
  let! names := ProcessInput env graph i [] in
  let! info := lift (tensor_info i) in
  let input_rank := length (info_shape info) in
  let! axis := lift (GetNormalizedAxis u input_rank) in
  if (axis =? input_rank - 1)%nat then ret names
  else
  let! n := lift (aget names 0) in
  let transpose_output_name := n +:+ "_transpose" in
  let! perm := lift (GetPermToLastAxis axis input_rank []) in
  let! shape := lift (swap_last (info_shape info) (Z.of_nat axis)) in
  let! _ := AddTransposeNode env qnn (u_index u) n transpose_output_name (info_shape info) perm shape (info_data_type info)
    (info_quant_param info) v false false in
  ret (<[0%nat := transpose_output_name]> names).

(** The number of elements, read as the first [int64_t] of the constant. *)
Definition TopK_k (u : UnitView) : result Z :=
  let* i := input u 1 in
  if IsConstantInput env (name i) then
    let* bytes := UnpackInitializerData graph (GetConstantTensor graph (name i)) true in
    if (length bytes <? 8)%nat then Err Trap else Ok (u32 (le_decode (take 8 bytes)))
  else Err (EpFail "QNN TopK operator requires constant input parameter k.").

(** The output of the node whose input was transposed. *)
Definition TopK_output (u : UnitView) (axis : nat) (st : list string * list (list Z)) (output_idx : nat)
  : M (list string * list (list Z)) :=
  let '(names, shapes) := st in
  let! o := lift (output u output_idx) in
  let n := name o +:+ "_transpose" in
  let! info := lift (tensor_info o) in
  let! _ := lift (return_if_not (axis <? length (info_shape info))%nat "TopK axis must be smaller than the output rank.") in
  let! shape := lift (swap_last (info_shape info) (Z.of_nat axis)) in
  let! q := lift (Copy (info_quant_param info)) in
  let! _ := add_tensor env n TENSOR_TYPE_NATIVE (info_data_type info) q shape [] "Failed to add tensor." in
  ret (names ++ [n], shapes ++ [shape]).

(** The Transpose of an output, and the Cast of indices that leave the graph. *)
Definition TopK_back (u : UnitView) (axis : nat) (names : list string) (shapes : list (list Z)) (v : bool) (_ : unit) (output_idx : nat)
  : M unit :=
  let! o := lift (output u output_idx) in
  let! info := lift (tensor_info o) in
  let! perm := lift (GetPermToLastAxis axis (length (info_shape info)) []) in
  let is_graph_output := IsGraphOutput env (name o) in
  let cast := (output_idx =? 1)%nat && bool_decide (info_data_type info = QNN_INT_64) && is_graph_output in
  let transpose_output_name := if cast then name o +:+ "_cast" else name o in
  let! n := lift (aget names output_idx) in
  let! shape := lift (aget shapes output_idx) in
  let! _ := AddTransposeNode env qnn (u_index u) n transpose_output_name shape perm (info_shape info) (info_data_type info)
    (info_quant_param info) v false (is_graph_output && negb cast) in
  if cast then
    let! q := lift (Copy (info_quant_param info)) in
    let! _ := add_tensor env (name o) TENSOR_TYPE_APP_READ (info_data_type info) q (info_shape info) [] "Failed to add tensor." in
    let! node := fresh_unit u (QNN_OP_CAST env) in
    create_node env node (QNN_OP_CAST env) [transpose_output_name] [name o] [] false "Failed to add node"
  else ret tt.

Definition TopK_ProcessAttributesAndOutputs (u : UnitView) (input_names : list string) (v : bool) : M unit :=
  let! k := lift (TopK_k u) in
  let! ps := scalar u (SCALAR_UINT_32 k) "QNN_OP_TOP_K_PARAM_K" [] in
  let! largest := lift (Get_int32 (attr_int (u_attributes u) "largest") 1) in
  let! ps := scalar u (SCALAR_BOOL_8 (negb (u8 largest =? 0))) "QNN_OP_TOP_K_PARAM_LARGEST" ps in
  let! i := lift (input u 0) in
  let! info := lift (tensor_info i) in
  let input_rank := length (info_shape info) in
  let! axis := lift (GetNormalizedAxis u input_rank) in
  if (axis =? input_rank - 1)%nat then finish_node env graph qnn topk_virtuals u input_names ps v
  else
  let! (names, shapes) := each (seq 0 2) (TopK_output u axis) ([], []) in
  let! node := fresh_unit u "" in
  let! op := lift (GetQnnOpType qnn (u_op_type u)) in
  let! _ := create_node env node op input_names names ps v "Failed to add node." in
  each (seq 0 2) (TopK_back u axis names shapes v) tt.

Definition TopKOpBuilder : OpBuilder := Builder topk_virtuals TopK_ProcessInputs TopK_ProcessAttributesAndOutputs.

(** ** ScatterND *)

Definition ScatterND_kSupportedReductions : list string := ["none"; "add"; "mul"].

(** Constant indices as [int32_t]; an index column without a dimension in the data is read out of
    bounds. *)
Definition scatternd_indices (bytes : list Z) (index_tuple_size : nat) (data_shape : list Z) : result (list Z * bool) :=
  let dim i := default 0 (data_shape !! (i mod index_tuple_size)%nat) in
  let num_elems := (length bytes / 8)%nat in
  let readable := if (length data_shape <? index_tuple_size)%nat then (num_elems `min` length data_shape)%nat else num_elems in
  if (index_tuple_size =? 0)%nat && negb (num_elems =? 0)%nat then Err Trap
  else
  match Indices.NormalizeIndicesBytes 8 (take (8 * readable) bytes) dim false with
  | (None, _) => Err (EpFail "QNN does not support out-of-range index values for ScatterND.")
  | (Some b, neg) => if (readable <? num_elems)%nat then Err Trap else Ok (b, neg)
  end.

Definition ProcessScatterNDIndices (indices_input : OrtNodeUnitIODef) (data_shape : list Z) (input_names : list string) (v : bool)
  : M (list string) :=
  let! info := lift (tensor_info indices_input) in
  let! index_tuple_size := lift (match last (info_shape info) with Some d => Ok d | None => Err Trap end) in
  if info_is_initializer info then
    let! onnx_indices_bytes := lift (UnpackInitializerData graph (info_initializer info) true) in
    let! (bytes, _) := lift (scatternd_indices onnx_indices_bytes (Z.to_nat index_tuple_size) data_shape) in
    AddNormalizedIndicesTensor env (with_data_type info QNN_INT_32) (name indices_input +:+ "_qnn_idx") bytes input_names v
  else AddNormalizedIndicesTensor env info (name indices_input) [] input_names v.

Definition ScatterND_ProcessInputs (u : UnitView) (v : bool) : M (list string) :=
  let! _ := lift (return_if (negb (length (Inputs u) =? 3)%nat) "QNN EP: ScatterND operator must have three inputs.") in
  let! i := lift (input u 0) in
  let! names := ProcessInput env graph i [] in
  let! info := lift (tensor_info i) in
  let! indices := lift (input u 1) in
  let! names := ProcessScatterNDIndices indices (info_shape info) names v in
  let! updates := lift (input u 2) in
  ProcessInput env graph updates names.

Definition ScatterND_ProcessAttributesAndOutputs (u : UnitView) (input_names : list string) (v : bool) : M unit :=
  match input_names with
  | [] => ret tt
  | _ =>
      let! _ := lift (if v then return_if (bool_decide (backend_type env = CPU))
        "QNN EP does not support ScatterND op on CPU backend. Falling back to ORT CPU." else Ok tt) in
      let reduction := Get_string u "reduction" "none" in
      let! _ := lift (return_if_not (bool_decide (reduction ∈ ScatterND_kSupportedReductions))
        ("ScatterND does not support reduction " +:+ reduction)) in
      let! value := lift (
        match find_assoc reduction [("none", "QNN_OP_SCATTER_ND_REDUCTION_NONE"); ("add", "QNN_OP_SCATTER_ND_REDUCTION_ADD");
            ("mul", "QNN_OP_SCATTER_ND_REDUCTION_MUL")] with
        | Some r => Ok (macro_value qnn r)
        | None => Err (EpFail ("Unexpected ScatterND reduction: " +:+ reduction))
        end) in
      let! ps := scalar u (SCALAR_UINT_32 value) "QNN_OP_SCATTER_ND_PARAM_REDUCTION" [] in
      finish_node env graph qnn base_virtuals u input_names ps v
  end.

Definition ScatterNDOpBuilder : OpBuilder := Builder base_virtuals ScatterND_ProcessInputs ScatterND_ProcessAttributesAndOutputs.

(** ** ScatterElements *)

Definition ScatterElements_kSupportedReductions : list string := ["none"; "add"; "mul"; "max"].

(** Constant indices as [int32_t], with whether one was negative. *)
Definition scatterelements_indices (info : TensorInfo) (axis_dim : Z) (bytes : list Z) : result (list Z * bool) :=
  let normalized size :=
    match Indices.NormalizeIndicesBytes size bytes (fun _ => axis_dim) false with
    | (None, _) => Err (EpFail "QNN does not support out-of-range index values for ScatterElements.")
    | (Some b, neg) => Ok (b, neg)
    end in
  match info_data_type info with
  | QNN_INT_64 => normalized 8%nat
  | QNN_INT_32 => let* (b, neg) := normalized 4%nat in Ok (if neg : bool then b else bytes, neg)
  | _ => Err (EpFail "ScatterElements indices must be INT_32 or INT_64.")
  end.

Definition ProcessScatterElementsIndices (indices_input : OrtNodeUnitIODef) (data_shape : list Z) (axis : Z) (input_names : list string)
  (v : bool) : M (list string) :=
  let! info := lift (tensor_info indices_input) in
  let! axis_dim := lift (aget data_shape (Z.to_nat axis)) in
  if info_is_initializer info then
    let! onnx_indices_bytes := lift (UnpackInitializerData graph (info_initializer info) true) in
    let! (bytes, has_negative_indices) := lift (scatterelements_indices info axis_dim onnx_indices_bytes) in
    let! n := if has_negative_indices : bool then fresh (name indices_input) "_qnn_idx" else ret (name indices_input) in
    AddNormalizedIndicesTensor env (with_data_type info QNN_INT_32) n bytes input_names v
  else AddNormalizedIndicesTensor env info (name indices_input) [] input_names v.

Definition ScatterElements_ProcessInputs (u : UnitView) (v : bool) : M (list string) :=
  let! _ := lift (return_if (negb (length (Inputs u) =? 3)%nat) "QNN EP: ScatterElements operator must have three inputs.") in
  let! i := lift (input u 0) in
  let! names := ProcessInput env graph i [] in
  let! info := lift (tensor_info i) in
  let rank := Z.of_nat (length (info_shape info)) in
  let axis := Get_int64 u "axis" 0 in
  let axis := if axis <? 0 then axis + rank else axis in
  let! _ := lift (return_if_not ((0 <=? axis) && (axis <? rank)) "ScatterElements axis out of range.") in
  let! indices := lift (input u 1) in
  let! names := ProcessScatterElementsIndices indices (info_shape info) axis names v in
  let! updates := lift (input u 2) in
  ProcessInput env graph updates names.

Definition ScatterElements_ProcessAttributesAndOutputs (u : UnitView) (input_names : list string) (v : bool) : M unit :=
  match input_names with
  | [] => ret tt
  | _ =>
      let reduction := Get_string u "reduction" "none" in
      let! _ := lift (return_if_not (bool_decide (reduction ∈ ScatterElements_kSupportedReductions))
        ("ScatterElements does not support reduction " +:+ reduction)) in
      let! axis := lift (GetCanonicalizedAxisAttribute u "axis" 0) in
      let! ps := scalar u (SCALAR_UINT_32 (u32 axis)) "QNN_OP_SCATTER_ELEMENTS_PARAM_AXIS" [] in
      let! value := lift (
        match find_assoc reduction [("none", "QNN_OP_SCATTER_ELEMENTS_REDUCTION_NONE"); ("add", "QNN_OP_SCATTER_ELEMENTS_REDUCTION_ADD");
            ("mul", "QNN_OP_SCATTER_ELEMENTS_REDUCTION_MUL"); ("max", "QNN_OP_SCATTER_ELEMENTS_REDUCTION_MAX")] with
        | Some r => Ok (macro_value qnn r)
        | None => Err (EpFail ("Unexpected ScatterElements reduction: " +:+ reduction))
        end) in
      let! ps := scalar u (SCALAR_UINT_32 value) "QNN_OP_SCATTER_ELEMENTS_PARAM_REDUCTION" ps in
      finish_node env graph qnn base_virtuals u input_names ps v
  end.

Definition ScatterElementsOpBuilder : OpBuilder :=
  Builder base_virtuals ScatterElements_ProcessInputs ScatterElements_ProcessAttributesAndOutputs.

(** ** Cast and CastLike *)

(** The QNN types of the first input and output, when both have one. *)
Definition cast_types (u : UnitView) : result (option (Qnn_DataType_t * Qnn_DataType_t)) :=
  let* i := input u 0 in
  let* o := output u 0 in
  match GetQnnDataType false (type i) CPU, GetQnnDataType false (type o) CPU with
  | Ok a, Ok b => Ok (Some (a, b))
  | _, _ => Ok None
  end.

Definition IsFpToBoolCast (u : UnitView) : result bool :=
  let* ts := cast_types u in
  Ok (match ts with
      | Some (a, b) => bool_decide (a ∈ [QNN_FLOAT_16; QNN_FLOAT_32]) && bool_decide (b = QNN_BOOL_8)
      | None => false
      end).

Definition UseSignAbsCastForHtp : bool := bool_decide (backend_type env ∈ [HTP; SERIALIZER]).

Definition IsUInt8ToFloatCastOnHtp (u : UnitView) : result bool :=
  let* ts := cast_types u in
  Ok (match ts with
      | Some (a, b) => bool_decide (a = QNN_UINT_8) && bool_decide (b ∈ [QNN_FLOAT_32; QNN_FLOAT_16])
          && bool_decide (backend_type env ∈ [HTP; SERIALIZER])
      | None => false
      end).

Local Abbreviation base_name u := (NodeUnitBaseName (u_name u) (u_op_type u) (N.of_nat (u_index u))).

Definition ProcessExtraInputForNotEqual (u : UnitView) (input_names : list string) : M (list string) :=
  let! i := lift (input u 0) in
  if bool_decide (is_Some (quant_param i)) then ret input_names
  else
  let n := base_name u +:+ "_notequal_zero" in
  let! dt := lift (GetQnnDataType false (type i) CPU) in
  let! size := lift (GetElementSizeByType_qnn dt) in
  let! _ := add_tensor env n TENSOR_TYPE_STATIC dt default_wrapper [1] (replicate (Z.to_nat size) 0)
    "Failed to add additional input tensor for QNN Cast node that will be replaced by NotEqual." in
  ret (input_names ++ [n]).

Definition Cast_ProcessInputs (u : UnitView) (v : bool) : M (list string) :=
  let! _ := lift (return_if_not (bool_decide (length (Inputs u) ∈ [1; 2]%nat))
    "QNN Cast node must have 1 input (Cast) or 2 inputs (CastLike).") in
  let! i := lift (input u 0) in
  let! _ := lift (return_if (IsGraphInput env (name i) && bool_decide (type i = ONNX_DOUBLE)) "Unsupported FP64 data type in graph IO.") in
  let extra :=
    let! fp_to_bool := lift (IsFpToBoolCast u) in
    if fp_to_bool && negb UseSignAbsCastForHtp then ProcessExtraInputForNotEqual u [name i] else ret [name i] in
  let! exists_ := get (fun m => IsQnnTensorWrapperExist m (name i)) in
  if exists_ : bool then extra
  else
  let! unpacked_tensor := lift (
    if IsConstantInput env (name i) then UnpackInitializerData graph (GetConstantTensor graph (name i)) true else Ok []) in
  let! input_shape := lift (shape_or i "Cannot get shape for QNN Cast node's input.") in
  let! dt := lift (GetQnnDataType false (type i) CPU) in
  let! _ := add_tensor env (name i) (TensorTypeOf env (name i)) dt default_wrapper input_shape unpacked_tensor
    "Failed to add input tensor for QNN Cast node." in
  extra.

Definition EmitSignAbsCastDecomposition (u : UnitView) (output_name : string) (v : bool) : M unit :=
  let! i := lift (input u 0) in
  let! dt := lift (GetQnnDataType false (type i) CPU) in
  let! input_shape := lift (shape_or i "Cannot get shape for FP-to-Bool Cast input.") in
  let sign_out_name := base_name u +:+ "_signabs_sign" in
  let abs_out_name := base_name u +:+ "_signabs_abs" in
  let! _ := add_tensor env sign_out_name TENSOR_TYPE_NATIVE dt default_wrapper input_shape [] "Failed to add Sign intermediate tensor." in
  let! _ := add_tensor env abs_out_name TENSOR_TYPE_NATIVE dt default_wrapper input_shape [] "Failed to add Abs intermediate tensor." in
  let! node := fresh_unit u "_signabs_sign_node" in
  let! _ := create_node env node (macro qnn "QNN_OP_ELEMENT_WISE_SIGN") [name i] [sign_out_name] [] v "Failed to create Sign node." in
  let! node := fresh_unit u "_signabs_abs_node" in
  let! _ := create_node env node (macro qnn "QNN_OP_ELEMENT_WISE_ABS") [sign_out_name] [abs_out_name] [] v "Failed to create Abs node." in
  let! node := fresh_unit u "" in
  create_node env node (QNN_OP_CAST env) [abs_out_name] [output_name] [] v "Failed to create Cast node.".

(** The first of [base], [base_1], [base_2], ... that names no tensor.  [fuel] bounds the loop. *)
Fixpoint free_name (m : QnnModelWrapper) (base n : string) (i fuel : nat) : result string :=
  if IsQnnTensorWrapperExist m n then
    match fuel with
    | O => Err Trap
    | S fuel => free_name m base (base +:+ "_" +:+ pretty i) (S i) fuel
    end
  else Ok n.

Definition int32_intermediate_name (u : UnitView) (m : QnnModelWrapper) : result string :=
  let int32_base := base_name u +:+ "_u8tof_int32" in
  free_name m int32_base int32_base 1 (size (model_tensors_map_ m)).

Definition EmitUInt8ToFloatViaInt32Decomposition (u : UnitView) (output_name : string) (v : bool) : M unit :=
  let! i := lift (input u 0) in
  let! shape := lift (shape_or i "Cannot get shape for uint8-to-float Cast input.") in
  let! found := get (int32_intermediate_name u) in
  let! int32_name := lift found in
  let! _ := add_tensor env int32_name TENSOR_TYPE_NATIVE QNN_INT_32 default_wrapper shape []
    "Failed to add int32 intermediate tensor for uint8-to-float Cast." in
  let! node := fresh_unit u "_u8tof_cast1" in
  let! _ := create_node env node (QNN_OP_CAST env) [name i] [int32_name] [] v "Failed to create uint8->int32 Cast node." in
  let! node := fresh_unit u "_u8tof_cast2" in
  create_node env node (QNN_OP_CAST env) [int32_name] [output_name] [] v "Failed to create int32->float Cast node.".

(** The type of the output: 64-bit integers and doubles inside the graph are narrowed. *)
Definition cast_output_type (dt : Qnn_DataType_t) (is_graph_output : bool) : result Qnn_DataType_t :=
  match dt with
  | QNN_INT_64 => Ok (if is_graph_output then QNN_INT_64 else QNN_INT_32)
  | QNN_FLOAT_64 => let* _ := return_if is_graph_output "Unsupported FP64 data type in graph IO." in Ok QNN_FLOAT_32
  | _ => Ok dt
  end.

Definition Cast_ProcessAttributesAndOutputs (u : UnitView) (input_names : list string) (v : bool) : M unit :=
  let! _ := lift (return_if_not (length (Outputs u) =? 1)%nat "QNN Cast node must have a single output.") in
  let! o := lift (output u 0) in
  let! dt := lift (GetQnnDataType false (type o) CPU) in
  let! output_shape := lift (shape_or o "Cannot get shape for QNN Cast node's output.") in
  let is_graph_output := IsGraphOutput env (name o) in
  let! dt := lift (cast_output_type dt is_graph_output) in
  let! _ := add_tensor env (name o) (native_or is_graph_output TENSOR_TYPE_APP_READ) dt default_wrapper output_shape []
    "Failed to add output tensor for QNN Cast node." in
  let! uint8_to_float := lift (IsUInt8ToFloatCastOnHtp u) in
  if uint8_to_float : bool then
    let! _ := lift (return_if_not (length input_names =? 1)%nat "uint8-to-float Cast decomposition expects exactly one input.") in
    EmitUInt8ToFloatViaInt32Decomposition u (name o) v
  else
  let! fp_to_bool := lift (IsFpToBoolCast u) in
  if fp_to_bool : bool then
    if UseSignAbsCastForHtp then
      let! _ := lift (return_if_not (length input_names =? 1)%nat "FP-to-Bool Cast decomposition expects exactly one input.") in
      EmitSignAbsCastDecomposition u (name o) v
    else
      let! node := fresh_unit u "" in
      create_node env node (macro qnn "QNN_OP_ELEMENT_WISE_NOT_EQUAL") input_names [name o] [] v "Failed to create NotEqual node."
  else
    let! node := fresh_unit u "" in
    let! op := lift (GetQnnOpType qnn (u_op_type u)) in
    create_node env node op input_names [name o] [] v "Failed to create Cast node.".

Definition CastOpBuilder : OpBuilder := Builder base_virtuals Cast_ProcessInputs Cast_ProcessAttributesAndOutputs.

End IndexBuilders.

(** ** The builders keep the laws *)

Section IndexLaws.
Context `{SafeInt} `{QnnInterface}.
Context (env : environment) (graph : OrtGraph) (qnn : QnnHeaders).

Definition two_outputs (u : UnitView) : Prop := length (Outputs u) = 2%nat.

Lemma both_outputs m u o1 o2 : aget (Outputs u) 0 = Ok o1 → aget (Outputs u) 1 = Ok o2 → two_outputs u →
  provided m (name o1) → provided m (name o2) → Forall (provided m) (required_outputs u).
Proof.
  intros E1%aget_Ok E2%aget_Ok. unfold two_outputs, required_outputs. destruct (Outputs u) as [|a [|b [|]]]; try done.
  injection E1 as ->. injection E2 as ->. intros _ ? ?. apply Forall_fmap, Forall_take. apply Forall_cons; split; [done|]. by apply Forall_singleton.
Qed.

#[export] Instance topk_virtual_laws : virtual_laws topk_virtuals.
Proof. apply override_laws. by left. Qed.

Lemma wp_TopK_output u axis names shapes k Q m : Forall (has m) names →
  (∀ m' n s, grows m m' → Forall (has m') (names ++ [n]) → Q (names ++ [n], shapes ++ [s]) m') →
  wp (TopK_output env graph u axis (names, shapes) k) Q m.
Proof.
  intros Hn HQ. eapply (wp_use (fun r m' => ∃ n s, r = (names ++ [n], shapes ++ [s]) ∧ Forall (has m') (names ++ [n]))).
  2:{ intros ? ? ? (n & s & -> & ?). auto. }
  unfold TopK_output. op_auto. eexists _, _. split; [reflexivity|]. solve_names.
Qed.

Lemma wp_TopK_back u axis names shapes v k Q m :
  (∀ m' o, grows m m' → aget (Outputs u) k = Ok o → (v = false → provided m' (name o)) → Q tt m') →
  wp (TopK_back env graph qnn u axis names shapes v tt k) Q m.
Proof.
  intros HQ. eapply (wp_use (fun _ m' => ∃ o, aget (Outputs u) k = Ok o ∧ (v = false → provided m' (name o)))).
  2:{ intros [] ? ? (o & ? & ?). eauto. }
  unfold TopK_back. op_auto; eexists; (split; [done|]); intros Hv;
    repeat match goal with Hw : _ = false → Forall _ _ |- _ => specialize (Hw ltac:(first [done|exact Hv])) end;
    by eapply Forall_inv.
Qed.

#[export] Instance TopK_laws : builder_laws (TopKOpBuilder env graph qnn) two_outputs.
Proof.
  split; intros; cbn [ProcessInputs ProcessAttributesAndOutputs TopKOpBuilder].
  - unfold TopK_ProcessInputs. mv_auto.
  - unfold TopK_ProcessAttributesAndOutputs. mv_until_if. mv_step; [mv_auto|]. wp_step. cbn [seq each].
    repeat lazymatch goal with |- wp (create_node _ _ _ _ _ _ _ _) _ _ => fail
      | |- wp (TopK_output _ _ _ _ _ _) _ _ => apply wp_TopK_output; [side|let Hg := fresh "Hg" in intros ? ? ? Hg ?; advance Hg]
      | |- _ => mv_step end.
    mv_step. mv_step. cbn [each]. wp_step. apply wp_TopK_back. intros m2 o1 Hb2 Eo1 Hp1 _. wp_step. apply wp_TopK_back.
    intros m3 o2 Hb3 Eo2 Hp2 _. apply wp_ret. intros Hv _ Ho. eapply both_outputs; [done..| |by apply Hp2].
    eapply provided_grows; [by apply Hp1|done].
Qed.

#[export] Instance ScatterND_laws : builder_laws (ScatterNDOpBuilder env graph qnn) any_unit.
Proof.
  split; intros; cbn [ProcessInputs ProcessAttributesAndOutputs ScatterNDOpBuilder].
  - unfold ScatterND_ProcessInputs, ProcessScatterNDIndices.
    repeat lazymatch goal with
      | |- wp (AddNormalizedIndicesTensor _ _ _ _ _ _) _ _ =>
          apply wp_AddNormalizedIndicesTensor; [side|let Hg := fresh "Hg" in intros ? ? Hg ? ?; advance Hg]
      | |- _ => mv_step end; some_inputs.
  - unfold ScatterND_ProcessAttributesAndOutputs. destruct names as [|n names]; mv_auto.
Qed.

#[export] Instance ScatterElements_laws : builder_laws (ScatterElementsOpBuilder env graph qnn) any_unit.
Proof.
  split; intros; cbn [ProcessInputs ProcessAttributesAndOutputs ScatterElementsOpBuilder].
  - unfold ScatterElements_ProcessInputs, ProcessScatterElementsIndices.
    repeat lazymatch goal with
      | |- wp (AddNormalizedIndicesTensor _ _ _ _ _ _) _ _ =>
          apply wp_AddNormalizedIndicesTensor; [side|let Hg := fresh "Hg" in intros ? ? Hg ? ?; advance Hg]
      | |- _ => mv_step end; some_inputs.
  - unfold ScatterElements_ProcessAttributesAndOutputs. destruct names as [|n names]; mv_auto.
Qed.

(** Cast writes its output from the first input, whatever names it is given: the laws hold for the
    whole run. *)
Lemma wp_Cast_inputs u v Q m :
  (∀ m' i names, grows m m' → aget (Inputs u) 0 = Ok i → has m' (name i) → Forall (has m') names → names ≠ [] → Q names m') →
  wp (Cast_ProcessInputs env graph u v) Q m.
Proof.
  intros HQ. eapply (wp_use (fun names m' => ∃ i, aget (Inputs u) 0 = Ok i ∧ has m' (name i) ∧ Forall (has m') names ∧ names ≠ [])).
  2:{ intros ? ? ? (i & ? & ? & ? & ?). eauto. }
  unfold Cast_ProcessInputs, ProcessExtraInputForNotEqual. mv_until_if.
  match goal with |- wp (if ?b then _ else _) _ _ => destruct b eqn:Ex end; [apply exists_has in Ex|];
    mv_auto; match goal with Ei : aget (Inputs u) 0 = Ok ?i, Hh : has _ (name ?i) |- _ => exists i end;
    (split_and!; [done|done|solve_names|done]).
Qed.

Lemma wp_Cast_outputs u names v i m : Forall (has m) names → aget (Inputs u) 0 = Ok i → has m (name i) →
  wp (Cast_ProcessAttributesAndOutputs env qnn u names v) (fun _ m' => v = false → Forall (provided m') (required_outputs u)) m.
Proof.
  intros Hn Ei Hi. unfold Cast_ProcessAttributesAndOutputs, EmitUInt8ToFloatViaInt32Decomposition, EmitSignAbsCastDecomposition.
  mv_step. mv_step. match goal with El : return_if_not _ _ = Ok _ |- _ => apply return_if_not_Ok, Nat.eqb_eq in El as Ho end.
  rewrite Ei. mv_auto;
    repeat match goal with E : Ok _ = Ok _ |- _ => injection E as <- end; mv_auto; intros Hv;
    (eapply single_output; [by apply aget_Ok|done|]); match goal with Hw : _ → Forall _ [name _] |- _ => by eapply Forall_inv, Hw end.
Qed.

Lemma Cast_keeps u v m :
  wp (AddToModelBuilder env (CastOpBuilder env graph qnn) u v)
    (fun _ m' => v = false → Forall (provided m') (required_outputs u)) m.
Proof.
  unfold AddToModelBuilder. cbn [ProcessInputs ProcessAttributesAndOutputs CastOpBuilder]. wp_step. apply wp_Cast_inputs.
  intros m1 i names Hg1 Ei Hi Hn _ _. wp_step. apply wp_ProcessInt64Tensors; [done|]. intros m2 r Hg2 Hr _ _. advance Hg2.
  by eapply wp_Cast_outputs.
Qed.

End IndexLaws.
(** ** The name of the intermediate tensor of a Cast *)

Section FreeName.
Context `{QnnInterface}.

Definition candidate (base : string) (i : nat) : string := base +:+ "_" +:+ pretty i.

Lemma candidate_inj base i j : candidate base i = candidate base j → i = j.
Proof. intros E. unfold candidate in E. by repeat apply (inj _) in E. Qed.

Lemma candidate_ne base i : base ≠ candidate base i.
Proof. intros E%(f_equal String.length). unfold candidate in E. rewrite string_app_length in E. change (String.length ("_" +:+ pretty i)) with (S (String.length (pretty i))) in E. lia. Qed.

(** The loop ends without a name only when all of its candidates name tensors. *)
Lemma free_name_step m base fuel : ∀ n i,
  match free_name m base n i fuel with
  | Ok n' => model_tensors_map_ m !! n' = None ∧ (n' = n ∨ ∃ j, n' = candidate base j)
  | Err _ => Forall (has m) (n :: (candidate base <$> seq i fuel))
  end.
Proof.
  induction fuel as [|fuel IH]; intros n i; cbn [free_name]; unfold IsQnnTensorWrapperExist at 1; case_bool_decide as Hn;
    try by (split; [by apply eq_None_not_Some|left]).
  - by apply Forall_singleton.
  - specialize (IH (base +:+ "_" +:+ pretty i) (S i)). destruct (free_name _ _ _ _ _); [|by apply Forall_cons].
    destruct IH as [? [->|?]]; (split; [done|right]); [by exists i|done].
Qed.

(** The loop of the Cast ends, with a name that no tensor has. *)
Lemma free_name_found m base : base ≠ "" →
  ∃ n, free_name m base base 1 (size (model_tensors_map_ m)) = Ok n ∧ model_tensors_map_ m !! n = None ∧ n ≠ "".
Proof.
  intros Hb. pose proof (free_name_step m base (size (model_tensors_map_ m)) base 1) as Hs. destruct (free_name _ _ _ _ _) as [n|].
  { exists n. destruct Hs as [Hn Hf]. split_and!; [done|done|]. destruct Hf as [->|[j ->]]; [done|]. by destruct base. }
  exfalso. set (l := base :: _) in Hs. assert (NoDup l) as Hd.
  { apply NoDup_cons. split.
    - intros (j & Ej & _)%list_elem_of_fmap. by apply (candidate_ne base j).
    - apply (NoDup_fmap_2_strong _ _); [|apply NoDup_seq]. intros ? ? _ _. apply candidate_inj. }
  assert (list_to_set l ⊆ dom (model_tensors_map_ m)) as Hsub.
  { intros n Hn%elem_of_list_to_set. apply elem_of_dom. exact (proj1 (Forall_forall _ _) Hs n Hn). }
  apply subseteq_size in Hsub. rewrite size_list_to_set, size_dom in Hsub by done. subst l. cbn in Hsub.
  rewrite length_fmap, length_seq in Hsub. lia.
Qed.

End FreeName.
