(* ===== verification/MatMulBuilders.v ===== *)
(** * Op builders of MatMul and Gemm

    The builders of [builder/opbuilder/matmul_op_builder.cc] and [gemm_op_builder.cc], with the helpers
    for block-quantized weights of [builder/qnn_bq_utils.cc] that add tensors and nodes.  An ONNX MatMul
    becomes a QNN MatMul, a FullyConnected or, for low power block quantization, a 1x1 Conv2D, with
    Reshape nodes where the ranks differ. *)

From S2P Require Import Prelude SubByte DataTypes Floats QuantParams Perm Transpose QnnTensor Quantize ModelWrapper NodeGroups QdqSelector NodeUnitDefs TensorInfo ModelOps OpBuilder Builders Convert MoveBuilders Bias.
Local Open Scope Z_scope.

(** ** Computations *)

(** Whether the step of 8 bits is too coarse: half of it exceeds 0.15. *)
Definition ShouldUseSymmetricU16ForMatMul (input1_scale : float) : bool :=
  let kMaximumValueQuantError := f32_div (f32_of_Z 15) (f32_of_Z 100) in
  let u8_half_step := f32_div (f32_div (f32_mul input1_scale (f32_of_Z 65535)) (f32_of_Z 255)) (f32_of_Z 2) in
  f_lt kMaximumValueQuantError u8_half_step.

(** The product of all but the last [n_trailing] dimensions; the [int64_t] product must not
    overflow. *)
Definition FlattenLeadingDims (shape : list Z) (n_trailing : nat) : result Z :=
  let* _ := return_if (length shape <? n_trailing)%nat "FlattenLeadingDims: n_trailing exceeds shape rank." in
  let* batch := foldM (fun b d => if b * d <? 2 ^ 63 then Ok (b * d) else Err Trap) (take (length shape - n_trailing) shape) 1 in
  let* _ := return_if ((batch <=? 0) || (2 ^ 32 - 1 <? batch)) "MatMul: flattened batch dimension product overflows uint32_t." in
  Ok batch.

(** [TwoDimensionTranspose] of an initializer: the data and the new shape.  Only its size matters
    when the data is skipped. *)
Definition TwoDimensionTranspose_init (graph : OrtGraph) (data_shape : list Z) (initializer : option ValueInfo)
  (skip_output_data_copy : bool) : result (list Z * list Z) :=
  match data_shape with
  | [rows; cols] =>
      let* onnx_type := elem_type_of graph initializer in
      let* elem_byte_size := GetElementSizeByType_onnx onnx_type in
      let* _ := return_if_not (negb (elem_byte_size =? 0)) "Can't get element byte size from given ONNX type" in
      if skip_output_data_copy then Ok (replicate (Z.to_nat (u64 (rows * cols * elem_byte_size))) 0, [cols; rows])
      else
      let* input_buffer := UnpackInitializerData graph initializer true in
      let* data := TwoDimensionTranspose (Z.to_nat rows) (Z.to_nat cols) (Z.to_nat elem_byte_size) input_buffer
        (replicate (length input_buffer) 0) in
      Ok (data, [cols; rows])
  | _ => Err (EpFail "Expected shape of rank 2")
  end.

(** Scales or offsets of [rows * cols] blocks, transposed. *)
Definition transpose_blocks (data : list float) (rows cols : Z) : result (list float) :=
  TwoDimensionTranspose_vec f_zero data [Z.to_nat (u32 rows); Z.to_nat (u32 cols)] [] false.

Section MatMul.
Context `{SafeInt} `{QnnInterface}.
Context (env : environment) (graph : OrtGraph) (qnn : QnnHeaders).

Local Abbreviation tensor_info io := (GetTensorInfo env graph io).
Local Abbreviation input u i := (aget (Inputs u) i).
Local Abbreviation output u i := (aget (Outputs u) i).
Local Abbreviation scalar u v n ps := (AddQnnScalar (u_index u) (u_name u) v (macro qnn n) ps).
Local Abbreviation npu := (IsNpuBackend (backend_type env)).

(** ** Nodes around block-quantized weights *)

Definition AddInt16ToFp16DequantForActivation (act_name fp16_name op_tag : string) (v : bool) : M unit :=
  let! w := tensor_of act_name in
  let! act_dtype := lift (GetTensorDataType w) in
  let! _ := lift (return_if_not (bool_decide (act_dtype ∈ [QNN_SFIXED_POINT_16; QNN_UFIXED_POINT_16]))
    ("QNN EP: BQ " +:+ op_tag +:+ " activation must be INT16-quantized for the BW_FLOAT_BLOCK kernel")) in
  AddDequantizeNode env qnn act_name fp16_name QNN_FLOAT_16 (dimensions_ w) v.

Definition AddFp16ToInt16QuantizeOutput (fp16_out_name int16_out_name : string) (ty : Qnn_TensorType_t) (dt : Qnn_DataType_t)
  (q : QnnQuantParamsWrapper) (shape : list Z) (v : bool) : M unit :=
  AddQuantizeNode env qnn fp16_out_name int16_out_name ty dt q shape v.

Definition RegisterLPBQWeightAsConv1x1Filter (weight_name : string) (weight_info : TensorInfo) (weight_data : list Z)
  (input_names : list string) : M (list string) :=
  match info_shape weight_info with
  | [K; N] =>
      let! _ := lift (return_if_not (IsLPBQ (info_quant_param weight_info)) "LPBQ 1x1 filter lowering requires LPBQ quant params") in
      let conv_weight_shape := [1; 1; K; N] in
      let! q := lift (Copy (info_quant_param weight_info)) in
      let! q := lift (HandleUnsqueeze q [K; N] conv_weight_shape) in
      let! conv_weight_name := fresh weight_name "_reshape" in
      let! _ := add_tensor env conv_weight_name (TensorTypeOf env weight_name) (info_data_type weight_info) q conv_weight_shape weight_data
        "Failed to add LPBQ 1x1 filter weight tensor." in
      ret (input_names ++ [conv_weight_name])
  | _ => lift (Err (EpFail "LPBQ 1x1 filter lowering requires weight to be rank-2 [K, N]"))
  end.

Definition BuildConv2DParamsForBQLowering (u : UnitView) (ps : list string) : M (list string) :=
  let param n s d := add_u32_param env (u_index u) (u_name u) (macro qnn n) s d in
  let! stride := param "QNN_OP_CONV_2D_PARAM_STRIDE" [2] [1; 1] in
  let! pad := param "QNN_OP_CONV_2D_PARAM_PAD_AMOUNT" [2; 2] [0; 0; 0; 0] in
  let! dilation := param "QNN_OP_CONV_2D_PARAM_DILATION" [2] [1; 1] in
  scalar u (SCALAR_UINT_32 1) "QNN_OP_CONV_2D_PARAM_GROUP" (ps ++ [stride; pad; dilation]).

Definition AddConv2DNodeforBQLowering (u : UnitView) (input_names : list string) (output_name : string) (output_shape : list Z)
  (dt : Qnn_DataType_t) (quant : QnnQuantParamsWrapper) (is_graph_output v : bool) : M unit :=
  let! ps := BuildConv2DParamsForBQLowering u [] in
  let! q := lift (Copy quant) in
  let! _ := add_tensor env output_name (native_or is_graph_output TENSOR_TYPE_APP_READ) dt q output_shape []
    "Failed to add Conv2D output tensor." in
  let! node := fresh_unit u "" in
  create_node env node (macro qnn "QNN_OP_CONV_2D") input_names [output_name] ps v "Failed to add Conv2D node.".

(** ** MatMul *)

Definition IsBQWeight (weight : OrtNodeUnitIODef) : result bool :=
  if negb npu then Ok false
  else match quant_param weight with
  | None => Ok false
  | Some qp =>
      match scale qp with
      | None => Ok false
      | Some s =>
          let scale_shape := GetInitializerShape (Some s) in
          let* shape := GetOnnxShape (shape weight) in
          match shape with
          | None => Ok false
          | Some weight_shape =>
              let rank := length weight_shape in
              let leading := take (rank - 2) in
              if (rank <? 2)%nat || (4 <? rank)%nat then Ok false
              else if negb (forallb (Z.eqb 1) (leading weight_shape)) then Ok false
              else if negb (length scale_shape =? rank)%nat then Ok false
              else if negb (forallb (Z.eqb 1) (leading scale_shape)) then Ok false
              else Ok (IsBQScale scale_shape weight_shape (rank - 2))
          end
      end
  end.

(** SDKs in which the validation of FullyConnected crashes. *)
Definition old_sdk : bool := (2 <=? macro_value qnn "QNN_API_VERSION_MAJOR") && (macro_value qnn "QNN_API_VERSION_MINOR" <=? 20).

Record MatMulInputs := Plan { info_0 : TensorInfo; info_1 : TensorInfo; use_fully_connected : bool; use_conv2d : bool }.

Definition MatMul_CheckInputs (input_def_0 input_def_1 : OrtNodeUnitIODef) : result MatMulInputs :=
  let* i0 := tensor_info input_def_0 in
  let* i1 := tensor_info input_def_1 in
  let use_conv2d := npu && IsLPBQ (info_quant_param i1) && (length (info_shape i1) =? 2)%nat && info_is_initializer i1
    && (2 <=? length (info_shape i0))%nat && IsQuant16bit (info_data_type i0) in
  if use_native_matmul (model_settings_ env) then Ok (Plan i0 i1 false use_conv2d)
  else if old_sdk then Ok (Plan i0 i1 false use_conv2d)
  else
  let fc := ((length (info_shape i1) =? 2)%nat && info_is_initializer i1) || (length (info_shape i1) =? 1)%nat in
  let fc := fc && negb (IsPerChannel (info_quant_param i0) && (2 <? length (info_shape i0))%nat) in
  let fc := fc && negb (IsQuant16bit (info_data_type i0) && negb (info_is_initializer i0)
    && IsQuant16bit (info_data_type i1) && negb (info_is_initializer i1)) in
  Ok (Plan i0 i1 (fc && negb use_conv2d) use_conv2d).

(** The shape of the first input; [mismatch] is the wanted shape, when it differs. *)
Definition input_0_target (shape : list Z) (mismatch : option (list Z)) : result (list Z) :=
  match mismatch with
  | Some t => Ok t
  | None =>
      if (length shape =? 1)%nat then let* d := aget shape 0 in Ok [1; d]
      else
      let* batch := FlattenLeadingDims shape 1 in
      match last shape with Some d => Ok [batch; d] | None => Err Trap end
  end.

(** A tensor that is not in the table yet. *)
Definition add_if_new (n : string) (w : result QnnTensorWrapper) (msg : string) : M unit :=
  let! exists_ := get (fun m => IsQnnTensorWrapperExist m n) in
  if exists_ : bool then ret tt
  else let! w := lift w in add_wrapper env w msg.

(** An input with a new shape: a constant of that shape, or a Reshape node. *)
Definition reshape_input (original_name new_name : string) (ty : Qnn_TensorType_t) (info : TensorInfo) (target : list Z)
  (quant : QnnQuantParamsWrapper) (v : bool) : M unit :=
  if info_is_initializer info then
    let! unpacked_tensor := lift (UnpackInitializerData graph (info_initializer info) true) in
    add_tensor env new_name ty (info_data_type info) quant target unpacked_tensor "Failed to add tensor."
  else
    AddReshapeNode env qnn original_name new_name (info_shape info) target (info_data_type info) (info_quant_param info) quant v
      (IsGraphInput env original_name) false.

Definition MatMul_ProcessInput0 (info : TensorInfo) (original_name : string) (input_names : list string) (v use_fc : bool)
  (target_shape : option (list Z)) : M (list string) :=
  let! _ := lift (return_if (use_fc && bool_decide (is_Some target_shape))
    "use_fully_connected and target_shape (conv2d path) are mutually exclusive") in
  let is_rank1 := (length (info_shape info) =? 1)%nat in
  let mismatch := match target_shape with Some t => if bool_decide (info_shape info = t) then None else Some t | None => None end in
  let shape_mismatch := bool_decide (is_Some mismatch) in
  if is_rank1 || shape_mismatch || (use_fc && (2 <? length (info_shape info))%nat) then
    let! actual_name := fresh original_name "_reshape" in
    let! target := lift (input_0_target (info_shape info) mismatch) in
    let! q := lift (Copy (info_quant_param info)) in
    let! q := lift (if is_rank1 || shape_mismatch then HandleUnsqueeze q (info_shape info) target else Ok q) in
    let! _ := reshape_input original_name actual_name TENSOR_TYPE_STATIC info target q v in
    ret (input_names ++ [actual_name])
  else
    let! _ := add_if_new original_name (MakeTensorWrapper_info env graph info original_name) "Failed to add tensor." in
    ret (input_names ++ [original_name]).

(** The uint16 workaround: a Convert between the second input and the node. *)
Definition matmul_convert (info_1 : TensorInfo) (n : string) (shape : list Z) (v : bool) : M string :=
  let! _ := lift (return_if_not (IsPerTensor (info_quant_param info_1) false)
    "MatMul's activation inputs only support per-tensor quantization") in
  let! (scale, offset) := lift (scaleOffsetEncoding (params_ (info_quant_param info_1))) in
  let! convert_output_name := fresh n "_convert" in
  let convert dt symmetric :=
    let! _ := InsertConvertOp env qnn n convert_output_name (info_data_type info_1) dt offset scale shape symmetric v TENSOR_TYPE_NATIVE in
    ret convert_output_name in
  if info_is_initializer info_1 then convert QNN_SFIXED_POINT_16 true
  else if offset =? -32768 then ret n
  else if ShouldUseSymmetricU16ForMatMul scale then convert QNN_UFIXED_POINT_16 true
  else convert QNN_UFIXED_POINT_8 false.

Definition ProcessInputsForQnnMatMul (u : UnitView) (p : MatMulInputs) (v : bool) : M (list string) :=
  let '(Plan i0 i1 _ _) := p in
  let! d0 := lift (input u 0) in
  let! names := MatMul_ProcessInput0 i0 (name d0) [] v false None in
  let! d1 := lift (input u 1) in
  let! (n1, shape1) :=
    match info_shape i1 with
    | [d] =>
        let! q := lift (Copy (info_quant_param i1)) in
        let! n := fresh (name d1) "_reshape" in
        let! q := lift (HandleUnsqueeze q [d] [d; 1]) in
        let! _ := reshape_input (name d1) n (TensorTypeOf env (name d1)) i1 [d; 1] q v in
        ret (n, [d; 1])
    | s =>
        let! _ := add_if_new (name d1) (MakeTensorWrapper env graph d1) "Failed to add tensor." in
        ret (name d1, s)
    end in
  let! n1 :=
    if npu && negb (info_is_initializer i0) && bool_decide (info_data_type i0 = info_data_type i1)
      && bool_decide (info_data_type i0 = QNN_UFIXED_POINT_16) then matmul_convert i1 n1 shape1 v
    else ret n1 in
  ret (names ++ [n1]).

(** The weight of FullyConnected is [n, k]. *)
Definition ProcessInputsForQnnFullyConnected (u : UnitView) (p : MatMulInputs) (v : bool) : M (list string) :=
  let '(Plan i0 i1 _ _) := p in
  let! d0 := lift (input u 0) in
  let! names := MatMul_ProcessInput0 i0 (name d0) [] v true None in
  let! d1 := lift (input u 1) in
  let! q := lift (Copy (info_quant_param i1)) in
  let! (n1, shape_2d, q, rank1) :=
    match info_shape i1 with
    | [d] =>
        let! n := fresh (name d1) "_reshape" in
        let! q := lift (HandleUnsqueeze q [d] [1; d]) in
        ret (n, [1; d], q, true)
    | s =>
        let! n := fresh (name d1) "_transpose" in
        let! a := lift (aget s 1) in
        let! b := lift (aget s 0) in
        let! q := lift (HandleTranspose q [1; 0]) in
        ret (n, [a; b], q, false)
    end in
  let! _ :=
    if info_is_initializer i1 then
      let! unpacked_tensor := lift (
        if rank1 : bool then UnpackInitializerData graph (info_initializer i1) true
        else rmap fst (TwoDimensionTranspose_init graph (info_shape i1) (info_initializer i1) v)) in
      add_tensor env n1 (TensorTypeOf env (name d1)) (info_data_type i1) q shape_2d unpacked_tensor "Failed to add tensor."
    else
      AddReshapeNode env qnn (name d1) n1 (info_shape i1) shape_2d (info_data_type i1) (info_quant_param i1) q v
        (IsGraphInput env (name d1)) false in
  let! w := tensor_of n1 in
  let! dt := lift (GetTensorDataType w) in
  if npu && bool_decide (dt = QNN_UFIXED_POINT_16) then
    let! _ := lift (return_if_not (IsPerTensor (quant_params_ w) false)
      "FC's INT16 weight inputs only support INT16 per-tensor quantization") in
    let! n := fresh n1 "_convert" in
    let! (scale, offset) := lift (scaleOffsetEncoding (params_ (quant_params_ w))) in
    let! _ := InsertConvertOp env qnn n1 n QNN_UFIXED_POINT_16 QNN_SFIXED_POINT_16 offset scale (dimensions_ w) true v TENSOR_TYPE_NATIVE in
    ret (names ++ [n])
  else ret (names ++ [n1]).

Definition ProcessInputsForQnnConv2D (u : UnitView) (p : MatMulInputs) (v : bool) : M (list string) :=
  let '(Plan i0 i1 _ _) := p in
  let! d0 := lift (input u 0) in
  let! d1 := lift (input u 1) in
  let! conv_input_shape := lift (
    match info_shape i0 with
    | [m; k] => Ok [1; 1; m; k]
    | [b; m; k] => Ok [b; 1; m; k]
    | [b; c; m; k] => Ok [b; c; m; k]
    | _ => Err (EpFail "LPBQ Conv2D lowering only supports activation rank 2, 3, or 4.")
    end) in
  let! names := MatMul_ProcessInput0 i0 (name d0) [] v false (Some conv_input_shape) in
  let! _ := lift (return_if_not (info_is_initializer i1) "LPBQ Conv2D lowering requires weight to be static initializer") in
  let! unpacked_tensor := lift (UnpackInitializerData graph (info_initializer i1) true) in
  RegisterLPBQWeightAsConv1x1Filter (name d1) i1 unpacked_tensor names.

(** The description of a block-quantized weight: block size, bit width, scales and offsets in the
    order of QNN ([N] by [num_blocks]), and the data in the signed domain. *)
Definition bq_blocks (weight : OrtNodeUnitIODef) (info : TensorInfo) (K num_blocks : Z) : result (Z * Z * list Z) :=
  let* block_size := ResolveBlockSize weight K num_blocks in
  let bitwidth := GetBQBitwidth (type weight) in
  let* _ := ValidateBQBitwidthAndBlockSize bitwidth block_size in
  let* unpacked := UnpackInitializerData graph (info_initializer info) true in
  let* unpacked := if IsUnsignedBQType (type weight) then TransformUnsignedToSignedFixedPoint unpacked bitwidth else Ok unpacked in
  Ok (block_size, bitwidth, unpacked).

Definition bq_scales (weight : OrtNodeUnitIODef) (bitwidth count : Z) (msg : string) : result (list float * list float) :=
  match quant_param weight with
  | None => Err Trap
  | Some qp =>
      let* onnx_scales := UnpackScales graph (scale qp) in
      let* _ := return_if_not (Z.of_nat (length onnx_scales) =? count) msg in
      let* onnx_offsets := ComputeBQOffsets graph (zero_point qp) (IsUnsignedBQType (type weight)) bitwidth count in
      Ok (onnx_scales, onnx_offsets)
  end.

(** [inputs[i].quant_param->scale]. *)
Definition weight_scale_shape (weight : OrtNodeUnitIODef) : result (list Z) :=
  match quant_param weight with None => Err Trap | Some qp => Ok (GetInitializerShape (scale qp)) end.

(** The activation as FP16, reshaped to [batch, 1, M, K]. *)
Definition bq_activation (u : UnitView) (act_name : string) (v : bool) : M string :=
  let! w := tensor_of act_name in
  let act_shape := dimensions_ w in
  let! fp16_name := lift (aget (u_node_inputs u) 0) in
  let! _ := AddInt16ToFp16DequantForActivation act_name fp16_name "MatMul" v in
  let! k_dim := lift (match last act_shape with Some d => Ok d | None => Err Trap end) in
  let! m_dim := lift (if (length act_shape <? 2)%nat then Err Trap else aget act_shape (length act_shape - 2)) in
  let! batch := lift (FlattenLeadingDims act_shape 2) in
  let! act_4d_name := fresh fp16_name "_reshape_4d" in
  let! _ := AddReshapeNode_same env qnn fp16_name act_4d_name act_shape [batch; 1; m_dim; k_dim] QNN_FLOAT_16 default_wrapper v false false in
  ret act_4d_name.

(** The weight as [1, 1, K, N] with a scale and an offset per block. *)
Definition bq_weight (weight : OrtNodeUnitIODef) (info : TensorInfo) : M string :=
  let w_rank := length (info_shape info) in
  let! K := lift (aget (info_shape info) (w_rank - 2)) in
  let! N := lift (aget (info_shape info) (w_rank - 1)) in
  let! scale_shape := lift (weight_scale_shape weight) in
  let! _ := lift (return_if_not (length scale_shape =? w_rank)%nat "QNN EP: BQ MatMul scale rank must match weight rank") in
  let! num_blocks := lift (aget scale_shape (w_rank - 2)) in
  let! (block_size, bitwidth, unpacked_tensor) := lift (bq_blocks weight info K num_blocks) in
  let! (onnx_scales, onnx_offsets) := lift (bq_scales weight bitwidth (num_blocks * N) "QNN EP: BQ MatMul scale size mismatch") in
  let! scales_qnn := lift (transpose_blocks onnx_scales num_blocks N) in
  let! offsets_qnn := lift (transpose_blocks onnx_offsets num_blocks N) in
  let! q := lift (BwFloatBlock scales_qnn offsets_qnn bitwidth [1; 1; u32 block_size; 1]) in
  let! _ := add_tensor env (name weight) (TensorTypeOf env (name weight)) QNN_SFIXED_POINT_8 q [1; 1; u32 K; u32 N] unpacked_tensor
    "Failed to add BQ MatMul weight tensor." in
  ret (name weight).

Definition ProcessInputsForBQMatMul (u : UnitView) (v : bool) : M (list string) :=
  let! d0 := lift (input u 0) in
  let! d1 := lift (input u 1) in
  let! i1 := lift (tensor_info d1) in
  let! _ := lift (return_if_not (info_is_initializer i1) "QNN EP: BQ MatMul weight must be a constant initializer") in
  let w_rank := length (info_shape i1) in
  let! _ := lift (return_if_not ((2 <=? w_rank)%nat && (w_rank <=? 4)%nat)
    "QNN EP: BQ MatMul weight must be rank 2, 3, or 4 with shape [..., K, N]") in
  let! i0 := lift (tensor_info d0) in
  let! _ := lift (return_if_not (2 <=? length (info_shape i0))%nat
    "QNN EP: BQ MatMul activation must be rank >= 2 so it can be reshaped to 4-D [batch, 1, M, K]") in
  let! names := MatMul_ProcessInput0 i0 (name d0) [] v false None in
  let! act_name := lift (aget names 0) in
  let! act := bq_activation u act_name v in
  let! weight := bq_weight d1 i1 in
  ret [act; weight].

Definition MatMul_ProcessInputs (u : UnitView) (v : bool) : M (list string) :=
  let! d0 := lift (input u 0) in
  let! d1 := lift (input u 1) in
  let! p := lift (MatMul_CheckInputs d0 d1) in
  let! bq := lift (IsBQWeight d1) in
  if bq && negb (IsLPBQ (info_quant_param (info_1 p))) then ProcessInputsForBQMatMul u v
  else if use_conv2d p then ProcessInputsForQnnConv2D u p v
  else if use_fully_connected p then ProcessInputsForQnnFullyConnected u p v
  else ProcessInputsForQnnMatMul u p v.

(** [shape] with a dimension 1 before the last [n]. *)
Definition insert_one (shape : list Z) (n : nat) : result (list Z) :=
  if (length shape <? n)%nat then Err Trap
  else Ok (take (length shape - n) shape ++ 1 :: drop (length shape - n) shape).

(** The shape and parameters of the output of the node, when a Reshape follows it. *)
Definition matmul_output (p : MatMulInputs) (fc : bool) (info : TensorInfo) : result (list Z * QnnQuantParamsWrapper) :=
  let '(Plan i0 i1 _ conv2d) := p in
  let reshape_input_0 := (length (info_shape i0) =? 1)%nat in
  let reshape_input_1 := (length (info_shape i1) =? 1)%nat in
  let* q := Copy (info_quant_param info) in
  if conv2d then
    let* s := insert_one (info_shape info) 2 in
    let s := if (length s <? 4)%nat then 1 :: s else s in
    let* q := HandleUnsqueeze q (info_shape info) s in
    Ok (s, q)
  else if fc && (2 <? length (info_shape i0))%nat then
    let* batch := FlattenLeadingDims (info_shape i0) 1 in
    let* n := if reshape_input_1 then Ok 1 else match last (info_shape i1) with Some d => Ok d | None => Err Trap end in
    let* _ := return_if (IsPerChannel q) "QNN FC output does not support per-channel quant." in
    Ok ([batch; n], q)
  else
    let* s := if reshape_input_1 then Ok (info_shape info ++ [1])
              else if reshape_input_0 then insert_one (info_shape info) 1 else Ok (info_shape info) in
    let* q := HandleUnsqueeze q (info_shape info) s in
    Ok (s, q).

(** A node with a block-quantized weight: 4-D FP16 output, Reshape, Quantize. *)
Definition bq_matmul_node (u : UnitView) (qnn_op_type : string) (input_names ps : list string) (op_output_name : string)
  (ty : Qnn_TensorType_t) (info : TensorInfo) (shape : list Z) (q : QnnQuantParamsWrapper) (v : bool) : M unit :=
  let! _ := lift (return_if_not (IsQuantized (info_quant_param info))
    "QNN EP: BQ MatMul output must be INT16-quantized; float output is not yet supported") in
  let! n_dim := lift (match last shape with Some d => Ok d | None => Err Trap end) in
  let! m_dim := lift (if (length shape <? 2)%nat then Err Trap else aget shape (length shape - 2)) in
  let! batch := lift (FlattenLeadingDims shape 2) in
  let shape_4d := [batch; 1; m_dim; n_dim] in
  let! matmul_4d_out := fresh op_output_name "_matmul_4d" in
  let! _ := add_tensor env matmul_4d_out TENSOR_TYPE_NATIVE QNN_FLOAT_16 default_wrapper shape_4d []
    "Failed to add 4-D FP16 BQ MatMul output tensor." in
  let! node := fresh_unit u "" in
  let! _ := create_node env node qnn_op_type input_names [matmul_4d_out] ps v "Failed to add BQ MatMul node." in
  let! matmul_fp16_out := lift (aget (u_node_outputs u) 0) in
  let! _ := AddReshapeNode_same env qnn matmul_4d_out matmul_fp16_out shape_4d shape QNN_FLOAT_16 default_wrapper v false false in
  let! q := lift (Copy q) in
  AddFp16ToInt16QuantizeOutput matmul_fp16_out op_output_name ty (info_data_type info) q shape v.

Definition matmul_node (u : UnitView) (qnn_op_type : string) (input_names ps : list string) (op_output_name : string)
  (ty : Qnn_TensorType_t) (info : TensorInfo) (shape : list Z) (q : QnnQuantParamsWrapper) (v : bool) : M unit :=
  let! input_names :=
    if npu then ConvertActivationToOutputPrecision env qnn input_names (info_data_type info) v else ret input_names in
  let! n0 := lift (aget input_names 0) in
  let! activation_qnn_data_type := data_type_of n0 in
  let! node := fresh_unit u "" in
  let! q := lift (Copy q) in
  AddOpWithQuantizedOutput env qnn node qnn_op_type input_names ps op_output_name ty (info_data_type info) q shape
    activation_qnn_data_type v.

Definition MatMul_ProcessAttributesAndOutputs (u : UnitView) (input_names : list string) (v : bool) : M unit :=
  let! d0 := lift (input u 0) in
  let! d1 := lift (input u 1) in
  let! p := lift (MatMul_CheckInputs d0 d1) in
  let! bq := lift (IsBQWeight d1) in
  let fc := use_fully_connected p && negb bq in
  let rank0 := length (info_shape (info_0 p)) in
  let reshape_output := (rank0 =? 1)%nat || (length (info_shape (info_1 p)) =? 1)%nat || (fc && (2 <? rank0)%nat)
    || (use_conv2d p && (rank0 <? 4)%nat) in
  let! o := lift (output u 0) in
  let! info := lift (tensor_info o) in
  let! op_output_name := if reshape_output then fresh (name o) "_reshape" else ret (name o) in
  let! (shape, q) := lift (
    if reshape_output then matmul_output p fc info
    else let* q := Copy (info_quant_param info) in Ok (info_shape info, q)) in
  let is_graph_output := IsGraphOutput env (name o) in
  let ty := native_or (is_graph_output && negb reshape_output) TENSOR_TYPE_APP_READ in
  let! is_bq_matmul :=
    match input_names with
    | _ :: n1 :: _ =>
        let! exists_ := get (fun m => IsQnnTensorWrapperExist m n1) in
        if negb fc && exists_ then let! w := tensor_of n1 in ret (IsBlockQuantized (quant_params_ w)) else ret false
    | _ => ret false
    end in
  let! (op, ps) :=
    if use_conv2d p then let! ps := BuildConv2DParamsForBQLowering u [] in ret (macro qnn "QNN_OP_CONV_2D", ps)
    else if fc then ret (macro qnn "QNN_OP_FULLY_CONNECTED", [])
    else
      let! ps := scalar u (SCALAR_BOOL_8 false) "QNN_OP_MAT_MUL_PARAM_TRANSPOSE_IN0" [] in
      let! ps := scalar u (SCALAR_BOOL_8 false) "QNN_OP_MAT_MUL_PARAM_TRANSPOSE_IN1" ps in
      ret (macro qnn "QNN_OP_MAT_MUL", ps) in
  let! _ :=
    if is_bq_matmul : bool then bq_matmul_node u op input_names ps op_output_name ty info shape q v
    else matmul_node u op input_names ps op_output_name ty info shape q v in
  if reshape_output then
    AddReshapeNode env qnn op_output_name (name o) shape (info_shape info) (info_data_type info) q (info_quant_param info) v false
      is_graph_output
  else ret tt.

Definition MatMulOpBuilder : OpBuilder := Builder base_virtuals MatMul_ProcessInputs MatMul_ProcessAttributesAndOutputs.

(** ** Outputs whose precision differs from that of the activation ([base_op_builder.cc]) *)

Definition ProcessOutputsAcrossPrecision (b : Virtuals) (u : UnitView) (input_names ps : list string) (v : bool) (qnn_op_type : string)
  (activation_qnn_data_type : Qnn_DataType_t) : M unit :=
  let! o := lift (output u 0) in
  let! declared_output_dtype := lift (GetQnnDataType (bool_decide (is_Some (quant_param o))) (type o) CPU) in
  if (length (Outputs u) =? 1)%nat && npu && IsNarrowingQuantOutput activation_qnn_data_type declared_output_dtype then
    let! info := lift (tensor_info o) in
    let! node := fresh_unit u "" in
    let! q := lift (Copy (info_quant_param info)) in
    AddOpWithQuantizedOutput env qnn node qnn_op_type input_names ps (name o) (output_tensor_type env (name o)) (info_data_type info) q
      (info_shape info) activation_qnn_data_type v
  else ProcessOutputs env graph b u input_names ps v qnn_op_type.

(** ** Gemm *)

Definition IsBQGemmWeight (weight : OrtNodeUnitIODef) (trans_b : Z) : result bool :=
  if negb npu then Ok false
  else match quant_param weight with
  | None => Ok false
  | Some qp =>
      match scale qp with
      | None => Ok false
      | Some s =>
          let scale_shape := GetInitializerShape (Some s) in
          let* shape := GetOnnxShape (shape weight) in
          match shape with
          | Some weight_shape =>
              if negb (length weight_shape =? 2)%nat || negb (length scale_shape =? 2)%nat then Ok false
              else Ok (IsBQScale scale_shape weight_shape (if trans_b =? 0 then 0%nat else 1%nat))
          | None => Ok false
          end
      end
  end.

Definition transA (u : UnitView) : Z := Get_int64 u "transA" 0.
Definition transB (u : UnitView) : Z := Get_int64 u "transB" 0.
Definition beta (u : UnitView) : float := Get_float u "beta" (f32_of_Z 1).
Definition has_bias (u : UnitView) : bool := (length (Inputs u) =? 3)%nat && negb (f_eq (beta u) f_zero).

(** The number of output channels of a weight of rank 2. *)
Definition output_channels (weight_shape : list Z) (trans_b : Z) : result Z :=
  aget weight_shape (if trans_b =? 0 then 1%nat else 0%nat).

Definition RequiresFcAddDecomposition (u : UnitView) (is_native_bias : bool) : result bool :=
  if negb (has_bias u) then Ok false
  else if is_native_bias then Ok true
  else
  let* d1 := input u 1 in
  let* weight_shape := GetOnnxShape (shape d1) in
  let* d2 := input u 2 in
  match weight_shape with
  | None => Ok false
  | Some weight_shape =>
      let* bias_shape := GetOnnxShape (shape d2) in
      match bias_shape with
      | None => Ok false
      | Some bias_shape =>
          if negb (length weight_shape =? 2)%nat then Ok false
          else
          let* n := output_channels weight_shape (transB u) in
          Ok (negb (IsCompatibleFcBiasShape bias_shape n))
      end
  end.

Inductive Lowering := kSingle | kBlockQuantized | kReshaped | kDecomposed.

(** The kind of lowering; whether MatMul is used is the setting [use_native_matmul]. *)
Definition GetLoweringPlan (u : UnitView) : result Lowering :=
  let* d1 := input u 1 in
  let* is_native_bias :=
    if has_bias u then let* d2 := input u 2 in Ok (bool_decide (TensorTypeOf env (name d2) = TENSOR_TYPE_NATIVE)) else Ok false in
  let* bq := IsBQGemmWeight d1 (transB u) in
  if bq : bool then Ok kBlockQuantized
  else if u_output_reshape u then Ok kReshaped
  else
  let* add := RequiresFcAddDecomposition u is_native_bias in
  Ok (if add || (use_native_matmul (model_settings_ env) && has_bias u) then kDecomposed else kSingle).

Global Instance lowering_eq_dec : EqDecision Lowering.
Proof using Type. solve_decision. Defined.

Definition Gemm_ExplictOpCheck (u : UnitView) (plan : Lowering) : result unit :=
  let* _ := return_if (negb (f_eq (Get_float u "alpha" (f32_of_Z 1)) (f32_of_Z 1))) "QNN FullyConnected Op only support alpha=1.0." in
  let* _ := return_if (negb (f_eq (beta u) (f32_of_Z 1)) && negb (f_eq (beta u) f_zero))
    "QNN FullyConnected Op only support beta=1.0 or beta=0.0." in
  if has_bias u && negb (bool_decide (plan = kDecomposed)) then
    let* d1 := input u 1 in
    let* b_shape := GetOnnxShape (shape d1) in
    match b_shape with
    | Some [k; n] =>
        let* d2 := input u 2 in
        let* c_shape := shape_or d2 "Cannot get C shape." in
        return_if (negb (IsCompatibleFcBiasShape c_shape (if transB u =? 0 then n else k)))
          "QNN FullyConnected Op requires scalar C for N=1, or C with shape [N] or [1, N]."
    | _ => Err (EpFail "QNN FullyConnected Op requires a rank-2 B input.")
    end
  else Ok tt.

(** The checks before those of the base class. *)
Definition Gemm_IsOpSupported (u : UnitView) : result unit :=
  if negb npu then Ok tt
  else
  let* i := input u 0 in
  let* o := output u 0 in
  let* act := GetQnnDataType (bool_decide (is_Some (quant_param i))) (type i) CPU in
  let* out := GetQnnDataType (bool_decide (is_Some (quant_param o))) (type o) CPU in
  if DataTypes.NeedsPrecisionConvert act out then
    let* plan := GetLoweringPlan u in
    match plan with
    | kBlockQuantized => Err (EpFail "QNN EP: mixed activation/output precision is not supported for a block-quantized weight.")
    | kReshaped => Err (EpFail "QNN EP: mixed activation/output precision is not supported for a Gemm with an absorbed Reshape.")
    | kDecomposed => Err (EpFail "QNN EP: mixed activation/output precision is not supported for a Gemm that needs the FullyConnected + Add decomposition.")
    | kSingle => Ok tt
    end
  else Ok tt.

(** One of the inputs, transposed when [trans] says so. *)
Definition RegisterGemmInput (u : UnitView) (input_index : nat) (trans : bool) (input_names : list string) (v : bool)
  : M (list string) :=
  let! i := lift (input u input_index) in
  let! q := lift (Init_io env graph default_wrapper i) in
  let! exists_ := get (fun m => IsQnnTensorWrapperExist m (name i)) in
  if exists_ && negb trans then ret (input_names ++ [name i])
  else
  let! dt := lift (GetQnnDataType (bool_decide (is_Some (quant_param i))) (type i) CPU) in
  let! input_shape := lift (shape_or i "Cannot get shape") in
  let is_constant_input := IsConstantInput env (name i) in
  let! (q, unpacked_tensor, input_shape) := lift (
    if is_constant_input then
      if trans then
        let* q := HandleTranspose q [1; 0] in
        let* (data, shape) := TwoDimensionTranspose_init graph input_shape (GetConstantTensor graph (name i)) false in
        Ok (q, data, shape)
      else let* data := UnpackInitializerData graph (GetConstantTensor graph (name i)) true in Ok (q, data, input_shape)
    else Ok (q, [], input_shape)) in
  let! (n, input_shape) :=
    if trans && negb is_constant_input then
      let! _ := lift (return_if (IsPerChannel q) "Non-constant Gemm inputs only support per-tensor quantization") in
      let! d1 := lift (aget input_shape 1) in
      let! d0 := lift (aget input_shape 0) in
      let shape := <[1%nat := d0]> (<[0%nat := d1]> input_shape) in
      let! _ := AddTransposeNode env qnn (u_index u) (name i) (name i +:+ "_transpose") input_shape [1; 0]%nat shape dt q v
        (IsGraphInput env (name i)) false in
      ret (name i +:+ "_transpose", shape)
    else ret (name i, input_shape) in
  let input_shape := match input_index, input_shape with 2%nat, [1; n] => [n] | _, s => s end in
  let! _ := add_tensor env n (TensorTypeOf env n) dt q input_shape unpacked_tensor "Failed to add tensor." in
  ret (input_names ++ [n]).

(** The activation of a Gemm with a block-quantized weight, as FP16 of shape [M, K]. *)
Definition bq_gemm_activation (u : UnitView) (v : bool) : M string :=
  let! d0 := lift (input u 0) in
  let! info := lift (tensor_info d0) in
  let! _ := lift (return_if_not (length (info_shape info) =? 2)%nat
    "QNN EP: BQ Gemm activation must be rank-2 ([M, K], or [K, M] when transA=1)") in
  let! _ := add_if_new (name d0) (MakeTensorWrapper_info env graph info (name d0)) "Failed to add act tensor." in
  let! w := tensor_of (name d0) in
  let! fp16_name := lift (aget (u_node_inputs u) 0) in
  let! _ := AddInt16ToFp16DequantForActivation (name d0) fp16_name "Gemm" v in
  if transA u =? 0 then ret fp16_name
  else
  match dimensions_ w with
  | [k; m] =>
      let! _ := AddTransposeNode env qnn (u_index u) fp16_name (fp16_name +:+ "_transpose") [k; m] [1; 0]%nat [m; k] QNN_FLOAT_16
        default_wrapper v false false in
      ret (fp16_name +:+ "_transpose")
  | _ => lift (Err (EpFail "QNN EP: BQ Gemm transA=1 requires a rank-2 activation"))
  end.

(** The weight as [N, K]; its name and [N]. *)
Definition bq_gemm_weight (u : UnitView) (weight_info : TensorInfo) (v : bool) : M (string * Z) :=
  let! d1 := lift (input u 1) in
  let kn := transB u =? 0 in
  let! N := lift (aget (info_shape weight_info) (if kn then 1 else 0)%nat) in
  let! K := lift (aget (info_shape weight_info) (if kn then 0 else 1)%nat) in
  let! scale_shape := lift (weight_scale_shape d1) in
  let! _ := lift (return_if_not (length scale_shape =? 2)%nat "QNN EP: BQ Gemm scale must be rank-2") in
  let! num_blocks := lift (aget scale_shape (if kn then 0 else 1)%nat) in
  let! (block_size, bitwidth, unpacked_weight) := lift (bq_blocks d1 weight_info K num_blocks) in
  let! unpacked_weight := lift (
    if kn then TwoDimensionTranspose_vec 0 unpacked_weight [Z.to_nat (u32 K); Z.to_nat (u32 N)] [] v else Ok unpacked_weight) in
  let! (onnx_scales, onnx_offsets) := lift (bq_scales d1 bitwidth (N * num_blocks) "QNN EP: BQ Gemm scale size mismatch") in
  let! scales_qnn := lift (if kn then transpose_blocks onnx_scales num_blocks N else Ok onnx_scales) in
  let! offsets_qnn := lift (if kn then transpose_blocks onnx_offsets num_blocks N else Ok onnx_offsets) in
  let! q := lift (BwFloatBlock scales_qnn offsets_qnn bitwidth [1; u32 block_size]) in
  let! _ := add_tensor env (name d1) (TensorTypeOf env (name d1)) QNN_SFIXED_POINT_8 q [u32 N; u32 K] unpacked_weight
    "Failed to add BQ Gemm weight tensor." in
  ret (name d1, N).

(** The [int32_t] bias as FP16. *)
Definition bq_gemm_bias_bytes (d2 : OrtNodeUnitIODef) (bias_info : TensorInfo) (N : Z) : result (list Z) :=
  let* _ := return_if_not (bool_decide (info_data_type bias_info = QNN_SFIXED_POINT_32))
    "QNN EP: BQ Gemm bias must be INT32-quantized; float bias is not yet supported" in
  let* raw_bias_bytes := UnpackInitializerData graph (info_initializer bias_info) true in
  let* bias_scales :=
    match quant_param d2 with
    | Some qp => match scale qp with Some s => UnpackScales graph (Some s) | None => Ok [] end
    | None => Ok []
    end in
  let* _ :=
    match quant_param d2 with
    | Some qp =>
        match zero_point qp with
        | Some z =>
            let* (bias_zps, _) := UnpackZeroPoints graph (Some z) in
            return_if (negb (forallb (Z.eqb 0) bias_zps))
              "QNN EP: BQ Gemm bias must use zero-point 0 (symmetric); non-zero is not supported"
        | None => Ok tt
        end
    | None => Ok tt
    end in
  let* _ := return_if_not (Z.of_nat (length raw_bias_bytes) =? N * 4) "QNN EP: BQ Gemm INT32 bias size mismatch" in
  let is_per_channel_bias := Z.of_nat (length bias_scales) =? N in
  let* bytes := collect (Z.to_nat N) (fun i =>
    let* scale := match bias_scales with [] => Ok (f32_of_Z 1) | _ => aget bias_scales (if is_per_channel_bias then i else 0%nat) end in
    Ok (f16_bytes qnn (f32_mul (f32_of_Z (read_elem int32_t raw_bias_bytes i)) scale))) in
  Ok (mjoin bytes).

Definition ProcessInputsForBQGemm (u : UnitView) (v : bool) : M (list string) :=
  let! d1 := lift (input u 1) in
  let! weight_info := lift (tensor_info d1) in
  let! _ := lift (return_if_not (info_is_initializer weight_info) "QNN EP: BQ Gemm weight must be a constant initializer") in
  let! _ := lift (return_if_not (length (info_shape weight_info) =? 2)%nat "QNN EP: BQ Gemm weight must be rank-2") in
  let! act := bq_gemm_activation u v in
  let! (weight, N) := bq_gemm_weight u weight_info v in
  if has_bias u then
    let! d2 := lift (input u 2) in
    let! bias_info := lift (tensor_info d2) in
    let! _ := lift (return_if (negb (info_is_initializer bias_info)) "QNN EP: BQ Gemm bias must be a constant initializer") in
    let bias_shape := match info_shape bias_info with [1; n] => [n] | s => s end in
    let! fp16_bias_bytes := lift (bq_gemm_bias_bytes d2 bias_info N) in
    let! _ := add_tensor env (name d2 +:+ "_fp16") TENSOR_TYPE_STATIC QNN_FLOAT_16 default_wrapper bias_shape fp16_bias_bytes
      "Failed to add FP16 bias tensor for BQ Gemm." in
    ret [act; weight; name d2 +:+ "_fp16"]
  else ret [act; weight].

(** The activation is converted before the bias is encoded; the answer tells whether it was. *)
Definition widen_activation (u : UnitView) (names : list string) (v : bool) : M (list string * bool) :=
  if negb npu then ret (names, false)
  else
  let! n0 := lift (aget names 0) in
  let! act := data_type_of n0 in
  let! o := lift (output u 0) in
  let! out := lift (GetQnnDataType (bool_decide (is_Some (quant_param o))) (type o) CPU) in
  if DataTypes.NeedsPrecisionConvert act out && negb (IsNarrowingQuantOutput act out) then
    let! names := ConvertActivationToOutputPrecision env qnn names out v in
    ret (names, true)
  else ret (names, false).

(** Input [input_i] after the first. *)
Definition gemm_input (u : UnitView) (widened trans_b v : bool) (names : list string) (input_i : nat) : M (list string) :=
  let register := RegisterGemmInput u input_i (trans_b && (input_i =? 1)%nat) names v in
  if negb (input_i =? 2)%nat then register
  else if f_eq (beta u) f_zero then ret names
  else if widened then
    let! n0 := lift (aget names 0) in
    let! act := tensor_of n0 in
    let! d1 := lift (input u 1) in
    let! weight_info := lift (tensor_info d1) in
    let! d2 := lift (input u 2) in
    let! handled := ProcessBiasForQuantizedOp env graph u d2 (quant_params_ act) (info_quant_param weight_info) names in
    match handled with Some names => ret names | None => register end
  else register.

Definition Gemm_ProcessInputs (u : UnitView) (v : bool) : M (list string) :=
  let! plan := lift (GetLoweringPlan u) in
  let! _ := lift (if v then Gemm_ExplictOpCheck u plan else Ok tt) in
  if bool_decide (plan = kBlockQuantized) then ProcessInputsForBQGemm u v
  else
  let use_matmul_path := use_native_matmul (model_settings_ env) in
  let! names := RegisterGemmInput u 0 (negb use_matmul_path && negb (transA u =? 0)) [] v in
  let! (names, widened) := widen_activation u names v in
  each (seq 1 (length (Inputs u) - 1)) (gemm_input u widened (negb use_matmul_path && (transB u =? 0)) v) names.

(** FullyConnected in FP16, then Quantize. *)
Definition gemm_bq_node (u : UnitView) (input_names : list string) (v : bool) : M unit :=
  let! o := lift (output u 0) in
  let! info := lift (tensor_info o) in
  let! _ := lift (return_if_not (length (info_shape info) =? 2)%nat "QNN EP: BQ Gemm output must be rank-2 [M, N]") in
  let! _ := lift (return_if_not (IsQuantized (info_quant_param info))
    "QNN EP: BQ Gemm output must be INT16-quantized; float output is not yet supported") in
  let! fc_fp16_out := lift (aget (u_node_outputs u) 0) in
  let! _ := add_tensor env fc_fp16_out TENSOR_TYPE_NATIVE QNN_FLOAT_16 default_wrapper (info_shape info) []
    "Failed to add FP16 BQ Gemm FC output tensor." in
  let! node := fresh_unit u "" in
  let! _ := create_node env node (macro qnn "QNN_OP_FULLY_CONNECTED") input_names [fc_fp16_out] [] v
    "Failed to add BQ FullyConnected node." in
  let! q := lift (Copy (info_quant_param info)) in
  AddFp16ToInt16QuantizeOutput fc_fp16_out (name o) (output_tensor_type env (name o)) (info_data_type info) q (info_shape info) v.

(** FullyConnected of rank 2, then the Reshape that is part of the unit. *)
Definition gemm_reshaped_node (u : UnitView) (input_names : list string) (v : bool) : M unit :=
  let! o := lift (output u 0) in
  let! info := lift (tensor_info o) in
  let! d0 := lift (input u 0) in
  let! act_info := lift (tensor_info d0) in
  let! d1 := lift (input u 1) in
  let! weight_info := lift (tensor_info d1) in
  let! _ := lift (return_if_not (length (info_shape act_info) =? 2)%nat "QNN EP: absorbed-Reshape Gemm activation must be rank-2 [M, K].") in
  let! _ := lift (return_if_not (length (info_shape weight_info) =? 2)%nat "QNN EP: absorbed-Reshape Gemm weight must be rank-2 [K, N].") in
  let! _ := lift (return_if_not (transB u =? 0) "QNN EP: absorbed-Reshape Gemm only supports transB=0.") in
  let! _ := lift (return_if_not (transA u =? 0) "QNN EP: absorbed-Reshape Gemm only supports transA=0.") in
  let! m_dim := lift (aget (info_shape act_info) 0) in
  let! n_dim := lift (aget (info_shape weight_info) 1) in
  let fc_output_name := name o +:+ "_fc" in
  let! q := lift (Copy (info_quant_param info)) in
  let! _ := add_tensor env fc_output_name TENSOR_TYPE_NATIVE (info_data_type info) q [m_dim; n_dim] []
    "Failed to add FC output tensor for absorbed-Reshape Gemm." in
  let! node := fresh_unit u (macro qnn "QNN_OP_FULLY_CONNECTED") in
  let! _ := create_node env node (macro qnn "QNN_OP_FULLY_CONNECTED") input_names [fc_output_name] [] v
    "Failed to add FullyConnected node (absorbed-Reshape path)." in
  let! q := lift (Copy (info_quant_param info)) in
  let! _ := add_tensor env (name o) (output_tensor_type env (name o)) (info_data_type info) q (info_shape info) []
    "Failed to add final Reshape output tensor for absorbed-Reshape Gemm." in
  let! node := fresh_unit u (macro qnn "QNN_OP_RESHAPE") in
  create_node env node (macro qnn "QNN_OP_RESHAPE") [fc_output_name] [name o] [] v "Failed to add Reshape node (absorbed-Reshape path).".

(** The parameters of MatMul: which inputs it transposes. *)
Definition matmul_params (u : UnitView) : M (list string) :=
  let! ps := scalar u (SCALAR_BOOL_8 (negb (transA u =? 0))) "QNN_OP_MAT_MUL_PARAM_TRANSPOSE_IN0" [] in
  scalar u (SCALAR_BOOL_8 (negb (transB u =? 0))) "QNN_OP_MAT_MUL_PARAM_TRANSPOSE_IN1" ps.

(** MatMul or FullyConnected, then Add. *)
Definition gemm_decomposed_nodes (u : UnitView) (input_names : list string) (v : bool) : M unit :=
  let! o := lift (output u 0) in
  let! d0 := lift (input u 0) in
  let! input_info := lift (tensor_info d0) in
  let! info := lift (tensor_info o) in
  let! q := lift (Copy (info_quant_param info)) in
  let! a := lift (aget input_names 0) in
  let! b := lift (aget input_names 1) in
  let fc_output_name := name o +:+ "_fc" in
  let! _ := add_tensor env fc_output_name TENSOR_TYPE_NATIVE (info_data_type input_info) default_wrapper (info_shape info) []
    "Failed to add FullyConnected output tensor." in
  let! _ :=
    if use_native_matmul (model_settings_ env) then
      let! ps := matmul_params u in
      let! node := fresh_unit u (macro qnn "QNN_OP_MAT_MUL") in
      create_node env node (macro qnn "QNN_OP_MAT_MUL") [a; b] [fc_output_name] ps v "Failed to add MatMul node (FC+Add decomposition path)."
    else
      let! node := fresh_unit u (macro qnn "QNN_OP_FULLY_CONNECTED") in
      create_node env node (macro qnn "QNN_OP_FULLY_CONNECTED") [a; b] [fc_output_name] [] v "Failed to add FullyConnected node." in
  let! q := lift (Copy q) in
  let! _ := add_tensor env (name o) (output_tensor_type env (name o)) (info_data_type info) q (info_shape info) []
    "Failed to add ElementWiseAdd output tensor." in
  let! bias_name := lift (aget input_names 2) in
  let! node := fresh_unit u (macro qnn "QNN_OP_ELEMENT_WISE_ADD") in
  create_node env node (macro qnn "QNN_OP_ELEMENT_WISE_ADD") [fc_output_name; bias_name] [name o] [] v "Failed to add ElementWiseAdd node.".

Definition Gemm_ProcessAttributesAndOutputs (u : UnitView) (input_names : list string) (v : bool) : M unit :=
  let! plan := lift (GetLoweringPlan u) in
  match plan with
  | kBlockQuantized => gemm_bq_node u input_names v
  | kReshaped => gemm_reshaped_node u input_names v
  | kDecomposed => gemm_decomposed_nodes u input_names v
  | kSingle =>
      let! (op, ps) :=
        if use_native_matmul (model_settings_ env) then
          let! ps := matmul_params u in ret (macro qnn "QNN_OP_MAT_MUL", ps)
        else let! op := lift (GetQnnOpType qnn (u_op_type u)) in ret (op, []) in
      let! n0 := lift (aget input_names 0) in
      let! act := data_type_of n0 in
      ProcessOutputsAcrossPrecision base_virtuals u input_names ps v op act
  end.

Definition GemmOpBuilder : OpBuilder := Builder base_virtuals Gemm_ProcessInputs Gemm_ProcessAttributesAndOutputs.

End MatMul.

(** ** The builders keep the laws *)

Section MatMulLaws.
Context `{SafeInt} `{QnnInterface}.
Context (env : environment) (graph : OrtGraph) (qnn : QnnHeaders).

Lemma wp_Int16ToFp16 i o t v Q m : (∀ m', grows m m' → has m' o → Q tt m') →
  wp (AddInt16ToFp16DequantForActivation env qnn i o t v) Q m.
Proof.
  intros HQ. eapply (wp_use (fun _ m' => has m' o)); [|by intros []; auto]. unfold AddInt16ToFp16DequantForActivation.
  repeat first [apply wp_tensor_of; intros ? ? | apply wp_AddDequantizeNode; [done|by auto] | wp_step].
Qed.

Lemma wp_conv2d_params u ps Q m : Forall (has_param m) ps →
  (∀ m' ps', grows m m' → Forall (has_param m') ps' → Q ps' m') → wp (BuildConv2DParamsForBQLowering env qnn u ps) Q m.
Proof.
  intros Hp HQ. eapply (wp_use (fun r m' => Forall (has_param m') r)); [|auto]. unfold BuildConv2DParamsForBQLowering. op_auto.
Qed.

Lemma wp_Conv2DNode u names o s dt q g v Q m : Forall (has m) names →
  (∀ m', grows m m' → has m' o → (v = false → Forall (provided m') [o]) → Q tt m') →
  wp (AddConv2DNodeforBQLowering env qnn u names o s dt q g v) Q m.
Proof.
  intros Hn HQ. eapply (wp_use (fun _ m' => has m' o ∧ (v = false → Forall (provided m') [o]))); [|by intros [] ? ? []; auto].
  unfold AddConv2DNodeforBQLowering. wp_step. apply wp_conv2d_params; [constructor|]. intros m1 ps Hg1 Hps. advance Hg1. intros _. op_auto.
Qed.

Lemma wp_RegisterLPBQ n info d names Q m : Forall (has m) names →
  (∀ m' r, grows m m' → Forall (has m') r → r ≠ [] → Q r m') → wp (RegisterLPBQWeightAsConv1x1Filter env n info d names) Q m.
Proof.
  intros Hn HQ. eapply (wp_use (fun r m' => Forall (has m') r ∧ r ≠ [])); [|by intros ? ? ? []; auto].
  unfold RegisterLPBQWeightAsConv1x1Filter. op_auto; split; [solve_names|]; by intros [_ ?]%app_nil.
Qed.

Lemma make_tensor_info_name info n w : MakeTensorWrapper_info env graph info n = Ok w → tensor_name_ w = n.
Proof. unfold MakeTensorWrapper_info. intros E. inv_bind E. inv_bind E. by apply make_tensor_name in E. Qed.

Lemma make_tensor_def_name d w : MakeTensorWrapper env graph d = Ok w → tensor_name_ w = name d.
Proof. unfold MakeTensorWrapper. intros E. inv_bind E. inv_bind E. by apply make_tensor_name in E. Qed.

Lemma wp_add_if_new n w msg Q m : (∀ x, w = Ok x → tensor_name_ x = n) → (∀ m', grows m m' → has m' n → Q tt m') →
  wp (add_if_new env n w msg) Q m.
Proof.
  intros Hw HQ. eapply (wp_use (fun _ m' => has m' n)); [|by intros []; auto]. unfold add_if_new. do 2 wp_step.
  wp_step. destruct (IsQnnTensorWrapperExist m n) eqn:Ex; [apply wp_ret; by apply exists_has|]. repeat wp_step. match goal with E : w = Ok ?x, Hx : has _ (tensor_name_ ?x) |- _ => by rewrite (Hw x E) in Hx end.
Qed.

Lemma wp_reshape_input a b ty info t q v Q m : (∀ m', grows m m' → has m' b → Q tt m') →
  wp (reshape_input env graph qnn a b ty info t q v) Q m.
Proof.
  intros HQ. eapply (wp_use (fun _ m' => has m' b)); [|by intros []; auto]. unfold reshape_input. wp_step; [op_auto|].
  by apply wp_AddReshapeNode.
Qed.

Lemma wp_ProcessInput0 info n names v fc t Q m : Forall (has m) names →
  (∀ m' r, grows m m' → Forall (has m') r → r ≠ [] → Q r m') → wp (MatMul_ProcessInput0 env graph qnn info n names v fc t) Q m.
Proof.
  intros Hn HQ. eapply (wp_use (fun r m' => Forall (has m') r ∧ r ≠ [])); [|by intros ? ? ? []; auto].
  unfold MatMul_ProcessInput0.
  repeat first [apply wp_reshape_input; let Hg := fresh in intros ? Hg ?; advance Hg
    | apply wp_add_if_new; [by apply make_tensor_info_name|let Hg := fresh in intros ? Hg ?; advance Hg] | op_step];
    (split; [solve_names|]; by intros [_ ?]%app_nil).
Qed.

Lemma wp_matmul_convert info n s v Q m : has m n → (∀ m' r, grows m m' → has m' r → Q r m') →
  wp (matmul_convert env qnn info n s v) Q m.
Proof.
  intros Hn HQ. eapply (wp_use (fun r m' => has m' r)); [|auto]. unfold matmul_convert.
  repeat first [apply wp_InsertConvertOp; [done|]; let Hg := fresh in intros ? Hg ? ?; advance Hg | op_step]; done.
Qed.
End MatMulLaws.

(** One step, with the helpers of MatMul. *)
Ltac mm_step :=
  known_names;
  lazymatch goal with
  | |- wp (tensor_of _) _ _ => apply wp_tensor_of; intros ? ?
  | |- wp (data_type_of _) _ _ => apply wp_data_type_of; intros ? ?
  | |- wp (MatMul_ProcessInput0 _ _ _ _ _ _ _ _ _) _ _ =>
      apply wp_ProcessInput0; [side|let Hg := fresh "Hg" in intros ? ? Hg ? ?; advance Hg]
  | |- wp (add_if_new _ _ (MakeTensorWrapper_info _ _ _ _) _) _ _ =>
      apply wp_add_if_new; [by apply make_tensor_info_name|let Hg := fresh "Hg" in intros ? Hg ?; advance Hg]
  | |- wp (add_if_new _ _ (MakeTensorWrapper _ _ _) _) _ _ =>
      apply wp_add_if_new; [by apply make_tensor_def_name|let Hg := fresh "Hg" in intros ? Hg ?; advance Hg]
  | |- wp (reshape_input _ _ _ _ _ _ _ _ _ _) _ _ => apply wp_reshape_input; let Hg := fresh "Hg" in intros ? Hg ?; advance Hg
  | |- wp (matmul_convert _ _ _ _ _ _) _ _ => apply wp_matmul_convert; [side|let Hg := fresh "Hg" in intros ? ? Hg ?; advance Hg]
  | |- wp (InsertConvertOp _ _ _ _ _ _ _ _ _ _ _ _) _ _ =>
      apply wp_InsertConvertOp; [side|let Hg := fresh "Hg" in intros ? Hg ? ?; advance Hg]
  | |- wp (AddInt16ToFp16DequantForActivation _ _ _ _ _ _) _ _ =>
      apply wp_Int16ToFp16; let Hg := fresh "Hg" in intros ? Hg ?; advance Hg
  | |- wp (AddFp16ToInt16QuantizeOutput _ _ _ _ _ _ _ _ _) _ _ =>
      apply wp_AddQuantizeNode; [side|let Hg := fresh "Hg" in intros ? Hg ? ?; advance Hg]
  | |- wp (BuildConv2DParamsForBQLowering _ _ _ _) _ _ =>
      apply wp_conv2d_params; [side|let Hg := fresh "Hg" in intros ? ? Hg ?; advance Hg]
  | |- wp (RegisterLPBQWeightAsConv1x1Filter _ _ _ _ _) _ _ =>
      apply wp_RegisterLPBQ; [side|let Hg := fresh "Hg" in intros ? ? Hg ? ?; advance Hg]
  | |- wp (AddReshapeNode _ _ _ _ _ _ _ _ _ _ _ _) _ _ => apply wp_AddReshapeNode; let Hg := fresh "Hg" in intros ? Hg ? ? ?; advance Hg
  | |- wp (AddReshapeNode_same _ _ _ _ _ _ _ _ _ _ _) _ _ =>
      apply wp_AddReshapeNode_same; let Hg := fresh "Hg" in intros ? Hg ? ? ?; advance Hg
  | |- wp (ConvertActivationToOutputPrecision _ _ _ _ _) _ _ =>
      apply wp_ConvertActivation; [side|let Hg := fresh "Hg" in intros ? ? Hg ? ?; advance Hg]
  | |- wp (AddOpWithQuantizedOutput _ _ _ _ _ _ _ _ _ _ _ _ _) _ _ =>
      apply wp_AddOpWithQuantizedOutput; [side|side|let Hg := fresh "Hg" in intros ? Hg ? ?; advance Hg]
  | |- _ => op_step
  end; cbv beta.
Ltac mm_auto := repeat mm_step; try solve [written_outputs | some_inputs | finish].

Section MatMulLaws2.
Context `{SafeInt} `{QnnInterface}.
Context (env : environment) (graph : OrtGraph) (qnn : QnnHeaders).

Ltac names_done := try solve [apply named_snoc; assumption | by split; [solve_names|] | split; [solve_names|by intros [_ ?]%app_nil] | by auto].

Lemma wp_inputs_matmul u p v m : wp (ProcessInputsForQnnMatMul env graph qnn u p v) named m.
Proof. destruct p as [i0 i1 fc cv]. unfold ProcessInputsForQnnMatMul. repeat mm_step; names_done. Qed.

Lemma wp_inputs_fc u p v m : wp (ProcessInputsForQnnFullyConnected env graph qnn u p v) named m.
Proof. destruct p as [i0 i1 fc cv]. unfold ProcessInputsForQnnFullyConnected. repeat mm_step; names_done. Qed.

Lemma wp_inputs_conv2d u p v m : wp (ProcessInputsForQnnConv2D env graph qnn u p v) named m.
Proof. destruct p as [i0 i1 fc cv]. unfold ProcessInputsForQnnConv2D. repeat mm_step; names_done. Qed.

Lemma wp_inputs_bq u v m : wp (ProcessInputsForBQMatMul env graph qnn u v) named m.
Proof. unfold ProcessInputsForBQMatMul, bq_activation, bq_weight. repeat mm_step; names_done. Qed.

Lemma wp_bq_matmul_node u op names ps o ty info s q v Q m : Forall (has m) names → Forall (has_param m) ps →
  (∀ m', grows m m' → has m' o → (v = false → Forall (provided m') [o]) → Q tt m') →
  wp (bq_matmul_node env qnn u op names ps o ty info s q v) Q m.
Proof.
  intros Hn Hp HQ. eapply (wp_use (fun _ m' => has m' o ∧ (v = false → Forall (provided m') [o]))); [|by intros [] ? ? []; auto].
  unfold bq_matmul_node. mm_auto.
Qed.

Lemma wp_matmul_node u op names ps o ty info s q v Q m : Forall (has m) names → Forall (has_param m) ps →
  (∀ m', grows m m' → has m' o → (v = false → Forall (provided m') [o]) → Q tt m') →
  wp (matmul_node env qnn u op names ps o ty info s q v) Q m.
Proof.
  intros Hn Hp HQ. eapply (wp_use (fun _ m' => has m' o ∧ (v = false → Forall (provided m') [o]))); [|by intros [] ? ? []; auto].
  unfold matmul_node. mm_auto.
Qed.

#[export] Instance matmul_laws : builder_laws (MatMulOpBuilder env graph qnn) one_output.
Proof.
  split.
  - intros u v m. cbn [ProcessInputs MatMulOpBuilder]. eapply (wp_use named); [|by intros r m' _ [? ?]; split].
    unfold MatMul_ProcessInputs. repeat first [apply wp_inputs_bq | apply wp_inputs_conv2d | apply wp_inputs_fc | apply wp_inputs_matmul | mm_step].
  - intros u v names m Hn. cbn [ProcessAttributesAndOutputs MatMulOpBuilder]. unfold MatMul_ProcessAttributesAndOutputs.
    repeat first [apply wp_bq_matmul_node; [side|side|let Hg := fresh "Hg" in intros ? Hg ? ?; advance Hg]
      | apply wp_matmul_node; [side|side|let Hg := fresh "Hg" in intros ? Hg ? ?; advance Hg] | mm_step]; try solve [written_outputs].
Qed.

End MatMulLaws2.

Section GemmLaws.
Context `{SafeInt} `{QnnInterface}.
Context (env : environment) (graph : OrtGraph) (qnn : QnnHeaders).

Lemma wp_RegisterGemmInput u i t names v Q m : Forall (has m) names →
  (∀ m' r, grows m m' → Forall (has m') r → r ≠ [] → Q r m') → wp (RegisterGemmInput env graph qnn u i t names v) Q m.
Proof.
  intros Hn HQ. eapply (wp_use named); [|by intros ? ? ? []; auto]. unfold RegisterGemmInput.
  repeat first [apply wp_AddTransposeNode; let Hg := fresh "Hg" in intros ? Hg ? ? ?; advance Hg | mm_step]; try (apply named_snoc; done).
  apply named_snoc; [done|]. apply exists_has. match goal with Eb : _ && _ = true |- _ => by apply andb_true_iff in Eb as [? _] end.
Qed.

Lemma wp_widen u names v Q m : Forall (has m) names → names ≠ [] →
  (∀ m' r, grows m m' → Forall (has m') r.1 → r.1 ≠ [] → Q r m') → wp (widen_activation env qnn u names v) Q m.
Proof.
  intros Hn Hne HQ. eapply (wp_use (fun r m' => named r.1 m')); [|by intros ? ? ? []; auto]. unfold widen_activation.
  repeat mm_step; (split; [done|]); cbn; try done. intros ->. destruct names; done.
Qed.

Lemma wp_inputs_bq_gemm u v m : wp (ProcessInputsForBQGemm env graph qnn u v) named m.
Proof.
  unfold ProcessInputsForBQGemm, bq_gemm_activation, bq_gemm_weight.
  repeat first [apply wp_AddTransposeNode; let Hg := fresh "Hg" in intros ? Hg ? ? ?; advance Hg | mm_step]; first [discriminate | split; [solve_names|done]].
Qed.

Lemma wp_across_precision (b : Virtuals) `{!virtual_laws b} u names ps v op act m : Forall (has m) names → Forall (has_param m) ps →
  wp (ProcessOutputsAcrossPrecision env graph qnn b u names ps v op act)
    (fun _ m' => v = false → one_output u → Forall (provided m') (required_outputs u)) m.
Proof.
  intros Hn Hp. unfold ProcessOutputsAcrossPrecision.
  repeat first [apply wp_ProcessOutputs; [done|side|side|] | mm_step]; try solve [written_outputs]; auto.
Qed.

Lemma wp_gemm_input u w t v names i m : named names m → wp (gemm_input env graph qnn u w t v names i) named m.
Proof.
  intros [Hn Hne]. unfold gemm_input.
  repeat first [apply wp_RegisterGemmInput; [side|intros ? ? ? ? ?; by split]
    | apply wp_ProcessBias; [side|let Hg := fresh "Hg" in intros ? ? Hg ?; advance Hg] | mm_step]; try by split.
  match goal with Hr : named_if _ _ |- _ => by apply Hr end.
Qed.

#[export] Instance gemm_laws : builder_laws (GemmOpBuilder env graph qnn) one_output.
Proof.
  split.
  - intros u v m. cbn [ProcessInputs GemmOpBuilder]. eapply (wp_use named); [|by intros r m' _ [? ?]; split].
    unfold Gemm_ProcessInputs.
    repeat first [apply wp_inputs_bq_gemm | apply wp_RegisterGemmInput; [side|let Hg := fresh "Hg" in intros ? ? Hg ? ?; advance Hg]
      | apply wp_widen; [side|done|let Hg := fresh "Hg" in intros ? ? Hg ? ?; advance Hg]
      | apply (wp_each (fun _ => named)); [intros; by apply wp_gemm_input|by split] | mm_step].
  - intros u v names m Hn. cbn [ProcessAttributesAndOutputs GemmOpBuilder].
    unfold Gemm_ProcessAttributesAndOutputs, gemm_bq_node, gemm_reshaped_node, gemm_decomposed_nodes, matmul_params.
    repeat first [eapply wp_use; [apply wp_across_precision; [apply _|solve_names|solve_names]|by intros; auto] | mm_step]; try solve [written_outputs].
Qed.
End GemmLaws.
