(* ===== verification/Decompositions.v ===== *)
(** * What the decompositions compute

    Operators that QNN does not have are lowered to a chain of elementwise nodes.  [eval] reads
    a list of nodes as a program over any meaning of the QNN ops; the theorems say that a
    builder succeeds and what expression of the inputs its nodes compute.  [runs] is the total
    counterpart of [wp]: the builder ends without a failing status. *)

From Stdlib Require Import SpecFloat.
From stdpp Require Import pretty.
From S2P Require Import Prelude DataTypes Floats QuantParams Perm QnnTensor Quantize OpParams ModelWrapper NodeGroups NodeUnitDefs TensorInfo ModelOps OpBuilder Builders.
Local Open Scope Z_scope.

(** ** Nodes as a program *)

Section Eval.
Context {V : Type} (sem : string → list string → list V → V).

Definition eval_op (ρ : string → V) (op : QnnOpProperty) : string → V := fun n =>
  if bool_decide (n ∈ output_names_ op)
  then sem (qnn_node_type_ op) (param_tensor_names_ op) (ρ <$> input_names_ op)
  else ρ n.

Definition eval (ops : list QnnOpProperty) (ρ : string → V) : string → V := foldl eval_op ρ ops.

Lemma eval_app l1 l2 ρ : eval (l1 ++ l2) ρ = eval l2 (eval l1 ρ).
Proof. apply foldl_app. Qed.

(** The value of a tensor after the node that writes it, and of the others. *)
Lemma eval_written ρ u pkg ty ins n ps : eval_op ρ (OpProperty u pkg ty ins [n] ps) n = sem ty ps (ρ <$> ins).
Proof. unfold eval_op. cbn. by rewrite bool_decide_true by (by left). Qed.

Lemma eval_other ρ u pkg ty ins n ps k : k ≠ n → eval_op ρ (OpProperty u pkg ty ins [n] ps) k = ρ k.
Proof. intros Hk. unfold eval_op. cbn. by rewrite bool_decide_false by set_solver. Qed.

(** Tensors that no node writes keep their values. *)
Lemma eval_unwritten ops ρ k : (∀ op, op ∈ ops → k ∉ output_names_ op) → eval ops ρ k = ρ k.
Proof.
  revert ρ. induction ops as [|op ops IH]; intros ρ Hk; [done|].
  change (eval ops (eval_op ρ op) k = ρ k). rewrite IH by (intros; apply Hk; by right).
  unfold eval_op. by rewrite bool_decide_false by (apply Hk; by left).
Qed.

End Eval.

(** ** Names *)

(** Two literals of which neither is a prefix of the other. *)
Fixpoint diverge (x y : string) : bool :=
  match x, y with
  | String a x', String b y' => if Ascii.eqb a b then diverge x' y' else true
  | _, _ => false
  end.

Lemma diverge_ne x y s t : diverge x y = true → x +:+ s ≠ y +:+ t.
Proof.
  revert y. induction x as [|a x IH]; intros [|b y]; try done. cbn. intros Hd [= -> E].
  rewrite Ascii.eqb_refl in Hd. by apply (IH y).
Qed.

Lemma New_form c base suffix : ∃ t c', New c base suffix = (base +:+ suffix +:+ t, c').
Proof.
  unfold New. destruct (_ >? 0).
  - eexists _, _. by rewrite string_app_assoc.
  - exists "". eexists. by rewrite string_app_nil.
Qed.

(** ** Runs that succeed *)

(** The declaration of a tensor: type, shape, quantization and bytes. *)
Record decl := Decl { d_type : result Qnn_DataType_t; d_shape : list Z; d_quant : Qnn_QuantizeParams_t; d_bytes : list Z }.
Definition decl_of (w : QnnTensorWrapper) : decl :=
  Decl (GetTensorDataType w) (dimensions_ w) (params_ (quant_params_ w)) (client_buf_ w).

Section Runs.
Context `{SafeInt} `{QnnInterface}.
Context (env : environment) (graph : OrtGraph) (qnn : QnnHeaders).
Context (ib : tensor_body) (Hinit : body_of (tensor_init env) = Ok ib).

Definition runs {A} (c : M A) (Q : A → QnnModelWrapper → Prop) (m : QnnModelWrapper) : Prop :=
  ∃ m' a, c m = Ok (m', inr a) ∧ Q a m'.

(** What a tensor of the model is declared as, and a valuation that gives the constants, the
    tensors with bytes, the values of their declarations. *)
Definition constant (m : QnnModelWrapper) (n : string) : option decl := decl_of <$> model_tensors_map_ m !! n.
Definition valuation {V} (lit : decl → V) (m : QnnModelWrapper) (ρ : string → V) : Prop :=
  ∀ k d, constant m k = Some d → d_bytes d ≠ [] → ρ k = lit d.
Definition same_constants (m m' : QnnModelWrapper) : Prop := ∀ k, constant m' k = constant m k.

(** Adding [n] declared as [d]: it is that when it is new, and the others stay. *)
Definition adds_constant (n : string) (d : decl) (m m' : QnnModelWrapper) : Prop :=
  (∀ k, k ≠ n → constant m' k = constant m k) ∧ (∀ k c, constant m k = Some c → constant m' k = Some c) ∧
  (constant m n = None → constant m' n = Some d).

(** A description that can be copied. *)
Definition copyable (q : QnnQuantParamsWrapper) : Prop := wf q ∧ is_bw_float_block q = false.
Definition describable (info : TensorInfo) : Prop :=
  copyable (info_quant_param info) ∧ Z.of_nat (length (info_shape info)) < 2 ^ 32.

Lemma runs_ret {A} (a : A) Q m : Q a m → runs (ret a) Q m.
Proof. intros HQ. by exists m, a. Qed.

Lemma runs_bind {A B} (c : M A) (k : A → M B) Q m : runs c (fun a m' => runs (k a) Q m') m → runs (bind c k) Q m.
Proof.
  intros (m1 & a & E & m2 & b & E' & HQ). exists m2, b. split; [|done]. unfold bind. by rewrite E.
Qed.

Lemma runs_mono {A} (c : M A) (Q Q' : A → QnnModelWrapper → Prop) m : runs c Q m → (∀ a m', Q a m' → Q' a m') → runs c Q' m.
Proof. intros (m' & a & E & HQ) Hw. exists m', a. auto. Qed.

Lemma runs_lift {A} (r : result A) a Q m : r = Ok a → Q a m → runs (lift r) Q m.
Proof. intros -> HQ. by exists m, a. Qed.

Lemma runs_fresh base suffix Q m :
  (∀ t m', qnn_op_property_list_ m' = qnn_op_property_list_ m → same_constants m m' → Q (base +:+ suffix +:+ t) m') →
  runs (fresh base suffix) Q m.
Proof.
  intros HQ. unfold runs, fresh. destruct (New_form (name_counters m) base suffix) as (t & c & ->).
  eexists _, _. split; [done|]. apply HQ; [done|by intros ?].
Qed.

Lemma runs_fresh_unit u suffix Q m :
  (∀ t m', qnn_op_property_list_ m' = qnn_op_property_list_ m → same_constants m m' →
     Q (NodeUnitBaseName (u_name u) (u_op_type u) (N.of_nat (u_index u)) +:+ suffix +:+ t) m') →
  runs (fresh_unit u suffix) Q m.
Proof.
  intros HQ. unfold runs, fresh_unit, New_unit. destruct (New_form (name_counters m)
    (NodeUnitBaseName (u_name u) (u_op_type u) (N.of_nat (u_index u))) suffix) as (t & c & ->).
  eexists _, _. split; [done|]. apply HQ; [done|by intros ?].
Qed.

Lemma copy_copyable q : copyable q → ∃ q', Copy q = Ok q' ∧ wf q' ∧ params_ q' = params_ q.
Proof. intros [Hw Hb]. destruct (copy_from_spec default_wrapper q Hw) as (q' & E & Hp & Hq'). exists q'. auto. Qed.

Lemma runs_copy q Q m : copyable q → (∀ q', wf q' → params_ q' = params_ q → Q q' m) → runs (lift (Copy q)) Q m.
Proof. intros Hq HQ. destruct (copy_copyable q Hq) as (q' & E & Hw & Hp). eapply runs_lift; [exact E|]. by apply HQ. Qed.

Lemma swap_type self w w' o : SwapOther self w = Ok (w', o) → GetTensorDataType w' = GetTensorDataType w.
Proof.
  unfold SwapOther. intros E. unfold GetTensorDataType, GetQnnTensorDataType. destruct (qnn_tensor_ w); [..|done]; by injection E as <- _.
Qed.

Lemma default_wf : wf default_wrapper.
Proof. intros ?. done. Qed.

Lemma runs_add_tensor n ty dt q s d msg Q m : n ≠ "" → wf q → Z.of_nat (length s) < 2 ^ 32 →
  (∀ m', qnn_op_property_list_ m' = qnn_op_property_list_ m → adds_constant n (Decl (Ok (narrowed (narrow_nan env) ty dt d).1) s (params_ q) (narrowed (narrow_nan env) ty dt d).2) m m' → Q tt m') →
  runs (add_tensor env n ty dt q s d msg) Q m.
Proof.
  intros Hn Hq Hs HQ.
  destruct (make_tensor_spec (tensor_init env) (narrow_nan env) ib Hinit n ty dt q s d TENSORMEMTYPE_RAW Hq Hs)
    as (w & b & Ew & Hd & En & Eo & Es & Eq & Ec & B & _ & Et & _).
  unfold add_tensor, new_tensor. rewrite Ew. unfold runs, bind, lift, add_wrapper, require, AddTensorWrapper.
  rewrite En, bool_decide_false by done. unfold IsQnnTensorWrapperExist. case_bool_decide as Hx.
  { eexists _, _. split; [done|]. apply HQ; [done|]. split_and!; [done|done|]. unfold constant.
    destruct (model_tensors_map_ m !! n); [done|by destruct Hx]. }
  assert (model_tensors_map_ m !! n = None) as Hnone by (destruct (model_tensors_map_ m !! n); [by destruct Hx|done]).
  unfold SetTensorMemTypeFromSettings. open_setters. pose proof B as B0. set_field.
  match goal with |- context [move_construct _ ?w1] => destruct (move_spec (default_tensor_wrapper (tensor_init env)) w1)
    as (w' & Em & _ & _ & _ & Es' & Ec' & Eq') end.
  - destruct Hd as (b' & B' & Hn' & Hdim & Hqp & Hbuf). rewrite B in B'. injection B' as <-.
    eexists. split_and!; [eassumption|done..|]; cbn; done.
  - cbn. by rewrite Es.
  - unfold move_construct. rewrite Em. cbn. eexists _, _. split; [done|]. apply HQ; [done|]. unfold adds_constant, constant. cbn.
    assert (∀ k, k ≠ n → decl_of <$> <[n:=w']> (model_tensors_map_ m) !! k = decl_of <$> model_tensors_map_ m !! k) as Hk
      by (intros; by rewrite lookup_insert_ne).
    split_and!; [done| |].
    + intros k c Hc. destruct (decide (k = n)) as [->|]; [by rewrite Hnone in Hc|]. by rewrite Hk.
    + intros _. rewrite lookup_insert_eq. cbn. f_equal. unfold decl_of. rewrite Ec', Es', Eq', (swap_type _ _ _ _ Em). cbn.
      rewrite Ec, Es, Eq. f_equal. unfold GetTensorDataType, GetQnnTensorDataType. cbn.
      match goal with B1 : body_of t = Ok _ |- _ => rewrite B1 end. cbn. by rewrite Et.
Qed.

(** Types whose constants are narrowed when a tensor is made. *)
Definition wide (dt : Qnn_DataType_t) : bool := bool_decide (dt ∈ [QNN_INT_64; QNN_FLOAT_64]).

Lemma runs_add_bytes n ty dt q s d msg Q m : n ≠ "" → wf q → Z.of_nat (length s) < 2 ^ 32 → wide dt = false →
  (∀ m', qnn_op_property_list_ m' = qnn_op_property_list_ m → adds_constant n (Decl (Ok dt) s (params_ q) d) m m' → Q tt m') →
  runs (add_tensor env n ty dt q s d msg) Q m.
Proof. intros ? ? ? Hd HQ. apply runs_add_tensor; [done..|]. by destruct dt. Qed.

Lemma runs_add_empty n ty dt q s msg Q m : n ≠ "" → wf q → Z.of_nat (length s) < 2 ^ 32 →
  (∀ t m', qnn_op_property_list_ m' = qnn_op_property_list_ m → adds_constant n (Decl t s (params_ q) []) m m' → Q tt m') →
  runs (add_tensor env n ty dt q s [] msg) Q m.
Proof.
  intros ? ? ? HQ. apply runs_add_tensor; [done..|]. intros m' Ho Ha. eapply HQ; [done|].
  assert ((narrowed (narrow_nan env) ty dt []).2 = []) as E by (by destruct dt). rewrite E in Ha. exact Ha.
Qed.

Lemma runs_create_node n op ins outs ps msg Q m :
  (∀ x m', qnn_op_property_list_ m' =
       qnn_op_property_list_ m ++ [OpProperty x (QNN_OP_PACKAGE_NAME_QTI_AISW env) op ins outs ps] →
     same_constants m m' → Q tt m') →
  runs (create_node env n op ins outs ps false msg) Q m.
Proof.
  intros HQ. unfold runs, create_node, require, CreateQnnNode.
  destruct (make_unique_spec m n) as (x & Ex & _). rewrite Ex. cbn. eexists _, _. split; [done|].
  apply (HQ x); [done|by intros ?].
Qed.

Lemma runs_AddQnnScalar i nn v n ps Q m :
  (∀ m', qnn_op_property_list_ m' = qnn_op_property_list_ m → same_constants m m' →
     Q (ps ++ [param_tensor_name i nn n]) m') → runs (AddQnnScalar i nn v n ps) Q m.
Proof.
  intros HQ. unfold AddQnnScalar. apply runs_bind. unfold runs, require, AddParamWrapper. cbn.
  rewrite bool_decide_false by apply param_name_ne.
  destruct (QnnParamExists m _); cbn; eexists _, _; (split; [done|]); apply runs_ret; (apply HQ; [done|by intros ?]).
Qed.

End Runs.

(** The nodes that [m'] has more than [m] give the tensor [n] the value [f], for any meaning [sem]
    of the ops and [lit] of the constants. *)
Definition computes `{QnnInterface} (m m' : QnnModelWrapper) (n : string)
  (f : ∀ V, (string → list string → list V → V) → (decl → V) → (string → V) → V) : Prop :=
  ∃ new, qnn_op_property_list_ m' = qnn_op_property_list_ m ++ new ∧
    ∀ V sem lit ρ, valuation lit m' ρ → eval sem new ρ n = f V sem lit ρ.

(** The names made from [b] are those of no other tensor. *)
Definition reserved `{QnnInterface} (b : string) (m : QnnModelWrapper) (names : list string) : Prop :=
  (∀ t, constant m (b +:+ t) = None) ∧ ∀ n, n ∈ names → ∀ t, n ≠ b +:+ t.

(** Distinct names: a common base and suffixes that differ. *)
Ltac names_differ :=
  first [ assumption | apply not_eq_sym; assumption
        | by eauto | apply not_eq_sym; by eauto
        | let E := fresh in intros E; apply string_app_inj in E; revert E; apply diverge_ne; reflexivity ].
Ltac name_ne := first [assumption | apply string_app_ne; first [discriminate | name_ne] | done].

(** Names in the form base, suffix, number. *)
Ltac norm_names := rewrite ?string_app_assoc; cbn [String.append].

Ltac run_step :=
  lazymatch goal with
  | |- runs (bind _ _) _ _ => apply runs_bind
  | |- runs (ret _) _ _ => apply runs_ret
  | |- runs (lift (Copy _)) _ _ => apply runs_copy; [by eauto|intros ? ? ?]
  | |- runs (lift _) _ _ => eapply runs_lift; [first [eassumption | reflexivity]|]
  | |- runs (fresh _ _) _ _ => apply runs_fresh; intros ? ? ? ?; norm_names
  | |- runs (fresh_unit _ _) _ _ => apply runs_fresh_unit; intros ? ? ? ?
  | |- runs (add_tensor _ _ _ _ _ _ _ _) _ _ =>
      first [ eapply runs_add_bytes; [eassumption|name_ne|first [assumption|apply default_wf]|first [assumption|done]|assumption|intros ? ? ?]
            | eapply runs_add_empty; [eassumption|name_ne|first [assumption|apply default_wf]|first [assumption|done]|intros ? ? ? ?] ]
  | |- runs (create_node _ _ _ _ _ _ _ _) _ _ => apply runs_create_node; intros ? ? ? ?
  | |- runs (AddQnnScalar _ _ _ _ _) _ _ => apply runs_AddQnnScalar; intros ? ? ?
  | |- runs (add_graph_output _ _ _ _ _ _) _ _ => unfold add_graph_output
  | |- runs (add_like_input _ _ _ _) _ _ => unfold add_like_input
  end; cbv beta zeta iota.
Ltac run_auto := repeat run_step.

(** The bytes of a constant, traced back to the call that added it. *)
Ltac trace_constant :=
  repeat match goal with
  | H : same_constants ?m ?m' |- constant ?m' _ = _ => rewrite H
  | H : adds_constant _ _ ?m ?m' |- constant ?m' _ = None => rewrite (proj1 H) by names_differ
  | H : adds_constant ?n _ ?m ?m' |- constant ?m' ?n = Some _ => apply H
  | H : adds_constant _ _ ?m ?m' |- constant ?m' _ = Some _ => apply (proj1 (proj2 H))
  | H : ∀ t, constant ?m (_ +:+ t) = None |- constant ?m _ = None => apply H
  end.

(** Collects the nodes that were appended, and evaluates them. *)
Ltac new_nodes := eexists; split;
  [repeat match goal with E : qnn_op_property_list_ ?m = _ |- context [qnn_op_property_list_ ?m] => rewrite E end;
   rewrite <- ?app_assoc; reflexivity|].
Ltac eval_nodes := intros ? ? ? ? Hlit; unfold eval; cbn [foldl app];
  repeat first [rewrite eval_written; cbn [fmap list_fmap] | rewrite eval_other by names_differ];
  repeat match type of Hlit with valuation _ _ ?r => match goal with |- context [r (?b +:+ ?t)] =>
    erewrite (Hlit (b +:+ t)); [|solve [trace_constant]|assumption] end end;
  repeat match goal with E : params_ ?q = params_ _ |- context [params_ ?q] => rewrite E end; reflexivity.

(** ** Parameters *)

Section Params.
Context `{SafeInt} `{QnnInterface}.
Context (env : environment).

(** Programs that leave the table of parameters alone. *)
Definition keeps_params {A} (c : M A) : Prop := ∀ m m' r, c m = Ok (m', r) → model_params_map_ m' = model_params_map_ m.

Lemma params_ret {A} (a : A) : keeps_params (ret a).
Proof using Type. intros m m' r [= <- _]. done. Qed.
Lemma params_lift {A} (r : result A) : keeps_params (lift r).
Proof using Type. intros m m' r'. unfold lift. destruct r as [a|[]]; intros [=]; by subst. Qed.
Lemma params_get {A} (f : QnnModelWrapper → A) : keeps_params (get f).
Proof using Type. intros m m' r [= <- _]. done. Qed.
Lemma params_bind {A B} (c : M A) (k : A → M B) : keeps_params c → (∀ a, keeps_params (k a)) → keeps_params (bind c k).
Proof using Type.
  intros Hc Hk m m' r E. unfold bind in E. destruct (c m) as [[m1 [s|a]]|] eqn:Ec; [injection E as <- _; by eapply Hc| |done].
  rewrite (Hk a _ _ _ E). by eapply Hc.
Qed.
Lemma params_fresh b s : keeps_params (fresh b s).
Proof using Type. intros m m' r E. unfold fresh in E. destruct (New _ _ _). by injection E as <- _. Qed.
Lemma params_fresh_unit u s : keeps_params (fresh_unit u s).
Proof using Type. intros m m' r E. unfold fresh_unit in E. destruct (New_unit _ _ _ _ _). by injection E as <- _. Qed.
Lemma params_add_wrapper w msg : keeps_params (add_wrapper env w msg).
Proof using Type.
  intros m m' r E. unfold add_wrapper, require in E. destruct (AddTensorWrapper env m w) as [[ok m1]|] eqn:Ea; [|done]. injection E as <- _.
  unfold AddTensorWrapper in Ea. repeat case_match; try (by injection Ea as _ <-). inv_bind Ea. inv_bind Ea. destruct a0. by injection Ea as _ <-.
Qed.
Lemma params_create_node n op ins outs ps msg : keeps_params (create_node env n op ins outs ps false msg).
Proof using Type.
  intros m m' r E. unfold create_node, require in E. destruct (CreateQnnNode _ _ _ _ _ _ _ _ _) as [[ok m1]|] eqn:Ec; [|done].
  injection E as <- _. by apply create_node_step in Ec as (_ & _ & ? & _).
Qed.
Lemma params_each {S A} (xs : list A) (body : S → A → M S) : (∀ s x, keeps_params (body s x)) → ∀ s, keeps_params (each xs body s).
Proof using Type. intros Hb. induction xs as [|x xs IH]; intros s; cbn; [apply params_ret|]. apply params_bind; auto. Qed.
Lemma runs_keeping {A} (c : M A) Q m : keeps_params c → runs c (fun a m' => model_params_map_ m' = model_params_map_ m → Q a m') m → runs c Q m.
Proof using Type. intros Hk (m' & a & E & HQ). exists m', a. split; [done|]. apply HQ. by eapply Hk. Qed.

Lemma params_add_tensor n ty dt q s d msg : keeps_params (add_tensor env n ty dt q s d msg).
Proof using Type. unfold add_tensor, new_tensor. apply params_bind; [apply params_lift|intros w]. apply params_add_wrapper. Qed.

End Params.

Ltac keeps_params :=
  repeat lazymatch goal with
  | |- keeps_params (bind _ _) => apply params_bind; [|intros ?; cbv beta iota zeta]
  | |- keeps_params (ret _) => apply params_ret
  | |- keeps_params (lift _) => apply params_lift
  | |- keeps_params (get _) => apply params_get
  | |- keeps_params (fresh _ _) => apply params_fresh
  | |- keeps_params (fresh_unit _ _) => apply params_fresh_unit
  | |- keeps_params (add_wrapper _ _ _) => apply params_add_wrapper
  | |- keeps_params (add_tensor _ _ _ _ _ _ _ _) => apply params_add_tensor
  | |- keeps_params (create_node _ _ _ _ _ _ _ _) => apply params_create_node
  | |- keeps_params (each _ _ _) => apply params_each; intros ? ?
  | |- keeps_params (if ?b then _ else _) => destruct b
  | |- keeps_params (match ?x with _ => _ end) => destruct x
  | |- keeps_params (let '_ := ?x in _) => destruct x
  end.

(** Loops that succeed. *)
Lemma runs_each `{QnnInterface} {S A} (I : list A → S → QnnModelWrapper → Prop) (body : S → A → M S) xs :
  (∀ done_ s x m, I done_ s m → x ∈ xs → runs (body s x) (I (done_ ++ [x])) m) →
  ∀ s m, I [] s m → runs (each xs body s) (I xs) m.
Proof.
  intros Hbody. assert (∀ rest done_ s m, done_ ++ rest = xs → I done_ s m → runs (each rest body s) (I xs) m) as Hgen.
  - induction rest as [|x rest IH]; intros done_ s m E Hs; cbn.
    + rewrite app_nil_r in E. subst. by apply runs_ret.
    + apply runs_bind. eapply runs_mono; [apply Hbody; [exact Hs|rewrite <- E; set_solver]|].
      intros s' m' Hs'. apply (IH (done_ ++ [x])); [by rewrite <- app_assoc|done].
  - intros s m. by apply (Hgen xs []).
Qed.

(** The constants of these operators have bytes. *)
Lemma float_const_ne qnn dt x : float_const_bytes qnn dt x ≠ [].
Proof. by destruct dt. Qed.

Lemma le_encode_ne n z : (0 < n)%nat → le_encode n z ≠ [].
Proof. destruct n; [lia|done]. Qed.

Lemma SetAlphaByte_ne qnn dt x bytes : SetAlphaByte qnn dt x = Ok bytes → bytes ≠ [].
Proof.
  unfold SetAlphaByte. destruct dt; intros E; try done;
    try match type of E with rmap _ ?r = _ => destruct r; [|done] end; by injection E as <-.
Qed.

Lemma Reciprocal_divisor_ne qnn info bytes : Reciprocal_divisor qnn info = Ok bytes → bytes ≠ [].
Proof.
  unfold Reciprocal_divisor. destruct (IsQuantized _); [|intros [= <-]; apply float_const_ne]. intros E.
  apply bind_Ok in E as ([s off] & _ & E). apply bind_Ok in E as (q & _ & E). apply bind_Ok in E as (es & He & E).
  destruct (es <=? 4); [|done]. injection E as <-. apply le_encode_ne.
  destruct (info_data_type info); vm_compute in He; simplify_eq; lia.
Qed.

(** ** Numbers

    The formulas of ONNX are stated over any arithmetic [A]; [num] embeds the binary32 numbers. *)
Record arithmetic (V : Type) := Arithmetic {
  num : float → V;
  a_div : V → V → V; a_mul : V → V → V; a_sin : V → V; a_cos : V → V; a_sigmoid : V → V;
  a_elu : V → V → V;  (** with alpha first *)
  a_greater : V → V → V; a_select : V → V → V → V
}.
Arguments num {V}. Arguments a_div {V}. Arguments a_mul {V}. Arguments a_sin {V}. Arguments a_cos {V}.
Arguments a_sigmoid {V}. Arguments a_elu {V}. Arguments a_greater {V}. Arguments a_select {V}.

(** The binary32 number nearest to [n / 10^k]. *)
Definition decimal (n : positive) (k : nat) : float := SpecFloat.SFdiv 24 128 (S754_finite false n 0) (S754_finite false (Z.to_pos (10 ^ Z.of_nat k)) 0).

(** A binary32 number that is not a NaN. *)
Definition binary32 (x : float) : Prop := SpecFloat.valid_binary 24 128 x = true ∧ x ≠ S754_nan.

(** What QNN reads in a tensor with one [float] that is not quantized. *)
Definition number (d : decl) : option float :=
  match d_type d, d_shape d, encodingDefinition (d_quant d), length (d_bytes d) with
  | Ok QNN_FLOAT_32, [1], DEFINITION_UNDEFINED, 4%nat => Some (onnx_float ONNX_FLOAT (d_bytes d) 0)
  | _, _, _, _ => None
  end.

(** The parameter called [key] among those of a node, when it is a [float]. *)
Definition float_param `{QnnInterface} (m : QnnModelWrapper) (ps : list string) (key : string) : option float :=
  match ps with
  | [n] => match model_params_map_ m !! n with
           | Some p => if bool_decide (pw_name_ p = key)
                       then match p_value (pw_qnn_param_ p) with PARAMTYPE_SCALAR (SCALAR_FLOAT_32 x) => Some x | _ => None end else None
           | None => None end
  | _ => None
  end.

(** The QNN ops of the decompositions, as QNN documents them. *)
Record meaning `{QnnInterface} (qnn : QnnHeaders) (m : QnnModelWrapper) {V} (A : arithmetic V) (sem : string → list string → list V → V) : Prop := {
  sem_div a b : sem (macro qnn "QNN_OP_ELEMENT_WISE_DIVIDE") [] [a; b] = a_div A a b;
  sem_mul a b : sem (macro qnn "QNN_OP_ELEMENT_WISE_MULTIPLY") [] [a; b] = a_mul A a b;
  sem_sin a : sem (macro qnn "QNN_OP_ELEMENT_WISE_SIN") [] [a] = a_sin A a;
  sem_cos a : sem (macro qnn "QNN_OP_ELEMENT_WISE_COS") [] [a] = a_cos A a;
  sem_sigmoid a : sem (macro qnn "QNN_OP_SIGMOID") [] [a] = a_sigmoid A a;
  sem_greater a b : sem (macro qnn "QNN_OP_ELEMENT_WISE_GREATER") [] [a; b] = a_greater A a b;
  sem_select a b c : sem (macro qnn "QNN_OP_ELEMENT_WISE_SELECT") [] [a; b; c] = a_select A a b c;
  sem_elu ps alpha a : float_param m ps (macro qnn "QNN_OP_ELU_PARAM_ALPHA") = Some alpha →
    sem (macro qnn "QNN_OP_ELU") ps [a] = a_elu A (num A alpha) a
}.

(** The nodes that [m'] has more than [m] give the tensor [n] the value [f] of the tensor [i]. *)
Definition lowered_to `{QnnInterface} (qnn : QnnHeaders) (m m' : QnnModelWrapper) (n i : string) (f : ∀ V, arithmetic V → V → V) : Prop :=
  ∃ new, qnn_op_property_list_ m' = qnn_op_property_list_ m ++ new ∧
    ∀ V (A : arithmetic V) sem lit ρ, meaning qnn m' A sem → (∀ d x, number d = Some x → lit d = num A x) →
      valuation lit m' ρ → eval sem new ρ n = f V A (ρ i).

Lemma bits_f32 nan x : binary32 x → 0 ≤ bits_of_f32 nan x < 2 ^ 32 ∧ f32_of_bits (bits_of_f32 nan x) = x.
Proof.
  intros [Hv Hn]. destruct x as [s|s| |s q e]; [destruct s; by vm_compute..|done|].
  unfold SpecFloat.valid_binary, SpecFloat.bounded, SpecFloat.canonical_mantissa, SpecFloat.fexp, SpecFloat.emin in Hv.
  apply andb_prop in Hv as [Hc%Z.eqb_eq He%Z.leb_le]. rewrite digits_log2 in Hc. cbn [Z.sub] in Hc, He.
  pose proof (Z.log2_spec (Zpos q) ltac:(lia)) as Hl. pose proof (Z.log2_nonneg (Zpos q)) as H0.
  cbn [bits_of_f32]. set (sg := if s then 2 ^ 31 else 0).
  assert (∀ E M, 0 ≤ E < 256 → 0 ≤ M < 2 ^ 23 → 0 ≤ sg + E * 2 ^ 23 + M < 2 ^ 32 ∧ Z.testbit (sg + E * 2 ^ 23 + M) 31 = s ∧
    ((sg + E * 2 ^ 23 + M) / 2 ^ 23) mod 2 ^ 8 = E ∧ (sg + E * 2 ^ 23 + M) mod 2 ^ 23 = M) as Hf.
  { intros E M HE HM. assert (sg = Z.b2z s * 2 ^ 31) as -> by (by destruct s).
    assert (Z.b2z s = 0 ∨ Z.b2z s = 1) as Hs by (destruct s; auto).
    assert ((Z.b2z s * 2 ^ 31 + E * 2 ^ 23 + M) / 2 ^ 23 = Z.b2z s * 2 ^ 8 + E) as Hd.
    { replace (Z.b2z s * 2 ^ 31 + E * 2 ^ 23 + M) with (M + (Z.b2z s * 2 ^ 8 + E) * 2 ^ 23) by lia. rewrite Z.div_add, Z.div_small by lia. lia. }
    split_and!; [lia|lia| | |].
    - rewrite Z.testbit_eqb by lia. replace (2 ^ 31) with (2 ^ 23 * 2 ^ 8) at 2 by lia. rewrite <- Z.div_div, Hd by lia.
      rewrite Z.div_add_l, (Z.div_small E) by lia. by destruct s.
    - rewrite Hd, Z.add_comm, Z.mod_add, Z.mod_small by lia. done.
    - replace (Z.b2z s * 2 ^ 31 + E * 2 ^ 23 + M) with (M + (Z.b2z s * 2 ^ 8 + E) * 2 ^ 23) by lia. rewrite Z.mod_add, Z.mod_small by lia. done. }
  destruct (Z.ltb_spec (Zpos q) (2 ^ 23)) as [Hq|Hq].
  - assert (Z.log2 (Zpos q) < 23) by (apply Z.log2_lt_pow2; lia). assert (e = -149) as -> by lia.
    destruct (Hf 0 (Zpos q)) as (Hr & Ht & Hd & Hm); [lia|lia|]. rewrite Z.mul_0_l, Z.add_0_r in Hr, Ht, Hd, Hm. split; [done|].
    unfold f32_of_bits. rewrite Ht, Hd, Hm. done.
  - assert (23 ≤ Z.log2 (Zpos q)) by (apply Z.log2_le_pow2; lia). assert (Z.log2 (Zpos q) = 23) as Hl23 by lia.
    rewrite Hl23 in Hl. change (2 ^ Z.succ 23) with (2 ^ 24) in Hl.
    destruct (Hf (e + 150) (Zpos q - 2 ^ 23)) as (Hr & Ht & Hd & Hm); [lia|lia|]. split; [done|]. unfold f32_of_bits. rewrite Ht, Hd, Hm.
    rewrite (proj2 (Z.eqb_neq _ _)), (proj2 (Z.eqb_neq _ 255)) by lia. f_equal; [|lia].
    replace (Zpos q - 2 ^ 23 + 2 ^ 23) with (Zpos q) by lia. done.
Qed.

(** The bytes of a [float], declared as one, are read as that number. *)
Lemma number_bytes qnn x : binary32 x → number (Decl (Ok QNN_FLOAT_32) [1] (params_ default_wrapper) (f32_bytes qnn x)) = Some x.
Proof.
  intros Hx. destruct (bits_f32 (nan32 qnn) x Hx) as [Hr Hb]. unfold number. cbn [d_type d_shape d_quant d_bytes].
  assert (length (f32_bytes qnn x) = 4%nat) as Hl by apply le_encode_length. rewrite Hl. change (encodingDefinition (params_ default_wrapper)) with DEFINITION_UNDEFINED.
  f_equal. unfold onnx_float. rewrite <- decode_word by lia. unfold element. rewrite drop_0, take_ge by lia. unfold f32_bytes.
  rewrite le_decode_encode, Z.mod_small by lia. done.
Qed.

(** One step of a program that leaves the parameters alone. *)
Ltac run_step_keeping :=
  lazymatch goal with
  | |- runs (bind _ _) _ _ => run_step
  | |- runs (ret _) _ _ => run_step
  | |- runs (lift _) _ _ => run_step
  | |- runs (AddQnnScalar _ _ _ _ _) _ _ => fail
  | |- runs (add_graph_output _ _ _ _ _ _) _ _ => run_step
  | |- runs _ _ _ => apply runs_keeping; [solve [keeps_params]|]; run_step; intros ?
  end.

Section Decompositions.
Context `{SafeInt} `{QnnInterface}.
Context (env : environment) (graph : OrtGraph) (qnn : QnnHeaders).
Context (ib : tensor_body) (Hinit : body_of (tensor_init env) = Ok ib).
Context (u : UnitView) (inp o : OrtNodeUnitIODef) (info oinfo : TensorInfo) (i : string).
Hypothesis Hin : aget (Inputs u) 0 = Ok inp.
Hypothesis Hout : aget (Outputs u) 0 = Ok o.
Hypothesis Hinfo : GetTensorInfo env graph inp = Ok info.
Hypothesis Hoinfo : GetTensorInfo env graph o = Ok oinfo.
Hypothesis Hd : describable info.
Hypothesis Hod : describable oinfo.
Hypothesis Hwide : wide (info_data_type info) = false.
Hypothesis Hne : name o ≠ "".

Local Abbreviation base := (NodeUnitBaseName (u_name u) (u_op_type u) (N.of_nat (u_index u))).
Local Abbreviation op n := (macro qnn n).

Lemma Tan_computes m : reserved base m [i] →
  runs (Tan_ProcessAttributesAndOutputs env graph qnn u [i] false)
    (fun _ m' => computes m m' (name o) (fun V sem lit ρ =>
       sem (op "QNN_OP_ELEMENT_WISE_DIVIDE") []
         [sem (op "QNN_OP_ELEMENT_WISE_SIN") [] [ρ i]; sem (op "QNN_OP_ELEMENT_WISE_COS") [] [ρ i]])) m.
Proof.
  intros [_ Hi]. specialize (Hi i ltac:(by left)). destruct Hd as [Hq Hs], Hod as [Hoq Hos].
  unfold Tan_ProcessAttributesAndOutputs. run_auto. new_nodes. eval_nodes.
Qed.

Lemma Selu_computes m : reserved (u_name u) m [i] →
  runs (Selu_ProcessAttributesAndOutputs env graph qnn u [i] false)
    (fun _ m' => computes m m' (name o) (fun V sem lit ρ =>
       sem (op "QNN_OP_ELEMENT_WISE_MULTIPLY") []
         [lit (Decl (Ok (info_data_type info)) [1] (params_ default_wrapper) (float_const_bytes qnn (info_data_type info) (Get_float u "gamma" Selu_gamma)));
          sem (op "QNN_OP_ELU") [param_tensor_name (u_index u) (u_name u) (op "QNN_OP_ELU_PARAM_ALPHA")] [ρ i]])) m.
Proof.
  intros [Hm Hi]. specialize (Hi i ltac:(by left)).
  pose proof (float_const_ne qnn (info_data_type info) (Get_float u "gamma" Selu_gamma)) as Hb. destruct Hd as [Hq Hs], Hod as [Hoq Hos].
  unfold Selu_ProcessAttributesAndOutputs. run_auto. new_nodes. eval_nodes.
Qed.

Lemma Reciprocal_computes m bytes : reserved base m [i] →
  Reciprocal_divisor qnn info = Ok bytes →
  runs (Reciprocal_ProcessAttributesAndOutputs env graph qnn u [i] false)
    (fun _ m' => computes m m' (name o) (fun V sem lit ρ =>
       sem (op "QNN_OP_ELEMENT_WISE_DIVIDE") [] [lit (Decl (Ok (info_data_type info)) [1] (params_ (info_quant_param info)) bytes); ρ i])) m.
Proof.
  intros [Hm Hi] Hb. pose proof (Reciprocal_divisor_ne _ _ _ Hb). specialize (Hi i ltac:(by left)). destruct Hd as [Hq Hs], Hod as [Hoq Hos].
  unfold Reciprocal_ProcessAttributesAndOutputs. run_auto. new_nodes. eval_nodes.
Qed.

Lemma ThresholdedRelu_computes m alpha zero : reserved base m [i] →
  SetAlphaByte qnn (info_data_type info) (Get_float u "alpha" f_zero) = Ok alpha →
  SetAlphaByte qnn (info_data_type info) f_zero = Ok zero →
  runs (ThresholdedRelu_ProcessAttributesAndOutputs env graph qnn u [i] false)
    (fun _ m' => computes m m' (name o) (fun V sem lit ρ =>
       sem (op "QNN_OP_ELEMENT_WISE_SELECT") []
         [sem (op "QNN_OP_ELEMENT_WISE_GREATER") [] [ρ i; lit (Decl (Ok (info_data_type info)) [1] (params_ default_wrapper) alpha)]; ρ i; lit (Decl (Ok (info_data_type info)) [1] (params_ default_wrapper) zero)])) m.
Proof.
  intros [Hm Hi] Ea Ez. pose proof (SetAlphaByte_ne _ _ _ _ Ea). pose proof (SetAlphaByte_ne _ _ _ _ Ez). specialize (Hi i ltac:(by left)). destruct Hd as [Hq Hs], Hod as [Hoq Hos].
  unfold ThresholdedRelu_ProcessAttributesAndOutputs. run_auto. new_nodes. eval_nodes.
Qed.

(** The factor of the sigmoid's input. *)
Definition quick_alpha : float := Get_float u "alpha"
  (if bool_decide (u_op_type u = "Swish") then f32_of_Z 1 else f32_div (f32_of_Z 1702) (f32_of_Z 1000)).
Definition quick_alpha_bytes : list Z :=
  match info_data_type info with QNN_FLOAT_16 => f16_bytes qnn quick_alpha | _ => f32_bytes qnn quick_alpha end.

Lemma QuickGelu_computes m : reserved (u_name u) m [i] →
  runs (QuickGelu_ProcessAttributesAndOutputs env graph qnn u [i] false)
    (fun _ m' => computes m m' (name o) (fun V sem lit ρ =>
       sem (op "QNN_OP_ELEMENT_WISE_MULTIPLY") []
         [ρ i; sem (op "QNN_OP_SIGMOID") []
            [if f_lt (Floats.f_abs (f32_sub quick_alpha (f32_of_Z 1))) alpha_epsilon then ρ i
             else sem (op "QNN_OP_ELEMENT_WISE_MULTIPLY") [] [lit (Decl (Ok (info_data_type info)) [1] (params_ default_wrapper) quick_alpha_bytes); ρ i]]])) m.
Proof.
  intros [Hm Hi]. specialize (Hi i ltac:(by left)). destruct Hd as [Hq Hs], Hod as [Hoq Hos].
  assert (quick_alpha_bytes ≠ []) as Hb by (unfold quick_alpha_bytes; by destruct (info_data_type info)).
  unfold QuickGelu_ProcessAttributesAndOutputs. fold quick_alpha. cbv zeta. run_auto.
  unfold QuickGelu_scaled. fold quick_alpha_bytes. destruct (f_lt _ _); run_auto; new_nodes; eval_nodes.
Qed.

Lemma Mod_computes m binp binfo j : reserved base m [i; j] →
  Get_int64 u "fmod" 0 = 0 → aget (Inputs u) 1 = Ok binp → GetTensorInfo env graph binp = Ok binfo → describable binfo →
  runs (Mod_ProcessAttributesAndOutputs env graph qnn u [i; j] false)
    (fun _ m' => computes m m' (name o) (fun V sem lit ρ =>
       let cast x := if Mod_IsCastRequired (info_data_type info) then sem (QNN_OP_CAST env) [] [x] else x in
       let a := cast (ρ i) in let b := cast (ρ j) in
       cast (sem (op "QNN_OP_ELEMENT_WISE_SUBTRACT") []
         [a; sem (op "QNN_OP_ELEMENT_WISE_MULTIPLY") []
               [b; sem (op "QNN_OP_ELEMENT_WISE_FLOOR") [] [sem (op "QNN_OP_ELEMENT_WISE_DIVIDE") [] [a; b]]]]))) m.
Proof.
  intros [Hm Hi'] Hf Hb Hbi [_ Hbs]. pose proof (Hi' i ltac:(by left)) as Hi. pose proof (Hi' j ltac:(by right; left)) as Hj.
  destruct Hd as [Hq Hs], Hod as [Hoq Hos].
  unfold Mod_ProcessAttributesAndOutputs, Mod_operands, Mod_step. rewrite Hf. cbn [negb Z.eqb].
  run_auto.
  destruct (Mod_IsCastRequired (info_data_type info)); run_auto; new_nodes; eval_nodes.
Qed.

(** What holds while the inputs [ys] are being added to [x]: the sum so far is in [s]. *)
Definition mean_inv (m : QnnModelWrapper) (x : string) (ys : list (nat * string)) (s : string) (m' : QnnModelWrapper) : Prop :=
  ∃ new t, qnn_op_property_list_ m' = qnn_op_property_list_ m ++ new ∧ s = x +:+ t ∧
    (∀ V (sem : string → list string → list V → V) ρ,
       eval sem new ρ s = foldl (fun acc y => sem (op "QNN_OP_ELEMENT_WISE_ADD") [] [acc; ρ y]) (ρ x) ys.*2 ∧
       ∀ k, (∀ t', t' ≠ "" → (String.length t' ≤ String.length t)%nat → k ≠ x +:+ t') → eval sem new ρ k = ρ k) ∧
    (∀ t', (String.length t < String.length t')%nat → constant m' (x +:+ t') = None).

Lemma Mean_add_runs m x shape s p ys m' : onnx_shape_of o = Ok shape → Z.of_nat (length shape) < 2 ^ 32 →
  (∀ t, t ≠ "" → p.2 ≠ x +:+ t) → mean_inv m x ys s m' →
  runs (Mean_add env qnn u o info false s p) (mean_inv m x (ys ++ [p])) m'.
Proof.
  intros Hsh Hl Hp (new & t & Hops & -> & Hev & Hc). destruct p as [k y]. cbn in Hp. unfold Mean_add. cbv iota beta.
  do 4 run_step. run_auto.
  set (t2 := t +:+ "_add" +:+ pretty k +:+ t0) in *.
  assert (String.length t < String.length t2)%nat as Hlen by (unfold t2; rewrite !string_app_length; cbn; lia).
  assert (t2 ≠ "") as Hnz by (intros E; rewrite E in Hlen; cbn in Hlen; lia).
  assert (∀ t', String.length t' ≠ String.length t2 → x +:+ t' ≠ x +:+ t2) as Hsep by (intros t' Hl' E; by apply string_app_inj in E as ->).
  exists (new ++ [OpProperty x0 (QNN_OP_PACKAGE_NAME_QTI_AISW env) (op "QNN_OP_ELEMENT_WISE_ADD") [x +:+ t; y] [x +:+ t2] []]), t2.
  split_and!.
  - repeat match goal with E : qnn_op_property_list_ ?m = _ |- context [qnn_op_property_list_ ?m] => rewrite E end.
    by rewrite <- app_assoc.
  - done.
  - intros V sem ρ. destruct (Hev V sem ρ) as [Hs Ho]. rewrite eval_app. set (ρ' := eval sem new ρ) in *. split.
    + change (eval_op sem ρ' (OpProperty x0 (QNN_OP_PACKAGE_NAME_QTI_AISW env) (op "QNN_OP_ELEMENT_WISE_ADD") [x +:+ t; y] [x +:+ t2] []) (x +:+ t2) = foldl (fun acc y => sem (op "QNN_OP_ELEMENT_WISE_ADD") [] [acc; ρ y]) (ρ x) (ys ++ [(k, y)]).*2).
      rewrite eval_written, fmap_app, foldl_app. cbn. by rewrite Hs, Ho by auto.
    + intros k' Hk'. rewrite <- Ho by (intros ? ? ?; apply Hk'; [done|lia]). apply eval_other. by apply Hk'.
  - intros t' Ht'. trace_constant. rewrite (proj1 H4) by (apply Hsep; lia). trace_constant. apply Hc. lia.
Qed.

Lemma Mean_computes m shape x ys : onnx_shape_of o = Ok shape → Z.of_nat (length shape) < 2 ^ 32 →
  (2 ≤ length (Inputs u))%nat →
  (∀ t, t ≠ "" → constant m (x +:+ t) = None) → (∀ y t, y ∈ ys → t ≠ "" → y ≠ x +:+ t) →
  runs (Mean_ProcessAttributesAndOutputs env graph qnn u (x :: ys) false)
    (fun _ m' => computes m m' (name o) (fun V sem lit ρ =>
       sem (op "QNN_OP_ELEMENT_WISE_DIVIDE") []
         [foldl (fun acc y => sem (op "QNN_OP_ELEMENT_WISE_ADD") [] [acc; ρ y]) (ρ x) ys;
          lit (Decl (Ok (info_data_type info)) [1] (params_ default_wrapper) (f32_bytes qnn (f32_of_Z (Z.of_nat (length (Inputs u))))))])) m.
Proof.
  intros Hsh Hl Hn Hm Hy. destruct Hd as [Hq Hs], Hod as [Hoq Hos]. unfold Mean_ProcessAttributesAndOutputs.
  rewrite (proj2 (Nat.ltb_ge _ _) Hn). run_auto.
  eapply runs_mono; [apply (runs_each (mean_inv m x))|].
  - intros ys1 s [k y] m1 Hinv Hin'. eapply Mean_add_runs; [done|done| |done]. intros t Ht. apply Hy; [|done].
    cbn in Hin'. by apply elem_of_zip_r in Hin'.
  - exists [], "". split_and!; [by rewrite app_nil_r|by rewrite string_app_nil|done|].
    intros t' Ht'. apply Hm. intros ->. cbn in Ht'. lia.
  - intros s m1 (new & t & Hops & -> & Hev & Hc). run_auto.
    assert (String.length t < String.length (t +:+ "_divisor" +:+ t0))%nat as Hlen by (rewrite !string_app_length; cbn; lia).
    eexists. split.
    { repeat match goal with E : qnn_op_property_list_ ?m = _ |- context [qnn_op_property_list_ ?m] => rewrite E end.
      rewrite <- app_assoc. reflexivity. }
    intros V sem lit ρ Hlit. rewrite eval_app. unfold eval at 1. cbn [foldl]. rewrite eval_written. cbn [fmap list_fmap].
    destruct (Hev V sem ρ) as [-> Ho]. rewrite Ho, snd_zip, (Hlit (x +:+ t +:+ "_divisor" +:+ t0) (Decl (Ok (info_data_type info)) [1] (params_ default_wrapper) (f32_bytes qnn (f32_of_Z (Z.of_nat (length (Inputs u))))))).
    + reflexivity.
    + trace_constant. by apply Hc.
    + done.
    + rewrite length_seq, length_drop. done.
    + intros t' _ Hlt E. apply string_app_inj in E. subst. lia.
Qed.

(** Selu hands the node of Elu the parameter alpha. *)
Lemma runs_elu_alpha x key Q m : model_params_map_ m !! param_tensor_name (u_index u) (u_name u) key = None →
  (∀ m', qnn_op_property_list_ m' = qnn_op_property_list_ m → same_constants m m' →
     float_param m' [param_tensor_name (u_index u) (u_name u) key] key = Some x →
     Q [param_tensor_name (u_index u) (u_name u) key] m') →
  runs (AddQnnScalar (u_index u) (u_name u) (SCALAR_FLOAT_32 x) key []) Q m.
Proof.
  intros Hn HQ. unfold AddQnnScalar. apply runs_bind. unfold runs, require, AddParamWrapper. cbn.
  rewrite bool_decide_false by apply param_name_ne. unfold QnnParamExists. rewrite Hn, bool_decide_false by (by intros []). cbn.
  eexists _, _. split; [done|]. apply runs_ret, HQ; [done|by intros ?|]. unfold float_param. cbn.
  rewrite lookup_insert_eq. cbn. by rewrite bool_decide_true.
Qed.

Lemma Selu_alpha_kept m : reserved (u_name u) m [i] →
  model_params_map_ m !! param_tensor_name (u_index u) (u_name u) (op "QNN_OP_ELU_PARAM_ALPHA") = None →
  runs (Selu_ProcessAttributesAndOutputs env graph qnn u [i] false)
    (fun _ m' => float_param m' [param_tensor_name (u_index u) (u_name u) (op "QNN_OP_ELU_PARAM_ALPHA")] (op "QNN_OP_ELU_PARAM_ALPHA") =
       Some (Get_float u "alpha" Selu_alpha)) m.
Proof.
  intros [Hm Hi] Hp. specialize (Hi i ltac:(by left)). destruct Hd as [Hq Hs], Hod as [Hoq Hos].
  unfold Selu_ProcessAttributesAndOutputs. repeat run_step_keeping.
  apply runs_elu_alpha; [by repeat match goal with E : model_params_map_ _ = _ |- _ => rewrite E end|]. intros ? _ _ Hf.
  repeat run_step_keeping. unfold float_param in *.
  repeat match goal with E : model_params_map_ _ = _ |- _ => rewrite E; clear E end. exact Hf.
Qed.

(** The attributes of ONNX, with the values they have when they are not given. *)
Definition onnx_attr (a : string) (def : float) : float := default def (attr_float (u_attributes u) a).

(** The formulas of ONNX, by operator. *)
Definition onnx_tan V (A : arithmetic V) (x : V) : V := a_div A (a_sin A x) (a_cos A x).
Definition onnx_reciprocal V (A : arithmetic V) (x : V) : V := a_div A (num A (decimal 10 1)) x.
Definition onnx_selu V (A : arithmetic V) (x : V) : V :=
  a_mul A (num A (onnx_attr "gamma" (decimal 105070102214813232421875 23)))
    (a_elu A (num A (onnx_attr "alpha" (decimal 167326319217681884765625 23))) x).
Definition gelu_alpha : float := onnx_attr "alpha" (if bool_decide (u_op_type u = "Swish") then decimal 10 1 else decimal 1702 3).
Definition onnx_quick_gelu V (A : arithmetic V) (x : V) : V :=
  a_mul A x (a_sigmoid A (if f_lt (Floats.f_abs (f32_sub gelu_alpha (decimal 10 1))) (decimal 1 6) then x else a_mul A (num A gelu_alpha) x)).
Definition onnx_thresholded_relu (alpha : float) V (A : arithmetic V) (x : V) : V :=
  a_select A (a_greater A x (num A alpha)) x (num A f_zero).

(** What is asked of each builder. *)
Definition elementwise_spec (m : QnnModelWrapper) : Prop :=
  let run b f := runs (ProcessAttributesAndOutputs b u [i] false) (fun _ m' => lowered_to qnn m m' (name o) i f) m in
  run (TanOpBuilder env graph qnn) onnx_tan ∧
  run (ReciprocalOpBuilder env graph qnn) onnx_reciprocal ∧
  run (SeluOpBuilder env graph qnn) onnx_selu ∧
  run (QuickGeluOpBuilder env graph qnn) onnx_quick_gelu ∧
  ∀ alpha, attr_float (u_attributes u) "alpha" = Some alpha → run (ThresholdedReluOpBuilder env graph qnn) (onnx_thresholded_relu alpha).

(** From the meaning of the nodes to the formula. *)
Lemma computes_lowered m c (f : ∀ V, (string → list string → list V → V) → (decl → V) → (string → V) → V) g :
  runs c (fun _ m' => computes m m' (name o) f) m →
  (∀ V (A : arithmetic V) sem lit ρ m', c m = Ok (m', inr tt) → meaning qnn m' A sem → (∀ d x, number d = Some x → lit d = num A x) →
     f V sem lit ρ = g V A (ρ i)) →
  runs c (fun _ m' => lowered_to qnn m m' (name o) i g) m.
Proof using Type.
  intros (m' & [] & E & new & En & Hc) Hg. exists m', tt. split; [done|]. exists new. split; [done|].
  intros V A sem lit ρ Hsem Hlit Hv. rewrite (Hc V sem lit ρ Hv). by eapply Hg.
Qed.

Lemma attr_binary32 a def : (∀ a x, attr_float (u_attributes u) a = Some x → binary32 x) → binary32 def → binary32 (onnx_attr a def).
Proof using Type. intros Ha Hdef. unfold onnx_attr. destruct (attr_float _ a) eqn:E; [by eapply Ha|done]. Qed.

(** C9: the builders of Tan, Reciprocal, Selu, QuickGelu (and Swish) and ThresholdedRelu succeed on a unit
    with [float] tensors that are not quantized, and for any arithmetic in which the QNN ops mean
    what QNN documents, reading the constants from the bytes that are stored under the declared
    type and the alpha of Elu from the table of parameters, the nodes they append compute: sine over
    cosine; one over the input; gamma times Elu of alpha, with the attributes of the unit or the
    defaults of ONNX, 1.05070102214813232421875 and 1.67326319217681884765625; the input times the
    sigmoid of alpha (default 1.702, or 1 for Swish) times the input, where an alpha within 1e-6 of
    one is left out; and the selection between the input and zero by the comparison of the input with
    the given alpha.  The attributes are numbers, the new tensors' names are those of no other
    tensor, and the parameter's that of no other parameter. *)
Theorem elementwise_decompositions m :
  info_data_type info = QNN_FLOAT_32 → params_ (info_quant_param info) = params_ default_wrapper →
  (∀ a x, attr_float (u_attributes u) a = Some x → binary32 x) →
  reserved base m [i] → reserved (u_name u) m [i] →
  model_params_map_ m !! param_tensor_name (u_index u) (u_name u) (op "QNN_OP_ELU_PARAM_ALPHA") = None →
  elementwise_spec m.
Proof.
  intros Ht Hp Ha Hb Hu Hpar. assert (IsQuantized (info_quant_param info) = false) as Hnq by (unfold IsQuantized, defined; by rewrite Hp).
  assert (∀ n k, SpecFloat.valid_binary 24 128 (decimal n k) = true → decimal n k ≠ S754_nan → binary32 (decimal n k)) as Hdec by done.
  unfold elementwise_spec. split_and!; [..|intros alpha Halpha].
  - eapply computes_lowered; [by apply Tan_computes|]. intros V A sem lit ρ m' _ [] _. unfold onnx_tan. congruence.
  - eapply computes_lowered; [eapply Reciprocal_computes; [done|unfold Reciprocal_divisor; rewrite Hnq, Ht; reflexivity]|].
    intros V A sem lit ρ m' _ Hsem Hlit. cbv beta. rewrite (sem_div _ _ _ _ Hsem), Ht, Hp. unfold onnx_reciprocal. f_equal.
    apply Hlit. change (f32_of_Z 1) with (decimal 10 1). by apply number_bytes, Hdec.
  - destruct (Selu_alpha_kept m Hu Hpar) as (m1 & [] & E1 & Hf).
    eapply computes_lowered; [by apply Selu_computes|]. intros V A sem lit ρ m' E Hsem Hlit. cbv beta. cbn [ProcessAttributesAndOutputs SeluOpBuilder] in E.
    rewrite E1 in E. injection E as <-. rewrite (sem_mul _ _ _ _ Hsem), (sem_elu _ _ _ _ Hsem _ _ _ Hf), Ht. unfold onnx_selu. f_equal.
    apply Hlit. apply (number_bytes qnn (onnx_attr "gamma" Selu_gamma)). by apply attr_binary32.
  - eapply computes_lowered; [by apply QuickGelu_computes|]. intros V A sem lit ρ m' _ Hsem Hlit. cbv beta. change quick_alpha with gelu_alpha.
    rewrite (sem_mul _ _ _ _ Hsem), (sem_sigmoid _ _ _ _ Hsem), (sem_mul _ _ _ _ Hsem). unfold onnx_quick_gelu.
    change alpha_epsilon with (decimal 1 6). change (f32_of_Z 1) with (decimal 10 1). do 2 f_equal. destruct (f_lt _ _); [done|]. f_equal.
    apply Hlit. unfold quick_alpha_bytes. rewrite Ht. change quick_alpha with gelu_alpha. apply number_bytes, attr_binary32; [done|]. case_bool_decide; by apply Hdec.
  - eapply computes_lowered; [eapply ThresholdedRelu_computes; [done|rewrite Ht; reflexivity..]|].
    intros V A sem lit ρ m' _ Hsem Hlit. cbv beta. rewrite (sem_greater _ _ _ _ Hsem), (sem_select _ _ _ _ Hsem), Ht. unfold onnx_thresholded_relu, Get_float. rewrite Halpha.
    f_equal; [f_equal|]; apply Hlit, number_bytes; [by eapply Ha|done].
Qed.

(** The nodes of Mod compute [a - b * floor (a / b)], with both operands and the result
    converted when the type is no floating-point type QNN divides; those of Mean compute the
    sum of all inputs, added from the left, divided by the constant that holds the number of
    inputs. *)
Theorem mod_and_mean m binp binfo j shape ys :
  reserved base m [i; j] → Get_int64 u "fmod" 0 = 0 →
  aget (Inputs u) 1 = Ok binp → GetTensorInfo env graph binp = Ok binfo → describable binfo →
  onnx_shape_of o = Ok shape → Z.of_nat (length shape) < 2 ^ 32 →
  (∀ t, t ≠ "" → constant m (i +:+ t) = None) → (∀ y t, y ∈ ys → t ≠ "" → y ≠ i +:+ t) →
  runs (ProcessAttributesAndOutputs (ModOpBuilder env graph qnn) u [i; j] false)
    (fun _ m' => computes m m' (name o) (fun V sem lit ρ =>
       let cast x := if Mod_IsCastRequired (info_data_type info) then sem (QNN_OP_CAST env) [] [x] else x in
       let a := cast (ρ i) in let b := cast (ρ j) in
       cast (sem (op "QNN_OP_ELEMENT_WISE_SUBTRACT") []
         [a; sem (op "QNN_OP_ELEMENT_WISE_MULTIPLY") []
               [b; sem (op "QNN_OP_ELEMENT_WISE_FLOOR") [] [sem (op "QNN_OP_ELEMENT_WISE_DIVIDE") [] [a; b]]]]))) m ∧
  runs (ProcessAttributesAndOutputs (MeanOpBuilder env graph qnn) u (i :: ys) false)
    (fun _ m' => computes m m' (name o) (fun V sem lit ρ =>
       sem (op "QNN_OP_ELEMENT_WISE_DIVIDE") []
         [foldl (fun acc y => sem (op "QNN_OP_ELEMENT_WISE_ADD") [] [acc; ρ y]) (ρ i) ys;
          lit (Decl (Ok (info_data_type info)) [1] (params_ default_wrapper) (f32_bytes qnn (f32_of_Z (Z.of_nat (length (Inputs u))))))])) m.
Proof.
  intros Hr Hf Hb Hbi Hbd Hsh Hl Hm Hy. split.
  - by eapply Mod_computes.
  - eapply Mean_computes; try done. apply aget_Ok in Hb. apply lookup_lt_Some in Hb. lia.
Qed.

End Decompositions.

(** ** An example unit *)

Definition example_headers : QnnHeaders := Headers (fun s => s) (fun _ => 0) 2143289344 32256 32704.
Definition example_attributes : OrtNodeAttrHelper :=
  Attributes (fun _ => None) (fun _ => None) (fun _ => None) (fun _ => None) (fun _ => None).
Definition float_io (n : string) : OrtNodeUnitIODef := IODef n ONNX_FLOAT (Some [2; 3]) None.
Definition example_unit : UnitView :=
  View "n" "Mod" 0 13 "" [float_io "x"; float_io "z"] [float_io "y"] example_attributes [] [] false.
Definition empty_model : QnnModelWrapper (H0 := counting_qnn) := Model (H0 := counting_qnn) ∅ ∅ [] ∅ ∅ None (0, []) ∅.
Definition float_info : TensorInfo := Info [2; 3] QNN_FLOAT_32 default_wrapper false None.

Lemma float_info_describable : describable float_info.
Proof. split; [split; [apply default_wf|done]|cbn; lia]. Defined.

Lemma empty_reserved b ns : (∀ n, n ∈ ns → ∀ t, n ≠ b +:+ t) → reserved (H := counting_qnn) b empty_model ns.
Proof. intros Hn. split; [by intros t|done]. Defined.

Lemma elementwise_decompositions_witness :
  elementwise_spec (H := exact_safe_int) (H0 := counting_qnn) (example_env false) (example_graph ONNX_FLOAT) example_headers
    example_unit (float_io "y") "x" empty_model.
Proof.
  eapply (elementwise_decompositions (H := exact_safe_int) (H0 := counting_qnn) (example_env false) (example_graph ONNX_FLOAT)
    example_headers _ eq_refl example_unit (float_io "x") (float_io "y") float_info float_info "x"); try reflexivity.
  - apply float_info_describable.
  - apply float_info_describable.
  - done.
  - done.
  - apply empty_reserved. intros n Hn t E. apply list_elem_of_singleton in Hn. subst. by vm_compute in E.
  - apply empty_reserved. intros n Hn t E. apply list_elem_of_singleton in Hn. subst. by vm_compute in E.
Defined.

Lemma mod_and_mean_witness :
  runs (H0 := counting_qnn) (ProcessAttributesAndOutputs (ModOpBuilder (H := exact_safe_int) (H0 := counting_qnn) (example_env false)
      (example_graph ONNX_FLOAT) example_headers) example_unit ["x"; "z"] false) (fun _ _ => True) empty_model ∧
  runs (H0 := counting_qnn) (ProcessAttributesAndOutputs (MeanOpBuilder (H := exact_safe_int) (H0 := counting_qnn) (example_env false)
      (example_graph ONNX_FLOAT) example_headers) example_unit ["x"; "z"] false) (fun _ _ => True) empty_model.
Proof.
  destruct (mod_and_mean (H := exact_safe_int) (H0 := counting_qnn) (example_env false) (example_graph ONNX_FLOAT)
    example_headers _ eq_refl example_unit (float_io "x") (float_io "y") float_info float_info "x" eq_refl eq_refl eq_refl eq_refl
    float_info_describable float_info_describable eq_refl ltac:(done) empty_model (float_io "z") float_info "z" [2; 3] ["z"])
    as [Hmod Hmean]; try done.
  - apply empty_reserved. intros n Hn t E. repeat (apply elem_of_cons in Hn as [->|Hn]; [by vm_compute in E|]); by apply not_elem_of_nil in Hn.
  - intros y t Hy _ E. apply list_elem_of_singleton in Hy as ->. by vm_compute in E.
  - split; (eapply runs_mono; [eassumption|done]).
Defined.
