(* ===== verification/ConvBuilders.v ===== *)
(** * Op builders of pools and convolutions

    The builders of [builder/opbuilder/pool_op_builder.cc] and [conv_op_builder.cc] and the padding
    functions of [base_op_builder.h].  One-dimensional operators become two-dimensional ones with a
    height of 1; the weight of a convolution is stored with its spatial dimensions first. *)

From S2P Require Import Prelude SubByte DataTypes Floats QuantParams Perm Transpose QnnTensor Quantize OpParams ModelWrapper NodeGroups QdqSelector NodeUnitDefs TensorInfo ModelOps OpBuilder Builders Convert MoveBuilders SimpleBuilders Bias MatMulBuilders Decompositions.
Local Open Scope Z_scope.

(** ** Padding *)

Inductive AutoPadType := NOTSET | VALID | SAME_UPPER | SAME_LOWER.

Definition StringToAutoPadType (str : string) : result AutoPadType :=
  if bool_decide (str = "") then Ok NOTSET
  else if bool_decide (str = "NOTSET") then Ok NOTSET
  else if bool_decide (str = "VALID") then Ok VALID
  else if bool_decide (str = "SAME_UPPER") then Ok SAME_UPPER
  else if bool_decide (str = "SAME_LOWER") then Ok SAME_LOWER
  else Err (Throw "Unknown AutoPadType String").

(** [SafeInt<int64_t>] throws on overflow; for plain [int64_t] overflow is undefined. *)
Definition in_i64 (v : Z) : bool := (- 2 ^ 63 <=? v) && (v <? 2 ^ 63).
Definition safe_i64 (v : Z) : result Z := if in_i64 v then Ok v else Err (Throw "SafeInt").
Definition plain_i64 (v : Z) : result Z := if in_i64 v then Ok v else Err Trap.
Definition safe_quot (a b : Z) : result Z := if b =? 0 then Err (Throw "SafeInt") else safe_i64 (Z.quot a b).

(** The division is one of doubles. *)
Definition ComputeOutputShape (in_dim stride kernel dilation pad_head pad_tail : Z) : result Z :=
  let* d := safe_i64 (dilation * (kernel - 1)) in
  let* dkernel := safe_i64 (d + 1) in
  let* v := safe_i64 (in_dim + pad_head) in
  let* v := safe_i64 (v + pad_tail) in
  let* dkernel_value := safe_i64 (v - dkernel) in
  to_int (- 2 ^ 63) (2 ^ 63 - 1) (f64_add (f64_div (f64_of_Z dkernel_value) (f64_of_Z stride)) (f64_of_Z 1)).

(** The padding before and after; [pads] is what it was.  No caller asks for symmetric padding. *)
Definition ComputePad (in_dim stride kernel dilation : Z) (pad_type : AutoPadType) (pads : Z * Z) : result (Z * Z) :=
  match pad_type with
  | NOTSET => Ok pads
  | VALID => Ok (0, 0)
  | SAME_UPPER | SAME_LOWER =>
      let* _ := return_if (negb (dilation =? 1)) "Dilation not supported for AutoPadType::SAME_UPPER or AutoPadType::SAME_LOWER." in
      let* n := safe_i64 (in_dim + stride) in
      let* n := safe_i64 (n - 1) in
      let* legacy_target_size := safe_quot n stride in
      let* p := safe_i64 (legacy_target_size - 1) in
      let* p := safe_i64 (p * stride) in
      let* p := safe_i64 (p + kernel) in
      let* pad_needed := safe_i64 (p - in_dim) in
      let* actual_out_size := ComputeOutputShape in_dim stride kernel 1 pad_needed pad_needed in
      let* pad_needed := if actual_out_size <? legacy_target_size then safe_i64 (pad_needed + 1) else Ok pad_needed in
      let* pad_head :=
        match pad_type with
        | SAME_LOWER => let* p := safe_i64 (pad_needed + 1) in Ok (Z.quot p 2)
        | _ => Ok (Z.quot pad_needed 2)
        end in
      let* pad_tail := safe_i64 (pad_needed - pad_head) in
      Ok (pad_head, pad_tail)
  end.

Definition ComputeTotalPad (in_size stride adj kernel dilation out_size : Z) : result Z :=
  let* a := plain_i64 ((in_size - 1) * stride) in
  let* a := plain_i64 (a + adj) in
  let* b := plain_i64 ((kernel - 1) * dilation) in
  let* a := plain_i64 (a + b) in
  let* a := plain_i64 (a + 1) in
  let* a := plain_i64 (a - out_size) in
  Ok (Z.max 0 a).

Definition DistributePadding (pad_type : AutoPadType) (total_pad : Z) : Z * Z :=
  match pad_type with
  | SAME_UPPER => (Z.quot total_pad 2, total_pad - Z.quot total_pad 2)
  | _ => (total_pad - Z.quot total_pad 2, Z.quot total_pad 2)
  end.

Definition narrow_u32 : Z → result Z := narrow 0 (2 ^ 32 - 1).

Section Windows.
Context `{SafeInt} `{QnnInterface}.
Context (env : environment) (graph : OrtGraph) (qnn : QnnHeaders).

Local Abbreviation tensor_info io := (GetTensorInfo env graph io).
Local Abbreviation input u i := (aget (Inputs u) i).
Local Abbreviation output u i := (aget (Outputs u) i).
Local Abbreviation scalar u v n ps := (AddQnnScalar (u_index u) (u_name u) v n ps).
Local Abbreviation npu := (IsNpuBackend (backend_type env)).
Local Abbreviation ints u a := (attr_ints (u_attributes u) a).

Definition supported_auto_pads : list string := ["NOTSET"; "SAME_LOWER"; "SAME_UPPER"; "VALID"].

(** ** Pools *)

Record QnnPoolConfig := PoolConfig {
  op : string;
  param_filter_size : string;
  param_stride : string;
  param_pad_amount : string;
  param_rounding_mode : string;
  param_count_pad_for_edges : option string
}.

Definition GetQnnPoolConfig (is_max_pool : bool) (rank : nat) : result QnnPoolConfig :=
  let* _ := return_if_not ((rank =? 4)%nat || (rank =? 5)%nat) "GetQnnPoolConfig expects rank 4 or 5." in
  let config o edges :=
    PoolConfig (macro qnn o) (macro qnn (o +:+ "_PARAM_FILTER_SIZE")) (macro qnn (o +:+ "_PARAM_STRIDE"))
      (macro qnn (o +:+ "_PARAM_PAD_AMOUNT")) (macro qnn (o +:+ "_PARAM_ROUNDING_MODE"))
      (if edges : bool then Some (macro qnn (o +:+ "_PARAM_COUNT_PAD_FOR_EDGES")) else None) in
  Ok (if (rank =? 4)%nat && is_max_pool then config "QNN_OP_POOL_MAX_2D" false
      else if (rank =? 4)%nat then config "QNN_OP_POOL_AVG_2D" true
      else if is_max_pool then config "QNN_OP_POOL_MAX_3D" false
      else config "QNN_OP_POOL_AVG_3D" true).

(** The checks before the layout transformation. *)
Definition Pool_checks (u : UnitView) : result unit :=
  let* i := input u 0 in
  let* _ := DataTypeCheckForCpuBackend env (type i) in
  let* input_shape := shape_or i "Cannot get shape" in
  let rank := length input_shape in
  let* _ := return_if_not (bool_decide (rank ∈ [3; 4; 5]%nat)) "QNN Pool only supports rank 3, 4, or 5!" in
  let* _ := return_if (1 <? length (Outputs u))%nat "QNN Pool only supports 1 output!" in
  let* dilations := Get_uint32s (ints u "dilations") (replicate (rank - 2) 1) in
  let* _ := return_if_not (bool_decide (dilations = replicate (rank - 2) 1)) "QNN Pool only supports dilations 1!" in
  let* _ := return_if ((rank =? 5)%nat && npu && bool_decide (u_op_type u ∈ ["MaxPool"; "GlobalMaxPool"]))
    "QNN NPU does not support PoolMax3d!" in
  if bool_decide (u_op_type u ∈ ["MaxPool"; "AveragePool"]) then
    let auto_pad := Get_string u "auto_pad" "NOTSET" in
    return_if (negb (bool_decide (auto_pad ∈ supported_auto_pads))) ("QNN Pool operators do not support 'auto_pad' value: " +:+ auto_pad)
  else Ok tt.

Definition Pool_OverrideOutputQuantParam (u : UnitView) (input_names : list string) (_ : nat) (qnn_data_type : Qnn_DataType_t)
  (quant_param : QnnQuantParamsWrapper) : M QnnQuantParamsWrapper :=
  if bool_decide (u_op_type u = "MaxPool") && IsPerTensor quant_param false then
    SetOutputQParamEqualToInputIfNearlyEqual input_names 0 qnn_data_type quant_param
  else ret quant_param.

Definition pool_virtuals : Virtuals := {|
  GetSupportedOutputDataType _ t := t;
  OverrideOutputQuantParam := Pool_OverrideOutputQuantParam;
  CheckCpuDataTypes _ _ := Ok tt; CheckHtpDataTypes _ _ := Ok tt; CheckGpuDataTypes _ _ := Ok tt
|}.

(** A tensor parameter whose name joins [ps], or an error. *)
Definition require_u32_param (u : UnitView) (param : string) (shape data : list Z) (msg : string) (ps : list string) : M (list string) :=
  let! p := lift (make_u32_param (tensor_init env) (u_index u) (u_name u) param shape data false) in
  let! _ := require (fun m => AddParamWrapper m p) msg in
  ret (ps ++ [pw_tensor_name_ p]).

Local Abbreviation size_of l := (u32 (Z.of_nat (length l))).

Definition AddQnnPoolParamWrappers (u : UnitView) (config : QnnPoolConfig) (p : Pool.PoolParams) (count_pad_for_edges : bool)
  : M (list string) :=
  let! ps := require_u32_param u (param_filter_size config) [size_of (Pool.filter_size p)] (Pool.filter_size p)
    "Failed to add param filter_size." [] in
  let! ps := require_u32_param u (param_stride config) [size_of (Pool.stride p)] (Pool.stride p) "Failed to add param stride." ps in
  let! pads := lift (Pad.ReArrangePads (Pool.pad_amount p)) in
  let! ps := require_u32_param u (param_pad_amount config) [u32 (Z.of_nat (length pads / 2)); 2] pads "Failed to add param pad_amount." ps in
  let! ps :=
    if negb (Pool.rounding_mode p =? 0)
    then scalar u (SCALAR_UINT_32 (u32 (Pool.rounding_mode p))) (param_rounding_mode config) ps else ret ps in
  match param_count_pad_for_edges config with
  | Some param => scalar u (SCALAR_BOOL_8 count_pad_for_edges) param ps
  | None => ret ps
  end.

(** [reshaped]: the shape of the output of the node when a Reshape takes it to rank 3. *)
Definition AddQnnPoolNode (u : UnitView) (input_names ps : list string) (config : QnnPoolConfig) (input_info : TensorInfo)
  (reshaped : option (list Z)) (v : bool) : M unit :=
  match reshaped with
  | None => ProcessOutputs env graph pool_virtuals u input_names ps v (op config)
  | Some shape_4d =>
      let! o := lift (output u 0) in
      let! intermediate_output_name := fresh (name o) "_reshape_after" in
      let! info := lift (tensor_info o) in
      let! q := lift (Copy (info_quant_param info)) in
      let! _ := add_tensor env intermediate_output_name TENSOR_TYPE_NATIVE (info_data_type input_info) q shape_4d []
        "Failed to add tensor for pool_out." in
      let! node := fresh_unit u (op config) in
      let! n0 := lift (aget input_names 0) in
      let! _ := create_node env node (op config) [n0] [intermediate_output_name] ps v "Failed to create pool node for rank-3 input." in
      let! q := lift (Copy (info_quant_param info)) in
      let! _ := add_tensor env (name o) (output_tensor_type env (name o)) (info_data_type info) q (info_shape info) []
        "Failed to add reshape after tensor." in
      let! node := fresh_unit u (macro qnn "QNN_OP_RESHAPE") in
      create_node env node (macro qnn "QNN_OP_RESHAPE") [intermediate_output_name] [name o] [] v
        "Failed to create reshape after node for pool op."
  end.

(** [shape] with a height of 1. *)
Definition with_height (shape : list Z) : result (list Z) :=
  let* n := aget shape 0 in
  let* w := aget shape 1 in
  let* c := aget shape 2 in
  Ok [n; 1; w; c].

Definition opt_uint32s (attr : option (list Z)) : result (option (list Z)) :=
  match attr with None => Ok None | Some vs => rmap Some (mapM_res narrow_u32 vs) end.

Definition pool_attributes (u : UnitView) : result Pool.PoolAttributes :=
  let* k := opt_uint32s (ints u "kernel_shape") in
  let* s := opt_uint32s (ints u "strides") in
  let* d := opt_uint32s (ints u "dilations") in
  let* p := opt_uint32s (ints u "pads") in
  let* c := match attr_int (u_attributes u) "ceil_mode" with None => Ok None | Some c => rmap Some (narrow (- 2 ^ 31) (2 ^ 31 - 1) c) end in
  Ok {| Pool.kernel_shape := k; Pool.strides := s; Pool.dilations := d; Pool.pads := p;
        Pool.auto_pad := Get_string u "auto_pad" "NOTSET"; Pool.ceil_mode := c |}.

(** A pool over the whole input, or the attributes. *)
Definition pool_params (u : UnitView) (qnn_input_shape qnn_output_shape : list Z) : result Pool.PoolParams :=
  let rank := length qnn_input_shape in
  if bool_decide (u_op_type u ∈ ["GlobalMaxPool"; "GlobalAveragePool"]) then
    let window := take (rank - 2) (drop 1 qnn_input_shape) in
    Ok (Pool.Params window window [] (replicate ((rank - 2) * 2) 0) 0)
  else
    let* attrs := pool_attributes u in
    Pool.ResolvePoolAttributes attrs qnn_input_shape qnn_output_shape 0.

Definition Pool_ProcessAttributesAndOutputs (u : UnitView) (input_names : list string) (v : bool) : M unit :=
  let is_avg_pool := bool_decide (u_op_type u ∈ ["AveragePool"; "GlobalAveragePool"]) in
  let is_max_pool := bool_decide (u_op_type u ∈ ["MaxPool"; "GlobalMaxPool"]) in
  let! i := lift (input u 0) in
  let! onnx_input_shape := lift (shape_or i "Cannot get shape") in
  let! info := lift (tensor_info i) in
  let requires_rank3_reshape := (length onnx_input_shape =? 3)%nat in
  let! o := lift (output u 0) in
  let! onnx_output_shape := lift (shape_or o "Cannot get shape") in
  let! (qnn_input_shape, qnn_output_shape) := lift (
    if requires_rank3_reshape then
      let* a := with_height onnx_input_shape in let* b := with_height onnx_output_shape in Ok (a, b)
    else Ok (onnx_input_shape, onnx_output_shape)) in
  let! input_names :=
    if requires_rank3_reshape then
      let! n0 := lift (aget input_names 0) in
      let! reshaped_input_name := fresh n0 "_reshape" in
      let! q := lift (Copy (info_quant_param info)) in
      let! _ := add_tensor env reshaped_input_name TENSOR_TYPE_NATIVE (info_data_type info) q qnn_input_shape []
        "Failed to add reshape prior tensor." in
      let! node := fresh_unit u (macro qnn "QNN_OP_RESHAPE") in
      let! _ := create_node env node (macro qnn "QNN_OP_RESHAPE") [n0] [reshaped_input_name] [] v
        "Failed to create reshape prior node for pool op." in
      ret (<[0%nat := reshaped_input_name]> input_names)
    else ret input_names in
  let! config := lift (GetQnnPoolConfig is_max_pool (length qnn_input_shape)) in
  let! p := lift (pool_params u qnn_input_shape qnn_output_shape) in
  let count_pad_for_edges := is_avg_pool && negb (Get_int64 u "count_include_pad" 0 =? 0) in
  let! ps := AddQnnPoolParamWrappers u config p count_pad_for_edges in
  AddQnnPoolNode u input_names ps config info (if requires_rank3_reshape then Some qnn_output_shape else None) v.

Definition PoolOpBuilder : OpBuilder := Builder pool_virtuals (base_ProcessInputs env graph) Pool_ProcessAttributesAndOutputs.

(** Layouts are validated by QNN once they are channels-last. *)
Definition Pool_IsOpSupported (u : UnitView) : M unit :=
  let! _ := lift (Pool_checks u) in
  if bool_decide (u_domain u = kMSInternalNHWCDomain) then AddToModelBuilder env PoolOpBuilder u true else ret tt.

(** ** Convolutions *)

Inductive OnnxConvType := kConv | kConvTranspose.

Definition GetOnnxConvType (onnx_op_type : string) : result OnnxConvType :=
  if bool_decide (onnx_op_type = "Conv") then Ok kConv
  else if bool_decide (onnx_op_type = "ConvTranspose") then Ok kConvTranspose
  else Err (EpFail ("QNN EP: Unsupported ONNX convolution op type: " +:+ onnx_op_type)).

Definition conv_auto_pad (u : UnitView) : result string :=
  let auto_pad := Get_string u "auto_pad" "NOTSET" in
  let* _ := return_if (negb (bool_decide (auto_pad ∈ supported_auto_pads)))
    ("QNN Conv operators do not support 'auto_pad' value: " +:+ auto_pad) in
  Ok auto_pad.

(** The shape of the scales and the input channels of a weight with blocks of input channels. *)
Definition bq_conv_weight (weight : OrtNodeUnitIODef) : result (option (list Z * Z)) :=
  match quant_param weight with
  | None => Ok None
  | Some qp =>
      match scale qp with
      | None => Ok None
      | Some s =>
          let scale_shape := GetInitializerShape (Some s) in
          let* weight_shape := GetOnnxShape (shape weight) in
          match weight_shape, scale_shape with
          | Some [_; ic; _; _], [_; nb; _; _] => Ok (if nb <? ic then Some (scale_shape, ic) else None)
          | _, _ => Ok None
          end
      end
  end.

Local Abbreviation declared_type io := (GetQnnDataType (bool_decide (is_Some (quant_param io))) (type io) CPU).

(** The widths that HTP can compute with, and the axis of the channels. *)
Definition conv_precision_checks (htp_arch : Z) (u : UnitView) (conv_type : OnnxConvType) (input_0 input_1 : OrtNodeUnitIODef) : result unit :=
  let* o := output u 0 in
  let* declared_output_dtype := declared_type o in
  let* act_dtype := declared_type input_0 in
  let* weight_dtype := declared_type input_1 in
  let weight_bitwidth := DataTypes.FixedPointBitWidth weight_dtype in
  let compute_bitwidth := Z.max (DataTypes.FixedPointBitWidth act_dtype) (DataTypes.FixedPointBitWidth declared_output_dtype) in
  let* _ := return_if_not ((compute_bitwidth =? 0) || (weight_bitwidth <=? compute_bitwidth))
    "Conv's weight bitwidth exceeds its compute bitwidth" in
  let* _ := return_if_not (negb (htp_arch =? macro_value qnn "QNN_HTP_DEVICE_ARCH_V68")
      || negb (DataTypes.FixedPointBitWidth act_dtype =? 16) || negb (weight_bitwidth =? 16))
    "QNN EP: Conv a16w16 is not supported on V68 HTP (only a16w8)." in
  let* (is_per_axis_quant, quant_axis) := IsPerChannelQuantized input_1 in
  if is_per_axis_quant : bool then
    match conv_type with
    | kConvTranspose => return_if_not (quant_axis =? 1) "ConvTranspose's input[1] must be use axis == 1 for per-channel quantization"
    | kConv => return_if_not (quant_axis =? 0) "Conv's input[1] must be use axis == 0 for per-channel quantization"
    end
  else Ok tt.

(** The checks before the layout transformation. *)
Definition Conv_checks (htp_arch : Z) (u : UnitView) : result unit :=
  let* _ := return_if (length (Inputs u) <? 2)%nat "QNN Conv must have at least 2 inputs." in
  let* input_0 := input u 0 in
  let* input_shape := shape_or input_0 "Cannot get shape" in
  let* _ := return_if_not (bool_decide (length input_shape ∈ [5; 4; 3]%nat))
    "QNN Conv only supports 3D(rank 5), 2D (rank 4) or 1D (rank 3) inputs." in
  let* _ := return_if (IsCpuBackend (backend_type env) && negb (bool_decide (type input_0 = ONNX_FLOAT)))
    "QNN EP: Data type is not supported for Conv operator in CPU backend." in
  let* _ := conv_auto_pad u in
  let* conv_type := GetOnnxConvType (u_op_type u) in
  let* _ :=
    match conv_type with
    | kConvTranspose =>
        let* dilations := Get_int32s (ints u "dilations") [1; 1] in
        return_if_not (forallb (Z.eqb 1) dilations) "QNN EP: QNN's TransposeConv2d operator only supports default dilation values of 1."
    | kConv => Ok tt
    end in
  if negb npu then Ok tt
  else
  let* input_1 := input u 1 in
  let* bq := bq_conv_weight input_1 in
  match bq with
  | Some (scale_shape, ic) =>
      let* num_blocks_per_oc := aget scale_shape 1 in
      let* block_size := ResolveBlockSize input_1 ic num_blocks_per_oc in
      ValidateBQBitwidthAndBlockSize (GetBQBitwidth (type input_1)) block_size
  | None => conv_precision_checks htp_arch u conv_type input_0 input_1
  end.

(** The weight with its spatial dimensions first: the data, the shape, the parameters. *)
Definition conv_perm (t : OnnxConvType) (is_3d : bool) : list nat :=
  match t with
  | kConv => if is_3d then nchw2hwcn_perm_3d else nchw2hwcn_perm
  | kConvTranspose => if is_3d then cnhw2hwcn_perm_3d else cnhw2hwcn_perm
  end.
Definition ToHwcn (t : OnnxConvType) := match t with kConv => TransposeFromNchwToHwcn | kConvTranspose => TransposeFromCnhwToHwcn end.
Definition ShapeToHwcn (t : OnnxConvType) (shape : list Z) : result (list Z) :=
  match t with
  | kConv => NchwShapeToHwcn shape (replicate (length shape) 0)
  | kConvTranspose => CnhwShapeToHwcn shape (replicate (length shape) 0)
  end.
Definition AddToHwcnTranspose (t : OnnxConvType) :=
  match t with kConv => AddNchwToHwcnTranspose env qnn | kConvTranspose => AddCnhwToHwcnTranspose env qnn end.

(** The overloads of [TransposeFromNchwToHwcn] and [TransposeFromCnhwToHwcn] for initializers. *)
Definition ToHwcn_init (t : OnnxConvType) (initializer : option ValueInfo) (is_3d : bool) : result (list Z) :=
  let* onnx_type := elem_type_of graph initializer in
  let* elem_byte_size := GetElementSizeByType_onnx onnx_type in
  let input_shape := GetInitializerShape initializer in
  let* input_buffer := UnpackInitializerData graph initializer true in
  ToHwcn t input_shape (Z.to_nat elem_byte_size) input_buffer (replicate (length input_buffer) 0) is_3d.

Definition transpose_quant (t : OnnxConvType) (is_3d : bool) (q : QnnQuantParamsWrapper) : result QnnQuantParamsWrapper :=
  let perm := conv_perm t is_3d in
  let* perm_inv := InvertPerm perm (replicate (length perm) 0%nat) in
  HandleTranspose q (Z.of_nat <$> perm_inv).

(** *** Bias *)

Local Abbreviation base_name u := (NodeUnitBaseName (u_name u) (u_op_type u) (N.of_nat (u_index u))).

Definition ProcessBqFp16Bias (u : UnitView) (bias_def : OrtNodeUnitIODef) (input_names : list string) : M (list string) :=
  let! bias_info := lift (tensor_info bias_def) in
  let! _ := lift (return_if_not (info_is_initializer bias_info) "QNN EP: BQ Conv bias must be a constant initializer") in
  let! raw_bias_bytes := lift (UnpackInitializerData graph (info_initializer bias_info) true) in
  let! bias_scale_vals := lift (
    match quant_param bias_def with
    | Some qp => match scale qp with Some s => UnpackScales graph (Some s) | None => Ok [] end
    | None => Ok []
    end) in
  let! num_elems := lift (aget (info_shape bias_info) 0) in
  let! _ := lift (return_if_not (Z.of_nat (length raw_bias_bytes) =? num_elems * 4) "BQ bias size mismatch") in
  let! _ := lift (return_if_not ((length bias_scale_vals <=? 1)%nat || (Z.of_nat (length bias_scale_vals) =? num_elems))
    "QNN EP: BQ Conv bias scale count must be 1 (per-tensor) or OC (per-channel)") in
  let! fp16_bias_bytes := lift (DequantizeInt32BiasToFp16 qnn raw_bias_bytes bias_scale_vals) in
  AddStaticBiasTensor env (base_name u +:+ "_bias_fp16") (info_shape bias_info) QNN_FLOAT_16 default_wrapper fp16_bias_bytes input_names.

Definition ProcessConvBias (u : UnitView) (is_bq_weight use_lpbq_path : bool) (input_names : list string) : M (list string) :=
  let! d2 := lift (input u 2) in
  if is_bq_weight && negb use_lpbq_path then ProcessBqFp16Bias u d2 input_names
  else
  let! n0 := lift (aget input_names 0) in
  let! activation_wrapper := tensor_of n0 in
  let! d1 := lift (input u 1) in
  let! input1_info := lift (tensor_info d1) in
  let! handled := ProcessBiasForQuantizedOp env graph u d2 (quant_params_ activation_wrapper) (info_quant_param input1_info) input_names in
  match handled with
  | Some names => ret names
  | None => ProcessInput env graph d2 input_names
  end.

(** The zero bias that some versions of QNN ask for. *)
Definition implicit_bias_broken : bool :=
  (macro_value qnn "QNN_API_VERSION_MAJOR" =? 2) && (16 <=? macro_value qnn "QNN_API_VERSION_MINOR")
  && (macro_value qnn "QNN_API_VERSION_MINOR" <=? 18).

Definition implicit_bias (u : UnitView) (input_names : list string) : M (list string) :=
  if implicit_bias_broken && npu then
    let! n0 := lift (aget input_names 0) in
    let! w := tensor_of n0 in
    let! d1 := lift (input u 1) in
    let! input1_info := lift (tensor_info d1) in
    if IsPerTensor (quant_params_ w) true && IsQuantized (info_quant_param input1_info) then
      let! bias_name := fresh_unit u "_implicit_bias" in
      let! oc := lift (aget (info_shape input1_info) 0) in
      AddZeroBiasInput env (quant_params_ w) (info_quant_param input1_info) [oc] bias_name input_names
    else ret input_names
  else ret input_names.

(** *** Weights *)

(** The encoding of a weight with blocks, native when HTP and the parameters allow it; without it
    the activation is dequantized. *)
Definition bq_conv_encoding (htp_arch : Z) (u : UnitView) (weight : OrtNodeUnitIODef) (info : TensorInfo) (nb : Z)
  (act_dtype : Qnn_DataType_t) (block_size bitwidth : Z) : result (bool * QnnQuantParamsWrapper) :=
  let* OC := aget (info_shape info) 0 in
  let is_unsigned_weight := IsUnsignedBQType (type weight) in
  match quant_param weight with
  | None => Err Trap
  | Some qp =>
      let* scales_qnn := UnpackScales graph (scale qp) in
      let* _ := return_if_not (Z.of_nat (length scales_qnn) =? OC * nb) "QNN EP: BQ Conv scale size mismatch" in
      let* offsets_qnn := ComputeBQOffsets graph (zero_point qp) is_unsigned_weight bitwidth (OC * nb) in
      let block_size_arr := [1; 1; u32 block_size; 1] in
      let native := (length (Inputs u) <? 3)%nat
        && IsHTPSupportedNativeBQ (negb (macro_value qnn "QNN_HTP_NATIVE_BQ_AVAILABLE" =? 0)) (macro_value qnn "QNN_HTP_DEVICE_ARCH_V81")
             htp_arch act_dtype bitwidth (u32 block_size) (u32 OC) offsets_qnn in
      let* q := if native then Block scales_qnn (replicate (length offsets_qnn) 0) block_size_arr
                else BwFloatBlock scales_qnn offsets_qnn bitwidth block_size_arr in
      Ok (native, q)
  end.

Definition bq_conv_inputs (htp_arch : Z) (u : UnitView) (t : OnnxConvType) (weight : OrtNodeUnitIODef) (info : TensorInfo)
  (bq_scale_shape : list Z) (act_name : string) (act_dtype : Qnn_DataType_t) (input_names : list string) (v : bool) : M (list string) :=
  let! _ := lift (return_if_not (info_is_initializer info) "QNN EP: BQ Conv weight must be a constant initializer") in
  let! unpacked_tensor := lift (ToHwcn_init t (info_initializer info) (length (info_shape info) =? 5)%nat) in
  let! hwcn_shape := lift (ShapeToHwcn t (info_shape info)) in
  let! IC := lift (aget (info_shape info) 1) in
  let! nb := lift (aget bq_scale_shape 1) in
  let! block_size := lift (ResolveBlockSize weight IC nb) in
  let bitwidth := GetBQBitwidth (type weight) in
  let! unpacked_tensor := lift (
    if IsUnsignedBQType (type weight) then TransformUnsignedToSignedFixedPoint unpacked_tensor bitwidth else Ok unpacked_tensor) in
  let! (native, q) := lift (bq_conv_encoding htp_arch u weight info nb act_dtype block_size bitwidth) in
  let! input_names :=
    if negb native && IsQuant16bit act_dtype then
      let! fp16_act_name := lift (aget (u_node_inputs u) 0) in
      let! _ := AddInt16ToFp16DequantForActivation env qnn act_name fp16_act_name "Conv" v in
      ret (<[0%nat := fp16_act_name]> input_names)
    else ret input_names in
  let! _ := add_tensor env (name weight) (TensorTypeOf env (name weight)) QNN_SFIXED_POINT_8 q hwcn_shape unpacked_tensor
    "Failed to add BQ Conv weight tensor." in
  ret (input_names ++ [name weight]).

(** The uint16 workaround: a Convert between the weight and the node. *)
Definition conv_weight_convert (n : string) (v : bool) : M string :=
  let! w := tensor_of n in
  let! dt := lift (GetTensorDataType w) in
  if bool_decide (dt = QNN_UFIXED_POINT_16) then
    let! _ := lift (return_if_not (IsPerTensor (quant_params_ w) false)
      "Conv's INT16 weight inputs only support INT16 per-tensor quantization") in
    let! convert_output_name := fresh n "_convert" in
    let! (scale, offset) := lift (scaleOffsetEncoding (params_ (quant_params_ w))) in
    let! _ := InsertConvertOp env qnn n convert_output_name QNN_UFIXED_POINT_16 QNN_SFIXED_POINT_16 offset scale (dimensions_ w) true v
      TENSOR_TYPE_NATIVE in
    ret convert_output_name
  else ret n.

(** The name of the weight: a transposed constant, or the output of a Transpose node. *)
Definition conv_weight (u : UnitView) (t : OnnxConvType) (weight : OrtNodeUnitIODef) (info : TensorInfo) (use_lpbq_path v : bool) : M string :=
  let! actual_name := if info_is_initializer info then ret (name weight) else fresh (name weight) "_transpose" in
  let! actual_shape := lift (ShapeToHwcn t (info_shape info)) in
  let is_3d := (length (info_shape info) =? 5)%nat in
  let! _ := lift (return_if (is_3d && use_lpbq_path) "LPBQ is only supported for Conv2d (rank-4 weights)") in
  let per_axis := IsPerChannel (info_quant_param info) || use_lpbq_path in
  let! (unpacked_tensor, q) :=
    if info_is_initializer info then
      lift (
        let* data := ToHwcn_init t (info_initializer info) is_3d in
        let* q := if per_axis then transpose_quant t is_3d (info_quant_param info) else Ok (info_quant_param info) in
        Ok (data, q))
    else
      let! _ := lift (return_if per_axis "Non-constant Conv inputs only support per-tensor quantization") in
      let! _ := add_if_new env (name weight) (MakeTensorWrapper env graph weight) "Failed to add weight tensor." in
      let! _ := AddToHwcnTranspose t (u_index u) (name weight) actual_name (info_shape info) actual_shape (info_data_type info)
        (info_quant_param info) v (IsGraphInput env (name weight)) false is_3d in
      ret ([], info_quant_param info) in
  let! _ := add_tensor env actual_name (TensorTypeOf env actual_name) (info_data_type info) q actual_shape unpacked_tensor "Failed to add tensor." in
  conv_weight_convert actual_name v.

Definition ProcessConv2D3DInputs (htp_arch : Z) (u : UnitView) (v : bool) : M (list string) :=
  let! t := lift (GetOnnxConvType (u_op_type u)) in
  let! _ := lift (return_if_not (2 <=? length (Inputs u))%nat "Expecting at least two inputs.") in
  let! d0 := lift (input u 0) in
  let! names := ProcessInput env graph d0 [] in
  let! act_name := lift (aget names 0) in
  let! names :=
    if npu then
      let! o := lift (output u 0) in
      let! declared_output_dtype := lift (declared_type o) in
      ConvertActivationToOutputPrecision env qnn names declared_output_dtype v
    else ret names in
  let! n0 := lift (aget names 0) in
  let! act_dtype := data_type_of n0 in
  let! d1 := lift (input u 1) in
  let! bq := if npu then lift (bq_conv_weight d1) else ret None in
  let! info := lift (tensor_info d1) in
  let use_lpbq_path := npu && IsQuant16bit act_dtype && info_is_initializer info && IsLPBQ (info_quant_param info) in
  let! names :=
    match bq, use_lpbq_path with
    | Some (scale_shape, _), false => bq_conv_inputs htp_arch u t d1 info scale_shape act_name act_dtype names v
    | _, _ => let! w := conv_weight u t d1 info use_lpbq_path v in ret (names ++ [w])
    end in
  if (length (Inputs u) =? 3)%nat then ProcessConvBias u (bool_decide (is_Some bq)) use_lpbq_path names
  else implicit_bias u names.

(** *** One-dimensional convolutions *)

Definition conv1d_input_0 (d0 : OrtNodeUnitIODef) (v : bool) : M string :=
  let! info := lift (tensor_info d0) in
  let! n0 := if info_is_initializer info then ret (name d0) else fresh (name d0) "_reshape" in
  let! exists_ := get (fun m => IsQnnTensorWrapperExist m n0) in
  if exists_ : bool then ret n0
  else
  let! unpacked_tensor := lift (if info_is_initializer info then UnpackInitializerData graph (info_initializer info) true else Ok []) in
  let! shape := lift (with_height (info_shape info)) in
  let! q :=
    if negb (info_is_initializer info) then
      let! _ := lift (return_if (IsPerChannel (info_quant_param info)) "Non-constant Conv inputs only support per-tensor quantization") in
      let! _ := AddReshapeNode_same env qnn (name d0) n0 (info_shape info) shape (info_data_type info) (info_quant_param info) v
        (IsGraphInput env (name d0)) false in
      ret (info_quant_param info)
    else if IsPerChannel (info_quant_param info) then lift (HandleUnsqueeze (info_quant_param info) (info_shape info) shape)
    else ret (info_quant_param info) in
  let! _ := add_tensor env n0 (TensorTypeOf env n0) (info_data_type info) q shape unpacked_tensor "Failed to add tensor." in
  ret n0.

(** A constant weight: the transposed data and its parameters. *)
Definition conv1d_constant (t : OnnxConvType) (info : TensorInfo) (shape_2d : list Z) : result (list Z * QnnQuantParamsWrapper) :=
  let per_channel := IsPerChannel (info_quant_param info) in
  let* q := if per_channel then HandleUnsqueeze (info_quant_param info) (info_shape info) shape_2d else Ok (info_quant_param info) in
  let* original_tensor_bytes := UnpackInitializerData graph (info_initializer info) true in
  let* elem_type := elem_type_of graph (info_initializer info) in
  let* elem_byte_size := GetElementSizeByType_onnx elem_type in
  let* _ := return_if (elem_byte_size =? 0) "Can't get element byte size from given ONNX type for initializer" in
  let* data := ToHwcn t shape_2d (Z.to_nat elem_byte_size) original_tensor_bytes (replicate (length original_tensor_bytes) 0) false in
  let* q := if per_channel then transpose_quant t false q else Ok q in
  Ok (data, q).

Definition conv1d_weight (u : UnitView) (t : OnnxConvType) (d1 : OrtNodeUnitIODef) (v : bool) : M string :=
  let! info := lift (tensor_info d1) in
  let! weight_name := if info_is_initializer info then ret (name d1) else fresh (name d1) "_transpose" in
  let! a := lift (aget (info_shape info) 0) in
  let! b := lift (aget (info_shape info) 1) in
  let! w := lift (aget (info_shape info) 2) in
  let shape_2d := [a; b; 1; w] in
  let! final_shape := lift (ShapeToHwcn t shape_2d) in
  let! reshape_output := fresh (name d1) "_reshape" in
  let! (unpacked_tensor, q) :=
    if info_is_initializer info then lift (conv1d_constant t info shape_2d)
    else
      let! _ := lift (return_if (IsPerChannel (info_quant_param info)) "Non-constant Conv inputs only support per-tensor quantization") in
      let! _ := add_if_new env (name d1) (MakeTensorWrapper env graph d1) "Failed to add weight tensor." in
      let! _ := AddReshapeNode_same env qnn (name d1) reshape_output (info_shape info) shape_2d (info_data_type info) (info_quant_param info) v
        (IsGraphInput env (name d1)) false in
      let! _ := AddToHwcnTranspose t (u_index u) reshape_output weight_name shape_2d final_shape (info_data_type info)
        (info_quant_param info) v false false false in
      ret ([], info_quant_param info) in
  let! _ := add_tensor env weight_name (TensorTypeOf env weight_name) (info_data_type info) q final_shape unpacked_tensor "Failed to add tensor." in
  ret weight_name.

Definition ProcessConv1DInputs (u : UnitView) (v : bool) : M (list string) :=
  let! t := lift (GetOnnxConvType (u_op_type u)) in
  let! _ := lift (return_if_not (2 <=? length (Inputs u))%nat "Expecting at least two inputs.") in
  let! d0 := lift (input u 0) in
  let! n0 := conv1d_input_0 d0 v in
  let! d1 := lift (input u 1) in
  let! n1 := conv1d_weight u t d1 v in
  if (length (Inputs u) =? 3)%nat then
    let! d2 := lift (input u 2) in
    ProcessInput env graph d2 [n0; n1]
  else ret [n0; n1].

Definition Conv_ProcessInputs (htp_arch : Z) (u : UnitView) (v : bool) : M (list string) :=
  let! _ := lift (return_if_not (2 <=? length (Inputs u))%nat "Expecting at least two inputs.") in
  let! d0 := lift (input u 0) in
  let! input0_shape := lift (shape_or d0 "QNN EP: Cannot get shape for first input") in
  if (length input0_shape =? 3)%nat then ProcessConv1DInputs u v
  else if (length input0_shape =? 4)%nat || (length input0_shape =? 5)%nat then ProcessConv2D3DInputs htp_arch u v
  else lift (Err (EpFail "QNN Conv only supports 3D(rank 5), 2D (rank 4) or 1D (rank 3) inputs.")).

(** *** Attributes *)

Record ConvParams := ConvParams_ {
  kernel_shape : list Z;
  dilations : list Z;
  strides : list Z;
  output_padding : list Z
}.

(** One-dimensional attributes get a height. *)
Definition conv_params (u : UnitView) (t : OnnxConvType) (is_1d_conv : bool) (input_1_shape : list Z) : result ConvParams :=
  let* k := Get_uint32s (ints u "kernel_shape") [] in
  let* k :=
    match k with
    | [] => if (length input_1_shape <? 2)%nat then Err Trap else Ok (drop 2 input_1_shape)
    | _ => Ok k
    end in
  let k := if is_1d_conv then 1 :: k else k in
  let ones := replicate (length k) 1 in
  let* d := match t with kConv => rmap Pool.widen (Get_uint32s (ints u "dilations") ones) | kConvTranspose => Ok ones end in
  let* s := rmap Pool.widen (Get_uint32s (ints u "strides") ones) in
  let zeros := replicate (length k) 0 in
  let* op :=
    match t with
    | kConvTranspose => rmap (fun p => match p with [x] => [0; x] | _ => p end) (Get_uint32s (ints u "output_padding") zeros)
    | kConv => Ok zeros
    end in
  Ok (ConvParams_ k d s op).

(** The dimensions between the first and the last, with a height. *)
Definition spatial_dims (is_1d_conv : bool) (shape : list Z) : result (list Z) :=
  if (length shape <? 2)%nat then Err Trap
  else let dims := take (length shape - 2) (drop 1 shape) in Ok (if is_1d_conv then 1 :: dims else dims).

(** Writes the padding of dimension [dim]. *)
Definition set_pads (rank dim : nat) (pads : list Z) (p : Z * Z) : result (list Z) :=
  let* h := narrow_u32 (p.1) in
  let* pads := aset pads dim h in
  let* t := narrow_u32 (p.2) in
  aset pads (rank + dim) t.

Definition transpose_pad (p : ConvParams) (pad_type : AutoPadType) (input_dims out_dims : list Z) (dim : nat) : result (Z * Z) :=
  let* i := aget input_dims dim in
  let* s := aget (strides p) dim in
  let* a := aget (output_padding p) dim in
  let* k := aget (kernel_shape p) dim in
  let* d := aget (dilations p) dim in
  let* o := aget out_dims dim in
  let* total_pad := ComputeTotalPad i s a k d o in
  Ok (DistributePadding pad_type total_pad).

Definition same_pad (p : ConvParams) (pad_type : AutoPadType) (input_dims pads : list Z) (dim : nat) : result (Z * Z) :=
  let* head := aget pads dim in
  let* tail := aget pads (length input_dims + dim) in
  let* i := aget input_dims dim in
  let* s := aget (strides p) dim in
  let* k := aget (kernel_shape p) dim in
  let* d := aget (dilations p) dim in
  ComputePad i s k d pad_type (head, tail).

Definition conv_pads (u : UnitView) (t : OnnxConvType) (is_1d_conv : bool) (input_0_shape output_shape : list Z) (p : ConvParams)
  : result (list Z) :=
  let no_pads := replicate (length (kernel_shape p) * 2) 0 in
  let* pads := Get_uint32s (ints u "pads") no_pads in
  let* auto_pad := conv_auto_pad u in
  let output_shape_attribute_value := default [] (ints u "output_shape") in
  match t, output_shape_attribute_value with
  | kConvTranspose, _ :: _ =>
      let* input_dims := spatial_dims is_1d_conv input_0_shape in
      let out_dims := if is_1d_conv then 1 :: output_shape_attribute_value else output_shape_attribute_value in
      let rank := length input_dims in
      let* _ := return_if_not (rank =? length out_dims)%nat
        "QNN EP: ConvTranspose 'output_shape' attribute rank mismatch with input dims for padding calculation." in
      foldM (fun pads dim =>
        let* pad_type := StringToAutoPadType auto_pad in
        let* hp := transpose_pad p pad_type input_dims out_dims dim in
        set_pads rank dim pads hp) (seq 0 rank) no_pads
  | _, _ =>
      if bool_decide (auto_pad = "NOTSET") then Ok (Pool.widen_pads pads)
      else
      let* pad_type := StringToAutoPadType auto_pad in
      let* input_dims := spatial_dims is_1d_conv input_0_shape in
      let* output_dims := spatial_dims is_1d_conv output_shape in
      let rank := length input_dims in
      foldM (fun pads dim =>
        let* hp :=
          match t with
          | kConv => same_pad p pad_type input_dims pads dim
          | kConvTranspose => transpose_pad p pad_type input_dims output_dims dim
          end in
        set_pads rank dim pads hp) (seq 0 rank) pads
  end.

(** A scalar parameter, added without a check. *)
Definition add_scalar_param (u : UnitView) (value : Qnn_Scalar_t) (param : string) (ps : list string) : M (list string) :=
  let p := make_scalar_param (u_index u) (u_name u) param (PARAMTYPE_SCALAR value) in
  let! _ := perform (fun m => AddParamWrapper m p) in
  ret (ps ++ [pw_tensor_name_ p]).

Definition conv_u32_param (u : UnitView) (param : string) (shape data : list Z) (ps : list string) : M (list string) :=
  let! p := add_u32_param env (u_index u) (u_name u) (macro qnn param) shape data in
  ret (ps ++ [p]).

Definition last_dim (shape : list Z) : result Z := match last shape with Some d => Ok d | None => Err Trap end.

(** The parameters of the node, and whether it is a depthwise convolution. *)
Definition add_conv_params (u : UnitView) (t : OnnxConvType) (input_0_shape input_1_shape output_shape : list Z) : M (list string * bool) :=
  let is_1d_conv := (length output_shape =? 3)%nat in
  let is_3d_conv := (length output_shape =? 5)%nat in
  let! p := lift (conv_params u t is_1d_conv input_1_shape) in
  let! ps :=
    match t with
    | kConv => conv_u32_param u "QNN_OP_CONV_2D_PARAM_DILATION" [size_of (dilations p)] (dilations p) []
    | kConvTranspose => ret []
    end in
  let! ps := conv_u32_param u "QNN_OP_CONV_2D_PARAM_STRIDE" [size_of (strides p)] (strides p) ps in
  let! ps :=
    match t with
    | kConvTranspose =>
        conv_u32_param u "QNN_OP_TRANSPOSE_CONV_2D_PARAM_OUTPUT_PADDING" [size_of (output_padding p)] (output_padding p) ps
    | kConv => ret ps
    end in
  let! pads := lift (conv_pads u t is_1d_conv input_0_shape output_shape p) in
  let! pads := lift (Pad.ReArrangePads pads) in
  let! pad_size := lift (narrow_u32 (Z.of_nat (length pads / 2))) in
  let! ps := conv_u32_param u "QNN_OP_CONV_2D_PARAM_PAD_AMOUNT" [pad_size; 2] pads ps in
  let! group := lift (Get_uint32 (attr_int (u_attributes u) "group") 1) in
  let! num_output_channels := lift (last_dim output_shape) in
  let! num_input_channels := lift (last_dim input_0_shape) in
  let is_depthwise_conv2d := negb is_3d_conv && (match t with kConv => true | kConvTranspose => false end)
    && (num_input_channels =? num_output_channels) && (group =? num_output_channels) in
  let! ps :=
    if negb is_depthwise_conv2d then scalar u (SCALAR_UINT_32 group) (macro qnn "QNN_OP_CONV_2D_PARAM_GROUP") ps else ret ps in
  let! ps :=
    match t, is_depthwise_conv2d with
    | kConv, false =>
        add_scalar_param u (SCALAR_BOOL_8 false)
          (macro qnn (if is_3d_conv then "QNN_OP_CONV_3D_PARAM_REUSE_SPARSE_INDICIES" else "QNN_OP_CONV_2D_PARAM_REUSE_SPARSE_INDICES")) ps
    | _, _ => ret ps
    end in
  ret (ps, is_depthwise_conv2d).

Definition conv_node_type (u : UnitView) (t : OnnxConvType) (is_3d_conv is_depthwise_conv2d : bool) : result string :=
  if is_3d_conv then Ok (macro qnn (match t with kConv => "QNN_OP_CONV_3D" | kConvTranspose => "QNN_OP_TRANSPOSE_CONV_3D" end))
  else if is_depthwise_conv2d then Ok (macro qnn "QNN_OP_DEPTH_WISE_CONV_2D")
  else GetQnnOpType qnn (u_op_type u).

(** Whether the weight has an encoding that makes the node compute in FP16. *)
Definition weight_is_bw_float_block (n : string) : M bool :=
  let! w := get (fun m => model_tensors_map_ m !! n) in
  ret (match w with
       | Some w => defined (quant_params_ w) && match quantizationEncoding (params_ (quant_params_ w)) with BW_FLOAT_BLOCK _ _ _ => true | _ => false end
       | None => false
       end).

(** The node with what follows it: a Reshape to rank 3, or a Quantize of the FP16 output. *)
Definition conv_outputs (u : UnitView) (input_names ps : list string) (output_node_type : string) (o : OrtNodeUnitIODef)
  (output_shape : list Z) (q : QnnQuantParamsWrapper) (qnn_data_type activation : Qnn_DataType_t) (bw_float_block v : bool) : M unit :=
  if (length output_shape =? 3)%nat then
    let! output_shape_2d := lift (with_height output_shape) in
    let! conv_output_name := fresh (name o) "_conv" in
    let! node := fresh_unit u "" in
    let! qc := lift (Copy q) in
    let! _ := AddOpWithQuantizedOutput env qnn node output_node_type input_names ps conv_output_name TENSOR_TYPE_NATIVE qnn_data_type qc
      output_shape_2d activation v in
    AddReshapeNode_same env qnn conv_output_name (name o) output_shape_2d output_shape qnn_data_type q v false (IsGraphOutput env (name o))
  else if bw_float_block && bool_decide (is_Some (quant_param o)) then
    let! conv_fp16_out := lift (aget (u_node_outputs u) 0) in
    let! _ := add_tensor env conv_fp16_out TENSOR_TYPE_NATIVE QNN_FLOAT_16 default_wrapper output_shape []
      "Failed to add FP16 Conv BQ output tensor." in
    let! node := fresh_unit u "" in
    let! _ := create_node env node output_node_type input_names [conv_fp16_out] ps v "Failed to add BQ Conv node." in
    AddFp16ToInt16QuantizeOutput env qnn conv_fp16_out (name o) (output_tensor_type env (name o)) qnn_data_type q output_shape v
  else
    let! node := fresh_unit u "" in
    AddOpWithQuantizedOutput env qnn node output_node_type input_names ps (name o) (output_tensor_type env (name o)) qnn_data_type q
      output_shape activation v.

Definition Conv_ProcessAttributesAndOutputs (u : UnitView) (input_names : list string) (v : bool) : M unit :=
  let! o := lift (output u 0) in
  let! output_shape := lift (shape_or o "Cannot get shape") in
  let is_3d_conv := (length output_shape =? 5)%nat in
  let! t := lift (GetOnnxConvType (u_op_type u)) in
  let! d0 := lift (input u 0) in
  let! d1 := lift (input u 1) in
  let! input_0_shape := lift (shape_or d0 "Cannot get shape") in
  let! input_1_shape := lift (shape_or d1 "Cannot get shape") in
  let! (ps, is_depthwise_conv2d) := add_conv_params u t input_0_shape input_1_shape output_shape in
  let! output_node_type := lift (conv_node_type u t is_3d_conv is_depthwise_conv2d) in
  let! q := lift (Init_io env graph default_wrapper o) in
  let! qnn_data_type := lift (declared_type o) in
  let! n0 := lift (aget input_names 0) in
  let! activation := data_type_of n0 in
  let! n1 := lift (aget input_names 1) in
  let! bw_float_block := weight_is_bw_float_block n1 in
  conv_outputs u input_names ps output_node_type o output_shape q qnn_data_type activation bw_float_block v.

Definition ConvOpBuilder (htp_arch : Z) : OpBuilder := Builder base_virtuals (Conv_ProcessInputs htp_arch) Conv_ProcessAttributesAndOutputs.

Definition Conv_IsOpSupported (htp_arch : Z) (u : UnitView) : M unit :=
  if bool_decide (u_domain u = kMSInternalNHWCDomain) then AddToModelBuilder env (ConvOpBuilder htp_arch) u true
  else lift (Conv_checks htp_arch u).

End Windows.

(** ** The builders keep the laws *)

Section WindowLaws.
Context `{SafeInt} `{QnnInterface}.
Context (env : environment) (graph : OrtGraph) (qnn : QnnHeaders).

#[export] Instance pool_virtual_laws : virtual_laws pool_virtuals.
Proof.
  split. intros u names i dt q m Hn. cbn [OverrideOutputQuantParam pool_virtuals]. unfold Pool_OverrideOutputQuantParam, SetOutputQParamEqualToInputIfNearlyEqual. op_auto.
Qed.

Lemma wp_require_u32 u p s d msg ps Q m : Forall (has_param m) ps →
  (∀ m' ps', grows m m' → Forall (has_param m') ps' → Q ps' m') → wp (require_u32_param env u p s d msg ps) Q m.
Proof. intros Hp HQ. eapply (wp_use (fun r m' => Forall (has_param m') r)); [|auto]. unfold require_u32_param. op_auto. Qed.

Lemma wp_scalar_param u x p ps Q m : Forall (has_param m) ps →
  (∀ m' ps', grows m m' → Forall (has_param m') ps' → Q ps' m') → wp (add_scalar_param u x p ps) Q m.
Proof.
  intros Hps HQ. unfold add_scalar_param. apply wp_bind, wp_perform. intros ok m' Ep.
  destruct (add_param_step _ _ _ _ Ep) as (Hg & Ho & _ & _ & _ & Hh & Hne).
  split_and!; [done|by apply closed_same_ops|]. intros _. apply wp_ret, HQ; [done|].
  apply Forall_app. split; [by eapply all_has_param_grows|]. constructor; [|constructor]. apply Hh, Hne, param_name_ne.
Qed.

Lemma wp_pool_params u c p e Q m : (∀ m' ps, grows m m' → Forall (has_param m') ps → Q ps m') →
  wp (AddQnnPoolParamWrappers env u c p e) Q m.
Proof.
  intros HQ. eapply (wp_use (fun r m' => Forall (has_param m') r)); [|auto]. unfold AddQnnPoolParamWrappers.
  repeat first [apply wp_require_u32; [side|let Hg := fresh "Hg" in intros ? ? Hg ?; advance Hg] | op_step]; done.
Qed.

#[export] Instance pool_laws : builder_laws (PoolOpBuilder env graph qnn) one_output.
Proof.
  split.
  - intros u v m. apply wp_base_ProcessInputs.
  - intros u v names m Hn. cbn [ProcessAttributesAndOutputs PoolOpBuilder]. unfold Pool_ProcessAttributesAndOutputs, AddQnnPoolNode.
    repeat first [apply wp_pool_params; let Hg := fresh "Hg" in intros ? ? Hg ?; advance Hg | op_step]; try solve [written_outputs].
    match goal with E : aget (<[_ := _]> _) _ = Ok _ |- _ => apply aget_Ok in E; constructor; [|constructor]; eapply Forall_lookup_1; [|exact E] end.
    by apply insert_has.
Qed.

Lemma wp_fresh_unit_named u suffix Q m : suffix ≠ "" → (∀ n m', grows m m' → n ≠ "" → Q n m') → wp (fresh_unit u suffix) Q m.
Proof.
  intros Hs HQ Hc. unfold fresh_unit, New_unit. destruct (New_form (name_counters m)
    (NodeUnitBaseName (u_name u) (u_op_type u) (N.of_nat (u_index u))) suffix) as (t & c & ->).
  split_and!; [done|apply grows_counters|]. apply HQ; [apply grows_counters|].
  intros E. apply (f_equal String.length) in E. rewrite !string_app_length in E. cbn in E. destruct suffix; [done|cbn in E; lia].
Qed.

Lemma wp_implicit_bias u names Q m : named names m → (∀ m' r, grows m m' → named r m' → Q r m') → wp (implicit_bias env graph qnn u names) Q m.
Proof.
  intros [Hn Hne] HQ. eapply (wp_use named); [|auto]. unfold implicit_bias.
  repeat first [apply wp_fresh_unit_named; [done|let Hg := fresh "Hg" in intros ? ? Hg ?; advance Hg] | mm_step]; try by split.
  apply wp_AddZeroBiasInput; [done|side|]. intros ? ? ?. split; [done|]. by intros [_ ?]%app_nil.
Qed.

Lemma wp_bq_bias u d names Q m : Forall (has m) names → (∀ m' r, grows m m' → named r m' → Q r m') →
  wp (ProcessBqFp16Bias env graph qnn u d names) Q m.
Proof.
  intros Hn HQ. eapply (wp_use named); [|auto]. unfold ProcessBqFp16Bias.
  repeat first [apply wp_static_bias; [side|intros ? ? ? ?; done] | op_step].
Qed.

Lemma wp_conv_bias u bq lp names Q m : Forall (has m) names → (∀ m' r, grows m m' → named r m' → Q r m') →
  wp (ProcessConvBias env graph qnn u bq lp names) Q m.
Proof.
  intros Hn HQ. eapply (wp_use named); [|auto]. unfold ProcessConvBias.
  repeat first [apply wp_bq_bias; [side|intros ? ? ? ?; done] | apply wp_ProcessBias; [side|let Hg := fresh "Hg" in intros ? ? Hg ?; advance Hg]
    | apply wp_ProcessInput; [side|intros ? ? ?; split; [done|by intros [_ ?]%app_nil]] | mm_step].
  match goal with Hr : named_if _ _ |- _ => by apply Hr end.
Qed.

Lemma wp_weight_convert n v Q m : has m n → (∀ m' r, grows m m' → has m' r → Q r m') → wp (conv_weight_convert env qnn n v) Q m.
Proof. intros Hn HQ. eapply (wp_use (fun r m' => has m' r)); [|auto]. unfold conv_weight_convert. repeat mm_step; done. Qed.

Lemma wp_to_hwcn t i a b s s' dt q v bi bo d Q m :
  (∀ m', grows m m' → has m' a → has m' b → Q tt m') → wp (AddToHwcnTranspose env qnn t i a b s s' dt q v bi bo d) Q m.
Proof. intros HQ. destruct t; apply wp_AddTransposeNode; auto. Qed.

Lemma wp_conv_weight u t w info lp v Q m : (∀ m' r, grows m m' → has m' r → Q r m') → wp (conv_weight env graph qnn u t w info lp v) Q m.
Proof.
  intros HQ. eapply (wp_use (fun r m' => has m' r)); [|auto]. unfold conv_weight.
  repeat first [apply wp_to_hwcn; let Hg := fresh "Hg" in intros ? Hg ? ?; advance Hg
    | apply wp_weight_convert; [side|intros ? ? ? ?; done] | mm_step].
Qed.

Lemma wp_bq_conv a u t w info ss n dt names v Q m : Forall (has m) names → (∀ m' r, grows m m' → named r m' → Q r m') →
  wp (bq_conv_inputs env graph qnn a u t w info ss n dt names v) Q m.
Proof.
  intros Hn HQ. eapply (wp_use named); [|auto]. unfold bq_conv_inputs.
  repeat mm_step; apply named_snoc; try done. by apply insert_has.
Qed.

Lemma wp_conv2d a u v m : wp (ProcessConv2D3DInputs env graph qnn a u v) named m.
Proof.
  unfold ProcessConv2D3DInputs.
  repeat first [ apply wp_ProcessInput; [side|let Hg := fresh "Hg" in intros ? Hg ?; advance Hg]
    | apply wp_bq_conv; [side|let Hg := fresh "Hg" in intros ? ? Hg [? ?]; advance Hg]
    | apply wp_conv_weight; let Hg := fresh "Hg" in intros ? ? Hg ?; advance Hg
    | apply wp_conv_bias; [side|intros ? ? ? ?; done]
    | apply wp_implicit_bias; [first [by split | by apply named_snoc]|intros ? ? ? ?; done] | mm_step ].
Qed.

Lemma wp_conv1d_input_0 d v Q m : (∀ m' r, grows m m' → has m' r → Q r m') → wp (conv1d_input_0 env graph qnn d v) Q m.
Proof.
  intros HQ. eapply (wp_use (fun r m' => has m' r)); [|auto]. unfold conv1d_input_0.
  repeat mm_step; try done; by apply exists_has.
Qed.

Lemma wp_conv1d_weight u t d v Q m : (∀ m' r, grows m m' → has m' r → Q r m') → wp (conv1d_weight env graph qnn u t d v) Q m.
Proof.
  intros HQ. eapply (wp_use (fun r m' => has m' r)); [|auto]. unfold conv1d_weight.
  repeat first [apply wp_to_hwcn; let Hg := fresh "Hg" in intros ? Hg ? ?; advance Hg | mm_step]; done.
Qed.

Lemma wp_conv1d u v m : wp (ProcessConv1DInputs env graph qnn u v) named m.
Proof.
  unfold ProcessConv1DInputs.
  repeat first [ apply wp_conv1d_input_0; let Hg := fresh "Hg" in intros ? ? Hg ?; advance Hg
    | apply wp_conv1d_weight; let Hg := fresh "Hg" in intros ? ? Hg ?; advance Hg
    | apply wp_ProcessInput; [side|intros ? ? ?; by split] | mm_step ]; split; [side|done].
Qed.

Lemma wp_conv_params u t a b c Q m : (∀ m' ps d, grows m m' → Forall (has_param m') ps → Q (ps, d) m') →
  wp (add_conv_params env qnn u t a b c) Q m.
Proof.
  intros HQ. eapply (wp_use (fun r m' => Forall (has_param m') r.1)); [|by intros []; auto]. unfold add_conv_params, conv_u32_param.
  repeat first [apply wp_scalar_param; [side|let Hg := fresh "Hg" in intros ? ? Hg ?; advance Hg] | op_step]; cbn [fst]; side.
Qed.

#[export] Instance conv_laws a : builder_laws (ConvOpBuilder env graph qnn a) one_output.
Proof.
  split.
  - intros u v m. cbn [ProcessInputs ConvOpBuilder]. eapply (wp_use named); [|by intros r m' _ [? ?]; split].
    unfold Conv_ProcessInputs. repeat first [apply wp_conv1d | apply wp_conv2d | op_step]; try done.
  - intros u v names m Hn. cbn [ProcessAttributesAndOutputs ConvOpBuilder]. unfold Conv_ProcessAttributesAndOutputs, weight_is_bw_float_block, conv_outputs.
    repeat first [apply wp_conv_params; let Hg := fresh "Hg" in intros ? ? ? Hg ?; advance Hg | mm_step]; try solve [written_outputs].
Qed.
End WindowLaws.
