(* ===== verification/Lowering.v ===== *)
(** * What the lowered reductions compute

    Sums, maxima and minima of many inputs ([simple_op_builder.cc]), and ReduceL2 and
    ReduceLogSumExp ([reduce_op_builder.cc]), and Cast ([cast_op_builder.cc]), in the terms of [Decompositions]: the builder
    succeeds, and its nodes compute an expression of the inputs for any meaning of the QNN ops. *)

From stdpp Require Import pretty.
From S2P Require Import Prelude DataTypes Floats QuantParams Perm QnnTensor Quantize OpParams ModelWrapper NodeGroups NodeUnitDefs TensorInfo ModelOps OpBuilder Builders Convert MoveBuilders SimpleBuilders IndexBuilders Decompositions.
Local Open Scope Z_scope.

Lemma BroadcastShape_length a b out : BroadcastShape a b = Ok out → length out = Nat.max (length a) (length b).
Proof.
  unfold BroadcastShape. intros E. apply (foldM_inv _ (fun _ out => length out = Nat.max (length a) (length b))) in E; [done| |].
  - by rewrite length_replicate.
  - intros d i s1 s2 Hs E1. apply bind_Ok in E1 as (? & _ & E1). apply bind_Ok in E1 as (? & _ & E1).
    apply bind_Ok in E1 as (? & _ & E1). apply aset_Ok in E1 as [_ ->]. by rewrite length_insert.
Qed.

Lemma string_app_inj_r (a b s : string) : a +:+ s = b +:+ s → a = b.
Proof.
  revert b. induction a as [|c a IH]; intros [|c' b] E; [done| | |].
  - apply (f_equal String.length) in E. rewrite !string_app_length in E. cbn in E. lia.
  - apply (f_equal String.length) in E. rewrite !string_app_length in E. cbn in E. lia.
  - change (String c (a +:+ s) = String c' (b +:+ s)) in E. injection E as -> E. f_equal. by apply IH.
Qed.

(** Loops over consecutive numbers that succeed. *)
Lemma runs_each_seq `{QnnInterface} {S} (I : list nat → S → QnnModelWrapper → Prop) (body : S → nat → M S) a n :
  (∀ d s m, I d s m → (length d < n)%nat → runs (body s (a + length d)%nat) (I (d ++ [a + length d]%nat)) m) →
  ∀ s m, I [] s m → runs (each (seq a n) body s) (fun s m => ∃ d, length d = n ∧ I d s m) m.
Proof.
  intros Hbody. assert (∀ k d s m, (length d + k = n)%nat → I d s m →
    runs (each (seq (a + length d) k) body s) (fun s m => ∃ d, length d = n ∧ I d s m) m) as Hgen.
  - induction k as [|k IH]; intros d s m E Hs; cbn [seq each].
    + apply runs_ret. exists d. split; [lia|done].
    + apply runs_bind. eapply runs_mono; [apply Hbody; [exact Hs|lia]|]. intros s' m' Hs'.
      specialize (IH (d ++ [a + length d]%nat) s' m'). rewrite length_app, Nat.add_1_r, Nat.add_succ_r in IH. apply IH; [lia|done].
  - intros s m Hs. specialize (Hgen n [] s m). rewrite Nat.add_0_r in Hgen. by apply Hgen.
Qed.

Section Chain.
Context `{SafeInt} `{QnnInterface}.
Context (env : environment) (graph : OrtGraph) (qnn : QnnHeaders).
Context (ib : tensor_body) (Hinit : body_of (tensor_init env) = Ok ib).
Context (u : UnitView) (o : OrtNodeUnitIODef) (oinfo : TensorInfo) (op : string).
Context (xs : list string) (shapes : list (list Z)).

Local Abbreviation base := (NodeUnitBaseName (u_name u) (u_op_type u) (N.of_nat (u_index u))).

Definition quantized_input (k : nat) : bool :=
  match Inputs u !! k with Some io => bool_decide (is_Some (quant_param io)) | None => false end.

(** The name that stands for an input in the chain. *)
Definition operand (k : nat) (x : string) : string := if quantized_input k then x +:+ "_to_f32" else x.

(** The value of an input: dequantized if it is quantized. *)
Definition operand_value {V} (sem : string → list string → list V → V) (ρ : string → V) (k : nat) (x : string) : V :=
  if quantized_input k then sem (macro qnn "QNN_OP_DEQUANTIZE") [] [ρ x] else ρ x.

Hypothesis Hshapes : length shapes = length xs.
Hypothesis Hranks : Forall (fun s => Z.of_nat (length s) < 2 ^ 32) shapes.
Hypothesis Hins : (length xs ≤ length (Inputs u))%nat.
Hypothesis Hnames : Forall (fun x => x ≠ "") xs.
Hypothesis Hdq : ∀ x y, x ∈ xs → y ∈ xs → x ≠ y +:+ "_to_f32".

(** What holds after the first [d] inputs were looked at. *)
Definition dq_inv (m : QnnModelWrapper) (d : list nat) (names : list string) (m' : QnnModelWrapper) : Prop :=
  names = imap (fun k x => if bool_decide (k < length d)%nat then operand k x else x) xs ∧
  (∀ n, (∀ x, x ∈ xs → n ≠ x +:+ "_to_f32") → constant m n = None → constant m' n = None) ∧
  ∃ new, qnn_op_property_list_ m' = qnn_op_property_list_ m ++ new ∧
    ∀ V (sem : string → list string → list V → V) ρ,
      (∀ k x, xs !! k = Some x → (k < length d)%nat → eval sem new ρ (operand k x) = operand_value sem ρ k x) ∧
      (∀ n, (∀ x, x ∈ xs → n ≠ x +:+ "_to_f32") → eval sem new ρ n = ρ n).

Lemma imap_insert_step (d : nat) x : xs !! d = Some x →
  <[d := operand d x]> (imap (fun k x => if bool_decide (k < d)%nat then operand k x else x) xs) =
  imap (fun k x => if bool_decide (k < S d)%nat then operand k x else x) xs.
Proof.
  intros Hx. apply list_eq. intros k. destruct (decide (k = d)) as [->|Hk].
  - rewrite list_lookup_insert_eq by (rewrite length_imap; by eapply lookup_lt_Some). rewrite list_lookup_imap, Hx. cbn.
    by rewrite bool_decide_true by lia.
  - rewrite list_lookup_insert_ne, !list_lookup_imap by done. destruct (xs !! k); cbn; [|done]. f_equal.
    rewrite !(bool_decide_ext (k < S d)%nat (k < d)%nat) by lia. done.
Qed.

Lemma dequantize_step_runs m d names k m1 : dq_inv m d names m1 → k = length d → (k < length xs)%nat →
  runs (dequantize_step env qnn u shapes false names k) (dq_inv m (d ++ [k])) m1.
Proof.
  intros (-> & Hc & new & Hops & Hev) -> Hk. set (k := length d) in *.
  destruct (lookup_lt_is_Some_2 xs k Hk) as [x Hx]. destruct (lookup_lt_is_Some_2 (Inputs u) k) as [io Hio]; [lia|].
  destruct (lookup_lt_is_Some_2 shapes k) as [s Hs]; [lia|]. pose proof (list_elem_of_lookup_2 _ _ _ Hx) as Hxin.
  pose proof (proj1 (Forall_lookup _ _) Hnames _ _ Hx) as Hxne. pose proof (proj1 (Forall_lookup _ _) Hranks _ _ Hs) as Hsr. cbn in Hxne, Hsr.
  assert (length (d ++ [k]) = S k) as Hd by (rewrite length_app; cbn; lia).
  unfold dequantize_step. apply runs_bind. eapply runs_lift; [by apply aget_Ok|].
  assert (quantized_input k = bool_decide (is_Some (quant_param io))) as Eqi by (unfold quantized_input; by rewrite Hio).
  pose proof (imap_insert_step k x Hx) as Him. 
  destruct (quant_param io) as [qp|].
  - rewrite bool_decide_true in Eqi by (by eexists).
    apply runs_bind. eapply runs_lift; [apply aget_Ok; rewrite list_lookup_imap, Hx; cbn; by rewrite bool_decide_false by lia|].
    apply runs_bind. eapply runs_lift; [by apply aget_Ok|]. unfold AddDequantizeNode. run_auto.
    assert (operand k x = x +:+ "_to_f32") as Eop by (unfold operand; by rewrite Eqi).
    split; [rewrite Hd, <- Him, Eop; done|]. split.
    { intros n Hn Hnone. trace_constant. by apply Hc. }
    eexists. split; [repeat match goal with E : qnn_op_property_list_ ?m = _ |- context [qnn_op_property_list_ ?m] => rewrite E end; rewrite <- app_assoc; reflexivity|].
    intros V sem ρ. destruct (Hev V sem ρ) as [Hv Ho]. rewrite eval_app. split.
    + intros k' x' Hx' Hk'. rewrite Hd in Hk'. destruct (decide (operand k' x' = x +:+ "_to_f32")) as [E|E].
      * unfold eval at 1. cbn [foldl]. rewrite E, eval_written. cbn [fmap list_fmap].
        rewrite Ho by (intros y Hy; by apply Hdq). unfold operand_value, operand in *.
        destruct (quantized_input k') eqn:Eq'.
        -- apply string_app_inj_r in E as ->. done.
        -- exfalso. revert E. apply Hdq; [by eapply list_elem_of_lookup_2|done].
      * unfold eval at 1. cbn [foldl]. rewrite eval_other by done. apply Hv; [done|].
        assert (k' ≠ k) as Hne; [|unfold k in *; lia]. intros ->. rewrite Hx in Hx'. injection Hx' as <-. by rewrite Eop in E.
    + intros n Hn. unfold eval at 1. cbn [foldl]. rewrite eval_other by (by apply Hn). by apply Ho.
  - rewrite bool_decide_false in Eqi by (by intros []). apply runs_ret.
    assert (operand k x = x) as Eop by (unfold operand; by rewrite Eqi).
    split; [|split; [done|]].
    { rewrite Hd, <- Him, Eop. symmetry. apply list_insert_id. rewrite list_lookup_imap, Hx. cbn. by rewrite bool_decide_false by lia. }
    exists new. split; [done|]. intros V sem ρ. destruct (Hev V sem ρ) as [Hv Ho]. split; [|done].
    intros k' x' Hx' Hk'. rewrite Hd in Hk'. destruct (decide (k' = k)) as [->|]; [|apply Hv; [done|unfold k in *; lia]].
    rewrite Hx in Hx'. injection Hx' as <-. unfold operand_value. rewrite Eop, Eqi. apply Ho. intros y Hy. by apply Hdq.
Qed.

(** ** The chain *)

Context (s0 : list Z) (more : bool) (dt : Qnn_DataType_t).
Hypothesis Hs0 : shapes !! 0%nat = Some s0.
Hypothesis Hbc : is_ok (foldM BroadcastShape (drop 1 shapes) s0) = true.
Hypothesis Hfold : ∀ x t, x ∈ xs → x ≠ base +:+ "_fold_" +:+ t ∧ x +:+ "_to_f32" ≠ base +:+ "_fold_" +:+ t.
Hypothesis Hod : describable oinfo.
Hypothesis Hone : name o ≠ "".

Local Abbreviation operands := (imap operand xs).

Lemma operand_not_fold k x t : xs !! k = Some x → operand k x ≠ base +:+ "_fold_" +:+ t.
Proof.
  intros Hx. destruct (Hfold x t) as [H1 H2]; [by eapply list_elem_of_lookup_2|]. unfold operand. by destruct (quantized_input k).
Qed.

(** The running shape before input [i]. *)
Definition running (i : nat) (s : list Z) : Prop :=
  foldM BroadcastShape (take (i - 1) (drop 1 shapes)) s0 = Ok s ∧ Z.of_nat (length s) < 2 ^ 32.

Lemma running_step i s si : (1 ≤ i)%nat → running i s → shapes !! i = Some si → ∃ s', BroadcastShape s si = Ok s' ∧ running (S i) s'.
Proof.
  intros Hi [Hr Hl] Hsi. assert (drop 1 shapes !! (i - 1)%nat = Some si) as Hd by (rewrite lookup_drop, <- Hsi; f_equal; lia).
  pose proof Hbc as Hb. rewrite <- (take_drop (i - 1) (drop 1 shapes)), foldM_app, Hr in Hb. cbn [rbind] in Hb.
  rewrite (drop_S _ _ _ Hd) in Hb. cbn [foldM] in Hb. destruct (BroadcastShape s si) as [s'|] eqn:E; [|done].
  exists s'. split; [done|]. split.
  - replace (S i - 1)%nat with (S (i - 1)) by lia. rewrite (take_S_r _ _ _ Hd), foldM_app, Hr. cbn [rbind foldM]. by rewrite E.
  - rewrite (BroadcastShape_length _ _ _ E). pose proof (proj1 (Forall_lookup _ _) Hranks _ _ Hsi) as Hsl. cbn in Hsl. lia.
Qed.

Definition chain_inv (m : QnnModelWrapper) (d : list nat) (st : string * list Z) (m' : QnnModelWrapper) : Prop :=
  running (S (length d)) st.2 ∧
  (more = true → ∀ n, (∀ t, n ≠ base +:+ "_fold_" +:+ t) → constant m n = None → constant m' n = None) ∧
  (more = false → S (length d) = length xs → (2 ≤ length xs)%nat → st.1 = name o) ∧
  ∃ new, qnn_op_property_list_ m' = qnn_op_property_list_ m ++ new ∧
    ∀ V (sem : string → list string → list V → V) ρ,
      eval sem new ρ st.1 = foldl (fun acc n => sem op [] [acc; ρ n]) (default (ρ "") (ρ <$> operands !! 0%nat)) (take (length d) (drop 1 operands)) ∧
      ((S (length d) < length xs)%nat ∨ more = true → ∀ n, (∀ t, n ≠ base +:+ "_fold_" +:+ t) → eval sem new ρ n = ρ n).

Lemma fold_step_runs m d st i m1 : chain_inv m d st m1 → i = S (length d) → (i < length xs)%nat →
  runs (fold_step env u o oinfo shapes operands op dt more false st i) (chain_inv m (d ++ [i])) m1.
Proof.
  intros (Hr & Hc & _ & new & Hops & Hev) -> Hi. set (i := S (length d)) in *. destruct st as [lhs s]. cbn [fst snd] in *.
  destruct (lookup_lt_is_Some_2 xs i Hi) as [x Hx]. destruct (lookup_lt_is_Some_2 shapes i) as [si Hsi]; [lia|].
  destruct (running_step i s si) as (s' & Es & Hr'); [lia|done|done|]. pose proof Hr' as [_ Hl'].
  assert (operands !! i = Some (operand i x)) as Hox by (by rewrite list_lookup_imap, Hx).
  assert (drop 1 operands !! length d = Some (operand i x)) as Hdx by (rewrite lookup_drop, <- Hox; done).
  assert (length (d ++ [i]) = i) as Hd by (rewrite length_app; cbn; lia).
  unfold fold_step. apply runs_bind. eapply runs_lift; [by apply aget_Ok|]. apply runs_bind. eapply runs_lift; [done|].
  rewrite length_imap. apply runs_bind.
  apply (runs_mono _ (fun out m2 => qnn_op_property_list_ m2 = qnn_op_property_list_ m1 ∧ (more = false → S i = length xs → out = name o) ∧
    ((S i < length xs)%nat ∨ more = true → ∃ t, out = base +:+ "_fold_" +:+ t) ∧
    (more = true → ∀ n, (∀ t, n ≠ base +:+ "_fold_" +:+ t) → constant m1 n = None → constant m2 n = None))).
  - destruct (Nat.eqb_spec i (length xs - 1)) as [El|El]; cbn [negb orb].
    + destruct more eqn:Em.
      * run_auto. split_and!; [done|done|by eexists|]. intros _ n Hn Hnone. trace_constant. done.
      * destruct Hod as [Hq Hs]. run_auto. split_and!; [done|done|intros [?|?]; [lia|done]|done].
    + run_auto. split_and!; [done|intros _ ?; lia|by eexists|]. intros _ n Hn Hnone. trace_constant. done.
  - intros out m2 (Ho2 & Hlast & Hnew & Hc2). apply runs_bind. eapply runs_lift; [by apply aget_Ok|]. run_auto.
    unfold chain_inv. rewrite Hd. cbn [fst snd]. split_and!; [done| |intros Hm Hlx _; by apply Hlast|].
    { intros Hm n Hn Hnone. trace_constant. apply Hc2; [done|done|]. by apply Hc. }
    eexists. split; [repeat match goal with E : qnn_op_property_list_ ?m = _ |- context [qnn_op_property_list_ ?m] => rewrite E end; rewrite <- app_assoc; reflexivity|].
    intros V sem ρ. destruct (Hev V sem ρ) as [Hv Ho]. rewrite eval_app. unfold eval at 1 3. cbn [foldl]. split.
    + rewrite eval_written. cbn [fmap list_fmap]. rewrite Hv, (Ho (or_introl Hi) (operand i x)) by (intros t0; by apply operand_not_fold).
      unfold i. rewrite (take_S_r _ _ _ Hdx), foldl_app. done.
    + intros Hle n Hn. destruct (Hnew Hle) as [t1 ->]. rewrite eval_other by apply Hn. apply Ho; [|done]. destruct Hle; [left; lia|by right].
Qed.
End Chain.

Lemma foldl_fmap_ {A B C} (f : A → B → A) (g : C → B) (l : list C) (a : A) : foldl f a (g <$> l) = foldl (fun a c => f a (g c)) a l.
Proof. revert a. induction l as [|c l IH]; intros a; [done|]. cbn. apply IH. Qed.

(** A last node applied to what the nodes before it compute. *)
Lemma computes_last `{QnnInterface} m m2 m3 new x pkg ty lhs n (f : ∀ V, (string → list string → list V → V) → (string → V) → V) :
  qnn_op_property_list_ m2 = qnn_op_property_list_ m ++ new →
  qnn_op_property_list_ m3 = qnn_op_property_list_ m2 ++ [OpProperty x pkg ty [lhs] [n] []] →
  (∀ V sem ρ, eval sem new ρ lhs = f V sem ρ) → computes m m3 n (fun V sem lit ρ => sem ty [] [f V sem ρ]).
Proof.
  intros H2 H3 Hf. exists (new ++ [OpProperty x pkg ty [lhs] [n] []]). split; [by rewrite H3, H2, app_assoc|].
  intros V sem lit ρ _. rewrite eval_app. unfold eval at 1. cbn [foldl]. rewrite eval_written. cbn. by rewrite Hf.
Qed.

Ltac trace_ops := repeat match goal with E : qnn_op_property_list_ ?m = _ |- context [qnn_op_property_list_ ?m] => rewrite E end.

Section Variadic.
Context `{SafeInt} `{QnnInterface}.
Context (env : environment) (graph : OrtGraph) (qnn : QnnHeaders).

(** Sum, Max or Min of the inputs in the float domain, from the left. *)
Definition chain_value (u : UnitView) (op : string) (xs : list string) {V} (sem : string → list string → list V → V) (ρ : string → V) : V :=
  match imap (operand_value qnn u sem ρ) xs with
  | [] => ρ ""
  | v0 :: vs => foldl (fun acc v => sem op [] [acc; v]) v0 vs
  end.

(** Sum, Max and Min of three or more inputs: the builder succeeds, and its nodes compute
    the operator on the inputs from the left, each input dequantized first if it is quantized,
    the result quantized if the output is, or cast back if it is a 64-bit graph output; for any
    meaning of the QNN ops.  The names of the inputs do not clash with those that are made, and
    the shapes can be broadcast. *)
Theorem variadic_chain (ib : tensor_body) (u : UnitView) (o : OrtNodeUnitIODef) (oinfo : TensorInfo) (op : string)
  (xs : list string) (shapes : list (list Z)) (s0 : list Z) m :
  body_of (tensor_init env) = Ok ib → aget (Outputs u) 0 = Ok o → GetTensorInfo env graph o = Ok oinfo → describable oinfo →
  name o ≠ "" → (2 < length xs ≤ length (Inputs u))%nat → Forall (fun x => x ≠ "") xs →
  mapM_res (fun i => let* io := aget (Inputs u) i in shape_or io "Failed to get input shape.") (seq 0 (length xs)) = Ok shapes →
  Forall (fun s => Z.of_nat (length s) < 2 ^ 32) shapes → shapes !! 0%nat = Some s0 →
  is_ok (foldM BroadcastShape (drop 1 shapes) s0) = true →
  (is_Some (quant_param o) → IsQnnFixedPointType (info_data_type oinfo) = true) →
  (let base := NodeUnitBaseName (u_name u) (u_op_type u) (N.of_nat (u_index u)) in
   (∀ x t, x ∈ xs → x ≠ base +:+ "_fold_" +:+ t ∧ x +:+ "_to_f32" ≠ base +:+ "_fold_" +:+ t) ∧
   (∀ t, name o ≠ base +:+ "_fold_" +:+ t)) →
  (∀ x y, x ∈ xs → y ∈ xs → x ≠ y +:+ "_to_f32") → (∀ x, x ∈ xs → name o ≠ x +:+ "_to_f32") → constant m (name o) = None →
  runs (ProcessVariadicToBinaryChain env graph qnn u xs op false)
    (fun _ m' => computes m m' (name o) (fun V sem lit ρ =>
       let r := chain_value u op xs sem ρ in
       if bool_decide (is_Some (quant_param o)) then sem (macro qnn "QNN_OP_QUANTIZE") [] [r]
       else if IsGraphOutput env (name o) && is_int64 (info_data_type oinfo) then sem (QNN_OP_CAST env) [] [r]
       else r)) m.
Proof.
  intros Hinit Ho Hoi Hod Hone Hlen Hne Hsh Hranks Hs0 Hbc Hq [Hfold Hofold] Hdq Hodq Hnone.
  assert (length shapes = length xs) as Hl by (apply mapM_res_length in Hsh; by rewrite length_seq in Hsh).
  unfold ProcessVariadicToBinaryChain. do 4 (apply runs_bind || (eapply runs_lift; [eassumption|])).
  apply runs_bind. eapply runs_lift; [exact Hsh|]. apply runs_bind.
  eapply runs_mono; [apply (runs_each_seq (dq_inv qnn u xs m) _ 0 (length xs))|].
  { intros d names m1 Hd Hlt. eapply dequantize_step_runs; (done || lia). }
  { split; [|split; [done|]].
    - symmetry. apply list_eq. intros k. rewrite list_lookup_imap. by destruct (xs !! k).
    - exists []. split; [by rewrite app_nil_r|]. intros V sem ρ. split; [intros; cbn in *; lia|done]. }
  intros names m1 (d & Hld & -> & Hc1 & new1 & Hops1 & Hev1).
  assert (imap (fun k x => if bool_decide (k < length d)%nat then operand u k x else x) xs = imap (operand u) xs) as ->.
  { apply list_eq. intros k. rewrite !list_lookup_imap. destruct (xs !! k) eqn:E; [|done]. cbn. apply lookup_lt_Some in E.
    by rewrite bool_decide_true by lia. }
  rewrite length_imap. destruct xs as [|x0 xs'] eqn:Exs; [cbn in Hlen; lia|]. rewrite <- Exs in *.
  apply runs_bind. eapply runs_lift; [apply aget_Ok; rewrite Exs; reflexivity|]. apply runs_bind. eapply runs_lift; [by apply aget_Ok|].
  set (more := bool_decide (is_Some (quant_param o)) || _). set (dt := if bool_decide _ then _ else _).
  apply runs_bind. eapply runs_mono; [apply (runs_each_seq (chain_inv u o op xs shapes s0 more m1) _ 1 (length xs - 1))|].
  { intros d2 st m2 Hd2 Hlt. eapply fold_step_runs; (done || lia). }
  { split_and!; [split; [done|by apply (proj1 (Forall_lookup _ _) Hranks 0%nat)]|done|cbn; lia|].
    exists []. split; [by rewrite app_nil_r|]. intros V sem ρ. split; [|done]. rewrite Exs. done. }
  intros [lhs s] m2 (d2 & Hld2 & _ & Hc2 & Hlast & new2 & Hops2 & Hev2). cbn [fst snd] in *.
  assert (∀ V (sem : string → list string → list V → V) ρ, eval sem (new1 ++ new2) ρ lhs = chain_value u op xs sem ρ) as Hval.
  { intros V sem ρ. rewrite eval_app. destruct (Hev1 V sem ρ) as [Hv1 _]. set (ρ1 := eval sem new1 ρ) in *.
    destruct (Hev2 V sem ρ1) as [-> _]. rewrite take_ge by (rewrite length_drop, length_imap; lia).
    assert (ρ1 <$> imap (operand u) xs = imap (operand_value qnn u sem ρ) xs) as Eo.
    { apply list_eq. intros k. rewrite list_lookup_fmap, !list_lookup_imap. destruct (xs !! k) eqn:E; [|done]. cbn. f_equal.
      apply Hv1; [done|]. apply lookup_lt_Some in E. lia. }
    unfold chain_value. rewrite <- Eo. rewrite Exs. cbn [imap fmap list_fmap lookup list_lookup option_fmap option_map from_option drop].
    rewrite drop_0. by rewrite foldl_fmap_. }
  assert (qnn_op_property_list_ m2 = qnn_op_property_list_ m ++ (new1 ++ new2)) as Hops by (by rewrite Hops2, Hops1, app_assoc).
  destruct (bool_decide (is_Some (quant_param o))) eqn:Eq; cbn [negb andb orb] in *.
  - apply bool_decide_eq_true in Eq. specialize (Hq Eq). destruct Hod as [Hoq Hos]. apply runs_bind, runs_copy; [done|]. intros q Hwf _.
    unfold AddQuantizeNode. rewrite Hq. run_auto. eapply computes_last; [exact Hops|trace_ops; reflexivity|exact Hval].
  - destruct (IsGraphOutput env (name o) && is_int64 (info_data_type oinfo)) eqn:Ec.
    + destruct Hod as [Hoq Hos]. apply runs_bind, runs_fresh_unit. intros t m3 Ho3 Hc3. apply runs_bind, runs_copy; [done|]. intros q Hwf _.
      unfold AddCastNode. apply runs_bind. exists m3, false. split.
      { unfold get, IsQnnTensorWrapperExist. rewrite bool_decide_false; [done|]. intros [w Hw].
        assert (constant m3 (name o) = None) as Hn3 by (rewrite Hc3; apply Hc2; [done|done|]; by apply Hc1).
        unfold constant in Hn3. by rewrite Hw in Hn3. }
      run_auto. eapply computes_last; [exact Hops|trace_ops; reflexivity|exact Hval].
    + apply runs_ret. exists (new1 ++ new2). split; [done|]. intros V sem lit ρ _. rewrite <- Hlast by (done || lia). apply Hval.
Qed.
End Variadic.

(** ** ReduceL2 and ReduceLogSumExp *)

Section Reductions.
Context `{SafeInt} `{QnnInterface}.
Context (env : environment) (graph : OrtGraph) (qnn : QnnHeaders).
Context (ib : tensor_body) (Hinit : body_of (tensor_init env) = Ok ib).
Context (u : UnitView) (inp o : OrtNodeUnitIODef) (input_shape output_shape : list Z) (dt : Qnn_DataType_t) (i : string).
Hypothesis Hin : aget (Inputs u) 0 = Ok inp.
Hypothesis Hout : aget (Outputs u) 0 = Ok o.
Hypothesis Hish : shape_or inp "Cannot get input shape." = Ok input_shape.
Hypothesis Hosh : shape_or o "Cannot get output shape." = Ok output_shape.
Hypothesis Hdt : GetQnnDataType false (type o) CPU = Ok dt.
Hypothesis Hranks : Z.of_nat (length input_shape) < 2 ^ 32 ∧ Z.of_nat (length output_shape) < 2 ^ 32.
Hypothesis Hi : i ≠ "".
Hypothesis Hone : name o ≠ "".
Hypothesis Hsep : (∀ t, t ≠ "" → name o ≠ i +:+ t) ∧ (∀ t, t ≠ "" → i ≠ name o +:+ t) ∧ (∀ s t, s ≠ "" → t ≠ "" → i +:+ s ≠ name o +:+ t).

Local Abbreviation op n := (macro qnn n).

Lemma self_ne (x : string) a s : x ≠ x +:+ String a s.
Proof. intros E. apply (f_equal String.length) in E. rewrite string_app_length in E. cbn in E. lia. Qed.

Lemma L2_float ps m : quant_param inp = None →
  runs (Reduce_L2 env graph qnn u [i] ps false)
    (fun _ m' => computes m m' (name o) (fun V sem lit ρ =>
       sem (op "QNN_OP_ELEMENT_WISE_SQUARE_ROOT") []
         [sem (op "QNN_OP_REDUCE_SUM") ps [sem (op "QNN_OP_ELEMENT_WISE_MULTIPLY") [] [ρ i; ρ i]]])) m.
Proof.
  intros Hq. destruct Hranks as [Hir Hor], Hsep as (Ho1 & _ & _). unfold Reduce_L2, float_step.
  run_step. run_step. run_step. run_step. run_step. run_step. run_step. run_step. rewrite Hq. rewrite bool_decide_false by (by intros []).
  run_auto. new_nodes. eval_nodes.
Qed.

Lemma L2_quantized ps qp final_dt q m : quant_param inp = Some qp →
  GetQnnDataType (bool_decide (is_Some (quant_param o))) (type o) (backend_type env) = Ok final_dt →
  Init_io env graph default_wrapper o = Ok q → wf q →
  runs (Reduce_L2 env graph qnn u [i] ps false)
    (fun _ m' => computes m m' (name o) (fun V sem lit ρ =>
       let x := sem (op "QNN_OP_DEQUANTIZE") [] [ρ i] in
       sem (op "QNN_OP_QUANTIZE") []
         [sem (op "QNN_OP_ELEMENT_WISE_SQUARE_ROOT") []
            [sem (op "QNN_OP_REDUCE_SUM") ps [sem (op "QNN_OP_ELEMENT_WISE_MULTIPLY") [] [x; x]]]])) m.
Proof.
  intros Hq Hfd Hqi Hwf. destruct Hranks as [Hir Hor], Hsep as (Ho1 & Ho2 & Ho3). unfold Reduce_L2, float_step.
  run_step. run_step. run_step. run_step. run_step. run_step. run_step. run_step. rewrite Hq. rewrite bool_decide_true by (by eexists).
  run_auto. new_nodes. eval_nodes.
Qed.

Lemma LogSumExp_computes axes p kept (keepdims : bool) m : kept_shape input_shape axes = Ok kept → Z.of_nat (length kept) < 2 ^ 32 →
  runs (Reduce_LogSumExp env qnn u axes p keepdims [i] false)
    (fun _ m' => ∃ inner, computes m m' (name o) (fun V sem lit ρ =>
       let ps := [p; param_tensor_name (u_index u) inner (op "QNN_OP_REDUCE_MAX_PARAM_KEEP_DIMS")] in
       let mx := sem (op "QNN_OP_REDUCE_MAX") ps [ρ i] in
       let e := sem (op "QNN_OP_ELEMENT_WISE_EXP") [] [sem (op "QNN_OP_ELEMENT_WISE_SUBTRACT") [] [ρ i; mx]] in
       let r := sem (op "QNN_OP_ELEMENT_WISE_ADD") [] [sem (op "QNN_OP_ELEMENT_WISE_LOG") [] [sem (op "QNN_OP_REDUCE_SUM") ps [e]]; mx] in
       if keepdims then r else sem (op "QNN_OP_RESHAPE") [] [r])) m.
Proof.
  intros Hk Hkl. destruct Hranks as [Hir Hor], Hsep as (Ho1 & Ho2 & Ho3). unfold Reduce_LogSumExp, float_step.
  assert (∀ t, i ≠ i +:+ "_max" +:+ t) as Hmax by (intros t; apply self_ne).
  run_auto. destruct keepdims; run_auto; eexists; new_nodes; eval_nodes.
Qed.

(** The nodes of ReduceL2 compute the square root of the sum of the squared input over the
    axes, between a Dequantize and a Quantize when the input is quantized; those of
    ReduceLogSumExp compute [log (sum (exp (x - max x))) + max x], where maximum and sum keep the
    reduced dimensions, reshaped when the operator drops them.  The builder succeeds, for any
    meaning of the QNN ops. *)
Theorem reduction_decompositions ps final_dt q axes p kept (keepdims : bool) m :
  (is_Some (quant_param inp) →
    GetQnnDataType (bool_decide (is_Some (quant_param o))) (type o) (backend_type env) = Ok final_dt ∧
    Init_io env graph default_wrapper o = Ok q ∧ wf q) →
  kept_shape input_shape axes = Ok kept → Z.of_nat (length kept) < 2 ^ 32 →
  runs (Reduce_L2 env graph qnn u [i] ps false)
    (fun _ m' => computes m m' (name o) (fun V sem lit ρ =>
       let around f x := if bool_decide (is_Some (quant_param inp))
         then sem (op "QNN_OP_QUANTIZE") [] [f (sem (op "QNN_OP_DEQUANTIZE") [] [x])] else f x in
       around (fun x => sem (op "QNN_OP_ELEMENT_WISE_SQUARE_ROOT") []
         [sem (op "QNN_OP_REDUCE_SUM") ps [sem (op "QNN_OP_ELEMENT_WISE_MULTIPLY") [] [x; x]]]) (ρ i))) m ∧
  runs (Reduce_LogSumExp env qnn u axes p keepdims [i] false)
    (fun _ m' => ∃ inner, computes m m' (name o) (fun V sem lit ρ =>
       let ps := [p; param_tensor_name (u_index u) inner (op "QNN_OP_REDUCE_MAX_PARAM_KEEP_DIMS")] in
       let mx := sem (op "QNN_OP_REDUCE_MAX") ps [ρ i] in
       let e := sem (op "QNN_OP_ELEMENT_WISE_EXP") [] [sem (op "QNN_OP_ELEMENT_WISE_SUBTRACT") [] [ρ i; mx]] in
       let r := sem (op "QNN_OP_ELEMENT_WISE_ADD") [] [sem (op "QNN_OP_ELEMENT_WISE_LOG") [] [sem (op "QNN_OP_REDUCE_SUM") ps [e]]; mx] in
       if keepdims then r else sem (op "QNN_OP_RESHAPE") [] [r])) m.
Proof.
  intros Hq Hk Hkl. split; [|by eapply LogSumExp_computes]. destruct (quant_param inp) as [qp|] eqn:Eq.
  - destruct Hq as (Hd & Hi' & Hwf); [by eexists|]. rewrite bool_decide_true by (by eexists). by eapply L2_quantized.
  - rewrite bool_decide_false by (by intros []). by eapply L2_float.
Qed.
End Reductions.

(** ** Cast *)

Section Casts.
Context `{SafeInt} `{QnnInterface}.
Context (env : environment) (graph : OrtGraph) (qnn : QnnHeaders).
Context (ib : tensor_body) (Hinit : body_of (tensor_init env) = Ok ib).
Context (u : UnitView) (inp o : OrtNodeUnitIODef) (idt odt : Qnn_DataType_t) (input_shape output_shape : list Z) (bytes : list Z) (qnn_op : string).
Hypothesis Hin : aget (Inputs u) 0 = Ok inp.
Hypothesis Hnum : length (Inputs u) ∈ [1; 2]%nat.
Hypothesis Hout : Outputs u = [o].
Hypothesis Hidt : GetQnnDataType false (type inp) CPU = Ok idt.
Hypothesis Hodt : GetQnnDataType false (type o) CPU = Ok odt.
Hypothesis Hish : GetOnnxShape (shape inp) = Ok (Some input_shape).
Hypothesis Hosh : GetOnnxShape (shape o) = Ok (Some output_shape).
Hypothesis Hranks : Z.of_nat (length input_shape) < 2 ^ 32 ∧ Z.of_nat (length output_shape) < 2 ^ 32.
Hypothesis Hdata : (if IsConstantInput env (name inp) then UnpackInitializerData graph (GetConstantTensor graph (name inp)) true else Ok []) = Ok bytes.
Hypothesis Hio : IsGraphInput env (name inp) && bool_decide (type inp = ONNX_DOUBLE) = false ∧
  (odt = QNN_FLOAT_64 → IsGraphOutput env (name o) = false).
Hypothesis Hplain : quant_param inp = None.
Hypothesis Hnames : name inp ≠ "" ∧ name o ≠ "" ∧ name o ≠ name inp.
Hypothesis Hop : GetQnnOpType qnn (u_op_type u) = Ok qnn_op.

Local Abbreviation base := (NodeUnitBaseName (u_name u) (u_op_type u) (N.of_nat (u_index u))).
Local Abbreviation op n := (macro qnn n).

(** The names that the builder makes itself are not those of the input and the output. *)
Hypothesis Hsep : ∀ s, s ∈ ["_signabs_sign"; "_signabs_abs"; "_notequal_zero"] → name inp ≠ base +:+ s ∧ name o ≠ base +:+ s.

Definition htp : bool := bool_decide (backend_type env ∈ [HTP; SERIALIZER]).
Definition fp_to_bool : bool := bool_decide (idt ∈ [QNN_FLOAT_16; QNN_FLOAT_32]) && bool_decide (odt = QNN_BOOL_8).
Definition uint8_to_float : bool := bool_decide (idt = QNN_UINT_8) && bool_decide (odt ∈ [QNN_FLOAT_32; QNN_FLOAT_16]) && htp.

(** The zero a float is compared with. *)
Definition zero_decl : decl :=
  Decl (Ok idt) [1] (params_ default_wrapper) (replicate (if bool_decide (idt = QNN_FLOAT_16) then 2 else 4) 0).

(** What the nodes are to compute of the input. *)
Definition cast_value {V} (sem : string → list string → list V → V) (lit : decl → V) (x : V) : V :=
  if uint8_to_float then sem (QNN_OP_CAST env) [] [sem (QNN_OP_CAST env) [] [x]]
  else if fp_to_bool then
    if htp then sem (QNN_OP_CAST env) [] [sem (op "QNN_OP_ELEMENT_WISE_ABS") [] [sem (op "QNN_OP_ELEMENT_WISE_SIGN") [] [x]]]
    else sem (op "QNN_OP_ELEMENT_WISE_NOT_EQUAL") [] [x; lit zero_decl]
  else sem qnn_op [] [x].

Lemma cast_types_ok : cast_types u = Ok (Some (idt, odt)).
Proof. unfold cast_types. rewrite Hin, Hout. cbn. by rewrite Hidt, Hodt. Qed.

Lemma fp_to_bool_ok : IsFpToBoolCast u = Ok fp_to_bool.
Proof. unfold IsFpToBoolCast. by rewrite cast_types_ok. Qed.

Lemma uint8_to_float_ok : IsUInt8ToFloatCastOnHtp env u = Ok uint8_to_float.
Proof. unfold IsUInt8ToFloatCastOnHtp. by rewrite cast_types_ok. Qed.

Lemma shape_or_ok io s msg : GetOnnxShape (shape io) = Ok (Some s) → shape_or io msg = Ok s.
Proof. intros E. unfold shape_or. by rewrite E. Qed.

(** The names that are handed to the node. *)
Definition cast_inputs : list string :=
  if fp_to_bool && negb htp then [name inp; base +:+ "_notequal_zero"] else [name inp].

Lemma constant_exists m n : IsQnnTensorWrapperExist m n = true → constant m n ≠ None.
Proof. unfold IsQnnTensorWrapperExist, constant. intros [w Hw]%bool_decide_eq_true. by rewrite Hw. Qed.

Lemma adds_itself n d m m' : adds_constant n d m m' → constant m' n ≠ None.
Proof. intros (_ & Hs & Hn). destruct (constant m n) as [c|] eqn:E; [by rewrite (Hs n c E)|by rewrite Hn]. Qed.

(** The zero to compare with. *)
Lemma extra_runs m Q : constant m (base +:+ "_notequal_zero") = None →
  (∀ m', qnn_op_property_list_ m' = qnn_op_property_list_ m → (∀ k c, constant m k = Some c → constant m' k = Some c) →
     (fp_to_bool && negb htp = true →
        constant m' (base +:+ "_notequal_zero") = Some zero_decl) →
     Q cast_inputs m') →
  runs (let! b := lift (IsFpToBoolCast u) in
    if b && negb (UseSignAbsCastForHtp env) then ProcessExtraInputForNotEqual env u [name inp] else ret [name inp]) Q m.
Proof.
  intros Hz HQ. run_step. rewrite fp_to_bool_ok. run_step. unfold UseSignAbsCastForHtp. fold htp. unfold cast_inputs in HQ.
  destruct (fp_to_bool && negb htp) eqn:Ef; [|by apply runs_ret, HQ]. unfold ProcessExtraInputForNotEqual. run_step. run_step.
  rewrite Hplain, bool_decide_false by (by intros []). run_step. run_step. run_step.
  apply andb_prop in Ef as [Ef%andb_prop _]. destruct Ef as [Ef%bool_decide_eq_true _].
  assert (∃ sz, GetElementSizeByType_qnn idt = Ok sz ∧ Z.to_nat sz = (if bool_decide (idt = QNN_FLOAT_16) then 2 else 4)%nat ∧ wide idt = false) as (sz & Es & Esz & Hw).
  { apply elem_of_cons in Ef as [->|Ef%list_elem_of_singleton]; [|rewrite Ef]; eexists; (split_and!; [vm_compute; reflexivity..]). }
  eapply runs_lift; [exact Es|]. rewrite Esz. run_step. run_step. run_step.
  match goal with Ha : adds_constant _ _ _ _ |- _ => destruct Ha as (_ & Hold & Hnew) end. apply HQ; [done|done|]. intros _. by apply Hnew.
Qed.

Lemma cast_inputs_run m Q : constant m (base +:+ "_notequal_zero") = None →
  (∀ m', qnn_op_property_list_ m' = qnn_op_property_list_ m → constant m' (name inp) ≠ None →
     (fp_to_bool && negb htp = true →
        constant m' (base +:+ "_notequal_zero") = Some zero_decl) →
     Q cast_inputs m') →
  runs (Cast_ProcessInputs env graph u false) Q m.
Proof.
  intros Hz HQ. destruct Hnames as (Hni & Hno & _), Hio as [Hgi _], Hranks as [Hir _]. unfold Cast_ProcessInputs.
  rewrite bool_decide_true by done. do 4 run_step. rewrite Hgi. run_step. run_step. run_step. exists m. eexists. split; [reflexivity|].
  cbv beta. destruct (IsQnnTensorWrapperExist m (name inp)) eqn:Ex.
  { apply extra_runs; [done|]. intros m' Ho Hold Hc. apply HQ; [done| |done]. apply constant_exists in Ex.
    destruct (constant m (name inp)) as [c|] eqn:Ec; [|done]. by rewrite (Hold _ _ Ec). }
  run_step. run_step. run_step. eapply runs_lift; [by apply shape_or_ok|]. run_step. run_step. run_step.
  eapply runs_add_tensor; [eassumption|done|apply default_wf|done|]. intros m1 Ho1 Ha1.
  apply extra_runs.
  - destruct Ha1 as (Hk & _). rewrite Hk; [done|]. apply not_eq_sym. apply (Hsep "_notequal_zero"). by right; right; left.
  - intros m2 Ho2 Hold Hc. apply HQ; [by rewrite Ho2|..]; [|done]. apply adds_itself in Ha1.
    destruct (constant m1 (name inp)) as [c|] eqn:Ec; [|done]. by rewrite (Hold _ _ Ec).
Qed.

Lemma cast_output_type_ok : ∃ dt, cast_output_type odt (IsGraphOutput env (name o)) = Ok dt.
Proof. unfold cast_output_type. destruct Hio as [_ Hf]. destruct odt; try (by eexists). rewrite Hf by done. by eexists. Qed.

(** A Cast (or CastLike) that can be described is lowered without failure, and the nodes
    compute the QNN Cast of the input, except: on HTP an unsigned byte is cast to a float through
    a 32-bit integer, whose tensor is new; a float is cast to a boolean as the Cast of the absolute
    value of its sign on HTP, and as the comparison with a zero of its type elsewhere. *)
Theorem cast_decompositions m :
  (∀ s, s ∈ ["_signabs_sign"; "_signabs_abs"; "_notequal_zero"] → constant m (base +:+ s) = None) →
  runs (let! names := Cast_ProcessInputs env graph u false in Cast_ProcessAttributesAndOutputs env qnn u names false)
    (fun _ m' => computes m m' (name o) (fun V sem lit ρ => cast_value sem lit (ρ (name inp)))) m.
Proof.
  intros Hm. apply runs_bind. apply cast_inputs_run; [apply Hm; by right; right; left|]. intros m1 Ho1 Hi1 Hz.
  destruct Hnames as (Hni & Hno & Hne), Hranks as [Hir Hor]. unfold Cast_ProcessAttributesAndOutputs. rewrite Hout. do 7 run_step.
  eapply runs_lift; [by apply shape_or_ok|]. destruct cast_output_type_ok as [dt Edt]. do 4 run_step. run_step.
  eapply runs_lift; [apply uint8_to_float_ok|].
  match goal with Ha : adds_constant (name o) _ m1 ?m2 |- _ => pose proof (adds_itself _ _ _ _ Ha) as Ho2;
    assert (constant m2 (name inp) ≠ None) as Hi2 by (rewrite (proj1 Ha) by done; done) end.
  assert (∀ s, s ∈ ["_signabs_sign"; "_signabs_abs"; "_notequal_zero"] → name inp ≠ base +:+ s) as Hsi by (intros; by apply Hsep).
  assert (∀ s, s ∈ ["_signabs_sign"; "_signabs_abs"; "_notequal_zero"] → name o ≠ base +:+ s) as Hso by (intros; by apply Hsep).
  unfold cast_value. destruct uint8_to_float eqn:Eu.
  - assert (cast_inputs = [name inp]) as ->.
    { unfold cast_inputs. unfold uint8_to_float in Eu. apply andb_prop in Eu as [_ ->]. by rewrite andb_false_r. }
    run_step. run_step. unfold EmitUInt8ToFloatViaInt32Decomposition. run_step. run_step. run_step.
    eapply runs_lift; [by apply shape_or_ok|]. run_step. eexists _, _. split; [reflexivity|]. cbv beta.
    destruct (free_name_found m' (base +:+ "_u8tof_int32")) as (n & En & Hn & Hnn); [by apply string_app_ne|]. run_step. eapply runs_lift; [exact En|].
    assert (∀ k, constant m' k ≠ None → k ≠ n) as Hfresh by (intros k Hk ->; apply Hk; unfold constant; by rewrite Hn).
    pose proof (Hfresh _ Ho2). pose proof (Hfresh _ Hi2). run_auto. new_nodes. eval_nodes.
  - run_step. eapply runs_lift; [apply fp_to_bool_ok|]. destruct fp_to_bool eqn:Ef.
    + unfold UseSignAbsCastForHtp. fold htp. destruct htp eqn:Eh.
      * unfold cast_inputs. rewrite Ef, Eh. cbn [andb negb]. run_step. run_step. unfold EmitSignAbsCastDecomposition. run_step. run_step. run_step. run_step. run_step.
        eapply runs_lift; [by apply shape_or_ok|]. pose proof (Hso "_signabs_sign" ltac:(by left)). pose proof (Hso "_signabs_abs" ltac:(by right; left)).
        pose proof (Hsi "_signabs_sign" ltac:(by left)). pose proof (Hsi "_signabs_abs" ltac:(by right; left)).
        run_auto. new_nodes. eval_nodes.
      * unfold cast_inputs. rewrite Ef, Eh. cbn [andb negb]. run_auto. new_nodes. specialize (Hz eq_refl). intros V sem lit ρ Hlit.
        unfold eval. cbn [foldl app]. rewrite eval_written. cbn [fmap list_fmap]. do 3 f_equal. apply Hlit; [|unfold zero_decl; cbn [d_bytes]; by destruct (bool_decide (idt = QNN_FLOAT_16))].
        trace_constant. exact Hz.
    + unfold cast_inputs. rewrite Ef. cbn [andb]. run_auto. new_nodes. eval_nodes.
Qed.
End Casts.

(** ** Examples *)

Definition sum_unit : UnitView :=
  View "n" "Sum" 0 13 "" [float_io "a"; float_io "b"; float_io "c"] [float_io "y"] example_attributes [] [] false.

Ltac literal_names := repeat match goal with
  | Hx : _ ∈ _ :: _ |- _ => apply elem_of_cons in Hx as [->|Hx]
  | Hx : _ ∈ [] |- _ => by apply not_elem_of_nil in Hx
  end.

Lemma variadic_chain_witness :
  runs (H0 := counting_qnn) (ProcessVariadicToBinaryChain (H := exact_safe_int) (H0 := counting_qnn) (example_env false) (example_graph ONNX_FLOAT)
      example_headers sum_unit ["a"; "b"; "c"] "add" false)
    (fun _ m' => computes (H := counting_qnn) empty_model m' "y" (fun V sem lit ρ =>
       chain_value example_headers sum_unit "add" ["a"; "b"; "c"] sem ρ)) empty_model.
Proof.
  eapply runs_mono; [apply (variadic_chain (H := exact_safe_int) (H0 := counting_qnn) (example_env false) (example_graph ONNX_FLOAT) example_headers
    example_body sum_unit (float_io "y") float_info "add" ["a"; "b"; "c"] [[2; 3]; [2; 3]; [2; 3]] [2; 3] empty_model)|].
  all: try reflexivity.
  - apply float_info_describable.
  - done.
  - cbn. lia.
  - by repeat constructor.
  - repeat constructor; cbn; lia.
  - by intros [].
  - split; [|done]. intros x t Hx. literal_names; (split; intros E; by vm_compute in E).
  - intros x y Hx Hy. literal_names; by vm_compute.
  - intros x Hx. literal_names; by vm_compute.
  - intros [] m' Hc. exact Hc.
Defined.

Definition l2_unit : UnitView := View "n" "ReduceL2" 0 13 "" [float_io "x"] [float_io "y"] example_attributes [] [] false.

Lemma reduction_decompositions_witness :
  runs (H0 := counting_qnn) (Reduce_L2 (H := exact_safe_int) (H0 := counting_qnn) (example_env false) (example_graph ONNX_FLOAT)
      example_headers l2_unit ["x"] ["axes"; "keep_dims"] false) (fun _ _ => True) empty_model ∧
  runs (H0 := counting_qnn) (Reduce_LogSumExp (H := exact_safe_int) (H0 := counting_qnn) (example_env false) example_headers
      l2_unit [1] "axes" false ["x"] false) (fun _ _ => True) empty_model.
Proof.
  destruct (reduction_decompositions (H := exact_safe_int) (H0 := counting_qnn) (example_env false) (example_graph ONNX_FLOAT) example_headers
    example_body eq_refl l2_unit (float_io "x") (float_io "y") [2; 3] [2; 3] QNN_FLOAT_32 "x") with
    (ps := ["axes"; "keep_dims"]) (final_dt := QNN_FLOAT_32) (q := default_wrapper) (axes := [1]) (p := "axes") (kept := [2; 1])
    (keepdims := false) (m := empty_model) as [H1 H2]; try reflexivity; try done.
  split; (eapply runs_mono; [eassumption|done]).
Defined.

Definition bool_io : OrtNodeUnitIODef := IODef "y" ONNX_BOOL (Some [2; 3]) None.
Definition cast_unit : UnitView := View "n" "Cast" 0 13 "" [float_io "x"] [bool_io] example_attributes [] [] false.

Lemma cast_decompositions_witness :
  runs (H0 := counting_qnn) (let! names := Cast_ProcessInputs (H0 := counting_qnn) (example_env false) (example_graph ONNX_FLOAT) cast_unit false in
      Cast_ProcessAttributesAndOutputs (H := exact_safe_int) (H0 := counting_qnn) (example_env false) example_headers cast_unit names false)
    (fun _ m' => computes (H := counting_qnn) empty_model m' "y" (fun V sem lit ρ =>
       cast_value (example_env false) example_headers QNN_FLOAT_32 QNN_BOOL_8 (macro example_headers "QNN_OP_CAST") sem lit (ρ "x"))) empty_model.
Proof.
  apply (cast_decompositions (H := exact_safe_int) (H0 := counting_qnn) (example_env false) (example_graph ONNX_FLOAT) example_headers
    example_body eq_refl cast_unit (float_io "x") bool_io QNN_FLOAT_32 QNN_BOOL_8 [2; 3] [2; 3] []); try reflexivity; try done.
  all: first [by left | intros s Hs; literal_names; by vm_compute].
Defined.
