(* ===== verification/MatMulLowering.v ===== *)
(** * What a lowered MatMul computes

    The builder of MatMul, run on a floating-point MatMul with a constant matrix, succeeds; the
    FullyConnected it emits, with the weight it stores and the Reshapes around it, gives every element
    of the product.  Tensors are read as the list of their elements in row-major order; [qnn_run]
    interprets the nodes, and stops at a node that the declared types and shapes of its tensors do not
    fit.  The last part shows two units for which the lowering goes wrong. *)

From S2P Require Import Prelude SubByte DataTypes Floats QuantParams Perm Transpose QnnTensor Quantize OpParams ModelWrapper NodeGroups QdqSelector NodeUnitDefs TensorInfo ModelOps OpBuilder Builders Convert MoveBuilders Bias MatMulBuilders Decompositions.
Local Open Scope Z_scope.

(** ** Products *)

Fixpoint sum_upto (n : nat) (f : nat → Z) : Z := match n with O => 0 | S n => sum_upto n f + f n end.

(** Element [i] of [a] ([_, K]) times [b] ([K, N]), and of [a] times the transpose of [w] ([N, K]). *)
Definition matmul (K N : nat) (a b : nat → Z) (i : nat) : Z :=
  sum_upto K (fun k => a ((i / N) * K + k)%nat * b (k * N + i mod N)%nat).
Definition fully_connected (K N : nat) (a w : nat → Z) (i : nat) : Z :=
  sum_upto K (fun k => a ((i / N) * K + k)%nat * w ((i mod N) * K + k)%nat).

Lemma sum_upto_ext n f g : (∀ k, (k < n)%nat → f k = g k) → sum_upto n f = sum_upto n g.
Proof. induction n as [|n IH]; intros He; [done|]. cbn. rewrite IH by (intros; apply He; lia). rewrite He by lia. done. Qed.

(** ** Nodes as QNN runs them

    The types and shapes that the tensors are declared with. *)
Definition declared `{QnnInterface} (m : QnnModelWrapper) (n : string) : option (Qnn_DataType_t * list Z) :=
  match constant m n with Some (Decl (Ok dt) s _ _) => Some (dt, s) | _ => None end.

Definition store (ρ : string → nat → Z) (n : string) (v : nat → Z) : string → nat → Z :=
  fun k => if bool_decide (k = n) then v else ρ k.

(** A Reshape keeps the type and the number of elements; a FullyConnected takes an input [b, k] and a
    weight [n, k] to an output [b, n]. *)
Definition qnn_step (qnn : QnnHeaders) (shape : string → option (Qnn_DataType_t * list Z)) (ρ : string → nat → Z) (op : QnnOpProperty)
  : option (string → nat → Z) :=
  match input_names_ op, output_names_ op, param_tensor_names_ op with
  | [i], [o], [] =>
      match shape i, shape o with
      | Some (t, s), Some (t', s') =>
          if bool_decide (qnn_node_type_ op = macro qnn "QNN_OP_RESHAPE") && bool_decide (t = t') && (prodZ s =? prodZ s')
          then Some (store ρ o (ρ i)) else None
      | _, _ => None
      end
  | [a; w], [o], [] =>
      match shape a, shape w, shape o with
      | Some (QNN_FLOAT_32, [b; k]), Some (QNN_FLOAT_32, [n; k']), Some (QNN_FLOAT_32, [b'; n']) =>
          if bool_decide (qnn_node_type_ op = macro qnn "QNN_OP_FULLY_CONNECTED") && (k =? k') && (b =? b') && (n =? n')
          then Some (store ρ o (fully_connected (Z.to_nat k) (Z.to_nat n) (ρ a) (ρ w))) else None
      | _, _, _ => None
      end
  | _, _, _ => None
  end.

Fixpoint qnn_run (qnn : QnnHeaders) (shape : string → option (Qnn_DataType_t * list Z)) (ops : list QnnOpProperty) (ρ : string → nat → Z)
  : option (string → nat → Z) :=
  match ops with [] => Some ρ | op :: ops => ρ' ← qnn_step qnn shape ρ op; qnn_run qnn shape ops ρ' end.

(** A constant: element [i] is what [val] makes of its bytes. *)
Definition elems (val : list Z → Z) (es : nat) (bytes : list Z) (i : nat) : Z := val (element es bytes i).

Lemma element_eq es (l l' : list Z) i j : (∀ b, (b < es)%nat → l !! (i * es + b)%nat = l' !! (j * es + b)%nat) →
  element es l i = element es l' j.
Proof.
  intros He. unfold element. apply list_eq. intros b. destruct (decide (b < es)%nat).
  - rewrite !lookup_take_lt, !lookup_drop by done. by apply He.
  - rewrite !lookup_take_ge by lia. done.
Qed.

Lemma fc_is_matmul val K N es (raw w : list Z) a i : (0 < N)%nat →
  (∀ r c b, (r < K)%nat → (c < N)%nat → (b < es)%nat → w !! ((c * K + r) * es + b)%nat = raw !! ((r * N + c) * es + b)%nat) →
  fully_connected K N a (elems val es w) i = matmul K N a (elems val es raw) i.
Proof.
  intros HN Hw. apply sum_upto_ext. intros k Hk. f_equal. unfold elems. f_equal. apply element_eq.
  intros b Hb. apply Hw; [done|apply Nat.mod_upper_bound; lia|done].
Qed.

Lemma flatten_leading lead d : Forall (Z.lt 0) lead → prodZ lead < 2 ^ 32 → FlattenLeadingDims (lead ++ [d]) 1 = Ok (prodZ lead).
Proof.
  intros Hp Hlt. unfold FlattenLeadingDims. rewrite length_app. cbn [length].
  rewrite (proj2 (Nat.ltb_ge _ _)) by lia. cbn [return_if rbind].
  replace (length lead + 1 - 1)%nat with (length lead) by lia. rewrite take_app_length.
  assert (∀ l acc, Forall (Z.lt 0) l → 0 < acc → acc * prodZ l < 2 ^ 63 →
    foldM (fun b d => if b * d <? 2 ^ 63 then Ok (b * d) else Err Trap) l acc = Ok (acc * prodZ l)) as Hfold.
  { induction l as [|x l IH]; intros acc Hl Ha Hb; [by cbn; rewrite Z.mul_1_r|]. apply Forall_cons in Hl as [Hx Hl].
    pose proof (prodZ_pos _ Hl). cbn [prodZ foldr] in Hb. fold (prodZ l) in Hb. cbn [foldM].
    assert (0 < acc * x) by nia. assert (acc * x * 1 ≤ acc * x * prodZ l) by (apply Z.mul_le_mono_nonneg_l; lia).
    rewrite Z.mul_assoc in Hb. rewrite (proj2 (Z.ltb_lt _ _)) by lia. cbn [rbind]. rewrite IH by done. f_equal. change (prodZ (x :: l)) with (x * prodZ l). by rewrite Z.mul_assoc. }
  pose proof (prodZ_pos _ Hp). rewrite Hfold by (done || lia). rewrite Z.mul_1_l. cbn [rbind].
  rewrite (proj2 (Z.leb_gt _ _)), (proj2 (Z.ltb_ge _ _)) by lia. done.
Qed.

(** ** Runs that track the table of tensors *)

Section Table.
Context `{SafeInt} `{QnnInterface}.
Context (env : environment).
Context (ib : tensor_body) (Hinit : body_of (tensor_init env) = Ok ib).

Definition is_tensor (w : QnnTensorWrapper) (dt : Qnn_DataType_t) (q : QnnQuantParamsWrapper) (s d : list Z) : Prop :=
  GetTensorDataType w = Ok dt ∧ params_ (quant_params_ w) = params_ q ∧ client_buf_ w = d ∧ dimensions_ w = s.

(** [n] is in the table with this type and shape. *)
Definition declares (m : QnnModelWrapper) (n : string) (dt : Qnn_DataType_t) (s : list Z) : Prop :=
  ∃ e, model_tensors_map_ m !! n = Some e ∧ GetTensorDataType e = Ok dt ∧ dimensions_ e = s.

Lemma declares_declared m n dt s : declares m n dt s → declared m n = Some (dt, s).
Proof using Type. intros (e & He & Ht & Hs). unfold declared, constant. rewrite He. cbn. unfold decl_of. by rewrite Ht, Hs. Qed.

Lemma is_declared m n e dt q s d : model_tensors_map_ m !! n = Some e → is_tensor e dt q s d → declares m n dt s.
Proof using Type. intros He (Ht & _ & _ & Hs). by exists e. Qed.

(** The tensors of [m] are those of [m'] too. *)
Definition keeps_tensors (m m' : QnnModelWrapper) : Prop :=
  ∀ k e, model_tensors_map_ m !! k = Some e → model_tensors_map_ m' !! k = Some e.

Lemma declares_kept m m' n dt s : keeps_tensors m m' → declares m n dt s → declares m' n dt s.
Proof using Type. intros Hk (e & He & ?). exists e. auto. Qed.

(** [m'] has the tensors of [m] and perhaps [n]. *)
Definition extends (n : string) (m m' : QnnModelWrapper) : Prop :=
  (∀ k w, model_tensors_map_ m !! k = Some w → model_tensors_map_ m' !! k = Some w) ∧
  (∀ k, k ≠ n → model_tensors_map_ m !! k = None → model_tensors_map_ m' !! k = None).

Lemma add_made n ty dt q s d w : make_tensor (tensor_init env) (narrow_nan env) n ty dt q s d TENSORMEMTYPE_RAW = Ok w →
  n ≠ "" → wf q → Z.of_nat (length s) < 2 ^ 32 → wide dt = false → ∀ m,
  ∃ m', AddTensorWrapper env m w = Ok (true, m') ∧ qnn_op_property_list_ m' = qnn_op_property_list_ m ∧ extends n m m' ∧
    (model_tensors_map_ m !! n = None → ∃ w', model_tensors_map_ m' !! n = Some w' ∧ is_tensor w' dt q s d).
Proof using Hinit.
  intros Emk Hn Hq Hs Hd m.
  destruct (make_tensor_spec (tensor_init env) (narrow_nan env) ib Hinit n ty dt q s d TENSORMEMTYPE_RAW Hq Hs)
    as (w0 & b & Ew & Hdesc & En & Eo & Es & Eq & Ec & B & _ & Et & _).
  rewrite Ew in Emk. injection Emk as ->.
  assert (narrowed (narrow_nan env) ty dt d = (dt, d)) as Hnar by (by destruct dt). rewrite Hnar in *.
  unfold AddTensorWrapper. rewrite En, bool_decide_false by done. unfold IsQnnTensorWrapperExist. case_bool_decide as Hx.
  { exists m. split_and!; [done..| |].
    - split; auto.
    - intros Hnone. rewrite Hnone in Hx. by destruct Hx. }
  assert (model_tensors_map_ m !! n = None) as Hnone by (destruct (model_tensors_map_ m !! n); [by destruct Hx|done]).
  unfold SetTensorMemTypeFromSettings. open_setters. pose proof B as B0. set_field.
  match goal with |- context [move_construct _ ?w1] => destruct (move_spec (default_tensor_wrapper (tensor_init env)) w1)
    as (w' & Em & _ & _ & _ & Es' & Ec' & Eq') end.
  - destruct Hdesc as (b' & B' & Hn' & Hdim & Hqp & Hbuf). rewrite B in B'. injection B' as <-.
    eexists. split_and!; [eassumption|done..|]; cbn; done.
  - cbn. by rewrite Es.
  - unfold move_construct. rewrite Em. cbn [rbind]. eexists. split_and!; [done|done| |].
    + split; intros k; cbn; [intros w2 Hk|intros Hk Hk'].
      * rewrite lookup_insert_ne; [done|]. intros ->. by rewrite Hnone in Hk.
      * by rewrite lookup_insert_ne.
    + intros _. exists w'. split; [cbn; by rewrite lookup_insert_eq|]. split_and!.
      * apply swap_type in Em. rewrite Em. unfold GetTensorDataType, GetQnnTensorDataType. cbn.
        match goal with B1 : body_of _ = Ok (set_memType _ _) |- _ => rewrite B1 | B1 : body_of t = Ok _ |- _ => rewrite B1 end.
        cbn. by rewrite Et.
      * rewrite Eq'. cbn. done.
      * rewrite Ec'. cbn. done.
      * rewrite Es'. cbn. done.
Qed.

Lemma runs_add n ty dt q s d msg Q m : n ≠ "" → wf q → Z.of_nat (length s) < 2 ^ 32 → wide dt = false →
  (∀ m', qnn_op_property_list_ m' = qnn_op_property_list_ m → extends n m m' →
    (model_tensors_map_ m !! n = None → ∃ w', model_tensors_map_ m' !! n = Some w' ∧ is_tensor w' dt q s d) → Q tt m') →
  runs (add_tensor env n ty dt q s d msg) Q m.
Proof using Hinit.
  intros Hn Hq Hs Hd HQ.
  destruct (make_tensor_spec (tensor_init env) (narrow_nan env) ib Hinit n ty dt q s d TENSORMEMTYPE_RAW Hq Hs) as (w & b & Ew & _).
  destruct (add_made n ty dt q s d w Ew Hn Hq Hs Hd m) as (m' & Ea & Ho & He & Hnew).
  exists m', tt. split; [|by apply HQ]. unfold add_tensor, new_tensor, bind, lift, add_wrapper, require. rewrite Ew, Ea. done.
Qed.

Lemma runs_name base suffix Q m :
  (∀ t m', qnn_op_property_list_ m' = qnn_op_property_list_ m → model_tensors_map_ m' = model_tensors_map_ m →
    Q (base +:+ suffix +:+ t) m') → runs (fresh base suffix) Q m.
Proof using Type.
  intros HQ. unfold runs, fresh. destruct (New_form (name_counters m) base suffix) as (t & c & ->). eexists _, _. split; [done|]. by apply HQ.
Qed.

Lemma runs_unit_name u suffix Q m :
  (∀ n m', qnn_op_property_list_ m' = qnn_op_property_list_ m → model_tensors_map_ m' = model_tensors_map_ m → Q n m') →
  runs (fresh_unit u suffix) Q m.
Proof using Type.
  intros HQ. unfold runs, fresh_unit, New_unit. destruct (New_form (name_counters m)
    (NodeUnitBaseName (u_name u) (u_op_type u) (N.of_nat (u_index u))) suffix) as (t & c & ->). eexists _, _. split; [done|]. by apply HQ.
Qed.

Lemma runs_node n op ins outs ps msg Q m :
  (∀ x m', qnn_op_property_list_ m' = qnn_op_property_list_ m ++ [OpProperty x (QNN_OP_PACKAGE_NAME_QTI_AISW env) op ins outs ps] →
    model_tensors_map_ m' = model_tensors_map_ m → Q tt m') → runs (create_node env n op ins outs ps false msg) Q m.
Proof using Type.
  intros HQ. unfold runs, create_node, require, CreateQnnNode.
  destruct (make_unique_spec m n) as (x & Ex & _). rewrite Ex. cbn. eexists _, _. split; [done|]. by apply (HQ x).
Qed.

Lemma runs_tensor_of n w Q m : model_tensors_map_ m !! n = Some w → Q w m → runs (tensor_of n) Q m.
Proof using Type.
  intros Hw HQ. exists m, w. split; [|done]. unfold tensor_of, bind, get, GetQnnTensorWrapper, lift. by rewrite Hw.
Qed.

Lemma runs_data_type_of n w dt Q m : model_tensors_map_ m !! n = Some w → GetTensorDataType w = Ok dt → Q dt m → runs (data_type_of n) Q m.
Proof using Type.
  intros Hw Hdt HQ. unfold data_type_of. apply runs_bind. eapply runs_tensor_of; [done|]. by eapply runs_lift.
Qed.

(** A Reshape of float data: the input may be in the table, the output is a float tensor if it is new. *)
Lemma runs_reshape qnn i o s s' bi bo Q m : i ≠ "" → o ≠ "" → i ≠ o → Z.of_nat (length s) < 2 ^ 32 → Z.of_nat (length s') < 2 ^ 32 →
  (∀ x m', qnn_op_property_list_ m' = qnn_op_property_list_ m ++
       [OpProperty x (QNN_OP_PACKAGE_NAME_QTI_AISW env) (macro qnn "QNN_OP_RESHAPE") [i] [o] []] →
     (∀ k w, model_tensors_map_ m !! k = Some w → model_tensors_map_ m' !! k = Some w) →
     (∀ k, k ≠ i → k ≠ o → model_tensors_map_ m !! k = None → model_tensors_map_ m' !! k = None) →
     (model_tensors_map_ m !! o = None → declares m' o QNN_FLOAT_32 s') →
     (model_tensors_map_ m !! i = None → declares m' i QNN_FLOAT_32 s) → Q tt m') →
  runs (AddReshapeNode env qnn i o s s' QNN_FLOAT_32 default_wrapper default_wrapper false bi bo) Q m.
Proof using Hinit.
  intros Hi Ho Hio Hs Hs' HQ. unfold AddReshapeNode. apply runs_bind. eapply runs_lift; [done|]. apply runs_bind.
  apply runs_add; [done|apply default_wf|done|done|]. intros m1 E1 [Hk1 Hn1] Hnew1. apply runs_bind. eapply runs_lift; [done|]. apply runs_bind.
  apply runs_add; [done|apply default_wf|done|done|]. intros m2 E2 [Hk2 Hn2] Hnew. apply runs_bind. apply runs_name. intros t m3 E3 T3.
  apply runs_node. intros x m4 E4 T4. apply (HQ x).
  - by rewrite E4, E3, E2, E1.
  - intros k w Hk. rewrite T4, T3. auto.
  - intros k ? ? Hk. rewrite T4, T3. auto.
  - intros Hnone. destruct Hnew as (e & He & Ht); [by apply Hn1|]. eapply is_declared; [by rewrite T4, T3|done].
  - intros Hnone. destruct (Hnew1 Hnone) as (e & He & Ht). eapply is_declared; [rewrite T4, T3; by apply Hk2|done].
Qed.

(** Names of float tensors are not cast. *)
Lemma runs_int64_float u names m :
  (∀ n, n ∈ names → n ≠ "" ∧ ∃ e, model_tensors_map_ m !! n = Some e ∧ GetTensorDataType e = Ok QNN_FLOAT_32) →
  runs (ProcessInt64Tensors env u names) (fun r m' => r = names ∧ m' = m) m.
Proof using Type.
  intros Hn. unfold ProcessInt64Tensors. apply (runs_each (fun _ r m' => r = names ∧ m' = m)); [|done].
  intros _ r k m' [-> ->] Hk. apply elem_of_seq in Hk. destruct (lookup_lt_is_Some_2 names k) as [n En]; [lia|].
  destruct (Hn n) as (Hne & e & He & Ht); [by eapply list_elem_of_lookup_2|].
  exists m, names. split; [|done]. unfold int64_step, bind, lift, aget. rewrite En. rewrite bool_decide_false by done.
  unfold get, GetQnnTensorWrapper. rewrite He. rewrite Ht. by rewrite bool_decide_false.
Qed.

(** A node on float tensors, of which the second is not quantized. *)
Lemma runs_float_op qnn nn op n0 n1 e1 ps on ty s Q m : model_tensors_map_ m !! n1 = Some e1 → IsQuantized (quant_params_ e1) = false →
  on ≠ "" → Z.of_nat (length s) < 2 ^ 32 →
  (∀ x m', qnn_op_property_list_ m' = qnn_op_property_list_ m ++ [OpProperty x (QNN_OP_PACKAGE_NAME_QTI_AISW env) op [n0; n1] [on] ps] →
     extends on m m' → (model_tensors_map_ m !! on = None → declares m' on QNN_FLOAT_32 s) → Q tt m') →
  runs (AddOpWithQuantizedOutput env qnn nn op [n0; n1] ps on ty QNN_FLOAT_32 default_wrapper s QNN_FLOAT_32 false) Q m.
Proof using Hinit.
  intros He1 Hq1 Hon Hs HQ. unfold AddOpWithQuantizedOutput. apply runs_bind. eapply (runs_mono _ (fun r m' => r = false ∧ m' = m)).
  { unfold is_float_act_quant_weight. destruct (_ && _); [|by apply runs_ret]. apply runs_bind. eapply runs_lift; [reflexivity|].
    apply runs_bind. eapply runs_tensor_of; [done|]. by apply runs_ret. }
  intros r m' [-> ->]. apply runs_bind. apply runs_ret. apply runs_bind.
  assert (IsNarrowingQuantOutput QNN_FLOAT_32 QNN_FLOAT_32 = false) as -> by reflexivity. apply runs_ret. apply runs_bind.
  apply runs_add; [done|apply default_wf|done|done|]. intros m4 E4 Hext4 Hnew4. apply runs_bind.
  apply runs_node. intros x m5 E5 T5. rewrite bool_decide_true by done. apply runs_ret. apply (HQ x); [by rewrite E5, E4| |].
  - destruct Hext4 as [Hk4 Hn4]. split; intros k; rewrite T5; auto.
  - intros Hnone. destruct (Hnew4 Hnone) as (e & He & Ht). eapply is_declared; [by rewrite T5|done].
Qed.

End Table.

(** ** A floating-point MatMul with a constant matrix *)

Section FloatMatMul.
Context `{SafeInt} `{QnnInterface}.
Context (env : environment) (graph : OrtGraph) (qnn : QnnHeaders).
Context (ib : tensor_body) (Hinit : body_of (tensor_init env) = Ok ib).
Context (u : UnitView) (x w o : OrtNodeUnitIODef) (init oinit : option ValueInfo) (ob : bool).
Context (lead : list Z) (K N es : nat) (t : ONNXTensorElementDataType) (raw : list Z).

Local Abbreviation x_info := (Info (lead ++ [Z.of_nat K]) QNN_FLOAT_32 default_wrapper false None).
Local Abbreviation w_info := (Info [Z.of_nat K; Z.of_nat N] QNN_FLOAT_32 default_wrapper true init).
Local Abbreviation o_info := (Info (lead ++ [Z.of_nat N]) QNN_FLOAT_32 default_wrapper ob oinit).

(** A unit [o = MatMul (x, w)] with [x] of shape [lead ++ [K]] and the constant [w] of shape
    [[K; N]], whose bytes are [raw]. *)
Record float_matmul : Prop := {
  fm_x : aget (Inputs u) 0 = Ok x; fm_w : aget (Inputs u) 1 = Ok w; fm_o : aget (Outputs u) 0 = Ok o;
  fm_xi : GetTensorInfo env graph x = Ok x_info; fm_wi : GetTensorInfo env graph w = Ok w_info; fm_oi : GetTensorInfo env graph o = Ok o_info;
  fm_quant : quant_param w = None;
  fm_native : use_native_matmul (model_settings_ env) = false; fm_sdk : old_sdk qnn = false;
  fm_lead : lead ≠ []; fm_pos : Forall (Z.lt 0) lead; fm_prod : prodZ lead < 2 ^ 32; fm_rank : Z.of_nat (length lead) + 1 < 2 ^ 32;
  fm_K : (0 < K)%nat; fm_N : (0 < N)%nat;
  fm_type : elem_type_of graph init = Ok t; fm_size : GetElementSizeByType_onnx t = Ok (Z.of_nat es); fm_es : (0 < es)%nat;
  fm_raw : UnpackInitializerData graph init true = Ok raw; fm_bytes : length raw = (K * N * es)%nat; fm_fits : Z.of_nat (K * N * es) < 2 ^ 64;
  fm_xn : name x ≠ ""; fm_on : name o ≠ ""
}.

(** The names that the builder makes and that of the output are free and distinct, and a tensor [x]
    that is there is declared as the input. *)
Local Abbreviation x_reshape s := (name x +:+ "_reshape" +:+ s).
Local Abbreviation w_transpose s := (name w +:+ "_transpose" +:+ s).
Local Abbreviation o_reshape s := (name o +:+ "_reshape" +:+ s).
Record names_free (m : QnnModelWrapper) : Prop := {
  nf_x : ∀ s, model_tensors_map_ m !! x_reshape s = None;
  nf_w : ∀ s, model_tensors_map_ m !! w_transpose s = None;
  nf_o : model_tensors_map_ m !! name o = None ∧ ∀ s, model_tensors_map_ m !! o_reshape s = None;
  nf_wx : ∀ s, w_transpose s ≠ name x;
  nf_wr : ∀ s s', w_transpose s ≠ x_reshape s';
  nf_out : name o ≠ name x ∧ ∀ s, name o ≠ x_reshape s ∧ name o ≠ w_transpose s;
  nf_or : ∀ s, o_reshape s ≠ name x ∧ ∀ s', o_reshape s ≠ x_reshape s' ∧ o_reshape s ≠ w_transpose s';
  nf_float : ∀ e, model_tensors_map_ m !! name x = Some e → GetTensorDataType e = Ok QNN_FLOAT_32 ∧ dimensions_ e = lead ++ [Z.of_nat K]
}.

Hypothesis Hfm : float_matmul.

Lemma plan_fc : MatMul_CheckInputs env graph qnn x w = Ok (Plan x_info w_info true false).
Proof using Hfm.
  unfold MatMul_CheckInputs. rewrite (fm_xi Hfm), (fm_wi Hfm). cbn [rbind]. rewrite (fm_native Hfm), (fm_sdk Hfm).
  cbn [info_quant_param info_shape info_is_initializer info_data_type]. by rewrite !andb_false_r.
Qed.

Lemma not_bq : IsBQWeight env w = Ok false.
Proof using Hfm. unfold IsBQWeight. rewrite (fm_quant Hfm). by destruct (negb _). Qed.

(** The transposed weight. *)
Lemma weight_stored : ∃ W, TwoDimensionTranspose_init graph [Z.of_nat K; Z.of_nat N] init false = Ok (W, [Z.of_nat N; Z.of_nat K]) ∧ W ≠ [] ∧
  ∀ r c b, (r < K)%nat → (c < N)%nat → (b < es)%nat → W !! ((c * K + r) * es + b)%nat = raw !! ((r * N + c) * es + b)%nat.
Proof using Hfm.
  pose proof (fm_es Hfm). pose proof (fm_fits Hfm). pose proof (fm_bytes Hfm). pose proof (fm_K Hfm). pose proof (fm_N Hfm).
  destruct (TwoDimensionTranspose_spec K N es raw (replicate (length raw) 0)) as (W & E & Hl & HW); [done|done|done|by rewrite length_replicate|].
  exists W. unfold TwoDimensionTranspose_init. rewrite (fm_type Hfm). cbn [rbind]. rewrite (fm_size Hfm). cbn [rbind].
  rewrite (proj2 (Z.eqb_neq _ _)) by lia. cbn [negb return_if_not rbind]. rewrite (fm_raw Hfm). cbn [rbind]. rewrite !Nat2Z.id, E. cbn [rbind].
  split_and!; [done| |done]. intros ->. cbn in Hl. nia.
Qed.

Local Abbreviation wide_x := (2 <? length (lead ++ [Z.of_nat K]))%nat.

(** After [ProcessInputs]: the first name is [x] or the Reshape of it, the second is the stored weight. *)
Definition is_reshape (i o : string) (op : QnnOpProperty) : Prop :=
  ∃ n, op = OpProperty n (QNN_OP_PACKAGE_NAME_QTI_AISW env) (macro qnn "QNN_OP_RESHAPE") [i] [o] [].

(** Names that are still free for the output. *)
Definition output_free (m : QnnModelWrapper) : Prop := model_tensors_map_ m !! name o = None ∧ ∀ s, model_tensors_map_ m !! o_reshape s = None.

Record inputs_ready (W : list Z) (m m' : QnnModelWrapper) (n0 n1 : string) : Prop := {
  ir_x : declares m' (name x) QNN_FLOAT_32 (lead ++ [Z.of_nat K]);
  ir_n0 : declares m' n0 QNN_FLOAT_32 [prodZ lead; Z.of_nat K];
  ir_n1 : ∃ e, model_tensors_map_ m' !! n1 = Some e ∧ is_tensor e QNN_FLOAT_32 default_wrapper [Z.of_nat N; Z.of_nat K] W;
  ir_free : output_free m';
  ir_ops : ∃ pre, qnn_op_property_list_ m' = qnn_op_property_list_ m ++ pre ∧
    (pre = [] ∧ n0 = name x ∨ ∃ op, pre = [op] ∧ is_reshape (name x) n0 op);
  ir_names : n0 ≠ "" ∧ n1 ≠ "" ∧ n1 ≠ n0 ∧ name o ≠ n0 ∧ name o ≠ n1 ∧ ∀ s, o_reshape s ≠ n0 ∧ o_reshape s ≠ n1
}.

Lemma prodZ_snoc l d : prodZ (l ++ [d]) = prodZ l * d.
Proof using Type. induction l as [|y l IH]; cbn; [lia|]. fold (prodZ (l ++ [d])) (prodZ l). rewrite IH. lia. Qed.

(** An input of rank 2 has its own shape. *)
Lemma rank_two d : wide_x = false → lead ++ [d] = [prodZ lead; d].
Proof using Hfm.
  intros Hw. apply Nat.ltb_ge in Hw. rewrite length_app in Hw. cbn in Hw. pose proof (fm_lead Hfm).
  destruct lead as [|l [|]]; [done| |cbn in Hw; lia]. cbn. by rewrite Z.mul_1_r.
Qed.

Lemma rank_not_one : (length (lead ++ [Z.of_nat K]) =? 1)%nat = false.
Proof using Hfm. apply Nat.eqb_neq. rewrite length_app. pose proof (fm_lead Hfm). destruct lead; [done|cbn; lia]. Qed.

(** The first input, reshaped when its rank is above 2. *)
Lemma input0_runs m : names_free m →
  runs (MatMul_ProcessInput0 env graph qnn x_info (name x) [] false true None) (fun names m' => ∃ n0, names = [n0] ∧
    (n0 = name x ∨ ∃ s, n0 = x_reshape s) ∧
    declares m' (name x) QNN_FLOAT_32 (lead ++ [Z.of_nat K]) ∧ declares m' n0 QNN_FLOAT_32 [prodZ lead; Z.of_nat K] ∧
    (∀ s, model_tensors_map_ m' !! w_transpose s = None) ∧ output_free m' ∧
    ∃ pre, qnn_op_property_list_ m' = qnn_op_property_list_ m ++ pre ∧
      (pre = [] ∧ n0 = name x ∨ ∃ op, pre = [op] ∧ is_reshape (name x) n0 op)) m.
Proof using Hfm Hinit.
  intros Hf. pose proof (fm_xn Hfm). pose proof (fm_rank Hfm). pose proof rank_not_one as Hr1. pose proof (nf_o _ Hf) as Hof.
  destruct (nf_out _ Hf) as [Hox Hos]. pose proof (nf_or _ Hf) as Hor.
  unfold MatMul_ProcessInput0. apply runs_bind. eapply runs_lift; [done|]. cbn [info_shape]. rewrite Hr1. cbn [orb andb bool_decide].
  rewrite bool_decide_false by (by intros []). cbn [orb].
  destruct wide_x eqn:Ew.
  - apply runs_bind. apply runs_name. intros s m1 E1 T1. apply runs_bind.
    eapply runs_lift; [unfold input_0_target; rewrite Hr1, flatten_leading by apply Hfm; cbn [rbind]; rewrite last_snoc; reflexivity|].
    apply runs_bind. eapply runs_lift; [reflexivity|]. apply runs_bind. eapply runs_lift; [reflexivity|]. apply runs_bind.
    unfold reshape_input. cbn [info_is_initializer info_shape info_data_type info_quant_param].
    eapply (runs_reshape env ib Hinit); [done|by apply string_app_ne| | | |].
    + intros Ex. apply (f_equal String.length) in Ex. rewrite !string_app_length in Ex. cbn [String.length] in Ex. lia.
    + rewrite length_app. cbn. lia.
    + cbn. lia.
    + intros n m2 E2 Hk Hn Hnew Hnewx. apply runs_ret. exists (x_reshape s). split_and!; [done|right; by eexists| | | | |].
      * destruct (model_tensors_map_ m !! name x) as [e|] eqn:Ex; [|apply Hnewx; by rewrite T1].
        destruct (nf_float _ Hf e Ex). exists e. split; [apply Hk; by rewrite T1|done].
      * apply Hnew. rewrite T1. apply (nf_x _ Hf).
      * intros s'. apply Hn; [apply (nf_wx _ Hf)|apply (nf_wr _ Hf)|rewrite T1; apply (nf_w _ Hf)].
      * split; [apply Hn; [done|apply Hos|rewrite T1; apply Hof]|]. intros s'. apply Hn; [apply Hor|apply Hor|rewrite T1; apply Hof].
      * eexists. rewrite E2, E1. split; [done|]. right. eexists. split; [done|]. by eexists.
  - pose proof (rank_two (Z.of_nat K) Ew) as Hsh. apply runs_bind. unfold add_if_new. apply runs_bind. eexists _, _. split; [reflexivity|].
    unfold IsQnnTensorWrapperExist. case_bool_decide as Hx.
    + apply runs_ret. apply runs_ret. exists (name x). destruct (model_tensors_map_ m !! name x) as [e|] eqn:Ex; [|by destruct Hx].
      assert (declares m (name x) QNN_FLOAT_32 (lead ++ [Z.of_nat K])) as Hdx by (exists e; split; [done|by apply (nf_float _ Hf)]).
      split_and!; [done|by left|done|by rewrite <- Hsh|apply (nf_w _ Hf)|done|]. exists []. split; [by rewrite app_nil_r|by left].
    + destruct (make_tensor_spec (tensor_init env) (narrow_nan env) ib Hinit (name x) (TensorTypeOf env (name x)) QNN_FLOAT_32 default_wrapper
        (lead ++ [Z.of_nat K]) [] TENSORMEMTYPE_RAW default_wf) as (e & b & Ee & _); [rewrite length_app; cbn; lia|].
      apply runs_bind. eapply runs_lift; [unfold MakeTensorWrapper_info; cbn [unpacked_initializer info_is_initializer info_quant_param info_shape info_data_type rbind]; exact Ee|].
      destruct (add_made env ib Hinit _ _ _ _ _ _ _ Ee) with (m := m) as (m' & Ea & Eo & [Hk Hn] & Hnew);
        [done|apply default_wf|rewrite length_app; cbn; lia|done|].
      unfold add_wrapper. eexists m', tt. split; [unfold require; by rewrite Ea|]. apply runs_ret. exists (name x).
      destruct Hnew as (e' & He' & Ht'); [destruct (model_tensors_map_ m !! name x); [by destruct Hx|done]|].
      pose proof (is_declared _ _ _ _ _ _ _ He' Ht') as Hdx.
      split_and!; [done|by left|done|by rewrite <- Hsh| | |].
      * intros s. apply Hn; [apply (nf_wx _ Hf)|apply (nf_w _ Hf)].
      * split; [apply Hn; [done|apply Hof]|]. intros s. apply Hn; [apply Hor|apply Hof].
      * exists []. split; [by rewrite app_nil_r, Eo|by left].
Qed.

Lemma inputs_run W m : names_free m →
  TwoDimensionTranspose_init graph [Z.of_nat K; Z.of_nat N] init false = Ok (W, [Z.of_nat N; Z.of_nat K]) →
  runs (MatMul_ProcessInputs env graph qnn u false) (fun names m' => ∃ n0 n1, names = [n0; n1] ∧ inputs_ready W m m' n0 n1) m.
Proof using Hfm Hinit.
  intros Hf HW. unfold MatMul_ProcessInputs. apply runs_bind. eapply runs_lift; [apply Hfm|]. apply runs_bind. eapply runs_lift; [apply Hfm|].
  apply runs_bind. eapply runs_lift; [apply plan_fc|]. apply runs_bind. eapply runs_lift; [apply not_bq|].
  cbn [andb use_conv2d use_fully_connected]. unfold ProcessInputsForQnnFullyConnected.
  apply runs_bind. eapply runs_lift; [apply Hfm|]. apply runs_bind. eapply runs_mono; [by apply input0_runs|].
  intros names m1 (n0 & -> & Hn0 & Hdx & Hd0 & Hw1 & Hof & pre & Epre & Hpre).
  apply runs_bind. eapply runs_lift; [apply Hfm|]. apply runs_bind. eapply runs_lift; [done|]. cbn [info_shape].
  apply runs_bind. apply runs_bind. apply runs_name. intros s m2 E2 T2. do 3 (apply runs_bind; eapply runs_lift; [reflexivity|]). apply runs_ret.
  apply runs_bind. cbn [info_is_initializer]. apply runs_bind.
  eapply runs_lift; [cbn [info_initializer info_shape]; rewrite HW; reflexivity|].
  apply (runs_add env ib Hinit); [by apply string_app_ne|apply default_wf|cbn; lia|done|]. intros m3 E3 [Hk3 Hn3] Hnew.
  destruct Hnew as (e1 & He1 & Ht1); [rewrite T2; apply Hw1|]. apply runs_bind. eapply runs_tensor_of; [done|].
  apply runs_bind. eapply runs_lift; [apply Ht1|]. cbn [bool_decide]. rewrite bool_decide_false by done. rewrite andb_false_r.
  apply runs_ret. set (n1 := w_transpose s) in *. exists n0, n1. split; [done|].
  assert (keeps_tensors m1 m3) as Hkeep by (intros k e; rewrite <- T2; apply Hk3).
  destruct (nf_out _ Hf) as [Hox Hos]. pose proof (nf_or _ Hf) as Hor. split.
  - by eapply declares_kept.
  - by eapply declares_kept.
  - by exists e1.
  - split; [apply Hn3; [apply Hos|rewrite T2; apply Hof]|]. intros s'. apply Hn3; [apply Hor|rewrite T2; apply Hof].
  - exists pre. split; [by rewrite E3, E2|done].
  - destruct Hn0 as [->|[s' ->]]; (split_and!; [apply Hfm || by apply string_app_ne|by apply string_app_ne|apply (nf_wx _ Hf) || apply (nf_wr _ Hf)|
      done || apply Hos|apply Hos|intros s0; split; apply Hor]).
Qed.

Lemma int64_runs W m m' n0 n1 : inputs_ready W m m' n0 n1 →
  runs (ProcessInt64Tensors env u [n0; n1]) (fun names m'' => names = [n0; n1] ∧ m'' = m') m'.
Proof using Type.
  intros [_ (e0 & He0 & Ht0 & _) (e1 & He1 & Ht1 & _) _ _ (Hn0 & Hn1 & _)]. apply runs_int64_float.
  intros n [->| ->%list_elem_of_singleton]%elem_of_cons; eauto.
Qed.

(** The FullyConnected node, which writes [on]. *)
Definition is_fc (n0 n1 on : string) (op : QnnOpProperty) : Prop :=
  ∃ n, op = OpProperty n (QNN_OP_PACKAGE_NAME_QTI_AISW env) (macro qnn "QNN_OP_FULLY_CONNECTED") [n0; n1] [on] [].

Lemma node_runs W m m1 n0 n1 on s (m2 : QnnModelWrapper) ty (Q : unit → QnnModelWrapper → Prop) : inputs_ready W m m1 n0 n1 →
  on ≠ "" → Z.of_nat (length s) < 2 ^ 32 →
  qnn_op_property_list_ m2 = qnn_op_property_list_ m1 → model_tensors_map_ m2 = model_tensors_map_ m1 → model_tensors_map_ m1 !! on = None →
  (∀ op m', qnn_op_property_list_ m' = qnn_op_property_list_ m1 ++ [op] → is_fc n0 n1 on op → extends on m1 m' → declares m' on QNN_FLOAT_32 s → Q tt m') →
  runs (matmul_node env qnn u (macro qnn "QNN_OP_FULLY_CONNECTED") [n0; n1] [] on ty o_info s default_wrapper false) Q m2.
Proof using Hinit.
  intros [_ (e0 & He0 & Ht0 & _) (e1 & He1 & Ht1 & Hq1 & Hd1) _ _ _] Hon Hs E2 T2 Hnone HQ. unfold matmul_node. apply runs_bind.
  eapply (runs_mono _ (fun r m' => r = [n0; n1] ∧ m' = m2)).
  { destruct (IsNpuBackend _); [|by apply runs_ret]. unfold ConvertActivationToOutputPrecision. apply runs_bind. eapply runs_lift; [reflexivity|].
    apply runs_bind. eapply runs_tensor_of; [by rewrite T2|]. apply runs_bind. eapply runs_lift; [done|]. by apply runs_ret. }
  intros r m' [-> ->]. apply runs_bind. eapply runs_lift; [reflexivity|]. apply runs_bind.
  eapply runs_data_type_of; [by rewrite T2|done|]. apply runs_bind. apply runs_unit_name. intros nn m3 E3 T3. apply runs_bind.
  eapply runs_lift; [reflexivity|]. eapply (runs_float_op env ib Hinit); [by rewrite T3, T2|unfold IsQuantized, defined; by rewrite Hq1|done|done|].
  intros n m4 E4 [K4 N4] D4. eapply HQ; [by rewrite E4, E3, E2|by exists n| |apply D4; by rewrite T3, T2].
  rewrite T3, T2 in K4, N4. by split.
Qed.

(** In a later model the second name still has the stored weight. *)
Lemma weight_value W m m1 n0 n1 (m' : QnnModelWrapper) (lit : decl → nat → Z) ρ : inputs_ready W m m1 n0 n1 → W ≠ [] →
  keeps_tensors m1 m' → valuation lit m' ρ → ∃ d, d_bytes d = W ∧ ρ n1 = lit d.
Proof using Type.
  intros [_ _ (e1 & He1 & _ & _ & Hd1 & _) _ _ _] HW Hk Hv. exists (decl_of e1). split; [done|]. apply Hv; [|unfold decl_of; cbn; by rewrite Hd1].
  unfold constant. by rewrite (Hk _ _ He1).
Qed.

(** The nodes run: Reshape of the input (or none), FullyConnected, Reshape of the result (or none). *)
Lemma store_eq ρ n v : store ρ n v n = v.
Proof using Type. unfold store. by rewrite bool_decide_true. Qed.
Lemma store_ne ρ n v k : k ≠ n → store ρ n v k = ρ k.
Proof using Type. intros. unfold store. by rewrite bool_decide_false. Qed.

Lemma reshape_step shape ρ i on op dt s s' : is_reshape i on op → shape i = Some (dt, s) → shape on = Some (dt, s') → prodZ s = prodZ s' →
  qnn_step qnn shape ρ op = Some (store ρ on (ρ i)).
Proof using Type. intros [n ->] Hi Ho Hp. unfold qnn_step. cbn. by rewrite Hi, Ho, !bool_decide_true, Hp, Z.eqb_refl by done. Qed.

Lemma fc_step shape ρ a w' on op b k n : is_fc a w' on op → shape a = Some (QNN_FLOAT_32, [b; k]) → shape w' = Some (QNN_FLOAT_32, [n; k]) →
  shape on = Some (QNN_FLOAT_32, [b; n]) →
  qnn_step qnn shape ρ op = Some (store ρ on (fully_connected (Z.to_nat k) (Z.to_nat n) (ρ a) (ρ w'))).
Proof using Type. intros [m ->] Ha Hw Ho. unfold qnn_step. cbn. by rewrite Ha, Hw, Ho, bool_decide_true, !Z.eqb_refl by done. Qed.

(** The Reshape before the node leaves the input under the first name. *)
Lemma pre_runs W m m1 n0 n1 (m' : QnnModelWrapper) pre ρ : inputs_ready W m m1 n0 n1 → keeps_tensors m1 m' →
  (pre = [] ∧ n0 = name x ∨ ∃ op, pre = [op] ∧ is_reshape (name x) n0 op) →
  ∀ post, ∃ ρ1, qnn_run qnn (declared m') (pre ++ post) ρ = qnn_run qnn (declared m') post ρ1 ∧ ρ1 n0 = ρ (name x) ∧ ρ1 n1 = ρ n1.
Proof using Type.
  intros Hr Hk Hpre post. destruct (ir_names _ _ _ _ _ Hr) as (_ & _ & Hne & _). destruct Hpre as [[-> ->]|(op & -> & Hop)]; [by exists ρ|].
  exists (store ρ n0 (ρ (name x))). split_and!; [|apply store_eq|by apply store_ne]. cbn [app qnn_run].
  rewrite (reshape_step _ _ _ _ _ QNN_FLOAT_32 (lead ++ [Z.of_nat K]) [prodZ lead; Z.of_nat K] Hop); [done| | |].
  - eapply declares_declared, declares_kept; [done|apply Hr].
  - eapply declares_declared, declares_kept; [done|apply Hr].
  - rewrite prodZ_snoc. cbn. lia.
Qed.

(** What the nodes compute, given the bytes [W] of the weight. *)
Definition gives_fc (W : list Z) (m m' : QnnModelWrapper) : Prop :=
  declared m' (name o) = Some (QNN_FLOAT_32, lead ++ [Z.of_nat N]) ∧
  ∃ new, qnn_op_property_list_ m' = qnn_op_property_list_ m ++ new ∧
    ∀ (lit : list Z → nat → Z) ρ, valuation (fun d => lit (d_bytes d)) m' ρ →
      ∃ ρ', qnn_run qnn (declared m') new ρ = Some ρ' ∧ ρ' (name o) = fully_connected K N (ρ (name x)) (lit W).

Lemma outputs_run W m m1 n0 n1 : inputs_ready W m m1 n0 n1 → W ≠ [] →
  runs (MatMul_ProcessAttributesAndOutputs env graph qnn u [n0; n1] false) (fun _ m' => gives_fc W m m') m1.
Proof using Hfm Hinit.
  intros Hready HW. pose proof (ir_ops _ _ _ _ _ Hready) as (pre & Epre & Hpre). destruct (ir_free _ _ _ _ _ Hready) as [Ho1 Hor1].
  destruct (ir_names _ _ _ _ _ Hready) as (_ & _ & _ & Ho0 & Ho1' & Hor). pose proof (fm_rank Hfm) as Hrank. pose proof (fm_on Hfm) as Hon.
  assert (Z.of_nat (length (lead ++ [Z.of_nat N])) < 2 ^ 32) as Hlen by (rewrite length_app; cbn; lia). pose proof rank_not_one as Hr1.
  assert (∀ m', keeps_tensors m1 m' → declared m' n0 = Some (QNN_FLOAT_32, [prodZ lead; Z.of_nat K]) ∧
    declared m' n1 = Some (QNN_FLOAT_32, [Z.of_nat N; Z.of_nat K])) as Hdecl.
  { intros m' Hk. destruct (ir_n1 _ _ _ _ _ Hready) as (e1 & He1 & Ht1).
    split; eapply declares_declared, declares_kept; [done|apply Hready|done|by eapply is_declared]. }
  unfold MatMul_ProcessAttributesAndOutputs. apply runs_bind. eapply runs_lift; [apply Hfm|]. apply runs_bind. eapply runs_lift; [apply Hfm|].
  apply runs_bind. eapply runs_lift; [apply plan_fc|]. apply runs_bind. eapply runs_lift; [apply not_bq|].
  cbn [andb use_conv2d use_fully_connected info_0 info_1 info_shape negb length]. rewrite Hr1. cbn [orb Nat.eqb].
  apply runs_bind. eapply runs_lift; [apply Hfm|]. apply runs_bind. eapply runs_lift; [apply Hfm|]. rewrite orb_false_r.
  destruct wide_x eqn:Ew.
  - apply runs_bind. apply runs_name. intros s m2 E2 T2. apply runs_bind.
    eapply runs_lift; [unfold matmul_output; cbn [info_shape info_quant_param]; rewrite Ew; cbn [andb length Nat.eqb last rbind];
      rewrite flatten_leading by apply Hfm; reflexivity|].
    cbn beta iota. apply runs_bind. apply runs_bind. eexists _, _. split; [reflexivity|]. apply runs_ret. apply runs_bind. apply runs_ret.
    assert (o_reshape s ≠ name o) as Hsep.
    { intros Ex. apply (f_equal String.length) in Ex. rewrite !string_app_length in Ex. cbn [String.length] in Ex. lia. }
    apply runs_bind. apply (node_runs W m m1); [done|by apply string_app_ne|cbn; lia|done|done|apply Hor1|]. intros op m3 E3 Hop [Hk3 Hn3] D3.
    cbn [info_shape info_data_type info_quant_param].
    eapply (runs_reshape env ib Hinit); [by apply string_app_ne|done|done|cbn; lia|done|].
    intros n' m4 E4 Hk4 _ Dnew _. assert (keeps_tensors m1 m4) as Hk14 by (intros k e Hke; by apply Hk4, Hk3).
    assert (declared m4 (name o) = Some (QNN_FLOAT_32, lead ++ [Z.of_nat N])) as Do by (apply declares_declared, Dnew, Hn3; [by apply not_eq_sym|done]).
    assert (declared m4 (o_reshape s) = Some (QNN_FLOAT_32, [prodZ lead; Z.of_nat N])) as Dor by (eapply declares_declared, declares_kept; [exact Hk4|done]).
    destruct (Hdecl m4 Hk14) as [D0 D1]. split; [done|]. eexists. split; [rewrite E4, E3, Epre, <- !app_assoc; reflexivity|].
    intros lit ρ Hv. destruct (pre_runs W m m1 n0 n1 m4 pre ρ Hready Hk14 Hpre [op; OpProperty n' (QNN_OP_PACKAGE_NAME_QTI_AISW env) (macro qnn "QNN_OP_RESHAPE") [o_reshape s] [name o] []])
      as (ρ1 & Erun & R0 & R1). destruct (weight_value W m m1 n0 n1 m4 _ ρ Hready HW Hk14 Hv) as (d & <- & Hw).
    eexists. split; [cbn [app]; rewrite Erun; cbn [qnn_run]; rewrite (fc_step _ _ _ _ _ _ _ _ _ Hop D0 D1 Dor); cbn [mbind option_bind];
      erewrite reshape_step; [reflexivity|by eexists|exact Dor|exact Do|rewrite prodZ_snoc; cbn; lia]|].
    rewrite store_eq, store_eq, !Nat2Z.id, R0, R1, Hw. done.
  - pose proof (rank_two (Z.of_nat N) Ew) as Hsh. apply runs_bind. apply runs_ret. apply runs_bind. eapply runs_lift; [reflexivity|]. cbn beta iota. apply runs_bind. apply runs_bind.
    eexists _, _. split; [reflexivity|]. apply runs_ret. apply runs_bind. apply runs_ret. apply runs_bind.
    apply (node_runs W m m1); [done|done|done|done|done|done|]. intros op m3 E3 Hop [Hk3 Hn3] D3. apply runs_ret.
    destruct (Hdecl m3 Hk3) as [D0 D1]. pose proof (declares_declared _ _ _ _ D3) as Do. split; [done|].
    eexists. split; [rewrite E3, Epre, <- !app_assoc; reflexivity|]. intros lit ρ Hv.
    destruct (pre_runs W m m1 n0 n1 m3 pre ρ Hready Hk3 Hpre [op]) as (ρ1 & Erun & R0 & R1).
    destruct (weight_value W m m1 n0 n1 m3 _ ρ Hready HW Hk3 Hv) as (d & <- & Hw).
    eexists. split; [cbn [app]; rewrite Erun; cbn [qnn_run]; erewrite fc_step; [reflexivity|exact Hop|exact D0|exact D1|]|].
    + by rewrite Do, <- Hsh.
    + rewrite store_eq, !Nat2Z.id, R0, R1, Hw. done.
Qed.

(** C10: the builder of MatMul succeeds on a MatMul of [float] tensors, of which the second is a
    constant matrix, for an input of any rank from 2 on, when native MatMuls are off, the SDK has no
    restriction on FullyConnected, and the names that it makes and that of the output are new.  The
    output is declared with the shape of ONNX, the types and shapes that the builder declares fit every
    node that it adds (a weight [n, k], an input [b, k] and an output [b, n] for FullyConnected, as many
    elements on both sides of a Reshape), and running the nodes gives every element of the output the
    value of the ONNX MatMul of the input and the bytes of the constant, however elements are read
    from bytes. *)
Theorem matmul_lowering m : names_free m →
  runs (AddToModelBuilder env (MatMulOpBuilder env graph qnn) u false) (fun _ m' =>
    declared m' (name o) = Some (QNN_FLOAT_32, lead ++ [Z.of_nat N]) ∧
    ∃ new, qnn_op_property_list_ m' = qnn_op_property_list_ m ++ new ∧
      ∀ (val : list Z → Z) ρ, valuation (fun d => elems val es (d_bytes d)) m' ρ →
        ∃ ρ', qnn_run qnn (declared m') new ρ = Some ρ' ∧
          ∀ i, ρ' (name o) i = matmul K N (ρ (name x)) (elems val es raw) i) m.
Proof using Hfm Hinit.
  intros Hf. destruct weight_stored as (W & EW & HWne & HW). unfold AddToModelBuilder. apply runs_bind.
  eapply runs_mono; [by apply (inputs_run W)|]. intros names m1 (n0 & n1 & -> & Hr). apply runs_bind.
  eapply runs_mono; [by apply (int64_runs W m m1)|]. intros names m2 [-> ->].
  eapply runs_mono; [by apply (outputs_run W m m1)|]. intros [] m' (Do & new & En & Hv). split; [done|]. exists new. split; [done|].
  intros val ρ Hval. destruct (Hv (elems val es) ρ Hval) as (ρ' & Erun & Hres). exists ρ'. split; [done|].
  intros i. rewrite Hres. by apply fc_is_matmul; [apply Hfm|].
Qed.
End FloatMatMul.

(** ** Examples *)

Module GemmExample.

(** The matrix of 1, 2, 3 and 4 as floats. *)
Definition matrix : list Z := mjoin (f32_bytes example_headers <$> (f32_of_Z <$> [1; 2; 3; 4])).
Definition transposed : list Z := mjoin (f32_bytes example_headers <$> (f32_of_Z <$> [1; 3; 2; 4])).
Definition w_value : ValueInfo := Value "w" (Some [2; 2]) None [] false.
Definition env (native : bool) : environment :=
  Env (Settings true false false true native false) HTP ["x"] ["y"] (fun n => bool_decide (n = "w")) (TENSOR_V1 example_body)
    (OpConfig 1 None None None [] [] [] 0 0 0) id "qti.aisw" "Cast".
Definition graph : OrtGraph :=
  Graph (fun _ => Some ONNX_FLOAT) (fun _ => Ok matrix) (fun _ => Err (EpFail "not found"))
    (fun n => if bool_decide (n = "w") then Some w_value else None) (fun _ => []).
Definition io (n : string) (s : list Z) : OrtNodeUnitIODef := IODef n ONNX_FLOAT (Some s) None.
Definition unit_of (op out : string) (trans_b : Z) (x_shape y_shape : list Z) (reshaped : bool) : UnitView :=
  View out op 0 13 "" [io "x" x_shape; io "w" [2; 2]] [io out y_shape]
    (Attributes (fun a => if bool_decide (a = "transB") then Some trans_b else None) (fun _ => None) (fun _ => None) (fun _ => None) (fun _ => None))
    [] [] reshaped.

Definition gemm (native : bool) (u : UnitView) : M (H := counting_qnn) unit :=
  AddToModelBuilder (H := exact_safe_int) (H0 := counting_qnn) (env native) (GemmOpBuilder (H := exact_safe_int) (H0 := counting_qnn) (env native) graph example_headers) u false.

Definition nodes (m : QnnModelWrapper (H0 := counting_qnn)) := (fun op => (qnn_node_type_ op, input_names_ op, output_names_ op)) <$> qnn_op_property_list_ m.
Definition shown (r : result (QnnModelWrapper (H0 := counting_qnn) * (string + unit))) :=
  match r with Ok (m, inr _) => Some (nodes m, d_bytes <$> constant m "w") | _ => None end.

(** [MatMul (x, w)] with [x] of shape [3, 2, 2]. *)
Definition matmul_unit : UnitView := unit_of "MatMul" "y" 0 [3; 2; 2] [3; 2; 2] false.

End GemmExample.

Lemma matmul_lowering_witness :
  runs (H0 := counting_qnn) (AddToModelBuilder (H := exact_safe_int) (GemmExample.env false)
      (MatMulOpBuilder (H := exact_safe_int) (GemmExample.env false) GemmExample.graph example_headers) GemmExample.matmul_unit false)
    (fun _ m' => declared (H := counting_qnn) m' "y" = Some (QNN_FLOAT_32, [3; 2; 2]) ∧ ∃ new, qnn_op_property_list_ m' = new ∧
      ∀ (val : list Z → Z) ρ, valuation (H0 := counting_qnn) (fun d => elems val 4 (d_bytes d)) m' ρ →
        ∃ ρ', qnn_run example_headers (declared (H := counting_qnn) m') new ρ = Some ρ' ∧
          ρ' "y" 5%nat = matmul 2 2 (ρ "x") (elems val 4 GemmExample.matrix) 5) empty_model.
Proof.
  eapply runs_mono; [apply (matmul_lowering (H := exact_safe_int) (H0 := counting_qnn) (GemmExample.env false) GemmExample.graph example_headers
    example_body eq_refl GemmExample.matmul_unit (GemmExample.io "x" [3; 2; 2]) (GemmExample.io "w" [2; 2]) (GemmExample.io "y" [3; 2; 2])
    (Some GemmExample.w_value) None false [3; 2] 2 2 4 ONNX_FLOAT GemmExample.matrix)|].
  - constructor; try reflexivity; try done; cbn; try lia. repeat constructor.
  - constructor; try done; repeat (split || intros ?); try done; (let E := fresh in intros E; by vm_compute in E).
  - intros [] m' (Hd & new & E & Hv). split; [exact Hd|]. exists new. split; [exact E|]. intros val ρ Hval.
    destruct (Hv val ρ Hval) as (ρ' & Er & Hi). exists ρ'. split; [exact Er|exact (Hi 5%nat)].
Defined.

(** An 8-bit activation and a 4-bit weight with one block of two rows. *)
Module LpbqExample.
Definition s_value : ValueInfo := Value "s" (Some [1; 2]) None [] false.
Definition xs_value : ValueInfo := Value "xs" (Some []) None [] false.
Definition env : environment := GemmExample.env false.
Definition graph : OrtGraph :=
  Graph (fun n => if bool_decide (n ∈ ["s"; "xs"]) then Some ONNX_FLOAT else Some ONNX_INT4)
    (fun v => match v with
       | Some v => if bool_decide (vi_name v = "w") then Ok [33; 67]
                   else if bool_decide (vi_name v = "s") then Ok (f32_bytes example_headers (f32_of_Z 1) ++ f32_bytes example_headers (f32_of_Z 1))
                   else Ok (f32_bytes example_headers (f32_of_Z 1))
       | None => Err (EpFail "null") end) (fun _ => Err (EpFail "not found"))
    (fun n => if bool_decide (n = "w") then Some GemmExample.w_value else None) (fun _ => []).
Definition act (n : string) : OrtNodeUnitIODef := IODef n ONNX_UINT8 (Some [3; 2]) (Some (QuantParam_ (Some xs_value) None None None)).
Definition weight : OrtNodeUnitIODef := IODef "w" ONNX_INT4 (Some [2; 2]) (Some (QuantParam_ (Some s_value) None (Some 0) (Some 2))).
Definition matmul_unit : UnitView := View "n" "MatMul" 0 13 "" [act "x"; weight] [act "y"] example_attributes [] [] false.
Definition run :=
  AddToModelBuilder (H := exact_safe_int) (H0 := counting_qnn) env (MatMulOpBuilder (H := exact_safe_int) (H0 := counting_qnn) env graph example_headers)
    matmul_unit false empty_model.
End LpbqExample.

(** ** Behaviour that a reader would not expect *)
Module GemmFindings.

(** A constant that Gemm transposes is stored under its own name, so that two Gemms that share it
    read the same data: the second one ([transB = 1]) has the weight of the first ([transB = 0]),
    although it should have the other one. *)
Lemma shared_weight_transposed_once :
  GemmExample.shown ((let! _ := GemmExample.gemm false (GemmExample.unit_of "Gemm" "z" 0 [3; 2] [3; 2] false) in
    GemmExample.gemm false (GemmExample.unit_of "Gemm" "y" 1 [3; 2] [3; 2] false)) empty_model) =
  Some ([("QNN_OP_FULLY_CONNECTED", ["x"; "w"], ["z"]); ("QNN_OP_FULLY_CONNECTED", ["x"; "w"], ["y"])], Some GemmExample.transposed).
Proof. vm_compute. reflexivity. Qed.

(** With [use_native_matmul] the weight is kept as [K, N], but a Gemm whose unit has a Reshape
    becomes a FullyConnected all the same, which expects [N, K]. *)
Lemma reshaped_gemm_keeps_weight :
  GemmExample.shown (GemmExample.gemm true (GemmExample.unit_of "Gemm" "y" 0 [3; 2] [1; 3; 2] true) empty_model) =
  Some ([("QNN_OP_FULLY_CONNECTED", ["x"; "w"], ["y_fc"]); ("QNN_OP_RESHAPE", ["y_fc"], ["y"])], Some GemmExample.matrix).
Proof. vm_compute. reflexivity. Qed.

(** A low power block weight whose activation has 8 bits: the inputs are those of a FullyConnected,
    with the weight transposed, the node is a MatMul. *)
Lemma lpbq_weight_transposed_for_matmul :
  match LpbqExample.run with
  | Ok (m, inr _) => GemmExample.nodes m = [("QNN_OP_MAT_MUL", ["x"; "w_transpose"], ["y"])] ∧ d_bytes <$> constant m "w_transpose" = Some [1; 3; 2; 4]
  | _ => False
  end.
Proof. vm_compute. done. Qed.

End GemmFindings.
