(* ===== verification/ConvLowering.v ===== *)
(** * What a lowered convolution computes

    The builder of Conv, run on a floating-point two-dimensional convolution with a constant weight,
    succeeds; the Conv2d or DepthWiseConv2d node that it emits, run with the declared shapes, the
    parameters and the weight that are in the tables, gives every element of the ONNX convolution.
    Tensors are read as the list of their elements in row-major order.  The last part shows units for
    which the lowering goes wrong. *)

From S2P Require Import Prelude SubByte DataTypes Floats QuantParams Perm Transpose QnnTensor Quantize OpParams ModelWrapper NodeGroups QdqSelector NodeUnitDefs TensorInfo ModelOps OpBuilder Builders Convert MoveBuilders SimpleBuilders Bias MatMulBuilders Decompositions ConvBuilders MatMulLowering.
Local Open Scope Z_scope.

(** ** Convolutions *)

Record window := Window {
  w_stride : Z * Z;
  w_dilation : Z * Z;
  w_pad : Z * Z;  (** above and to the left *)
  w_pad_end : Z * Z;  (** below and to the right *)
  w_group : Z
}.

(** The sizes: [H x W] inputs of [IC] channels, [KH x KW] windows, [OH x OW] outputs of [OC]
    channels, [CG] channels in a group of inputs. *)
Record sizes := Sizes { H_ : nat; W_ : nat; IC : nat; KH : nat; KW : nat; CG : nat; OC : nat; OH : nat; OW : nat }.

Definition channel_of (z : sizes) (g : Z) (oc c : nat) : nat := (oc / (OC z / Z.to_nat g) * CG z + c)%nat.

(** The element at row [h] and column [w], zero in the padding. *)
Definition padded (z : sizes) (x : nat → Z) (n : nat) (h w : Z) (c : nat) : Z :=
  if (0 <=? h) && (h <? Z.of_nat (H_ z)) && (0 <=? w) && (w <? Z.of_nat (W_ z))
  then x (((n * H_ z + Z.to_nat h) * W_ z + Z.to_nat w) * IC z + c)%nat else 0.

(** Element [i] of the output, for a weight whose elements are at [idx kh kw c oc]. *)
Definition conv2d (z : sizes) (idx : nat → nat → nat → nat → nat) (v : window) (x wt : nat → Z) (i : nat) : Z :=
  let oc := (i mod OC z)%nat in
  let ow := ((i / OC z) mod OW z)%nat in
  let oh := ((i / OC z / OW z) mod OH z)%nat in
  let n := (i / OC z / OW z / OH z)%nat in
  sum_upto (KH z) (fun kh => sum_upto (KW z) (fun kw => sum_upto (CG z) (fun c =>
    padded z x n (Z.of_nat oh * (w_stride v).1 + Z.of_nat kh * (w_dilation v).1 - (w_pad v).1)
                 (Z.of_nat ow * (w_stride v).2 + Z.of_nat kw * (w_dilation v).2 - (w_pad v).2) (channel_of z (w_group v) oc c)
    * wt (idx kh kw c oc)))).

(** The weights of ONNX and of QNN. *)
Definition oihw (z : sizes) (kh kw c oc : nat) : nat := (((oc * CG z + c) * KH z + kh) * KW z + kw)%nat.
Definition hwio (z : sizes) (kh kw c oc : nat) : nat := (((kh * KW z + kw) * CG z + c) * OC z + oc)%nat.

Lemma conv2d_layout z v x (val : list Z → Z) es (raw w : list Z) i : (0 < OC z)%nat →
  (∀ kh kw c oc b, (kh < KH z)%nat → (kw < KW z)%nat → (c < CG z)%nat → (oc < OC z)%nat → (b < es)%nat →
    w !! (hwio z kh kw c oc * es + b)%nat = raw !! (oihw z kh kw c oc * es + b)%nat) →
  conv2d z (hwio z) v x (elems val es w) i = conv2d z (oihw z) v x (elems val es raw) i.
Proof.
  intros HOC Hw. unfold conv2d. apply sum_upto_ext. intros kh Hh. apply sum_upto_ext. intros kw Hkw. apply sum_upto_ext. intros c Hc.
  f_equal. unfold elems. f_equal. apply element_eq. intros b Hb. apply Hw; try done. apply Nat.mod_upper_bound. lia.
Qed.

(** ** Parameters in the tables *)

(** The values of a parameter: those of a tensor of 32-bit integers, or a scalar. *)
Definition param_values (p : QnnParamWrapper) : list Z :=
  match p_value (pw_qnn_param_ p) with
  | PARAMTYPE_SCALAR (SCALAR_UINT_32 v) => [v]
  | PARAMTYPE_TENSOR _ => (fun i => le_decode (element 4 (pw_param_data_ p) i)) <$> seq 0 (length (pw_param_data_ p) / 4)
  | _ => []
  end.

(** The parameter called [key] among those of a node. *)
Definition find_param `{QnnInterface} (m : QnnModelWrapper) (ps : list string) (key : string) : option (list Z) :=
  match filter (fun n => Is_true (match model_params_map_ m !! n with Some p => bool_decide (pw_name_ p = key) | None => false end)) ps with
  | n :: _ => param_values <$> model_params_map_ m !! n
  | [] => None
  end.

(** How QNN reads the parameters of a Conv2d; a DepthWiseConv2d has as many groups as channels. *)
Definition read_window `{QnnInterface} (qnn : QnnHeaders) (m : QnnModelWrapper) (depthwise : option Z) (ps : list string) : option window :=
  match find_param m ps (macro qnn "QNN_OP_CONV_2D_PARAM_STRIDE"), find_param m ps (macro qnn "QNN_OP_CONV_2D_PARAM_DILATION"),
        find_param m ps (macro qnn "QNN_OP_CONV_2D_PARAM_PAD_AMOUNT"),
        match depthwise with Some g => Some [g] | None => find_param m ps (macro qnn "QNN_OP_CONV_2D_PARAM_GROUP") end with
  | Some [sh; sw], Some [dh; dw], Some [top; bottom; lft; rght], Some [g] => Some (Window (sh, sw) (dh, dw) (top, lft) (bottom, rght) g)
  | _, _, _, _ => None
  end.

(** The size of the output in one direction. *)
Definition out_size (n k s d p q : Z) : Z := (n + p + q - ((k - 1) * d + 1)) / s + 1.

(** A node as QNN runs it: the input has shape [n, h, w, ic], the weight [kh, kw, ic / group, oc] and the
    output [n, oh, ow, oc], of the sizes that the window gives; anything else is refused. *)
Definition conv_step `{QnnInterface} (qnn : QnnHeaders) (m : QnnModelWrapper) (ρ : string → nat → Z) (op : QnnOpProperty)
  : option (string → nat → Z) :=
  match input_names_ op, output_names_ op with
  | [a; b], [c] =>
      match declared m a, declared m b, declared m c with
      | Some (QNN_FLOAT_32, [n; h; w; ic]), Some (QNN_FLOAT_32, [kh; kw; cg; oc]), Some (QNN_FLOAT_32, [n'; oh; ow; oc']) =>
          let depthwise := if bool_decide (qnn_node_type_ op = macro qnn "QNN_OP_CONV_2D") then Some None
                           else if bool_decide (qnn_node_type_ op = macro qnn "QNN_OP_DEPTH_WISE_CONV_2D") then Some (Some ic) else None in
          match depthwise ≫= fun d => read_window qnn m d (param_tensor_names_ op) with
          | Some v =>
              let '(Window (sh, sw) (dh, dw) (top, lft) (bottom, rght) g) := v in
              if (n =? n') && (oc =? oc') && (cg * g =? ic) && (oh =? out_size h kh sh dh top bottom) && (ow =? out_size w kw sw dw lft rght) then
                let z := Sizes (Z.to_nat h) (Z.to_nat w) (Z.to_nat ic) (Z.to_nat kh) (Z.to_nat kw) (Z.to_nat cg) (Z.to_nat oc) (Z.to_nat oh) (Z.to_nat ow) in
                Some (store ρ c (conv2d z (hwio z) v (ρ a) (ρ b)))
              else None
          | None => None
          end
      | _, _, _ => None
      end
  | _, _ => None
  end.

Fixpoint conv_run `{QnnInterface} (qnn : QnnHeaders) (m : QnnModelWrapper) (ops : list QnnOpProperty) (ρ : string → nat → Z)
  : option (string → nat → Z) :=
  match ops with [] => Some ρ | op :: ops => ρ' ← conv_step qnn m ρ op; conv_run qnn m ops ρ' end.

Section Steps.
Context `{SafeInt} `{QnnInterface}.
Context (env : environment) (graph : OrtGraph) (qnn : QnnHeaders).
Context (ib : tensor_body) (Hinit : body_of (tensor_init env) = Ok ib).

Lemma params_float_op nn op names ps on ty dt q s act : keeps_params (AddOpWithQuantizedOutput env qnn nn op names ps on ty dt q s act false).
Proof using Type.
  unfold AddOpWithQuantizedOutput, is_float_act_quant_weight, cast_fp16_step, tensor_of, add_tensor, AddCastNode. keeps_params;
    try (unfold add_tensor; keeps_params).
Qed.

Lemma runs_float_op_params nn op n0 n1 e1 ps on ty s Q m : model_tensors_map_ m !! n1 = Some e1 → IsQuantized (quant_params_ e1) = false →
  on ≠ "" → Z.of_nat (length s) < 2 ^ 32 →
  (∀ x m', qnn_op_property_list_ m' = qnn_op_property_list_ m ++ [OpProperty x (QNN_OP_PACKAGE_NAME_QTI_AISW env) op [n0; n1] [on] ps] →
     keeps_tensors m m' → (model_tensors_map_ m !! on = None → declares m' on QNN_FLOAT_32 s) → model_params_map_ m' = model_params_map_ m → Q tt m') →
  runs (AddOpWithQuantizedOutput env qnn nn op [n0; n1] ps on ty QNN_FLOAT_32 default_wrapper s QNN_FLOAT_32 false) Q m.
Proof using Hinit.
  intros He1 Hq1 Hon Hs HQ. apply runs_keeping; [apply params_float_op|]. eapply (runs_float_op env ib Hinit); [done..|].
  intros x m' E [Hk _] Hd Hp. by apply (HQ x).
Qed.

(** An input that is a float tensor. *)
Lemma runs_float_input d s Q m : GetTensorInfo env graph d = Ok (Info s QNN_FLOAT_32 default_wrapper false None) → name d ≠ "" →
  Z.of_nat (length s) < 2 ^ 32 →
  (∀ e, model_tensors_map_ m !! name d = Some e → GetTensorDataType e = Ok QNN_FLOAT_32 ∧ dimensions_ e = s) →
  (∀ m', qnn_op_property_list_ m' = qnn_op_property_list_ m → extends (name d) m m' → model_params_map_ m' = model_params_map_ m →
     declares m' (name d) QNN_FLOAT_32 s → Q [name d] m') →
  runs (ProcessInput env graph d []) Q m.
Proof using Hinit.
  intros Hi Hne Hs Hf HQ. apply runs_keeping; [unfold ProcessInput; keeps_params|].
  unfold ProcessInput. apply runs_bind. eexists _, _. split; [reflexivity|]. unfold IsQnnTensorWrapperExist. case_bool_decide as Hx.
  { apply runs_ret. intros _. destruct (model_tensors_map_ m !! name d) as [e|] eqn:Ex; [|by destruct Hx]. apply HQ; [done|by split|done|].
    exists e. auto. }
  destruct (make_tensor_spec (tensor_init env) (narrow_nan env) ib Hinit (name d) (TensorTypeOf env (name d)) QNN_FLOAT_32 default_wrapper
    s [] TENSORMEMTYPE_RAW default_wf) as (e & b & Ee & _); [done|].
  apply runs_bind. eapply runs_lift; [unfold MakeTensorWrapper; rewrite Hi; exact Ee|].
  destruct (add_made env ib Hinit _ _ _ _ _ _ _ Ee) with (m := m) as (m' & Ea & Eo & Hext & Hnew); [done|apply default_wf|done|done|].
  apply runs_bind. unfold add_wrapper. exists m', tt. split; [unfold require; by rewrite Ea|]. apply runs_ret. intros Hp.
  destruct Hnew as (e' & He' & Ht'); [destruct (model_tensors_map_ m !! name d); [by destruct Hx|done]|]. apply HQ; [done|done|done|by eapply is_declared].
Qed.

(** Parameters: [m'] has those of [m] and a new one. *)
Definition adds_param (n key : string) (vals : list Z) (m m' : QnnModelWrapper) : Prop :=
  (∀ k, k ≠ n → model_params_map_ m' !! k = model_params_map_ m !! k) ∧
  (model_params_map_ m !! n = None → ∃ p, model_params_map_ m' !! n = Some p ∧ pw_name_ p = key ∧ param_values p = vals).

Definition u32_values (l : list Z) : Prop := Forall (fun v => 0 ≤ v < 2 ^ 32) l.

Lemma join_values (l : list Z) : u32_values l →
  (fun i => le_decode (element 4 (mjoin (le_encode 4 <$> l)) i)) <$> seq 0 (length (mjoin (le_encode 4 <$> l)) / 4) = l.
Proof using Type.
  intros Hl. assert (length (mjoin (le_encode 4 <$> l)) = (length l * 4)%nat) as Hlen.
  { clear Hl. induction l as [|x l IH]; [done|]. change (length (le_encode 4 x ++ mjoin (le_encode 4 <$> l)) = (S (length l) * 4)%nat).
    rewrite length_app, le_encode_length. lia. }
  rewrite Hlen, Nat.div_mul by done. apply list_eq. intros i. rewrite list_lookup_fmap. destruct (decide (i < length l)%nat) as [Hi|Hi].
  - rewrite lookup_seq_lt by done. destruct (lookup_lt_is_Some_2 l i Hi) as [v Hv]. rewrite Hv.
    change (Some (le_decode (element 4 (mjoin (le_encode 4 <$> l)) i)) = Some v). f_equal. rewrite (element_join 4 _ i (le_encode 4 v)), le_decode_encode.
    + apply Z.mod_small. by apply (proj1 (Forall_lookup _ _) Hl _ _ Hv).
    + intros y (x & -> & _)%list_elem_of_fmap. apply le_encode_length.
    + by rewrite list_lookup_fmap, Hv.
  - rewrite lookup_seq_ge by lia. cbn. symmetry. apply lookup_ge_None_2. lia.
Qed.

Lemma runs_u32_param u key shape data ps Q m : u32_values data →
  (∀ m', qnn_op_property_list_ m' = qnn_op_property_list_ m → model_tensors_map_ m' = model_tensors_map_ m →
     adds_param (param_tensor_name (u_index u) (u_name u) (macro qnn key)) (macro qnn key) data m m' →
     Q (ps ++ [param_tensor_name (u_index u) (u_name u) (macro qnn key)]) m') →
  runs (conv_u32_param env qnn u key shape data ps) Q m.
Proof using Hinit.
  intros Hd HQ. unfold conv_u32_param, add_u32_param. apply runs_bind. unfold make_u32_param, make_tensor_param. open_setters.
  pose proof Hinit as B. repeat set_field. apply runs_bind. eapply runs_lift; [reflexivity|]. apply runs_bind.
  set (n := param_tensor_name (u_index u) (u_name u) (macro qnn key)) in *.
  unfold runs at 1. unfold perform, AddParamWrapper. cbn beta. cbn [pw_tensor_name_]. rewrite bool_decide_false by apply param_name_ne.
  unfold QnnParamExists. case_bool_decide as Hx.
  - exists m, tt. split; [done|]. apply runs_ret, runs_ret. apply HQ; [done|done|]. split; [done|]. intros Hnone. rewrite Hnone in Hx. by destruct Hx.
  - unfold move_param. cbn [pw_qnn_param_ p_value pw_tensor_name_ pw_shape_ pw_param_data_ pw_name_]. open_setters. repeat set_field.
    eexists _, tt. split; [reflexivity|]. apply runs_ret, runs_ret. apply HQ; [done|done|]. split.
    + intros k Hk. cbn. by rewrite lookup_insert_ne.
    + intros _. eexists. cbn. rewrite lookup_insert_eq. split_and!; [done|done|]. unfold param_values. cbn [pw_qnn_param_ p_value pw_param_data_].
      by apply join_values.
Qed.

Definition scalar_values (x : Qnn_Scalar_t) : list Z := match x with SCALAR_UINT_32 v => [v] | _ => [] end.

Lemma add_scalar u key x m : ∃ m', AddParamWrapper m (make_scalar_param (u_index u) (u_name u) key (PARAMTYPE_SCALAR x)) = Ok (true, m') ∧
  qnn_op_property_list_ m' = qnn_op_property_list_ m ∧ model_tensors_map_ m' = model_tensors_map_ m ∧
  adds_param (param_tensor_name (u_index u) (u_name u) key) key (scalar_values x) m m'.
Proof using Type.
  unfold AddParamWrapper. cbn [make_scalar_param pw_tensor_name_]. rewrite bool_decide_false by apply param_name_ne.
  unfold QnnParamExists. case_bool_decide as Hx; cbn; eexists; (split_and!; [done|done|done|]); split.
  - done.
  - intros Hnone. rewrite Hnone in Hx. by destruct Hx.
  - intros k Hk. cbn. by rewrite lookup_insert_ne.
  - intros _. eexists. cbn. rewrite lookup_insert_eq. by split_and!.
Qed.

Lemma runs_scalar u key x ps Q m :
  (∀ m', qnn_op_property_list_ m' = qnn_op_property_list_ m → model_tensors_map_ m' = model_tensors_map_ m →
     adds_param (param_tensor_name (u_index u) (u_name u) key) key (scalar_values x) m m' →
     Q (ps ++ [param_tensor_name (u_index u) (u_name u) key]) m') →
  runs (AddQnnScalar (u_index u) (u_name u) x key ps) Q m ∧ runs (add_scalar_param u x key ps) Q m.
Proof using Type.
  intros HQ. destruct (add_scalar u key x m) as (m' & E & Eo & Et & Ha). unfold AddQnnScalar, add_scalar_param.
  split; apply runs_bind; exists m', tt; (split; [unfold require, perform; by rewrite E|]); apply runs_ret; by apply HQ.
Qed.

(** The parameters of [u] in the table are those listed. *)
Section Listed.
Context (u : UnitView).
Local Abbreviation P := (param_tensor_name (u_index u) (u_name u)).

Definition listed (m : QnnModelWrapper) (kvs : list (string * list Z)) : Prop :=
  Forall (fun kv => ∃ p, model_params_map_ m !! P kv.1 = Some p ∧ pw_name_ p = kv.1 ∧ param_values p = kv.2) kvs ∧
  ∀ k, k ∉ kvs.*1 → model_params_map_ m !! P k = None.

Lemma param_tensor_name_inj k k' : P k = P k' → k = k'.
Proof using Type. unfold param_tensor_name. intros E. by repeat apply string_app_inj in E. Qed.

Lemma listed_add m m' kvs k vals : listed m kvs → k ∉ kvs.*1 → adds_param (P k) k vals m m' → listed m' (kvs ++ [(k, vals)]).
Proof using Type.
  intros [Hl Hf] Hk [Hother Hnew]. split.
  - apply Forall_app. split; [|constructor; [|constructor]; by apply Hnew, Hf]. apply Forall_forall. intros kv Hin.
    rewrite Hother; [by apply (proj1 (Forall_forall _ _) Hl)|]. intros E%param_tensor_name_inj. apply Hk. rewrite <- E. by apply list_elem_of_fmap_2.
  - intros k' Hk'. rewrite fmap_app, not_elem_of_app in Hk'. destruct Hk' as [Hk' Hne]. rewrite Hother; [by apply Hf|].
    intros ->%param_tensor_name_inj. apply Hne. by left.
Qed.

Lemma listed_find m kvs k vals : listed m kvs → NoDup kvs.*1 → (k, vals) ∈ kvs → find_param m (P <$> kvs.*1) k = Some vals.
Proof using Type.
  intros [Hl _]. induction kvs as [|[k0 v0] kvs IH]; intros Hnd Hin; [by apply not_elem_of_nil in Hin|].
  apply Forall_cons in Hl as [(p & Hp & Hn & Hv) Hl]. rewrite fmap_cons in Hnd. apply NoDup_cons in Hnd as [Hk0 Hnd]. cbn [fst snd] in Hp, Hn, Hv, Hk0.
  unfold find_param. rewrite !fmap_cons, filter_cons. case_decide as Hd; cbn [fst] in Hd; rewrite Hp, Hn in Hd.
  - apply Is_true_true, bool_decide_eq_true in Hd. cbn [fst]. rewrite Hp. cbn. f_equal. rewrite Hv.
    apply elem_of_cons in Hin as [[=]|Hin]; [done|]. destruct Hk0. rewrite Hd. by apply (list_elem_of_fmap_2 fst) in Hin.
  - apply IH; [done|done|]. apply elem_of_cons in Hin as [[=]|Hin]; [|done]. destruct Hd. apply Is_true_true, bool_decide_eq_true. done.
Qed.
End Listed.
End Steps.

(** ** A floating-point convolution with a constant weight *)

Definition conv_keys : list string :=
  ["QNN_OP_CONV_2D_PARAM_DILATION"; "QNN_OP_CONV_2D_PARAM_STRIDE"; "QNN_OP_CONV_2D_PARAM_PAD_AMOUNT"; "QNN_OP_CONV_2D_PARAM_GROUP";
   "QNN_OP_CONV_2D_PARAM_REUSE_SPARSE_INDICES"].

Section FloatConv.
Context `{SafeInt} `{QnnInterface}.
Context (env : environment) (graph : OrtGraph) (qnn : QnnHeaders) (htp_arch : Z).
Context (ib : tensor_body) (Hinit : body_of (tensor_init env) = Ok ib).
Context (u : UnitView) (x w o : OrtNodeUnitIODef) (init : option ValueInfo).
Context (z : sizes) (batch es : nat) (t : ONNXTensorElementDataType) (raw : list Z).
Context (v : window).

Local Abbreviation x_shape := (Z.of_nat <$> [batch; H_ z; W_ z; IC z]).
Local Abbreviation w_shape := (Z.of_nat <$> [OC z; CG z; KH z; KW z]).
Local Abbreviation o_shape := (Z.of_nat <$> [batch; OH z; OW z; OC z]).
Local Abbreviation params := (ConvParams_ [Z.of_nat (KH z); Z.of_nat (KW z)] [(w_dilation v).1; (w_dilation v).2] [(w_stride v).1; (w_stride v).2] [0; 0]).
Local Abbreviation pad_values := [(w_pad v).1; (w_pad v).2; (w_pad_end v).1; (w_pad_end v).2].

(** The window that the attributes of an ONNX Conv describe: two strides and two dilations, one by
    default; a number of groups, one by default; the padding in [pads], none by default, or none for
    the [auto_pad] VALID. *)
Definition two_or_one (attr : option (list Z)) (p : Z * Z) : Prop := attr = None ∧ p = (1, 1) ∨ attr = Some [p.1; p.2].
Record onnx_window : Prop := {
  ow_strides : two_or_one (attr_ints (u_attributes u) "strides") (w_stride v);
  ow_dilations : two_or_one (attr_ints (u_attributes u) "dilations") (w_dilation v);
  ow_kernel : attr_ints (u_attributes u) "kernel_shape" = None ∨ attr_ints (u_attributes u) "kernel_shape" = Some [Z.of_nat (KH z); Z.of_nat (KW z)];
  ow_group : attr_int (u_attributes u) "group" = None ∧ w_group v = 1 ∨ attr_int (u_attributes u) "group" = Some (w_group v);
  ow_auto_pad : attr_string (u_attributes u) "auto_pad" ∈ [None; Some "NOTSET"; Some "VALID"];
  ow_pads : attr_ints (u_attributes u) "pads" = None ∧ w_pad v = (0, 0) ∧ w_pad_end v = (0, 0) ∨
    attr_ints (u_attributes u) "pads" = Some [(w_pad v).1; (w_pad v).2; (w_pad_end v).1; (w_pad_end v).2] ∧
    attr_string (u_attributes u) "auto_pad" ≠ Some "VALID";
  ow_range : Forall (fun a => 0 ≤ a < 2 ^ 32) [(w_stride v).1; (w_stride v).2; (w_dilation v).1; (w_dilation v).2;
    (w_pad v).1; (w_pad v).2; (w_pad_end v).1; (w_pad_end v).2; w_group v; Z.of_nat (KH z); Z.of_nat (KW z)]
}.

(** A unit [o = Conv (x, w)], channels last, with the constant [w] whose bytes are [raw], and the
    attributes [v]. *)
Record float_conv : Prop := {
  fc_op : u_op_type u = "Conv"; fc_inputs : Inputs u = [x; w]; fc_o : aget (Outputs u) 0 = Ok o;
  fc_x : GetOnnxShape (shape x) = Ok (Some x_shape) ∧ type x = ONNX_FLOAT ∧ quant_param x = None ∧ IsConstantInput env (name x) = false;
  fc_w : GetOnnxShape (shape w) = Ok (Some w_shape) ∧ type w = ONNX_FLOAT ∧ quant_param w = None ∧ IsConstantInput env (name w) = true ∧
    GetConstantTensor graph (name w) = init;
  fc_out : GetOnnxShape (shape o) = Ok (Some o_shape) ∧ type o = ONNX_FLOAT ∧ quant_param o = None;
  fc_window : onnx_window;
  fc_groups : Z.of_nat (CG z) * w_group v = Z.of_nat (IC z);
  fc_outs : Z.of_nat (OH z) = out_size (Z.of_nat (H_ z)) (Z.of_nat (KH z)) (w_stride v).1 (w_dilation v).1 (w_pad v).1 (w_pad_end v).1 ∧
    Z.of_nat (OW z) = out_size (Z.of_nat (W_ z)) (Z.of_nat (KW z)) (w_stride v).2 (w_dilation v).2 (w_pad v).2 (w_pad_end v).2;
  fc_keys : NoDup (macro qnn <$> conv_keys) ∧ macro qnn "QNN_OP_DEPTH_WISE_CONV_2D" ≠ macro qnn "QNN_OP_CONV_2D";
  fc_sizes : Forall (lt 0)%nat [OC z; CG z; KH z; KW z]; fc_es : (0 < es)%nat;
  fc_init : GetInitializerShape init = w_shape; fc_type : elem_type_of graph init = Ok t;
  fc_size : GetElementSizeByType_onnx t = Ok (Z.of_nat es);
  fc_raw : UnpackInitializerData graph init true = Ok raw; fc_bytes : length raw = (OC z * CG z * KH z * KW z * es)%nat;
  fc_fits : Z.of_nat (length raw) < 2 ^ 64;
  fc_names : name x ≠ "" ∧ name w ≠ "" ∧ name o ≠ "" ∧ name w ≠ name x ∧ name o ≠ name x ∧ name o ≠ name w
}.

(** No tensor is called [w] or [o] and no parameter as those of the unit; a tensor [x] is declared as the
    input. *)
Record conv_free (m : QnnModelWrapper) : Prop := {
  cf_w : model_tensors_map_ m !! name w = None;
  cf_o : model_tensors_map_ m !! name o = None;
  cf_params : ∀ key, model_params_map_ m !! param_tensor_name (u_index u) (u_name u) key = None;
  cf_float : ∀ e, model_tensors_map_ m !! name x = Some e → GetTensorDataType e = Ok QNN_FLOAT_32 ∧ dimensions_ e = x_shape
}.

Hypothesis Hfc : float_conv.

(** The code reads the attributes as ONNX means them. *)
Lemma get_values (a : option (list Z)) def l : a = None ∧ def = l ∨ a = Some l → u32_values l → Get_uint32s a def = Ok l.
Proof using Type.
  intros Ha Hl. destruct Ha as [[-> ->]|E]; [done|]. rewrite E. unfold Get_uint32s. clear E. induction Hl as [|y l Hy _ IH]; [done|].
  cbn. unfold narrow at 1. rewrite (proj2 (Z.leb_le _ _)), (proj2 (Z.leb_le _ _)) by lia. cbn [andb rbind]. by rewrite IH.
Qed.

Lemma two_values (a : option (list Z)) p : two_or_one a p → u32_values [p.1; p.2] → Get_uint32s a [1; 1] = Ok [p.1; p.2].
Proof using Type. intros [[-> ->]|E] Hl; [done|]. apply get_values; auto. Qed.

Lemma ranges : u32_values [(w_dilation v).1; (w_dilation v).2] ∧ u32_values [(w_stride v).1; (w_stride v).2] ∧ u32_values pad_values ∧
  0 ≤ w_group v < 2 ^ 32 ∧ u32_values [Z.of_nat (KH z); Z.of_nat (KW z)].
Proof using Hfc. pose proof (ow_range (fc_window Hfc)) as Hr. unfold u32_values. rewrite !Forall_cons in Hr. destruct_and! Hr.
  split_and!; try done; by repeat constructor. Qed.

Lemma params_of_onnx : conv_params u kConv false w_shape = Ok params.
Proof using Hfc.
  destruct (fc_window Hfc) as [Hs Hd Hk _ _ _ _]. destruct ranges as (Rd & Rs & _ & _ & Rk). unfold conv_params.
  assert (∃ k, Get_uint32s (attr_ints (u_attributes u) "kernel_shape") [] = Ok k ∧
    match k with [] => if (length w_shape <? 2)%nat then Err Trap else Ok (drop 2 w_shape) | _ => Ok k end = Ok [Z.of_nat (KH z); Z.of_nat (KW z)]) as (k & -> & Ek).
  { destruct Hk as [->|Hk]; [by exists []|]. exists [Z.of_nat (KH z); Z.of_nat (KW z)]. split; [by apply get_values; [right|]|done]. }
  cbn [rbind]. rewrite Ek. cbn [rbind length replicate]. rewrite (two_values _ _ Hd Rd), (two_values _ _ Hs Rs). done.
Qed.

Lemma pads_of_onnx : conv_pads u kConv false x_shape o_shape params = Ok pad_values.
Proof using Hfc Hinit.
  destruct (fc_window Hfc) as [_ _ _ _ Ha Hp _]. destruct ranges as (_ & _ & Rp & _). unfold conv_pads. cbn [kernel_shape length replicate Nat.mul Nat.add].
  assert (Get_uint32s (attr_ints (u_attributes u) "pads") [0; 0; 0; 0] = Ok pad_values) as ->.
  { destruct Hp as [(-> & -> & ->)|[Hp _]]; [done|]. apply get_values; auto. }
  cbn [rbind]. unfold conv_auto_pad, Get_string. rewrite !elem_of_cons in Ha. destruct Ha as [E|[E|[E|E%elem_of_nil]]]; [..|done]; rewrite E in Hp |- *; cbn [default];
    rewrite bool_decide_true by (cbn; set_solver); cbn [negb return_if rbind].
  - done.
  - done.
  - destruct Hp as [(_ & -> & ->)|[_ Hp]]; [|done]. by destruct (default [] (attr_ints (u_attributes u) "output_shape")).
Qed.

Lemma group_of_onnx : Get_uint32 (attr_int (u_attributes u) "group") 1 = Ok (w_group v).
Proof using Hfc.
  destruct (fc_window Hfc) as [_ _ _ Hg _ _ _]. destruct ranges as (_ & _ & _ & Rg & _). destruct Hg as [[-> ->]|E]; [done|]. rewrite E.
  unfold Get_uint32, narrow. rewrite (proj2 (Z.leb_le _ _)), (proj2 (Z.leb_le _ _)) by lia. done.
Qed.

Lemma info_of d s : GetOnnxShape (shape d) = Ok (Some s) → type d = ONNX_FLOAT → quant_param d = None →
  GetTensorInfo env graph d = Ok (Info s QNN_FLOAT_32 default_wrapper (IsConstantInput env (name d))
    (if IsConstantInput env (name d) then GetConstantTensor graph (name d) else None)).
Proof using Type.
  intros Hs Ht Hq. unfold GetTensorInfo, Init_io, onnx_shape_of. rewrite Hq, Ht, Hs. cbn [rbind]. by destruct (backend_type env).
Qed.

Lemma shape_of d s msg : GetOnnxShape (shape d) = Ok (Some s) → shape_or d msg = Ok s.
Proof using Type. intros Hs. unfold shape_or. by rewrite Hs. Qed.

(** The weight in the layout of QNN. *)
Lemma weight_hwio : ∃ W, ToHwcn_init graph kConv init false = Ok W ∧ W ≠ [] ∧
  ∀ kh kw c oc b, (kh < KH z)%nat → (kw < KW z)%nat → (c < CG z)%nat → (oc < OC z)%nat → (b < es)%nat →
    W !! (hwio z kh kw c oc * es + b)%nat = raw !! (oihw z kh kw c oc * es + b)%nat.
Proof using Hfc.
  pose proof (fc_es Hfc) as Hes. pose proof (fc_sizes Hfc) as Hpos. pose proof (fc_bytes Hfc) as Hb.
  destruct (conv_weights_to_hwcn (OC z) (CG z) (KH z) (KW z) 1 es raw (replicate (length raw) 0) false) as [(W & s & E & Hl & HW & _) _];
    [done| |done|lia|apply length_replicate|apply Hfc|].
  { repeat (apply Forall_cons in Hpos as [? Hpos]). repeat constructor; lia. }
  exists W. unfold ToHwcn_init. rewrite (fc_type Hfc). cbn [rbind]. rewrite (fc_size Hfc). cbn [rbind]. rewrite (fc_init Hfc), (fc_raw Hfc).
  cbn [rbind]. rewrite Nat2Z.id. split_and!; [exact E| |].
  - intros ->. repeat (apply Forall_cons in Hpos as [? Hpos]). cbn in Hl. rewrite Hb in Hl. symmetry in Hl. revert Hl. clear -H1 H2 H3 H4 Hes.
    rewrite !Nat.eq_mul_0. lia.
  - intros kh kw c oc b Hh Hw Hc Ho Hbb. specialize (HW oc c kh kw 0%nat b Ho Hc Hh Hw ltac:(lia) Hbb).
    unfold pos5 in HW. unfold hwio, oihw. rewrite !Nat.mul_1_r, !Nat.add_0_r in HW. exact HW.
Qed.

Record conv_inputs_ready (W : list Z) (m m' : QnnModelWrapper) : Prop := {
  cr_x : declares m' (name x) QNN_FLOAT_32 x_shape;
  cr_w : ∃ e, model_tensors_map_ m' !! name w = Some e ∧ is_tensor e QNN_FLOAT_32 default_wrapper (Z.of_nat <$> [KH z; KW z; CG z; OC z]) W;
  cr_o : model_tensors_map_ m' !! name o = None;
  cr_ops : qnn_op_property_list_ m' = qnn_op_property_list_ m;
  cr_params : model_params_map_ m' = model_params_map_ m
}.

Lemma conv_inputs_run W m : conv_free m → ToHwcn_init graph kConv init false = Ok W →
  runs (Conv_ProcessInputs env graph qnn htp_arch u false) (fun names m' => names = [name x; name w] ∧ conv_inputs_ready W m m') m.
Proof using Hfc Hinit.
  intros Hf HW. destruct (fc_x Hfc) as (Hxs & Hxt & Hxq & Hxc), (fc_w Hfc) as (Hws & Hwt & Hwq & Hwc & Hwi).
  destruct (fc_out Hfc) as (Hos & Hot & Hoq), (fc_names Hfc) as (Hxn & Hwn & Hon & Hwx & Hox & How). pose proof (info_of x _ Hxs Hxt Hxq) as Hxi. rewrite Hxc in Hxi.
  pose proof (info_of w _ Hws Hwt Hwq) as Hwinfo. rewrite Hwc, Hwi in Hwinfo.
  unfold Conv_ProcessInputs. rewrite (fc_inputs Hfc). apply runs_bind. eapply runs_lift; [done|]. apply runs_bind. eapply runs_lift; [done|].
  apply runs_bind. eapply runs_lift; [by apply shape_of|]. cbn [length fmap list_fmap Nat.eqb orb].
  unfold ProcessConv2D3DInputs. rewrite (fc_inputs Hfc), (fc_op Hfc). apply runs_bind. eapply runs_lift; [done|].
  apply runs_bind. eapply runs_lift; [done|]. apply runs_bind. eapply runs_lift; [done|]. apply runs_bind.
  eapply (runs_float_input env graph ib Hinit); [exact Hxi|done|cbn; lia|apply Hf|]. intros m1 E1 [Hk1 Hn1] P1 (e0 & He0 & Ht0 & Hs0).
  apply runs_bind. eapply runs_lift; [reflexivity|]. apply runs_bind. eapply (runs_mono _ (fun r m' => r = [name x] ∧ m' = m1)).
  { destruct (IsNpuBackend _); [|by apply runs_ret]. apply runs_bind. eapply runs_lift; [apply Hfc|]. apply runs_bind.
    eapply runs_lift; [rewrite Hot, Hoq; reflexivity|]. unfold ConvertActivationToOutputPrecision. apply runs_bind. eapply runs_lift; [reflexivity|].
    apply runs_bind. eapply runs_tensor_of; [done|]. apply runs_bind. eapply runs_lift; [done|]. by apply runs_ret. }
  intros r m' [-> ->]. apply runs_bind. eapply runs_lift; [reflexivity|]. apply runs_bind. eapply runs_data_type_of; [done|done|].
  apply runs_bind. eapply runs_lift; [reflexivity|]. apply runs_bind. eapply (runs_mono _ (fun r m' => r = None ∧ m' = m1)).
  { destruct (IsNpuBackend _); [|by apply runs_ret]. eapply runs_lift; [unfold bq_conv_weight; by rewrite Hwq|done]. }
  intros r m' [-> ->]. apply runs_bind. eapply runs_lift; [exact Hwinfo|]. cbn [info_quant_param info_is_initializer].
  replace (IsLPBQ default_wrapper) with false by reflexivity. rewrite andb_false_r. apply runs_bind. apply runs_bind.
  unfold conv_weight. cbn [info_is_initializer info_shape info_quant_param info_initializer info_data_type]. apply runs_bind. apply runs_ret.
  apply runs_bind. eapply runs_lift; [reflexivity|]. apply runs_bind. eapply runs_lift; [reflexivity|]. apply runs_bind.
  eapply runs_lift; [change (length (Z.of_nat <$> [OC z; CG z; KH z; KW z]) =? 5)%nat with false; rewrite HW; reflexivity|]. cbn beta iota.
  apply runs_bind. apply runs_keeping; [apply params_add_tensor|].
  apply (runs_add env ib Hinit); [done|apply default_wf|cbn; lia|done|]. intros m2 E2 [Hk2 Hn2] Hnew P2.
  destruct Hnew as (e1 & He1 & Ht1 & Hq1 & Hd1); [apply Hn1; [done|apply Hf]|]. unfold conv_weight_convert. apply runs_bind.
  eapply runs_tensor_of; [done|]. apply runs_bind. eapply runs_lift; [done|]. rewrite bool_decide_false by done. apply runs_ret. apply runs_ret.
  cbn [length Nat.eqb]. unfold implicit_bias. rewrite (fc_inputs Hfc).
  eapply (runs_mono _ (fun r m' => r = [name x; name w] ∧ m' = m2)).
  { destruct (_ && _); [|by apply runs_ret]. apply runs_bind. eapply runs_lift; [reflexivity|]. apply runs_bind. eapply runs_tensor_of; [by apply Hk2|].
    apply runs_bind. eapply runs_lift; [reflexivity|]. apply runs_bind. eapply runs_lift; [exact Hwinfo|]. cbn [info_quant_param].
    replace (IsQuantized default_wrapper) with false by reflexivity. rewrite andb_false_r. by apply runs_ret. }
  intros r m' [-> ->]. split; [done|]. split; [exists e0; split; [by apply Hk2|done]|by exists e1|apply Hn2; [done|]; apply Hn1; [done|apply Hf]|by rewrite E2, E1|by rewrite P2, P1].
Qed.

Local Abbreviation key n := (macro qnn n).
Local Abbreviation depthwise := ((Z.of_nat (IC z) =? Z.of_nat (OC z)) && (w_group v =? Z.of_nat (OC z))).

(** The parameters of the node. *)
Definition node_params : list (string * list Z) :=
  [(key "QNN_OP_CONV_2D_PARAM_DILATION", dilations params); (key "QNN_OP_CONV_2D_PARAM_STRIDE", strides params);
   (key "QNN_OP_CONV_2D_PARAM_PAD_AMOUNT", [(w_pad v).1; (w_pad_end v).1; (w_pad v).2; (w_pad_end v).2])] ++
  if depthwise then [] else [(key "QNN_OP_CONV_2D_PARAM_GROUP", [w_group v]); (key "QNN_OP_CONV_2D_PARAM_REUSE_SPARSE_INDICES", [])].

Lemma params_run m : (∀ k, model_params_map_ m !! param_tensor_name (u_index u) (u_name u) k = None) →
  runs (add_conv_params env qnn u kConv x_shape w_shape o_shape) (fun r m' =>
    r = (param_tensor_name (u_index u) (u_name u) <$> node_params.*1, depthwise) ∧ listed u m' node_params ∧
    qnn_op_property_list_ m' = qnn_op_property_list_ m ∧ model_tensors_map_ m' = model_tensors_map_ m) m.
Proof using Hfc Hinit.
  intros Hf. destruct ranges as (Hdv & Hsv & Hpv & _).
  assert (u32_values [(w_pad v).1; (w_pad_end v).1; (w_pad v).2; (w_pad_end v).2]) as Hpv'.
  { unfold u32_values in *. rewrite !Forall_cons in Hpv |- *. by destruct_and! Hpv. }
  pose proof (proj1 (fc_keys Hfc)) as Hnd. cbn [conv_keys fmap list_fmap] in Hnd. rewrite !NoDup_cons, !not_elem_of_cons in Hnd.
  unfold add_conv_params. change (length o_shape =? 3)%nat with false. change (length o_shape =? 5)%nat with false.
  apply runs_bind. eapply runs_lift; [apply params_of_onnx|]. cbn [dilations strides]. apply runs_bind.
  apply (runs_u32_param env qnn ib Hinit); [done|]. intros m1 E1 T1 A1. cbn [app]. apply runs_bind.
  apply (runs_u32_param env qnn ib Hinit); [done|]. intros m2 E2 T2 A2. cbn [app]. apply runs_bind. apply runs_ret. apply runs_bind.
  eapply runs_lift; [apply pads_of_onnx|]. apply runs_bind. eapply runs_lift; [reflexivity|]. apply runs_bind. eapply runs_lift; [reflexivity|].
  apply runs_bind. apply (runs_u32_param env qnn ib Hinit); [done|]. intros m3 E3 T3 A3. cbn [app]. apply runs_bind.
  eapply runs_lift; [apply group_of_onnx|]. apply runs_bind. eapply runs_lift; [reflexivity|]. apply runs_bind. eapply runs_lift; [reflexivity|].
  cbn [negb andb].
  assert (listed u m []) as L0 by (by split).
  pose proof (listed_add u _ _ _ _ _ L0 (not_elem_of_nil _) A1) as L1.
  assert (listed u m3 (take 3 node_params)) as L3.
  { eapply (listed_add u m2 m3 (take 2 node_params)); [eapply (listed_add u m1 m2 (take 1 node_params)); [done| |done]| |done]; cbn; set_solver. }
  unfold node_params. destruct depthwise eqn:Edw; cbn [negb].
  - apply runs_bind. apply runs_ret. apply runs_bind. apply runs_ret. apply runs_ret. split_and!; [done| |by rewrite E3, E2, E1|by rewrite T3, T2, T1].
    unfold node_params in L3. by rewrite Edw in L3.
  - apply runs_bind. apply runs_scalar. intros m4 E4 T4 A4. apply runs_bind. apply runs_scalar. intros m5 E5 T5 A5. apply runs_ret.
    split_and!; [done| |by rewrite E5, E4, E3, E2, E1|by rewrite T5, T4, T3, T2, T1].
    unshelve epose proof (listed_add u _ _ _ _ _ L3 _ A4) as L4; [cbn; set_solver|].
    unshelve epose proof (listed_add u _ _ _ _ _ L4 _ A5) as L5; [cbn; set_solver|]. exact L5.
Qed.

Lemma params_read m : listed u m node_params →
  read_window qnn m (if depthwise then Some (Z.of_nat (IC z)) else None) (param_tensor_name (u_index u) (u_name u) <$> node_params.*1) = Some v.
Proof using Hfc.
  intros HL. assert (NoDup node_params.*1) as Hnd.
  { pose proof (proj1 (fc_keys Hfc)) as Hnd. unfold node_params. destruct depthwise; [|exact Hnd].
    rewrite <- (take_drop 3 (macro qnn <$> conv_keys)) in Hnd. by apply NoDup_app in Hnd as [Hnd _]. }
  assert (∀ k vals, (k, vals) ∈ node_params → find_param m (param_tensor_name (u_index u) (u_name u) <$> node_params.*1) k = Some vals) as F
    by (intros; by apply listed_find).
  assert (∀ k vals, (k, vals) ∈ take 3 node_params → (k, vals) ∈ node_params) as Hin
    by (intros k vals Hk; rewrite <- (take_drop 3 node_params); apply elem_of_app; by left).
  unfold read_window. rewrite (F _ (strides params)), (F _ (dilations params)), (F _ [(w_pad v).1; (w_pad_end v).1; (w_pad v).2; (w_pad_end v).2])
    by (apply Hin; repeat constructor).
  cbn [dilations strides]. destruct depthwise eqn:Edw.
  - apply andb_prop in Edw as [E1%Z.eqb_eq E2%Z.eqb_eq]. rewrite E1, <- E2. by destruct v as [[] [] [] [] ?].
  - rewrite (F _ [w_group v]) by (unfold node_params; rewrite Edw; repeat constructor). by destruct v as [[] [] [] [] ?].
Qed.

Local Abbreviation node_type := (macro qnn (if depthwise then "QNN_OP_DEPTH_WISE_CONV_2D" else "QNN_OP_CONV_2D")).

Lemma conv_outputs_run W m m1 : conv_free m → conv_inputs_ready W m m1 →
  runs (Conv_ProcessAttributesAndOutputs env graph qnn u [name x; name w] false) (fun _ m' => ∃ n ps,
    qnn_op_property_list_ m' = qnn_op_property_list_ m ++ [OpProperty n (QNN_OP_PACKAGE_NAME_QTI_AISW env) node_type [name x; name w] [name o] ps] ∧
    read_window qnn m' (if depthwise then Some (Z.of_nat (IC z)) else None) ps = Some v ∧ keeps_tensors m1 m' ∧ declares m' (name o) QNN_FLOAT_32 o_shape) m1.
Proof using Hfc Hinit.
  intros Hf [(e0 & He0 & Ht0 & Hs0) (e1 & He1 & Ht1 & Hq1 & Hd1) Hno Eops Epar]. destruct (fc_x Hfc) as (Hxs & _), (fc_w Hfc) as (Hws & _).
  destruct (fc_out Hfc) as (Hos & Hot & Hoq), (fc_names Hfc) as (Hxn & Hwn & Hon & Hwx & Hox & How).
  unfold Conv_ProcessAttributesAndOutputs. rewrite (fc_inputs Hfc), (fc_op Hfc). apply runs_bind. eapply runs_lift; [apply Hfc|].
  apply runs_bind. eapply runs_lift; [by apply shape_of|]. do 3 (apply runs_bind; eapply runs_lift; [reflexivity|]).
  apply runs_bind. eapply runs_lift; [by apply shape_of|]. apply runs_bind. eapply runs_lift; [by apply shape_of|].
  apply runs_bind. eapply runs_mono; [apply params_run; intros k; rewrite Epar; apply Hf|]. intros r m2 (-> & HL & E2 & T2). cbn beta iota.
  apply runs_bind. eapply (runs_lift _ node_type).
  { unfold conv_node_type. change (length o_shape =? 5)%nat with false. rewrite (fc_op Hfc). by destruct depthwise. }
  apply runs_bind. eapply runs_lift; [unfold Init_io; rewrite Hoq; reflexivity|]. apply runs_bind.
  eapply runs_lift; [rewrite Hot, Hoq; reflexivity|]. apply runs_bind. eapply runs_lift; [reflexivity|]. apply runs_bind.
  eapply runs_data_type_of; [by rewrite T2|done|]. apply runs_bind. eapply runs_lift; [reflexivity|]. apply runs_bind.
  unfold weight_is_bw_float_block. apply runs_bind. eexists _, _. split; [reflexivity|]. rewrite T2, He1. apply runs_ret. unfold conv_outputs.
  change (length o_shape =? 3)%nat with false. rewrite Hoq, (bool_decide_false (is_Some None)) by (by intros []). rewrite andb_false_r.
  apply runs_bind. apply runs_keeping; [apply params_fresh_unit|]. apply runs_unit_name. intros nn m3 E3 T3 P3.
  eapply (runs_float_op_params env qnn ib Hinit); [by rewrite T3, T2| |done|cbn; lia|].
  { unfold IsQuantized, defined. by rewrite Hq1. }
  intros n m4 E4 K4 D4 P4. eexists n, _. split_and!; [by rewrite E4, E3, E2, Eops| | |].
  - apply params_read. destruct HL as [HL1 HL2]. split; [|intros k Hk]; rewrite P4, P3; auto.
  - intros k e Hk. apply K4. by rewrite T3, T2.
  - apply D4. by rewrite T3, T2.
Qed.

(** The node runs on the declared shapes. *)
Lemma node_step (m' : QnnModelWrapper) n ps ρ : declares m' (name x) QNN_FLOAT_32 x_shape →
  declares m' (name w) QNN_FLOAT_32 (Z.of_nat <$> [KH z; KW z; CG z; OC z]) → declares m' (name o) QNN_FLOAT_32 o_shape →
  read_window qnn m' (if depthwise then Some (Z.of_nat (IC z)) else None) ps = Some v →
  conv_step qnn m' ρ (OpProperty n (QNN_OP_PACKAGE_NAME_QTI_AISW env) node_type [name x; name w] [name o] ps) =
    Some (store ρ (name o) (conv2d z (hwio z) v (ρ (name x)) (ρ (name w)))).
Proof using Hfc.
  intros Dx%declares_declared Dw%declares_declared Do%declares_declared Hread. unfold conv_step.
  cbn [input_names_ output_names_ qnn_node_type_ param_tensor_names_]. rewrite Dx, Dw, Do. cbn [fmap list_fmap].
  destruct (fc_outs Hfc) as [HOH HOW]. pose proof (fc_groups Hfc) as Hg. destruct (fc_keys Hfc) as [_ Hne].
  assert ((if bool_decide (node_type = macro qnn "QNN_OP_CONV_2D") then Some None
     else if bool_decide (node_type = macro qnn "QNN_OP_DEPTH_WISE_CONV_2D") then Some (Some (Z.of_nat (IC z))) else None) =
     Some (if depthwise then Some (Z.of_nat (IC z)) else None)) as ->.
  { destruct depthwise; [rewrite bool_decide_false by done|]; by rewrite bool_decide_true. }
  cbn [mbind option_bind]. rewrite Hread. destruct v as [[sh sw] [dh dw] [top lft] [bottom rght] g]. cbn [fst snd w_stride w_dilation w_pad w_pad_end w_group] in HOH, HOW, Hg.
  rewrite <- HOH, <- HOW, Hg, !Z.eqb_refl, !Nat2Z.id. cbn [andb]. by destruct z.
Qed.

(** C11: the builder of Conv succeeds on a two-dimensional convolution of [float] tensors without bias, with
    a constant weight and with any strides, dilations, groups and padding that ONNX allows with the
    [auto_pad] NOTSET or VALID, when the output has its ONNX shape, the tensors of the weight and the
    output and the parameters of the unit are new and the names of the QNN parameters are distinct.  It
    adds one node, a DepthWiseConv2d when every channel is a group and a Conv2d otherwise; the types,
    shapes and parameters that the tables hold fit the node, and running it, on a weight with its channels
    last and the window that these parameters describe, gives every element of the output the value of
    the ONNX convolution, with the window of the attributes and the weight as it was. *)
Theorem conv_lowering m : conv_free m →
  runs (AddToModelBuilder env (ConvOpBuilder env graph qnn htp_arch) u false) (fun _ m' =>
    declared m' (name o) = Some (QNN_FLOAT_32, o_shape) ∧
    ∃ op, qnn_op_property_list_ m' = qnn_op_property_list_ m ++ [op] ∧ qnn_node_type_ op = node_type ∧
      ∀ (val : list Z → Z) ρ, valuation (fun d => elems val es (d_bytes d)) m' ρ →
        ∃ ρ', conv_run qnn m' [op] ρ = Some ρ' ∧
          ∀ i, ρ' (name o) i = conv2d z (oihw z) v (ρ (name x)) (elems val es raw) i) m.
Proof using Hfc Hinit.
  intros Hf. destruct weight_hwio as (W & EW & HWne & HW). unfold AddToModelBuilder. apply runs_bind.
  eapply runs_mono; [by apply (conv_inputs_run W)|]. intros names m1 [-> Hr]. apply runs_bind.
  eapply runs_mono; [apply (runs_int64_float env)|].
  { destruct (cr_x _ _ _ Hr) as (e0 & ? & ? & _), (cr_w _ _ _ Hr) as (e1 & ? & ? & _), (fc_names Hfc) as (? & ? & _).
    intros n [->| ->%list_elem_of_singleton]%elem_of_cons; eauto. }
  intros names m2 [-> ->]. eapply runs_mono; [by apply (conv_outputs_run W m m1)|]. intros [] m' (n & ps & En & Hread & Hk & Do).
  split; [by apply declares_declared|]. eexists. split; [exact En|]. split; [done|]. intros val ρ Hval.
  destruct (cr_w _ _ _ Hr) as (e1 & He1 & Ht1). assert (client_buf_ e1 = W) as HeW by apply Ht1.
  eexists. split; [cbn [conv_run]; erewrite node_step; [reflexivity| | |done|done]|].
  - eapply declares_kept; [done|apply Hr].
  - eapply declares_kept; [done|by eapply is_declared].
  - intros i. rewrite store_eq. rewrite (Hval (name w) (decl_of e1)).
    + unfold decl_of. cbn [d_bytes]. rewrite HeW. rewrite <- (conv2d_layout z v (ρ (name x)) val es raw W i); [done| |exact HW].
      pose proof (fc_sizes Hfc) as Hs. by apply Forall_inv in Hs.
    + unfold constant. by rewrite (Hk _ _ He1).
    + unfold decl_of. cbn [d_bytes]. by rewrite HeW.
Qed.
End FloatConv.

(** ** Examples *)

Module ConvExample.

Definition eight : list Z := mjoin (f32_bytes example_headers <$> (f32_of_Z <$> [1; 2; 3; 4; 5; 6; 7; 8])).
Definition w_value : ValueInfo := Value "w" (Some [2; 1; 2; 2]) None [] false.
Definition env : environment := GemmExample.env false.
Definition graph : OrtGraph :=
  Graph (fun _ => Some ONNX_FLOAT) (fun _ => Ok eight) (fun _ => Err (EpFail "not found"))
    (fun n => if bool_decide (n = "w") then Some w_value else None) (fun _ => []).
Definition attributes (ints : list (string * list Z)) (auto_pad : option string) : OrtNodeAttrHelper :=
  Attributes (fun _ => None) (fun _ => None) (fun a => if bool_decide (a = "auto_pad") then auto_pad else None) (fun a => find_assoc a ints) (fun _ => None).

(** A convolution of a [3 x 3] image with stride 2 for rows, one row of padding above and one column to the right. *)
Definition conv_unit : UnitView :=
  View "n" "Conv" 0 13 "" [GemmExample.io "x" [1; 3; 3; 1]; GemmExample.io "w" [2; 1; 2; 2]] [GemmExample.io "y" [1; 2; 3; 2]]
    (attributes [("strides", [2; 1]); ("pads", [1; 0; 0; 1])] None) [] [] false.
Definition z : sizes := Sizes 3 3 1 2 2 1 2 2 3.
Definition window : window := Window (2, 1) (1, 1) (1, 0) (0, 1) 1.
End ConvExample.

Lemma conv_lowering_witness :
  runs (H0 := counting_qnn) (AddToModelBuilder (H := exact_safe_int) ConvExample.env
      (ConvOpBuilder (H := exact_safe_int) ConvExample.env ConvExample.graph example_headers 75) ConvExample.conv_unit false)
    (fun _ m' => declared (H := counting_qnn) m' "y" = Some (QNN_FLOAT_32, [1; 2; 3; 2]) ∧ ∃ op, qnn_op_property_list_ m' = [op] ∧
      ∀ (val : list Z → Z) ρ, valuation (H0 := counting_qnn) (fun d => elems val 4 (d_bytes d)) m' ρ →
        ∃ ρ', conv_run (H := counting_qnn) example_headers m' [op] ρ = Some ρ' ∧
          ρ' "y" 5%nat = conv2d ConvExample.z (oihw ConvExample.z) ConvExample.window (ρ "x") (elems val 4 ConvExample.eight) 5) empty_model.
Proof.
  eapply runs_mono; [apply (conv_lowering (H := exact_safe_int) (H0 := counting_qnn) ConvExample.env ConvExample.graph example_headers 75
    example_body eq_refl ConvExample.conv_unit (GemmExample.io "x" [1; 3; 3; 1]) (GemmExample.io "w" [2; 1; 2; 2]) (GemmExample.io "y" [1; 2; 3; 2])
    (Some ConvExample.w_value) ConvExample.z 1 4 ONNX_FLOAT ConvExample.eight ConvExample.window)|].
  - constructor; try reflexivity; try done; try (cbn; lia); try (repeat constructor; cbn; lia).
    + constructor; try (by right); try (by left); try (by repeat constructor); try (repeat constructor; cbn; lia).
    + split; [apply (bool_decide_unpack _); vm_compute; done|done].
  - constructor; done.
  - intros [] m' (Hd & op & E & _ & Hv). split; [exact Hd|]. exists op. split; [exact E|]. intros val ρ Hval.
    destruct (Hv val ρ Hval) as (ρ' & Er & Hi). exists ρ'. split; [exact Er|exact (Hi 5%nat)].
Defined.

(** ** Behaviour that a reader would not expect *)
Module ConvFindings.

(** With a stride that is larger than the kernel, the padding of SAME_UPPER is negative for an input
    whose size the stride divides, and the conversion to an unsigned integer throws: a [1 x 1]
    convolution with stride 3 on a [6 x 6] image. *)
Lemma small_kernel_throws :
  conv_pads (View "n" "Conv" 0 13 "" [] [] (ConvExample.attributes [] (Some "SAME_UPPER")) [] [] false) kConv false [1; 6; 6; 1] [1; 2; 2; 1]
    (ConvParams_ [1; 1] [1; 1] [3; 3] [0; 0]) = Err (Throw "gsl::narrowing_error").
Proof. vm_compute. reflexivity. Qed.

(** A weight that is the constant of a Conv and of a ConvTranspose. *)
Definition tied_value : ValueInfo := Value "w" (Some [2; 2; 1; 2]) None [] false.
Definition tied_graph : OrtGraph :=
  Graph (fun _ => Some ONNX_FLOAT) (fun _ => Ok ConvExample.eight) (fun _ => Err (EpFail "not found"))
    (fun n => if bool_decide (n = "w") then Some tied_value else None) (fun _ => []).
Definition tied (op x y : string) (xs ys : list Z) : UnitView :=
  View y op 0 13 "" [GemmExample.io x xs; GemmExample.io "w" [2; 2; 1; 2]] [GemmExample.io y ys] (ConvExample.attributes [] None) [] [] false.
Definition encoder : UnitView := tied "Conv" "x" "z" [1; 3; 3; 2] [1; 3; 2; 2].
Definition decoder : UnitView := tied "ConvTranspose" "z" "y" [1; 3; 2; 2] [1; 3; 3; 2].
Definition run_conv (graph : OrtGraph) (u : UnitView) : M (H := counting_qnn) unit :=
  AddToModelBuilder (H := exact_safe_int) (H0 := counting_qnn) ConvExample.env
    (ConvOpBuilder (H := exact_safe_int) (H0 := counting_qnn) ConvExample.env graph example_headers 75) u false.
Definition stored_weight (c : M (H := counting_qnn) unit) : option (list Z) :=
  match c empty_model with Ok (m, inr _) => d_bytes <$> constant m "w" | _ => None end.

(** A Conv and a ConvTranspose that share their weight, as tied autoencoders do: the second node reads
    the weight in the layout of the first one, which is not the one that it stores when it is alone. *)
Lemma tied_weight_keeps_first_layout :
  stored_weight (let! _ := run_conv tied_graph encoder in run_conv tied_graph decoder) = stored_weight (run_conv tied_graph encoder) ∧
  stored_weight (run_conv tied_graph encoder) ≠ stored_weight (run_conv tied_graph decoder) ∧
  is_Some (stored_weight (run_conv tied_graph decoder)).
Proof. vm_compute. split_and!; [done|done|by eexists]. Qed.

(** An 8-bit activation, a 16-bit output and a weight with blocks of 32 input channels. *)
Definition s_value : ValueInfo := Value "s" (Some [1; 2; 1; 1]) None [] false.
Definition xs_value : ValueInfo := Value "xs" (Some []) None [] false.
Definition w4_value : ValueInfo := Value "w" (Some [1; 64; 1; 1]) None [] false.
Definition bq_graph : OrtGraph :=
  let one := f32_bytes example_headers (f32_of_Z 1) in
  Graph (fun n => if bool_decide (n ∈ ["s"; "xs"]) then Some ONNX_FLOAT else Some ONNX_INT4)
    (fun v => match v with
       | Some v => if bool_decide (vi_name v = "w") then Ok (replicate 32 17) else if bool_decide (vi_name v = "s") then Ok (one ++ one) else Ok one
       | None => Err (EpFail "null") end) (fun _ => Err (EpFail "not found"))
    (fun n => if bool_decide (n = "w") then Some w4_value else None) (fun _ => []).
Definition quantized (n : string) (t : ONNXTensorElementDataType) (s : list Z) : OrtNodeUnitIODef :=
  IODef n t (Some s) (Some (QuantParam_ (Some xs_value) None None None)).
Definition bq_unit (t : ONNXTensorElementDataType) : UnitView :=
  View "n" "Conv" 0 13 kMSInternalNHWCDomain
    [quantized "x" t [1; 4; 4; 64]; IODef "w" ONNX_INT4 (Some [1; 64; 1; 1]) (Some (QuantParam_ (Some s_value) None (Some 1) (Some 32)))]
    [quantized "y" ONNX_UINT16 [1; 4; 4; 1]] (ConvExample.attributes [] None) ["x_dq"] ["y_q"] false.
Definition bq_env : environment :=
  Env (Settings true false false false false false) HTP ["x"] ["y"] (fun n => bool_decide (n = "w")) (TENSOR_V1 example_body)
    (OpConfig 1 None None None [] [] [] 0 0 0) id "qti.aisw" "Cast".
Definition run_bq (t : ONNXTensorElementDataType) :=
  match AddToModelBuilder (H := exact_safe_int) (H0 := counting_qnn) bq_env
      (ConvOpBuilder (H := exact_safe_int) (H0 := counting_qnn) bq_env bq_graph example_headers 75) (bq_unit t) false empty_model with
  | Ok (m, r) => Some (r, GemmExample.nodes m) | _ => None end.

(** The 8-bit activation is converted to the 16 bits of the output, but the Dequantize for the block
    weight is asked to read the activation from before the conversion and refuses it; a 16-bit
    activation is dequantized. *)
Lemma converted_activation_not_read :
  run_bq ONNX_UINT8 = Some (inl "QNN EP: BQ Conv activation must be INT16-quantized for the BW_FLOAT_BLOCK kernel",
    [("QNN_OP_CONVERT", ["x"], ["x_convert"])]) ∧
  run_bq ONNX_UINT16 = Some (inr tt,
    [("QNN_OP_DEQUANTIZE", ["x"], ["x_dq"]); ("QNN_OP_CONV_2D", ["x_dq"; "w"], ["y_q"]); ("QNN_OP_QUANTIZE", ["y_q"], ["y"])]).
Proof. vm_compute. done. Qed.

End ConvFindings.
