(* ===== verification/Compose.v ===== *)
(** * Composition of a graph

    The registry of op builders (builder/op_builder_factory.cc) for the builders that are modelled,
    and the loop of [QnnModel::ComposeGraph] (builder/qnn_model.cc) that adds node units one by
    one and then composes the QNN graph.  The laws of the builders ([builder_laws]) are all that
    the theorems use of them. *)

From S2P Require Import Prelude DataTypes Floats QuantParams QnnTensor ModelWrapper NodeUnitDefs TensorInfo ModelOps OpBuilder Builders MoveBuilders SimpleBuilders IndexBuilders MatMulBuilders Decompositions ConvBuilders.
Local Open Scope Z_scope.

Section Compose.
Context `{SafeInt} `{QnnInterface}.
Context (env : environment) (graph : OrtGraph) (qnn : QnnHeaders) (ctx : SimpleContext).

(** ** The registry *)

(** The ops of [CreateSimpleOpBuilder]. *)
Definition simple_ops : list string :=
  [ "Abs"; "Add"; "And"; "Asin"; "Atan"; "Ceil"; "Cos"; "DequantizeLinear"; "DepthToSpace"; "Div"; "Elu"; "Equal"; "Exp"; "Floor";
    "Gelu"; "Greater"; "GreaterOrEqual"; "GridSample"; "HardSigmoid"; "HardSwish"; "LeakyRelu"; "Less"; "LessOrEqual"; "Log";
    "LpNormalization"; "Max"; "Min"; "Mul"; "Neg"; "Not"; "Or"; "Pow"; "PRelu"; "QuantizeLinear"; "Relu"; "Round"; "Sigmoid";
    "Sign"; "Sin"; "Softplus"; "SpaceToDepth"; "Sqrt"; "Sub"; "Sum"; "Tanh"; "Where"; "Xor" ].

Definition own_builders : list (string * OpBuilder) :=
  [ ("ArgMax", ArgMaxMinOpBuilder env graph qnn); ("ArgMin", ArgMaxMinOpBuilder env graph qnn);
    ("AveragePool", PoolOpBuilder env graph qnn);
    ("Cast", CastOpBuilder env graph qnn); ("CastLike", CastOpBuilder env graph qnn);
    ("Clip", ClipOpBuilder env graph qnn); ("Concat", ConcatOpBuilder env graph qnn);
    ("Conv", ConvOpBuilder env graph qnn (GetHtpArch ctx)); ("ConvTranspose", ConvOpBuilder env graph qnn (GetHtpArch ctx)); ("CumSum", CumSumOpBuilder env graph qnn);
    ("Expand", ExpandOpBuilder env graph qnn); ("Gather", GatherOpBuilder env graph qnn);
    ("GatherElements", GatherOpBuilder env graph qnn); ("Gemm", GemmOpBuilder env graph qnn);
    ("GlobalAveragePool", PoolOpBuilder env graph qnn); ("GlobalMaxPool", PoolOpBuilder env graph qnn); ("Identity", IdentityOpBuilder env graph qnn);
    ("IsInf", IsInfOpBuilder env graph qnn); ("IsNaN", IsNaNOpBuilder env graph qnn); ("LRN", LRNOpBuilder env graph qnn);
    ("MatMul", MatMulOpBuilder env graph qnn); ("MaxPool", PoolOpBuilder env graph qnn);
    ("Mean", MeanOpBuilder env graph qnn); ("Mod", ModOpBuilder env graph qnn);
    ("QuickGelu", QuickGeluOpBuilder env graph qnn); ("Swish", QuickGeluOpBuilder env graph qnn);
    ("Reciprocal", ReciprocalOpBuilder env graph qnn);
    ("ReduceL2", ReduceOpBuilder env graph qnn); ("ReduceLogSumExp", ReduceOpBuilder env graph qnn);
    ("ReduceMax", ReduceOpBuilder env graph qnn); ("ReduceMean", ReduceOpBuilder env graph qnn);
    ("ReduceMin", ReduceOpBuilder env graph qnn); ("ReduceProd", ReduceOpBuilder env graph qnn);
    ("ReduceSum", ReduceOpBuilder env graph qnn);
    ("Flatten", ReshapeOpBuilder env graph qnn); ("Reshape", ReshapeOpBuilder env graph qnn);
    ("Squeeze", ReshapeOpBuilder env graph qnn); ("Unsqueeze", ReshapeOpBuilder env graph qnn);
    ("ScatterElements", ScatterElementsOpBuilder env graph qnn); ("ScatterND", ScatterNDOpBuilder env graph qnn);
    ("Selu", SeluOpBuilder env graph qnn); ("Shape", ShapeOpBuilder env graph qnn); ("Slice", SliceOpBuilder env graph qnn);
    ("LogSoftmax", SoftmaxOpBuilder env graph qnn); ("Softmax", SoftmaxOpBuilder env graph qnn);
    ("Split", SplitOpBuilder env graph qnn); ("Tan", TanOpBuilder env graph qnn);
    ("ThresholdedRelu", ThresholdedReluOpBuilder env graph qnn); ("Tile", TileOpBuilder env graph qnn);
    ("TopK", TopKOpBuilder env graph qnn); ("Transpose", TransposeOpBuilder env graph qnn) ].

Definition op_registrations : list (string * OpBuilder) :=
  own_builders ++ ((fun op => (op, SimpleOpBuilder env graph qnn ctx)) <$> simple_ops).

Definition GetOpBuilder (onnx_op_type : string) : option OpBuilder := find_assoc onnx_op_type op_registrations.

(** ** The loop of [ComposeGraph] *)

(** [QnnNodeUnitWrapper]: a group of one unit. *)
Definition group_AddToModelBuilder (u : UnitView) : M unit :=
  match GetOpBuilder (u_op_type u) with
  | Some b => AddToModelBuilder env b u false
  | None => lift (Err (EpFail ("[QNN EP]: Missing OpBuilder for OpType " +:+ u_op_type u)))
  end.

(** The loop stops at the first unit that fails. *)
Definition add_groups (units : list UnitView) : M unit := each units (fun _ u => group_AddToModelBuilder u) tt.

(** The groups are added, then the QNN graph is composed and its inputs and outputs taken out. *)
Definition ComposeGraph (units : list UnitView) (m : QnnModelWrapper)
  : result (string + list QnnTensorWrapper * list QnnTensorWrapper) :=
  let* (m, r) := add_groups units m in
  match r with
  | inl e => Ok (inl e)
  | inr _ =>
      let* (ok, m) := ComposeQnnGraph env m in
      if negb ok then Ok (inl "Failed to compose Qnn graph.")
      else
      let* (m, inputs) := GetGraphInputOutputTensorWrapper env m (graph_inputs_ env) [] in
      let* (m, outputs) := GetGraphInputOutputTensorWrapper env m (graph_outputs_ env) [] in
      Ok (inr (inputs, outputs))
  end.

(** ** The builders of the registry keep the laws *)

(** The units of which the registry's builders write every required output: those of one output;
    a Split may have several and a TopK has two, a Slice is not elided and computes no boolean through a cast, a
    Gather is not the output of the graph, a variadic op has no 64-bit graph output. *)
Definition built (u : UnitView) : Prop :=
  if decide (u_op_type u ∈ simple_ops) then simple_built env graph u
  else if decide (u_op_type u = "Slice") then slice_built env graph u
  else if decide (u_op_type u = "Gather" ∨ u_op_type u = "GatherElements") then gather_built env u
  else if decide (u_op_type u = "TopK") then two_outputs u
  else if decide (u_op_type u ∈ ["Split"; "ScatterElements"; "ScatterND"; "Cast"; "CastLike"]) then any_unit u
  else one_output u.

Definition lawful (op : string) (b : OpBuilder) : Prop := ∀ u v m, u_op_type u = op →
  wp (AddToModelBuilder env b u v)
    (fun _ m' => v = false → Inputs u ≠ [] → built u → Forall (provided m') (required_outputs u)) m.

Lemma builder_lawful op b ok : builder_laws b ok → (∀ u, u_op_type u = op → built u → ok u) → lawful op b.
Proof.
  intros Hb Hok u v m Hop. eapply wp_use; [by apply (wp_AddToModelBuilder env b ok)|]. intros [] m' _ Hw. auto.
Qed.

Lemma find_assoc_elem {K V} `{EqDecision K} (k : K) (m : list (K * V)) v : find_assoc k m = Some v → (k, v) ∈ m.
Proof. induction m as [|[k' v'] m IH]; [done|]. cbn. case_decide as Hk; [intros [= ->]; subst; by left|right; auto]. Qed.

Lemma own_lawful : Forall (fun r => lawful r.1 r.2) own_builders.
Proof.
  unfold own_builders. repeat (apply Forall_cons; split; [cbn [fst snd]; first
    [ apply (builder_lawful _ _ any_unit); [apply _|]; by intros u Hu
    | intros u v m Hu; eapply wp_use; [apply Cast_keeps|]; by auto
    | eapply builder_lawful; [apply _|]; intros u Hu; unfold built; rewrite Hu; exact id ]|]). constructor.
Qed.

Lemma simple_lawful op : op ∈ simple_ops → lawful op (SimpleOpBuilder env graph qnn ctx).
Proof. intros Hin. eapply builder_lawful; [apply _|]. intros u <-. unfold built. by rewrite decide_True. Qed.

Lemma registry_lawful op b : GetOpBuilder op = Some b → lawful op b.
Proof.
  intros Hb%find_assoc_elem. unfold op_registrations in Hb. apply elem_of_app in Hb as [Hb|Hb].
  - by apply (proj1 (Forall_forall _ _) own_lawful (op, b)).
  - apply list_elem_of_fmap in Hb as (? & [= -> ->] & Hin). by apply simple_lawful.
Qed.

Lemma group_keeps u m :
  wp (group_AddToModelBuilder u) (fun _ m' => Inputs u ≠ [] → built u → Forall (provided m') (required_outputs u)) m.
Proof.
  unfold group_AddToModelBuilder. destruct (GetOpBuilder (u_op_type u)) as [b|] eqn:Eb.
  - eapply wp_use; [by apply (registry_lawful _ _ Eb)|]. intros [] m' _ Hw. auto.
  - intros Hc. cbn. done.
Qed.

(** C8: adding units to a closed model with the modelled builders ([op_registrations]; some forty op
    types of the registry are not modelled and are refused here as missing): the model stays closed (every tensor and
    parameter a node names is in the tables), nothing that was there is taken back and no call of the
    QNN graph is made, whether all units were added or one failed; and when all were added, the
    required outputs are written by some node or are constants, for each unit that has inputs and
    satisfies [built]: one output (two for TopK, any number for Split, ScatterElements, ScatterND, Cast
    and CastLike), no Slice that is left out or casts a boolean, no Gather whose output is one of the
    graph, no variadic op with a 64-bit graph output. *)
Theorem compose_keeps_model units m m' r : closed m → add_groups units m = Ok (m', r) →
  closed m' ∧ grows m m' ∧
  (r = inr tt → ∀ u, u ∈ units → Inputs u ≠ [] → built u → Forall (provided m') (required_outputs u)).
Proof.
  intros Hc E.
  assert (wp (add_groups units) (fun _ m' => ∀ u, u ∈ units → Inputs u ≠ [] → built u →
    Forall (provided m') (required_outputs u)) m) as Hw.
  { unfold add_groups.
    eapply wp_use; [apply (wp_each (fun done_ _ m' => ∀ u, u ∈ done_ → Inputs u ≠ [] → built u →
      Forall (provided m') (required_outputs u))); [|by intros ? ?%not_elem_of_nil]|by intros [] m1 _ Hu].
    intros done_ [] u m1 Hd _. eapply wp_use; [apply group_keeps|]. intros [] m2 Hg Hu u' Hin Hi Ho.
    apply elem_of_app in Hin as [Hin| ->%list_elem_of_singleton]; [|by apply Hu]. eapply all_provided_grows; [by apply Hd|done]. }
  specialize (Hw Hc). rewrite E in Hw. destruct Hw as (Hcl & Hg & Hq). split_and!; [done|done|]. intros ->. exact Hq.
Qed.

End Compose.

(** ** An example *)

Definition example_context : SimpleContext := SimpleCtx true (fun _ => true) (fun _ => []) false 75.

Definition tan_unit : UnitView := View "n" "Tan" 0 7 "" [float_io "x"] [float_io "y"] example_attributes [] [] false.

Lemma compose_keeps_model_witness :
  closed (H := counting_qnn) empty_model ∧
  ∃ m' r, add_groups (H := exact_safe_int) (H0 := counting_qnn) (example_env false) (example_graph ONNX_FLOAT) example_headers example_context
      [tan_unit] empty_model = Ok (m', r) ∧ r = inr tt ∧ Forall (provided (H := counting_qnn) m') (required_outputs tan_unit).
Proof.
  assert (closed (H := counting_qnn) empty_model) as Hc by constructor. split; [exact Hc|].
  destruct (add_groups (H := exact_safe_int) (H0 := counting_qnn) (example_env false) (example_graph ONNX_FLOAT) example_headers example_context
    [tan_unit] empty_model) as [[m' r]|] eqn:E.
  - exists m', r. assert (r = inr tt) as Hr.
    { assert (rmap snd (Ok (m', r) : result (QnnModelWrapper (H0 := counting_qnn) * (string + unit))) = Ok (inr tt)) as Er
        by (rewrite <- E; vm_compute; reflexivity). by injection Er. }
    split_and!; [reflexivity|exact Hr|].
    destruct (compose_keeps_model (H := exact_safe_int) (H0 := counting_qnn) (example_env false) (example_graph ONNX_FLOAT) example_headers example_context
      [tan_unit] empty_model m' r Hc E) as (_ & _ & Hw). apply (Hw Hr tan_unit); [by left|done|done].
  - exfalso. assert (is_ok (add_groups (H := exact_safe_int) (H0 := counting_qnn) (example_env false) (example_graph ONNX_FLOAT) example_headers example_context
      [tan_unit] empty_model) = true) as Ho by (vm_compute; reflexivity). rewrite E in Ho. done.
Defined.

(** ** What the model shows of the code *)

Module ComposeFindings.

(** The graph inputs are taken out of the table until one has no tensor: an input that no node
    uses hides those after it. *)
Lemma unused_input_hides_others :
  rmap (fun p => tensor_name_ <$> p.2) (GetGraphInputOutputTensorWrapper (H0 := counting_qnn) (example_env false) example_model ["roi"; "x"] [])
    = Ok [] ∧
  rmap (fun p => tensor_name_ <$> p.2) (GetGraphInputOutputTensorWrapper (H0 := counting_qnn) (example_env false) example_model ["x"; "roi"] [])
    = Ok ["x"].
Proof. split; vm_compute; reflexivity. Qed.

(** The divisor of a Mean of half-precision inputs is written as a float: read back as a half
    it is zero. *)
Lemma mean_divisor_half :
  let bytes := f32_bytes example_headers (f32_of_Z 2) in
  length bytes = 4%nat ∧ f32_of_f16_bits (le_decode (take 2 bytes)) = f32_of_Z 0.
Proof. split; vm_compute; reflexivity. Qed.

(** The threshold of a quantized ThresholdedRelu is truncated, not quantized. *)
Lemma threshold_truncated :
  SetAlphaByte example_headers QNN_UFIXED_POINT_8 (f32_div (f32_of_Z 1) (f32_of_Z 2)) = Ok [0].
Proof. vm_compute. reflexivity. Qed.

End ComposeFindings.
