(* ===== verification/GraphIO.v ===== *)
(** * Graph inputs and outputs

    The book-keeping of [QnnModel] for the inputs and outputs of a fused subgraph
    (builder/qnn_model.{h,cc}): the order in which they are declared to QNN, the index of each in
    the kernel context of ONNX Runtime, the aliases for tensors that a context binary renames,
    and the table of tensors to bind, sorted by declaration order.  An unordered map that the
    code iterates is a list of pairs, in an order the theorems do not depend on. *)

From S2P Require Import Prelude DataTypes QuantParams QnnTensor ModelWrapper TensorInfo.
Local Open Scope Z_scope.

(** ** Data *)

Record OnnxTensorInfo := OnnxTensor { index_ : nat; data_type_ : ONNXTensorElementDataType; shape_ : list Z }.

Record GraphInputOutputInfo := IOInfo {
  io_names : list string;
  indices : gmap string nat;
  tensors : gmap string OnnxTensorInfo
}.

Definition Clear : GraphInputOutputInfo := IOInfo [] ∅ ∅.

(** [emplace] keeps an entry that is there. *)
Definition emplace_new {A} (k : string) (v : A) (m : gmap string A) : gmap string A :=
  match m !! k with Some _ => m | None => <[k := v]> m end.

Definition emplace_index (k : string) (i : nat) (io : GraphInputOutputInfo) : GraphInputOutputInfo :=
  IOInfo (io_names io) (emplace_new k i (indices io)) (tensors io).
Definition emplace_tensor (k : string) (t : OnnxTensorInfo) (io : GraphInputOutputInfo) : GraphInputOutputInfo :=
  IOInfo (io_names io) (indices io) (emplace_new k t (tensors io)).

(** An input or output of the fused node. *)
Record ValueDef := Def { def_name : string; def_type : ONNXTensorElementDataType; def_shape : list Z }.

(** The initializers of the graph as the C API reports them: an error of the whole query, of
    the name, or of the question whether it is constant, is [None]. *)
Definition initializer_list : Type := option (list (option string * option bool)).

Fixpoint constant_in (l : list (option string * option bool)) (tensor_name : string) : bool :=
  match l with
  | [] => false
  | (None, _) :: l => constant_in l tensor_name
  | (Some n, c) :: l => if bool_decide (n = tensor_name) then default false c else constant_in l tensor_name
  end.

Definition IsConstantInitializer (inits : initializer_list) (tensor_name : string) : bool :=
  match inits with Some l => constant_in l tensor_name | None => false end.

(** ** The order of the inputs and outputs *)

Definition resolve_name (reversed : gmap string string) (fused_names : gset string) (onnx_name : string) : option string :=
  match reversed !! onnx_name with
  | Some internal =>
      if bool_decide (internal ∈ fused_names) then Some internal
      else if bool_decide (onnx_name ∈ fused_names) then Some onnx_name else None
  | None => if bool_decide (onnx_name ∈ fused_names) then Some onnx_name else None
  end.

Definition ResolveGraphInputOutputOrder (onnx_names : option (list string)) (fused_names : gset string)
  (fused_order : list string) (reversed : gmap string string) : list string :=
  match onnx_names with
  | None => fused_order
  | Some onnx_names =>
      match mapM (resolve_name reversed fused_names) onnx_names with
      | None => fused_order
      | Some resolved => resolved ++ filter (fun n => n ∉ resolved) fused_order
      end
  end.

(** The overrides, from the internal name to the one of the ONNX graph; the later of two with
    the same ONNX name wins. *)
Definition reverse_overrides (overrides : option (list (string * string))) : gmap string string :=
  foldl (fun m '(internal, onnx) => <[onnx := internal]> m) ∅ (default [] overrides).

(** Names and positions in the order found. *)
Definition declare (order : list string) (io : GraphInputOutputInfo) : GraphInputOutputInfo :=
  foldl (fun io '(idx, n) => IOInfo (io_names io ++ [n]) (emplace_new n idx (indices io)) (tensors io))
    io (zip (seq 0 (length order)) order).

(** The descriptions, with the position among the values of the fused node; [skip] says which
    values are constant.  A dimension below zero ends the loop. *)
Fixpoint describe (what : string) (skip : string → bool) (i : nat) (defs : list ValueDef) (io : GraphInputOutputInfo)
  : GraphInputOutputInfo * result unit :=
  match defs with
  | [] => (io, Ok tt)
  | d :: defs =>
      if skip (def_name d) then describe what skip (S i) defs io
      else if existsb (fun s => s <? 0) (def_shape d)
      then (io, Err (EpFail ("Dynamic shape is not supported yet, for " +:+ what +:+ ": " +:+ def_name d)))
      else describe what skip (S i) defs (emplace_tensor (def_name d) (OnnxTensor i (def_type d) (def_shape d)) io)
  end.

(** ** Aliases *)

Definition alias_entry (io : GraphInputOutputInfo) (qnn_name fused_name : string) : GraphInputOutputInfo :=
  if bool_decide (qnn_name = fused_name) || bool_decide (is_Some (indices io !! qnn_name)) then io
  else
  let io1 := match indices io !! fused_name with Some idx => emplace_index qnn_name idx io | None => io end in
  match tensors io1 !! fused_name with
  | Some info => emplace_tensor qnn_name (OnnxTensor (index_ info) (data_type_ info) (shape_ info)) io1
  | None => io1
  end.

Definition alias_by_name (overrides : list (string * string)) (io : GraphInputOutputInfo) (qnn_names : list string)
  : GraphInputOutputInfo :=
  foldl (fun io '(internal, external) =>
    if bool_decide (external ∈ qnn_names) then alias_entry io external internal else io) io overrides.

Definition alias_by_position (io : GraphInputOutputInfo) (qnn_names fused_order : list string) : GraphInputOutputInfo :=
  foldl (fun io '(qnn_name, fused_name) =>
    if negb (bool_decide (qnn_name = fused_name)) && negb (bool_decide (is_Some (indices io !! qnn_name)))
    then alias_entry io qnn_name fused_name else io) io (zip qnn_names fused_order).

(** ** [SetGraphInputOutputInfo] *)

Record QnnModelContext := Context_ {
  graph_initializers : initializer_list;
  input_defs : list ValueDef;
  output_defs : list ValueDef;
  onnx_input_names : option (list string);
  onnx_output_names : option (list string);
  tensor_name_overrides : option (list (string * string))
}.

Definition fused_input_order (c : QnnModelContext) : list string :=
  filter (fun n => IsConstantInitializer (graph_initializers c) n = false) (def_name <$> input_defs c).
Definition fused_output_order (c : QnnModelContext) : list string := def_name <$> output_defs c.

Definition input_order (c : QnnModelContext) : list string :=
  ResolveGraphInputOutputOrder (onnx_input_names c) (list_to_set (fused_input_order c)) (fused_input_order c)
    (reverse_overrides (tensor_name_overrides c)).
Definition output_order (c : QnnModelContext) : list string :=
  ResolveGraphInputOutputOrder (onnx_output_names c) (list_to_set (fused_output_order c)) (fused_output_order c)
    (reverse_overrides (tensor_name_overrides c)).

(** [graph_info] holds the names of the QNN tensors when a context binary was loaded.  The
    answer is the two tables and a status. *)
Definition SetGraphInputOutputInfo (c : QnnModelContext) (graph_info : option (list string * list string))
  : GraphInputOutputInfo * GraphInputOutputInfo * result unit :=
  let inputs := declare (input_order c) Clear in
  let (inputs, status) := describe "input" (IsConstantInitializer (graph_initializers c)) 0 (input_defs c) inputs in
  match status with
  | Err e => (inputs, Clear, Err e)
  | Ok _ =>
      let outputs := declare (output_order c) Clear in
      let (outputs, status) := describe "output" (fun _ => false) 0 (output_defs c) outputs in
      match status with
      | Err e => (inputs, outputs, Err e)
      | Ok _ =>
          match graph_info with
          | None => (inputs, outputs, Ok tt)
          | Some (qnn_inputs, qnn_outputs) =>
              match tensor_name_overrides c with
              | Some ((_ :: _) as overrides) =>
                  (alias_by_name overrides inputs qnn_inputs, alias_by_name overrides outputs qnn_outputs, Ok tt)
              | _ => (alias_by_position inputs qnn_inputs (fused_input_order c),
                      alias_by_position outputs qnn_outputs (fused_output_order c), Ok tt)
              end
          end
      end
  end.

(** ** Look-ups *)

Definition GetOutputInfo (outputs : GraphInputOutputInfo) (n : string) : option OnnxTensorInfo := tensors outputs !! n.

Definition GetInputOutputIndex (n : string) (io : GraphInputOutputInfo) : result nat :=
  match tensors io !! n with Some t => Ok (index_ t) | None => Err (Throw "Tensor name not found.") end.

Definition GetGraphInputIndex (inputs : GraphInputOutputInfo) (n : string) : result nat :=
  match indices inputs !! n with Some i => Ok i | None => Err (Throw "Input name not found.") end.

(** ** The tensors to bind *)

(** [tensor_wrapper] points to a wrapper of the graph information, whose vectors stay. *)
Record QnnTensorInfo := QTInfo { tensor_wrapper : option QnnTensorWrapper; tensor_byte_size : Z; ort_index : nat }.
Definition no_tensor : QnnTensorInfo := QTInfo None 0 0.

Section Setup.
Context `{SafeInt}.

(** One wrapper: its entry is written at its index. *)
Definition setup_tensor (is_input : bool) (io : GraphInputOutputInfo) (infos : list QnnTensorInfo) (w : QnnTensorWrapper)
  : result (list QnnTensorInfo) :=
  let* dynamic := QnnTensorHasDynamicShape (qnn_tensor_ w) in
  let* _ := return_if dynamic ("QNN tensor (" +:+ tensor_name_ w +:+ ") has dynamic shape. This is not supported yet.") in
  let* data_type := GetQnnTensorDataType (qnn_tensor_ w) in
  let* length_ := GetQnnTensorDataSizeInBytes (dimensions_ w) data_type in
  let* qnn_index := if is_input then GetGraphInputIndex io (tensor_name_ w) else GetInputOutputIndex (tensor_name_ w) io in
  let* ort_index := if is_input then GetInputOutputIndex (tensor_name_ w) io else Ok qnn_index in
  let* _ := return_if (length infos <=? qnn_index)%nat ("QNN tensor index is out of range for tensor: " +:+ tensor_name_ w) in
  Ok (<[qnn_index := QTInfo (Some w) (u32 length_) ort_index]> infos).

Fixpoint setup_loop (is_input : bool) (io : GraphInputOutputInfo) (infos : list QnnTensorInfo) (ws : list QnnTensorWrapper)
  : list QnnTensorInfo * result unit :=
  match ws with
  | [] => (infos, Ok tt)
  | w :: ws =>
      match setup_tensor is_input io infos w with
      | Ok infos => setup_loop is_input io infos ws
      | Err e => (infos, Err e)
      end
  end.

Definition resize (n : nat) (l : list QnnTensorInfo) : list QnnTensorInfo := take n l ++ replicate (n - length l) no_tensor.
Definition bound (t : QnnTensorInfo) : bool := bool_decide (is_Some (tensor_wrapper t)).

Definition SetupTensors (backend : QnnBackendType) (io : GraphInputOutputInfo) (infos : list QnnTensorInfo)
  (ws : list QnnTensorWrapper) (is_input : bool) : list QnnTensorInfo * result unit :=
  match ws with
  | [] =>
      if negb is_input then (infos, Err (EpFail "The count of graph outputs should be nonzero!"))
      else if negb (IsGpuBackend backend) then (infos, Err (EpFail "Having zero graph inputs is not supported on this backend."))
      else ([], Ok tt)
  | _ =>
      if (size (indices io) <? length ws)%nat
      then (infos, Err (EpFail ("The count of graph " +:+ (if is_input then "inputs" else "outputs") +:+
                                " should be at least the count of tensor_wrapper!")))
      else
        match setup_loop is_input io (resize (size (indices io)) infos) ws with
        | (infos, Ok _) => (List.filter bound infos, Ok tt)
        | failed => failed
        end
  end.

End Setup.

(** ** The order *)

Lemma emplace_new_lookup {A} k (v : A) m n :
  emplace_new k v m !! n = (if bool_decide (n = k) then match m !! k with Some x => Some x | None => Some v end else m !! n).
Proof.
  unfold emplace_new. case_bool_decide as E; [subst|]; destruct (m !! k) eqn:Em; rewrite ?lookup_insert_eq, ?lookup_insert_ne by done; done.
Qed.

Lemma resolve_name_fused rev fused n r : resolve_name rev fused n = Some r → r ∈ fused.
Proof. unfold resolve_name. destruct (rev !! n); repeat case_bool_decide; congruence. Qed.

Lemma mapM_fused rev fused l r : mapM (resolve_name rev fused) l = Some r → ∀ n, n ∈ r → n ∈ fused.
Proof.
  intros E%mapM_Some n Hn. apply list_elem_of_lookup in Hn as [i Hi]. destruct (Forall2_lookup_r _ _ _ _ _ E Hi) as (x & _ & Hx).
  by eapply resolve_name_fused.
Qed.

(** The order has the same members as the fused one. *)
Lemma order_members onnx fused rev n :
  n ∈ ResolveGraphInputOutputOrder onnx (list_to_set fused) fused rev ↔ n ∈ fused.
Proof.
  unfold ResolveGraphInputOutputOrder. destruct onnx as [onnx|]; [|done].
  destruct (mapM _ onnx) as [r|] eqn:Er; [|done]. rewrite elem_of_app, list_elem_of_filter. split.
  - intros [Hn|[_ Hn]]; [|done]. apply (mapM_fused _ _ _ _ Er) in Hn. set_solver.
  - intros Hn. destruct (decide (n ∈ r)); auto.
Qed.

Lemma order_perm onnx fused rev : NoDup fused →
  NoDup (ResolveGraphInputOutputOrder onnx (list_to_set fused) fused rev) →
  ResolveGraphInputOutputOrder onnx (list_to_set fused) fused rev ≡ₚ fused.
Proof. intros Hf Ho. apply NoDup_Permutation; [done|done|]. intros n. apply order_members. Qed.

(** Without two ONNX names for one tensor, no name is declared twice. *)
Lemma resolved_order_NoDup onnx fused rev : NoDup fused →
  (∀ l r, onnx = Some l → mapM (resolve_name rev (list_to_set fused)) l = Some r → NoDup r) →
  NoDup (ResolveGraphInputOutputOrder onnx (list_to_set fused) fused rev).
Proof.
  intros Hf Hr. unfold ResolveGraphInputOutputOrder. destruct onnx as [onnx|]; [|done].
  destruct (mapM _ onnx) as [r|] eqn:Er; [|done]. apply NoDup_app. split_and!.
  - by eapply Hr.
  - intros n Hn [? _]%list_elem_of_filter. done.
  - by apply NoDup_filter.
Qed.

Lemma declare_gen order j io :
  let io' := foldl (fun io '(idx, n) => IOInfo (io_names io ++ [n]) (emplace_new n idx (indices io)) (tensors io))
    io (zip (seq j (length order)) order) in
  NoDup order → (∀ n, n ∈ order → indices io !! n = None) →
  io_names io' = io_names io ++ order ∧ tensors io' = tensors io ∧
  (∀ n k, indices io' !! n = Some k ↔ indices io !! n = Some k ∨ ∃ p, order !! p = Some n ∧ k = (j + p)%nat) ∧
  size (indices io') = (size (indices io) + length order)%nat.
Proof.
  cbv zeta. revert j io. induction order as [|x order IH]; intros j io Hnd Hnew; cbn [zip_with length seq foldl].
  - rewrite app_nil_r. split_and!; [done|done| |cbn; lia]. intros n k. split; [auto|]. intros [?|(p & Hp & _)]; [done|]. by rewrite lookup_nil in Hp.
  - apply NoDup_cons in Hnd as [Hx Hnd]. assert (indices io !! x = None) as Hx0 by (apply Hnew; left).
    set (io1 := IOInfo _ _ _).
    assert (indices io1 = <[x := j]> (indices io)) as E1 by (cbn; unfold emplace_new; by rewrite Hx0).
    destruct (IH (S j) io1) as (Hn & Ht & Hi & Hs); [done| |].
    { intros n Hn. rewrite E1, lookup_insert_ne by (by intros ->). apply Hnew. by right. }
    split_and!.
    + rewrite Hn. cbn. by rewrite <- app_assoc.
    + by rewrite Ht.
    + intros n k. rewrite Hi, E1, lookup_insert_Some. split.
      * intros [[[-> ->]|[_ ?]]|(p & Hp & ->)]; [right; exists 0%nat; split; [done|lia]|by left|right; exists (S p); split; [done|lia]].
      * intros [Ho|([|p] & Hp & ->)].
        -- left. right. split; [|done]. intros ->. by rewrite Hx0 in Ho.
        -- cbn in Hp. injection Hp as ->. left. left. split; [done|lia].
        -- right. exists p. split; [done|lia].
    + rewrite Hs, E1, map_size_insert_None by done. lia.
Qed.

Lemma declare_spec order : NoDup order →
  io_names (declare order Clear) = order ∧ tensors (declare order Clear) = ∅ ∧
  (∀ n k, indices (declare order Clear) !! n = Some k ↔ order !! k = Some n) ∧ size (indices (declare order Clear)) = length order.
Proof.
  intros Hnd. destruct (declare_gen order 0 Clear Hnd) as (Hn & Ht & Hi & Hs); [done|].
  split_and!; [done|done| |done]. intros n k. unfold declare. rewrite Hi. cbn. split.
  - intros [?|(p & Hp & ->)]; [done|done].
  - eauto.
Qed.

(** ** The descriptions *)

(** The values that are described. *)
Definition described (skip : string → bool) (defs : list ValueDef) : list string :=
  filter (fun n => skip n = false) (def_name <$> defs).

Lemma described_cons skip d defs : described skip (d :: defs) =
  if skip (def_name d) then described skip defs else def_name d :: described skip defs.
Proof.
  unfold described. rewrite fmap_cons, filter_cons. case_decide as E; [by rewrite E|]. by destruct (skip (def_name d)).
Qed.

Lemma describe_spec what skip i defs io io' : describe what skip i defs io = (io', Ok tt) →
  NoDup (described skip defs) → (∀ n, n ∈ described skip defs → tensors io !! n = None) →
  io_names io' = io_names io ∧ indices io' = indices io ∧
  (∀ n t, tensors io' !! n = Some t ↔ tensors io !! n = Some t ∨
     ∃ p d, defs !! p = Some d ∧ skip n = false ∧ def_name d = n ∧ t = OnnxTensor (i + p) (def_type d) (def_shape d)) ∧
  ∀ d, d ∈ defs → skip (def_name d) = false → Forall (Z.le 0) (def_shape d).
Proof.
  revert i io. induction defs as [|d defs IH]; intros i io E Hnd Hnew; cbn in E.
  - injection E as <-. split_and!; [done|done| |by intros ? ?%not_elem_of_nil]. intros n t. split; [auto|].
    intros [?|(p & d & Hp & _)]; [done|]. by rewrite lookup_nil in Hp.
  - pose proof (described_cons skip d defs) as Ec. destruct (skip (def_name d)) eqn:Es; rewrite Ec in Hnd; setoid_rewrite Ec in Hnew.
    + destruct (IH _ _ E Hnd Hnew) as (H1 & H2 & H3 & H4).
      split_and!; [done|done| |].
      * intros n t. rewrite H3. split; (intros [?|(p & d' & Hp & Hsk & <- & ->)]; [by left|right]).
        -- exists (S p), d'. split_and!; [done|done|done|]. f_equal. lia.
        -- destruct p as [|p]; cbn in Hp; [injection Hp as ->; congruence|]. exists p, d'. split_and!; [done|done|done|]. f_equal; lia.
      * intros d' [->|Hd']%elem_of_cons Hsk; [congruence|]. by apply H4.
    + destruct (existsb _ (def_shape d)) eqn:Ed; [done|].
      apply NoDup_cons in Hnd as [Hd Hnd].
      assert (tensors io !! def_name d = None) as Hn0 by (apply Hnew; left).
      destruct (IH _ _ E Hnd) as (H1 & H2 & H3 & H4).
      { intros n Hn. cbn. rewrite emplace_new_lookup, bool_decide_false by (by intros ->). apply Hnew. by right. }
      split_and!; [done|done| |].
      * intros n t. rewrite H3. cbn [emplace_tensor tensors]. rewrite emplace_new_lookup, Hn0. split.
        -- intros [Ht|(p & d' & Hp & Hsk & <- & ->)].
           ++ case_bool_decide as En; [|by left]. injection Ht as <-. subst. right. exists 0%nat, d. split_and!; [done|done|done|].
              f_equal. lia.
           ++ right. exists (S p), d'. split_and!; [done|done|done|]. f_equal; lia.
        -- intros [Ht|([|p] & d' & Hp & Hsk & <- & ->)].
           ++ left. rewrite bool_decide_false; [done|]. intros ->. by rewrite Hn0 in Ht.
           ++ cbn in Hp. injection Hp as <-. left. rewrite bool_decide_true by done. f_equal. f_equal. lia.
           ++ right. exists p, d'. split_and!; [done|done|done|]. f_equal; lia.
      * intros d' [->|Hd']%elem_of_cons Hsk; [|by apply H4]. apply Forall_forall. intros s Hs.
        destruct (Z.ltb_spec s 0) as [Hlt|]; [|lia]. exfalso. revert Ed. apply eq_true_false_abs, existsb_exists.
        exists s. split; [by apply list_elem_of_In|]. by apply Z.ltb_lt.
Qed.

(** ** The table of tensors *)

Section SetupFacts.
Context `{SafeInt}.

(** A wrapper of static shape whose size is computed. *)
Definition sized (w : QnnTensorWrapper) (n : Z) : Prop :=
  QnnTensorHasDynamicShape (qnn_tensor_ w) = Ok false ∧
  ∃ dt, GetQnnTensorDataType (qnn_tensor_ w) = Ok dt ∧ GetQnnTensorDataSizeInBytes (dimensions_ w) dt = Ok n.

(** What is known of a wrapper before the loop: its place, size and index in the kernel. *)
Record placed (is_input : bool) (io : GraphInputOutputInfo) (w : QnnTensorWrapper) (k : nat) (e : QnnTensorInfo) : Prop := {
  placed_wrapper : tensor_wrapper e = Some w;
  placed_size : ∃ n, sized w n ∧ tensor_byte_size e = u32 n;
  placed_index : (if is_input then GetGraphInputIndex io (tensor_name_ w) else GetInputOutputIndex (tensor_name_ w) io) = Ok k;
  placed_ort : GetInputOutputIndex (tensor_name_ w) io = Ok (ort_index e)
}.

Lemma setup_tensor_placed is_input io infos w k e : placed is_input io w k e → (k < length infos)%nat →
  setup_tensor is_input io infos w = Ok (<[k := e]> infos).
Proof.
  intros [Hw (n & (Hdyn & dt & Hdt & Hn) & Hs) Hk Ho] Hl. unfold setup_tensor. rewrite Hdyn. cbn. rewrite Hdt. cbn. rewrite Hn. cbn.
  rewrite Hk. cbn. assert ((if is_input then GetInputOutputIndex (tensor_name_ w) io else Ok k) = Ok (ort_index e)) as ->.
  { destruct is_input; [done|]. rewrite <- Hk. done. }
  cbn. rewrite (proj2 (Nat.leb_gt _ _)) by done. cbn. do 2 f_equal. destruct e. cbn in *. congruence.
Qed.

(** The loop writes each entry at its place. *)
Lemma setup_loop_places is_input io N places : ∀ ws infos,
  length infos = N →
  Forall2 (fun w p => placed is_input io w p.1 p.2) ws places → NoDup places.*1 → Forall (fun p => p.1 < N)%nat places →
  ∃ infos', setup_loop is_input io infos ws = (infos', Ok tt) ∧ length infos' = N ∧
    (∀ k e, (k, e) ∈ places → infos' !! k = Some e) ∧ (∀ k, k ∉ places.*1 → infos' !! k = infos !! k).
Proof.
  induction places as [|[k e] places IH]; intros ws infos HN HF Hnd Hlt.
  - apply Forall2_nil_inv_r in HF as ->. exists infos. split_and!; [done|done|by intros ? ? ?%not_elem_of_nil|done].
  - apply Forall2_cons_inv_r in HF as (w & ws' & Hp & HF & ->). apply Forall_cons in Hlt as [Hk Hlt]. cbn in Hp, Hk.
    cbn in Hnd. apply NoDup_cons in Hnd as [Hk' Hnd]. cbn [setup_loop].
    rewrite (setup_tensor_placed _ _ _ _ _ _ Hp) by lia.
    destruct (IH ws' (<[k := e]> infos)) as (infos' & E & Hl & Hin & Hout); [by rewrite length_insert|done|done|done|].
    exists infos'. split_and!; [done|done| |].
    + intros j e' [[= -> ->]|Hin']%elem_of_cons; [|by apply Hin]. rewrite Hout by done. apply list_lookup_insert_eq. lia.
    + intros j Hj. cbn in Hj. apply not_elem_of_cons in Hj as [Hj1 Hj2]. rewrite Hout by done. by rewrite list_lookup_insert_ne.
Qed.

Lemma replicate_resize n : resize n [] = replicate n no_tensor.
Proof. unfold resize. rewrite take_nil. cbn. by rewrite Nat.sub_0_r. Qed.

(** Filtering a table of known contents. *)
Lemma filter_bound (infos : list QnnTensorInfo) (f : nat → option QnnTensorInfo) :
  (∀ k e, (k < length infos)%nat → f k = Some e → infos !! k = Some e ∧ is_Some (tensor_wrapper e)) →
  (∀ k, (k < length infos)%nat → f k = None → infos !! k = Some no_tensor) →
  List.filter bound infos = omap f (seq 0 (length infos)).
Proof.
  intros H1 H2. assert (∀ j l, (∀ p, l !! p = infos !! (j + p)%nat) → (j + length l = length infos)%nat →
    List.filter bound l = omap f (seq j (length l))) as Hgen.
  - intros j l. revert j. induction l as [|x l IH]; intros j Hl Hlen; [done|]. cbn [List.filter length seq omap list_omap].
    assert (infos !! j = Some x) as Hx by (rewrite <- (Nat.add_0_r j), <- Hl; done).
    cbn in Hlen. rewrite (IH (S j)); [|intros p; etrans; [exact (Hl (S p))|f_equal; lia]|lia]. unfold bound. destruct (f j) as [e|] eqn:Ef.
    + destruct (H1 j e ltac:(lia) Ef) as [E Hs]. rewrite E in Hx. injection Hx as ->. by rewrite bool_decide_true.
    + specialize (H2 j ltac:(lia) Ef). rewrite Hx in H2. by injection H2 as ->.
  - by apply (Hgen 0%nat infos).
Qed.

Lemma omap_positions {B} (f : nat → option B) (g : B → option string) (S : list string) names : ∀ j,
  (∀ p n, names !! p = Some n → f (j + p)%nat ≫= g = if decide (n ∈ S) then Some n else None) →
  omap g (omap f (seq j (length names))) = filter (.∈ S) names.
Proof.
  induction names as [|n names IH]; intros j Hf; [done|]. pose proof (Hf 0%nat n eq_refl) as H0. rewrite Nat.add_0_r in H0.
  rewrite filter_cons. cbn [length seq]. cbn [omap list_omap].
  assert (omap g (omap f (seq (Datatypes.S j) (length names))) = filter (.∈ S) names) as IH'.
  { apply IH. intros p n' Hp. rewrite <- (Hf (Datatypes.S p) n' Hp). do 2 f_equal. lia. }
  destruct (f j) as [b|]; cbn in H0.
  - cbn [omap list_omap]. rewrite H0. by destruct (decide (n ∈ S)); rewrite IH'.
  - destruct (decide (n ∈ S)); [done|]. exact IH'.
Qed.

(** The names of a table, in its order. *)
Definition names_of (infos : list QnnTensorInfo) : list string := omap (fun e => tensor_name_ <$> tensor_wrapper e) infos.

Lemma setup_spec backend is_input io names ws places :
  size (indices io) = length names → NoDup names → NoDup (tensor_name_ <$> ws) → ws ≠ [] →
  Forall2 (fun w p => placed is_input io w p.1 p.2 ∧ names !! p.1 = Some (tensor_name_ w)) ws places →
  ∃ infos, SetupTensors backend io [] ws is_input = (infos, Ok tt) ∧
    names_of infos = filter (.∈ (tensor_name_ <$> ws)) names ∧
    ∀ e, e ∈ infos → ∃ w k, w ∈ ws ∧ placed is_input io w k e.
Proof.
  intros Hsz Hnd Hws Hne HF.
  assert (Forall2 (fun w p => placed is_input io w p.1 p.2) ws places) as HP by (eapply Forall2_impl; [exact HF|by intros ? ? []]).
  assert (∀ k e, (k, e) ∈ places → ∃ w, w ∈ ws ∧ placed is_input io w k e ∧ names !! k = Some (tensor_name_ w)) as Hpl.
  { intros k e Hin. apply list_elem_of_lookup in Hin as [i Hi]. destruct (Forall2_lookup_r _ _ _ _ _ HF Hi) as (w & Hw & Hp & Hn).
    exists w. split; [by eapply list_elem_of_lookup_2|done]. }
  assert (Forall (fun p => p.1 < length names)%nat places) as Hlt.
  { apply Forall_forall. intros [k e] Hin. destruct (Hpl k e Hin) as (w & _ & _ & Hn). by eapply lookup_lt_Some. }
  assert (NoDup places.*1) as Hndp.
  { apply NoDup_alt. intros i j k Hi Hj. apply list_lookup_fmap_Some in Hi as ([k1 e1] & E1 & Hi), Hj as ([k2 e2] & E2 & Hj). cbn in *. subst.
    destruct (Forall2_lookup_r _ _ _ _ _ HF Hi) as (w1 & Hw1 & _ & Hn1), (Forall2_lookup_r _ _ _ _ _ HF Hj) as (w2 & Hw2 & _ & Hn2).
    cbn in *. subst. rewrite Hn1 in Hn2. injection Hn2 as E. eapply (NoDup_lookup _ _ _ (tensor_name_ w1) Hws).
    - by rewrite list_lookup_fmap, Hw1.
    - by rewrite list_lookup_fmap, Hw2, E. }
  destruct (setup_loop_places is_input io (length names) places ws (replicate (length names) no_tensor))
    as (infos & Hloop & Hlen & Hin & Hout); [by rewrite length_replicate|done..|].
  exists (List.filter bound infos). set (f := fun k => (list_to_map places : gmap nat QnnTensorInfo) !! k).
  assert (∀ k e, f k = Some e ↔ (k, e) ∈ places) as Hf by (intros; unfold f; by rewrite elem_of_list_to_map).
  assert (List.filter bound infos = omap f (seq 0 (length names))) as Eo.
  { rewrite <- Hlen. apply filter_bound.
    - intros k e _ Hk%Hf. split; [by apply Hin|]. destruct (Hpl k e Hk) as (w & _ & [-> _ _ _] & _). done.
    - intros k Hk Hfk. rewrite Hout by (by apply not_elem_of_list_to_map). rewrite lookup_replicate_2; [done|lia]. }
  split_and!.
  - unfold SetupTensors. destruct ws as [|w0 ws0] eqn:Ews; [done|]. rewrite <- Ews in *.
    assert (length ws ≤ length names)%nat as Hle.
    { rewrite <- (length_fmap tensor_name_). apply submseteq_length, NoDup_submseteq; [done|]. intros n (w & -> & Hw)%list_elem_of_fmap.
      apply list_elem_of_lookup in Hw as [i Hi]. destruct (Forall2_lookup_l _ _ _ _ _ HF Hi) as (p & _ & _ & Hn). by eapply list_elem_of_lookup_2. }
    rewrite Hsz, (proj2 (Nat.ltb_ge _ _)) by done. rewrite replicate_resize, Hloop. done.
  - rewrite Eo. unfold names_of. apply omap_positions. intros p n Hp. cbn [Nat.add]. destruct (f p) as [e|] eqn:Ef; cbn.
    + apply Hf, Hpl in Ef as (w & Hw & [-> _ _ _] & Hn). cbn. rewrite Hp in Hn. injection Hn as ->.
      by rewrite decide_True by (apply list_elem_of_fmap; eauto).
    + rewrite decide_False; [done|]. intros (w & -> & Hw)%list_elem_of_fmap. apply list_elem_of_lookup in Hw as [i Hi].
      destruct (Forall2_lookup_l _ _ _ _ _ HF Hi) as ([k e] & Hpk & _ & Hn). cbn in Hn.
      assert (k = p) as -> by (by eapply (NoDup_lookup names)). apply list_elem_of_lookup_2, Hf in Hpk. congruence.
  - intros e He. rewrite Eo in He. apply list_elem_of_omap in He as (k & _ & Hk%Hf). destruct (Hpl k e Hk) as (w & Hw & Hp & _). eauto.
Qed.

End SetupFacts.

(** ** The tables of a composed graph *)

Section Binding.
Context `{SafeInt}.

Lemma set_info_spec c ins outs : SetGraphInputOutputInfo c None = (ins, outs, Ok tt) →
  NoDup (fused_input_order c) → NoDup (fused_output_order c) → NoDup (input_order c) → NoDup (output_order c) →
  (∀ n k, indices ins !! n = Some k ↔ input_order c !! k = Some n) ∧ size (indices ins) = length (input_order c) ∧
  size (indices outs) = length (fused_output_order c) ∧
  (∀ n, n ∈ fused_input_order c → ∃ p d, tensors ins !! n = Some (OnnxTensor p (def_type d) (def_shape d)) ∧
     input_defs c !! p = Some d ∧ def_name d = n) ∧
  (∀ p d, output_defs c !! p = Some d → tensors outs !! def_name d = Some (OnnxTensor p (def_type d) (def_shape d))).
Proof.
  intros E Hfi Hfo Hi Ho. unfold SetGraphInputOutputInfo in E.
  destruct (declare_spec (input_order c) Hi) as (_ & Dt & Di & Ds), (declare_spec (output_order c) Ho) as (_ & Ot & Oi & Os).
  destruct (describe "input" _ _ _ _) as [ins' st] eqn:E1. destruct st as [[]|]; [|done].
  destruct (describe "output" _ _ _ _) as [outs' st] eqn:E2. destruct st as [[]|]; [|done]. injection E as -> ->.
  apply describe_spec in E1 as (_ & Ii & It & _); [|exact Hfi|by intros; rewrite Dt].
  assert (described (fun _ => false) (output_defs c) = fused_output_order c) as Ed.
  { unfold described, fused_output_order. generalize (def_name <$> output_defs c). induction l as [|x l IH]; [done|].
    by rewrite filter_cons_True, IH. }
  apply describe_spec in E2 as (_ & Oi2 & Ot2 & _); [|by rewrite Ed|by intros; rewrite Ot].
  split_and!.
  - by rewrite Ii.
  - by rewrite Ii.
  - rewrite Oi2, Os. apply Permutation_length. by apply order_perm.
  - intros n Hn. unfold fused_input_order in Hn. apply list_elem_of_filter in Hn as [Hsk Hn]. apply list_elem_of_fmap in Hn as (d & -> & Hd).
    apply list_elem_of_lookup in Hd as [p Hp]. exists p, d. split_and!; [|done|done]. apply It. right. by exists p, d.
  - intros p d Hp. apply Ot2. right. by exists p, d.
Qed.

(** What a row of a table says of the values of the fused node. *)
Definition binds (ws : list QnnTensorWrapper) (defs : list ValueDef) (e : QnnTensorInfo) : Prop :=
  ∃ w n d, w ∈ ws ∧ tensor_wrapper e = Some w ∧ sized w n ∧ tensor_byte_size e = u32 n ∧
    defs !! ort_index e = Some d ∧ def_name d = tensor_name_ w.

(** Wrappers that can be set up: named after values of the fused node, each once. *)
Definition set_up (ws : list QnnTensorWrapper) (names : list string) : Prop :=
  ws ≠ [] ∧ NoDup (tensor_name_ <$> ws) ∧ ∀ w, w ∈ ws → tensor_name_ w ∈ names ∧ ∃ n, sized w n.

Lemma placed_all is_input io ws (names : list string) : (∀ w, w ∈ ws → ∃ k e, placed is_input io w k e ∧ names !! k = Some (tensor_name_ w)) →
  ∃ places, Forall2 (fun w p => placed is_input io w p.1 p.2 ∧ names !! p.1 = Some (tensor_name_ w)) ws places.
Proof.
  induction ws as [|w ws IH]; intros Hw; [by exists []|]. destruct (Hw w) as (k & e & Hp); [left|].
  destruct IH as [ps Hps]; [intros; apply Hw; by right|]. exists ((k, e) :: ps). by constructor.
Qed.


End Binding.

(** ** Aliases *)

Lemma alias_entry_other io q f n : n ≠ q → indices (alias_entry io q f) !! n = indices io !! n ∧ tensors (alias_entry io q f) !! n = tensors io !! n.
Proof.
  intros Hn. unfold alias_entry. destruct (_ || _); [done|].
  destruct (indices io !! f) as [i|]; cbn; destruct (tensors io !! f) as [t|]; cbn;
    rewrite ?emplace_new_lookup, ?bool_decide_false by done; done.
Qed.

Lemma alias_entry_new io q f : q ≠ f → indices io !! q = None → tensors io !! q = None →
  indices (alias_entry io q f) !! q = indices io !! f ∧ tensors (alias_entry io q f) !! q = tensors io !! f.
Proof.
  intros Hq Hi Ht. unfold alias_entry. rewrite bool_decide_false by done. rewrite Hi. rewrite bool_decide_false by (by intros []). cbn.
  destruct (indices io !! f) as [i|] eqn:Ei; cbn; destruct (tensors io !! f) as [[]|] eqn:Et; cbn;
    rewrite ?emplace_new_lookup, ?bool_decide_true, ?Hi, ?Ht by done; done.
Qed.

(** When a context binary renames inputs or outputs, every renamed QNN tensor is found under
    its new name with the index and description of the value it stands for, whatever the order in
    which the map of overrides is iterated, and all other names keep their entries; the new names
    are distinct and are not names of the fused node. *)
Theorem renamed_io_resolves overrides io qnn_names :
  NoDup overrides.*2 → (∀ n, n ∈ overrides.*2 → indices io !! n = None ∧ tensors io !! n = None ∧ n ∉ overrides.*1) →
  let io' := alias_by_name overrides io qnn_names in
  (∀ internal external, (internal, external) ∈ overrides → external ∈ qnn_names →
     indices io' !! external = indices io !! internal ∧ tensors io' !! external = tensors io !! internal) ∧
  (∀ n, n ∉ overrides.*2 → indices io' !! n = indices io !! n ∧ tensors io' !! n = tensors io !! n).
Proof.
  cbv zeta. unfold alias_by_name. revert io. induction overrides as [|[i e] overrides IH]; intros io Hnd Hnew; cbn.
  { split; [by intros ? ? ?%not_elem_of_nil|done]. }
  cbn in Hnd. apply NoDup_cons in Hnd as [He Hnd]. destruct (Hnew e) as (Hi0 & Ht0 & Hne); [left|]. cbn in Hne.
  apply not_elem_of_cons in Hne as [Hei Hne].
  set (io1 := if bool_decide (e ∈ qnn_names) then alias_entry io e i else io).
  assert (∀ n, n ≠ e → indices io1 !! n = indices io !! n ∧ tensors io1 !! n = tensors io !! n) as Ho
    by (intros n Hn; unfold io1; case_bool_decide; [by apply alias_entry_other|done]).
  destruct (IH io1 Hnd) as [Hall Hrest].
  { intros n Hn. assert (n ≠ e) by (by intros ->). destruct (Ho n ltac:(done)) as [-> ->].
    destruct (Hnew n) as (? & ? & Hni); [by right|]. cbn in Hni. split_and!; [done|done|]. by apply not_elem_of_cons in Hni as [_ ?]. }
  split.
  - intros i' e' [[= -> ->]|Hin]%elem_of_cons Hq.
    + destruct (Hrest e) as [-> ->]; [done|]. unfold io1. rewrite bool_decide_true by done. by apply alias_entry_new.
    + destruct (Hall i' e' Hin Hq) as [-> ->]. apply Ho. intros ->. apply Hne. by apply (list_elem_of_fmap_2' fst _ (e, e')).
  - intros n Hn. apply not_elem_of_cons in Hn as [Hn1 Hn2]. destruct (Hrest n Hn2) as [-> ->]. by apply Ho.
Qed.

(** ** Examples *)

(** A subgraph with inputs [b], [w] (a constant) and [a_q] that the ONNX model declares as
    [a], [b]. *)
Definition example_context : QnnModelContext :=
  Context_ (Some [(Some "w", Some true)])
    [Def "b" ONNX_FLOAT [2]; Def "w" ONNX_FLOAT [3]; Def "a_q" ONNX_UINT8 [4]] [Def "y" ONNX_FLOAT [2]]
    (Some ["a"; "b"]) (Some ["y"]) (Some [("a_q", "a")]).

Definition io_wrapper (n : string) (dt : Qnn_DataType_t) (dims : list Z) : QnnTensorWrapper :=
  TensorWrapper n "" dims [] (TENSOR_V1 (Body 0 (Some n) TENSOR_TYPE_APP_WRITE 0 dt (params_ default_wrapper) 1 None TENSORMEMTYPE_RAW
    (ClientBuffer PNull 0))) default_wrapper.


Lemma renamed_io_resolves_witness :
  indices (alias_by_name [("a_q", "a")] (declare ["b"; "a_q"] Clear) ["a"]) !! "a" = Some 1%nat.
Proof.
  destruct (renamed_io_resolves [("a_q", "a")] (declare ["b"; "a_q"] Clear) ["a"]) as [H _].
  - repeat constructor; set_solver.
  - intros n Hn. apply list_elem_of_singleton in Hn as ->. split_and!; [reflexivity|reflexivity|set_solver].
  - destruct (H "a_q" "a") as [-> _]; [by left|by left|]. reflexivity.
Defined.
