(* ===== verification/ThreadPool.v ===== *)
(** * The job thread pool

    [QnnJobThreadPool] and [QnnJobThread] of [builder/qnn_thread_pool.{h,cc}] as a transition
    system: each worker has a program counter, each critical section of a mutex is one step,
    and the steps of the workers, of [Start], [Stop] and [SubmitJob] interleave freely.

    [Start] and [Stop] hold [state_mutex_] throughout; [Stop] joins the workers one after the
    other while they go on.  The checks of [IsRunning] before them, in a critical section of
    their own, are left out, so the model also has the runs of callers that race past the check.
    A caller of [WaitForQueuedJobsToFinish] has a program counter too; it changes nothing.  [wait_for] can return at
    any time, because of its timeout. *)

From stdpp Require Import list_tactics.
From S2P Require Import Prelude.
Local Open Scope Z_scope.

(** A [std::function], possibly empty. *)
Inductive job := Job (id : nat) | EmptyJob.

(** Where a worker is: in [GetJobFromQueueIfExists], in the job, before
    [NotifyJobFinished], in [WaitForJobQueueUpdate], before the loop condition. *)
Inductive location := Exited | AtGet | InJob (id : nat) | JobDone (id : nat) | AtWait | AtCheck.

Record QnnJobThread := Thread { thread_ : bool; thread_stopped_ : bool; at_ : location }.

(** Who holds [state_mutex_]: nobody, or a [Stop] that looks at or joins thread [k]. *)
Inductive control := Free | Stopping (k : nat) | Joining (k : nat).

Record QnnJobThreadPool := Pool {
  job_queue_ : list job;
  in_flight_jobs_ : Z;
  running_ : bool;
  thread_pool_ : list QnnJobThread;
  state_mutex_ : control;
  submitted : list job;   (* ghost: every job in the order of submission *)
  taken : list job;       (* ghost: every job in the order it left the queue *)
  finished : list nat     (* ghost: the jobs that returned *)
}.

(** ** Operations *)

Definition new_pool (max_num_threads : nat) : QnnJobThreadPool :=
  Pool [] 0 false (replicate max_num_threads (Thread false true Exited)) Free [] [] [].

Definition with_threads (p : QnnJobThreadPool) (ts : list QnnJobThread) : QnnJobThreadPool :=
  Pool (job_queue_ p) (in_flight_jobs_ p) (running_ p) ts (state_mutex_ p) (submitted p) (taken p) (finished p).

Definition with_control (p : QnnJobThreadPool) (running : bool) (c : control) : QnnJobThreadPool :=
  Pool (job_queue_ p) (in_flight_jobs_ p) running (thread_pool_ p) c (submitted p) (taken p) (finished p).

Definition SubmitJob (p : QnnJobThreadPool) (j : job) : QnnJobThreadPool :=
  Pool (job_queue_ p ++ [j]) (in_flight_jobs_ p) (running_ p) (thread_pool_ p) (state_mutex_ p)
    (submitted p ++ [j]) (taken p) (finished p).

Definition GetJobFromQueueIfExists (p : QnnJobThreadPool) : option job * QnnJobThreadPool :=
  match job_queue_ p with
  | [] => (None, p)
  | j :: queue =>
      (Some j, Pool queue (u64 (in_flight_jobs_ p + 1)) (running_ p) (thread_pool_ p) (state_mutex_ p)
                 (submitted p) (taken p ++ [j]) (finished p))
  end.

Definition NotifyJobFinished (p : QnnJobThreadPool) : QnnJobThreadPool :=
  Pool (job_queue_ p) (u64 (in_flight_jobs_ p - 1)) (running_ p) (thread_pool_ p) (state_mutex_ p)
    (submitted p) (taken p) (finished p).

Definition job_returns (p : QnnJobThreadPool) (id : nat) : QnnJobThreadPool :=
  Pool (job_queue_ p) (in_flight_jobs_ p) (running_ p) (thread_pool_ p) (state_mutex_ p)
    (submitted p) (taken p) (finished p ++ [id]).

(** The predicate that [WaitForQueuedJobsToFinish] waits for. *)
Definition jobs_finished (p : QnnJobThreadPool) : bool :=
  match job_queue_ p with [] => in_flight_jobs_ p =? 0 | _ => false end.

(** Where a caller of [WaitForQueuedJobsToFinish] is: before [IsRunning], in the wait, or back,
    because the pool was not running or because the wait has ended. *)
Inductive wait_location : Set := WaitCheck | Waiting | NotRunning | Finished.

(** [IsRunning] takes [state_mutex_]; [None]: the caller is blocked or back. *)
Definition WaitForQueuedJobsToFinish (p : QnnJobThreadPool) (w : wait_location) : option wait_location :=
  match w with
  | WaitCheck =>
      match state_mutex_ p with Free => Some (if running_ p then Waiting else NotRunning) | _ => None end
  | Waiting => if jobs_finished p then Some Finished else None
  | NotRunning | Finished => None
  end.

Definition move_to (p : QnnJobThreadPool) (i : nat) (t : QnnJobThread) (l : location) : QnnJobThreadPool :=
  with_threads p (<[i := Thread (thread_ t) (thread_stopped_ t) l]> (thread_pool_ p)).

(** One step of the loop of worker [i]; [None]: it has ended or does not exist. *)
Definition worker_step (p : QnnJobThreadPool) (i : nat) : option QnnJobThreadPool :=
  match thread_pool_ p !! i with
  | None => None
  | Some t =>
      match at_ t with
      | Exited => None
      | AtGet =>
          let '(j, p) := GetJobFromQueueIfExists p in
          Some (move_to p i t (match j with Some (Job id) => InJob id | _ => AtWait end))
      | InJob id => Some (move_to (job_returns p id) i t (JobDone id))
      | JobDone _ => Some (move_to (NotifyJobFinished p) i t AtCheck)
      | AtWait => Some (move_to p i t AtCheck)
      | AtCheck => Some (move_to p i t (if thread_stopped_ t then Exited else AtGet))
      end
  end.

Definition Thread_Start (t : QnnJobThread) : QnnJobThread :=
  if negb (thread_ t) && thread_stopped_ t then Thread true false AtGet else t.

Definition Start (p : QnnJobThreadPool) : option QnnJobThreadPool :=
  match state_mutex_ p with
  | Free => Some (with_control (with_threads p (Thread_Start <$> thread_pool_ p)) true Free)
  | _ => None
  end.

(** [Stop]: take the mutex, then for each thread ask it to stop and join it. *)
Definition Stop_begin (p : QnnJobThreadPool) : option QnnJobThreadPool :=
  match state_mutex_ p with Free => Some (with_control p false (Stopping 0)) | _ => None end.

Definition Stop_step (p : QnnJobThreadPool) : option QnnJobThreadPool :=
  match state_mutex_ p with
  | Free => None
  | Stopping k =>
      match thread_pool_ p !! k with
      | None => Some (with_control p (running_ p) Free)
      | Some t =>
          if thread_ t && negb (thread_stopped_ t) then
            Some (with_control (with_threads p (<[k := Thread true true (at_ t)]> (thread_pool_ p)))
                    (running_ p) (Joining k))
          else Some (with_control p (running_ p) (Stopping (S k)))
      end
  | Joining k =>
      match thread_pool_ p !! k with
      | Some (Thread _ s Exited) =>
          Some (with_control (with_threads p (<[k := Thread false s Exited]> (thread_pool_ p)))
                  (running_ p) (Stopping (S k)))
      | _ => None
      end
  end.

Inductive step : QnnJobThreadPool → QnnJobThreadPool → Prop :=
| step_submit p j : step p (SubmitJob p j)
| step_worker p i p' : worker_step p i = Some p' → step p p'
| step_start p p' : Start p = Some p' → step p p'
| step_stop_begin p p' : Stop_begin p = Some p' → step p p'
| step_stop p p' : Stop_step p = Some p' → step p p'.

Definition worker_moves (p p' : QnnJobThreadPool) : Prop := ∃ i, worker_step p i = Some p'.

(** ** Invariant *)

Definition job_id (j : job) : option nat := match j with Job id => Some id | EmptyJob => None end.
Definition is_empty (j : job) : bool := match j with EmptyJob => true | _ => false end.

(** The jobs that workers run, and the workers that count as busy. *)
Definition current (t : QnnJobThread) : option nat := match at_ t with InJob id => Some id | _ => None end.
Definition busy (t : QnnJobThread) : bool := match at_ t with InJob _ | JobDone _ => true | _ => false end.
Definition busy_count (ts : list QnnJobThread) : Z := Z.of_nat (length (filter (fun t => busy t = true) ts)).
Definition empty_taken (p : QnnJobThreadPool) : Z := Z.of_nat (length (filter (fun j => is_empty j = true) (taken p))).

(** A worker of a thread that does not exist is not running; a worker that left its loop was
    asked to stop. *)
Definition thread_ok (t : QnnJobThread) : Prop :=
  (thread_ t = false → at_ t = Exited ∧ thread_stopped_ t = true) ∧ (at_ t = Exited → thread_stopped_ t = true).

Definition control_ok (p : QnnJobThreadPool) : Prop :=
  match state_mutex_ p with
  | Free => ∀ i t, thread_pool_ p !! i = Some t → thread_ t = running_ p ∧ thread_stopped_ t = negb (running_ p)
  | Stopping k => running_ p = false ∧ (∀ i t, thread_pool_ p !! i = Some t →
      (i < k → thread_ t = false)%nat ∧ (k ≤ i → thread_ t = negb (thread_stopped_ t))%nat)
  | Joining k => running_ p = false ∧ (∀ i t, thread_pool_ p !! i = Some t →
      (i < k → thread_ t = false)%nat ∧ (i = k → thread_ t = true ∧ thread_stopped_ t = true)%nat ∧
      (k < i → thread_ t = negb (thread_stopped_ t))%nat)
  end.

Record inv (p : QnnJobThreadPool) : Prop := {
  inv_threads : Forall thread_ok (thread_pool_ p);
  inv_control : control_ok p;
  inv_fifo : submitted p = taken p ++ job_queue_ p;
  inv_count : in_flight_jobs_ p = u64 (busy_count (thread_pool_ p) + empty_taken p);
  inv_jobs : omap job_id (taken p) ≡ₚ finished p ++ omap current (thread_pool_ p)
}.

(** ** Facts *)

Lemma insert_split {A} (l : list A) i x y : l !! i = Some x → ∃ l1 l2, l = l1 ++ x :: l2 ∧ <[i := y]> l = l1 ++ y :: l2.
Proof.
  intros Hi. apply list_elem_of_split_length in Hi as (l1 & l2 & -> & ->). exists l1, l2. split; [done|].
  by rewrite insert_app_r_alt, Nat.sub_diag by lia.
Qed.

Lemma busy_insert ts i t t' : ts !! i = Some t →
  busy_count (<[i := t']> ts) = busy_count ts - Z.b2z (busy t) + Z.b2z (busy t').
Proof.
  intros Hi. destruct (insert_split ts i t t' Hi) as (l1 & l2 & -> & ->). unfold busy_count.
  rewrite !filter_app, !filter_cons, !length_app.
  repeat case_decide; destruct (busy t), (busy t'); try done; cbn; lia.
Qed.

Lemma current_insert ts i t t' : ts !! i = Some t →
  omap current (<[i := t']> ts) ++ option_list (current t) ≡ₚ omap current ts ++ option_list (current t').
Proof.
  intros Hi. destruct (insert_split ts i t t' Hi) as (l1 & l2 & -> & ->). rewrite !omap_app. cbn.
  destruct (current t), (current t'); cbn; rewrite ?app_nil_r, <- ?app_assoc; try done; solve_Permutation.
Qed.

Lemma inv_move p q i t l : inv p → thread_pool_ p !! i = Some t → at_ t ≠ Exited → (l = Exited → thread_stopped_ t = true) →
  thread_pool_ q = thread_pool_ p → state_mutex_ q = state_mutex_ p → running_ q = running_ p →
  submitted q = taken q ++ job_queue_ q →
  in_flight_jobs_ q = u64 (busy_count (thread_pool_ p) - Z.b2z (busy t)
    + Z.b2z (busy (Thread (thread_ t) (thread_stopped_ t) l)) + empty_taken q) →
  omap job_id (taken q) ++ option_list (current t) ≡ₚ
    finished q ++ omap current (thread_pool_ p) ++ option_list (current (Thread (thread_ t) (thread_stopped_ t) l)) →
  inv (move_to q i t l).
Proof.
  intros [I1 I2 I3 I4 I5] Hi Hat Hl Ets Ec Er Hf Hn Hj. set (t' := Thread _ _ _) in *.
  assert (thread_ok t) as [Ht1 Ht2] by (by eapply Forall_lookup_1).
  assert (i < length (thread_pool_ p))%nat as Hlt by (by eapply lookup_lt_Some).
  split; cbn [move_to with_threads thread_pool_ state_mutex_ running_ submitted taken job_queue_ in_flight_jobs_ finished];
    rewrite ?Ets; fold t'.
  - apply Forall_insert; [done|]. split; cbn; [|done]. intros E. by destruct Hat, (Ht1 E).
  - unfold control_ok in *. cbn [move_to with_threads thread_pool_ state_mutex_ running_]. rewrite Ec, Er, Ets. fold t'.
    assert (∀ j u, <[i := t']> (thread_pool_ p) !! j = Some u →
      ∃ u0, thread_pool_ p !! j = Some u0 ∧ thread_ u = thread_ u0 ∧ thread_stopped_ u = thread_stopped_ u0) as Hsame.
    { intros j u [(<- & <- & _)|[_ Hu]]%list_lookup_insert_Some; [by exists t|by exists u]. }
    destruct (state_mutex_ p).
    + intros j u Hu. destruct (Hsame j u Hu) as (u0 & Hu0 & -> & ->). eauto.
    + split; [apply I2|]. intros j u Hu. destruct (Hsame j u Hu) as (u0 & Hu0 & -> & ->). by apply I2.
    + split; [apply I2|]. intros j u Hu. destruct (Hsame j u Hu) as (u0 & Hu0 & -> & ->). by apply I2.
  - done.
  - rewrite (busy_insert _ _ t) by done. exact Hn.
  - apply (inj (.++ option_list (current t))). rewrite Hj, <- app_assoc, current_insert by done. done.
Qed.

Lemma u64_add_l a b : u64 (u64 a + b) = u64 (a + b).
Proof. unfold wrapu. apply Zplus_mod_idemp_l. Qed.

Lemma worker_inv p i p' : inv p → worker_step p i = Some p' → inv p'.
Proof.
  intros Hi Hw. unfold worker_step in Hw. destruct (thread_pool_ p !! i) as [t|] eqn:Et; [|done].
  destruct (at_ t) as [| |id|id| |] eqn:Ea; [done| | | | |].
  - unfold GetJobFromQueueIfExists in Hw. pose proof (inv_fifo _ Hi) as Hf. destruct (job_queue_ p) as [|j queue] eqn:Eq.
    + injection Hw as <-. eapply inv_move; try done; try (by rewrite Ea); [by rewrite Eq|..]; unfold busy, current; rewrite Ea; cbn.
      * rewrite (inv_count _ Hi). f_equal. lia.
      * rewrite !app_nil_r. apply Hi.
    + injection Hw as <-. eapply inv_move; try done; try (by rewrite Ea); [by destruct j|..]; cbn.
      * by rewrite Hf, <- app_assoc.
      * rewrite (inv_count _ Hi), u64_add_l. f_equal. unfold empty_taken, busy. rewrite Ea. cbn [taken].
        rewrite filter_app, filter_cons, length_app. case_decide; destruct j; try done; cbn; lia.
      * rewrite omap_app. unfold current. rewrite Ea. destruct j; cbn; rewrite ?app_nil_r, (inv_jobs _ Hi); by rewrite ?app_assoc.
  - injection Hw as <-. eapply inv_move; try done; try (by rewrite Ea); [apply Hi|..]; unfold busy, current; rewrite Ea; cbn.
    + rewrite (inv_count _ Hi). f_equal. unfold empty_taken. cbn. lia.
    + rewrite (inv_jobs _ Hi), app_nil_r. solve_Permutation.
  - injection Hw as <-. eapply inv_move; try done; try (by rewrite Ea); [apply Hi|..]; unfold busy, current; rewrite Ea; cbn.
    + rewrite (inv_count _ Hi). change (?a - 1) with (a + -1). rewrite u64_add_l. f_equal. unfold empty_taken. cbn. lia.
    + rewrite !app_nil_r. apply Hi.
  - injection Hw as <-. eapply inv_move; try done; try (by rewrite Ea); [apply Hi|..]; unfold busy, current; rewrite Ea; cbn.
    + rewrite (inv_count _ Hi). f_equal. lia.
    + rewrite !app_nil_r. apply Hi.
  - injection Hw as <-. eapply inv_move; try done; try (by rewrite Ea); [by destruct (thread_stopped_ t)|apply Hi|..];
      unfold busy, current; rewrite Ea; cbn.
    + rewrite (inv_count _ Hi). f_equal. destruct (thread_stopped_ t); cbn; lia.
    + rewrite app_nil_r. destruct (thread_stopped_ t); cbn; rewrite app_nil_r; apply Hi.
Qed.

Lemma submit_inv p j : inv p → inv (SubmitJob p j).
Proof. intros [I1 I2 I3 I4 I5]. split; cbn; try done. by rewrite I3, app_assoc. Qed.

Lemma thread_start_same t : thread_ok t → busy (Thread_Start t) = busy t ∧ current (Thread_Start t) = current t ∧ thread_ok (Thread_Start t).
Proof.
  intros [H1 H2]. unfold Thread_Start. destruct (thread_ t) eqn:Et.
  { cbn [negb andb]. split_and!; [done|done|]. split; [congruence|done]. }
  destruct (H1 eq_refl) as [Ha Hs]. rewrite Hs. cbn. unfold busy, current. rewrite Ha. by repeat split.
Qed.

Lemma start_inv p p' : inv p → Start p = Some p' → inv p'.
Proof.
  intros [I1 I2 I3 I4 I5] Hs. unfold Start in Hs. destruct (state_mutex_ p) eqn:Em; simplify_eq.
  assert (busy_count (Thread_Start <$> thread_pool_ p) = busy_count (thread_pool_ p) ∧
    omap current (Thread_Start <$> thread_pool_ p) = omap current (thread_pool_ p)) as [Hb Hc].
  { clear - I1. unfold busy_count. induction I1 as [|t ts Ht _ [IH1 IH2]]; [done|].
    destruct (thread_start_same t Ht) as (Eb & Ec & _). rewrite fmap_cons, !filter_cons. cbn [omap list_omap].
    rewrite Eb, Ec, IH2. split; [|done]. case_decide; cbn [length]; lia. }
  split; cbn; try done; [|..|by rewrite Hb|by rewrite Hc].
  - apply Forall_fmap. eapply Forall_impl; [exact I1|]. intros t Ht. by apply thread_start_same.
  - unfold control_ok in *. rewrite Em in I2. cbn. intros i t Ht. rewrite list_lookup_fmap in Ht.
    apply fmap_Some in Ht as (t0 & Ht0 & ->). destruct (I2 i t0 Ht0) as [H1 H2]. unfold Thread_Start. rewrite H1, H2.
    destruct (running_ p); cbn; [by rewrite H1, H2|done].
Qed.

Lemma stop_begin_inv p p' : inv p → Stop_begin p = Some p' → inv p'.
Proof.
  intros [I1 I2 I3 I4 I5] Hs. unfold Stop_begin in Hs. destruct (state_mutex_ p) eqn:Em; simplify_eq.
  split; cbn; try done. unfold control_ok in *. rewrite Em in I2. cbn. split; [done|]. intros i t Ht.
  destruct (I2 i t Ht) as [-> ->]. split; [lia|by destruct (running_ p)].
Qed.

Lemma stop_inv p p' : inv p → Stop_step p = Some p' → inv p'.
Proof.
  intros [I1 I2 I3 I4 I5] Hs. unfold Stop_step in Hs. unfold control_ok in I2.
  destruct (state_mutex_ p) as [|k|k] eqn:Em; [done|destruct I2 as [Hr I2]..].
  - destruct (thread_pool_ p !! k) as [t|] eqn:Et; simplify_eq.
    + destruct (I2 k t Et) as [_ Hk]. specialize (Hk (le_n k)).
      destruct (thread_ t) eqn:Et1, (thread_stopped_ t) eqn:Et2; try done; cbn in Hs; simplify_eq.
      * split; cbn; try done.
        -- apply Forall_insert; [done|]. assert (thread_ok t) as [_ H2] by (by eapply Forall_lookup_1). by split; cbn.
        -- split; [done|]. intros i u [(<- & <- & _)|[Hne Hu]]%list_lookup_insert_Some; [cbn; split_and!; lia || done|].
           destruct (I2 i u Hu) as [H1 H2]. split_and!; [done|by intros ->|intros; apply H2; lia].
        -- rewrite (busy_insert _ _ t) by done. rewrite I4. unfold empty_taken, busy. cbn. f_equal. lia.
        -- rewrite I5. f_equiv. apply (inj (.++ option_list (current t))). by rewrite (current_insert _ _ t).
      * split; cbn; try done. split; [done|]. intros i u Hu. destruct (I2 i u Hu) as [H1 H2]. split; [|intros; apply H2; lia].
        intros Hlt. destruct (decide (i = k)) as [->|]; [congruence|apply H1; lia].
    + split; cbn; try done. unfold control_ok. cbn. rewrite Hr. intros i u Hu.
      assert (i < k)%nat as Hik by (apply lookup_lt_Some in Hu; apply lookup_ge_None in Et; lia).
      assert (thread_ok u) as [H1 _] by (by eapply Forall_lookup_1). destruct (I2 i u Hu) as [H2 _].
      split; [by apply H2|]. by apply H1, H2.
  - destruct (thread_pool_ p !! k) as [[b s []]|] eqn:Et; simplify_eq.
    destruct (I2 k _ Et) as (_ & Hk & _). destruct (Hk eq_refl) as [Hb Hst]. cbn in Hb, Hst. subst b s.
    split; cbn; try done.
    + apply Forall_insert; [done|]. by split.
    + split; [done|]. intros i u [(<- & <- & _)|[Hne Hu]]%list_lookup_insert_Some; [cbn; split; [done|lia]|].
      destruct (I2 i u Hu) as (H1 & _ & H2). split; intros; [apply H1; lia|apply H2; lia].
    + rewrite (busy_insert _ _ (Thread true true Exited)) by done. rewrite I4. unfold empty_taken. cbn. f_equal. lia.
    + rewrite I5. f_equiv. apply (inj (.++ option_list (current (Thread true true Exited)))).
      by rewrite (current_insert _ _ (Thread true true Exited)).
Qed.

Lemma pool_step_inv p p' : step p p' → inv p → inv p'.
Proof.
  destruct 1; intros Hi; [by apply submit_inv|by eapply worker_inv|by eapply start_inv|by eapply stop_begin_inv|by eapply stop_inv].
Qed.

Lemma new_pool_inv n : inv (new_pool n).
Proof.
  assert (∀ i t, replicate n (Thread false true Exited) !! i = Some t → t = Thread false true Exited) as Ht.
  { intros i t Hi. by apply lookup_replicate in Hi as [-> _]. }
  split; cbn; try done.
  - apply Forall_replicate. by split.
  - intros i t Hi. by rewrite (Ht i t Hi).
  - unfold busy_count. rewrite filter_none; [done|]. intros t Hi. by apply elem_of_replicate in Hi as [-> _].
  - clear Ht. induction n as [|n IH]; [done|exact IH].
Qed.

Lemma step_length p p' : step p p' → length (thread_pool_ p') = length (thread_pool_ p).
Proof.
  destruct 1 as [p j|p i p' Hw|p p' Hs|p p' Hs|p p' Hs]; [done|..].
  - unfold worker_step, GetJobFromQueueIfExists in Hw. repeat case_match; simplify_eq; cbn; by rewrite ?length_insert.
  - unfold Start in Hs. case_match; simplify_eq. cbn. by rewrite length_fmap.
  - unfold Stop_begin in Hs. by case_match; simplify_eq.
  - unfold Stop_step in Hs. repeat case_match; simplify_eq; cbn; by rewrite ?length_insert.
Qed.

Lemma pool_reachable_inv n p : rtc step (new_pool n) p → inv p ∧ length (thread_pool_ p) = n.
Proof.
  apply (rtc_ind_r (fun p => inv p ∧ length (thread_pool_ p) = n)).
  - split; [apply new_pool_inv|apply length_replicate].
  - intros q q' _ Hs [Hi Hl]. split; [by eapply pool_step_inv|]. by rewrite (step_length _ _ Hs).
Qed.

(** *** Progress *)

Definition rank (l : location) : nat :=
  match l with Exited => 0 | AtGet => 0 | AtCheck => 1 | AtWait => 2 | JobDone _ => 2 | InJob _ => 3 end.

(** A worker that is not asked to stop comes back to the head of its loop. *)
Lemma worker_to_get p i t : thread_pool_ p !! i = Some t → thread_stopped_ t = false → at_ t ≠ Exited →
  ∃ p', rtc worker_moves p p' ∧ thread_pool_ p' = <[i := Thread (thread_ t) false AtGet]> (thread_pool_ p) ∧
    job_queue_ p' = job_queue_ p ∧ submitted p' = submitted p.
Proof.
  remember (rank (at_ t)) as r eqn:Er. revert p t Er. induction (lt_wf r) as [r _ IH]. intros p t -> Hi Hs Ha.
  assert (i < length (thread_pool_ p))%nat as Hlt by (by eapply lookup_lt_Some).
  assert (∀ q l, thread_pool_ q = thread_pool_ p → job_queue_ q = job_queue_ p → submitted q = submitted p →
    worker_step p i = Some (move_to q i t l) → l ≠ Exited → (rank l < rank (at_ t))%nat →
    ∃ p', rtc worker_moves p p' ∧ thread_pool_ p' = <[i := Thread (thread_ t) false AtGet]> (thread_pool_ p) ∧
      job_queue_ p' = job_queue_ p ∧ submitted p' = submitted p) as Hstep.
  { intros q l E1 E2 E3 Hw Hl Hr.
    destruct (IH (rank l) Hr (move_to q i t l) (Thread (thread_ t) (thread_stopped_ t) l) eq_refl) as (p' & Hp & Ht & Hq & Hsub); cbn.
    - rewrite E1. by apply list_lookup_insert_eq.
    - done.
    - done.
    - exists p'. split; [eapply rtc_l; [by exists i|done]|]. cbn in Ht. rewrite Ht, E1, list_insert_insert_eq. cbn in Hq, Hsub.
      by rewrite Hq, E2, Hsub, E3. }
  destruct (at_ t) as [| |id|id| |] eqn:Ea; [done| | | | |].
  - exists p. split_and!; try done. rewrite list_insert_id; [done|]. rewrite Hi. by destruct t; cbn in *; subst.
  - apply (Hstep (job_returns p id) (JobDone id)); try done; [|cbn; lia]. unfold worker_step. by rewrite Hi, Ea.
  - apply (Hstep (NotifyJobFinished p) AtCheck); try done; [|cbn; lia]. unfold worker_step. by rewrite Hi, Ea.
  - apply (Hstep p AtCheck); try done; [|cbn; lia]. unfold worker_step. by rewrite Hi, Ea.
  - apply (Hstep p AtGet); try done; [|cbn; lia]. unfold worker_step. by rewrite Hi, Ea, Hs.
Qed.

Definition live (ts : list QnnJobThread) : Prop := Forall (fun t => thread_stopped_ t = false ∧ at_ t ≠ Exited) ts.
Definition at_head (t : QnnJobThread) : Prop := thread_stopped_ t = false ∧ at_ t = AtGet.

Lemma all_to_get p : live (thread_pool_ p) →
  ∃ p', rtc worker_moves p p' ∧ Forall at_head (thread_pool_ p') ∧ length (thread_pool_ p') = length (thread_pool_ p) ∧
    job_queue_ p' = job_queue_ p ∧ submitted p' = submitted p.
Proof.
  intros Hl. assert (∀ k, (k ≤ length (thread_pool_ p))%nat → ∃ p', rtc worker_moves p p' ∧
    (∀ i t, thread_pool_ p' !! i = Some t → (i < k)%nat → at_head t) ∧ live (thread_pool_ p') ∧
    length (thread_pool_ p') = length (thread_pool_ p) ∧ job_queue_ p' = job_queue_ p ∧ submitted p' = submitted p) as H.
  { induction k as [|k IH]; intros Hk.
    - exists p. split_and!; try done. lia.
    - destruct IH as (q & Hr & Hh & Hlq & Hlen & Hq & Hsub); [lia|].
      destruct (lookup_lt_is_Some_2 (thread_pool_ q) k) as [t Ht]; [lia|].
      destruct (Forall_lookup_1 _ _ _ _ Hlq Ht) as [Hs Ha].
      destruct (worker_to_get q k t Ht Hs Ha) as (q' & Hr' & Hts & Hq' & Hsub').
      exists q'. split; [by etrans|]. rewrite Hts, Hq', Hsub', length_insert. split_and!; try done.
      + intros i u [(<- & <- & _)|[Hne Hu]]%list_lookup_insert_Some Hik; [done|]. apply (Hh i u Hu). lia.
      + by apply Forall_insert. }
  destruct (H (length (thread_pool_ p)) (le_n _)) as (p' & Hr & Hh & _ & Hlen & Hq & Hsub).
  exists p'. split_and!; try done. apply Forall_lookup. intros i t Ht. apply (Hh i t Ht).
  apply lookup_lt_Some in Ht. lia.
Qed.

Lemma drain_queue queue : ∀ p, job_queue_ p = queue → Forall at_head (thread_pool_ p) → thread_pool_ p ≠ [] →
  ∃ p', rtc worker_moves p p' ∧ Forall at_head (thread_pool_ p') ∧ job_queue_ p' = [] ∧ submitted p' = submitted p.
Proof.
  induction queue as [|j queue IH]; intros p Hq Hh Hne; [by exists p|].
  destruct (thread_pool_ p) as [|t ts] eqn:Ets; [done|]. pose proof Hh as [[Hs Ha] _]%Forall_cons.
  assert (∃ q, worker_step p 0 = Some q ∧ job_queue_ q = queue ∧ submitted q = submitted p ∧
    ∃ l, l ≠ Exited ∧ thread_pool_ q = Thread (thread_ t) (thread_stopped_ t) l :: ts) as (q & Hw & Hq1 & Hsub1 & l & Hl & Hts).
  { unfold worker_step, GetJobFromQueueIfExists. rewrite Ets. cbn. rewrite Ha, Hq. eexists. split; [done|]. cbn.
    split_and!; try done. eexists. split; [|done]. by destruct j. }
  destruct (worker_to_get q 0 (Thread (thread_ t) (thread_stopped_ t) l)) as (q' & Hr & Hts' & Hq2 & Hsub2); [by rewrite Hts|done|done|].
  destruct (IH q') as (p' & Hr' & Hh' & Hq3 & Hsub3).
  - congruence.
  - rewrite Hts', Hts. cbn. apply Forall_cons in Hh as [_ Hh]. by apply Forall_cons.
  - by rewrite Hts', Hts.
  - exists p'. split; [|split_and!; congruence || done]. eapply rtc_l; [by exists 0%nat|]. by etrans.
Qed.

Lemma worker_moves_step p p' : rtc worker_moves p p' → rtc step p p'.
Proof. induction 1 as [|p q p' [i Hi] _ IH]; [done|]. eapply rtc_l; [by eapply step_worker|done]. Qed.

Lemma busy_bound ts : 0 ≤ busy_count ts ≤ Z.of_nat (length ts).
Proof. unfold busy_count. pose proof (length_filter (fun t => busy t = true) ts). lia. Qed.

(** The empty functions among the jobs. *)
Definition empty_jobs (js : list job) : Z := Z.of_nat (length (filter (fun j => is_empty j = true) js)).

Lemma empty_jobs_zero js : empty_jobs js = 0 ↔ EmptyJob ∉ js.
Proof.
  unfold empty_jobs. split.
  - intros E Hin. assert (filter (fun j => is_empty j = true) js = []) as Hf by (apply length_zero_iff_nil; lia).
    assert (EmptyJob ∈ filter (fun j => is_empty j = true) js) as H by (by apply list_elem_of_filter). by rewrite Hf, elem_of_nil in H.
  - intros Hn. rewrite filter_none; [done|]. intros [id|] Hj Hj'; done.
Qed.

(** As long as the jobs can be counted, the counter is exact. *)
Lemma in_flight_exact n p : inv p → length (thread_pool_ p) = n → (n ≤ 255)%nat → Z.of_nat (length (submitted p)) < 2 ^ 63 →
  in_flight_jobs_ p = busy_count (thread_pool_ p) + empty_jobs (taken p).
Proof.
  intros Hi Hl Hn Hs. rewrite (inv_count _ Hi). apply wrapu_id. pose proof (busy_bound (thread_pool_ p)).
  assert (Z.of_nat (length (taken p)) < 2 ^ 63) by (rewrite (inv_fifo _ Hi), length_app in Hs; lia).
  unfold empty_jobs, empty_taken in *. pose proof (length_filter (fun j => is_empty j = true) (taken p)). unfold in_u. lia.
Qed.

Lemma idle_finished p : inv p → job_queue_ p = [] → busy_count (thread_pool_ p) = 0 →
  finished p ≡ₚ omap job_id (submitted p).
Proof.
  intros Hi Hq Hb. rewrite (inv_fifo _ Hi), Hq, app_nil_r, (inv_jobs _ Hi).
  assert (omap current (thread_pool_ p) = []) as ->; [|by rewrite app_nil_r].
  unfold busy_count in Hb. assert (filter (fun t => busy t = true) (thread_pool_ p) = []) as Hf by (apply length_zero_iff_nil; lia).
  clear - Hf. induction (thread_pool_ p) as [|t ts IH]; [done|]. rewrite filter_cons in Hf. case_decide as Hb; [done|].
  cbn. rewrite (IH Hf). unfold busy, current in *. by destruct (at_ t).
Qed.

(** ** Properties *)

(** C37: in every state the interleavings can reach, with fewer than [2^63] jobs submitted, jobs leave
    the queue in the order of submission and none runs twice; [in_flight_jobs_] is the number of
    workers that own a job plus the number of empty functions that were taken (which no worker
    reports as finished); a call of [WaitForQueuedJobsToFinish] ends in one of two ways: its wait is
    over and every submitted job has returned, or it found the pool not running, in which case no
    worker is in its loop and jobs may be left in the queue; and once [Stop] has returned no worker is
    in its loop. *)
Theorem pool_safe (n : nat) (p : QnnJobThreadPool) :
  (n ≤ 255)%nat → rtc step (new_pool n) p → Z.of_nat (length (submitted p)) < 2 ^ 63 →
  submitted p = taken p ++ job_queue_ p ∧
  (NoDup (omap job_id (submitted p)) → NoDup (finished p ++ omap current (thread_pool_ p))) ∧
  in_flight_jobs_ p = busy_count (thread_pool_ p) + empty_jobs (taken p) ∧
  (∀ w, WaitForQueuedJobsToFinish p w = Some Finished → finished p ≡ₚ omap job_id (submitted p)) ∧
  (∀ w, WaitForQueuedJobsToFinish p w = Some NotRunning → running_ p = false ∧ ∀ t, t ∈ thread_pool_ p → at_ t = Exited) ∧
  (state_mutex_ p = Free → running_ p = false → ∀ t, t ∈ thread_pool_ p → at_ t = Exited).
Proof.
  intros Hn Hr Hs. destruct (pool_reachable_inv n p Hr) as [Hi Hl].
  assert (state_mutex_ p = Free → running_ p = false → ∀ t, t ∈ thread_pool_ p → at_ t = Exited) as Hstop.
  { intros Hm Hrun t Ht. apply list_elem_of_lookup_1 in Ht as [i Ht]. pose proof (inv_control _ Hi) as Hc.
    unfold control_ok in Hc. rewrite Hm in Hc. destruct (Hc i t Ht) as [H1 _]. rewrite Hrun in H1.
    by destruct (Forall_lookup_1 _ _ _ _ (inv_threads _ Hi) Ht) as [Hx _]; destruct (Hx H1). }
  split_and!; [apply Hi| |by eapply in_flight_exact| | |done].
  - intros Hnd. rewrite <- (inv_jobs _ Hi). rewrite (inv_fifo _ Hi), omap_app in Hnd. by apply NoDup_app in Hnd as (? & _ & _).
  - intros w Hf. destruct w; cbn in Hf; try done; [by destruct (state_mutex_ p), (running_ p)|].
    unfold jobs_finished in Hf. destruct (job_queue_ p) eqn:Eq; [|done].
    destruct (Z.eqb_spec (in_flight_jobs_ p) 0) as [H0|]; [|done]. rewrite (in_flight_exact n p Hi Hl Hn Hs) in H0.
    pose proof (busy_bound (thread_pool_ p)). apply idle_finished; [done..|]. unfold empty_jobs in H0. lia.
  - intros w Hf. destruct w; cbn in Hf; try done; [|by destruct (jobs_finished p)].
    destruct (state_mutex_ p) eqn:Em, (running_ p) eqn:Er; try done. split; [done|]. by apply Hstop.
Qed.

(** C38: a running pool with at least one worker cannot get stuck: from every reachable state (with
    fewer than [2^63] jobs submitted) the workers alone can take steps to a state in which every
    submitted job has returned, no worker owns one, and the wait of [WaitForQueuedJobsToFinish] ends
    exactly if no empty function was ever submitted. *)
Theorem pool_progress (n : nat) (p : QnnJobThreadPool) :
  (0 < n ≤ 255)%nat → rtc step (new_pool n) p → state_mutex_ p = Free → running_ p = true →
  Z.of_nat (length (submitted p)) < 2 ^ 63 →
  ∃ p', rtc worker_moves p p' ∧ submitted p' = submitted p ∧ finished p' ≡ₚ omap job_id (submitted p) ∧
    busy_count (thread_pool_ p') = 0 ∧
    (WaitForQueuedJobsToFinish p' Waiting = Some Finished ↔ EmptyJob ∉ submitted p).
Proof.
  intros Hn Hr Hm Hrun Hs. destruct (pool_reachable_inv n p Hr) as [Hi Hl].
  assert (live (thread_pool_ p)) as Hlive.
  { apply Forall_lookup. intros i t Ht. pose proof (inv_control _ Hi) as Hc. unfold control_ok in Hc. rewrite Hm, Hrun in Hc.
    destruct (Hc i t Ht) as [_ Hst]. split; [done|]. intros Ha.
    destruct (Forall_lookup_1 _ _ _ _ (inv_threads _ Hi) Ht) as [_ Hx]. specialize (Hx Ha). by rewrite Hst in Hx. }
  destruct (all_to_get p Hlive) as (q & Hr1 & Hh & Hlq & Hq & Hsub).
  destruct (drain_queue (job_queue_ q) q eq_refl Hh) as (p' & Hr2 & Hh' & Hq' & Hsub').
  { intros E. rewrite E in Hlq. cbn in Hlq. lia. }
  assert (rtc worker_moves p p') as Hr' by (by etrans).
  assert (rtc step (new_pool n) p') as Hrs by (etrans; [exact Hr|by apply worker_moves_step]).
  destruct (pool_reachable_inv n p' Hrs) as [Hi' Hl']. assert (submitted p' = submitted p) as Es by congruence.
  assert (busy_count (thread_pool_ p') = 0) as Hb.
  { unfold busy_count. rewrite filter_none; [done|]. intros t Ht. rewrite Forall_forall in Hh'. unfold busy.
    by destruct (Hh' t Ht) as [_ ->]. }
  exists p'. split_and!; [done|done|rewrite <- Es; by apply idle_finished|done|].
  unfold WaitForQueuedJobsToFinish, jobs_finished. rewrite Hq', (in_flight_exact n p' Hi' Hl'), Hb by (lia || by rewrite Es).
  rewrite <- Es, (inv_fifo _ Hi'), Hq', app_nil_r, <- empty_jobs_zero, Z.add_0_l.
  by destruct (Z.eqb_spec (empty_jobs (taken p')) 0).
Qed.

(** ** Example: two workers, two jobs, the first one being run *)
Definition example_pool : QnnJobThreadPool :=
  default (new_pool 2) (p ← Start (new_pool 2); worker_step (SubmitJob (SubmitJob p (Job 7)) (Job 8)) 1).

Lemma example_pool_reachable : rtc step (new_pool 2) example_pool.
Proof.
  eapply rtc_l; [by apply step_start|]. eapply rtc_l; [apply (step_submit _ (Job 7))|].
  eapply rtc_l; [apply (step_submit _ (Job 8))|]. apply rtc_once. apply (step_worker _ 1). reflexivity.
Defined.

Lemma pool_safe_witness : in_flight_jobs_ example_pool = 1 ∧
  in_flight_jobs_ example_pool = busy_count (thread_pool_ example_pool) + empty_jobs (taken example_pool).
Proof.
  split; [reflexivity|]. apply (pool_safe 2 example_pool); [lia|exact example_pool_reachable|reflexivity].
Defined.

Lemma pool_progress_witness : ∃ p', rtc worker_moves example_pool p' ∧ finished p' ≡ₚ [7; 8]%nat ∧
  WaitForQueuedJobsToFinish p' Waiting = Some Finished.
Proof.
  destruct (pool_progress 2 example_pool) as (p' & H1 & _ & H2 & _ & H3);
    [lia|exact example_pool_reachable|reflexivity|reflexivity|reflexivity|].
  exists p'. split; [exact H1|]. split; [exact H2|]. apply H3. cbn. set_solver.
Defined.

(** ** Empty functions

    A submitted empty function is taken from the queue and counted, but its worker then takes the
    branch of an empty queue, which reports nothing: the counter never comes down again, and a wait
    that has begun never ends, whatever happens. *)
Module PoolFindings.

Lemma taken_grows p p' : step p p' → taken p `prefix_of` taken p'.
Proof.
  destruct 1 as [p j|p i p' Hw|p p' Hs|p p' Hs|p p' Hs]; [done|..].
  - unfold worker_step, GetJobFromQueueIfExists in Hw. repeat case_match; simplify_eq; cbn; try done; by eexists.
  - unfold Start in Hs. by case_match; simplify_eq.
  - unfold Stop_begin in Hs. by case_match; simplify_eq.
  - unfold Stop_step in Hs. by repeat case_match; simplify_eq.
Qed.

Lemma empty_function_blocks_wait n p p' : (n ≤ 255)%nat → rtc step (new_pool n) p → EmptyJob ∈ taken p → rtc step p p' →
  Z.of_nat (length (submitted p')) < 2 ^ 63 → WaitForQueuedJobsToFinish p' Waiting = None.
Proof.
  intros Hn Hr He Hp Hs. assert (EmptyJob ∈ taken p') as He'.
  { clear -He Hp. induction Hp as [|p q p' Hq _ IH]; [done|]. apply IH.
    destruct (taken_grows _ _ Hq) as [k ->]. set_solver. }
  assert (rtc step (new_pool n) p') as Hr' by (by etrans). destruct (pool_reachable_inv n p' Hr') as [Hi Hl].
  unfold WaitForQueuedJobsToFinish, jobs_finished. destruct (job_queue_ p'); [|done].
  rewrite (in_flight_exact n p' Hi Hl Hn Hs). pose proof (busy_bound (thread_pool_ p')).
  assert (empty_jobs (taken p') ≠ 0) by (by rewrite empty_jobs_zero; intros ?).
  rewrite (proj2 (Z.eqb_neq _ _)); [done|]. unfold empty_jobs in *. lia.
Qed.

End PoolFindings.
