(* ===== verification/Power.v ===== *)
(** * HTP power configuration

    [HtpPowerConfigManager] of [builder/qnn_htp_power_config_manager.cc], the guard
    [HtpPowerStateGuard] of [builder/qnn_htp_power_state_guard.h], and the per-thread
    settings that [QnnBackendManager] applies around a run.

    An operation runs under its locks, so it is a function on the state of the manager;
    an operation that fails keeps the changes it made.  The calls of [setPowerConfig], each a
    vote of one power-config id, are recorded in [votes]; the device may reject a vote, which
    the code only logs.  Time is a clock in microseconds.  The background thread of the timer,
    with its locks, is modelled in [Timer]. *)

From S2P Require Import Prelude.
Local Open Scope Z_scope.

(** ** Votes *)

Inductive HtpPerformanceMode : Set :=
| kHtpDefault | kHtpSustainedHighPerformance | kHtpBurst | kHtpHighPerformance | kHtpPowerSaver
| kHtpLowPowerSaver | kHtpHighPowerSaver | kHtpLowBalanced | kHtpBalanced | kHtpExtremePowerSaver.

Inductive GraphState : Set := INIT_START | INIT_DONE | RUN_START | RUN_DONE | TIMEOUT | NONE.

Global Instance perf_mode_eq_dec : EqDecision HtpPerformanceMode.
Proof. solve_decision. Defined.
Global Instance graph_state_eq_dec : EqDecision GraphState.
Proof. solve_decision. Defined.

(** The voltage corners of the SDK that the code names. *)
Inductive corner : Set :=
| CORNER_DISABLE | MIN_VOLTAGE_CORNER | SVS2 | SVS | SVS_PLUS | NOM | NOM_PLUS | TURBO | MAX_VOLTAGE_CORNER.

Inductive power_mode : Set := PERFORMANCE_MODE | POWER_SAVER_MODE.

(** [QnnHtpPerfInfrastructure_DcvsV3_t]: the bus and the core get the same corners, and the
    [set...] flags are 1 but for sleep, which stays enabled. *)
Record DcvsV3 := Dcvs {
  contextId : Z;
  powerMode : power_mode;
  sleepLatency : Z;
  dcvsEnable : Z;
  cornerMin : corner;
  cornerTarget : corner;
  cornerMax : corner
}.

Inductive PowerConfig :=
| RPC_POLLING_TIME (us : Z)
| RPC_CONTROL_LATENCY (us : Z)
| DCVS_V3 (d : DcvsV3).

Definition kSleepMinLatency : Z := 40.
Definition kSleepLowLatency : Z := 100.
Definition kSleepMediumLatency : Z := 1000.
Definition kSleepHighLatency : Z := 2000.
Definition kSleepHigherLatency : Z := 65535.
Definition kMaxRpcPolling : Z := 9999.
Definition kDefaultTimerTimeoutUs : Z := 300000.

Definition SetHtpPerformancePowerConfig (id : Z) (mode : HtpPerformanceMode) : result PowerConfig :=
  let cfg pm latency enable c := Ok (DCVS_V3 (Dcvs id pm latency enable c c c)) in
  match mode with
  | kHtpBurst | kHtpSustainedHighPerformance => cfg PERFORMANCE_MODE kSleepMinLatency 0 MAX_VOLTAGE_CORNER
  | kHtpHighPerformance => cfg PERFORMANCE_MODE kSleepLowLatency 0 TURBO
  | kHtpBalanced => cfg PERFORMANCE_MODE kSleepMediumLatency 1 NOM_PLUS
  | kHtpLowBalanced => cfg PERFORMANCE_MODE kSleepMediumLatency 1 NOM
  | kHtpHighPowerSaver => cfg PERFORMANCE_MODE kSleepMediumLatency 1 SVS_PLUS
  | kHtpPowerSaver => cfg PERFORMANCE_MODE kSleepMediumLatency 1 SVS
  | kHtpLowPowerSaver => cfg PERFORMANCE_MODE kSleepMediumLatency 1 SVS2
  | kHtpExtremePowerSaver => cfg POWER_SAVER_MODE kSleepMediumLatency 1 CORNER_DISABLE
  | kHtpDefault => Err (Throw "Invalid performance profile")
  end.

Definition SetRelaxedPerfPowerConfig (id : Z) : PowerConfig :=
  DCVS_V3 (Dcvs id POWER_SAVER_MODE kSleepHighLatency 1 SVS2 SVS SVS).
Definition SetExtremeLowPerfPowerConfig (id : Z) : PowerConfig :=
  DCVS_V3 (Dcvs id POWER_SAVER_MODE kSleepHigherLatency 1 CORNER_DISABLE CORNER_DISABLE CORNER_DISABLE).
Definition SetReleasedPerfPowerConfig (id : Z) : PowerConfig :=
  DCVS_V3 (Dcvs id POWER_SAVER_MODE kSleepHigherLatency 1 MIN_VOLTAGE_CORNER MIN_VOLTAGE_CORNER MIN_VOLTAGE_CORNER).

Record HtpPerfConfig := PerfConfig {
  htp_power_config_client_id : Z;
  perf_mode : HtpPerformanceMode;
  rpc_polling_time : Z;
  rpc_control_latency : Z
}.

(** ** State *)

(** The timer as the manager sees it between operations: idle, or counting down. *)
Inductive timer_state : Set := IDLE | LAUNCH (end_time : Z).

(** The answer of [deviceGetInfrastructure] while an operation runs. *)
Inductive infra_answer : Set := InfraOk | InfraFailed | InfraNotPerf.

Record HtpPowerConfigManager := Manager {
  last_set_rpc_polling_time_ : Z;
  last_set_rpc_control_latency_ : Z;
  rpc_polling_time_set_ : bool;
  rpc_control_latency_set_ : bool;
  htp_performance_mode_set_ : bool;
  power_configs_ : list PowerConfig;
  qnn_interface_ : bool;
  timer_ : option timer_state;
  timer_active_ : bool;
  inflight_run_count_ : Z;
  graph_state_ : GraphState;
  boosted_config_ids_ : list Z;
  now : Z;
  votes : list (Z * list PowerConfig)
}.

Definition new_manager : HtpPowerConfigManager :=
  Manager 0 0 false false false [] false None false 0 NONE [] 0 [].

Definition with_staging (m : HtpPowerConfigManager) (lp ll : Z) (p l h : bool) (cs : list PowerConfig) :=
  Manager lp ll p l h cs (qnn_interface_ m) (timer_ m) (timer_active_ m) (inflight_run_count_ m) (graph_state_ m)
    (boosted_config_ids_ m) (now m) (votes m).
Definition with_timer (m : HtpPowerConfigManager) (t : option timer_state) :=
  Manager (last_set_rpc_polling_time_ m) (last_set_rpc_control_latency_ m) (rpc_polling_time_set_ m)
    (rpc_control_latency_set_ m) (htp_performance_mode_set_ m) (power_configs_ m) (qnn_interface_ m) t
    (timer_active_ m) (inflight_run_count_ m) (graph_state_ m) (boosted_config_ids_ m) (now m) (votes m).
Definition with_boosted (m : HtpPowerConfigManager) (ids : list Z) :=
  Manager (last_set_rpc_polling_time_ m) (last_set_rpc_control_latency_ m) (rpc_polling_time_set_ m)
    (rpc_control_latency_set_ m) (htp_performance_mode_set_ m) (power_configs_ m) (qnn_interface_ m) (timer_ m)
    (timer_active_ m) (inflight_run_count_ m) (graph_state_ m) ids (now m) (votes m).
Definition with_run_state (m : HtpPowerConfigManager) (active : bool) (count : Z) (g : GraphState) :=
  Manager (last_set_rpc_polling_time_ m) (last_set_rpc_control_latency_ m) (rpc_polling_time_set_ m)
    (rpc_control_latency_set_ m) (htp_performance_mode_set_ m) (power_configs_ m) (qnn_interface_ m) (timer_ m)
    active count g (boosted_config_ids_ m) (now m) (votes m).
Definition with_votes (m : HtpPowerConfigManager) (v : list (Z * list PowerConfig)) :=
  Manager (last_set_rpc_polling_time_ m) (last_set_rpc_control_latency_ m) (rpc_polling_time_set_ m)
    (rpc_control_latency_set_ m) (htp_performance_mode_set_ m) (power_configs_ m) (qnn_interface_ m) (timer_ m)
    (timer_active_ m) (inflight_run_count_ m) (graph_state_ m) (boosted_config_ids_ m) (now m) v.
Definition with_now (m : HtpPowerConfigManager) (t : Z) :=
  Manager (last_set_rpc_polling_time_ m) (last_set_rpc_control_latency_ m) (rpc_polling_time_set_ m)
    (rpc_control_latency_set_ m) (htp_performance_mode_set_ m) (power_configs_ m) (qnn_interface_ m) (timer_ m)
    (timer_active_ m) (inflight_run_count_ m) (graph_state_ m) (boosted_config_ids_ m) t (votes m).

Definition Init (m : HtpPowerConfigManager) : HtpPowerConfigManager :=
  Manager (last_set_rpc_polling_time_ m) (last_set_rpc_control_latency_ m) (rpc_polling_time_set_ m)
    (rpc_control_latency_set_ m) (htp_performance_mode_set_ m) (power_configs_ m) true (timer_ m)
    (timer_active_ m) (inflight_run_count_ m) (graph_state_ m) (boosted_config_ids_ m) (now m) (votes m).

(** [RETURN_IF_ERROR]: the changes stay. *)
Definition step : Type := HtpPowerConfigManager → HtpPowerConfigManager * result unit.
Definition and_then (f g : step) : step := fun m =>
  match f m with (m, Ok _) => g m | (m, Err e) => (m, Err e) end.
Infix "~>" := and_then (at level 61, left associativity).

(** ** Staging *)

Definition AddRpcPollingTime (us : Z) : step := fun m =>
  if kMaxRpcPolling <? us then (m, Err (EpFail "Cannot set RPC polling time."))
  else if rpc_polling_time_set_ m then (m, Err (EpFail "There is already a pending RPC polling time config"))
  else if us =? last_set_rpc_polling_time_ m then (m, Ok tt)
  else (with_staging m us (last_set_rpc_control_latency_ m) true (rpc_control_latency_set_ m)
          (htp_performance_mode_set_ m) (power_configs_ m ++ [RPC_POLLING_TIME us]), Ok tt).

Definition AddRpcControlLatency (us : Z) : step := fun m =>
  if rpc_control_latency_set_ m then (m, Err (EpFail "There is already a pending RPC control latency config"))
  else if us =? last_set_rpc_control_latency_ m then (m, Ok tt)
  else (with_staging m (last_set_rpc_polling_time_ m) us (rpc_polling_time_set_ m) true
          (htp_performance_mode_set_ m) (power_configs_ m ++ [RPC_CONTROL_LATENCY us]), Ok tt).

Definition AddHtpPerformanceConfig (cfg : PowerConfig) : step := fun m =>
  (with_staging m (last_set_rpc_polling_time_ m) (last_set_rpc_control_latency_ m) (rpc_polling_time_set_ m)
     (rpc_control_latency_set_ m) true (power_configs_ m ++ [cfg]), Ok tt).

Definition AddHtpPerformanceMode (mode : HtpPerformanceMode) (id : Z) : step := fun m =>
  if htp_performance_mode_set_ m then (m, Err (EpFail "There is already a pending HTP performance mode config"))
  else
  match SetHtpPerformancePowerConfig id mode with
  | Err e => (m, Err e)
  | Ok cfg => AddHtpPerformanceConfig cfg m
  end.

Definition SetPowerConfig (infra : infra_answer) (id : Z) : step := fun m =>
  match power_configs_ m with
  | [] => (m, Ok tt)
  | cs =>
      match infra with
      | InfraFailed => (m, Err (EpFail "backendGetPerfInfrastructure failed."))
      | InfraNotPerf => (m, Err (EpFail "HTP infra type, which is not perf infra type."))
      | InfraOk =>
          let m := with_votes m (votes m ++ [(id, cs)]) in
          (with_staging m (last_set_rpc_polling_time_ m) (last_set_rpc_control_latency_ m) false false false [], Ok tt)
      end
  end.

Definition check_interface : step := fun m =>
  if qnn_interface_ m then (m, Ok tt)
  else (m, Err (EpFail "QNN interface is not initialized. Call Init() first.")).

Definition SetHtpPowerConfigs (infra : infra_answer) (config : HtpPerfConfig) : step :=
  check_interface ~>
  AddRpcPollingTime (rpc_polling_time config) ~>
  AddRpcControlLatency (rpc_control_latency config) ~>
  AddHtpPerformanceMode (perf_mode config) (htp_power_config_client_id config) ~>
  SetPowerConfig infra (htp_power_config_client_id config).

Definition SetHtpPowerCustomConfigs (infra : infra_answer) (id : Z) (cfg : PowerConfig) (polling latency : Z) : step :=
  check_interface ~>
  AddRpcPollingTime polling ~>
  AddRpcControlLatency latency ~>
  AddHtpPerformanceConfig cfg ~>
  SetPowerConfig infra id.

(** ** The release timer *)

(** [created]: the background thread could be started. *)
Definition CreateTimerThread (created : bool) (m : HtpPowerConfigManager) : HtpPowerConfigManager :=
  match timer_ m with
  | Some _ => m
  | None =>
      if created then
        with_run_state (with_timer m (Some IDLE)) true (inflight_run_count_ m) (graph_state_ m)
      else m
  end.

Definition ReleaseTimerThread (m : HtpPowerConfigManager) : HtpPowerConfigManager :=
  with_boosted (with_timer (with_run_state m false 0 NONE) None) [].

Definition IsTimerThreadRunning (m : HtpPowerConfigManager) : bool :=
  match timer_ m with
  | Some (LAUNCH end_time) =>
      let remaining_duration := u64 (end_time - now m) in
      (0 <? remaining_duration) && (remaining_duration <? kDefaultTimerTimeoutUs)
  | _ => false
  end.

Definition AbortTimer (m : HtpPowerConfigManager) : HtpPowerConfigManager :=
  match timer_ m with Some _ => with_timer m (Some IDLE) | None => m end.

(** [Launch] fails, which is only logged, when the timer is not idle. *)
Definition Launch (m : HtpPowerConfigManager) : HtpPowerConfigManager :=
  match timer_ m with
  | Some IDLE => with_timer m (Some (LAUNCH (now m + kDefaultTimerTimeoutUs)))
  | _ => m
  end.

Definition RegisterBoostedId (id : Z) (m : HtpPowerConfigManager) : HtpPowerConfigManager :=
  if bool_decide (id ∈ boosted_config_ids_ m) then m else with_boosted m (boosted_config_ids_ m ++ [id]).
Definition RemoveBoostedId (id : Z) (m : HtpPowerConfigManager) : HtpPowerConfigManager :=
  with_boosted m (filter (fun x => x ≠ id) (boosted_config_ids_ m)).
Definition DropBoostedPowerConfigId (id : Z) (m : HtpPowerConfigManager) : HtpPowerConfigManager := RemoveBoostedId id m.

Definition AbortActiveTimerAndDropBoostedId (id : Z) (m : HtpPowerConfigManager) : HtpPowerConfigManager :=
  AbortTimer (RemoveBoostedId id m).

(** ** State changes *)

Definition relax_id (infra : infra_answer) (config : HtpPerfConfig) (m : HtpPowerConfigManager) (id : Z)
  : HtpPowerConfigManager :=
  (SetHtpPowerCustomConfigs infra id (SetRelaxedPerfPowerConfig id) (rpc_polling_time config)
     (rpc_control_latency config) m).1.

Definition SetSustainedPerformance (infra : infra_answer) (state : GraphState) (config : HtpPerfConfig) : step := fun m =>
  let id := htp_power_config_client_id config in
  match state with
  | RUN_DONE =>
      let m := RegisterBoostedId id m in
      let m := if IsTimerThreadRunning m then AbortTimer m else m in
      (Launch m, match timer_ m with Some _ => Ok tt | None => Err Trap end)
  | RUN_START =>
      let m := RegisterBoostedId id m in
      if IsTimerThreadRunning m then (AbortTimer m, Ok tt) else SetHtpPowerConfigs infra config m
  | INIT_DONE =>
      SetHtpPowerCustomConfigs infra id (SetRelaxedPerfPowerConfig id) (rpc_polling_time config)
        (rpc_control_latency config) m
  | INIT_START => if IsTimerThreadRunning m then (AbortTimer m, Ok tt) else SetHtpPowerConfigs infra config m
  | TIMEOUT =>
      if inflight_run_count_ m =? 0 then
        (with_boosted (foldl (relax_id infra config) m (boosted_config_ids_ m)) [], Ok tt)
      else (m, Ok tt)
  | NONE => (m, Ok tt)
  end.

Definition SetPerformance (infra : infra_answer) (state : GraphState) (config : HtpPerfConfig) : step := fun m =>
  let id := htp_power_config_client_id config in
  let custom cfg := SetHtpPowerCustomConfigs infra id cfg (rpc_polling_time config) (rpc_control_latency config) m in
  match state with
  | RUN_DONE | INIT_DONE =>
      match perf_mode config with
      | kHtpLowBalanced | kHtpBalanced | kHtpHighPerformance => custom (SetRelaxedPerfPowerConfig id)
      | kHtpExtremePowerSaver => custom (SetExtremeLowPerfPowerConfig id)
      | kHtpLowPowerSaver | kHtpHighPowerSaver | kHtpPowerSaver => custom (SetReleasedPerfPowerConfig id)
      | _ => (m, Ok tt)
      end
  | RUN_START | INIT_START => SetHtpPowerConfigs infra config m
  | _ => (m, Ok tt)
  end.

Definition sustained (mode : HtpPerformanceMode) : bool :=
  bool_decide (mode = kHtpSustainedHighPerformance) || bool_decide (mode = kHtpBurst).

(** The number of runs in flight after a state change. *)
Definition count_run (state : GraphState) (count : Z) : Z :=
  match state with
  | RUN_START | INIT_START => count + 1
  | RUN_DONE | INIT_DONE => if 0 <? count then count - 1 else count
  | _ => count
  end.

Definition SetState (infra : infra_answer) (state : GraphState) (config : HtpPerfConfig) : step := fun m =>
  let m := with_run_state m (timer_active_ m) (inflight_run_count_ m) state in
  if sustained (perf_mode config) && negb (timer_active_ m) then
    (m, Err (EpFail "Timer is not active. Cannot apply sustained/burst performance config."))
  else
  let m := with_run_state m (timer_active_ m) (count_run state (inflight_run_count_ m)) (graph_state_ m) in
  if sustained (perf_mode config) then SetSustainedPerformance infra state config m
  else if bool_decide (perf_mode config = kHtpDefault) then
    (AbortActiveTimerAndDropBoostedId (htp_power_config_client_id config) m, Ok tt)
  else SetPerformance infra state config (AbortActiveTimerAndDropBoostedId (htp_power_config_client_id config) m).

(** The timer elapses: the callback runs, then the timer is idle. *)
Definition TimerCallback (infra : infra_answer) (power_config_id : Z) (m : HtpPowerConfigManager)
  : HtpPowerConfigManager :=
  let m := if timer_active_ m
           then (SetState infra TIMEOUT (PerfConfig power_config_id kHtpSustainedHighPerformance 0 0) m).1 else m in
  AbortTimer m.

(** ** The guard around compilation *)

Record HtpPowerStateGuard := Guard {
  power_manager_ : bool;
  valid_power_config_id_ : bool;
  start_state_ : GraphState;
  done_state_ : GraphState;
  config_ : HtpPerfConfig;
  pre_run_called_ : bool;
  finalized_ : bool
}.

Definition applies (g : HtpPowerStateGuard) : bool := power_manager_ g && valid_power_config_id_ g.

Definition SetPreRunHtpPerfStatus (infra : infra_answer) (g : HtpPowerStateGuard) (m : HtpPowerConfigManager)
  : HtpPowerStateGuard * HtpPowerConfigManager * result unit :=
  let g := Guard (power_manager_ g) (valid_power_config_id_ g) (start_state_ g) (done_state_ g) (config_ g) true (finalized_ g) in
  if applies g then
    let '(m, status) := SetState infra (start_state_ g) (config_ g) m in (g, m, status)
  else (g, m, Ok tt).

Definition SetPostRunHtpPerf (infra : infra_answer) (g : HtpPowerStateGuard) (m : HtpPowerConfigManager)
  : HtpPowerStateGuard * HtpPowerConfigManager * result unit :=
  let finalize b := Guard (power_manager_ g) (valid_power_config_id_ g) (start_state_ g) (done_state_ g) (config_ g)
                      (pre_run_called_ g) b in
  if applies g then
    let '(m, status) := SetState infra (done_state_ g) (config_ g) m in (finalize (is_ok status), m, status)
  else (finalize true, m, Ok tt).

Definition guard_destructor (infra : infra_answer) (g : HtpPowerStateGuard) (m : HtpPowerConfigManager)
  : HtpPowerConfigManager :=
  if pre_run_called_ g && negb (finalized_ g) && applies g
  then (SetState infra (done_state_ g) (config_ g) m).1 else m.

(** ** Per-thread settings of a run *)

Record PerThreadHtpPowerConfigs := PerThread {
  pre_run_perf_mode : option HtpPerformanceMode;
  post_run_perf_mode : option HtpPerformanceMode;
  pt_rpc_control_latency : option Z;
  pt_rpc_polling_time : option Z;
  default_perf_mode : option HtpPerformanceMode;
  power_config_id : Z
}.

Definition AddPerThreadHtpPowerConfigMapping (map : gmap nat PerThreadHtpPowerConfigs) (thread_id : nat)
  (c : PerThreadHtpPowerConfigs) : result (gmap nat PerThreadHtpPowerConfigs) :=
  match map !! thread_id with
  | Some _ => Err (EpFail "Trying to set HtpPowerConfigs for the given thread id but it already exists!")
  | None => Ok (<[thread_id := c]> map)
  end.
Definition RemovePerThreadHtpPowerConfigMapping (map : gmap nat PerThreadHtpPowerConfigs) (thread_id : nat) :=
  delete thread_id map.

(** The optional settings are dereferenced. *)
Definition value_of (v : option Z) : result Z := match v with Some v => Ok v | None => Err Trap end.

Definition SetPerThreadHtpPowerConfigs (infra : infra_answer) (map : gmap nat PerThreadHtpPowerConfigs)
  (thread_id : nat) (pre_run : bool) : step := fun m =>
  match map !! thread_id with
  | None => (m, Ok tt)
  | Some c =>
      let mode := match (if pre_run then pre_run_perf_mode c else post_run_perf_mode c) with
                  | Some mode => Some mode
                  | None => default_perf_mode c
                  end in
      match mode with
      | None => (m, Ok tt)
      | Some mode =>
          match value_of (pt_rpc_polling_time c), value_of (pt_rpc_control_latency c) with
          | Ok polling, Ok latency =>
              SetState infra (if pre_run then RUN_START else RUN_DONE)
                (PerfConfig (power_config_id c) mode polling latency) m
          | _, _ => (m, Err Trap)
          end
      end
  end.

(** ** Invariant *)

(** Nothing is staged between operations, unless a vote could not be sent. *)
Definition clean (m : HtpPowerConfigManager) : Prop :=
  power_configs_ m = [] ∧ rpc_polling_time_set_ m = false ∧ rpc_control_latency_set_ m = false ∧
  htp_performance_mode_set_ m = false.

Record inv (m : HtpPowerConfigManager) : Prop := {
  inv_timer : timer_active_ m = true ↔ is_Some (timer_ m);
  inv_boosted : NoDup (boosted_config_ids_ m);
  inv_count : 0 ≤ inflight_run_count_ m
}.

(** What staging and voting leave alone. *)
Definition same_runs (m m' : HtpPowerConfigManager) : Prop :=
  timer_ m' = timer_ m ∧ timer_active_ m' = timer_active_ m ∧ inflight_run_count_ m' = inflight_run_count_ m ∧
  graph_state_ m' = graph_state_ m ∧ boosted_config_ids_ m' = boosted_config_ids_ m ∧ now m' = now m ∧
  qnn_interface_ m' = qnn_interface_ m.

Global Instance same_runs_preorder : PreOrder same_runs.
Proof.
  split; [by intros m; split_and!|]. unfold same_runs. intros m1 m2 m3. intuition congruence.
Qed.

Lemma then_same_runs (f g : step) m : (∀ m, same_runs m (f m).1) → (∀ m, same_runs m (g m).1) →
  same_runs m ((f ~> g) m).1.
Proof.
  intros Hf Hg. unfold and_then. specialize (Hf m). destruct (f m) as [m' [[]|e]]; cbn in *; [|done].
  by transitivity m'.
Qed.

Ltac same_runs_cases := intros m; repeat case_match; by split_and!.

Lemma check_interface_same m : same_runs m (check_interface m).1.
Proof. revert m. unfold check_interface. same_runs_cases. Qed.
Lemma polling_same us m : same_runs m (AddRpcPollingTime us m).1.
Proof. revert m. unfold AddRpcPollingTime. same_runs_cases. Qed.
Lemma latency_same us m : same_runs m (AddRpcControlLatency us m).1.
Proof. revert m. unfold AddRpcControlLatency. same_runs_cases. Qed.
Lemma mode_same mode id m : same_runs m (AddHtpPerformanceMode mode id m).1.
Proof. revert m. unfold AddHtpPerformanceMode. same_runs_cases. Qed.
Lemma config_same cfg m : same_runs m (AddHtpPerformanceConfig cfg m).1.
Proof. by split_and!. Qed.
Lemma vote_same infra id m : same_runs m (SetPowerConfig infra id m).1.
Proof. revert m. unfold SetPowerConfig. same_runs_cases. Qed.
#[local] Hint Resolve check_interface_same polling_same latency_same mode_same config_same vote_same then_same_runs : power.

Lemma configs_same infra config m : same_runs m (SetHtpPowerConfigs infra config m).1.
Proof. unfold SetHtpPowerConfigs. auto 8 with power. Qed.
Lemma custom_same infra id cfg p l m : same_runs m (SetHtpPowerCustomConfigs infra id cfg p l m).1.
Proof. unfold SetHtpPowerCustomConfigs. auto 8 with power. Qed.

Lemma same_runs_inv m m' : same_runs m m' → inv m → inv m'.
Proof.
  intros (Ht & Ha & Hc & _ & Hb & _) [H1 H2 H3]. split; [by rewrite Ha, Ht|by rewrite Hb|by rewrite Hc].
Qed.

(** ** Votes *)

(** The RPC settings that differ from the ones that were set last. *)
Definition staged_rpc (m : HtpPowerConfigManager) (polling latency : Z) : list PowerConfig :=
  (if polling =? last_set_rpc_polling_time_ m then [] else [RPC_POLLING_TIME polling]) ++
  (if latency =? last_set_rpc_control_latency_ m then [] else [RPC_CONTROL_LATENCY latency]).

(** The state after the vote [cs] of [id]. *)
Definition voted (m : HtpPowerConfigManager) (id polling latency : Z) (cs : list PowerConfig) : HtpPowerConfigManager :=
  with_votes (with_staging m polling latency false false false []) (votes m ++ [(id, cs)]).

Definition ready (m : HtpPowerConfigManager) : Prop := clean m ∧ qnn_interface_ m = true.

Lemma voted_ready m id p l cs : ready m → ready (voted m id p l cs).
Proof. intros [_ ?]. by split. Qed.

Lemma staging_run m polling latency : ready m → polling ≤ kMaxRpcPolling →
  (check_interface ~> AddRpcPollingTime polling ~> AddRpcControlLatency latency) m =
  (with_staging m polling latency (negb (polling =? last_set_rpc_polling_time_ m))
     (negb (latency =? last_set_rpc_control_latency_ m)) false (staged_rpc m polling latency), Ok tt).
Proof.
  intros [(Hcs & Hp & Hl & Hh) Hi] Hmax. destruct m; cbn in *; subst.
  unfold and_then, check_interface, AddRpcPollingTime, AddRpcControlLatency, staged_rpc. cbn.
  rewrite (proj2 (Z.ltb_ge _ _) Hmax).
  destruct (polling =? _) eqn:E1; cbn; destruct (latency =? _) eqn:E2; cbn;
    rewrite ?Z.eqb_eq in *; subst; done.
Qed.

Lemma and_then_assoc f g h m : (f ~> (g ~> h)) m = (f ~> g ~> h) m.
Proof. unfold and_then. by destruct (f m) as [m' [|]]. Qed.

Lemma custom_vote m id cfg polling latency : ready m → polling ≤ kMaxRpcPolling →
  SetHtpPowerCustomConfigs InfraOk id cfg polling latency m =
  (voted m id polling latency (staged_rpc m polling latency ++ [cfg]), Ok tt).
Proof.
  intros Hr Hmax. unfold SetHtpPowerCustomConfigs.
  rewrite <- (and_then_assoc (_ ~> _ ~> _)). unfold and_then at 1. rewrite staging_run by done.
  unfold and_then, AddHtpPerformanceConfig, SetPowerConfig. cbn. by destruct (staged_rpc m polling latency).
Qed.

Lemma mode_vote m config cfg : ready m → rpc_polling_time config ≤ kMaxRpcPolling →
  SetHtpPerformancePowerConfig (htp_power_config_client_id config) (perf_mode config) = Ok cfg →
  SetHtpPowerConfigs InfraOk config m =
  (voted m (htp_power_config_client_id config) (rpc_polling_time config) (rpc_control_latency config)
     (staged_rpc m (rpc_polling_time config) (rpc_control_latency config) ++ [cfg]), Ok tt).
Proof.
  intros Hr Hmax Hcfg. unfold SetHtpPowerConfigs.
  rewrite <- (and_then_assoc (_ ~> _ ~> _)). unfold and_then at 1. rewrite staging_run by done.
  unfold and_then, AddHtpPerformanceMode, AddHtpPerformanceConfig, SetPowerConfig. cbn. rewrite Hcfg. cbn.
  by destruct (staged_rpc m _ _).
Qed.

(** A relaxed vote for each of the ids; the RPC settings go with the first. *)
Fixpoint relax_votes (m : HtpPowerConfigManager) (ids : list Z) : list (Z * list PowerConfig) :=
  match ids with
  | [] => []
  | id :: ids =>
      (id, staged_rpc m 0 0 ++ [SetRelaxedPerfPowerConfig id]) ::
      ((fun id => (id, [SetRelaxedPerfPowerConfig id])) <$> ids)
  end.

Lemma relax_fold infra_config ids m : ready m → rpc_polling_time infra_config = 0 → rpc_control_latency infra_config = 0 →
  votes (foldl (relax_id InfraOk infra_config) m ids) = votes m ++ relax_votes m ids ∧
  ready (foldl (relax_id InfraOk infra_config) m ids) ∧ same_runs m (foldl (relax_id InfraOk infra_config) m ids).
Proof.
  intros Hr Hp Hl.
  assert (∀ ids m, ready m → last_set_rpc_polling_time_ m = 0 → last_set_rpc_control_latency_ m = 0 →
    votes (foldl (relax_id InfraOk infra_config) m ids) =
      votes m ++ ((fun id => (id, [SetRelaxedPerfPowerConfig id])) <$> ids) ∧
    ready (foldl (relax_id InfraOk infra_config) m ids) ∧ same_runs m (foldl (relax_id InfraOk infra_config) m ids)) as Hrest.
  { clear m Hr ids. induction ids as [|id ids IH]; intros m Hr E1 E2; cbn; [by rewrite app_nil_r|].
    unfold relax_id at 2 4 6. rewrite Hp, Hl, custom_vote by done. cbn [fst].
    destruct (IH (voted m id 0 0 (staged_rpc m 0 0 ++ [SetRelaxedPerfPowerConfig id]))) as (H1 & H2 & H3);
      [by apply voted_ready|done|done|].
    rewrite H1. split_and!; [|done|]; [|by etrans; [|exact H3]].
    unfold staged_rpc. rewrite E1, E2. cbn. by rewrite <- app_assoc. }
  destruct ids as [|id ids]; cbn; [by rewrite app_nil_r|].
  unfold relax_id at 2 4 6. rewrite Hp, Hl, custom_vote by done. cbn [fst].
  destruct (Hrest ids (voted m id 0 0 (staged_rpc m 0 0 ++ [SetRelaxedPerfPowerConfig id]))) as (H1 & H2 & H3);
    [by apply voted_ready|done|done|].
  rewrite H1. split_and!; [|done|]; [|by etrans; [|exact H3]]. cbn. by rewrite <- app_assoc.
Qed.

(** ** Reachable states *)

Inductive power_step (m : HtpPowerConfigManager) : HtpPowerConfigManager → Prop :=
| step_init : power_step m (Init m)
| step_create created : power_step m (CreateTimerThread created m)
| step_release : power_step m (ReleaseTimerThread m)
| step_drop id : power_step m (DropBoostedPowerConfigId id m)
| step_set infra state config : power_step m (SetState infra state config m).1
| step_fire infra id end_time : timer_ m = Some (LAUNCH end_time) → end_time ≤ now m →
    power_step m (TimerCallback infra id m)
| step_tick d : 0 < d → power_step m (with_now m (now m + d)).

Definition power_reachable : HtpPowerConfigManager → Prop := rtc power_step new_manager.

Lemma register_inv id m : inv m → inv (RegisterBoostedId id m).
Proof.
  intros [H1 H2 H3]. unfold RegisterBoostedId. case_bool_decide; split; cbn; try done.
  apply NoDup_app. split_and!; [done| |apply NoDup_singleton]. intros x Hx Hx'.
  apply list_elem_of_singleton in Hx' as ->. done.
Qed.

Lemma remove_inv id m : inv m → inv (RemoveBoostedId id m).
Proof. intros [H1 H2 H3]. split; cbn; try done. by apply NoDup_filter. Qed.

Lemma abort_inv m : inv m → inv (AbortTimer m).
Proof.
  intros [H1 H2 H3]. unfold AbortTimer. destruct (timer_ m) eqn:E; [|by split; rewrite ?E].
  split; cbn; try done. rewrite H1. done.
Qed.

Lemma launch_inv m : inv m → inv (Launch m).
Proof.
  intros [H1 H2 H3]. unfold Launch. destruct (timer_ m) as [[|]|] eqn:E; try (split; rewrite ?E; done).
  split; cbn; try done. rewrite H1. done.
Qed.

Lemma count_run_nonneg state c : 0 ≤ c → 0 ≤ count_run state c.
Proof. destruct state; cbn; try lia; destruct (Z.ltb_spec 0 c); lia. Qed.

Lemma run_state_inv m c g : 0 ≤ c → inv m → inv (with_run_state m (timer_active_ m) c g).
Proof. intros Hc [H1 H2 H3]. by split. Qed.

Lemma relax_all_same infra config ids m : same_runs m (foldl (relax_id infra config) m ids).
Proof.
  revert m. induction ids as [|id ids IH]; intros m; cbn; [done|].
  etransitivity; [|apply IH]. unfold relax_id. apply custom_same.
Qed.

Lemma clear_boosted_inv m : inv m → inv (with_boosted m []).
Proof. intros [H1 H2 H3]. split; cbn; try done. constructor. Qed.
#[local] Hint Resolve register_inv remove_inv abort_inv launch_inv clear_boosted_inv : power.

Lemma sustained_inv infra state config m : inv m → inv (SetSustainedPerformance infra state config m).1.
Proof.
  intros Hi. unfold SetSustainedPerformance.
  destruct state; cbn; repeat case_match; cbn; auto with power;
    try (eapply same_runs_inv; [apply configs_same|]; auto with power);
    try (eapply same_runs_inv; [apply custom_same|]; auto with power).
  apply clear_boosted_inv. eapply same_runs_inv; [apply relax_all_same|done].
Qed.

Lemma performance_inv infra state config m : inv m → inv (SetPerformance infra state config m).1.
Proof.
  intros Hi. unfold SetPerformance. destruct state; repeat case_match; cbn; auto;
    try (by eapply same_runs_inv; [apply configs_same|]); by eapply same_runs_inv; [apply custom_same|].
Qed.

Lemma set_state_inv infra state config m : inv m → inv (SetState infra state config m).1.
Proof.
  intros Hi. unfold SetState.
  set (m1 := with_run_state m _ _ state).
  assert (inv m1) as H1 by (apply run_state_inv; [apply Hi|done]). clearbody m1.
  destruct (_ && _); [done|].
  set (m2 := with_run_state m1 _ _ _).
  assert (inv m2) as H2 by (apply run_state_inv; [apply count_run_nonneg, H1|done]). clearbody m2.
  unfold AbortActiveTimerAndDropBoostedId.
  case_match; [by apply sustained_inv|case_bool_decide; [|apply performance_inv]]; cbn [fst]; auto with power.
Qed.

Lemma callback_inv infra id m : inv m → inv (TimerCallback infra id m).
Proof. intros Hi. unfold TimerCallback. apply abort_inv. case_match; [by apply set_state_inv|done]. Qed.

Lemma power_step_inv m m' : power_step m m' → inv m → inv m'.
Proof.
  intros [| | | | | |] Hi; auto using set_state_inv, callback_inv with power.
  - by destruct Hi.
  - unfold CreateTimerThread. destruct (timer_ m) eqn:E; [done|]. destruct created; [|done].
    destruct Hi. split; cbn; [|done|done]. done.
  - destruct Hi. split; cbn; [|constructor|done]. split; [done|by intros [? ?]].
  - by destruct Hi.
Qed.

Lemma power_reachable_inv m : power_reachable m → inv m.
Proof.
  intros Hr. refine (rtc_ind_r inv new_manager _ _ m Hr).
  - split; cbn; [|constructor|done]. split; [done|by intros [? ?]].
  - intros m1 m2 _ Hs Hi. by eapply power_step_inv.
Qed.

(** ** Runs in flight *)

(** What a state change needs to get past the check of the timer. *)
Definition accepted (config : HtpPerfConfig) (m : HtpPowerConfigManager) : Prop :=
  sustained (perf_mode config) = true → timer_active_ m = true.

Definition same_count (m m' : HtpPowerConfigManager) : Prop :=
  inflight_run_count_ m' = inflight_run_count_ m ∧ timer_active_ m' = timer_active_ m.

Global Instance same_count_preorder : PreOrder same_count.
Proof. split; [by intros m|]. intros m1 m2 m3 [? ?] [? ?]. split; congruence. Qed.

Lemma same_runs_count m m' : same_runs m m' → same_count m m'.
Proof. by intros (_ & ? & ? & _). Qed.
Lemma register_count id m : same_count m (RegisterBoostedId id m).
Proof. unfold RegisterBoostedId. by case_bool_decide. Qed.
Lemma abort_count m : same_count m (AbortTimer m).
Proof. unfold AbortTimer. by case_match. Qed.
Lemma launch_count m : same_count m (Launch m).
Proof. unfold Launch. by repeat case_match. Qed.
Lemma drop_count id m : same_count m (AbortActiveTimerAndDropBoostedId id m).
Proof. unfold AbortActiveTimerAndDropBoostedId. etransitivity; [|apply abort_count]. done. Qed.

Lemma configs_count infra config m : same_count m (SetHtpPowerConfigs infra config m).1.
Proof. apply same_runs_count, configs_same. Qed.
Lemma custom_count infra id cfg p l m : same_count m (SetHtpPowerCustomConfigs infra id cfg p l m).1.
Proof. apply same_runs_count, custom_same. Qed.
#[local] Hint Resolve register_count abort_count launch_count drop_count configs_count custom_count : power.

Lemma sustained_count infra state config m : same_count m (SetSustainedPerformance infra state config m).1.
Proof.
  unfold SetSustainedPerformance. destruct state; cbn [fst].
  - case_match; auto with power.
  - auto with power.
  - transitivity (RegisterBoostedId (htp_power_config_client_id config) m); [auto with power|].
    case_match; auto with power.
  - transitivity (RegisterBoostedId (htp_power_config_client_id config) m); [auto with power|].
    case_match; [|auto with power]. etransitivity; [|apply launch_count]. auto with power.
  - case_match; [|done].
    destruct (relax_all_same infra config (boosted_config_ids_ m) m) as (_ & ? & ? & _). by split.
  - done.
Qed.

Lemma performance_count infra state config m : same_count m (SetPerformance infra state config m).1.
Proof. unfold SetPerformance. destruct state; [|destruct (perf_mode config)| |destruct (perf_mode config)| |]; auto with power; done. Qed.

Lemma set_state_count infra state config m : accepted config m →
  inflight_run_count_ (SetState infra state config m).1 = count_run state (inflight_run_count_ m) ∧
  timer_active_ (SetState infra state config m).1 = timer_active_ m.
Proof.
  intros Ha. unfold SetState. cbn [timer_active_ with_run_state] in *.
  assert (sustained (perf_mode config) && negb (timer_active_ m) = false) as ->.
  { destruct (sustained _) eqn:E; [|done]. by rewrite Ha. }
  set (m2 := with_run_state _ _ (count_run _ _) _).
  enough (same_count m2 (if sustained (perf_mode config) then SetSustainedPerformance infra state config m2
    else if bool_decide (perf_mode config = kHtpDefault)
    then (AbortActiveTimerAndDropBoostedId (htp_power_config_client_id config) m2, Ok ())
    else SetPerformance infra state config (AbortActiveTimerAndDropBoostedId (htp_power_config_client_id config) m2)).1)
    as [? ?] by done.
  case_match; [apply sustained_count|]. case_bool_decide; cbn [fst]; [apply drop_count|].
  etransitivity; [apply drop_count|apply performance_count].
Qed.

Global Instance accepted_dec config m : Decision (accepted config m).
Proof. unfold accepted. apply _. Defined.

(** What happens to the runs and compilations, newest first: one begins or ends, or the release of
    the timer thread forgets them all. *)
Inductive run_event : Set := Began | Ended | Released.

Global Instance run_event_eq_dec : EqDecision run_event.
Proof. solve_decision. Defined.

(** Those that began and did not end; an end with nothing in flight has no effect. *)
Fixpoint in_flight (h : list run_event) : nat :=
  match h with
  | [] | Released :: _ => 0
  | Began :: h => S (in_flight h)
  | Ended :: h => pred (in_flight h)
  end.

Definition event_of (state : GraphState) : list run_event :=
  match state with
  | RUN_START | INIT_START => [Began]
  | RUN_DONE | INIT_DONE => [Ended]
  | TIMEOUT | NONE => []
  end.

(** Every call of the manager, in any order and number, with the history beside it.  A state change
    is an event whether or not its vote is sent, unless it is refused because the timer is not active;
    the guard and the settings of a thread call nothing but [SetState] (see [guard_steps] below). *)
Inductive run_step : list run_event * HtpPowerConfigManager → list run_event * HtpPowerConfigManager → Prop :=
| run_state h m infra state config :
    run_step (h, m) ((if decide (accepted config m) then event_of state else []) ++ h, (SetState infra state config m).1)
| run_init h m : run_step (h, m) (h, Init m)
| run_create h m created : run_step (h, m) (h, CreateTimerThread created m)
| run_release h m : run_step (h, m) (Released :: h, ReleaseTimerThread m)
| run_drop h m id : run_step (h, m) (h, DropBoostedPowerConfigId id m)
| run_fire h m infra id end_time : timer_ m = Some (LAUNCH end_time) → end_time ≤ now m →
    run_step (h, m) (h, TimerCallback infra id m)
| run_tick h m d : 0 < d → run_step (h, m) (h, with_now m (now m + d)).

(** Without a release, and as long as no end comes without its beginning, the runs in flight are the
    beginnings less the ends. *)
Lemma in_flight_balanced h : Released ∉ h →
  (∀ k, (count_occ run_event_eq_dec (drop k h) Ended ≤ count_occ run_event_eq_dec (drop k h) Began)%nat) →
  (in_flight h + count_occ run_event_eq_dec h Ended = count_occ run_event_eq_dec h Began)%nat.
Proof.
  induction h as [|e h IH]; intros Hr Hk; [done|]. rewrite not_elem_of_cons in Hr. destruct Hr as [He Hr].
  specialize (IH Hr (fun k => Hk (S k))). pose proof (Hk 0%nat) as H0. cbn [drop] in H0.
  destruct e; [| |done]; cbn [in_flight count_occ] in *; repeat (case_match; simplify_eq); lia.
Qed.

(** The operations of the guard, and those of a thread's settings, are calls of [SetState] or none. *)
Lemma guard_steps infra g m h map thread pre :
  (∃ h', rtc run_step (h, m) (h', (SetPreRunHtpPerfStatus infra g m).1.2)) ∧
  (∃ h', rtc run_step (h, m) (h', (SetPostRunHtpPerf infra g m).1.2)) ∧
  (∃ h', rtc run_step (h, m) (h', guard_destructor infra g m)) ∧
  (∃ h', rtc run_step (h, m) (h', (SetPerThreadHtpPowerConfigs infra map thread pre m).1)).
Proof.
  assert (∀ state config, ∃ h', rtc run_step (h, m) (h', (SetState infra state config m).1)) as Hs
    by (intros; eexists; apply rtc_once, run_state).
  assert (∃ h', rtc run_step (h, m) (h', m)) as Hn by (eexists; apply rtc_refl).
  split_and!.
  - unfold SetPreRunHtpPerfStatus. cbv zeta. case_match; [|done]. specialize (Hs (start_state_ g) (config_ g)).
    cbn [start_state_ config_]. by destruct (SetState infra _ _ m).
  - unfold SetPostRunHtpPerf. cbv zeta. case_match; [|done]. specialize (Hs (done_state_ g) (config_ g)).
    by destruct (SetState infra _ _ m).
  - unfold guard_destructor. by case_match.
  - unfold SetPerThreadHtpPowerConfigs. repeat (case_match; try done).
Qed.

Lemma callback_count infra id m : same_count m (TimerCallback infra id m).
Proof.
  unfold TimerCallback. etransitivity; [|apply abort_count]. case_match; [|done].
  destruct (set_state_count infra TIMEOUT (PerfConfig id kHtpSustainedHighPerformance 0 0) m) as [H1 H2]; [by intros _|].
  by split.
Qed.

(** A state change that is refused changes nothing but [graph_state_]. *)
Lemma set_state_refused infra state config m : ¬ accepted config m →
  inflight_run_count_ (SetState infra state config m).1 = inflight_run_count_ m.
Proof.
  unfold accepted, SetState. intros Ha. cbn [timer_active_ with_run_state].
  destruct (sustained _) eqn:Es, (timer_active_ m) eqn:Et; try done; by destruct Ha.
Qed.

Lemma run_step_count s s' : run_step s s' → inflight_run_count_ s.2 = Z.of_nat (in_flight s.1) →
  inflight_run_count_ s'.2 = Z.of_nat (in_flight s'.1).
Proof.
  intros [h m infra state config|h m|h m created|h m|h m id|h m infra id t _ _|h m d _] E; cbn [fst snd] in *; try done.
  - destruct (decide (accepted config m)) as [Ha|Ha]; [|by rewrite set_state_refused].
    rewrite (proj1 (set_state_count infra state config m Ha)), E.
    destruct state; cbn [count_run event_of app in_flight]; try lia; destruct (Z.ltb_spec 0 (Z.of_nat (in_flight h))); lia.
  - unfold CreateTimerThread. by repeat case_match.
  - by rewrite (proj1 (callback_count infra id m)).
Qed.

Lemma timeout_state infra id m : timer_active_ m = true →
  TimerCallback infra id m =
  AbortTimer (let m := with_run_state m true (inflight_run_count_ m) TIMEOUT in
              if inflight_run_count_ m =? 0
              then with_boosted (foldl (relax_id infra (PerfConfig id kHtpSustainedHighPerformance 0 0)) m
                                   (boosted_config_ids_ m)) []
              else m).
Proof.
  intros Ha. unfold TimerCallback. rewrite Ha. f_equal. unfold SetState. cbn.
  rewrite Ha. cbn. by destruct (inflight_run_count_ m =? 0).
Qed.

Lemma abort_votes m : votes (AbortTimer m) = votes m ∧ boosted_config_ids_ (AbortTimer m) = boosted_config_ids_ m.
Proof. unfold AbortTimer. by case_match. Qed.

(** C35: for every sequence of calls of the manager (state changes that are accepted, refused or
    whose vote fails, ends without a beginning, releases of the timer thread at any time), the count
    of the manager is the number of accepted beginnings, since the last release, that no accepted end
    has cancelled; and while it is positive the release timer sends no vote and keeps the ids that
    hold a boost, so that it takes the performance from no counted run. *)
Theorem running_graph_never_relaxed h m infra id : rtc run_step ([], new_manager) (h, m) →
  inflight_run_count_ m = Z.of_nat (in_flight h) ∧
  ((0 < in_flight h)%nat → votes (TimerCallback infra id m) = votes m ∧
    boosted_config_ids_ (TimerCallback infra id m) = boosted_config_ids_ m).
Proof.
  intros Hr.
  assert (inflight_run_count_ m = Z.of_nat (in_flight h)) as E.
  { refine (rtc_ind_r (fun s => inflight_run_count_ s.2 = Z.of_nat (in_flight s.1)) ([], new_manager) eq_refl _ (h, m) Hr).
    intros s s' _ Hs. by apply run_step_count. }
  split; [done|]. intros Hn. destruct (timer_active_ m) eqn:Ha.
  - rewrite timeout_state by done. cbn. rewrite (proj2 (Z.eqb_neq _ _)) by lia.
    destruct (abort_votes (with_run_state m true (inflight_run_count_ m) TIMEOUT)) as [H1 H2]. done.
  - unfold TimerCallback. rewrite Ha. apply abort_votes.
Qed.

(** When the release timer elapses and no run is in flight, every id that holds a boost gets
    one relaxed vote, no other id gets one, no boost is left, and the timer is idle again; the
    RPC settings are reset with the first of the votes. *)
Theorem timeout_relaxes_every_boost infra_id m : power_reachable m → ready m → timer_active_ m = true →
  inflight_run_count_ m = 0 →
  let m' := TimerCallback InfraOk infra_id m in
  votes m' = votes m ++ relax_votes m (boosted_config_ids_ m) ∧
  (relax_votes m (boosted_config_ids_ m)).*1 = boosted_config_ids_ m ∧ NoDup (boosted_config_ids_ m) ∧
  (∀ id cs, (id, cs) ∈ relax_votes m (boosted_config_ids_ m) → last cs = Some (SetRelaxedPerfPowerConfig id)) ∧
  boosted_config_ids_ m' = [] ∧ timer_ m' = Some IDLE.
Proof.
  intros Hr Hready Ha H0 m'. pose proof (power_reachable_inv _ Hr) as [Ht Hb _].
  unfold m'. rewrite timeout_state by done. cbn [inflight_run_count_ boosted_config_ids_ with_run_state].
  rewrite H0. cbn [Z.eqb].
  set (m1 := with_run_state m true 0 TIMEOUT). set (cfg := PerfConfig infra_id _ 0 0).
  destruct (relax_fold cfg (boosted_config_ids_ m) m1) as (H1 & _ & H3); [done|done|done|].
  destruct (abort_votes (with_boosted (foldl (relax_id InfraOk cfg) m1 (boosted_config_ids_ m)) [])) as [-> ->].
  cbn [votes boosted_config_ids_ with_boosted]. rewrite H1.
  split_and!; [by destruct (boosted_config_ids_ m)| |done| |done|].
  - destruct (boosted_config_ids_ m) as [|i ids]; cbn; [done|]. f_equal. rewrite <- list_fmap_compose.
    apply list_fmap_id.
  - intros id cs. destruct (boosted_config_ids_ m) as [|i ids]; cbn; [by rewrite elem_of_nil|].
    rewrite elem_of_cons. intros [[= -> ->]|Hin]; [apply last_snoc|].
    apply list_elem_of_fmap in Hin as (x & [= -> ->] & _). done.
  - apply Ht in Ha as [t Ht']. unfold AbortTimer. cbn [timer_ with_boosted].
    destruct H3 as (-> & _). cbn. by rewrite Ht'.
Qed.

(** No operation of the staging traps. *)
Definition no_trap (f : step) : Prop := ∀ m, (f m).2 ≠ Err Trap.

Lemma then_no_trap f g : no_trap f → no_trap g → no_trap (f ~> g).
Proof. intros Hf Hg m. unfold and_then. specialize (Hf m). destruct (f m) as [m' [|e]]; [apply Hg|done]. Qed.

Lemma staging_no_trap :
  no_trap check_interface ∧ (∀ us, no_trap (AddRpcPollingTime us)) ∧ (∀ us, no_trap (AddRpcControlLatency us)) ∧
  (∀ mode id, no_trap (AddHtpPerformanceMode mode id)) ∧ (∀ cfg, no_trap (AddHtpPerformanceConfig cfg)) ∧
  (∀ infra id, no_trap (SetPowerConfig infra id)).
Proof.
  unfold no_trap, check_interface, AddRpcPollingTime, AddRpcControlLatency, AddHtpPerformanceMode,
    AddHtpPerformanceConfig, SetPowerConfig, SetHtpPerformancePowerConfig.
  split_and!; intros; repeat (case_match; simplify_eq/=); done.
Qed.

Lemma configs_no_trap infra config : no_trap (SetHtpPowerConfigs infra config).
Proof.
  destruct staging_no_trap as (? & ? & ? & ? & ? & ?). unfold SetHtpPowerConfigs. auto 10 using then_no_trap.
Qed.
Lemma custom_no_trap infra id cfg p l : no_trap (SetHtpPowerCustomConfigs infra id cfg p l).
Proof.
  destruct staging_no_trap as (? & ? & ? & ? & ? & ?). unfold SetHtpPowerCustomConfigs. auto 10 using then_no_trap.
Qed.

Lemma register_timer id m : timer_ (RegisterBoostedId id m) = timer_ m.
Proof. unfold RegisterBoostedId. by case_bool_decide. Qed.
Lemma abort_timer m : is_Some (timer_ m) → timer_ (AbortTimer m) = Some IDLE.
Proof. intros [t Ht]. unfold AbortTimer. by rewrite Ht. Qed.

Lemma sustained_no_trap infra state config m : is_Some (timer_ m) →
  (SetSustainedPerformance infra state config m).2 ≠ Err Trap.
Proof.
  intros Ht. unfold SetSustainedPerformance.
  destruct state; [case_match| |case_match| |case_match|]; try done;
    try apply configs_no_trap; try apply custom_no_trap.
  cbn [snd]. rewrite <- (register_timer (htp_power_config_client_id config)) in Ht.
  destruct (IsTimerThreadRunning _); [by rewrite (abort_timer _ Ht)|]. by destruct Ht as [? ->].
Qed.

Lemma performance_no_trap infra state config m : (SetPerformance infra state config m).2 ≠ Err Trap.
Proof.
  unfold SetPerformance. destruct state; [|destruct (perf_mode config)| |destruct (perf_mode config)| |];
    try done; try apply configs_no_trap; apply custom_no_trap.
Qed.

(** In every reachable state the timer is active exactly when there is one, no id is boosted
    twice, the count of runs is not negative, and no state change dereferences a missing
    timer. *)
Theorem power_state_safe m infra state config : power_reachable m →
  inv m ∧ (SetState infra state config m).2 ≠ Err Trap.
Proof.
  intros Hr. pose proof (power_reachable_inv _ Hr) as Hi. split; [done|].
  unfold SetState. cbn [timer_active_ with_run_state].
  destruct (sustained _) eqn:Es; [destruct (timer_active_ m) eqn:Ha|]; cbn [andb negb].
  - apply sustained_no_trap. by apply (inv_timer _ Hi).
  - done.
  - case_bool_decide; [done|apply performance_no_trap].
Qed.

(** ** What a state change asks for *)

(** The vote of a state change, as the documentation of the modes describes it: a mode at the
    start, its counterpart when done; burst and sustained modes keep their vote after a run for
    the release timer, and do not repeat it while the timer counts down. *)
Definition requested (state : GraphState) (config : HtpPerfConfig) (running : bool) : option PowerConfig :=
  let id := htp_power_config_client_id config in
  match state, perf_mode config with
  | (RUN_START | INIT_START), kHtpDefault => None
  | (RUN_START | INIT_START), mode =>
      if sustained mode && running then None
      else match SetHtpPerformancePowerConfig id mode with Ok cfg => Some cfg | Err _ => None end
  | INIT_DONE, (kHtpBurst | kHtpSustainedHighPerformance) => Some (SetRelaxedPerfPowerConfig id)
  | (RUN_DONE | INIT_DONE), (kHtpLowBalanced | kHtpBalanced | kHtpHighPerformance) => Some (SetRelaxedPerfPowerConfig id)
  | (RUN_DONE | INIT_DONE), kHtpExtremePowerSaver => Some (SetExtremeLowPerfPowerConfig id)
  | (RUN_DONE | INIT_DONE), (kHtpLowPowerSaver | kHtpHighPowerSaver | kHtpPowerSaver) => Some (SetReleasedPerfPowerConfig id)
  | _, _ => None
  end.

(** The votes of [m'] are those of [m] and the requested one. *)
Definition votes_as (m m' : HtpPowerConfigManager) (config : HtpPerfConfig) (cfg : option PowerConfig) : Prop :=
  votes m' = votes m ++
    match cfg with
    | None => []
    | Some cfg => [(htp_power_config_client_id config,
                    staged_rpc m (rpc_polling_time config) (rpc_control_latency config) ++ [cfg])]
    end ∧ ready m'.

(** The staging and the votes, all that a vote depends on. *)
Definition same_votes (m m' : HtpPowerConfigManager) : Prop :=
  votes m' = votes m ∧ last_set_rpc_polling_time_ m' = last_set_rpc_polling_time_ m ∧
  last_set_rpc_control_latency_ m' = last_set_rpc_control_latency_ m ∧ (ready m → ready m').

Lemma register_votes id m : same_votes m (RegisterBoostedId id m).
Proof. unfold RegisterBoostedId. by case_bool_decide. Qed.
Lemma abort_same_votes m : same_votes m (AbortTimer m).
Proof. unfold AbortTimer. by case_match. Qed.
Lemma launch_votes m : same_votes m (Launch m).
Proof. unfold Launch. by repeat case_match. Qed.
Lemma drop_votes id m : same_votes m (AbortActiveTimerAndDropBoostedId id m).
Proof. unfold AbortActiveTimerAndDropBoostedId, AbortTimer. by case_match. Qed.

Global Instance same_votes_preorder : PreOrder same_votes.
Proof.
  split; [by intros m|]. intros m1 m2 m3 (? & ? & ? & ?) (? & ? & ? & ?). split_and!; [congruence..|auto].
Qed.

Lemma votes_as_same m m1 m2 config cfg : same_votes m m1 → votes_as m1 m2 config cfg → votes_as m m2 config cfg.
Proof. intros (E1 & E2 & E3 & _) [H1 H2]. split; [|done]. by rewrite H1, E1; unfold staged_rpc; rewrite E2, E3. Qed.

Lemma same_votes_none m m' config : ready m → same_votes m m' → votes_as m m' config None.
Proof. intros Hr (E & _ & _ & H). split; [by rewrite app_nil_r|auto]. Qed.

Lemma mode_votes_as m config cfg : ready m → rpc_polling_time config ≤ kMaxRpcPolling →
  SetHtpPerformancePowerConfig (htp_power_config_client_id config) (perf_mode config) = Ok cfg →
  votes_as m (SetHtpPowerConfigs InfraOk config m).1 config (Some cfg) ∧
  (SetHtpPowerConfigs InfraOk config m).2 = Ok tt.
Proof. intros Hr Hp Hc. rewrite (mode_vote m config cfg) by done. split; [split; [done|by apply voted_ready]|done]. Qed.

Lemma custom_votes_as m config cfg : ready m → rpc_polling_time config ≤ kMaxRpcPolling →
  votes_as m (SetHtpPowerCustomConfigs InfraOk (htp_power_config_client_id config) cfg (rpc_polling_time config)
    (rpc_control_latency config) m).1 config (Some cfg) ∧
  (SetHtpPowerCustomConfigs InfraOk (htp_power_config_client_id config) cfg (rpc_polling_time config)
    (rpc_control_latency config) m).2 = Ok tt.
Proof. intros Hr Hp. rewrite custom_vote by done. split; [split; [done|by apply voted_ready]|done]. Qed.

Lemma sustained_votes m state config : ready m → rpc_polling_time config ≤ kMaxRpcPolling → state ≠ TIMEOUT →
  is_Some (timer_ m) → sustained (perf_mode config) = true →
  votes_as m (SetSustainedPerformance InfraOk state config m).1 config (requested state config (IsTimerThreadRunning m)) ∧
  (SetSustainedPerformance InfraOk state config m).2 = Ok tt.
Proof.
  intros Hr Hp Hst Ht Hs.
  assert (∃ cfg, SetHtpPerformancePowerConfig (htp_power_config_client_id config) (perf_mode config) = Ok cfg ∧
    ∀ running, requested RUN_START config running = (if running then None else Some cfg) ∧
      requested INIT_START config running = (if running then None else Some cfg) ∧
      requested RUN_DONE config running = None ∧
      requested INIT_DONE config running = Some (SetRelaxedPerfPowerConfig (htp_power_config_client_id config)))
    as (cfg & Hcfg & Hreq).
  { unfold requested. destruct (perf_mode config); try discriminate Hs; eexists; (split; [reflexivity|]); by intros []. }
  destruct (Hreq (IsTimerThreadRunning m)) as (R1 & R2 & R3 & R4).
  assert (IsTimerThreadRunning (RegisterBoostedId (htp_power_config_client_id config) m) = IsTimerThreadRunning m) as Erun.
  { unfold IsTimerThreadRunning, RegisterBoostedId. by case_bool_decide. }
  pose proof (register_votes (htp_power_config_client_id config) m) as Hreg.
  unfold SetSustainedPerformance. destruct state; try done.
  - rewrite R2. destruct (IsTimerThreadRunning m); [split; [by apply same_votes_none, abort_same_votes|done]|].
    by apply mode_votes_as.
  - rewrite R4. by apply custom_votes_as.
  - rewrite R1, Erun. destruct (IsTimerThreadRunning m).
    + split; [|done]. apply same_votes_none; [done|]. etransitivity; [exact Hreg|apply abort_same_votes].
    + edestruct mode_votes_as as [H1 H2]; [by apply Hreg|exact Hp|exact Hcfg|]. split; [by eapply votes_as_same|exact H2].
  - rewrite R3, Erun. cbn [fst snd]. rewrite <- (register_timer (htp_power_config_client_id config)) in Ht. split.
    + apply same_votes_none; [done|]. etransitivity; [exact Hreg|].
      destruct (IsTimerThreadRunning m); [etransitivity; [apply abort_same_votes|]|]; apply launch_votes.
    + destruct (IsTimerThreadRunning m); [by rewrite (abort_timer _ Ht)|]. by destruct Ht as [? ->].
  - split; [|done]. by apply same_votes_none.
Qed.

Lemma performance_votes m state config running : ready m → rpc_polling_time config ≤ kMaxRpcPolling →
  sustained (perf_mode config) = false → perf_mode config ≠ kHtpDefault →
  votes_as m (SetPerformance InfraOk state config m).1 config (requested state config running) ∧
  (SetPerformance InfraOk state config m).2 = Ok tt.
Proof.
  intros Hr Hp Hs Hd. unfold SetPerformance, requested.
  destruct (perf_mode config) eqn:Em; try discriminate Hs; try done; destruct state;
    first [ apply custom_votes_as; done
          | apply mode_votes_as; [done|done|by rewrite Em]
          | split; [by apply same_votes_none|done] ].
Qed.

(** With the device reachable, a state change sends exactly the vote the mode asks for in that
    state, with the RPC settings that changed, and nothing else, and leaves nothing staged, for
    each of the modes and states a caller passes. *)
Theorem state_change_votes m state config : power_reachable m → ready m → rpc_polling_time config ≤ kMaxRpcPolling →
  accepted config m → state ≠ TIMEOUT →
  votes_as m (SetState InfraOk state config m).1 config (requested state config (IsTimerThreadRunning m)) ∧
  (SetState InfraOk state config m).2 = Ok tt.
Proof.
  intros Hreach Hr Hp Ha Hst. pose proof (power_reachable_inv _ Hreach) as Hi.
  unfold SetState. cbn [timer_active_ with_run_state].
  destruct (sustained (perf_mode config)) eqn:Es; [rewrite (Ha Es)|]; cbn [andb negb].
  - destruct (inv_timer _ Hi) as [Ht _]. specialize (Ht (Ha Es)).
    set (m2 := with_run_state _ _ (count_run _ _) _).
    destruct (sustained_votes m2 state config) as [H1 H2]; [done..|]. split; [|done].
    by apply (votes_as_same m m2).
  - set (m2 := with_run_state _ _ (count_run _ _) _). assert (same_votes m m2) as H2 by done.
    pose proof (drop_votes (htp_power_config_client_id config) m2) as Hd.
    case_bool_decide as Em; cbn [fst snd].
    + assert (requested state config (IsTimerThreadRunning m) = None) as ->.
      { unfold requested. rewrite Em. by destruct state. }
      split; [|done]. apply same_votes_none; [done|]. by etransitivity.
    + destruct (performance_votes (AbortActiveTimerAndDropBoostedId (htp_power_config_client_id config) m2) state config
        (IsTimerThreadRunning m)) as [H3 H4]; [by apply Hd, H2|done..|].
      split; [|done]. eapply votes_as_same; [|exact H3]. by etransitivity.
Qed.

(** ** Failures *)

Lemma pending_refuses infra config m : htp_performance_mode_set_ m = true →
  (∃ msg, (SetHtpPowerConfigs infra config m).2 = Err (EpFail msg)) ∧
  votes (SetHtpPowerConfigs infra config m).1 = votes m ∧
  htp_performance_mode_set_ (SetHtpPowerConfigs infra config m).1 = true.
Proof.
  intros H. destruct m as [lp ll ps ls hs cs qi t a n g b tm v]; cbn in H; subst hs.
  unfold SetHtpPowerConfigs, and_then, check_interface, AddRpcPollingTime, AddRpcControlLatency,
    AddHtpPerformanceMode. cbn.
  destruct qi; cbn; [|split; [by eexists|done]].
  destruct (kMaxRpcPolling <? _); cbn; [split; [by eexists|done]|].
  destruct ps; cbn; [split; [by eexists|done]|].
  destruct (_ =? _); cbn; (destruct ls; cbn; [split; [by eexists|done]|]);
    destruct (_ =? _); cbn; (split; [by eexists|done]).
Qed.

Definition requests (cs : list (infra_answer * HtpPerfConfig)) (m : HtpPowerConfigManager) : HtpPowerConfigManager :=
  foldl (fun m c => (SetHtpPowerConfigs c.1 c.2 m).1) m cs.

Lemma pending_requests cs m : htp_performance_mode_set_ m = true →
  votes (requests cs m) = votes m ∧ htp_performance_mode_set_ (requests cs m) = true.
Proof.
  revert m. induction cs as [|[i c] cs IH]; intros m H; [done|].
  destruct (pending_refuses i c m H) as (_ & Hv & Hs). destruct (IH _ Hs) as [H1 H2].
  split; [|done]. etransitivity; [exact H1|done].
Qed.

(** A vote that cannot be sent is reported, changes no vote and stays staged; every later request
    for a mode is then refused as well, whatever the device answers, and sends nothing. *)
Theorem failed_vote_stays_pending m infra config cfg : ready m → rpc_polling_time config ≤ kMaxRpcPolling →
  SetHtpPerformancePowerConfig (htp_power_config_client_id config) (perf_mode config) = Ok cfg → infra ≠ InfraOk →
  let '(m1, status) := SetHtpPowerConfigs infra config m in
  (∃ msg, status = Err (EpFail msg)) ∧ votes m1 = votes m ∧
  power_configs_ m1 = staged_rpc m (rpc_polling_time config) (rpc_control_latency config) ++ [cfg] ∧
  ∀ later infra' config', votes (requests later m1) = votes m ∧
    ∃ msg, (SetHtpPowerConfigs infra' config' (requests later m1)).2 = Err (EpFail msg).
Proof.
  intros Hr Hmax Hcfg Hinfra.
  assert (∃ msg, SetHtpPowerConfigs infra config m =
    (with_staging m (rpc_polling_time config) (rpc_control_latency config)
       (negb (rpc_polling_time config =? last_set_rpc_polling_time_ m))
       (negb (rpc_control_latency config =? last_set_rpc_control_latency_ m)) true
       (staged_rpc m (rpc_polling_time config) (rpc_control_latency config) ++ [cfg]), Err (EpFail msg))) as [msg ->].
  { unfold SetHtpPowerConfigs. rewrite <- (and_then_assoc (_ ~> _ ~> _)). unfold and_then at 1.
    rewrite staging_run by done.
    unfold and_then, AddHtpPerformanceMode, AddHtpPerformanceConfig, SetPowerConfig. cbn. rewrite Hcfg. cbn.
    destruct (staged_rpc m _ _); cbn; destruct infra; try done; by eexists. }
  split_and!; [by eexists|done|done|]. intros later infra' config'.
  destruct (pending_requests later (with_staging m (rpc_polling_time config) (rpc_control_latency config)
       (negb (rpc_polling_time config =? last_set_rpc_polling_time_ m))
       (negb (rpc_control_latency config =? last_set_rpc_control_latency_ m)) true
       (staged_rpc m (rpc_polling_time config) (rpc_control_latency config) ++ [cfg]))) as [H1 H2]; [done|].
  split; [done|]. by apply pending_refuses.
Qed.

(** A guard counts its work once: if its work is abandoned after the start, the destructor
    brings the count of runs back, also when the start failed; if the done state is set and the
    call succeeds, the count is back and the destructor does nothing. *)
Theorem guard_balances_runs infra1 infra2 g m :
  start_state_ g = RUN_START ∨ start_state_ g = INIT_START → done_state_ g = RUN_DONE ∨ done_state_ g = INIT_DONE →
  finalized_ g = false → power_reachable m → accepted (config_ g) m →
  let '(g1, m1, _) := SetPreRunHtpPerfStatus infra1 g m in
  inflight_run_count_ (guard_destructor infra2 g1 m1) = inflight_run_count_ m ∧
  let '(g2, m2, status) := SetPostRunHtpPerf infra2 g1 m1 in
  is_ok status = true → inflight_run_count_ m2 = inflight_run_count_ m ∧ guard_destructor infra2 g2 m2 = m2.
Proof.
  intros Hs Hd Hf Hr Ha. pose proof (inv_count _ (power_reachable_inv _ Hr)) as Hc.
  unfold SetPreRunHtpPerfStatus, SetPostRunHtpPerf, guard_destructor.
  change (applies (Guard _ _ _ _ _ _ _)) with (applies g). destruct (applies g) eqn:Eg; cbn.
  2: { change (applies (Guard _ _ _ _ _ _ _)) with (applies g). rewrite Eg, andb_false_r. done. }
  destruct (SetState infra1 (start_state_ g) (config_ g) m) as [m1 r1] eqn:E1. cbn.
  change (applies (Guard _ _ _ _ _ _ _)) with (applies g). rewrite Eg, Hf. cbn.
  destruct (set_state_count infra1 (start_state_ g) (config_ g) m Ha) as [C1 A1]. rewrite E1 in C1, A1. cbn in C1, A1.
  destruct (set_state_count infra2 (done_state_ g) (config_ g) m1) as [C2 _]; [intros H; rewrite A1; auto|].
  assert (inflight_run_count_ (SetState infra2 (done_state_ g) (config_ g) m1).1 = inflight_run_count_ m) as E.
  { rewrite C2, C1. destruct Hs as [->| ->], Hd as [->| ->]; cbn [count_run];
      destruct (Z.ltb_spec 0 (inflight_run_count_ m + 1)); lia. }
  split; [done|].
  destruct (SetState infra2 (done_state_ g) (config_ g) m1) as [m2 r2]. cbn in *. intros ->. cbn.
  done.
Qed.

(** ** Example: two sessions on one manager *)

Module PowerExample.

(** Session 1 runs in burst mode, session 2 saves power. *)
Definition burst : HtpPerfConfig := PerfConfig 1 kHtpBurst 9999 100.
Definition saver : HtpPerfConfig := PerfConfig 2 kHtpPowerSaver 0 0.

Definition started : HtpPowerConfigManager := CreateTimerThread true (Init new_manager).
Definition running : HtpPowerConfigManager := (SetState InfraOk RUN_START burst started).1.
Definition idle : HtpPowerConfigManager := (SetState InfraOk RUN_DONE burst running).1.
Definition elapsed : HtpPowerConfigManager := with_now idle (now idle + 300000).

Lemma started_reachable : power_reachable started.
Proof. eapply rtc_l; [apply step_init|]. eapply rtc_l; [apply (step_create _ true)|]. done. Defined.
Lemma running_reachable : power_reachable running.
Proof. eapply rtc_r; [apply started_reachable|]. apply step_set. Defined.
Lemma idle_reachable : power_reachable idle.
Proof. eapply rtc_r; [apply running_reachable|]. apply step_set. Defined.
Lemma elapsed_reachable : power_reachable elapsed.
Proof. eapply rtc_r; [apply idle_reachable|]. by apply step_tick. Defined.

Lemma running_runs : rtc run_step ([], new_manager) ([Began], running).
Proof.
  eapply rtc_l; [apply run_init|]. eapply rtc_l; [apply (run_create _ _ true)|].
  eapply rtc_l; [|apply rtc_refl]. apply (run_state [] started InfraOk RUN_START burst).
Defined.

(** The votes of a run: the boost with its RPC settings, and once the timer has elapsed the
    relaxed vote that resets them. *)
Example run_votes : votes (TimerCallback InfraOk 1 elapsed) =
  [(1, [RPC_POLLING_TIME 9999; RPC_CONTROL_LATENCY 100;
        DCVS_V3 (Dcvs 1 PERFORMANCE_MODE 40 0 MAX_VOLTAGE_CORNER MAX_VOLTAGE_CORNER MAX_VOLTAGE_CORNER)]);
   (1, [RPC_POLLING_TIME 0; RPC_CONTROL_LATENCY 0; DCVS_V3 (Dcvs 1 POWER_SAVER_MODE 2000 1 SVS2 SVS SVS)])].
Proof. reflexivity. Qed.

Lemma running_graph_never_relaxed_witness :
  votes (TimerCallback InfraOk 1 running) = votes running ∧ boosted_config_ids_ (TimerCallback InfraOk 1 running) = [1].
Proof. exact (proj2 (running_graph_never_relaxed [Began] running InfraOk 1 running_runs) ltac:(cbn; lia)). Defined.

Lemma timeout_relaxes_every_boost_witness :
  votes (TimerCallback InfraOk 1 elapsed) = votes elapsed ++ relax_votes elapsed [1] ∧
  boosted_config_ids_ (TimerCallback InfraOk 1 elapsed) = [].
Proof.
  destruct (timeout_relaxes_every_boost 1 elapsed elapsed_reachable) as (H1 & _ & _ & _ & H2 & _);
    [by split_and!|done|done|].
  split; [exact H1|exact H2].
Defined.

Lemma power_state_safe_witness : (SetState InfraOk RUN_DONE burst running).2 ≠ Err Trap.
Proof. exact (proj2 (power_state_safe running InfraOk RUN_DONE burst running_reachable)). Defined.

Lemma state_change_votes_witness :
  votes_as started running burst (requested RUN_START burst false) ∧ (SetState InfraOk RUN_START burst started).2 = Ok tt.
Proof.
  apply (state_change_votes started RUN_START burst started_reachable); [by split_and!|done|done|done].
Defined.

Lemma failed_vote_stays_pending_witness :
  votes (requests [(InfraOk, saver)] (SetHtpPowerConfigs InfraFailed saver started).1) = [].
Proof.
  pose proof (failed_vote_stays_pending started InfraFailed saver
    (DCVS_V3 (Dcvs 2 PERFORMANCE_MODE 1000 1 SVS SVS SVS)) ltac:(by split_and!) ltac:(done) eq_refl ltac:(done)) as H.
  destruct (SetHtpPowerConfigs InfraFailed saver started) as [m1 status]. destruct H as (_ & _ & _ & H).
  exact (proj1 (H [(InfraOk, saver)] InfraOk saver)).
Defined.

(** A guard around the compilation of session 2. *)
Definition guard : HtpPowerStateGuard := Guard true true INIT_START INIT_DONE saver false false.

Lemma guard_balances_runs_witness :
  inflight_run_count_ (let '(g, m, _) := SetPreRunHtpPerfStatus InfraOk guard running in guard_destructor InfraOk g m) = 1.
Proof.
  pose proof (guard_balances_runs InfraOk InfraOk guard running (or_intror eq_refl) (or_intror eq_refl) eq_refl
    running_reachable ltac:(done)) as H.
  destruct (SetPreRunHtpPerfStatus InfraOk guard running) as [[g m] status].
  rewrite (proj1 H). vm_compute. reflexivity.
Defined.

End PowerExample.

(** ** Where the code differs from its comments *)

Module PowerFindings.
Import PowerExample.

(** The post-run call of the guard counts the work as done before it fails; the destructor, which
    the comment on [SetPostRunHtpPerf] excludes, counts it again.  With a burst run of another
    session in flight the count is then 0. *)
Theorem guard_counts_failed_done_twice :
  let '(g1, m1, s1) := SetPreRunHtpPerfStatus InfraOk guard running in
  let '(g2, m2, s2) := SetPostRunHtpPerf InfraFailed g1 m1 in
  s1 = Ok tt ∧ is_ok s2 = false ∧ inflight_run_count_ m2 = 1 ∧
  inflight_run_count_ (guard_destructor InfraOk g2 m2) = 0.
Proof. vm_compute. by split_and!. Qed.

(** A state change of a session that saves power aborts the timer that another session's finished
    burst run armed.  The boost of that session stays registered, and no timer is counting down
    to relax it. *)
Theorem boost_outlives_timer :
  timer_ idle = Some (LAUNCH 300000) ∧
  let m := (SetState InfraOk RUN_DONE saver (SetState InfraOk RUN_START saver idle).1).1 in
  boosted_config_ids_ m = [1] ∧ timer_ m = Some IDLE ∧ inflight_run_count_ m = 0 ∧
  ∀ id cs, (id, cs) ∈ votes m → last cs = Some (SetRelaxedPerfPowerConfig id) → id ≠ 1.
Proof.
  split; [vm_compute; reflexivity|]. cbv zeta. split_and!; [vm_compute; reflexivity..|].
  intros id cs Hin Hlast ->. revert Hin Hlast.
  enough (Forall (fun v => v.1 = 1 → last v.2 ≠ Some (SetRelaxedPerfPowerConfig 1))
    (votes (SetState InfraOk RUN_DONE saver (SetState InfraOk RUN_START saver idle).1).1)) as H.
  { intros Hin. exact (proj1 (Forall_forall _ _) H _ Hin eq_refl). }
  vm_compute. repeat constructor; discriminate.
Qed.

(** The timer elapses with no boosted id: [DropBoostedPowerConfigId] removes the id and leaves the
    timer counting down. *)
Theorem timer_elapses_without_boost :
  timer_ (DropBoostedPowerConfigId 1 idle) = Some (LAUNCH 300000) ∧
  boosted_config_ids_ (DropBoostedPowerConfigId 1 idle) = [].
Proof. vm_compute. by split. Qed.

End PowerFindings.
