(* ===== verification/Timer.v ===== *)
(** * The release timer

    [Timer] of [builder/timer.h] and [builder/timer.cc]: a background thread that waits for a
    launch, counts down and calls back, and the calls of other threads that launch it, abort it
    and shut it down.

    Every access is under [mtx_], so the program is a step relation whose steps are the pieces
    of code between two points where the mutex is given up: a wait on [cv_], the callback, the
    end of an iteration.  A wait on [cv_] rechecks its condition, so a thread that waits can go
    on exactly when the condition holds. *)

From S2P Require Import Prelude.
Local Open Scope Z_scope.

Inductive threadState : Set := IDLE | LAUNCH | CALLING | DEINIT | FAILED.

Global Instance thread_state_eq_dec : EqDecision threadState.
Proof. solve_decision. Defined.

(** Where the background thread is: before its first statement, at the head of its loop, in the
    wait for work, in the wait for the deadline, in the callback, or finished. *)
Inductive bkg_pc : Set := BStart | BHead | BWaitWork | BWaitDeadline | BCallback | BExit.

(** [aborting] counts the threads that wait in [AbortTimer]. *)
Record Timer := MkTimer {
  thread_status_ : threadState;
  end_time_ : Z;
  is_timer_stopped_ : bool;
  is_timer_deinit_ : bool;
  is_timer_launched_ : bool;
  bkg_thread_ : option bkg_pc;
  aborting : nat;
  now : Z
}.

Definition new_timer : Timer := MkTimer DEINIT 0 false false false None 0 0.

Definition set_bkg (t : Timer) (s : threadState) (stopped deinit launched : bool) (pc : bkg_pc) : Timer :=
  MkTimer s (end_time_ t) stopped deinit launched (Some pc) (aborting t) (now t).

(** ** The background thread *)

(** The conditions of its two waits. *)
Definition has_work (t : Timer) : bool := is_timer_launched_ t || is_timer_stopped_ t || is_timer_deinit_ t.
Definition interrupted (t : Timer) : bool := is_timer_stopped_ t || is_timer_deinit_ t.

(** From the end of the wait for work up to the wait for the deadline or the end of the iteration. *)
Definition BkgTimer_dispatch (t : Timer) : Timer :=
  if is_timer_deinit_ t then set_bkg t DEINIT (is_timer_stopped_ t) false (is_timer_launched_ t) BExit
  else
  let s := if is_timer_stopped_ t then IDLE else thread_status_ t in
  set_bkg t s false (is_timer_deinit_ t) (is_timer_launched_ t)
    (if bool_decide (s = LAUNCH) then BWaitDeadline else BHead).

(** One step; [None] while it waits. *)
Definition BkgTimer (t : Timer) : option Timer :=
  match bkg_thread_ t with
  | None | Some BExit => None
  | Some BStart => Some (set_bkg t IDLE (is_timer_stopped_ t) (is_timer_deinit_ t) (is_timer_launched_ t) BHead)
  | Some BHead =>
      Some (if bool_decide (thread_status_ t = IDLE) && negb (has_work t)
            then set_bkg t (thread_status_ t) (is_timer_stopped_ t) (is_timer_deinit_ t) (is_timer_launched_ t) BWaitWork
            else BkgTimer_dispatch t)
  | Some BWaitWork => if has_work t then Some (BkgTimer_dispatch t) else None
  | Some BWaitDeadline =>
      if interrupted t
      then Some (set_bkg t (thread_status_ t) (is_timer_stopped_ t) (is_timer_deinit_ t) false BHead)
      else if end_time_ t <=? now t
      then Some (set_bkg t CALLING (is_timer_stopped_ t) (is_timer_deinit_ t) (is_timer_launched_ t) BCallback)
      else None
  | Some BCallback => Some (set_bkg t IDLE (is_timer_stopped_ t) (is_timer_deinit_ t) false BHead)
  end.

(** ** The calls of other threads *)

(** [created]: the thread could be started.  The call returns when the thread is idle. *)
Definition Initialize (created : bool) (t : Timer) : Timer :=
  if created
  then MkTimer (thread_status_ t) (end_time_ t) (is_timer_stopped_ t) (is_timer_deinit_ t) (is_timer_launched_ t)
         (Some BStart) (aborting t) (now t)
  else MkTimer FAILED (end_time_ t) (is_timer_stopped_ t) (is_timer_deinit_ t) (is_timer_launched_ t)
         (bkg_thread_ t) (aborting t) (now t).

Definition Launch (timeoutVal : Z) (t : Timer) : Timer * bool :=
  if bool_decide (thread_status_ t = IDLE)
  then (MkTimer LAUNCH (now t + timeoutVal) (is_timer_stopped_ t) (is_timer_deinit_ t) true
          (bkg_thread_ t) (aborting t) (now t), true)
  else (t, false).

Definition RemainingDuration (t : Timer) : Z * bool :=
  match thread_status_ t with
  | LAUNCH => (end_time_ t - now t, true)
  | CALLING | IDLE => (0, true)
  | _ => (0, false)
  end.

Definition TimerInUse (t : Timer) : bool :=
  bool_decide (thread_status_ t = LAUNCH) || bool_decide (thread_status_ t = CALLING).

(** Up to its wait; [true] if it does not wait. *)
Definition AbortTimer (t : Timer) : Timer * bool :=
  if is_timer_deinit_ t || bool_decide (thread_status_ t = DEINIT) || bool_decide (thread_status_ t = FAILED)
  then (t, true)
  else (MkTimer (thread_status_ t) (end_time_ t) true (is_timer_deinit_ t) (is_timer_launched_ t)
          (bkg_thread_ t) (S (aborting t)) (now t), false).

(** The end of the wait of one of the threads. *)
Definition AbortTimer_return (t : Timer) : option Timer :=
  match aborting t, thread_status_ t with
  | S n, IDLE => Some (MkTimer IDLE (end_time_ t) (is_timer_stopped_ t) (is_timer_deinit_ t) (is_timer_launched_ t)
                         (bkg_thread_ t) n (now t))
  | _, _ => None
  end.

(** Up to the join, which returns when the thread has finished. *)
Definition DeInitialize (t : Timer) : Timer :=
  MkTimer (thread_status_ t) (end_time_ t) (is_timer_stopped_ t) true (is_timer_launched_ t)
    (bkg_thread_ t) (aborting t) (now t).

(** ** Steps *)

Inductive event : Set := EBkg | EInit (created : bool) | ELaunch (us : Z) | EAbort | EAbortReturn | EDeInit | ETick (us : Z).

Global Instance event_eq_dec : EqDecision event.
Proof. solve_decision. Defined.

Definition timer_step (e : event) (t : Timer) : option Timer :=
  match e with
  | EBkg => BkgTimer t
  | EInit created => match bkg_thread_ t with None => Some (Initialize created t) | Some _ => None end
  | ELaunch us => Some (Launch us t).1
  | EAbort => Some (AbortTimer t).1
  | EAbortReturn => AbortTimer_return t
  | EDeInit => Some (DeInitialize t)
  | ETick us => if 0 <? us then Some (MkTimer (thread_status_ t) (end_time_ t) (is_timer_stopped_ t)
                    (is_timer_deinit_ t) (is_timer_launched_ t) (bkg_thread_ t) (aborting t) (now t + us)) else None
  end.

Inductive run (P : event → Prop) : Timer → Timer → Prop :=
| run_nil t : run P t t
| run_snoc t1 t2 t3 e : run P t1 t2 → P e → timer_step e t2 = Some t3 → run P t1 t3.

Definition timer_reachable : Timer → Prop := run (fun _ => True) new_timer.

(** ** Invariant *)

(** What the place of the thread says about the status. *)
Definition bkg_inv (t : Timer) : Prop :=
  match bkg_thread_ t with
  | None => (thread_status_ t = DEINIT ∨ thread_status_ t = FAILED) ∧ aborting t = 0%nat
  | Some BStart => (thread_status_ t = DEINIT ∨ thread_status_ t = FAILED) ∧ aborting t = 0%nat
  | Some BHead | Some BWaitWork => thread_status_ t = IDLE ∨ thread_status_ t = LAUNCH
  | Some BWaitDeadline => thread_status_ t = LAUNCH
  | Some BCallback => thread_status_ t = CALLING
  | Some BExit => thread_status_ t = DEINIT
  end.

(** A launch is noticed by a thread that waits for work, and the callback runs after its deadline. *)
Record tinv (t : Timer) : Prop := {
  tinv_bkg : bkg_inv t;
  tinv_launched : thread_status_ t = LAUNCH → bkg_thread_ t = Some BWaitWork → is_timer_launched_ t = true;
  tinv_deadline : bkg_thread_ t = Some BCallback → end_time_ t ≤ now t
}.

Ltac timer_cases :=
  repeat match goal with
  | |- context [if ?b then _ else _] => destruct b eqn:?
  | H : context [if ?b then _ else _] |- _ => destruct b eqn:?
  | H : context [match ?b with _ => _ end] |- _ => destruct b eqn:?
  end; simplify_eq/=; try case_bool_decide; simplify_eq/=.

Lemma dispatch_inv t : bkg_inv (BkgTimer_dispatch t) ↔
  (is_timer_deinit_ t = true ∨ is_timer_stopped_ t = true ∨ thread_status_ t = IDLE ∨ thread_status_ t = LAUNCH).
Proof.
  destruct t as [s e st d l pc a n]. unfold BkgTimer_dispatch, bkg_inv. cbn.
  destruct d, st, s; cbn; naive_solver.
Qed.

Lemma bkg_step_inv t t' : BkgTimer t = Some t' → tinv t → tinv t'.
Proof.
  intros H [H1 H2 H3]. unfold BkgTimer, bkg_inv in *.
  destruct t as [s e st d l [pc|] a n]; cbn in *; [|done].
  assert (s = IDLE ∨ s = LAUNCH → tinv (BkgTimer_dispatch (MkTimer s e st d l (Some pc) a n))) as Hd.
  { intros Hs. split; [apply dispatch_inv; cbn; tauto|..]; unfold BkgTimer_dispatch; cbn;
      destruct d, st, s; cbn; try done; tauto. }
  destruct pc; simplify_eq/=; timer_cases; try (by apply Hd; tauto); split; cbn; try done; try tauto; try lia.
Qed.

Lemma timer_step_inv e t t' : timer_step e t = Some t' → tinv t → tinv t'.
Proof.
  intros H Hi. destruct e; cbn in H; [by eapply bkg_step_inv| | | | | |];
    destruct Hi as [H1 H2 H3], t as [s en st d l pc a n]; unfold bkg_inv in *; cbn in *.
  - destruct pc; [done|]. injection H as <-. destruct created; split; cbn; try done; unfold bkg_inv; cbn; naive_solver.
  - injection H as <-. unfold Launch. cbn. case_bool_decide; subst; split; cbn; try done; unfold bkg_inv; cbn.
    + destruct pc as [[]|]; naive_solver.
    + intros [= ->]. naive_solver.
  - injection H as <-. unfold AbortTimer. cbn. destruct d; cbn; [by split|].
    do 2 (case_bool_decide; cbn; [by split|]). split; cbn; try done. unfold bkg_inv. cbn.
    destruct pc as [[]|]; naive_solver.
  - unfold AbortTimer_return in H. cbn in H. destruct a, s; try done. injection H as <-.
    split; cbn; try done; unfold bkg_inv; cbn; destruct pc as [[]|]; naive_solver.
  - injection H as <-. by split.
  - destruct (Z.ltb_spec 0 us); [|done]. injection H as <-. split; cbn; try done. intros E. specialize (H3 E). lia.
Qed.

Lemma timer_reachable_inv t : timer_reachable t → tinv t.
Proof.
  unfold timer_reachable. remember new_timer as t0 eqn:E. induction 1 as [t|t1 t2 t3 e _ IH _ Hs]; subst.
  - split; cbn; try done. unfold bkg_inv. cbn. auto.
  - eapply timer_step_inv; eauto.
Qed.

(** ** What an abort promises *)

Fixpoint bkg_run (n : nat) (t : Timer) : option Timer :=
  match n with O => Some t | S n => match BkgTimer t with Some t' => bkg_run n t' | None => None end end.

(** The timer when its deadline has passed. *)
Definition at_deadline (t : Timer) : Timer :=
  MkTimer (thread_status_ t) (end_time_ t) (is_timer_stopped_ t) (is_timer_deinit_ t) (is_timer_launched_ t)
    (bkg_thread_ t) (aborting t) (Z.max (end_time_ t) (now t)).

Lemma elapsed e n : (e <=? Z.max e n) = true.
Proof. apply Z.leb_le. lia. Qed.

(** A sequence of events. *)
Definition exec (es : list event) (t : Timer) : option Timer :=
  foldl (fun t e => match t with Some t => timer_step e t | None => None end) (Some t) es.

Lemma exec_snoc es e t : exec (es ++ [e]) t = match exec es t with Some t1 => timer_step e t1 | None => None end.
Proof. unfold exec. by rewrite foldl_snoc. Qed.

Lemma exec_run P es t t' : Forall P es → exec es t = Some t' → run P t t'.
Proof.
  revert t'. induction es as [|e es IH] using rev_ind; intros t' HP; [intros [= ->]; apply run_nil|].
  rewrite exec_snoc. apply Forall_app in HP as [HP [He _]%Forall_cons].
  destruct (exec es t) as [t1|]; [|done]. intros Hs. eapply run_snoc; eauto.
Qed.

Lemma exec_reachable es t : exec es new_timer = Some t → timer_reachable t.
Proof. apply exec_run. by apply Forall_true. Qed.

(** The threads that wait in [AbortTimer] can go on. *)
Definition wakes (t : Timer) : Prop := aborting t ≠ 0%nat → is_Some (AbortTimer_return t).

Lemma idle_wakes t : thread_status_ t = IDLE → wakes t.
Proof. unfold wakes, AbortTimer_return. intros ->. by destruct (aborting t). Qed.

(** The background thread is in its loop, and nobody asked it to end. *)
Definition looping (t : Timer) : Prop :=
  is_timer_deinit_ t = false ∧
  match bkg_thread_ t with
  | Some BHead => thread_status_ t = IDLE ∨ thread_status_ t = LAUNCH
  | Some BWaitWork => thread_status_ t = IDLE ∨ (thread_status_ t = LAUNCH ∧ is_timer_launched_ t = true)
  | Some BWaitDeadline => thread_status_ t = LAUNCH
  | Some BCallback => thread_status_ t = CALLING
  | _ => False
  end.

Lemma looping_step e t t' : e ≠ EDeInit → timer_step e t = Some t' → looping t → looping t'.
Proof.
  intros He H [Hd Hl]. destruct t as [s en st d l pc a n]. unfold looping in *. cbn in *. subst d.
  destruct e; cbn in H; [| | | | |done|].
  - unfold BkgTimer, BkgTimer_dispatch in H. cbn in H.
    destruct pc as [[]|]; try done; destruct s, l, st; cbn in H; timer_cases; naive_solver.
  - by destruct pc.
  - injection H as <-. unfold Launch. cbn. case_bool_decide; cbn; [|done]. destruct pc as [[]|]; naive_solver.
  - injection H as <-. unfold AbortTimer. cbn. by repeat case_match.
  - unfold AbortTimer_return in H. cbn in H. destruct a, s; try done. by injection H as <-.
  - destruct (0 <? us); [|done]. by injection H as <-.
Qed.

(** Steps of the background thread that a stop request may still need. *)
Definition stop_rank (t : Timer) : nat := match bkg_thread_ t with Some BWaitDeadline => 2 | _ => 1 end.

(** Idle, or on the way there with at most two steps in all. *)
Definition stopping (n : nat) (t : Timer) : Prop :=
  looping t ∧ (thread_status_ t = IDLE ∨ is_timer_stopped_ t = true ∧ (stop_rank t + n ≤ 2)%nat).

Lemma stopping_step e n t t' : e ≠ EDeInit → (∀ us, e ≠ ELaunch us) → timer_step e t = Some t' → stopping n t →
  stopping (if decide (e = EBkg) then S n else n) t'.
Proof.
  intros He Hno H [Hl Hs]. split; [by eapply looping_step|]. destruct Hl as [Hd Hl].
  destruct t as [s en st d l pc a c]. unfold stop_rank in *. cbn in *. subst d.
  destruct e; cbn in H; [rewrite decide_True by done|rewrite decide_False by done..].
  - unfold BkgTimer, BkgTimer_dispatch in H. cbn in H.
    destruct pc as [[]|]; try done; destruct s, l, st; cbn in H; timer_cases; try (by left); try naive_solver;
      right; (split; [naive_solver|]); destruct Hs as [?|[_ ?]]; try done; lia.
  - by destruct pc.
  - by destruct (Hno us).
  - injection H as <-. unfold AbortTimer. cbn. repeat case_match; cbn; naive_solver.
  - unfold AbortTimer_return in H. cbn in H. destruct a, s; try done. injection H as <-. by left.
  - done.
  - destruct (0 <? us); [|done]. by injection H as <-.
Qed.

(** Nothing but a launch or the end of the timer keeps an abort from its end. *)
Definition undisturbed (e : event) : Prop := e ≠ EDeInit ∧ ∀ us, e ≠ ELaunch us.

Definition bkg_steps (es : list event) : nat := length (filter (fun e => e = EBkg) es).

Lemma stopping_exec es t t' : Forall undisturbed es → exec es t = Some t' → stopping 0 t → stopping (bkg_steps es) t'.
Proof.
  revert t'. induction es as [|e es IH] using rev_ind; intros t' HP; [by intros [= ->]|].
  rewrite exec_snoc. apply Forall_app in HP as [HP [[He Hno] _]%Forall_cons]. unfold bkg_steps.
  rewrite filter_app, length_app, filter_cons, filter_nil.
  destruct (exec es t) as [t1|]; [|done]. intros H Hs. specialize (IH _ HP eq_refl Hs).
  pose proof (stopping_step _ _ _ _ He Hno H IH) as G. unfold bkg_steps in G.
  destruct (decide (e = EBkg)); cbn [length]; [by rewrite Nat.add_1_r|by rewrite Nat.add_0_r].
Qed.

(** A thread on the way to a stop is never blocked. *)
Lemma stopping_runs n t : stopping n t → thread_status_ t = IDLE ∨ is_Some (BkgTimer t).
Proof.
  intros [[Hd Hl] [Hs|[Hs _]]]; [by left|]. right. destruct t as [s en st d l pc a c]. cbn in *. subst.
  unfold BkgTimer. cbn. unfold has_work, interrupted. cbn. rewrite orb_true_r. destruct pc as [[]|]; done.
Qed.

Lemma looping_exec es t t' : EDeInit ∉ es → exec es t = Some t' → looping t → looping t'.
Proof.
  revert t'. induction es as [|e es IH] using rev_ind; intros t' Hno; [by intros [= ->]|].
  rewrite exec_snoc. rewrite not_elem_of_app, list_elem_of_singleton in Hno. destruct Hno as [Hno He].
  destruct (exec es t) as [t1|]; [|done]. intros H Hl. eapply looping_step; eauto.
Qed.

(** After the deadline three steps are enough, whatever the thread was doing. *)
Lemma looping_deadline t : looping t →
  ∃ n t', (n ≤ 3)%nat ∧ bkg_run n (at_deadline t) = Some t' ∧ thread_status_ t' = IDLE.
Proof.
  intros [Hd Hl]. destruct t as [s e st d l pc a n]. unfold at_deadline. cbn in *. subst d.
  destruct pc as [[]|]; try done; [destruct Hl as [->| ->]|destruct Hl as [->|[-> ->]]|subst s|subst s];
    destruct st; first [exists 0%nat; eexists; (split; [lia|]); split; [reflexivity|done]
      | exists 1%nat; eexists; (split; [lia|]); split; [cbv -[Z.leb Z.max Z.add]; rewrite ?elapsed; reflexivity|done]
      | exists 2%nat; eexists; (split; [lia|]); split; [cbv -[Z.leb Z.max Z.add]; rewrite ?elapsed; reflexivity|done]
      | exists 3%nat; eexists; (split; [lia|]); split; [cbv -[Z.leb Z.max Z.add]; rewrite ?elapsed; reflexivity|done]].
Qed.

Lemma reachable_looping t : timer_reachable t → is_timer_deinit_ t = false → thread_status_ t ≠ DEINIT →
  thread_status_ t ≠ FAILED → looping t.
Proof.
  intros Hr Hd Hs Hf. destruct (timer_reachable_inv _ Hr) as [H1 H2 _]. split; [done|]. unfold bkg_inv in H1.
  destruct (bkg_thread_ t) as [[]|]; naive_solver.
Qed.

(** C36: [AbortTimer] in any reachable state.  If the timer is being shut down, was shut down or could
    not be started, it returns at once and changes nothing.  Otherwise it waits, and the wait ends:
    as long as no thread launches the timer again or shuts it down, whatever else happens and
    without the clock having to move, the background thread is never blocked before the abort can
    return, and after two of its steps the abort can return for good; and with launches in between
    it can return at the latest three steps after the deadline of the last one. *)
Theorem abort_returns t : timer_reachable t →
  let '(t1, at_once) := AbortTimer t in
  if at_once then t1 = t ∧ (is_timer_deinit_ t = true ∨ thread_status_ t = DEINIT ∨ thread_status_ t = FAILED)
  else
    aborting t1 = S (aborting t) ∧
    (∀ es t2, Forall undisturbed es → exec es t1 = Some t2 →
       (wakes t2 ∨ is_Some (BkgTimer t2)) ∧ ((2 ≤ bkg_steps es)%nat → wakes t2)) ∧
    (∀ es t2, EDeInit ∉ es → exec es t1 = Some t2 →
       ∃ n t3, (n ≤ 3)%nat ∧ bkg_run n (at_deadline t2) = Some t3 ∧ wakes t3).
Proof.
  intros Hr. unfold AbortTimer. destruct (is_timer_deinit_ t) eqn:Ed; cbn [orb]; [tauto|].
  do 2 (case_bool_decide; cbn [orb]; [tauto|]).
  pose proof (reachable_looping t Hr Ed ltac:(done) ltac:(done)) as Hl.
  set (t1 := MkTimer _ _ true _ _ _ _ _). assert (looping t1) as Hl1 by (split; [done|apply Hl]).
  assert (stopping 0 t1) as Hs by (split; [done|right; split; [done|]; unfold stop_rank; repeat case_match; lia]).
  split; [done|]. split.
  - intros es t2 Hes He. pose proof (stopping_exec _ _ _ Hes He Hs) as G. split.
    + destruct (stopping_runs _ _ G); [left; by apply idle_wakes|by right].
    + intros Hn. apply idle_wakes. destruct G as [_ [|[_ Hk]]]; [done|].
      exfalso. unfold stop_rank in Hk. destruct (bkg_thread_ t2) as [[]|]; lia.
  - intros es t2 Hes He. destruct (looping_deadline t2) as (n & t3 & Hn & Hb & Hi); [by eapply looping_exec|].
    exists n, t3. split_and!; [done|done|by apply idle_wakes].
Qed.

(** Nothing but a launch starts the timer. *)
Definition no_launch (e : event) : Prop := ∀ us, e ≠ ELaunch us.

Definition quiet (t : Timer) : Prop :=
  match bkg_thread_ t with
  | Some BHead | Some BWaitWork => thread_status_ t = IDLE
  | Some BExit => thread_status_ t = DEINIT
  | _ => False
  end.

Lemma quiet_step e t t' : no_launch e → timer_step e t = Some t' → quiet t → quiet t'.
Proof.
  intros Hno H Hq. destruct t as [s en st d l pc a n]. unfold quiet in *. cbn in *.
  destruct e; cbn in H; [| |by destruct (Hno us)| | | |].
  - unfold BkgTimer, BkgTimer_dispatch in H. cbn in H.
    destruct pc as [[]|]; try done; subst s; cbn in H; destruct l, st, d; cbn in H; by simplify_eq/=.
  - by destruct pc.
  - injection H as <-. unfold AbortTimer. cbn. by repeat case_match.
  - unfold AbortTimer_return in H. cbn in H. destruct a, s; try done. by injection H as <-.
  - by injection H as <-.
  - destruct (0 <? us); [|done]. by injection H as <-.
Qed.

(** Once an abort has returned, no callback runs and none starts until the timer is launched again,
    whatever the other threads do; and a callback never runs before the deadline of its launch. *)
Theorem aborted_timer_stays_quiet t t1 t2 : timer_reachable t → AbortTimer_return t = Some t1 → run no_launch t1 t2 →
  TimerInUse t2 = false ∧ bkg_thread_ t2 ≠ Some BCallback ∧
  ∀ t3, timer_reachable t3 → bkg_thread_ t3 = Some BCallback → end_time_ t3 ≤ now t3.
Proof.
  intros Hr Ht Hrun. pose proof (timer_reachable_inv _ Hr) as [Hb _ _].
  assert (quiet t1) as Hq.
  { unfold AbortTimer_return, bkg_inv, quiet in *. destruct t as [s en st d l pc a n]. cbn in *.
    destruct a, s; try done. injection Ht as <-. cbn. destruct pc as [[]|]; naive_solver. }
  assert (quiet t2) as Hq2 by (induction Hrun; [done|eauto using quiet_step]).
  split_and!; [| |intros t3 Hr3; apply (tinv_deadline _ (timer_reachable_inv _ Hr3))];
    unfold quiet, TimerInUse in *; destruct (bkg_thread_ t2) as [[]|]; rewrite ?Hq2; done.
Qed.

(** A launch of an idle timer with no stop pending is accepted, and when the timeout has passed the
    background thread is in the callback after at most two steps. *)
Theorem launch_fires t us : timer_reachable t → thread_status_ t = IDLE → is_timer_stopped_ t = false →
  is_timer_deinit_ t = false →
  let '(t1, launched) := Launch us t in
  launched = true ∧ ∃ n t2, (n ≤ 2)%nat ∧ bkg_run n (at_deadline t1) = Some t2 ∧ bkg_thread_ t2 = Some BCallback ∧
    end_time_ t2 = now t + us.
Proof.
  intros Hr Hs Hst Hd. pose proof (timer_reachable_inv _ Hr) as [H1 _ _].
  destruct t as [s e st d l pc a n]. unfold bkg_inv, Launch, at_deadline in *. cbn in *. subst. cbn.
  split; [done|]. destruct pc as [[]|]; try naive_solver;
    exists 2%nat; eexists; (split; [lia|]);
    (split; [cbv -[Z.leb Z.max Z.add]; rewrite ?elapsed; reflexivity|done]).
Qed.

(** ** Examples *)

Module TimerExample.

(** The thread is started and waits for work; it is launched and counts down; it is aborted. *)
Definition to_idle : list event := [EInit true; EBkg; EBkg].
Definition to_countdown : list event := to_idle ++ [ELaunch 300000; EBkg].
Definition to_abort : list event := to_countdown ++ [EAbort].
Definition to_callback : list event := to_countdown ++ [ETick 300000; EBkg].

Definition waiting : Timer := MkTimer IDLE 0 false false false (Some BWaitWork) 0 0.

Definition counting : Timer := MkTimer LAUNCH 300000 false false true (Some BWaitDeadline) 0 0.

(** The abort of a timer that counts down returns after two steps, before the deadline. *)
Lemma abort_returns_witness :
  ∃ t2, exec [EBkg; EBkg] (AbortTimer counting).1 = Some t2 ∧ now t2 = 0 ∧ aborting t2 = 1%nat ∧ wakes t2.
Proof.
  pose proof (abort_returns counting (exec_reachable to_countdown counting eq_refl)) as (_ & H & _).
  eexists. split; [vm_compute; reflexivity|]. split; [done|]. split; [done|].
  apply (H [EBkg; EBkg]); [|vm_compute; reflexivity|done].
  repeat (apply Forall_cons; split; [by split|]). constructor.
Defined.

Definition later : Timer := MkTimer IDLE 300000 false false false (Some BWaitWork) 0 400000.

Lemma aborted_timer_stays_quiet_witness : TimerInUse later = false.
Proof.
  refine (proj1 (aborted_timer_stays_quiet _ _ later (exec_reachable (to_abort ++ [EBkg; EBkg]) _ eq_refl) eq_refl _)).
  apply (exec_run no_launch [ETick 400000; EBkg]); [repeat constructor; done|vm_compute; reflexivity].
Defined.

Lemma launch_fires_witness :
  (Launch 5 waiting).2 = true ∧ ∃ n t2, (n ≤ 2)%nat ∧ bkg_run n (at_deadline (Launch 5 waiting).1) = Some t2 ∧
    bkg_thread_ t2 = Some BCallback ∧ end_time_ t2 = 5.
Proof. exact (launch_fires waiting 5 (exec_reachable to_idle waiting eq_refl) eq_refl eq_refl eq_refl). Defined.

End TimerExample.

(** ** Where the code differs from its comments *)

Module TimerFindings.
Import TimerExample.

(** A launch that is aborted before the thread wakes up leaves [is_timer_launched_] set on an idle
    timer: the wait for work does not block any more, and the thread goes round its loop. *)
Theorem aborted_launch_spins : ∃ t, exec (to_idle ++ [ELaunch 300000; EAbort; EBkg; EAbortReturn]) new_timer = Some t ∧
  thread_status_ t = IDLE ∧ interrupted t = false ∧ BkgTimer t = Some t.
Proof. eexists. split; [vm_compute; reflexivity|done]. Qed.

(** An abort during the callback returns when the callback does, with its stop request still set; a
    launch that follows is accepted and then cancelled by that request. *)
Theorem pending_stop_cancels_launch : ∃ t1 t2,
  exec (to_callback ++ [EAbort; EBkg; EAbortReturn]) new_timer = Some t1 ∧ thread_status_ t1 = IDLE ∧ aborting t1 = 0%nat ∧
  (Launch 300000 t1).2 = true ∧ BkgTimer (Launch 300000 t1).1 = Some t2 ∧ thread_status_ t2 = IDLE ∧ BkgTimer t2 = Some t2.
Proof. do 2 eexists. split; [vm_compute; reflexivity|]. split_and!; try done; vm_compute; reflexivity. Qed.

(** A thread waits in an abort when the timer has been shut down. *)
Definition hung (t : Timer) : Prop :=
  thread_status_ t = DEINIT ∧ bkg_thread_ t = Some BExit ∧ (0 < aborting t)%nat.

Lemma hung_step e t t' : timer_step e t = Some t' → hung t → hung t'.
Proof.
  destruct t as [s en st d l pc a n]. unfold hung. cbn. intros H (-> & -> & Ha).
  destruct e; cbn in H; try done; try (injection H as <-; done).
  - injection H as <-. unfold AbortTimer. cbn. by rewrite orb_true_r.
  - unfold AbortTimer_return in H. cbn in H. by destruct a.
  - destruct (0 <? us); [|done]. by injection H as <-.
Qed.

Lemma hung_run t t' : run (fun _ => True) t t' → hung t → hung t'.
Proof. induction 1; eauto using hung_step. Qed.

(** An abort that has started when the timer is shut down never returns: the thread finishes with
    [DEINIT], and the abort waits for [IDLE]. *)
Theorem shutdown_hangs_abort : ∃ t, exec (to_abort ++ [EDeInit; EBkg; EBkg]) new_timer = Some t ∧ aborting t = 1%nat ∧
  ∀ t', run (fun _ => True) t t' → AbortTimer_return t' = None ∧ (0 < aborting t')%nat.
Proof.
  eexists. split; [vm_compute; reflexivity|]. split; [done|]. intros t' Hrun.
  destruct (hung_run _ _ Hrun) as (Hs & _ & Ha); [split_and!; [done|done|cbn; lia]|].
  split; [|done]. unfold AbortTimer_return. rewrite Hs. by destruct (aborting t').
Qed.

End TimerFindings.
