(* ===== verification/EpOptions.v ===== *)
(** * Options of the execution provider

    The parsers of session and run options (qnn_execution_provider.cc), the table of SoCs
    (soc_utility/) and the configuration of several SoCs at once.  An out parameter that keeps
    its value on failure is an argument and the answer; log lines are left out. *)

From stdpp Require Import pretty.
From S2P Require Import Prelude DataTypes NodeGroups Power.
Import Affinity.
Local Open Scope Z_scope.

(** ** Integers *)

(** [std::from_chars] in base ten after the signs were rejected: all characters are digits and
    the value fits. *)
Definition digit_of (c : Ascii.ascii) : option Z :=
  let n := Z.of_nat (Ascii.nat_of_ascii c) in if (48 <=? n) && (n <=? 57) then Some (n - 48) else None.

Fixpoint from_chars (acc : Z) (s : string) : option Z :=
  match s with
  | EmptyString => Some acc
  | String c s => match digit_of c with Some d => from_chars (10 * acc + d) s | None => None end
  end.

(** [hi] is the largest value of the integer type. *)
Definition TryParseInteger (hi : Z) (value : string) : option Z :=
  match value with
  | EmptyString => None
  | _ => match from_chars 0 value with Some z => if z <=? hi then Some z else None | None => None end
  end.

Definition int32_max : Z := 2 ^ 31 - 1.
Definition uint32_max : Z := 2 ^ 32 - 1.

(** ** Enumerations *)

Definition ParseHtpPerformanceMode (s : string) (mode : HtpPerformanceMode) : HtpPerformanceMode :=
  let s := ToLower s in
  default mode (find_assoc s
    [("burst", kHtpBurst); ("balanced", kHtpBalanced); ("default", kHtpDefault); ("high_performance", kHtpHighPerformance);
     ("high_power_saver", kHtpHighPowerSaver); ("low_balanced", kHtpLowBalanced); ("low_power_saver", kHtpLowPowerSaver);
     ("power_saver", kHtpPowerSaver); ("extreme_power_saver", kHtpExtremePowerSaver);
     ("sustained_high_performance", kHtpSustainedHighPerformance)]).

Inductive ContextPriority : Set :=
| PRIO_LOW | PRIO_NORMAL_LOW | PRIO_NORMAL | PRIO_NORMAL_HIGH | PRIO_HIGH | PRIO_HIGH_PLUS | PRIO_CRITICAL | PRIO_CRITICAL_PLUS
| PRIO_UNDEFINED.

Definition ParseQnnContextPriority (s : string) : ContextPriority :=
  default PRIO_UNDEFINED (find_assoc (ToLower s)
    [("low", PRIO_LOW); ("normal_low", PRIO_NORMAL_LOW); ("normal", PRIO_NORMAL); ("normal_high", PRIO_NORMAL_HIGH);
     ("high", PRIO_HIGH); ("high_plus", PRIO_HIGH_PLUS); ("critical", PRIO_CRITICAL); ("critical_plus", PRIO_CRITICAL_PLUS)]).

Inductive ProfilingLevel : Set := PROF_OFF | PROF_BASIC | PROF_DETAILED | PROF_OPTRACE.

Definition ParseProfilingLevel (s : string) (level : ProfilingLevel) : ProfilingLevel :=
  default level (find_assoc (ToLower s)
    [("off", PROF_OFF); ("basic", PROF_BASIC); ("detailed", PROF_DETAILED); ("optrace", PROF_OPTRACE)]).

(** The library of a backend, on a platform with the ELF naming scheme. *)
Definition MakeSharedLibraryPath (n : string) : string := "lib" +:+ n +:+ ".so".

Definition ParseBackendTypeName (s : string) (backend_path : string) : string * bool :=
  match find_assoc s [("cpu", "QnnCpu"); ("genie", "Genie"); ("gpu", "QnnGpu"); ("htp", "QnnHtp"); ("saver", "QnnSaver"); ("ir", "QnnIr")] with
  | Some lib => (MakeSharedLibraryPath lib, true)
  | None => (backend_path, false)
  end.

(** [filename] is the last component of the path. *)
Definition InferBackendTypeFromPath (filename : string) : option QnnBackendType :=
  if bool_decide (filename = MakeSharedLibraryPath "QnnCpu") then Some CPU
  else if bool_decide (filename = MakeSharedLibraryPath "QnnGpu") then Some GPU
  else if bool_decide (filename = MakeSharedLibraryPath "QnnHtp") then Some HTP else None.

Definition ParseHtpGraphFinalizationOptimizationMode (s : string) (mode : Z) : Z :=
  default mode (find_assoc s [("", 0); ("0", 0); ("1", 1); ("2", 2); ("3", 3)]).

Definition ParseVtcmSize (s : string) (vtcm_size_in_mb : Z) : Z :=
  match TryParseInteger int32_max s with
  | Some parsed => if parsed <=? 0 then vtcm_size_in_mb else parsed
  | None => vtcm_size_in_mb
  end.

(** The value of [QNN_HTP_DEVICE_ARCH_V<n>] is [n], of [NONE] zero. *)
Definition ParseHtpArchitecture (s : string) (arch : Z) : Z :=
  default arch (find_assoc s [("", 0); ("0", 0); ("68", 68); ("69", 69); ("73", 73); ("75", 75); ("79", 79); ("81", 81)]).

Definition ParseBoolOption (value_str : string) (default_value : bool) : bool :=
  if bool_decide (value_str = "1") then true else if bool_decide (value_str = "0") then false else default_value.

Definition ParseIntegerOption (hi : Z) (value_str : string) (default_value : Z) : Z :=
  match value_str with
  | EmptyString => default_value
  | _ => default default_value (TryParseInteger hi value_str)
  end.

(** ** SoCs *)

Record SocInfo := Soc { soc_name : string; soc_model : Z; htp_arch : Z }.

Definition kSocInfos : list SocInfo :=
  [ Soc "SM8350" 30 68; Soc "SM8325" 34 68; Soc "SM8450" 36 69; Soc "SC8280X" 37 68; Soc "SM8475" 42 69;
    Soc "SM8550" 43 73; Soc "SM8650" 57 75; Soc "SC8380XP" 60 73; Soc "SM8635" 68 73; Soc "SM8750" 69 79;
    Soc "SM7675" 70 73; Soc "SM8850" 87 81; Soc "SC8480XP" 88 81 ].

Definition to_upper_char (c : Ascii.ascii) : Ascii.ascii :=
  let n := Ascii.nat_of_ascii c in if (97 <=? n)%nat && (n <=? 122)%nat then Ascii.ascii_of_nat (n - 32) else c.

Fixpoint to_upper (s : string) : string :=
  match s with EmptyString => EmptyString | String c s => String (to_upper_char c) (to_upper s) end.

Definition MapSocModelFromSocName (n : string) : Z :=
  match find (fun i => String.eqb (soc_name i) (to_upper n)) kSocInfos with Some i => soc_model i | None => 0 end.

Definition MapHtpArchFromSocModel (model : Z) : Z :=
  match find (fun i => soc_model i =? model) kSocInfos with Some i => htp_arch i | None => 0 end.

Definition ParseSocModel (s : string) (model : Z) : Z :=
  let name_value := MapSocModelFromSocName s in
  if negb (name_value =? 0) then name_value else default model (TryParseInteger uint32_max s).

Definition MatchSocModelAndHtpArch (model arch : Z) : Z :=
  let mapped := MapHtpArchFromSocModel model in
  if mapped =? 0 then arch
  else if arch =? 0 then mapped
  else if negb (arch =? mapped) then mapped else arch.

(** ** Several SoCs *)

(** [SplitString] at a delimiter of one character, without the empty segments. *)
Fixpoint split_at (d : Ascii.ascii) (segment : string) (s : string) : list string :=
  let emit := match segment with EmptyString => [] | _ => [segment] end in
  match s with
  | EmptyString => emit
  | String c s => if Ascii.eqb c d then emit ++ split_at d EmptyString s else split_at d (segment +:+ String c EmptyString) s
  end.
Definition SplitString (d : Ascii.ascii) (s : string) : list string := split_at d EmptyString s.

Fixpoint has_char (d : Ascii.ascii) (s : string) : bool :=
  match s with EmptyString => false | String c s => Ascii.eqb c d || has_char d s end.

Definition comma : Ascii.ascii := Ascii.ascii_of_nat 44.

(** An option given once, or once for each SoC, or not at all. *)
Definition parse_per_soc_option {A} (option_name option_str : string) (default_value : A) (parse_element : string → A)
  (num_socs : nat) : result (list A) :=
  match option_str with
  | EmptyString => Ok (replicate num_socs default_value)
  | _ =>
      let values := parse_element <$> SplitString comma option_str in
      match values with
      | [v] => Ok (replicate num_socs v)
      | _ => if (length values =? num_socs)%nat then Ok values
             else Err (Throw ("Expecting " +:+ option_name +:+ " having equal number of values with htp_arch/soc_model."))
      end
  end.

(** The configurations differ by the size of the VTCM only; [None] when there is one SoC. *)
Definition ParsePerSocHtpConfigs (soc_model_str htp_arch_str vtcm_str : string) (vtcm_default : Z)
  : result (option (list Z * list Z * list Z)) :=
  if negb (has_char comma soc_model_str) && negb (has_char comma htp_arch_str) then Ok None
  else
  let models := match soc_model_str with EmptyString => [] | s => (fun t => ParseSocModel t 0) <$> SplitString comma s end in
  let archs := match htp_arch_str with EmptyString => [] | s => (fun t => ParseHtpArchitecture t 0) <$> SplitString comma s end in
  let* (models, archs) :=
    match models with
    | [] => Ok (replicate (length archs) 0, archs)
    | _ =>
        let archs := match archs with [] => replicate (length models) 0 | _ => archs end in
        if negb (length archs =? length models)%nat
        then Err (Throw "Expecting soc_model and htp_arch having equal number of values in multi-SoC EP context.")
        else Ok (models, zip_with MatchSocModelAndHtpArch models archs)
    end in
  let* vtcm := parse_per_soc_option "vtcm_mb" vtcm_str vtcm_default (fun t => ParseVtcmSize t vtcm_default) (length models) in
  Ok (Some (models, archs, vtcm)).

(** ** Run options *)

(** The entries of the run options and the settings of the session that they override. *)
Record run_options := RunOptions {
  opt_perf_mode : option string;
  opt_perf_mode_post_run : option string;
  opt_rpc_control_latency : option string
}.
Record power_defaults := PowerDefaults {
  default_htp_performance_mode_ : HtpPerformanceMode;
  default_rpc_control_latency_ : Z;
  default_rpc_polling_time_ : Z;
  dynamic_htp_performance_mode_ : HtpPerformanceMode;
  dynamic_rpc_polling_time_ : Z
}.

Definition kDisableRpcPolling : Z := 0.

Definition set_mode (mode : HtpPerformanceMode) : option HtpPerformanceMode :=
  if bool_decide (mode = kHtpDefault) then None else Some mode.

Definition GetPerThreadHtpPowerConfigs (d : power_defaults) (o : run_options) (power_config_id : Z) : PerThreadHtpPowerConfigs :=
  let parse s := match s with Some s => ParseHtpPerformanceMode s kHtpDefault | None => kHtpDefault end in
  let pre := parse (opt_perf_mode o) in
  let post := parse (opt_perf_mode_post_run o) in
  let latency := match opt_rpc_control_latency o with
                 | Some s => default (default_rpc_control_latency_ d) (TryParseInteger uint32_max s)
                 | None => default_rpc_control_latency_ d
                 end in
  let '(mode, polling) :=
    if negb (bool_decide (dynamic_htp_performance_mode_ d = kHtpDefault))
    then (Some (dynamic_htp_performance_mode_ d), dynamic_rpc_polling_time_ d)
    else if negb (bool_decide (default_htp_performance_mode_ d = kHtpDefault))
    then (Some (default_htp_performance_mode_ d), default_rpc_polling_time_ d)
    else (None, kDisableRpcPolling) in
  let polling := if bool_decide (pre = kHtpBurst) then 9999 else polling in
  PerThread (set_mode pre) (set_mode post) (Some latency) (Some polling) mode power_config_id.

(** ** Integers round trip *)

Lemma digit_of_char (d : N) : (d < 10)%N → digit_of (pretty_N_char d) = Some (Z.of_N d).
Proof.
  intros Hd. assert (d = 0 ∨ d = 1 ∨ d = 2 ∨ d = 3 ∨ d = 4 ∨ d = 5 ∨ d = 6 ∨ d = 7 ∨ d = 8 ∨ d = 9)%N as Hc by lia.
  by repeat destruct Hc as [->|Hc]; [..|subst].
Qed.

Lemma from_chars_go (x : N) : ∀ s, from_chars 0 (pretty_N_go x s) = from_chars (Z.of_N x) s.
Proof.
  induction (N.lt_wf_0 x) as [x _ IH]. intros s. destruct (decide (0 < x)%N) as [Hx|Hx].
  - rewrite pretty_N_go_step by done. rewrite IH by (apply N.div_lt; lia). cbn [from_chars].
    rewrite digit_of_char by (apply N.mod_lt; lia). f_equal.
    rewrite N2Z.inj_div, N2Z.inj_mod. pose proof (Z.div_mod (Z.of_N x) 10 ltac:(lia)). lia.
  - assert (x = 0%N) as -> by lia. by rewrite pretty_N_go_0.
Qed.

Lemma from_chars_nonneg s : ∀ acc z, 0 ≤ acc → from_chars acc s = Some z → 0 ≤ z.
Proof.
  induction s as [|c s IH]; intros acc z Ha E; cbn in E; [congruence|]. unfold digit_of in E.
  destruct ((48 <=? _) && _) eqn:Eb; [|done]. apply andb_true_iff in Eb as [Eb _]. apply Z.leb_le in Eb.
  eapply IH; [|exact E]. lia.
Qed.

(** The decimal digits of a number are not the empty string. *)
Lemma pretty_N_ne (n : N) : pretty n ≠ EmptyString.
Proof.
  intros E. assert (from_chars 0 (pretty n) = Some (Z.of_N n)) as Hn.
  { unfold pretty, pretty_N. case_decide as Hz; [by subst|]. by rewrite from_chars_go. }
  rewrite E in Hn. cbn in Hn. injection Hn as Hn. assert (n = 0%N) as -> by lia. done.
Qed.

Lemma split_at_join d tok rest : ∀ seg, has_char d tok = false → seg +:+ tok ≠ EmptyString →
  split_at d seg (tok +:+ String d rest) = (seg +:+ tok) :: split_at d EmptyString rest.
Proof.
  induction tok as [|c tok IH]; intros seg Hc Hne; cbn [String.append split_at has_char] in *.
  - change (EmptyString +:+ String d rest) with (String d rest). cbn [split_at]. rewrite Ascii.eqb_refl.
    rewrite string_app_nil in *. by destruct seg.
  - apply orb_false_iff in Hc as [Hc1 Hc2]. change (String c tok +:+ String d rest) with (String c (tok +:+ String d rest)).
    cbn [split_at]. rewrite Hc1, IH.
    + by rewrite string_app_assoc.
    + done.
    + rewrite string_app_assoc. done.
Qed.

Lemma split_at_last d tok : ∀ seg, has_char d tok = false → seg +:+ tok ≠ EmptyString →
  split_at d seg tok = [seg +:+ tok].
Proof.
  induction tok as [|c tok IH]; intros seg Hc Hne; cbn [String.append split_at has_char] in *.
  - rewrite string_app_nil in *. by destruct seg.
  - apply orb_false_iff in Hc as [Hc1 Hc2]. rewrite Hc1, IH; [by rewrite string_app_assoc|done|by rewrite string_app_assoc].
Qed.

(** The text of a list of values. *)
Fixpoint join_with (d : Ascii.ascii) (l : list string) : string :=
  match l with [] => EmptyString | [t] => t | t :: l => t +:+ String d (join_with d l) end.
Definition join : list string → string := join_with comma.

Lemma split_join_with d l : Forall (fun t => t ≠ EmptyString ∧ has_char d t = false) l → SplitString d (join_with d l) = l.
Proof.
  unfold SplitString. induction 1 as [|t [|t' l] [Ht Hc] Hl IH]; [done|by apply split_at_last|].
  change (join_with d (t :: t' :: l)) with (t +:+ String d (join_with d (t' :: l))). rewrite split_at_join by done. by rewrite IH.
Qed.

Lemma split_join l : Forall (fun t => t ≠ EmptyString ∧ has_char comma t = false) l → SplitString comma (join l) = l.
Proof. apply split_join_with. Qed.

Lemma match_arch model arch : MapHtpArchFromSocModel model ≠ 0 → MatchSocModelAndHtpArch model arch = MapHtpArchFromSocModel model.
Proof.
  intros Hm. unfold MatchSocModelAndHtpArch. rewrite (proj2 (Z.eqb_neq _ _) Hm). destruct (arch =? 0); [done|].
  destruct (Z.eqb_spec arch (MapHtpArchFromSocModel model)); done.
Qed.

Lemma per_soc_length {A} n s (d : A) f k l : parse_per_soc_option n s d f k = Ok l → length l = k.
Proof.
  unfold parse_per_soc_option. destruct s as [|c s]; [intros [= <-]; apply length_replicate|].
  set (v := f <$> _). destruct v as [|x [|y v']].
  - destruct (Nat.eqb_spec (length (@nil A)) k); [intros [= <-]; done|done].
  - intros [= <-]. apply length_replicate.
  - destruct (Nat.eqb_spec (length (x :: y :: v')) k); [intros [= <-]; done|done].
Qed.

(** An integer option is accepted exactly when it is the decimal text of a value of its
    type: printing a value of the type and parsing it gives the value back, whatever is
    accepted lies between zero and the largest value of the type, and a sign, a blank or any
    other character makes the text be rejected. *)
Theorem integer_option_roundtrip hi :
  (∀ n, Z.of_N n ≤ hi → TryParseInteger hi (pretty n) = Some (Z.of_N n)) ∧
  (∀ s z, TryParseInteger hi s = Some z → 0 ≤ z ≤ hi) ∧
  (∀ s t c, digit_of c = None → TryParseInteger hi (s +:+ String c t) = None).
Proof.
  split_and!.
  - intros n Hn. unfold TryParseInteger. destruct (pretty n) as [|c s] eqn:E; [by apply pretty_N_ne in E|]. rewrite <- E.
    assert (from_chars 0 (pretty n) = Some (Z.of_N n)) as ->.
    { unfold pretty, pretty_N. case_decide as Hz; [by subst|]. by rewrite from_chars_go. }
    by rewrite (proj2 (Z.leb_le _ _)).
  - intros s z E. unfold TryParseInteger in E. destruct s as [|c s]; [done|].
    destruct (from_chars 0 (String c s)) as [z'|] eqn:Ez; [|done]. destruct (Z.leb_spec z' hi); [|done]. injection E as <-.
    split; [|done]. by eapply (from_chars_nonneg _ 0).
  - intros s t c Hc. unfold TryParseInteger. assert (∀ acc, from_chars acc (s +:+ String c t) = None) as Hn.
    { induction s as [|a s IH]; intros acc.
      - change (match digit_of c with Some d => from_chars (10 * acc + d) t | None => None end = None). by rewrite Hc.
      - change (match digit_of a with Some d => from_chars (10 * acc + d) (s +:+ String c t) | None => None end = None).
        destruct (digit_of a); [apply IH|done]. }
    destruct (s +:+ String c t) eqn:E; [done|]. by rewrite Hn.
Qed.

(** The configuration of several SoCs: when the options are accepted, there is one model,
    one architecture and one VTCM size for each SoC, every architecture is that of the table for
    a model the table knows whatever the user gave, and a list of non-empty values without
    commas is read back value by value. *)
Theorem per_soc_options_consistent soc_str arch_str vtcm_str v models archs vtcm :
  ParsePerSocHtpConfigs soc_str arch_str vtcm_str v = Ok (Some (models, archs, vtcm)) →
  length archs = length models ∧ length vtcm = length models ∧
  (∀ i m a, models !! i = Some m → archs !! i = Some a → MapHtpArchFromSocModel m ≠ 0 → a = MapHtpArchFromSocModel m) ∧
  (∀ l, Forall (fun t => t ≠ EmptyString ∧ has_char comma t = false) l → l ≠ [] → soc_str = join l →
     models = (fun t => ParseSocModel t 0) <$> l).
Proof.
  unfold ParsePerSocHtpConfigs. destruct (_ && _); [done|]. intros E. apply bind_Ok in E as ([ms ars] & E1 & E).
  apply bind_Ok in E as (vt & Ev & E). injection E as -> -> ->. apply per_soc_length in Ev.
  set (given := match soc_str with EmptyString => [] | s => _ end) in E1.
  assert (∀ l, Forall (fun t => t ≠ EmptyString ∧ has_char comma t = false) l → l ≠ [] → soc_str = join l →
     given = (fun t => ParseSocModel t 0) <$> l) as Hj.
  { intros l Hl Hne Hs. assert (SplitString comma soc_str = l) as Hsp by (rewrite Hs; by apply split_join).
    unfold given. destruct soc_str as [|c s]; [|by rewrite Hsp].
    destruct l as [|t l]; [done|]. apply Forall_cons in Hl as [[Ht _] _]. destruct l; cbn in Hs; destruct t; done. }
  destruct given as [|g gs] eqn:Eg.
  - injection E1 as <- <-. split_and!.
    + by rewrite length_replicate.
    + done.
    + intros i m a Hm%lookup_replicate_1 _ Hne. destruct Hm as [-> _]. done.
    + intros l Hl Hne Hs. specialize (Hj l Hl Hne Hs). by destruct l.
  - rewrite <- Eg in *. clear Eg. set (ars := match _ with [] => replicate (length given) 0 | _ => _ end) in E1.
    destruct (Nat.eqb_spec (length ars) (length given)) as [El|]; [|done]. cbn in E1. injection E1 as <- <-. split_and!.
    + rewrite length_zip_with. lia.
    + done.
    + intros i m a Hm Ha Hne. apply lookup_zip_with_Some in Ha as (m' & a' & -> & Hm' & _). rewrite Hm in Hm'. injection Hm' as <-.
      by apply match_arch.
    + done.
Qed.

Lemma per_soc_options_consistent_witness :
  ∃ models archs vtcm, ParsePerSocHtpConfigs "sm8550,69" "" "8" 0 = Ok (Some (models, archs, vtcm)) ∧ length archs = length models ∧
    archs = [73; 79].
Proof.
  exists [43; 69], [73; 79], [8; 8]. assert (ParsePerSocHtpConfigs "sm8550,69" "" "8" 0 = Ok (Some ([43; 69], [73; 79], [8; 8]))) as E
    by (vm_compute; reflexivity).
  split; [exact E|]. split; [|reflexivity]. exact (proj1 (per_soc_options_consistent _ _ _ _ _ _ _ E)).
Defined.
