(* ===== verification/Compat.v ===== *)
(** * Compatibility of compiled models with the machine

    A compiled model carries a text that says for which backend, versions, HTP architectures and
    VTCM sizes it was made; a session that loads it compares the text with its own machine.  This
    file models the two versions of the text, how they are written, read and compared
    ([cache_compatibility/qnn_cache_compatibility_manager.cc] and [qnn_cache_compatibility_info.h]),
    and the calls of the provider ([qnn_execution_provider.cc]).  What the backend manager and the
    driver answer is a parameter. *)

From stdpp Require Import pretty.
From S2P Require Import Prelude DataTypes EpOptions.
Local Open Scope Z_scope.

(** ** Versions and records *)

Record QnnVersion := Version { major : Z; minor : Z; patch : Z }.
Definition QNN_VERSION_INIT : QnnVersion := Version 0 0 0.

(** The patch does not count. *)
Definition version_eq (a b : QnnVersion) : bool := (major a =? major b) && (minor a =? minor b).
Definition version_le (a b : QnnVersion) : bool :=
  if negb (major a =? major b) then major a <=? major b else minor a <=? minor b.

Record QnnCompatibilityInfoV1 := InfoV1 {
  v1_backend_id : Z;
  v1_sdk_version : QnnVersion;
  v1_backend_api_version : QnnVersion;
  v1_context_blob_version : QnnVersion;
  v1_htp_arch : Z;
  v1_is_htp_usr_drv : bool
}.
Record QnnCompatibilityInfoV2 := InfoV2 {
  v2_backend_id : Z;
  v2_sdk_version : QnnVersion;
  v2_backend_api_version : QnnVersion;
  htp_archs : list Z;
  soc_models : list Z;
  vtcm_mbs : list Z;
  v2_is_htp_usr_drv : bool
}.
Inductive QnnCompatibilityInfo := Compat_V1 (i : QnnCompatibilityInfoV1) | Compat_V2 (i : QnnCompatibilityInfoV2).

Definition empty_v1 : QnnCompatibilityInfoV1 := InfoV1 0 QNN_VERSION_INIT QNN_VERSION_INIT QNN_VERSION_INIT 0 false.
Definition empty_v2 : QnnCompatibilityInfoV2 := InfoV2 0 QNN_VERSION_INIT QNN_VERSION_INIT [] [] [] false.

(** In the order of the C enumeration. *)
Inductive OrtCompiledModelCompatibility : Set :=
| EP_NOT_APPLICABLE | EP_SUPPORTED_OPTIMAL | EP_SUPPORTED_PREFER_RECOMPILATION | EP_UNSUPPORTED.
Definition compatibility_rank (c : OrtCompiledModelCompatibility) : Z :=
  match c with EP_NOT_APPLICABLE => 0 | EP_SUPPORTED_OPTIMAL => 1 | EP_SUPPORTED_PREFER_RECOMPILATION => 2 | EP_UNSUPPORTED => 3 end.

Definition kHtpV6xAndV7xBreakageArch : Z := 73.
Definition kVtcmMbUnset : Z := 0.
Definition QNN_HTP_DEVICE_ARCH_NONE : Z := 0.

(** ** Numbers *)

Definition colon : Ascii.ascii := Ascii.ascii_of_nat 58.
Definition period : Ascii.ascii := Ascii.ascii_of_nat 46.

Definition is_space (c : Ascii.ascii) : bool :=
  let n := Ascii.nat_of_ascii c in (n =? 32)%nat || ((9 <=? n)%nat && (n <=? 13)%nat).
Definition is_digit (c : Ascii.ascii) : bool := bool_decide (is_Some (digit_of c)).

Fixpoint skip_spaces (s : string) : nat * string :=
  match s with
  | String c s' => if is_space c then let (n, r) := skip_spaces s' in (S n, r) else (O, s)
  | EmptyString => (O, EmptyString)
  end.
Definition take_sign (s : string) : bool * nat * string :=
  match s with
  | String c s' =>
      if (Ascii.nat_of_ascii c =? 45)%nat then (true, 1%nat, s')
      else if (Ascii.nat_of_ascii c =? 43)%nat then (false, 1%nat, s') else (false, O, s)
  | EmptyString => (false, O, s)
  end.
(** The value of the digits at the start, and how many there are. *)
Fixpoint digits (acc : Z) (n : nat) (s : string) : Z * nat :=
  match s with
  | String c s => match digit_of c with Some d => digits (10 * acc + d) (S n) s | None => (acc, n) end
  | EmptyString => (acc, n)
  end.

(** [std::stoi] and [std::stoll]: the number and the characters that were read; [None] is an
    exception. *)
Definition std_sto (lo hi : Z) (s : string) : option (Z * nat) :=
  let (spaces, s) := skip_spaces s in
  let '(negative, sign, s) := take_sign s in
  match s with
  | String c _ =>
      if is_digit c then
        let (v, n) := digits 0 0 s in
        let v := if negative : bool then - v else v in
        if (lo <=? v) && (v <=? hi) then Some (v, (spaces + sign + n)%nat) else None
      else None
  | EmptyString => None
  end.
Definition stoi (s : string) : result Z :=
  match std_sto (- 2 ^ 31) (2 ^ 31 - 1) s with Some (v, _) => Ok v | None => Err (Throw "stoi") end.
Definition stoll : string → option (Z * nat) := std_sto (- 2 ^ 63) (2 ^ 63 - 1).

Definition malformed_number : err := EpFail "Unrecognized compatibility info format: malformed numeric value.".

Definition DeserializeString (str : string) : result Z :=
  match str with
  | EmptyString => Err malformed_number
  | String c _ =>
      if negb (is_digit c) then Err malformed_number
      else match stoll str with
      | None => Err malformed_number
      | Some (parsed, pos) =>
          if negb (pos =? String.length str)%nat || (parsed <? 0) || (2 ^ 32 - 1 <? parsed) then Err malformed_number
          else Ok parsed
      end
  end.
Definition DeserializeString_vector (str : string) : result (list Z) := mapM_res DeserializeString (SplitString comma str).

Definition DeserializeVersion (str : string) : result QnnVersion :=
  match SplitString period str with
  | [a; b; c] =>
      let* x := DeserializeString a in
      let* y := DeserializeString b in
      let* z := DeserializeString c in
      Ok (Version x y z)
  | _ => Err (EpFail "Unrecognized compatibility info format: malformed version.")
  end.

Definition to_string (z : Z) : string := pretty (Z.to_N z).
Definition SerializeVersion (v : QnnVersion) : string := to_string (major v) +:+ "." +:+ to_string (minor v) +:+ "." +:+ to_string (patch v).

(** The comma stands before every element but the first. *)
Fixpoint append_elements (arr_str : string) (idx : nat) (arr : list Z) : string :=
  match arr with
  | [] => arr_str
  | v :: arr => append_elements ((if negb (idx =? 0)%nat then arr_str +:+ "," else arr_str) +:+ to_string v) (S idx) arr
  end.
Definition SerializeArray (arr : list Z) : string := append_elements "" 0 arr.

(** ** Reading and writing *)

Definition DeserializeCompatibilityInfoV1 (info_string : string) : result QnnCompatibilityInfoV1 :=
  match SplitString colon info_string with
  | [f0; f1; f2; f3; f4; f5] =>
      let* id := DeserializeString f0 in
      let* sdk := DeserializeVersion f1 in
      let* api := DeserializeVersion f2 in
      let* blob := DeserializeVersion f3 in
      let* arch := DeserializeString f4 in
      Ok (InfoV1 id sdk api blob arch (bool_decide (f5 = "1")))
  | _ => Err (EpFail "Unrecognized compatibility info format: not enough fields.")
  end.

Definition DeserializeCompatibilityInfoV2 (info_string : string) : result QnnCompatibilityInfoV2 :=
  match SplitString colon info_string with
  | [f0; f1; f2; f3; f4; f5; f6; f7] =>
      let* id := DeserializeString f1 in
      let* sdk := DeserializeVersion f2 in
      let* api := DeserializeVersion f3 in
      let* archs := DeserializeString_vector f4 in
      let* socs := DeserializeString_vector f5 in
      let* vtcms := DeserializeString_vector f6 in
      let* _ := return_if_not ((length archs =? length socs)%nat && (length archs =? length vtcms)%nat)
        "Unrecognized compatibility info format: unequal size in relative fields." in
      Ok (InfoV2 id sdk api archs socs vtcms (bool_decide (f7 = "1")))
  | _ => Err (EpFail "Unrecognized compatibility info format: not enough fields.")
  end.

(** The text before the first colon. *)
Fixpoint before_colon (s : string) : option string :=
  match s with
  | EmptyString => None
  | String c s => if Ascii.eqb c colon then Some EmptyString else String c <$> before_colon s
  end.
Definition starts_with_v (s : string) : bool := match s with String c _ => (Ascii.nat_of_ascii c =? 118)%nat | EmptyString => false end.

Definition DeserializeCompatibilityInfo (info_string : string) : result QnnCompatibilityInfo :=
  match before_colon info_string with
  | None => Err (EpFail "Unrecognized compatibility info format.")
  | Some first_slice =>
      if negb (starts_with_v first_slice) then rmap Compat_V1 (DeserializeCompatibilityInfoV1 info_string)
      else if bool_decide (first_slice = "v2") then rmap Compat_V2 (DeserializeCompatibilityInfoV2 info_string)
      else Err (EpFail ("Unrecognized compatibility info version: " +:+ first_slice))
  end.

Definition flag_string (b : bool) : string := if b then "1" else "0".

Definition SerializeCompatibilityInfoV1 (i : QnnCompatibilityInfoV1) : result string :=
  let* _ := return_if (version_eq (v1_sdk_version i) (v1_sdk_version empty_v1) ||
    version_eq (v1_backend_api_version i) (v1_backend_api_version empty_v1) || (v1_htp_arch i =? v1_htp_arch empty_v1))
    "No compatibility info to be serialized." in
  Ok (to_string (v1_backend_id i) +:+ ":" +:+ SerializeVersion (v1_sdk_version i) +:+ ":" +:+
      SerializeVersion (v1_backend_api_version i) +:+ ":" +:+ SerializeVersion (v1_context_blob_version i) +:+ ":" +:+
      to_string (v1_htp_arch i) +:+ ":" +:+ flag_string (v1_is_htp_usr_drv i)).

Definition SerializeCompatibilityInfoV2 (i : QnnCompatibilityInfoV2) : result string :=
  let* _ := return_if (version_eq (v2_sdk_version i) (v2_sdk_version empty_v2) ||
    version_eq (v2_backend_api_version i) (v2_backend_api_version empty_v2) || bool_decide (htp_archs i = htp_archs empty_v2) ||
    bool_decide (soc_models i = soc_models empty_v2) || bool_decide (vtcm_mbs i = vtcm_mbs empty_v2))
    "No compatibility info to be serialized." in
  Ok ("v2:" +:+ to_string (v2_backend_id i) +:+ ":" +:+ SerializeVersion (v2_sdk_version i) +:+ ":" +:+
      SerializeVersion (v2_backend_api_version i) +:+ ":" +:+ SerializeArray (htp_archs i) +:+ ":" +:+ SerializeArray (soc_models i) +:+ ":" +:+
      SerializeArray (vtcm_mbs i) +:+ ":" +:+ flag_string (v2_is_htp_usr_drv i)).

Definition SerializeCompatibilityInfo (i : QnnCompatibilityInfo) : result string :=
  match i with Compat_V1 i => SerializeCompatibilityInfoV1 i | Compat_V2 i => SerializeCompatibilityInfoV2 i end.

(** ** The machine *)

(** What the backend manager answers, and the user-mode driver. *)
Record machine := Machine {
  GetBackendId : Z;
  GetBackendApiVersion : QnnVersion;
  GetHtpArch : Z;
  GetSocModel : Z;
  GetVtcmSize : Z;
  IsBackendHostMode : bool;
  GetSdkVersion : string;
  IsHtpUsrDrvEnabled : Z → result bool;
  GetHtpUsrDrvVersion : QnnVersion
}.

Section Validation.
Variable mgr : machine.

(** The SDK of the driver if there is one, else that of the library, as "v2.40.0.251030". *)
Definition sdk_of_library : result QnnVersion :=
  match SplitString period (GetSdkVersion mgr) with
  | [String v a; b; c; _] =>
      let* _ := return_if (negb (Ascii.nat_of_ascii v =? 118)%nat) "Expected SDK version in vMajor.Minor.Patch.BuildId format." in
      let* x := stoi a in
      let* y := stoi b in
      let* z := stoi c in
      Ok (Version (u32 x) (u32 y) (u32 z))
  | _ => Err (EpFail "Expected SDK version in vMajor.Minor.Patch.BuildId format.")
  end.
Definition GetHtpUsrDrvInfo (htp_arch : Z) : result (QnnVersion * bool) :=
  let* is_htp_usr_drv := if IsBackendHostMode mgr then Ok false else IsHtpUsrDrvEnabled mgr htp_arch in
  if is_htp_usr_drv : bool then
    let v := GetHtpUsrDrvVersion mgr in
    let* _ := return_if ((major v =? 0) && (minor v =? 0) && (patch v =? 0)) "Failed to get HtpUsrDrv file version." in
    Ok (v, true)
  else
    let* v := sdk_of_library in Ok (v, false).

(** Fills in what is missing. *)
Definition GetCompatibilityInfo (info : QnnCompatibilityInfo) : result QnnCompatibilityInfo :=
  match info with
  | Compat_V1 _ => Err (EpFail "Support getting V2 compatibility info only.")
  | Compat_V2 i =>
      let archs := match htp_archs i with [] => [GetHtpArch mgr] | l => l end in
      let* socs := match soc_models i with
        | [] => Ok [GetSocModel mgr]
        | l => let* _ := return_if (negb (length l =? length archs)%nat) "Unequal size of `htp_archs` and `soc_models` in the given compatibility info." in Ok l
        end in
      let* vtcms := match vtcm_mbs i with
        | [] => Ok (replicate (length archs) kVtcmMbUnset)
        | l => let* _ := return_if (negb (length l =? length archs)%nat) "Unequal size of `htp_archs` and `vtcm_mbs` in the given compatibility info." in Ok l
        end in
      let* arch := aget archs 0 in
      let* (sdk, drv) := GetHtpUsrDrvInfo arch in
      Ok (Compat_V2 (InfoV2 (GetBackendId mgr) sdk (GetBackendApiVersion mgr) archs socs vtcms drv))
  end.

Definition GetRuntimeCompatibilityInfoV1 : result QnnCompatibilityInfoV1 :=
  let* _ := return_if (GetHtpArch mgr =? QNN_HTP_DEVICE_ARCH_NONE) "Unable to acquire runtime HTP arch." in
  let* (sdk, drv) := GetHtpUsrDrvInfo (GetHtpArch mgr) in
  Ok (InfoV1 (GetBackendId mgr) sdk (GetBackendApiVersion mgr) QNN_VERSION_INIT (GetHtpArch mgr) drv).

Definition GetRuntimeCompatibilityInfoV2 : result QnnCompatibilityInfoV2 :=
  let* _ := return_if (GetHtpArch mgr =? QNN_HTP_DEVICE_ARCH_NONE) "Unable to acquire runtime HTP arch." in
  let* _ := return_if (GetVtcmSize mgr =? 0) "Unable to acquire runtime VTCM size." in
  let* (sdk, drv) := GetHtpUsrDrvInfo (GetHtpArch mgr) in
  Ok (InfoV2 (GetBackendId mgr) sdk (GetBackendApiVersion mgr) [GetHtpArch mgr] [] [GetVtcmSize mgr] drv).

(** ** Comparison *)

(** The part that both versions of the record share; [htp] compares the architectures. *)
Definition ValidateCompatibilityWithCallback (cache_id runtime_id : Z) (cache_api runtime_api cache_sdk runtime_sdk : QnnVersion)
  (cache_drv runtime_drv : bool) (htp : result OrtCompiledModelCompatibility) : result OrtCompiledModelCompatibility :=
  if negb (cache_id =? runtime_id) then Ok EP_UNSUPPORTED
  else match cache_drv, runtime_drv with
  | false, false => if version_le cache_api runtime_api then htp else Ok EP_UNSUPPORTED
  | false, true => if version_le cache_sdk runtime_sdk then htp else Ok EP_UNSUPPORTED
  | true, false => Ok EP_UNSUPPORTED
  | true, true => if version_le cache_sdk runtime_sdk then htp else Ok EP_UNSUPPORTED
  end.

Definition ValidateCompatibilityInfoV1 (i : QnnCompatibilityInfoV1) : result OrtCompiledModelCompatibility :=
  let* r := GetRuntimeCompatibilityInfoV1 in
  ValidateCompatibilityWithCallback (v1_backend_id i) (v1_backend_id r) (v1_backend_api_version i) (v1_backend_api_version r)
    (v1_sdk_version i) (v1_sdk_version r) (v1_is_htp_usr_drv i) (v1_is_htp_usr_drv r)
    (Ok (if v1_htp_arch i <? v1_htp_arch r then EP_SUPPORTED_PREFER_RECOMPILATION
         else if v1_htp_arch i =? v1_htp_arch r then EP_SUPPORTED_OPTIMAL else EP_UNSUPPORTED)).

(** One SoC of the cache. *)
Definition soc_compatibility (cache_htp_arch cache_vtcm_mb runtime_htp_arch runtime_vtcm_mb : Z) : OrtCompiledModelCompatibility :=
  if (negb (cache_htp_arch =? 0) && (cache_htp_arch <? kHtpV6xAndV7xBreakageArch) && (kHtpV6xAndV7xBreakageArch <=? runtime_htp_arch)) ||
     (runtime_htp_arch <? cache_htp_arch) || (runtime_vtcm_mb <? cache_vtcm_mb) then EP_UNSUPPORTED
  else if (cache_htp_arch =? runtime_htp_arch) && (cache_vtcm_mb =? runtime_vtcm_mb) then EP_SUPPORTED_OPTIMAL
  else EP_SUPPORTED_PREFER_RECOMPILATION.

(** The best of them. *)
Definition htp_step (i r : QnnCompatibilityInfoV2) (most_optimal : OrtCompiledModelCompatibility) (idx : nat)
  : result OrtCompiledModelCompatibility :=
  let* runtime_htp_arch := aget (htp_archs r) 0 in
  let* runtime_vtcm_mb := aget (vtcm_mbs r) 0 in
  let* cache_htp_arch := aget (htp_archs i) idx in
  let* cache_vtcm_mb := if (0 <? length (vtcm_mbs i))%nat then aget (vtcm_mbs i) idx else Ok kVtcmMbUnset in
  let c := soc_compatibility cache_htp_arch cache_vtcm_mb runtime_htp_arch runtime_vtcm_mb in
  Ok (if compatibility_rank c <? compatibility_rank most_optimal then c else most_optimal).

Definition ValidateCompatibilityInfoV2 (i : QnnCompatibilityInfoV2) : result OrtCompiledModelCompatibility :=
  let* _ := return_if ((0 <? length (vtcm_mbs i))%nat && negb (length (vtcm_mbs i) =? length (htp_archs i))%nat)
    "Unequal size of `htp_archs` and `vtcm_mbs` in the given compatibility info." in
  let* r := GetRuntimeCompatibilityInfoV2 in
  ValidateCompatibilityWithCallback (v2_backend_id i) (v2_backend_id r) (v2_backend_api_version i) (v2_backend_api_version r)
    (v2_sdk_version i) (v2_sdk_version r) (v2_is_htp_usr_drv i) (v2_is_htp_usr_drv r)
    (foldM (htp_step i r) (seq 0 (length (htp_archs i))) EP_UNSUPPORTED).

Definition ValidateCompatibilityInfo (i : QnnCompatibilityInfo) : result OrtCompiledModelCompatibility :=
  match i with Compat_V1 i => ValidateCompatibilityInfoV1 i | Compat_V2 i => ValidateCompatibilityInfoV2 i end.

(** ** The provider *)

(** What [CreateEPContextNodes] puts into the record before it is completed: the settings of the
    SoCs, or the VTCM size of the session. *)
Definition compatibility_settings (htp_arch_per_soc_ soc_model_per_soc_ vtcm_per_soc_ : list Z) (enable_multi_soc : bool) (vtcm_size_in_mb : Z)
  (i : QnnCompatibilityInfoV2) : QnnCompatibilityInfoV2 :=
  if enable_multi_soc then
    InfoV2 (v2_backend_id i) (v2_sdk_version i) (v2_backend_api_version i) (htp_archs i ++ htp_arch_per_soc_) soc_model_per_soc_
      (vtcm_mbs i ++ (u32 <$> vtcm_per_soc_)) (v2_is_htp_usr_drv i)
  else
    InfoV2 (v2_backend_id i) (v2_sdk_version i) (v2_backend_api_version i) (htp_archs i) (soc_models i)
      (vtcm_mbs i ++ [u32 vtcm_size_in_mb]) (v2_is_htp_usr_drv i).

(** The text, or an empty one. *)
Definition GetCompiledModelCompatibilityInfoImpl (i : QnnCompatibilityInfo) : string :=
  match SerializeCompatibilityInfo i with Ok s => s | Err _ => "" end.

(** On ARM64: the answer, and whether the backend that was set up for it is kept for the session or
    released.  [reusable_setup] and [isolated_setup] are the answers of [SetupBackend]. *)
Record validation := Validation { model_compatibility : OrtCompiledModelCompatibility; backend_kept : bool; backend_released : bool }.
Definition not_applicable : validation := Validation EP_NOT_APPLICABLE false false.
Definition ValidateCompiledModelCompatibilityInfo (compatibility_info : string) (is_backend_setup : bool) (htp_share_resource_optimization_ : Z)
  (reusable_setup isolated_setup : bool) : result validation :=
  if bool_decide (compatibility_info = "") then Ok not_applicable
  else match DeserializeCompatibilityInfo compatibility_info with
  | Err (EpFail _) => Ok not_applicable
  | Err e => Err e
  | Ok info =>
      let reusable := (htp_share_resource_optimization_ =? -1) && (is_backend_setup || reusable_setup) in
      let setup_ok := is_backend_setup || reusable || isolated_setup in
      if negb setup_ok then Ok not_applicable
      else
        let kept := negb is_backend_setup && reusable in
        let released := negb is_backend_setup && negb reusable in
        match ValidateCompatibilityInfo info with
        | Ok c => Ok (Validation c kept released)
        | Err (EpFail _) => Ok (Validation EP_NOT_APPLICABLE kept released)
        | Err e => Err e
        end
  end.

End Validation.

(** ** Numbers round trip *)

Definition in_u32 (z : Z) : Prop := 0 ≤ z < 2 ^ 32.

Lemma from_chars_pretty (n : N) : from_chars 0 (pretty n) = Some (Z.of_N n).
Proof. unfold pretty, pretty_N. case_decide as Hz; [by subst|]. by rewrite from_chars_go. Qed.

Lemma digits_all s : ∀ acc n v, from_chars acc s = Some v → digits acc n s = (v, (n + String.length s)%nat).
Proof.
  induction s as [|c s IH]; intros acc n v E; cbn in *; [injection E as ->; f_equal; lia|].
  destruct (digit_of c); [|done]. rewrite (IH _ _ _ E). f_equal. lia.
Qed.

Lemma digits_only d s : ∀ acc v, from_chars acc s = Some v → digit_of d = None → has_char d s = false.
Proof.
  induction s as [|c s IH]; intros acc v E Hd; cbn in *; [done|]. destruct (digit_of c) eqn:Ec; [|done].
  apply orb_false_iff. split; [|by eapply IH]. apply Ascii.eqb_neq. congruence.
Qed.

Lemma to_string_chars z : from_chars 0 (to_string z) = Some (Z.of_N (Z.to_N z)).
Proof. apply from_chars_pretty. Qed.
Lemma to_string_ne z : to_string z ≠ EmptyString.
Proof. apply pretty_N_ne. Qed.
Lemma to_string_has d z : digit_of d = None → has_char d (to_string z) = false.
Proof. apply digits_only with (acc := 0) (v := Z.of_N (Z.to_N z)), to_string_chars. Qed.

Lemma DeserializeString_to_string z : in_u32 z → DeserializeString (to_string z) = Ok z.
Proof.
  intros Hz. pose proof (to_string_chars z) as Hc. pose proof (to_string_ne z) as Hne. unfold DeserializeString.
  destruct (to_string z) as [|c s] eqn:Es; [done|]. cbn [from_chars] in Hc. destruct (digit_of c) as [d|] eqn:Ed; [|done].
  assert (is_digit c = true) as Hd by (unfold is_digit; rewrite Ed; by apply bool_decide_eq_true). rewrite Hd. cbn [negb].
  assert (stoll (String c s) = Some (z, String.length (String c s))) as ->.
  { assert (is_space c = false ∧ (Ascii.nat_of_ascii c =? 45)%nat = false ∧ (Ascii.nat_of_ascii c =? 43)%nat = false) as (Hs & Hm & Hp).
    { unfold digit_of in Ed. destruct ((48 <=? _) && _) eqn:Eb; [|done]. apply andb_true_iff in Eb as [Eb1 Eb2].
      apply Z.leb_le in Eb1, Eb2. unfold is_space. repeat split.
      - apply orb_false_iff. split; [apply Nat.eqb_neq; lia|]. apply andb_false_iff. right. apply Nat.leb_gt. lia.
      - apply Nat.eqb_neq. lia.
      - apply Nat.eqb_neq. lia. }
    unfold stoll, std_sto. cbn [skip_spaces]. rewrite Hs. unfold take_sign. rewrite Hm, Hp, Hd.
    rewrite (digits_all (String c s) 0 0 (Z.of_N (Z.to_N z))) by (cbn; by rewrite Ed). unfold in_u32 in Hz.
    replace (Z.of_N (Z.to_N z)) with z by lia. rewrite (proj2 (Z.leb_le _ _)) by lia. rewrite (proj2 (Z.leb_le _ _)) by lia.
    cbn [andb]. f_equal. }
  unfold in_u32 in Hz. rewrite Nat.eqb_refl, (proj2 (Z.ltb_ge z 0)), (proj2 (Z.ltb_ge (2 ^ 32 - 1) z)) by lia. done.
Qed.

(** Texts of fields. *)
Definition plain_field (d : Ascii.ascii) (s : string) : Prop := s ≠ EmptyString ∧ has_char d s = false.

Lemma has_char_app d a b : has_char d (a +:+ b) = has_char d a || has_char d b.
Proof. induction a as [|c a IH]; [done|]. change (String c a +:+ b) with (String c (a +:+ b)). cbn [has_char]. by rewrite IH, orb_assoc. Qed.

Lemma plain_number d z : digit_of d = None → plain_field d (to_string z).
Proof. split; [apply to_string_ne|by apply to_string_has]. Qed.

Definition in_version (v : QnnVersion) : Prop := in_u32 (major v) ∧ in_u32 (minor v) ∧ in_u32 (patch v).

Lemma SerializeVersion_join v : SerializeVersion v = join_with period [to_string (major v); to_string (minor v); to_string (patch v)].
Proof. reflexivity. Qed.

Lemma DeserializeVersion_text v : in_version v → DeserializeVersion (SerializeVersion v) = Ok v.
Proof.
  intros (Ha & Hb & Hc). unfold DeserializeVersion. rewrite SerializeVersion_join, split_join_with by (repeat constructor; apply to_string_ne || by apply to_string_has).
  rewrite !DeserializeString_to_string by done. by destruct v.
Qed.

Lemma string_app_ne2 a b : a ≠ EmptyString → a +:+ b ≠ EmptyString.
Proof. by destruct a. Qed.

Lemma plain_version v : plain_field colon (SerializeVersion v).
Proof.
  unfold SerializeVersion. split; [apply string_app_ne2, to_string_ne|]. by rewrite !has_char_app, !to_string_has.
Qed.

Lemma append_elements_join s k arr : arr ≠ [] →
  append_elements s k arr = s +:+ (if (k =? 0)%nat then "" else ",") +:+ join_with comma (to_string <$> arr).
Proof.
  intros Hne. revert s k. induction arr as [|v [|w arr] IH]; intros s k; [done| |].
  - cbn [append_elements fmap list_fmap join_with]. destruct (k =? 0)%nat; cbn [negb]; [done|]. by rewrite string_app_assoc.
  - change (append_elements s k (v :: w :: arr)) with
      (append_elements ((if negb (k =? 0)%nat then s +:+ "," else s) +:+ to_string v) (S k) (w :: arr)).
    rewrite IH by done. cbn [Nat.eqb]. change (to_string <$> v :: w :: arr) with (to_string v :: (to_string <$> w :: arr)).
    change (join_with comma (to_string v :: (to_string <$> w :: arr))) with (to_string v +:+ String comma (join_with comma (to_string <$> w :: arr))).
    change ("," +:+ ?x) with (String comma x). destruct (k =? 0)%nat; cbn [negb]; rewrite !string_app_assoc; done.
Qed.

Lemma SerializeArray_join arr : SerializeArray arr = join_with comma (to_string <$> arr).
Proof. destruct arr as [|v arr]; [done|]. unfold SerializeArray. rewrite append_elements_join by done. done. Qed.

Lemma DeserializeString_vector_text arr : Forall in_u32 arr → DeserializeString_vector (SerializeArray arr) = Ok arr.
Proof.
  intros Ha. unfold DeserializeString_vector. rewrite SerializeArray_join, split_join_with.
  - induction Ha as [|z arr Hz Ha IH]; [done|]. cbn. rewrite DeserializeString_to_string by done. cbn. by rewrite IH.
  - clear. induction arr; constructor; [|done]. split; [apply to_string_ne|by apply to_string_has].
Qed.

Lemma plain_array arr : arr ≠ [] → plain_field colon (SerializeArray arr).
Proof.
  intros Hne. rewrite SerializeArray_join. induction arr as [|v [|w arr] IH]; [done|by apply plain_number|].
  change (join_with comma (to_string <$> v :: w :: arr)) with (to_string v +:+ String comma (join_with comma (to_string <$> w :: arr))).
  destruct IH as [_ IH]; [done|]. split; [apply string_app_ne2, to_string_ne|]. rewrite has_char_app, to_string_has by done. cbn [has_char orb]. exact IH.
Qed.

Lemma plain_flag b : plain_field colon (flag_string b).
Proof. by destruct b. Qed.
Lemma flag_string_1 b : bool_decide (flag_string b = "1") = b.
Proof. by destruct b. Qed.

(** ** The text of a record *)

(** Values that fit their fields; the lists of a record for several SoCs are as long as each other. *)
Definition info_fits (i : QnnCompatibilityInfo) : Prop :=
  match i with
  | Compat_V1 i => in_u32 (v1_backend_id i) ∧ in_version (v1_sdk_version i) ∧ in_version (v1_backend_api_version i) ∧
      in_version (v1_context_blob_version i) ∧ in_u32 (v1_htp_arch i)
  | Compat_V2 i => in_u32 (v2_backend_id i) ∧ in_version (v2_sdk_version i) ∧ in_version (v2_backend_api_version i) ∧
      Forall in_u32 (htp_archs i) ∧ Forall in_u32 (soc_models i) ∧ Forall in_u32 (vtcm_mbs i) ∧
      length (soc_models i) = length (htp_archs i) ∧ length (vtcm_mbs i) = length (htp_archs i)
  end.

Ltac plain_fields :=
  repeat (apply Forall_cons_2; [first [apply plain_version|apply plain_flag|by apply plain_number|by apply plain_array|done]|]); apply Forall_nil_2.

Lemma before_colon_app a b : has_char colon a = false → before_colon (a +:+ String colon b) = Some a.
Proof.
  induction a as [|c a IH]; intros Ha.
  - change (EmptyString +:+ String colon b) with (String colon b). cbn [before_colon]. by rewrite Ascii.eqb_refl.
  - change (String c a +:+ String colon b) with (String c (a +:+ String colon b)). cbn [has_char before_colon] in *.
    apply orb_false_iff in Ha as [-> Ha]. by rewrite IH.
Qed.

Lemma v1_text_roundtrip i s : SerializeCompatibilityInfoV1 i = Ok s → info_fits (Compat_V1 i) → DeserializeCompatibilityInfo s = Ok (Compat_V1 i).
Proof.
  intros E (Hid & Hsdk & Hapi & Hblob & Harch). unfold SerializeCompatibilityInfoV1 in E. inv_bind E. injection E as <-.
  set (fields := [to_string (v1_backend_id i); SerializeVersion (v1_sdk_version i); SerializeVersion (v1_backend_api_version i);
    SerializeVersion (v1_context_blob_version i); to_string (v1_htp_arch i); flag_string (v1_is_htp_usr_drv i)]).
  change (DeserializeCompatibilityInfo (join_with colon fields) = Ok (Compat_V1 i)). unfold DeserializeCompatibilityInfo.
  assert (before_colon (join_with colon fields) = Some (to_string (v1_backend_id i))) as ->.
  { apply before_colon_app. by apply to_string_has. }
  assert (starts_with_v (to_string (v1_backend_id i)) = false) as ->.
  { pose proof (to_string_has (Ascii.ascii_of_nat 118) (v1_backend_id i) eq_refl) as Hv. destruct (to_string _) as [|c t]; [done|].
    cbn [has_char] in Hv. apply orb_false_iff in Hv as [Hv _]. cbn. apply Nat.eqb_neq. intros Hc.
    apply Ascii.eqb_neq in Hv. apply Hv. rewrite <- (Ascii.ascii_nat_embedding c). by rewrite Hc. }
  cbn [negb]. unfold DeserializeCompatibilityInfoV1. rewrite split_join_with.
  - subst fields. cbn iota beta. rewrite !DeserializeString_to_string, !DeserializeVersion_text by done. cbn [rbind rmap].
    rewrite flag_string_1. by destruct i.
  - unfold fields. plain_fields.
Qed.

Lemma v2_text_roundtrip i s : SerializeCompatibilityInfoV2 i = Ok s → info_fits (Compat_V2 i) → DeserializeCompatibilityInfo s = Ok (Compat_V2 i).
Proof.
  intros E (Hid & Hsdk & Hapi & Harch & Hsoc & Hvtcm & Hl1 & Hl2). unfold SerializeCompatibilityInfoV2 in E. inv_bind E. injection E as <-.
  apply return_if_Ok in E0. repeat (apply orb_false_iff in E0 as [E0 ?]). repeat match goal with H : bool_decide _ = false |- _ => apply bool_decide_eq_false in H end.
  set (fields := ["v2"; to_string (v2_backend_id i); SerializeVersion (v2_sdk_version i); SerializeVersion (v2_backend_api_version i);
    SerializeArray (htp_archs i); SerializeArray (soc_models i); SerializeArray (vtcm_mbs i); flag_string (v2_is_htp_usr_drv i)]).
  change (DeserializeCompatibilityInfo (join_with colon fields) = Ok (Compat_V2 i)). unfold DeserializeCompatibilityInfo.
  assert (before_colon (join_with colon fields) = Some "v2") as -> by reflexivity.
  cbn [negb starts_with_v]. change (Ascii.nat_of_ascii _ =? 118)%nat with true. cbn [negb]. rewrite bool_decide_true by done.
  unfold DeserializeCompatibilityInfoV2. rewrite split_join_with.
  - subst fields. cbn iota beta. rewrite !DeserializeString_to_string, !DeserializeVersion_text, !DeserializeString_vector_text by done.
    cbn [rbind rmap]. rewrite Hl1, Hl2, Nat.eqb_refl. cbn [andb return_if_not rbind rmap]. rewrite flag_string_1. by destruct i.
  - unfold fields. plain_fields.
Qed.

Lemma compatibility_text_roundtrip i s : SerializeCompatibilityInfo i = Ok s → info_fits i → DeserializeCompatibilityInfo s = Ok i.
Proof. destruct i; [apply v1_text_roundtrip|apply v2_text_roundtrip]. Qed.

(** ** The comparison *)

Lemma version_le_refl v : version_le v v = true.
Proof. unfold version_le. rewrite Z.eqb_refl. apply Z.leb_refl. Qed.

(** The answer for several SoCs is the best that one of them has. *)
Lemma htp_best i r n st c (soc := fun k => soc_compatibility (nth k (htp_archs i) 0) (nth k (vtcm_mbs i) 0) (nth 0 (htp_archs r) 0) (nth 0 (vtcm_mbs r) 0)) :
  length (vtcm_mbs i) = length (htp_archs i) → foldM (htp_step i r) (seq 0 n) st = Ok c → (n ≤ length (htp_archs i))%nat →
  compatibility_rank c ≤ compatibility_rank st ∧ (c = st ∨ ∃ k, (k < n)%nat ∧ c = soc k) ∧
  ∀ k, (k < n)%nat → compatibility_rank c ≤ compatibility_rank (soc k).
Proof.
  intros Hl. revert c. induction n as [|n IH]; intros c E Hn; [injection E as <-; split_and!; [lia|by left|lia]|].
  rewrite seq_S, foldM_app in E. apply bind_Ok in E as (c1 & E1 & E). cbn [foldM] in E. apply bind_Ok in E as (c2 & E2 & [= <-]).
  destruct (IH c1 E1) as (Hle & Hor & Hall); [lia|]. unfold htp_step in E2. inv_bind E2. inv_bind E2. inv_bind E2. inv_bind E2.
  apply aget_Ok in E0, E3, E4. rewrite (proj2 (Nat.ltb_lt 0 _)) in E5 by lia. apply aget_Ok in E5. rewrite Nat.add_0_l in *.
  assert (soc_compatibility a1 a2 a a0 = soc n) as Hs.
  { unfold soc. erewrite !nth_lookup_Some by done. done. }
  rewrite Hs in E2. injection E2 as <-. destruct (Z.ltb_spec (compatibility_rank (soc n)) (compatibility_rank c1)).
  - split_and!; [lia|right; exists n; split; [lia|done]|]. intros k Hk. destruct (decide (k = n)) as [->|]; [lia|].
    specialize (Hall k ltac:(lia)). lia.
  - split_and!; [lia| |].
    + destruct Hor as [->|(k & Hk & ->)]; [by left|right; exists k; split; [lia|done]].
    + intros k Hk. destruct (decide (k = n)) as [->|]; [lia|]. apply Hall. lia.
Qed.

(** Answers of a machine that fit their types. *)
Definition machine_fits (mgr : machine) : Prop :=
  in_u32 (GetBackendId mgr) ∧ in_version (GetBackendApiVersion mgr) ∧ in_u32 (GetHtpArch mgr) ∧ in_u32 (GetSocModel mgr) ∧
  in_u32 (GetVtcmSize mgr) ∧ in_version (GetHtpUsrDrvVersion mgr).

Lemma u32_fits z : in_u32 (u32 z).
Proof. unfold in_u32, u32, wrapu. apply Z.mod_pos_bound. done. Qed.

Lemma usr_drv_fits mgr arch v drv : machine_fits mgr → GetHtpUsrDrvInfo mgr arch = Ok (v, drv) → in_version v.
Proof.
  intros Hm E. unfold GetHtpUsrDrvInfo in E. inv_bind E. destruct a.
  - inv_bind E. injection E as <- <-. apply Hm.
  - inv_bind E. injection E as <- <-. unfold sdk_of_library in E1. destruct (SplitString _ _) as [|[|x p] [|q [|t [|u [|]]]]]; try done.
    inv_bind E1. inv_bind E1. inv_bind E1. inv_bind E1. injection E1 as <-. repeat split; apply u32_fits.
Qed.

(** The record of a session for its own machine, with the VTCM size [v] it was asked to use. *)
Lemma own_record mgr v i : GetCompatibilityInfo mgr (Compat_V2 (compatibility_settings [] [] [] false v empty_v2)) = Ok i →
  ∃ sdk drv, GetHtpUsrDrvInfo mgr (GetHtpArch mgr) = Ok (sdk, drv) ∧
    i = Compat_V2 (InfoV2 (GetBackendId mgr) sdk (GetBackendApiVersion mgr) [GetHtpArch mgr] [GetSocModel mgr] [u32 v] drv).
Proof. cbn. intros E. inv_bind E. destruct a as [sdk drv]. injection E as <-. by exists sdk, drv. Qed.

(** C17: the compatibility text of a compiled model: whatever record is written is read back as it
    was, in both versions of the text; and the model that a session compiles for its own machine,
    when the machine judges its text, is never found to be of another backend, version or
    architecture: it is optimal exactly if it was compiled for the VTCM size of the machine, to be
    compiled again if for a smaller one, and unsupported only if for a larger one. *)
Theorem compatibility_roundtrip :
  (∀ i s, SerializeCompatibilityInfo i = Ok s → info_fits i → DeserializeCompatibilityInfo s = Ok i) ∧
  (∀ mgr v i s setup share reusable isolated, machine_fits mgr → in_u32 v →
     GetHtpArch mgr ≠ QNN_HTP_DEVICE_ARCH_NONE → GetVtcmSize mgr ≠ 0 → setup || isolated = true →
     GetCompatibilityInfo mgr (Compat_V2 (compatibility_settings [] [] [] false v empty_v2)) = Ok i →
     SerializeCompatibilityInfo i = Ok s →
     ∃ r, ValidateCompiledModelCompatibilityInfo mgr s setup share reusable isolated = Ok r ∧
       model_compatibility r = (if GetVtcmSize mgr <? v then EP_UNSUPPORTED
         else if v =? GetVtcmSize mgr then EP_SUPPORTED_OPTIMAL else EP_SUPPORTED_PREFER_RECOMPILATION) ∧
       (setup = true → backend_kept r = false ∧ backend_released r = false) ∧
       (setup = false → backend_released r = negb (backend_kept r))).
Proof.
  split; [apply compatibility_text_roundtrip|]. intros mgr v i s setup share reusable isolated Hm Hv Harch Hvtcm Hset Ei Es.
  destruct (own_record _ _ _ Ei) as (sdk & drv & Ed & ->). pose proof (usr_drv_fits _ _ _ _ Hm Ed) as Hsdk.
  assert (u32 v = v) as Hu by (unfold in_u32 in Hv; unfold u32, wrapu; by apply Z.mod_small). rewrite Hu in Es.
  assert (s ≠ "") as Hne. { intros ->. cbn in Es. inv_bind Es. discriminate Es. }
  pose proof Hm as (Hid & Hapi & Ha & Hsoc & Hvt & _).
  unfold ValidateCompiledModelCompatibilityInfo. rewrite bool_decide_false by done.
  rewrite (compatibility_text_roundtrip _ _ Es); [|cbn; rewrite !Forall_singleton; split_and!; done].
  set (re := (share =? -1) && (setup || reusable)).
  replace (setup || re || isolated) with true by (by destruct setup, re, isolated). cbn [negb].
  assert (ValidateCompatibilityInfo mgr (Compat_V2 (InfoV2 (GetBackendId mgr) sdk (GetBackendApiVersion mgr) [GetHtpArch mgr] [GetSocModel mgr] [v] drv)) =
    Ok (if GetVtcmSize mgr <? v then EP_UNSUPPORTED else if v =? GetVtcmSize mgr then EP_SUPPORTED_OPTIMAL else EP_SUPPORTED_PREFER_RECOMPILATION)) as ->.
  { cbn [ValidateCompatibilityInfo]. unfold ValidateCompatibilityInfoV2, GetRuntimeCompatibilityInfoV2.
    rewrite (proj2 (Z.eqb_neq _ _) Harch), (proj2 (Z.eqb_neq _ _) Hvtcm), Ed. cbn [rbind return_if return_if_not negb andb length vtcm_mbs htp_archs Nat.ltb Nat.leb Nat.eqb].
    unfold ValidateCompatibilityWithCallback. cbn [v2_backend_id v2_sdk_version v2_backend_api_version v2_is_htp_usr_drv].
    rewrite Z.eqb_refl, !version_le_refl. cbn [negb].
    assert (∀ r, foldM (htp_step (InfoV2 (GetBackendId mgr) sdk (GetBackendApiVersion mgr) [GetHtpArch mgr] [GetSocModel mgr] [v] drv) r) [0%nat] EP_UNSUPPORTED =
      let* a := aget (htp_archs r) 0 in let* t := aget (vtcm_mbs r) 0 in
      Ok (if compatibility_rank (soc_compatibility (GetHtpArch mgr) v a t) <? 3 then soc_compatibility (GetHtpArch mgr) v a t else EP_UNSUPPORTED)) as Hf.
    { intros r. cbn [foldM]. unfold htp_step. destruct (aget (htp_archs r) 0) as [a|]; [|done]. by destruct (aget (vtcm_mbs r) 0) as [t|]. }
    cbn [seq]. rewrite Hf. cbn [htp_archs vtcm_mbs].
    change (aget [GetHtpArch mgr] 0) with (Ok (GetHtpArch mgr)). change (aget [GetVtcmSize mgr] 0) with (Ok (GetVtcmSize mgr)). cbn [rbind]. unfold soc_compatibility. rewrite Z.eqb_refl, Z.ltb_irrefl.
    replace (negb (GetHtpArch mgr =? 0) && (GetHtpArch mgr <? kHtpV6xAndV7xBreakageArch) && (kHtpV6xAndV7xBreakageArch <=? GetHtpArch mgr)) with false.
    2:{ symmetry. destruct (Z.ltb_spec (GetHtpArch mgr) kHtpV6xAndV7xBreakageArch); [|by rewrite andb_false_r].
        rewrite (proj2 (Z.leb_gt _ _)) by lia. by rewrite andb_false_r. }
    cbn [orb andb]. destruct drv; (destruct (GetVtcmSize mgr <? v); [done|]; by destruct (v =? GetVtcmSize mgr)). }
  eexists. split; [reflexivity|]. cbn [model_compatibility backend_kept backend_released]. split_and!; [done| |].
  - intros ->. done.
  - intros ->. by destruct re.
Qed.

Definition sample_machine : machine :=
  Machine 6 (Version 2 25 0) 73 60 8 false "v2.40.1.251030" (fun _ => Ok false) QNN_VERSION_INIT.
Definition sample_record : QnnCompatibilityInfo := Compat_V2 (InfoV2 6 (Version 2 40 1) (Version 2 25 0) [73] [60] [8] false).

Lemma compatibility_roundtrip_witness :
  SerializeCompatibilityInfo sample_record = Ok "v2:6:2.40.1:2.25.0:73:60:8:0" ∧
  DeserializeCompatibilityInfo "v2:6:2.40.1:2.25.0:73:60:8:0" = Ok sample_record ∧
  ∃ r, ValidateCompiledModelCompatibilityInfo sample_machine "v2:6:2.40.1:2.25.0:73:60:8:0" false (-1) true true = Ok r ∧
    model_compatibility r = EP_SUPPORTED_OPTIMAL.
Proof.
  split; [vm_compute; reflexivity|]. split.
  - apply (proj1 compatibility_roundtrip); [vm_compute; reflexivity|]. cbn. unfold in_version, in_u32. repeat constructor; cbn; lia.
  - destruct (proj2 compatibility_roundtrip sample_machine 8 sample_record "v2:6:2.40.1:2.25.0:73:60:8:0" false (-1) true true) as (r & Hr & Hc & _).
    + unfold machine_fits, in_version, in_u32. cbn. repeat split; lia.
    + unfold in_u32. lia.
    + done.
    + done.
    + reflexivity.
    + vm_compute. reflexivity.
    + vm_compute. reflexivity.
    + exists r. split; [exact Hr|]. rewrite Hc. reflexivity.
Defined.

(** ** What the comparison shows *)

Module CompatFindings.

(** A session that does not ask for a VTCM size records zero, which stands for no choice; the machine
    that compiled the model then never calls it optimal. *)
Lemma unset_vtcm_never_optimal : match GetCompatibilityInfo sample_machine (Compat_V2 (compatibility_settings [] [] [] false 0 empty_v2)) with
  | Ok i => ValidateCompatibilityInfo sample_machine i
  | Err e => Err e
  end = Ok EP_SUPPORTED_PREFER_RECOMPILATION.
Proof. vm_compute. reflexivity. Qed.

(** Empty parts are skipped: a version of four parts, one of them empty, is accepted. *)
Lemma empty_part_accepted : DeserializeVersion "2..40.1" = Ok (Version 2 40 1).
Proof. vm_compute. reflexivity. Qed.

End CompatFindings.
