(* ===== verification/ContextModel.v ===== *)
(** * Models with a context binary

    A compiled graph is stored as an ONNX model of EPContext nodes: the first node carries the
    binary, or the name of the file it is in, the others share it.  This file models how the nodes
    are written and read back ([builder/onnx_ctx_model_helper.cc]), the callbacks of the application
    ([builder/ep_context_io_dispatch.cc]), what sessions share ([shared_context.h]), and how a graph
    of such nodes is recognized ([qnn_execution_provider.cc]).  Paths are those of POSIX systems. *)

From stdpp Require Import pretty gmap.
From S2P Require Import Prelude DataTypes NodeUnitDefs.
Local Open Scope Z_scope.

(** ** Strings and paths *)

Definition slash : Ascii.ascii := Ascii.ascii_of_nat 47.
Definition dot : Ascii.ascii := Ascii.ascii_of_nat 46.
Definition semicolon : Ascii.ascii := Ascii.ascii_of_nat 59.
Definition equals : Ascii.ascii := Ascii.ascii_of_nat 61.

Fixpoint occurs (c : Ascii.ascii) (s : string) : bool :=
  match s with EmptyString => false | String a s => Ascii.eqb a c || occurs c s end.

(** The pieces between the occurrences of [c]. *)
Fixpoint split_char (c : Ascii.ascii) (s : string) : list string :=
  match s with
  | EmptyString => [EmptyString]
  | String a s =>
      if Ascii.eqb a c then EmptyString :: split_char c s
      else match split_char c s with h :: t => String a h :: t | [] => [String a EmptyString] end
  end.

Fixpoint stake (n : nat) (s : string) : string :=
  match n, s with S n, String a s => String a (stake n s) | _, _ => EmptyString end.
Fixpoint sdrop (n : nat) (s : string) : string :=
  match n, s with O, s => s | S n, String _ s => sdrop n s | _, EmptyString => EmptyString end.

(** [find] and [find_last_of]. *)
Fixpoint find_char (c : Ascii.ascii) (s : string) : option nat :=
  match s with
  | EmptyString => None
  | String a s => if Ascii.eqb a c then Some O else S <$> find_char c s
  end.
Fixpoint find_last_of (c : Ascii.ascii) (s : string) : option nat :=
  match s with
  | EmptyString => None
  | String a s => match find_last_of c s with Some k => Some (S k) | None => if Ascii.eqb a c then Some O else None end
  end.

Fixpoint contains_dots (s : string) : bool :=
  match s with
  | String a ((String b _) as s') => (Ascii.eqb a dot && Ascii.eqb b dot) || contains_dots s'
  | _ => false
  end.

Definition tolower (a : Ascii.ascii) : Ascii.ascii :=
  let n := Ascii.nat_of_ascii a in if (65 <=? n)%nat && (n <=? 90)%nat then Ascii.ascii_of_nat (n + 32) else a.
Fixpoint GetLowercaseString (s : string) : string :=
  match s with EmptyString => EmptyString | String a s => String (tolower a) (GetLowercaseString s) end.

Definition absolute (p : string) : bool := match p with String a _ => Ascii.eqb a slash | _ => false end.

Fixpoint strip_slashes (s : string) : string :=
  match s with
  | EmptyString => EmptyString
  | String a s => match strip_slashes s with EmptyString => if Ascii.eqb a slash then EmptyString else String a EmptyString | r => String a r end
  end.

(** [std::filesystem::path]: [filename], [parent_path] and [operator/]. *)
Definition path_filename (p : string) : string := match find_last_of slash p with Some k => sdrop (S k) p | None => p end.
Definition parent_path (p : string) : string :=
  match find_last_of slash p with
  | None => EmptyString
  | Some k => match strip_slashes (stake k p) with EmptyString => "/" | d => d end
  end.
Definition path_append (p q : string) : string :=
  if absolute q then q
  else match p with
  | EmptyString => q
  | _ => match path_filename p with EmptyString => p +:+ q | _ => p +:+ "/" +:+ q end
  end.

(** The file a path leads to: empty and single-dot components do not matter. *)
Definition file_of (p : string) : bool * list string :=
  (absolute p, filter (fun c => c ≠ "" ∧ c ≠ ".") (split_char slash p)).

Definition bytes_of_string (s : string) : list Z := (fun a => Z.of_N (Ascii.N_of_ascii a)) <$> String.list_ascii_of_string s.
Definition string_of_bytes (l : list Z) : string := String.string_of_list_ascii ((fun z => Ascii.ascii_of_N (Z.to_N z)) <$> l).

(** ** EPContext nodes *)

Definition EPCONTEXT_OP : string := "EPContext".
Definition EP_CONTEXT_TYPE : string := "ep_context_type".
Definition MAIN_CONTEXT : string := "main_context".
Definition EMBED_MODE : string := "embed_mode".
Definition EP_CACHE_CONTEXT : string := "ep_cache_context".
Definition EP_DLC_CONTEXT : string := "ep_dlc_context".
Definition EP_SDK_VER : string := "ep_sdk_version".
Definition PARTITION_NAME : string := "partition_name".
Definition SOURCE : string := "source".
Definition MAX_SIZE : string := "max_size".
Definition IO_NAME_OVERRIDES : string := "io_name_overrides".
Definition IS_MULTI_SOC_EP_CONTEXT : string := "is_multi_soc_ep_context".
Definition EP_CONTEXT_TYPE_BIN : string := "bin".
Definition EP_CONTEXT_TYPE_DLC : string := "dlc".
Definition kMSDomain : string := "com.microsoft".

Inductive OrtOpAttr := AttrInt (v : Z) | AttrString (s : string).

Record CtxNode := Ctx {
  cn_op_type : string;
  cn_domain : string;
  cn_name : string;
  cn_inputs : list string;
  cn_outputs : list string;
  cn_attributes : list (string * OrtOpAttr)
}.
Definition attr (n : CtxNode) (key : string) : option OrtOpAttr := find_assoc key (cn_attributes n).

(** An attribute of another type counts as absent. *)
Definition attr_Int (n : CtxNode) (key : string) : option Z := match attr n key with Some (AttrInt v) => Some v | _ => None end.
Definition Get_str (n : CtxNode) (key def_val : string) : string := match attr n key with Some (AttrString s) => s | _ => def_val end.
Definition Get_i64 (n : CtxNode) (key : string) (def_val : Z) : Z := default def_val (attr_Int n key).
(** A boolean default selects the overload for [int32_t]. *)
Definition Get_bool (n : CtxNode) (key : string) (def_val : bool) : result bool :=
  rmap (fun v => negb (v =? 0)) (Get_int32 (attr_Int n key) (Z.b2z def_val)).

(** ** Recognizing the nodes *)

Definition has_context_node (ep_context_type : string) (n : CtxNode) : bool :=
  bool_decide (cn_op_type n = EPCONTEXT_OP) &&
  bool_decide (GetLowercaseString (Get_str n SOURCE "") ∈ ["qnnexecutionprovider"; "qnn"; "qairtexport"]) &&
  bool_decide (ep_context_type = GetLowercaseString (Get_str n EP_CONTEXT_TYPE EP_CONTEXT_TYPE_BIN)).
Definition GraphHasEpContextNode (graph : list CtxNode) (ep_context_type : string) : bool :=
  existsb (has_context_node ep_context_type) graph.
Definition GraphHasDlcContextNode (graph : list CtxNode) : bool := GraphHasEpContextNode graph EP_CONTEXT_TYPE_DLC.
Definition IsOrtGraphHasCtxNode (graphs : list (list CtxNode)) (ep_context_type : string) : bool :=
  existsb (fun g => GraphHasEpContextNode g ep_context_type) graphs.
Definition IsOrtGraphHasDlcCtxNode (graphs : list (list CtxNode)) : bool := IsOrtGraphHasCtxNode graphs EP_CONTEXT_TYPE_DLC.

(** The first path of an EPContext node in the graphs that have a DLC node. *)
Definition dlc_paths (graph : list CtxNode) : list string :=
  if GraphHasEpContextNode graph EP_CONTEXT_TYPE_DLC then
    filter (fun p => p ≠ "") ((fun n => GetLowercaseString (Get_str n EP_DLC_CONTEXT "")) <$> filter (fun n => cn_op_type n = EPCONTEXT_OP) graph)
  else [].
Definition GetEpContextDlcPath (graphs : list (list CtxNode)) : result string :=
  match mjoin (dlc_paths <$> graphs) with
  | p :: _ => Ok p
  | [] => Err (EpFail "Failed to extract dlc_path from EP_CONTEXT node")
  end.

(** The nodes that a session takes over: the source is written by this provider. *)
Definition own_context_node (n : CtxNode) : bool :=
  bool_decide (cn_op_type n = EPCONTEXT_OP) &&
  bool_decide (GetLowercaseString (Get_str n SOURCE "") ∈ ["qnnexecutionprovider"; "qnn"]).

(** Each such node is a partition of its own. *)
Definition PartitionCtxModel (graph : list CtxNode) : list (list CtxNode) := (fun n => [n]) <$> filter own_context_node graph.
Definition GetMainEPCtxNodes (graph : list CtxNode) : list CtxNode :=
  filter (fun n => negb (Get_i64 n MAIN_CONTEXT 0 =? 0) && own_context_node n) graph.

Definition GetContextOnnxModelFilePath (user_context_cache_path model_path_string : string) : string :=
  if negb (bool_decide (user_context_cache_path = "")) then user_context_cache_path else model_path_string.

Definition only_node (graph : list CtxNode) : result CtxNode :=
  match graph with [n] => Ok n | _ => Err (EpFail "OrtGraph should have only one EPContext node.") end.

(** The positions of the graphs whose node carries a binary. *)
Fixpoint main_positions (graphs : list (list CtxNode)) (graph_idx : nat) : result (list nat) :=
  match graphs with
  | [] => Ok []
  | g :: graphs =>
      let* n := only_node g in
      let* _ := return_if (negb (bool_decide (cn_op_type n = EPCONTEXT_OP))) "EPContext node should be EPContext type." in
      let* rest := main_positions graphs (S graph_idx) in
      Ok (if Get_i64 n MAIN_CONTEXT 0 =? 1 then graph_idx :: rest else rest)
  end.
Definition GetMainContextNode (graphs : list (list CtxNode)) : result (list nat) :=
  let* main_context_pos := main_positions graphs 0 in
  let* _ := return_if (length main_context_pos <? 1)%nat "Failed to find the EPContext node with main_context=1." in
  Ok main_context_pos.

(** ** The spill-fill buffer *)

(** The largest size so far and the position of its graph in the list. *)
Definition spill_step (graphs : list (list CtxNode)) (main_context_pos_list : list nat) (st : Z * nat) (idx : nat) : result (Z * nat) :=
  let* graph_idx := aget main_context_pos_list idx in
  let* g := aget graphs graph_idx in
  let* n := only_node g in
  let max_size := Get_i64 n MAX_SIZE 0 in
  Ok (if st.1 <? max_size then (max_size, idx) else st).

(** The graph with the largest buffer is moved to the front. *)
Definition TryGetMaxSpillFillSize (graphs : list (list CtxNode)) (total_context_size : nat) (main_context_pos_list : list nat)
  : result (Z * list nat) :=
  let* (size, i) := foldM (spill_step graphs main_context_pos_list) (seq 0 total_context_size) (0, 0%nat) in
  if negb (i =? 0)%nat then
    let* tmp := aget main_context_pos_list 0 in
    let* best := aget main_context_pos_list i in
    let* l := aset main_context_pos_list 0 best in
    let* l := aset l i tmp in
    Ok (size, l)
  else Ok (size, main_context_pos_list).

(** ** Names of graph inputs and outputs *)

Definition encode_override (p : string * string) : string := p.1 +:+ String equals (p.2 +:+ String semicolon EmptyString).
(** The map is written in the order [l] of its iteration. *)
Definition encode_overrides (l : list (string * string)) : string := foldr (fun p s => encode_override p +:+ s) EmptyString l.

(** One piece between semicolons; an entry that is there already stays. *)
Definition parse_pair (overrides : gmap string string) (pair : string) : gmap string string :=
  match find_char equals pair with
  | None => overrides
  | Some eq =>
      let internal := stake eq pair in
      let external := sdrop (S eq) pair in
      if bool_decide (internal = "") || bool_decide (external = "") || bool_decide (is_Some (overrides !! internal)) then overrides
      else <[internal := external]> overrides
  end.
Definition ParseIoNameOverrides (ep_context_node : option CtxNode) : gmap string string :=
  match ep_context_node with
  | None => ∅
  | Some n => foldl parse_pair ∅ (split_char semicolon (Get_str n IO_NAME_OVERRIDES ""))
  end.

(** ** What sessions share *)

Section SharedContext.
Context {QnnModel : Type} (Name : QnnModel → string).

Definition is_model (model_name : string) (m : QnnModel) : bool := bool_decide (Name m = model_name).
Definition HasSharedQnnModels (shared_qnn_models_ : list QnnModel) : bool := negb (length shared_qnn_models_ =? 0)%nat.
Definition HasQnnModel (shared_qnn_models_ : list QnnModel) (model_name : string) : bool := existsb (is_model model_name) shared_qnn_models_.

(** The first model of the name is taken out. *)
Fixpoint GetSharedQnnModel (shared_qnn_models_ : list QnnModel) (model_name : string) : option QnnModel * list QnnModel :=
  match shared_qnn_models_ with
  | [] => (None, [])
  | m :: l =>
      if is_model model_name m then (Some m, l)
      else let '(r, l) := GetSharedQnnModel l model_name in (r, m :: l)
  end.

(** The models whose names are new are added; the answer says whether one was not, and names it. *)
Fixpoint SetSharedQnnModel (shared_qnn_models_ : list QnnModel) (models : list QnnModel) (duplicate_graph_names : string)
  : list QnnModel * bool * string :=
  match models with
  | [] => (shared_qnn_models_, false, duplicate_graph_names)
  | m :: models =>
      if HasQnnModel shared_qnn_models_ (Name m) then
        let '(l, _, names) := SetSharedQnnModel shared_qnn_models_ models (duplicate_graph_names +:+ Name m +:+ " ") in (l, true, names)
      else SetSharedQnnModel (shared_qnn_models_ ++ [m]) models duplicate_graph_names
  end.

(** The first backend manager stays until it is reset; managers are compared as pointers. *)
Definition SetSharedQnnBackendManager {M} `{EqDecision M} (qnn_backend_manager_ : option M) (qnn_backend_manager : M) : option M * bool :=
  match qnn_backend_manager_ with
  | Some m => (Some m, bool_decide (m = qnn_backend_manager))
  | None => (Some qnn_backend_manager, true)
  end.
Definition ResetSharedQnnBackendManager {M} (qnn_backend_manager_ : option M) : option M := None.

Definition EpSharedContextsHasAllGraphs (shared_qnn_models_ : list QnnModel) (graph : list CtxNode) : bool :=
  forallb (fun n => if own_context_node n then HasQnnModel shared_qnn_models_ (cn_name n) else true) graph.

End SharedContext.

(** ** Files and callbacks *)

(** The callbacks of the application, over a state of its own, and what of the file system is not
    its content: which paths can be opened for writing, and which writes succeed. *)
Class EpContextApp := {
  app_state : Type;
  read_fn_ : option (app_state → string → result (list Z));
  write_fn_ : option (app_state → string → list Z → result app_state);
  can_open : string → bool;
  can_write : string → list Z → bool
}.

Section Contexts.
Context `{EpContextApp}.

Record CtxWorld := World {
  files : gmap (bool * list string) (list Z);
  app : app_state;
  shared_ctx_bin_file_name_ : string
}.
Definition with_file (w : CtxWorld) (p : string) (data : list Z) : CtxWorld :=
  World (<[file_of p := data]> (files w)) (app w) (shared_ctx_bin_file_name_ w).
Definition with_app (w : CtxWorld) (a : app_state) : CtxWorld := World (files w) a (shared_ctx_bin_file_name_ w).
Definition with_shared_name (w : CtxWorld) (n : string) : CtxWorld := World (files w) (app w) n.

Definition HasReadCallback : bool := bool_decide (is_Some read_fn_).
Definition HasWriteCallback : bool := bool_decide (is_Some write_fn_).

Definition Read (w : CtxWorld) (file_name : string) : result (list Z) :=
  match read_fn_ with
  | None => Err (EpFail "EPContext read callback is unavailable.")
  | Some f =>
      let* data := f (app w) file_name in
      match data with [] => Err (EpFail ("OrtReadNamedBufferFunc returned invalid buffer for " +:+ file_name)) | _ => Ok data end
  end.

(** Steps over the world that end with a value or an error. *)
Definition C (A : Type) : Type := CtxWorld → CtxWorld * result A.
Definition cret {A} (a : A) : C A := fun w => (w, Ok a).
Definition cbind {A B} (c : C A) (k : A → C B) : C B := fun w =>
  match c w with (w', Ok a) => k a w' | (w', Err e) => (w', Err e) end.
Definition clift {A} (r : result A) : C A := fun w => (w, r).
Definition cget {A} (f : CtxWorld → A) : C A := fun w => (w, Ok (f w)).
Definition cset (f : CtxWorld → CtxWorld) : C unit := fun w => (f w, Ok tt).

Definition Write (name : string) (buffer : list Z) : C unit := fun w =>
  match write_fn_ with
  | None => (w, Err (EpFail "EPContext write callback is unavailable."))
  | Some f => match f (app w) name buffer with Ok a => (with_app w a, Ok tt) | Err e => (w, Err e) end
  end.

(** [std::ofstream]: opening empties the file. *)
Definition write_file (p : string) (buffer : list Z) : C unit := fun w =>
  if negb (can_open p) then (w, Err (EpFail "Failed to open context cache file."))
  else if negb (can_write p buffer) then (with_file w p [], Err (EpFail "Failed to write context cache file."))
  else (with_file w p buffer, Ok tt).

End Contexts.

Notation "'let%' x ':=' c 'in' k" := (cbind c (fun x => k))
  (at level 200, x pattern, c at level 100, k at level 200, right associativity).

(** ** Writing the nodes *)

Section Writing.
Context `{EpContextApp}.

(** The length of a string attribute is passed as an [int]. *)
Definition string_attr (key s : string) : result (string * OrtOpAttr) :=
  if Z.of_nat (String.length s) <? 2 ^ 31 then Ok (key, AttrString s) else Err Trap.

(** What a session writes. *)
Record context_options := CtxOptions {
  buffer : list Z;
  sdk_build_version : string;
  context_model_path : string;
  qnn_context_embed_mode : bool;
  max_spill_fill_buffer_size : Z;
  share_ep_contexts : bool;
  stop_share_ep_contexts : bool;
  ep_name : string;
  tensor_name_overrides : list (string * string);
  enable_multi_soc_ep_context : bool
}.

(** The path of the binary before sharing: that of the model, with its extension replaced. *)
Definition context_bin_path (o : context_options) (graph_name : string) : string :=
  let p := match find_last_of dot (context_model_path o) with Some pos => stake pos (context_model_path o) | None => context_model_path o end in
  (match p with EmptyString => graph_name | _ => p end) +:+ "_qnn.bin".

(** The name that goes into the node and the path that is written; sessions that share a context
    use the name the first of them chose. *)
Definition shared_path (o : context_options) (graph_name : string) : C (string * string) :=
  let p := context_bin_path o graph_name in
  let n := path_filename p in
  if share_ep_contexts o then
    let% shared := cget shared_ctx_bin_file_name_ in
    match shared with
    | EmptyString => let% _ := cset (fun w => with_shared_name w n) in cret (n, p)
    | _ => cret (shared, path_append (parent_path p) shared)
    end
  else cret (n, p).

(** The binary goes to the file or the callback, once for all sessions that share it. *)
Definition external_attributes (o : context_options) (graph_name : string) : C (list (string * OrtOpAttr)) :=
  let% (context_cache_name, p) := shared_path o graph_name in
  let% _ :=
    if negb (share_ep_contexts o) || stop_share_ep_contexts o
    then if HasWriteCallback then Write context_cache_name (buffer o) else write_file p (buffer o)
    else cret tt in
  let% a := clift (string_attr EP_CACHE_CONTEXT context_cache_name) in
  let% _ := if share_ep_contexts o && stop_share_ep_contexts o then cset (fun w => with_shared_name w "") else cret tt in
  cret [a; (MAX_SIZE, AttrInt (i64 (max_spill_fill_buffer_size o)))].

Definition context_attributes (o : context_options) (graph_name : string) (idx : nat) : C (list (string * OrtOpAttr)) :=
  if (idx =? 0)%nat then
    if qnn_context_embed_mode o then
      let% a := clift (string_attr EP_CACHE_CONTEXT (string_of_bytes (buffer o))) in cret [a]
    else external_attributes o graph_name
  else cret [(MAIN_CONTEXT, AttrInt 0)].

Definition int_of_bool (b : bool) : OrtOpAttr := AttrInt (if b then 1 else 0).

Definition CreateEPContextNode (o : context_options) (qnn_models : string → option (list string * list string)) (graph_name : string)
  (idx : nat) : C CtxNode :=
  let% io := clift (match qnn_models graph_name with Some io => Ok io | None => Err (EpFail (graph_name +:+ " not exist in QnnModel table.")) end) in
  let% a1 := context_attributes o graph_name idx in
  let% ver := clift (string_attr EP_SDK_VER (sdk_build_version o)) in
  let% part := clift (string_attr PARTITION_NAME graph_name) in
  let% src := clift (string_attr SOURCE (ep_name o)) in
  let% over := match tensor_name_overrides o with
               | [] => cret []
               | l => let% a := clift (string_attr IO_NAME_OVERRIDES (encode_overrides l)) in cret [a]
               end in
  cret (Ctx EPCONTEXT_OP kMSDomain graph_name io.1 io.2
    (a1 ++ [(EMBED_MODE, int_of_bool (qnn_context_embed_mode o)); ver; part;
            (IS_MULTI_SOC_EP_CONTEXT, int_of_bool (enable_multi_soc_ep_context o)); src] ++ over)).

(** One node for each fused node, in order. *)
Fixpoint create_nodes (o : context_options) (qnn_models : string → option (list string * list string)) (fused_nodes : list string) (idx : nat)
  : C (list CtxNode) :=
  match fused_nodes with
  | [] => cret []
  | g :: fused_nodes =>
      let% n := CreateEPContextNode o qnn_models g idx in
      let% rest := create_nodes o qnn_models fused_nodes (S idx) in
      cret (n :: rest)
  end.
Definition CreateEPContextNodes (o : context_options) (qnn_models : string → option (list string * list string)) (fused_nodes : list string)
  : C (list CtxNode) := create_nodes o qnn_models fused_nodes 0.

(** ** Reading a context *)

(** What the backend manager is asked to load. *)
Record LoadRequest := Load {
  load_buffer : list Z;
  load_context_bin_filepath : string;
  load_node_name : string;
  load_is_multi_soc : bool
}.

(** The file, when the application does not read it. *)
Definition read_file (w : CtxWorld) (p : string) : result (list Z) :=
  match files w !! file_of p with
  | None => Err (EpFail "The file path in ep_cache_context does not exist or is not accessible.")
  | Some [] => Err (EpFail "Empty cache file encountered.")
  | Some bytes => Ok bytes
  end.

(** [GetEpContextFromMainNode] up to the call of the backend manager. *)
Definition GetEpContextFromMainNode (w : CtxWorld) (n : CtxNode) (ctx_onnx_model_path : string) : result LoadRequest :=
  let* _ := return_if (negb (bool_decide (cn_op_type n = EPCONTEXT_OP))) "EPContext node should be EPContext type." in
  let* is_embed_mode := Get_bool n EMBED_MODE true in
  let* is_multi_soc := Get_bool n IS_MULTI_SOC_EP_CONTEXT false in
  if is_embed_mode : bool then Ok (Load (bytes_of_string (Get_str n EP_CACHE_CONTEXT "")) "" (cn_name n) is_multi_soc)
  else
  let file := Get_str n EP_CACHE_CONTEXT "" in
  let* _ := return_if (bool_decide (file = "")) "The file path in ep_cache_context should not be empty." in
  let* _ := return_if (absolute file)
    ("External mode should set ep_cache_context field with a relative path, but it is an absolute path: " +:+ file) in
  let* _ := return_if (contains_dots file)
    "The file path in ep_cache_context field has '..'. It's not allowed to point outside the directory." in
  let p := path_append (parent_path ctx_onnx_model_path) file in
  let* bytes := if HasReadCallback then Read w file else read_file w p in
  Ok (Load bytes p (cn_name n) is_multi_soc).

(** [LoadQnnCtxFromOnnxGraph], likewise: a failure is reported as that of the model. *)
Definition LoadQnnCtxFromOnnxGraph (w : CtxWorld) (graph : list CtxNode) (ctx_onnx_model_path : string) : result LoadRequest :=
  let* n := only_node graph in
  match GetEpContextFromMainNode w n ctx_onnx_model_path with
  | Err (EpFail msg) => Err (EpFail ("Failed to load from EpContext model. " +:+ msg))
  | r => r
  end.

End Writing.

(** ** Lemmas on strings *)

Lemma occurs_app c a b : occurs c (a +:+ b) = occurs c a || occurs c b.
Proof. induction a as [|x a IH]; [done|]. change (String x a +:+ b) with (String x (a +:+ b)). cbn [occurs]. by rewrite IH, orb_assoc. Qed.

Lemma split_char_ne c s : split_char c s ≠ [].
Proof. destruct s as [|a s]; [done|]. cbn [split_char]. destruct (Ascii.eqb a c); [done|]. by destruct (split_char c s). Qed.

Lemma split_char_app c a b : split_char c (a +:+ String c b) = split_char c a ++ split_char c b.
Proof.
  induction a as [|x a IH].
  - change (EmptyString +:+ String c b) with (String c b). cbn [split_char]. by rewrite Ascii.eqb_refl.
  - change (String x a +:+ String c b) with (String x (a +:+ String c b)). cbn [split_char]. rewrite IH.
    destruct (Ascii.eqb x c); [done|]. pose proof (split_char_ne c a). by destruct (split_char c a).
Qed.

Lemma split_char_none c s : occurs c s = false → split_char c s = [s].
Proof. induction s as [|a s IH]; [done|]. cbn [occurs split_char]. intros [-> Hs]%orb_false_iff. by rewrite IH. Qed.

Lemma find_char_app c a b : occurs c a = false → find_char c (a +:+ String c b) = Some (String.length a).
Proof.
  induction a as [|x a IH]; intros Ho.
  - change (EmptyString +:+ String c b) with (String c b). cbn [find_char]. by rewrite Ascii.eqb_refl.
  - change (String x a +:+ String c b) with (String x (a +:+ String c b)). cbn [find_char occurs] in *.
    apply orb_false_iff in Ho as [-> Ho]. by rewrite IH.
Qed.

Lemma find_last_none c s : occurs c s = false → find_last_of c s = None.
Proof. induction s as [|a s IH]; [done|]. cbn [occurs find_last_of]. intros [-> Hs]%orb_false_iff. by rewrite IH. Qed.

Lemma find_last_app c a b : occurs c b = false → find_last_of c (a +:+ String c b) = Some (String.length a).
Proof.
  intros Hb. induction a as [|x a IH].
  - change (EmptyString +:+ String c b) with (String c b). cbn [find_last_of]. by rewrite find_last_none, Ascii.eqb_refl.
  - change (String x a +:+ String c b) with (String x (a +:+ String c b)). cbn [find_last_of]. by rewrite IH.
Qed.

Lemma find_last_spec c s :
  match find_last_of c s with
  | Some k => ∃ a b, s = a +:+ String c b ∧ String.length a = k ∧ occurs c b = false
  | None => occurs c s = false
  end.
Proof.
  induction s as [|x s IH]; [done|]. cbn [find_last_of]. destruct (find_last_of c s) as [k|].
  - destruct IH as (a & b & -> & <- & Hb). by exists (String x a), b.
  - cbn [occurs]. destruct (Ascii.eqb x c) eqn:Ex; [|done]. apply Ascii.eqb_eq in Ex as ->. by exists EmptyString, s.
Qed.

Lemma stake_app a b : stake (String.length a) (a +:+ b) = a.
Proof. induction a as [|x a IH]; [by destruct b|]. change (String x a +:+ b) with (String x (a +:+ b)). cbn. by rewrite IH. Qed.

Lemma sdrop_app a b n : sdrop (String.length a + n) (a +:+ b) = sdrop n b.
Proof. induction a as [|x a IH]; [done|]. change (String x a +:+ b) with (String x (a +:+ b)). cbn. by rewrite IH. Qed.

(** The parts of a path. *)
Lemma filename_app d f : occurs slash f = false → path_filename (d +:+ String slash f) = f.
Proof. intros Hf. unfold path_filename. rewrite find_last_app by done. rewrite <- Nat.add_1_r. by rewrite sdrop_app. Qed.
Lemma filename_plain f : occurs slash f = false → path_filename f = f.
Proof. intros Hf. unfold path_filename. by rewrite find_last_none. Qed.
Lemma parent_app d f : occurs slash f = false →
  parent_path (d +:+ String slash f) = match strip_slashes d with EmptyString => "/" | d => d end.
Proof. intros Hf. unfold parent_path. rewrite find_last_app by done. by rewrite stake_app. Qed.
Lemma parent_plain f : occurs slash f = false → parent_path f = "".
Proof. intros Hf. unfold parent_path. by rewrite find_last_none. Qed.

Lemma path_cases p : occurs slash p = false ∨ ∃ d f, p = d +:+ String slash f ∧ occurs slash f = false.
Proof. pose proof (find_last_spec slash p) as Hp. destruct (find_last_of slash p); [right|by left]. destruct Hp as (d & f & -> & _ & ?). eauto. Qed.

(** A path without its trailing separators. *)
Lemma strip_slashes_spec d : ∃ t, d = strip_slashes d +:+ t ∧ filter (fun c => c ≠ "" ∧ c ≠ ".") (split_char slash t) = [] ∧
  (t = "" ∨ absolute t = true) ∧ (strip_slashes d ≠ "" → path_filename (strip_slashes d) ≠ "").
Proof.
  induction d as [|a d (t & E & Hf & Ha & Hp)]; [by exists ""; split_and!; [..|left|]|]. cbn [strip_slashes].
  destruct (strip_slashes d) as [|b r] eqn:Er.
  - change (EmptyString +:+ t) with t in E. subst t. destruct (Ascii.eqb a slash) eqn:Ea.
    + exists (String a d). split_and!; [done| |right; done|done]. apply Ascii.eqb_eq in Ea as ->.
      change (String slash d) with ("" +:+ String slash d). rewrite split_char_app, filter_app, Hf. done.
    + exists d. split_and!; [done|done|done|]. intros _. unfold path_filename. cbn [find_last_of]. by rewrite Ea.
  - exists t. split_and!; [by rewrite E at 1|done|done|]. intros _. unfold path_filename in *. cbn [find_last_of].
    specialize (Hp ltac:(done)). cbn [find_last_of] in Hp. destruct (find_last_of slash r); [done|].
    destruct (Ascii.eqb b slash); [done|]. by destruct (Ascii.eqb a slash).
Qed.

(** Going to the directory of a path and back to its file name leads to the same file. *)
Lemma file_of_parent p : path_filename p ≠ "" → file_of (path_append (parent_path p) (path_filename p)) = file_of p.
Proof.
  destruct (path_cases p) as [Hp|(d & f & -> & Hf)].
  - intros _. rewrite parent_plain, filename_plain by done. unfold path_append.
    destruct p as [|a p]; [done|]. cbn [occurs absolute] in *. apply orb_false_iff in Hp as [-> _]. done.
  - rewrite filename_app, parent_app by done. intros Hne. assert (absolute f = false) as Hab.
    { destruct f as [|a f]; [done|]. cbn in *. by apply orb_false_iff in Hf as [-> _]. }
    destruct (strip_slashes_spec d) as (t & E & Ht & Hat & Hfn). unfold path_append. rewrite Hab.
    assert (∀ x, filter (fun c => c ≠ "" ∧ c ≠ ".") (split_char slash (x +:+ String slash f)) =
      filter (fun c => c ≠ "" ∧ c ≠ ".") (split_char slash x) ++ filter (fun c => c ≠ "" ∧ c ≠ ".") (split_char slash f)) as Hs
      by (intros x; by rewrite split_char_app, filter_app).
    destruct (strip_slashes d) as [|b r] eqn:Er.
    + change (EmptyString +:+ t) with t in E. subst t. change (path_filename "/") with "". cbv iota. change ("/" +:+ f) with ("" +:+ String slash f).
      unfold file_of. rewrite !Hs, Ht. f_equal. destruct Hat as [->|Hat]; [done|]. by destruct d.
    + specialize (Hfn ltac:(done)). destruct (path_filename (String b r)) eqn:Ef; [done|]. change ("/" +:+ f) with (String slash f).
      unfold file_of. rewrite !Hs. f_equal; [by rewrite E|]. f_equal. rewrite E. destruct Hat as [->|Hat]; [by rewrite string_app_nil|].
      destruct t as [|x t]; [done|]. cbn in Hat. apply Ascii.eqb_eq in Hat as ->. rewrite split_char_app, filter_app.
      change (String slash t) with ("" +:+ String slash t) in Ht. rewrite split_char_app, filter_app in Ht.
      apply app_nil in Ht as [_ ->]. by rewrite app_nil_r.
Qed.

Lemma bytes_roundtrip l : Forall (fun b => 0 ≤ b < 256) l → bytes_of_string (string_of_bytes l) = l.
Proof.
  unfold bytes_of_string, string_of_bytes. rewrite String.list_ascii_of_string_of_list_ascii. intros Hl.
  induction Hl as [|b l Hb Hl IH]; [done|]. cbn [fmap list_fmap]. rewrite IH. f_equal.
  rewrite Ascii.N_ascii_embedding; lia.
Qed.

(** ** Names of graph inputs and outputs *)

(** Names that survive the encoding. *)
Definition plain_override (p : string * string) : Prop :=
  p.1 ≠ "" ∧ p.2 ≠ "" ∧ occurs semicolon p.1 = false ∧ occurs semicolon p.2 = false ∧ occurs equals p.1 = false.

Lemma parse_pair_new m k v : k ≠ "" → v ≠ "" → occurs equals k = false → m !! k = None →
  parse_pair m (k +:+ String equals v) = <[k := v]> m.
Proof.
  intros Hk Hv Ho Hm. unfold parse_pair. rewrite find_char_app by done. rewrite stake_app, <- Nat.add_1_r, sdrop_app. cbn [sdrop].
  rewrite !bool_decide_false; [done|rewrite Hm; by intros []|done|done].
Qed.

Lemma split_encoded l : Forall plain_override l →
  split_char semicolon (encode_overrides l) = ((fun p => p.1 +:+ String equals p.2) <$> l) ++ [""].
Proof.
  induction 1 as [|[k v] l (Hk & Hv & Hks & Hvs & Hke) Hl IH]; [done|]. cbn [encode_overrides foldr fmap list_fmap fst snd] in *.
  unfold encode_override at 1. cbn [fst snd].
  replace ((k +:+ String equals (v +:+ String semicolon "")) +:+ foldr (fun p s => encode_override p +:+ s) "" l)
    with ((k +:+ String equals v) +:+ String semicolon (foldr (fun p s => encode_override p +:+ s) "" l)).
  - rewrite split_char_app. unfold encode_overrides in IH. rewrite IH, (split_char_none semicolon (k +:+ String equals v)); [done|].
    rewrite occurs_app. cbn [occurs]. by rewrite Hks, Hvs.
  - rewrite !string_app_assoc. f_equal. change (String equals v +:+ ?x) with (String equals (v +:+ x)).
    change (String equals (v +:+ String semicolon "") +:+ ?x) with (String equals ((v +:+ String semicolon "") +:+ x)).
    by rewrite string_app_assoc.
Qed.

Lemma foldl_overrides l m : Forall plain_override l → NoDup l.*1 → (∀ k, k ∈ l.*1 → m !! k = None) →
  foldl parse_pair m ((fun p => p.1 +:+ String equals p.2) <$> l) = list_to_map l ∪ m.
Proof.
  intros Hl. revert m. induction Hl as [|[k v] l (Hk & Hv & _ & _ & Hke) Hl IH]; intros m Hd Hm; cbn [fmap list_fmap foldl fst snd] in *.
  - symmetry. apply map_empty_union.
  - apply NoDup_cons in Hd as [Hn Hd]. rewrite parse_pair_new by (done || (apply Hm; by left)). rewrite IH; [|done|].
    + rewrite list_to_map_cons, <- insert_union_l, <- insert_union_r; [done|]. by apply not_elem_of_list_to_map_1.
    + intros k' Hk'. rewrite lookup_insert_ne by (intros ->; done). apply Hm. by right.
Qed.

(** The names that a context node records, read back from it. *)
Lemma overrides_roundtrip l n : Forall plain_override l → NoDup l.*1 → Get_str n IO_NAME_OVERRIDES "" = encode_overrides l →
  ParseIoNameOverrides (Some n) = list_to_map l.
Proof.
  intros Hl Hd E. unfold ParseIoNameOverrides. rewrite E, split_encoded, foldl_app by done.
  rewrite foldl_overrides by (done || set_solver). cbn [foldl]. by rewrite map_union_empty.
Qed.

(** ** The largest spill-fill buffer *)

(** The size that the graph at a position asks for. *)
Definition spill_size (graphs : list (list CtxNode)) (pos : nat) : Z :=
  match graphs !! pos with Some [n] => Get_i64 n MAX_SIZE 0 | _ => 0 end.

Lemma spill_fold graphs l k st : foldM (spill_step graphs l) (seq 0 k) (0, 0%nat) = Ok st → (k ≤ length l)%nat →
  st.1 = foldr Z.max 0 (spill_size graphs <$> take k l) ∧
  (st.2 = 0%nat ∧ (st.1 = 0 ∨ spill_size graphs <$> l !! 0%nat = Some st.1) ∨
   (st.2 < k)%nat ∧ spill_size graphs <$> l !! st.2 = Some st.1).
Proof.
  revert st. induction k as [|k IH]; intros st E Hk; [injection E as <-; cbn; auto|].
  rewrite seq_S, foldM_app in E. apply bind_Ok in E as (st1 & E1 & E). cbn [foldM] in E. apply bind_Ok in E as (st2 & E2 & [= <-]).
  destruct (IH st1 E1) as [Hm Hi]; [lia|]. unfold spill_step in E2. inv_bind E2. inv_bind E2. inv_bind E2.
  apply aget_Ok in E0, E3. rewrite Nat.add_0_l in *. unfold only_node in E4. destruct a0 as [|n [|]]; try done. injection E4 as ->.
  assert (spill_size graphs a = Get_i64 a1 MAX_SIZE 0) as Hs by (unfold spill_size; by rewrite E3).
  rewrite (take_S_r _ _ a) by done. rewrite fmap_app, foldr_app. cbn [fmap list_fmap foldr]. rewrite Hs.
  assert (∀ z zs, foldr Z.max z zs = Z.max z (foldr Z.max 0 zs) ∨ z < 0) as Hfold.
  { intros z zs. destruct (Z.lt_ge_cases z 0); [by right|left]. induction zs as [|x zs IHz]; cbn; lia. }
  destruct (Hfold (Z.max (Get_i64 a1 MAX_SIZE 0) 0) (spill_size graphs <$> take k l)) as [->|]; [|lia]. rewrite <- Hm.
  assert (0 ≤ st1.1) by (rewrite Hm; clear; induction (spill_size graphs <$> take k l); cbn; lia).
  destruct (Z.ltb_spec st1.1 (Get_i64 a1 MAX_SIZE 0)) as [Hlt|Hge]; injection E2 as <-.
  - cbn [fst snd]. split; [lia|]. right. split; [lia|]. rewrite E0. cbn. by rewrite Hs.
  - split; [lia|]. destruct Hi as [Hi|[Hi1 Hi2]]; [by left|right; split; [lia|done]].
Qed.

(** The answer is the largest size that one of the listed graphs asks for (zero when none does), and
    the list is permuted so that such a graph comes first: its context starts the group that the
    others join. *)
Lemma max_spill_fill graphs l size l' : TryGetMaxSpillFillSize graphs (length l) l = Ok (size, l') →
  size = foldr Z.max 0 (spill_size graphs <$> l) ∧ l' ≡ₚ l ∧ (0 < size → spill_size graphs <$> l' !! 0%nat = Some size).
Proof.
  unfold TryGetMaxSpillFillSize. intros E. apply bind_Ok in E as ([z i] & Ef & E). destruct (spill_fold _ _ _ _ Ef) as [Hz Hi]; [done|].
  rewrite take_ge in Hz by done. cbn [fst snd] in *. destruct (Nat.eqb_spec i 0) as [->|Hi0]; cbn [negb] in E.
  - injection E as <- <-. split_and!; [done|done|]. intros Hp. destruct Hi as [[_ [?|?]]|[_ ?]]; [lia|done|done].
  - inv_bind E. inv_bind E. inv_bind E. inv_bind E. injection E as <- <-. apply aget_Ok in E0, E1. apply aset_Ok in E2 as [? ->], E3 as [? ->].
    destruct Hi as [[? _]|[_ Hi]]; [done|]. split_and!; [done| |].
    + rewrite length_insert in *. destruct l as [|x l]; [done|]. destruct i as [|i]; [done|]. cbn in E0, E1. injection E0 as ->.
      change (<[S i := a]> (<[0%nat := a0]> (a :: l))) with (a0 :: <[i := a]> l).
      rewrite <- (take_drop_middle l i a0 E1) at 2. rewrite insert_take_drop by (apply lookup_lt_Some in E1; lia).
      rewrite <- Permutation_middle, <- Permutation_middle. apply Permutation_swap.
    + intros _. rewrite list_lookup_insert_ne by done. rewrite list_lookup_insert_eq by (by destruct l; [|cbn; lia]).
      rewrite E1 in Hi. exact Hi.
Qed.

(** ** What sessions share *)

Section SharedFacts.
Context {QnnModel : Type} (Name : QnnModel → string).

Lemma has_model l n : HasQnnModel Name l n = true ↔ n ∈ Name <$> l.
Proof.
  unfold HasQnnModel, is_model. rewrite existsb_exists, list_elem_of_fmap. split; intros (m & H1 & H2).
  - apply bool_decide_eq_true in H2. exists m. by rewrite list_elem_of_In.
  - exists m. rewrite bool_decide_eq_true, <- list_elem_of_In. auto.
Qed.

(** Taking a model out of the table. *)
Lemma take_model l n m l' : GetSharedQnnModel Name l n = (m, l') →
  match m with Some m => Name m = n ∧ l ≡ₚ m :: l' | None => l' = l ∧ n ∉ Name <$> l end.
Proof.
  revert l'. induction l as [|x l IH]; intros l' E; cbn in E; [injection E as <- <-; split; [done|]; apply not_elem_of_nil|].
  unfold is_model in E at 1. case_bool_decide as Hx; [by injection E as <- <-|].
  destruct (GetSharedQnnModel Name l n) as [r l1] eqn:E1. injection E as <- <-. specialize (IH l1 eq_refl). destruct r as [r|].
  - destruct IH as [? ->]. split; [done|]. apply Permutation_swap.
  - destruct IH as [-> Hn]. split; [done|]. cbn. rewrite not_elem_of_cons. auto.
Qed.

Lemma set_models l ms d l' dup d' : NoDup (Name <$> l) → SetSharedQnnModel Name l ms d = (l', dup, d') →
  NoDup (Name <$> l') ∧ (∀ n, n ∈ Name <$> l' ↔ n ∈ Name <$> l ∨ n ∈ Name <$> ms) ∧ l `prefix_of` l' ∧
  (dup = false → l' = l ++ ms ∧ d' = d).
Proof.
  revert l d l' dup d'. induction ms as [|m ms IH]; intros l d l' dup d' Hd E; cbn [SetSharedQnnModel] in E.
  - injection E as <- <- <-. split_and!; [done|set_solver|done|]. by rewrite app_nil_r.
  - destruct (HasQnnModel Name l (Name m)) eqn:Eh.
    + destruct (SetSharedQnnModel Name l ms _) as [[l1 b] names] eqn:E1. injection E as <- <- <-. apply has_model in Eh.
      destruct (IH _ _ _ _ _ Hd E1) as (? & Hn & ? & _). split_and!; [done| |done|done]. intros n. rewrite Hn. cbn. rewrite elem_of_cons.
      split; [tauto|]. intros [?|[->|?]]; auto.
    + assert (Name m ∉ Name <$> l) as Hm by (rewrite <- has_model, Eh; done).
      destruct (IH (l ++ [m]) d l' dup d') as (? & Hn & Hp & Hdup); [|done|].
      { rewrite fmap_app. apply NoDup_app. split_and!; [done|set_solver|apply NoDup_singleton]. }
      split_and!; [done| | |].
      * intros n. rewrite Hn, fmap_app. cbn. set_solver.
      * by eapply prefix_app_l.
      * intros Hb. destruct (Hdup Hb) as [-> ->]. by rewrite <- app_assoc.
Qed.

End SharedFacts.

(** ** Writing a context model and reading it back *)

(** What the runtime does with a node when the model is loaded: the attributes it was written with
    stay, and [main_context] has the default of the operator's schema. *)
Class EpContextSchema (resolve : CtxNode → CtxNode) : Prop := {
  resolve_name : ∀ n, cn_name (resolve n) = cn_name n;
  resolve_op_type : ∀ n, cn_op_type (resolve n) = cn_op_type n;
  resolve_given : ∀ n k v, attr n k = Some v → attr (resolve n) k = Some v;
  resolve_main_context : ∀ n, attr n MAIN_CONTEXT = None → attr (resolve n) MAIN_CONTEXT = Some (AttrInt 1);
  resolve_overrides : ∀ n, attr n IO_NAME_OVERRIDES = None → attr (resolve n) IO_NAME_OVERRIDES = None
}.

(** An application that can read what it has written. *)
Class EpContextAppLaws `{EpContextApp} : Prop := {
  callbacks_together : HasReadCallback = HasWriteCallback;
  read_written : ∀ r wr a name data a', read_fn_ = Some r → write_fn_ = Some wr → wr a name data = Ok a' → r a' name = Ok data
}.

Section RoundTrip.
Context `{EpContextApp} `{!EpContextAppLaws} (resolve : CtxNode → CtxNode) `{!EpContextSchema resolve}.

Lemma cbind_Ok {A B} (c : C A) (k : A → C B) w w' b :
  cbind c k w = (w', Ok b) → ∃ w1 a, c w = (w1, Ok a) ∧ k a w1 = (w', Ok b).
Proof. unfold cbind. destruct (c w) as [w1 [a|e]]; [eauto|done]. Qed.

Lemma clift_Ok {A} (r : result A) w w' a : clift r w = (w', Ok a) → w' = w ∧ r = Ok a.
Proof. intros [= <- ->]. done. Qed.

Lemma string_attr_Ok key s a : string_attr key s = Ok a → a = (key, AttrString s).
Proof. unfold string_attr. destruct (_ <? _); [|done]. by intros [= <-]. Qed.

(** A node, with what its attributes for the context are. *)
Lemma create_node_spec o models g idx w w' n : CreateEPContextNode o models g idx w = (w', Ok n) →
  ∃ ctx, context_attributes o g idx w = (w', Ok ctx) ∧ cn_op_type n = EPCONTEXT_OP ∧ cn_name n = g ∧
    cn_attributes n = ctx ++ [(EMBED_MODE, int_of_bool (qnn_context_embed_mode o)); (EP_SDK_VER, AttrString (sdk_build_version o));
      (PARTITION_NAME, AttrString g); (IS_MULTI_SOC_EP_CONTEXT, int_of_bool (enable_multi_soc_ep_context o));
      (SOURCE, AttrString (ep_name o))] ++
      (if bool_decide (tensor_name_overrides o = []) then [] else [(IO_NAME_OVERRIDES, AttrString (encode_overrides (tensor_name_overrides o)))]).
Proof.
  unfold CreateEPContextNode. intros E. apply cbind_Ok in E as (w1 & io & E1 & E). apply clift_Ok in E1 as [-> _].
  apply cbind_Ok in E as (w2 & ctx & E2 & E). apply cbind_Ok in E as (w3 & ver & [-> ->%string_attr_Ok]%clift_Ok & E).
  apply cbind_Ok in E as (w3 & part & [-> ->%string_attr_Ok]%clift_Ok & E).
  apply cbind_Ok in E as (w3 & src & [-> ->%string_attr_Ok]%clift_Ok & E). apply cbind_Ok in E as (w3 & over & E3 & E).
  injection E as <- <-. destruct (tensor_name_overrides o) as [|p l].
  - injection E3 as <- <-. by exists ctx.
  - apply cbind_Ok in E3 as (w4 & a & [-> ->%string_attr_Ok]%clift_Ok & E3). injection E3 as <- <-. by exists ctx.
Qed.

(** The attributes of the context have keys of their own. *)
Definition context_keys : list string := [EP_CACHE_CONTEXT; MAX_SIZE; MAIN_CONTEXT].

Lemma context_attributes_keys o g idx w w' ctx : context_attributes o g idx w = (w', Ok ctx) → Forall (fun a => a.1 ∈ context_keys) ctx.
Proof.
  unfold context_attributes. destruct (idx =? 0)%nat; [destruct (qnn_context_embed_mode o)|]; intros E.
  - apply cbind_Ok in E as (w1 & a & [-> ->%string_attr_Ok]%clift_Ok & E). injection E as <- <-. repeat constructor; set_solver.
  - unfold external_attributes in E. apply cbind_Ok in E as (w1 & [n p] & _ & E). apply cbind_Ok in E as (w2 & [] & _ & E).
    apply cbind_Ok in E as (w3 & a & [-> ->%string_attr_Ok]%clift_Ok & E). apply cbind_Ok in E as (w3 & [] & _ & E).
    injection E as <- <-. repeat constructor; set_solver.
  - injection E as <- <-. repeat constructor; set_solver.
Qed.

Lemma find_assoc_app {V} (k : string) (l1 l2 : list (string * V)) :
  find_assoc k (l1 ++ l2) = match find_assoc k l1 with Some v => Some v | None => find_assoc k l2 end.
Proof. induction l1 as [|[k' v] l1 IH]; [done|]. cbn. by case_decide. Qed.

Lemma find_assoc_none {V} (k : string) (l : list (string * V)) (P : list string) : Forall (fun a => a.1 ∈ P) l → k ∉ P → find_assoc k l = None.
Proof. induction 1 as [|[k' v] l Hk Hl IH]; [done|]. cbn in *. intros Hn. case_decide as E; [subst; done|auto]. Qed.

(** The attributes of a node after loading. *)
Lemma node_attr o models g idx w w' n k v : CreateEPContextNode o models g idx w = (w', Ok n) →
  (k, v) ∈ [(EMBED_MODE, int_of_bool (qnn_context_embed_mode o));
            (IS_MULTI_SOC_EP_CONTEXT, int_of_bool (enable_multi_soc_ep_context o)); (SOURCE, AttrString (ep_name o))] →
  attr (resolve n) k = Some v.
Proof.
  intros E Hk. apply create_node_spec in E as (ctx & Ec & _ & _ & Ea). apply resolve_given. unfold attr. rewrite Ea, find_assoc_app.
  rewrite (find_assoc_none _ _ context_keys); [|by eapply context_attributes_keys|].
  - repeat (apply elem_of_cons in Hk as [[= -> ->]|Hk]; [reflexivity|]). by apply not_elem_of_nil in Hk.
  - repeat (apply elem_of_cons in Hk as [[= -> ->]|Hk]; [by apply (bool_decide_unpack _)|]). by apply not_elem_of_nil in Hk.
Qed.

Lemma node_overrides o models g idx w w' n : CreateEPContextNode o models g idx w = (w', Ok n) →
  Forall plain_override (tensor_name_overrides o) → NoDup (tensor_name_overrides o).*1 →
  ParseIoNameOverrides (Some (resolve n)) = list_to_map (tensor_name_overrides o).
Proof.
  intros E Hl Hd. apply create_node_spec in E as (ctx & Ec & _ & _ & Ea). apply overrides_roundtrip; [done|done|].
  assert (attr n IO_NAME_OVERRIDES = if bool_decide (tensor_name_overrides o = []) then None
    else Some (AttrString (encode_overrides (tensor_name_overrides o)))) as Ho.
  { unfold attr. rewrite Ea, find_assoc_app, (find_assoc_none _ _ context_keys); [|by eapply context_attributes_keys|by apply (bool_decide_unpack _)].
    by case_bool_decide. }
  unfold Get_str. case_bool_decide as Hb.
  - rewrite Hb, (resolve_overrides n Ho). done.
  - by rewrite (resolve_given n _ _ Ho).
Qed.

(** The node of the main graph and of the others. *)
Lemma node_main o models g idx w w' n : CreateEPContextNode o models g idx w = (w', Ok n) →
  Get_i64 (resolve n) MAIN_CONTEXT 0 = (if (idx =? 0)%nat then 1 else 0).
Proof.
  intros E. apply create_node_spec in E as (ctx & Ec & _ & _ & Ea). unfold Get_i64, attr_Int.
  assert (attr n MAIN_CONTEXT = if (idx =? 0)%nat then None else Some (AttrInt 0)) as Hm.
  { unfold attr. rewrite Ea, find_assoc_app. unfold context_attributes in Ec. destruct (idx =? 0)%nat.
    - replace (find_assoc MAIN_CONTEXT ctx) with (@None OrtOpAttr); [by case_bool_decide|]. symmetry.
      eapply (find_assoc_none _ _ [EP_CACHE_CONTEXT; MAX_SIZE]); [|by apply (bool_decide_unpack _)]. destruct (qnn_context_embed_mode o).
      + apply cbind_Ok in Ec as (w1 & a & [-> ->%string_attr_Ok]%clift_Ok & Ec). injection Ec as <- <-. repeat constructor; set_solver.
      + unfold external_attributes in Ec. apply cbind_Ok in Ec as (w1 & [n' p] & _ & Ec). apply cbind_Ok in Ec as (w2 & [] & _ & Ec).
        apply cbind_Ok in Ec as (w3 & a & [-> ->%string_attr_Ok]%clift_Ok & Ec). apply cbind_Ok in Ec as (w3 & [] & _ & Ec).
        injection Ec as <- <-. repeat constructor; set_solver.
    - injection Ec as <- <-. done. }
  destruct (idx =? 0)%nat; [by rewrite (resolve_main_context n Hm)|by rewrite (resolve_given n _ _ Hm)].
Qed.

(** The nodes after the first leave the world as it is. *)
Lemma create_rest o models gs idx w w' ns : create_nodes o models gs (S idx) w = (w', Ok ns) →
  w' = w ∧ cn_name <$> ns = gs ∧ Forall (fun n => cn_op_type n = EPCONTEXT_OP ∧ Get_i64 (resolve n) MAIN_CONTEXT 0 = 0 ∧
    ∃ g k w, CreateEPContextNode o models g k w = (w, Ok n)) ns.
Proof.
  revert idx ns. induction gs as [|g gs IH]; intros idx ns E; cbn [create_nodes] in E; [by injection E as <- <-|].
  apply cbind_Ok in E as (w1 & n & E1 & E). apply cbind_Ok in E as (w2 & rest & E2 & E). injection E as <- <-.
  pose proof E1 as En. apply create_node_spec in En as (ctx & Ec & Hop & Hn & _). injection Ec as <- _.
  destruct (IH _ _ E2) as (-> & Hns & Hr). split_and!; [done|cbn; by rewrite Hn, Hns|]. constructor; [|done]. split_and!; [done| |eauto].
  by rewrite (node_main _ _ _ _ _ _ _ E1).
Qed.

Lemma main_positions_none ns k : Forall (fun n => cn_op_type n = EPCONTEXT_OP ∧ Get_i64 (resolve n) MAIN_CONTEXT 0 = 0 ∧ True) ns →
  main_positions ((fun n => [resolve n]) <$> ns) k = Ok [].
Proof.
  intros Hns. revert k. induction Hns as [|n ns (Hop & Hm & _) Hns IH]; intros k; [done|]. cbn [fmap list_fmap main_positions only_node rbind].
  rewrite resolve_op_type, Hop. cbn [bool_decide negb return_if return_if_not rbind]. rewrite bool_decide_true by done. cbn. rewrite IH, Hm. done.
Qed.

(** Where the binary of a model with an extension is written: beside it. *)
Lemma bin_path_beside o g k : find_last_of dot (context_model_path o) = Some (S k) → occurs slash (sdrop (S k) (context_model_path o)) = false →
  parent_path (context_bin_path o g) = parent_path (context_model_path o) ∧
  occurs slash (path_filename (context_bin_path o g)) = false ∧ path_filename (context_bin_path o g) ≠ "".
Proof.
  intros Ek Hs. pose proof (find_last_spec dot (context_model_path o)) as Hf. rewrite Ek in Hf. destruct Hf as (a & e & Ep & Hl & _).
  unfold context_bin_path. rewrite Ek, Ep. rewrite <- Hl, stake_app. rewrite Ep, <- Hl, <- (Nat.add_0_r (String.length a)), sdrop_app in Hs.
  cbn [sdrop] in Hs. assert (a ≠ "") as Ha by (by intros ->). replace (match a with "" => g | _ => a end) with a by (by destruct a).
  assert (occurs slash "_qnn.bin" = false) as Hb by done.
  destruct (path_cases a) as [Hp|(d & f & -> & Hf)].
  - rewrite !parent_plain, filename_plain by (by rewrite occurs_app, Hp). split_and!; [done|by rewrite occurs_app, Hp|by apply string_app_ne].
  - rewrite !string_app_assoc. change (String slash f +:+ ?x) with (String slash (f +:+ x)).
    rewrite !parent_app, filename_app by (by rewrite occurs_app, Hf). split_and!; [done|by rewrite occurs_app, Hf|by apply string_app_ne].
Qed.

(** What the nodes of a context name, and where it was written. *)
Lemma external_spec o g w w' ctx : external_attributes o g w = (w', Ok ctx) → share_ep_contexts o = false ∨ stop_share_ep_contexts o = true →
  parent_path (context_bin_path o g) = parent_path (context_model_path o) → path_filename (context_bin_path o g) ≠ "" →
  buffer o ≠ [] →
  let n := if share_ep_contexts o && negb (bool_decide (shared_ctx_bin_file_name_ w = "")) then shared_ctx_bin_file_name_ w
           else path_filename (context_bin_path o g) in
  ctx = [(EP_CACHE_CONTEXT, AttrString n); (MAX_SIZE, AttrInt (i64 (max_spill_fill_buffer_size o)))] ∧
  (if HasReadCallback then Read w' n else read_file w' (path_append (parent_path (context_model_path o)) n)) = Ok (buffer o).
Proof.
  intros E Hshare Hpar Hne Hbuf n. unfold external_attributes in E. apply cbind_Ok in E as (w1 & [n' p] & E1 & E).
  assert (n' = n ∧ files w1 = files w ∧ app w1 = app w ∧ file_of p = file_of (path_append (parent_path (context_model_path o)) n)) as (-> & Hf1 & Ha1 & Hp).
  { unfold shared_path in E1. destruct (share_ep_contexts o) eqn:Es; cbn [andb] in n.
    - apply cbind_Ok in E1 as (w2 & sh & E2 & E1). injection E2 as <- <-. destruct (shared_ctx_bin_file_name_ w) eqn:Esh.
      + subst n. rewrite bool_decide_true by done. cbn [negb]. apply cbind_Ok in E1 as (w3 & [] & E3 & E1). injection E3 as <-.
        injection E1 as <- <- <-. split_and!; [done..|]. by rewrite <- Hpar, file_of_parent.
      + injection E1 as <- <- <-. subst n. rewrite bool_decide_false by done. cbn [negb]. by rewrite Hpar.
    - injection E1 as <- <- <-. subst n. split_and!; [done..|]. by rewrite <- Hpar, file_of_parent. }
  replace (negb (share_ep_contexts o) || stop_share_ep_contexts o) with true in E by (by destruct Hshare as [->| ->]; [|rewrite orb_true_r]).
  apply cbind_Ok in E as (w2 & [] & E2 & E). apply cbind_Ok in E as (w3 & a & [-> ->%string_attr_Ok]%clift_Ok & E).
  apply cbind_Ok in E as (w3 & [] & E3 & E). injection E as <- <-. split; [done|].
  assert (files w3 = files w2 ∧ app w3 = app w2) as [Hf3 Ha3] by (destruct (share_ep_contexts o && stop_share_ep_contexts o); by injection E3 as <-).
  rewrite callbacks_together. destruct HasWriteCallback eqn:Hw.
  - unfold Write in E2. destruct write_fn_ as [wr|] eqn:Ew; [|done]. destruct (wr _ _ _) as [a'|] eqn:Ewr; [|done]. injection E2 as <-.
    pose proof callbacks_together as Hcb. rewrite Hw in Hcb. unfold HasReadCallback in Hcb. apply bool_decide_eq_true in Hcb as [r Er].
    unfold Read. rewrite Er, Ha3. cbn [app with_app]. rewrite (read_written r wr _ _ _ _ Er Ew Ewr). cbn. by destruct (buffer o).
  - unfold write_file in E2. destruct (can_open p); [|done]. destruct (can_write p (buffer o)); [|done]. injection E2 as <-.
    unfold read_file. rewrite Hf3, <- Hp. cbn [files with_file]. rewrite lookup_insert_eq. by destruct (buffer o).
Qed.

(** The name of the file that the first node of a session gets. *)
Definition cache_name (o : context_options) (g : string) (w : CtxWorld) : string :=
  if share_ep_contexts o && negb (bool_decide (shared_ctx_bin_file_name_ w = "")) then shared_ctx_bin_file_name_ w
  else path_filename (context_bin_path o g).

(** A file that a loader accepts. *)
Definition external_ok (o : context_options) (g : string) (w : CtxWorld) : Prop :=
  (share_ep_contexts o = false ∨ stop_share_ep_contexts o = true) ∧
  (∃ k, find_last_of dot (context_model_path o) = Some (S k) ∧ occurs slash (sdrop (S k) (context_model_path o)) = false) ∧
  occurs slash (cache_name o g w) = false ∧ contains_dots (cache_name o g w) = false.

Lemma main_node_loads o models g w w' n : CreateEPContextNode o models g 0 w = (w', Ok n) →
  Forall (fun b => 0 ≤ b < 256) (buffer o) → buffer o ≠ [] → (qnn_context_embed_mode o = false → external_ok o g w) →
  ∃ path, LoadQnnCtxFromOnnxGraph w' [resolve n] (context_model_path o) = Ok (Load (buffer o) path g (enable_multi_soc_ep_context o)) ∧
    (qnn_context_embed_mode o = true → path = "").
Proof.
  intros E Hb Hne Hx. pose proof (node_attr _ _ _ _ _ _ _ EMBED_MODE _ E ltac:(by left)) as He.
  pose proof (node_attr _ _ _ _ _ _ _ IS_MULTI_SOC_EP_CONTEXT _ E ltac:(by right; left)) as Hs.
  apply create_node_spec in E as (ctx & Ec & Hop & Hn & Ea). unfold LoadQnnCtxFromOnnxGraph, GetEpContextFromMainNode. cbn [only_node rbind].
  rewrite resolve_op_type, Hop, resolve_name, Hn. cbn [bool_decide negb return_if return_if_not rbind]. rewrite bool_decide_true by done. cbn [negb return_if return_if_not rbind].
  unfold Get_bool, attr_Int. rewrite He, Hs. unfold int_of_bool. unfold context_attributes in Ec. cbn [Nat.eqb] in Ec.
  assert (∀ c, find_assoc EP_CACHE_CONTEXT ctx = Some c → attr (resolve n) EP_CACHE_CONTEXT = Some c) as Hc.
  { intros c Hc. apply resolve_given. unfold attr. by rewrite Ea, find_assoc_app, Hc. }
  destruct (qnn_context_embed_mode o).
  - apply cbind_Ok in Ec as (w1 & a & [-> ->%string_attr_Ok]%clift_Ok & Ec). injection Ec as <- <-. exists "". split; [|done].
    unfold Get_str. rewrite (Hc _ eq_refl). destruct (enable_multi_soc_ep_context o); cbn; by rewrite bytes_roundtrip.
  - destruct (Hx eq_refl) as (Hshare & (k & Ek & Hk) & Hsl & Hdots). destruct (bin_path_beside o g k Ek Hk) as (Hpar & Hfs & Hfn).
    destruct (external_spec o g w w' ctx Ec Hshare Hpar Hfn Hne) as [-> Hread]. fold (cache_name o g w) in *.
    assert (cache_name o g w ≠ "") as Hcn.
    { unfold cache_name. destruct (share_ep_contexts o); cbn [andb]; [|exact Hfn]. destruct (decide (shared_ctx_bin_file_name_ w = "")) as [Hcd|Hcd];
        [rewrite bool_decide_true by done|rewrite bool_decide_false by done]; cbn [negb]; assumption. }
    exists (path_append (parent_path (context_model_path o)) (cache_name o g w)). split; [|done].
    unfold Get_str. rewrite (Hc _ eq_refl), (bool_decide_false _ Hcn), Hdots.
    assert (absolute (cache_name o g w) = false) as ->.
    { destruct (cache_name o g w) as [|a s]; [done|]. cbn in *. by apply orb_false_iff in Hsl as [-> _]. }
    destruct (enable_multi_soc_ep_context o); cbn [Z.b2z rmap Get_int32 narrow rbind negb Z.eqb return_if return_if_not]; cbn; by rewrite Hread.
Qed.

End RoundTrip.

(** An application without callbacks, and a runtime that adds the default of [main_context]. *)
#[local] Instance plain_app : EpContextApp :=
  {| app_state := unit; read_fn_ := None; write_fn_ := None; can_open := fun _ => true; can_write := fun _ _ => true |}.
#[local] Instance plain_app_laws : EpContextAppLaws.
Proof. split; [done|]. by intros r wr a name data a' Hr. Qed.

Definition add_main_context (n : CtxNode) : CtxNode :=
  match attr n MAIN_CONTEXT with
  | Some _ => n
  | None => Ctx (cn_op_type n) (cn_domain n) (cn_name n) (cn_inputs n) (cn_outputs n) (cn_attributes n ++ [(MAIN_CONTEXT, AttrInt 1)])
  end.
#[local] Instance add_main_context_schema : EpContextSchema add_main_context.
Proof.
  split; intros n; unfold add_main_context.
  - by destruct (attr n MAIN_CONTEXT).
  - by destruct (attr n MAIN_CONTEXT).
  - intros k v Hk. destruct (attr n MAIN_CONTEXT); [done|]. unfold attr in *. cbn [cn_attributes]. by rewrite find_assoc_app, Hk.
  - intros Hm. rewrite Hm. unfold attr in *. cbn [cn_attributes]. by rewrite find_assoc_app, Hm.
  - intros Ho. destruct (attr n MAIN_CONTEXT); [done|]. unfold attr in *. cbn [cn_attributes]. by rewrite find_assoc_app, Ho.
Qed.

Definition sample_world : CtxWorld := World ∅ tt "".
Definition sample_options (path ep : string) (overrides : list (string * string)) : context_options :=
  CtxOptions [81; 78; 0; 255] "v2.40" path false 4096 false false ep overrides false.
Definition sample_models (g : string) : option (list string * list string) := Some (["x"], ["y"]).


(** ** Where the two sides do not meet *)

Module ContextFindings.

(** The context of a model at [path], written and then loaded. *)
Definition write_then_load (o : context_options) : option string * list (bool * list string) * result LoadRequest :=
  match CreateEPContextNodes o sample_models ["g"] sample_world with
  | (w, Ok [n]) =>
      (match attr n EP_CACHE_CONTEXT with Some (AttrString s) => Some s | _ => None end, (map_to_list (files w)).*1,
       LoadQnnCtxFromOnnxGraph w [add_main_context n] (context_model_path o))
  | (w, Ok _) => (None, [], Err Trap)
  | (w, Err e) => (None, [], Err e)
  end.

(** A dot in the directory of a model without an extension is taken for its extension: the binary
    goes to the file [m_qnn.bin], and is looked for beside the model. *)
Lemma dotted_directory : ∃ e, write_then_load (sample_options "m.d/ctx" "QNN" []) =
  (Some "m_qnn.bin", [(false, ["m_qnn.bin"])], Err e) ∧ file_of "m.d/m_qnn.bin" ≠ file_of "m_qnn.bin".
Proof. eexists. split; [vm_compute; reflexivity|by apply (bool_decide_unpack _)]. Qed.

(** A model that is named with two dots in a row gets a context that the loader refuses. *)
Lemma two_dots_refused : ∃ e, write_then_load (sample_options "a..b.onnx" "QNN" []) =
  (Some "a..b_qnn.bin", [(false, ["a..b_qnn.bin"])], Err e) ∧ contains_dots "a..b_qnn.bin" = true.
Proof. eexists. split; vm_compute; reflexivity. Qed.

(** A separator in a name is not escaped: the override is lost. *)
Lemma separator_in_name : ParseIoNameOverrides (Some (Ctx EPCONTEXT_OP kMSDomain "g" [] []
    [(IO_NAME_OVERRIDES, AttrString (encode_overrides [("in;0", "x"); ("b=c", "y")]))]))
  = list_to_map [("0", "x"); ("b", "c=y")].
Proof. vm_compute. reflexivity. Qed.

(** A node of the exporter makes a graph a context model, and belongs to no partition of it. *)
Lemma exporter_node_unclaimed (n := Ctx EPCONTEXT_OP kMSDomain "g" [] [] [(SOURCE, AttrString "QairtExport")]) :
  GraphHasEpContextNode [n] EP_CONTEXT_TYPE_BIN = true ∧ PartitionCtxModel [n] = [].
Proof. split; vm_compute; reflexivity. Qed.

End ContextFindings.
