(* ===== verification/Execution.v ===== *)
(** * Execution of a graph and recovery from a crash of the accelerator

    [QnnGraphEmitter] (builder/qnn_graph_emitter.cc), the context handles of the backend manager
    and the part of [QnnModel] (builder/qnn_model.cc) that retrieves, configures, binds and
    executes a graph.  The state is that of one model and of the backend manager it shares with
    others: memory handles ([Memory]), power configuration ([Power]), context handles, and the
    state of the QNN library, whose functions are a parameter.  The build is the one without
    Windows imported memory and without file-mapped weights. *)

From stdpp Require Import pretty.
From S2P Require Import Prelude DataTypes QuantParams QnnTensor ModelWrapper Memory TensorInfo GraphIO Power EpOptions.
Local Open Scope Z_scope.

(** ** The QNN library *)

Inductive QnnContext_Config :=
| CONTEXT_PRIORITY (p : ContextPriority)
| REGISTER_MULTI_CONTEXTS (firstGroupHandle : option nat) (maxSpillFillBuffer : Z).

Inductive QnnGraph_Config := FP16_CLAMP_OVERFLOW.

(** Handles: a context is a number, a graph an integer; null is [None].  A function that a
    library may not provide is optional. *)
Class QnnGraphApi := {
  api_state : Type;
  graphCreate : api_state → nat → string → api_state * Z * option Z;
  graphRetrieve : api_state → nat → string → api_state * Z * option Z;
  graphFinalize : api_state → Z → api_state * Z;
  graphExecute : api_state → Z → list Qnn_Tensor_t → list Qnn_Tensor_t → api_state * Z;
  graphSetConfig : option (api_state → Z → list QnnGraph_Config → api_state * Z);
  contextCreateFromBinary : option (api_state → list QnnContext_Config → list Z → api_state * Z * nat);
  contextFree : api_state → nat → api_state;
  format_error : Z → string;
  QNN_COMMON_ERROR_INVALID_ARGUMENT : Z;
  QNN_COMMON_ERROR_SYSTEM_COMMUNICATION : Z;
  ssr_error : QNN_COMMON_ERROR_SYSTEM_COMMUNICATION ≠ 0;
  argument_error : QNN_COMMON_ERROR_INVALID_ARGUMENT ≠ 0 ∧
    QNN_COMMON_ERROR_INVALID_ARGUMENT ≠ QNN_COMMON_ERROR_SYSTEM_COMMUNICATION
}.

Definition QNN_GRAPH_NO_ERROR : Z := 0.

(** ** State *)

Record Emitter := Emit { e_context : option nat; e_graph : option Z; e_name : string }.

Record GraphInfo := GInfo {
  gi_name : string;
  gi_graph : option Z;
  gi_context : option nat;
  gi_inputs : list QnnTensorWrapper;
  gi_outputs : list QnnTensorWrapper
}.
Definition ResetHandles (g : GraphInfo) (graph : option Z) (context : option nat) : GraphInfo :=
  GInfo (gi_name g) graph context (gi_inputs g) (gi_outputs g).

Record QnnModel := Model_ {
  graph_info_ : option GraphInfo;
  qnn_graph_emitter_ : Emitter;
  m_graph_inputs_ : GraphInputOutputInfo;
  m_graph_outputs_ : GraphInputOutputInfo;
  qnn_input_infos_ : list QnnTensorInfo;
  qnn_output_infos_ : list QnnTensorInfo;
  context_bin_filepath_ : string;
  max_spill_fill_size_ : Z;
  runtime_graph_configs_ : bool;
  zero_copy_fallback_warned_ : bool
}.
Definition with_infos (m : QnnModel) (i o : list QnnTensorInfo) : QnnModel :=
  Model_ (graph_info_ m) (qnn_graph_emitter_ m) (m_graph_inputs_ m) (m_graph_outputs_ m) i o (context_bin_filepath_ m)
    (max_spill_fill_size_ m) (runtime_graph_configs_ m) (zero_copy_fallback_warned_ m).
Definition with_graph (m : QnnModel) (g : option GraphInfo) (e : Emitter) : QnnModel :=
  Model_ g e (m_graph_inputs_ m) (m_graph_outputs_ m) (qnn_input_infos_ m) (qnn_output_infos_ m) (context_bin_filepath_ m)
    (max_spill_fill_size_ m) (runtime_graph_configs_ m) (zero_copy_fallback_warned_ m).
Definition with_configs (m : QnnModel) (configs : bool) : QnnModel :=
  Model_ (graph_info_ m) (qnn_graph_emitter_ m) (m_graph_inputs_ m) (m_graph_outputs_ m) (qnn_input_infos_ m) (qnn_output_infos_ m)
    (context_bin_filepath_ m) (max_spill_fill_size_ m) configs (zero_copy_fallback_warned_ m).
Definition with_warned (m : QnnModel) : QnnModel :=
  Model_ (graph_info_ m) (qnn_graph_emitter_ m) (m_graph_inputs_ m) (m_graph_outputs_ m) (qnn_input_infos_ m) (qnn_output_infos_ m)
    (context_bin_filepath_ m) (max_spill_fill_size_ m) (runtime_graph_configs_ m) true.

Section Execution.
Context `{SafeInt} `{RpcMem} `{QnnMem} `{QnnGraphApi}.

(** The backend manager.  [context_map_] is the table of memory handles by context. *)
Record backend := Backend {
  memory : world;
  contexts_ : list nat;
  ep_context_handle_map_ : gmap string nat;
  power : HtpPowerConfigManager;
  per_thread : gmap nat PerThreadHtpPowerConfigs;
  api : api_state
}.
Definition with_api (b : backend) (a : api_state) : backend :=
  Backend (memory b) (contexts_ b) (ep_context_handle_map_ b) (power b) (per_thread b) a.
Definition with_memory (b : backend) (w : world) : backend :=
  Backend w (contexts_ b) (ep_context_handle_map_ b) (power b) (per_thread b) (api b).
Definition with_power (b : backend) (p : HtpPowerConfigManager) : backend :=
  Backend (memory b) (contexts_ b) (ep_context_handle_map_ b) p (per_thread b) (api b).

Definition state : Type := QnnModel * backend.

(** Steps that change the state and end with a value or an error. *)
Definition X (A : Type) : Type := state → state * result A.
Definition xret {A} (a : A) : X A := fun s => (s, Ok a).
Definition xbind {A B} (c : X A) (k : A → X B) : X B := fun s =>
  match c s with (s', Ok a) => k a s' | (s', Err e) => (s', Err e) end.
Definition xlift {A} (r : result A) : X A := fun s => (s, r).
Definition xget : X state := fun s => (s, Ok s).

End Execution.

Notation "'let@' x ':=' c 'in' k" := (xbind c (fun x => k))
  (at level 200, x pattern, c at level 100, k at level 200, right associativity).

Section Operations.
Context `{SafeInt} `{RpcMem} `{QnnMem} `{QnnGraphApi}.

Fixpoint xmap {A B} (f : A → X B) (l : list A) : X (list B) :=
  match l with
  | [] => xret []
  | a :: l => let@ b := f a in let@ r := xmap f l in xret (b :: r)
  end.

(** ** The graph emitter *)

(** Calls of the library with the state of the backend. *)
Definition call {A} (f : api_state → api_state * A) : X A := fun '(m, b) =>
  let '(a, r) := f (api b) in ((m, with_api b a), Ok r).

Definition set_emitter (e : Emitter) : X unit := fun '(m, b) => ((with_graph m (graph_info_ m) e, b), Ok tt).

(** The name is a non-null string; an empty one is rejected. *)
Definition CreateGraph (context : option nat) (n : string) : X unit :=
  match context with
  | None => xlift (Err (EpFail "Invalid Qnn context."))
  | Some c =>
      let@ _ := xlift (return_if (bool_decide (n = "")) "Empty graph name.") in
      let@ s := xget in
      let@ _ := xlift (return_if (bool_decide (is_Some (e_graph (qnn_graph_emitter_ s.1)))) "A QNN emitter already owns a graph.") in
      let@ r := call (fun a => let '(a, status, g) := graphCreate a c n in (a, (status, g))) in
      let@ g := match r with
                | (0, Some g) => xret g
                | _ =>
                    let@ r := call (fun a => let '(a, status, g) := graphRetrieve a c n in (a, (status, g))) in
                    match r with
                    | (0, Some g) => xret g
                    | (status, _) => xlift (Err (EpFail ("Failed to create Qnn graph: " +:+ n +:+ ". " +:+ format_error status)))
                    end
                end in
      set_emitter (Emit (Some c) (Some g) n)
  end.

Definition Emitter_RetrieveGraph (context : option nat) (n : string) : X unit :=
  match context with
  | None => xlift (Err (EpFail "Invalid QNN context."))
  | Some c =>
      let@ _ := xlift (return_if (bool_decide (n = "")) "Empty QNN graph name.") in
      let@ r := call (fun a => let '(a, status, g) := graphRetrieve a c n in (a, (status, g))) in
      match r with
      | (0, Some g) => set_emitter (Emit (Some c) (Some g) n)
      | (status, _) => xlift (Err (EpFail ("Failed to retrieve QNN graph: " +:+ n +:+ ". " +:+ format_error status)))
      end
  end.

(** The graph the emitter owns; without one the operation fails. *)
Definition owned_graph : X Z :=
  let@ s := xget in
  xlift (match e_graph (qnn_graph_emitter_ s.1) with Some g => Ok g | None => Err (EpFail "QNN graph is not initialized.") end).

Definition Finalize : X unit :=
  let@ g := owned_graph in
  let@ status := call (fun a => graphFinalize a g) in
  xlift (return_if (negb (status =? QNN_GRAPH_NO_ERROR)) ("Failed to finalize QNN graph. " +:+ format_error status)).

Definition Execute (inputs outputs : list Qnn_Tensor_t) : X Z :=
  let@ s := xget in
  match e_graph (qnn_graph_emitter_ s.1) with
  | None => xret QNN_COMMON_ERROR_INVALID_ARGUMENT
  | Some g => call (fun a => graphExecute a g inputs outputs)
  end.

Definition SetConfig (graph_configs : list QnnGraph_Config) : X unit :=
  let@ g := owned_graph in
  match graphSetConfig with
  | None => xlift (Err (EpFail "Invalid function pointer for graphSetConfig; cannot apply runtime graph configs."))
  | Some set_config =>
      let@ s := xget in
      let@ status := call (fun a => set_config a g graph_configs) in
      xlift (return_if (negb (status =? QNN_SUCCESS))
        ("Failed to apply runtime graph configs for graph: " +:+ e_name (qnn_graph_emitter_ s.1) +:+ ". " +:+ format_error status))
  end.

(** ** Context handles *)

Definition HasContextHandle (b : backend) (c : option nat) : bool :=
  match c with Some c => bool_decide (is_Some (mem_handles_ (memory b) !! c)) | None => false end.

Definition GetQnnContext (b : backend) (index : nat) : result nat :=
  match contexts_ b !! index with Some c => Ok c | None => Err (Throw "No valid QNN context!") end.

(** The record of the context unregisters its memory handles and frees the context. *)
Definition ReleaseSpecificContextHandle (old_context : option nat) : X unit := fun '(m, b) =>
  match old_context with
  | None => ((m, b), Ok tt)
  | Some c =>
      let a := if HasContextHandle b (Some c) then contextFree (api b) c else api b in
      ((m, Backend (DestroyContext (memory b) c) (filter (fun x => x ≠ c) (contexts_ b))
              (filter (fun p => p.2 ≠ c) (ep_context_handle_map_ b)) (power b) (per_thread b) a), Ok tt)
  end.

Definition AddQnnContextHandle_ (c : nat) : X unit := fun '(m, b) =>
  match AddQnnContextHandle (memory b) c with
  | (w, Some e) => ((m, with_memory b w), Err e)
  | (w, None) =>
      ((m, Backend w (contexts_ b ++ [c]) (ep_context_handle_map_ b) (power b) (per_thread b) (api b)), Ok tt)
  end.

(** Files and the application's read callback. *)
Record EpContextIo := ContextIo {
  read_callback : option (string → result (list Z));
  filename : string → string;
  fs_exists : string → bool;
  fs_size : string → option Z;
  fs_read : string → Z → option (list Z)
}.

Definition GetFileSizeIfValid (io : EpContextIo) (filepath : string) : result Z :=
  let* _ := return_if (negb (fs_exists io filepath)) ("Context binary does not exist: " +:+ filepath) in
  match fs_size io filepath with
  | None => Err (EpFail ("Failed to retrieve size of file: " +:+ filepath))
  | Some n =>
      let* _ := return_if (n =? 0) ("File is empty: " +:+ filepath) in
      let* _ := return_if (2 ^ 64 - 1 <? n) ("File (" +:+ filepath +:+ ") file size exceeds maximum value of size_t") in
      Ok n
  end.

Definition ReadContextBinIfValid (io : EpContextIo) (filepath : string) : result (list Z) :=
  match read_callback io with
  | Some read => read (filename io filepath)
  | None =>
      let* buffer_size := GetFileSizeIfValid io filepath in
      match fs_read io filepath buffer_size with
      | Some bytes => Ok bytes
      | None => Err (EpFail "Failed to read contents from cached context file.")
      end
  end.

Definition SetQnnContextConfig (p : ContextPriority) : result QnnContext_Config :=
  match p with PRIO_UNDEFINED => Err (EpFail "Invalid Qnn context priority.") | _ => Ok (CONTEXT_PRIORITY p) end.

Definition BuildContextBinaryConfigs (priority : ContextPriority) (max_spill_fill_size : Z) (first_group_handle : option nat)
  : result (list QnnContext_Config) :=
  let* priority_cfg := SetQnnContextConfig priority in
  Ok (priority_cfg :: (if 0 <? max_spill_fill_size then [REGISTER_MULTI_CONTEXTS first_group_handle max_spill_fill_size] else [])).

(** The binary is read from the file; [bin_buffer] is null for a reload. *)
Definition CreateContextHandleFromBinary (io : EpContextIo) (configs : list QnnContext_Config) (bin_buffer : option (list Z))
  (filepath : string) : X nat :=
  match contextCreateFromBinary with
  | None => xlift (Err (EpFail "Invalid function pointer for contextCreateFromBinary."))
  | Some create =>
      let@ bytes := match bin_buffer with Some b => xret b | None => xlift (ReadContextBinIfValid io filepath) end in
      let@ r := call (fun a => let '(a, rt, c) := create a configs bytes in (a, (rt, c))) in
      let '(rt, c) := r in
      let@ _ := xlift (return_if (negb (rt =? QNN_SUCCESS)) ("contextCreateFromBinary failed. Error: " +:+ pretty rt)) in
      xret c
  end.

Definition ReloadContextForSSR (io : EpContextIo) (priority : ContextPriority) (filepath : string) (max_spill_fill_size : Z) : X nat :=
  let@ configs := xlift (BuildContextBinaryConfigs priority max_spill_fill_size None) in
  let@ c := CreateContextHandleFromBinary io configs None filepath in
  let@ _ := AddQnnContextHandle_ c in
  xret c.

(** ** Set-up and configuration *)

(** The settings of the build and of the session. *)
Record session := Session {
  qnn_backend_type_ : QnnBackendType;
  qnn_allocator_type_ : QnnAllocatorType;
  context_priority_ : ContextPriority;
  fp16_clamp_overflow_available : bool;
  io_dispatch : EpContextIo;
  infra : HtpPowerConfigManager → infra_answer
}.
Variable env : session.

(** A status is reported with the name of the graph; an exception goes on. *)
Definition report (prefix : string) (r : result unit) : result unit :=
  match r with Err (EpFail msg) => Err (EpFail (prefix +:+ msg)) | r => r end.

(** [graph_info_->...] *)
Definition graph_info : X GraphInfo := fun s =>
  (s, match graph_info_ s.1 with Some g => Ok g | None => Err Trap end).

Definition SetupQnnInputOutput : X unit :=
  let@ g := graph_info in
  let@ _ := fun '(m, b) =>
    let (infos, r) := SetupTensors (qnn_backend_type_ env) (m_graph_inputs_ m) (qnn_input_infos_ m) (gi_inputs g) true in
    ((with_infos m infos (qnn_output_infos_ m), b),
     report ("Failed to setup QNN input tensors for graph: " +:+ gi_name g +:+ ". ") r) in
  fun '(m, b) =>
    let (infos, r) := SetupTensors (qnn_backend_type_ env) (m_graph_outputs_ m) (qnn_output_infos_ m) (gi_outputs g) false in
    ((with_infos m (qnn_input_infos_ m) infos, b),
     report ("Failed to setup QNN output tensors for graph: " +:+ gi_name g +:+ ". ") r).

(** [configs] is [enable_htp_fp16_clamp_overflow], the one setting that can be applied later. *)
Definition runtime_configs (configs : bool) : list QnnGraph_Config :=
  if fp16_clamp_overflow_available env && configs then [FP16_CLAMP_OVERFLOW] else [].

Definition ApplyRuntimeGraphConfigs (configs : bool) : X unit :=
  let@ _ := fun '(m, b) => ((with_configs m configs, b), Ok tt) in
  let@ s := xget in
  if negb (bool_decide (qnn_backend_type_ env = HTP)) || bool_decide (graph_info_ s.1 = None :> option GraphInfo) then xret tt
  else
  match runtime_configs configs with
  | [] => xret tt
  | graph_configs => SetConfig graph_configs
  end.

(** [QnnModel::RetrieveGraph] *)
Definition RetrieveGraph (g : GraphInfo) (context : option nat) : X GraphInfo :=
  let@ _ := Emitter_RetrieveGraph context (gi_name g) in
  let@ s := xget in
  xret (ResetHandles g (e_graph (qnn_graph_emitter_ s.1)) (e_context (qnn_graph_emitter_ s.1))).

Definition set_graph_info (g : GraphInfo) : X unit := fun '(m, b) => ((with_graph m (Some g) (qnn_graph_emitter_ m), b), Ok tt).

Definition FinalizeGraphs : X unit := let@ _ := graph_info in Finalize.

(** ** Graphs of a context binary *)

(** [QnnSystemContext_GraphInfo_t]: the three versions have the members that are read. *)
Record SysGraphInfo := SysGraph {
  sys_version : Z;
  sys_graphName : option string;
  sys_graphInputs : option (list Qnn_Tensor_t);
  sys_graphOutputs : option (list Qnn_Tensor_t)
}.

Definition DeserializeGraphInfoFromBinaryInfo (QNN_TENSOR_INIT : Qnn_Tensor_t) (info : SysGraphInfo) (context : option nat) : X unit :=
  let@ _ := xlift (return_if_not ((1 <=? sys_version info) && (sys_version info <=? 3)) "Unsupported context graph info version.") in
  let@ graph_name := xlift (match sys_graphName info with Some n => Ok n | None => Err (EpFail "Context graph name is null.") end) in
  let@ inputs := xlift (match sys_graphInputs info with
    | Some l => Ok l | None => Err (EpFail "Graph from cached context doesn't have any inputs.") end) in
  let@ outputs := xlift (match sys_graphOutputs info with
    | Some l => Ok l | None => Err (EpFail "Graph from cached context doesn't have any outputs.") end) in
  let@ input_wrappers := xlift (mapM_res (InitTensor (default_tensor_wrapper QNN_TENSOR_INIT)) inputs) in
  let@ output_wrappers := xlift (mapM_res (InitTensor (default_tensor_wrapper QNN_TENSOR_INIT)) outputs) in
  let@ g := RetrieveGraph (GInfo graph_name None None input_wrappers output_wrappers) context in
  set_graph_info g.

(** ** Recovery *)

Definition RecoverFromSSR : X unit :=
  let@ g := graph_info in
  let old_context := gi_context g in
  let@ _ := fun '(m, b) => ((with_infos m [] [], b), Ok tt) in
  let@ s := xget in
  let@ new_context :=
    if HasContextHandle s.2 old_context then
      let@ _ := ReleaseSpecificContextHandle old_context in
      ReloadContextForSSR (io_dispatch env) (context_priority_ env) (context_bin_filepath_ s.1) (max_spill_fill_size_ s.1)
    else xlift (GetQnnContext s.2 0) in
  let@ g := RetrieveGraph g (Some new_context) in
  let@ _ := set_graph_info g in
  let@ _ := SetupQnnInputOutput in
  let@ s := xget in
  ApplyRuntimeGraphConfigs (runtime_graph_configs_ s.1).

(** ** Binding *)

Inductive device_type : Set := DEVICE_CPU | DEVICE_GPU | DEVICE_NPU.
Inductive device_memory : Set := MEM_DEFAULT | MEM_HOST_ACCESSIBLE.

(** A tensor of the kernel context as the C API answers: element count and type (a failing
    call is [None]), memory, address. *)
Record OrtTensor := Ort_Tensor {
  ot_count : option Z;
  ot_type : option ONNXTensorElementDataType;
  ot_memory : result (device_type * device_memory);
  ot_data : result Z
}.

(** The kernel context of one run, and what the profiler answers. *)
Record kernel := Kernel {
  input_count : result nat;
  output_count : result nat;
  GetInput : nat → result OrtTensor;
  GetOutput : nat → list Z → result OrtTensor;
  profiling_scope : result bool;
  extract_profile : result unit;
  queued_for_ort : bool;
  thread_id : nat
}.

Definition TensorDataSize (t : OrtTensor) : result Z :=
  match ot_count t, ot_type t with
  | Some length_, Some element_type =>
      let* element_size := GetElementSizeByType_onnx element_type in Ok (u64 (element_size * length_))
  | _, _ => Ok 0
  end.

Definition uses_shared_memory (mem : device_type * device_memory) : bool :=
  match mem with (DEVICE_CPU, MEM_HOST_ACCESSIBLE) => true | _ => false end.
Definition uses_imported_memory (mem : device_type * device_memory) : bool :=
  match mem with (DEVICE_GPU, MEM_DEFAULT) => true | _ => false end.

Definition BindQnnTensorMemoryToOrtValueMemory (mem : device_type * device_memory) (ort_value_data ort_value_data_size : Z)
  (qnn_context : option nat) (t : Qnn_Tensor_t) : X Qnn_Tensor_t :=
  let@ s := xget in
  let allocator := qnn_allocator_type_ env in
  let has_matching_shared_allocation := IsHtpSharedMemoryAllocator allocator && IsAllocationTracked (memory s.2) ort_value_data in
  let can_use_shared_memory := uses_shared_memory mem && has_matching_shared_allocation in
  let@ _ := xlift (return_if (uses_imported_memory mem) "GPU DEFAULT memory is not a registered imported memory handle.") in
  if can_use_shared_memory then
    let@ handle := match qnn_context with
      | None => xlift (Err (EpFail "QNN context not found."))
      | Some c => fun '(m, b) =>
          let (w, r) := GetOrRegisterContextMemHandle (memory b) c allocator ort_value_data t in ((m, with_memory b w), r)
      end in
    let@ t := xlift (SetQnnTensorMemType t TENSORMEMTYPE_MEMHANDLE) in
    xlift (SetQnnTensorMemHandle t (PHandle handle))
  else
    let@ t := xlift (SetQnnTensorMemType t TENSORMEMTYPE_RAW) in
    let@ t := xlift (SetQnnTensorClientBuf_ptr t (PHandle ort_value_data) ort_value_data_size) in
    let@ _ := fun '(m, b) =>
      if negb (zero_copy_fallback_warned_ m) && (uses_shared_memory mem || negb (bool_decide (allocator = ALLOC_NONE)))
      then ((with_warned m, b), Ok tt) else ((m, b), Ok tt) in
    xret t.

(** The part that is the same for inputs and outputs. *)
Definition bind_tensor (msg : string) (info : QnnTensorInfo) (w : QnnTensorWrapper) (t : OrtTensor) : X Qnn_Tensor_t :=
  let@ ort_tensor_size := xlift (TensorDataSize t) in
  let@ _ := xlift (return_if_not (tensor_byte_size info =? ort_tensor_size) msg) in
  let@ mem := xlift (ot_memory t) in
  let@ raw_data := xlift (ot_data t) in
  let@ g := graph_info in
  BindQnnTensorMemoryToOrtValueMemory mem raw_data (tensor_byte_size info) (gi_context g) (qnn_tensor_ w).

(** [qnn_input_info.tensor_wrapper->...] *)
Definition wrapper_of (info : QnnTensorInfo) : X QnnTensorWrapper :=
  xlift (match tensor_wrapper info with Some w => Ok w | None => Err Trap end).

Definition bind_input (k : kernel) (info : QnnTensorInfo) : X Qnn_Tensor_t :=
  let@ w := wrapper_of info in
  let@ t := xlift (GetInput k (ort_index info)) in
  bind_tensor "ORT Tensor data size does not match QNN tensor data size." info w t.

Definition bind_output (k : kernel) (info : QnnTensorInfo) : X Qnn_Tensor_t :=
  let@ w := wrapper_of info in
  let@ s := xget in
  let@ ort_output_info := xlift (match GetOutputInfo (m_graph_outputs_ s.1) (tensor_name_ w) with
    | Some i => Ok i | None => Err Trap end) in
  let@ t := xlift (GetOutput k (ort_index info) (shape_ ort_output_info)) in
  bind_tensor "ORT Tensor data size does not match QNN tensor data size" info w t.

(** ** Execution *)

Definition set_power (k : kernel) (pre_run : bool) : X unit := fun '(m, b) =>
  let (p, r) := SetPerThreadHtpPowerConfigs (infra env (power b)) (per_thread b) (thread_id k) pre_run (power b) in
  ((m, with_power b p), r).

(** The relax after the run: a failing status is logged. *)
Definition relax (k : kernel) : X unit := fun s =>
  match set_power k false s with (s', Err (EpFail _)) => (s', Ok tt) | r => r end.

(** The scope guard relaxes also when the pre-run call fails. *)
Definition boosted_execute (k : kernel) (inputs outputs : list Qnn_Tensor_t) : X Z := fun s =>
  match set_power k true s with
  | (s1, Err e) =>
      match relax k s1 with
      | (s2, Ok _) => (s2, Err e)
      | (s2, Err e') => (s2, Err e')
      end
  | (s1, Ok _) => (let@ status := Execute inputs outputs in let@ _ := relax k in xret status) s1
  end.

Definition BindAndExecuteGraph (k : kernel) : X Z :=
  let@ s := xget in
  let@ qnn_inputs := xmap (bind_input k) (qnn_input_infos_ s.1) in
  let@ qnn_outputs := xmap (bind_output k) (qnn_output_infos_ s.1) in
  let@ _ := graph_info in
  let@ active := xlift (profiling_scope k) in
  let@ execute_status := boosted_execute k qnn_inputs qnn_outputs in
  let@ _ := xlift (if negb (queued_for_ort k) && active then extract_profile k else Ok tt) in
  xret execute_status.

Definition ExecuteGraph (k : kernel) : X unit :=
  let@ num_inputs := xlift (input_count k) in
  let@ num_outputs := xlift (output_count k) in
  let@ s := xget in
  let@ _ := xlift (return_if_not (length (qnn_input_infos_ s.1) <=? num_inputs)%nat "Inconsistent input sizes") in
  let@ _ := xlift (return_if_not (length (qnn_output_infos_ s.1) =? num_outputs)%nat "Inconsistent output sizes") in
  let has_file := negb (bool_decide (context_bin_filepath_ s.1 = "")) in
  let@ _ :=
    if has_file then
      let@ g := graph_info in
      if negb (HasContextHandle s.2 (gi_context g)) then RecoverFromSSR else xret tt
    else xret tt in
  let@ execute_status := BindAndExecuteGraph k in
  if execute_status =? QNN_COMMON_ERROR_SYSTEM_COMMUNICATION then
    if has_file then
      let@ _ := RecoverFromSSR in
      let@ execute_status := BindAndExecuteGraph k in
      if execute_status =? QNN_COMMON_ERROR_SYSTEM_COMMUNICATION
      then xlift (Err (EpFail "NPU crashed again after SSR recovery."))
      else xret tt
    else xlift (Err (EpFail ("NPU crashed. SSR detected. Recovery not supported" +:+
      " (no context binary on disk - JIT or embed_mode=1). Error code: " +:+ pretty execute_status)))
  else if negb (execute_status =? QNN_GRAPH_NO_ERROR)
  then xlift (Err (EpFail ("QNN graph execute error. " +:+ format_error execute_status)))
  else xret tt.

(** ** Start and end of a run of the session *)

Definition with_per_thread (b : backend) (map : gmap nat PerThreadHtpPowerConfigs) : backend :=
  Backend (memory b) (contexts_ b) (ep_context_handle_map_ b) (power b) map (api b).

Definition has_power_configs : bool := bool_decide (qnn_backend_type_ env = HTP) || bool_decide (qnn_backend_type_ env = DSP).

(** [id] is the power configuration of the session, if it has one; the LoRA option is left out. *)
Definition OnRunStartImpl (prepare_only : bool) (d : power_defaults) (o : run_options) (id : option Z) (thread_id : nat) : X unit :=
  if prepare_only || negb has_power_configs then xret tt
  else match id with
  | None => xret tt
  | Some id => fun '(m, b) =>
      match AddPerThreadHtpPowerConfigMapping (per_thread b) thread_id (GetPerThreadHtpPowerConfigs d o id) with
      | Ok map => ((m, with_per_thread b map), Ok tt)
      | Err e => ((m, b), Err e)
      end
  end.

Definition OnRunEndImpl (prepare_only : bool) (id : option Z) (thread_id : nat) : X unit :=
  if prepare_only || negb has_power_configs then xret tt
  else match id with
  | None => xret tt
  | Some _ => fun '(m, b) => ((m, with_per_thread b (RemovePerThreadHtpPowerConfigMapping (per_thread b) thread_id)), Ok tt)
  end.

End Operations.

(** ** Steps *)

Section Facts.
Context `{SafeInt} `{RpcMem} `{QnnMem} `{QnnGraphApi}.
Variable env : session.

Lemma xbind_Ok {A B} (c : X A) (k : A → X B) s s' b :
  xbind c k s = (s', Ok b) → ∃ s1 a, c s = (s1, Ok a) ∧ k a s1 = (s', Ok b).
Proof. unfold xbind. destruct (c s) as [s1 [a|]]; [eauto|done]. Qed.

Lemma xlift_Ok {A} (r : result A) s s' a : xlift r s = (s', Ok a) → s' = s ∧ r = Ok a.
Proof. intros [= <- ->]. done. Qed.

(** What binding changes: the memory handles, and the note that a warning was given. *)
Definition rebinds (s s' : state) : Prop :=
  (s'.1 = s.1 ∨ s'.1 = with_warned s.1) ∧ s'.2 = with_memory s.2 (memory s'.2).

Lemma rebinds_refl s : rebinds s s.
Proof. split; [by left|]. by destruct s as [m []]. Qed.

Lemma rebinds_trans s1 s2 s3 : rebinds s1 s2 → rebinds s2 s3 → rebinds s1 s3.
Proof.
  intros [Hm1 Hb1] [Hm2 Hb2]. split.
  - destruct Hm1 as [E1|E1], Hm2 as [E2|E2]; rewrite E2, E1; auto.
  - rewrite Hb2 at 1. rewrite Hb1. done.
Qed.

(** The parts of the state that are the same after binding. *)
Lemma rebinds_same s s' : rebinds s s' →
  graph_info_ s'.1 = graph_info_ s.1 ∧ qnn_graph_emitter_ s'.1 = qnn_graph_emitter_ s.1 ∧
  m_graph_outputs_ s'.1 = m_graph_outputs_ s.1 ∧ qnn_output_infos_ s'.1 = qnn_output_infos_ s.1 ∧
  power s'.2 = power s.2 ∧ per_thread s'.2 = per_thread s.2 ∧ api s'.2 = api s.2 ∧ contexts_ s'.2 = contexts_ s.2.
Proof. intros [[E|E] Eb]; rewrite E, Eb; done. Qed.

(** A QNN tensor that stands for the memory of a value: the tensor of the wrapper with either
    the address and size of the value, or the handle that the address was registered with. *)
Definition bound_memory (c : option nat) (addr n : Z) (t0 t : Qnn_Tensor_t) : Prop :=
  (∃ t1, SetQnnTensorMemType t0 TENSORMEMTYPE_RAW = Ok t1 ∧ SetQnnTensorClientBuf_ptr t1 (PHandle addr) n = Ok t) ∨
  (∃ ctx w w' h t1, c = Some ctx ∧ GetOrRegisterContextMemHandle w ctx (qnn_allocator_type_ env) addr t0 = (w', Ok h) ∧
     SetQnnTensorMemType t0 TENSORMEMTYPE_MEMHANDLE = Ok t1 ∧ SetQnnTensorMemHandle t1 (PHandle h) = Ok t).

Lemma bind_memory_spec mem addr n c t s s' t' :
  BindQnnTensorMemoryToOrtValueMemory env mem addr n c t s = (s', Ok t') →
  rebinds s s' ∧ bound_memory c addr n t t' ∧ uses_imported_memory mem = false.
Proof.
  unfold BindQnnTensorMemoryToOrtValueMemory. intros E.
  apply xbind_Ok in E as (s1 & ? & [= <- <-] & E). apply xbind_Ok in E as (s1 & [] & E1 & E). apply xlift_Ok in E1 as [-> Hi].
  apply return_if_Ok in Hi. split_and!; [| |done].
  all: destruct (uses_shared_memory mem && _).
  - apply xbind_Ok in E as (s1 & h & E1 & E). apply xbind_Ok in E as (s2 & t1 & E2 & E). apply xlift_Ok in E2 as [-> E2].
    apply xlift_Ok in E as [-> E]. destruct c as [ctx|]; [|done]. destruct s as [m b].
    destruct (GetOrRegisterContextMemHandle _ _ _ _ _) as [w r]. injection E1 as <- ->. split; [by left|done].
  - apply xbind_Ok in E as (s1 & t1 & E1 & E). apply xlift_Ok in E1 as [-> E1]. apply xbind_Ok in E as (s1 & t2 & E2 & E).
    apply xlift_Ok in E2 as [-> E2]. apply xbind_Ok in E as (s2 & [] & E3 & E). injection E as <- <-. destruct s as [m b].
    destruct (negb _ && _); injection E3 as <-; (split; [auto|by destruct b]).
  - apply xbind_Ok in E as (s1 & h & E1 & E). apply xbind_Ok in E as (s2 & t1 & E2 & E). apply xlift_Ok in E2 as [-> E2].
    apply xlift_Ok in E as [-> E]. destruct c as [ctx|]; [|done]. destruct s as [m b].
    destruct (GetOrRegisterContextMemHandle _ _ _ _ _) as [w r] eqn:Er. injection E1 as <- ->. right. eauto 10.
  - apply xbind_Ok in E as (s1 & t1 & E1 & E). apply xlift_Ok in E1 as [-> E1]. apply xbind_Ok in E as (s1 & t2 & E2 & E).
    apply xlift_Ok in E2 as [-> E2]. apply xbind_Ok in E as (s2 & [] & E3 & E). injection E as <- <-. left. eauto.
Qed.

(** What a row of the table has become: the value of the kernel context at its index, of the
    same size, is the memory of the tensor. *)
Definition bound_to (value : result OrtTensor) (c : option nat) (info : QnnTensorInfo) (t : Qnn_Tensor_t) : Prop :=
  ∃ w ot mem addr, tensor_wrapper info = Some w ∧ value = Ok ot ∧ TensorDataSize ot = Ok (tensor_byte_size info) ∧
    ot_memory ot = Ok mem ∧ uses_imported_memory mem = false ∧ ot_data ot = Ok addr ∧
    bound_memory c addr (tensor_byte_size info) (qnn_tensor_ w) t.

Lemma bind_tensor_spec msg info w ot s s' t : tensor_wrapper info = Some w → bind_tensor env msg info w ot s = (s', Ok t) →
  rebinds s s' ∧ ∃ g, graph_info_ s.1 = Some g ∧ bound_to (Ok ot) (gi_context g) info t.
Proof.
  unfold bind_tensor. intros Hw E. apply xbind_Ok in E as (s1 & n & E1 & E). apply xlift_Ok in E1 as [-> En].
  apply xbind_Ok in E as (s1 & [] & E1 & E). apply xlift_Ok in E1 as [-> Hn]. apply return_if_not_Ok, Z.eqb_eq in Hn.
  apply xbind_Ok in E as (s1 & mem & E1 & E). apply xlift_Ok in E1 as [-> Em].
  apply xbind_Ok in E as (s1 & addr & E1 & E). apply xlift_Ok in E1 as [-> Ea].
  apply xbind_Ok in E as (s1 & g & E1 & E). unfold graph_info in E1. destruct (graph_info_ s.1) as [g'|] eqn:Eg; [|done].
  injection E1 as <- <-. apply bind_memory_spec in E as (Hr & Hb & Hi). split; [done|]. exists g'. split; [done|].
  exists w, ot, mem, addr. rewrite Hn. rewrite Hn in Hb. done.
Qed.

Lemma bind_input_spec k info s s' t : bind_input env k info s = (s', Ok t) →
  rebinds s s' ∧ ∃ g, graph_info_ s.1 = Some g ∧ bound_to (GetInput k (ort_index info)) (gi_context g) info t.
Proof.
  unfold bind_input, wrapper_of. intros E. apply xbind_Ok in E as (s1 & w & E1 & E). apply xlift_Ok in E1 as [-> Ew].
  apply xbind_Ok in E as (s1 & ot & E1 & E). apply xlift_Ok in E1 as [-> Eo].
  destruct (tensor_wrapper info) as [w'|] eqn:Etw; [|done]. injection Ew as ->. rewrite Eo. by apply bind_tensor_spec in E.
Qed.

Lemma bind_output_spec k info s s' t : bind_output env k info s = (s', Ok t) →
  rebinds s s' ∧ ∃ g w i, graph_info_ s.1 = Some g ∧ tensor_wrapper info = Some w ∧
    GetOutputInfo (m_graph_outputs_ s.1) (tensor_name_ w) = Some i ∧
    bound_to (GetOutput k (ort_index info) (shape_ i)) (gi_context g) info t.
Proof.
  unfold bind_output, wrapper_of. intros E. apply xbind_Ok in E as (s1 & w & E1 & E). apply xlift_Ok in E1 as [-> Ew].
  apply xbind_Ok in E as (s1 & ? & [= <- <-] & E). apply xbind_Ok in E as (s1 & i & E1 & E). apply xlift_Ok in E1 as [-> Ei].
  apply xbind_Ok in E as (s1 & ot & E1 & E). apply xlift_Ok in E1 as [-> Eo].
  destruct (tensor_wrapper info) as [w'|] eqn:Etw; [|done]. injection Ew as ->.
  destruct (GetOutputInfo _ _) as [i'|] eqn:Eg; [|done]. injection Ei as ->.
  apply bind_tensor_spec in E as [Hr (g & Hg & Hb)]; [|done]. split; [done|]. exists g, w, i. by rewrite Eo.
Qed.

(** A row that is bound, in any state that binding leads to. *)
Lemma xmap_bind (f : QnnTensorInfo → X Qnn_Tensor_t) (P : QnnTensorInfo → Qnn_Tensor_t → Prop) s0 l :
  (∀ info s s' t, rebinds s0 s → f info s = (s', Ok t) → rebinds s s' ∧ P info t) →
  ∀ s s' ts, rebinds s0 s → xmap f l s = (s', Ok ts) → rebinds s0 s' ∧ Forall2 P l ts.
Proof.
  intros Hf. induction l as [|info l IH]; intros s s' ts Hs E.
  - injection E as <- <-. by split.
  - cbn in E. apply xbind_Ok in E as (s1 & t & E1 & E). apply xbind_Ok in E as (s2 & ts' & E2 & E). injection E as <- <-.
    destruct (Hf info s s1 t Hs E1) as [Hr Hp]. assert (rebinds s0 s1) as Hs1 by (by eapply rebinds_trans).
    destruct (IH s1 s2 ts' Hs1 E2). split; [done|]. by constructor.
Qed.

(** ** The call of [graphExecute] *)

Lemma set_power_same k pre s : let s' := (set_power env k pre s).1 in s'.1 = s.1 ∧ s'.2 = with_power s.2 (power s'.2).
Proof. destruct s as [m b]. unfold set_power. destruct (SetPerThreadHtpPowerConfigs _ _ _ _ _) as [p r]. by destruct b. Qed.

Lemma relax_same k s : let s' := (relax env k s).1 in s'.1 = s.1 ∧ s'.2 = with_power s.2 (power s'.2).
Proof.
  pose proof (set_power_same k false s) as Hs. unfold relax. destruct (set_power env k false s) as [s' [[]|[]]]; exact Hs.
Qed.

(** The answer of the library for the graph of the emitter. *)
Definition graph_answer (s : state) (ins outs : list Qnn_Tensor_t) : Z :=
  match e_graph (qnn_graph_emitter_ s.1) with
  | Some g => (graphExecute (api s.2) g ins outs).2
  | None => QNN_COMMON_ERROR_INVALID_ARGUMENT
  end.

Lemma Execute_spec ins outs s : ∃ a, Execute ins outs s = ((s.1, with_api s.2 a), Ok (graph_answer s ins outs)).
Proof.
  destruct s as [m b]. unfold Execute, graph_answer, xbind, xget, xret, call. cbn.
  destruct (e_graph (qnn_graph_emitter_ m)) as [g|]; [|exists (api b); by destruct b].
  destruct (graphExecute (api b) g ins outs) as [a st]. by exists a.
Qed.

Lemma boosted_execute_spec k ins outs s s' st : boosted_execute env k ins outs s = (s', Ok st) →
  s'.1 = s.1 ∧ st = graph_answer s ins outs.
Proof.
  unfold boosted_execute. pose proof (set_power_same k true s) as [Hm Hb]. destruct (set_power env k true s) as [s1 [u|e]]; cbn in Hm, Hb.
  2:{ by destruct (relax env k s1) as [s2 []]. }
  intros E. apply xbind_Ok in E as (s2 & st' & E2 & E). apply xbind_Ok in E as (s3 & [] & E3 & E). injection E as <- <-.
  destruct (Execute_spec ins outs s1) as [a Ex]. rewrite Ex in E2. injection E2 as <- <-.
  pose proof (relax_same k (s1.1, with_api s1.2 a)) as [Hm3 _]. rewrite E3 in Hm3. cbn in Hm3. split; [congruence|].
  unfold graph_answer. by rewrite Hm, Hb.
Qed.

(** C18: when a run reaches the library, the tensors handed to [graphExecute] are those of the
    tables, in order, each with the memory of the value that the kernel context has at the
    position recorded for it (an output is requested with the shape found for its name), checked
    to be of the size of the QNN tensor; GPU memory is never taken; the status is the answer of
    the library, or an argument error when there is no graph, and the model is left as it was up
    to the note that a warning was given. *)
Theorem bound_execution k s s' status : BindAndExecuteGraph env k s = (s', Ok status) →
  ∃ g ins outs, graph_info_ s.1 = Some g ∧
    Forall2 (fun info => bound_to (GetInput k (ort_index info)) (gi_context g) info) (qnn_input_infos_ s.1) ins ∧
    Forall2 (fun info t => ∃ w i, tensor_wrapper info = Some w ∧ GetOutputInfo (m_graph_outputs_ s.1) (tensor_name_ w) = Some i ∧
      bound_to (GetOutput k (ort_index info) (shape_ i)) (gi_context g) info t) (qnn_output_infos_ s.1) outs ∧
    status = graph_answer s ins outs ∧ (s'.1 = s.1 ∨ s'.1 = with_warned s.1).
Proof.
  unfold BindAndExecuteGraph. intros E. apply xbind_Ok in E as (s1 & ? & [= <- <-] & E).
  apply xbind_Ok in E as (s1 & ins & Ei & E). apply xbind_Ok in E as (s2 & outs & Eo & E).
  apply xbind_Ok in E as (s3 & g & Eg & E). unfold graph_info in Eg.
  apply xbind_Ok in E as (s4 & act & Ea & E). apply xlift_Ok in Ea as [-> Ea].
  apply xbind_Ok in E as (s5 & st & Ex & E). apply xbind_Ok in E as (s6 & [] & Ep & E). apply xlift_Ok in Ep as [-> _]. injection E as <- <-.
  destruct (graph_info_ s2.1) as [g'|] eqn:Eg2; [|done]. injection Eg as <- <-.
  eapply (xmap_bind _ (fun info t => ∃ g, graph_info_ s.1 = Some g ∧ bound_to (GetInput k (ort_index info)) (gi_context g) info t) s) in Ei
    as [Hr1 Hi]; [| |apply rebinds_refl].
  2:{ intros info sa sb t Hs Hb. apply bind_input_spec in Hb as [Hr (gg & Hg & Hb)]. split; [done|]. exists gg.
      destruct (rebinds_same _ _ Hs) as (Hgi & _). by rewrite <- Hgi. }
  eapply (xmap_bind _ (fun info t => ∃ g w i, graph_info_ s.1 = Some g ∧ tensor_wrapper info = Some w ∧
      GetOutputInfo (m_graph_outputs_ s.1) (tensor_name_ w) = Some i ∧
      bound_to (GetOutput k (ort_index info) (shape_ i)) (gi_context g) info t) s) in Eo as [Hr2 Ho]; [| |exact Hr1].
  2:{ intros info sa sb t Hs Hb. apply bind_output_spec in Hb as [Hr (gg & w & i & Hg & Hw & Hi2 & Hb)]. split; [done|]. exists gg, w, i.
      destruct (rebinds_same _ _ Hs) as (Hgi & _ & Hou & _). by rewrite <- Hgi, <- Hou. }
  destruct (rebinds_same _ _ Hr2) as (Hgi & Hem & _ & _ & _ & _ & Hap & _). rewrite Eg2 in Hgi. symmetry in Hgi.
  apply boosted_execute_spec in Ex as [Hm5 ->].
  exists g', ins, outs. split_and!.
  - done.
  - eapply Forall2_impl; [exact Hi|]. intros info t (gg & Hg & Hb). rewrite Hgi in Hg. by injection Hg as <-.
  - eapply Forall2_impl; [exact Ho|]. intros info t (gg & w & i & Hg & Hw & Hi2 & Hb). rewrite Hgi in Hg. injection Hg as <-. by exists w, i.
  - unfold graph_answer. by rewrite Hem, Hap.
  - rewrite Hm5. apply Hr2.
Qed.

End Facts.

(** ** The count of runs in flight *)

Section PowerBalance.
Context `{SafeInt} `{RpcMem} `{QnnMem} `{QnnGraphApi}.
Variable env : session.

(** Steps that leave the power configuration alone, however they end. *)
Definition keeps_power {A} (c : X A) : Prop :=
  ∀ s, power (c s).1.2 = power s.2 ∧ per_thread (c s).1.2 = per_thread s.2.

Lemma keeps_bind {A B} (c : X A) (k : A → X B) : keeps_power c → (∀ a, keeps_power (k a)) → keeps_power (xbind c k).
Proof.
  intros Hc Hk s. unfold xbind. specialize (Hc s). destruct (c s) as [s1 [a|]]; cbn in *; [|done].
  destruct (Hk a s1) as [-> ->]. done.
Qed.
Lemma keeps_lift {A} (r : result A) : keeps_power (xlift r).
Proof. by intros s. Qed.
Lemma keeps_ret {A} (a : A) : keeps_power (xret a).
Proof. by intros s. Qed.
Lemma keeps_get : keeps_power xget.
Proof. by intros s. Qed.
Lemma keeps_info : keeps_power graph_info.
Proof. by intros s. Qed.
Hint Resolve keeps_lift keeps_ret keeps_get keeps_info : core.

Ltac keeps_steps := repeat lazymatch goal with |- keeps_power (xbind _ _) => apply keeps_bind; [try done|intros ?] end.

Lemma keeps_bind_memory mem addr n c t : keeps_power (BindQnnTensorMemoryToOrtValueMemory env mem addr n c t).
Proof.
  unfold BindQnnTensorMemoryToOrtValueMemory. apply keeps_bind; [done|]. intros s. cbv zeta. apply keeps_bind; [done|]. intros _.
  destruct (uses_shared_memory mem && _); keeps_steps; try done.
  - destruct c; [|done]. intros [m b]. by destruct (GetOrRegisterContextMemHandle _ _ _ _ _).
  - intros [m b]. by destruct (negb _ && _).
Qed.

Lemma keeps_bind_tensor msg info w ot : keeps_power (bind_tensor env msg info w ot).
Proof. unfold bind_tensor. keeps_steps. apply keeps_bind_memory. Qed.

Lemma keeps_map {A B} (f : A → X B) l : (∀ a, keeps_power (f a)) → keeps_power (xmap f l).
Proof.
  intros Hf. induction l as [|a l IH]; [done|]. cbn. apply keeps_bind; [apply Hf|]. intros b. apply keeps_bind; [done|]. by intros.
Qed.

(** The modes that a run starts and ends with: both or neither. *)
Definition start_mode (c : PerThreadHtpPowerConfigs) : option HtpPerformanceMode :=
  match pre_run_perf_mode c with Some m => Some m | None => default_perf_mode c end.
Definition done_mode (c : PerThreadHtpPowerConfigs) : option HtpPerformanceMode :=
  match post_run_perf_mode c with Some m => Some m | None => default_perf_mode c end.

(** The settings of the thread: a mode for the start if and only if there is one for the end,
    the other settings present, and the release timer active for a sustained mode. *)
Definition balanced (s : state) (tid : nat) : Prop :=
  ∀ c, per_thread s.2 !! tid = Some c →
    (is_Some (start_mode c) ↔ is_Some (done_mode c)) ∧ is_Some (pt_rpc_polling_time c) ∧ is_Some (pt_rpc_control_latency c) ∧
    (∀ mode, start_mode c = Some mode ∨ done_mode c = Some mode → sustained mode = true → timer_active_ (power s.2) = true).

Lemma set_power_count k s c mode (pre : bool) :
  per_thread s.2 !! thread_id k = Some c → (if pre then start_mode c else done_mode c) = Some mode →
  is_Some (pt_rpc_polling_time c) → is_Some (pt_rpc_control_latency c) →
  (sustained mode = true → timer_active_ (power s.2) = true) →
  let s' := (set_power env k pre s).1 in
  inflight_run_count_ (power s'.2) = count_run (if pre then RUN_START else RUN_DONE) (inflight_run_count_ (power s.2)) ∧
  timer_active_ (power s'.2) = timer_active_ (power s.2) ∧ per_thread s'.2 = per_thread s.2.
Proof.
  intros Hc Hm [p Hp] [l Hl] Ht. destruct s as [m b]. cbn in *. unfold set_power, SetPerThreadHtpPowerConfigs. rewrite Hc.
  unfold start_mode, done_mode in Hm.
  assert ((match (if pre then pre_run_perf_mode c else post_run_perf_mode c) with Some mode => Some mode | None => default_perf_mode c end)
    = Some mode) as -> by (by destruct pre).
  rewrite Hp, Hl. cbn [value_of].
  match goal with |- context [SetState ?i ?st ?cfg ?p0] =>
    pose proof (set_state_count i st cfg p0 ltac:(exact Ht)) as [H1' H2']; destruct (SetState i st cfg p0) as [p1 r] end.
  cbn in *. done.
Qed.

Lemma set_power_none k s c (pre : bool) :
  per_thread s.2 !! thread_id k = Some c → (if pre then start_mode c else done_mode c) = None →
  set_power env k pre s = (s, Ok tt).
Proof.
  intros Hc Hm. destruct s as [m b]. cbn in *. unfold set_power, SetPerThreadHtpPowerConfigs. rewrite Hc. unfold start_mode, done_mode in Hm.
  assert ((match (if pre then pre_run_perf_mode c else post_run_perf_mode c) with Some mode => Some mode | None => default_perf_mode c end)
    = None) as -> by (by destruct pre). by destruct b.
Qed.

Lemma set_power_absent k s (pre : bool) : per_thread s.2 !! thread_id k = None → set_power env k pre s = (s, Ok tt).
Proof. intros Hc. destruct s as [m b]. cbn in *. unfold set_power, SetPerThreadHtpPowerConfigs. rewrite Hc. by destruct b. Qed.

(** Up to the status, the guard relaxes the state the pre-run call left. *)
Lemma relax_power k s : (relax env k s).1 = (set_power env k false s).1.
Proof. unfold relax. destruct (set_power env k false s) as [s' [[]|[]]]; done. Qed.

Lemma boosted_shape k ins outs s : ∃ a,
  (boosted_execute env k ins outs s).1 = (relax env k (let s1 := (set_power env k true s).1 in (s1.1, with_api s1.2 a))).1.
Proof.
  unfold boosted_execute. destruct (set_power env k true s) as [s1 [u|e]]; cbn.
  - destruct (Execute_spec ins outs s1) as [a Ex]. exists a. unfold xbind. rewrite Ex. by destruct (relax env k _) as [s2 [[]|]].
  - exists (api s1.2). destruct s1 as [m []]. cbn. by destruct (relax env k _) as [s2 []].
Qed.

(** C20: a run leaves the count of runs in flight as it found it, whether binding fails, the
    pre-run call fails, the library fails or all goes well, when the count is not negative and the
    thread has no settings or balanced ones: a mode for the start of a run if and only if there is one
    for its end, both RPC settings present, and an active release timer if one of the modes is
    sustained ([rejected_start_not_harmless] and [run_count_leaks] are cases without these). *)
Theorem run_count_balanced k s : balanced s (thread_id k) → 0 ≤ inflight_run_count_ (power s.2) →
  inflight_run_count_ (power (BindAndExecuteGraph env k s).1.2) = inflight_run_count_ (power s.2).
Proof.
  intros Hbal Hpos. unfold BindAndExecuteGraph.
  assert (∀ A (p : X A) (kk : A → X Z), keeps_power p →
     (∀ a s1, power s1.2 = power s.2 → per_thread s1.2 = per_thread s.2 →
       inflight_run_count_ (power (kk a s1).1.2) = inflight_run_count_ (power s.2)) →
     ∀ s1, power s1.2 = power s.2 → per_thread s1.2 = per_thread s.2 →
     inflight_run_count_ (power (xbind p kk s1).1.2) = inflight_run_count_ (power s.2)) as Hpre.
  { intros A p kk Hp Hk s1 H1' H2'. unfold xbind. specialize (Hp s1). destruct (p s1) as [s2 [a|]]; cbn in *; [apply Hk|]; destruct Hp; congruence. }
  apply Hpre; [apply keeps_get| |done|done]. intros s0 s1 P1 T1.
  apply Hpre; [|clear s1 P1 T1; intros ins s1 P1 T1|done|done].
  { apply keeps_map. intros i. unfold bind_input, wrapper_of. keeps_steps. apply keeps_bind_tensor. }
  apply Hpre; [|clear s1 P1 T1; intros outs s1 P1 T1|done|done].
  { apply keeps_map. intros i. unfold bind_output, wrapper_of. keeps_steps. apply keeps_bind_tensor. }
  apply Hpre; [apply keeps_info|clear s1 P1 T1; intros g s1 P1 T1|done|done].
  apply Hpre; [apply keeps_lift|clear s1 P1 T1; intros act s1 P1 T1|done|done].
  assert (inflight_run_count_ (power (boosted_execute env k ins outs s1).1.2) = inflight_run_count_ (power s.2)) as Hb.
  { destruct (boosted_shape k ins outs s1) as [a ->]. cbv zeta. rewrite relax_power.
    destruct (per_thread s.2 !! thread_id k) as [c|] eqn:Ec.
    - destruct (Hbal c Ec) as (Hiff & Hpo & Hla & Hti). rewrite <- T1 in Ec. destruct (start_mode c) as [ms|] eqn:Es.
      + destruct (proj1 Hiff ltac:(done)) as [md Ed].
        destruct (set_power_count k s1 c ms true Ec Es Hpo Hla) as (C1 & A1 & T2); [rewrite P1; by apply Hti; left|].
        set (s2 := (set_power env k true s1).1) in *.
        destruct (set_power_count k (s2.1, with_api s2.2 a) c md false) as (C2 & _); [cbn; by rewrite T2|done|done|done| |].
        { cbn. rewrite A1, P1. by apply Hti; right. }
        rewrite C2. cbn [power with_api snd]. rewrite C1, P1. unfold count_run.
        destruct (Z.ltb_spec 0 (inflight_run_count_ (power s.2) + 1)); lia.
      + assert (done_mode c = None) as Ed by (destruct (done_mode c); [by destruct (proj2 Hiff ltac:(done))|done]).
        rewrite (set_power_none k s1 c true Ec Es). cbn [fst].
        rewrite (set_power_none k (s1.1, with_api s1.2 a) c false) by done. cbn. by rewrite P1.
    - rewrite <- T1 in Ec. rewrite (set_power_absent k s1 true Ec). cbn [fst].
      rewrite (set_power_absent k (s1.1, with_api s1.2 a) false) by done. cbn. by rewrite P1. }
  unfold xbind. destruct (boosted_execute env k ins outs s1) as [s2 [st|]]; [|done]. cbn in *.
  by destruct (if negb (queued_for_ort k) && act then extract_profile k else Ok tt).
Qed.

End PowerBalance.

(** ** Recovery *)

Section Recovery.
Context `{SafeInt} `{RpcMem} `{QnnMem} `{QnnGraphApi}.
Variable env : session.

(** The vector of contexts lists the tracked ones, each once. *)
Definition contexts_tracked (b : backend) : Prop :=
  NoDup (contexts_ b) ∧ ∀ c, c ∈ contexts_ b ↔ HasContextHandle b (Some c) = true.

Lemma has_context b c : HasContextHandle b (Some c) = true ↔ is_Some (mem_handles_ (memory b) !! c).
Proof. cbn. apply bool_decide_eq_true. Qed.

Lemma destroy_handles w c x : mem_handles_ (DestroyContext w c) !! x = (if decide (x = c) then None else mem_handles_ w !! x).
Proof.
  unfold DestroyContext. destruct (mem_handles_ w !! c) as [h|] eqn:E; cbn.
  - destruct (decide (x = c)) as [->|]; [apply lookup_delete_eq|by apply lookup_delete_ne].
  - destruct (decide (x = c)) as [->|]; done.
Qed.

Lemma release_tracked c m b : contexts_tracked b →
  ∃ b', ReleaseSpecificContextHandle (Some c) (m, b) = ((m, b'), Ok tt) ∧ contexts_tracked b' ∧
    HasContextHandle b' (Some c) = false ∧ (∀ x, x ≠ c → HasContextHandle b' (Some x) = HasContextHandle b (Some x)) ∧
    (HasContextHandle b (Some c) = true → api b' = contextFree (api b) c).
Proof.
  intros [Hnd Hc]. eexists. split; [reflexivity|]. split_and!; [..|by cbn; intros ->].
  - split; [by apply NoDup_filter|]. intros x. cbn [contexts_ memory]. rewrite list_elem_of_filter, Hc, !has_context. cbn [memory].
    rewrite destroy_handles. destruct (decide (x = c)) as [->|]; split; try done; by intros [].
  - cbn. rewrite destroy_handles, decide_True by done. by apply bool_decide_eq_false; intros [].
  - intros x Hx. cbn. by rewrite destroy_handles, decide_False.
Qed.

Lemma add_tracked c m b s' : contexts_tracked b → AddQnnContextHandle_ c (m, b) = (s', Ok tt) →
  s'.1 = m ∧ contexts_tracked s'.2 ∧ HasContextHandle s'.2 (Some c) = true ∧ HasContextHandle b (Some c) = false ∧
  (∀ x, x ≠ c → HasContextHandle s'.2 (Some x) = HasContextHandle b (Some x)).
Proof.
  intros [Hnd Hc]. unfold AddQnnContextHandle_, AddQnnContextHandle. destruct (mem_handles_ (memory b) !! c) as [h|] eqn:E; [done|].
  intros [= <-]. split_and!; [done| | | |].
  - split; cbn [contexts_ fst snd].
    + apply NoDup_app. split_and!; [done| |by repeat constructor; set_solver].
      intros x Hx%Hc ->%list_elem_of_singleton. apply has_context in Hx. rewrite E in Hx. by destruct Hx.
    + intros x. rewrite elem_of_app, list_elem_of_singleton, Hc, !has_context. cbn [memory mem_handles_ with_handles].
      destruct (decide (x = c)) as [->|Hx]; [rewrite lookup_insert_eq, E; naive_solver|rewrite lookup_insert_ne by done; naive_solver].
  - apply has_context. cbn. by rewrite lookup_insert_eq.
  - cbn. rewrite E. by apply bool_decide_eq_false; intros [].
  - intros x Hx. cbn. by rewrite lookup_insert_ne.
Qed.

(** The steps of a recovery that touch neither the contexts nor the tables. *)
Lemma call_spec {A} (f : api_state → api_state * A) s s' a : call f s = (s', Ok a) →
  s'.1 = s.1 ∧ ∃ st, s'.2 = with_api s.2 st ∧ f (api s.2) = (st, a).
Proof. destruct s as [m b]. unfold call. destruct (f (api b)) as [st r] eqn:E. intros [= <- <-]. split; [done|by exists st]. Qed.

Lemma tracked_api b st : contexts_tracked b → contexts_tracked (with_api b st).
Proof. intros Hb. exact Hb. Qed.

Lemma create_spec io cfg buf path s s' c : CreateContextHandleFromBinary io cfg buf path s = (s', Ok c) →
  s'.1 = s.1 ∧ ∃ st, s'.2 = with_api s.2 st ∧ ∃ create bytes, contextCreateFromBinary = Some create ∧
    (buf = Some bytes ∨ buf = None ∧ ReadContextBinIfValid io path = Ok bytes) ∧
    create (api s.2) cfg bytes = (st, QNN_SUCCESS, c).
Proof.
  unfold CreateContextHandleFromBinary. destruct contextCreateFromBinary as [create|]; [|done]. intros E.
  apply xbind_Ok in E as (s1 & bytes & E1 & E).
  assert (s1 = s ∧ (buf = Some bytes ∨ buf = None ∧ ReadContextBinIfValid io path = Ok bytes)) as [-> Hbuf].
  { destruct buf; [injection E1 as <- <-; auto|apply xlift_Ok in E1 as [-> E1]; auto]. }
  apply xbind_Ok in E as (s2 & [rt c'] & E2 & E). apply call_spec in E2 as (Hm & st & Hb & Hf).
  apply xbind_Ok in E as (s3 & [] & E3 & E). apply xlift_Ok in E3 as [-> E3]. injection E as <- <-. split; [done|]. exists st. split; [done|].
  exists create, bytes. split_and!; [done|done|]. destruct (create (api s.2) cfg bytes) as [[a r] n]. injection Hf as -> -> ->.
  by destruct (Z.eqb_spec rt QNN_SUCCESS) as [->|].
Qed.

(** The configuration of a context that is loaded again: its priority, and a spill-fill buffer if it has one. *)
Definition reload_configs (prio : ContextPriority) (n : Z) : list QnnContext_Config :=
  CONTEXT_PRIORITY prio :: (if 0 <? n then [REGISTER_MULTI_CONTEXTS None n] else []).

Lemma reload_spec io prio path n m b s' c : contexts_tracked b → ReloadContextForSSR io prio path n (m, b) = (s', Ok c) →
  s'.1 = m ∧ contexts_tracked s'.2 ∧ HasContextHandle s'.2 (Some c) = true ∧ HasContextHandle b (Some c) = false ∧
  (∀ x, x ≠ c → HasContextHandle s'.2 (Some x) = HasContextHandle b (Some x)) ∧
  ∃ create bytes, contextCreateFromBinary = Some create ∧ ReadContextBinIfValid io path = Ok bytes ∧
    create (api b) (reload_configs prio n) bytes = (api s'.2, QNN_SUCCESS, c).
Proof.
  intros Hb E. unfold ReloadContextForSSR in E. apply xbind_Ok in E as (s1 & cfg & E1 & E). apply xlift_Ok in E1 as [-> E1].
  assert (cfg = reload_configs prio n) as ->.
  { unfold BuildContextBinaryConfigs, SetQnnContextConfig in E1. destruct prio; cbn [rbind] in E1; first [discriminate E1 | by injection E1]. }
  apply xbind_Ok in E as (s2 & c' & E2 & E). apply create_spec in E2 as (Hm & st & Hb2 & create & bytes & Hc & [|[_ Hbytes]] & Hcr); [done|].
  apply xbind_Ok in E as (s3 & [] & E3 & E). injection E as <- <-. destruct s2 as [m2 b2]. cbn in *. subst.
  destruct (add_tracked c' m (with_api b st) s3 (tracked_api b st Hb) E3) as (H1' & H2' & H3' & H4' & H5').
  split_and!; [done..|]. exists create, bytes. split_and!; [done|done|].
  unfold AddQnnContextHandle_ in E3. destruct (AddQnnContextHandle _ _) as [w [e|]]; [done|]. injection E3 as <-. exact Hcr.
Qed.

Lemma retrieve_spec g c s s' g' : RetrieveGraph g (Some c) s = (s', Ok g') →
  ∃ h st, s' = (with_graph s.1 (graph_info_ s.1) (Emit (Some c) (Some h) (gi_name g)), with_api s.2 st) ∧
    g' = ResetHandles g (Some h) (Some c) ∧ graphRetrieve (api s.2) c (gi_name g) = (st, QNN_SUCCESS, Some h).
Proof.
  unfold RetrieveGraph, Emitter_RetrieveGraph. intros E. apply xbind_Ok in E as (s1 & [] & E1 & E).
  apply xbind_Ok in E1 as (s2 & [] & E2 & E1). apply xlift_Ok in E2 as [-> _]. apply xbind_Ok in E1 as (s3 & [rt go] & E3 & E1).
  apply call_spec in E3 as (Hm & st & Hb & Hf). apply xbind_Ok in E as (s4 & ? & [= <- <-] & E). injection E as <- <-.
  destruct s3 as [m3 b3]. cbn in Hm, Hb. subst m3 b3. destruct rt; try done. destruct go as [h|]; [|done].
  unfold set_emitter in E1. injection E1 as <-. exists h, st. split_and!; [done|done|].
  destruct (graphRetrieve (api s.2) c (gi_name g)) as [[a rt] go]. by injection Hf as -> -> ->.
Qed.

Lemma report_Ok p r : report p r = Ok tt → r = Ok tt.
Proof. by destruct r as [[]|[]]. Qed.

Lemma setup_io_spec s s' : SetupQnnInputOutput env s = (s', Ok tt) → s'.2 = s.2 ∧ ∃ g ii oi, graph_info_ s.1 = Some g ∧
  SetupTensors (qnn_backend_type_ env) (m_graph_inputs_ s.1) (qnn_input_infos_ s.1) (gi_inputs g) true = (ii, Ok tt) ∧
  SetupTensors (qnn_backend_type_ env) (m_graph_outputs_ s.1) (qnn_output_infos_ s.1) (gi_outputs g) false = (oi, Ok tt) ∧
  s'.1 = with_infos s.1 ii oi.
Proof.
  unfold SetupQnnInputOutput, graph_info. intros E. apply xbind_Ok in E as (s1 & g & E1 & E).
  destruct (graph_info_ s.1) as [g'|] eqn:Eg; [|done]. injection E1 as <- <-. destruct s as [m b]. cbn [fst snd] in *.
  apply xbind_Ok in E as (s1 & [] & E1 & E).
  destruct (SetupTensors _ (m_graph_inputs_ m) _ _ true) as [ii ri] eqn:Ei. injection E1 as <- Hri. apply report_Ok in Hri as ->.
  cbn [qnn_output_infos_ m_graph_outputs_ with_infos] in E.
  destruct (SetupTensors _ (m_graph_outputs_ m) _ _ false) as [oi ro] eqn:Eo. injection E as <- Hro. apply report_Ok in Hro as ->.
  split; [done|]. by exists g', ii, oi.
Qed.

(** The library after the settings that can be applied late: none, or the one call that applies them. *)
Definition late_configs (configs : bool) : list QnnGraph_Config :=
  if bool_decide (qnn_backend_type_ env = HTP) && fp16_clamp_overflow_available env && configs then [FP16_CLAMP_OVERFLOW] else [].
Definition configured (cfgs : list QnnGraph_Config) (a : api_state) (h : Z) (a' : api_state) : Prop :=
  (cfgs = [] ∧ a' = a) ∨ (cfgs ≠ [] ∧ ∃ set_config, graphSetConfig = Some set_config ∧ set_config a h cfgs = (a', QNN_SUCCESS)).

Lemma apply_configs_spec c s s' : ApplyRuntimeGraphConfigs env c s = (s', Ok tt) →
  s'.1 = with_configs s.1 c ∧ ∃ st, s'.2 = with_api s.2 st ∧
    (is_Some (graph_info_ s.1) → ∀ h, e_graph (qnn_graph_emitter_ s.1) = Some h → configured (late_configs c) (api s.2) h st).
Proof.
  unfold ApplyRuntimeGraphConfigs, late_configs. destruct s as [m b]. intros E. apply xbind_Ok in E as (s1 & [] & [= <-] & E).
  apply xbind_Ok in E as (s1 & ? & [= <- <-] & E). cbn [fst snd graph_info_ with_configs] in *.
  unfold runtime_configs in E. destruct (bool_decide (qnn_backend_type_ env = HTP)) eqn:Eb; cbn [negb orb andb] in *.
  2: { injection E as <-. split; [done|]. exists (api b). split; [by destruct b|]. intros _ h _. by left. }
  case_bool_decide as Eg.
  { injection E as <-. split; [done|]. exists (api b). split; [by destruct b|]. rewrite Eg. by intros []. }
  destruct (fp16_clamp_overflow_available env && c) eqn:Ec.
  2: { injection E as <-. split; [done|]. exists (api b). split; [by destruct b|]. intros _ h _. by left. }
  unfold SetConfig, owned_graph in E. apply xbind_Ok in E as (s1 & g & E1 & E). apply xbind_Ok in E1 as (s2 & ? & [= <- <-] & E1).
  apply xlift_Ok in E1 as [-> Eh]. destruct graphSetConfig as [f|] eqn:Ef; [|done]. apply xbind_Ok in E as (s2 & ? & [= <- <-] & E).
  apply xbind_Ok in E as (s3 & rt & E3 & E). apply call_spec in E3 as (Hm & st & Hb & Hf). apply xlift_Ok in E as [-> Ert].
  split; [done|]. exists st. split; [done|]. intros _ h Hh. right. split; [done|]. exists f. split; [done|]. cbn in *. rewrite Hh in Eh.
  injection Eh as <-. rewrite Hf. by destruct (Z.eqb_spec rt QNN_SUCCESS) as [->|].
Qed.

(** The first half of a recovery: the context that takes the place of the old one. *)
Lemma recovered_context g m b s1 c : contexts_tracked b →
  (if HasContextHandle b (gi_context g)
   then let@ _ := ReleaseSpecificContextHandle (gi_context g) in
        ReloadContextForSSR (io_dispatch env) (context_priority_ env) (context_bin_filepath_ m) (max_spill_fill_size_ m)
   else xlift (GetQnnContext b 0)) (m, b) = (s1, Ok c) →
  s1.1 = m ∧ contexts_tracked s1.2 ∧ HasContextHandle s1.2 (Some c) = true ∧
  (if HasContextHandle b (gi_context g)
   then ∀ x, x ≠ c → HasContextHandle s1.2 (Some x) = HasContextHandle b (Some x) && negb (bool_decide (gi_context g = Some x))
   else contexts_ b !! 0%nat = Some c ∧ ∀ x, HasContextHandle s1.2 x = HasContextHandle b x) ∧
  (if HasContextHandle b (gi_context g)
   then ∃ old create bytes, gi_context g = Some old ∧ contextCreateFromBinary = Some create ∧
     ReadContextBinIfValid (io_dispatch env) (context_bin_filepath_ m) = Ok bytes ∧
     create (contextFree (api b) old) (reload_configs (context_priority_ env) (max_spill_fill_size_ m)) bytes = (api s1.2, QNN_SUCCESS, c)
   else api s1.2 = api b).
Proof.
  intros Hct Ec. destruct (HasContextHandle b (gi_context g)) eqn:Eh.
  - apply xbind_Ok in Ec as (s2 & [] & Er & Ec). destruct (gi_context g) as [old|]; [|done].
    destruct (release_tracked old m b Hct) as (b' & Er' & Hct' & Ho & Hk & Ha). rewrite Er' in Er. injection Er as <-. specialize (Ha Eh).
    apply reload_spec in Ec as (Hm & Ht & Hh & Hf & Hk2 & create & bytes & Hcr & Hby & Hcall); [|done]. split_and!; [done|done|done| |].
    + intros x Hx. rewrite Hk2 by done. destruct (decide (x = old)) as [->|Hxo].
      * rewrite Ho, bool_decide_true by done. by rewrite andb_false_r.
      * rewrite Hk by done. rewrite bool_decide_false by congruence. by rewrite andb_true_r.
    + exists old, create, bytes. split_and!; try done. by rewrite <- Ha.
  - apply xlift_Ok in Ec as [-> Ec]. unfold GetQnnContext in Ec. destruct (contexts_ b !! 0%nat) as [c'|] eqn:E0; [|done]. injection Ec as ->.
    split_and!; [done|done| |done|done|done]. apply Hct. by eapply list_elem_of_lookup_2.
Qed.

(** C19: a successful recovery from a crash of the accelerator, on a session whose vector of contexts
    lists the tracked ones.  The calls of the library: the first model to recover frees its old
    context and no other, then loads a context with the session's priority and spill-fill size from the bytes
    of its file; a later one, whose context is gone, takes the first context there is; then the graph
    is retrieved by its name from that context, and the late settings, if any, are applied to it;
    nothing else is called.  In the tables: graph and emitter refer to that context and graph, the
    context is tracked, no other context is added or removed except the freed one, the graph keeps
    its name and tensors, the binding tables are set up from scratch, and the runtime
    configuration is kept. *)
Theorem ssr_recovery s s' : contexts_tracked s.2 → RecoverFromSSR env s = (s', Ok tt) →
  ∃ g c h, graph_info_ s.1 = Some g ∧
    graph_info_ s'.1 = Some (ResetHandles g (Some h) (Some c)) ∧
    qnn_graph_emitter_ s'.1 = Emit (Some c) (Some h) (gi_name g) ∧
    (∃ loaded retrieved,
       (if HasContextHandle s.2 (gi_context g)
        then ∃ old create bytes, gi_context g = Some old ∧ contextCreateFromBinary = Some create ∧
          ReadContextBinIfValid (io_dispatch env) (context_bin_filepath_ s.1) = Ok bytes ∧
          create (contextFree (api s.2) old) (reload_configs (context_priority_ env) (max_spill_fill_size_ s.1)) bytes =
            (loaded, QNN_SUCCESS, c)
        else loaded = api s.2) ∧
       graphRetrieve loaded c (gi_name g) = (retrieved, QNN_SUCCESS, Some h) ∧
       configured (late_configs (runtime_graph_configs_ s.1)) retrieved h (api s'.2)) ∧
    contexts_tracked s'.2 ∧ HasContextHandle s'.2 (Some c) = true ∧
    (if HasContextHandle s.2 (gi_context g)
     then ∀ x, x ≠ c → HasContextHandle s'.2 (Some x) = HasContextHandle s.2 (Some x) && negb (bool_decide (gi_context g = Some x))
     else contexts_ s.2 !! 0%nat = Some c ∧ ∀ x, HasContextHandle s'.2 x = HasContextHandle s.2 x) ∧
    SetupTensors (qnn_backend_type_ env) (m_graph_inputs_ s.1) [] (gi_inputs g) true = (qnn_input_infos_ s'.1, Ok tt) ∧
    SetupTensors (qnn_backend_type_ env) (m_graph_outputs_ s.1) [] (gi_outputs g) false = (qnn_output_infos_ s'.1, Ok tt) ∧
    runtime_graph_configs_ s'.1 = runtime_graph_configs_ s.1.
Proof.
  intros Hct E. unfold RecoverFromSSR, graph_info in E. apply xbind_Ok in E as (s1 & g & E1 & E).
  destruct (graph_info_ s.1) as [g'|] eqn:Eg; [|done]. injection E1 as <- <-. destruct s as [m b]. cbn [fst snd] in *.
  apply xbind_Ok in E as (s1 & [] & [= <-] & E). apply xbind_Ok in E as (s1 & ? & [= <- <-] & E).
  apply xbind_Ok in E as (s1 & c & Ec & E). cbn [fst snd] in Ec.
  set (m0 := with_infos m [] []) in *.
  destruct (recovered_context g' m0 b s1 c Hct Ec) as (Hm1 & Ht1 & Hc1 & Hx1 & Ha1).
  apply xbind_Ok in E as (s2 & g2 & Er & E). apply retrieve_spec in Er as (h & st & -> & -> & Hret).
  destruct s1 as [m1 b1]. cbn [fst snd] in *. subst m1.
  apply xbind_Ok in E as (s3 & [] & [= <-] & E). apply xbind_Ok in E as (s4 & [] & Es & E). apply setup_io_spec in Es as (Hb4 & g4 & ii & oi & Hg4 & Hi & Ho & Hm4).
  cbn in Hg4. injection Hg4 as <-. destruct s4 as [m4 b4]. cbn [fst snd] in *. subst.
  apply xbind_Ok in E as (s5 & ? & [= <- <-] & E). apply apply_configs_spec in E as (Hm5 & st' & Hb5 & Hcfg). destruct s' as [m' b']. cbn [fst snd] in *. subst.
  exists g', c, h. split_and!; try done. exists (api b1), st. split_and!; [done|done|]. cbn in Hcfg. apply Hcfg; [by eexists|done].
Qed.

(** Without a crash in the last attempt, success means that the library reported none. *)
Lemma execute_graph_Ok k s s' : ExecuteGraph env k s = (s', Ok tt) →
  ∃ s1 s2 status, BindAndExecuteGraph env k s1 = (s2, Ok status) ∧
    ((status = QNN_GRAPH_NO_ERROR ∧ s' = s2) ∨
     (status = QNN_COMMON_ERROR_SYSTEM_COMMUNICATION ∧ context_bin_filepath_ s.1 ≠ "" ∧
      ∃ s3 status', RecoverFromSSR env s2 = (s3, Ok tt) ∧ BindAndExecuteGraph env k s3 = (s', Ok status') ∧
        status' ≠ QNN_COMMON_ERROR_SYSTEM_COMMUNICATION)).
Proof.
  unfold ExecuteGraph. intros E. apply xbind_Ok in E as (s1 & ni & E1 & E). apply xlift_Ok in E1 as [-> _].
  apply xbind_Ok in E as (s1 & no & E1 & E). apply xlift_Ok in E1 as [-> _]. apply xbind_Ok in E as (s1 & ? & [= <- <-] & E).
  apply xbind_Ok in E as (s1 & [] & E1 & E). apply xlift_Ok in E1 as [-> _].
  apply xbind_Ok in E as (s1 & [] & E1 & E). apply xlift_Ok in E1 as [-> _].
  apply xbind_Ok in E as (s2 & [] & E2 & E). clear E2. apply xbind_Ok in E as (s3 & st & E3 & E).
  exists s2, s3, st. split; [done|]. destruct (Z.eqb_spec st QNN_COMMON_ERROR_SYSTEM_COMMUNICATION) as [->|Hst].
  - right. destruct (bool_decide (context_bin_filepath_ s.1 = "")) eqn:Ef; [done|]. apply bool_decide_eq_false in Ef.
    cbn [negb] in E. apply xbind_Ok in E as (s4 & [] & E4 & E). apply xbind_Ok in E as (s5 & st' & E5 & E).
    split_and!; [done|done|]. destruct (Z.eqb_spec st' QNN_COMMON_ERROR_SYSTEM_COMMUNICATION) as [|Hst']; [done|].
    injection E as <-. by exists s4, st'.
  - left. destruct (Z.eqb_spec st QNN_GRAPH_NO_ERROR) as [->|]; [|done]. by injection E as <-.
Qed.

(** A failed recovery leaves no tables; from then on a run fails before it could recover, and
    changes nothing. *)
Lemma failed_recovery_sticks k s n : output_count k = Ok n → n ≠ 0%nat → is_ok (input_count k) = true → qnn_output_infos_ s.1 = [] →
  qnn_input_infos_ s.1 = [] → ExecuteGraph env k s = (s, Err (EpFail "Inconsistent output sizes")).
Proof.
  intros Ho Hn Hi Hoi Hii. unfold ExecuteGraph, xbind, xlift, xget. destruct (input_count k) as [ni|]; [|done]. rewrite Ho, Hoi, Hii. cbn.
  by destruct n.
Qed.

End Recovery.

(** ** An example session *)

(** A library that answers executions from a list and numbers new contexts. *)
Definition example_api : QnnGraphApi := {|
  api_state := list Z * nat;
  graphCreate a c n := (a, 0, Some (Z.of_nat c));
  graphRetrieve a c n := (a, 0, Some (Z.of_nat c));
  graphFinalize a g := (a, 0);
  graphExecute a g i o := match a.1 with [] => (a, 0) | x :: l => ((l, a.2), x) end;
  graphSetConfig := Some (fun a g c => (a, 0));
  contextCreateFromBinary := Some (fun a cfg bytes => ((a.1, S a.2), 0, a.2));
  contextFree a c := a;
  format_error z := pretty z;
  QNN_COMMON_ERROR_INVALID_ARGUMENT := 1;
  QNN_COMMON_ERROR_SYSTEM_COMMUNICATION := 2;
  ssr_error := ltac:(discriminate);
  argument_error := ltac:(split; discriminate)
|}.

Module Example.

#[local] Existing Instances exact_safe_int example_rpcmem example_mem example_api.

Definition io_of (n : string) : GraphInputOutputInfo := IOInfo [n] {[ n := 0%nat ]} {[ n := OnnxTensor 0 ONNX_FLOAT [2] ]}.
Definition graph_x_y : GraphInfo :=
  GInfo "g" (Some 0) (Some 0%nat) [io_wrapper "x" QNN_FLOAT_32 [2]] [io_wrapper "y" QNN_FLOAT_32 [2]].
Definition rows (n : string) : list QnnTensorInfo := [QTInfo (Some (io_wrapper n QNN_FLOAT_32 [2])) 8 0].
Definition model : QnnModel :=
  Model_ (Some graph_x_y) (Emit (Some 0%nat) (Some 0) "g") (io_of "x") (io_of "y") (rows "x") (rows "y") "model.bin" 0 false false.

Definition files (ok : bool) : EpContextIo :=
  ContextIo (Some (fun _ => if ok then Ok [1] else Err (EpFail "no file"))) (fun p => p) (fun _ => true) (fun _ => None) (fun _ _ => None).
Definition settings (ok : bool) : session := Session HTP ALLOC_NONE PRIO_NORMAL false (files ok) (fun _ => InfraOk).

Definition ort_tensor : OrtTensor := Ort_Tensor (Some 2) (Some ONNX_FLOAT) (Ok (DEVICE_CPU, MEM_DEFAULT)) (Ok 4096).
Definition one_run : kernel :=
  Kernel (Ok 1%nat) (Ok 1%nat) (fun _ => Ok ort_tensor) (fun _ _ => Ok ort_tensor) (Ok false) (Ok tt) false 0.

(** The library gives the answers [l]; the session has context 0 and [n] runs in flight. *)
Definition start_power (n : Z) : HtpPowerConfigManager := with_run_state (Init new_manager) false n NONE.
Definition start (l : list Z) (map : gmap nat PerThreadHtpPowerConfigs) (n : Z) : state :=
  (model, Backend (AddQnnContextHandle w_start 0).1 [0%nat] ∅ (start_power n) map (l, 1%nat)).

Lemma start_tracked l map n : contexts_tracked (start l map n).2.
Proof.
  split; [by repeat constructor; set_solver|]. intros c. rewrite has_context. cbn [start contexts_ memory snd].
  assert (mem_handles_ (AddQnnContextHandle w_start 0).1 = {[ 0%nat := ∅ ]}) as -> by reflexivity.
  rewrite list_elem_of_singleton. split.
  - intros ->. by rewrite lookup_singleton_eq.
  - intros Hc. destruct (decide (c = 0%nat)) as [|Hne]; [done|]. rewrite lookup_singleton_ne in Hc by done. by destruct Hc.
Defined.

Definition per_thread_balanced : PerThreadHtpPowerConfigs := PerThread None None (Some 0) (Some 0) (Some kHtpBalanced) 1.

Lemma bound_execution_witness :
  ∃ s' g ins outs, BindAndExecuteGraph (settings true) one_run (start [0] ∅ 0) = (s', Ok 0) ∧ graph_info_ (start [0] ∅ 0).1 = Some g ∧
    Forall2 (fun info => bound_to (settings true) (GetInput one_run (ort_index info)) (gi_context g) info) (rows "x") ins ∧
    0 = graph_answer (start [0] ∅ 0) ins outs.
Proof.
  destruct (BindAndExecuteGraph (settings true) one_run (start [0] ∅ 0)) as [s' r] eqn:E.
  assert (r = Ok 0) as -> by (change r with (s', r).2; rewrite <- E; vm_compute; reflexivity).
  destruct (bound_execution (settings true) one_run _ s' 0 E) as (g & ins & outs & Hg & Hi & _ & Hs & _).
  exists s', g, ins, outs. split_and!; [reflexivity|exact Hg|exact Hi|exact Hs].
Defined.

Lemma run_count_balanced_witness :
  inflight_run_count_ (power (BindAndExecuteGraph (settings true) one_run (start [0] {[ 0%nat := per_thread_balanced ]} 3)).1.2) = 3.
Proof.
  rewrite (run_count_balanced (settings true) one_run (start [0] {[ 0%nat := per_thread_balanced ]} 3)).
  - reflexivity.
  - intros c Hc. cbn [start snd per_thread thread_id one_run] in Hc. rewrite lookup_singleton_eq in Hc. injection Hc as <-.
    split_and!; [done|by eexists|by eexists|]. intros mode [[= <-]|[= <-]]; done.
  - cbn. lia.
Defined.

Lemma ssr_recovery_witness :
  ∃ s' g c h, RecoverFromSSR (settings true) (start [] ∅ 0) = (s', Ok tt) ∧ c = 1%nat ∧
    graph_info_ s'.1 = Some (ResetHandles g (Some h) (Some c)) ∧ HasContextHandle s'.2 (Some c) = true.
Proof.
  destruct (RecoverFromSSR (settings true) (start [] ∅ 0)) as [s' r] eqn:E.
  assert (r = Ok tt) as -> by (change r with (s', r).2; rewrite <- E; vm_compute; reflexivity).
  assert (contexts_ s'.2 = [1%nat]) as E1 by (change s' with (s', Ok tt : result unit).1; rewrite <- E; vm_compute; reflexivity).
  destruct (ssr_recovery (settings true) _ s' (start_tracked _ _ _) E) as (g & c & h & Hg & Hg' & _ & _ & Ht & Hc & _).
  exists s', g, c, h. split_and!; [reflexivity| |exact Hg'|exact Hc].
  apply Ht in Hc. rewrite E1 in Hc. by apply list_elem_of_singleton in Hc.
Defined.

End Example.

(** ** What the model shows of the code *)

Module ExecutionFindings.
Import Example.
#[local] Existing Instances exact_safe_int example_rpcmem example_mem example_api.

(** The accelerator crashes, recovery succeeds, and the second attempt ends with another error
    of the library (7): the run reports success. *)
Lemma retry_error_lost : (ExecuteGraph (settings true) one_run (start [2; 7] ∅ 0)).2 = Ok tt ∧
  (ExecuteGraph (settings true) one_run (start [7] ∅ 0)).2 = Err (EpFail "QNN graph execute error. 7").
Proof. split; vm_compute; reflexivity. Qed.

(** The accelerator crashes and the binary cannot be read: this run fails with that error, and
    the next one, with the file back, fails before it tries to recover. *)
Lemma failed_recovery_is_final :
  let s := (ExecuteGraph (settings false) one_run (start [2] ∅ 0)).1 in
  (ExecuteGraph (settings false) one_run (start [2] ∅ 0)).2 = Err (EpFail "no file") ∧
  ExecuteGraph (settings true) one_run s = (s, Err (EpFail "Inconsistent output sizes")).
Proof.
  cbv zeta. split; [vm_compute; reflexivity|].
  apply (failed_recovery_sticks (settings true) one_run _ 1); [done|done|done|vm_compute; reflexivity|vm_compute; reflexivity].
Qed.

(** A session without performance mode, and a run that asks for one: the start of the run is
    counted and its end is not. *)
Definition no_default : power_defaults := PowerDefaults kHtpDefault 0 0 kHtpDefault 0.
Lemma run_count_leaks :
  let s := (OnRunStartImpl (settings true) false no_default (RunOptions (Some "high_performance") None None) (Some 1) 0 (start [0] ∅ 0)).1 in
  let r := BindAndExecuteGraph (settings true) one_run s in
  r.2 = Ok 0 ∧ inflight_run_count_ (power r.1.2) = 1.
Proof. vm_compute. split; reflexivity. Qed.

(** With a mode for the end of the run only, the end of a run that was not counted is: here the
    run of another thread is taken for done. *)
Lemma run_count_stolen :
  let s := (OnRunStartImpl (settings true) false no_default (RunOptions None (Some "low_balanced") None) (Some 1) 0 (start [0] ∅ 1)).1 in
  let r := BindAndExecuteGraph (settings true) one_run s in
  r.2 = Ok 0 ∧ inflight_run_count_ (power r.1.2) = 0.
Proof. vm_compute. split; reflexivity. Qed.

(** A start that is rejected because the timer is not active is not counted; the guard then
    counts an end, and the run of another thread is taken for done. *)
Lemma rejected_start_not_harmless :
  let c := PerThread (Some kHtpBurst) (Some kHtpBalanced) (Some 0) (Some 0) None 1 in
  let r := BindAndExecuteGraph (settings true) one_run (start [0] {[ 0%nat := c ]} 1) in
  is_ok r.2 = false ∧ inflight_run_count_ (power r.1.2) = 0.
Proof. vm_compute. split; reflexivity. Qed.

(** Values of four bits: the size of the value is that of one byte per element, the size of the
    QNN tensor that of two elements per byte. *)
Lemma four_bit_values_rejected n mem addr : 2 ≤ n < 2 ^ 32 →
  TensorDataSize (Ort_Tensor (Some n) (Some ONNX_INT4) mem addr) = Ok n ∧
  GetQnnTensorDataSizeInBytes [n] QNN_SFIXED_POINT_4 = Ok ((n + 1) / 2) ∧ (n + 1) / 2 ≠ n.
Proof.
  intros Hn. split_and!.
  - unfold TensorDataSize. cbn [ot_count ot_type GetElementSizeByType_onnx find_assoc].
    change (Ok (u64 (1 * n)) = Ok n). rewrite Z.mul_1_l. by rewrite (wrapu_id 64) by (red; lia).
  - unfold GetQnnTensorDataSizeInBytes, GetQnnTensorDataSizeInBytes_count. cbn [foldM].
    rewrite safe_mul_exact by (red; lia). rewrite Z.mul_1_l, (proj2 (Z.leb_le 0 n)), (proj2 (Z.ltb_lt n size_max)) by (unfold size_max; lia).
    cbn [andb rbind]. rewrite safe_add_exact by (red; lia). rewrite (proj2 (Z.ltb_lt (n + 1) size_max)) by (unfold size_max; lia). done.
  - intros E. pose proof (Z.div_lt_upper_bound (n + 1) 2 n). lia.
Qed.

End ExecutionFindings.
