(* ===== verification/SystemDlc.v ===== *)
(** * The QNN system library and containers of several contexts

    A context for several SoCs is kept in a DLC container of the QNN system library.  This file
    models the plugin that creates, fills, reads and releases such a container
    ([builder/qnn_backend_system_dlc_plugin.cc]), the description of a context binary and the
    plugin's place in the backend manager ([builder/qnn_backend_manager.cc]).  The functions of the
    library are parameters; one that a library may lack is optional. *)

From stdpp Require Import pretty gmap.
From S2P Require Import Prelude DataTypes QuantParams QnnTensor Execution.
Local Open Scope Z_scope.

(** ** The library *)

(** [QnnHtpSystemContext_GraphBlobInfo_t], and a graph of a binary with its blob. *)
Record HtpGraphBlobInfo := HtpBlob { blob_version : Z; spillFillBufferSize : Z }.
Record QnnSystemContext_GraphInfo := SystemGraph { graph_info_of : SysGraphInfo; graphBlobInfo : option HtpGraphBlobInfo }.
Record QnnSystemContext_BinaryInfo := BinaryInfo {
  bi_version : Z;
  bi_numGraphs : nat;
  bi_graphs : option (list QnnSystemContext_GraphInfo)
}.

(** A handle that a call leaves null is [None]; statuses are numbers. *)
Class QnnSystemApi := {
  sys_state : Type;
  systemContextCreate : option (sys_state → sys_state * Z * option nat);
  systemContextFree : option (sys_state → nat → sys_state);
  systemContextGetBinaryInfo : option (sys_state → nat → list Z → sys_state * Z * option QnnSystemContext_BinaryInfo);
  systemLogCreate : option (sys_state → sys_state * Z * option nat);
  systemLogFree : option (sys_state → option nat → sys_state * Z);
  systemDlcCreateWithDestinationDir : option (sys_state → option nat → sys_state * Z * option nat);
  systemDlcCreateFromBinary : option (sys_state → option nat → list Z → sys_state * Z * option nat);
  systemDlcFree : option (sys_state → option nat → sys_state * Z);
  systemDlcGetBinarySize : option (sys_state → option nat → Z * Z);
  systemDlcGetBinary : option (sys_state → option nat → Z → Z * Z * list Z);
  systemDlcGetRecordsByType : option (sys_state → option nat → bool → Z * list nat);
  systemDlcReadRecordDataMemoryMapped : option (sys_state → nat → Z * list Z);
  contextAddToDlc : option (sys_state → nat → option nat → sys_state * Z);
  error_string : Z → string
}.

Definition QNN_SYSTEM_CONTEXT_GRAPH_INFO_VERSION_3 : Z := 3.
Definition QNN_SYSTEM_CONTEXT_HTP_GRAPH_INFO_BLOB_VERSION_V1 : Z := 1.

Section SystemDlc.
Context `{QnnSystemApi}.

(** A function pointer that is checked before use, with the message of the check. *)
Definition function {S F} (f : option F) (msg : string) : St S F :=
  slift (match f with Some f => Ok f | None => Err (EpFail msg) end).
(** One that is not: calling a null pointer. *)
Definition unchecked {S F} (f : option F) : St S F := slift (match f with Some f => Ok f | None => Err Trap end).

Definition check_status {S} (status : Z) (msg : string) : St S unit :=
  slift (return_if (negb (status =? QNN_SUCCESS)) (msg +:+ error_string status)).

(** ** Context binaries *)

(** [GetSystemContextHandle]: null when the call fails. *)
Definition GetSystemContextHandle : St sys_state (option nat) :=
  let$ create := unchecked systemContextCreate in
  fun s => let '(s, rt, h) := create s in (s, Ok (if rt =? QNN_SUCCESS then h else None)).

(** The deleter of the handle; it runs also when the function returns early. *)
Definition free_system_context (h : nat) (s : sys_state) : sys_state :=
  match systemContextFree with Some free => free s h | None => s end.
Definition with_system_context {A} (msg : string) (body : nat → St sys_state A) : St sys_state A :=
  let$ h := GetSystemContextHandle in
  match h with
  | None => slift (Err (EpFail msg))
  | Some h => fun s => let (s, r) := body h s in (free_system_context h s, r)
  end.

(** [GetGraphInfoAndBinVersion]; the version of the blob only matters for file mapping. *)
Definition GetGraphInfoAndBinVersion (sys_ctx_handle : nat) (buffer : list Z) : St sys_state (nat * option (list QnnSystemContext_GraphInfo)) :=
  let$ get := unchecked systemContextGetBinaryInfo in
  let$ answer := (fun s => let '(s, rt, i) := get s sys_ctx_handle buffer in (s, Ok (rt, i))) in
  let$ _ := slift (return_if (negb (answer.1 =? QNN_SUCCESS)) "Failed to get context binary info.") in
  slift (match answer.2 with
  | None => Err (EpFail "Qnn cached binary info is nullptr.")
  | Some i =>
      if (1 <=? bi_version i) && (bi_version i <=? 3) then Ok (bi_numGraphs i, bi_graphs i)
      else Err (EpFail "Unsupported context binary info version.")
  end).

(** [graphs_info[i]] *)
Definition graph_at (graphs_info : option (list QnnSystemContext_GraphInfo)) (i : nat) : result QnnSystemContext_GraphInfo :=
  match graphs_info with None => Err Trap | Some l => aget l i end.

(** The largest spill-fill buffer of the graphs; graphs of other versions are passed over. *)
Definition spill_of_graph (null_msg : string) (graphs_info : option (list QnnSystemContext_GraphInfo)) (max_size : Z) (i : nat) : result Z :=
  let* g := graph_at graphs_info i in
  if sys_version (graph_info_of g) =? QNN_SYSTEM_CONTEXT_GRAPH_INFO_VERSION_3 then
    match graphBlobInfo g with
    | None => Err (EpFail null_msg)
    | Some b =>
        if blob_version b =? QNN_SYSTEM_CONTEXT_HTP_GRAPH_INFO_BLOB_VERSION_V1 then
          Ok (if max_size <? spillFillBufferSize b then spillFillBufferSize b else max_size)
        else Ok max_size
    end
  else Ok max_size.
Definition spill_of_binary (null_msg : string) (h : nat) (max_size : Z) (buffer : list Z) : St sys_state Z :=
  let$ (graph_count, graphs_info) := GetGraphInfoAndBinVersion h buffer in
  slift (foldM (spill_of_graph null_msg graphs_info) (seq 0 graph_count) max_size).

(** ** The plugin *)

Record DlcPlugin := Dlc { dlc_created_ : bool; dlc_handle_ : option nat; system_log_handle_ : option nat }.
Definition new_plugin : DlcPlugin := Dlc false None None.

Definition P : Type → Type := St (DlcPlugin * sys_state).
Definition on_system {A} (c : St sys_state A) : P A := fun '(p, s) => let (s, r) := c s in ((p, s), r).
Definition set_log (h : option nat) : P unit := sset (fun '(p, s) => (Dlc (dlc_created_ p) (dlc_handle_ p) h, s)).
Definition set_handle (h : option nat) : P unit := sset (fun '(p, s) => (Dlc (dlc_created_ p) h (system_log_handle_ p), s)).
Definition set_created (c : bool) : P unit := sset (fun '(p, s) => (Dlc c (dlc_handle_ p) (system_log_handle_ p), s)).

Definition CreateSystemLog : P unit :=
  let$ p := sget fst in
  if bool_decide (is_Some (system_log_handle_ p)) then sret tt else
  let$ create := function systemLogCreate "Failed to create SystemLog without QnnSystemLog_create API." in
  let$ answer := on_system (fun s => let '(s, rt, h) := create s in (s, Ok (rt, h))) in
  let$ _ := set_log answer.2 in
  check_status answer.1 "Failed to create SystemLog. Error: ".

Definition CreateEmptyDlc : P unit :=
  let$ p := sget fst in
  if dlc_created_ p then sret tt else
  let$ create := function systemDlcCreateWithDestinationDir "Failed to create DLC without QnnSystemDlc_createWithDestinationDir API." in
  let$ answer := on_system (fun s => let '(s, rt, h) := create s (system_log_handle_ p) in (s, Ok (rt, h))) in
  let$ _ := set_handle answer.2 in
  let$ _ := check_status answer.1 "Failed to create DLC. Error: " in
  set_created true.

Definition CreateDlcFromBinary (buffer : list Z) : P unit :=
  let$ p := sget fst in
  let$ _ := slift (return_if (dlc_created_ p) "DLC created already.") in
  let$ create := function systemDlcCreateFromBinary "Failed to create DLC from binary without QnnSystemDlc_createFromBinary API." in
  let$ answer := on_system (fun s => let '(s, rt, h) := create s (system_log_handle_ p) buffer in (s, Ok (rt, h))) in
  let$ _ := set_handle answer.2 in
  let$ _ := check_status answer.1 "Failed to create DLC from binary. Error: " in
  set_created true.

Definition ReleaseDlc : P unit :=
  let$ p := sget fst in
  if negb (dlc_created_ p) then sret tt else
  let$ free := function systemDlcFree "Failed to free DLC without QnnSystemDlc_free API." in
  let$ result := on_system (fun s => let (s, rt) := free s (dlc_handle_ p) in (s, Ok rt)) in
  let$ _ := check_status result "Failed to free DLC. Error: " in
  let$ _ := set_handle None in
  set_created false.

Definition ReleaseSystemLog : P unit :=
  let$ p := sget fst in
  if negb (bool_decide (is_Some (system_log_handle_ p))) then sret tt else
  let$ free := function systemLogFree "Failed to free SystemLog without QnnSystemLog_free API." in
  let$ result := on_system (fun s => let (s, rt) := free s (system_log_handle_ p) in (s, Ok rt)) in
  let$ _ := check_status result "Failed to free SystemLog. Error: " in
  set_log None.

(** A status of one step is logged and remembered; an exception goes on. *)
Definition attempt (c : P unit) : P bool := fun s =>
  match c s with
  | (s, Ok _) => (s, Ok true)
  | (s, Err (EpFail _)) => (s, Ok false)
  | (s, Err e) => (s, Err e)
  end.

Definition Release : P unit :=
  let$ dlc_ok := attempt ReleaseDlc in
  let$ log_ok := attempt ReleaseSystemLog in
  slift (return_if (negb (dlc_ok && log_ok)) "Failed to release.").

(** Handles of a failed set-up are released; the status of the set-up is the answer. *)
Definition or_release (c : P unit) : P unit := fun s =>
  match c s with
  | (s, Err (EpFail msg)) => (let$ _ := attempt Release in slift (Err (EpFail msg))) s
  | r => r
  end.
Definition SetupDlc : P unit := or_release (let$ _ := CreateSystemLog in CreateEmptyDlc).
Definition SetupDlcFromBinary (buffer : list Z) : P unit := or_release (let$ _ := CreateSystemLog in CreateDlcFromBinary buffer).

Definition AddContextToDlc (context_handle : nat) : P unit :=
  let$ add := function contextAddToDlc "Failed to add context to DLC without QnnContext_addToDlc API." in
  let$ p := sget fst in
  let$ result := on_system (fun s => let (s, rt) := add s context_handle (dlc_handle_ p) in (s, Ok rt)) in
  check_status result "Failed to add context to DLC. Error: ".

(** The bytes that a library writes into a buffer of the size it asked for. *)
Definition written_bytes {S} (required_buffer_size written_buffer_size : Z) (bytes : list Z) : St S (list Z) :=
  let$ _ := slift (return_if (required_buffer_size <? written_buffer_size)
    ("Context written buffer size: " +:+ pretty written_buffer_size +:+ " exceeds allocated buffer size: " +:+ pretty required_buffer_size)) in
  sret (take (Z.to_nat written_buffer_size) bytes).

Definition GetDlcBinaryBuffer : P (list Z) :=
  let$ p := sget fst in
  let$ _ := slift (return_if_not (dlc_created_ p) "No QNN DLC to get DLC binary from.") in
  let$ get_size := function systemDlcGetBinarySize "Failed to get DLC binary buffer without QnnSystemDlc_getBinarySize API." in
  let$ get := function systemDlcGetBinary "Failed to get DLC binary buffer without QnnSystemDlc_getBinary API." in
  let$ s := sget snd in
  let (rt, required) := get_size s (dlc_handle_ p) in
  let$ _ := check_status rt "Failed to get QNN DLC binary size. Error: " in
  let '(rt, written, bytes) := get s (dlc_handle_ p) required in
  let$ _ := check_status rt "Failed to get QNN DLC binary. Error: " in
  written_bytes required written bytes.

Definition read_record (read : sys_state → nat → Z * list Z) (record : nat) : P (list Z) :=
  let$ s := sget snd in
  let (rt, bytes) := read s record in
  let$ _ := check_status rt "Failed to read record data. Error: " in
  sret bytes.

Definition GetDlcRecordBuffers (most_optimal_only : bool) : P (list (list Z)) :=
  let$ p := sget fst in
  let$ _ := slift (return_if_not (dlc_created_ p) "No DLC to get record buffers from.") in
  let$ get := function systemDlcGetRecordsByType "Failed to get DLC record buffers without QnnSystemDlc_getRecordsByType API." in
  let$ read := function systemDlcReadRecordDataMemoryMapped
    "Failed to get DLC record buffers without QnnSystemDlc_readRecordDataMemoryMapped API." in
  let$ s := sget snd in
  let (rt, records) := get s (dlc_handle_ p) most_optimal_only in
  let$ _ := check_status rt "Failed to get record from QNN DLC by type. Error: " in
  let$ _ := slift (return_if_not (0 <? length records)%nat "Expecting at least one record handle but got none.") in
  smap (read_record read) records.

Definition GetDlcBinaryInfo (sys_ctx_handle : nat) : P (nat * option (list QnnSystemContext_GraphInfo)) :=
  let$ p := sget fst in
  let$ _ := slift (return_if_not (dlc_created_ p) "Expecting DLC is created from binary first.") in
  let$ record_buffers := GetDlcRecordBuffers true in
  let$ b := slift (aget record_buffers 0) in
  on_system (GetGraphInfoAndBinVersion sys_ctx_handle b).

Fixpoint spill_of_records (h : nat) (max_size : Z) (record_buffers : list (list Z)) : St sys_state Z :=
  match record_buffers with
  | [] => sret max_size
  | b :: bs => let$ m := spill_of_binary "DLC HTP graph info is null." h max_size b in spill_of_records h m bs
  end.
Definition GetDlcMaxSpillFillBufferSize : P Z :=
  let$ p := sget fst in
  let$ _ := slift (return_if_not (dlc_created_ p) "No DLC to get max spill-fill buffer size from.") in
  let$ record_buffers := GetDlcRecordBuffers false in
  on_system (with_system_context "Failed to get DLC max spill-fill buffer size info without system context."
    (fun h => spill_of_records h 0 record_buffers)).

(** The destructor. *)
Definition destroy_plugin (c : DlcPlugin * sys_state) : sys_state := (attempt Release c).1.2.

(** ** The plugin of the backend manager *)

(** [system_dlc_plugin_] and [system_dlc_created_]. *)
Record SystemDlc := SysDlc { system_dlc_plugin_ : option DlcPlugin; system_dlc_created_ : bool }.
Definition BM : Type → Type := St (SystemDlc * sys_state).
Definition on_plugin {A} (p : DlcPlugin) (c : P A) : BM A := fun '(d, s) =>
  let '((p, s), r) := c (p, s) in ((SysDlc (Some p) (system_dlc_created_ d), s), r).

(** A plugin that is replaced or reset is destroyed. *)
Definition replace_plugin (p : option DlcPlugin) : BM unit := sset (fun '(d, s) =>
  (SysDlc p (system_dlc_created_ d), match system_dlc_plugin_ d with Some old => destroy_plugin (old, s) | None => s end)).
Definition set_dlc_created (c : bool) : BM unit := sset (fun '(d, s) => (SysDlc (system_dlc_plugin_ d) c, s)).

Definition CreateSystemDlcPlugin : BM unit :=
  let$ d := sget fst in
  if system_dlc_created_ d then sret tt else
  let$ _ := replace_plugin (Some new_plugin) in
  let$ _ := on_plugin new_plugin SetupDlc in
  set_dlc_created true.

Definition ReleaseSystemDlcPlugin : BM unit :=
  let$ d := sget fst in
  if negb (system_dlc_created_ d) then sret tt else
  match system_dlc_plugin_ d with
  | None => slift (Err Trap)
  | Some p =>
      let$ _ := on_plugin p Release in
      let$ _ := replace_plugin None in
      set_dlc_created false
  end.

Definition Manager_AddContextToDlc (contexts_ : list nat) : BM unit :=
  let$ d := sget fst in
  match system_dlc_plugin_ d with
  | None => slift (Err (EpFail "Unexpected call of this function without DLC initialized."))
  | Some p =>
      match contexts_ with
      | [c] => on_plugin p (AddContextToDlc c)
      | _ => slift (Err (EpFail "Expecting only one context to be added into DLC."))
      end
  end.

(** [contextGetBinarySize] and [contextGetBinary] of the backend library, of the first context. *)
Class QnnContextBinary `{QnnGraphApi} := {
  contextGetBinarySize : option (api_state → nat → Z * Z);
  contextGetBinary : option (api_state → nat → Z → Z * Z * list Z)
}.

Definition GetContextBinaryBuffer `{QnnContextBinary} (api : api_state) (contexts_ : list nat) (is_multi_soc_buffer : bool) : BM (list Z) :=
  let$ d := sget fst in
  if is_multi_soc_buffer then
    match system_dlc_plugin_ d with
    | None => slift (Err (EpFail "Unable to get multi-SoC binary without system DLC."))
    | Some p => on_plugin p GetDlcBinaryBuffer
    end
  else
  let$ get_size := function contextGetBinarySize "Failed to get valid function pointers." in
  let$ get := function contextGetBinary "Failed to get valid function pointers." in
  match contexts_ with
  | [] => slift (Err (EpFail "No QNN context to get context binary from."))
  | c :: _ =>
      let (rt, required) := get_size api c in
      let$ _ := check_status rt "Failed to get QNN context binary size. Error: " in
      let '(rt, written, bytes) := get api c required in
      let$ _ := check_status rt "Failed to get QNN context binary. Error: " in
      written_bytes required written bytes
  end.

Definition GetMaxSpillFillBufferSize (buffer : list Z) (is_multi_soc_buffer : bool) : BM Z :=
  let$ d := sget fst in
  if is_multi_soc_buffer then
    match system_dlc_plugin_ d with
    | None => slift (Err (EpFail "Unable to get max spill-fill buffer size for multi-SoC binary without system DLC."))
    | Some p => on_plugin p GetDlcMaxSpillFillBufferSize
    end
  else fun '(d, s) =>
    let (s, r) := with_system_context "System context handle is null."
      (fun h => spill_of_binary "Context binary HTP graph info is null." h 0 buffer) s in ((d, s), r).

End SystemDlc.

(** ** Handles of the library *)

Inductive sys_kind : Set := SysLog | SysContainer | SysContext.
Global Instance sys_kind_eq_dec : EqDecision sys_kind.
Proof. solve_decision. Defined.
Global Instance sys_kind_countable : Countable sys_kind.
Proof.
  refine (inj_countable (fun k => match k with SysLog => 0 | SysContainer => 1 | SysContext => 2 end)%nat
    (fun n => match n with 0 => Some SysLog | 1 => Some SysContainer | _ => Some SysContext end)%nat _).
  by intros [].
Defined.

(** What the documentation of the library says of handles: a call that succeeds makes a new one, or
    takes away the one it frees; a call that fails changes nothing. *)
Definition creates `{QnnSystemApi} (live : sys_state → gset (sys_kind * nat)) (k : sys_kind) (s : sys_state) (r : sys_state * Z * option nat) : Prop :=
  (r.1.2 = QNN_SUCCESS ∧ ∃ x, r.2 = Some x ∧ (k, x) ∉ live s ∧ live r.1.1 = {[(k, x)]} ∪ live s) ∨
  (r.1.2 ≠ QNN_SUCCESS ∧ r.2 = None ∧ live r.1.1 = live s).
Definition frees `{QnnSystemApi} (live : sys_state → gset (sys_kind * nat)) (k : sys_kind) (x : nat) (s : sys_state) (r : sys_state * Z) : Prop :=
  (r.2 = QNN_SUCCESS ∧ live r.1 = live s ∖ {[(k, x)]}) ∨ (r.2 ≠ QNN_SUCCESS ∧ live r.1 = live s).

Class QnnSystemLaws `{QnnSystemApi} := {
  live : sys_state → gset (sys_kind * nat);
  log_create : ∀ f s, systemLogCreate = Some f → creates live SysLog s (f s);
  log_free : ∀ f s x, systemLogFree = Some f → (SysLog, x) ∈ live s → frees live SysLog x s (f s (Some x));
  dlc_create : ∀ f s l, systemDlcCreateWithDestinationDir = Some f → creates live SysContainer s (f s l);
  dlc_from_binary : ∀ f s l b, systemDlcCreateFromBinary = Some f → creates live SysContainer s (f s l b);
  dlc_free : ∀ f s x, systemDlcFree = Some f → (SysContainer, x) ∈ live s → frees live SysContainer x s (f s (Some x));
  context_create : ∀ f s, systemContextCreate = Some f → creates live SysContext s (f s);
  context_free : ∀ s x, (SysContext, x) ∈ live s → live (free_system_context x s) = live s ∖ {[(SysContext, x)]};
  binary_info_live : ∀ f s h b, systemContextGetBinaryInfo = Some f → live (f s h b).1.1 = live s;
  add_live : ∀ f s c h, contextAddToDlc = Some f → live (f s c h).1 = live s
}.

Section Handles.
Context `{QnnSystemLaws}.

Definition owned (p : DlcPlugin) : gset (sys_kind * nat) :=
  (match system_log_handle_ p with Some x => {[(SysLog, x)]} | None => ∅ end) ∪
  (if dlc_created_ p then match dlc_handle_ p with Some x => {[(SysContainer, x)]} | None => ∅ end else ∅).

(** Beside the handles [others] that were live before, exactly the handles of the plugin are. *)
Definition owns (others : gset (sys_kind * nat)) (c : DlcPlugin * sys_state) : Prop :=
  live c.2 = others ∪ owned c.1 ∧ others ## owned c.1 ∧ (dlc_created_ c.1 = true → is_Some (dlc_handle_ c.1)).

Lemma owns_new s : owns (live s) (new_plugin, s).
Proof. repeat split; [set_solver|set_solver|done]. Qed.

Lemma skeeps_function {S F} (Q : S → Prop) (f : option F) msg : skeeps Q (function f msg).
Proof. by intros s. Qed.
Lemma skeeps_status {S} (Q : S → Prop) rt msg : skeeps (S := S) Q (check_status rt msg).
Proof. by intros s. Qed.

Ltac keep := repeat first
  [ apply skeeps_lift | apply skeeps_ret | apply skeeps_get | apply skeeps_function | apply skeeps_status
  | apply skeeps_bind; [|intros ?] ].

Ltac plain_bind := unfold sbind, sget, sset, slift, sret, function, check_status, on_system, set_log, set_handle, set_created, return_if, return_if_not; cbn.

Lemma keeps_CreateSystemLog others : skeeps (owns others) CreateSystemLog.
Proof.
  intros [p s] (Hl & Hd & Hc). unfold CreateSystemLog. plain_bind. case_bool_decide as Hs; [done|].
  destruct systemLogCreate as [f|] eqn:Ef; [|done]. pose proof (log_create f s Ef) as Hf. destruct (f s) as [[s1 rt] h].
  assert (system_log_handle_ p = None) as Hn by (destruct (system_log_handle_ p); [exfalso; eauto|done]).
  unfold owned in Hl, Hd. cbn [fst snd] in *. rewrite Hn in Hl, Hd.
  destruct Hf as [(Hr & x & Hx & Hnew & Hlive)|(Hr & Hx & Hlive)]; cbn [fst snd] in *; subst.
  - rewrite Z.eqb_refl. unfold owns, owned. cbn. rewrite Hlive, Hl. set_solver.
  - destruct (negb (negb (rt =? QNN_SUCCESS))); unfold owns, owned; cbn; rewrite Hlive, Hl; set_solver.
Qed.

Lemma keeps_container others p s (r : sys_state * Z * option nat) msg : owns others (p, s) → dlc_created_ p = false →
  creates live SysContainer s r →
  owns others ((let$ _ := set_handle r.2 in let$ _ := check_status r.1.2 msg in set_created true) (p, r.1.1)).1.
Proof.
  intros (Hl & Hd & Hc) Hp Hf. plain_bind. unfold owned in Hl, Hd. cbn [fst snd] in *. rewrite Hp in *. destruct r as [[s1 rt] h].
  destruct Hf as [(Hr & x & Hx & Hnew & Hlive)|(Hr & Hx & Hlive)]; cbn [fst snd] in *; subst.
  - rewrite Z.eqb_refl. unfold owns, owned. cbn. rewrite Hlive, Hl. set_solver.
  - apply Z.eqb_neq in Hr. rewrite Hr. unfold owns, owned. cbn. rewrite Hlive, Hl. set_solver.
Qed.

Lemma keeps_CreateEmptyDlc others : skeeps (owns others) CreateEmptyDlc.
Proof.
  intros [p s] Ho. unfold CreateEmptyDlc. unfold sbind at 1, sget. cbn. destruct (dlc_created_ p) eqn:Hp; [done|].
  unfold function. destruct systemDlcCreateWithDestinationDir as [f|] eqn:Ef; [|done].
  pose proof (keeps_container others p s (f s (system_log_handle_ p)) "Failed to create DLC. Error: " Ho Hp (dlc_create _ _ _ Ef)) as Hk.
  unfold sbind at 1 2, slift, on_system. by destruct (f s (system_log_handle_ p)) as [[s1 rt] h].
Qed.

Lemma keeps_CreateDlcFromBinary others b : skeeps (owns others) (CreateDlcFromBinary b).
Proof.
  intros [p s] Ho. unfold CreateDlcFromBinary. unfold sbind at 1, sget. cbn. unfold return_if, return_if_not.
  destruct (dlc_created_ p) eqn:Hp; [done|].
  unfold function. destruct systemDlcCreateFromBinary as [f|] eqn:Ef; [|done].
  pose proof (keeps_container others p s (f s (system_log_handle_ p) b) "Failed to create DLC from binary. Error: " Ho Hp (dlc_from_binary _ _ _ _ Ef)) as Hk.
  unfold sbind at 1 2 3, slift, on_system. by destruct (f s (system_log_handle_ p) b) as [[s1 rt] h].
Qed.

Lemma keeps_ReleaseDlc others : skeeps (owns others) ReleaseDlc.
Proof.
  intros [p s] (Hl & Hd & Hc). unfold ReleaseDlc. plain_bind. destruct (dlc_created_ p) eqn:Hp; [|by repeat split].
  cbn. destruct systemDlcFree as [f|] eqn:Ef; [|by repeat split]. destruct (Hc Hp) as [x Hx]. cbn [fst] in Hx. rewrite Hx.
  unfold owned in Hl, Hd. cbn in *. rewrite Hp, Hx in Hl, Hd.
  pose proof (dlc_free f s x Ef ltac:(set_solver)) as Hf. destruct (f s (Some x)) as [s1 rt].
  destruct Hf as [(Hr & Hlive)|(Hr & Hlive)]; cbn [fst snd] in *; subst.
  - rewrite Z.eqb_refl. unfold owns, owned. cbn. rewrite Hlive, Hl. destruct (system_log_handle_ p); set_solver.
  - apply Z.eqb_neq in Hr. rewrite Hr. unfold owns, owned. cbn. rewrite Hp, Hx, Hlive, Hl. set_solver.
Qed.

Lemma keeps_ReleaseSystemLog others : skeeps (owns others) ReleaseSystemLog.
Proof.
  intros [p s] (Hl & Hd & Hc). unfold ReleaseSystemLog. plain_bind. destruct (system_log_handle_ p) as [x|] eqn:Hx; [|by repeat split].
  cbn. destruct systemLogFree as [f|] eqn:Ef; [|by repeat split].
  unfold owned in Hl, Hd. cbn in *. rewrite Hx in Hl, Hd.
  pose proof (log_free f s x Ef ltac:(set_solver)) as Hf. destruct (f s (Some x)) as [s1 rt].
  destruct Hf as [(Hr & Hlive)|(Hr & Hlive)]; cbn [fst snd] in *; subst.
  - rewrite Z.eqb_refl. unfold owns, owned. cbn. rewrite Hlive, Hl. destruct (dlc_created_ p), (dlc_handle_ p); set_solver.
  - apply Z.eqb_neq in Hr. rewrite Hr. unfold owns, owned. cbn. rewrite Hx, Hlive, Hl. set_solver.
Qed.

Lemma keeps_attempt Q c : skeeps Q c → skeeps Q (attempt c).
Proof. intros Hc s Hs. unfold attempt. specialize (Hc s Hs). by destruct (c s) as [s1 [|[]]]. Qed.

Lemma keeps_Release others : skeeps (owns others) Release.
Proof. unfold Release. keep; apply keeps_attempt; [apply keeps_ReleaseDlc|apply keeps_ReleaseSystemLog]. Qed.

Lemma keeps_or_release others c : skeeps (owns others) c → skeeps (owns others) (or_release c).
Proof.
  intros Hc s Hs. unfold or_release. specialize (Hc s Hs). destruct (c s) as [s1 [|[]]]; [done| |done|done].
  apply (skeeps_bind (owns others)); [apply keeps_attempt, keeps_Release|intros ?; apply skeeps_lift|done].
Qed.

(** A release that succeeds leaves nothing behind. *)
Lemma Release_Ok c c' : Release c = (c', Ok tt) → owned c'.1 = ∅.
Proof.
  unfold Release. intros E. apply sbind_Ok in E as (c1 & b1 & E1 & E). apply sbind_Ok in E as (c2 & b2 & E2 & E).
  apply slift_Ok in E as [-> E]. apply return_if_Ok in E. apply negb_false_iff, andb_true_iff in E as [-> ->].
  assert (dlc_created_ c1.1 = false) as Hd.
  { unfold attempt in E1. destruct (ReleaseDlc c) as [c1' [[]|[]]] eqn:Er; try done. injection E1 as ->.
    destruct c as [p s]. unfold ReleaseDlc in Er. apply sbind_Ok in Er as (c0 & q & [= <- <-] & Er). cbn [fst] in Er.
    destruct (dlc_created_ p) eqn:Hp; [|by injection Er as <-]. cbn [negb] in Er.
    apply sbind_Ok in Er as (? & ? & _ & Er). apply sbind_Ok in Er as (? & ? & _ & Er). apply sbind_Ok in Er as (? & ? & _ & Er).
    apply sbind_Ok in Er as ([??] & ? & _ & Er). by injection Er as <-. }
  unfold attempt in E2. destruct (ReleaseSystemLog c1) as [c2' [[]|[]]] eqn:Er; try done. injection E2 as ->.
  destruct c1 as [p s]. cbn [fst] in *. unfold ReleaseSystemLog in Er. apply sbind_Ok in Er as (c0 & q & [= <- <-] & Er). cbn [fst] in Er.
  destruct (system_log_handle_ p) as [x|] eqn:Hx.
  - cbn [bool_decide negb] in Er. rewrite bool_decide_true in Er by eauto. cbn [negb] in Er.
    apply sbind_Ok in Er as (? & ? & [-> _]%slift_Ok & Er). apply sbind_Ok in Er as ([p1 s1] & ? & E3 & Er).
    unfold on_system in E3. destruct (_ s) as [s2 r]. injection E3 as <- <- _.
    apply sbind_Ok in Er as (? & ? & [-> _]%slift_Ok & Er). injection Er as <-. unfold owned. cbn. rewrite Hd. set_solver.
  - cbn in Er. injection Er as <-. unfold owned. cbn. rewrite Hx, Hd. set_solver.
Qed.

(** The reading operations. *)
Definition same_live (l : gset (sys_kind * nat)) (s : sys_state) : Prop := live s = l.


Lemma keeps_binary_info l h b : skeeps (same_live l) (GetGraphInfoAndBinVersion h b).
Proof.
  intros s Hs. unfold GetGraphInfoAndBinVersion, unchecked. destruct systemContextGetBinaryInfo as [f|] eqn:Ef; [|done].
  unfold sbind, slift. pose proof (binary_info_live f s h b Ef) as Hf. destruct (f s h b) as [[s1 rt] i]. cbn in *.
  assert (live s1 = l) as Hl by (by rewrite Hf). by destruct (return_if _ _).
Qed.

Lemma keeps_spill_binary msg l h m b : skeeps (same_live l) (spill_of_binary msg h m b).
Proof. unfold spill_of_binary. apply skeeps_bind; [apply keeps_binary_info|]. intros [n g]. apply skeeps_lift. Qed.

Lemma keeps_spill_records l h m bs : skeeps (same_live l) (spill_of_records h m bs).
Proof. revert m. induction bs as [|b bs IH]; intros m; [apply skeeps_ret|]. apply skeeps_bind; [apply keeps_spill_binary|done]. Qed.

(** A system context lives as long as the step that uses it. *)
Lemma keeps_system_context {A} l msg (body : nat → St sys_state A) : (∀ h l, skeeps (same_live l) (body h)) →
  skeeps (same_live l) (with_system_context msg body).
Proof.
  intros Hb s Hs. unfold with_system_context, GetSystemContextHandle, unchecked, sbind, slift.
  destruct systemContextCreate as [f|] eqn:Ef; [|done]. pose proof (context_create f s Ef) as Hf. destruct (f s) as [[s1 rt] h].
  destruct Hf as [(Hr & x & Hx & Hnew & Hlive)|(Hr & Hx & Hlive)]; cbn [fst snd] in *; subst.
  - rewrite Z.eqb_refl. pose proof (Hb x _ s1 eq_refl) as Hk. destruct (body x s1) as [s2 r]. cbn in *. unfold same_live in *.
    rewrite context_free, Hk, Hlive by (rewrite Hk, Hlive; set_solver). rewrite <- Hs. set_solver.
  - assert (live s1 = l) as Hl by (by rewrite Hlive). by destruct (rt =? QNN_SUCCESS).
Qed.

Lemma keeps_on_system {A} others (c : St sys_state A) : (∀ l, skeeps (same_live l) c) → skeeps (owns others) (on_system c).
Proof.
  intros Hc [p s] Ho. unfold on_system. pose proof (Hc _ s eq_refl) as Hk. destruct (c s) as [s1 r]. cbn in Hk. unfold same_live in Hk.
  unfold owns in *. cbn in *. by rewrite Hk.
Qed.

Lemma keeps_records others b : skeeps (owns others) (GetDlcRecordBuffers b).
Proof.
  unfold GetDlcRecordBuffers. keep. intros [p s] Ho. case_match. revert Ho. apply (skeeps_bind (owns others)); [apply skeeps_status|].
  intros _. keep. apply skeeps_map. intros r [p' s'] Ho. unfold read_record, sbind, sget. cbn. case_match. by destruct (negb _).
Qed.

(** ** No handle is leaked *)

Inductive plugin_op :=
| OpSetupDlc | OpSetupDlcFromBinary (buffer : list Z) | OpAddContextToDlc (context : nat) | OpGetDlcBinaryBuffer
| OpGetDlcBinaryInfo (sys_ctx_handle : nat) | OpGetDlcMaxSpillFillBufferSize | OpRelease.
Definition run_op (o : plugin_op) (c : DlcPlugin * sys_state) : DlcPlugin * sys_state :=
  match o with
  | OpSetupDlc => (SetupDlc c).1
  | OpSetupDlcFromBinary b => (SetupDlcFromBinary b c).1
  | OpAddContextToDlc x => (AddContextToDlc x c).1
  | OpGetDlcBinaryBuffer => (GetDlcBinaryBuffer c).1
  | OpGetDlcBinaryInfo h => (GetDlcBinaryInfo h c).1
  | OpGetDlcMaxSpillFillBufferSize => (GetDlcMaxSpillFillBufferSize c).1
  | OpRelease => (Release c).1
  end.

Lemma run_op_owns others o c : owns others c → owns others (run_op o c).
Proof.
  revert c. destruct o; cbn [run_op].
  - apply keeps_or_release, skeeps_bind; [apply keeps_CreateSystemLog|intros _; apply keeps_CreateEmptyDlc].
  - apply keeps_or_release, skeeps_bind; [apply keeps_CreateSystemLog|intros _; apply keeps_CreateDlcFromBinary].
  - intros [p s] Ho. unfold AddContextToDlc, function, sbind at 1, slift. destruct contextAddToDlc as [f|] eqn:Ef; [|done].
    revert Ho. apply (skeeps_bind (owns others)); [apply skeeps_get|]. intros q. apply skeeps_bind; [|intros ?; apply skeeps_status].
    apply keeps_on_system. intros l s' Hs. pose proof (add_live f s' context (dlc_handle_ q) Ef) as Hf. destruct (f s' context (dlc_handle_ q)).
    cbn in *. unfold same_live. by rewrite Hf.
  - intros [p s] Ho. unfold GetDlcBinaryBuffer, sbind, sget, slift, function. cbn. destruct (dlc_created_ p); [|done]. cbn.
    destruct systemDlcGetBinarySize as [f|]; [|done]. destruct systemDlcGetBinary as [g|]; [|done]. cbn.
    destruct (f s (dlc_handle_ p)) as [r1 req]. cbn. destruct (return_if _ _); [|done]. destruct (g s (dlc_handle_ p) req) as [[r2 w] b]. cbn.
    destruct (return_if _ _); [|done]. by destruct (return_if _ _).
  - apply skeeps_bind; [apply skeeps_get|]. intros p. apply skeeps_bind; [apply skeeps_lift|]. intros _.
    apply skeeps_bind; [apply keeps_records|]. intros bs. apply skeeps_bind; [apply skeeps_lift|]. intros b.
    apply keeps_on_system. intros l. apply keeps_binary_info.
  - apply skeeps_bind; [apply skeeps_get|]. intros p. apply skeeps_bind; [apply skeeps_lift|]. intros _.
    apply skeeps_bind; [apply keeps_records|]. intros bs. apply keeps_on_system. intros l.
    apply keeps_system_context. intros h l'. apply keeps_spill_records.
  - apply keeps_Release.
Qed.

(** Whatever is done with a new plugin, the live handles of the library are those from before and
    the ones it owns; after a release that succeeds they are exactly those from before, also when
    the set-up failed half way. *)
Theorem dlc_handles_accounted (s : sys_state) (ops : list plugin_op) (c := foldl (fun c o => run_op o c) (new_plugin, s) ops) :
  live c.2 = live s ∪ owned c.1 ∧ live s ## owned c.1 ∧
  ∀ c', Release c = (c', Ok tt) → live c'.2 = live s ∧ c'.1 = Dlc false (dlc_handle_ c'.1) None.
Proof.
  assert (owns (live s) c) as Hc.
  { unfold c. generalize (owns_new s). generalize (new_plugin, s). induction ops as [|o ops IH]; intros c0 Hc0; [done|].
    cbn. by apply IH, run_op_owns. }
  destruct Hc as (Hl & Hd & Hh). split_and!; [done|done|]. intros c' E.
  pose proof (keeps_Release (live s) c (conj Hl (conj Hd Hh))) as (Hl' & _ & Hh'). rewrite E in Hl', Hh'. cbn in Hl', Hh'.
  pose proof (Release_Ok _ _ E) as Ho. rewrite Ho in Hl'. split; [set_solver|]. destruct c' as [[cr h lg] s']. cbn in *.
  unfold owned in Ho. cbn in Ho. destruct cr; [destruct (Hh' eq_refl) as [x ->]; destruct lg; set_solver|].
  destruct lg; [set_solver|done].
Qed.
End Handles.

(** ** A library that keeps its promises *)

Module SystemExample.

(** Handles are numbered; a binary names its graphs one byte each. *)
Definition new_handle (k : sys_kind) (s : gset (sys_kind * nat)) : nat := fresh (set_map (D := gset nat) snd s).
Definition create (k : sys_kind) (s : gset (sys_kind * nat)) : gset (sys_kind * nat) * Z * option nat :=
  ({[(k, new_handle k s)]} ∪ s, QNN_SUCCESS, Some (new_handle k s)).
Definition free (k : sys_kind) (s : gset (sys_kind * nat)) (h : option nat) : gset (sys_kind * nat) * Z :=
  match h with Some x => (s ∖ {[(k, x)]}, QNN_SUCCESS) | None => (s, 1) end.
Definition io_tensor (n : string) (t : Qnn_TensorType_t) : Qnn_Tensor_t := TENSOR_V1 (Body 0 (Some n) t 0 QNN_FLOAT_32
  QNN_QUANTIZE_PARAMS_INIT 1 (Some [1]) TENSORMEMTYPE_RAW (ClientBuffer PNull 0)).
Definition describe_graph (b : Z) : QnnSystemContext_GraphInfo :=
  SystemGraph (SysGraph 3 (Some (String (Ascii.ascii_of_N (Z.to_N b)) EmptyString)) (Some [io_tensor "x" TENSOR_TYPE_APP_WRITE])
    (Some [io_tensor "y" TENSOR_TYPE_APP_READ])) (Some (HtpBlob 1 (b * 16))).
Definition describe (buffer : list Z) : QnnSystemContext_BinaryInfo :=
  BinaryInfo 3 (length buffer) (Some (describe_graph <$> buffer)).

#[export] Instance system_library : QnnSystemApi := {|
  sys_state := gset (sys_kind * nat);
  systemContextCreate := Some (create SysContext);
  systemContextFree := Some (fun s h => s ∖ {[(SysContext, h)]});
  systemContextGetBinaryInfo := Some (fun s _ buffer => (s, QNN_SUCCESS, Some (describe buffer)));
  systemLogCreate := Some (create SysLog);
  systemLogFree := Some (free SysLog);
  systemDlcCreateWithDestinationDir := Some (fun s _ => create SysContainer s);
  systemDlcCreateFromBinary := Some (fun s _ buffer => if bool_decide (buffer = []) then (s, 7, None) else create SysContainer s);
  systemDlcFree := Some (free SysContainer);
  systemDlcGetBinarySize := None;
  systemDlcGetBinary := None;
  systemDlcGetRecordsByType := Some (fun _ _ _ => (QNN_SUCCESS, [0%nat; 1%nat]));
  systemDlcReadRecordDataMemoryMapped := Some (fun _ r => (QNN_SUCCESS, [Z.of_nat r + 65]));
  contextAddToDlc := Some (fun s _ _ => (s, QNN_SUCCESS));
  error_string := pretty
|}.

Lemma create_creates k s : creates (fun s : sys_state => s) k s (create k s).
Proof.
  left. split; [done|]. exists (new_handle k s). split_and!; [done| |done]. cbn. intros Hin.
  apply (is_fresh (set_map (D := gset nat) snd s)). apply elem_of_map. by exists (k, new_handle k s).
Qed.

#[export] Instance system_library_laws : QnnSystemLaws.
Proof.
  refine {| live := fun s : sys_state => s |}; cbn.
  - intros f s [= <-]. apply create_creates.
  - intros f s x [= <-] _. by left.
  - intros f s l [= <-]. apply create_creates.
  - intros f s l b [= <-]. case_bool_decide; [by right|apply create_creates].
  - intros f s x [= <-] _. by left.
  - intros f s [= <-]. apply create_creates.
  - done.
  - by intros f s h b [= <-].
  - by intros f s c h [= <-].
Defined.

(** A set-up that fails with the container has released the log; the largest buffer over the records
    of a container. *)
Lemma failed_setup_released : (SetupDlcFromBinary [] (new_plugin, ∅)).1 = (new_plugin, ∅).
Proof. vm_compute. reflexivity. Qed.
Lemma spill_over_records : (let$ _ := SetupDlc in GetDlcMaxSpillFillBufferSize) (new_plugin, ∅) =
  ((Dlc true (Some 1%nat) (Some 0%nat), {[(SysLog, 0%nat); (SysContainer, 1%nat)]}), Ok 1056).
Proof. vm_compute. reflexivity. Qed.

End SystemExample.
