(* ===== verification/Session.v ===== *)
(** * Loading compiled contexts into a session

    A session that is given a context model does not compile: it creates the QNN contexts from their
    binaries, takes the graphs out of them and connects each fused node with its graph.  This file
    models [LoadCachedQnnContextFromBuffer] of the backend manager ([builder/qnn_backend_manager.cc]),
    [CompileContextModel] and [ReloadCompiledContext] of the provider ([qnn_execution_provider.cc]),
    on top of the models of the nodes ([ContextModel]), of the graphs ([Execution]), and of the
    system library ([SystemDlc]).  The build is the one without file-mapped weights; op traces are
    left out. *)

From stdpp Require Import pretty gmap.
From S2P Require Import Prelude DataTypes QnnTensor OpParams ModelWrapper Memory GraphIO Power EpOptions ContextModel Execution SystemDlc.
Local Open Scope Z_scope.

Section Session.
Context `{SafeInt} `{RpcMem} `{QnnMem} `{QnnGraphApi} `{QnnSystemApi} `{!QnnContextBinary} `{EpContextApp}.

(** ** State *)

(** What the provider has: its models by the name of the fused node, the backend manager, the
    system library, the models shared with other sessions, and the files. *)
Record Ep := EpState {
  qnn_models_ : gmap string QnnModel;
  ep_backend : backend;
  context_created_ : bool;
  ep_system : SystemDlc * sys_state;
  shared_qnn_models_ : list QnnModel;
  ep_world : CtxWorld
}.
Definition with_models (e : Ep) (m : gmap string QnnModel) : Ep :=
  EpState m (ep_backend e) (context_created_ e) (ep_system e) (shared_qnn_models_ e) (ep_world e).
Definition with_backend (e : Ep) (b : backend) : Ep :=
  EpState (qnn_models_ e) b (context_created_ e) (ep_system e) (shared_qnn_models_ e) (ep_world e).
Definition with_created (e : Ep) (c : bool) : Ep :=
  EpState (qnn_models_ e) (ep_backend e) c (ep_system e) (shared_qnn_models_ e) (ep_world e).
Definition with_system (e : Ep) (s : SystemDlc * sys_state) : Ep :=
  EpState (qnn_models_ e) (ep_backend e) (context_created_ e) s (shared_qnn_models_ e) (ep_world e).
Definition with_shared (e : Ep) (l : list QnnModel) : Ep :=
  EpState (qnn_models_ e) (ep_backend e) (context_created_ e) (ep_system e) l (ep_world e).

(** The settings of the session: those of [Execution], and those of the provider. *)
Record ep_settings := EpSettings {
  run_settings : session;
  QNN_TENSOR_INIT : Qnn_Tensor_t;
  share_ep_contexts_ : bool;
  htp_share_resource_optimization_ : bool;
  enable_htp_fp16_clamp_overflow : bool;
  context_cache_path_cfg_ : string;
  model_path : string;
  setup_profiling_scope : string → result bool;
  extract_setup_profile : string → result unit
}.
Variable cfg : ep_settings.

Definition E : Type → Type := St Ep.
Definition ep_modify (f : Ep → Ep) : E unit := sset f.

(** A step of one model with the backend manager; the model that comes out is part of the answer. *)
Definition on_model {A} (m : QnnModel) (c : X A) : E (QnnModel * A) := fun e =>
  let '((m, b), r) := c (m, ep_backend e) in (with_backend e b, rmap (fun a => (m, a)) r).
Definition on_manager {A} (c : BM A) : E A := fun e => let (s, r) := c (ep_system e) in (with_system e s, r).
Definition on_library {A} (c : St sys_state A) : E A := fun e =>
  let (s, r) := c (ep_system e).2 in (with_system e ((ep_system e).1, s), r).

(** [std::make_unique<qnn::QnnModel>] *)
Definition new_model : QnnModel := Model_ None (Emit None None "") Clear Clear [] [] "" 0 false false.

(** [Name], of a model whose graph is known. *)
Definition model_Name (m : QnnModel) : string := match graph_info_ m with Some g => gi_name g | None => "" end.

Definition SetContextRecoveryInfo (filepath : string) (max_spill_fill_size : Z) (m : QnnModel) : QnnModel :=
  Model_ (graph_info_ m) (qnn_graph_emitter_ m) (m_graph_inputs_ m) (m_graph_outputs_ m) (qnn_input_infos_ m) (qnn_output_infos_ m)
    filepath max_spill_fill_size (runtime_graph_configs_ m) (zero_copy_fallback_warned_ m).

(** ** Loading a binary *)

(** The temporary plugin is destroyed at the end of its block, on every path. *)
Definition with_plugin {A} (c : P A) : E A := fun e =>
  let '(ps, r) := c (new_plugin, (ep_system e).2) in (with_system e ((ep_system e).1, destroy_plugin ps), r).

Definition binary_info (h : nat) (buffer : list Z) (is_multi_soc_buffer : bool) : E (nat * option (list QnnSystemContext_GraphInfo)) :=
  if negb is_multi_soc_buffer then on_library (GetGraphInfoAndBinVersion h buffer)
  else with_plugin
    (let$ _ := SetupDlcFromBinary buffer in
     let$ info := GetDlcBinaryInfo h in
     let$ _ := Release in
     sret info).

(** The context of the binary: found by name when resources are shared, created otherwise.  It joins
    the spill-fill group of the first context if there is one. *)
Definition context_of_binary (buffer : list Z) (context_bin_filepath node_name : string) (max_spill_fill_size : Z) : E nat :=
  let$ b := sget ep_backend in
  if htp_share_resource_optimization_ cfg then
    slift (match ep_context_handle_map_ b !! node_name with
      | Some c => Ok c
      | None => Err (EpFail ("Failed to retrieve context for " +:+ node_name))
      end)
  else
  let$ first_group_handle :=
    if (0 <? max_spill_fill_size) && (0 <? length (contexts_ b))%nat then slift (rmap Some (GetQnnContext b 0)) else sret None in
  let$ configs := slift (BuildContextBinaryConfigs (context_priority_ (run_settings cfg)) max_spill_fill_size first_group_handle) in
  let$ active := slift (setup_profiling_scope cfg node_name) in
  let$ (_, context) := on_model new_model
    (CreateContextHandleFromBinary (io_dispatch (run_settings cfg)) configs (Some buffer) context_bin_filepath) in
  let$ _ := on_model new_model (AddQnnContextHandle_ context) in
  let$ _ := slift (if active then extract_setup_profile cfg node_name else Ok tt) in
  sret context.

Definition deserialize (graphs_info : option (list QnnSystemContext_GraphInfo)) (context i : nat) : E QnnModel :=
  let$ g := slift (graph_at graphs_info i) in
  let$ (m, _) := on_model new_model (DeserializeGraphInfoFromBinaryInfo (QNN_TENSOR_INIT cfg) (graph_info_of g) (Some context)) in
  sret m.

(** The graphs [from], [from + 1], ... under their own names. *)
Fixpoint deserialize_all (graphs_info : option (list QnnSystemContext_GraphInfo)) (context from count : nat)
  (qnn_models : gmap string QnnModel) : E (gmap string QnnModel) :=
  match count with
  | O => sret qnn_models
  | S count =>
      let$ m := deserialize graphs_info context from in
      deserialize_all graphs_info context (S from) count (emplace_new (model_Name m) m qnn_models)
  end.

Definition load_graphs (graphs_info : option (list QnnSystemContext_GraphInfo)) (context graph_count : nat) (node_name : string)
  (qnn_models : gmap string QnnModel) : E (gmap string QnnModel) :=
  if (graph_count =? 1)%nat then
    let$ m := deserialize graphs_info context 0 in sret (emplace_new node_name m qnn_models)
  else deserialize_all graphs_info context 0 graph_count qnn_models.

(** [GetSystemContextHandle], freed on every path. *)
Definition with_system_handle {A} (body : nat → E A) : E A :=
  let$ h := on_library GetSystemContextHandle in
  match h with
  | None => slift (Err (EpFail "System context handle is null."))
  | Some h => fun e => let (e, r) := body h e in (with_system e ((ep_system e).1, free_system_context h (ep_system e).2), r)
  end.

(** The table of models is passed in and comes out with the graphs of the binary. *)
Definition LoadCachedQnnContextFromBuffer (buffer : list Z) (context_bin_filepath node_name : string)
  (qnn_models : gmap string QnnModel) (max_spill_fill_size : Z) (is_multi_soc_buffer : bool) : E (gmap string QnnModel) :=
  let$ _ := slift (return_if_not
    (bool_decide (is_Some systemContextCreate) && bool_decide (is_Some systemContextGetBinaryInfo) && bool_decide (is_Some systemContextFree))
    "Failed to get valid function pointer.") in
  with_system_handle (fun h =>
    let$ (graph_count, graphs_info) := binary_info h buffer is_multi_soc_buffer in
    let$ _ := slift (return_if ((graph_count <? 1)%nat || negb (bool_decide (is_Some graphs_info))) "Failed to get graph info from Qnn cached context.") in
    let$ context := context_of_binary buffer context_bin_filepath node_name max_spill_fill_size in
    let$ qnn_models := load_graphs graphs_info context graph_count node_name qnn_models in
    let qnn_models := if negb (bool_decide (context_bin_filepath = ""))
      then SetContextRecoveryInfo context_bin_filepath max_spill_fill_size <$> qnn_models else qnn_models in
    let$ _ := ep_modify (fun e => with_created e true) in
    sret qnn_models).

(** ** Connecting the fused nodes *)

(** A fused node as the C API describes it. *)
Record FusedNode := Fused {
  fused_name : string;
  fused_initializers : initializer_list;
  fused_inputs : list ValueDef;
  fused_outputs : list ValueDef
}.

Definition node_context (f : FusedNode) (onnx_names : option (list string * list string)) (overrides : gmap string string) : QnnModelContext :=
  Context_ (fused_initializers f) (fused_inputs f) (fused_outputs f) (fst <$> onnx_names) (snd <$> onnx_names)
    (if bool_decide (overrides = ∅) then None else Some (map_to_list overrides)).

(** [QnnModel::SetGraphInputOutputInfo] *)
Definition SetModelInputOutputInfo (c : QnnModelContext) : X unit := fun '(m, b) =>
  let names := (fun g => (tensor_name_ <$> gi_inputs g, tensor_name_ <$> gi_outputs g)) <$> graph_info_ m in
  let '(i, o, r) := SetGraphInputOutputInfo c names in
  ((Model_ (graph_info_ m) (qnn_graph_emitter_ m) i o (qnn_input_infos_ m) (qnn_output_infos_ m) (context_bin_filepath_ m)
      (max_spill_fill_size_ m) (runtime_graph_configs_ m) (zero_copy_fallback_warned_ m), b), r).

Definition connect (f : FusedNode) (overrides : gmap string string) (m : QnnModel) : E unit :=
  let$ (m, _) := on_model m
    (let@ _ := SetModelInputOutputInfo (node_context f None overrides) in
     let@ _ := SetupQnnInputOutput (run_settings cfg) in
     ApplyRuntimeGraphConfigs (run_settings cfg) (enable_htp_fp16_clamp_overflow cfg)) in
  ep_modify (fun e => with_models e (emplace_new (fused_name f) m (qnn_models_ e))).

(** A graph of the session: its fused node, the name of its EPContext node, and the overridden names. *)
Record context_row := Row { row_fused : FusedNode; row_node : string; row_overrides : gmap string string }.
Fixpoint collect_rows (graphs : list (list CtxNode)) (fused_nodes : list FusedNode) : result (list context_row) :=
  match graphs, fused_nodes with
  | g :: graphs, f :: fused_nodes =>
      let* n := aget g 0 in
      let* rest := collect_rows graphs fused_nodes in
      Ok (Row f (cn_name n) (ParseIoNameOverrides (Some n)) :: rest)
  | _, _ => Ok []
  end.

Definition connect_shared (r : context_row) : E unit := fun e =>
  let (m, l) := GetSharedQnnModel model_Name (shared_qnn_models_ e) (row_node r) in
  match m with
  | None => (e, Err (EpFail ("Graph: " +:+ row_node r +:+ " not found from shared EP contexts.")))
  | Some m => connect (row_fused r) (row_overrides r) m (with_shared e l)
  end.

(** The model of the node's own name, else the one of the first main context; it leaves the table. *)
Definition adopt (main_name : string) (qnn_models : gmap string QnnModel) (r : context_row) : E (gmap string QnnModel) :=
  let key := if bool_decide (is_Some (qnn_models !! row_node r)) then row_node r else main_name in
  match qnn_models !! key with
  | None => slift (Err (EpFail (row_node r +:+ " context node name not exists in table qnn_models.")))
  | Some m => let$ _ := connect (row_fused r) (row_overrides r) m in sret (delete key qnn_models)
  end.
Fixpoint adopt_all (main_name : string) (qnn_models : gmap string QnnModel) (rows : list context_row) : E (gmap string QnnModel) :=
  match rows with
  | [] => sret qnn_models
  | r :: rows => let$ qnn_models := adopt main_name qnn_models r in adopt_all main_name qnn_models rows
  end.

(** [LoadQnnCtxFromOnnxGraph], to the end: an error of the manager is reported as that of the model. *)
Definition load_context (context_model_path : string) (max_spill_fill_size : Z) (qnn_models : gmap string QnnModel) (graph : list CtxNode)
  : E (gmap string QnnModel) :=
  let$ w := sget ep_world in
  let$ l := slift (LoadQnnCtxFromOnnxGraph w graph context_model_path) in
  fun e => match LoadCachedQnnContextFromBuffer (load_buffer l) (load_context_bin_filepath l) (load_node_name l) qnn_models
                   max_spill_fill_size (load_is_multi_soc l) e with
    | (e, Err (EpFail msg)) => (e, Err (EpFail ("Failed to load from EpContext model. " +:+ msg)))
    | r => r
    end.
Fixpoint load_contexts (context_model_path : string) (max_spill_fill_size : Z) (graphs : list (list CtxNode)) (positions : list nat)
  (qnn_models : gmap string QnnModel) : E (gmap string QnnModel) :=
  match positions with
  | [] => sret qnn_models
  | p :: positions =>
      let$ g := slift (aget graphs p) in
      let$ qnn_models := load_context context_model_path max_spill_fill_size qnn_models g in
      load_contexts context_model_path max_spill_fill_size graphs positions qnn_models
  end.

(** What is left of the table goes to the other sessions. *)
Definition share_rest (qnn_models : gmap string QnnModel) : E unit :=
  if share_ep_contexts_ cfg && negb (bool_decide (qnn_models = ∅)) then fun e =>
    let '(l, has_duplicate_graph, names) := SetSharedQnnModel model_Name (shared_qnn_models_ e) (map_to_list qnn_models).*2 "" in
    (with_shared e l, return_if has_duplicate_graph ("Duplicate graph names detect across sessions: " +:+ names))
  else sret tt.

Definition context_model_path : string := GetContextOnnxModelFilePath (context_cache_path_cfg_ cfg) (model_path cfg).

Definition CompileContextModel (graphs : list (list CtxNode)) (fused_nodes : list FusedNode) : E unit :=
  let$ rows := slift (collect_rows graphs fused_nodes) in
  let$ e := sget (fun e => e) in
  if share_ep_contexts_ cfg && HasSharedQnnModels (shared_qnn_models_ e) && forallb (fun r => HasQnnModel model_Name (shared_qnn_models_ e) (row_node r)) rows then
    let$ _ := smap connect_shared rows in sret tt
  else
  let$ main_context_pos_list := slift (GetMainContextNode graphs) in
  let$ total_context_size := slift (Pad.safe_u32 (Z.of_nat (length main_context_pos_list))) in
  let$ (max_spill_fill_size, main_context_pos_list) :=
    slift (if 1 <? total_context_size then TryGetMaxSpillFillSize graphs (Z.to_nat total_context_size) main_context_pos_list
           else Ok (0, main_context_pos_list)) in
  let$ qnn_models := load_contexts context_model_path max_spill_fill_size graphs main_context_pos_list ∅ in
  let$ main := slift (let* p := aget main_context_pos_list 0 in aget rows p) in
  let$ qnn_models := adopt_all (row_node main) qnn_models rows in
  share_rest qnn_models.

(** ** Reloading the context of a compiled model *)

(** [ReleaseContext]: every context is freed, with the memory handles in it. *)
Definition ReleaseContext : E unit := fun e =>
  let b := ep_backend e in
  let free b c := (ReleaseSpecificContextHandle (Some c) (new_model, b)).1.2 in
  let b := foldl free b (map_to_list (mem_handles_ (memory b))).*1 in
  (with_created (with_backend e (Backend (memory b) [] ∅ (power b) (per_thread b) (api b))) false, Ok tt).

Definition reload_failed (msg : string) {A} (c : E A) : E A := fun e =>
  match c e with (e, Err (EpFail m)) => (e, Err (EpFail (msg +:+ m))) | r => r end.

(** The model of the fused node's name, or the only one there is. *)
Definition reloaded_key (count : nat) (loaded_models : gmap string QnnModel) (n : string) : option string :=
  if bool_decide (is_Some (loaded_models !! n)) then Some n
  else match (map_to_list loaded_models).*1 with [k] => if (count =? 1)%nat then Some k else None | _ => None end.

(** The names come from the ONNX graph; no overridden names are passed. *)
Fixpoint reconnect (onnx_names : list string * list string) (count : nat) (loaded_models : gmap string QnnModel) (fused_nodes : list FusedNode) : E unit :=
  match fused_nodes with
  | [] => sret tt
  | f :: fused_nodes =>
      match reloaded_key count loaded_models (fused_name f) with
      | None => slift (Err (EpFail ("prepare_and_load: No loaded model found for fused node: " +:+ fused_name f)))
      | Some k =>
          let$ m := slift (match loaded_models !! k with Some m => Ok m | None => Err Trap end) in
          let$ (m, _) := on_model m
            (let@ _ := SetModelInputOutputInfo (node_context f (Some onnx_names) ∅) in SetupQnnInputOutput (run_settings cfg)) in
          let$ _ := ep_modify (fun e => with_models e (emplace_new (fused_name f) m (qnn_models_ e))) in
          reconnect onnx_names count (delete k loaded_models) fused_nodes
      end
  end.

Definition ReloadCompiledContext (onnx_names : list string * list string) (fused_nodes : list FusedNode) : E unit :=
  let$ e := sget (fun e => e) in
  let$ buffer := reload_failed "prepare_and_load: Failed to extract context binary buffer: "
    (on_manager (GetContextBinaryBuffer (api (ep_backend e)) (contexts_ (ep_backend e)) false)) in
  let$ _ := slift (return_if (bool_decide (buffer = [])) "prepare_and_load: Context binary buffer is empty.") in
  let$ _ := ep_modify (fun e => with_models e ∅) in
  let$ _ := reload_failed "prepare_and_load: ReleaseContext failed: " ReleaseContext in
  let$ first := slift (aget (fused_name <$> fused_nodes) 0) in
  let$ loaded_models := reload_failed "prepare_and_load: Failed to reload context: "
    (LoadCachedQnnContextFromBuffer buffer "" first ∅ 0 false) in
  reconnect onnx_names (length fused_nodes) loaded_models fused_nodes.

End Session.

(** ** What a load leaves *)

Section Facts.
Context `{SafeInt} `{RpcMem} `{QnnMem} `{QnnGraphApi} `{QnnSystemApi} `{!QnnContextBinary} `{EpContextApp}.
Variable cfg : ep_settings.

(** The steps of a load change neither the models of the session nor the shared ones, and only add contexts. *)
Definition load_frame (e e' : Ep) : Prop :=
  qnn_models_ e' = qnn_models_ e ∧ shared_qnn_models_ e' = shared_qnn_models_ e ∧
  contexts_ (ep_backend e) `prefix_of` contexts_ (ep_backend e').

Lemma load_frame_refl e : load_frame e e.
Proof. by repeat split. Qed.
Lemma load_frame_trans e1 e2 e3 : load_frame e1 e2 → load_frame e2 e3 → load_frame e1 e3.
Proof. intros (A1 & A2 & A3) (B1 & B2 & B3). repeat split; [congruence|congruence|by etrans]. Qed.
Lemma load_frame_system e s : load_frame e (with_system e s).
Proof. by repeat split. Qed.
Lemma load_frame_api e st : load_frame e (with_backend e (with_api (ep_backend e) st)).
Proof. by repeat split. Qed.

Lemma on_model_Ok {A} m (c : X A) e e' m' a : on_model m c e = (e', Ok (m', a)) →
  ∃ b, c (m, ep_backend e) = ((m', b), Ok a) ∧ e' = with_backend e b.
Proof. unfold on_model. destruct (c (m, ep_backend e)) as [[m1 b] [a1|]]; [|done]. intros [= <- <- <-]. by exists b. Qed.

Lemma on_library_frame {A} (c : St sys_state A) e : load_frame e (on_library c e).1.
Proof. unfold on_library. destruct (c _) as [s r]. apply load_frame_system. Qed.

(** A graph of the binary, in a model of its own. *)
Lemma deserialize_spec gi c i e e' m : deserialize cfg gi c i e = (e', Ok m) →
  ∃ st g, e' = with_backend e (with_api (ep_backend e) st) ∧ graph_info_ m = Some g ∧ gi_context g = Some c ∧ context_bin_filepath_ m = "" ∧
    (∃ s, graph_at gi i = Ok s ∧ sys_graphName (graph_info_of s) = Some (gi_name g)).
Proof.
  unfold deserialize. intros E. apply sbind_Ok in E as (e1 & s & [-> Es]%slift_Ok & E).
  apply sbind_Ok in E as (e2 & [m1 []] & E1 & E). injection E as <- <-. apply on_model_Ok in E1 as (b & E1 & ->).
  unfold DeserializeGraphInfoFromBinaryInfo in E1. apply xbind_Ok in E1 as (s1 & [] & [-> _]%xlift_Ok & E1).
  apply xbind_Ok in E1 as (s1 & n & [-> En]%xlift_Ok & E1). apply xbind_Ok in E1 as (s1 & ii & [-> _]%xlift_Ok & E1).
  apply xbind_Ok in E1 as (s1 & oo & [-> _]%xlift_Ok & E1). apply xbind_Ok in E1 as (s1 & iw & [-> _]%xlift_Ok & E1).
  apply xbind_Ok in E1 as (s1 & ow & [-> _]%xlift_Ok & E1). apply xbind_Ok in E1 as (s1 & g & E2 & E1).
  apply retrieve_spec in E2 as (h & st & -> & -> & _). injection E1 as <- <-. exists st. eexists. split_and!; [done|done|done|done|].
  exists s. split; [done|]. by destruct (sys_graphName _); [injection En as ->|].
Qed.

(** A binary that was loaded: the name of its node, the graphs that the system library found in it
    and the context that was created from it. *)
Record load := Load { ld_node : string; ld_count : nat; ld_graphs : option (list QnnSystemContext_GraphInfo); ld_context : nat }.

(** The model [m], under the name [k], holds one of these graphs: a graph that is alone in its binary
    is stored under the name of the node, the others under their own names. *)
Definition from_load (l : load) (k : string) (m : QnnModel) : Prop :=
  ∃ g i s, graph_info_ m = Some g ∧ gi_context g = Some (ld_context l) ∧ (i < ld_count l)%nat ∧ graph_at (ld_graphs l) i = Ok s ∧
    sys_graphName (graph_info_of s) = Some (gi_name g) ∧ k = (if (ld_count l =? 1)%nat then ld_node l else gi_name g).

Definition table_ok (loads : list load) (T : gmap string QnnModel) : Prop :=
  ∀ k m, T !! k = Some m → ∃ l, l ∈ loads ∧ from_load l k m.

Lemma table_more loads loads' T : loads ⊆ loads' → table_ok loads T → table_ok loads' T.
Proof. intros Hl HT k m (l & Hin & Hm)%HT. exists l. auto. Qed.

Lemma table_emplace l loads T k m : table_ok (l :: loads) T → from_load l k m → table_ok (l :: loads) (emplace_new k m T).
Proof.
  intros HT Hm k' m'. unfold emplace_new. destruct (T !! k) eqn:Ek; [apply HT|]. rewrite lookup_insert_Some.
  intros [[<- <-]|[_ Hk']]; [exists l; split; [left|done]|by apply HT].
Qed.

(** The table of names is that of the binary [l], whose graphs are read from [from] on. *)
Lemma deserialize_all_ok l loads from count T e e' T' : deserialize_all cfg (ld_graphs l) (ld_context l) from count T e = (e', Ok T') →
  ld_count l = (from + count)%nat → ld_count l ≠ 1%nat → table_ok (l :: loads) T → load_frame e e' ∧ table_ok (l :: loads) T'.
Proof.
  revert from T e. induction count as [|count IH]; intros from T e E Hn Hone HT.
  - injection E as <- <-. split; [apply load_frame_refl|done].
  - cbn in E. apply sbind_Ok in E as (e1 & m & E1 & E). apply deserialize_spec in E1 as (st & g & -> & Hg & Hc & _ & s & Hs & Hname).
    destruct (IH _ _ _ E) as [Hf HT']; [lia|done| |].
    + apply table_emplace; [done|]. exists g, from, s. split_and!; [done|done|lia|done|done|]. unfold model_Name. rewrite Hg.
      by rewrite (proj2 (Nat.eqb_neq _ _) Hone).
    + split; [|done]. eapply load_frame_trans; [apply load_frame_api|done].
Qed.

Lemma load_graphs_ok l loads T e e' T' : load_graphs cfg (ld_graphs l) (ld_context l) (ld_count l) (ld_node l) T e = (e', Ok T') →
  table_ok loads T → load_frame e e' ∧ table_ok (l :: loads) T'.
Proof.
  intros E HT. assert (table_ok (l :: loads) T) as HT1 by (eapply table_more; [|exact HT]; set_solver).
  unfold load_graphs in E. destruct (Nat.eqb_spec (ld_count l) 1) as [Hone|Hone].
  - apply sbind_Ok in E as (e1 & m & E1 & E). injection E as <- <-. apply deserialize_spec in E1 as (st & g & -> & Hg & Hc & _ & s & Hs & Hname).
    split; [apply load_frame_api|]. apply table_emplace; [done|]. exists g, 0%nat, s. split_and!; [done|done|lia|done|done|]. by rewrite Hone.
  - by apply (deserialize_all_ok l loads 0 (ld_count l)) in E.
Qed.

Lemma context_of_binary_ok buffer path node size e e' c : htp_share_resource_optimization_ cfg = false →
  context_of_binary cfg buffer path node size e = (e', Ok c) → load_frame e e' ∧ contexts_ (ep_backend e') = contexts_ (ep_backend e) ++ [c].
Proof.
  intros Hs E. unfold context_of_binary in E. apply sbind_Ok in E as (e1 & b & [= <- <-] & E). rewrite Hs in E.
  apply sbind_Ok in E as (e1 & h & E1 & E). assert (e1 = e) as -> by (destruct (_ && _); [by apply slift_Ok in E1 as [-> _]|by injection E1]).
  apply sbind_Ok in E as (e1 & configs & [-> _]%slift_Ok & E). apply sbind_Ok in E as (e1 & active & [-> _]%slift_Ok & E).
  apply sbind_Ok in E as (e1 & [m1 c1] & E2 & E). apply on_model_Ok in E2 as (b1 & E2 & ->).
  apply create_spec in E2 as (_ & st & Hb & _). cbn in Hb. subst b1.
  apply sbind_Ok in E as (e2 & [m2 []] & E3 & E). apply on_model_Ok in E3 as (b2 & E3 & ->).
  apply sbind_Ok in E as (e2 & [] & [-> _]%slift_Ok & E). injection E as <- <-.
  unfold AddQnnContextHandle_ in E3. destruct (AddQnnContextHandle _ _) as [w [er|]]; [done|]. injection E3 as <- <-.
  split; [|done]. repeat split. cbn. by apply prefix_app_r.
Qed.

Lemma binary_info_frame h buffer multi e : load_frame e (binary_info h buffer multi e).1.
Proof.
  unfold binary_info. destruct (negb multi); [apply on_library_frame|]. unfold with_plugin. case_match. apply load_frame_system.
Qed.

Lemma recovery_table loads f n T : table_ok loads T → table_ok loads (SetContextRecoveryInfo f n <$> T).
Proof.
  intros HT k m. rewrite lookup_fmap, fmap_Some. intros (m0 & Hk & ->). destruct (HT k m0 Hk) as (l & Hl & Hm). by exists l.
Qed.

(** How a binary is loaded: the system library reads what is in it, and a context is created from it. *)
Definition loads_binary (buffer : list Z) (path : string) (size : Z) (multi : bool) (l : load) : Prop :=
  (∃ h e0 e1, binary_info h buffer multi e0 = (e1, Ok (ld_count l, ld_graphs l))) ∧
  (∃ e0 e1, context_of_binary cfg buffer path (ld_node l) size e0 = (e1, Ok (ld_context l))).

Lemma load_cached_ok loads buffer path node T size multi e e' T' : htp_share_resource_optimization_ cfg = false →
  LoadCachedQnnContextFromBuffer cfg buffer path node T size multi e = (e', Ok T') → table_ok loads T →
  load_frame e e' ∧ ∃ l, ld_node l = node ∧ loads_binary buffer path size multi l ∧ ld_context l ∈ contexts_ (ep_backend e') ∧ table_ok (l :: loads) T'.
Proof.
  intros Hs E HT. unfold LoadCachedQnnContextFromBuffer in E. apply sbind_Ok in E as (e1 & [] & [-> _]%slift_Ok & E).
  unfold with_system_handle in E. apply sbind_Ok in E as (e1 & h & E1 & E). pose proof (on_library_frame GetSystemContextHandle e) as Hf1.
  rewrite E1 in Hf1. cbn in Hf1. destruct h as [h|]; [|by apply slift_Ok in E as [_ ?]].
  destruct (sbind _ _ e1) as [e2 r] eqn:E2. injection E as <- ->.
  apply sbind_Ok in E2 as (e3 & [n gi] & E3 & E2). pose proof (binary_info_frame h buffer multi e1) as Hf2. rewrite E3 in Hf2. cbn in Hf2.
  apply sbind_Ok in E2 as (e4 & [] & [-> _]%slift_Ok & E2). apply sbind_Ok in E2 as (e5 & c & E5 & E2).
  destruct (context_of_binary_ok _ _ _ _ _ _ _ Hs E5) as [Hf3 Hc]. apply sbind_Ok in E2 as (e6 & T1 & E6 & E2).
  destruct (load_graphs_ok (Load node n gi c) loads _ _ _ _ E6 HT) as [Hf4 HT1].
  apply sbind_Ok in E2 as (e7 & [] & [= <-] & E2). injection E2 as <- <-.
  assert (load_frame e e5) as Hf by (eapply load_frame_trans; [exact Hf1|]; eapply load_frame_trans; [exact Hf2|exact Hf3]).
  assert (load_frame e e6) as Hf6 by (by eapply load_frame_trans). split; [exact Hf6|].
  exists (Load node n gi c). split_and!; [done| | |].
  - split; [by exists h, e1, e3|by exists e3, e5].
  - cbn. destruct Hf4 as (_ & _ & [t ->]). rewrite Hc. set_solver.
  - destruct (negb _); [apply recovery_table|]; exact HT1.
Qed.

(** The load that the EPContext node at position [p] asks for. *)
Definition load_at (path : string) (size : Z) (graphs : list (list CtxNode)) (p : nat) (l : load) : Prop :=
  ∃ n w q, graphs !! p = Some [n] ∧ LoadQnnCtxFromOnnxGraph w [n] path = Ok q ∧ ld_node l = cn_name n ∧
    loads_binary (load_buffer q) (load_context_bin_filepath q) size (load_is_multi_soc q) l.

Lemma request_name w g path l : LoadQnnCtxFromOnnxGraph w g path = Ok l → ∃ n, g = [n] ∧ load_node_name l = cn_name n.
Proof.
  unfold LoadQnnCtxFromOnnxGraph, only_node. destruct g as [|n [|]]; try done. cbn [rbind]. intros E.
  exists n. split; [done|]. destruct (GetEpContextFromMainNode w n path) as [l'|[]] eqn:El; try done. injection E as ->.
  unfold GetEpContextFromMainNode in El. inv_bind El. inv_bind El. inv_bind El. destruct a0; [by injection El as <-|].
  inv_bind El. inv_bind El. inv_bind El. inv_bind El. by injection El as <-.
Qed.

Lemma load_contexts_ok path size graphs ps : htp_share_resource_optimization_ cfg = false → ∀ loads T e e' T',
  load_contexts cfg path size graphs ps T e = (e', Ok T') → table_ok loads T →
  load_frame e e' ∧ ∃ new, Forall2 (load_at path size graphs) ps new ∧ Forall (fun l => ld_context l ∈ contexts_ (ep_backend e')) new ∧
    table_ok (new ++ loads) T'.
Proof.
  intros Hs. induction ps as [|p ps IH]; intros loads T e e' T' E HT.
  - injection E as <- <-. split; [apply load_frame_refl|]. exists []. by repeat constructor.
  - cbn [load_contexts] in E. apply sbind_Ok in E as (e1 & g & [-> Eg]%slift_Ok & E). apply aget_Ok in Eg.
    apply sbind_Ok in E as (e1 & T1 & E1 & E). unfold load_context in E1. apply sbind_Ok in E1 as (e2 & w & [= <- <-] & E1).
    apply sbind_Ok in E1 as (e2 & q & [-> El]%slift_Ok & E1). destruct (request_name _ _ _ _ El) as (n & -> & Hn).
    destruct (LoadCachedQnnContextFromBuffer _ _ _ _ _ _ _ e) as [e2 [T2|[]]] eqn:Ec; try done. injection E1 as -> ->.
    destruct (load_cached_ok loads _ _ _ _ _ _ _ _ _ Hs Ec HT) as [Hf (l & Hl & Hb & Hc & HT1)].
    destruct (IH _ _ _ _ _ E HT1) as [Hf' (new & Hnew & Hcs & HT')].
    split; [by eapply load_frame_trans|]. exists (l :: new). split_and!.
    + constructor; [|done]. exists n, (ep_world e), q. by rewrite <- Hn.
    + constructor; [|done]. destruct Hf' as (_ & _ & [t ->]). set_solver.
    + eapply table_more; [|exact HT']. set_solver.
Qed.

(** A model that is connected keeps its graph and its file. *)
Definition same_graph (m m' : QnnModel) : Prop :=
  graph_info_ m' = graph_info_ m ∧ context_bin_filepath_ m' = context_bin_filepath_ m ∧ max_spill_fill_size_ m' = max_spill_fill_size_ m.

Lemma connect_ok f o m e e' : connect cfg f o m e = (e', Ok tt) → ∃ m' st,
  same_graph m m' ∧ e' = with_models (with_backend e (with_api (ep_backend e) st)) (emplace_new (fused_name f) m' (qnn_models_ e)).
Proof.
  unfold connect. intros E. apply sbind_Ok in E as (e1 & [m' []] & E1 & E). apply on_model_Ok in E1 as (b & E1 & ->). injection E as <-.
  apply xbind_Ok in E1 as ([m1 b1] & [] & E2 & E1). apply xbind_Ok in E1 as ([m2 b2] & [] & E3 & E1).
  unfold SetModelInputOutputInfo in E2. destruct (SetGraphInputOutputInfo _ _) as [[i o'] r]. injection E2 as <- <- ->.
  apply setup_io_spec in E3 as (Hb2 & g & ii & oi & _ & _ & _ & Hm2). cbn in Hb2, Hm2. subst b2 m2.
  apply apply_configs_spec in E1 as (Hm & st & Hb & _). cbn in Hm, Hb. subst m' b. eexists _, st. split; [|done]. done.
Qed.

Lemma emplace_lookup {A} (k k' : string) (v : A) m : m !! k = None → emplace_new k v m !! k' = (<[k := v]> m) !! k'.
Proof. unfold emplace_new. by intros ->. Qed.

(** Rows that take models of their own name. *)
Definition takes_own (T : gmap string QnnModel) (rows : list context_row) : Prop :=
  NoDup (row_node <$> rows) ∧ Forall (fun r => is_Some (T !! row_node r)) rows.

Lemma takes_own_cons T r rows : is_Some (T !! row_node r) → takes_own (delete (row_node r) T) rows → takes_own T (r :: rows).
Proof.
  intros Hr [Hd Hf]. split; [|constructor; [done|]].
  - cbn. apply NoDup_cons. split; [|done]. intros (r' & E & Hr')%list_elem_of_fmap. apply (proj1 (Forall_forall _ _) Hf) in Hr'.
    rewrite <- E, lookup_delete_eq in Hr'. by destruct Hr'.
  - eapply Forall_impl; [exact Hf|]. cbn. intros r' [m Hm]. apply lookup_delete_Some in Hm as [_ Hm]. by exists m.
Qed.

(** What adopting gives when the names are taken from their own entries. *)
Definition adopted (T : gmap string QnnModel) (e e' : Ep) (rows : list context_row) (T' : gmap string QnnModel) : Prop :=
  takes_own T rows ∧ (∀ k, T' !! k = if decide (k ∈ row_node <$> rows) then None else T !! k) ∧
  shared_qnn_models_ e' = shared_qnn_models_ e ∧ contexts_ (ep_backend e') = contexts_ (ep_backend e) ∧
  (NoDup ((fun r => fused_name (row_fused r)) <$> rows) → (∀ r, r ∈ rows → qnn_models_ e !! fused_name (row_fused r) = None) →
   (∀ n, n ∉ (fun r => fused_name (row_fused r)) <$> rows → qnn_models_ e' !! n = qnn_models_ e !! n) ∧
   ∀ r, r ∈ rows → ∃ m m', T !! row_node r = Some m ∧ qnn_models_ e' !! fused_name (row_fused r) = Some m' ∧ same_graph m m').

Lemma adopted_nil T e : adopted T e e [] T.
Proof.
  split_and!; [split; [apply NoDup_nil_2|apply Forall_nil_2]| |done|done|].
  - intros k. by rewrite decide_False by apply not_elem_of_nil.
  - intros _ _. split; [done|]. by intros r Hr%not_elem_of_nil.
Qed.

Lemma adopted_cons T r rows e e1 e' T' m : T !! row_node r = Some m → connect cfg (row_fused r) (row_overrides r) m e = (e1, Ok tt) →
  adopted (delete (row_node r) T) e1 e' rows T' → adopted T e e' (r :: rows) T'.
Proof.
  intros Hm Hc (Ho & HT' & Hs & Hx & Hq). destruct (connect_ok _ _ _ _ _ Hc) as (m1 & st & Hsame & ->). cbn in *. split_and!.
  - apply takes_own_cons; [by exists m|done].
  - intros k. rewrite HT'. cbn [fmap list_fmap]. destruct (decide (k = row_node r)) as [->|Hk].
    + rewrite lookup_delete_eq. rewrite (decide_True (P := row_node r ∈ row_node r :: _)) by left. by destruct (decide _).
    + rewrite lookup_delete_ne by done. destruct (decide (k ∈ row_node <$> rows)) as [Hin|Hin].
      * by rewrite decide_True by (by right).
      * rewrite decide_False; [done|]. by rewrite not_elem_of_cons.
  - done.
  - done.
  - intros Hnd Hnew. apply NoDup_cons in Hnd as [Hn Hnd]. pose proof (Hnew r ltac:(left)) as Hr.
    destruct Hq as [Hq1 Hq2]; [done| |].
    + intros r' Hr'. rewrite emplace_lookup by done. rewrite lookup_insert_ne; [apply Hnew; by right|].
      intros Heq. apply Hn. rewrite Heq. by apply (list_elem_of_fmap_2 (fun r => fused_name (row_fused r))).
    + split.
      * intros n Hnn. apply not_elem_of_cons in Hnn as [Hn1 Hn2]. rewrite Hq1 by done. rewrite emplace_lookup by done.
        by rewrite lookup_insert_ne.
      * intros r' [->|Hr']%elem_of_cons.
        -- exists m, m1. split_and!; [done| |done]. rewrite Hq1 by done. by rewrite emplace_lookup, lookup_insert_eq.
        -- destruct (Hq2 r' Hr') as (m2 & m2' & Hk2 & Hq2' & Hs2). apply lookup_delete_Some in Hk2 as [_ Hk2]. by exists m2, m2'.
Qed.

(** When the entry of the main node is gone, the model of another name can no longer be taken. *)
Lemma adopt_all_without_main main T rows e e' T' : T !! main = None → adopt_all cfg main T rows e = (e', Ok T') →
  adopted T e e' rows T' ∧ main ∉ row_node <$> rows.
Proof.
  revert T e. induction rows as [|r rows IH]; intros T e Hm E.
  - injection E as <- <-. split; [apply adopted_nil|apply not_elem_of_nil].
  - cbn [adopt_all] in E. apply sbind_Ok in E as (e1 & T1 & E1 & E). unfold adopt in E1.
    destruct (T !! row_node r) as [m|] eqn:Er.
    + rewrite bool_decide_true, Er in E1 by done. apply sbind_Ok in E1 as (e2 & [] & E2 & E1). injection E1 as <- <-.
      assert (row_node r ≠ main) as Hne by (intros Heq; rewrite Heq, Hm in Er; done).
      destruct (IH (delete (row_node r) T) _ ltac:(by rewrite lookup_delete_ne) E) as [Ha Hin]. split; [by eapply adopted_cons|].
      cbn. apply not_elem_of_cons. done.
    + rewrite bool_decide_false, Hm in E1 by (by intros []). by apply slift_Ok in E1 as [_ ?].
Qed.

(** The look-up under the name of the main node never helps: it takes the entry that the main node
    itself needs, so that a session that starts has found every graph under its own name. *)
Lemma adopt_all_own main T rows e e' T' : main ∈ row_node <$> rows → adopt_all cfg main T rows e = (e', Ok T') → adopted T e e' rows T'.
Proof.
  revert T e. induction rows as [|r rows IH]; intros T e Hm E; [by apply not_elem_of_nil in Hm|].
  cbn [adopt_all] in E. apply sbind_Ok in E as (e1 & T1 & E1 & E). unfold adopt in E1.
  destruct (T !! row_node r) as [m|] eqn:Er.
  - rewrite bool_decide_true, Er in E1 by done. apply sbind_Ok in E1 as (e2 & [] & E2 & E1). injection E1 as <- <-.
    destruct (decide (row_node r = main)) as [Heq|Hne].
    + eapply adopted_cons; [done|done|]. apply (adopt_all_without_main main); [by rewrite <- Heq, lookup_delete_eq|done].
    + eapply adopted_cons; [done|done|]. apply IH; [|done]. cbn in Hm. apply elem_of_cons in Hm as [->|]; done.
  - exfalso. rewrite bool_decide_false in E1 by (by intros []). destruct (T !! main) as [m|] eqn:Em; [|by apply slift_Ok in E1 as [_ ?]].
    apply sbind_Ok in E1 as (e2 & [] & E2 & E1). injection E1 as <- <-.
    destruct (adopt_all_without_main main _ _ _ _ _ (lookup_delete_eq T main) E) as [_ Hin].
    cbn in Hm. apply elem_of_cons in Hm as [Heq|]; [|done]. rewrite Heq, Er in Em. done.
Qed.

Lemma collect_rows_names graphs fused rows : collect_rows graphs fused = Ok rows → length graphs = length fused →
  row_fused <$> rows = fused ∧ Forall2 (fun g r => ∃ n, g !! 0%nat = Some n ∧ row_node r = cn_name n ∧ row_overrides r = ParseIoNameOverrides (Some n)) graphs rows.
Proof.
  revert fused rows. induction graphs as [|g graphs IH]; intros [|f fused] rows E Hl; try done.
  - by injection E as <-.
  - cbn in E. inv_bind E. inv_bind E. injection E as <-. apply aget_Ok in E0. destruct (IH fused _ E1) as [Hf Hg]; [cbn in Hl; lia|].
    split; [cbn; by rewrite Hf|]. constructor; [|done]. by exists a.
Qed.

(** The positions of the nodes that carry a binary. *)
Definition main_at (graphs : list (list CtxNode)) (p : nat) : Prop :=
  ∃ n, graphs !! p = Some [n] ∧ Get_i64 n MAIN_CONTEXT 0 = 1.

Lemma main_positions_spec graphs : ∀ k l, main_positions graphs k = Ok l →
  NoDup l ∧ ∀ p, p ∈ l ↔ ∃ q, p = (k + q)%nat ∧ main_at graphs q.
Proof.
  induction graphs as [|g graphs IH]; intros k l E; cbn in E.
  { injection E as <-. split; [constructor|]. intros p. split; [by intros ?%not_elem_of_nil|]. by intros (q & _ & n & Hn & _). }
  inv_bind E. inv_bind E. inv_bind E. unfold only_node in E0. destruct g as [|n [|]]; try done. injection E0 as <-.
  destruct (IH _ _ E2) as [Hnd Hin].
  assert (∀ p, (∃ q, p = (k + q)%nat ∧ main_at ([n] :: graphs) q) ↔ p = k ∧ Get_i64 n MAIN_CONTEXT 0 = 1 ∨ p ∈ a1) as Hsplit.
  { intros p. rewrite Hin. split.
    - intros ([|q] & -> & n' & Hn & Hm); [left; injection Hn as <-; split; [lia|done]|right]. exists q. split; [lia|]. by exists n'.
    - intros [[-> Hm]|(q & -> & n' & Hn & Hm)]; [exists 0%nat; split; [lia|by exists n]|exists (S q); split; [lia|by exists n']]. }
  assert (k ∉ a1) as Hk by (rewrite Hin; intros (q & ? & _); lia).
  destruct (Z.eqb_spec (Get_i64 n MAIN_CONTEXT 0) 1) as [Em|Em]; injection E as <-.
  - split; [by constructor|]. intros p. rewrite Hsplit, elem_of_cons. tauto.
  - split; [done|]. intros p. rewrite Hsplit. tauto.
Qed.

(** What [CompileContextModel] does when the models are not those of another session. *)
Lemma compile_context_Ok graphs fused e e' : CompileContextModel cfg graphs fused e = (e', Ok tt) →
  share_ep_contexts_ cfg && HasSharedQnnModels (shared_qnn_models_ e) = false →
  ∃ rows size ps e1 T e2 T' main, collect_rows graphs fused = Ok rows ∧
    load_contexts cfg (context_model_path cfg) size graphs ps ∅ e = (e1, Ok T) ∧
    main ∈ row_node <$> rows ∧ adopt_all cfg main T rows e1 = (e2, Ok T') ∧ share_rest cfg T' e2 = (e', Ok tt) ∧
    NoDup ps ∧ ∀ p, p ∈ ps ↔ main_at graphs p.
Proof.
  intros E Hs. unfold CompileContextModel in E. apply sbind_Ok in E as (e0 & rows & [-> Er]%slift_Ok & E).
  apply sbind_Ok in E as (e0 & ? & [= <- <-] & E). rewrite Hs in E. cbn [andb] in E.
  apply sbind_Ok in E as (e0 & l & [-> Epos]%slift_Ok & E). apply sbind_Ok in E as (e0 & n & [-> En]%slift_Ok & E).
  apply sbind_Ok in E as (e0 & [size ps] & [-> Eps]%slift_Ok & E). apply sbind_Ok in E as (e1 & T & E1 & E).
  apply sbind_Ok in E as (e0 & main & [-> Em]%slift_Ok & E). apply sbind_Ok in E as (e2 & T' & E2 & E).
  inv_bind Em. apply aget_Ok in Em. assert (ps ≡ₚ l) as Hperm.
  { unfold Pad.safe_u32 in En. destruct (_ && _) in En; [|done]. injection En as <-. rewrite Nat2Z.id in Eps.
    destruct (1 <? _) in Eps; [by apply max_spill_fill in Eps as (_ & ? & _)|by injection Eps as _ <-]. }
  unfold GetMainContextNode in Epos. inv_bind Epos. inv_bind Epos. injection Epos as ->.
  destruct (main_positions_spec _ _ _ Epos0) as [Hnd Hin]. exists rows, size, ps, e1, T, e2, T', (row_node main). split_and!; try done.
  - apply list_elem_of_fmap. exists main. split; [done|]. by eapply list_elem_of_lookup_2.
  - by rewrite Hperm.
  - intros p. rewrite Hperm, Hin. split; [by intros (q & -> & ?)|by exists p].
Qed.

End Facts.

(** ** Sessions that start *)

Module SessionExample.

#[local] Existing Instances exact_safe_int example_rpcmem example_mem example_api plain_app SystemExample.system_library.
#[local] Instance no_binary : QnnContextBinary :=
  {| contextGetBinarySize := Some (fun _ _ => (0, 2)); contextGetBinary := Some (fun _ _ _ => (0, 2, [65; 66])) |}.

Definition context_node (n file : string) (main size : Z) (overrides : string) : CtxNode :=
  Ctx EPCONTEXT_OP kMSDomain n [] [] [(EMBED_MODE, AttrInt 0); (EP_CACHE_CONTEXT, AttrString file); (MAIN_CONTEXT, AttrInt main);
    (MAX_SIZE, AttrInt size); (SOURCE, AttrString "QNN"); (IO_NAME_OVERRIDES, AttrString overrides)].
Definition fused (n : string) : FusedNode := Fused n (Some []) [Def "x" ONNX_FLOAT [1]] [Def "y" ONNX_FLOAT [1]].

(** The binaries [a.bin], [b.bin] and [ab.bin] hold the graphs that are named A, B, and both. *)
Definition start_world : CtxWorld :=
  World (<[file_of "d/a.bin" := [65]]> (<[file_of "d/b.bin" := [66]]> (<[file_of "d/ab.bin" := [65; 66]]> ∅))) tt "".
Definition start : Ep :=
  EpState ∅ (Backend w_start [] ∅ (Example.start_power 0) ∅ ([], 1%nat)) false (SysDlc None false, ∅) [] start_world.
Definition options (share : bool) : ep_settings :=
  EpSettings (Example.settings true) example_dims share false true "" "d/m.onnx" (fun _ => Ok false) (fun _ => Ok tt).

Definition two_graphs : list (list CtxNode) := [[context_node "B" "ab.bin" 0 0 ""]; [context_node "A" "ab.bin" 1 0 ""]].
Definition two_nodes : list FusedNode := [fused "F1"; fused "F0"].


(** The names and files of the models of a session. *)
Definition summary (r : Ep * result unit) : list (string * string * string) * list string * bool :=
  ((fun '(k, m) => (k, model_Name m, context_bin_filepath_ m)) <$> map_to_list (qnn_models_ r.1), model_Name <$> shared_qnn_models_ r.1,
   is_ok r.2).

(** Two binaries of one graph each: the model of the first is recovered from the file of the second. *)
Lemma recovery_file_of_another_context :
  let r := CompileContextModel (options false) [[context_node "N0" "a.bin" 1 16 ""]; [context_node "N1" "b.bin" 1 8 ""]] [fused "F0"; fused "F1"] start in
  is_ok r.2 = true ∧ (fun m => (model_Name m, context_bin_filepath_ m)) <$> qnn_models_ r.1 !! "F0" = Some ("A", "d/b.bin").
Proof. vm_compute. done. Qed.

(** A graph that no node of the session asks for is offered to the next session, which takes it without loading. *)
Lemma shared_graph_taken :
  let r := CompileContextModel (options true) [[context_node "A" "ab.bin" 1 0 ""]] [fused "F0"] start in
  let r' := CompileContextModel (options true) [[context_node "B" "missing.bin" 1 0 ""]] [fused "F1"] (with_models r.1 ∅) in
  summary r = ([("F0", "A", "d/ab.bin")], ["B"], true) ∧ summary r' = ([("F1", "B", "d/ab.bin")], [], true).
Proof. vm_compute. done. Qed.

(** The look-up under the name of the main node ends in an error: node M has no graph of its name. *)
Lemma main_name_does_not_help :
  is_ok (CompileContextModel (options false) [[context_node "M" "ab.bin" 0 0 ""]; [context_node "A" "ab.bin" 1 0 ""]] two_nodes start).2 = false.
Proof. vm_compute. reflexivity. Qed.

(** A reload after compiling gives the fused nodes models without a file: they cannot be recovered. *)
Definition reloaded : Ep * result unit := ReloadCompiledContext (options false) ([], []) [fused "A"; fused "B"]
  (with_backend start (Backend (AddQnnContextHandle w_start 0).1 [0%nat] ∅ (Example.start_power 0) ∅ ([], 1%nat))).
Lemma reload_without_file : summary reloaded = ([("A", "A", ""); ("B", "B", "")], [], true).
Proof. vm_compute. reflexivity. Qed.

(** The setting that clamps overflows is applied to the graphs of a context model, not to reloaded ones. *)
Lemma reload_without_settings :
  runtime_graph_configs_ <$> qnn_models_ (CompileContextModel (options false) two_graphs two_nodes start).1 !! "F0" = Some true ∧
  runtime_graph_configs_ <$> qnn_models_ reloaded.1 !! "A" = Some false.
Proof. vm_compute. done. Qed.

(** Two outputs whose names were overridden, in a binary that lists them the other way round: a
    session that loads the context model finds the second one in its place, a reload in the place of
    the first. *)
Lemma reload_by_position :
  let f := Fused "F" (Some []) [Def "x" ONNX_FLOAT [1]] [Def "a_q" ONNX_UINT8 [1]; Def "b_q" ONNX_UINT8 [1]] in
  let qnn_names := Some (["x"], ["b"; "a"]) in
  let bound overrides names := indices (SetGraphInputOutputInfo (node_context f names overrides) qnn_names).1.2 !! "b" in
  bound (<["a_q" := "a"]> (<["b_q" := "b"]> ∅)) None = Some 1%nat ∧ bound ∅ (Some (["x"], ["a"; "b"])) = Some 0%nat.
Proof. vm_compute. done. Qed.

End SessionExample.
